(* ===== verification/_CoqProject ===== *)
-Q . S2P
Prelude.v
Words.v
Aes.v
Md.v
Fips180.v
Sha256.v
Sha512.v
Sha1.v
Base64.v
Curve25519.v
Regex.v
RingBuf.v
Proto.v
Queue.v
Conversions.v
StrOps.v
Printf.v
MqttMsg.v
ClientHelper.v
MqttClient.v
Scheduler.v
FileSys.v
TmpFs.v
LittleFs.v
FsImpl.v
Vfs.v
FileStore.v
UserStore.v
Session.v
Auth.v
Command.v
LineEdit.v
Shell.v
CommandLine.v
SshMsg.v
SshServer.v
