(* ===== verification/Prelude.v ===== *)
(** * Verification of the PDI framework

    The framework is a portable device interface: utilities, a cooperative task
    scheduler, an MQTT client, cryptographic primitives, file systems behind a mount
    table, user accounts and a shell, on top of interfaces that every supported device
    implements.  This library models the parts of it that are written in the repository
    and do not touch the device, and proves what makes them correct.

    ** Conventions

    A C integer is a [Z]; every conversion and every wrap-around of the code is written
    out with [u8] ... [u64], [i8] ... [i64].  A block of memory is a [list Z] of bytes,
    accessed by [mget], [mset], [msub], [mcpy] and [mfill], which answer [None] outside
    the block: [None] as a result is undefined behaviour of the C++ code, so a theorem
    that a function returns [Some] shows that it stays inside its memory.  A C string is
    a block with a null byte ([cstring]), a null pointer is [None] of an option.  State is
    passed explicitly.  Interfaces of the device are type classes with their laws in a
    second class, or arguments; clocks, random numbers and what the network does are
    arguments too.

    ** Files

    - [Prelude.v]: machine integers, memory blocks, C strings, tactics and hints.
    - [Words.v]: loops over indices, bytes and words, bitwise reasoning.
    - [Aes.v] (utility/crypto/symmetric/aes/aes.cpp): key expansion, block cipher, ECB,
      CBC and the two CTR variants, against FIPS 197 and the modes of SP 800-38A.
    - [Md.v], [Fips180.v]: hashing by blocks with padding, and the constants and functions
      of FIPS 180-4; [Sha256.v], [Sha512.v], [Sha1.v] (utility/crypto/hash, hmac): the
      incremental hash functions and HMAC, against that standard and RFC 2104.
    - [Base64.v] (utility/Base64.cpp): the encoder and the key generator.
    - [Curve25519.v] (utility/crypto/asymmetric/curve25519): field arithmetic on sixteen
      limbs in aliased arrays, the ladder and the key pairs, against RFC 7748.
    - [Regex.v] (utility/RegexMatch.cpp): the matcher, against the language of a pattern.
    - [RingBuf.v], [Proto.v], [Queue.v] (utility/queue): the byte ring, the framing with
      escape bytes and the packet queue built from both.
    - [Conversions.v] (utility/DataTypeConversions.cpp), [StrOps.v] and [Printf.v]
      (utility/StringOperations.cpp): numbers, dates, texts and the printf family.
    - [MqttMsg.v], [MqttClient.v] (transports/mqtt), [ClientHelper.v]
      (helpers/ClientHelper.cpp): packets, connection and client state machine over the
      client interface, which is the class [Net] with the laws [NetSpec].
    - [Scheduler.v] (utility/TaskScheduler.cpp): registration, signals, scores, rounds.
    - [FileSys.v] (interface/pdi/modules/storage/iFileSystemInterface.h): the data of the
      file systems, the interface as the class [iFileSystem] and what its clients rely on
      as the class [FileSystemLaws], and the choice between two implementations.
    - [TmpFs.v] (interface/pdi/impl/modules/storage/TmpFs.cpp): the RAM file system.
    - [LittleFs.v] (.../storage/LittleFSWrapper.cpp): the wrapper of the flash file
      system.  The library it calls is vendored: it is the class [Lfs] of its calls, with
      its documented behaviour in [LfsSpec] (reading, writing, listing) and [LfsRoom]
      (there is room), and [ram_lfs] is an instance in memory.  The storage below the
      library is the class [iStorage].
    - [FsImpl.v] (.../storage/FileSystemInterfaceImpl.cpp): paths, names, working directory
      and metadata of the device's file system, which implements the interface.
    - [Vfs.v] (.../storage/VfsDispatcher.cpp): mounts, permission checks and routing; the
      mounted file systems are any that satisfy [FileSystemLaws].
    - [FileStore.v]: what a service that keeps its data in a few files relies on, as the
      class [FileStore], with the LittleFS wrapper as an instance; what the library
      promises about the names of these files is the class [LfsPlaces].
    - [UserStore.v] (service_provider/user): accounts and salted password hashes in
      /etc/passwd and /etc/shadow, over [FileStore].
    - [Session.v] (service_provider/session): the table of sessions, one per terminal, with
      the directory, mask, identity and input line of each.
    - [Auth.v] (service_provider/auth): who is accepted, and the identity a session is
      given; also the authentication step of the SSH server.
    - [Command.v] (utility/CommandBase.h): commands, their options, the parser of a line and
      the frame every command runs in.
    - [LineEdit.v] (the loop of processTerminalInput, utility/iIOInterface.h): the keys, the
      line and what is sent to the terminal, whose screen is modelled for the theorems.
    - [Shell.v] (service_provider/cmd/commands): fifteen commands for accounts, sessions,
      permissions and files, on a world of all services below.
    - [CommandLine.v] (service_provider/cmd/CommandLineServiceProvider.cpp): the list of
      running commands, history, completion, prompts, and what an input does.
    - [SshMsg.v] (service_provider/shell/ssh/SSHServiceUtil.cpp): strings, lists and
      messages of the SSH protocol, the exchange hash and the derivation of keys.
    - [SshServer.v] (.../ssh/SSHServiceUtil.cpp, SSHServiceprovider.cpp): packets in the
      clear and encrypted, the exchange of versions and keys, the login, and the states of
      a session, over [Net], the file systems, the sessions and the authentication service.
      The signature of the host key and the handler of a channel are arguments.

    ** What the theorems show

    - Refinement: the ring is a bounded FIFO, the queue a FIFO of packets, the set of
      subscriptions a set of names, the RAM file system a map from paths to nodes with
      all its errors, the table of sessions a map from terminals to sessions, the line
      editor a text with a cursor that the screen shows.
    - Equivalence with a standard: AES, SHA-1, SHA-256, SHA-512, HMAC and X25519 compute
      what their standards define, for every message, key and way of splitting the
      input; the tables are checked against the standard's construction.
    - Safety: the MQTT client survives every history of calls and network behaviour
      inside its memory, the decoders read inside the packet, a scheduler round runs at
      most one callback.
    - Files: a path is served by the longest mount prefix that ends at a component, the
      checked operations demand the permission bits of their session, a copy across mounts
      copies all or nothing; the LittleFS wrapper reads, searches, counts lines and edits as
      the content says, for every size of file and chunk; paths reach a normal form.
    - Accounts and logins: setting a password, adding and removing an account do what they
      say and nothing to other users, on any store of files; a login is accepted exactly
      when the stored hash or the login table says so, on one line as over two prompts, and
      gives the session the account's identity; until then an invariant over all histories
      of inputs keeps everything but the line, the history file and refused logins as it
      was.
    - SSH: an encrypted packet comes through and keeps both sides in step, messages are read
      as they were built, the key exchange and the keys are those of the RFCs, and in every
      history of calls a channel is reached only through an accepted login; a concrete run
      logs in.
    - Functional behaviour and round trips of the builders, decoders, conversions, string
      operations, regular expressions and file contents.
    - Errors: each theorem about a defect states what the code does for every input of
      the kind described; the defects are listed as findings.

    ** Fuel

    Loops of the code whose bound is not structural take fuel that is computed from the
    input: the length of the text plus one for the matcher's recursion, the bytes left
    for reading and sending loops, the size of the file for the loops over its content, the
    number of ticks and answers for waiting loops, the length of the line or of the format
    for their parsers, the bytes available for the keys of a terminal, and 65536 for the
    search of a free user number.  The loop that reads the version of an SSH client ends
    when no byte is there, which is up to the network: its fuel is an argument and the
    theorems hold for every value of it.  For the others the
    theorems prove that this fuel is never used up: they state that a result exists, not
    only what it is if there is one.

    ** Not modelled

    Log output, and terminal output but for the line editor; binary floating point
    (FloatToString, a parameter of the printf family); Ed25519, whose signature is an
    argument of the SSH server; what happens on an SSH channel, among it SFTP; the shell commands that
    print tables, control the network or edit on the screen; the pointer of a command to its
    terminal, which is there whenever a line is run; the calls to yield between steps;
    the littlefs library and lwIP, which are vendored (the first is a parameter); the
    drivers of the devices, whose libraries are not in the repository; the file systems that
    show devices, processes and settings; web pages; the HTTP, SMTP and telnet services, which are
    protocols over the device's sockets; the services that only forward to drivers. *)

From stdpp Require Import base option list numbers.
From Stdlib Require Import ZArith Lia.

Open Scope Z_scope.

(** ** Machine integers

    Every C integer is a [Z]; the conversions below are the implicit and
    explicit casts the sources perform. *)

Definition u8 (x : Z) : Z := x mod 256.
Definition u16 (x : Z) : Z := x mod 65536.
Definition u32 (x : Z) : Z := x mod 4294967296.
Definition u64 (x : Z) : Z := x mod 18446744073709551616.
Definition i8 (x : Z) : Z := (x + 128) mod 256 - 128.
Definition i16 (x : Z) : Z := (x + 32768) mod 65536 - 32768.
Definition i32 (x : Z) : Z := (x + 2147483648) mod 4294967296 - 2147483648.
Definition i64 (x : Z) : Z :=
  (x + 9223372036854775808) mod 18446744073709551616 - 9223372036854775808.

(** [wrap_lia] is [lia] after unfolding the casts. *)
Ltac wrap_lia :=
  unfold u8, u16, u32, u64, i8, i16, i32, i64 in *;
  try lia; Z.div_mod_to_equations; lia.

(** [lia] with division and remainder by constants. *)
Ltac div_lia := Z.div_mod_to_equations; lia.

(** Componentwise proof of an equation between tuples. *)
Ltac split_pairs :=
  repeat match goal with |- (_, _) = (_, _) => apply (f_equal2 pair) end.

Create HintDb pdi.

Section casts.
Lemma u8_small x : 0 <= x < 256 -> u8 x = x.
Proof. intros; apply Z.mod_small; lia. Qed.
Lemma u16_small x : 0 <= x < 65536 -> u16 x = x.
Proof. intros; apply Z.mod_small; lia. Qed.
Lemma u32_small x : 0 <= x < 4294967296 -> u32 x = x.
Proof. intros; apply Z.mod_small; lia. Qed.
Lemma u64_small x : 0 <= x < 18446744073709551616 -> u64 x = x.
Proof. intros; apply Z.mod_small; lia. Qed.
Lemma i32_small x : -2147483648 <= x < 2147483648 -> i32 x = x.
Proof. intros; unfold i32; rewrite Z.mod_small; lia. Qed.
Lemma i64_small x :
  -9223372036854775808 <= x < 9223372036854775808 -> i64 x = x.
Proof. intros; unfold i64; rewrite Z.mod_small; lia. Qed.
Lemma u8_range x : 0 <= u8 x < 256.
Proof. apply Z.mod_pos_bound; lia. Qed.
Lemma u16_range x : 0 <= u16 x < 65536.
Proof. apply Z.mod_pos_bound; lia. Qed.
Lemma u32_range x : 0 <= u32 x < 4294967296.
Proof. apply Z.mod_pos_bound; lia. Qed.
End casts.

#[export] Hint Resolve u8_range u16_range u32_range : pdi.

(** A value of type [int], or undefined when it does not fit. *)
Definition int_val (x : Z) : option Z :=
  if (-2147483648 <=? x) && (x <=? 2147483647) then Some x else None.

Lemma int_val_Some x : -2147483648 <= x <= 2147483647 -> int_val x = Some x.
Proof.
  intros H. unfold int_val.
  destruct (Z.leb_spec (-2147483648) x), (Z.leb_spec x 2147483647); simpl; auto; lia.
Qed.

(** ** Bytes and memory blocks

    A block of memory is the list of its bytes.  An access outside the block
    is undefined behaviour in C; the checked accessors return [None] for it,
    so [None] travels to the result of the whole operation and a theorem that
    an operation returns [Some] is a memory-safety theorem. *)

Definition byte_ok (b : Z) : Prop := 0 <= b < 256.
Abbreviation bytes_ok := (Forall byte_ok).

Definition zlen {A} (l : list A) : Z := Z.of_nat (length l).

Definition mget (m : list Z) (i : Z) : option Z :=
  if 0 <=? i then m !! Z.to_nat i else None.

Definition mset (m : list Z) (i v : Z) : option (list Z) :=
  if (0 <=? i) && (i <? zlen m) then Some (<[Z.to_nat i := v]> m) else None.

(** [memcpy(m + off, src, zlen src)] *)
Definition mcpy (m : list Z) (off : Z) (src : list Z) : option (list Z) :=
  if (0 <=? off) && (off + zlen src <=? zlen m)
  then Some (take (Z.to_nat off) m ++ src ++ drop (Z.to_nat (off + zlen src)) m)
  else None.

(** [memset(m + off, v, n)] *)
Definition mfill (m : list Z) (off v n : Z) : option (list Z) :=
  mcpy m off (replicate (Z.to_nat n) v).

(** [n] bytes read from offset [off]. *)
Definition msub (m : list Z) (off n : Z) : option (list Z) :=
  if (0 <=? off) && (0 <=? n) && (off + n <=? zlen m)
  then Some (take (Z.to_nat n) (drop (Z.to_nat off) m)) else None.

#[global] Arguments mget : simpl never.
#[global] Arguments mset : simpl never.
#[global] Arguments mcpy : simpl never.
#[global] Arguments msub : simpl never.

(** Sequencing of computations that may be undefined. *)
Declare Scope ub_scope.
Delimit Scope ub_scope with ub.
Notation "x <- c ;; k" :=
  (match c with Some x => k | None => None end)
  (at level 20, c at level 99, k at level 200) : ub_scope.
Notation "' p <- c ;; k" :=
  (match c with Some p => k | None => None end)
  (at level 20, p pattern, c at level 99, k at level 200) : ub_scope.
Open Scope ub_scope.

Section memory.
Implicit Types (m s : list Z) (i v : Z).

Lemma zlen_app {A} (l k : list A) : zlen (l ++ k) = zlen l + zlen k.
Proof. unfold zlen; rewrite length_app; lia. Qed.
Lemma zlen_cons {A} (x : A) (l : list A) : zlen (x :: l) = 1 + zlen l.
Proof. unfold zlen; simpl; lia. Qed.
Lemma zlen_nil {A} : zlen (@nil A) = 0.
Proof. reflexivity. Qed.
Lemma zlen_nonneg {A} (l : list A) : 0 <= zlen l.
Proof. unfold zlen; lia. Qed.

Lemma mset_Some m i v :
  0 <= i < zlen m -> mset m i v = Some (<[Z.to_nat i := v]> m).
Proof.
  intros H; unfold mset.
  destruct (Z.leb_spec 0 i), (Z.ltb_spec i (zlen m)); simpl; auto; lia.
Qed.

Lemma mget_Some m i : 0 <= i < zlen m -> mget m i = Some (m !!! Z.to_nat i).
Proof.
  intros H; unfold mget, zlen in *.
  destruct (Z.leb_spec 0 i); [|lia].
  apply list_lookup_lookup_total_lt; lia.
Qed.

Lemma mget_app_l p post i : i < zlen p -> mget (p ++ post) i = mget p i.
Proof.
  intros Hi. unfold mget. destruct (Z.leb_spec 0 i); [|done].
  apply lookup_app_l. unfold zlen in Hi. lia.
Qed.

Lemma mget_app_mid pre x post : mget (pre ++ x :: post) (zlen pre) = Some x.
Proof.
  rewrite mget_Some by (pose proof (zlen_nonneg pre); pose proof (zlen_nonneg post);
                        rewrite zlen_app, zlen_cons; lia).
  unfold zlen. rewrite Nat2Z.id, lookup_total_app_r by lia.
  rewrite Nat.sub_diag. done.
Qed.

Lemma mset_app_mid pre x post v :
  mset (pre ++ x :: post) (zlen pre) v = Some (pre ++ v :: post).
Proof.
  rewrite mset_Some by (pose proof (zlen_nonneg pre); pose proof (zlen_nonneg post);
                        rewrite zlen_app, zlen_cons; lia).
  unfold zlen. rewrite Nat2Z.id, insert_app_r_alt by lia.
  rewrite Nat.sub_diag. done.
Qed.

Lemma mset_0 a l v : mset (a :: l) 0 v = Some (v :: l).
Proof. exact (mset_app_mid [] a l v). Qed.
Lemma mset_1 a b l v : mset (a :: b :: l) 1 v = Some (a :: v :: l).
Proof. exact (mset_app_mid [a] b l v). Qed.
Lemma mset_2 a b c l v : mset (a :: b :: c :: l) 2 v = Some (a :: b :: v :: l).
Proof. exact (mset_app_mid [a; b] c l v). Qed.

Lemma msub_app_mid pre s post : msub (pre ++ s ++ post) (zlen pre) (zlen s) = Some s.
Proof.
  unfold msub. pose proof (zlen_nonneg pre). pose proof (zlen_nonneg s).
  pose proof (zlen_nonneg post). rewrite !zlen_app.
  destruct (Z.leb_spec 0 (zlen pre)), (Z.leb_spec 0 (zlen s)),
    (Z.leb_spec (zlen pre + zlen s) (zlen pre + (zlen s + zlen post))); simpl; try lia.
  unfold zlen. rewrite !Nat2Z.id, drop_app_length, take_app_length. done.
Qed.

Lemma mcpy_app_mid pre old post s :
  zlen old = zlen s -> mcpy (pre ++ old ++ post) (zlen pre) s = Some (pre ++ s ++ post).
Proof.
  intros E. unfold mcpy. pose proof (zlen_nonneg pre). pose proof (zlen_nonneg post).
  rewrite !zlen_app, E.
  destruct (Z.leb_spec 0 (zlen pre)),
    (Z.leb_spec (zlen pre + zlen s) (zlen pre + (zlen s + zlen post))); simpl; try lia.
  f_equal. unfold zlen in *. rewrite Nat2Z.id, take_app_length. do 2 f_equal.
  replace (Z.to_nat (Z.of_nat (length pre) + Z.of_nat (length s)))
    with (length pre + length old)%nat by lia.
  rewrite <- drop_drop, !drop_app_length. done.
Qed.

Lemma insert_take_snoc (m : list Z) (i : nat) (v : Z) :
  (i < length m)%nat -> take (S i) (<[i := v]> m) = take i m ++ [v].
Proof.
  intros H. rewrite (take_S_r _ _ v) by (apply list_lookup_insert_eq; done).
  rewrite take_insert_ge by lia. done.
Qed.

Lemma mcpy_0 old post s : zlen old = zlen s -> mcpy (old ++ post) 0 s = Some (s ++ post).
Proof. exact (mcpy_app_mid [] old post s). Qed.

Lemma zlen_replicate {A} (n : Z) (x : A) : 0 <= n -> zlen (replicate (Z.to_nat n) x) = n.
Proof. intros. unfold zlen. rewrite length_replicate. lia. Qed.

Lemma mfill_0 m v n : 0 <= n <= zlen m ->
  mfill m 0 v n = Some (replicate (Z.to_nat n) v ++ drop (Z.to_nat n) m).
Proof.
  intros H. unfold mfill. rewrite <- (take_drop (Z.to_nat n) m) at 1.
  apply mcpy_0. rewrite zlen_replicate by lia. unfold zlen in *. rewrite length_take. lia.
Qed.

Lemma zsplit {A} (l : list A) (n : Z) :
  0 <= n <= zlen l -> exists l1 l2, l = l1 ++ l2 /\ zlen l1 = n.
Proof.
  intros H. exists (take (Z.to_nat n) l), (drop (Z.to_nat n) l).
  rewrite take_drop. split; [done|]. unfold zlen in *. rewrite length_take. lia.
Qed.
End memory.

(** A fact about a small range of integers, by computation. *)
Lemma forall_below (P : Z -> bool) (n : Z) :
  forallb P (seqZ 0 n) = true -> forall x, 0 <= x < n -> P x = true.
Proof.
  intros H x Hx. rewrite forallb_forall in H. apply H.
  apply list_elem_of_In, elem_of_seqZ. lia.
Qed.

Lemma lor_128 x : 0 <= x < 128 -> Z.lor 128 x = 128 + x.
Proof.
  intros H. apply Z.eqb_eq.
  apply (forall_below (fun x => Z.lor 128 x =? 128 + x) 128); [vm_compute; done|done].
Qed.

Lemma land_127 x : 0 <= x < 256 -> Z.land x 0x7f = x mod 128.
Proof. intros _. exact (Z.land_ones x 7 ltac:(lia)). Qed.

Lemma land_128 x : 0 <= x < 256 -> (Z.land x 0x80 =? 0) = (x <? 128).
Proof.
  intros H. apply Bool.eqb_prop.
  apply (forall_below (fun x => Bool.eqb (Z.land x 0x80 =? 0) (x <? 128)) 256);
    [vm_compute; done|done].
Qed.

(** A high and a low byte put together. *)
Lemma lor_word a b : 0 <= b < 256 -> Z.lor (Z.shiftl a 8) b = a * 256 + b.
Proof.
  intros Hb. rewrite Z.shiftl_mul_pow2 by lia. change (2 ^ 8) with 256.
  rewrite <- (Z.add_lor_land (a * 256) b).
  replace (Z.land (a * 256) b) with 0; [lia|].
  replace b with (Z.land (Z.ones 8) b) at 1.
  - rewrite Z.land_assoc, Z.land_ones by lia.
    change (2 ^ 8) with 256. rewrite Z_mod_mult. done.
  - rewrite Z.land_comm, Z.land_ones by lia. apply Z.mod_small. done.
Qed.

(** ** C strings

    A [char *] is the list of the characters readable from it on. *)

Fixpoint strlen (m : list Z) : option Z :=
  match m with
  | [] => None
  | c :: m => if c =? 0 then Some 0 else n <- strlen m;; Some (n + 1)
  end.

(** The characters of a string, without its terminator. *)
Definition no_nul (s : list Z) : Prop := Forall (fun c => c <> 0) s.

(** A text without the character [x]. *)
Definition without (x : Z) (s : list Z) : Prop := Forall (fun c => c <> x) s.

(** [s] is what the string at [m] reads as. *)
Definition cstring (m s : list Z) : Prop := no_nul s /\ exists x, m = s ++ 0 :: x.

Section strings.
Lemma strlen_app s x : no_nul s -> strlen (s ++ 0 :: x) = Some (zlen s).
Proof.
  induction s as [|c s IH]; intros H; simpl; [done|].
  apply Forall_cons_iff in H as [Hc H]. rewrite IH by done.
  destruct (Z.eqb_spec c 0); [done|]. rewrite zlen_cons. f_equal; lia.
Qed.

Lemma strlen_cstring m s : cstring m s -> strlen m = Some (zlen s).
Proof. intros [H [x ->]]. by apply strlen_app. Qed.

Lemma no_nul_or w : no_nul w \/ exists s r, no_nul s /\ w = s ++ 0 :: r.
Proof.
  induction w as [|c w IH]; [by left; constructor|]. destruct (decide (c = 0)) as [->|Hc].
  { right. exists [], w. split; [constructor|done]. }
  destruct IH as [IH|(s & r & Hs & ->)]; [left; by constructor|]. right. exists (c :: s), r. split; [by constructor|done].
Qed.

(** The test [p[0] == '\0'] decides emptiness. *)
Lemma cstring_first m s :
  cstring m s -> exists c, mget m 0 = Some c /\ (c =? 0) = bool_decide (s = []).
Proof.
  intros [H [x ->]]. destruct s as [|c s].
  - by exists 0.
  - apply Forall_cons_iff in H as [Hc _]. exists c. split; [done|].
    destruct (Z.eqb_spec c 0); [done|]. by rewrite bool_decide_eq_false_2.
Qed.

Lemma msub_cstring m s : cstring m s -> msub m 0 (zlen s) = Some s.
Proof.
  intros [_ [x ->]]. unfold msub. pose proof (zlen_nonneg s).
  rewrite zlen_app, zlen_cons. pose proof (zlen_nonneg x).
  destruct (Z.leb_spec 0 (zlen s)), (Z.leb_spec (0 + zlen s) (zlen s + (1 + zlen x)));
    simpl; try lia.
  unfold zlen. rewrite Nat2Z.id. f_equal. apply take_app_length.
Qed.
End strings.
