(* ===== verification/Words.v ===== *)
(** * Loops, bytes and machine words of the cryptographic code

    What the models of the cipher, the hashes and the curve share: the counting
    loop of C as a function, its invariant rule, exclusive-or on bytes and words,
    and blocks of fixed length. *)

From stdpp Require Import base option list numbers.
From Stdlib Require Import ZArith Lia Btauto.
From S2P Require Import Prelude.

Open Scope Z_scope.

(** [for (i = i0; n rounds; ++i) body] with a body that can be undefined. *)
Fixpoint for_loop {S} (n : nat) (i : Z) (body : Z -> S -> option S) (s : S) : option S :=
  match n with
  | O => Some s
  | Datatypes.S n => s <- body i s;; for_loop n (i + 1) body s
  end.

(** The invariant rule: a body that takes [P i] to [P (i + 1)] is defined in every
    round, and the loop ends in [P (i + n)]. *)
Lemma for_loop_inv {S} (P : Z -> S -> Prop) n i body s :
  (forall k x, i <= k < i + Z.of_nat n -> P k x -> exists y, body k x = Some y /\ P (k + 1) y) ->
  P i s -> exists y, for_loop n i body s = Some y /\ P (i + Z.of_nat n) y.
Proof.
  revert i s. induction n as [|n IH]; intros i s Hb Hs; cbn [for_loop].
  - exists s. split; [done|]. by replace (i + Z.of_nat 0) with i by lia.
  - destruct (Hb i s) as (y & -> & Hy); [lia|done|].
    destruct (IH (i + 1) y) as (z & -> & Hz); [|done|].
    + intros k x Hk. apply Hb. lia.
    + exists z. split; [done|]. by replace (i + Z.of_nat (Datatypes.S n)) with (i + 1 + Z.of_nat n) by lia.
Qed.

Lemma for_loop_add {S} n m i (body : Z -> S -> option S) s :
  for_loop (n + m) i body s = (s <- for_loop n i body s;; for_loop m (i + Z.of_nat n) body s).
Proof.
  revert i s. induction n as [|n IH]; intros i s; cbn [for_loop plus].
  - by replace (i + Z.of_nat 0) with i by lia.
  - destruct (body i s) as [y|]; [|done]. rewrite IH.
    by replace (i + 1 + Z.of_nat n) with (i + Z.of_nat (Datatypes.S n)) by lia.
Qed.

(** Equality of expressions in exclusive or (and other bitwise operations without
    shifts), bit by bit. *)
Ltac bitwise :=
  apply Z.bits_inj'; intros;
  repeat first [rewrite Z.lxor_spec | rewrite Z.land_spec | rewrite Z.lor_spec | rewrite Z.bits_0];
  btauto.

Lemma lxor_range k a b :
  0 <= k -> 0 <= a < 2 ^ k -> 0 <= b < 2 ^ k -> 0 <= Z.lxor a b < 2 ^ k.
Proof.
  intros Hk Ha Hb.
  assert (Z.lxor a b = Z.lxor a b mod 2 ^ k) as ->.
  { apply Z.bits_inj'. intros n Hn.
    destruct (decide (n < k)) as [|Hge].
    - by rewrite Z.mod_pow2_bits_low by lia.
    - rewrite Z.mod_pow2_bits_high, Z.lxor_spec by lia.
      rewrite <- (Z.mod_small a (2 ^ k)), <- (Z.mod_small b (2 ^ k)) by lia.
      by rewrite !Z.mod_pow2_bits_high by lia. }
  apply Z.mod_pos_bound. lia.
Qed.

Lemma lxor_byte a b : byte_ok a -> byte_ok b -> byte_ok (Z.lxor a b).
Proof. unfold byte_ok. change 256 with (2 ^ 8). by apply lxor_range. Qed.

#[export] Hint Resolve lxor_byte : pdi.

(** Exclusive or of two blocks of the same length, byte by byte. *)
Definition xor_bytes (a b : list Z) : list Z := zip_with Z.lxor a b.

Lemma xor_bytes_length a b : length a = length b -> length (xor_bytes a b) = length a.
Proof. intros H. unfold xor_bytes. rewrite length_zip_with. lia. Qed.

Lemma xor_bytes_ok a b : bytes_ok a -> bytes_ok b -> bytes_ok (xor_bytes a b).
Proof.
  intros Ha. revert b. induction Ha as [|x a Hx Ha IH]; intros b Hb; [constructor|].
  destruct Hb as [|y b Hy Hb]; [constructor|]. unfold xor_bytes in *. constructor; auto with pdi.
Qed.

Lemma xor_bytes_cancel a k :
  (length a <= length k)%nat -> xor_bytes (xor_bytes a k) k = a.
Proof.
  revert k. induction a as [|x a IH]; intros [|y k] H; simpl in H; try done; [lia|].
  unfold xor_bytes in *. cbn [zip_with]. rewrite IH by lia. f_equal. bitwise.
Qed.

#[export] Hint Resolve xor_bytes_ok : pdi.

(** *** Big-endian numbers *)

Definition be_val (l : list Z) : Z := foldl (fun a b => a * 256 + b) 0 l.

(** The [n] bytes of [v], most significant first. *)
Fixpoint be_bytes (n : nat) (v : Z) : list Z :=
  match n with
  | O => []
  | S n => be_bytes n (v / 256) ++ [v mod 256]
  end.

Lemma be_val_snoc l b : be_val (l ++ [b]) = be_val l * 256 + b.
Proof. unfold be_val. by rewrite foldl_app. Qed.

Lemma be_bytes_length n v : length (be_bytes n v) = n.
Proof.
  revert v. induction n as [|n IH]; intros v; [done|]. cbn [be_bytes]. rewrite length_app, IH. simpl. lia.
Qed.

Lemma be_bytes_ok n v : bytes_ok (be_bytes n v).
Proof.
  revert v. induction n as [|n IH]; intros v; [constructor|]. cbn [be_bytes].
  apply Forall_app_2; [done|]. apply Forall_singleton. unfold byte_ok. apply Z.mod_pos_bound. lia.
Qed.

Lemma be_val_range l : bytes_ok l -> 0 <= be_val l < 256 ^ zlen l.
Proof.
  intros Hl. induction l as [|b l IH] using rev_ind; [done|].
  apply Forall_app in Hl as [Hl Hb]. apply Forall_cons_1 in Hb as [Hb _]. unfold byte_ok in Hb.
  rewrite be_val_snoc, zlen_app. change (zlen [b]) with 1. specialize (IH Hl).
  rewrite Z.pow_add_r by (unfold zlen; lia). change (256 ^ 1) with 256. lia.
Qed.

Lemma be_bytes_val n l : bytes_ok l -> length l = n -> be_bytes n (be_val l) = l.
Proof.
  intros Hl. revert n. induction l as [|b l IH] using rev_ind; intros n Hn.
  - by destruct n.
  - apply Forall_app in Hl as [Hl Hb]. apply Forall_cons_1 in Hb as [Hb _]. unfold byte_ok in Hb.
    rewrite length_app in Hn. simpl in Hn. destruct n as [|n]; [lia|].
    cbn [be_bytes]. rewrite be_val_snoc. rewrite Z.div_add_l by lia. rewrite Z.div_small by lia.
    rewrite Z.add_0_r, IH by (done || lia). do 2 f_equal. rewrite Z.add_comm, Z_mod_plus_full.
    by apply Z.mod_small.
Qed.

Lemma be_val_bytes n v : be_val (be_bytes n v) = v mod 256 ^ Z.of_nat n.
Proof.
  revert v. induction n as [|n IH]; intros v; [by rewrite Z.mod_1_r|].
  cbn [be_bytes]. rewrite be_val_snoc, IH.
  replace (Z.of_nat (S n)) with (1 + Z.of_nat n) by lia. rewrite Z.pow_add_r by lia.
  change (256 ^ 1) with 256. rewrite Z.rem_mul_r by lia. lia.
Qed.

Lemma be_bytes_mod n v : be_bytes n (v mod 256 ^ Z.of_nat n) = be_bytes n v.
Proof. rewrite <- be_val_bytes. apply be_bytes_val; [apply be_bytes_ok|apply be_bytes_length]. Qed.

(** *** Words of [w] bits *)

Definition word_ok (w x : Z) : Prop := 0 <= x < 2 ^ w.

(** Rotation to the right, as arithmetic. *)
Definition rotr (w n x : Z) : Z := x / 2 ^ n + (x mod 2 ^ n) * 2 ^ (w - n).

Lemma lor_add_shiftl a b k : 0 <= k -> 0 <= a < 2 ^ k -> Z.lor a (Z.shiftl b k) = a + b * 2 ^ k.
Proof.
  intros Hk Ha. rewrite <- Z.shiftl_mul_pow2 by done.
  assert (Z.land a (Z.shiftl b k) = 0) as E.
  { apply Z.bits_inj'. intros n Hn. rewrite Z.land_spec, Z.bits_0.
    destruct (decide (n < k)) as [|H].
    - rewrite (Z.shiftl_spec_low b) by lia. by rewrite andb_false_r.
    - rewrite <- (Z.mod_small a (2 ^ k)) by lia. by rewrite Z.mod_pow2_bits_high by lia. }
  rewrite Z.add_nocarry_lxor by done. symmetry. by apply Z.lxor_lor.
Qed.

(** [(x << k) mod 2^w] keeps the low bits. *)
Lemma shiftl_mod_word w k x : 0 <= k <= w -> Z.shiftl x k mod 2 ^ w = (x mod 2 ^ (w - k)) * 2 ^ k.
Proof.
  intros Hk. rewrite Z.shiftl_mul_pow2 by lia. replace w with (w - k + k) at 1 by lia.
  rewrite Z.pow_add_r by lia. by rewrite Z.mul_mod_distr_r by lia.
Qed.

(** The rotations as the sources write them. *)
Lemma rotr_shifts w n x : 0 <= n <= w -> word_ok w x ->
  Z.lor (Z.shiftr x n) (Z.shiftl x (w - n) mod 2 ^ w) = rotr w n x.
Proof.
  intros Hn Hx. unfold word_ok in Hx. rewrite shiftl_mod_word by lia.
  replace (w - (w - n)) with n by lia. rewrite <- Z.shiftl_mul_pow2, Z.shiftr_div_pow2 by lia.
  unfold rotr. apply lor_add_shiftl; [lia|]. split; [apply Z.div_pos; lia|].
  apply Z.div_lt_upper_bound; [lia|]. rewrite <- Z.pow_add_r by lia.
  replace (n + (w - n)) with w by lia. lia.
Qed.

Lemma rotr_ok w n x : 0 <= n <= w -> word_ok w x -> word_ok w (rotr w n x).
Proof.
  intros Hn Hx. unfold word_ok, rotr in *.
  assert (2 ^ w = 2 ^ n * 2 ^ (w - n)) as E by (rewrite <- Z.pow_add_r by lia; f_equal; lia).
  assert (0 < 2 ^ n) by lia. assert (0 < 2 ^ (w - n)) by (apply Z.pow_pos_nonneg; lia).
  pose proof (Z.mod_pos_bound x (2 ^ n) ltac:(lia)).
  assert (0 <= x / 2 ^ n < 2 ^ (w - n)) by (split; [apply Z.div_pos; lia|apply Z.div_lt_upper_bound; lia]).
  nia.
Qed.

Lemma bitop_ok w f x y :
  0 <= w -> (forall n, Z.testbit (f x y) n = true -> Z.testbit x n = true \/ Z.testbit y n = true) ->
  (0 <= f x y) -> word_ok w x -> word_ok w y -> word_ok w (f x y).
Proof.
  unfold word_ok. intros Hw Hf Hp Hx Hy.
  assert (f x y = f x y mod 2 ^ w) as ->; [|apply Z.mod_pos_bound; lia].
  apply Z.bits_inj'. intros n Hn. destruct (decide (n < w)) as [|H].
  - by rewrite Z.mod_pow2_bits_low by lia.
  - rewrite Z.mod_pow2_bits_high by lia. destruct (Z.testbit (f x y) n) eqn:E; [|done].
    destruct (Hf n E) as [E'|E']; [rewrite <- (Z.mod_small x (2 ^ w)) in E' by lia|
      rewrite <- (Z.mod_small y (2 ^ w)) in E' by lia]; by rewrite Z.mod_pow2_bits_high in E' by lia.
Qed.

Lemma lxor_ok w x y : 0 <= w -> word_ok w x -> word_ok w y -> word_ok w (Z.lxor x y).
Proof. intros. by apply lxor_range. Qed.

Lemma land_ok w x y : 0 <= w -> word_ok w x -> word_ok w y -> word_ok w (Z.land x y).
Proof.
  intros Hw Hx Hy. apply bitop_ok; try done.
  - intros n. rewrite Z.land_spec. intros [? ?]%andb_true_iff. by left.
  - apply Z.land_nonneg. left. apply Hx.
Qed.

Lemma lor_ok w x y : 0 <= w -> word_ok w x -> word_ok w y -> word_ok w (Z.lor x y).
Proof.
  intros Hw Hx Hy. apply bitop_ok; try done.
  - intros n. rewrite Z.lor_spec. apply orb_true_iff.
  - apply Z.lor_nonneg. unfold word_ok in *. lia.
Qed.

Lemma mod_ok w x : 0 <= w -> word_ok w (x mod 2 ^ w).
Proof. intros. apply Z.mod_pos_bound. lia. Qed.

Lemma shiftr_ok w n x : 0 <= n -> word_ok w x -> word_ok w (Z.shiftr x n).
Proof.
  unfold word_ok. intros Hn Hx. rewrite Z.shiftr_div_pow2 by done. split; [apply Z.div_pos; lia|].
  apply Z.le_lt_trans with x; [|lia]. apply Z.div_le_upper_bound; [lia|]. nia.
Qed.

Create HintDb words.
#[export] Hint Resolve lxor_ok land_ok lor_ok mod_ok shiftr_ok rotr_ok : words.

(** Complement within [w] bits, masked by a word. *)
Lemma lnot_land w x y : 0 <= w -> word_ok w y -> Z.land (Z.lnot x mod 2 ^ w) y = Z.land (Z.lnot x) y.
Proof.
  intros Hw Hy. apply Z.bits_inj'. intros n Hn. rewrite !Z.land_spec.
  destruct (decide (n < w)) as [|H].
  - by rewrite Z.mod_pow2_bits_low by lia.
  - unfold word_ok in Hy. rewrite <- (Z.mod_small y (2 ^ w)) by lia.
    rewrite (Z.mod_pow2_bits_high y) by lia. by rewrite !andb_false_r.
Qed.

(** A byte of a word, as the sources extract it. *)
Lemma byte_of x k : 0 <= k -> Z.land (Z.shiftr x k) 255 = (x / 2 ^ k) mod 256.
Proof.
  intros Hk. change 255 with (Z.ones 8). rewrite Z.land_ones, Z.shiftr_div_pow2 by lia. done.
Qed.

(** Words of [n] bytes, most significant first. *)
Lemma be_bytes_4 x : be_bytes 4 x =
  [(x / 2 ^ 24) mod 256; (x / 2 ^ 16) mod 256; (x / 2 ^ 8) mod 256; x mod 256].
Proof. cbn [be_bytes app]. rewrite !Z.div_div by lia. done. Qed.

Lemma be_bytes_8 x : be_bytes 8 x =
  [(x / 2 ^ 56) mod 256; (x / 2 ^ 48) mod 256; (x / 2 ^ 40) mod 256; (x / 2 ^ 32) mod 256;
   (x / 2 ^ 24) mod 256; (x / 2 ^ 16) mod 256; (x / 2 ^ 8) mod 256; x mod 256].
Proof. cbn [be_bytes app]. rewrite !Z.div_div by lia. done. Qed.


Lemma lor_low a b k : 0 <= k -> 0 <= b < 2 ^ k -> Z.lor (a * 2 ^ k) b = a * 2 ^ k + b.
Proof.
  intros. pose proof (lor_add_shiftl b a k) as E. rewrite Z.shiftl_mul_pow2 in E by lia.
  rewrite Z.lor_comm, E by lia. lia.
Qed.

(** Four bytes put together as a word. *)
Lemma lor_be4 a b c d : byte_ok a -> byte_ok b -> byte_ok c -> byte_ok d ->
  Z.lor (Z.lor (Z.lor (Z.shiftl a 24) (Z.shiftl b 16)) (Z.shiftl c 8)) d = be_val [a; b; c; d].
Proof.
  unfold byte_ok. intros. rewrite !Z.shiftl_mul_pow2 by lia.
  rewrite lor_low by lia. replace (a * 2 ^ 24 + b * 2 ^ 16) with ((a * 256 + b) * 2 ^ 16) by lia.
  rewrite lor_low by lia.
  replace ((a * 256 + b) * 2 ^ 16 + c * 2 ^ 8) with (((a * 256 + b) * 256 + c) * 2 ^ 8) by lia.
  rewrite lor_low by lia. unfold be_val. cbn [foldl]. lia.
Qed.

Lemma u32_mod x : u32 x = x mod 2 ^ 32.
Proof. done. Qed.

Lemma u64_mod x : u64 x = x mod 2 ^ 64.
Proof. done. Qed.

Lemma mset_app_r pre post i v : zlen pre <= i ->
  mset (pre ++ post) i v = (x <- mset post (i - zlen pre) v;; Some (pre ++ x)).
Proof.
  intros Hi. unfold mset. rewrite zlen_app. pose proof (zlen_nonneg pre).
  destruct (Z.leb_spec 0 i), (Z.leb_spec 0 (i - zlen pre)); try lia.
  destruct (Z.ltb_spec i (zlen pre + zlen post)), (Z.ltb_spec (i - zlen pre) (zlen post)); simpl; try lia;
    [|done].
  f_equal. rewrite insert_app_r_alt by (unfold zlen in *; lia). do 2 f_equal. unfold zlen. lia.
Qed.

(** Filling with zeros, one byte after the other. *)
Lemma zero_loop pre old post i :
  i = zlen pre ->
  for_loop (length old) i (fun i d => mset d i 0) (pre ++ old ++ post) =
  Some (pre ++ replicate (length old) 0 ++ post).
Proof.
  revert pre i. induction old as [|x old IH]; intros pre i ->; [done|]. cbn [length for_loop app].
  rewrite mset_app_mid. change (pre ++ 0 :: old ++ post) with (pre ++ [0] ++ old ++ post).
  rewrite app_assoc, IH by (by rewrite zlen_app). by rewrite <- app_assoc.
Qed.

Lemma mset_mid pre l1 x l2 i v :
  i = zlen pre + zlen l1 -> mset (pre ++ l1 ++ x :: l2) i v = Some (pre ++ l1 ++ v :: l2).
Proof. intros ->. rewrite !app_assoc, <- zlen_app. apply mset_app_mid. Qed.

Lemma mget_nth (W : list Z) i j : i = Z.of_nat j -> (j < length W)%nat -> mget W i = Some (W !!! j).
Proof.
  intros -> Hj. rewrite mget_Some by (unfold zlen; lia). by rewrite Nat2Z.id.
Qed.

Lemma total_ok w (W : list Z) j : Forall (word_ok w) W -> (j < length W)%nat -> word_ok w (W !!! j).
Proof. intros HW Hj. by apply (Forall_lookup_total_1 _ _ _ HW). Qed.

Lemma be_bytes_add n j v : be_bytes (n + j) v = be_bytes n (v / 256 ^ Z.of_nat j) ++ be_bytes j v.
Proof.
  revert n v. induction j as [|j IH]; intros n v.
  - rewrite Nat.add_0_r. cbn [be_bytes]. by rewrite Z.div_1_r, app_nil_r.
  - replace (n + S j)%nat with (S (n + j)) by lia. cbn [be_bytes]. rewrite IH, Z.div_div by lia.
    rewrite <- app_assoc. do 3 f_equal. replace (Z.of_nat (S j)) with (1 + Z.of_nat j) by lia.
    by rewrite Z.pow_add_r by lia.
Qed.

Lemma be_bytes_0 n : be_bytes n 0 = replicate n 0.
Proof.
  induction n as [|n IH]; [done|]. cbn [be_bytes]. rewrite Z.div_0_l, Z.mod_0_l, IH by lia.
  by rewrite <- replicate_cons_app.
Qed.

(** Copying byte by byte from [src + off] to [m + cl]. *)
Lemma copy_loop b : forall src ip ipost pre old post off cl k,
  src = ip ++ b ++ ipost -> off + k = zlen ip -> k + cl = zlen pre -> length old = length b ->
  for_loop (length b) k (fun i m => x <- mget src (off + i);; mset m (i + cl) x) (pre ++ old ++ post) =
  Some (pre ++ b ++ post).
Proof.
  induction b as [|x b IH]; intros src ip ipost pre old post off cl k Es Ho Hk Hl.
  - by destruct old.
  - destruct old as [|y old]; [done|]. cbn [length for_loop app]. simpl in Hl.
    rewrite Ho, Hk. rewrite Es at 1. cbn [app]. rewrite mget_app_mid, mset_app_mid.
    change (pre ++ x :: ?l) with (pre ++ [x] ++ l). rewrite (app_assoc pre).
    rewrite (IH src (ip ++ [x]) ipost (pre ++ [x]) old post off cl (k + 1)).
    + by rewrite <- app_assoc.
    + by rewrite Es, <- app_assoc.
    + rewrite zlen_app. change (zlen [x]) with 1. lia.
    + rewrite zlen_app. change (zlen [x]) with 1. lia.
    + lia.
Qed.
