(* ===== verification/Aes.v ===== *)
(** * AES-128 ([src/utility/crypto/symmetric/aes/aes.cpp])

    The block cipher in place on sixteen bytes, its inverse, and the ECB, CBC and
    CTR modes over buffers.  [state_t] is the cast of the buffer: [state[i][j]] is
    byte [4 * i + j].  The configuration is the one of [aes.h]: AES128 with the
    three modes enabled, and [Multiply] as the macro.

    The theorems: key expansion and cipher compute the function of FIPS 197,
    defined here from the field of 256 elements and not from tables; the inverse
    cipher inverts the cipher under any round keys, and CBC decryption inverts CBC
    encryption, also across calls; CTR is its own inverse, and cutting a message
    into calls does not change its encryption - unless another context is used in
    between, since the key stream left over is a static variable. *)

From stdpp Require Import base option list numbers.
From Stdlib Require Import ZArith Lia Btauto.
From S2P Require Import Prelude Words.

Open Scope Z_scope.

Module Aes.

(** ** The code *)

Definition Nb : Z := 4.
Definition Nk : Z := 4.
Definition Nr : Z := 10.
Definition AES_BLOCKLEN : Z := 16.
Definition AES_keyExpSize : Z := 176.

Definition sbox : list Z := [
  0x63; 0x7c; 0x77; 0x7b; 0xf2; 0x6b; 0x6f; 0xc5; 0x30; 0x01; 0x67; 0x2b;
  0xfe; 0xd7; 0xab; 0x76; 0xca; 0x82; 0xc9; 0x7d; 0xfa; 0x59; 0x47; 0xf0;
  0xad; 0xd4; 0xa2; 0xaf; 0x9c; 0xa4; 0x72; 0xc0; 0xb7; 0xfd; 0x93; 0x26;
  0x36; 0x3f; 0xf7; 0xcc; 0x34; 0xa5; 0xe5; 0xf1; 0x71; 0xd8; 0x31; 0x15;
  0x04; 0xc7; 0x23; 0xc3; 0x18; 0x96; 0x05; 0x9a; 0x07; 0x12; 0x80; 0xe2;
  0xeb; 0x27; 0xb2; 0x75; 0x09; 0x83; 0x2c; 0x1a; 0x1b; 0x6e; 0x5a; 0xa0;
  0x52; 0x3b; 0xd6; 0xb3; 0x29; 0xe3; 0x2f; 0x84; 0x53; 0xd1; 0x00; 0xed;
  0x20; 0xfc; 0xb1; 0x5b; 0x6a; 0xcb; 0xbe; 0x39; 0x4a; 0x4c; 0x58; 0xcf;
  0xd0; 0xef; 0xaa; 0xfb; 0x43; 0x4d; 0x33; 0x85; 0x45; 0xf9; 0x02; 0x7f;
  0x50; 0x3c; 0x9f; 0xa8; 0x51; 0xa3; 0x40; 0x8f; 0x92; 0x9d; 0x38; 0xf5;
  0xbc; 0xb6; 0xda; 0x21; 0x10; 0xff; 0xf3; 0xd2; 0xcd; 0x0c; 0x13; 0xec;
  0x5f; 0x97; 0x44; 0x17; 0xc4; 0xa7; 0x7e; 0x3d; 0x64; 0x5d; 0x19; 0x73;
  0x60; 0x81; 0x4f; 0xdc; 0x22; 0x2a; 0x90; 0x88; 0x46; 0xee; 0xb8; 0x14;
  0xde; 0x5e; 0x0b; 0xdb; 0xe0; 0x32; 0x3a; 0x0a; 0x49; 0x06; 0x24; 0x5c;
  0xc2; 0xd3; 0xac; 0x62; 0x91; 0x95; 0xe4; 0x79; 0xe7; 0xc8; 0x37; 0x6d;
  0x8d; 0xd5; 0x4e; 0xa9; 0x6c; 0x56; 0xf4; 0xea; 0x65; 0x7a; 0xae; 0x08;
  0xba; 0x78; 0x25; 0x2e; 0x1c; 0xa6; 0xb4; 0xc6; 0xe8; 0xdd; 0x74; 0x1f;
  0x4b; 0xbd; 0x8b; 0x8a; 0x70; 0x3e; 0xb5; 0x66; 0x48; 0x03; 0xf6; 0x0e;
  0x61; 0x35; 0x57; 0xb9; 0x86; 0xc1; 0x1d; 0x9e; 0xe1; 0xf8; 0x98; 0x11;
  0x69; 0xd9; 0x8e; 0x94; 0x9b; 0x1e; 0x87; 0xe9; 0xce; 0x55; 0x28; 0xdf;
  0x8c; 0xa1; 0x89; 0x0d; 0xbf; 0xe6; 0x42; 0x68; 0x41; 0x99; 0x2d; 0x0f;
  0xb0; 0x54; 0xbb; 0x16].

Definition rsbox : list Z := [
  0x52; 0x09; 0x6a; 0xd5; 0x30; 0x36; 0xa5; 0x38; 0xbf; 0x40; 0xa3; 0x9e;
  0x81; 0xf3; 0xd7; 0xfb; 0x7c; 0xe3; 0x39; 0x82; 0x9b; 0x2f; 0xff; 0x87;
  0x34; 0x8e; 0x43; 0x44; 0xc4; 0xde; 0xe9; 0xcb; 0x54; 0x7b; 0x94; 0x32;
  0xa6; 0xc2; 0x23; 0x3d; 0xee; 0x4c; 0x95; 0x0b; 0x42; 0xfa; 0xc3; 0x4e;
  0x08; 0x2e; 0xa1; 0x66; 0x28; 0xd9; 0x24; 0xb2; 0x76; 0x5b; 0xa2; 0x49;
  0x6d; 0x8b; 0xd1; 0x25; 0x72; 0xf8; 0xf6; 0x64; 0x86; 0x68; 0x98; 0x16;
  0xd4; 0xa4; 0x5c; 0xcc; 0x5d; 0x65; 0xb6; 0x92; 0x6c; 0x70; 0x48; 0x50;
  0xfd; 0xed; 0xb9; 0xda; 0x5e; 0x15; 0x46; 0x57; 0xa7; 0x8d; 0x9d; 0x84;
  0x90; 0xd8; 0xab; 0x00; 0x8c; 0xbc; 0xd3; 0x0a; 0xf7; 0xe4; 0x58; 0x05;
  0xb8; 0xb3; 0x45; 0x06; 0xd0; 0x2c; 0x1e; 0x8f; 0xca; 0x3f; 0x0f; 0x02;
  0xc1; 0xaf; 0xbd; 0x03; 0x01; 0x13; 0x8a; 0x6b; 0x3a; 0x91; 0x11; 0x41;
  0x4f; 0x67; 0xdc; 0xea; 0x97; 0xf2; 0xcf; 0xce; 0xf0; 0xb4; 0xe6; 0x73;
  0x96; 0xac; 0x74; 0x22; 0xe7; 0xad; 0x35; 0x85; 0xe2; 0xf9; 0x37; 0xe8;
  0x1c; 0x75; 0xdf; 0x6e; 0x47; 0xf1; 0x1a; 0x71; 0x1d; 0x29; 0xc5; 0x89;
  0x6f; 0xb7; 0x62; 0x0e; 0xaa; 0x18; 0xbe; 0x1b; 0xfc; 0x56; 0x3e; 0x4b;
  0xc6; 0xd2; 0x79; 0x20; 0x9a; 0xdb; 0xc0; 0xfe; 0x78; 0xcd; 0x5a; 0xf4;
  0x1f; 0xdd; 0xa8; 0x33; 0x88; 0x07; 0xc7; 0x31; 0xb1; 0x12; 0x10; 0x59;
  0x27; 0x80; 0xec; 0x5f; 0x60; 0x51; 0x7f; 0xa9; 0x19; 0xb5; 0x4a; 0x0d;
  0x2d; 0xe5; 0x7a; 0x9f; 0x93; 0xc9; 0x9c; 0xef; 0xa0; 0xe0; 0x3b; 0x4d;
  0xae; 0x2a; 0xf5; 0xb0; 0xc8; 0xeb; 0xbb; 0x3c; 0x83; 0x53; 0x99; 0x61;
  0x17; 0x2b; 0x04; 0x7e; 0xba; 0x77; 0xd6; 0x26; 0xe1; 0x69; 0x14; 0x63;
  0x55; 0x21; 0x0c; 0x7d].

Definition Rcon : list Z := [
  0x8d; 0x01; 0x02; 0x04; 0x08; 0x10; 0x20; 0x40; 0x80; 0x1b; 0x36].

(** The context: expanded key and initialisation vector. *)
Record AES_ctx := mkAES { RoundKey : list Z; Iv : list Z }.

Definition set_Iv (iv : list Z) (c : AES_ctx) : AES_ctx := mkAES (RoundKey c) iv.

Definition getSBoxValue (num : Z) : option Z := mget sbox num.
Definition getSBoxInvert (num : Z) : option Z := mget rsbox num.

(** One word of [KeyExpansion], from [i = Nk] on. *)
Definition expand_word (i : Z) (rk : list Z) : option (list Z) :=
  let k := (i - 1) * 4 in
  t0 <- mget rk k;;
  t1 <- mget rk (k + 1);;
  t2 <- mget rk (k + 2);;
  t3 <- mget rk (k + 3);;
  '(t0, t1, t2, t3) <-
    (if i mod Nk =? 0 then
       let '(t0, t1, t2, t3) := (t1, t2, t3, t0) in
       t0 <- getSBoxValue t0;;
       t1 <- getSBoxValue t1;;
       t2 <- getSBoxValue t2;;
       t3 <- getSBoxValue t3;;
       r <- mget Rcon (i / Nk);;
       Some (Z.lxor t0 r, t1, t2, t3)
     else Some (t0, t1, t2, t3));;
  let j := i * 4 in
  let k := (i - Nk) * 4 in
  x <- mget rk k;;       rk <- mset rk j (Z.lxor x t0);;
  x <- mget rk (k + 1);; rk <- mset rk (j + 1) (Z.lxor x t1);;
  x <- mget rk (k + 2);; rk <- mset rk (j + 2) (Z.lxor x t2);;
  x <- mget rk (k + 3);; mset rk (j + 3) (Z.lxor x t3).

(** One word of the first round key, which is the key itself. *)
Definition copy_word (Key : list Z) (i : Z) (rk : list Z) : option (list Z) :=
  x <- mget Key (i * 4);;     rk <- mset rk (i * 4) x;;
  x <- mget Key (i * 4 + 1);; rk <- mset rk (i * 4 + 1) x;;
  x <- mget Key (i * 4 + 2);; rk <- mset rk (i * 4 + 2) x;;
  x <- mget Key (i * 4 + 3);; mset rk (i * 4 + 3) x.

Definition KeyExpansion (rk Key : list Z) : option (list Z) :=
  rk <- for_loop (Z.to_nat Nk) 0 (copy_word Key) rk;;
  for_loop (Z.to_nat (Nb * (Nr + 1) - Nk)) Nk expand_word rk.

Definition AES_init_ctx (ctx : AES_ctx) (key : list Z) : option AES_ctx :=
  rk <- KeyExpansion (RoundKey ctx) key;; Some (mkAES rk (Iv ctx)).

Definition AES_init_ctx_iv (ctx : AES_ctx) (key iv : list Z) : option AES_ctx :=
  rk <- KeyExpansion (RoundKey ctx) key;;
  s <- msub iv 0 AES_BLOCKLEN;;
  v <- mcpy (Iv ctx) 0 s;;
  Some (mkAES rk v).

Definition AES_ctx_set_iv (ctx : AES_ctx) (iv : list Z) : option AES_ctx :=
  s <- msub iv 0 AES_BLOCKLEN;;
  v <- mcpy (Iv ctx) 0 s;;
  Some (set_Iv v ctx).

(** Byte [state[i][j]]. *)
Definition st (i j : Z) : Z := 4 * i + j.

Definition AddRoundKey (round : Z) (state rk : list Z) : option (list Z) :=
  for_loop 4 0 (fun i state =>
    for_loop 4 0 (fun j state =>
      x <- mget state (st i j);;
      k <- mget rk (round * Nb * 4 + i * Nb + j);;
      mset state (st i j) (Z.lxor x k)) state) state.

Definition SubBytes (state : list Z) : option (list Z) :=
  for_loop 4 0 (fun i state =>
    for_loop 4 0 (fun j state =>
      x <- mget state (st j i);;
      y <- getSBoxValue x;;
      mset state (st j i) y) state) state.

Definition InvSubBytes (state : list Z) : option (list Z) :=
  for_loop 4 0 (fun i state =>
    for_loop 4 0 (fun j state =>
      x <- mget state (st j i);;
      y <- getSBoxInvert x;;
      mset state (st j i) y) state) state.

(** [state[i][j] = state[k][l]] *)
Definition move (i j k l : Z) (state : list Z) : option (list Z) :=
  x <- mget state (st k l);; mset state (st i j) x.

Definition ShiftRows (s : list Z) : option (list Z) :=
  temp <- mget s (st 0 1);;
  s <- move 0 1 1 1 s;; s <- move 1 1 2 1 s;; s <- move 2 1 3 1 s;;
  s <- mset s (st 3 1) temp;;
  temp <- mget s (st 0 2);;
  s <- move 0 2 2 2 s;; s <- mset s (st 2 2) temp;;
  temp <- mget s (st 1 2);;
  s <- move 1 2 3 2 s;; s <- mset s (st 3 2) temp;;
  temp <- mget s (st 0 3);;
  s <- move 0 3 3 3 s;; s <- move 3 3 2 3 s;; s <- move 2 3 1 3 s;;
  mset s (st 1 3) temp.

Definition InvShiftRows (s : list Z) : option (list Z) :=
  temp <- mget s (st 3 1);;
  s <- move 3 1 2 1 s;; s <- move 2 1 1 1 s;; s <- move 1 1 0 1 s;;
  s <- mset s (st 0 1) temp;;
  temp <- mget s (st 0 2);;
  s <- move 0 2 2 2 s;; s <- mset s (st 2 2) temp;;
  temp <- mget s (st 1 2);;
  s <- move 1 2 3 2 s;; s <- mset s (st 3 2) temp;;
  temp <- mget s (st 0 3);;
  s <- move 0 3 1 3 s;; s <- move 1 3 2 3 s;; s <- move 2 3 3 3 s;;
  mset s (st 3 3) temp.

Definition xtime (x : Z) : Z :=
  u8 (Z.lxor (Z.shiftl x 1) (Z.land (Z.shiftr x 7) 1 * 0x1b)).

(** [state[i][j] ^= v] *)
Definition xor_at (i j v : Z) (s : list Z) : option (list Z) :=
  x <- mget s (st i j);; mset s (st i j) (Z.lxor x v).

Definition MixColumns (state : list Z) : option (list Z) :=
  for_loop 4 0 (fun i s =>
    t <- mget s (st i 0);;
    b <- mget s (st i 1);;
    c <- mget s (st i 2);;
    d <- mget s (st i 3);;
    let Tmp := Z.lxor (Z.lxor (Z.lxor t b) c) d in
    x <- mget s (st i 0);; y <- mget s (st i 1);;
    s <- xor_at i 0 (Z.lxor (xtime (Z.lxor x y)) Tmp) s;;
    x <- mget s (st i 1);; y <- mget s (st i 2);;
    s <- xor_at i 1 (Z.lxor (xtime (Z.lxor x y)) Tmp) s;;
    x <- mget s (st i 2);; y <- mget s (st i 3);;
    s <- xor_at i 2 (Z.lxor (xtime (Z.lxor x y)) Tmp) s;;
    x <- mget s (st i 3);;
    xor_at i 3 (Z.lxor (xtime (Z.lxor x t)) Tmp) s) state.

(** The macro [Multiply]. *)
Definition Multiply (x y : Z) : Z :=
  Z.lxor (Z.lxor (Z.lxor (Z.lxor
    (Z.land y 1 * x)
    (Z.land (Z.shiftr y 1) 1 * xtime x))
    (Z.land (Z.shiftr y 2) 1 * xtime (xtime x)))
    (Z.land (Z.shiftr y 3) 1 * xtime (xtime (xtime x))))
    (Z.land (Z.shiftr y 4) 1 * xtime (xtime (xtime (xtime x)))).

(** A byte of an inverted column. *)
Definition mult4 (a b c d ka kb kc kd : Z) : Z :=
  u8 (Z.lxor (Z.lxor (Z.lxor (Multiply a ka) (Multiply b kb)) (Multiply c kc)) (Multiply d kd)).

Definition InvMixColumns (state : list Z) : option (list Z) :=
  for_loop 4 0 (fun i s =>
    a <- mget s (st i 0);;
    b <- mget s (st i 1);;
    c <- mget s (st i 2);;
    d <- mget s (st i 3);;
    s <- mset s (st i 0) (mult4 a b c d 0x0e 0x0b 0x0d 0x09);;
    s <- mset s (st i 1) (mult4 a b c d 0x09 0x0e 0x0b 0x0d);;
    s <- mset s (st i 2) (mult4 a b c d 0x0d 0x09 0x0e 0x0b);;
    mset s (st i 3) (mult4 a b c d 0x0b 0x0d 0x09 0x0e)) state.

(** The endless loop of [Cipher], left at round [Nr]; [fuel] counts the rounds
    that remain. *)
Fixpoint cipher_loop (fuel : nat) (round : Z) (state rk : list Z) : option (list Z) :=
  match fuel with
  | O => None
  | S fuel =>
      state <- SubBytes state;;
      state <- ShiftRows state;;
      if round =? Nr then Some state
      else
        state <- MixColumns state;;
        state <- AddRoundKey round state rk;;
        cipher_loop fuel (u8 (round + 1)) state rk
  end.

Definition Cipher (state rk : list Z) : option (list Z) :=
  state <- AddRoundKey 0 state rk;;
  state <- cipher_loop 10 1 state rk;;
  AddRoundKey Nr state rk.

Fixpoint inv_cipher_loop (fuel : nat) (round : Z) (state rk : list Z) : option (list Z) :=
  match fuel with
  | O => None
  | S fuel =>
      state <- InvShiftRows state;;
      state <- InvSubBytes state;;
      state <- AddRoundKey round state rk;;
      if round =? 0 then Some state
      else
        state <- InvMixColumns state;;
        inv_cipher_loop fuel (u8 (round - 1)) state rk
  end.

Definition InvCipher (state rk : list Z) : option (list Z) :=
  state <- AddRoundKey Nr state rk;;
  inv_cipher_loop 10 (Nr - 1) state rk.

(** The cipher on the sixteen bytes at [off] of a buffer, in place. *)
Definition at_block (f : list Z -> option (list Z)) (buf : list Z) (off : Z) : option (list Z) :=
  s <- msub buf off AES_BLOCKLEN;; s <- f s;; mcpy buf off s.

Definition AES_ECB_encrypt (ctx : AES_ctx) (buf : list Z) : option (list Z) :=
  at_block (fun s => Cipher s (RoundKey ctx)) buf 0.

Definition AES_ECB_decrypt (ctx : AES_ctx) (buf : list Z) : option (list Z) :=
  at_block (fun s => InvCipher s (RoundKey ctx)) buf 0.

(** [XorWithIv(buf + off, Iv)] *)
Definition XorWithIv (buf : list Z) (off : Z) (iv : list Z) : option (list Z) :=
  for_loop 16 0 (fun i buf =>
    x <- mget buf (off + i);;
    v <- mget iv i;;
    mset buf (off + i) (Z.lxor x v)) buf.

(** The loop of [AES_CBC_encrypt_buffer]: [n] blocks from [off] on.  The pointer
    [Iv] is [None] while it points into the context, and [Some] of an offset once
    it points into the buffer. *)
Fixpoint cbc_encrypt_loop (n : nat) (ctx : AES_ctx) (buf : list Z) (off : Z) (iv : option Z)
  : option (list Z * option Z) :=
  match n with
  | O => Some (buf, iv)
  | S n =>
      v <- (match iv with None => Some (Iv ctx) | Some p => msub buf p AES_BLOCKLEN end);;
      buf <- XorWithIv buf off v;;
      buf <- at_block (fun s => Cipher s (RoundKey ctx)) buf off;;
      cbc_encrypt_loop n ctx buf (off + AES_BLOCKLEN) (Some off)
  end.

(** Rounds of [for (i = 0; i < length; i += AES_BLOCKLEN)]. *)
Definition blocks_of (length : Z) : nat := Z.to_nat ((length + 15) / 16).

Definition AES_CBC_encrypt_buffer (ctx : AES_ctx) (buf : list Z) (length : Z)
  : option (AES_ctx * list Z) :=
  '(buf, iv) <- cbc_encrypt_loop (blocks_of length) ctx buf 0 None;;
  match iv with
  | None => Some (ctx, buf)
  | Some p => s <- msub buf p AES_BLOCKLEN;; v <- mcpy (Iv ctx) 0 s;; Some (set_Iv v ctx, buf)
  end.

Fixpoint cbc_decrypt_loop (n : nat) (ctx : AES_ctx) (buf : list Z) (off : Z)
  : option (AES_ctx * list Z) :=
  match n with
  | O => Some (ctx, buf)
  | S n =>
      storeNextIv <- msub buf off AES_BLOCKLEN;;
      buf <- at_block (fun s => InvCipher s (RoundKey ctx)) buf off;;
      buf <- XorWithIv buf off (Iv ctx);;
      v <- mcpy (Iv ctx) 0 storeNextIv;;
      cbc_decrypt_loop n (set_Iv v ctx) buf (off + AES_BLOCKLEN)
  end.

Definition AES_CBC_decrypt_buffer (ctx : AES_ctx) (buf : list Z) (length : Z)
  : option (AES_ctx * list Z) :=
  cbc_decrypt_loop (blocks_of length) ctx buf 0.

(** The counter: [for (bi = 15; bi >= 0; --bi)] with carry; [n] is [bi + 1]. *)
Fixpoint incr_iv (n : nat) (iv : list Z) : option (list Z) :=
  match n with
  | O => Some iv
  | S n =>
      x <- mget iv (Z.of_nat n);;
      if x =? 255 then iv <- mset iv (Z.of_nat n) 0;; incr_iv n iv
      else mset iv (Z.of_nat n) (u8 (x + 1))
  end.

(** The next block of key stream, and the counter incremented. *)
Definition ctr_refill (ctx : AES_ctx) (ks : list Z) : option (AES_ctx * list Z) :=
  s <- msub (Iv ctx) 0 AES_BLOCKLEN;;
  ks <- mcpy ks 0 s;;
  ks <- Cipher ks (RoundKey ctx);;
  iv <- incr_iv 16 (Iv ctx);;
  Some (set_Iv iv ctx, ks).

(** The loop both CTR functions share, with the key stream block and the position
    in it. *)
Fixpoint ctr_loop (n : nat) (i : Z) (ctx : AES_ctx) (buf ks : list Z) (bi : Z)
  : option (AES_ctx * list Z * list Z * Z) :=
  match n with
  | O => Some (ctx, buf, ks, bi)
  | S n =>
      '(ctx, ks, bi) <-
        (if bi =? AES_BLOCKLEN then '(ctx, ks) <- ctr_refill ctx ks;; Some (ctx, ks, 0)
         else Some (ctx, ks, bi));;
      x <- mget buf i;;
      k <- mget ks bi;;
      buf <- mset buf i (Z.lxor x k);;
      ctr_loop n (i + 1) ctx buf ks (bi + 1)
  end.

(** [AES_CTR_xcrypt_buffer(ctx, buf, length)]; [stk] is what the local array holds
    at first. *)
Definition AES_CTR_xcrypt_buffer (stk : list Z) (ctx : AES_ctx) (buf : list Z) (length : Z)
  : option (AES_ctx * list Z) :=
  '(ctx, buf, _, _) <- ctr_loop (Z.to_nat length) 0 ctx buf stk AES_BLOCKLEN;;
  Some (ctx, buf).

(** The static variables of the function with four arguments. *)
Record ctr_static := mkStatic { s_buffer : list Z; s_bi : Z }.

Definition ctr_static0 : ctr_static := mkStatic (replicate 16 0) AES_BLOCKLEN.

(** [AES_CTR_xcrypt_buffer(ctx, buf, length, resetCtx)] *)
Definition AES_CTR_xcrypt_buffer_static (g : ctr_static) (ctx : AES_ctx) (buf : list Z)
    (length : Z) (resetCtx : bool) : option (ctr_static * AES_ctx * list Z) :=
  '(ctx, buf, ks, bi) <- ctr_loop (Z.to_nat length) 0 ctx buf (s_buffer g) (s_bi g);;
  Some (mkStatic ks (if resetCtx then AES_BLOCKLEN else bi), ctx, buf).


(** ** FIPS 197

    The standard's function, from the field: bytes are polynomials over GF(2)
    modulo x^8 + x^4 + x^3 + x + 1. *)

Definition gf_double (a : Z) : Z :=
  let d := 2 * a in if d <? 256 then d else Z.lxor d 0x11b.

(** The product: the sum of [a x^i] over the bits [i] of [b]. *)
Definition gf_mul (b a : Z) : Z :=
  foldr (fun i acc => if Z.testbit b (Z.of_nat i) then Z.lxor (Nat.iter i gf_double a) acc else acc)
    0 (seq 0 8).

(** The inverse; zero is mapped to itself. *)
Definition gf_inv (a : Z) : Z :=
  default 0 (snd <$> list_find (fun b => gf_mul a b = 1) (seqZ 0 256)).

(** The affine map of the S-box, bit by bit. *)
Definition affine (b : Z) : Z :=
  let bit i := Z.testbit b (Z.of_nat (i mod 8)) in
  foldr (fun i acc =>
      Z.b2z (xorb (bit i) (xorb (bit (i + 4)%nat) (xorb (bit (i + 5)%nat) (xorb (bit (i + 6)%nat)
        (xorb (bit (i + 7)%nat) (Z.testbit 0x63 (Z.of_nat i)))))))
      + 2 * acc) 0 (seq 0 8).

Definition fips_sbox (a : Z) : Z := affine (gf_inv a).

(** Bytes of the state in column order: byte [k] is row [k mod 4] of column [k / 4]. *)
Definition fips_SubBytes (s : list Z) : list Z := map fips_sbox s.

Definition fips_ShiftRows (s : list Z) : list Z :=
  map (fun k => s !!! ((k + 4 * (k mod 4)) mod 16)%nat) (seq 0 16).

Definition fips_MixColumns (s : list Z) : list Z :=
  map (fun k =>
         let at_row i := s !!! (4 * (k / 4) + (k + i) mod 4)%nat in
         Z.lxor (Z.lxor (Z.lxor (gf_mul 2 (at_row 0%nat)) (gf_mul 3 (at_row 1%nat)))
           (at_row 2%nat)) (at_row 3%nat)) (seq 0 16).

Definition fips_AddRoundKey (round : Z) (w s : list Z) : list Z :=
  xor_bytes s (take 16 (drop (Z.to_nat (16 * round)) w)).

(** The key schedule, word by word. *)
Definition fips_rcon (i : nat) : Z := Nat.iter (i - 1) gf_double 1.

Definition word (w : list Z) (i : nat) : list Z := take 4 (drop (4 * i) w).

Definition fips_temp (i : nat) (t : list Z) : list Z :=
  if (i mod 4 =? 0)%nat
  then xor_bytes (map fips_sbox (drop 1 t ++ take 1 t)) [fips_rcon (i / 4); 0; 0; 0]
  else t.

Definition fips_next (w : list Z) (i : nat) : list Z :=
  w ++ xor_bytes (word w (i - 4)) (fips_temp i (word w (i - 1))).

Definition fips_keys (key : list Z) : list Z := foldl fips_next key (seq 4 40).

Definition fips_round (w : list Z) (s : list Z) (round : Z) : list Z :=
  fips_AddRoundKey round w (fips_MixColumns (fips_ShiftRows (fips_SubBytes s))).

Definition fips_cipher (w s : list Z) : list Z :=
  let s := foldl (fips_round w) (fips_AddRoundKey 0 w s) (seqZ 1 9) in
  fips_AddRoundKey 10 w (fips_ShiftRows (fips_SubBytes s)).

(** ** The steps of the code *)

Definition block (s : list Z) : Prop := length s = 16%nat /\ bytes_ok s.

(** Names the sixteen bytes of a list of that length. *)
Ltac sixteen s H :=
  do 16 (destruct s as [|? s]; [simpl in H; lia|]); destruct s as [|? s]; [|simpl in H; lia].

(** A statement about all bytes, by evaluation. *)
Lemma all_bytes (P : Z -> bool) :
  forallb P (seqZ 0 256) = true -> forall x, byte_ok x -> P x = true.
Proof.
  intros H x Hx. rewrite forallb_forall in H. apply H, list_elem_of_In, elem_of_seqZ.
  unfold byte_ok in Hx. lia.
Qed.

Lemma sbox_fips x : byte_ok x -> getSBoxValue x = Some (fips_sbox x).
Proof.
  intros Hx.
  assert (bool_decide (getSBoxValue x = Some (fips_sbox x)) = true) as H%bool_decide_eq_true
    by (revert x Hx; apply all_bytes; by vm_compute).
  done.
Qed.

Lemma fips_sbox_byte x : byte_ok x -> byte_ok (fips_sbox x).
Proof.
  intros Hx.
  assert (((0 <=? fips_sbox x) && (fips_sbox x <? 256)) = true)
    by (revert x Hx; apply all_bytes; by vm_compute).
  unfold byte_ok. lia.
Qed.

Lemma rsbox_sbox x : byte_ok x -> getSBoxInvert (fips_sbox x) = Some x.
Proof.
  intros Hx.
  assert (bool_decide (getSBoxInvert (fips_sbox x) = Some x) = true) as H%bool_decide_eq_true
    by (revert x Hx; apply all_bytes; by vm_compute).
  done.
Qed.

Lemma xtime_byte x : byte_ok (xtime x).
Proof. unfold xtime, byte_ok. apply u8_range. Qed.

Lemma xtime_double x : byte_ok x -> gf_mul 2 x = xtime x /\ gf_mul 3 x = Z.lxor (xtime x) x.
Proof.
  intros Hx.
  assert (((gf_mul 2 x =? xtime x) && (gf_mul 3 x =? Z.lxor (xtime x) x)) = true)
    by (revert x Hx; apply all_bytes; by vm_compute).
  lia.
Qed.

Lemma xtime_lxor x y : byte_ok x -> byte_ok y -> xtime (Z.lxor x y) = Z.lxor (xtime x) (xtime y).
Proof.
  intros Hx Hy.
  assert (forallb (fun y => xtime (Z.lxor x y) =? Z.lxor (xtime x) (xtime y)) (seqZ 0 256) = true)
    as H by (revert x Hx; apply all_bytes; by vm_compute).
  apply Z.eqb_eq. revert y Hy. by apply all_bytes.
Qed.

#[local] Hint Resolve fips_sbox_byte xtime_byte : pdi.

(** *** Substitution, rows and columns *)

Lemma SubBytes_spec s : block s -> SubBytes s = Some (fips_SubBytes s).
Proof.
  intros [Hl Hb]. sixteen s Hl. repeat (apply Forall_cons_1 in Hb as [? Hb]).
  transitivity (Some (map fips_sbox [z; z0; z1; z2; z3; z4; z5; z6; z7; z8; z9; z10; z11; z12; z13; z14]));
    [|done].
  cbv -[getSBoxValue fips_sbox Z.lt Z.le]. by rewrite !sbox_fips by done.
Qed.

Lemma fips_SubBytes_block s : block s -> block (fips_SubBytes s).
Proof.
  intros [Hl Hb]. split; [by unfold fips_SubBytes; rewrite length_map|].
  unfold fips_SubBytes. apply Forall_map. revert Hb. apply Forall_impl. intros x Hx. simpl. auto with pdi.
Qed.

Lemma InvSubBytes_spec s : block s -> InvSubBytes (fips_SubBytes s) = Some s.
Proof.
  intros [Hl Hb]. sixteen s Hl. repeat (apply Forall_cons_1 in Hb as [? Hb]).
  cbv -[getSBoxInvert fips_sbox Z.lt Z.le]. by rewrite !rsbox_sbox by done.
Qed.

Lemma ShiftRows_spec s : length s = 16%nat -> ShiftRows s = Some (fips_ShiftRows s).
Proof. intros Hl. by sixteen s Hl. Qed.

Lemma InvShiftRows_spec s : length s = 16%nat -> InvShiftRows (fips_ShiftRows s) = Some s.
Proof. intros Hl. by sixteen s Hl. Qed.

Lemma fips_ShiftRows_block s : block s -> block (fips_ShiftRows s).
Proof.
  intros [Hl Hb]. sixteen s Hl. repeat (apply Forall_cons_1 in Hb as [? Hb]).
  split; [done|]. cbv -[byte_ok]. repeat (constructor; [done|]). constructor.
Qed.

(** A column before and after [MixColumns], as the code computes it. *)
Definition mix_col (a b c d : Z) : list Z :=
  let t := Z.lxor (Z.lxor (Z.lxor a b) c) d in
  [Z.lxor a (Z.lxor (xtime (Z.lxor a b)) t); Z.lxor b (Z.lxor (xtime (Z.lxor b c)) t);
   Z.lxor c (Z.lxor (xtime (Z.lxor c d)) t); Z.lxor d (Z.lxor (xtime (Z.lxor d a)) t)].

Definition inv_mix_col (a b c d : Z) : list Z :=
  [mult4 a b c d 0x0e 0x0b 0x0d 0x09; mult4 a b c d 0x09 0x0e 0x0b 0x0d;
   mult4 a b c d 0x0d 0x09 0x0e 0x0b; mult4 a b c d 0x0b 0x0d 0x09 0x0e].

Definition on_columns (f : Z -> Z -> Z -> Z -> list Z) (s : list Z) : list Z :=
  match s with
  | [a0; a1; a2; a3; b0; b1; b2; b3; c0; c1; c2; c3; d0; d1; d2; d3] =>
      f a0 a1 a2 a3 ++ f b0 b1 b2 b3 ++ f c0 c1 c2 c3 ++ f d0 d1 d2 d3
  | _ => []
  end.

Lemma MixColumns_cols s : length s = 16%nat -> MixColumns s = Some (on_columns mix_col s).
Proof. intros Hl. sixteen s Hl. by cbv -[xtime Z.lxor]. Qed.

Lemma InvMixColumns_cols s :
  length s = 16%nat -> InvMixColumns s = Some (on_columns inv_mix_col s).
Proof. intros Hl. sixteen s Hl. by cbv -[mult4]. Qed.

Lemma mix_col_byte a b c d :
  byte_ok a -> byte_ok b -> byte_ok c -> byte_ok d -> bytes_ok (mix_col a b c d).
Proof. intros. unfold mix_col. repeat (apply Forall_cons_2; [auto 10 with pdi|]). constructor. Qed.

Lemma on_columns_block f s :
  (forall a b c d, byte_ok a -> byte_ok b -> byte_ok c -> byte_ok d ->
     length (f a b c d) = 4%nat /\ bytes_ok (f a b c d)) ->
  block s -> block (on_columns f s).
Proof.
  intros Hf [Hl Hb]. sixteen s Hl. repeat (apply Forall_cons_1 in Hb as [? Hb]).
  pose proof (Hf z z0 z1 z2) as [? ?]; [done..|]. pose proof (Hf z3 z4 z5 z6) as [? ?]; [done..|].
  pose proof (Hf z7 z8 z9 z10) as [? ?]; [done..|]. pose proof (Hf z11 z12 z13 z14) as [? ?]; [done..|].
  split; cbn [on_columns]; [rewrite !length_app; lia|by repeat apply Forall_app_2].
Qed.

Lemma MixColumns_spec s : block s -> MixColumns s = Some (fips_MixColumns s).
Proof.
  intros [Hl Hb]. rewrite MixColumns_cols by done. sixteen s Hl.
  repeat (apply Forall_cons_1 in Hb as [? Hb]). f_equal.
  cbv -[xtime Z.lxor gf_mul Z.lt Z.le].
  repeat match goal with H : byte_ok ?x |- _ =>
    destruct (xtime_double x H) as [-> ->]; revert H end.
  intros. rewrite !xtime_lxor by done.
  repeat (apply (f_equal2 cons); [bitwise|]). done.
Qed.

Lemma fips_MixColumns_block s : block s -> block (fips_MixColumns s).
Proof.
  intros Hs. assert (Some (fips_MixColumns s) = Some (on_columns mix_col s)) as [= ->].
  { rewrite <- MixColumns_spec by done. apply MixColumns_cols, Hs. }
  apply on_columns_block; [|done]. intros. split; [done|by apply mix_col_byte].
Qed.

(** The four multiplications, without the factors that are zero. *)
Lemma Multiply_values x :
  Multiply x 0x0e = Z.lxor (Z.lxor (xtime x) (xtime (xtime x))) (xtime (xtime (xtime x))) /\
  Multiply x 0x0b = Z.lxor (Z.lxor x (xtime x)) (xtime (xtime (xtime x))) /\
  Multiply x 0x0d = Z.lxor (Z.lxor x (xtime (xtime x))) (xtime (xtime (xtime x))) /\
  Multiply x 0x09 = Z.lxor x (xtime (xtime (xtime x))).
Proof.
  unfold Multiply. generalize (xtime (xtime (xtime (xtime x)))) as e.
  generalize (xtime (xtime (xtime x))) as d. generalize (xtime (xtime x)) as c. generalize (xtime x) as b.
  intros b c d e.
  repeat match goal with |- context [Z.land ?p 1 * _] =>
    let v := eval vm_compute in (Z.land p 1) in change (Z.land p 1) with v end.
  by rewrite !Z.mul_0_l, !Z.mul_1_l, !Z.lxor_0_l, !Z.lxor_0_r.
Qed.

(** The inverse matrix times the matrix is the identity. *)
Lemma inv_mix_mix a b c d :
  byte_ok a -> byte_ok b -> byte_ok c -> byte_ok d ->
  match mix_col a b c d with
  | [x; y; z; t] => inv_mix_col x y z t = [a; b; c; d]
  | _ => False
  end.
Proof.
  intros Ha Hb Hc Hd. unfold mix_col, inv_mix_col, mult4.
  repeat match goal with |- context [Multiply ?x 0x0e] =>
    destruct (Multiply_values x) as (-> & -> & -> & ->) end.
  rewrite !xtime_lxor by auto 12 with pdi.
  assert (forall x y, x = y -> byte_ok y -> u8 x = y) as Hu.
  { intros x y -> Hy. by apply u8_small. }
  repeat (apply (f_equal2 cons); [apply Hu; [bitwise|done]|]). done.
Qed.

Lemma InvMixColumns_spec s : block s -> InvMixColumns (fips_MixColumns s) = Some s.
Proof.
  intros Hs. pose proof (fips_MixColumns_block s Hs) as [Hm _].
  rewrite InvMixColumns_cols by done.
  assert (Some (fips_MixColumns s) = Some (on_columns mix_col s)) as [= ->].
  { rewrite <- MixColumns_spec by done. apply MixColumns_cols, Hs. }
  clear Hm. destruct Hs as [Hl Hb]. sixteen s Hl. repeat (apply Forall_cons_1 in Hb as [? Hb]). f_equal.
  pose proof (inv_mix_mix z z0 z1 z2) as E1. pose proof (inv_mix_mix z3 z4 z5 z6) as E2.
  pose proof (inv_mix_mix z7 z8 z9 z10) as E3. pose proof (inv_mix_mix z11 z12 z13 z14) as E4.
  cbn [on_columns mix_col app] in *. rewrite E1, E2, E3, E4 by done. done.
Qed.

(** *** Round keys *)

(** [AddRoundKey] for any way of reading the key. *)
Lemma add_loop_eq (K : Z -> Z -> option Z) (k s : list Z) :
  length s = 16%nat -> length k = 16%nat ->
  (forall i j, 0 <= i < 4 -> 0 <= j < 4 -> K i j = mget k (st i j)) ->
  for_loop 4 0 (fun i state =>
    for_loop 4 0 (fun j state =>
      x <- mget state (st i j);; v <- K i j;; mset state (st i j) (Z.lxor x v)) state) s =
  Some (xor_bytes s k).
Proof.
  intros Hs Hk HK. sixteen s Hs. sixteen k Hk. cbn [for_loop Z.add Pos.add Pos.succ].
  rewrite !HK by lia. by cbv -[Z.lxor].
Qed.

Lemma mget_sub m off n i : 0 <= off -> off + n <= zlen m -> 0 <= i < n ->
  mget m (off + i) = mget (take (Z.to_nat n) (drop (Z.to_nat off) m)) i.
Proof.
  intros Ho Hn Hi. unfold mget. destruct (Z.leb_spec 0 (off + i)); [|lia].
  destruct (Z.leb_spec 0 i); [|lia]. rewrite lookup_take_lt, lookup_drop by lia. f_equal. lia.
Qed.

Definition round_key (rk : list Z) (round : Z) : list Z :=
  take 16 (drop (Z.to_nat (16 * round)) rk).

Definition keys_ok (rk : list Z) : Prop := length rk = 176%nat /\ bytes_ok rk.

Lemma round_key_block rk round : keys_ok rk -> 0 <= round <= 10 -> block (round_key rk round).
Proof.
  intros [Hl Hb] Hr. unfold round_key. split.
  - rewrite length_take, length_drop. lia.
  - by apply Forall_take, Forall_drop.
Qed.

Lemma AddRoundKey_spec round s rk :
  keys_ok rk -> length s = 16%nat -> 0 <= round <= 10 ->
  AddRoundKey round s rk = Some (fips_AddRoundKey round rk s).
Proof.
  intros Hk Hs Hr. unfold AddRoundKey.
  rewrite (add_loop_eq _ (round_key rk round)); [done|done|by apply round_key_block|].
  intros i j Hi Hj. destruct Hk as [Hl _]. unfold Nb, round_key, st.
  replace (round * 4 * 4 + i * 4 + j) with (16 * round + (4 * i + j)) by lia.
  rewrite (mget_sub rk (16 * round) 16); [done|lia|unfold zlen; lia|lia].
Qed.

Lemma fips_AddRoundKey_block round rk s :
  keys_ok rk -> block s -> 0 <= round <= 10 -> block (fips_AddRoundKey round rk s).
Proof.
  intros Hk [Hl Hb] Hr. destruct (round_key_block rk round Hk Hr) as [Kl Kb].
  unfold fips_AddRoundKey. fold (round_key rk round). split.
  - rewrite xor_bytes_length; lia.
  - auto with pdi.
Qed.

Lemma fips_AddRoundKey_twice round rk s :
  keys_ok rk -> length s = 16%nat -> 0 <= round <= 10 ->
  fips_AddRoundKey round rk (fips_AddRoundKey round rk s) = s.
Proof.
  intros Hk Hl Hr. destruct (round_key_block rk round Hk Hr) as [Kl _].
  unfold fips_AddRoundKey. fold (round_key rk round). apply xor_bytes_cancel. lia.
Qed.

(** ** The block cipher *)

Lemma fips_round_block rk s r : keys_ok rk -> block s -> 0 <= r <= 10 -> block (fips_round rk s r).
Proof.
  intros Hk Hs Hr. apply fips_AddRoundKey_block; auto using fips_MixColumns_block,
    fips_ShiftRows_block, fips_SubBytes_block.
Qed.

Lemma fips_rounds_block rk s r n :
  keys_ok rk -> block s -> 0 <= r -> r + n <= 11 -> block (foldl (fips_round rk) s (seqZ r n)).
Proof.
  intros Hk Hs Hr Hn.
  assert (Forall (fun k => 0 <= k <= 10) (seqZ r n)) as Hf
    by (apply Forall_forall; intros k [? ?]%list_elem_of_In%elem_of_seqZ; lia).
  clear Hr Hn. revert s Hs. induction Hf as [|k l ? ? IH]; intros s Hs; [done|].
  simpl. by apply IH, fips_round_block.
Qed.

Lemma cipher_loop_spec rk : keys_ok rk -> forall n s, (n <= 9)%nat -> block s ->
  cipher_loop (S n) (10 - Z.of_nat n) s rk =
  Some (fips_ShiftRows (fips_SubBytes (foldl (fips_round rk) s (seqZ (10 - Z.of_nat n) (Z.of_nat n))))).
Proof.
  intros Hk. induction n as [|n IH]; intros s Hn Hs.
  - cbn [cipher_loop]. rewrite SubBytes_spec by done.
    by rewrite ShiftRows_spec by apply fips_SubBytes_block, Hs.
  - change (cipher_loop (S (S n)) (10 - Z.of_nat (S n)) s rk) with
      (state <- SubBytes s;; state <- ShiftRows state;;
       if 10 - Z.of_nat (S n) =? Nr then Some state
       else state <- MixColumns state;; state <- AddRoundKey (10 - Z.of_nat (S n)) state rk;;
            cipher_loop (S n) (u8 (10 - Z.of_nat (S n) + 1)) state rk).
    pose proof (fips_SubBytes_block s Hs) as H1. pose proof (fips_ShiftRows_block _ H1) as H2.
    pose proof (fips_MixColumns_block _ H2) as H3.
    rewrite SubBytes_spec, ShiftRows_spec by (done || apply H1).
    destruct (Z.eqb_spec (10 - Z.of_nat (S n)) Nr); [unfold Nr in *; lia|].
    rewrite MixColumns_spec by done. rewrite AddRoundKey_spec by (done || apply H3 || lia).
    rewrite u8_small by lia. replace (10 - Z.of_nat (S n) + 1) with (10 - Z.of_nat n) by lia.
    rewrite IH by (lia || apply (fips_round_block rk s (10 - Z.of_nat (S n))); auto; lia).
    rewrite (seqZ_cons _ (Z.of_nat (S n))) by lia. cbn [foldl]. do 4 f_equal.
    f_equal; lia.
Qed.

Lemma Cipher_spec rk s : keys_ok rk -> block s ->
  Cipher s rk = Some (fips_cipher rk s) /\ block (fips_cipher rk s).
Proof.
  intros Hk Hs. unfold Cipher. rewrite AddRoundKey_spec by (done || apply Hs || lia).
  pose proof (fips_AddRoundKey_block 0 rk s Hk Hs) as H0.
  rewrite (cipher_loop_spec rk Hk 9) by (lia || apply H0; lia). change (10 - Z.of_nat 9) with 1.
  pose proof (fips_rounds_block rk (fips_AddRoundKey 0 rk s) 1 9 Hk) as H1.
  pose proof (fips_ShiftRows_block _ (fips_SubBytes_block _ (H1 ltac:(apply H0; lia) ltac:(lia) ltac:(lia)))) as H2.
  rewrite AddRoundKey_spec by (done || apply H2 || unfold Nr; lia).
  split; [done|]. apply fips_AddRoundKey_block; auto. lia.
Qed.

Lemma inv_cipher_loop_spec rk : keys_ok rk -> forall n s, (n <= 9)%nat -> block s ->
  inv_cipher_loop (S n) (Z.of_nat n)
    (fips_ShiftRows (fips_SubBytes (foldl (fips_round rk) s (seqZ 1 (Z.of_nat n))))) rk =
  Some (fips_AddRoundKey 0 rk s).
Proof.
  intros Hk. induction n as [|n IH]; intros s Hn Hs.
  - pose proof (fips_SubBytes_block s Hs) as [H1 _].
    cbn [inv_cipher_loop]. change (seqZ 1 (Z.of_nat 0)) with (@nil Z). cbn [foldl].
    rewrite InvShiftRows_spec, InvSubBytes_spec by done.
    by rewrite AddRoundKey_spec by (done || apply Hs || lia).
  - set (y := foldl (fips_round rk) s (seqZ 1 (Z.of_nat n))).
    assert (foldl (fips_round rk) s (seqZ 1 (Z.of_nat (S n))) = fips_round rk y (Z.of_nat (S n))) as ->.
    { replace (Z.of_nat (S n)) with (Z.of_nat n + 1) by lia. rewrite seqZ_app by lia.
      rewrite foldl_app. fold y. replace (1 + Z.of_nat n) with (Z.of_nat n + 1) by lia. done. }
    assert (block y) as Hy by (apply fips_rounds_block; auto; lia).
    pose proof (fips_ShiftRows_block _ (fips_SubBytes_block y Hy)) as H1.
    pose proof (fips_MixColumns_block _ H1) as H2.
    assert (block (fips_round rk y (Z.of_nat (S n)))) as H3 by (apply fips_round_block; auto; lia).
    change (inv_cipher_loop (S (S n)) (Z.of_nat (S n)) ?x rk) with
      (state <- InvShiftRows x;; state <- InvSubBytes state;;
       state <- AddRoundKey (Z.of_nat (S n)) state rk;;
       if Z.of_nat (S n) =? 0 then Some state
       else state <- InvMixColumns state;;
            inv_cipher_loop (S n) (u8 (Z.of_nat (S n) - 1)) state rk).
    rewrite InvShiftRows_spec by apply fips_SubBytes_block, H3. rewrite InvSubBytes_spec by done.
    rewrite AddRoundKey_spec by (done || apply H3 || lia).
    change (fips_round rk y ?r) with
      (fips_AddRoundKey r rk (fips_MixColumns (fips_ShiftRows (fips_SubBytes y)))).
    rewrite (fips_AddRoundKey_twice (Z.of_nat (S n)) rk _ Hk (proj1 H2)) by lia.
    destruct (Z.eqb_spec (Z.of_nat (S n)) 0); [lia|].
    rewrite InvMixColumns_spec by done. rewrite u8_small by lia.
    replace (Z.of_nat (S n) - 1) with (Z.of_nat n) by lia. apply IH; [lia|done].
Qed.

Lemma InvCipher_spec rk s : keys_ok rk -> block s -> InvCipher (fips_cipher rk s) rk = Some s.
Proof.
  intros Hk Hs. destruct (Cipher_spec rk s Hk Hs) as [_ [Hl _]]. unfold InvCipher.
  rewrite AddRoundKey_spec by (done || unfold Nr; lia). unfold fips_cipher.
  assert (block (fips_AddRoundKey 0 rk s)) as H0 by (apply fips_AddRoundKey_block; auto; lia).
  rewrite fips_AddRoundKey_twice; [|done| |lia].
  - rewrite (inv_cipher_loop_spec rk Hk 9) by (lia || done).
    by rewrite fips_AddRoundKey_twice by (done || apply Hs || lia).
  - apply fips_ShiftRows_block, fips_SubBytes_block, fips_rounds_block; auto; lia.
Qed.

(** ** The key schedule *)

Lemma word_length w i : (4 * i + 4 <= length w)%nat -> length (word w i) = 4%nat.
Proof. intros H. unfold word. rewrite length_take, length_drop. lia. Qed.

Lemma word_get w post i t0 t1 t2 t3 k :
  word w i = [t0; t1; t2; t3] -> (4 * i + 4 <= length w)%nat -> k = Z.of_nat i * 4 ->
  mget (w ++ post) k = Some t0 /\ mget (w ++ post) (k + 1) = Some t1 /\
  mget (w ++ post) (k + 2) = Some t2 /\ mget (w ++ post) (k + 3) = Some t3.
Proof.
  intros Hw Hl ->.
  assert (forall j, 0 <= j < 4 -> mget (w ++ post) (Z.of_nat i * 4 + j) = mget [t0; t1; t2; t3] j) as H.
  { intros j Hj. rewrite mget_app_l by (unfold zlen; lia).
    rewrite (mget_sub w _ 4) by (unfold zlen; lia).
    replace (Z.to_nat (Z.of_nat i * 4)) with (4 * i)%nat by lia. by rewrite <- Hw. }
  rewrite <- (Z.add_0_r (Z.of_nat i * 4)) at 1. by rewrite !H by lia.
Qed.

Lemma mset_word pre a post v k :
  k = zlen pre -> mset (pre ++ a :: post) k v = Some (pre ++ v :: post).
Proof. intros ->. apply mset_app_mid. Qed.

(** Writing a word after [pre]. *)
Lemma write_word pre a b c d post x0 x1 x2 x3 k :
  k = zlen pre ->
  (m <- mset (pre ++ a :: b :: c :: d :: post) k x0;; m <- mset m (k + 1) x1;;
   m <- mset m (k + 2) x2;; mset m (k + 3) x3) = Some (pre ++ x0 :: x1 :: x2 :: x3 :: post).
Proof.
  intros Hk. rewrite (mset_word pre) by done.
  change (pre ++ x0 :: b :: c :: d :: post) with (pre ++ [x0] ++ b :: c :: d :: post).
  rewrite app_assoc, mset_word by (rewrite zlen_app; change (zlen [x0]) with 1; lia).
  rewrite <- app_assoc. change ([x0] ++ x1 :: ?l) with ([x0; x1] ++ l).
  rewrite app_assoc, mset_word by (rewrite zlen_app; change (zlen [x0; x1]) with 2; lia).
  rewrite <- app_assoc. change ([x0; x1] ++ x2 :: ?l) with ([x0; x1; x2] ++ l).
  rewrite app_assoc, mset_word by (rewrite zlen_app; change (zlen [x0; x1; x2]) with 3; lia).
  by rewrite <- app_assoc.
Qed.

Lemma four_bytes (l : list Z) :
  length l = 4%nat -> exists a b c d, l = [a; b; c; d].
Proof.
  intros H. do 4 (destruct l as [|? l]; [simpl in H; lia|]). destruct l; [|simpl in H; lia]. eauto 10.
Qed.

Lemma rcon_fips i : 1 <= i <= 10 ->
  mget Rcon i = Some (fips_rcon (Z.to_nat i)) /\ byte_ok (fips_rcon (Z.to_nat i)).
Proof.
  intros H. unfold byte_ok.
  assert (((i =? 0) || bool_decide (mget Rcon i = Some (fips_rcon (Z.to_nat i))) &&
      (0 <=? fips_rcon (Z.to_nat i)) && (fips_rcon (Z.to_nat i) <? 256)) = true) as Hf.
  { assert (0 <= i < 11) as Hi by lia. clear H. revert i Hi. apply forall_below. by vm_compute. }
  destruct (Z.eqb_spec i 0); [lia|]. simpl in Hf.
  apply andb_true_iff in Hf as [[E%bool_decide_eq_true ?]%andb_true_iff ?]. split; [done|lia].
Qed.

Lemma fips_temp_bytes i t : bytes_ok t -> (4 <= i < 44)%nat -> bytes_ok (fips_temp i t).
Proof.
  intros Ht Hi. unfold fips_temp. destruct (i mod 4 =? 0)%nat; [|done].
  apply xor_bytes_ok.
  - apply Forall_map.
    assert (bytes_ok (drop 1 t ++ take 1 t)) as H
      by (apply Forall_app_2; [by apply Forall_drop|by apply Forall_take]).
    revert H. apply Forall_impl. intros x Hx. simpl. auto with pdi.
  - destruct (rcon_fips (Z.of_nat (i / 4))) as [_ Hr]; [rewrite Nat2Z.inj_div; div_lia|]. rewrite Nat2Z.id in Hr.
    repeat (constructor; [unfold byte_ok in *; lia|]). constructor.
Qed.

Lemma fips_temp_length i t : length t = 4%nat -> length (fips_temp i t) = 4%nat.
Proof.
  intros Ht. destruct (four_bytes t Ht) as (a & b & c & d & ->). unfold fips_temp.
  by destruct (i mod 4 =? 0)%nat.
Qed.

Lemma fips_next_bytes w i : bytes_ok w -> length w = (4 * i)%nat -> (4 <= i < 44)%nat ->
  bytes_ok (fips_next w i) /\ length (fips_next w i) = (4 * S i)%nat.
Proof.
  intros Hw Hl Hi. unfold fips_next. split.
  - apply Forall_app_2; [done|]. apply xor_bytes_ok.
    + by apply Forall_take, Forall_drop.
    + apply fips_temp_bytes; [by apply Forall_take, Forall_drop|lia].
  - rewrite length_app, xor_bytes_length, word_length; [lia|lia|].
    rewrite fips_temp_length; rewrite word_length; lia.
Qed.

Lemma expand_word_spec w a b c d post i :
  bytes_ok w -> length w = (4 * i)%nat -> (4 <= i < 44)%nat ->
  expand_word (Z.of_nat i) (w ++ a :: b :: c :: d :: post) = Some (fips_next w i ++ post).
Proof.
  intros Hw Hl Hi.
  destruct (four_bytes (word w (i - 1))) as (t0 & t1 & t2 & t3 & Et); [apply word_length; lia|].
  destruct (four_bytes (word w (i - 4))) as (x0 & x1 & x2 & x3 & Ex); [apply word_length; lia|].
  destruct (four_bytes (fips_temp i [t0; t1; t2; t3])) as (y0 & y1 & y2 & y3 & Ey);
    [by apply fips_temp_length|].
  unfold expand_word.
  destruct (word_get w (a :: b :: c :: d :: post) (i - 1) t0 t1 t2 t3 ((Z.of_nat i - 1) * 4))
    as (-> & -> & -> & ->); [done|lia|lia|].
  assert (bytes_ok [t0; t1; t2; t3]) as Ht by (rewrite <- Et; by apply Forall_take, Forall_drop).
  repeat (apply Forall_cons_1 in Ht as [? Ht]).
  match goal with |- (_ <- ?e;; _) = _ => assert (e = Some (y0, y1, y2, y3)) as -> end.
  { revert Ey. unfold fips_temp. destruct (Nat.eqb_spec (i mod 4) 0) as [Hm|Hm].
    - destruct (Z.eqb_spec (Z.of_nat i mod Nk) 0); [|apply (f_equal Z.of_nat) in Hm; rewrite Nat2Z.inj_mod in Hm; unfold Nk in *; lia].
      rewrite !sbox_fips by done. assert (1 <= Z.of_nat i / 4 <= 10) as Hr by div_lia. unfold Nk.
      rewrite (proj1 (rcon_fips _ Hr)).
      replace (Z.to_nat (Z.of_nat i / 4)) with (i / 4)%nat by (change 4 with (Z.of_nat 4); by rewrite <- Nat2Z.inj_div, Nat2Z.id).
      cbn [drop take app map xor_bytes zip_with].
      generalize (fips_sbox t0) as s0, (fips_sbox t1) as s1, (fips_sbox t2) as s2, (fips_sbox t3) as s3.
      generalize (fips_rcon (i / 4)) as r. intros r s0 s1 s2 s3 [= <- <- <- <-]. by rewrite !Z.lxor_0_r.
    - destruct (Z.eqb_spec (Z.of_nat i mod Nk) 0); [exfalso; apply Hm; apply Nat2Z.inj; rewrite Nat2Z.inj_mod; unfold Nk in *; lia|]. by intros [= <- <- <- <-]. }
  unfold fips_next. rewrite Et, Ex, Ey, <- app_assoc. cbn [xor_bytes zip_with app]. clear Ey Et.
  set (k := (Z.of_nat i - Nk) * 4). set (j := Z.of_nat i * 4).
  assert (forall post, mget (w ++ post) k = Some x0 /\ mget (w ++ post) (k + 1) = Some x1 /\
    mget (w ++ post) (k + 2) = Some x2 /\ mget (w ++ post) (k + 3) = Some x3) as Hx.
  { intros p. apply (word_get w p (i - 4)); [done|lia|unfold k, Nk; lia]. }
  assert (j = zlen w) as Hj by (unfold j, zlen; lia).
  rewrite (proj1 (Hx _)). rewrite (mset_word w) by done.
  rewrite (proj1 (proj2 (Hx _))).
  change (w ++ ?x :: b :: c :: d :: post) with (w ++ [x] ++ b :: c :: d :: post).
  rewrite app_assoc, mset_word by (rewrite zlen_app; unfold zlen at 2; simpl; lia).
  rewrite <- app_assoc, (proj1 (proj2 (proj2 (Hx _)))).
  change ([?x] ++ ?y :: c :: d :: post) with ([x; y] ++ c :: d :: post).
  rewrite app_assoc, mset_word by (rewrite zlen_app; unfold zlen at 2; simpl; lia).
  rewrite <- app_assoc, (proj2 (proj2 (proj2 (Hx _)))).
  change ([?x; ?y] ++ ?z :: d :: post) with ([x; y; z] ++ d :: post).
  rewrite app_assoc, mset_word by (rewrite zlen_app; unfold zlen at 2; simpl; lia).
  by rewrite <- app_assoc.
Qed.

Lemma copy_word_spec key rest i :
  length key = 16%nat -> (i < 4)%nat -> (4 <= length rest)%nat ->
  copy_word key (Z.of_nat i) (take (4 * i) key ++ rest) = Some (take (4 * S i) key ++ drop 4 rest).
Proof.
  intros Hk Hi Hr.
  destruct (four_bytes (take 4 rest)) as (a & b & c & d & Ea); [rewrite length_take; lia|].
  destruct (four_bytes (word key i)) as (x0 & x1 & x2 & x3 & Ex); [apply word_length; lia|].
  destruct (word_get key [] i x0 x1 x2 x3 (Z.of_nat i * 4)) as (G0 & G1 & G2 & G3); [done|lia|lia|].
  rewrite app_nil_r in *. rewrite <- (take_drop 4 rest), Ea at 1. unfold copy_word.
  rewrite G0, G1, G2, G3. cbn [app].
  rewrite write_word by (unfold zlen; rewrite length_take; lia).
  replace (4 * S i)%nat with (4 * i + 4)%nat by lia.
  rewrite <- (take_take_drop key (4 * i) 4). fold (word key i). by rewrite Ex, <- app_assoc.
Qed.

Lemma copy_loop_spec key n i rest :
  length key = 16%nat -> (i + n <= 4)%nat -> (4 * n <= length rest)%nat ->
  for_loop n (Z.of_nat i) (copy_word key) (take (4 * i) key ++ rest) =
  Some (take (4 * (i + n)) key ++ drop (4 * n) rest).
Proof.
  intros Hk. revert i rest. induction n as [|n IH]; intros i rest Hn Hr; cbn [for_loop].
  - by rewrite Nat.add_0_r.
  - rewrite copy_word_spec by (done || lia).
    replace (Z.of_nat i + 1) with (Z.of_nat (S i)) by lia.
    rewrite IH; [|lia|rewrite length_drop; lia]. rewrite drop_drop. do 3 f_equal; lia.
Qed.

Lemma expand_loop_spec n i w rest :
  bytes_ok w -> length w = (4 * i)%nat -> (4 <= i)%nat -> (i + n <= 44)%nat ->
  (4 * n <= length rest)%nat ->
  for_loop n (Z.of_nat i) expand_word (w ++ rest) =
    Some (foldl fips_next w (seq i n) ++ drop (4 * n) rest) /\
  bytes_ok (foldl fips_next w (seq i n)) /\ length (foldl fips_next w (seq i n)) = (4 * (i + n))%nat.
Proof.
  revert i w rest. induction n as [|n IH]; intros i w rest Hw Hl H4 Hn Hr; cbn [for_loop seq foldl].
  - split_and!; [done|done|lia].
  - destruct (four_bytes (take 4 rest)) as (a & b & c & d & Ea); [rewrite length_take; lia|].
    rewrite <- (take_drop 4 rest), Ea at 1. cbn [app].
    rewrite expand_word_spec by (done || lia).
    destruct (fips_next_bytes w i) as [Hb Hl']; [done..|lia|].
    replace (Z.of_nat i + 1) with (Z.of_nat (S i)) by lia.
    destruct (IH (S i) (fips_next w i) (drop 4 rest)) as (-> & ? & Hf);
      [done|done|lia|lia|rewrite length_drop; lia|].
    rewrite drop_drop. split_and!; [do 3 f_equal; lia|done|]. rewrite Hf. lia.
Qed.

Lemma KeyExpansion_spec rk key : length rk = 176%nat -> block key ->
  KeyExpansion rk key = Some (fips_keys key) /\ keys_ok (fips_keys key).
Proof.
  intros Hr [Hk Hb]. unfold KeyExpansion.
  change (Z.to_nat Nk) with 4%nat. change (Z.to_nat (Nb * (Nr + 1) - Nk)) with 40%nat.
  pose proof (copy_loop_spec key 4 0 rk Hk) as E. change (take (4 * 0) key ++ rk) with rk in E. change (Z.of_nat 0) with 0 in E.
  rewrite E by lia. change (4 * (0 + 4))%nat with 16%nat. rewrite take_ge by lia.
  destruct (expand_loop_spec 40 4 key (drop 16 rk)) as (E' & Hb' & Hl'); [done|lia|lia|lia|
    rewrite length_drop; lia|].
  unfold fips_keys. revert E' Hb' Hl'. generalize (foldl fips_next key (seq 4 40)) as w.
  intros w E' Hb' Hl'. change (Z.of_nat 4) with Nk in E'. change (4 * 4)%nat with 16%nat. rewrite E'. split.
  - rewrite drop_ge by (rewrite length_drop; lia). by rewrite app_nil_r.
  - split; [lia|done].
Qed.

(** ** Modes of operation *)

#[local] Opaque fips_cipher fips_keys.

Lemma at_block_spec f pre s t post :
  length s = 16%nat -> length t = 16%nat -> f s = Some t ->
  at_block f (pre ++ s ++ post) (zlen pre) = Some (pre ++ t ++ post).
Proof.
  intros Hs Ht Hf. unfold at_block.
  assert (zlen s = AES_BLOCKLEN) as <- by (unfold zlen, AES_BLOCKLEN; lia).
  rewrite msub_app_mid, Hf. apply mcpy_app_mid. unfold zlen. lia.
Qed.

Lemma xor_loop_spec s : forall pre post ivp v off k,
  off + k = zlen pre -> k = zlen ivp -> length v = length s ->
  for_loop (length s) k (fun i buf =>
    x <- mget buf (off + i);; w <- mget (ivp ++ v) i;; mset buf (off + i) (Z.lxor x w))
    (pre ++ s ++ post) = Some (pre ++ xor_bytes s v ++ post).
Proof.
  induction s as [|x s IH]; intros pre post ivp v off k Ho Hk Hv; [done|].
  destruct v as [|y v]; [done|]. cbn [length for_loop app]. rewrite Ho, mget_app_mid.
  rewrite Hk, mget_app_mid, mset_app_mid. simpl in Hv.
  specialize (IH (pre ++ [Z.lxor x y]) post (ivp ++ [y]) v off (zlen ivp + 1)).
  rewrite <- !app_assoc in IH. cbn [app] in IH. rewrite IH; [done| | |lia].
  - rewrite zlen_app. change (zlen [Z.lxor x y]) with 1. lia.
  - rewrite zlen_app. done.
Qed.

Lemma XorWithIv_spec pre s post v :
  length s = 16%nat -> length v = 16%nat ->
  XorWithIv (pre ++ s ++ post) (zlen pre) v = Some (pre ++ xor_bytes s v ++ post).
Proof.
  intros Hs Hv. unfold XorWithIv.
  pose proof (xor_loop_spec s pre post [] v (zlen pre) 0) as E. rewrite Hs in E. cbn [app] in E.
  rewrite E; [done|lia|done|lia].
Qed.

(** CBC on whole blocks: the output and the vector for the next call. *)
Fixpoint cbc_encrypt (rk iv : list Z) (n : nat) (bs : list Z) : list Z * list Z :=
  match n with
  | O => ([], iv)
  | S n =>
      let c := fips_cipher rk (xor_bytes (take 16 bs) iv) in
      let '(cs, v) := cbc_encrypt rk c n (drop 16 bs) in (c ++ cs, v)
  end.

Lemma xor_block s v : block s -> block v -> block (xor_bytes s v).
Proof. intros [? ?] [? ?]. split; [rewrite xor_bytes_length; lia|auto with pdi]. Qed.

(** Cutting the first block off. *)
Lemma first_block (bs : list Z) n :
  bytes_ok bs -> length bs = (16 * S n)%nat ->
  (forall post, bs ++ post = take 16 bs ++ drop 16 bs ++ post) /\ block (take 16 bs) /\
  bytes_ok (drop 16 bs) /\ length (drop 16 bs) = (16 * n)%nat.
Proof.
  intros Hb Hl. split_and!; [intros; by rewrite app_assoc, take_drop|split|by apply Forall_drop|].
  - rewrite length_take. lia.
  - by apply Forall_take.
  - rewrite length_drop. lia.
Qed.

Lemma cbc_encrypt_block rk n : forall iv bs, keys_ok rk -> block iv -> bytes_ok bs ->
  length bs = (16 * n)%nat ->
  length (fst (cbc_encrypt rk iv n bs)) = (16 * n)%nat /\ bytes_ok (fst (cbc_encrypt rk iv n bs)) /\
  block (snd (cbc_encrypt rk iv n bs)).
Proof.
  induction n as [|n IH]; intros iv bs Hk Hv Hb Hl; [by split_and!|]. cbn [cbc_encrypt].
  destruct (first_block bs n Hb Hl) as (_ & Hs & Hb' & Hl').
  pose proof (Cipher_spec rk (xor_bytes (take 16 bs) iv) Hk (xor_block _ _ Hs Hv)) as [_ Hc].
  destruct (IH (fips_cipher rk (xor_bytes (take 16 bs) iv)) (drop 16 bs) Hk Hc Hb' Hl') as (? & ? & ?).
  destruct (cbc_encrypt rk _ n (drop 16 bs)) as [cs v]. cbn [fst snd] in *. destruct Hc.
  split_and!; [rewrite length_app; lia|by apply Forall_app_2|done].
Qed.

(** What the pointer [Iv] of the loop stands for. *)
Definition iv_points (ctx : AES_ctx) (pre : list Z) (p : option Z) (v : list Z) : Prop :=
  match p with
  | None => v = Iv ctx
  | Some p => exists q, pre = q ++ v /\ p = zlen q
  end.

Lemma iv_points_get ctx pre p v x :
  iv_points ctx pre p v -> block v ->
  (match p with None => Some (Iv ctx) | Some p => msub (pre ++ x) p AES_BLOCKLEN end) = Some v.
Proof.
  intros Hp [Hl _]. destruct p as [p|]; [|by rewrite Hp].
  destruct Hp as (q & -> & ->). rewrite <- app_assoc.
  assert (zlen v = AES_BLOCKLEN) as <- by (unfold zlen, AES_BLOCKLEN; lia). apply msub_app_mid.
Qed.

Lemma cbc_encrypt_loop_spec ctx n : keys_ok (RoundKey ctx) -> forall pre bs post p v,
  bytes_ok bs -> length bs = (16 * n)%nat -> block v -> iv_points ctx pre p v ->
  exists p', cbc_encrypt_loop n ctx (pre ++ bs ++ post) (zlen pre) p =
      Some (pre ++ fst (cbc_encrypt (RoundKey ctx) v n bs) ++ post, p') /\
    iv_points ctx (pre ++ fst (cbc_encrypt (RoundKey ctx) v n bs)) p' (snd (cbc_encrypt (RoundKey ctx) v n bs)).
Proof.
  intros Hk. induction n as [|n IH]; intros pre bs post p v Hb Hl Hv Hp.
  - destruct bs; [|simpl in Hl; lia]. exists p. split; [done|]. by rewrite app_nil_r.
  - cbn [cbc_encrypt_loop cbc_encrypt]. destruct (first_block bs n Hb Hl) as (E & Hs & Hb' & Hl').
    rewrite (iv_points_get ctx pre p v) by done. rewrite (E post).
    rewrite XorWithIv_spec by (apply Hs || apply Hv).
    destruct (Cipher_spec (RoundKey ctx) (xor_bytes (take 16 bs) v) Hk (xor_block _ _ Hs Hv)) as [Ec Hc].
    rewrite (at_block_spec _ _ _ (fips_cipher (RoundKey ctx) (xor_bytes (take 16 bs) v)));
      [|apply xor_block; done|apply Hc|done].
    set (c := fips_cipher (RoundKey ctx) (xor_bytes (take 16 bs) v)) in *.
    destruct (IH (pre ++ c) (drop 16 bs) post (Some (zlen pre)) c) as (p' & E' & Hp');
      [done..|by exists pre|].
    rewrite <- !app_assoc in E'. rewrite zlen_app in E'.
    assert (zlen c = AES_BLOCKLEN) as Ez by (unfold zlen, AES_BLOCKLEN; destruct Hc; lia).
    rewrite Ez in E'. rewrite E'. exists p'.
    destruct (cbc_encrypt (RoundKey ctx) c n (drop 16 bs)) as [cs w]. cbn [fst snd] in *.
    rewrite <- !app_assoc in Hp'. rewrite <- !app_assoc. by split.
Qed.

Lemma cbc_decrypt_loop_spec n : forall ctx pre bs post,
  keys_ok (RoundKey ctx) -> block (Iv ctx) -> bytes_ok bs -> length bs = (16 * n)%nat ->
  cbc_decrypt_loop n ctx (pre ++ fst (cbc_encrypt (RoundKey ctx) (Iv ctx) n bs) ++ post) (zlen pre) =
  Some (set_Iv (snd (cbc_encrypt (RoundKey ctx) (Iv ctx) n bs)) ctx, pre ++ bs ++ post).
Proof.
  induction n as [|n IH]; intros ctx pre bs post Hk Hv Hb Hl.
  - destruct bs; [|simpl in Hl; lia]. by destruct ctx.
  - cbn [cbc_decrypt_loop cbc_encrypt]. destruct (first_block bs n Hb Hl) as (E & Hs & Hb' & Hl').
    destruct (Cipher_spec (RoundKey ctx) (xor_bytes (take 16 bs) (Iv ctx)) Hk (xor_block _ _ Hs Hv)) as [Ec Hc].
    pose proof (InvCipher_spec (RoundKey ctx) _ Hk (xor_block _ _ Hs Hv)) as Ei.
    set (c := fips_cipher (RoundKey ctx) (xor_bytes (take 16 bs) (Iv ctx))) in *.
    specialize (IH (set_Iv c ctx) (pre ++ take 16 bs) (drop 16 bs) post Hk Hc Hb' Hl').
    cbn [RoundKey set_Iv Iv] in IH.
    destruct (cbc_encrypt (RoundKey ctx) c n (drop 16 bs)) as [cs w]. cbn [fst snd] in *.
    rewrite <- app_assoc.
    assert (zlen c = AES_BLOCKLEN) as Ez by (unfold zlen, AES_BLOCKLEN; destruct Hc; lia).
    rewrite <- Ez at 1. rewrite msub_app_mid.
    rewrite (at_block_spec _ _ c _ _ (proj1 Hc) (proj1 (xor_block _ _ Hs Hv)) Ei).
    rewrite XorWithIv_spec by (apply xor_block || apply Hv; done).
    rewrite xor_bytes_cancel by (destruct Hs, Hv; lia).
    rewrite <- (app_nil_r (Iv ctx)) at 1. rewrite mcpy_0 by (unfold zlen; destruct Hv, Hc; lia).
    rewrite app_nil_r. rewrite zlen_app in IH. rewrite <- !app_assoc in IH.
    replace (zlen (take 16 bs)) with AES_BLOCKLEN in IH
      by (unfold zlen, AES_BLOCKLEN; destruct Hs; lia).
    rewrite IH. cbn [set_Iv RoundKey]. by rewrite (E post).
Qed.

(** *** Counter mode *)

(** The counter block after [q] increments, and byte [k] of the key stream. *)
Definition counter (iv : list Z) (q : Z) : list Z := be_bytes 16 (be_val iv + q).

Definition ctr_key (rk iv : list Z) (k : Z) : Z :=
  fips_cipher rk (counter iv (k / 16)) !!! Z.to_nat (k mod 16).

(** The bytes [s] of a message, at position [pos] of it, with the key stream. *)
Definition ctr_out (rk iv : list Z) (pos : Z) (s : list Z) : list Z :=
  zip_with Z.lxor s (map (fun j => ctr_key rk iv (pos + Z.of_nat j)) (seq 0 (length s))).

Lemma incr_iv_spec n p z : bytes_ok p -> length p = n ->
  incr_iv n (p ++ z) = Some (be_bytes n (be_val p + 1) ++ z).
Proof.
  revert n z. induction p as [|x p IH] using rev_ind; intros n z Hp Hn; [by destruct n|].
  rewrite length_app in Hn. simpl in Hn. destruct n as [|n]; [lia|].
  apply Forall_app in Hp as [Hp Hx]. apply Forall_cons_1 in Hx as [Hx _]. unfold byte_ok in Hx.
  cbn [incr_iv be_bytes]. rewrite be_val_snoc, <- !app_assoc. cbn [app].
  assert (Z.of_nat n = zlen p) as -> by (unfold zlen; lia).
  rewrite mget_app_mid. destruct (Z.eqb_spec x 255) as [->|Hne]; rewrite mset_app_mid.
  - rewrite IH by (done || lia). replace (be_val p * 256 + 255 + 1) with ((be_val p + 1) * 256) by lia.
    by rewrite Z.div_mul, Z_mod_mult by lia.
  - replace (be_val p * 256 + x + 1) with (be_val p * 256 + (x + 1)) by lia.
    rewrite Z.div_add_l, Z.div_small, Z.add_0_r, be_bytes_val by (done || lia).
    rewrite u8_small by lia. by rewrite (Z.add_comm (be_val p * 256)), Z_mod_plus_full, Z.mod_small by lia.
Qed.

Lemma counter_block iv q : block (counter iv q).
Proof. split; [apply be_bytes_length|apply be_bytes_ok]. Qed.

Lemma counter_0 iv : block iv -> counter iv 0 = iv.
Proof. intros [Hl Hb]. unfold counter. rewrite Z.add_0_r. by apply be_bytes_val. Qed.

Lemma counter_next iv q : incr_iv 16 (counter iv q) = Some (counter iv (q + 1)).
Proof.
  pose proof (incr_iv_spec 16 (counter iv q) []) as E. rewrite !app_nil_r in E.
  rewrite E by apply counter_block. unfold counter. rewrite be_val_bytes. f_equal.
  rewrite <- (be_bytes_mod 16 (be_val iv + (q + 1))), <- (be_bytes_mod 16 (_ mod _ + 1)).
  rewrite Zplus_mod_idemp_l. do 2 f_equal. lia.
Qed.

(** The state of the function after [pos] bytes of a message that started at [iv]. *)
Record at_pos (rk iv : list Z) (pos : Z) (ctx : AES_ctx) (ks : list Z) (bi : Z) : Prop := {
  ap_pos : 0 <= pos;
  ap_rk : RoundKey ctx = rk;
  ap_iv : Iv ctx = counter iv ((pos + 15) / 16);
  ap_len : length ks = 16%nat;
  ap_bi : bi = pos - 16 * ((pos + 15) / 16 - 1);
  ap_ks : 0 < pos -> ks = fips_cipher rk (counter iv ((pos + 15) / 16 - 1)) }.

Lemma at_pos_0 rk iv ks : block iv -> length ks = 16%nat -> at_pos rk iv 0 (mkAES rk iv) ks AES_BLOCKLEN.
Proof. intros Hv Hk. split; simpl; try done. by rewrite counter_0. Qed.

Lemma ctr_refill_spec rk iv q ctx ks :
  keys_ok rk -> RoundKey ctx = rk -> Iv ctx = counter iv q -> length ks = 16%nat ->
  ctr_refill ctx ks = Some (mkAES rk (counter iv (q + 1)), fips_cipher rk (counter iv q)) /\
  block (fips_cipher rk (counter iv q)).
Proof.
  intros Hk Er Ev Hl. unfold ctr_refill. rewrite Ev, Er.
  pose proof (counter_block iv q) as Hc. destruct (Cipher_spec rk _ Hk Hc) as [E Hb].
  pose proof (msub_app_mid [] (counter iv q) []) as Em. rewrite app_nil_r in Em.
  assert (zlen (counter iv q) = AES_BLOCKLEN) as Ez by (unfold zlen; destruct Hc; unfold AES_BLOCKLEN; lia).
  rewrite Ez in Em. change (msub (counter iv q) 0 AES_BLOCKLEN = Some (counter iv q)) in Em. rewrite Em.
  rewrite <- (app_nil_r ks). rewrite mcpy_0 by (unfold zlen in *; unfold AES_BLOCKLEN in *; lia).
  rewrite app_nil_r, E, counter_next. split; [|done]. unfold set_Iv. by rewrite Er.
Qed.

(** One byte: the block refilled when it is used up, and the key stream byte. *)
Lemma ctr_step rk iv pos ctx ks bi : keys_ok rk -> at_pos rk iv pos ctx ks bi ->
  exists ctx' ks' bi', (if bi =? AES_BLOCKLEN then '(ctx, ks) <- ctr_refill ctx ks;; Some (ctx, ks, 0)
      else Some (ctx, ks, bi)) = Some (ctx', ks', bi') /\
    mget ks' bi' = Some (ctr_key rk iv pos) /\ at_pos rk iv (pos + 1) ctx' ks' (bi' + 1).
Proof.
  intros Hk [Hp Er Ev Hl Hb Hs]. destruct (Z.eqb_spec bi AES_BLOCKLEN) as [E|E]; unfold AES_BLOCKLEN in E.
  - assert (exists q, pos = 16 * q) as [q ->] by (exists (pos / 16); div_lia).
    replace ((16 * q + 15) / 16) with q in * by div_lia.
    destruct (ctr_refill_spec rk iv q ctx ks Hk Er Ev Hl) as [-> [Hb1 Hb2]].
    eexists _, _, _. split; [done|]. unfold ctr_key.
    replace (16 * q / 16) with q by div_lia. replace (16 * q mod 16) with 0 by div_lia. split.
    + rewrite mget_Some; [done|]. unfold zlen. lia.
    + assert ((16 * q + 1 + 15) / 16 = q + 1) as Eq by div_lia.
      constructor; rewrite ?Eq; cbn [RoundKey Iv]; [lia|reflexivity|reflexivity|exact Hb1|lia|].
      intros _. by replace (q + 1 - 1) with q by lia.
  - eexists _, _, _. split; [done|].
    assert (0 < pos /\ (pos + 15) / 16 - 1 = pos / 16 /\ (pos + 1 + 15) / 16 = (pos + 15) / 16 /\
      bi = pos mod 16) as (Hpos & E1 & E2 & E3) by div_lia.
    specialize (Hs Hpos). rewrite E1 in Hs. split.
    + unfold ctr_key. rewrite <- Hs, <- E3. rewrite mget_Some; [done|]. unfold zlen. div_lia.
    + constructor; rewrite ?E2, ?E1; [lia|done|done|done|lia|]. by intros _.
Qed.

Lemma ctr_loop_spec rk iv s : keys_ok rk -> forall pos ctx ks bi pre post,
  at_pos rk iv pos ctx ks bi ->
  exists ctx' ks' bi', ctr_loop (length s) (zlen pre) ctx (pre ++ s ++ post) ks bi =
      Some (ctx', pre ++ ctr_out rk iv pos s ++ post, ks', bi') /\
    at_pos rk iv (pos + zlen s) ctx' ks' bi'.
Proof.
  intros Hk. induction s as [|x s IH]; intros pos ctx ks bi pre post Hp.
  - exists ctx, ks, bi. split; [done|]. by rewrite Z.add_0_r.
  - cbn [length ctr_loop]. destruct (ctr_step rk iv pos ctx ks bi Hk Hp) as (c1 & k1 & b1 & -> & Eg & Hp1).
    cbn [app]. rewrite mget_app_mid, Eg, mset_app_mid.
    destruct (IH (pos + 1) c1 k1 (b1 + 1) (pre ++ [Z.lxor x (ctr_key rk iv pos)]) post Hp1)
      as (c2 & k2 & b2 & E & Hp2).
    rewrite zlen_app, <- !app_assoc in E. cbn [app] in E. change (zlen [_]) with 1 in E.
    rewrite E. exists c2, k2, b2. split.
    + do 4 f_equal. unfold ctr_out. cbn [length seq map zip_with app].
      rewrite Z.add_0_r. do 2 f_equal. rewrite <- seq_shift, map_map.
      do 2 f_equal. apply map_ext. intros j. f_equal. lia.
    + rewrite zlen_cons. by replace (pos + (1 + zlen s)) with (pos + 1 + zlen s) by lia.
Qed.

(** The same from the start of a buffer, with the length as the callers give it. *)
Lemma ctr_buffer_spec rk iv s post pos ctx ks bi : keys_ok rk -> at_pos rk iv pos ctx ks bi ->
  exists ctx' ks' bi', ctr_loop (Z.to_nat (zlen s)) 0 ctx (s ++ post) ks bi =
      Some (ctx', ctr_out rk iv pos s ++ post, ks', bi') /\
    at_pos rk iv (pos + zlen s) ctx' ks' bi'.
Proof.
  intros Hk Hp. replace (Z.to_nat (zlen s)) with (length s) by (unfold zlen; lia).
  exact (ctr_loop_spec rk iv s Hk pos ctx ks bi [] post Hp).
Qed.

Lemma ctr_out_length rk iv pos s : length (ctr_out rk iv pos s) = length s.
Proof. unfold ctr_out. rewrite length_zip_with, length_map, length_seq. lia. Qed.

Lemma ctr_out_app rk iv pos a b :
  ctr_out rk iv pos (a ++ b) = ctr_out rk iv pos a ++ ctr_out rk iv (pos + zlen a) b.
Proof.
  unfold ctr_out. rewrite length_app, seq_app, map_app, zip_with_app by by rewrite length_map, length_seq.
  do 2 f_equal. cbn [plus]. replace (seq (length a) (length b)) with (map (plus (length a)) (seq 0 (length b))).
  - rewrite map_map. apply map_ext. intros j. f_equal. unfold zlen. lia.
  - pose proof (fmap_add_seq (length a) 0 (length b)) as E. by rewrite Nat.add_0_r in E.
Qed.

Lemma ctr_out_twice rk iv pos s : ctr_out rk iv pos (ctr_out rk iv pos s) = s.
Proof.
  unfold ctr_out at 1. rewrite ctr_out_length. unfold ctr_out. apply xor_bytes_cancel.
  rewrite length_map, length_seq. lia.
Qed.

(** Within the block at hand the loop reads the block and nothing of the context. *)
Lemma ctr_loop_within rk iv other ctx ks s : keys_ok rk -> forall pos bi pre post,
  at_pos rk iv pos other ks bi -> bi + zlen s <= AES_BLOCKLEN ->
  ctr_loop (length s) (zlen pre) ctx (pre ++ s ++ post) ks bi =
  Some (ctx, pre ++ ctr_out rk iv pos s ++ post, ks, bi + zlen s).
Proof.
  intros Hk. induction s as [|x s IH]; intros pos bi pre post Hp Hb.
  - by rewrite Z.add_0_r.
  - rewrite zlen_cons in *. pose proof (zlen_nonneg s). cbn [length ctr_loop].
    destruct (ctr_step rk iv pos other ks bi Hk Hp) as (c1 & k1 & b1 & E & Eg & Hp1).
    destruct (Z.eqb_spec bi AES_BLOCKLEN); [lia|]. injection E as <- <- <-.
    cbn [app]. rewrite mget_app_mid, Eg, mset_app_mid.
    specialize (IH (pos + 1) (bi + 1) (pre ++ [Z.lxor x (ctr_key rk iv pos)]) post Hp1 ltac:(lia)).
    rewrite zlen_app, <- !app_assoc in IH. cbn [app] in IH. change (zlen [_]) with 1 in IH.
    rewrite IH. change (x :: s) with ([x] ++ s). rewrite ctr_out_app, <- app_assoc. cbn [app].
    replace (bi + (1 + zlen s)) with (bi + 1 + zlen s) by lia.
    unfold ctr_out at 2. cbn [length seq map zip_with app]. by rewrite Z.add_0_r.
Qed.

(** ** Properties *)

(** C6: [AES_init_ctx] and [AES_ECB_encrypt] compute the AES-128 of FIPS 197, built
    from the field of 256 elements, for every key and every block, in place and
    without touching what follows the block; [AES_ECB_decrypt] gives the block
    back. *)
Theorem aes_ecb_is_fips197 ctx key s post :
  length (RoundKey ctx) = 176%nat -> block key -> block s ->
  exists ctx', AES_init_ctx ctx key = Some ctx' /\ Iv ctx' = Iv ctx /\
    AES_ECB_encrypt ctx' (s ++ post) = Some (fips_cipher (fips_keys key) s ++ post) /\
    AES_ECB_decrypt ctx' (fips_cipher (fips_keys key) s ++ post) = Some (s ++ post).
Proof.
  intros Hr Hk Hs. unfold AES_init_ctx. destruct (KeyExpansion_spec _ key Hr Hk) as [-> Hok].
  revert Hok. generalize (fips_keys key) as w. intros w Hok.
  destruct (Cipher_spec w s Hok Hs) as [E [Hc _]]. pose proof (InvCipher_spec w s Hok Hs) as Ei.
  revert E Hc Ei. generalize (fips_cipher w s) as c. intros c E Hc Ei. destruct Hs as [Hs _].
  exists (mkAES w (Iv ctx)). split_and!; [done|done| |].
  - exact (at_block_spec (fun x => Cipher x w) [] s c post Hs Hc E).
  - exact (at_block_spec (fun x => InvCipher x w) [] c s post Hc Hs Ei).
Qed.

(** CBC decryption with the context that encrypted [n] blocks gives them back,
    touches nothing else, and leaves both contexts with the same vector, so that
    calls can follow each other. *)
Theorem aes_cbc_roundtrip ctx bs n post :
  keys_ok (RoundKey ctx) -> block (Iv ctx) -> bytes_ok bs -> length bs = (16 * n)%nat ->
  exists ctx' cs, length cs = length bs /\ block (Iv ctx') /\ RoundKey ctx' = RoundKey ctx /\
    AES_CBC_encrypt_buffer ctx (bs ++ post) (zlen bs) = Some (ctx', cs ++ post) /\
    AES_CBC_decrypt_buffer ctx (cs ++ post) (zlen bs) = Some (ctx', bs ++ post).
Proof.
  intros Hk Hv Hb Hl.
  destruct (cbc_encrypt_block (RoundKey ctx) n (Iv ctx) bs Hk Hv Hb Hl) as (Hc1 & _ & Hc3).
  exists (set_Iv (snd (cbc_encrypt (RoundKey ctx) (Iv ctx) n bs)) ctx),
    (fst (cbc_encrypt (RoundKey ctx) (Iv ctx) n bs)).
  assert (blocks_of (zlen bs) = n) as En by (unfold blocks_of, zlen; div_lia).
  split_and!; [lia|done|done| |].
  - unfold AES_CBC_encrypt_buffer. rewrite En.
    destruct (cbc_encrypt_loop_spec ctx n Hk [] bs post None (Iv ctx)) as (p & E & Hp); [done..|].
    cbn [app] in E, Hp. change (zlen []) with 0 in E. rewrite E.
    destruct p as [p|]; [|by destruct ctx; simpl in *; rewrite Hp].
    pose proof (iv_points_get ctx _ (Some p) _ post Hp Hc3) as ->.
    rewrite <- (app_nil_r (Iv ctx)) at 1. rewrite mcpy_0 by (unfold zlen; destruct Hv, Hc3; lia).
    by rewrite app_nil_r.
  - unfold AES_CBC_decrypt_buffer. rewrite En.
    by apply (cbc_decrypt_loop_spec n ctx [] bs post).
Qed.

(** counter mode is the exclusive or with the encrypted 128-bit counter, whatever
    the local buffer holds at first; applied twice from the same vector it gives the
    message back; and a message cut into two calls of the function with the static
    state is encrypted as one. *)
Theorem aes_ctr_stream rk iv stk g a b post1 post2 :
  keys_ok rk -> block iv -> length stk = 16%nat -> length (s_buffer g) = 16%nat ->
  s_bi g = AES_BLOCKLEN ->
  (exists ctx', AES_CTR_xcrypt_buffer stk (mkAES rk iv) (a ++ post1) (zlen a) =
      Some (ctx', ctr_out rk iv 0 a ++ post1)) /\
  ctr_out rk iv 0 (ctr_out rk iv 0 a) = a /\
  exists g1 c1 g2 c2 x y,
    AES_CTR_xcrypt_buffer_static g (mkAES rk iv) (a ++ post1) (zlen a) false = Some (g1, c1, x ++ post1) /\
    AES_CTR_xcrypt_buffer_static g1 c1 (b ++ post2) (zlen b) true = Some (g2, c2, y ++ post2) /\
    x ++ y = ctr_out rk iv 0 (a ++ b) /\ s_bi g2 = AES_BLOCKLEN.
Proof.
  intros Hk Hv Hs Hg Hi. split_and!.
  - destruct (ctr_buffer_spec rk iv a post1 0 (mkAES rk iv) stk AES_BLOCKLEN Hk) as (c & k & i & E & _);
      [by apply at_pos_0|].
    exists c. unfold AES_CTR_xcrypt_buffer. by rewrite E.
  - apply ctr_out_twice.
  - destruct (ctr_buffer_spec rk iv a post1 0 (mkAES rk iv) (s_buffer g) AES_BLOCKLEN Hk)
      as (c & k & i & E & Hp); [by apply at_pos_0|].
    destruct (ctr_buffer_spec rk iv b post2 (0 + zlen a) c k i Hk Hp) as (c2 & k2 & i2 & E2 & _).
    exists (mkStatic k i), c, (mkStatic k2 AES_BLOCKLEN), c2, (ctr_out rk iv 0 a), (ctr_out rk iv (0 + zlen a) b).
    unfold AES_CTR_xcrypt_buffer_static. rewrite Hi, E. cbn [s_buffer s_bi]. rewrite E2.
    split_and!; [done|done|by rewrite ctr_out_app|done].
Qed.

(** the static state belongs to no context: when a call of another context left
    part of a block over, up to that many bytes are encrypted with that context's key
    stream, and the own counter does not move. *)
Theorem aes_ctr_static_shared rk iv pos other ks bi ctx s post :
  keys_ok rk -> at_pos rk iv pos other ks bi -> bi + zlen s <= AES_BLOCKLEN ->
  exists g, AES_CTR_xcrypt_buffer_static (mkStatic ks bi) ctx (s ++ post) (zlen s) false =
    Some (g, ctx, ctr_out rk iv pos s ++ post).
Proof.
  intros Hk Hp Hb. eexists. unfold AES_CTR_xcrypt_buffer_static. cbn [s_buffer s_bi].
  replace (Z.to_nat (zlen s)) with (length s) by (unfold zlen; lia).
  pose proof (ctr_loop_within rk iv other ctx ks s Hk pos bi [] post Hp Hb) as E. cbn [app] in E.
  change 0 with (zlen (@nil Z)) at 1. by rewrite E.
Qed.

(** ** Concrete instances *)

(** The vector of NIST SP 800-38A that the header of the source quotes. *)
Definition key0 : list Z :=
  [0x2b; 0x7e; 0x15; 0x16; 0x28; 0xae; 0xd2; 0xa6; 0xab; 0xf7; 0x15; 0x88; 0x09; 0xcf; 0x4f; 0x3c].
Definition text0 : list Z :=
  [0x6b; 0xc1; 0xbe; 0xe2; 0x2e; 0x40; 0x9f; 0x96; 0xe9; 0x3d; 0x7e; 0x11; 0x73; 0x93; 0x17; 0x2a].
Definition cipher0 : list Z :=
  [0x3a; 0xd7; 0x7b; 0xb4; 0x0d; 0x7a; 0x36; 0x60; 0xa8; 0x9e; 0xca; 0xf3; 0x24; 0x66; 0xef; 0x97].

Lemma fips_vector : fips_cipher (fips_keys key0) text0 = cipher0.
Proof. by vm_compute. Qed.

Lemma block_dec s :
  (length s =? 16)%nat && forallb (fun b => (0 <=? b) && (b <? 256)) s = true -> block s.
Proof.
  intros [Hl Hb]%andb_true_iff. split; [by apply Nat.eqb_eq|].
  rewrite forallb_forall in Hb. apply Forall_forall. intros x Hx%Hb. unfold byte_ok. lia.
Qed.

Definition ctx0 : AES_ctx := mkAES (replicate 176 0) (replicate 16 0).

Lemma ctx0_ok : keys_ok (RoundKey ctx0) /\ block (Iv ctx0).
Proof.
  split; [split; [done|]|by apply block_dec].
  apply Forall_replicate. unfold byte_ok. lia.
Qed.

Lemma aes_ecb_is_fips197_witness :
  exists ctx', AES_init_ctx ctx0 key0 = Some ctx' /\ Iv ctx' = Iv ctx0 /\
    AES_ECB_encrypt ctx' (text0 ++ [7]) = Some (fips_cipher (fips_keys key0) text0 ++ [7]) /\
    AES_ECB_decrypt ctx' (fips_cipher (fips_keys key0) text0 ++ [7]) = Some (text0 ++ [7]).
Proof.
  apply (aes_ecb_is_fips197 ctx0 key0 text0 [7]); [reflexivity|by apply block_dec|by apply block_dec].
Defined.

Lemma aes_cbc_roundtrip_witness :
  exists ctx' cs, length cs = length (text0 ++ cipher0) /\ block (Iv ctx') /\
    RoundKey ctx' = RoundKey ctx0 /\
    AES_CBC_encrypt_buffer ctx0 ((text0 ++ cipher0) ++ [7]) 32 = Some (ctx', cs ++ [7]) /\
    AES_CBC_decrypt_buffer ctx0 (cs ++ [7]) 32 = Some (ctx', (text0 ++ cipher0) ++ [7]).
Proof.
  apply (aes_cbc_roundtrip ctx0 (text0 ++ cipher0) 2 [7]).
  - apply ctx0_ok.
  - apply ctx0_ok.
  - apply Forall_app_2; [apply (block_dec text0)|apply (block_dec cipher0)]; reflexivity.
  - reflexivity.
Defined.

Lemma aes_ctr_stream_witness :
  (exists ctx', AES_CTR_xcrypt_buffer (replicate 16 9) (mkAES (replicate 176 0) text0)
      ([1; 2; 3] ++ []) 3 = Some (ctx', ctr_out (replicate 176 0) text0 0 [1; 2; 3] ++ [])) /\
  ctr_out (replicate 176 0) text0 0 (ctr_out (replicate 176 0) text0 0 [1; 2; 3]) = [1; 2; 3] /\
  exists g1 c1 g2 c2 x y,
    AES_CTR_xcrypt_buffer_static ctr_static0 (mkAES (replicate 176 0) text0) ([1; 2; 3] ++ []) 3 false =
      Some (g1, c1, x ++ []) /\
    AES_CTR_xcrypt_buffer_static g1 c1 ([4; 5] ++ [6]) 2 true = Some (g2, c2, y ++ [6]) /\
    x ++ y = ctr_out (replicate 176 0) text0 0 ([1; 2; 3] ++ [4; 5]) /\ s_bi g2 = AES_BLOCKLEN.
Proof.
  apply (aes_ctr_stream (replicate 176 0) text0 (replicate 16 9) ctr_static0 [1; 2; 3] [4; 5] [] [6]);
    [apply ctx0_ok|by apply block_dec|reflexivity..].
Defined.

Lemma at_pos_2 : exists c ks, at_pos (replicate 176 0) text0 2 c ks 2.
Proof.
  destruct (ctr_buffer_spec (replicate 176 0) text0 [1; 2] [] 0 (mkAES (replicate 176 0) text0)
    (replicate 16 0) AES_BLOCKLEN) as (c & ks & bi & _ & Hp);
    [apply ctx0_ok|apply at_pos_0; [by apply block_dec|done]|].
  exists c, ks. assert (bi = 2) as -> by (rewrite (ap_bi _ _ _ _ _ _ Hp); reflexivity). done.
Qed.

Lemma aes_ctr_static_shared_witness :
  exists ks g, AES_CTR_xcrypt_buffer_static (mkStatic ks 2) ctx0 ([8; 9] ++ []) 2 false =
    Some (g, ctx0, ctr_out (replicate 176 0) text0 2 [8; 9] ++ []).
Proof.
  destruct at_pos_2 as (c & ks & Hp). exists ks.
  apply (aes_ctr_static_shared (replicate 176 0) text0 2 c ks 2 ctx0 [8; 9] []);
    [apply ctx0_ok|exact Hp|vm_compute; discriminate].
Defined.

End Aes.
