(* ===== verification/Md.v ===== *)
(** * Block-wise hashing

    What SHA-1, SHA-256 and SHA-512 have in common: a message is consumed in blocks
    of [B] bytes by a compression function [C]; a context holds the state after the
    whole blocks seen so far and the bytes of the block that is not complete.  The
    reference is the fold over the padded message of FIPS 180-4. *)

From stdpp Require Import base option list numbers.
From Stdlib Require Import ZArith Lia.
From S2P Require Import Prelude Words.

Open Scope Z_scope.

Module Md.

Section md.
Context {St : Type} (B : nat) (C : St -> list Z -> St).

(** [n] blocks of [l], from the first. *)
Fixpoint md_fold (n : nat) (st : St) (l : list Z) : St :=
  match n with
  | O => st
  | S n => md_fold n (C st (take B l)) (drop B l)
  end.

(** The state after the whole blocks of [m], and the bytes after them. *)
Definition md_state (st : St) (m : list Z) : St := md_fold (length m / B) st m.
Definition md_rest (m : list Z) : list Z := drop (B * (length m / B)) m.

(** The padding of FIPS 180-4, with a length field of [L] bytes. *)
Definition md_pad (L : nat) (m : list Z) : list Z :=
  m ++ 0x80 :: replicate ((B - (length m + 1 + L) mod B) mod B) 0 ++ be_bytes L (8 * zlen m).

(** The hash before it is written out: all blocks of the padded message. *)
Definition md_hash (L : nat) (st : St) (m : list Z) : St := md_state st (md_pad L m).

Context (HB : (0 < B)%nat).

Lemma md_rest_length m : length (md_rest m) = (length m mod B)%nat.
Proof.
  unfold md_rest. rewrite length_drop. pose proof (Nat.div_mod_eq (length m) B). lia.
Qed.

Lemma md_rest_lt m : (length (md_rest m) < B)%nat.
Proof. rewrite md_rest_length. apply Nat.mod_upper_bound. lia. Qed.

Lemma md_rest_bytes m : bytes_ok m -> bytes_ok (md_rest m).
Proof. apply Forall_drop. Qed.

Lemma md_fold_app n k st m l :
  length m = (B * n)%nat -> md_fold (n + k) st (m ++ l) = md_fold k (md_fold n st m) l.
Proof.
  revert st m. induction n as [|n IH]; intros st m Hm.
  - destruct m; [done|simpl in Hm; lia].
  - cbn [md_fold plus]. rewrite take_app_le, drop_app_le by lia. apply IH.
    rewrite length_drop. lia.
Qed.

Lemma md_fold_take n st m :
  (B * n <= length m)%nat -> md_fold n st m = md_fold n st (take (B * n) m).
Proof.
  intros Hn. rewrite <- (take_drop (B * n) m) at 1.
  replace n with (n + 0)%nat at 1 by lia. rewrite md_fold_app; [done|].
  rewrite length_take. lia.
Qed.

(** Appending to a message continues from its state with its last bytes. *)
Lemma md_app st m l :
  md_state st (m ++ l) = md_state (md_state st m) (md_rest m ++ l) /\
  md_rest (m ++ l) = md_rest (md_rest m ++ l).
Proof.
  set (n := (length m / B)%nat). set (r := md_rest m).
  assert (B * n <= length m)%nat as Hn by (apply Nat.Div0.mul_div_le).
  assert (take (B * n) m ++ r = m) as Em by apply take_drop.
  assert (length (take (B * n) m) = B * n)%nat as Hl by (rewrite length_take; lia).
  assert (length (m ++ l) / B = n + length (r ++ l) / B)%nat as Ed.
  { rewrite <- Em at 1. rewrite <- app_assoc, length_app, Hl.
    rewrite (Nat.mul_comm B), Nat.div_add_l by lia. done. }
  assert (m ++ l = take (B * n) m ++ r ++ l) as Eml by (by rewrite app_assoc, Em).
  split.
  - unfold md_state. rewrite Ed, Eml, md_fold_app by done. fold n. f_equal.
    symmetry. by apply md_fold_take.
  - unfold md_rest at 1. rewrite Ed, Eml, Nat.mul_add_distr_l. by rewrite drop_app_add'.
Qed.

Lemma md_short st r : (length r < B)%nat -> md_state st r = st /\ md_rest r = r.
Proof. intros H. unfold md_state, md_rest. rewrite Nat.div_small by done. by rewrite Nat.mul_0_r. Qed.

Lemma md_block st b : length b = B -> md_state st b = C st b /\ md_rest b = [].
Proof.
  intros H. unfold md_state, md_rest. rewrite H, Nat.div_same by lia. cbn [md_fold].
  rewrite take_ge by lia. split; [done|]. apply drop_ge. lia.
Qed.

(** Bytes that stay within the block at hand. *)
Lemma md_absorb_short st m l : (length (md_rest m) + length l < B)%nat ->
  md_state st (m ++ l) = md_state st m /\ md_rest (m ++ l) = md_rest m ++ l.
Proof.
  intros H. destruct (md_app st m l) as [-> ->]. apply md_short. rewrite length_app. lia.
Qed.

(** Bytes that complete it. *)
Lemma md_absorb_full st m l : (length (md_rest m) + length l)%nat = B ->
  md_state st (m ++ l) = C (md_state st m) (md_rest m ++ l) /\ md_rest (m ++ l) = [].
Proof.
  intros H. destruct (md_app st m l) as [-> ->]. apply md_block. rewrite length_app. lia.
Qed.

(** Zero bytes that the padding needs. *)
Lemma md_pad_zeros L m (r := length (md_rest m)) :
  (L + 1 <= B)%nat ->
  ((B - (length m + 1 + L) mod B) mod B)%nat =
    if (r + 1 + L <=? B)%nat then (B - (r + 1 + L))%nat else (2 * B - (r + 1 + L))%nat.
Proof.
  intros HL. pose proof (md_rest_lt m) as Hr. fold r in Hr.
  assert ((length m + 1 + L) mod B = (r + 1 + L) mod B)%nat as ->.
  { unfold r. rewrite md_rest_length. rewrite <- !Nat.add_assoc. by rewrite Nat.Div0.add_mod_idemp_l. }
  destruct (Nat.leb_spec (r + 1 + L) B) as [H|H].
  - destruct (Nat.eq_dec (r + 1 + L) B) as [->|].
    + rewrite Nat.Div0.mod_same. rewrite Nat.sub_0_r, Nat.Div0.mod_same. lia.
    + rewrite (Nat.mod_small (r + 1 + L)) by lia. apply Nat.mod_small. lia.
  - replace ((r + 1 + L) mod B)%nat with (r + 1 + L - B)%nat.
    + rewrite Nat.mod_small; lia.
    + symmetry. replace (r + 1 + L)%nat with (r + 1 + L - B + 1 * B)%nat at 1 by lia.
      rewrite Nat.Div0.mod_add. apply Nat.mod_small. lia.
Qed.

(** The last one or two blocks: what remains of the message, the marker, zeros and
    the length. *)
Lemma md_hash_final L st m (r := md_rest m) : (L + 1 <= B)%nat ->
  md_hash L st m =
    if (length r + 1 + L <=? B)%nat
    then C (md_state st m)
           (r ++ 0x80 :: replicate (B - (length r + 1 + L)) 0 ++ be_bytes L (8 * zlen m))
    else C (C (md_state st m) (r ++ 0x80 :: replicate (B - (length r + 1)) 0))
           (replicate (B - L) 0 ++ be_bytes L (8 * zlen m)).
Proof.
  intros HL. unfold md_hash, md_pad. rewrite md_pad_zeros by done. fold r.
  pose proof (md_rest_lt m) as Hr. fold r in Hr.
  destruct (Nat.leb_spec (length r + 1 + L) B) as [H|H].
  - apply md_absorb_full. fold r. cbn [length]. rewrite length_app, length_replicate, be_bytes_length. lia.
  - replace (2 * B - (length r + 1 + L))%nat with ((B - (length r + 1)) + (B - L))%nat by lia.
    rewrite replicate_add, <- app_assoc.
    set (t := replicate (B - L) 0 ++ be_bytes L (8 * zlen m)).
    change (0x80 :: replicate (B - (length r + 1)) 0 ++ t) with
      ((0x80 :: replicate (B - (length r + 1)) 0) ++ t). rewrite app_assoc.
    destruct (md_absorb_full st m (0x80 :: replicate (B - (length r + 1)) 0)) as [E1 E2].
    { fold r. cbn [length]. rewrite length_replicate. lia. }
    destruct (md_absorb_full st (m ++ 0x80 :: replicate (B - (length r + 1)) 0) t) as [E3 _].
    { rewrite E2. unfold t. rewrite length_app, length_replicate, be_bytes_length. simpl. lia. }
    rewrite E3, E1, E2. done.
Qed.

End md.

End Md.
