(* ===== verification/Fips180.v ===== *)
(** * FIPS 180-4

    The hash functions of the standard, as the reference of the models in
    [Sha256.v], [Sha512.v] and [Sha1.v]: the SHA-2 family over words of [w] bits with
    its rotation amounts and constants as arguments, and SHA-1. *)

From stdpp Require Import base option list numbers.
From Stdlib Require Import ZArith Lia.
From S2P Require Import Prelude Words Md.

Open Scope Z_scope.

Module Fips180.

(** A block as big-endian words of [n] bytes. *)
Fixpoint be_words (n k : nat) (l : list Z) : list Z :=
  match k with
  | O => []
  | S k => be_val (take n l) :: be_words n k (drop n l)
  end.

Lemma be_words_length n k l : length (be_words n k l) = k.
Proof. revert l. induction k as [|k IH]; intros l; simpl; auto. Qed.

Lemma be_words_lookup n k l i :
  (i < k)%nat -> be_words n k l !! i = Some (be_val (take n (drop (n * i) l))).
Proof.
  revert l i. induction k as [|k IH]; intros l i Hi; [lia|]. destruct i as [|i]; cbn.
  - by rewrite Nat.mul_0_r.
  - rewrite IH by lia. rewrite drop_drop. by replace (n * S i)%nat with (n + n * i)%nat by lia.
Qed.

Lemma be_words_ok n k l : bytes_ok l -> (n * k <= length l)%nat ->
  Forall (word_ok (8 * Z.of_nat n)) (be_words n k l).
Proof.
  revert l. induction k as [|k IH]; intros l Hl Hn; [constructor|]. cbn. constructor.
  - pose proof (be_val_range (take n l) (Forall_take _ _ _ Hl)) as H.
    unfold word_ok. unfold zlen in H. rewrite length_take_le in H by lia.
    by rewrite Z.pow_mul_r by lia.
  - apply IH; [by apply Forall_drop|]. rewrite length_drop. lia.
Qed.

Definition Ch (x y z : Z) : Z := Z.lxor (Z.land x y) (Z.land (Z.lnot x) z).
Definition Maj (x y z : Z) : Z := Z.lxor (Z.lxor (Z.land x y) (Z.land x z)) (Z.land y z).
Definition Parity (x y z : Z) : Z := Z.lxor (Z.lxor x y) z.

Lemma Ch_ok w x y z : 0 <= w -> word_ok w x -> word_ok w y -> word_ok w z -> word_ok w (Ch x y z).
Proof.
  intros Hw Hx Hy Hz. unfold Ch. rewrite <- (lnot_land w) by done.
  apply lxor_ok; auto with words.
Qed.

(** ** The SHA-2 family *)

Section sha2.
Context (w : Z) (s0a s0b s0c s1a s1b s1c g0a g0b g0c g1a g1b g1c : Z) (K : list Z).

Definition Sigma0 (x : Z) : Z := Z.lxor (Z.lxor (rotr w s0a x) (rotr w s0b x)) (rotr w s0c x).
Definition Sigma1 (x : Z) : Z := Z.lxor (Z.lxor (rotr w s1a x) (rotr w s1b x)) (rotr w s1c x).
Definition sigma0 (x : Z) : Z := Z.lxor (Z.lxor (rotr w g0a x) (rotr w g0b x)) (x / 2 ^ g0c).
Definition sigma1 (x : Z) : Z := Z.lxor (Z.lxor (rotr w g1a x) (rotr w g1b x)) (x / 2 ^ g1c).

(** The message schedule: word [t] from the words [t - 2], [t - 7], [t - 15] and
    [t - 16]. *)
Definition next_word (W : list Z) : Z :=
  let t := length W in
  (sigma1 (W !!! (t - 2)%nat) + W !!! (t - 7)%nat + sigma0 (W !!! (t - 15)%nat) + W !!! (t - 16)%nat)
    mod 2 ^ w.

Fixpoint schedule (n : nat) (W : list Z) : list Z :=
  match n with
  | O => W
  | S n => schedule n (W ++ [next_word W])
  end.

Record regs := mkRegs { ra : Z; rb : Z; rc : Z; rd : Z; re : Z; rf : Z; rg : Z; rh : Z }.

Definition sha2_round (r : regs) (kw : Z * Z) : regs :=
  let '(mkRegs a b c d e f g h) := r in
  let t1 := (h + Sigma1 e + Ch e f g + fst kw + snd kw) mod 2 ^ w in
  let t2 := (Sigma0 a + Maj a b c) mod 2 ^ w in
  mkRegs ((t1 + t2) mod 2 ^ w) a b c ((d + t1) mod 2 ^ w) e f g.

Definition regs_list (r : regs) : list Z := [ra r; rb r; rc r; rd r; re r; rf r; rg r; rh r].
Definition regs_add (r s : regs) : regs :=
  let p x y := (x + y) mod 2 ^ w in
  mkRegs (p (ra r) (ra s)) (p (rb r) (rb s)) (p (rc r) (rc s)) (p (rd r) (rd s))
    (p (re r) (re s)) (p (rf r) (rf s)) (p (rg r) (rg s)) (p (rh r) (rh s)).

(** One block. *)
Definition sha2_compress (r : regs) (block : list Z) : regs :=
  let W := schedule (length K - 16) (be_words (Z.to_nat (w / 8)) 16 block) in
  regs_add r (foldl sha2_round r (zip K W)).

(** The digest: the registers after the padded message, as bytes. *)
Definition sha2 (B L : nat) (init : regs) (m : list Z) : list Z :=
  concat (map (be_bytes (Z.to_nat (w / 8))) (regs_list (Md.md_hash B sha2_compress L init m))).

(** *** Ranges *)

Definition regs_ok (r : regs) : Prop := Forall (word_ok w) (regs_list r).

Context (Hw : 0 <= w).

Lemma sha2_round_ok r kw : regs_ok r -> regs_ok (sha2_round r kw).
Proof.
  destruct r as [a b c d e f g h]. unfold regs_ok, regs_list. simpl. intros H.
  repeat (apply Forall_cons_1 in H as [? H]). repeat (apply Forall_cons_2; [by auto with words|]).
  constructor.
Qed.

Lemma regs_add_ok r s : regs_ok (regs_add r s).
Proof.
  unfold regs_ok, regs_list, regs_add. cbn [ra rb rc rd re rf rg rh].
  repeat (apply Forall_cons_2; [by auto with words|]). constructor.
Qed.

Lemma sha2_compress_ok r block : regs_ok (sha2_compress r block).
Proof. apply regs_add_ok. Qed.

Lemma schedule_length n W : length (schedule n W) = (length W + n)%nat.
Proof.
  revert W. induction n as [|n IH]; intros W; simpl; [lia|]. rewrite IH, length_app. simpl. lia.
Qed.

Lemma schedule_ok n W : Forall (word_ok w) W -> Forall (word_ok w) (schedule n W).
Proof.
  revert W. induction n as [|n IH]; intros W HW; [done|]. simpl. apply IH.
  apply Forall_app_2; [done|]. apply Forall_singleton. by apply mod_ok.
Qed.

Lemma md_state_ok B r m : regs_ok r -> regs_ok (Md.md_state B sha2_compress r m).
Proof.
  intros Hr. unfold Md.md_state. generalize (length m / B)%nat as n. intros n. revert r m Hr.
  induction n as [|n IH]; intros r m Hr; [done|]. simpl. apply IH, sha2_compress_ok.
Qed.

End sha2.

(** *** The constants

    The first bits of the fractional parts of the cube roots (the round constants) and of
    the square roots (the initial registers) of the first primes. *)
Definition is_prime (n : Z) : bool := forallb (fun d => negb (n mod d =? 0)) (seqZ 2 (n - 2)).
Definition primes (n : Z) : list Z := List.filter is_prime (seqZ 2 (n - 1)).

(** The integer cube root of [n], from bit [k] downwards. *)
Fixpoint icbrt (k : nat) (r n : Z) : Z :=
  match k with
  | O => r
  | S k => let r' := r + 2 ^ Z.of_nat k in icbrt k (if r' ^ 3 <=? n then r' else r) n
  end.

Definition root3 (w p : Z) : Z := icbrt (Z.to_nat (w + 4)) 0 (p * 2 ^ (3 * w)) mod 2 ^ w.
Definition root2 (w p : Z) : Z := Z.sqrt (p * 2 ^ (2 * w)) mod 2 ^ w.

Definition fips_K (w : Z) (n : nat) : list Z := map (root3 w) (take n (primes 409)).
Definition fips_H (w : Z) : regs :=
  mkRegs (root2 w 2) (root2 w 3) (root2 w 5) (root2 w 7) (root2 w 11) (root2 w 13) (root2 w 17) (root2 w 19).

(** ** SHA-1 *)

Definition rotl (n x : Z) : Z := rotr 32 (32 - n) x.

Definition sha1_next (W : list Z) : Z :=
  let t := length W in
  rotl 1 (Z.lxor (Z.lxor (Z.lxor (W !!! (t - 3)%nat) (W !!! (t - 8)%nat)) (W !!! (t - 14)%nat))
    (W !!! (t - 16)%nat)).

Fixpoint sha1_schedule (n : nat) (W : list Z) : list Z :=
  match n with
  | O => W
  | S n => sha1_schedule n (W ++ [sha1_next W])
  end.

Record regs5 := mkRegs5 { qa : Z; qb : Z; qc : Z; qd : Z; qe : Z }.

Definition sha1_f (t : nat) (x y z : Z) : Z :=
  if (t <? 20)%nat then Ch x y z
  else if (t <? 40)%nat then Parity x y z
  else if (t <? 60)%nat then Maj x y z
  else Parity x y z.

Definition sha1_k (t : nat) : Z :=
  if (t <? 20)%nat then 0x5a827999
  else if (t <? 40)%nat then 0x6ed9eba1
  else if (t <? 60)%nat then 0x8f1bbcdc
  else 0xca62c1d6.

(** Round [t] with the word [w]. *)
Definition sha1_round (t : nat) (w : Z) (r : regs5) : regs5 :=
  let '(mkRegs5 a b c d e) := r in
  mkRegs5 ((rotl 5 a + sha1_f t b c d + e + sha1_k t + w) mod 2 ^ 32) a (rotl 30 b) c d.

(** Rounds [t], [t + 1], ... with the words of [W]. *)
Fixpoint sha1_rounds (t : nat) (W : list Z) (r : regs5) : regs5 :=
  match W with
  | [] => r
  | w :: W => sha1_rounds (S t) W (sha1_round t w r)
  end.

Definition regs5_list (r : regs5) : list Z := [qa r; qb r; qc r; qd r; qe r].

Definition regs5_add (r s : regs5) : regs5 :=
  let p x y := (x + y) mod 2 ^ 32 in
  mkRegs5 (p (qa r) (qa s)) (p (qb r) (qb s)) (p (qc r) (qc s)) (p (qd r) (qd s)) (p (qe r) (qe s)).

Definition sha1_compress (r : regs5) (block : list Z) : regs5 :=
  regs5_add r (sha1_rounds 0 (sha1_schedule 64 (be_words 4 16 block)) r).

Definition sha1_init : regs5 := mkRegs5 0x67452301 0xefcdab89 0x98badcfe 0x10325476 0xc3d2e1f0.

Definition sha1 (m : list Z) : list Z :=
  concat (map (be_bytes 4) (regs5_list (Md.md_hash 64 sha1_compress 8 sha1_init m))).

Definition regs5_ok (r : regs5) : Prop := Forall (word_ok 32) (regs5_list r).

Lemma rotl_ok n x : 0 <= n <= 32 -> word_ok 32 x -> word_ok 32 (rotl n x).
Proof. intros Hn Hx. apply rotr_ok; [lia|done]. Qed.

Lemma sha1_round_ok t w r : regs5_ok r -> regs5_ok (sha1_round t w r).
Proof.
  destruct r as [a b c d e]. unfold regs5_ok, regs5_list. simpl. intros H.
  repeat (apply Forall_cons_1 in H as [? H]).
  apply Forall_cons_2; [apply mod_ok; lia|]. apply Forall_cons_2; [done|].
  apply Forall_cons_2; [apply rotl_ok; [lia|done]|]. repeat (apply Forall_cons_2; [done|]). constructor.
Qed.

Lemma sha1_compress_ok r block : regs5_ok (sha1_compress r block).
Proof.
  unfold regs5_ok, sha1_compress, regs5_add, regs5_list. cbn [qa qb qc qd qe].
  repeat (apply Forall_cons_2; [apply mod_ok; lia|]). constructor.
Qed.

Lemma sha1_state_ok r m : regs5_ok r -> regs5_ok (Md.md_state 64 sha1_compress r m).
Proof.
  intros Hr. unfold Md.md_state. generalize (length m / 64)%nat as n. intros n. revert r m Hr.
  induction n as [|n IH]; intros r m Hr; [done|]. cbn [Md.md_fold]. apply IH, sha1_compress_ok.
Qed.

Lemma sha1_schedule_length n W : length (sha1_schedule n W) = (length W + n)%nat.
Proof.
  revert W. induction n as [|n IH]; intros W; simpl; [lia|]. rewrite IH, length_app. simpl. lia.
Qed.

Lemma sha1_schedule_prefix n W i : (i < length W)%nat -> sha1_schedule n W !! i = W !! i.
Proof.
  revert W. induction n as [|n IH]; intros W Hi; [done|]. simpl.
  rewrite IH by (rewrite length_app; lia). by rewrite lookup_app_l.
Qed.

(** Each later word from the four before it. *)
Lemma sha1_schedule_lookup n W i : (length W <= i < length W + n)%nat ->
  sha1_schedule n W !! i = Some (sha1_next (take i (sha1_schedule n W))).
Proof.
  revert W. induction n as [|n IH]; intros W Hi; [lia|]. simpl.
  destruct (decide (i = length W)) as [->|Hne].
  - rewrite sha1_schedule_prefix by (rewrite length_app; simpl; lia).
    rewrite lookup_app_r, Nat.sub_diag by lia. simpl. do 2 f_equal. symmetry.
    apply list_eq_same_length with (length W); [|rewrite length_take, sha1_schedule_length, length_app; lia|].
    + done.
    + intros j x y Hj. rewrite lookup_take_lt, sha1_schedule_prefix, lookup_app_l by (rewrite ?length_app; lia).
      congruence.
  - apply IH. rewrite length_app. simpl. lia.
Qed.

End Fips180.
