(* ===== verification/Sha256.v ===== *)
(** * SHA-256 ([src/utility/crypto/hash/sha256.cpp])

    The context with its block buffer, the transform of one block, and the
    functions that absorb and finish a message.  The theorem: any sequence of updates
    followed by the final call computes the SHA-256 of FIPS 180-4 of the bytes that
    were given, inside the blocks.

    The array [m] of the transform is the list of the words written so far, so a
    read of a word that has no value yet would be undefined. *)

From stdpp Require Import base option list numbers.
From Stdlib Require Import ZArith Lia Btauto.
From S2P Require Import Prelude Words Md Fips180.
Import Md Fips180.

Open Scope Z_scope.

Module Sha256.

(** ** The code *)

Definition ROTRIGHT (a b : Z) : Z := Z.lor (Z.shiftr a b) (u32 (Z.shiftl a (32 - b))).
Definition CH (x y z : Z) : Z := Z.lxor (Z.land x y) (Z.land (u32 (Z.lnot x)) z).
Definition MAJ (x y z : Z) : Z := Z.lxor (Z.lxor (Z.land x y) (Z.land x z)) (Z.land y z).
Definition EP0 (x : Z) : Z := Z.lxor (Z.lxor (ROTRIGHT x 2) (ROTRIGHT x 13)) (ROTRIGHT x 22).
Definition EP1 (x : Z) : Z := Z.lxor (Z.lxor (ROTRIGHT x 6) (ROTRIGHT x 11)) (ROTRIGHT x 25).
Definition SIG0 (x : Z) : Z := Z.lxor (Z.lxor (ROTRIGHT x 7) (ROTRIGHT x 18)) (Z.shiftr x 3).
Definition SIG1 (x : Z) : Z := Z.lxor (Z.lxor (ROTRIGHT x 17) (ROTRIGHT x 19)) (Z.shiftr x 10).

(** The table as in the source, a row per line. *)
Definition k : list Z := concat [
  [0x428a2f98; 0x71374491; 0xb5c0fbcf; 0xe9b5dba5; 0x3956c25b; 0x59f111f1; 0x923f82a4; 0xab1c5ed5];
  [0xd807aa98; 0x12835b01; 0x243185be; 0x550c7dc3; 0x72be5d74; 0x80deb1fe; 0x9bdc06a7; 0xc19bf174];
  [0xe49b69c1; 0xefbe4786; 0x0fc19dc6; 0x240ca1cc; 0x2de92c6f; 0x4a7484aa; 0x5cb0a9dc; 0x76f988da];
  [0x983e5152; 0xa831c66d; 0xb00327c8; 0xbf597fc7; 0xc6e00bf3; 0xd5a79147; 0x06ca6351; 0x14292967];
  [0x27b70a85; 0x2e1b2138; 0x4d2c6dfc; 0x53380d13; 0x650a7354; 0x766a0abb; 0x81c2c92e; 0x92722c85];
  [0xa2bfe8a1; 0xa81a664b; 0xc24b8b70; 0xc76c51a3; 0xd192e819; 0xd6990624; 0xf40e3585; 0x106aa070];
  [0x19a4c116; 0x1e376c08; 0x2748774c; 0x34b0bcb5; 0x391c0cb3; 0x4ed8aa4a; 0x5b9cca4f; 0x682e6ff3];
  [0x748f82ee; 0x78a5636f; 0x84c87814; 0x8cc70208; 0x90befffa; 0xa4506ceb; 0xbef9a3f7; 0xc67178f2]].

Record sha256_context := mk256 { data : list Z; datalen : Z; bitlen : Z; state : list Z }.

Definition set_data (d : list Z) (c : sha256_context) := mk256 d (datalen c) (bitlen c) (state c).
Definition set_datalen (n : Z) (c : sha256_context) := mk256 (data c) n (bitlen c) (state c).
Definition set_bitlen (n : Z) (c : sha256_context) := mk256 (data c) (datalen c) n (state c).
Definition set_state (s : list Z) (c : sha256_context) := mk256 (data c) (datalen c) (bitlen c) s.

(** [m[i]] from the block, and from the words before it. *)
Definition load_word (d : list Z) (i : Z) (m : list Z) : option (list Z) :=
  let j := 4 * i in
  d0 <- mget d j;; d1 <- mget d (j + 1);; d2 <- mget d (j + 2);; d3 <- mget d (j + 3);;
  Some (m ++ [u32 (Z.lor (Z.lor (Z.lor (Z.shiftl d0 24) (Z.shiftl d1 16)) (Z.shiftl d2 8)) d3)]).

Definition expand_word256 (i : Z) (m : list Z) : option (list Z) :=
  m2 <- mget m (i - 2);; m7 <- mget m (i - 7);; m15 <- mget m (i - 15);; m16 <- mget m (i - 16);;
  Some (m ++ [u32 (SIG1 m2 + m7 + SIG0 m15 + m16)]).

(** One of the 64 rounds on the working variables. *)
Definition round256 (m : list Z) (i : Z) (r : regs) : option regs :=
  let '(mkRegs a b c d e f g h) := r in
  ki <- mget k i;; mi <- mget m i;;
  let t1 := u32 (h + EP1 e + CH e f g + ki + mi) in
  let t2 := u32 (EP0 a + MAJ a b c) in
  let h := g in
  let g := f in
  let f := e in
  let e := u32 (d + t1) in
  let d := c in
  let c := b in
  let b := a in
  let a := u32 (t1 + t2) in
  Some (mkRegs a b c d e f g h).

Definition sha256_transform (ctx : sha256_context) (d : list Z) : option sha256_context :=
  m <- for_loop 16 0 (load_word d) [];;
  m <- for_loop 48 16 expand_word256 m;;
  match state ctx with
  | [s0; s1; s2; s3; s4; s5; s6; s7] =>
      r <- for_loop 64 0 (round256 m) (mkRegs s0 s1 s2 s3 s4 s5 s6 s7);;
      Some (set_state [u32 (s0 + ra r); u32 (s1 + rb r); u32 (s2 + rc r); u32 (s3 + rd r);
                       u32 (s4 + re r); u32 (s5 + rf r); u32 (s6 + rg r); u32 (s7 + rh r)] ctx)
  | _ => None
  end.

Definition init_state : list Z :=
  [0x6a09e667; 0xbb67ae85; 0x3c6ef372; 0xa54ff53a; 0x510e527f; 0x9b05688c; 0x1f83d9ab; 0x5be0cd19].

Definition sha256_init (ctx : sha256_context) : sha256_context :=
  mk256 (data ctx) 0 0 init_state.

Definition sha256_update (ctx : sha256_context) (msg : list Z) (len : Z) : option sha256_context :=
  for_loop (Z.to_nat len) 0 (fun i ctx =>
    x <- mget msg i;;
    d <- mset (data ctx) (datalen ctx) x;;
    let ctx := set_datalen (u32 (datalen ctx + 1)) (set_data d ctx) in
    if datalen ctx =? 64 then
      ctx <- sha256_transform ctx (data ctx);;
      Some (set_datalen 0 (set_bitlen (u64 (bitlen ctx + 512)) ctx))
    else Some ctx) ctx.

(** [while (i < stop) ctx->data[i++] = 0x00] *)
Definition zero_from (i stop : Z) (d : list Z) : option (list Z) :=
  for_loop (Z.to_nat (stop - i)) i (fun i d => mset d i 0) d.

(** The length in bits as the last eight bytes of the block. *)
Definition store_bitlen (b : Z) (d : list Z) : option (list Z) :=
  d <- mset d 63 (u8 b);;
  d <- mset d 62 (u8 (Z.shiftr b 8));;
  d <- mset d 61 (u8 (Z.shiftr b 16));;
  d <- mset d 60 (u8 (Z.shiftr b 24));;
  d <- mset d 59 (u8 (Z.shiftr b 32));;
  d <- mset d 58 (u8 (Z.shiftr b 40));;
  d <- mset d 57 (u8 (Z.shiftr b 48));;
  mset d 56 (u8 (Z.shiftr b 56)).

(** The state copied to the output, most significant bytes first. *)
Definition write_hash (st hash : list Z) : option (list Z) :=
  for_loop 4 0 (fun i hash =>
    for_loop 8 0 (fun j hash =>
      s <- mget st j;;
      mset hash (i + 4 * j) (Z.land (Z.shiftr s (24 - i * 8)) 0x000000ff)) hash) hash.

(** The padding: up to byte 56, or to the end of the block and 56 bytes more. *)
Definition pad_block (ctx : sha256_context) : option sha256_context :=
  let i := datalen ctx in
  if datalen ctx <? 56 then
    d <- mset (data ctx) i 0x80;;
    d <- zero_from (i + 1) 56 d;;
    Some (set_data d ctx)
  else
    d <- mset (data ctx) i 0x80;;
    d <- zero_from (i + 1) 64 d;;
    ctx <- sha256_transform (set_data d ctx) d;;
    d <- mfill (data ctx) 0 0 56;;
    Some (set_data d ctx).

Definition sha256_final (ctx : sha256_context) (hash : list Z)
  : option (sha256_context * list Z) :=
  ctx <- pad_block ctx;;
  let ctx := set_bitlen (u64 (bitlen ctx + u32 (datalen ctx * 8))) ctx in
  d <- store_bitlen (bitlen ctx) (data ctx);;
  ctx <- sha256_transform (set_data d ctx) d;;
  hash <- write_hash (state ctx) hash;;
  Some (ctx, hash).

(** [sha256(message, message_len, out)]; [stk] is the local context before
    [sha256_init]. *)
Definition sha256 (stk : sha256_context) (message : list Z) (message_len : Z) (out : list Z)
  : option (list Z) :=
  ctx <- sha256_update (sha256_init stk) message message_len;;
  '(_, out) <- sha256_final ctx out;;
  Some out.


(** ** The transform *)

(** The functions of the standard for 32-bit words. *)
Abbreviation compress256 := (sha2_compress 32 2 13 22 6 11 25 7 18 3 17 19 10 k).
Abbreviation round256_ref := (sha2_round 32 2 13 22 6 11 25).
Abbreviation schedule256 := (schedule 32 7 18 3 17 19 10).

Lemma ROTRIGHT_spec a b : word_ok 32 a -> 0 <= b <= 32 -> ROTRIGHT a b = rotr 32 b a.
Proof. intros. unfold ROTRIGHT. rewrite u32_mod. by apply rotr_shifts. Qed.

Lemma SIG_spec x : word_ok 32 x ->
  SIG0 x = sigma0 32 7 18 3 x /\ SIG1 x = sigma1 32 17 19 10 x /\
  EP0 x = Sigma0 32 2 13 22 x /\ EP1 x = Sigma1 32 6 11 25 x.
Proof.
  intros Hx. unfold SIG0, SIG1, EP0, EP1, sigma0, sigma1, Sigma0, Sigma1.
  rewrite !ROTRIGHT_spec by (done || lia). by rewrite !Z.shiftr_div_pow2 by lia.
Qed.

Lemma CH_spec x y z : word_ok 32 z -> CH x y z = Ch x y z.
Proof. intros Hz. unfold CH, Ch. rewrite u32_mod. by rewrite lnot_land. Qed.

Lemma expand_loop n W : (16 <= length W)%nat -> Forall (word_ok 32) W ->
  for_loop n (zlen W) expand_word256 W = Some (schedule256 n W).
Proof.
  revert W. induction n as [|n IH]; intros W Hl HW; [done|]. cbn [for_loop schedule].
  unfold expand_word256 at 1.
  rewrite (mget_nth W (zlen W - 2) (length W - 2)), (mget_nth W (zlen W - 7) (length W - 7)),
    (mget_nth W (zlen W - 15) (length W - 15)), (mget_nth W (zlen W - 16) (length W - 16))
    by (unfold zlen; lia).
  destruct (SIG_spec (W !!! (length W - 2)%nat)) as (_ & -> & _ & _); [apply total_ok; auto; lia|].
  destruct (SIG_spec (W !!! (length W - 15)%nat)) as (-> & _ & _ & _); [apply total_ok; auto; lia|].
  rewrite <- IH; [|rewrite length_app; lia|].
  - f_equal. unfold zlen. rewrite length_app. simpl. lia.
  - apply Forall_app_2; [done|]. apply Forall_singleton. apply mod_ok. lia.
Qed.

Lemma load_loop d : bytes_ok d -> length d = 64%nat ->
  for_loop 16 0 (load_word d) [] = Some (be_words 4 16 d).
Proof.
  intros Hd Hl.
  destruct (for_loop_inv (fun i m => m = take (Z.to_nat i) (be_words 4 16 d)) 16 0 (load_word d) [])
    as (m & -> & ->); [|done|].
  - intros i m Hi ->. eexists. split; [|reflexivity]. unfold load_word.
    set (b := take 4 (drop (4 * Z.to_nat i) d)).
    assert (exists d0 d1 d2 d3, b = [d0; d1; d2; d3]) as (d0 & d1 & d2 & d3 & Eb).
    { assert (length b = 4%nat) as Hb by (unfold b; rewrite length_take, length_drop; lia).
      do 4 (destruct b as [|? b]; [simpl in Hb; lia|]). destruct b; [eauto|simpl in Hb; lia]. }
    assert (bytes_ok b) as Hb by (by apply Forall_take, Forall_drop). rewrite Eb in Hb.
    repeat (apply Forall_cons_1 in Hb as [? Hb]).
    assert (forall j, 0 <= j < 4 -> mget d (4 * i + j) = mget [d0; d1; d2; d3] j) as Hj.
    { intros j Hj. rewrite <- Eb. unfold b, mget. destruct (Z.leb_spec 0 (4 * i + j)); [|lia].
      destruct (Z.leb_spec 0 j); [|lia]. rewrite lookup_take_lt, lookup_drop by lia. f_equal. lia. }
    rewrite <- (Z.add_0_r (4 * i)) at 1. rewrite !Hj by lia.
    change (mget [d0; d1; d2; d3] 0) with (Some d0). change (mget [d0; d1; d2; d3] 1) with (Some d1).
    change (mget [d0; d1; d2; d3] 2) with (Some d2). change (mget [d0; d1; d2; d3] 3) with (Some d3). cbv beta iota.
    rewrite lor_be4 by done. rewrite u32_small.
    + replace (Z.to_nat (i + 1)) with (S (Z.to_nat i)) by lia.
      rewrite (take_S_r _ _ (be_val [d0; d1; d2; d3])); [done|].
      rewrite be_words_lookup by lia. fold b. by rewrite Eb.
    + apply (be_val_range [d0; d1; d2; d3]). repeat (constructor; [done|]). constructor.
  - rewrite take_ge; [done|]. rewrite be_words_length. lia.
Qed.

Lemma round256_spec m i r ki mi : regs_ok 32 r -> mget k i = Some ki -> mget m i = Some mi ->
  round256 m i r = Some (round256_ref r (ki, mi)).
Proof.
  destruct r as [a b c d e f g h]. intros Hr Ek Em. unfold regs_ok, regs_list in Hr. simpl in Hr.
  repeat (apply Forall_cons_1 in Hr as [? Hr]). unfold round256. rewrite Ek, Em.
  destruct (SIG_spec a) as (_ & _ & -> & _); [done|]. destruct (SIG_spec e) as (_ & _ & _ & ->); [done|].
  by rewrite CH_spec.
Qed.

Lemma rounds_loop W n i r : length W = 64%nat -> (i + n = 64)%nat -> regs_ok 32 r ->
  for_loop n (Z.of_nat i) (round256 W) r = Some (foldl round256_ref r (drop i (zip k W))).
Proof.
  intros HW. revert i r. induction n as [|n IH]; intros i r Hi Hr; cbn [for_loop].
  - rewrite drop_ge; [done|]. rewrite length_zip_with. change (length k) with 64%nat. lia.
  - assert (k !! i = Some (k !!! i)) as Ek by (apply list_lookup_lookup_total_lt; simpl; lia).
    assert (W !! i = Some (W !!! i)) as Em by (apply list_lookup_lookup_total_lt; lia).
    rewrite (round256_spec W _ r (k !!! i) (W !!! i)); [|done|apply mget_nth; [done|simpl; lia]|
      apply mget_nth; [done|lia]].
    rewrite (drop_S (zip k W) (k !!! i, W !!! i) i) by (by apply lookup_zip_with_Some; eauto 10).
    cbn [foldl]. replace (Z.of_nat i + 1) with (Z.of_nat (S i)) by lia.
    apply IH; [lia|by apply sha2_round_ok].
Qed.

Lemma sha256_transform_spec ctx d r :
  state ctx = regs_list r -> regs_ok 32 r -> bytes_ok d -> length d = 64%nat ->
  sha256_transform ctx d = Some (set_state (regs_list (compress256 r d)) ctx).
Proof.
  intros Es Hr Hd Hl. unfold sha256_transform. rewrite load_loop by done.
  assert (length (be_words 4 16 d) = 16%nat) as Hw by apply be_words_length.
  pose proof (expand_loop 48 (be_words 4 16 d)) as E. unfold zlen in E. rewrite Hw in E.
  change (Z.of_nat 16) with 16 in E. rewrite E; [|lia|apply (be_words_ok 4); [done|lia]].
  rewrite Es. destruct r as [a b c e f g h i]. cbn [regs_list ra rb rc rd re rf rg rh].
  pose proof (rounds_loop (schedule256 48 (be_words 4 16 d)) 64 0 (mkRegs a b c e f g h i)) as E'.
  change (Z.of_nat 0) with 0 in E'. rewrite E'; [|rewrite schedule_length; lia|lia|done]. done.
Qed.

(** ** Contexts *)

Definition init_regs : regs :=
  mkRegs 0x6a09e667 0xbb67ae85 0x3c6ef372 0xa54ff53a 0x510e527f 0x9b05688c 0x1f83d9ab 0x5be0cd19.

Abbreviation state256 := (md_state 64 compress256 init_regs).
Abbreviation rest256 := (md_rest 64).

(** The context after the bytes [m]. *)
Record absorbed (ctx : sha256_context) (m : list Z) : Prop := {
  ab_state : state ctx = regs_list (state256 m);
  ab_length : length (data ctx) = 64%nat;
  ab_bytes : bytes_ok (data ctx);
  ab_datalen : datalen ctx = zlen (rest256 m);
  ab_rest : exists post, data ctx = rest256 m ++ post;
  ab_bitlen : bitlen ctx = u64 (512 * (zlen m / 64)) }.

Lemma init_regs_ok : regs_ok 32 init_regs.
Proof. repeat (constructor; [by vm_compute|]). constructor. Qed.

Lemma state256_ok m : regs_ok 32 (state256 m).
Proof. apply md_state_ok; [lia|apply init_regs_ok]. Qed.

Lemma sha256_init_absorbed stk : length (data stk) = 64%nat -> bytes_ok (data stk) ->
  absorbed (sha256_init stk) [].
Proof. intros Hl Hb. constructor; try done. by exists (data stk). Qed.

Lemma rest_parts m : zlen (rest256 m) = zlen m mod 64 /\ zlen m = 64 * (zlen m / 64) + zlen (rest256 m).
Proof.
  assert (zlen (rest256 m) = zlen m mod 64) as ->.
  { unfold zlen. rewrite md_rest_length by lia. by rewrite Nat2Z.inj_mod. }
  split; [done|]. apply Z.div_mod. lia.
Qed.

(** One round of the loop of [sha256_update]. *)
Lemma update_step ctx m x : absorbed ctx m -> byte_ok x ->
  exists ctx', (d <- mset (data ctx) (datalen ctx) x;;
    let ctx := set_datalen (u32 (datalen ctx + 1)) (set_data d ctx) in
    if datalen ctx =? 64 then
      ctx <- sha256_transform ctx (data ctx);;
      Some (set_datalen 0 (set_bitlen (u64 (bitlen ctx + 512)) ctx))
    else Some ctx) = Some ctx' /\ absorbed ctx' (m ++ [x]).
Proof.
  intros [Es Hl Hb En [post Er] Ebl] Hx. pose proof (md_rest_lt 64 ltac:(lia) m) as Hr.
  destruct post as [|y post].
  { rewrite Er, app_nil_r in Hl. lia. }
  rewrite Er, En, mset_app_mid. rewrite Er, length_app in Hl. cbn [length] in Hl.
  rewrite Er in Hb. apply Forall_app in Hb as [Hb1 Hb2]. apply Forall_cons_1 in Hb2 as [_ Hb2].
  assert (bytes_ok (rest256 m ++ x :: post)) as Hd by (apply Forall_app_2; [done|by constructor]).
  cbn [set_data set_datalen datalen data]. rewrite u32_small by (unfold zlen; lia).
  destruct (rest_parts m) as [Hm1 Hm2].
  assert (zlen (m ++ [x]) = zlen m + 1) as Hz by (rewrite zlen_app; done).
  destruct (Z.eqb_spec (zlen (rest256 m) + 1) 64) as [E|E].
  - destruct post; [|unfold zlen in E; cbn [length] in Hl; lia].
    rewrite (sha256_transform_spec _ _ (state256 m)); [|done|apply state256_ok|done|
      rewrite length_app; cbn [length] in *; lia].
    destruct (md_absorb_full 64 compress256 ltac:(lia) init_regs m [x]) as [E1 E2];
      [unfold zlen in E; cbn [length]; lia|].
    eexists. split; [reflexivity|]. constructor; cbn [state data datalen bitlen set_state set_datalen set_bitlen set_data].
    + by rewrite E1.
    + rewrite length_app. cbn [length] in *. lia.
    + done.
    + by rewrite E2.
    + rewrite E2. by eexists.
    + rewrite Ebl, Hz. unfold u64. rewrite Zplus_mod_idemp_l. f_equal. div_lia.
  - destruct (md_absorb_short 64 compress256 ltac:(lia) init_regs m [x]) as [E1 E2];
      [unfold zlen in E; cbn [length]; lia|].
    eexists. split; [reflexivity|]. constructor; cbn [state data datalen bitlen set_state set_datalen set_bitlen set_data].
    + by rewrite E1.
    + rewrite length_app. cbn [length] in *. lia.
    + done.
    + by rewrite E2, zlen_app.
    + rewrite E2. exists post. by rewrite <- app_assoc.
    + rewrite Ebl, Hz. do 2 f_equal. div_lia.
Qed.

Lemma sha256_update_absorbed ctx m l post : absorbed ctx m -> bytes_ok l ->
  exists ctx', sha256_update ctx (l ++ post) (zlen l) = Some ctx' /\ absorbed ctx' (m ++ l).
Proof.
  intros Hm Hl. unfold sha256_update. replace (Z.to_nat (zlen l)) with (length l) by (unfold zlen; lia).
  destruct (for_loop_inv (fun i ctx => absorbed ctx (m ++ take (Z.to_nat i) l)) (length l) 0
    (fun i ctx => x <- mget (l ++ post) i;;
      d <- mset (data ctx) (datalen ctx) x;;
      let ctx := set_datalen (u32 (datalen ctx + 1)) (set_data d ctx) in
      if datalen ctx =? 64 then
        ctx <- sha256_transform ctx (data ctx);;
        Some (set_datalen 0 (set_bitlen (u64 (bitlen ctx + 512)) ctx))
      else Some ctx) ctx) as (y & E & Hy).
  - intros i c Hi Hc.
    assert (l !! Z.to_nat i = Some (l !!! Z.to_nat i)) as El by (apply list_lookup_lookup_total_lt; lia).
    rewrite mget_app_l, mget_Some by (unfold zlen; lia).
    destruct (update_step c _ (l !!! Z.to_nat i) Hc) as (c' & E & Hc').
    + by apply (Forall_lookup_1 _ _ _ _ Hl El).
    + exists c'. split; [exact E|]. replace (Z.to_nat (i + 1)) with (S (Z.to_nat i)) by lia.
      by rewrite (take_S_r _ _ _ El), app_assoc.
  - by rewrite app_nil_r.
  - exists y. split; [exact E|]. by rewrite Z.add_0_l, Nat2Z.id, take_ge in Hy by lia.
Qed.

(** ** The end of a message *)

Lemma zero_from_spec pre old post stop : stop = zlen pre + zlen old ->
  zero_from (zlen pre) stop (pre ++ old ++ post) = Some (pre ++ replicate (length old) 0 ++ post).
Proof.
  intros ->. unfold zero_from.
  replace (Z.to_nat (zlen pre + zlen old - zlen pre)) with (length old) by (unfold zlen; lia).
  by apply zero_loop.
Qed.

Lemma store_bitlen_spec pre q b : zlen pre = 56 -> length q = 8%nat ->
  store_bitlen b (pre ++ q) = Some (pre ++ be_bytes 8 b).
Proof.
  intros Hp Hq. do 8 (destruct q as [|? q]; [simpl in Hq; lia|]). destruct q; [|simpl in Hq; lia].
  assert (forall l1 x l2 i v, i = 56 + zlen l1 ->
    mset (pre ++ l1 ++ x :: l2) i v = Some (pre ++ l1 ++ v :: l2)) as H.
  { intros l1 x l2 i v ->. apply mset_mid. lia. }
  unfold store_bitlen.
  rewrite (H [z; z0; z1; z2; z3; z4; z5] z6 []) by done.
  rewrite (H [z; z0; z1; z2; z3; z4] z5 [u8 b]) by done.
  rewrite (H [z; z0; z1; z2; z3] z4 [u8 (Z.shiftr b 8); u8 b]) by done.
  rewrite (H [z; z0; z1; z2] z3 [u8 (Z.shiftr b 16); u8 (Z.shiftr b 8); u8 b]) by done.
  rewrite (H [z; z0; z1] z2 [u8 (Z.shiftr b 24); u8 (Z.shiftr b 16); u8 (Z.shiftr b 8); u8 b]) by done.
  rewrite (H [z; z0] z1 [u8 (Z.shiftr b 32); u8 (Z.shiftr b 24); u8 (Z.shiftr b 16); u8 (Z.shiftr b 8); u8 b]) by done.
  rewrite (H [z] z0 [u8 (Z.shiftr b 40); u8 (Z.shiftr b 32); u8 (Z.shiftr b 24); u8 (Z.shiftr b 16); u8 (Z.shiftr b 8); u8 b]) by done.
  rewrite (H [] z [u8 (Z.shiftr b 48); u8 (Z.shiftr b 40); u8 (Z.shiftr b 32); u8 (Z.shiftr b 24); u8 (Z.shiftr b 16); u8 (Z.shiftr b 8); u8 b]) by done.
  cbn [app].
  by rewrite be_bytes_8, !Z.shiftr_div_pow2 by lia.
Qed.

Lemma write_hash_spec r hash : length hash = 32%nat ->
  write_hash (regs_list r) hash = Some (concat (map (be_bytes 4) (regs_list r))).
Proof.
  intros Hh. do 32 (destruct hash as [|? hash]; [simpl in Hh; lia|]).
  destruct hash; [|simpl in Hh; lia]. destruct r as [a b c d e f g h].
  cbn [regs_list ra rb rc rd re rf rg rh map concat app]. rewrite !be_bytes_4. cbn [app].
  assert (forall x i, 0 <= i -> (x / 2 ^ i) mod 256 = Z.land (Z.shiftr x i) 0x000000ff) as Hb
    by (intros; by rewrite byte_of).
  rewrite !Hb by lia.
  assert (forall x, x mod 256 = Z.land (Z.shiftr x 0) 0x000000ff) as Hb0
    by (intros x; rewrite byte_of by lia; by rewrite Z.div_1_r).
  rewrite !Hb0. by cbv -[Z.land Z.shiftr].
Qed.

(** The last block, with the length. *)
Definition last_block (m : list Z) (pre : list Z) : list Z := pre ++ be_bytes 8 (8 * zlen m).

Lemma pad_block_spec ctx m : absorbed ctx m ->
  exists r pre q st, pad_block ctx = Some st /\ state st = regs_list r /\ regs_ok 32 r /\
    data st = pre ++ q /\ zlen pre = 56 /\ length q = 8%nat /\ bytes_ok pre /\
    datalen st = datalen ctx /\ bitlen st = bitlen ctx /\
    md_hash 64 compress256 8 init_regs m = compress256 r (last_block m pre).
Proof.
  intros [Es Hl Hb En [post Er] Ebl]. pose proof (md_rest_lt 64 ltac:(lia) m) as Hr.
  rewrite md_hash_final by lia. unfold pad_block, last_block. rewrite En.
  pose proof (md_rest_bytes 64 m) as Hrb. set (s := rest256 m) in *.
  rewrite Er in Hb. apply Forall_app in Hb as [Hb1 Hb2].
  destruct post as [|y post]; [rewrite Er, app_nil_r in Hl; lia|].
  apply Forall_cons_1 in Hb2 as [_ Hb2]. rewrite Er, length_app in Hl. cbn [length] in Hl.
  rewrite Er, !mset_app_mid. change (s ++ 0x80 :: post) with (s ++ [0x80] ++ post). rewrite !app_assoc.
  assert (zlen s + 1 = zlen (s ++ [0x80])) as Ez by (by rewrite zlen_app). rewrite !Ez.
  assert (bytes_ok (s ++ [0x80])) as H80 by (apply Forall_app_2; [done|by repeat constructor]).
  assert (forall n, bytes_ok (replicate n 0)) as H0 by (intros; by apply Forall_replicate).
  destruct (Z.ltb_spec (zlen s) 56) as [H56|H56]; unfold zlen in H56.
  - destruct (Nat.leb_spec (length s + 1 + 8) 64) as [_|]; [|lia].
    rewrite <- (take_drop (55 - length s) post).
    rewrite zero_from_spec by (unfold zlen; rewrite length_app, length_take; cbn [length]; lia).
    rewrite length_take, Nat.min_l by lia.
    eexists (state256 m), ((s ++ [0x80]) ++ replicate (55 - length s) 0), (drop (55 - length s) post), _.
    split; [reflexivity|]. split_and!; try done.
    + apply state256_ok.
    + cbn [set_data data]. by rewrite !app_assoc.
    + rewrite !zlen_app. unfold zlen. rewrite length_replicate. cbn [length]. lia.
    + rewrite length_drop. lia.
    + by apply Forall_app_2.
    + rewrite <- !app_assoc. cbn [app].
      by replace (64 - (length s + 1 + 8))%nat with (55 - length s)%nat by lia.
  - destruct (Nat.leb_spec (length s + 1 + 8) 64) as [|_]; [lia|].
    rewrite <- (app_nil_r post).
    rewrite zero_from_spec by (unfold zlen; rewrite length_app; cbn [length]; lia).
    rewrite app_nil_r.
    assert (length ((s ++ [0x80]) ++ replicate (length post) 0) = 64%nat) as H64
      by (rewrite !length_app, length_replicate; cbn [length]; lia).
    rewrite (sha256_transform_spec _ _ (state256 m));
      [|done|apply state256_ok|by apply Forall_app_2|done].
    cbn [set_state set_data data]. rewrite mfill_0 by (unfold zlen; lia).
    eexists (compress256 (state256 m) ((s ++ [0x80]) ++ replicate (length post) 0)),
      (replicate 56 0), (drop 56 ((s ++ [0x80]) ++ replicate (length post) 0)), _.
    split; [reflexivity|]. split; [reflexivity|]. split; [apply sha2_compress_ok; lia|].
    do 2 (split; [reflexivity|]). split; [rewrite length_drop; lia|]. split; [apply H0|].
    split; [exact En|]. split; [reflexivity|]. rewrite <- app_assoc. cbn [app].
    by replace (64 - (length s + 1))%nat with (length post) by lia.
Qed.

(** The digest of the standard, with its constants. *)
Definition fips_sha256 (m : list Z) : list Z :=
  sha2 32 2 13 22 6 11 25 7 18 3 17 19 10 (fips_K 32 64) 64 8 (fips_H 32) m.

Lemma constants256 : k = fips_K 32 64 /\ init_regs = fips_H 32.
Proof. split; by vm_compute. Qed.

Lemma sha256_final_spec ctx m hash : absorbed ctx m -> length hash = 32%nat ->
  exists ctx', sha256_final ctx hash = Some (ctx', fips_sha256 m).
Proof.
  intros Hm Hh. destruct (pad_block_spec ctx m Hm) as (r & pre & q & st & E & Es & Hr & Ed & Hp & Hq & Hb & En & El & Eh).
  unfold sha256_final. rewrite E. cbn [set_bitlen bitlen data].
  rewrite Ed, store_bitlen_spec by done.
  assert (be_bytes 8 (u64 (bitlen st + u32 (datalen st * 8))) = be_bytes 8 (8 * zlen m)) as ->.
  { destruct Hm as [_ _ _ Hn _ Hbl]. rewrite En, El, Hn, Hbl. destruct (rest_parts m) as [H1 H2].
    rewrite u32_small by (pose proof (Z.mod_pos_bound (zlen m) 64); lia).
    unfold u64. rewrite Zplus_mod_idemp_l. change 18446744073709551616 with (256 ^ Z.of_nat 8).
    rewrite be_bytes_mod. f_equal. lia. }
  fold (last_block m pre).
  rewrite (sha256_transform_spec _ _ r); [|done|done|by apply Forall_app_2; [|apply be_bytes_ok]|].
  - cbn [set_state state]. rewrite write_hash_spec by done. eexists.
    unfold fips_sha256. rewrite <- (proj1 constants256), <- (proj2 constants256). unfold sha2. by rewrite Eh.
  - unfold last_block. rewrite length_app, be_bytes_length. unfold zlen in Hp. lia.
Qed.

(** The updates of a list of pieces, one call each. *)
Fixpoint updates (ctx : sha256_context) (ls : list (list Z)) : option sha256_context :=
  match ls with
  | [] => Some ctx
  | l :: ls => ctx <- sha256_update ctx l (zlen l);; updates ctx ls
  end.

Lemma updates_absorbed ls : forall ctx m, absorbed ctx m -> Forall bytes_ok ls ->
  exists ctx', updates ctx ls = Some ctx' /\ absorbed ctx' (m ++ concat ls).
Proof.
  induction ls as [|l ls IH]; intros ctx m Hm Hl; cbn [updates concat].
  - exists ctx. by rewrite app_nil_r.
  - apply Forall_cons_1 in Hl as [Hl Hls].
    destruct (sha256_update_absorbed ctx m l [] Hm Hl) as (c & E & Hc). rewrite app_nil_r in E.
    rewrite E. destruct (IH c (m ++ l) Hc Hls) as (c' & E' & Hc'). exists c'.
    by rewrite app_assoc.
Qed.

Lemma fips_sha256_shape m : length (fips_sha256 m) = 32%nat /\ bytes_ok (fips_sha256 m).
Proof.
  unfold fips_sha256, Fips180.sha2, Fips180.regs_list. cbn [map concat]. change (Z.to_nat (32 / 8)) with 4%nat.
  split; [rewrite !length_app, !be_bytes_length; done|]. repeat (apply Forall_app; split; [apply be_bytes_ok|]). constructor.
Qed.

Lemma sha256_one_call stk m post out : length (data stk) = 64%nat -> bytes_ok (data stk) -> bytes_ok m -> length out = 32%nat ->
  sha256 stk (m ++ post) (zlen m) out = Some (fips_sha256 m).
Proof.
  intros Hd Hb Hm Ho. unfold sha256. destruct (sha256_update_absorbed _ [] m post (sha256_init_absorbed stk Hd Hb) Hm) as (c & E & Hc).
  rewrite E. destruct (sha256_final_spec c _ out Hc Ho) as (c' & E'). by rewrite E'.
Qed.

(** ** Properties *)

(** C7: whatever the context held before, initialising it, absorbing a message in any
    number of pieces and finishing computes the SHA-256 of FIPS 180-4 of the whole
    message, and [sha256] does the same in one call. *)
Theorem sha256_is_fips180 stk ls out :
  length (data stk) = 64%nat -> bytes_ok (data stk) -> Forall bytes_ok ls -> length out = 32%nat ->
  (exists ctx ctx', updates (sha256_init stk) ls = Some ctx /\
     sha256_final ctx out = Some (ctx', fips_sha256 (concat ls))) /\
  sha256 stk (concat ls) (zlen (concat ls)) out = Some (fips_sha256 (concat ls)).
Proof.
  intros Hd Hb Hl Ho. pose proof (sha256_init_absorbed stk Hd Hb) as Hi. split.
  - destruct (updates_absorbed ls _ [] Hi Hl) as (c & E & Hc).
    destruct (sha256_final_spec c _ out Hc Ho) as (c' & E'). by exists c, c'.
  - rewrite <- (app_nil_r (concat ls)) at 1. apply sha256_one_call; [done|done|by apply Forall_concat|done].
Qed.

(** ** Concrete instances *)

Lemma sha256_is_fips180_witness :
  (exists ctx ctx', updates (sha256_init (mk256 (replicate 64 7) 3 5 [])) [[97; 98]; [99]] = Some ctx /\
     sha256_final ctx (replicate 32 0) = Some (ctx', fips_sha256 [97; 98; 99])) /\
  sha256 (mk256 (replicate 64 7) 3 5 []) [97; 98; 99] 3 (replicate 32 0) = Some (fips_sha256 [97; 98; 99]).
Proof.
  apply (sha256_is_fips180 (mk256 (replicate 64 7) 3 5 []) [[97; 98]; [99]] (replicate 32 0));
    [reflexivity| |repeat constructor; lia|reflexivity].
  apply Forall_replicate. split; lia.
Defined.

(** The digest of the three letters abc that the standard gives. *)
Lemma fips_sha256_abc : fips_sha256 [97; 98; 99] =
  [0xba; 0x78; 0x16; 0xbf; 0x8f; 0x01; 0xcf; 0xea; 0x41; 0x41; 0x40; 0xde; 0x5d; 0xae; 0x22; 0x23;
   0xb0; 0x03; 0x61; 0xa3; 0x96; 0x17; 0x7a; 0x9c; 0xb4; 0x10; 0xff; 0x61; 0xf2; 0x00; 0x15; 0xad].
Proof. by vm_compute. Qed.

End Sha256.
