(* ===== verification/Sha512.v ===== *)
(** * SHA-512 ([src/utility/crypto/hash/sha512.cpp])

    The context, the compression of one block with its unrolled rounds, and the
    functions that absorb and finish a message, with their error codes.  The theorem:
    any sequence of updates followed by the final call computes the SHA-512 of
    FIPS 180-4 for messages of less than 2^61 bytes.

    A null pointer is [None]; the array [W] is the list of the words written so far. *)

From stdpp Require Import base option list numbers.
From Stdlib Require Import ZArith Lia Btauto.
From S2P Require Import Prelude Words Md Fips180.
Import Md.

Open Scope Z_scope.

Module Sha512.

(** ** The code *)

Definition K : list Z := [
  0x428a2f98d728ae22; 0x7137449123ef65cd; 0xb5c0fbcfec4d3b2f; 0xe9b5dba58189dbbc;
  0x3956c25bf348b538; 0x59f111f1b605d019; 0x923f82a4af194f9b; 0xab1c5ed5da6d8118;
  0xd807aa98a3030242; 0x12835b0145706fbe; 0x243185be4ee4b28c; 0x550c7dc3d5ffb4e2;
  0x72be5d74f27b896f; 0x80deb1fe3b1696b1; 0x9bdc06a725c71235; 0xc19bf174cf692694;
  0xe49b69c19ef14ad2; 0xefbe4786384f25e3; 0x0fc19dc68b8cd5b5; 0x240ca1cc77ac9c65;
  0x2de92c6f592b0275; 0x4a7484aa6ea6e483; 0x5cb0a9dcbd41fbd4; 0x76f988da831153b5;
  0x983e5152ee66dfab; 0xa831c66d2db43210; 0xb00327c898fb213f; 0xbf597fc7beef0ee4;
  0xc6e00bf33da88fc2; 0xd5a79147930aa725; 0x06ca6351e003826f; 0x142929670a0e6e70;
  0x27b70a8546d22ffc; 0x2e1b21385c26c926; 0x4d2c6dfc5ac42aed; 0x53380d139d95b3df;
  0x650a73548baf63de; 0x766a0abb3c77b2a8; 0x81c2c92e47edaee6; 0x92722c851482353b;
  0xa2bfe8a14cf10364; 0xa81a664bbc423001; 0xc24b8b70d0f89791; 0xc76c51a30654be30;
  0xd192e819d6ef5218; 0xd69906245565a910; 0xf40e35855771202a; 0x106aa07032bbd1b8;
  0x19a4c116b8d2d0c8; 0x1e376c085141ab53; 0x2748774cdf8eeb99; 0x34b0bcb5e19b48a8;
  0x391c0cb3c5c95a63; 0x4ed8aa4ae3418acb; 0x5b9cca4f7763e373; 0x682e6ff3d6b2b8a3;
  0x748f82ee5defb2fc; 0x78a5636f43172f60; 0x84c87814a1f0ab72; 0x8cc702081a6439ec;
  0x90befffa23631e28; 0xa4506cebde82bde9; 0xbef9a3f7b2c67915; 0xc67178f2e372532b;
  0xca273eceea26619c; 0xd186b8c721c0c207; 0xeada7dd6cde0eb1e; 0xf57d4f7fee6ed178;
  0x06f067aa72176fba; 0x0a637dc5a2c898a6; 0x113f9804bef90dae; 0x1b710b35131c471b;
  0x28db77f523047d84; 0x32caab7b40c72493; 0x3c9ebe0a15c9bebc; 0x431d67c49c100d4c;
  0x4cc5d4becb3e42b6; 0x597f299cfc657e2a; 0x5fcb6fab3ad6faec; 0x6c44198c4a475817].

Definition M64 : Z := 0xFFFFFFFFFFFFFFFF.

Definition ROR64c (x y : Z) : Z :=
  Z.land (Z.lor (Z.shiftr (Z.land x M64) (Z.land y 63)) (u64 (Z.shiftl x (64 - Z.land y 63)))) M64.

(** [STORE64H(x, y + off)] and [LOAD64H(x, y + off)] *)
Definition STORE64H (x : Z) (y : list Z) (off : Z) : option (list Z) :=
  y <- mset y off (Z.land (Z.shiftr x 56) 255);;
  y <- mset y (off + 1) (Z.land (Z.shiftr x 48) 255);;
  y <- mset y (off + 2) (Z.land (Z.shiftr x 40) 255);;
  y <- mset y (off + 3) (Z.land (Z.shiftr x 32) 255);;
  y <- mset y (off + 4) (Z.land (Z.shiftr x 24) 255);;
  y <- mset y (off + 5) (Z.land (Z.shiftr x 16) 255);;
  y <- mset y (off + 6) (Z.land (Z.shiftr x 8) 255);;
  mset y (off + 7) (Z.land x 255).

Definition LOAD64H (y : list Z) (off : Z) : option Z :=
  y0 <- mget y off;; y1 <- mget y (off + 1);; y2 <- mget y (off + 2);; y3 <- mget y (off + 3);;
  y4 <- mget y (off + 4);; y5 <- mget y (off + 5);; y6 <- mget y (off + 6);; y7 <- mget y (off + 7);;
  Some (Z.lor (Z.lor (Z.lor (Z.lor (Z.lor (Z.lor (Z.lor
    (u64 (Z.shiftl (Z.land y0 255) 56)) (u64 (Z.shiftl (Z.land y1 255) 48)))
    (u64 (Z.shiftl (Z.land y2 255) 40))) (u64 (Z.shiftl (Z.land y3 255) 32)))
    (u64 (Z.shiftl (Z.land y4 255) 24))) (u64 (Z.shiftl (Z.land y5 255) 16)))
    (u64 (Z.shiftl (Z.land y6 255) 8))) (Z.land y7 255)).

Definition Ch (x y z : Z) : Z := Z.lxor z (Z.land x (Z.lxor y z)).
Definition Maj (x y z : Z) : Z := Z.lor (Z.land (Z.lor x y) z) (Z.land x y).
Definition R (x n : Z) : Z := Z.shiftr (Z.land x M64) n.
Definition Sigma0 (x : Z) : Z := Z.lxor (Z.lxor (ROR64c x 28) (ROR64c x 34)) (ROR64c x 39).
Definition Sigma1 (x : Z) : Z := Z.lxor (Z.lxor (ROR64c x 14) (ROR64c x 18)) (ROR64c x 41).
Definition Gamma0 (x : Z) : Z := Z.lxor (Z.lxor (ROR64c x 1) (ROR64c x 8)) (R x 7).
Definition Gamma1 (x : Z) : Z := Z.lxor (Z.lxor (ROR64c x 19) (ROR64c x 61)) (R x 6).

Record sha512_context := mk512 { length512 : Z; state : list Z; curlen : Z; buf : list Z }.

Definition set_length512 (n : Z) (c : sha512_context) := mk512 n (state c) (curlen c) (buf c).
Definition set_state512 (s : list Z) (c : sha512_context) := mk512 (length512 c) s (curlen c) (buf c).
Definition set_curlen (n : Z) (c : sha512_context) := mk512 (length512 c) (state c) n (buf c).
Definition set_buf (b : list Z) (c : sha512_context) := mk512 (length512 c) (state c) (curlen c) b.

Definition load_word512 (b : list Z) (i : Z) (W : list Z) : option (list Z) :=
  x <- LOAD64H b (8 * i);; Some (W ++ [x]).

Definition fill_word (i : Z) (W : list Z) : option (list Z) :=
  w2 <- mget W (i - 2);; w7 <- mget W (i - 7);; w15 <- mget W (i - 15);; w16 <- mget W (i - 16);;
  Some (W ++ [u64 (Gamma1 w2 + w7 + Gamma0 w15 + w16)]).

(** The macro [RND(S[a], ..., S[h], i)]. *)
Definition RND (W : list Z) (a b c d e f g h i : Z) (S : list Z) : option (list Z) :=
  vh <- mget S h;; ve <- mget S e;; vf <- mget S f;; vg <- mget S g;;
  ki <- mget K i;; wi <- mget W i;;
  let t0 := u64 (vh + Sigma1 ve + Ch ve vf vg + ki + wi) in
  va <- mget S a;; vb <- mget S b;; vc <- mget S c;;
  let t1 := u64 (Sigma0 va + Maj va vb vc) in
  vd <- mget S d;;
  S <- mset S d (u64 (vd + t0));;
  mset S h (u64 (t0 + t1)).

(** Eight rounds of the loop [for (i = 0; i < 80; i += 8)]; [n] is [i / 8]. *)
Definition eight_rounds (W : list Z) (n : Z) (S : list Z) : option (list Z) :=
  let i := 8 * n in
  S <- RND W 0 1 2 3 4 5 6 7 (i + 0) S;;
  S <- RND W 7 0 1 2 3 4 5 6 (i + 1) S;;
  S <- RND W 6 7 0 1 2 3 4 5 (i + 2) S;;
  S <- RND W 5 6 7 0 1 2 3 4 (i + 3) S;;
  S <- RND W 4 5 6 7 0 1 2 3 (i + 4) S;;
  S <- RND W 3 4 5 6 7 0 1 2 (i + 5) S;;
  S <- RND W 2 3 4 5 6 7 0 1 (i + 6) S;;
  S <- RND W 1 2 3 4 5 6 7 0 (i + 7) S;;
  Some S.

(** [sha512_compress(md, b)]; the result 0 is left out, it has no other. *)
Definition sha512_compress (md : sha512_context) (b : list Z) : option sha512_context :=
  W <- for_loop 16 0 (load_word512 b) [];;
  W <- for_loop 64 16 fill_word W;;
  S <- for_loop 10 0 (eight_rounds W) (state md);;
  st <- for_loop 8 0 (fun i st =>
          x <- mget st i;; y <- mget S i;; mset st i (u64 (x + y))) (state md);;
  Some (set_state512 st md).

Definition init_state512 : list Z :=
  [0x6a09e667f3bcc908; 0xbb67ae8584caa73b; 0x3c6ef372fe94f82b; 0xa54ff53a5f1d36f1;
   0x510e527fade682d1; 0x9b05688c2b3e6c1f; 0x1f83d9abfb41bd6b; 0x5be0cd19137e2179].

Definition sha512_init (md : option sha512_context) : Z * option sha512_context :=
  match md with
  | None => (1, None)
  | Some c => (0, Some (mk512 0 init_state512 0 (buf c)))
  end.

(** The loop of [sha512_update] on the bytes from [off] on. *)
Fixpoint update_loop (fuel : nat) (c : sha512_context) (inp : list Z) (off inlen : Z)
  : option sha512_context :=
  match fuel with
  | O => None
  | S fuel =>
      if inlen >? 0 then
        if (curlen c =? 0) && (inlen >=? 128) then
          b <- msub inp off 128;;
          c <- sha512_compress c b;;
          update_loop fuel (set_length512 (u64 (length512 c + 128 * 8)) c) inp (off + 128) (inlen - 128)
        else
          let n := Z.min inlen (u32 (128 - curlen c)) in
          b <- for_loop (Z.to_nat n) 0 (fun i b =>
                 x <- mget inp (off + i);; mset b (i + curlen c) x) (buf c);;
          let c := set_curlen (u32 (curlen c + n)) (set_buf b c) in
          if curlen c =? 128 then
            c <- sha512_compress c (buf c);;
            update_loop fuel (set_curlen 0 (set_length512 (u64 (length512 c + 8 * 128)) c))
              inp (off + n) (inlen - n)
          else update_loop fuel c inp (off + n) (inlen - n)
      else Some c
  end.

(** The loop takes at least one byte in each round. *)
Definition sha512_update (md : option sha512_context) (inp : option (list Z)) (inlen : Z)
  : option (Z * option sha512_context) :=
  match md, inp with
  | None, _ | _, None => Some (1, md)
  | Some c, Some inp =>
      if curlen c >? 128 then Some (1, md)
      else c <- update_loop (S (Z.to_nat inlen)) c inp 0 inlen;; Some (0, Some c)
  end.

(** [while (md->curlen < stop) md->buf[md->curlen++] = 0] *)
Definition zero_to (stop : Z) (c : sha512_context) : option sha512_context :=
  b <- for_loop (Z.to_nat (stop - curlen c)) (curlen c) (fun i b => mset b i 0) (buf c);;
  Some (set_curlen (Z.max stop (curlen c)) (set_buf b c)).

(** The marker and the zeros up to byte 120, after one more compression when there
    is no room for the length. *)
Definition pad_block512 (c : sha512_context) : option sha512_context :=
  b <- mset (buf c) (curlen c) 0x80;;
  let c := set_curlen (curlen c + 1) (set_buf b c) in
  c <- (if curlen c >? 112 then
          c <- zero_to 128 c;;
          c <- sha512_compress c (buf c);;
          Some (set_curlen 0 c)
        else Some c);;
  zero_to 120 c.

Definition sha512_final (md : option sha512_context) (out : option (list Z))
  : option (Z * option sha512_context * option (list Z)) :=
  match md, out with
  | None, _ | _, None => Some (1, md, out)
  | Some c, Some o =>
      if curlen c >=? 128 then Some (1, md, out)
      else
        c <- pad_block512 (set_length512 (u64 (length512 c + curlen c * 8)) c);;
        b <- STORE64H (length512 c) (buf c) 120;;
        c <- sha512_compress (set_buf b c) b;;
        o <- for_loop 8 0 (fun i o => s <- mget (state c) i;; STORE64H s o (8 * i)) o;;
        Some (0, Some c, Some o)
  end.

(** [sha512(message, message_len, out)]; [stk] is the local context before
    [sha512_init]. *)
Definition sha512 (stk : sha512_context) (message : option (list Z)) (message_len : Z)
    (out : option (list Z)) : option (Z * option (list Z)) :=
  let '(ret, ctx) := sha512_init (Some stk) in
  if negb (ret =? 0) then Some (ret, out)
  else
    '(ret, ctx) <- sha512_update ctx message message_len;;
    if negb (ret =? 0) then Some (ret, out)
    else
      '(ret, ctx, out) <- sha512_final ctx out;;
      Some (ret, out).


(** ** The compression *)

(** The functions of the standard for 64-bit words. *)
Abbreviation compress512 := (Fips180.sha2_compress 64 28 34 39 14 18 41 1 8 7 19 61 6 K).
Abbreviation round512_ref := (Fips180.sha2_round 64 28 34 39 14 18 41).
Abbreviation schedule512 := (Fips180.schedule 64 1 8 7 19 61 6).
Abbreviation regs := Fips180.regs.
Abbreviation regs_list := Fips180.regs_list.
Abbreviation regs_ok := (Fips180.regs_ok 64).

Lemma land_M64 x : word_ok 64 x -> Z.land x M64 = x.
Proof. intros Hx. change M64 with (Z.ones 64). rewrite Z.land_ones by lia. by apply Z.mod_small. Qed.

Lemma ROR64c_spec x y : word_ok 64 x -> 0 < y < 64 -> ROR64c x y = rotr 64 y x.
Proof.
  intros Hx Hy. unfold ROR64c.
  assert (Z.land y 63 = y) as ->.
  { change 63 with (Z.ones 6). rewrite Z.land_ones by lia. apply Z.mod_small. lia. }
  rewrite (land_M64 x) by done. rewrite u64_mod, rotr_shifts by (done || lia).
  apply land_M64. apply rotr_ok; [lia|done].
Qed.

Lemma Sigma_spec x : word_ok 64 x ->
  Gamma0 x = Fips180.sigma0 64 1 8 7 x /\ Gamma1 x = Fips180.sigma1 64 19 61 6 x /\
  Sigma0 x = Fips180.Sigma0 64 28 34 39 x /\ Sigma1 x = Fips180.Sigma1 64 14 18 41 x.
Proof.
  intros Hx. unfold Gamma0, Gamma1, Sigma0, Sigma1, R.
  unfold Fips180.sigma0, Fips180.sigma1, Fips180.Sigma0, Fips180.Sigma1.
  rewrite !ROR64c_spec by (done || lia). rewrite land_M64 by done. by rewrite !Z.shiftr_div_pow2 by lia.
Qed.

Lemma Ch_spec x y z : Ch x y z = Fips180.Ch x y z.
Proof.
  unfold Ch, Fips180.Ch. apply Z.bits_inj'. intros n Hn.
  rewrite !Z.lxor_spec, !Z.land_spec, !Z.lxor_spec, Z.lnot_spec by done. btauto.
Qed.

Lemma Maj_spec x y z : Maj x y z = Fips180.Maj x y z.
Proof. unfold Maj, Fips180.Maj. bitwise. Qed.

Lemma lor_be8 a b c d e f g h :
  byte_ok a -> byte_ok b -> byte_ok c -> byte_ok d ->
  byte_ok e -> byte_ok f -> byte_ok g -> byte_ok h ->
  LOAD64H [a; b; c; d; e; f; g; h] 0 = Some (be_val [a; b; c; d; e; f; g; h]).
Proof.
  intros Ha Hb Hc Hd He Hf Hg Hh. unfold LOAD64H.
  assert (forall x, byte_ok x -> Z.land x 255 = x) as Hl.
  { intros x Hx. change 255 with (Z.ones 8). rewrite Z.land_ones by lia. by apply Z.mod_small. }
  cbv [mget Z.leb Z.compare Z.add Z.to_nat Pos.to_nat Pos.iter_op Pos.add Pos.succ Nat.add lookup list_lookup].
  rewrite !Hl by done. unfold byte_ok in *. rewrite !Z.shiftl_mul_pow2 by lia.
  rewrite !u64_small by lia. f_equal.
  rewrite lor_low by lia. replace (a * 2 ^ 56 + b * 2 ^ 48) with ((a * 256 + b) * 2 ^ 48) by lia.
  set (x1 := a * 256 + b). assert (0 <= x1) by lia.
  rewrite lor_low by lia. replace (x1 * 2 ^ 48 + c * 2 ^ 40) with ((x1 * 256 + c) * 2 ^ 40) by lia.
  set (x2 := x1 * 256 + c).
  rewrite lor_low by lia. replace (x2 * 2 ^ 40 + d * 2 ^ 32) with ((x2 * 256 + d) * 2 ^ 32) by lia.
  set (x3 := x2 * 256 + d).
  rewrite lor_low by lia. replace (x3 * 2 ^ 32 + e * 2 ^ 24) with ((x3 * 256 + e) * 2 ^ 24) by lia.
  set (x4 := x3 * 256 + e).
  rewrite lor_low by lia. replace (x4 * 2 ^ 24 + f * 2 ^ 16) with ((x4 * 256 + f) * 2 ^ 16) by lia.
  set (x5 := x4 * 256 + f).
  rewrite lor_low by lia. replace (x5 * 2 ^ 16 + g * 2 ^ 8) with ((x5 * 256 + g) * 2 ^ 8) by lia.
  set (x6 := x5 * 256 + g). rewrite lor_low by lia. unfold be_val. cbn [foldl].
  unfold x6, x5, x4, x3, x2, x1. lia.
Qed.

Lemma eight_bytes (l : list Z) : length l = 8%nat ->
  exists a b c d e f g h, l = [a; b; c; d; e; f; g; h].
Proof.
  intros H. do 8 (destruct l as [|? l]; [simpl in H; lia|]). destruct l; [eauto 20|simpl in H; lia].
Qed.

Lemma LOAD64H_sub b n : (8 * n + 8 <= length b)%nat -> bytes_ok b ->
  LOAD64H b (8 * Z.of_nat n) = Some (be_val (take 8 (drop (8 * n) b))).
Proof.
  intros Hn Hb. set (l := take 8 (drop (8 * n) b)).
  assert (bytes_ok l) as Hl by (by apply Forall_take, Forall_drop).
  destruct (eight_bytes l) as (a & b1 & c & d & e & f & g & h & E).
  { unfold l. rewrite length_take, length_drop. lia. }
  rewrite E in Hl. repeat (apply Forall_cons_1 in Hl as [? Hl]). rewrite E, <- lor_be8 by done.
  unfold LOAD64H. assert (forall j, 0 <= j < 8 -> mget b (8 * Z.of_nat n + j) = mget l j) as Hj.
  { intros j Hj. unfold l, mget. destruct (Z.leb_spec 0 (8 * Z.of_nat n + j)); [|lia].
    destruct (Z.leb_spec 0 j); [|lia]. rewrite lookup_take_lt, lookup_drop by lia. f_equal. lia. }
  rewrite <- (Z.add_0_r (8 * Z.of_nat n)) at 1. rewrite !Hj by lia. by rewrite E.
Qed.

Lemma load_loop512 b : bytes_ok b -> length b = 128%nat ->
  for_loop 16 0 (load_word512 b) [] = Some (Fips180.be_words 8 16 b).
Proof.
  intros Hb Hl.
  destruct (for_loop_inv (fun i W => W = take (Z.to_nat i) (Fips180.be_words 8 16 b)) 16 0 (load_word512 b) [])
    as (W & -> & ->); [|done|].
  - intros i W Hi ->. eexists. split; [|reflexivity]. unfold load_word512.
    replace (8 * i) with (8 * Z.of_nat (Z.to_nat i)) by lia. rewrite LOAD64H_sub by (done || lia).
    replace (Z.to_nat (i + 1)) with (S (Z.to_nat i)) by lia.
    rewrite (take_S_r (Fips180.be_words 8 16 b) _ (be_val (take 8 (drop (8 * Z.to_nat i) b)))); [done|].
    by rewrite Fips180.be_words_lookup by lia.
  - rewrite take_ge; [done|]. rewrite Fips180.be_words_length. lia.
Qed.

Lemma fill_loop n W : (16 <= length W)%nat -> Forall (word_ok 64) W ->
  for_loop n (zlen W) fill_word W = Some (schedule512 n W).
Proof.
  revert W. induction n as [|n IH]; intros W Hl HW; [done|]. cbn [for_loop Fips180.schedule].
  unfold fill_word at 1.
  rewrite (mget_nth W (zlen W - 2) (length W - 2)), (mget_nth W (zlen W - 7) (length W - 7)),
    (mget_nth W (zlen W - 15) (length W - 15)), (mget_nth W (zlen W - 16) (length W - 16))
    by (unfold zlen; lia).
  destruct (Sigma_spec (W !!! (length W - 2)%nat)) as (_ & -> & _ & _); [apply total_ok; auto; lia|].
  destruct (Sigma_spec (W !!! (length W - 15)%nat)) as (-> & _ & _ & _); [apply total_ok; auto; lia|].
  rewrite <- IH; [|rewrite length_app; lia|].
  - f_equal. unfold zlen. rewrite length_app. simpl. lia.
  - apply Forall_app_2; [done|]. apply Forall_singleton. apply mod_ok. lia.
Qed.

(** *** The unrolled rounds

    After [j] of eight rounds position [p] of the array holds register [(p + j) mod 8]:
    the code renames the registers where the standard moves them. *)
Definition rot_regs (j : nat) (r : regs) : list Z :=
  drop j (regs_list r) ++ take j (regs_list r).

Lemma RND_spec W i ki wi r : regs_ok r -> mget K i = Some ki -> mget W i = Some wi ->
  RND W 0 1 2 3 4 5 6 7 i (rot_regs 0 r) = Some (rot_regs 1 (round512_ref r (ki, wi))) /\
  RND W 7 0 1 2 3 4 5 6 i (rot_regs 1 r) = Some (rot_regs 2 (round512_ref r (ki, wi))) /\
  RND W 6 7 0 1 2 3 4 5 i (rot_regs 2 r) = Some (rot_regs 3 (round512_ref r (ki, wi))) /\
  RND W 5 6 7 0 1 2 3 4 i (rot_regs 3 r) = Some (rot_regs 4 (round512_ref r (ki, wi))) /\
  RND W 4 5 6 7 0 1 2 3 i (rot_regs 4 r) = Some (rot_regs 5 (round512_ref r (ki, wi))) /\
  RND W 3 4 5 6 7 0 1 2 i (rot_regs 5 r) = Some (rot_regs 6 (round512_ref r (ki, wi))) /\
  RND W 2 3 4 5 6 7 0 1 i (rot_regs 6 r) = Some (rot_regs 7 (round512_ref r (ki, wi))) /\
  RND W 1 2 3 4 5 6 7 0 i (rot_regs 7 r) = Some (rot_regs 0 (round512_ref r (ki, wi))).
Proof.
  destruct r as [a b c d e f g h]. intros Hr Ek Ew. unfold Fips180.regs_ok in Hr. simpl in Hr.
  repeat (apply Forall_cons_1 in Hr as [? Hr]). unfold RND. rewrite Ek, Ew.
  unfold Fips180.sha2_round. destruct (Sigma_spec a) as (_ & _ & <- & _); [done|].
  destruct (Sigma_spec e) as (_ & _ & _ & <-); [done|]. rewrite <- Ch_spec, <- Maj_spec.
  cbn [fst snd]. split_and!; by cbv -[Sigma0 Sigma1 Ch Maj u64 Z.add Z.modulo Z.pow].
Qed.

(** Round [j] of the eight, with the registers it names. *)
Definition rnd_at (W : list Z) (j i : Z) (S : list Z) : option (list Z) :=
  if j =? 0 then RND W 0 1 2 3 4 5 6 7 i S
  else if j =? 1 then RND W 7 0 1 2 3 4 5 6 i S
  else if j =? 2 then RND W 6 7 0 1 2 3 4 5 i S
  else if j =? 3 then RND W 5 6 7 0 1 2 3 4 i S
  else if j =? 4 then RND W 4 5 6 7 0 1 2 3 i S
  else if j =? 5 then RND W 3 4 5 6 7 0 1 2 i S
  else if j =? 6 then RND W 2 3 4 5 6 7 0 1 i S
  else RND W 1 2 3 4 5 6 7 0 i S.

Lemma eight_rounds_loop W n S :
  eight_rounds W n S = for_loop 8 0 (fun j S => rnd_at W j (8 * n + j) S) S.
Proof. reflexivity. Qed.

Lemma rnd_at_spec W j i ki wi r : 0 <= j < 8 -> regs_ok r -> mget K i = Some ki -> mget W i = Some wi ->
  rnd_at W j i (rot_regs (Z.to_nat j) r) =
  Some (rot_regs (Z.to_nat ((j + 1) mod 8)) (round512_ref r (ki, wi))).
Proof.
  intros Hj Hr Ek Ew. destruct (RND_spec W i ki wi r Hr Ek Ew) as (H0 & H1 & H2 & H3 & H4 & H5 & H6 & H7).
  assert (j = 0 \/ j = 1 \/ j = 2 \/ j = 3 \/ j = 4 \/ j = 5 \/ j = 6 \/ j = 7) as Hc by lia.
  by destruct Hc as [->|[->|[->|[->|[->|[->|[->| ->]]]]]]].
Qed.

Lemma eight_rounds_spec W n r : length W = 80%nat -> (n < 10)%nat -> regs_ok r ->
  exists r', eight_rounds W (Z.of_nat n) (regs_list r) = Some (regs_list r') /\ regs_ok r' /\
    foldl round512_ref r (drop (8 * n) (zip K W)) = foldl round512_ref r' (drop (8 * S n) (zip K W)).
Proof.
  intros HW Hn Hr. assert (length K = 80%nat) as HK by done. rewrite eight_rounds_loop.
  destruct (for_loop_inv (fun j S => exists r', S = rot_regs (Z.to_nat (j mod 8)) r' /\ regs_ok r' /\
      foldl round512_ref r (drop (8 * n) (zip K W)) =
      foldl round512_ref r' (drop (8 * n + Z.to_nat j) (zip K W)))
    8 0 (fun j S => rnd_at W j (8 * Z.of_nat n + j) S) (regs_list r)) as (S' & -> & r' & -> & Hr' & E).
  - intros j S Hj (r1 & -> & Hr1 & ->). rewrite Z.mod_small by lia.
    set (p := (8 * n + Z.to_nat j)%nat).
    assert (K !! p = Some (K !!! p)) as Ek by (apply list_lookup_lookup_total_lt; lia).
    assert (W !! p = Some (W !!! p)) as Ew by (apply list_lookup_lookup_total_lt; lia).
    rewrite (rnd_at_spec W j _ (K !!! p) (W !!! p)) by (lia || done || apply mget_nth; lia).
    eexists. split; [reflexivity|]. exists (round512_ref r1 (K !!! p, W !!! p)).
    split_and!; [done|by apply Fips180.sha2_round_ok|].
    rewrite (drop_S (zip K W) (K !!! p, W !!! p) p) by (apply lookup_zip_with_Some; eauto 10).
    cbn [foldl]. do 2 f_equal. lia.
  - exists r. split_and!; [|done|by rewrite Nat.add_0_r].
    unfold rot_regs. cbn [Z.modulo Z.to_nat drop take]. by rewrite app_nil_r.
  - exists r'. split; [|split; [done|]].
    + unfold rot_regs. change (Z.to_nat ((0 + Z.of_nat 8) mod 8)) with 0%nat. cbn [drop take].
      by rewrite app_nil_r.
    + rewrite E. do 2 f_equal. lia.
Qed.

Lemma rounds_loop512 W n i r : length W = 80%nat -> (i + n = 10)%nat -> regs_ok r ->
  for_loop n (Z.of_nat i) (eight_rounds W) (regs_list r) =
  Some (regs_list (foldl round512_ref r (drop (8 * i) (zip K W)))).
Proof.
  intros HW. revert i r. induction n as [|n IH]; intros i r Hi Hr; cbn [for_loop].
  - rewrite drop_ge; [done|]. rewrite length_zip_with. change (length K) with 80%nat. lia.
  - destruct (eight_rounds_spec W i r HW) as (r' & -> & Hr' & ->); [lia|done|].
    replace (Z.of_nat i + 1) with (Z.of_nat (S i)) by lia. apply IH; [lia|done].
Qed.

Lemma feedback_spec r s :
  for_loop 8 0 (fun i st => x <- mget st i;; y <- mget (regs_list s) i;; mset st i (u64 (x + y)))
    (regs_list r) = Some (regs_list (Fips180.regs_add 64 r s)).
Proof. destruct r, s. by cbv -[u64 Z.add Z.modulo Z.pow]. Qed.

Lemma sha512_compress_spec md b r :
  state md = regs_list r -> regs_ok r -> bytes_ok b -> length b = 128%nat ->
  sha512_compress md b = Some (set_state512 (regs_list (compress512 r b)) md).
Proof.
  intros Es Hr Hb Hl. unfold sha512_compress. rewrite load_loop512 by done.
  assert (length (Fips180.be_words 8 16 b) = 16%nat) as Hw by apply Fips180.be_words_length.
  pose proof (fill_loop 64 (Fips180.be_words 8 16 b)) as E. unfold zlen in E. rewrite Hw in E.
  change (Z.of_nat 16) with 16 in E. rewrite E; [|lia|apply (Fips180.be_words_ok 8); [done|lia]].
  rewrite Es. pose proof (rounds_loop512 (schedule512 64 (Fips180.be_words 8 16 b)) 10 0 r) as E'.
  change (Z.of_nat 0) with 0 in E'. rewrite E'; [|rewrite Fips180.schedule_length; lia|lia|done].
  by rewrite feedback_spec.
Qed.

(** ** Contexts *)

Definition init_regs512 : regs :=
  Fips180.mkRegs 0x6a09e667f3bcc908 0xbb67ae8584caa73b 0x3c6ef372fe94f82b 0xa54ff53a5f1d36f1
    0x510e527fade682d1 0x9b05688c2b3e6c1f 0x1f83d9abfb41bd6b 0x5be0cd19137e2179.

Abbreviation state512 := (md_state 128 compress512 init_regs512).
Abbreviation rest512 := (md_rest 128).

(** The context after the bytes [m]. *)
Record absorbed512 (c : sha512_context) (m : list Z) : Prop := {
  ab_state : state c = regs_list (state512 m);
  ab_length : length (buf c) = 128%nat;
  ab_bytes : bytes_ok (buf c);
  ab_curlen : curlen c = zlen (rest512 m);
  ab_rest : exists post, buf c = rest512 m ++ post;
  ab_bits : length512 c = u64 (1024 * (zlen m / 128)) }.

Lemma state512_ok m : regs_ok (state512 m).
Proof.
  apply Fips180.md_state_ok; [lia|]. repeat (constructor; [by vm_compute|]). constructor.
Qed.

Lemma rest_parts512 m :
  zlen (rest512 m) = zlen m mod 128 /\ zlen m = 128 * (zlen m / 128) + zlen (rest512 m).
Proof.
  assert (zlen (rest512 m) = zlen m mod 128) as ->.
  { unfold zlen. rewrite md_rest_length by lia. by rewrite Nat2Z.inj_mod. }
  split; [done|]. apply Z.div_mod. lia.
Qed.

(** Bytes that complete a block: the context after the compression. *)
Lemma absorb_full c c1 m b :
  absorbed512 c m -> bytes_ok b -> (length (rest512 m) + length b)%nat = 128%nat ->
  state c1 = state c -> length (buf c1) = 128%nat -> bytes_ok (buf c1) -> length512 c1 = length512 c ->
  exists c2, sha512_compress c1 (rest512 m ++ b) = Some c2 /\ curlen c2 = curlen c1 /\
    absorbed512 (set_curlen 0 (set_length512 (u64 (length512 c2 + 1024)) c2)) (m ++ b).
Proof.
  intros Hc Hb Hl Es Hl1 Hb1 El. pose proof (ab_bytes _ _ Hc) as Hcb.
  destruct (ab_rest _ _ Hc) as [post Er]. rewrite Er in Hcb. apply Forall_app in Hcb as [Hrb _].
  rewrite (sha512_compress_spec c1 _ (state512 m));
    [|by rewrite Es; apply Hc|apply state512_ok|by apply Forall_app_2|by rewrite length_app].
  destruct (md_absorb_full 128 compress512 ltac:(lia) init_regs512 m b Hl) as [E1 E2].
  eexists. split; [reflexivity|]. split; [done|].
  constructor; cbn [state buf curlen length512 set_curlen set_length512 set_state512].
  - by rewrite E1.
  - done.
  - done.
  - by rewrite E2.
  - rewrite E2. by eexists.
  - rewrite El, (ab_bits _ _ Hc), zlen_app. destruct (rest_parts512 m) as [H1 H2].
    unfold u64. rewrite Zplus_mod_idemp_l. f_equal.
    assert (zlen b = 128 - zlen (rest512 m)) as -> by (unfold zlen; lia). div_lia.
Qed.

(** Bytes that do not. *)
Lemma absorb_short c m b post :
  absorbed512 c m -> bytes_ok b -> bytes_ok post -> (length (rest512 m) + length b < 128)%nat ->
  length (rest512 m ++ b ++ post) = 128%nat ->
  absorbed512 (set_curlen (curlen c + zlen b) (set_buf (rest512 m ++ b ++ post) c)) (m ++ b).
Proof.
  intros Hc Hb Hp Hl H128. pose proof (ab_bytes _ _ Hc) as Hcb.
  destruct (ab_rest _ _ Hc) as [post0 Er]. rewrite Er in Hcb. apply Forall_app in Hcb as [Hrb _].
  destruct (md_absorb_short 128 compress512 ltac:(lia) init_regs512 m b Hl) as [E1 E2].
  constructor; cbn [state buf curlen length512 set_curlen set_buf].
  - rewrite E1. apply Hc.
  - done.
  - apply Forall_app_2; [done|by apply Forall_app_2].
  - rewrite E2, zlen_app, (ab_curlen _ _ Hc). done.
  - rewrite E2. exists post. by rewrite <- app_assoc.
  - rewrite (ab_bits _ _ Hc), zlen_app. destruct (rest_parts512 m) as [H1 H2].
    do 2 f_equal. assert (0 <= zlen b < 128 - zlen (rest512 m)) by (unfold zlen; lia). div_lia.
Qed.

(** The copy of the loop, into the free part of the buffer. *)
Lemma copy_part c m pre b l post : absorbed512 c m ->
  (length (rest512 m) + length b <= 128)%nat ->
  exists q, bytes_ok q /\ length (rest512 m ++ b ++ q) = 128%nat /\
    for_loop (length b) 0 (fun i m => x <- mget (pre ++ (b ++ l) ++ post) (zlen pre + i);;
      mset m (i + curlen c) x) (buf c) = Some (rest512 m ++ b ++ q).
Proof.
  intros Hc Hl. destruct (ab_rest _ _ Hc) as [old Er]. pose proof (ab_length _ _ Hc) as H128.
  pose proof (ab_bytes _ _ Hc) as Hb. rewrite Er in H128, Hb. rewrite length_app in H128.
  apply Forall_app in Hb as [_ Hb].
  exists (drop (length b) old). split_and!; [by apply Forall_drop| |].
  - rewrite !length_app, length_drop. lia.
  - rewrite Er, (ab_curlen _ _ Hc). rewrite <- (take_drop (length b) old) at 1.
    apply (copy_loop b _ pre (l ++ post)); [by rewrite <- app_assoc|lia|done|].
    rewrite length_take. lia.
Qed.

(** What a round of the loop takes from the bytes that are left. *)
Lemma split_at (l : list Z) n : 0 <= n <= zlen l ->
  l = take (Z.to_nat n) l ++ drop (Z.to_nat n) l /\ zlen (take (Z.to_nat n) l) = n /\
  zlen (drop (Z.to_nat n) l) = zlen l - n.
Proof.
  intros H. unfold zlen in *. rewrite take_drop, length_take, length_drop. split_and!; [done|lia|lia].
Qed.

Lemma update_loop_spec inp fuel : forall c m pre l post,
  inp = pre ++ l ++ post -> absorbed512 c m -> bytes_ok l -> (length l < fuel)%nat ->
  exists c', update_loop fuel c inp (zlen pre) (zlen l) = Some c' /\ absorbed512 c' (m ++ l).
Proof.
  induction fuel as [|fuel IH]; intros c m pre l post Ei Hc Hl Hf; [lia|]. cbn [update_loop].
  destruct (Z.gtb_spec (zlen l) 0) as [Hpos|Hpos]; cycle 1.
  { assert (l = []) as -> by (destruct l; [done|unfold zlen in Hpos; simpl in Hpos; lia]).
    exists c. by rewrite app_nil_r. }
  pose proof (md_rest_lt 128 ltac:(lia) m) as Hr. pose proof (ab_curlen _ _ Hc) as En.
  set (n := if (curlen c =? 0) && (zlen l >=? 128) then 128 else Z.min (zlen l) (u32 (128 - curlen c))).
  assert (1 <= n <= zlen l /\ curlen c + n <= 128 /\ (curlen c + n = 128 \/ n = zlen l)) as (Hn & Hn1 & Hn2).
  { unfold n. rewrite En in *. rewrite u32_small by (unfold zlen; lia).
    destruct (Z.eqb_spec (zlen (rest512 m)) 0), (Z.geb_spec (zlen l) 128); simpl; unfold zlen in *; lia. }
  assert ((curlen c =? 0) && (zlen l >=? 128) = true -> n = 128) as Et by (intros E; unfold n; by rewrite E).
  assert ((curlen c =? 0) && (zlen l >=? 128) = false -> n = Z.min (zlen l) (u32 (128 - curlen c))) as Ef
    by (intros E; unfold n; by rewrite E).
  clearbody n. destruct (split_at l n) as (Es & E1 & E2); [lia|].
  set (b := take (Z.to_nat n) l) in *. set (l' := drop (Z.to_nat n) l) in *.
  assert (bytes_ok b) as Hb by by apply Forall_take. assert (bytes_ok l') as Hl' by by apply Forall_drop.
  assert (forall c1, absorbed512 c1 (m ++ b) ->
    exists c', update_loop fuel c1 inp (zlen pre + n) (zlen l - n) = Some c' /\ absorbed512 c' (m ++ l)) as Hnext.
  { intros c1 H1. rewrite <- E2, <- E1, <- zlen_app.
    destruct (IH c1 (m ++ b) (pre ++ b) l' post) as (c' & -> & Hc').
    - by rewrite Ei, Es, <- !app_assoc.
    - done.
    - done.
    - unfold zlen in *. lia.
    - exists c'. split; [done|]. by rewrite Es, app_assoc. }
  clearbody b l'. rewrite En in *.
  assert (curlen c = zlen (rest512 m)) as En' by done.
  destruct ((zlen (rest512 m) =? 0) && (zlen l >=? 128)) eqn:Eb.
  - specialize (Et eq_refl). subst n.
    apply andb_true_iff in Eb as [Ec El]. apply Z.eqb_eq in Ec.
    assert (rest512 m = []) as Er by (destruct (rest512 m); [done|unfold zlen in Ec; simpl in Ec; lia]).
    assert (msub inp (zlen pre) 128 = Some b) as ->.
    { rewrite Ei, Es, <- app_assoc. rewrite <- E1. apply msub_app_mid. }
    destruct (absorb_full c c m b Hc Hb) as (c2 & E & Ecl & Ha);
      [rewrite Er; unfold zlen in E1; simpl; lia|done|apply Hc|apply Hc|done|].
    rewrite Er in E. cbn [app] in E. rewrite E. apply Hnext.
    destruct Ha as [A1 A2 A3 A4 A5 A6]. constructor; try done.
    cbn [set_length512 curlen] in *. rewrite Ecl, En', Ec. exact A4.
  - rewrite Es in Ei. destruct (copy_part c m pre b l' post Hc) as (q & Hq & Hlq & Ecp);
      [unfold zlen in *; lia|].
    rewrite <- Ei, En' in Ecp. specialize (Ef eq_refl). rewrite <- Ef.
    replace (Z.to_nat n) with (length b) by (unfold zlen in *; lia). rewrite Ecp.
    cbn [set_curlen set_buf curlen buf]. rewrite u32_small by (unfold zlen in *; lia).
    destruct (Z.eqb_spec (zlen (rest512 m) + n) 128) as [E|E].
    + assert (q = []) as -> by (destruct q; [done|]; rewrite !length_app in Hlq; simpl in Hlq; unfold zlen in *; lia).
      rewrite app_nil_r in *.
      destruct (absorb_full c (set_curlen (zlen (rest512 m) + n) (set_buf (rest512 m ++ b) c)) m b Hc Hb)
        as (c2 & -> & _ & Ha); [unfold zlen in *; lia|done|done| |done|by apply Hnext].
      destruct (ab_rest _ _ Hc) as [old Er]. pose proof (ab_bytes _ _ Hc) as Hcb. rewrite Er in Hcb.
      apply Forall_app in Hcb as [Hrb _]. by apply Forall_app_2.
    + apply Hnext. pose proof (absorb_short c m b q Hc Hb Hq) as H.
      rewrite En', E1 in H. apply H; [unfold zlen in *; lia|done].
Qed.

Lemma sha512_update_spec c m l : absorbed512 c m -> bytes_ok l ->
  exists c', sha512_update (Some c) (Some l) (zlen l) = Some (0, Some c') /\ absorbed512 c' (m ++ l).
Proof.
  intros Hc Hl. pose proof (md_rest_lt 128 ltac:(lia) m) as Hr. unfold sha512_update.
  destruct (Z.gtb_spec (curlen c) 128) as [H|_]; [rewrite (ab_curlen _ _ Hc) in H; unfold zlen in H; lia|].
  destruct (update_loop_spec l (S (Z.to_nat (zlen l))) c m [] l []) as (c' & E & Hc');
    [by rewrite app_nil_r|done|done|unfold zlen; lia|].
  change (zlen []) with 0 in E. rewrite E. by exists c'.
Qed.

(** ** The end of a message *)

Lemma STORE64H_spec pre q post x : length q = 8%nat ->
  STORE64H x (pre ++ q ++ post) (zlen pre) = Some (pre ++ be_bytes 8 x ++ post).
Proof.
  intros Hq. destruct (eight_bytes q Hq) as (q0 & q1 & q2 & q3 & q4 & q5 & q6 & q7 & ->).
  assert (forall l1 y l2 i v, i = zlen pre + zlen l1 ->
    mset (pre ++ l1 ++ y :: l2) i v = Some (pre ++ l1 ++ v :: l2)) as H by (intros; by apply mset_mid).
  unfold STORE64H. set (b := fun k => Z.land (Z.shiftr x k) 255).
  rewrite (H [] q0 ([q1; q2; q3; q4; q5; q6; q7] ++ post)) by (unfold zlen; simpl; lia).
  rewrite (H [b 56] q1 ([q2; q3; q4; q5; q6; q7] ++ post)) by (unfold zlen; simpl; lia).
  rewrite (H [b 56; b 48] q2 ([q3; q4; q5; q6; q7] ++ post)) by (unfold zlen; simpl; lia).
  rewrite (H [b 56; b 48; b 40] q3 ([q4; q5; q6; q7] ++ post)) by (unfold zlen; simpl; lia).
  rewrite (H [b 56; b 48; b 40; b 32] q4 ([q5; q6; q7] ++ post)) by (unfold zlen; simpl; lia).
  rewrite (H [b 56; b 48; b 40; b 32; b 24] q5 ([q6; q7] ++ post)) by (unfold zlen; simpl; lia).
  rewrite (H [b 56; b 48; b 40; b 32; b 24; b 16] q6 ([q7] ++ post)) by (unfold zlen; simpl; lia).
  rewrite (H [b 56; b 48; b 40; b 32; b 24; b 16; b 8] q7 post) by (unfold zlen; simpl; lia).
  unfold b. rewrite be_bytes_8, !byte_of by lia. change 255 with (Z.ones 8).
  by rewrite Z.land_ones by lia.
Qed.

Lemma zero_to_spec c pre old post : buf c = pre ++ old ++ post -> curlen c = zlen pre ->
  zero_to (zlen pre + zlen old) c =
  Some (set_curlen (zlen pre + zlen old) (set_buf (pre ++ replicate (length old) 0 ++ post) c)).
Proof.
  intros Eb Ec. unfold zero_to. rewrite Ec, Eb.
  replace (Z.to_nat (zlen pre + zlen old - zlen pre)) with (length old) by (unfold zlen; lia).
  rewrite zero_loop by done. by rewrite Z.max_l by (unfold zlen; lia).
Qed.

Lemma write_out r o : length o = 64%nat ->
  for_loop 8 0 (fun i o => s <- mget (regs_list r) i;; STORE64H s o (8 * i)) o =
  Some (concat (map (be_bytes 8) (regs_list r))).
Proof.
  intros Ho. set (L := regs_list r).
  assert (forall l : list Z, length (concat (map (be_bytes 8) l)) = (8 * length l)%nat) as Hc.
  { induction l as [|x l IH]; [done|]. cbn [map concat length]. rewrite length_app, be_bytes_length, IH. lia. }
  destruct (for_loop_inv (fun i o => exists q, o = concat (map (be_bytes 8) (take (Z.to_nat i) L)) ++ q /\
      zlen q = 64 - 8 * i) 8 0 (fun i o => s <- mget L i;; STORE64H s o (8 * i)) o)
    as (o' & -> & q & -> & Hq).
  - intros i o1 Hi (q & -> & Hq).
    assert (L !! Z.to_nat i = Some (L !!! Z.to_nat i)) as El
      by (apply list_lookup_lookup_total_lt; change (length L) with 8%nat; lia).
    rewrite mget_Some by (change (zlen L) with 8; lia).
    rewrite <- (take_drop 8 q).
    replace (8 * i) with (zlen (concat (map (be_bytes 8) (take (Z.to_nat i) L)))) by
      (unfold zlen; rewrite Hc, length_take; change (length L) with 8%nat; lia).
    rewrite STORE64H_spec by (rewrite length_take; unfold zlen in Hq; lia).
    eexists. split; [reflexivity|]. exists (drop 8 q). split.
    + replace (Z.to_nat (i + 1)) with (S (Z.to_nat i)) by lia.
      rewrite (take_S_r _ _ _ El), map_app, concat_app, <- app_assoc. cbn [map concat]. by rewrite app_nil_r.
    + unfold zlen in *. rewrite length_drop. lia.
  - exists o. split; [done|]. unfold zlen. lia.
  - destruct q; [|unfold zlen in Hq; simpl in Hq; lia]. by rewrite app_nil_r.
Qed.

Lemma be_bytes_16 v : 0 <= v < 2 ^ 64 -> be_bytes 16 v = replicate 8 0 ++ be_bytes 8 v.
Proof.
  intros Hv. rewrite (be_bytes_add 8 8). change (256 ^ Z.of_nat 8) with (2 ^ 64).
  by rewrite Z.div_small, be_bytes_0 by lia.
Qed.

(** The padded block, for a message of less than 2^61 bytes. *)
Lemma pad_block_spec512 c m : absorbed512 c m -> 8 * zlen m < 2 ^ 64 -> forall n,
  exists r pre q c', pad_block512 (set_length512 n c) = Some c' /\ state c' = regs_list r /\ regs_ok r /\
    buf c' = pre ++ q /\ zlen pre = 120 /\ length q = 8%nat /\ bytes_ok pre /\ length512 c' = n /\
    md_hash 128 compress512 16 init_regs512 m = compress512 r (pre ++ be_bytes 8 (8 * zlen m)).
Proof.
  intros [Es Hl Hb En [post Er] _] Hm n. pose proof (md_rest_lt 128 ltac:(lia) m) as Hr.
  rewrite md_hash_final by lia. unfold pad_block512. cbn [set_length512 curlen buf]. rewrite En.
  set (s := rest512 m) in *. rewrite be_bytes_16 by (unfold zlen in *; lia).
  rewrite Er in Hb. apply Forall_app in Hb as [Hb1 Hb2].
  destruct post as [|y post]; [rewrite Er, app_nil_r in Hl; lia|].
  rewrite Er, length_app in Hl. cbn [length] in Hl. rewrite Er, mset_app_mid.
  change (s ++ 0x80 :: post) with (s ++ [0x80] ++ post). rewrite (app_assoc s [0x80] post).
  assert (zlen s + 1 = zlen (s ++ [0x80])) as Ez by (by rewrite zlen_app). rewrite !Ez.
  assert (bytes_ok (s ++ [0x80])) as H80 by (apply Forall_app_2; [done|by repeat constructor]).
  assert (forall k, bytes_ok (replicate k 0)) as H0 by (intros; by apply Forall_replicate).
  cbn [set_curlen set_buf curlen]. set (t := s ++ [0x80]) in *.
  assert (length t = length s + 1)%nat as Ht by (unfold t; rewrite length_app; done).
  destruct (Z.gtb_spec (zlen t) 112) as [Hgt|Hle].
  - destruct (Nat.leb_spec (length s + 1 + 16) 128) as [|_]; [unfold zlen in *; lia|].
    match goal with |- context [zero_to 128 ?c1] => pose proof (zero_to_spec c1 t post []) as E end.
    rewrite app_nil_r in E. specialize (E eq_refl eq_refl).
    replace (zlen t + zlen post) with 128 in E by (unfold zlen; lia).
    rewrite E. cbn [set_curlen set_buf buf]. rewrite app_nil_r.
    assert (length (t ++ replicate (length post) 0) = 128%nat) as H128
      by (rewrite length_app, length_replicate; lia).
    rewrite (sha512_compress_spec _ _ (state512 m));
      [|done|apply state512_ok|by apply Forall_app_2|done].
    set (B := t ++ replicate (length post) 0) in *.
    assert (B = [] ++ take 120 B ++ drop 120 B) as EB by (by rewrite app_nil_l, take_drop).
    match goal with |- context [zero_to 120 ?c1] =>
      pose proof (zero_to_spec c1 [] (take 120 B) (drop 120 B) EB eq_refl) as E' end.
    replace (zlen [] + zlen (take 120 B)) with 120 in E' by (unfold zlen; rewrite length_take, H128; done).
    rewrite E'. replace (length (take 120 B)) with 120%nat by (rewrite length_take; lia).
    eexists (compress512 (state512 m) B), (replicate 120 0), (drop 120 B), _.
    split; [reflexivity|]. split; [reflexivity|]. split; [apply Fips180.sha2_compress_ok; lia|].
    split; [reflexivity|]. split; [reflexivity|]. split; [rewrite length_drop; lia|]. split; [apply H0|].
    split; [reflexivity|]. rewrite (app_assoc (replicate _ _)), <- replicate_add.
    unfold B, t. rewrite <- app_assoc. cbn [app].
    by replace (128 - (length s + 1))%nat with (length post) by lia.
  - destruct (Nat.leb_spec (length s + 1 + 16) 128) as [_|]; [|unfold zlen in *; lia].
    set (k := (119 - length s)%nat).
    assert (t ++ post = t ++ take k post ++ drop k post) as EB by (by rewrite take_drop).
    pose proof (zero_to_spec (set_curlen (zlen t) (set_buf (t ++ post) (set_length512 n c)))
      t (take k post) (drop k post) EB eq_refl) as E'.
    replace (zlen t + zlen (take k post)) with 120 in E'
      by (unfold zlen, k in *; rewrite length_take; lia).
    rewrite E'. replace (length (take k post)) with k by (rewrite length_take; unfold zlen, k in *; lia).
    eexists (state512 m), (t ++ replicate k 0), (drop k post), _.
    split; [reflexivity|]. split; [exact Es|]. split; [apply state512_ok|].
    split; [cbn [set_curlen set_buf buf]; by rewrite app_assoc|].
    split; [rewrite zlen_app; unfold zlen, k in *; rewrite length_replicate; lia|].
    split; [rewrite length_drop; unfold zlen, k in *; lia|]. split; [by apply Forall_app_2|].
    split; [reflexivity|]. unfold t. rewrite <- !app_assoc. cbn [app].
    rewrite (app_assoc (replicate _ _) (replicate 8 0)), <- replicate_add.
    by replace (128 - (length s + 1 + 16) + 8)%nat with k by (unfold zlen, k in *; lia).
Qed.

(** The digest of the standard, with its constants. *)
Definition fips_sha512 (m : list Z) : list Z :=
  Fips180.sha2 64 28 34 39 14 18 41 1 8 7 19 61 6 (Fips180.fips_K 64 80) 128 16 (Fips180.fips_H 64) m.

Lemma constants512 : K = Fips180.fips_K 64 80 /\ init_regs512 = Fips180.fips_H 64.
Proof. split; by vm_compute. Qed.

Lemma sha512_final_spec c m o : absorbed512 c m -> 8 * zlen m < 2 ^ 64 -> length o = 64%nat ->
  exists c', sha512_final (Some c) (Some o) = Some (0, Some c', Some (fips_sha512 m)).
Proof.
  intros Hc Hm Ho. pose proof (md_rest_lt 128 ltac:(lia) m) as Hr. unfold sha512_final.
  destruct (Z.geb_spec (curlen c) 128) as [H|_]; [rewrite (ab_curlen _ _ Hc) in H; unfold zlen in H; lia|].
  destruct (pad_block_spec512 c m Hc Hm (u64 (length512 c + curlen c * 8)))
    as (r & pre & q & c' & -> & Es & Hrk & Eb & Hp & Hq & Hb & El & Eh).
  assert (be_bytes 8 (length512 c') = be_bytes 8 (8 * zlen m)) as E8.
  { rewrite El, (ab_bits _ _ Hc), (ab_curlen _ _ Hc). destruct (rest_parts512 m) as [H1 H2].
    unfold u64. rewrite Zplus_mod_idemp_l. change 18446744073709551616 with (256 ^ Z.of_nat 8).
    rewrite be_bytes_mod. f_equal. lia. }
  rewrite Eb. pose proof (STORE64H_spec pre q [] (length512 c') Hq) as E. rewrite !app_nil_r, Hp in E.
  rewrite E, E8, (sha512_compress_spec _ _ r);
    [|done|done|by apply Forall_app_2; [|apply be_bytes_ok]|
     rewrite length_app, be_bytes_length; unfold zlen in Hp; lia].
  cbn [set_state512 state]. rewrite write_out by done. eexists.
  unfold fips_sha512. rewrite <- (proj1 constants512), <- (proj2 constants512). unfold Fips180.sha2. by rewrite Eh.
Qed.

(** The updates of a list of pieces, one call each. *)
Fixpoint updates512 (c : option sha512_context) (ls : list (list Z)) : option (option sha512_context) :=
  match ls with
  | [] => Some c
  | l :: ls => '(ret, c) <- sha512_update c (Some l) (zlen l);;
               if ret =? 0 then updates512 c ls else None
  end.

Lemma updates_absorbed512 ls : forall c m, absorbed512 c m -> Forall bytes_ok ls ->
  exists c', updates512 (Some c) ls = Some (Some c') /\ absorbed512 c' (m ++ concat ls).
Proof.
  induction ls as [|l ls IH]; intros c m Hm Hl; cbn [updates512 concat].
  - exists c. by rewrite app_nil_r.
  - apply Forall_cons_1 in Hl as [Hl Hls].
    destruct (sha512_update_spec c m l Hm Hl) as (c1 & -> & Hc). cbn [Z.eqb].
    destruct (IH c1 (m ++ l) Hc Hls) as (c' & E' & Hc'). exists c'. by rewrite app_assoc.
Qed.

Lemma sha512_init_absorbed stk : length (buf stk) = 128%nat -> bytes_ok (buf stk) ->
  exists c, sha512_init (Some stk) = (0, Some c) /\ absorbed512 c [].
Proof. intros Hl Hb. eexists. split; [reflexivity|]. constructor; try done. by exists (buf stk). Qed.

(** ** Properties *)

(** C8: initialising a context, absorbing a message in any number of pieces and
    finishing succeeds, terminates and computes the SHA-512 of FIPS 180-4 of the whole
    message, if it has less than 2^61 bytes; [sha512] does the same in one call, and
    without an output buffer it reports an error. *)
Theorem sha512_is_fips180 stk ls out :
  length (buf stk) = 128%nat -> bytes_ok (buf stk) -> Forall bytes_ok ls -> length out = 64%nat ->
  8 * zlen (concat ls) < 2 ^ 64 ->
  (exists c c', updates512 (snd (sha512_init (Some stk))) ls = Some (Some c) /\
     sha512_final (Some c) (Some out) = Some (0, Some c', Some (fips_sha512 (concat ls)))) /\
  sha512 stk (Some (concat ls)) (zlen (concat ls)) (Some out) = Some (0, Some (fips_sha512 (concat ls))) /\
  sha512 stk (Some (concat ls)) (zlen (concat ls)) None = Some (1, None).
Proof.
  intros Hd Hb Hl Ho Hm. destruct (sha512_init_absorbed stk Hd Hb) as (c0 & E0 & Hi). unfold sha512.
  rewrite E0. assert (bytes_ok (concat ls)) as Hc by (by apply Forall_concat).
  destruct (sha512_update_spec c0 [] (concat ls) Hi Hc) as (c & E & Hc'). split_and!.
  - destruct (updates_absorbed512 ls _ [] Hi Hl) as (c1 & E1 & Hc1).
    destruct (sha512_final_spec c1 _ out Hc1 Hm Ho) as (c2 & E2). by exists c1, c2.
  - cbn [negb Z.eqb]. rewrite E. cbn [negb Z.eqb].
    destruct (sha512_final_spec c _ out Hc' Hm Ho) as (c2 & E2). by rewrite E2.
  - cbn [negb Z.eqb]. by rewrite E.
Qed.

(** ** Concrete instances *)

Lemma sha512_is_fips180_witness :
  (exists c c', updates512 (snd (sha512_init (Some (mk512 3 [] 5 (replicate 128 7))))) [[97; 98]; [99]] = Some (Some c) /\
     sha512_final (Some c) (Some (replicate 64 0)) = Some (0, Some c', Some (fips_sha512 [97; 98; 99]))) /\
  sha512 (mk512 3 [] 5 (replicate 128 7)) (Some [97; 98; 99]) 3 (Some (replicate 64 0)) =
    Some (0, Some (fips_sha512 [97; 98; 99])) /\
  sha512 (mk512 3 [] 5 (replicate 128 7)) (Some [97; 98; 99]) 3 None = Some (1, None).
Proof.
  apply (sha512_is_fips180 (mk512 3 [] 5 (replicate 128 7)) [[97; 98]; [99]] (replicate 64 0));
    [reflexivity| |repeat constructor; lia|reflexivity|reflexivity].
  apply Forall_replicate. split; lia.
Defined.

(** The digest of the three letters abc that the standard gives. *)
Lemma fips_sha512_abc : take 8 (fips_sha512 [97; 98; 99]) = [0xdd; 0xaf; 0x35; 0xa1; 0x93; 0x61; 0x7a; 0xba].
Proof. by vm_compute. Qed.

End Sha512.
