(* ===== verification/Sha1.v ===== *)
(** * SHA-1 and HMAC-SHA1 ([src/utility/crypto/hash/sha1.cpp],
    [src/utility/crypto/hmac/hmac_sha1.h])

    The transform with its eighty unrolled rounds over a block of sixteen words that is
    expanded in place, the functions that absorb and finish a message, and the keyed
    hash over them.  The theorems: any sequence of updates followed by the final call
    computes the SHA-1 of FIPS 180-4, and [hmac_sha1] the HMAC of RFC 2104.

    The machine is little-endian, as the devices are, so [blk0] is [blk0_le]. *)

From stdpp Require Import base option list numbers.
From Stdlib Require Import ZArith Lia Btauto.
From S2P Require Import Prelude Words Md Fips180.
Import Md.

Open Scope Z_scope.

Module Sha1.

(** ** The code *)

Definition rol (value bits : Z) : Z := Z.lor (u32 (Z.shiftl value bits)) (Z.shiftr value (32 - bits)).

(** The words [l] of the union, from the bytes [c]. *)
Definition le_word (c : list Z) (i : Z) : option Z :=
  c0 <- mget c (4 * i);; c1 <- mget c (4 * i + 1);; c2 <- mget c (4 * i + 2);; c3 <- mget c (4 * i + 3);;
  Some (c0 + 256 * c1 + 65536 * c2 + 16777216 * c3).

Definition union_words (c : list Z) : option (list Z) :=
  for_loop 16 0 (fun i l => x <- le_word c i;; Some (l ++ [x])) [].

(** [blk0(i)] and [blk(i)]: the value and the words with it stored. *)
Definition blk0 (i : Z) (l : list Z) : option (Z * list Z) :=
  x <- mget l i;;
  let v := Z.lor (Z.land (rol x 24) 0xFF00FF00) (Z.land (rol x 8) 0x00FF00FF) in
  l <- mset l i v;; Some (v, l).

Definition blk (i : Z) (l : list Z) : option (Z * list Z) :=
  x13 <- mget l (Z.land (i + 13) 15);; x8 <- mget l (Z.land (i + 8) 15);;
  x2 <- mget l (Z.land (i + 2) 15);; x0 <- mget l (Z.land i 15);;
  let v := rol (Z.lxor (Z.lxor (Z.lxor x13 x8) x2) x0) 1 in
  l <- mset l (Z.land i 15) v;; Some (v, l).

(** What the macros [R0] to [R4] share: [z += f(w, x, y) + b + k + rol(v, 5); w = rol(w, 30)]
    on the registers with the indices [v] to [z]. *)
Definition RX (f : Z -> Z -> Z -> Z) (k : Z) (bl : Z -> list Z -> option (Z * list Z))
    (v w x y z i : Z) (s : list Z * list Z) : option (list Z * list Z) :=
  let '(r, l) := s in
  rv <- mget r v;; rw <- mget r w;; rx <- mget r x;; ry <- mget r y;; rz <- mget r z;;
  '(b, l) <- bl i l;;
  r <- mset r z (u32 (rz + (f rw rx ry + b + k + rol rv 5)));;
  r <- mset r w (rol rw 30);;
  Some (r, l).

Definition R0 := RX (fun w x y => Z.lxor (Z.land w (Z.lxor x y)) y) 0x5A827999 blk0.
Definition R1 := RX (fun w x y => Z.lxor (Z.land w (Z.lxor x y)) y) 0x5A827999 blk.
Definition R2 := RX (fun w x y => Z.lxor (Z.lxor w x) y) 0x6ED9EBA1 blk.
Definition R3 := RX (fun w x y => Z.lor (Z.land (Z.lor w x) y) (Z.land w x)) 0x8F1BBCDC blk.
Definition R4 := RX (fun w x y => Z.lxor (Z.lxor w x) y) 0xCA62C1D6 blk.

(** Line [i] of the eighty: the macro, and the registers a to e rotated by [i]. *)
Definition line (i : Z) (s : list Z * list Z) : option (list Z * list Z) :=
  let R := if i <? 16 then R0 else if i <? 20 then R1 else if i <? 40 then R2
           else if i <? 60 then R3 else R4 in
  R ((- i) mod 5) ((1 - i) mod 5) ((2 - i) mod 5) ((3 - i) mod 5) ((4 - i) mod 5) i s.

Definition SHA1Transform (state buffer : list Z) : option (list Z) :=
  b <- msub buffer 0 64;;
  l <- union_words b;;
  '(r, _) <- for_loop 80 0 line (state, l);;
  match state, r with
  | [s0; s1; s2; s3; s4], [a; b; c; d; e] =>
      Some [u32 (s0 + a); u32 (s1 + b); u32 (s2 + c); u32 (s3 + d); u32 (s4 + e)]
  | _, _ => None
  end.

Record SHA1_CTX := mkSHA1 { state : list Z; count0 : Z; count1 : Z; buffer : list Z }.

Definition SHA1Init (context : SHA1_CTX) : SHA1_CTX :=
  mkSHA1 [0x67452301; 0xEFCDAB89; 0x98BADCFE; 0x10325476; 0xC3D2E1F0] 0 0 (buffer context).

(** [for (; i + 63 < len; i += 64) SHA1Transform(context->state, &data[i])] *)
Fixpoint block_loop (fuel : nat) (st data : list Z) (i len : Z) : option (list Z * Z) :=
  match fuel with
  | O => None
  | S fuel =>
      if u32 (i + 63) <? len then
        b <- msub data i 64;;
        st <- SHA1Transform st b;;
        block_loop fuel st data (u32 (i + 64)) len
      else Some (st, i)
  end.

Definition SHA1Update (context : SHA1_CTX) (data : list Z) (len : Z) : option SHA1_CTX :=
  let j := count0 context in
  let c0 := u32 (count0 context + u32 (Z.shiftl len 3)) in
  let c1 := if c0 <? j then u32 (count1 context + 1) else count1 context in
  let c1 := u32 (c1 + Z.shiftr len 29) in
  let j := Z.land (Z.shiftr j 3) 63 in
  '(st, buf, i, j) <-
    (if u32 (j + len) >? 63 then
       let i := 64 - j in
       d <- msub data 0 i;;
       buf <- mcpy (buffer context) j d;;
       st <- SHA1Transform (state context) buf;;
       '(st, i) <- block_loop (S (Z.to_nat len)) st data i len;;
       Some (st, buf, i, 0)
     else Some (state context, buffer context, 0, j));;
  d <- msub data i (len - i);;
  buf <- mcpy buf j d;;
  Some (mkSHA1 st c0 c1 buf).

(** The zeros of the padding: at most 63 of them. *)
Fixpoint zero_pad_loop (fuel : nat) (context : SHA1_CTX) : option SHA1_CTX :=
  match fuel with
  | O => None
  | S fuel =>
      if Z.land (count0 context) 504 =? 448 then Some context
      else context <- SHA1Update context [0] 1;; zero_pad_loop fuel context
  end.

(** [SHA1Final]: the digest, and the context wiped. *)
Definition SHA1Final (digest : list Z) (context : SHA1_CTX) : option (list Z * SHA1_CTX) :=
  let byte i := Z.land (Z.shiftr (if i >=? 4 then count0 context else count1 context)
                  ((3 - Z.land i 3) * 8)) 255 in
  let finalcount := map byte [0; 1; 2; 3; 4; 5; 6; 7] in
  context <- SHA1Update context [128] 1;;
  context <- zero_pad_loop 64 context;;
  context <- SHA1Update context finalcount 8;;
  digest <- for_loop 20 0 (fun i d =>
              s <- mget (state context) (Z.shiftr i 2);;
              mset d i (Z.land (Z.shiftr s ((3 - Z.land i 3) * 8)) 255)) digest;;
  Some (digest, mkSHA1 (replicate 5 0) 0 0 (replicate 64 0)).

(** [SHA1(hash_out, str, len)]; [stk] is the local context before [SHA1Init]. *)
Definition SHA1 (stk : SHA1_CTX) (hash_out str : list Z) (len : Z) : option (list Z) :=
  ctx <- for_loop (Z.to_nat len) 0 (fun ii ctx =>
           c <- msub str ii 1;; SHA1Update ctx c 1) (SHA1Init stk);;
  '(hash_out, _) <- SHA1Final hash_out ctx;;
  Some hash_out.

(** [hmac_sha1]; the local arrays [tk] and [temp] and the contexts of the calls have no
    initial value; [inner] and [outer] are written in full before they are read. *)
Definition hmac_sha1 (stk : SHA1_CTX) (tk temp key : list Z) (key_len : Z) (data : list Z)
    (data_len : Z) (output : list Z) : option (list Z) :=
  '(key, key_len) <-
    (if key_len >? 64 then tk <- SHA1 stk tk key key_len;; Some (tk, 20)
     else Some (key, key_len));;
  k <- msub key 0 key_len;;
  k_ipad <- mcpy (replicate 64 0) 0 k;;
  k_opad <- mcpy (replicate 64 0) 0 k;;
  '(k_ipad, k_opad) <- for_loop 64 0 (fun i s =>
      let '(ip, op) := s in
      x <- mget ip i;; ip <- mset ip i (Z.lxor x 0x36);;
      y <- mget op i;; op <- mset op i (Z.lxor y 0x5c);;
      Some (ip, op)) (k_ipad, k_opad);;
  d <- msub data 0 data_len;;
  inner <- mcpy (replicate (Z.to_nat (u32 (64 + data_len))) 0) 0 k_ipad;;
  inner <- mcpy inner 64 d;;
  temp <- SHA1 stk temp inner (u32 (64 + data_len));;
  outer <- mcpy (replicate 84 0) 0 k_opad;;
  outer <- mcpy outer 64 temp;;
  SHA1 stk output outer 84.

(** ** The transform *)

Abbreviation regs5 := Fips180.regs5.
Abbreviation regs5_list := Fips180.regs5_list.
Abbreviation regs5_ok := Fips180.regs5_ok.

Lemma rol_spec x n : word_ok 32 x -> 0 <= n <= 32 -> rol x n = Fips180.rotl n x.
Proof.
  intros Hx Hn. unfold rol, Fips180.rotl. rewrite Z.lor_comm, u32_mod.
  rewrite <- rotr_shifts by (done || lia). do 3 f_equal. lia.
Qed.

(** *** The byte order of the words *)

Lemma be4_testbit a b c d n : byte_ok a -> byte_ok b -> byte_ok c -> byte_ok d -> 0 <= n ->
  Z.testbit (be_val [a; b; c; d]) n =
  Z.testbit a (n - 24) || Z.testbit b (n - 16) || Z.testbit c (n - 8) || Z.testbit d n.
Proof.
  intros. rewrite <- lor_be4 by done. by rewrite !Z.lor_spec, !Z.shiftl_spec by done.
Qed.

Lemma byte_high x n : byte_ok x -> 8 <= n -> Z.testbit x n = false.
Proof.
  unfold byte_ok. intros Hx Hn. rewrite <- (Z.mod_small x (2 ^ 8)) by lia.
  by rewrite Z.mod_pow2_bits_high by lia.
Qed.

(** The two masks keep alternate bytes. *)
Lemma masks_merge a b c d : byte_ok a -> byte_ok b -> byte_ok c -> byte_ok d ->
  Z.lor (Z.land (be_val [a; d; c; b]) 0xFF00FF00) (Z.land (be_val [c; b; a; d]) 0x00FF00FF) =
  be_val [a; b; c; d].
Proof.
  intros Ha Hb Hc Hd. apply Z.bits_inj'. intros n Hn.
  rewrite Z.lor_spec, !Z.land_spec, !be4_testbit by done.
  destruct (decide (32 <= n)) as [H|H].
  - rewrite !(byte_high a), !(byte_high b), !(byte_high c), !(byte_high d) by (done || lia). done.
  - assert (forall P : Z -> Prop, Forall P (seqZ 0 32) -> P n) as HP.
    { intros P HF. rewrite Forall_forall in HF. apply HF, list_elem_of_In, elem_of_seqZ. lia. }
    apply HP. clear n Hn H HP.
    let l := eval vm_compute in (seqZ 0 32) in change (seqZ 0 32) with l.
    repeat (apply Forall_cons_2; [cbv beta;
      repeat match goal with
      | |- context [Z.sub ?x ?y] => let v := eval vm_compute in (x - y) in change (x - y) with v
      | |- context [Z.testbit ?x (Z.neg ?p)] => rewrite (Z.testbit_neg_r x (Z.neg p)) by lia
      | |- context [Z.testbit ?x (Z.pos ?p)] => rewrite (byte_high x (Z.pos p)) by (assumption || lia)
      end;
      repeat match goal with |- context [Z.testbit (Z.pos ?p) ?i] =>
        let v := eval vm_compute in (Z.testbit (Z.pos p) i) in change (Z.testbit (Z.pos p) i) with v end;
      btauto|]).
    constructor.
Qed.

Lemma blk0_swap a b c d (x := a + 256 * b + 65536 * c + 16777216 * d) :
  byte_ok a -> byte_ok b -> byte_ok c -> byte_ok d ->
  Z.lor (Z.land (rol x 24) 0xFF00FF00) (Z.land (rol x 8) 0x00FF00FF) = be_val [a; b; c; d].
Proof.
  intros Ha Hb Hc Hd. unfold byte_ok in *. assert (word_ok 32 x) as Hx by (unfold word_ok, x; lia).
  rewrite !rol_spec by (done || lia). unfold Fips180.rotl, rotr.
  replace (x / 2 ^ (32 - 24) + x mod 2 ^ (32 - 24) * 2 ^ (32 - (32 - 24))) with (be_val [a; d; c; b])
    by (unfold be_val, x; cbn -[Z.mul Z.add]; change (2 ^ (32 - 24)) with 256;
        change (2 ^ (32 - (32 - 24))) with 16777216; div_lia).
  replace (x / 2 ^ (32 - 8) + x mod 2 ^ (32 - 8) * 2 ^ (32 - (32 - 8))) with (be_val [c; b; a; d])
    by (unfold be_val, x; cbn -[Z.mul Z.add]; change (2 ^ (32 - 8)) with 16777216;
        change (2 ^ (32 - (32 - 8))) with 256; div_lia).
  by apply masks_merge.
Qed.

Lemma le_word_sub c n : (4 * n + 4 <= length c)%nat -> bytes_ok c ->
  exists x, le_word c (Z.of_nat n) = Some x /\
    Z.lor (Z.land (rol x 24) 0xFF00FF00) (Z.land (rol x 8) 0x00FF00FF) =
    be_val (take 4 (drop (4 * n) c)).
Proof.
  intros Hn Hc. set (l := take 4 (drop (4 * n) c)).
  assert (bytes_ok l) as Hl by (by apply Forall_take, Forall_drop).
  assert (forall j, 0 <= j < 4 -> mget c (4 * Z.of_nat n + j) = mget l j) as Hj.
  { intros j Hj. unfold l, mget. destruct (Z.leb_spec 0 (4 * Z.of_nat n + j)); [|lia].
    destruct (Z.leb_spec 0 j); [|lia]. rewrite lookup_take_lt, lookup_drop by lia. f_equal. lia. }
  assert (length l = 4%nat) as Hlen by (unfold l; rewrite length_take, length_drop; lia).
  unfold le_word. pose proof (Hj 0) as H0. rewrite Z.add_0_r in H0. rewrite H0, !Hj by lia.
  clearbody l. destruct l as [|a [|b [|d [|e [|]]]]]; try done.
  repeat (apply Forall_cons_1 in Hl as [? Hl]). eexists. split; [reflexivity|]. by apply blk0_swap.
Qed.

Lemma union_words_spec c : length c = 64%nat -> bytes_ok c ->
  exists l, union_words c = Some l /\ length l = 16%nat /\
    forall k, (k < 16)%nat ->
      Z.lor (Z.land (rol (l !!! k) 24) 0xFF00FF00) (Z.land (rol (l !!! k) 8) 0x00FF00FF) =
      Fips180.be_words 4 16 c !!! k.
Proof.
  intros Hl Hc. unfold union_words.
  set (good := fun l : list Z => forall k, (k < length l)%nat ->
    Z.lor (Z.land (rol (l !!! k) 24) 0xFF00FF00) (Z.land (rol (l !!! k) 8) 0x00FF00FF) =
    Fips180.be_words 4 16 c !!! k).
  destruct (for_loop_inv (fun i l => zlen l = i /\ good l) 16 0
    (fun i l => x <- le_word c i;; Some (l ++ [x])) []) as (l & -> & Hll & Hg).
  - intros i l Hi [Ei Hg]. destruct (le_word_sub c (Z.to_nat i)) as (x & E & Hx); [lia|done|].
    rewrite Z2Nat.id in E by lia. rewrite E. eexists. split; [reflexivity|].
    split; [rewrite zlen_app, Ei; done|]. intros k Hk. rewrite length_app in Hk. cbn [length] in Hk.
    destruct (decide (k < length l)%nat) as [H|H].
    + rewrite lookup_total_app_l by done. by apply Hg.
    + rewrite lookup_total_app_r by lia. replace (k - length l)%nat with 0%nat by lia.
      cbn [lookup_total list_lookup_total]. rewrite Hx. symmetry. apply list_lookup_total_correct.
      unfold zlen in Ei. replace (Z.to_nat i) with k by lia. apply Fips180.be_words_lookup. lia.
  - split; [done|]. intros k Hk. simpl in Hk. lia.
  - exists l. split; [done|]. unfold zlen in Hll. split; [lia|]. intros k Hk. apply Hg. lia.
Qed.

(** *** The circular block

    Before round [t] word [k] of the block is the last word of the schedule with an
    index below [t] that is [k] modulo 16, or the word read from memory. *)
Definition block_word (W mem : list Z) (t k : Z) : Z :=
  let s := t - 16 + (k - t) mod 16 in
  if s <? 0 then mem !!! Z.to_nat k else W !!! Z.to_nat s.

Definition block_at (W mem : list Z) (t : Z) (l : list Z) : Prop :=
  zlen l = 16 /\ forall k, 0 <= k < 16 -> mget l k = Some (block_word W mem t k).

Lemma land_15 i : Z.land i 15 = i mod 16.
Proof. change 15 with (Z.ones 4). by rewrite Z.land_ones by lia. Qed.

Lemma mget_mset m i v m' : mset m i v = Some m' ->
  zlen m' = zlen m /\ mget m' i = Some v /\ forall k, k <> i -> mget m' k = mget m k.
Proof.
  intros E. unfold mset in E. destruct (Z.leb_spec 0 i); [|done].
  destruct (Z.ltb_spec i (zlen m)); [|done]. simplify_eq/=. split_and!.
  - unfold zlen. by rewrite length_insert.
  - unfold mget. destruct (Z.leb_spec 0 i); [|lia]. apply list_lookup_insert_eq. unfold zlen in *. lia.
  - intros k Hk. unfold mget. destruct (Z.leb_spec 0 k); [|done]. apply list_lookup_insert_ne. lia.
Qed.

(** Storing word [t] moves the block on. *)
Lemma block_store W mem t l : 0 <= t -> block_at W mem t l ->
  exists l', mset l (t mod 16) (W !!! Z.to_nat t) = Some l' /\ block_at W mem (t + 1) l'.
Proof.
  intros Ht [Hl Hk]. pose proof (Z.mod_pos_bound t 16 ltac:(lia)).
  pose proof (mset_Some l (t mod 16) (W !!! Z.to_nat t) ltac:(lia)) as E.
  eexists. split; [exact E|]. destruct (mget_mset _ _ _ _ E) as (E1 & E2 & E3).
  split; [lia|]. intros k Hr. destruct (decide (k = t mod 16)) as [->|Hne].
  - rewrite E2. unfold block_word. f_equal.
    replace (t + 1 - 16 + (t mod 16 - (t + 1)) mod 16) with t by div_lia.
    destruct (Z.ltb_spec t 0); [lia|done].
  - rewrite E3, Hk by done. unfold block_word. f_equal.
    replace (t + 1 - 16 + (k - (t + 1)) mod 16) with (t - 16 + (k - t) mod 16) by div_lia. done.
Qed.

Section words.
Context (c mem : list Z).
Context (Hmem : forall k, (k < 16)%nat ->
  Z.lor (Z.land (rol (mem !!! k) 24) 0xFF00FF00) (Z.land (rol (mem !!! k) 8) 0x00FF00FF) =
  Fips180.be_words 4 16 c !!! k).
Context (Hc : length c = 64%nat) (Hb : bytes_ok c).

Abbreviation W := (Fips180.sha1_schedule 64 (Fips180.be_words 4 16 c)).

Lemma blk0_spec t l : 0 <= t < 16 -> block_at W mem t l ->
  exists l', blk0 t l = Some (W !!! Z.to_nat t, l') /\ block_at W mem (t + 1) l'.
Proof.
  intros Ht Hl. destruct (block_store W mem t l) as (l' & E & Hl'); [lia|done|].
  rewrite Z.mod_small in E by lia. unfold blk0. rewrite (proj2 Hl t) by lia.
  replace (block_word W mem t t) with (mem !!! Z.to_nat t).
  2: { unfold block_word. rewrite Z.sub_diag. change (0 mod 16) with 0.
       destruct (Z.ltb_spec (t - 16 + 0) 0); [done|lia]. }
  rewrite Hmem by lia.
  assert (Fips180.be_words 4 16 c !!! Z.to_nat t = W !!! Z.to_nat t) as ->.
  { rewrite !list_lookup_total_alt, Fips180.sha1_schedule_prefix; [done|].
    rewrite Fips180.be_words_length. lia. }
  rewrite E. by exists l'.
Qed.

Lemma schedule_words_ok n V : (16 <= length V)%nat -> Forall (word_ok 32) V ->
  Forall (word_ok 32) (Fips180.sha1_schedule n V).
Proof.
  revert V. induction n as [|n IH]; intros V Hl HV; [done|]. cbn [Fips180.sha1_schedule].
  apply IH; [rewrite length_app; lia|]. apply Forall_app_2; [done|]. apply Forall_singleton.
  apply Fips180.rotl_ok; [lia|]. repeat apply lxor_ok; try lia; apply total_ok; auto; lia.
Qed.

Lemma W_ok t : (t < 80)%nat -> word_ok 32 (W !!! t).
Proof.
  intros Ht. apply total_ok.
  - apply schedule_words_ok; [rewrite Fips180.be_words_length; lia|].
    apply (Fips180.be_words_ok 4); [done|lia].
  - rewrite Fips180.sha1_schedule_length, Fips180.be_words_length. lia.
Qed.

Lemma W_next t : (16 <= t < 80)%nat ->
  W !!! t = Fips180.rotl 1 (Z.lxor (Z.lxor (Z.lxor (W !!! (t - 3)%nat) (W !!! (t - 8)%nat))
              (W !!! (t - 14)%nat)) (W !!! (t - 16)%nat)).
Proof.
  intros Ht. rewrite (list_lookup_total_alt W t), Fips180.sha1_schedule_lookup
    by (rewrite Fips180.be_words_length; lia).
  cbn [default]. unfold Fips180.sha1_next.
  assert (length W = 80%nat) as HW by (rewrite Fips180.sha1_schedule_length, Fips180.be_words_length; lia).
  generalize dependent W. intros V HV.
  rewrite length_take. replace (t `min` length V)%nat with t by lia.
  by rewrite !lookup_total_take_lt by lia.
Qed.

Lemma blk_spec t l : 16 <= t < 80 -> block_at W mem t l ->
  exists l', blk t l = Some (W !!! Z.to_nat t, l') /\ block_at W mem (t + 1) l'.
Proof.
  intros Ht Hl. destruct (block_store W mem t l) as (l' & E & Hl'); [lia|done|].
  unfold blk. rewrite !land_15.
  assert (forall j, 0 <= j < 16 -> mget l ((t + j) mod 16) = Some (W !!! (Z.to_nat t - (16 - Z.to_nat j))%nat)) as Hw.
  { intros j Hj. rewrite (proj2 Hl) by (apply Z.mod_pos_bound; lia). unfold block_word.
    replace (t - 16 + ((t + j) mod 16 - t) mod 16) with (t - 16 + j) by div_lia.
    destruct (Z.ltb_spec (t - 16 + j) 0); [lia|]. do 2 f_equal. lia. }
  pose proof (Hw 0) as H0. rewrite Z.add_0_r in H0. rewrite H0, !Hw by lia.
  assert (forall j, (j < 80)%nat -> word_ok 32 (W !!! j)) as HW by apply W_ok.
  rewrite rol_spec; [|do 3 (apply lxor_ok; [lia| |apply HW; lia]); apply HW; lia|lia].
  change (16 - Z.to_nat 13)%nat with 3%nat. change (16 - Z.to_nat 8)%nat with 8%nat.
  change (16 - Z.to_nat 2)%nat with 14%nat. change (16 - Z.to_nat 0)%nat with 16%nat.
  rewrite <- W_next by lia. rewrite E. by exists l'.
Qed.

End words.

(** *** The rounds

    Before round [t] position [p] of the registers holds register [(p + t) mod 5] of the
    standard. *)
Definition rot5 (j : Z) (r : regs5) : list Z :=
  drop (Z.to_nat j) (regs5_list r) ++ take (Z.to_nat j) (regs5_list r).

Lemma RX_spec f k bl i l b l' r : bl i l = Some (b, l') ->
  RX f k bl ((- i) mod 5) ((1 - i) mod 5) ((2 - i) mod 5) ((3 - i) mod 5) ((4 - i) mod 5) i
    (rot5 (i mod 5) r, l) =
  let '(Fips180.mkRegs5 ra rb rc rd re) := r in
  Some (rot5 ((i + 1) mod 5) (Fips180.mkRegs5 (u32 (re + (f rb rc rd + b + k + rol ra 5))) ra (rol rb 30) rc rd), l').
Proof.
  intros E. destruct r as [ra rb rc rd re]. unfold RX. rewrite E.
  assert (i mod 5 = 0 \/ i mod 5 = 1 \/ i mod 5 = 2 \/ i mod 5 = 3 \/ i mod 5 = 4) as Hc
    by (pose proof (Z.mod_pos_bound i 5 ltac:(lia)); lia).
  assert (forall a c d, i mod 5 = d -> (a - d) mod 5 = c -> (a - i) mod 5 = c) as Hm by (intros; div_lia).
  assert (forall c d, i mod 5 = d -> (d + 1) mod 5 = c -> (i + 1) mod 5 = c) as Hp by (intros; div_lia).
  change (- i) with (0 - i).
  destruct Hc as [H|[H|[H|[H|H]]]];
    erewrite (Hm 0), (Hm 1), (Hm 2), (Hm 3), (Hm 4), Hp by (exact H || reflexivity); rewrite H;
    by cbv -[rol u32 Z.add].
Qed.

Lemma Ch_alt x y z : Z.lxor (Z.land x (Z.lxor y z)) z = Fips180.Ch x y z.
Proof.
  unfold Fips180.Ch. apply Z.bits_inj'. intros n Hn.
  rewrite !Z.lxor_spec, !Z.land_spec, !Z.lxor_spec, Z.lnot_spec by done. btauto.
Qed.

Lemma Maj_alt x y z : Z.lor (Z.land (Z.lor x y) z) (Z.land x y) = Fips180.Maj x y z.
Proof. unfold Fips180.Maj. bitwise. Qed.

Lemma line_spec c mem t l r :
  (forall k, (k < 16)%nat ->
    Z.lor (Z.land (rol (mem !!! k) 24) 0xFF00FF00) (Z.land (rol (mem !!! k) 8) 0x00FF00FF) =
    Fips180.be_words 4 16 c !!! k) -> length c = 64%nat -> bytes_ok c ->
  let W := Fips180.sha1_schedule 64 (Fips180.be_words 4 16 c) in
  0 <= t < 80 -> regs5_ok r -> block_at W mem t l ->
  exists l', line t (rot5 (t mod 5) r, l) =
    Some (rot5 ((t + 1) mod 5) (Fips180.sha1_round (Z.to_nat t) (W !!! Z.to_nat t) r), l') /\
    block_at W mem (t + 1) l'.
Proof.
  intros Hmem Hc Hb W Ht Hr Hl. unfold line.
  assert (forall f k bl l', bl t l = Some (W !!! Z.to_nat t, l') ->
    (forall x y z, f x y z = Fips180.sha1_f (Z.to_nat t) x y z) -> k = Fips180.sha1_k (Z.to_nat t) ->
    RX f k bl ((- t) mod 5) ((1 - t) mod 5) ((2 - t) mod 5) ((3 - t) mod 5) ((4 - t) mod 5) t
      (rot5 (t mod 5) r, l) =
    Some (rot5 ((t + 1) mod 5) (Fips180.sha1_round (Z.to_nat t) (W !!! Z.to_nat t) r), l')) as HR.
  { intros f k bl l' E Ef ->. rewrite (RX_spec f _ bl t l _ l' r E).
    destruct r as [ra rb rc rd re]. unfold Fips180.regs5_ok, regs5_list in Hr. cbn in Hr.
    apply Forall_cons_1 in Hr as [Ha Hr]. apply Forall_cons_1 in Hr as [Hrb _].
    unfold Fips180.sha1_round. rewrite Ef, !rol_spec by (done || lia). rewrite u32_mod.
    match goal with |- context [(re + ?x) mod _] =>
      replace (re + x) with (Fips180.rotl 5 ra + Fips180.sha1_f (Z.to_nat t) rb rc rd + re +
        Fips180.sha1_k (Z.to_nat t) + W !!! Z.to_nat t) by lia end. reflexivity. }
  destruct (Z.ltb_spec t 16) as [H16|H16].
  { destruct (blk0_spec c mem Hmem Hc t l) as (l' & E & Hl'); [lia|done|]. exists l'. split; [|done].
    apply HR; [done|intros x y z; rewrite Ch_alt|]; unfold Fips180.sha1_f, Fips180.sha1_k;
      by destruct (Nat.ltb_spec (Z.to_nat t) 20); [|lia]. }
  destruct (blk_spec c mem Hc Hb t l) as (l' & E & Hl'); [lia|done|]. exists l'. split; [|done].
  destruct (Z.ltb_spec t 20), (Z.ltb_spec t 40), (Z.ltb_spec t 60); try lia;
    (apply HR; [done|intros x y z; rewrite ?Ch_alt, ?Maj_alt|]; unfold Fips180.sha1_f, Fips180.sha1_k;
     destruct (Nat.ltb_spec (Z.to_nat t) 20), (Nat.ltb_spec (Z.to_nat t) 40), (Nat.ltb_spec (Z.to_nat t) 60);
     (lia || reflexivity)).
Qed.

Lemma sha1_rounds_snoc W x r : forall t,
  Fips180.sha1_rounds t (W ++ [x]) r = Fips180.sha1_round (t + length W) x (Fips180.sha1_rounds t W r).
Proof.
  revert r. induction W as [|w W IH]; intros r t; cbn [Fips180.sha1_rounds app length].
  - by rewrite Nat.add_0_r.
  - rewrite IH. f_equal. lia.
Qed.

Lemma SHA1Transform_spec r c : regs5_ok r -> bytes_ok c -> length c = 64%nat ->
  SHA1Transform (regs5_list r) c = Some (regs5_list (Fips180.sha1_compress r c)).
Proof.
  intros Hr Hb Hc. unfold SHA1Transform.
  pose proof (msub_app_mid [] c []) as E. rewrite app_nil_r in E. unfold zlen in E. rewrite Hc in E.
  cbn [app length] in E. change (Z.of_nat 0) with 0 in E. change (Z.of_nat 64) with 64 in E. rewrite E. clear E.
  destruct (union_words_spec c Hc Hb) as (mem & -> & Hl & Hmem).
  set (W := Fips180.sha1_schedule 64 (Fips180.be_words 4 16 c)).
  assert (length W = 80%nat) as HW
    by (unfold W; rewrite Fips180.sha1_schedule_length, Fips180.be_words_length; lia).
  destruct (for_loop_inv (fun t s => exists l, block_at W mem t l /\
      regs5_ok (Fips180.sha1_rounds 0 (take (Z.to_nat t) W) r) /\
      s = (rot5 (t mod 5) (Fips180.sha1_rounds 0 (take (Z.to_nat t) W) r), l)) 80 0 line (regs5_list r, mem))
    as (s & -> & l & _ & _ & ->).
  - intros t s Ht (l & Hbl & Hok & ->).
    destruct (line_spec c mem t l _ Hmem Hc Hb ltac:(lia) Hok Hbl) as (l' & -> & Hl'). fold W in Hl' |- *.
    replace (Z.to_nat (t + 1)) with (S (Z.to_nat t)) by lia.
    assert (W !! Z.to_nat t = Some (W !!! Z.to_nat t)) as Ew by (apply list_lookup_lookup_total_lt; lia).
    rewrite (take_S_r _ _ _ Ew), sha1_rounds_snoc, length_take, Nat.min_l, Nat.add_0_l by lia.
    eexists. split; [reflexivity|]. exists l'. split; [done|]. split; [by apply Fips180.sha1_round_ok|done].
  - exists mem. split; [|split; [done|]].
    + split; [unfold zlen; lia|]. intros k Hk. unfold block_word.
      destruct (Z.ltb_spec (0 - 16 + (k - 0) mod 16) 0); [|div_lia].
      rewrite mget_Some by (unfold zlen; lia). done.
    + unfold rot5. change (Z.to_nat (0 mod 5)) with 0%nat. change (Z.to_nat 0) with 0%nat.
      cbn [drop take Fips180.sha1_rounds]. by rewrite app_nil_r.
  - change (Z.to_nat (0 + Z.of_nat 80)) with 80%nat. rewrite take_ge by lia.
    change ((0 + Z.of_nat 80) mod 5) with 0. unfold Fips180.sha1_compress. fold W.
    generalize (Fips180.sha1_rounds 0 W r) as r'. intros [a' b' c' d' e']. by destruct r.
Qed.

(** ** Contexts *)

Abbreviation state1 := (md_state 64 Fips180.sha1_compress Fips180.sha1_init).
Abbreviation rest1 := (md_rest 64).

(** The context after the bytes [m]. *)
Record sha1_absorbed (c : SHA1_CTX) (m : list Z) : Prop := {
  ab1_state : state c = regs5_list (state1 m);
  ab1_length : length (buffer c) = 64%nat;
  ab1_bytes : bytes_ok (buffer c);
  ab1_rest : exists post, buffer c = rest1 m ++ post;
  ab1_count0 : count0 c = (8 * zlen m) mod 2 ^ 32;
  ab1_count1 : count1 c = (8 * zlen m / 2 ^ 32) mod 2 ^ 32 }.

Lemma state1_ok m : regs5_ok (state1 m).
Proof. apply Fips180.sha1_state_ok. repeat (constructor; [by vm_compute|]). constructor. Qed.

Lemma zlen_rest1 m : zlen (rest1 m) = zlen m mod 64 /\ 0 <= zlen (rest1 m) < 64.
Proof.
  unfold zlen. pose proof (md_rest_lt 64 ltac:(lia) m). rewrite md_rest_length by lia.
  rewrite Nat2Z.inj_mod. split; [done|]. apply Z.mod_pos_bound. lia.
Qed.

(** The position in the buffer, from the count. *)
Lemma count_pos m : Z.land (Z.shiftr ((8 * zlen m) mod 2 ^ 32) 3) 63 = zlen (rest1 m).
Proof.
  rewrite (proj1 (zlen_rest1 m)), Z.shiftr_div_pow2 by lia. change 63 with (Z.ones 6).
  rewrite Z.land_ones by lia. change (2 ^ 32) with 4294967296. change (2 ^ 3) with 8. change (2 ^ 6) with 64.
  div_lia.
Qed.

(** The count of [SHA1Update], with its carry. *)
Lemma count_add n len : 0 <= n -> 0 <= len < 2 ^ 32 ->
  let c0 := (8 * n) mod 2 ^ 32 in
  let c0' := u32 (c0 + u32 (Z.shiftl len 3)) in
  let c1 := (8 * n / 2 ^ 32) mod 2 ^ 32 in
  c0' = (8 * (n + len)) mod 2 ^ 32 /\
  u32 ((if c0' <? c0 then u32 (c1 + 1) else c1) + Z.shiftr len 29) = (8 * (n + len) / 2 ^ 32) mod 2 ^ 32.
Proof.
  intros Hn Hl c0 c0' c1. rewrite Z.shiftr_div_pow2 by lia.
  unfold c0', c1, c0, u32. rewrite Z.shiftl_mul_pow2 by lia.
  change (2 ^ 3) with 8. change (2 ^ 32) with 4294967296 in *. change (2 ^ 29) with 536870912.
  split; [div_lia|].
  destruct (Z.ltb_spec ((8 * n mod 4294967296 + (len * 8) mod 4294967296) mod 4294967296)
    (8 * n mod 4294967296)); div_lia.
Qed.

(** *** Absorbing *)

Lemma block_loop_spec fuel : forall m pre l, rest1 m = [] -> bytes_ok l -> (length l < fuel)%nat ->
  zlen (pre ++ l) < 2 ^ 32 - 64 ->
  exists l1 l2, l = l1 ++ l2 /\ zlen l2 < 64 /\ rest1 (m ++ l1) = [] /\
    block_loop fuel (regs5_list (state1 m)) (pre ++ l) (zlen pre) (zlen (pre ++ l)) =
    Some (regs5_list (state1 (m ++ l1)), zlen (pre ++ l1)).
Proof.
  induction fuel as [|fuel IH]; intros m pre l Hm Hl Hf Hs; [lia|]. cbn [block_loop].
  pose proof (zlen_nonneg pre). pose proof (zlen_nonneg l). rewrite !zlen_app in *.
  rewrite u32_small by lia. destruct (Z.ltb_spec (zlen pre + 63) (zlen pre + zlen l)) as [Hlt|Hge].
  - destruct (zsplit l 64) as (b & l' & -> & Eb); [lia|]. rewrite zlen_app in *.
    pose proof (msub_app_mid pre b l') as E0. rewrite Eb in E0. rewrite E0. apply Forall_app in Hl as [Hb Hl'].
    assert (length b = 64%nat) as Eb' by (unfold zlen in Eb; lia).
    rewrite SHA1Transform_spec by (done || apply state1_ok).
    destruct (md_absorb_full 64 Fips180.sha1_compress ltac:(lia) Fips180.sha1_init m b) as [E1 E2].
    { rewrite Hm. cbn [length]. lia. }
    rewrite Hm in E1. cbn [app] in E1. rewrite <- E1, u32_small by (unfold zlen in *; lia).
    destruct (IH (m ++ b) (pre ++ b) l') as (l1 & l2 & El & Hl2 & Hr & E); [done|done| | |].
    + unfold zlen in *. rewrite length_app in Hf. lia.
    + rewrite !zlen_app. lia.
    + exists (b ++ l1), l2. split; [by rewrite El, app_assoc|]. split; [done|].
      split; [by rewrite app_assoc|]. rewrite <- !app_assoc, !zlen_app, Eb in E.
      rewrite !zlen_app, Eb. exact E.
  - exists [], l. rewrite !app_nil_r. split; [done|]. split; [lia|]. by split.
Qed.

(** Both ways through [SHA1Update]: the bytes fit into the buffer, or they complete its
    block and go on with whole blocks of their own. *)
Lemma SHA1Update_short c m l : sha1_absorbed c m -> bytes_ok l -> zlen (rest1 m) + zlen l <= 63 ->
  exists post, mcpy (buffer c) (zlen (rest1 m)) l = Some ((rest1 m ++ l) ++ post) /\
    length ((rest1 m ++ l) ++ post) = 64%nat /\ bytes_ok ((rest1 m ++ l) ++ post) /\
    state1 (m ++ l) = state1 m /\ rest1 (m ++ l) = rest1 m ++ l.
Proof.
  intros [Es H64 Hb [post Er] _ _] Hl Hs. rewrite Er in H64, Hb. rewrite length_app in H64.
  apply Forall_app in Hb as [Hb1 Hb2]. rewrite Er.
  destruct (zsplit post (zlen l)) as (old & p & -> & Eo); [unfold zlen in *; lia|].
  exists p. rewrite mcpy_app_mid by lia. rewrite <- app_assoc.
  apply Forall_app in Hb2 as [_ Hp]. rewrite !length_app in *. split; [done|].
  split; [unfold zlen in *; lia|]. split; [by repeat apply Forall_app_2|].
  apply md_absorb_short; [lia|]. unfold zlen in *. lia.
Qed.

Lemma SHA1Update_full c m l : sha1_absorbed c m -> bytes_ok l ->
  63 < zlen (rest1 m) + zlen l -> zlen l < 2 ^ 32 - 64 ->
  exists d l1 l2 buf, l = d ++ l1 ++ l2 /\ zlen d = 64 - zlen (rest1 m) /\ zlen l2 < 64 /\
    mcpy (buffer c) (zlen (rest1 m)) d = Some buf /\ length buf = 64%nat /\ bytes_ok buf /\
    SHA1Transform (state c) buf = Some (regs5_list (state1 (m ++ d))) /\
    block_loop (S (Z.to_nat (zlen l))) (regs5_list (state1 (m ++ d))) l (zlen d) (zlen l) =
      Some (regs5_list (state1 (m ++ d ++ l1)), zlen (d ++ l1)) /\
    rest1 (m ++ d ++ l1) = [].
Proof.
  intros [Es H64 Hb [post Er] _ _] Hl Hs Hmax. rewrite Er in H64, Hb. rewrite length_app in H64.
  apply Forall_app in Hb as [Hb1 Hb2]. destruct (zlen_rest1 m) as [_ Hr].
  destruct (zsplit l (64 - zlen (rest1 m))) as (d & t & -> & Ed); [lia|].
  apply Forall_app in Hl as [Hd Ht].
  destruct (md_absorb_full 64 Fips180.sha1_compress ltac:(lia) Fips180.sha1_init m d) as [E1 E2];
    [unfold zlen in *; lia|].
  destruct (block_loop_spec (S (Z.to_nat (zlen (d ++ t)))) (m ++ d) d t E2 Ht) as (l1 & l2 & -> & Hl2 & Hr1 & E);
    [rewrite zlen_app; unfold zlen; lia|done|].
  exists d, l1, l2, (rest1 m ++ d). rewrite <- !app_assoc in *.
  assert (length (rest1 m ++ d) = 64%nat) as Hlen by (rewrite length_app; unfold zlen in *; lia).
  assert (bytes_ok (rest1 m ++ d)) as Hok by by apply Forall_app_2.
  split; [done|]. split; [done|]. split; [done|]. split.
  { rewrite Er. pose proof (mcpy_app_mid (rest1 m) post [] d) as H. rewrite !app_nil_r in H.
    apply H. unfold zlen in *. lia. }
  split; [done|]. split; [done|]. split; [|done].
  by rewrite Es, SHA1Transform_spec, E1 by (done || apply state1_ok).
Qed.

Lemma SHA1Update_spec c m l : sha1_absorbed c m -> bytes_ok l -> zlen l < 2 ^ 32 - 64 ->
  exists c', SHA1Update c l (zlen l) = Some c' /\ sha1_absorbed c' (m ++ l).
Proof.
  intros Hc Hl Hmax. pose proof (zlen_nonneg l) as Hl0. destruct (zlen_rest1 m) as [_ Hr].
  destruct (count_add (zlen m) (zlen l)) as [Ec0 Ec1]; [apply zlen_nonneg|lia|].
  unfold SHA1Update. rewrite (ab1_count0 _ _ Hc), (ab1_count1 _ _ Hc), count_pos, Ec0.
  rewrite Ec0 in Ec1. rewrite Ec1, <- (zlen_app m l). rewrite u32_small by lia.
  pose proof (msub_app_mid [] l []) as Eall. rewrite app_nil_r in Eall. cbn [app] in Eall.
  change (zlen []) with 0 in Eall.
  destruct (Z.gtb_spec (zlen (rest1 m) + zlen l) 63) as [Hgt|Hle].
  - destruct (SHA1Update_full c m l Hc Hl) as (d & l1 & l2 & buf & El & Ed & Hl2 & Ecp & H64 & Hb & Et & E & Hr1);
      [lia|lia|].
    pose proof (msub_app_mid [] d (l1 ++ l2)) as E0. cbn [app] in E0. rewrite <- El in E0.
    change (zlen []) with 0 in E0. rewrite <- Ed, E0, Ecp, Et, E. cbv beta iota.
    pose proof (msub_app_mid (d ++ l1) l2 []) as E2. rewrite app_nil_r, <- app_assoc, <- El in E2.
    replace (zlen l - zlen (d ++ l1)) with (zlen l2) by (rewrite El, !zlen_app; lia). rewrite E2.
    destruct (zsplit buf (zlen l2)) as (old & post & -> & Eo); [unfold zlen in *; lia|].
    rewrite mcpy_0 by done. eexists. split; [reflexivity|].
    rewrite El in Hl |- *. apply Forall_app in Hl as [_ [_ H2]%Forall_app]. apply Forall_app in Hb as [_ Hp].
    destruct (md_absorb_short 64 Fips180.sha1_compress ltac:(lia) Fips180.sha1_init (m ++ d ++ l1) l2)
      as [S1 S2]; [rewrite Hr1; unfold zlen in Hl2; cbn [length]; lia|].
    rewrite <- !app_assoc in S1, S2. rewrite Hr1 in S2. cbn [app] in S2.
    constructor; cbn [state buffer count0 count1]; try done.
    + by rewrite S1.
    + rewrite length_app in *. unfold zlen in Eo. lia.
    + by apply Forall_app_2.
    + rewrite S2. by exists post.
  - destruct (SHA1Update_short c m l Hc Hl) as (post & E & H64 & Hb & S1 & S2); [lia|].
    cbv beta iota. rewrite Z.sub_0_r, Eall, E. eexists. split; [reflexivity|].
    constructor; cbn [state buffer count0 count1]; try done.
    + rewrite S1. apply Hc.
    + rewrite S2. by exists post.
Qed.

(** *** The end of a message *)

Lemma land_504 n : Z.land ((8 * n) mod 2 ^ 32) 504 = 8 * (n mod 64).
Proof.
  change 504 with (Z.shiftl (Z.ones 6) 3).
  replace ((8 * n) mod 2 ^ 32) with (Z.shiftl (n mod 2 ^ 29) 3)
    by (rewrite Z.shiftl_mul_pow2 by lia; change (2 ^ 32) with (2 ^ 3 * 2 ^ 29);
        rewrite Z.mul_mod_distr_l by lia; change (2 ^ 3) with 8; lia).
  rewrite <- Z.shiftl_land, Z.land_ones, Z.shiftl_mul_pow2 by lia.
  change (2 ^ 3) with 8. change (2 ^ 6) with 64. change (2 ^ 29) with 536870912. div_lia.
Qed.

Lemma zero_pad_loop_spec fuel : forall c m (k := Z.to_nat ((56 - zlen m) mod 64)),
  sha1_absorbed c m -> (k < fuel)%nat ->
  exists c', zero_pad_loop fuel c = Some c' /\ sha1_absorbed c' (m ++ replicate k 0).
Proof.
  induction fuel as [|fuel IH]; intros c m k Hc Hk; [lia|]. cbn [zero_pad_loop].
  rewrite (ab1_count0 _ _ Hc), land_504. destruct (Z.eqb_spec (8 * (zlen m mod 64)) 448) as [E|E].
  - exists c. split; [done|]. replace k with 0%nat by (unfold k; div_lia). by rewrite app_nil_r.
  - destruct (SHA1Update_spec c m [0] Hc) as (c1 & E1 & Hc1); [by repeat constructor|done|].
    change (zlen [0]) with 1 in E1. rewrite E1.
    destruct (IH c1 (m ++ [0]) Hc1) as (c' & -> & Hc').
    + rewrite zlen_app. change (zlen [0]) with 1. unfold k in Hk. div_lia.
    + exists c'. split; [done|]. rewrite zlen_app, <- app_assoc in Hc'. change (zlen [0]) with 1 in Hc'.
      replace k with (S (Z.to_nat ((56 - (zlen m + 1)) mod 64))); [done|]. unfold k. div_lia.
Qed.

Lemma digest_loop r d : length d = 20%nat ->
  for_loop 20 0 (fun i d => s <- mget (regs5_list r) (Z.shiftr i 2);;
    mset d i (Z.land (Z.shiftr s ((3 - Z.land i 3) * 8)) 255)) d =
  Some (concat (map (be_bytes 4) (regs5_list r))).
Proof.
  intros Hd. do 20 (destruct d as [|? d]; [simpl in Hd; lia|]). destruct d; [|simpl in Hd; lia].
  destruct r as [a b c e f].
  transitivity (Some (concat (map (fun x => map (fun k => Z.land (Z.shiftr x k) 255) [24; 16; 8; 0])
    (regs5_list (Fips180.mkRegs5 a b c e f))))); [by cbv -[Z.land Z.shiftr]|].
  f_equal. f_equal. apply map_ext. intros x. rewrite be_bytes_4. cbn [map]. rewrite !byte_of by lia.
  by rewrite Z.div_1_r.
Qed.

Lemma finalcount_spec n :
  map (fun i => Z.land (Z.shiftr (if i >=? 4 then (8 * n) mod 2 ^ 32 else (8 * n / 2 ^ 32) mod 2 ^ 32)
         ((3 - Z.land i 3) * 8)) 255) [0; 1; 2; 3; 4; 5; 6; 7] = be_bytes 8 (8 * n).
Proof.
  rewrite (be_bytes_add 4 4). change (256 ^ Z.of_nat 4) with (2 ^ 32).
  rewrite <- (be_bytes_mod 4 (8 * n / 2 ^ 32)), <- (be_bytes_mod 4 (8 * n)).
  change (256 ^ Z.of_nat 4) with (2 ^ 32). rewrite !be_bytes_4.
  set (x := (8 * n / 2 ^ 32) mod 2 ^ 32). set (y := (8 * n) mod 2 ^ 32).
  clearbody x y. transitivity (map (fun k => Z.land (Z.shiftr x k) 255) [24; 16; 8; 0] ++
    map (fun k => Z.land (Z.shiftr y k) 255) [24; 16; 8; 0]); [reflexivity|]. cbn [map app].
  rewrite !byte_of by lia. by rewrite !Z.div_1_r.
Qed.

Lemma SHA1Final_spec c m d : sha1_absorbed c m -> length d = 20%nat ->
  exists c', SHA1Final d c = Some (Fips180.sha1 m, c').
Proof.
  intros Hc Hd. unfold SHA1Final.
  rewrite (ab1_count0 _ _ Hc), (ab1_count1 _ _ Hc), finalcount_spec.
  destruct (SHA1Update_spec c m [128] Hc) as (c1 & E1 & Hc1); [by repeat constructor|done|].
  change (zlen [128]) with 1 in E1. rewrite E1.
  destruct (zero_pad_loop_spec 64 c1 (m ++ [128]) Hc1) as (c2 & E2 & Hc2); [div_lia|]. rewrite E2.
  destruct (SHA1Update_spec c2 _ (be_bytes 8 (8 * zlen m)) Hc2) as (c3 & E3 & Hc3);
    [apply be_bytes_ok|unfold zlen; by rewrite be_bytes_length|].
  replace (zlen (be_bytes 8 (8 * zlen m))) with 8 in E3 by (unfold zlen; by rewrite be_bytes_length).
  rewrite E3.
  rewrite (ab1_state _ _ Hc3), digest_loop by done. eexists. unfold Fips180.sha1, md_hash, md_pad.
  replace ((64 - (length m + 1 + 8) mod 64) mod 64)%nat with (Z.to_nat ((56 - zlen (m ++ [128])) mod 64));
    [by rewrite <- !app_assoc|].
  rewrite zlen_app. change (zlen [128]) with 1. unfold zlen.
  pose proof (Nat2Z.inj_mod (length m + 1 + 8) 64) as H1.
  pose proof (Nat2Z.inj_mod (64 - (length m + 1 + 8) mod 64) 64) as H2.
  pose proof (Nat.mod_upper_bound (length m + 1 + 8) 64 ltac:(lia)). div_lia.
Qed.

(** The updates of a list of pieces, one call each. *)
Fixpoint sha1_updates (c : SHA1_CTX) (ls : list (list Z)) : option SHA1_CTX :=
  match ls with
  | [] => Some c
  | l :: ls => c <- SHA1Update c l (zlen l);; sha1_updates c ls
  end.

Lemma sha1_updates_absorbed ls : forall c m, sha1_absorbed c m -> Forall bytes_ok ls ->
  Forall (fun l => zlen l < 2 ^ 32 - 64) ls ->
  exists c', sha1_updates c ls = Some c' /\ sha1_absorbed c' (m ++ concat ls).
Proof.
  induction ls as [|l ls IH]; intros c m Hm Hl Hs; cbn [sha1_updates concat].
  - exists c. by rewrite app_nil_r.
  - apply Forall_cons_1 in Hl as [Hl Hls]. apply Forall_cons_1 in Hs as [Hs Hss].
    destruct (SHA1Update_spec c m l Hm Hl Hs) as (c1 & -> & Hc).
    destruct (IH c1 (m ++ l) Hc Hls Hss) as (c' & E' & Hc'). exists c'. by rewrite app_assoc.
Qed.

Lemma SHA1Init_absorbed stk : length (buffer stk) = 64%nat -> bytes_ok (buffer stk) ->
  sha1_absorbed (SHA1Init stk) [].
Proof. intros Hl Hb. constructor; try done. by exists (buffer stk). Qed.

Lemma SHA1_spec stk out m post : length (buffer stk) = 64%nat -> bytes_ok (buffer stk) ->
  length out = 20%nat -> bytes_ok m ->
  SHA1 stk out (m ++ post) (zlen m) = Some (Fips180.sha1 m).
Proof.
  intros Hd Hb Ho Hm. unfold SHA1.
  replace (Z.to_nat (zlen m)) with (length m) by (unfold zlen; lia).
  assert (forall l pre ctx, m = pre ++ l -> sha1_absorbed ctx pre ->
    exists c, for_loop (length l) (zlen pre) (fun ii ctx => c <- msub (m ++ post) ii 1;; SHA1Update ctx c 1) ctx =
      Some c /\ sha1_absorbed c m) as H.
  { induction l as [|x l IH]; intros pre ctx E Hc; cbn [length for_loop].
    - exists ctx. by rewrite E, app_nil_r.
    - rewrite E in Hm. apply Forall_app in Hm as [_ [Hx _]%Forall_cons_1].
      assert (msub (m ++ post) (zlen pre) 1 = Some [x]) as ->
        by (rewrite E, <- app_assoc; apply (msub_app_mid pre [x] (l ++ post))).
      destruct (SHA1Update_spec ctx pre [x] Hc) as (c1 & E2 & Hc1); [by apply Forall_singleton|done|].
      change (zlen [x]) with 1 in E2. rewrite E2.
      destruct (IH (pre ++ [x]) c1) as (c & E3 & Hc3); [by rewrite <- app_assoc|done|].
      rewrite zlen_app in E3. change (zlen [x]) with 1 in E3. by exists c. }
  destruct (H m [] (SHA1Init stk)) as (c & E & Hc); [done|by apply SHA1Init_absorbed|].
  change (zlen []) with 0 in E. rewrite E. destruct (SHA1Final_spec c m out Hc Ho) as (c' & ->). done.
Qed.

(** ** HMAC *)

Definition hmac_key (key : list Z) : list Z :=
  let k := if (64 <? length key)%nat then Fips180.sha1 key else key in
  k ++ replicate (64 - length k) 0.

(** RFC 2104 with SHA-1. *)
Definition rfc2104 (key m : list Z) : list Z :=
  let pad b := map (Z.lxor b) (hmac_key key) in
  Fips180.sha1 (pad 0x5c ++ Fips180.sha1 (pad 0x36 ++ m)).

Lemma sha1_length m : length (Fips180.sha1 m) = 20%nat.
Proof.
  unfold Fips180.sha1. generalize (md_hash 64 Fips180.sha1_compress 8 Fips180.sha1_init m). intros [a b c d e].
  unfold Fips180.regs5_list. cbn [Fips180.qa Fips180.qb Fips180.qc Fips180.qd Fips180.qe map concat].
  by rewrite !length_app, !be_bytes_length.
Qed.

Lemma sha1_bytes m : bytes_ok (Fips180.sha1 m).
Proof.
  unfold Fips180.sha1. generalize (md_hash 64 Fips180.sha1_compress 8 Fips180.sha1_init m). intros [a b c d e].
  unfold Fips180.regs5_list. cbn [Fips180.qa Fips180.qb Fips180.qc Fips180.qd Fips180.qe map concat].
  repeat (apply Forall_app_2; [apply be_bytes_ok|]). constructor.
Qed.

(** The two pads, xored in place. *)
Lemma pad_xor_loop l : forall ip op i, i = zlen ip -> length ip = length op ->
  for_loop (length l) i (fun i s =>
      let '(ip, op) := s in
      x <- mget ip i;; ip <- mset ip i (Z.lxor x 0x36);;
      y <- mget op i;; op <- mset op i (Z.lxor y 0x5c);;
      Some (ip, op)) (ip ++ l, op ++ l) =
  Some (ip ++ map (Z.lxor 0x36) l, op ++ map (Z.lxor 0x5c) l).
Proof.
  induction l as [|x l IH]; intros ip op i -> Hl; [done|]. cbn [length for_loop map].
  rewrite mget_app_mid, mset_app_mid. replace (zlen ip) with (zlen op) by (unfold zlen; lia).
  rewrite mget_app_mid, mset_app_mid. cbv beta iota.
  rewrite (Z.lxor_comm x 0x36), (Z.lxor_comm x 0x5c).
  change (ip ++ Z.lxor 0x36 x :: l) with (ip ++ [Z.lxor 0x36 x] ++ l).
  change (op ++ Z.lxor 0x5c x :: l) with (op ++ [Z.lxor 0x5c x] ++ l). rewrite !app_assoc.
  rewrite IH by (rewrite ?zlen_app, ?length_app; cbn; unfold zlen; simpl; lia). by rewrite <- !app_assoc.
Qed.

Lemma mcpy_fill n k : 0 <= zlen k <= n ->
  mcpy (replicate (Z.to_nat n) 0) 0 k = Some (k ++ replicate (Z.to_nat (n - zlen k)) 0).
Proof.
  intros H. replace (Z.to_nat n) with (length k + Z.to_nat (n - zlen k))%nat by (unfold zlen in *; lia).
  rewrite replicate_add. apply mcpy_0. unfold zlen. by rewrite length_replicate.
Qed.

(** Two arrays put one after the other. *)
Lemma mcpy_two k d n : zlen k + zlen d = n ->
  exists x, mcpy (replicate (Z.to_nat n) 0) 0 k = Some x /\ mcpy x (zlen k) d = Some (k ++ d).
Proof.
  intros <-. rewrite mcpy_fill by (unfold zlen; lia). eexists. split; [reflexivity|].
  pose proof (mcpy_app_mid k (replicate (Z.to_nat (zlen k + zlen d - zlen k)) 0) [] d) as E.
  rewrite !app_nil_r in E. apply E. rewrite zlen_replicate; unfold zlen; lia.
Qed.

(** ** Properties *)

(** initialising a context, absorbing a message in any number of pieces and
    finishing computes the SHA-1 of FIPS 180-4 of the whole message, and so does [SHA1]
    byte by byte; no access is out of bounds and the padding loop ends. *)
Theorem sha1_is_fips180 stk ls out :
  length (buffer stk) = 64%nat -> bytes_ok (buffer stk) -> Forall bytes_ok ls ->
  Forall (fun l => zlen l < 2 ^ 32 - 64) ls -> length out = 20%nat ->
  (exists c c', sha1_updates (SHA1Init stk) ls = Some c /\
     SHA1Final out c = Some (Fips180.sha1 (concat ls), c')) /\
  SHA1 stk out (concat ls) (zlen (concat ls)) = Some (Fips180.sha1 (concat ls)).
Proof.
  intros Hd Hb Hl Hs Ho. split.
  - destruct (sha1_updates_absorbed ls _ [] (SHA1Init_absorbed stk Hd Hb) Hl Hs) as (c & E & Hc).
    destruct (SHA1Final_spec c _ out Hc Ho) as (c' & E'). by exists c, c'.
  - rewrite <- (app_nil_r (concat ls)) at 1. apply SHA1_spec; [done|done|done|by apply Forall_concat].
Qed.

(** [hmac_sha1] computes the HMAC of RFC 2104 with SHA-1, for keys of any length,
    shorter, equal to or longer than a block. *)
Theorem hmac_sha1_is_rfc2104 stk tk temp key data output :
  length (buffer stk) = 64%nat -> bytes_ok (buffer stk) -> length tk = 20%nat -> length temp = 20%nat ->
  length output = 20%nat -> bytes_ok key -> bytes_ok data -> zlen data < 2 ^ 32 - 64 ->
  hmac_sha1 stk tk temp key (zlen key) data (zlen data) output = Some (rfc2104 key data).
Proof.
  intros Hd Hb Htk Ht Ho Hk Hm Hs. pose proof (zlen_nonneg data) as Hd0. unfold hmac_sha1.
  set (k := if (64 <? length key)%nat then Fips180.sha1 key else key).
  assert ((if zlen key >? 64 then tk <- SHA1 stk tk key (zlen key);; Some (tk, 20) else Some (key, zlen key)) =
    Some (k, zlen k) /\ bytes_ok k /\ zlen k <= 64) as (-> & Hkb & Hkl).
  { unfold k. destruct (Nat.ltb_spec 64 (length key)) as [H|H], (Z.gtb_spec (zlen key) 64) as [H'|H'];
      unfold zlen in H'; try lia.
    - pose proof (SHA1_spec stk tk key [] Hd Hb Htk Hk) as E. rewrite app_nil_r in E. rewrite E.
      unfold zlen. rewrite sha1_length. split; [done|]. split; [apply sha1_bytes|lia].
    - split; [done|]. split; [done|unfold zlen; lia]. }
  cbv beta iota. pose proof (zlen_nonneg k) as Hk0.
  pose proof (msub_app_mid [] k []) as E1. rewrite app_nil_r in E1. change (zlen []) with 0 in E1.
  cbn [app] in E1. rewrite E1. change (replicate 64 0) with (replicate (Z.to_nat 64) 0).
  rewrite mcpy_fill by lia. set (K := k ++ replicate (Z.to_nat (64 - zlen k)) 0).
  assert (K = hmac_key key) as EK
    by (unfold K, hmac_key; fold k; do 2 f_equal; unfold zlen; lia).
  assert (length K = 64%nat) as HK by (unfold K; rewrite length_app, length_replicate; unfold zlen in *; lia).
  assert (bytes_ok K) as HKb by (apply Forall_app_2; [done|]; by apply Forall_replicate).
  pose proof (pad_xor_loop K [] [] 0 eq_refl eq_refl) as E2. rewrite HK in E2. cbn [app] in E2.
  rewrite E2. cbv beta iota.
  pose proof (msub_app_mid [] data []) as E3. rewrite app_nil_r in E3. change (zlen []) with 0 in E3.
  cbn [app] in E3. rewrite E3, u32_small by lia.
  assert (forall b, zlen (map (Z.lxor b) K) = 64) as Hpl by (intros b; unfold zlen; rewrite length_map; lia).
  assert (forall b, byte_ok b -> bytes_ok (map (Z.lxor b) K)) as Hpb.
  { intros b Hbb. apply Forall_map. eapply Forall_impl; [|exact HKb]. intros x Hx. by apply lxor_byte. }
  destruct (mcpy_two (map (Z.lxor 0x36) K) data (64 + zlen data)) as (x1 & Ea & Eb); [by rewrite Hpl|].
  rewrite Hpl in Eb. rewrite Ea, Eb.
  set (inner := map (Z.lxor 0x36) K ++ data).
  assert (bytes_ok inner) as Hi by (apply Forall_app_2; [by apply Hpb|done]).
  pose proof (SHA1_spec stk temp inner [] Hd Hb Ht Hi) as E5. rewrite app_nil_r in E5.
  replace (zlen inner) with (64 + zlen data) in E5 by (unfold inner; by rewrite zlen_app, Hpl).
  rewrite E5. change (replicate 84 0) with (replicate (Z.to_nat 84) 0).
  assert (zlen (Fips180.sha1 inner) = 20) as H20 by (unfold zlen; by rewrite sha1_length).
  destruct (mcpy_two (map (Z.lxor 0x5c) K) (Fips180.sha1 inner) 84) as (x2 & Ec & Ed); [by rewrite Hpl, H20|].
  rewrite Hpl in Ed. rewrite Ec, Ed.
  set (outer := map (Z.lxor 0x5c) K ++ Fips180.sha1 inner).
  assert (bytes_ok outer) as Hou by (apply Forall_app_2; [by apply Hpb|apply sha1_bytes]).
  pose proof (SHA1_spec stk output outer [] Hd Hb Ho Hou) as E6. rewrite app_nil_r in E6.
  replace (zlen outer) with 84 in E6 by (unfold outer; by rewrite zlen_app, Hpl, H20).
  rewrite E6. unfold rfc2104. rewrite <- EK. reflexivity.
Qed.

(** ** Concrete instances *)

Lemma sha1_is_fips180_witness :
  (exists c c', sha1_updates (SHA1Init (mkSHA1 [] 3 5 (replicate 64 7))) [[97; 98]; [99]] = Some c /\
     SHA1Final (replicate 20 0) c = Some (Fips180.sha1 [97; 98; 99], c')) /\
  SHA1 (mkSHA1 [] 3 5 (replicate 64 7)) (replicate 20 0) [97; 98; 99] 3 = Some (Fips180.sha1 [97; 98; 99]).
Proof.
  apply (sha1_is_fips180 (mkSHA1 [] 3 5 (replicate 64 7)) [[97; 98]; [99]] (replicate 20 0));
    [reflexivity| |repeat constructor; lia|repeat constructor|reflexivity].
  apply Forall_replicate. split; lia.
Defined.

(** The digest of the three letters abc that the standard gives. *)
Lemma fips_sha1_abc : take 8 (Fips180.sha1 [97; 98; 99]) = [0xa9; 0x99; 0x3e; 0x36; 0x47; 0x06; 0x81; 0x6a].
Proof. by vm_compute. Qed.

Lemma hmac_sha1_is_rfc2104_witness :
  hmac_sha1 (mkSHA1 [] 3 5 (replicate 64 7)) (replicate 20 9) (replicate 20 9) [74; 101; 102; 101] 4
    [119; 104; 97; 116] 4 (replicate 20 0) = Some (rfc2104 [74; 101; 102; 101] [119; 104; 97; 116]).
Proof.
  apply (hmac_sha1_is_rfc2104 (mkSHA1 [] 3 5 (replicate 64 7)) (replicate 20 9) (replicate 20 9)
    [74; 101; 102; 101] [119; 104; 97; 116] (replicate 20 0));
    [reflexivity| |reflexivity|reflexivity|reflexivity|repeat constructor; lia|repeat constructor; lia|reflexivity].
  apply Forall_replicate. split; lia.
Defined.

(** The second test case of RFC 2202: key Jefe. *)
Lemma rfc2104_jefe :
  take 8 (rfc2104 [74; 101; 102; 101]
    [119; 104; 97; 116; 32; 100; 111; 32; 121; 97; 32; 119; 97; 110; 116; 32; 102; 111; 114; 32; 110; 111;
     116; 104; 105; 110; 103; 63]) = [0xef; 0xfc; 0xdf; 0x6a; 0xe5; 0xeb; 0x2f; 0xa2].
Proof. by vm_compute. Qed.

End Sha1.
