(* ===== verification/Base64.v ===== *)
(** * Base64 and random keys ([src/utility/Base64.cpp])

    [base64Encode] byte by byte as the code has it, and [genUniqueKey].  Whether [char]
    is signed differs between the targets, so it is an argument.  The theorems: where
    [char] is unsigned, or the text is ASCII, the result is the encoding of RFC 4648 and
    decodes to the input; where it is signed a byte above 127 spoils its group; a
    generated key has no terminator. *)

From stdpp Require Import base option list numbers.
From Stdlib Require Import ZArith Lia.
From S2P Require Import Prelude Words.

Open Scope Z_scope.

Module Base64.

(** ** The code *)

(** The 64 letters and the terminator. *)
Definition char_set : list Z :=
  seqZ 65 26 ++ seqZ 97 26 ++ seqZ 48 10 ++ [43; 47; 0].

(** A [char] as an [int]. *)
Definition char_int (signed : bool) (c : Z) : Z := if signed then i8 c else c.

(** The bytes of a group: [(val, count)] after the inner loop. *)
Definition group_loop (signed : bool) (input_str : list Z) (len_str i : Z) : option (Z * Z) :=
  for_loop 3 0 (fun n s =>
    let '(val, count) := s in
    let j := i + n in
    if j <? len_str then
      c <- mget input_str j;; Some (Z.lor (i32 (Z.shiftl val 8)) (char_int signed c), count + 1)
    else Some (val, count)) (0, 0).

(** [while (no_of_bits != 0)]: at most four rounds. *)
Fixpoint sextets (fuel : nat) (val no_of_bits : Z) (res_str : list Z) (k : Z) : option (list Z * Z) :=
  match fuel with
  | O => None
  | S fuel =>
      if no_of_bits =? 0 then Some (res_str, k)
      else
        let '(index, rest) :=
          if no_of_bits >=? 6 then (Z.land (Z.shiftr val (no_of_bits - 6)) 63, no_of_bits - 6)
          else (Z.land (Z.shiftl val (6 - no_of_bits)) 63, 0) in
        c <- mget char_set index;;
        res_str <- mset res_str k c;;
        sextets fuel val rest res_str (k + 1)
  end.

(** [for (i = 0; i < len_str; i += 3)], with the padding of the last group. *)
Fixpoint groups_loop (fuel : nat) (signed : bool) (input_str : list Z) (len_str i : Z) (res_str : list Z)
    (k padding : Z) : option (list Z * Z * Z) :=
  match fuel with
  | O => None
  | S fuel =>
      if i <? len_str then
        '(val, count) <- group_loop signed input_str len_str i;;
        let no_of_bits := count * 8 in
        '(res_str, k) <- sextets 5 val no_of_bits res_str k;;
        groups_loop fuel signed input_str len_str (i + 3) res_str k (no_of_bits mod 3)
      else Some (res_str, k, padding)
  end.

Definition base64Encode (signed : bool) (input_str : list Z) (len_str : Z) (res_str : option (list Z))
  : option (bool * option (list Z)) :=
  match res_str with
  | None => Some (false, None)
  | Some res =>
      '(res, k, padding) <- groups_loop (S (Z.to_nat len_str)) signed input_str len_str 0 res 0 0;;
      '(res, k) <- for_loop (Z.to_nat padding) 1 (fun _ s =>
                     let '(res, k) := s in res <- mset res k 61;; Some (res, k + 1)) (res, k);;
      res <- mset res k 0;;
      Some (true, Some res)
  end.

(** [genUniqueKey(key, len)]; [rnd i] is what call [i] of [rand()] returns. *)
Definition genUniqueKey (rnd : Z -> Z) (key : list Z) (len : Z) : option (list Z) :=
  for_loop (Z.to_nat len) 0 (fun i key =>
    c <- mget char_set (rnd i mod (zlen char_set - 3));; mset key i c) key.

(** ** RFC 4648 *)

Definition letter (x : Z) : Z := char_set !!! Z.to_nat x.

Fixpoint b64 (l : list Z) : list Z :=
  match l with
  | [] => []
  | [a] => [letter (a / 4); letter (a mod 4 * 16); 61; 61]
  | [a; b] => [letter (a / 4); letter (a mod 4 * 16 + b / 16); letter (b mod 16 * 4); 61]
  | a :: b :: c :: l =>
      [letter (a / 4); letter (a mod 4 * 16 + b / 16); letter (b mod 16 * 4 + c / 64); letter (c mod 64)] ++ b64 l
  end.

(** The value of a letter. *)
Definition value (c : Z) : option Z :=
  if (65 <=? c) && (c <=? 90) then Some (c - 65)
  else if (97 <=? c) && (c <=? 122) then Some (c - 71)
  else if (48 <=? c) && (c <=? 57) then Some (c + 4)
  else if c =? 43 then Some 62
  else if c =? 47 then Some 63
  else None.

(** The decoder of the standard, by groups of four letters. *)
Fixpoint unb64 (l : list Z) : option (list Z) :=
  match l with
  | [] => Some []
  | w :: x :: y :: z :: l =>
      w <- value w;; x <- value x;;
      if y =? 61 then Some [w * 4 + x / 16]
      else
        y <- value y;;
        if z =? 61 then Some [w * 4 + x / 16; x mod 16 * 16 + y / 4]
        else
          z <- value z;; r <- unb64 l;;
          Some ([w * 4 + x / 16; x mod 16 * 16 + y / 4; y mod 4 * 64 + z] ++ r)
  | _ => None
  end.

Lemma value_letter x : 0 <= x < 64 -> value (letter x) = Some x /\ (letter x =? 61) = false.
Proof.
  intros Hx. pose proof (forall_below (fun x => bool_decide (value (letter x) = Some x) && negb (letter x =? 61))
    64 eq_refl x Hx) as H. cbv beta in H. apply andb_true_iff in H as [H1%bool_decide_eq_true H2%negb_true_iff]. done.
Qed.

(** What the decoder undoes. *)
Lemma unb64_b64 n : forall l, (length l <= n)%nat -> bytes_ok l -> unb64 (b64 l) = Some l.
Proof.
  induction n as [|n IH]; intros l Hn Hl; [by destruct l; [|simpl in Hn; lia]|].
  destruct l as [|a [|b [|c l]]]; [done| | |];
    repeat match goal with H : Forall byte_ok (_ :: _) |- _ => apply Forall_cons_1 in H as [? H] end;
    unfold byte_ok in *; cbn [b64 unb64 app].
  - rewrite (proj1 (value_letter (a / 4) ltac:(div_lia))), (proj1 (value_letter (a mod 4 * 16) ltac:(div_lia))).
    cbn [Z.eqb Pos.eqb]. do 2 f_equal. div_lia.
  - rewrite (proj1 (value_letter (a / 4) ltac:(div_lia))), (proj1 (value_letter (a mod 4 * 16 + b / 16) ltac:(div_lia))).
    destruct (value_letter (b mod 16 * 4) ltac:(div_lia)) as [-> ->]. cbn [Z.eqb Pos.eqb].
    do 2 f_equal; [div_lia|]. f_equal. div_lia.
  - rewrite (proj1 (value_letter (a / 4) ltac:(div_lia))), (proj1 (value_letter (a mod 4 * 16 + b / 16) ltac:(div_lia))).
    destruct (value_letter (b mod 16 * 4 + c / 64) ltac:(div_lia)) as [-> ->].
    destruct (value_letter (c mod 64) ltac:(div_lia)) as [-> ->].
    rewrite IH; [|simpl in Hn; lia|done]. f_equal. apply (f_equal2 cons); [div_lia|].
    apply (f_equal2 cons); [div_lia|]. apply (f_equal2 cons); [div_lia|done].
Qed.

(** ** The encoder *)

(** A character that reads as its code: all of them where [char] is unsigned. *)
Definition plain (signed : bool) (c : Z) : Prop := byte_ok c /\ (signed = true -> c < 128).

Lemma char_int_plain signed c : plain signed c -> char_int signed c = c.
Proof.
  intros [Hc Hs]. unfold char_int, byte_ok in *. destruct signed; [|done]. specialize (Hs eq_refl).
  unfold i8. rewrite Z.mod_small by lia. lia.
Qed.

Lemma group_step v c : 0 <= v < 65536 -> byte_ok c -> Z.lor (i32 (Z.shiftl v 8)) c = v * 256 + c.
Proof.
  intros Hv Hc. rewrite i32_small; [by apply lor_word|]. rewrite Z.shiftl_mul_pow2 by lia.
  change (2 ^ 8) with 256. lia.
Qed.

(** The first group of what is left: at most three characters. *)
Lemma group_loop_spec signed pre l y : Forall (plain signed) l -> l <> [] ->
  group_loop signed (pre ++ l ++ y) (zlen pre + zlen l) (zlen pre) =
  Some (be_val (take 3 l), zlen (take 3 l)).
Proof.
  intros Hl Hne. pose proof (zlen_nonneg l) as H0.
  assert (forall n x, l !! Z.to_nat n = Some x -> 0 <= n -> mget (pre ++ l ++ y) (zlen pre + n) = Some x /\
    n < zlen l /\ char_int signed x = x /\ byte_ok x) as Hg.
  { intros n x E Hn. pose proof (lookup_lt_Some _ _ _ E) as Hlt. pose proof (Forall_lookup_1 _ _ _ _ Hl E) as Hp.
    split; [|split; [unfold zlen; lia|split; [by apply char_int_plain|apply Hp]]].
    unfold mget. destruct (Z.leb_spec 0 (zlen pre + n)); [|unfold zlen in *; lia].
    rewrite lookup_app_r by (unfold zlen; lia). rewrite lookup_app_l by (unfold zlen; lia).
    rewrite <- E. f_equal. unfold zlen. lia. }
  unfold group_loop. cbn [for_loop]. change (0 + 1) with 1. change (1 + 1) with 2.
  destruct l as [|a l]; [done|]. destruct (Hg 0 a eq_refl ltac:(lia)) as (-> & Hl1 & -> & Ha).
  destruct (Z.ltb_spec (zlen pre + 0) (zlen pre + zlen (a :: l))); [|lia].
  rewrite (group_step 0 a) by (done || lia).
  destruct l as [|b l].
  { change (zlen [a]) with 1. destruct (Z.ltb_spec (zlen pre + 1) (zlen pre + 1)); [lia|].
    destruct (Z.ltb_spec (zlen pre + 2) (zlen pre + 1)); [lia|]. done. }
  destruct (Hg 1 b eq_refl ltac:(lia)) as (-> & Hl2 & -> & Hb).
  destruct (Z.ltb_spec (zlen pre + 1) (zlen pre + zlen (a :: b :: l))); [|lia].
  unfold byte_ok in Ha. rewrite (group_step (0 * 256 + a) b) by (done || lia).
  destruct l as [|c l].
  { change (zlen [a; b]) with 2. destruct (Z.ltb_spec (zlen pre + 2) (zlen pre + 2)); [lia|]. done. }
  destruct (Hg 2 c eq_refl ltac:(lia)) as (-> & Hl3 & -> & Hc).
  destruct (Z.ltb_spec (zlen pre + 2) (zlen pre + zlen (a :: b :: c :: l))); [|lia].
  unfold byte_ok in Hb. rewrite (group_step ((0 * 256 + a) * 256 + b) c) by (done || lia). done.
Qed.

(** One letter. *)
Lemma sextet_step fuel val bits rest index don o old :
  bits <> 0 -> 0 <= index < 64 ->
  (if bits >=? 6 then (Z.land (Z.shiftr val (bits - 6)) 63, bits - 6)
   else (Z.land (Z.shiftl val (6 - bits)) 63, 0)) = (index, rest) ->
  sextets (S fuel) val bits (don ++ o :: old) (zlen don) =
  sextets fuel val rest ((don ++ [letter index]) ++ old) (zlen (don ++ [letter index])).
Proof.
  intros Hb Hi E. cbn [sextets]. destruct (Z.eqb_spec bits 0); [done|]. rewrite E.
  rewrite mget_Some by (change (zlen char_set) with 65; lia). rewrite mset_app_mid.
  rewrite <- app_assoc, zlen_app. done.
Qed.

Lemma land_63 x : Z.land x 63 = x mod 64.
Proof. change 63 with (Z.ones 6). by rewrite Z.land_ones by lia. Qed.

(** The letters of a group, without padding. *)
Definition group_letters (l : list Z) : list Z :=
  match l with
  | [] => []
  | [a] => [letter (a / 4); letter (a mod 4 * 16)]
  | [a; b] => [letter (a / 4); letter (a mod 4 * 16 + b / 16); letter (b mod 16 * 4)]
  | a :: b :: c :: _ =>
      [letter (a / 4); letter (a mod 4 * 16 + b / 16); letter (b mod 16 * 4 + c / 64); letter (c mod 64)]
  end.

Lemma sextet_high fuel val bits index don o old :
  6 <= bits -> val / 2 ^ (bits - 6) mod 64 = index ->
  sextets (S fuel) val bits (don ++ o :: old) (zlen don) =
  sextets fuel val (bits - 6) ((don ++ [letter index]) ++ old) (zlen (don ++ [letter index])).
Proof.
  intros Hb <-. apply sextet_step; [lia|apply Z.mod_pos_bound; lia|].
  destruct (Z.geb_spec bits 6); [|lia]. by rewrite land_63, Z.shiftr_div_pow2 by lia.
Qed.

Lemma sextet_low fuel val bits index don o old :
  0 < bits < 6 -> (val * 2 ^ (6 - bits)) mod 64 = index ->
  sextets (S fuel) val bits (don ++ o :: old) (zlen don) =
  sextets fuel val 0 ((don ++ [letter index]) ++ old) (zlen (don ++ [letter index])).
Proof.
  intros Hb <-. apply sextet_step; [lia|apply Z.mod_pos_bound; lia|].
  destruct (Z.geb_spec bits 6); [lia|]. by rewrite land_63, Z.shiftl_mul_pow2 by lia.
Qed.

Lemma sextets_spec g don old : bytes_ok g -> (length g <= 3)%nat -> g <> [] ->
  (length (group_letters g) <= length old)%nat ->
  sextets 5 (be_val g) (zlen g * 8) (don ++ old) (zlen don) =
  Some (don ++ group_letters g ++ drop (length (group_letters g)) old, zlen don + zlen (group_letters g)).
Proof.
  intros Hg Hn Hne Ho.
  destruct g as [|a [|b [|c [|]]]]; [done| | | |simpl in Hn; lia];
    repeat (apply Forall_cons_1 in Hg as [? Hg]); unfold byte_ok in *; unfold be_val; cbn [foldl];
    cbn [group_letters length] in Ho |- *.
  - do 2 (destruct old as [|? old]; [simpl in Ho; lia|]). change (zlen [a] * 8) with 8.
    rewrite (sextet_high _ _ 8 (a / 4)) by (lia || (change (2 ^ (8 - 6)) with 4; div_lia)).
    change (8 - 6) with 2.
    rewrite (sextet_low _ _ 2 (a mod 4 * 16)) by (lia || (change (2 ^ (6 - 2)) with 16; div_lia)).
    cbn [sextets Z.eqb]. rewrite !zlen_app, <- !app_assoc. do 2 f_equal. unfold zlen. cbn [length]. lia.
  - do 3 (destruct old as [|? old]; [simpl in Ho; lia|]). change (zlen [a; b] * 8) with 16.
    rewrite (sextet_high _ _ 16 (a / 4)) by (lia || (change (2 ^ (16 - 6)) with 1024; div_lia)).
    change (16 - 6) with 10.
    rewrite (sextet_high _ _ 10 (a mod 4 * 16 + b / 16)) by (lia || (change (2 ^ (10 - 6)) with 16; div_lia)).
    change (10 - 6) with 4.
    rewrite (sextet_low _ _ 4 (b mod 16 * 4)) by (lia || (change (2 ^ (6 - 4)) with 4; div_lia)).
    cbn [sextets Z.eqb]. rewrite !zlen_app, <- !app_assoc. do 2 f_equal. unfold zlen. cbn [length]. lia.
  - do 4 (destruct old as [|? old]; [simpl in Ho; lia|]). change (zlen [a; b; c] * 8) with 24.
    rewrite (sextet_high _ _ 24 (a / 4)) by (lia || (change (2 ^ (24 - 6)) with 262144; div_lia)).
    change (24 - 6) with 18.
    rewrite (sextet_high _ _ 18 (a mod 4 * 16 + b / 16)) by (lia || (change (2 ^ (18 - 6)) with 4096; div_lia)).
    change (18 - 6) with 12.
    rewrite (sextet_high _ _ 12 (b mod 16 * 4 + c / 64)) by (lia || (change (2 ^ (12 - 6)) with 64; div_lia)).
    change (12 - 6) with 6.
    rewrite (sextet_high _ _ 6 (c mod 64)) by (lia || (change (2 ^ (6 - 6)) with 1; div_lia)).
    cbn [sextets Z.eqb Z.sub Z.add Z.opp Z.pos_sub]. rewrite !zlen_app, <- !app_assoc. do 2 f_equal.
    unfold zlen. cbn [length]. lia.
Qed.

(** The padding of the last group. *)
Definition pad_of (l : list Z) : Z := (zlen l * 8) mod 3.

Lemma b64_group l : l <> [] -> (length l <= 3)%nat -> b64 l = group_letters l ++ replicate (Z.to_nat (pad_of l)) 61.
Proof. intros Hne Hl. destruct l as [|a [|b [|c [|]]]]; [done|done|done|done|simpl in Hl; lia]. Qed.

Lemma groups_loop_spec n : forall signed pre l y don old fuel pad0,
  (length l <= n)%nat -> Forall (plain signed) l -> (length l < fuel)%nat ->
  (length (b64 l) <= length old)%nat -> (l = [] -> pad0 = 0) ->
  exists body old' pad,
    groups_loop fuel signed (pre ++ l ++ y) (zlen pre + zlen l) (zlen pre) (don ++ old) (zlen don) pad0 =
      Some (don ++ body ++ old', zlen don + zlen body, pad) /\
    b64 l = body ++ replicate (Z.to_nat pad) 61 /\ (length body + length old' = length old)%nat.
Proof.
  induction n as [|n IH]; intros signed pre l y don old fuel pad0 Hn Hl Hf Ho Hp;
    (destruct fuel as [|fuel]; [lia|]); cbn [groups_loop].
  { destruct l; [|simpl in Hn; lia]. rewrite Z.add_0_r, Z.ltb_irrefl. exists [], old, pad0.
    rewrite (Hp eq_refl). cbn. rewrite Z.add_0_r. done. }
  destruct l as [|a l'] eqn:El.
  { rewrite Z.add_0_r, Z.ltb_irrefl. exists [], old, pad0. rewrite (Hp eq_refl). cbn. rewrite Z.add_0_r. done. }
  rewrite <- El in *. clear Hp. assert (l <> []) as Hne by (by rewrite El).
  assert (0 < zlen l) as Hpos by (rewrite El, zlen_cons; unfold zlen; lia).
  destruct (Z.ltb_spec (zlen pre) (zlen pre + zlen l)); [|lia]. rewrite group_loop_spec by done.
  set (g := take 3 l). assert (g <> []) as Hg by (unfold g; by rewrite El).
  assert (length g <= 3)%nat as Hg3 by (unfold g; rewrite length_take; lia).
  assert (bytes_ok g) as Hgb by (apply Forall_take; eapply Forall_impl; [|exact Hl]; by intros x [Hx _]).
  destruct (decide (length l <= 3)%nat) as [Hs|Hbig].
  - assert (g = l) as Eg by (unfold g; by apply take_ge). rewrite Eg in *.
    rewrite (b64_group l Hne Hs), length_app in Ho. rewrite sextets_spec by (done || lia).
    destruct fuel as [|fuel]; [unfold zlen in Hpos; lia|]. cbn [groups_loop].
    destruct (Z.ltb_spec (zlen pre + 3) (zlen pre + zlen l)); [unfold zlen in *; lia|].
    exists (group_letters l), (drop (length (group_letters l)) old), (pad_of l).
    split; [done|]. split; [by apply b64_group|]. rewrite length_drop. lia.
  - assert (exists b c r, l = a :: b :: c :: r) as (b & c & r & Er).
    { rewrite El in Hbig |- *. destruct l' as [|b [|c r]]; [simpl in Hbig; lia..|]. by exists b, c, r. }
    clear El. subst l. change (take 3 (a :: b :: c :: r)) with [a; b; c] in g. subst g.
    cbn [b64 length app] in Ho. rewrite sextets_spec by (done || (cbn [group_letters length]; lia)).
    cbn [group_letters length drop]. set (L := [letter (a / 4); _; _; _]).
    do 3 (apply Forall_cons_1 in Hl as [_ Hl]).
    destruct (IH signed (pre ++ [a; b; c]) r y (don ++ L) (drop 4 old) fuel ((zlen [a; b; c] * 8) mod 3))
      as (body & old' & pad & E & Eb & Hlen).
    { simpl in Hn. lia. }
    { done. }
    { simpl in Hf. lia. }
    { rewrite length_drop. lia. }
    { done. }
    exists (L ++ body), old', pad. rewrite !zlen_app in E. change (zlen [a; b; c]) with 3 in E |- *.
    change (zlen L) with 4 in *. rewrite <- !app_assoc in E |- *. cbn [app] in E |- *. rewrite !zlen_cons.
    replace (zlen pre + (1 + (1 + (1 + zlen r)))) with (zlen pre + 3 + zlen r) by lia.
    split; [|split].
    + rewrite zlen_app. change (zlen L) with 4. rewrite E.
      by rewrite <- app_assoc, <- Z.add_assoc.
    + cbn [b64]. fold L. by rewrite Eb.
    + rewrite length_app, length_drop in *. change (length L) with 4%nat. lia.
Qed.

Lemma pad_loop64 n : forall (don old : list Z) k i, k = zlen don -> (n <= length old)%nat ->
  for_loop n i (fun _ s => let '(res, k) := s in res <- mset res k 61;; Some (res, k + 1)) (don ++ old, k) =
  Some (don ++ replicate n 61 ++ drop n old, k + Z.of_nat n).
Proof.
  induction n as [|n IH]; intros don old k i -> Hn.
  - cbn [for_loop replicate app]. by rewrite Z.add_0_r.
  - destruct old as [|o old]; [simpl in Hn; lia|]. cbn [for_loop]. rewrite mset_app_mid. cbv beta iota.
    change (don ++ 61 :: old) with (don ++ [61] ++ old). rewrite app_assoc.
    rewrite IH by (rewrite ?zlen_app; done || (simpl in Hn; lia)). rewrite <- app_assoc. cbn [replicate app drop].
    do 2 f_equal. lia.
Qed.

Lemma base64Encode_b64 signed l y res : Forall (plain signed) l -> (length (b64 l) < length res)%nat ->
  exists x, base64Encode signed (l ++ y) (zlen l) (Some res) = Some (true, Some (b64 l ++ 0 :: x)).
Proof.
  intros Hl Hr. unfold base64Encode.
  destruct (groups_loop_spec (length l) signed [] l y [] res (S (Z.to_nat (zlen l))) 0) as
    (body & old & pad & E & Eb & Hlen); [lia|done|unfold zlen; lia|lia|done|].
  change (zlen []) with 0 in E. cbn [app] in E. rewrite Z.add_0_l in E. rewrite E. cbv beta iota.
  rewrite Eb, length_app, length_replicate in Hr.
  rewrite pad_loop64 by (done || lia). cbv beta iota.
  replace (0 + zlen body + Z.of_nat (Z.to_nat pad)) with (zlen (body ++ replicate (Z.to_nat pad) 61))
    by (rewrite zlen_app; unfold zlen; rewrite length_replicate; lia).
  destruct (drop (Z.to_nat pad) old) as [|o x] eqn:Ed.
  { apply (f_equal length) in Ed. rewrite length_drop in Ed. simpl in Ed. lia. }
  rewrite app_assoc, mset_app_mid, <- Eb. by exists x.
Qed.

(** *** Random keys *)

Definition alnum (c : Z) : Prop := 48 <= c <= 57 \/ 65 <= c <= 90 \/ 97 <= c <= 122.

Lemma key_letter n : exists c, mget char_set (n mod (zlen char_set - 3)) = Some c /\ alnum c.
Proof.
  change (zlen char_set - 3) with 62. pose proof (Z.mod_pos_bound n 62 ltac:(lia)) as Hn.
  rewrite mget_Some by (change (zlen char_set) with 65; lia). eexists. split; [reflexivity|].
  pose proof (forall_below (fun x => let c := char_set !!! Z.to_nat x in
    ((48 <=? c) && (c <=? 57)) || ((65 <=? c) && (c <=? 90)) || ((97 <=? c) && (c <=? 122))) 62 eq_refl _ Hn) as H.
  cbv beta zeta in H. unfold alnum.
  apply orb_true_iff in H as [[H|H]%orb_true_iff|H]; apply andb_true_iff in H as [H1%Z.leb_le H2%Z.leb_le]; lia.
Qed.

Lemma genUniqueKey_alnum rnd old post :
  exists key, genUniqueKey rnd (old ++ post) (zlen old) = Some (key ++ post) /\ length key = length old /\
    Forall alnum key.
Proof.
  unfold genUniqueKey. replace (Z.to_nat (zlen old)) with (length old) by (unfold zlen; lia).
  destruct (for_loop_inv (fun i m => exists key rest, m = key ++ rest ++ post /\ zlen key = i /\
      zlen key + zlen rest = zlen old /\ Forall alnum key) (length old) 0
    (fun i key => c <- mget char_set (rnd i mod (zlen char_set - 3));; mset key i c) (old ++ post))
    as (m & -> & key & rest & -> & Hi & Hl & Ha).
  - intros i m Hi (key & rest & -> & <- & Hl & Ha). destruct (key_letter (rnd (zlen key))) as (c & -> & Hc).
    destruct rest as [|o rest]; [change (zlen []) with 0 in Hl; unfold zlen in *; lia|]. cbn [app].
    rewrite mset_app_mid. eexists. split; [reflexivity|]. exists (key ++ [c]), rest.
    rewrite zlen_cons in Hl. rewrite <- app_assoc, !zlen_app. change (zlen [c]) with 1.
    split; [done|]. split; [done|]. split; [lia|]. apply Forall_app_2; [done|]. by apply Forall_singleton.
  - exists [], old. done.
  - exists key. destruct rest; [|unfold zlen in *; simpl in *; lia]. split; [done|].
    split; [unfold zlen in *; simpl in *; lia|done].
Qed.

(** ** Properties *)

(** on a target with an unsigned [char], or for ASCII text, [base64Encode] writes
    the encoding of RFC 4648 with its padding and a terminator, which decodes to exactly
    the input; it writes nothing behind the terminator. *)
Theorem base64_encode_roundtrip signed l y res :
  Forall (plain signed) l -> (length (b64 l) < length res)%nat ->
  (exists x, base64Encode signed (l ++ y) (zlen l) (Some res) = Some (true, Some (b64 l ++ 0 :: x))) /\
  unb64 (b64 l) = Some l.
Proof.
  intros Hl Hr. split; [by apply base64Encode_b64|]. apply (unb64_b64 (length l)); [done|].
  eapply Forall_impl; [|exact Hl]. by intros x [Hx _].
Qed.

(** where [char] is signed, a byte above 127 in the second or third place of a group
    is extended with its sign over the bytes before it: the two letters for the bytes 1
    and 200 come out as for other bytes. *)
Theorem base64_signed_char_breaks :
  exists x, base64Encode true [1; 200] 2 (Some (replicate 8 7)) = Some (true, Some (x ++ [0; 7; 7; 7])) /\
    unb64 x = Some [255; 200].
Proof. by exists [47; 56; 103; 61]. Qed.

(** [genUniqueKey] fills all [len] characters with letters and digits: nothing
    behind them changes and none of them is a terminator, whatever [rand()] returns. *)
Theorem genUniqueKey_unterminated rnd old post :
  exists key, genUniqueKey rnd (old ++ post) (zlen old) = Some (key ++ post) /\ length key = length old /\
    Forall alnum key.
Proof. apply genUniqueKey_alnum. Qed.

(** ** Concrete instances *)

Lemma base64_encode_roundtrip_witness :
  (exists x, base64Encode true ([77; 97; 110; 33] ++ [0]) 4 (Some (replicate 9 0)) =
     Some (true, Some (b64 [77; 97; 110; 33] ++ 0 :: x))) /\
  unb64 (b64 [77; 97; 110; 33]) = Some [77; 97; 110; 33].
Proof.
  apply (base64_encode_roundtrip true [77; 97; 110; 33] [0] (replicate 9 0)); [|vm_compute; lia].
  repeat (apply Forall_cons_2; [split; [split; lia|lia]|]). constructor.
Defined.

(** The first example of the standard: Man is TWFu. *)
Lemma b64_man : b64 [77; 97; 110] = [84; 87; 70; 117].
Proof. done. Qed.

End Base64.
