(* ===== verification/Curve25519.v ===== *)
(** * Curve25519 ([src/utility/crypto/asymmetric/curve25519/curve25519.cpp])

    Field elements are arrays of sixteen [long long] limbs in radix 2^16.  The functions
    write through pointers that may name the same array ([fmul(c, c, c)]), so they work
    on a store of arrays, and every sum, difference, product and shift is checked against
    the range of [long long]: [None] is undefined behaviour.  Right shifts of negative
    values are arithmetic and left shifts multiply, as the compiler documents.

    The theorems: the arithmetic is that of the integers modulo 2^255 - 19 and never
    overflows; [crypto_scalarmult] is the function X25519 of RFC 7748. *)

From stdpp Require Import base option list numbers.
From Stdlib Require Import ZArith Lia Zpow_facts.
From S2P Require Import Prelude Words Base64.

Open Scope Z_scope.

Module Curve25519.

(** ** The code *)

(** A value of [long long]. *)
Definition ll (x : Z) : option Z :=
  if (-9223372036854775808 <=? x) && (x <=? 9223372036854775807) then Some x else None.

(** The arrays in scope, by number. *)
Abbreviation store := (list (list Z)).

Definition rd (st : store) (a : nat) (i : Z) : option Z := l <- st !! a;; mget l i.

Definition wr (st : store) (a : nat) (i v : Z) : option store :=
  l <- st !! a;; l <- mset l i v;; Some (<[a := l]> st).

(** A function with one array as its argument, called for array [a]. *)
Definition call_on (f : list Z -> option (list Z)) (st : store) (a : nat) : option store :=
  l <- st !! a;; l <- f l;; Some (<[a := l]> st).

Definition base : list Z := 9 :: replicate 31 0.

Definition _121665 : list Z := 0xDB41 :: 1 :: replicate 14 0.

Definition unpack25519 (inp : list Z) (out : list Z) : option (list Z) :=
  out <- for_loop 16 0 (fun i out =>
           x <- mget inp (2 * i);; y <- mget inp (2 * i + 1);;
           v <- ll (x + Z.shiftl y 8);; mset out i v) out;;
  x <- mget out 15;; mset out 15 (Z.land x 0x7fff).

Definition carry_step (i : Z) (elem : list Z) : option (list Z) :=
  x <- mget elem i;;
  let carry := Z.shiftr x 16 in
  s <- ll (Z.shiftl carry 16);; v <- ll (x - s);;
  elem <- mset elem i v;;
  if i <? 15 then
    y <- mget elem (i + 1);; v <- ll (y + carry);; mset elem (i + 1) v
  else
    y <- mget elem 0;; m <- ll (38 * carry);; v <- ll (y + m);; mset elem 0 v.

Definition carry25519 (elem : list Z) : option (list Z) := for_loop 16 0 carry_step elem.

Definition fadd (st : store) (out a b : nat) : option store :=
  for_loop 16 0 (fun i st => x <- rd st a i;; y <- rd st b i;; v <- ll (x + y);; wr st out i v) st.

Definition fsub (st : store) (out a b : nat) : option store :=
  for_loop 16 0 (fun i st => x <- rd st a i;; y <- rd st b i;; v <- ll (x - y);; wr st out i v) st.

(** The products, row by row; [product] is the local array after it was zeroed. *)
Definition mul_row (st : store) (a b : nat) (i : Z) (product : list Z) : option (list Z) :=
  for_loop 16 0 (fun j product =>
    x <- rd st a i;; y <- rd st b j;; m <- ll (x * y);;
    p <- mget product (i + j);; v <- ll (p + m);; mset product (i + j) v) product.

Definition fold_high (product : list Z) : option (list Z) :=
  for_loop 15 0 (fun i product =>
    h <- mget product (i + 16);; m <- ll (38 * h);;
    p <- mget product i;; v <- ll (p + m);; mset product i v) product.

Definition fmul (st : store) (out a b : nat) : option store :=
  product <- for_loop 16 0 (mul_row st a b) (replicate 31 0);;
  product <- fold_high product;;
  st <- for_loop 16 0 (fun i st => v <- mget product i;; wr st out i v) st;;
  st <- call_on carry25519 st out;;
  call_on carry25519 st out.

(** [finverse(out, in)]: the local [c] is a further array, which the first loop writes. *)
Definition copy_elem (st : store) (out inp : nat) : option store :=
  for_loop 16 0 (fun i st => v <- rd st inp i;; wr st out i v) st.

Definition inverse_step (c inp : nat) (n : Z) (st : store) : option store :=
  let i := 253 - n in
  st <- fmul st c c c;;
  if negb (i =? 2) && negb (i =? 4) then fmul st c c inp else Some st.

Definition finverse (st : store) (out inp : nat) : option store :=
  let c := length st in
  st <- copy_elem (st ++ [replicate 16 0]) c inp;;
  st <- for_loop 254 0 (inverse_step c inp) st;;
  st <- copy_elem st out c;;
  Some (take c st).

Definition swap25519 (st : store) (p q : nat) (bit : Z) : option store :=
  let c := Z.lnot (bit - 1) in
  for_loop 16 0 (fun i st =>
    x <- rd st p i;; y <- rd st q i;;
    let t := Z.land c (Z.lxor x y) in
    st <- wr st p i (Z.lxor x t);;
    y <- rd st q i;; wr st q i (Z.lxor y t)) st.

(** One of the two subtractions of the prime: [m] from [t]. *)
Definition sub_prime (t m : list Z) : option (list Z) :=
  x <- mget t 0;; v <- ll (x - 0xffed);; m <- mset m 0 v;;
  m <- for_loop 14 1 (fun i m =>
         x <- mget t i;; y <- mget m (i - 1);;
         v <- ll (x - 0xffff - Z.land (Z.shiftr y 16) 1);;
         m <- mset m i v;; y <- mget m (i - 1);; mset m (i - 1) (Z.land y 0xffff)) m;;
  x <- mget t 15;; y <- mget m 14;;
  v <- ll (x - 0x7fff - Z.land (Z.shiftr y 16) 1);;
  m <- mset m 15 v;; y <- mget m 14;; mset m 14 (Z.land y 0xffff).

(** The locals are [t] (array 0) and [m] (array 1). *)
Definition pack_round (j : Z) (st : store) : option store :=
  t <- st !! 0%nat;; m <- st !! 1%nat;;
  m <- sub_prime t m;; x <- mget m 15;;
  let carry := Z.land (Z.shiftr x 16) 1 in
  swap25519 (<[1%nat := m]> st) 0 1 (1 - carry).

Definition pack25519 (out inp : list Z) : option (list Z) :=
  t <- msub inp 0 16;;
  t <- carry25519 t;; t <- carry25519 t;; t <- carry25519 t;;
  st <- for_loop 2 0 pack_round [t; replicate 16 0];;
  t <- st !! 0%nat;;
  for_loop 16 0 (fun i out =>
    x <- mget t i;; out <- mset out (2 * i) (u8 (Z.land x 0xff));;
    mset out (2 * i + 1) (u8 (Z.shiftr x 8))) out.

(** The arrays of [crypto_scalarmult] and the constant. *)
Definition a_ : nat := 0.
Definition b_ : nat := 1.
Definition c_ : nat := 2.
Definition d_ : nat := 3.
Definition e_ : nat := 4.
Definition f_ : nat := 5.
Definition x_ : nat := 6.
Definition k_ : nat := 7.

Definition clamp (scalar : list Z) : option (list Z) :=
  c <- msub scalar 0 32;;
  x <- mget c 0;; c <- mset c 0 (Z.land x 0xf8);;
  x <- mget c 31;; mset c 31 (Z.lor (Z.land x 0x7f) 0x40).

(** The operations of a round between the swaps. *)
Definition ladder_core (st : store) : option store :=
  st <- fadd st e_ a_ c_;;
  st <- fsub st a_ a_ c_;;
  st <- fadd st c_ b_ d_;;
  st <- fsub st b_ b_ d_;;
  st <- fmul st d_ e_ e_;;
  st <- fmul st f_ a_ a_;;
  st <- fmul st a_ c_ a_;;
  st <- fmul st c_ b_ e_;;
  st <- fadd st e_ a_ c_;;
  st <- fsub st a_ a_ c_;;
  st <- fmul st b_ a_ a_;;
  st <- fsub st c_ d_ f_;;
  st <- fmul st a_ c_ k_;;
  st <- fadd st a_ a_ d_;;
  st <- fmul st c_ c_ a_;;
  st <- fmul st a_ d_ f_;;
  st <- fmul st d_ b_ x_;;
  fmul st b_ e_ e_.

Definition ladder_step (clamped : list Z) (n : Z) (st : store) : option store :=
  let i := 254 - n in
  x <- mget clamped (Z.shiftr i 3);;
  let bit := Z.land (Z.shiftr x (Z.land i 7)) 1 in
  st <- swap25519 st a_ b_ bit;;
  st <- swap25519 st c_ d_ bit;;
  st <- ladder_core st;;
  st <- swap25519 st a_ b_ bit;;
  swap25519 st c_ d_ bit.

(** [e] and [f] have no value before the first round writes them. *)
Definition crypto_scalarmult (out scalar point : list Z) : option (list Z) :=
  clamped <- clamp scalar;;
  x <- unpack25519 point (replicate 16 0);;
  let zero := replicate 16 0 in
  a <- mset zero 0 1;; d <- mset zero 0 1;;
  st <- for_loop 255 0 (ladder_step clamped) [a; x; zero; d; zero; zero; x; _121665];;
  st <- finverse st c_ c_;;
  st <- fmul st a_ a_ c_;;
  r <- st !! a_;;
  pack25519 out r.

Definition crypto_scalarmult_base (q n : list Z) : option (list Z) := crypto_scalarmult q n base.

Definition curve25519_create_keypair (rnd : Z -> Z) (public_key private_key : list Z)
  : option (list Z * list Z) :=
  private_key <- Base64.genUniqueKey rnd private_key 32;;
  public_key <- crypto_scalarmult_base public_key private_key;;
  Some (public_key, private_key).

Definition curve25519_create_keypair_with_ed25519privkey (public_key private_key ed25519_private_key : list Z)
  : option (list Z * list Z) :=
  private_key <- for_loop 32 0 (fun i pk => x <- mget ed25519_private_key i;; mset pk i x) private_key;;
  public_key <- crypto_scalarmult_base public_key private_key;;
  Some (public_key, private_key).

(** ** Values of field elements *)

Definition p25519 : Z := 2 ^ 255 - 19.

(** The number an array of limbs stands for. *)
Fixpoint fe (l : list Z) : Z :=
  match l with
  | [] => 0
  | x :: l => x + 65536 * fe l
  end.

Definition digit (x : Z) : Prop := 0 <= x < 65536.
Definition within (b x : Z) : Prop := - b <= x <= b.

Lemma ll_Some x : within (2 ^ 62) x -> ll x = Some x.
Proof.
  unfold within, ll. intros H. destruct (Z.leb_spec (-9223372036854775808) x); [|lia].
  destruct (Z.leb_spec x 9223372036854775807); [done|lia].
Qed.

Lemma within_mono b b' x : b <= b' -> within b x -> within b' x.
Proof. unfold within. lia. Qed.

Lemma fe_app l k : fe (l ++ k) = fe l + 65536 ^ zlen l * fe k.
Proof.
  induction l as [|x l IH]; cbn [fe app]; [change (zlen []) with 0; lia|].
  rewrite IH, zlen_cons, Z.pow_add_r by (unfold zlen; lia). change (65536 ^ 1) with 65536. lia.
Qed.

Lemma fe_digits l : Forall digit l -> 0 <= fe l < 65536 ^ zlen l.
Proof.
  induction 1 as [|x l Hx Hl IH]; cbn [fe]; [done|]. unfold digit in Hx.
  rewrite zlen_cons, Z.pow_add_r by (unfold zlen; lia). change (65536 ^ 1) with 65536. lia.
Qed.

Lemma fe_zeros n : fe (replicate n 0) = 0.
Proof. induction n as [|n IH]; cbn [replicate fe]; [done|]. rewrite IH. lia. Qed.

(** Storing a limb. *)
Lemma fe_insert (l : list Z) i v x : l !! i = Some x ->
  fe (<[i := v]> l) = fe l + (v - x) * 65536 ^ Z.of_nat i.
Proof.
  revert i. induction l as [|y l IH]; intros [|i] E; try done.
  - injection E as ->. cbn [insert list_insert fe]. change (65536 ^ Z.of_nat 0) with 1. lia.
  - cbn in E. change (<[S i := v]> (y :: l)) with (y :: <[i := v]> l). cbn [fe]. rewrite (IH i E).
    replace (Z.of_nat (S i)) with (1 + Z.of_nat i) by lia. rewrite Z.pow_add_r by lia.
    change (65536 ^ 1) with 65536. lia.
Qed.

(** ** The carry

    One pass as a function: the carries run through the limbs, [c] comes in and the carry
    of the last limb goes out. *)
Fixpoint propagate (c : Z) (l : list Z) : list Z * Z :=
  match l with
  | [] => ([], c)
  | x :: l => let r := propagate ((x + c) / 65536) l in (((x + c) mod 65536) :: fst r, snd r)
  end.

Lemma propagate_val l : forall c, fe (fst (propagate c l)) + 65536 ^ zlen l * snd (propagate c l) = fe l + c.
Proof.
  induction l as [|x l IH]; intros c; cbn [propagate fst snd fe]; [change (zlen []) with 0; lia|].
  specialize (IH ((x + c) / 65536)). rewrite zlen_cons, Z.pow_add_r by (unfold zlen; lia).
  change (65536 ^ 1) with 65536. pose proof (Z.div_mod (x + c) 65536). lia.
Qed.

Lemma propagate_digits l : forall c, Forall digit (fst (propagate c l)).
Proof.
  induction l as [|x l IH]; intros c; cbn [propagate fst]; [constructor|].
  apply Forall_cons_2; [|apply IH]. unfold digit. apply Z.mod_pos_bound. lia.
Qed.

Lemma propagate_length l : forall c, length (fst (propagate c l)) = length l.
Proof. induction l as [|x l IH]; intros c; cbn [propagate fst length]; auto. Qed.

(** The first limb takes 38 times the carry of the last. *)
Definition wrap_carry (r : list Z * Z) : list Z :=
  match fst r with
  | [] => []
  | h :: t => (h + 38 * snd r) :: t
  end.

Lemma carry_step_mid pre x y l i : i = zlen pre -> i < 15 ->
  within (2 ^ 57) x -> within (2 ^ 56) y ->
  carry_step i (pre ++ x :: y :: l) = Some (pre ++ x mod 65536 :: (y + x / 65536) :: l).
Proof.
  unfold within. intros -> Hi Hx Hy. unfold carry_step. rewrite mget_app_mid.
  rewrite Z.shiftr_div_pow2, Z.shiftl_mul_pow2 by lia. change (2 ^ 16) with 65536.
  assert (within (2 ^ 42) (x / 65536)) as Hc by (unfold within; div_lia).
  assert (x - x / 65536 * 65536 = x mod 65536) as Em by (pose proof (Z.div_mod x 65536); lia).
  unfold within in Hc. rewrite ll_Some by (unfold within; lia).
  rewrite Em, ll_Some by (unfold within; div_lia). rewrite mset_app_mid.
  destruct (Z.ltb_spec (zlen pre) 15); [|lia].
  replace (zlen pre + 1) with (zlen (pre ++ [x mod 65536])) by (by rewrite zlen_app).
  change (pre ++ x mod 65536 :: y :: l) with (pre ++ [x mod 65536] ++ y :: l). rewrite app_assoc.
  rewrite mget_app_mid, ll_Some by (unfold within; lia). rewrite mset_app_mid. by rewrite <- app_assoc.
Qed.

Lemma carry_step_last h pre x : zlen (h :: pre) = 15 -> digit h -> within (2 ^ 57) x ->
  carry_step 15 (h :: pre ++ [x]) = Some ((h + 38 * (x / 65536)) :: pre ++ [x mod 65536]).
Proof.
  unfold within, digit. intros Hp Hh Hx. unfold carry_step.
  change (h :: pre ++ ?l) with ((h :: pre) ++ l). rewrite <- Hp at 1. rewrite mget_app_mid.
  rewrite Z.shiftr_div_pow2, Z.shiftl_mul_pow2 by lia. change (2 ^ 16) with 65536.
  assert (within (2 ^ 42) (x / 65536)) as Hc by (unfold within; div_lia).
  assert (x - x / 65536 * 65536 = x mod 65536) as Em by (pose proof (Z.div_mod x 65536); lia).
  unfold within in Hc. rewrite ll_Some by (unfold within; lia).
  rewrite Em, ll_Some by (unfold within; div_lia). rewrite <- Hp at 1. rewrite mset_app_mid.
  change (15 <? 15) with false. cbv iota. cbn [app].
  change (mget (h :: ?l) 0) with (Some h). cbv beta iota.
  rewrite ll_Some by (unfold within; lia). rewrite ll_Some by (unfold within; lia). by rewrite mset_0.
Qed.

Lemma carry_loop l : forall h pre c, zlen (h :: pre) + zlen l = 16 -> (0 < length l)%nat -> digit h ->
  Forall (within (2 ^ 56)) l -> within (2 ^ 42) c ->
  for_loop (length l) (zlen (h :: pre)) carry_step
    (h :: pre ++ match l with [] => [] | x :: l => (x + c) :: l end) =
  Some (let r := propagate c l in (h + 38 * snd r) :: pre ++ fst r).
Proof.
  induction l as [|x l IH]; intros h pre c Hz Hl Hh Hx Hc; [simpl in Hl; lia|].
  apply Forall_cons_1 in Hx as [Hx Hxs]. unfold within in Hx, Hc.
  cbn [length for_loop propagate fst snd].
  assert (within (2 ^ 57) (x + c)) as Hxc by (unfold within; lia).
  destruct l as [|y l].
  - rewrite zlen_cons in Hz. change (zlen [x]) with 1 in Hz.
    replace (zlen (h :: pre)) with 15 by (rewrite zlen_cons; lia).
    rewrite carry_step_last by (done || rewrite zlen_cons; lia). done.
  - apply Forall_cons_1 in Hxs as [Hy Hxs].
    change (h :: pre ++ (x + c) :: y :: l) with ((h :: pre) ++ (x + c) :: y :: l).
    rewrite carry_step_mid by (done || rewrite !zlen_cons in *; unfold zlen in *; lia).
    pose proof (IH h (pre ++ [(x + c) mod 65536]) ((x + c) / 65536)) as E.
    rewrite !zlen_cons, zlen_app in *. change (zlen [(x + c) mod 65536]) with 1 in E.
    cbv zeta in E. rewrite <- !app_assoc in E. cbn [app] in E |- *.
    replace (1 + zlen pre + 1) with (1 + (zlen pre + 1)) by lia.
    apply E; [lia|simpl; lia|done|by apply Forall_cons_2|unfold within in *; div_lia].
Qed.

(** One pass takes [c] times 2^256 - 38, that is 2 p, from the value; the limbs after
    it are digits but for the first. *)
Lemma carry25519_spec l : length l = 16%nat -> Forall (within (2 ^ 56)) l ->
  exists h t c, carry25519 l = Some ((h + 38 * c) :: t) /\ Forall digit (h :: t) /\
    length (h :: t) = 16%nat /\ fe (h :: t) + 2 ^ 256 * c = fe l.
Proof.
  intros Hl Hb. pose proof (propagate_val l 0) as Hv. pose proof (propagate_digits l 0) as Hd.
  pose proof (propagate_length l 0) as Hn. unfold zlen in Hv. rewrite Hl in Hv, Hn.
  destruct l as [|x [|y l]]; [done|simpl in Hl; lia|].
  cbn [propagate fst snd] in Hv, Hd, Hn. rewrite Z.add_0_r in *.
  set (r := propagate ((y + x / 65536) / 65536) l) in *.
  exists (x mod 65536), ((y + x / 65536) mod 65536 :: fst r), (snd r).
  split_and!; [|done|done|change (2 ^ 256) with (65536 ^ Z.of_nat 16); lia].
  unfold carry25519. rewrite <- Hl at 1. cbn [length for_loop].
  apply Forall_cons_1 in Hb as [Hx Hb]. unfold within in Hx.
  pose proof (carry_step_mid [] x y l 0) as E0. cbn [app] in E0.
  apply Forall_cons_1 in Hb as [Hy Hb].
  rewrite E0; [|done|done|unfold within; lia|done].
  pose proof (carry_loop (y :: l) (x mod 65536) [] (x / 65536)) as E. cbn [app] in E.
  change (zlen [x mod 65536]) with 1 in E. change (0 + 1) with 1. cbn [length for_loop] in E. rewrite E.
  - done.
  - unfold zlen. simpl in Hl. cbn [length]. lia.
  - lia.
  - unfold digit. apply Z.mod_pos_bound. lia.
  - by apply Forall_cons_2.
  - unfold within. div_lia.
Qed.

(** ** Loops over arrays of the store *)

Lemma rd_Some st a A i : st !! a = Some A -> rd st a i = mget A i.
Proof. intros E. unfold rd. by rewrite E. Qed.

(** Array [o] after the first [i] limbs of [F] were written to it. *)
Definition part_written (st : store) (o : nat) (O F : list Z) (i : Z) : store :=
  <[o := take (Z.to_nat i) F ++ drop (Z.to_nat i) O]> st.

(** A limb that is not written yet reads as before, also in [o]. *)
Lemma rd_part st o O F a A i :
  st !! o = Some O -> st !! a = Some A -> 0 <= i <= zlen F ->
  rd (part_written st o O F i) a i = mget A i.
Proof.
  intros Eo Ea Hi. unfold rd, part_written. destruct (decide (a = o)) as [->|Hne].
  - simplify_eq. rewrite list_lookup_insert_eq by (by eapply lookup_lt_Some).
    unfold mget. destruct (Z.leb_spec 0 i); [|lia]. unfold zlen in Hi.
    rewrite lookup_app_r; rewrite length_take_le by lia; [|lia].
    rewrite Nat.sub_diag, lookup_drop. f_equal. lia.
  - by rewrite list_lookup_insert_ne, Ea by done.
Qed.

Lemma wr_part st o O F i v :
  st !! o = Some O -> length F = length O -> 0 <= i < zlen F -> F !! Z.to_nat i = Some v ->
  wr (part_written st o O F i) o i v = Some (part_written st o O F (i + 1)).
Proof.
  intros Eo Hl Hi Ev. unfold wr, part_written. unfold zlen in Hi.
  rewrite list_lookup_insert_eq by (by eapply lookup_lt_Some).
  destruct (lookup_lt_is_Some_2 O (Z.to_nat i)) as [y Ey]; [lia|].
  rewrite (drop_S O y (Z.to_nat i) Ey).
  replace i with (zlen (take (Z.to_nat i) F)) at 3 by (unfold zlen; rewrite length_take_le by lia; lia).
  rewrite mset_app_mid, list_insert_insert_eq. do 2 f_equal.
  replace (Z.to_nat (i + 1)) with (S (Z.to_nat i)) by lia.
  by rewrite (take_S_r F _ v Ev), <- app_assoc.
Qed.

(** A loop that writes the limbs of [F] to [o] one after the other. *)
Lemma store_loop st o O F body :
  st !! o = Some O -> length O = 16%nat -> length F = 16%nat ->
  (forall i v, 0 <= i < 16 -> F !! Z.to_nat i = Some v ->
    body i (part_written st o O F i) = wr (part_written st o O F i) o i v) ->
  for_loop 16 0 body st = Some (<[o := F]> st).
Proof.
  intros Eo HO HF Hb.
  destruct (for_loop_inv (fun i s => s = part_written st o O F i) 16 0 body st) as (s & -> & ->).
  - intros i s Hi ->. destruct (lookup_lt_is_Some_2 F (Z.to_nat i)) as [v Ev]; [lia|].
    rewrite (Hb i v) by (done || lia). eexists. split; [|reflexivity].
    apply wr_part; [done|lia|unfold zlen; lia|done].
  - unfold part_written. change (Z.to_nat 0) with 0%nat. cbn [take drop app].
    symmetry. by apply list_insert_id.
  - unfold part_written. change (Z.to_nat (0 + Z.of_nat 16)) with 16%nat.
    by rewrite take_ge, drop_ge, app_nil_r by lia.
Qed.

Lemma zip_loop op st o a b O A B :
  st !! o = Some O -> st !! a = Some A -> st !! b = Some B ->
  length O = 16%nat -> length A = 16%nat -> length B = 16%nat ->
  Forall (within (2 ^ 62)) (zip_with op A B) ->
  for_loop 16 0 (fun i st => x <- rd st a i;; y <- rd st b i;; v <- ll (op x y);; wr st o i v) st =
  Some (<[o := zip_with op A B]> st).
Proof.
  intros Eo Ea Eb HO HA HB Hf. assert (length (zip_with op A B) = 16%nat) as HF by (rewrite length_zip_with; lia).
  apply (store_loop st o O); [done|done|done|]. intros i v Hi Ev.
  rewrite (rd_part _ _ _ _ a A), (rd_part _ _ _ _ b B) by (done || unfold zlen; lia).
  pose proof (Forall_lookup_1 _ _ _ _ Hf Ev) as Hv.
  apply lookup_zip_with_Some in Ev as (x & y & -> & Ex & Ey).
  unfold mget. destruct (Z.leb_spec 0 i); [|lia]. rewrite Ex, Ey. by rewrite ll_Some by done.
Qed.

Lemma copy_elem_spec st o a O A : st !! o = Some O -> st !! a = Some A ->
  length O = 16%nat -> length A = 16%nat -> copy_elem st o a = Some (<[o := A]> st).
Proof.
  intros Eo Ea HO HA. apply (store_loop st o O); [done|done|done|]. intros i v Hi Ev.
  rewrite (rd_part _ _ _ _ a A) by (done || unfold zlen; lia).
  unfold mget. destruct (Z.leb_spec 0 i); [|lia]. by rewrite Ev.
Qed.

(** *** Addition and subtraction *)

Lemma zip_within op A B m n : (forall x y, within m x -> within m y -> within n (op x y)) ->
  Forall (within m) A -> Forall (within m) B -> Forall (within n) (zip_with op A B).
Proof.
  intros Hop HA. revert B. induction HA as [|x A Hx HA IH]; intros B HB; [constructor|].
  destruct HB as [|y B Hy HB]; [constructor|]. cbn [zip_with]. apply Forall_cons_2; auto.
Qed.

Lemma fe_zip op A B : (forall x y u v, op x y + 65536 * op u v = op (x + 65536 * u) (y + 65536 * v)) ->
  op 0 0 = 0 -> length A = length B -> fe (zip_with op A B) = op (fe A) (fe B).
Proof.
  intros Hop H0. revert B. induction A as [|x A IH]; intros [|y B] Hl; try done.
  cbn [zip_with fe]. rewrite IH by (simpl in Hl; lia). apply Hop.
Qed.

(** Limbs that a product accepts. *)
Definition small (l : list Z) : Prop := length l = 16%nat /\ Forall (within (2 ^ 18)) l.

Lemma fadd_spec st o a b O A B :
  st !! o = Some O -> st !! a = Some A -> st !! b = Some B -> length O = 16%nat ->
  small A -> small B -> fadd st o a b = Some (<[o := zip_with Z.add A B]> st).
Proof.
  intros Eo Ea Eb HO [HA HAb] [HB HBb]. unfold fadd.
  apply (zip_loop Z.add st o a b O A B); try done.
  apply (zip_within _ _ _ (2 ^ 18)); [|done|done]. unfold within. lia.
Qed.

Lemma fsub_spec st o a b O A B :
  st !! o = Some O -> st !! a = Some A -> st !! b = Some B -> length O = 16%nat ->
  small A -> small B -> fsub st o a b = Some (<[o := zip_with Z.sub A B]> st).
Proof.
  intros Eo Ea Eb HO [HA HAb] [HB HBb]. unfold fsub.
  apply (zip_loop Z.sub st o a b O A B); try done.
  apply (zip_within _ _ _ (2 ^ 18)); [|done|done]. unfold within. lia.
Qed.

(** *** Multiplication *)

Lemma mget_lookup l i x : mget l i = Some x <-> 0 <= i /\ l !! Z.to_nat i = Some x.
Proof.
  unfold mget. destruct (Z.leb_spec 0 i); split; [done|by intros [_ ?]|done|lia].
Qed.

(** Adding [v] to limb [i]. *)
Lemma add_limb P i q v : mget P i = Some q ->
  exists P', mset P i (q + v) = Some P' /\ length P' = length P /\ fe P' = fe P + v * 65536 ^ i /\
    mget P' i = Some (q + v) /\ forall k, k <> i -> mget P' k = mget P k.
Proof.
  intros E. apply mget_lookup in E as [Hi E]. pose proof (lookup_lt_Some _ _ _ E) as Hl.
  exists (<[Z.to_nat i := q + v]> P). split; [|split; [apply length_insert|split; [|split]]].
  - apply mset_Some. unfold zlen. lia.
  - rewrite (fe_insert _ _ _ q) by done. rewrite Z2Nat.id by done. lia.
  - apply mget_lookup. split; [done|]. by apply list_lookup_insert_eq.
  - intros k Hk. unfold mget. destruct (Z.leb_spec 0 k); [|done]. apply list_lookup_insert_ne. lia.
Qed.

(** The limbs of [P] are at most [n] units, and the first limbs of a row one more. *)
Definition row_bound (u n i j : Z) (P : list Z) : Prop :=
  length P = 31%nat /\
  forall k x, mget P k = Some x -> within (u * (if (i <=? k) && (k <? i + j) then n + 1 else n)) x.

Lemma mul_row_spec st a b A B i x P u :
  st !! a = Some A -> st !! b = Some B -> small A -> small B -> 0 <= i < 16 -> mget A i = Some x ->
  u = 2 ^ 36 -> row_bound u i i 0 P ->
  exists P', mul_row st a b i P = Some P' /\ row_bound u (i + 1) (i + 1) 0 P' /\
    fe P' = fe P + x * fe B * 65536 ^ i.
Proof.
  intros Ea Eb [HA HAb] [HB HBb] Hi Ex Hu Hbd. unfold mul_row. rewrite (rd_Some st a A) by done.
  destruct (for_loop_inv (fun j P' => row_bound u i i j P' /\
      fe P' = fe P + x * fe (take (Z.to_nat j) B) * 65536 ^ i) 16 0 (fun j product =>
    x <- mget A i;; y <- rd st b j;; m <- ll (x * y);;
    p <- mget product (i + j);; v <- ll (p + m);; mset product (i + j) v) P) as (P' & E & [Hl Hb] & Hv).
  - intros j P1 Hj [[Hl Hb] Hv]. rewrite Ex, (rd_Some st b B) by done.
    destruct (lookup_lt_is_Some_2 B (Z.to_nat j)) as [y Ey]; [lia|].
    rewrite (proj2 (mget_lookup B j y)) by (split; [lia|done]).
    pose proof (Forall_lookup_1 _ _ _ _ HBb Ey) as Hy. apply mget_lookup in Ex as [_ Ex'].
    pose proof (Forall_lookup_1 _ _ _ _ HAb Ex') as Hx. unfold within in Hx, Hy.
    assert (within u (x * y)) as Hxy by (unfold within; rewrite Hu; change (2 ^ 36) with (2 ^ 18 * 2 ^ 18); nia).
    unfold within in Hxy.
    destruct (lookup_lt_is_Some_2 P1 (Z.to_nat (i + j))) as [q Eq]; [lia|].
    assert (mget P1 (i + j) = Some q) as Eq' by (apply mget_lookup; split; [lia|done]).
    pose proof (Hb _ _ Eq') as Hq.
    destruct (Z.leb_spec i (i + j)); [|lia]. destruct (Z.ltb_spec (i + j) (i + j)); [lia|].
    cbn [andb] in Hq. unfold within in Hq.
    rewrite ll_Some by (unfold within; lia). rewrite Eq', ll_Some by (unfold within; lia).
    destruct (add_limb P1 (i + j) q (x * y) Eq') as (P2 & -> & Hl2 & Hv2 & Eg & Ek).
    eexists. split; [reflexivity|]. split; [split; [lia|]|].
    + intros k z Ez. destruct (decide (k = i + j)) as [->|Hne].
      * rewrite Eg in Ez. simplify_eq. destruct (Z.leb_spec i (i + j)); [|lia].
        destruct (Z.ltb_spec (i + j) (i + (j + 1))); [|lia]. cbn [andb]. unfold within. lia.
      * rewrite Ek in Ez by done. specialize (Hb k z Ez).
        replace (k <? i + (j + 1)) with (k <? i + j); [done|].
        destruct (Z.ltb_spec k (i + j)), (Z.ltb_spec k (i + (j + 1))); lia.
    + rewrite Hv2, Hv. replace (Z.to_nat (j + 1)) with (S (Z.to_nat j)) by lia.
      rewrite (take_S_r B _ y Ey), fe_app. cbn [fe]. unfold zlen. rewrite length_take_le by lia.
      rewrite Z2Nat.id, (Z.pow_add_r _ i j) by lia. lia.
  - split; [done|]. change (Z.to_nat 0) with 0%nat. cbn [take fe]. by rewrite Z.mul_0_r, Z.mul_0_l, Z.add_0_r.
  - exists P'. split; [done|]. split.
    + split; [done|]. intros k z Ez. specialize (Hb k z Ez). apply mget_lookup in Ez as [Hk _].
      replace ((i + 1 <=? k) && (k <? i + 1 + 0)) with false
        by (destruct (Z.leb_spec (i + 1) k), (Z.ltb_spec k (i + 1 + 0)); simpl; lia).
      eapply within_mono; [|exact Hb]. destruct ((i <=? k) && _); lia.
    + rewrite Hv. change (Z.to_nat (0 + Z.of_nat 16)) with 16%nat. by rewrite take_ge by lia.
Qed.

Lemma products_spec st a b A B :
  st !! a = Some A -> st !! b = Some B -> small A -> small B ->
  exists P, for_loop 16 0 (mul_row st a b) (replicate 31 0) = Some P /\ length P = 31%nat /\
    (forall k x, mget P k = Some x -> within (2 ^ 40) x) /\ fe P = fe A * fe B.
Proof.
  intros Ea Eb HA HB.
  destruct (for_loop_inv (fun i P => row_bound (2 ^ 36) i i 0 P /\
      fe P = fe (take (Z.to_nat i) A) * fe B) 16 0 (mul_row st a b) (replicate 31 0))
    as (P & E & [Hl Hb] & Hv).
  - intros i P Hi [Hb Hv]. destruct (lookup_lt_is_Some_2 A (Z.to_nat i)) as [x Ex]; [destruct HA; lia|].
    destruct (mul_row_spec st a b A B i x P (2 ^ 36)) as (P' & E & Hb' & Hv'); try done; [|].
    { apply mget_lookup. split; [lia|done]. }
    exists P'. split; [done|]. split; [done|]. rewrite Hv', Hv.
    replace (Z.to_nat (i + 1)) with (S (Z.to_nat i)) by lia.
    rewrite (take_S_r A _ x Ex), fe_app. cbn [fe]. unfold zlen. rewrite length_take_le by (destruct HA; lia).
    rewrite Z2Nat.id by lia. lia.
  - split; [|done]. split; [done|]. intros k x Ek. apply mget_lookup in Ek as [_ Ek].
    apply lookup_replicate in Ek as [-> _]. unfold within. destruct (_ && _); lia.
  - exists P. split; [done|]. split; [done|]. split.
    + intros k x Ek. eapply within_mono; [|exact (Hb k x Ek)].
      destruct (Z.leb_spec (0 + Z.of_nat 16) k), (Z.ltb_spec k (0 + Z.of_nat 16 + 0)); cbn [andb]; lia.
    + rewrite Hv. change (Z.to_nat (0 + Z.of_nat 16)) with 16%nat. rewrite take_ge; [done|]. destruct HA; lia.
Qed.

Lemma fold_high_spec P : length P = 31%nat -> (forall k x, mget P k = Some x -> within (2 ^ 40) x) ->
  exists lo hi, fold_high P = Some (lo ++ hi) /\ length lo = 16%nat /\ Forall (within (2 ^ 46)) lo /\
    fe lo + (2 ^ 256 - 38) * fe hi = fe P.
Proof.
  intros Hl Hb. set (hi := drop 16 P).
  destruct (for_loop_inv (fun i Q => length Q = 31%nat /\ fe Q = fe P + 38 * fe (take (Z.to_nat i) hi) /\
      (forall k, i <= k -> mget Q k = mget P k) /\
      (forall k x, k < i -> mget Q k = Some x -> within (2 ^ 46) x)) 15 0
    (fun i product => h <- mget product (i + 16);; m <- ll (38 * h);;
       p <- mget product i;; v <- ll (p + m);; mset product i v) P) as (Q & E & HQ & Hv & Hk & Hkb).
  - intros i Q Hi (HQ & Hv & Hk & Hkb).
    destruct (lookup_lt_is_Some_2 hi (Z.to_nat i)) as [h Eh]; [unfold hi; rewrite length_drop; lia|].
    assert (mget P (i + 16) = Some h) as Eh'.
    { apply mget_lookup. split; [lia|]. unfold hi in Eh. rewrite lookup_drop in Eh. rewrite <- Eh. f_equal. lia. }
    destruct (lookup_lt_is_Some_2 P (Z.to_nat i)) as [q Eq]; [lia|].
    assert (mget P i = Some q) as Eq' by (apply mget_lookup; split; [lia|done]).
    pose proof (Hb _ _ Eh') as Hh. pose proof (Hb _ _ Eq') as Hq. unfold within in Hh, Hq.
    rewrite (Hk (i + 16)), Eh' by lia. rewrite ll_Some by (unfold within; lia).
    rewrite (Hk i), Eq' by lia. rewrite ll_Some by (unfold within; lia).
    destruct (add_limb Q i q (38 * h)) as (Q' & -> & Hl' & Hv' & Eg & Ek); [rewrite Hk by lia; done|].
    eexists. split; [reflexivity|]. split; [lia|]. split; [|split].
    + rewrite Hv', Hv. replace (Z.to_nat (i + 1)) with (S (Z.to_nat i)) by lia.
      rewrite (take_S_r hi _ h Eh), fe_app. cbn [fe]. unfold zlen.
      rewrite length_take_le by (unfold hi; rewrite length_drop; lia). rewrite Z2Nat.id by lia. lia.
    + intros k Hge. rewrite Ek by lia. apply Hk. lia.
    + intros k x Hlt Ex. destruct (decide (k = i)) as [->|Hne].
      * rewrite Eg in Ex. simplify_eq. unfold within. lia.
      * rewrite Ek in Ex by done. apply (Hkb k); [lia|done].
  - split; [done|]. split; [by rewrite (Z.add_comm (fe P))|]. split; [done|].
    intros k x Hlt Ex. apply mget_lookup in Ex. lia.
  - change (0 + Z.of_nat 15) with 15 in *. change (Z.to_nat 15) with 15%nat in Hv.
    rewrite take_ge in Hv by (unfold hi; rewrite length_drop; lia).
    assert (drop 16 Q = hi) as EQ.
    { apply list_eq. intros j. unfold hi. rewrite !lookup_drop.
      pose proof (Hk (Z.of_nat (16 + j)) ltac:(lia)) as E'. unfold mget in E'.
      destruct (Z.leb_spec 0 (Z.of_nat (16 + j))); [|lia]. by rewrite Nat2Z.id in E'. }
    exists (take 16 Q), hi. rewrite <- EQ, take_drop. split; [done|].
    split; [rewrite length_take; lia|]. split.
    + apply Forall_take, Forall_lookup_2. intros j x Ex.
      assert (mget Q (Z.of_nat j) = Some x) as Ex' by (apply mget_lookup; rewrite Nat2Z.id; split; [lia|done]).
      destruct (decide (Z.of_nat j < 15)); [by apply (Hkb (Z.of_nat j))|].
      rewrite Hk in Ex' by lia. eapply within_mono; [|by apply (Hb _ _ Ex')]. lia.
    + rewrite EQ. rewrite <- (take_drop 16 Q), EQ, fe_app in Hv. unfold zlen in Hv.
      rewrite length_take_le in Hv by lia. change (65536 ^ Z.of_nat 16) with (2 ^ 256) in Hv. lia.
Qed.

(** *** Two carries *)

(** What a product leaves: digits, but for the first limb. *)
Definition reduced (l : list Z) : Prop :=
  exists h t, l = h :: t /\ length l = 16%nat /\ -38 <= h <= 65573 /\ Forall digit t.

Lemma fe_within M l : 0 <= M -> Forall (within M) l -> within (M * (65536 ^ zlen l - 1)) (65535 * fe l).
Proof.
  intros HM. induction 1 as [|x l Hx Hl IH]; [unfold within; change (zlen []) with 0; cbn [fe]; lia|].
  unfold within in *. cbn [fe]. rewrite zlen_cons, Z.pow_add_r by (unfold zlen; lia).
  change (65536 ^ 1) with 65536. nia.
Qed.

Lemma mod_p_shift x c : (x - 2 * p25519 * c) mod p25519 = x mod p25519.
Proof. replace (x - 2 * p25519 * c) with (x + (- 2 * c) * p25519) by lia. by rewrite Z.mod_add. Qed.

Lemma two_p : 2 * p25519 = 2 ^ 256 - 38.
Proof. reflexivity. Qed.

Lemma digits_head h t : Forall digit (h :: t) -> length (h :: t) = 16%nat ->
  digit h /\ Forall digit t /\ 0 <= fe (h :: t) < 2 ^ 256.
Proof.
  intros Hd Hl. pose proof (fe_digits _ Hd) as H. unfold zlen in H. rewrite Hl in H.
  apply Forall_cons_1 in Hd as [Hh Ht]. split; [done|]. split; [done|]. exact H.
Qed.

Lemma two_carries l : length l = 16%nat -> Forall (within (2 ^ 46)) l ->
  exists l1 l2, carry25519 l = Some l1 /\ carry25519 l1 = Some l2 /\ reduced l2 /\
    fe l2 mod p25519 = fe l mod p25519.
Proof.
  intros Hl Hb. pose proof (fe_within (2 ^ 46) l ltac:(lia) Hb) as Hw. unfold zlen in Hw. rewrite Hl in Hw.
  change (65536 ^ Z.of_nat 16) with (2 ^ 256) in Hw. unfold within in Hw.
  destruct (carry25519_spec l Hl) as (h & t & c & E1 & Hd & Hn & Hv).
  { eapply Forall_impl; [|exact Hb]. intros x. apply within_mono. lia. }
  destruct (digits_head h t Hd Hn) as (Hh & Ht & Hf).
  assert (within (2 ^ 31) c) as Hc by (unfold within; lia). unfold within in Hc. unfold digit in Hh.
  destruct (carry25519_spec ((h + 38 * c) :: t)) as (h' & t' & c' & E2 & Hd' & Hn' & Hv').
  { done. }
  { apply Forall_cons_2; [unfold within; lia|]. eapply Forall_impl; [|exact Ht].
    intros x. unfold digit, within. lia. }
  destruct (digits_head h' t' Hd' Hn') as (Hh' & Ht' & Hf').
  exists ((h + 38 * c) :: t), ((h' + 38 * c') :: t'). split; [done|]. split; [done|].
  cbn [fe] in Hv, Hv', Hf, Hf' |- *.
  assert (-1 <= c' <= 1) as Hc' by lia. unfold digit in Hh'. split.
  - exists (h' + 38 * c'), t'. split; [done|]. split; [done|]. split; [lia|done].
  - replace (h' + 38 * c' + 65536 * fe t') with (fe l - 2 * p25519 * c - 2 * p25519 * c')
      by (rewrite two_p; lia).
    by rewrite !mod_p_shift.
Qed.

Lemma call_on_spec f st a A A' : st !! a = Some A -> f A = Some A' -> call_on f st a = Some (<[a := A']> st).
Proof. intros E Ef. unfold call_on. by rewrite E, Ef. Qed.

(** [out = a * b], whatever arrays [out], [a] and [b] are. *)
Lemma fmul_spec st o a b O A B :
  st !! o = Some O -> st !! a = Some A -> st !! b = Some B -> length O = 16%nat ->
  small A -> small B ->
  exists M, fmul st o a b = Some (<[o := M]> st) /\ reduced M /\
    fe M mod p25519 = (fe A * fe B) mod p25519.
Proof.
  intros Eo Ea Eb HO HA HB. unfold fmul.
  destruct (products_spec st a b A B Ea Eb HA HB) as (P & -> & HP & HPb & HPv).
  destruct (fold_high_spec P HP HPb) as (lo & hi & -> & Hlo & Hlob & Hv).
  assert (for_loop 16 0 (fun i st => v <- mget (lo ++ hi) i;; wr st o i v) st = Some (<[o := lo]> st)) as ->.
  { apply (store_loop st o O); [done|done|done|]. intros i v Hi Ev.
    rewrite mget_app_l by (unfold zlen; lia). unfold mget. destruct (Z.leb_spec 0 i); [|lia]. by rewrite Ev. }
  destruct (two_carries lo Hlo Hlob) as (l1 & l2 & E1 & E2 & Hr & Hm).
  assert (o < length st)%nat as Hlt by (by eapply lookup_lt_Some).
  rewrite (call_on_spec _ _ _ lo l1), (call_on_spec _ _ _ l1 l2)
    by (done || (rewrite list_lookup_insert_eq by (rewrite ?length_insert; done); done)).
  rewrite !list_insert_insert_eq. exists l2. split; [done|]. split; [done|].
  rewrite Hm, <- HPv, <- Hv, <- two_p. replace (fe lo + 2 * p25519 * fe hi) with (fe lo - 2 * p25519 * - fe hi) by lia.
  by rewrite mod_p_shift.
Qed.

(** ** Congruence modulo the prime *)

Definition eqp (x y : Z) : Prop := x mod p25519 = y mod p25519.

Infix "≡p" := eqp (at level 70).

#[export] Instance eqp_equiv : Equivalence eqp.
Proof. split; [done|by intros ? ?|unfold eqp; intros ? ? ?; congruence]. Qed.

#[export] Instance add_eqp : Proper (eqp ==> eqp ==> eqp) Z.add.
Proof.
  unfold eqp. intros x x' Hx y y' Hy.
  rewrite (Z.add_mod x), (Z.add_mod x'), Hx, Hy by done. done.
Qed.

#[export] Instance sub_eqp : Proper (eqp ==> eqp ==> eqp) Z.sub.
Proof. unfold eqp. intros x x' Hx y y' Hy. rewrite (Zminus_mod x), (Zminus_mod x'), Hx, Hy. done. Qed.

#[export] Instance mul_eqp : Proper (eqp ==> eqp ==> eqp) Z.mul.
Proof.
  unfold eqp. intros x x' Hx y y' Hy.
  rewrite (Z.mul_mod x), (Z.mul_mod x'), Hx, Hy by done. done.
Qed.

Lemma eqp_mod x : x mod p25519 ≡p x.
Proof. unfold eqp. by rewrite Z.mod_mod. Qed.

Lemma reduced_small l : reduced l -> small l.
Proof.
  intros (h & t & -> & Hl & Hh & Ht). split; [done|]. apply Forall_cons_2; [unfold within; lia|].
  eapply Forall_impl; [|exact Ht]. intros x. unfold digit, within. lia.
Qed.

Lemma digits_reduced l : length l = 16%nat -> Forall digit l -> reduced l.
Proof.
  intros Hl Hd. destruct l as [|h t]; [done|]. apply Forall_cons_1 in Hd as [Hh Ht].
  exists h, t. unfold digit in Hh. split; [done|]. split; [done|]. split; [lia|done].
Qed.

Lemma reduced_length l : reduced l -> length l = 16%nat.
Proof. intros H. apply reduced_small in H. apply H. Qed.

Lemma reduced_within l : reduced l -> Forall (within (2 ^ 17)) l.
Proof.
  intros (h & t & -> & _ & Hh & Ht). apply Forall_cons_2; [unfold within; lia|].
  eapply Forall_impl; [|exact Ht]. intros x. unfold digit, within. lia.
Qed.

(** Sums and differences of products can be multiplied. *)
Lemma add_small A B : reduced A -> reduced B -> small (zip_with Z.add A B) /\ fe (zip_with Z.add A B) = fe A + fe B.
Proof.
  intros HA HB. pose proof (reduced_length _ HA). pose proof (reduced_length _ HB). split; [split|].
  - rewrite length_zip_with. lia.
  - apply (zip_within _ _ _ (2 ^ 17)); [unfold within; lia|by apply reduced_within..].
  - apply fe_zip; [lia|done|lia].
Qed.

Lemma sub_small A B : reduced A -> reduced B -> small (zip_with Z.sub A B) /\ fe (zip_with Z.sub A B) = fe A - fe B.
Proof.
  intros HA HB. pose proof (reduced_length _ HA). pose proof (reduced_length _ HB). split; [split|].
  - rewrite length_zip_with. lia.
  - apply (zip_within _ _ _ (2 ^ 17)); [unfold within; lia|by apply reduced_within..].
  - apply fe_zip; [lia|done|lia].
Qed.

(** ** The inverse

    The exponent after [n] rounds. *)
Fixpoint expo (n : nat) : Z :=
  match n with
  | O => 1
  | S n => let i := 253 - Z.of_nat n in
           2 * expo n + (if negb (i =? 2) && negb (i =? 4) then 1 else 0)
  end.

Lemma expo_254 : expo 254 = p25519 - 2.
Proof. by vm_compute. Qed.

Lemma expo_pos n : 1 <= expo n.
Proof. induction n as [|n IH]; cbn [expo]; [lia|]. destruct (_ && _); lia. Qed.

Lemma inverse_step_spec st inp A C n : st !! inp = Some A -> reduced A -> reduced C ->
  fe C ≡p fe A ^ expo (Z.to_nat n) -> 0 <= n ->
  exists C', inverse_step (length st) inp n (st ++ [C]) = Some (st ++ [C']) /\ reduced C' /\
    fe C' ≡p fe A ^ expo (Z.to_nat (n + 1)).
Proof.
  intros Ea HA HC Hv Hn. pose proof (lookup_lt_Some _ _ _ Ea) as Hlt. unfold inverse_step.
  assert (forall X : list Z, (st ++ [X]) !! length st = Some X) as Hc by (intros X; by rewrite lookup_app_r, Nat.sub_diag).
  assert (forall X Y : list Z, <[length st := Y]> (st ++ [X]) = st ++ [Y]) as Hs
    by (intros X Y; by rewrite insert_app_r_alt, Nat.sub_diag).
  destruct (fmul_spec (st ++ [C]) (length st) (length st) (length st) C C C) as (M & -> & HM & EM);
    [apply Hc|apply Hc|apply Hc|by apply reduced_length|by apply reduced_small..|]. rewrite Hs.
  replace (Z.to_nat (n + 1)) with (S (Z.to_nat n)) by lia. cbn [expo]. rewrite Z2Nat.id by lia.
  pose proof (expo_pos (Z.to_nat n)) as Hp.
  assert (fe M ≡p fe A ^ (2 * expo (Z.to_nat n))) as HM2.
  { change (fe M ≡p fe C * fe C) in EM. rewrite EM, Hv, <- Z.pow_add_r by lia. by rewrite <- Z.add_diag. }
  destruct (negb (253 - n =? 2) && negb (253 - n =? 4)).
  - destruct (fmul_spec (st ++ [M]) (length st) (length st) inp M M A) as (N & -> & HN & EN);
      [apply Hc|apply Hc|by rewrite lookup_app_l|by apply reduced_length|by apply reduced_small..|].
    rewrite Hs. exists N. split; [done|]. split; [done|]. change (fe N ≡p fe M * fe A) in EN.
    rewrite EN, HM2, Z.pow_add_r by lia. by rewrite Z.pow_1_r.
  - exists M. split; [done|]. split; [done|]. by rewrite Z.add_0_r.
Qed.

Lemma finverse_spec st out inp O A :
  st !! out = Some O -> st !! inp = Some A -> length O = 16%nat -> reduced A ->
  exists M, finverse st out inp = Some (<[out := M]> st) /\ reduced M /\ fe M ≡p fe A ^ (p25519 - 2).
Proof.
  intros Eo Ea HO HA. pose proof (lookup_lt_Some _ _ _ Ea) as Hlt. pose proof (lookup_lt_Some _ _ _ Eo) as Hlo.
  unfold finverse. pose proof (reduced_length _ HA) as HAl.
  rewrite (copy_elem_spec _ _ _ (replicate 16 0) A);
    [|by rewrite lookup_app_r, Nat.sub_diag|by rewrite lookup_app_l|done|done].
  rewrite insert_app_r_alt, Nat.sub_diag by lia. cbn [insert list_insert].
  destruct (for_loop_inv (fun n s => exists C, s = st ++ [C] /\ reduced C /\ fe C ≡p fe A ^ expo (Z.to_nat n))
    254 0 (inverse_step (length st) inp) (st ++ [A])) as (s & -> & C & -> & HC & Hv).
  - intros n s Hn (C & -> & HC & Hv).
    destruct (inverse_step_spec st inp A C n Ea HA HC Hv) as (C' & E & HC' & Hv'); [lia|].
    exists (st ++ [C']). split; [done|]. by exists C'.
  - exists A. split; [done|]. split; [done|]. cbn [expo]. by rewrite Z.pow_1_r.
  - rewrite (copy_elem_spec _ _ _ O C);
      [|by rewrite lookup_app_l|by rewrite lookup_app_r, Nat.sub_diag|done|by apply reduced_length].
    exists C. split; [|split; [done|]].
    + rewrite insert_app_l by done. by rewrite take_app_le, take_ge by (rewrite length_insert; lia).
    + change (Z.to_nat (0 + Z.of_nat 254)) with 254%nat in Hv. by rewrite expo_254 in Hv.
Qed.

(** ** The conditional swap *)

Lemma swap_mask bit x y : bit = 0 \/ bit = 1 ->
  let t := Z.land (Z.lnot (bit - 1)) (Z.lxor x y) in
  Z.lxor x t = (if bit =? 1 then y else x) /\ Z.lxor y t = (if bit =? 1 then x else y).
Proof.
  intros [->| ->]; cbn zeta.
  - change (Z.lnot (0 - 1)) with 0. by rewrite Z.land_0_l, !Z.lxor_0_r.
  - change (Z.lnot (1 - 1)) with (-1). rewrite Z.land_m1_l. split; [|rewrite (Z.lxor_comm x y)];
      by rewrite <- Z.lxor_assoc, Z.lxor_nilpotent, Z.lxor_0_l.
Qed.

(** A write to [p] and a partly written [q] do not meet. *)
Lemma wr_other st st' p q Q Q' i j v : p <> q -> wr st p i v = Some st' ->
  wr (part_written st q Q Q' j) p i v = Some (part_written st' q Q Q' j).
Proof.
  intros Hpq. unfold wr, part_written. rewrite list_lookup_insert_ne by done.
  destruct (st !! p) as [l|]; [|done]. destruct (mset l i v) as [l'|]; [|done].
  intros E. injection E as <-. by rewrite list_insert_insert_ne.
Qed.

Lemma swap25519_spec st p q bit P Q : p <> q -> st !! p = Some P -> st !! q = Some Q ->
  length P = 16%nat -> length Q = 16%nat -> bit = 0 \/ bit = 1 ->
  swap25519 st p q bit = Some (if bit =? 1 then <[q := P]> (<[p := Q]> st) else st).
Proof.
  intros Hpq Ep Eq HP HQ Hbit. unfold swap25519.
  set (P' := if bit =? 1 then Q else P). set (Q' := if bit =? 1 then P else Q).
  assert (length P' = 16%nat /\ length Q' = 16%nat) as [HP' HQ'] by (unfold P', Q'; destruct (bit =? 1); done).
  assert (forall s (X : list Z), <[p := X]> s !! q = s !! q) as Hne by (intros; by apply list_lookup_insert_ne).
  destruct (for_loop_inv (fun i s => s = part_written (part_written st p P P' i) q Q Q' i) 16 0
    (fun i st => x <- rd st p i;; y <- rd st q i;;
       let t := Z.land (Z.lnot (bit - 1)) (Z.lxor x y) in
       st <- wr st p i (Z.lxor x t);; y <- rd st q i;; wr st q i (Z.lxor y t)) st) as (s & E & ->).
  - intros i s Hi ->.
    destruct (lookup_lt_is_Some_2 P (Z.to_nat i)) as [x Ex]; [lia|].
    destruct (lookup_lt_is_Some_2 Q (Z.to_nat i)) as [y Ey]; [lia|].
    assert (mget P i = Some x /\ mget Q i = Some y) as [Ex' Ey'] by (rewrite !mget_lookup; split; split; (lia || done)).
    set (s1 := part_written st p P P' i).
    assert (s1 !! q = Some Q) as Eq1 by (unfold s1, part_written; by rewrite Hne).
    assert (rd (part_written s1 q Q Q' i) p i = Some x) as ->.
    { unfold part_written at 1. unfold rd. rewrite list_lookup_insert_ne by done.
      fold (rd s1 p i). unfold s1. rewrite (rd_part st p P P' p P) by (done || unfold zlen; lia). done. }
    rewrite (rd_part s1 q Q Q' q Q), Ey' by (done || unfold zlen; lia). cbv zeta.
    destruct (swap_mask bit x y Hbit) as [E1 E2]. cbv zeta in E1, E2. rewrite E1.
    assert (wr (part_written s1 q Q Q' i) p i (if bit =? 1 then y else x) =
      Some (part_written (part_written st p P P' (i + 1)) q Q Q' i)) as ->.
    { apply wr_other; [done|]. apply wr_part; [done|lia|unfold zlen; lia|unfold P'; by destruct (bit =? 1)]. }
    set (s2 := part_written st p P P' (i + 1)).
    assert (s2 !! q = Some Q) as Eq2 by (unfold s2, part_written; by rewrite Hne).
    rewrite (rd_part s2 q Q Q' q Q), Ey', E2 by (done || unfold zlen; lia).
    eexists. split; [|reflexivity]. apply wr_part; [done|lia|unfold zlen; lia|]. unfold Q'. by destruct (bit =? 1).
  - unfold part_written. change (Z.to_nat 0) with 0%nat.
    change (take 0 P' ++ drop 0 P) with P. change (take 0 Q' ++ drop 0 Q) with Q.
    rewrite (list_insert_id st p P Ep). symmetry. by apply list_insert_id.
  - etransitivity; [exact E|]. f_equal. unfold part_written. change (Z.to_nat (0 + Z.of_nat 16)) with 16%nat.
    rewrite !take_ge, !drop_ge, !app_nil_r by lia. unfold P', Q'. destruct (bit =? 1); [done|].
    rewrite (list_insert_id st p P Ep). by apply list_insert_id.
Qed.

(** ** Bytes *)

Fixpoint le_val (l : list Z) : Z :=
  match l with
  | [] => 0
  | x :: l => x + 256 * le_val l
  end.

Fixpoint le_bytes (n : nat) (v : Z) : list Z :=
  match n with
  | O => []
  | S n => v mod 256 :: le_bytes n (v / 256)
  end.

(** *** Reading *)

Fixpoint pairs (l : list Z) : list Z :=
  match l with
  | x :: y :: l => (x + 256 * y) :: pairs l
  | _ => []
  end.

Lemma pairs_spec n : forall l, length l = (2 * n)%nat -> bytes_ok l ->
  length (pairs l) = n /\ Forall digit (pairs l) /\ fe (pairs l) = le_val l.
Proof.
  induction n as [|n IH]; intros l Hl Hb.
  - destruct l; [|simpl in Hl; lia]. by repeat constructor.
  - destruct l as [|x [|y l]]; [simpl in Hl; lia..|].
    apply Forall_cons_1 in Hb as [Hx Hb]. apply Forall_cons_1 in Hb as [Hy Hb]. unfold byte_ok in Hx, Hy.
    destruct (IH l) as (E1 & E2 & E3); [simpl in Hl; lia|done|]. cbn [pairs length fe le_val].
    split; [lia|]. split; [apply Forall_cons_2; [unfold digit; lia|done]|]. lia.
Qed.

Lemma unpack_loop n : forall l inp pre don old,
  inp = pre ++ l -> zlen pre = 2 * zlen don -> length l = (2 * n)%nat -> length old = n -> bytes_ok l ->
  for_loop n (zlen don) (fun i out =>
     x <- mget inp (2 * i);; y <- mget inp (2 * i + 1);;
     v <- ll (x + Z.shiftl y 8);; mset out i v) (don ++ old) = Some (don ++ pairs l).
Proof.
  induction n as [|n IH]; intros l inp pre don old Ei Hp Hl Ho Hb.
  - destruct l; [|simpl in Hl; lia]. by destruct old.
  - destruct l as [|x [|y l]]; [simpl in Hl; lia..|]. destruct old as [|o old]; [done|].
    apply Forall_cons_1 in Hb as [Hx Hb]. apply Forall_cons_1 in Hb as [Hy Hb]. unfold byte_ok in Hx, Hy.
    assert (mget inp (zlen pre) = Some x) as E1 by (rewrite Ei; apply mget_app_mid).
    assert (mget inp (zlen pre + 1) = Some y) as E2.
    { replace (zlen pre + 1) with (zlen (pre ++ [x])) by (by rewrite zlen_app).
      rewrite Ei. change (pre ++ x :: y :: l) with (pre ++ [x] ++ y :: l). rewrite app_assoc. apply mget_app_mid. }
    cbn [for_loop]. rewrite <- Hp, E1, E2.
    rewrite Z.shiftl_mul_pow2 by lia. change (2 ^ 8) with 256. rewrite ll_Some by (unfold within; lia).
    rewrite mset_app_mid. cbn [pairs].
    pose proof (IH l inp (pre ++ [x; y]) (don ++ [x + y * 256]) old) as E.
    rewrite !zlen_app in E. change (zlen [x + y * 256]) with 1 in E. rewrite <- !app_assoc in E.
    cbn [app] in E. rewrite E; [by rewrite (Z.mul_comm y)|by rewrite Ei|
      change (zlen [x; y]) with 2; lia|simpl in Hl; lia|simpl in Ho; lia|done].
Qed.

Lemma land_7fff x : digit x -> Z.land x 0x7fff = x mod 32768.
Proof. intros _. change 0x7fff with (Z.ones 15). by rewrite Z.land_ones by lia. Qed.

(** The u-coordinate: the top bit is left out. *)
Lemma unpack25519_spec inp out : length inp = 32%nat -> bytes_ok inp -> length out = 16%nat ->
  exists X, unpack25519 inp out = Some X /\ length X = 16%nat /\ Forall digit X /\
    fe X = le_val inp mod 2 ^ 255.
Proof.
  intros Hi Hb Ho. unfold unpack25519.
  pose proof (unpack_loop 16 inp inp [] [] out eq_refl eq_refl Hi Ho Hb) as E.
  change (zlen []) with 0 in E. cbn [app] in E. rewrite E.
  destruct (pairs_spec 16 inp Hi Hb) as (Hl & Hd & <-). set (L := pairs inp) in *. clearbody L.
  destruct (zsplit L 15) as (l & l' & -> & H15); [unfold zlen; lia|].
  rewrite length_app in Hl. destruct l' as [|x [|]]; [unfold zlen in H15; simpl in Hl; lia| |unfold zlen in H15; simpl in Hl; lia].
  assert (mget (l ++ [x]) 15 = Some x) as -> by (rewrite <- H15; apply mget_app_mid).
  assert (forall v, mset (l ++ [x]) 15 v = Some (l ++ [v])) as Hs by (intros v; rewrite <- H15; apply mset_app_mid).
  rewrite Hs.
  apply Forall_app in Hd as [Hd [Hx _]%Forall_cons_1].
  exists (l ++ [Z.land x 0x7fff]). rewrite land_7fff by done. split; [done|].
  split; [by rewrite length_app|]. unfold digit in Hx. split.
  - apply Forall_app_2; [done|]. apply Forall_singleton. unfold digit. div_lia.
  - rewrite !fe_app, H15. cbn [fe]. pose proof (fe_digits l Hd) as Hf. rewrite H15 in Hf.
    change (65536 ^ 15) with (2 ^ 240) in *. change (2 ^ 255) with (2 ^ 240 * 2 ^ 15).
    rewrite Z.rem_mul_r by lia. rewrite !Z.mul_0_r, !Z.add_0_r.
    rewrite (Z.mul_comm (2 ^ 240) x), Z.mod_add, Z.div_add by lia.
    by rewrite (Z.mod_small (fe l)), (Z.div_small (fe l)), Z.add_0_l by lia.
Qed.

(** *** Writing *)

Lemma le_bytes_fe l : Forall digit l -> forall n, n = (2 * length l)%nat ->
  le_bytes n (fe l) = concat (map (fun x => [x mod 256; x / 256]) l).
Proof.
  induction 1 as [|x l Hx Hl IH]; intros n ->; [done|]. unfold digit in Hx. cbn [length map concat fe].
  replace (2 * S (length l))%nat with (S (S (2 * length l))) by lia. cbn [le_bytes app].
  replace ((x + 65536 * fe l) mod 256) with (x mod 256) by div_lia.
  replace ((x + 65536 * fe l) / 256) with (x / 256 + 256 * fe l) by div_lia.
  replace ((x / 256 + 256 * fe l) mod 256) with (x / 256) by div_lia.
  replace ((x / 256 + 256 * fe l) / 256) with (fe l) by div_lia. by rewrite IH.
Qed.

Lemma bytes_out l : forall t pre don old,
  t = pre ++ l -> zlen don = 2 * zlen pre -> length old = (2 * length l)%nat -> Forall digit l ->
  for_loop (length l) (zlen pre) (fun i out =>
    x <- mget t i;; out <- mset out (2 * i) (u8 (Z.land x 0xff));;
    mset out (2 * i + 1) (u8 (Z.shiftr x 8))) (don ++ old) =
  Some (don ++ concat (map (fun x => [x mod 256; x / 256]) l)).
Proof.
  induction l as [|x l IH]; intros t pre don old Et Hd Ho Hl.
  - by destruct old.
  - apply Forall_cons_1 in Hl as [Hx Hl]. unfold digit in Hx.
    destruct old as [|y [|z old]]; [simpl in Ho; lia..|]. cbn [length for_loop map concat].
    assert (mget t (zlen pre) = Some x) as E1 by (rewrite Et; apply mget_app_mid).
    rewrite E1, <- Hd, mset_app_mid.
    replace (zlen don + 1) with (zlen (don ++ [u8 (Z.land x 0xff)])) by (by rewrite zlen_app).
    change (don ++ ?a :: z :: old) with (don ++ [a] ++ z :: old). rewrite app_assoc, mset_app_mid.
    assert (u8 (Z.land x 0xff) = x mod 256) as ->.
    { change 0xff with (Z.ones 8). rewrite Z.land_ones by lia. apply u8_small. div_lia. }
    assert (u8 (Z.shiftr x 8) = x / 256) as -> by (rewrite Z.shiftr_div_pow2 by lia; apply u8_small; div_lia).
    pose proof (IH t (pre ++ [x]) (don ++ [x mod 256; x / 256]) old) as E.
    rewrite !zlen_app in E. change (zlen [x]) with 1 in E. rewrite <- !(app_assoc don) in E.
    rewrite <- (app_assoc don). cbn [app] in E |- *.
    apply E; [by rewrite Et, <- app_assoc|change (zlen [x mod 256; x / 256]) with 2; lia|simpl in Ho; lia|done].
Qed.

(** *** The canonical representative *)

(** A limb with a pending borrow. *)
Definition raw_ok (x : Z) : Prop := -65536 <= x < 65536.

Lemma borrow_spec x : raw_ok x ->
  Z.land (Z.shiftr x 16) 1 = - (x / 65536) /\ Z.land x 0xffff = x mod 65536 /\ -1 <= x / 65536 <= 0.
Proof.
  unfold raw_ok. intros Hx. rewrite Z.shiftr_div_pow2 by lia. change (2 ^ 16) with 65536.
  assert (-1 <= x / 65536 <= 0) as Hq by div_lia. split; [|split; [|done]].
  - assert (x / 65536 = -1 \/ x / 65536 = 0) as [->| ->] by lia; done.
  - change 0xffff with (Z.ones 16). by rewrite Z.land_ones by lia.
Qed.

Lemma sub_loop tm : forall t pre don raw junk post,
  t = pre ++ tm ++ post -> zlen pre = zlen don + 1 -> (length tm < length junk)%nat ->
  Forall digit tm -> raw_ok raw ->
  exists D raw' junk', for_loop (length tm) (zlen pre) (fun i m =>
      x <- mget t i;; y <- mget m (i - 1);;
      v <- ll (x - 0xffff - Z.land (Z.shiftr y 16) 1);;
      m <- mset m i v;; y <- mget m (i - 1);; mset m (i - 1) (Z.land y 0xffff)) (don ++ raw :: junk) =
    Some ((don ++ D) ++ raw' :: junk') /\ length D = length tm /\ Forall digit D /\ raw_ok raw' /\
    (length junk' + length tm)%nat = length junk /\
    fe (D ++ [raw']) = raw + 65536 * fe (map (fun x => x - 0xffff) tm).
Proof.
  induction tm as [|x tm IH]; intros t pre don raw junk post Et Hp Hj Hd Hr.
  - exists [], raw, junk. cbn [length for_loop map fe app]. rewrite app_nil_r.
    split; [done|]. split; [done|]. split; [constructor|]. split; [done|]. split; [lia|lia].
  - apply Forall_cons_1 in Hd as [Hx Hd]. unfold digit in Hx.
    destruct junk as [|j junk]; [simpl in Hj; lia|]. cbn [length for_loop].
    assert (mget t (zlen pre) = Some x) as -> by (rewrite Et; apply mget_app_mid).
    replace (zlen pre - 1) with (zlen don) by lia. rewrite mget_app_mid.
    destruct (borrow_spec raw Hr) as (-> & E1 & Hb). rewrite ll_Some by (unfold within; lia).
    change (don ++ raw :: j :: junk) with (don ++ [raw] ++ j :: junk).
    rewrite (mset_mid don [raw] j junk (zlen pre)) by (change (zlen [raw]) with 1; lia).
    cbn [app]. rewrite mget_app_mid, mset_app_mid, E1.
    set (raw1 := x - 0xffff - - (raw / 65536)).
    assert (raw_ok raw1) as Hr1 by (unfold raw_ok, raw1; lia).
    destruct (IH t (pre ++ [x]) (don ++ [raw mod 65536]) raw1 junk post) as (D & raw' & junk' & E & HD & HDd & Hr' & Hjl & Hv).
    { by rewrite Et, <- app_assoc. }
    { rewrite !zlen_app, Hp. change (zlen [raw mod 65536]) with 1. change (zlen [x]) with 1. lia. }
    { simpl in Hj. lia. }
    { done. }
    { done. }
    rewrite zlen_app in E. change (zlen [x]) with 1 in E. rewrite <- app_assoc in E. cbn [app] in E.
    rewrite E. exists (raw mod 65536 :: D), raw', junk'. split; [by rewrite <- !app_assoc|].
    split; [cbn [length]; lia|].
    split; [apply Forall_cons_2; [unfold digit; apply Z.mod_pos_bound; lia|done]|].
    split; [done|]. split; [cbn [length] in *; lia|]. cbn [app fe map]. rewrite Hv.
    unfold raw1. pose proof (Z.div_mod raw 65536). lia.
Qed.

Lemma fe_minus_ffff l : fe (map (fun x => x - 0xffff) l) = fe l - (65536 ^ zlen l - 1).
Proof.
  induction l as [|x l IH]; cbn [map fe]; [change (zlen []) with 0; lia|].
  rewrite IH, zlen_cons, Z.pow_add_r by (unfold zlen; lia). change (65536 ^ 1) with 65536. lia.
Qed.

(** [t - p], with the borrow left in the last limb. *)
Lemma sub_prime_spec t m : length t = 16%nat -> length m = 16%nat -> Forall digit t ->
  exists D x, sub_prime t m = Some (D ++ [x]) /\ length D = 15%nat /\ Forall digit D /\ raw_ok x /\
    fe (D ++ [x]) = fe t - p25519.
Proof.
  intros Ht Hm Hd. destruct t as [|t0 t]; [done|]. destruct m as [|m0 m]; [done|].
  destruct (zsplit t 14) as (tm & l & -> & H14); [unfold zlen; simpl in Ht; lia|].
  cbn [length] in Ht. rewrite length_app in Ht.
  assert (length tm = 14%nat) as Htm by (unfold zlen in H14; lia).
  destruct l as [|t15 [|]]; [simpl in Ht; lia| |simpl in Ht; lia].
  apply Forall_cons_1 in Hd as [H0 Hd]. apply Forall_app in Hd as [Hdm [H15 _]%Forall_cons_1].
  unfold digit in H0, H15. unfold sub_prime. change (mget (t0 :: ?l) 0) with (Some t0). cbv beta iota.
  rewrite ll_Some by (unfold within; lia). rewrite mset_0.
  assert (raw_ok (t0 - 0xffed)) as Hr0 by (unfold raw_ok; lia).
  destruct (sub_loop tm (t0 :: tm ++ [t15]) [t0] [] (t0 - 0xffed) m [t15]) as
    (D & raw & junk & E & HD & HDd & Hr & Hj & Hv); [done|done|simpl in Hm; lia|done|done|].
  change (zlen [t0]) with 1 in E. rewrite Htm in E. cbn [app] in E. rewrite E.
  assert (length junk = 1%nat) as Hj1 by (simpl in Hm; lia). destruct junk as [|j [|]]; try done.
  assert (forall l y, zlen l = 14 -> mget (l ++ y) 14 = mget y 0) as Hg.
  { intros l y Hl. unfold mget, zlen in *. simpl. rewrite lookup_app_r by lia. f_equal. lia. }
  assert (mget (t0 :: tm ++ [t15]) 15 = Some t15) as ->.
  { change (t0 :: tm ++ [t15]) with ((t0 :: tm) ++ t15 :: []).
    replace 15 with (zlen (t0 :: tm)) by (unfold zlen; cbn [length]; lia). apply mget_app_mid. }
  assert (zlen D = 14) as ED by (unfold zlen; lia). rewrite (Hg D _ ED).
  change (mget (raw :: [j]) 0) with (Some raw). cbv beta iota.
  destruct (borrow_spec raw Hr) as (-> & E1 & Hb). rewrite ll_Some by (unfold within; lia).
  change (D ++ [raw; j]) with (D ++ [raw] ++ j :: []).
  rewrite (mset_mid D [raw] j [] 15) by (rewrite ED; done). cbn [app].
  rewrite (Hg D _ ED). change (mget (raw :: ?l) 0) with (Some raw). cbv beta iota.
  rewrite <- ED. rewrite mset_app_mid, E1.
  exists (D ++ [raw mod 65536]), (t15 - 0x7fff - - (raw / 65536)). split; [by rewrite <- app_assoc|].
  split; [rewrite length_app; simpl; lia|].
  split; [apply Forall_app_2; [done|]; apply Forall_singleton; unfold digit; apply Z.mod_pos_bound; lia|].
  split; [unfold raw_ok; lia|]. rewrite fe_minus_ffff, H14 in Hv.
  rewrite <- app_assoc. rewrite fe_app in Hv |- *. cbn [app fe] in Hv |- *. rewrite fe_app, H14, ED in *.
  cbn [fe]. change (65536 ^ 14) with (2 ^ 224) in *. unfold p25519.
  pose proof (Z.div_mod raw 65536). lia.
Qed.

Lemma pack_round_spec t m j : length t = 16%nat -> length m = 16%nat -> Forall digit t ->
  exists t' m', pack_round j [t; m] = Some [t'; m'] /\ length t' = 16%nat /\ length m' = 16%nat /\
    Forall digit t' /\ fe t' = (if fe t <? p25519 then fe t else fe t - p25519).
Proof.
  intros Ht Hm Hd. unfold pack_round. cbn [lookup list_lookup].
  destruct (sub_prime_spec t m Ht Hm Hd) as (D & x & -> & HD & HDd & Hx & Hv).
  assert (zlen D = 15) as ED by (unfold zlen; lia).
  assert (mget (D ++ [x]) 15 = Some x) as -> by (rewrite <- ED; apply mget_app_mid).
  destruct (borrow_spec x Hx) as (-> & _ & Hb). cbn [insert list_insert].
  assert (length (D ++ [x]) = 16%nat) as HDx by (rewrite length_app; simpl; lia).
  rewrite (swap25519_spec _ 0 1 _ t (D ++ [x])) by (done || lia).
  pose proof (fe_digits D HDd) as Hf. rewrite ED in Hf. pose proof Hv as Hv'.
  rewrite fe_app, ED in Hv'. cbn [fe] in Hv'. unfold raw_ok in Hx.
  assert (0 <= x \/ x < 0) as [Hpos|Hneg] by lia.
  - rewrite Z.div_small by lia. change (1 - - 0 =? 1) with true. cbn [insert list_insert].
    exists (D ++ [x]), t. split; [done|]. split; [done|]. split; [done|].
    split; [apply Forall_app_2; [done|]; apply Forall_singleton; unfold digit; lia|].
    destruct (Z.ltb_spec (fe t) p25519); [lia|done].
  - replace (x / 65536) with (-1) by div_lia. change (1 - - -1 =? 1) with false.
    exists t, (D ++ [x]). split; [done|]. split; [done|]. split; [done|]. split; [done|].
    destruct (Z.ltb_spec (fe t) p25519); [done|lia].
Qed.

Lemma reduced_carry l : reduced l ->
  exists t, carry25519 l = Some t /\ length t = 16%nat /\ Forall digit t /\ fe t ≡p fe l.
Proof.
  intros Hr. pose proof (reduced_length l Hr) as Hl. pose proof (reduced_within l Hr) as Hb.
  destruct (carry25519_spec l Hl) as (h & t & c & E & Hd & Hn & Hv).
  { eapply Forall_impl; [|exact Hb]. intros x. apply within_mono. lia. }
  destruct (digits_head h t Hd Hn) as (Hh & Ht & Hf). destruct Hr as (h0 & t0 & -> & _ & Hh0 & Ht0).
  pose proof (fe_digits t0 Ht0) as Hf0. cbn [length] in Hl. unfold zlen in Hf0.
  replace (length t0) with 15%nat in Hf0 by lia. change (65536 ^ Z.of_nat 15) with (2 ^ 240) in Hf0.
  pose proof (fe_digits t Ht) as Hf1. cbn [length] in Hn. unfold zlen in Hf1.
  replace (length t) with 15%nat in Hf1 by lia. change (65536 ^ Z.of_nat 15) with (2 ^ 240) in Hf1.
  cbn [fe] in Hf, Hv |- *. unfold digit in Hh. exists ((h + 38 * c) :: t). split; [done|].
  split; [cbn [length]; lia|]. split.
  - apply Forall_cons_2; [|done]. unfold digit.
    assert (c = -1 \/ c = 0 \/ c = 1) as [->|[->| ->]] by lia; lia.
  - unfold eqp. cbn [fe]. rewrite <- (mod_p_shift (h0 + 65536 * fe t0) c), two_p. f_equal. lia.
Qed.

(** Any product is written as the little-endian bytes of its residue. *)
Lemma pack25519_spec out l : reduced l -> length out = 32%nat ->
  pack25519 out l = Some (le_bytes 32 (fe l mod p25519)).
Proof.
  intros Hr Ho. unfold pack25519. pose proof (reduced_length l Hr) as Hl.
  pose proof (msub_app_mid [] l []) as E. rewrite app_nil_r in E. unfold zlen in E. rewrite Hl in E.
  cbn [app length] in E. change (Z.of_nat 0) with 0 in E. change (Z.of_nat 16) with 16 in E. rewrite E.
  destruct (reduced_carry l Hr) as (t1 & -> & Hl1 & Hd1 & Hv1).
  destruct (reduced_carry t1 (digits_reduced _ Hl1 Hd1)) as (t2 & -> & Hl2 & Hd2 & Hv2).
  destruct (reduced_carry t2 (digits_reduced _ Hl2 Hd2)) as (t3 & -> & Hl3 & Hd3 & Hv3).
  rewrite Hv2, Hv1 in Hv3. pose proof (fe_digits t3 Hd3) as Hf. unfold zlen in Hf. rewrite Hl3 in Hf.
  change (65536 ^ Z.of_nat 16) with (2 * p25519 + 38) in Hf.
  destruct (pack_round_spec t3 (replicate 16 0) 0) as (t4 & m4 & E4 & Hl4 & Hm4 & Hd4 & Hv4); try done.
  destruct (pack_round_spec t4 m4 1) as (t5 & m5 & E5 & Hl5 & Hm5 & Hd5 & Hv5); try done.
  assert (for_loop 2 0 pack_round [t3; replicate 16 0] = Some [t5; m5]) as ->
    by (cbn [for_loop]; rewrite E4; change (0 + 1) with 1; by rewrite E5).
  cbn [lookup list_lookup].
  pose proof (bytes_out t5 t5 [] [] out eq_refl eq_refl) as Eb. rewrite Hl5 in Eb.
  change (zlen []) with 0 in Eb. cbn [app] in Eb. rewrite Eb by (done || lia).
  rewrite <- (le_bytes_fe t5 Hd5 32) by lia. do 2 f_equal. rewrite <- Hv3.
  assert (0 < 38 < p25519) as Hp by done. assert (0 <= fe t5 < p25519) as H5.
  { rewrite Hv5, Hv4. destruct (Z.ltb_spec (fe t3) p25519) as [H|H].
    - destruct (Z.ltb_spec (fe t3) p25519); lia.
    - destruct (Z.ltb_spec (fe t3 - p25519) p25519); lia. }
  rewrite <- (Z.mod_small _ _ H5). rewrite Hv5, Hv4. generalize (fe t3). intros v.
  destruct (v <? p25519), (v <? p25519), (v - p25519 <? p25519); try done;
    rewrite ?(Zminus_mod _ p25519), ?Z.mod_same, ?Z.sub_0_r, ?Z.mod_mod by done; try done.
Qed.

(** ** RFC 7748 *)

(** The scalar with the low three bits and the top bit cleared and bit 254 set. *)
Definition decodeScalar25519 (k : list Z) : Z := le_val k mod 2 ^ 254 / 8 * 8 + 2 ^ 254.

Definition decodeUCoordinate (u : list Z) : Z := le_val u mod 2 ^ 255.

Definition cswap (s : bool) (x y : Z) : Z * Z := if s then (y, x) else (x, y).

(** Round [t] of the Montgomery ladder, on [swap] and x_2, z_2, x_3, z_3. *)
Definition rfc_step (x1 k t : Z) (s : bool * (Z * Z * Z * Z)) : bool * (Z * Z * Z * Z) :=
  let '(swap, (x2, z2, x3, z3)) := s in
  let m x := x mod p25519 in
  let kt := Z.testbit k t in
  let swap := xorb swap kt in
  let '(x2, x3) := cswap swap x2 x3 in
  let '(z2, z3) := cswap swap z2 z3 in
  let A := m (x2 + z2) in let AA := m (A * A) in
  let B := m (x2 - z2) in let BB := m (B * B) in
  let E := m (AA - BB) in
  let C := m (x3 + z3) in let D := m (x3 - z3) in
  let DA := m (D * A) in let CB := m (C * B) in
  let s := m (DA + CB) in let d := m (DA - CB) in
  (kt, (m (AA * BB), m (E * (AA + 121665 * E)), m (s * s), m (x1 * m (d * d)))).

(** The rounds 254, 253, ..., [n] of them. *)
Fixpoint rfc_ladder (x1 k : Z) (n : nat) : bool * (Z * Z * Z * Z) :=
  match n with
  | O => (false, (1, 0, x1, 1))
  | S n => rfc_step x1 k (254 - Z.of_nat n) (rfc_ladder x1 k n)
  end.

Definition X25519 (k u : list Z) : list Z :=
  let x1 := decodeUCoordinate u in
  let '(swap, (x2, z2, x3, z3)) := rfc_ladder x1 (decodeScalar25519 k) 255 in
  let '(x2, x3) := cswap swap x2 x3 in
  let '(z2, z3) := cswap swap z2 z3 in
  le_bytes 32 ((x2 * Zpow_mod z2 (p25519 - 2) p25519) mod p25519).

(** ** The ladder *)

Lemma fmul_eqp st o a b O A B :
  st !! o = Some O -> st !! a = Some A -> st !! b = Some B -> length O = 16%nat ->
  small A -> small B ->
  exists M, fmul st o a b = Some (<[o := M]> st) /\ reduced M /\ fe M ≡p fe A * fe B.
Proof. exact (fmul_spec st o a b O A B). Qed.

Lemma small_length l : small l -> length l = 16%nat.
Proof. by intros [H _]. Qed.

Lemma add_small_only A B : reduced A -> reduced B -> small (zip_with Z.add A B).
Proof. intros HA HB. by apply add_small. Qed.

Lemma sub_small_only A B : reduced A -> reduced B -> small (zip_with Z.sub A B).
Proof. intros HA HB. by apply sub_small. Qed.

Lemma const_small : small _121665.
Proof.
  split; [done|]. repeat (apply Forall_cons_2; [unfold within; lia|]). constructor.
Qed.

Create HintDb limbs.
#[local] Hint Resolve reduced_small reduced_length small_length add_small_only sub_small_only
  const_small : limbs.

(** One operation of the ladder on a store that is written out. *)
Ltac field_op :=
  match goal with
  | |- context [fadd ?st ?o ?a ?b] =>
      erewrite (fadd_spec st o a b) by (reflexivity || (eauto with limbs)); cbv [insert list_insert]
  | |- context [fsub ?st ?o ?a ?b] =>
      erewrite (fsub_spec st o a b) by (reflexivity || (eauto with limbs)); cbv [insert list_insert]
  | |- context [fmul ?st ?o ?a ?b] =>
      let M := fresh "M" in let HM := fresh "HM" in let EM := fresh "EM" in
      edestruct (fmul_eqp st o a b) as (M & -> & HM & EM);
        [reflexivity|reflexivity|reflexivity|solve [eauto with limbs]..|]; cbv [insert list_insert]
  end.

(** Values of sums and differences. *)
Lemma fe_add A B : reduced A -> reduced B -> fe (zip_with Z.add A B) = fe A + fe B.
Proof. intros HA HB. by apply add_small. Qed.

Lemma fe_sub A B : reduced A -> reduced B -> fe (zip_with Z.sub A B) = fe A - fe B.
Proof. intros HA HB. by apply sub_small. Qed.

Lemma ladder_core_spec A B C D E F X
    (a := fe A) (b := fe B) (c := fe C) (d := fe D) :
  reduced A -> reduced B -> reduced C -> reduced D -> length E = 16%nat -> length F = 16%nat -> reduced X ->
  exists A' B' C' D' E' F',
    ladder_core [A; B; C; D; E; F; X; _121665] = Some [A'; B'; C'; D'; E'; F'; X; _121665] /\
    (reduced A' /\ reduced B' /\ reduced C' /\ reduced D' /\ length E' = 16%nat /\ length F' = 16%nat) /\
    let AA := (a + c) * (a + c) in let BB := (a - c) * (a - c) in
    let DA := (b - d) * (a + c) in let CB := (b + d) * (a - c) in
    fe A' ≡p AA * BB /\ fe C' ≡p (AA - BB) * (AA + 121665 * (AA - BB)) /\
    fe B' ≡p (DA + CB) * (DA + CB) /\ fe D' ≡p fe X * ((DA - CB) * (DA - CB)).
Proof.
  intros HA HB HC HD HE HF HX. unfold ladder_core. cbv [a_ b_ c_ d_ e_ f_ x_ k_].
  repeat field_op.
  rewrite !fe_add, !fe_sub in * by done. change (fe _121665) with 121665 in *. fold a b c d in EM, EM0, EM1, EM2.
  eexists _, _, _, _, _, _. split; [reflexivity|]. split; [split_and!; auto with limbs|]. cbv zeta. split_and!.
  - by rewrite EM6, EM, EM0.
  - rewrite EM5, EM4, EM, EM0. unfold eqp. f_equal. ring.
  - rewrite EM8, EM1, EM2. unfold eqp. f_equal. ring.
  - rewrite EM7, EM3, EM1, EM2. unfold eqp. f_equal. ring.
Qed.

(** *** The scalar *)

Lemma le_testbit l : forall i, bytes_ok l -> 0 <= i < 8 * zlen l ->
  exists x, mget l (Z.shiftr i 3) = Some x /\ Z.testbit (le_val l) i = Z.testbit x (i mod 8).
Proof.
  induction l as [|x l IH]; intros i Hb Hi; [change (zlen []) with 0 in Hi; lia|].
  apply Forall_cons_1 in Hb as [Hx Hb]. unfold byte_ok in Hx. rewrite zlen_cons in Hi. cbn [le_val].
  rewrite Z.shiftr_div_pow2 by lia. change (2 ^ 3) with 8. destruct (decide (i < 8)) as [H|H].
  - rewrite Z.div_small, Z.mod_small by lia. exists x. split; [done|].
    rewrite <- (Z.mod_pow2_bits_low _ 8) by lia. f_equal. change (2 ^ 8) with 256. div_lia.
  - destruct (IH (i - 8) Hb) as (y & E & Ht); [lia|]. exists y. split.
    + rewrite Z.shiftr_div_pow2 in E by lia. change (2 ^ 3) with 8 in E.
      rewrite mget_lookup in E |- *. destruct E as [H0 E]. split; [div_lia|].
      replace (Z.to_nat (i / 8)) with (S (Z.to_nat ((i - 8) / 8))) by div_lia. done.
    + replace (i mod 8) with ((i - 8) mod 8) by div_lia. rewrite <- Ht.
      assert ((x + 256 * le_val l) / 2 ^ 8 = le_val l) as E' by (change (2 ^ 8) with 256; div_lia).
      rewrite <- E' at 2. rewrite Z.div_pow2_bits by lia. f_equal. lia.
Qed.

Lemma clamp_bytes x : byte_ok x ->
  Z.land x 0xf8 = x / 8 * 8 /\ Z.lor (Z.land x 0x7f) 0x40 = x mod 64 + 64.
Proof.
  intros Hx. pose proof (forall_below (fun x => (Z.land x 0xf8 =? x / 8 * 8) &&
    (Z.lor (Z.land x 0x7f) 0x40 =? x mod 64 + 64)) 256 eq_refl x Hx) as H.
  cbv beta in H. apply andb_true_iff in H as [H1%Z.eqb_eq H2%Z.eqb_eq]. done.
Qed.

Lemma le_val_app l k : le_val (l ++ k) = le_val l + 256 ^ zlen l * le_val k.
Proof.
  induction l as [|x l IH]; cbn [le_val app]; [change (zlen []) with 0; lia|].
  rewrite IH, zlen_cons, Z.pow_add_r by (unfold zlen; lia). change (256 ^ 1) with 256. lia.
Qed.

Lemma le_val_range l : bytes_ok l -> 0 <= le_val l < 256 ^ zlen l.
Proof.
  induction 1 as [|x l Hx Hl IH]; cbn [le_val]; [done|]. unfold byte_ok in Hx.
  rewrite zlen_cons, Z.pow_add_r by (unfold zlen; lia). change (256 ^ 1) with 256. lia.
Qed.

Lemma clamp_spec scalar : length scalar = 32%nat -> bytes_ok scalar ->
  exists cl, clamp scalar = Some cl /\ length cl = 32%nat /\ bytes_ok cl /\
    le_val cl = decodeScalar25519 scalar.
Proof.
  intros Hl Hb. unfold clamp. pose proof (msub_app_mid [] scalar []) as E. rewrite app_nil_r in E.
  unfold zlen in E. rewrite Hl in E. cbn [app length] in E. change (Z.of_nat 0) with 0 in E.
  change (Z.of_nat 32) with 32 in E. rewrite E. clear E.
  destruct scalar as [|x0 l]; [done|]. destruct (zsplit l 30) as (mid & r & -> & H30); [unfold zlen; simpl in Hl; lia|].
  cbn [length] in Hl. rewrite length_app in Hl.
  destruct r as [|x31 [|]]; [unfold zlen in H30; simpl in Hl; lia| |unfold zlen in H30; simpl in Hl; lia].
  apply Forall_cons_1 in Hb as [H0 Hb]. apply Forall_app in Hb as [Hm [H31 _]%Forall_cons_1].
  change (mget (x0 :: ?l) 0) with (Some x0). cbv beta iota. rewrite mset_0.
  destruct (clamp_bytes x0 H0) as [-> _]. destruct (clamp_bytes x31 H31) as [_ E31].
  change (x0 / 8 * 8 :: mid ++ [x31]) with ((x0 / 8 * 8 :: mid) ++ x31 :: []).
  assert (zlen (x0 / 8 * 8 :: mid) = 31) as E31' by (rewrite zlen_cons; lia).
  set (hd := x0 / 8 * 8 :: mid) in *.
  assert (mget (hd ++ [x31]) 31 = Some x31) as -> by (rewrite <- E31'; apply mget_app_mid).
  assert (forall v, mset (hd ++ [x31]) 31 v = Some (hd ++ [v])) as -> by (intros v; rewrite <- E31'; apply mset_app_mid).
  rewrite E31. unfold hd in *.
  unfold byte_ok in H0, H31. eexists. split; [reflexivity|].
  split; [rewrite length_app; cbn [length]; unfold zlen in H30; lia|]. split.
  - apply Forall_app_2; [apply Forall_cons_2; [unfold byte_ok; div_lia|done]|].
    apply Forall_singleton. unfold byte_ok. div_lia.
  - unfold decodeScalar25519. pose proof (le_val_range mid Hm) as Hr. rewrite H30 in Hr.
    cbn [app le_val]. rewrite !le_val_app, H30. cbn [le_val].
    change (256 ^ 30) with (2 ^ 240) in *. generalize dependent (le_val mid). intros v Hv.
    assert (((x0 + 256 * (v + 2 ^ 240 * (x31 + 256 * 0))) mod 2 ^ 254) =
      x0 + 256 * (v + 2 ^ 240 * (x31 mod 64))) as ->.
    { symmetry. apply Z.mod_unique with (x31 / 64); [left; div_lia|]. div_lia. }
    div_lia.
Qed.

(** *** The rounds

    The code swaps back at the end of a round, the RFC leaves the swap to the next. *)
Definition ladder_rel (s : bool * (Z * Z * Z * Z)) (A B C D : list Z) : Prop :=
  let '(swap, (x2, z2, x3, z3)) := s in
  fe A ≡p fst (cswap swap x2 x3) /\ fe B ≡p snd (cswap swap x2 x3) /\
  fe C ≡p fst (cswap swap z2 z3) /\ fe D ≡p snd (cswap swap z2 z3).

Definition swap_arrays (bit : bool) (A B : list Z) : list Z * list Z := if bit then (B, A) else (A, B).

Lemma swap_store bit A B C D E F X k : length A = 16%nat -> length B = 16%nat ->
  length C = 16%nat -> length D = 16%nat ->
  (st <- swap25519 [A; B; C; D; E; F; X; k] a_ b_ (Z.b2z bit);; swap25519 st c_ d_ (Z.b2z bit)) =
  let '(A, B) := swap_arrays bit A B in let '(C, D) := swap_arrays bit C D in
  Some [A; B; C; D; E; F; X; k].
Proof.
  intros HA HB HC HD. assert (Z.b2z bit = 0 \/ Z.b2z bit = 1) as Hbit by (destruct bit; auto).
  rewrite (swap25519_spec _ a_ b_ _ A B) by (done || (unfold a_, b_; lia)).
  rewrite (swap25519_spec _ c_ d_ _ C D) by (done || (unfold c_, d_; lia) || by destruct bit).
  by destruct bit.
Qed.

Lemma rfc_step_rel x1 k t s A B C D A' B' C' D' X :
  let A1 := fst (swap_arrays (Z.testbit k t) A B) in let B1 := snd (swap_arrays (Z.testbit k t) A B) in
  let C1 := fst (swap_arrays (Z.testbit k t) C D) in let D1 := snd (swap_arrays (Z.testbit k t) C D) in
  let a := fe A1 in let b := fe B1 in let c := fe C1 in let d := fe D1 in
  let AA := (a + c) * (a + c) in let BB := (a - c) * (a - c) in
  let DA := (b - d) * (a + c) in let CB := (b + d) * (a - c) in
  ladder_rel s A B C D -> fe X = x1 ->
  fe A' ≡p AA * BB -> fe C' ≡p (AA - BB) * (AA + 121665 * (AA - BB)) ->
  fe B' ≡p (DA + CB) * (DA + CB) -> fe D' ≡p fe X * ((DA - CB) * (DA - CB)) ->
  ladder_rel (rfc_step x1 k t s)
    (fst (swap_arrays (Z.testbit k t) A' B')) (snd (swap_arrays (Z.testbit k t) A' B'))
    (fst (swap_arrays (Z.testbit k t) C' D')) (snd (swap_arrays (Z.testbit k t) C' D')).
Proof.
  destruct s as [swap [[[x2 z2] x3] z3]]. unfold ladder_rel, rfc_step, swap_arrays. cbv zeta.
  intros (Ha & Hb & Hc & Hd) <- EA EC EB ED. revert EA EC EB ED.
  destruct (Z.testbit k t), swap; cbn [xorb cswap fst snd] in *; intros EA EC EB ED; split_and!;
    first [rewrite EA|rewrite EB|rewrite EC|rewrite ED];
    rewrite ?Ha, ?Hb, ?Hc, ?Hd; symmetry; rewrite !eqp_mod; reflexivity.
Qed.

Lemma ladder_step_spec cl k n s A B C D E F X :
  bytes_ok cl -> length cl = 32%nat -> le_val cl = k -> 0 <= n < 255 ->
  reduced A -> reduced B -> reduced C -> reduced D -> length E = 16%nat -> length F = 16%nat -> reduced X ->
  ladder_rel s A B C D ->
  exists A' B' C' D' E' F',
    ladder_step cl n [A; B; C; D; E; F; X; _121665] = Some [A'; B'; C'; D'; E'; F'; X; _121665] /\
    (reduced A' /\ reduced B' /\ reduced C' /\ reduced D' /\ length E' = 16%nat /\ length F' = 16%nat) /\
    ladder_rel (rfc_step (fe X) k (254 - n) s) A' B' C' D'.
Proof.
  intros Hb Hl <- Hn HA HB HC HD HE HF HX Hrel. unfold ladder_step.
  destruct (le_testbit cl (254 - n) Hb) as (x & -> & Ht); [unfold zlen; lia|].
  assert (Z.land (Z.shiftr x (Z.land (254 - n) 7)) 1 = Z.b2z (Z.testbit (le_val cl) (254 - n))) as ->.
  { rewrite Ht. change 7 with (Z.ones 3). rewrite Z.land_ones by lia. change (2 ^ 3) with 8.
    change 1 with (Z.ones 1). rewrite Z.land_ones by lia. change (2 ^ 1) with 2.
    rewrite Z.shiftr_div_pow2, Z.testbit_spec' by (apply Z.mod_pos_bound; lia). done. }
  set (bit := Z.testbit (le_val cl) (254 - n)).
  set (A1 := fst (swap_arrays bit A B)). set (B1 := snd (swap_arrays bit A B)).
  set (C1 := fst (swap_arrays bit C D)). set (D1 := snd (swap_arrays bit C D)).
  assert (reduced A1 /\ reduced B1 /\ reduced C1 /\ reduced D1) as (H1 & H2 & H3 & H4)
    by (unfold A1, B1, C1, D1, swap_arrays; destruct bit; done).
  destruct (ladder_core_spec A1 B1 C1 D1 E F X H1 H2 H3 H4 HE HF HX) as
    (A' & B' & C' & D' & E' & F' & Ec & (RA & RB & RC & RD & LE & LF) & EA & EC & EB & ED).
  pose proof (swap_store bit A B C D E F X _121665) as S1.
  pose proof (swap_store bit A' B' C' D' E' F' X _121665) as S2.
  rewrite (surjective_pairing (swap_arrays bit A B)), (surjective_pairing (swap_arrays bit C D)) in S1.
  rewrite (surjective_pairing (swap_arrays bit A' B')), (surjective_pairing (swap_arrays bit C' D')) in S2.
  fold A1 B1 C1 D1 in S1.
  specialize (S1 ltac:(auto with limbs) ltac:(auto with limbs) ltac:(auto with limbs) ltac:(auto with limbs)).
  specialize (S2 ltac:(auto with limbs) ltac:(auto with limbs) ltac:(auto with limbs) ltac:(auto with limbs)).
  destruct (swap25519 [A; B; C; D; E; F; X; _121665] a_ b_ (Z.b2z bit)) as [st|]; [|done].
  cbn beta iota in S1. rewrite S1, Ec, S2.
  eexists _, _, _, _, _, _. split; [reflexivity|]. split.
  - unfold swap_arrays. destruct bit; cbn [fst snd]; done.
  - eapply rfc_step_rel; [exact Hrel|reflexivity|exact EA|exact EC|exact EB|exact ED].
Qed.

Lemma ladder_loop_spec cl k X : bytes_ok cl -> length cl = 32%nat -> le_val cl = k -> reduced X ->
  let zero := replicate 16 0 in let one := 1 :: replicate 15 0 in
  exists A B C D E F,
    for_loop 255 0 (ladder_step cl) [one; X; zero; one; zero; zero; X; _121665] =
      Some [A; B; C; D; E; F; X; _121665] /\
    reduced A /\ reduced C /\ ladder_rel (rfc_ladder (fe X) k 255) A B C D.
Proof.
  intros Hb Hl Hk HX zero one.
  assert (reduced zero) as Hz by (apply digits_reduced; [done|by apply Forall_replicate]).
  assert (reduced one) as Ho
    by (apply digits_reduced; [done|apply Forall_cons_2; [done|by apply Forall_replicate]]).
  destruct (for_loop_inv (fun n st => exists A B C D E F, st = [A; B; C; D; E; F; X; _121665] /\
      (reduced A /\ reduced B /\ reduced C /\ reduced D /\ length E = 16%nat /\ length F = 16%nat) /\
      ladder_rel (rfc_ladder (fe X) k (Z.to_nat n)) A B C D) 255 0 (ladder_step cl)
      [one; X; zero; one; zero; zero; X; _121665])
    as (st & -> & A & B & C & D & E & F & -> & (HA & _ & HC & _) & Hrel).
  - intros n st Hn (A & B & C & D & E & F & -> & (HA & HB & HC & HD & HE & HF) & Hrel).
    destruct (ladder_step_spec cl k n _ A B C D E F X Hb Hl Hk ltac:(lia) HA HB HC HD HE HF HX Hrel)
      as (A' & B' & C' & D' & E' & F' & Es & Hr' & Hrel').
    eexists. split; [exact Es|]. exists A', B', C', D', E', F'. split; [done|]. split; [done|].
    replace (Z.to_nat (n + 1)) with (S (Z.to_nat n)) by lia. cbn [rfc_ladder].
    by rewrite Z2Nat.id by lia.
  - exists one, X, zero, one, zero, zero. split; [done|]. split; [done|]. done.
  - change (Z.to_nat (0 + Z.of_nat 255)) with 255%nat in Hrel. exists A, B, C, D, E, F.
    split; [reflexivity|]. split; [exact HA|]. split; [exact HC|]. exact Hrel.
Qed.

#[local] Opaque rfc_ladder.

Lemma scalarmult_x25519 out scalar point :
  length out = 32%nat -> length scalar = 32%nat -> bytes_ok scalar -> length point = 32%nat -> bytes_ok point ->
  crypto_scalarmult out scalar point = Some (X25519 scalar point).
Proof.
  intros Ho Hs Hsb Hp Hpb. unfold crypto_scalarmult.
  destruct (clamp_spec scalar Hs Hsb) as (cl & -> & Hcl & Hclb & Hk).
  destruct (unpack25519_spec point (replicate 16 0) Hp Hpb eq_refl) as (X & -> & HXl & HXd & HXv).
  change (mset (replicate 16 0) 0 1) with (Some (1 :: replicate 15 0)). cbv beta iota zeta.
  pose proof (digits_reduced X HXl HXd) as HX.
  destruct (ladder_loop_spec cl _ X Hclb Hcl Hk HX) as (A & B & C & D & E & F & Eloop & HA & HC & Hrel).
  cbv zeta in Eloop. rewrite Eloop.
  destruct (finverse_spec [A; B; C; D; E; F; X; _121665] c_ c_ C C) as (I & -> & HI & EI);
    [done|done|by apply reduced_length|done|]. cbn [insert list_insert c_].
  destruct (fmul_eqp [A; B; I; D; E; F; X; _121665] a_ a_ c_ A A I) as (M & -> & HM & EM);
    [done|done|done|by apply reduced_length|by apply reduced_small..|]. cbn [insert list_insert a_ lookup list_lookup].
  rewrite pack25519_spec by done. unfold X25519, decodeUCoordinate. rewrite <- HXv.
  destruct (rfc_ladder (fe X) (decodeScalar25519 scalar) 255) as [swap [[[x2 z2] x3] z3]].
  destruct Hrel as (EA & _ & EC & _).
  destruct (cswap swap x2 x3) as [x2' x3'], (cswap swap z2 z3) as [z2' z3']. cbn [fst snd] in EA, EC.
  do 2 f_equal. change (fe M ≡p x2' * Zpow_mod z2' (p25519 - 2) p25519).
  rewrite Zpow_mod_correct by done. rewrite eqp_mod, EM, EA, EI. f_equiv.
  unfold eqp in EC |- *. rewrite (Zpower_mod (fe C)), (Zpower_mod z2') by done. rewrite EC. reflexivity.
Qed.

(** ** Properties *)

(** C5: for every scalar and every point of 32 bytes, [crypto_scalarmult] computes the
    function X25519 of RFC 7748: no sum, product or shift of its limbs leaves the range of
    [long long], no access leaves an array, and the result is in canonical form. *)
Theorem crypto_scalarmult_is_x25519 out scalar point :
  length out = 32%nat -> length scalar = 32%nat -> bytes_ok scalar -> length point = 32%nat -> bytes_ok point ->
  crypto_scalarmult out scalar point = Some (X25519 scalar point).
Proof. apply scalarmult_x25519. Qed.

(** multiplying by the base point derives the public key, and the key pair made from
    an Ed25519 key holds its first 32 bytes and the public key that belongs to them. *)
Theorem keypair_with_ed25519privkey_spec public_key private_key ed25519_private_key :
  length public_key = 32%nat -> length private_key = 32%nat -> (32 <= length ed25519_private_key)%nat ->
  bytes_ok ed25519_private_key ->
  curve25519_create_keypair_with_ed25519privkey public_key private_key ed25519_private_key =
  Some (X25519 (take 32 ed25519_private_key) (9 :: replicate 31 0), take 32 ed25519_private_key).
Proof.
  intros Hq Hk Hl Hb. unfold curve25519_create_keypair_with_ed25519privkey.
  set (sk := take 32 ed25519_private_key).
  assert (length sk = 32%nat) as Hsk by (unfold sk; rewrite length_take; lia).
  assert (bytes_ok sk) as Hskb by (by apply Forall_take).
  destruct (for_loop_inv (fun i pk => pk = take (Z.to_nat i) sk ++ drop (Z.to_nat i) private_key) 32 0
    (fun i pk => x <- mget ed25519_private_key i;; mset pk i x) private_key) as (pk & -> & ->).
  - intros i pk Hi ->. destruct (lookup_lt_is_Some_2 sk (Z.to_nat i)) as [x Ex]; [lia|].
    assert (mget ed25519_private_key i = Some x) as ->.
    { apply mget_lookup. split; [lia|]. unfold sk in Ex. by rewrite lookup_take_lt in Ex by lia. }
    destruct (lookup_lt_is_Some_2 private_key (Z.to_nat i)) as [y Ey]; [lia|].
    rewrite (drop_S private_key y (Z.to_nat i) Ey).
    eexists. split; [|reflexivity]. replace (Z.to_nat (i + 1)) with (S (Z.to_nat i)) by lia.
    rewrite (take_S_r sk _ x Ex), <- app_assoc. cbn [app].
    replace i with (zlen (take (Z.to_nat i) sk)) at 3 by (unfold zlen; rewrite length_take_le by lia; lia).
    apply mset_app_mid.
  - done.
  - change (Z.to_nat (0 + Z.of_nat 32)) with 32%nat. rewrite take_ge, drop_ge, app_nil_r by lia.
    unfold crypto_scalarmult_base.
    rewrite scalarmult_x25519; [done|done|done|done|done|].
    apply Forall_cons_2; [done|by apply Forall_replicate].
Qed.

(** a fresh key pair has the public key of its private key, but the private key
    consists of letters and digits: of the 256 values of a byte only 62 occur. *)
Theorem keypair_alnum rnd public_key private_key :
  length public_key = 32%nat -> length private_key = 32%nat ->
  exists sk, curve25519_create_keypair rnd public_key private_key = Some (X25519 sk base, sk) /\
    length sk = 32%nat /\ Forall Base64.alnum sk.
Proof.
  intros Hq Hk. unfold curve25519_create_keypair.
  destruct (Base64.genUniqueKey_alnum rnd private_key []) as (sk & E & Hl & Ha).
  rewrite !app_nil_r in E. unfold zlen in E. rewrite Hk in E. change (Z.of_nat 32) with 32 in E. rewrite E.
  unfold crypto_scalarmult_base. rewrite scalarmult_x25519; [|done|lia| |done|].
  - exists sk. split; [done|]. split; [lia|done].
  - eapply Forall_impl; [|exact Ha]. unfold Base64.alnum, byte_ok. lia.
  - apply Forall_cons_2; [done|by apply Forall_replicate].
Qed.

(** ** Concrete instances *)

Definition byte_string (h : Z) : list Z := le_bytes 32 h.

Lemma byte_string_ok h : length (byte_string h) = 32%nat /\ bytes_ok (byte_string h).
Proof.
  split; [done|]. unfold byte_string. generalize 32%nat. intros n. revert h.
  induction n as [|n IH]; intros h; cbn [le_bytes]; constructor; [|apply IH].
  unfold byte_ok. apply Z.mod_pos_bound. lia.
Qed.

(** The private key of the first party in section 6.1 of RFC 7748. *)
Definition alice : list Z :=
  byte_string 0x2a2cb91da5fb77b12a99c0eb872f4cdf4566b25172c1163c7da518730a6d0777.

Lemma crypto_scalarmult_is_x25519_witness :
  crypto_scalarmult (replicate 32 0) alice base = Some (X25519 alice base).
Proof.
  apply (crypto_scalarmult_is_x25519 (replicate 32 0) alice base);
    [reflexivity|reflexivity|apply byte_string_ok|reflexivity|].
  apply Forall_cons_2; [split; lia|]. apply Forall_replicate. split; lia.
Defined.

Lemma keypair_with_ed25519privkey_spec_witness :
  curve25519_create_keypair_with_ed25519privkey (replicate 32 0) (replicate 32 0) (alice ++ alice) =
  Some (X25519 (take 32 (alice ++ alice)) (9 :: replicate 31 0), take 32 (alice ++ alice)).
Proof.
  apply (keypair_with_ed25519privkey_spec (replicate 32 0) (replicate 32 0) (alice ++ alice));
    [reflexivity|reflexivity|apply Nat.leb_le; reflexivity|].
  apply Forall_app_2; apply byte_string_ok.
Defined.

Lemma keypair_alnum_witness :
  exists sk, curve25519_create_keypair (fun i => 7 * i) (replicate 32 0) (replicate 32 0) = Some (X25519 sk base, sk) /\
    length sk = 32%nat /\ Forall Base64.alnum sk.
Proof. apply (keypair_alnum (fun i => 7 * i) (replicate 32 0) (replicate 32 0)); reflexivity. Defined.

End Curve25519.
