(* ===== verification/Regex.v ===== *)
(** * The regular expressions ([src/utility/RegexMatch.cpp])

    A backtracking matcher for patterns with literals, escapes, the dot, bracket
    expressions, the quantifiers star, plus and question mark, and the anchors.  The
    theorem gives its meaning: a pattern stands for a regular expression, and
    [regex_match] returns the first position at which that expression matches, or -1.

    Pointers into the pattern are the memory from them on, with the length the code
    passes along; characters are their codes. *)

From stdpp Require Import base option list numbers.
From Stdlib Require Import ZArith Lia.
From S2P Require Import Prelude.

Open Scope Z_scope.

Module Regex.

(** ** The code *)

(** [while (i < plen && p[i] != ']') i++] *)
Fixpoint scan_close (fuel : nat) (p : list Z) (plen i : Z) : option Z :=
  match fuel with
  | O => None
  | S fuel =>
      if i <? plen then
        c <- mget p i;; if c =? 93 then Some i else scan_close fuel p plen (i + 1)
      else Some i
  end.

Definition token_length (p : list Z) (plen : Z) : option Z :=
  if plen <=? 0 then Some 0
  else
    c <- mget p 0;;
    if (c =? 92) && (plen >=? 2) then Some 2
    else if c =? 91 then
      i <- (if 1 <? plen then x <- mget p 1;; Some (if x =? 94 then 2 else 1) else Some 1);;
      i <- scan_close (S (Z.to_nat plen)) p plen i;;
      Some (if i <? plen then i + 1 else 1)
    else Some 1.

(** The loop over the members of a bracket expression. *)
Fixpoint class_loop (fuel : nat) (p : list Z) (plen ch i : Z) (found : bool) : option bool :=
  match fuel with
  | O => None
  | S fuel =>
      if i <? plen then
        c <- mget p i;;
        if c =? 93 then Some found
        else
          range <- (if i + 2 <? plen then
                      c1 <- mget p (i + 1);; c2 <- mget p (i + 2);; Some ((c1 =? 45) && negb (c2 =? 93))
                    else Some false);;
          if range : bool then
            hi <- mget p (i + 2);;
            class_loop fuel p plen ch (i + 3) (((c <=? ch) && (ch <=? hi)) || found)
          else class_loop fuel p plen ch (i + 1) ((ch =? c) || found)
      else Some found
  end.

Definition token_matches (p : list Z) (plen ch : Z) : option bool :=
  if plen <=? 0 then Some false
  else
    c <- mget p 0;;
    if c =? 46 then Some true
    else if (c =? 92) && (plen >=? 2) then x <- mget p 1;; Some (ch =? x)
    else if c =? 91 then
      negate <- (if 1 <? plen then x <- mget p 1;; Some (x =? 94) else Some false);;
      found <- class_loop (S (Z.to_nat plen)) p plen ch (if negate : bool then 2 else 1) false;;
      Some (negb (Bool.eqb found negate))
    else Some (ch =? c).

(** The greedy count of [match_quant]. *)
Fixpoint count_loop (fuel : nat) (p : list Z) (tokenlen maxMatches : Z) (t : list Z) (tlen tpos count : Z)
  : option Z :=
  match fuel with
  | O => None
  | S fuel =>
      if (count <? maxMatches) && (tpos + count <? tlen) then
        ch <- mget t (tpos + count);;
        m <- token_matches p tokenlen ch;;
        if m : bool then count_loop fuel p tokenlen maxMatches t tlen tpos (count + 1) else Some count
      else Some count
  end.

(** The loop that gives back one match after the other; [rest] is the call of
    [match_here] behind the quantifier. *)
Fixpoint back_loop (fuel : nat) (rest : Z -> option bool) (minMatches count : Z) : option bool :=
  match fuel with
  | O => None
  | S fuel =>
      if count >=? minMatches then
        m <- rest count;;
        if m : bool then Some true
        else if count =? 0 then Some false
        else back_loop fuel rest minMatches (count - 1)
      else Some false
  end.

Definition match_quant (here : list Z -> Z -> Z -> option bool) (p : list Z) (tokenlen quant plen_after_quant : Z)
    (t : list Z) (tlen tpos : Z) : option bool :=
  let minMatches := if quant =? 43 then 1 else 0 in
  let maxMatches := if quant =? 63 then 1 else 32767 in
  count <- count_loop (S (Z.to_nat tlen)) p tokenlen maxMatches t tlen tpos 0;;
  back_loop (S (Z.to_nat count)) (fun count =>
    here (drop (Z.to_nat (tokenlen + 1)) p) plen_after_quant (tpos + count)) minMatches count.

(** Each call is for a shorter pattern. *)
Fixpoint match_here (fuel : nat) (t : list Z) (tlen : Z) (p : list Z) (plen tpos : Z) : option bool :=
  match fuel with
  | O => None
  | S fuel =>
      if plen <=? 0 then Some true
      else
        c <- mget p 0;;
        if (plen =? 1) && (c =? 36) then Some (tpos =? tlen)
        else
          tokenlen <- token_length p plen;;
          if tokenlen =? 0 then Some true
          else
            quant <- (if tokenlen <? plen then
                        c <- mget p tokenlen;;
                        Some (if (c =? 42) || (c =? 43) || (c =? 63) then Some c else None)
                      else Some None);;
            match quant with
            | Some q => match_quant (match_here fuel t tlen) p tokenlen q (plen - tokenlen - 1) t tlen tpos
            | None =>
                if tpos <? tlen then
                  ch <- mget t tpos;;
                  m <- token_matches p tokenlen ch;;
                  if m : bool then match_here fuel t tlen (drop (Z.to_nat tokenlen) p) (plen - tokenlen) (tpos + 1)
                  else Some false
                else Some false
            end
  end.

(** [for (int i = 0; i <= textlen; i++) if (match_here(...)) return i] *)
Fixpoint search_loop (fuel : nat) (pattern : list Z) (plen : Z) (text : list Z) (textlen i : Z) : option Z :=
  match fuel with
  | O => None
  | S fuel =>
      if i <=? textlen then
        m <- match_here (S (Z.to_nat plen)) text textlen pattern plen i;;
        if m : bool then Some i else search_loop fuel pattern plen text textlen (i + 1)
      else Some (-1)
  end.

Definition regex_match (pattern text : option (list Z)) (textlen : Z) : option Z :=
  match pattern, text with
  | Some pattern, Some text =>
      plen <- strlen pattern;;
      c <- mget pattern 0;;
      if (plen >? 0) && (c =? 94) then
        m <- match_here (S (Z.to_nat plen)) text textlen (drop 1 pattern) (plen - 1) 0;;
        Some (if m : bool then 0 else -1)
      else search_loop (S (S (Z.to_nat textlen))) pattern plen text textlen 0
  | _, _ => Some (-1)
  end.

(** ** Regular expressions *)

Inductive tok :=
  | Any
  | Lit (c : Z)
  | Class (neg : bool) (rs : list (Z * Z))
  | Never.

Inductive rep := One | Opt | Star | Plus.

Inductive regex :=
  | Empty
  | AtEnd
  | Seq (t : tok) (r : rep) (k : regex).

Definition tok_in (t : tok) (ch : Z) : bool :=
  match t with
  | Any => true
  | Lit c => ch =? c
  | Class neg rs => negb (Bool.eqb (existsb (fun '(lo, hi) => (lo <=? ch) && (ch <=? hi)) rs) neg)
  | Never => false
  end.

(** How often a token may be repeated: the code counts up to 32767. *)
Definition rep_ok (r : rep) (n : Z) : bool :=
  match r with
  | One => n =? 1
  | Opt => n <=? 1
  | Star => n <=? 32767
  | Plus => (1 <=? n) && (n <=? 32767)
  end.

(** The expression matches at the beginning of a text. *)
Inductive matches : regex -> list Z -> Prop :=
  | matches_empty s : matches Empty s
  | matches_end : matches AtEnd []
  | matches_seq t r k w s :
      Forall (fun ch => tok_in t ch = true) w -> rep_ok r (zlen w) = true -> matches k s ->
      matches (Seq t r k) (w ++ s).

(** *** The syntax of patterns *)

(** The members of a bracket expression: pairs [x-y] and single characters. *)
Fixpoint ranges (l : list Z) : list (Z * Z) :=
  match l with
  | [] => []
  | x :: l1 =>
      match l1 with
      | d :: y :: l2 => if d =? 45 then (x, y) :: ranges l2 else (x, x) :: ranges l1
      | _ => (x, x) :: ranges l1
      end
  end.

(** The text up to the first closing bracket, and what follows it. *)
Fixpoint before_close (l : list Z) : option (list Z * list Z) :=
  match l with
  | [] => None
  | c :: l => if c =? 93 then Some ([], l)
              else '(a, b) <- before_close l;; Some (c :: a, b)
  end.

(** The first token of a pattern, and the pattern behind it. *)
Definition tokenise (q : list Z) : option (tok * list Z) :=
  match q with
  | [] => None
  | c :: r =>
      if c =? 46 then Some (Any, r)
      else if c =? 92 then
        match r with x :: r' => Some (Lit x, r') | [] => Some (Lit c, r) end
      else if c =? 91 then
        let neg := match r with x :: _ => x =? 94 | [] => false end in
        match before_close (if neg then drop 1 r else r) with
        | Some (cls, r') => Some (Class neg (ranges cls), r')
        | None => Some (Never, r)
        end
      else Some (Lit c, r)
  end.

Definition rep_of (c : Z) : option rep :=
  if c =? 42 then Some Star else if c =? 43 then Some Plus else if c =? 63 then Some Opt else None.

(** A pattern has at most as many tokens as characters. *)
Fixpoint parse (fuel : nat) (q : list Z) : regex :=
  match fuel with
  | O => Empty
  | S fuel =>
      if bool_decide (q = [36]) then AtEnd
      else
        match tokenise q with
        | None => Empty
        | Some (t, []) => Seq t One Empty
        | Some (t, c :: r) =>
            match rep_of c with
            | Some rp => Seq t rp (parse fuel r)
            | None => Seq t One (parse fuel (c :: r))
            end
        end
  end.

(** ** Tokens *)

Lemma before_close_Some l a b : before_close l = Some (a, b) -> l = a ++ 93 :: b /\ Forall (fun c => c <> 93) a.
Proof.
  revert a b. induction l as [|c l IH]; intros a b E; cbn [before_close] in E; [done|].
  destruct (Z.eqb_spec c 93) as [->|Hc].
  - simplify_eq. split; [done|constructor].
  - destruct (before_close l) as [[a' b']|]; [|done]. simplify_eq.
    destruct (IH a' b eq_refl) as [-> H]. split; [done|]. by apply Forall_cons_2.
Qed.

Lemma before_close_None l : before_close l = None -> Forall (fun c => c <> 93) l.
Proof.
  induction l as [|c l IH]; intros E; cbn [before_close] in E; [constructor|].
  destruct (Z.eqb_spec c 93); [done|]. destruct (before_close l) as [[]|]; [done|]. apply Forall_cons_2; auto.
Qed.

Lemma scan_closed cls : forall fuel pre y plen i,
  i = zlen pre -> i + zlen cls < plen -> Forall (fun c => c <> 93) cls -> (length cls < fuel)%nat ->
  scan_close fuel (pre ++ cls ++ 93 :: y) plen i = Some (i + zlen cls).
Proof.
  induction cls as [|c cls IH]; intros fuel pre y plen i -> Hp Hc Hf; (destruct fuel as [|fuel]; [simpl in Hf; lia|]);
    cbn [scan_close app]; rewrite ?zlen_cons in *.
  - destruct (Z.ltb_spec (zlen pre) plen); [|change (zlen []) with 0 in *; lia]. rewrite mget_app_mid. f_equal.
    change (zlen []) with 0. lia.
  - pose proof (zlen_nonneg cls). apply Forall_cons_1 in Hc as [Hc Hcs]. destruct (Z.ltb_spec (zlen pre) plen); [|lia].
    rewrite mget_app_mid. destruct (Z.eqb_spec c 93); [done|].
    change (pre ++ c :: ?l) with (pre ++ [c] ++ l). rewrite app_assoc.
    rewrite IH; [f_equal; lia|by rewrite zlen_app|lia|done|simpl in Hf; lia].
Qed.

Lemma scan_unclosed cls : forall fuel pre y i,
  i = zlen pre -> Forall (fun c => c <> 93) cls -> (length cls < fuel)%nat ->
  scan_close fuel (pre ++ cls ++ y) (i + zlen cls) i = Some (i + zlen cls).
Proof.
  induction cls as [|c cls IH]; intros fuel pre y i -> Hc Hf; (destruct fuel as [|fuel]; [simpl in Hf; lia|]);
    cbn [scan_close app]; rewrite ?zlen_cons in *.
  - change (zlen []) with 0. rewrite Z.add_0_r, Z.ltb_irrefl. done.
  - pose proof (zlen_nonneg cls). apply Forall_cons_1 in Hc as [Hc Hcs]. destruct (Z.ltb_spec (zlen pre) (zlen pre + (1 + zlen cls))); [|lia].
    rewrite mget_app_mid. destruct (Z.eqb_spec c 93); [done|].
    change (pre ++ c :: ?l) with (pre ++ [c] ++ l). rewrite app_assoc.
    replace (zlen pre + (1 + zlen cls)) with (zlen pre + 1 + zlen cls) by lia.
    rewrite IH; [done|by rewrite zlen_app|done|simpl in Hf; lia].
Qed.

Definition in_ranges (rs : list (Z * Z)) (ch : Z) : bool :=
  existsb (fun '(lo, hi) => (lo <=? ch) && (ch <=? hi)) rs.

Lemma eqb_range ch c : (ch =? c) = (c <=? ch) && (ch <=? c).
Proof. destruct (Z.eqb_spec ch c), (Z.leb_spec c ch), (Z.leb_spec ch c); simpl; lia. Qed.

(** The range the loop sees at a member of the class is the one of the syntax. *)
Lemma range_here pre c cls y : Forall (fun c => c <> 93) (c :: cls) ->
  let i := zlen pre in
  (if i + 2 <? i + zlen (c :: cls) + 1 then
     c1 <- mget (pre ++ (c :: cls) ++ 93 :: y) (i + 1);; c2 <- mget (pre ++ (c :: cls) ++ 93 :: y) (i + 2);;
     Some ((c1 =? 45) && negb (c2 =? 93))
   else Some false) =
  Some (match cls with d :: _ :: _ => d =? 45 | _ => false end).
Proof.
  intros Hc i. apply Forall_cons_1 in Hc as [_ Hc].
  assert (forall l j, mget (pre ++ l) (i + j) = if 0 <=? i + j then (pre ++ l) !! Z.to_nat (i + j) else None) as Hm
    by done.
  assert (forall l j, 0 <= j -> mget (pre ++ l) (i + j) = l !! Z.to_nat j) as Hg.
  { intros l j Hj. rewrite Hm. pose proof (zlen_nonneg pre). destruct (Z.leb_spec 0 (i + j)); [|unfold i in *; lia].
    rewrite lookup_app_r by (unfold i, zlen; lia). f_equal. unfold i, zlen. lia. }
  destruct cls as [|c1 [|c2 cls]].
  - destruct (Z.ltb_spec (i + 2) (i + zlen [c] + 1)); [change (zlen [c]) with 1 in *; lia|done].
  - destruct (Z.ltb_spec (i + 2) (i + zlen [c; c1] + 1)); [|change (zlen [c; c1]) with 2 in *; lia].
    rewrite !Hg by lia. change (Z.to_nat 1) with 1%nat. change (Z.to_nat 2) with 2%nat.
    cbn [lookup list_lookup app negb]. rewrite Z.eqb_refl. by rewrite andb_false_r.
  - destruct (Z.ltb_spec (i + 2) (i + zlen (c :: c1 :: c2 :: cls) + 1)); [|rewrite !zlen_cons in *; pose proof (zlen_nonneg cls); lia].
    rewrite !Hg by lia. change (Z.to_nat 1) with 1%nat. change (Z.to_nat 2) with 2%nat.
    cbn [lookup list_lookup app]. apply Forall_cons_1 in Hc as [_ Hc]. apply Forall_cons_1 in Hc as [Hc _].
    destruct (Z.eqb_spec c2 93); [done|]. by rewrite andb_true_r.
Qed.

Lemma in_ranges_cons lo hi rs ch :
  in_ranges ((lo, hi) :: rs) ch = ((lo <=? ch) && (ch <=? hi)) || in_ranges rs ch.
Proof. done. Qed.

Lemma class_loop_spec n : forall cls fuel pre y ch found i,
  (length cls <= n)%nat -> i = zlen pre -> Forall (fun c => c <> 93) cls -> (length cls < fuel)%nat ->
  class_loop fuel (pre ++ cls ++ 93 :: y) (i + zlen cls + 1) ch i found =
  Some (in_ranges (ranges cls) ch || found).
Proof.
  induction n as [|n IH]; intros cls fuel pre y ch found i Hn -> Hc Hf;
    (destruct fuel as [|fuel]; [lia|]); cbn [class_loop]; pose proof (zlen_nonneg cls);
    (destruct (Z.ltb_spec (zlen pre) (zlen pre + zlen cls + 1)); [|lia]);
    (destruct cls as [|c cls]; [cbn [app ranges]; by rewrite mget_app_mid|]); [simpl in Hn; lia|].
  change (mget (pre ++ (c :: cls) ++ 93 :: y) (zlen pre)) with (mget (pre ++ c :: (cls ++ 93 :: y)) (zlen pre)).
  rewrite mget_app_mid. pose proof (Forall_cons_1 _ _ _ Hc) as [Hc1 Hcs].
  destruct (Z.eqb_spec c 93); [done|]. rewrite range_here by done.
  assert (ranges (c :: cls) = match cls with
    | d :: y :: l2 => if d =? 45 then (c, y) :: ranges l2 else (c, c) :: ranges cls
    | _ => (c, c) :: ranges cls end) as -> by done.
  assert (forall fuel', fuel' = fuel ->
    class_loop fuel (pre ++ (c :: cls) ++ 93 :: y) (zlen pre + zlen (c :: cls) + 1) ch (zlen pre + 1)
      ((ch =? c) || found) = Some (in_ranges ((c, c) :: ranges cls) ch || found)) as Hone.
  { intros _ _. pose proof (IH cls fuel (pre ++ [c]) y ch ((ch =? c) || found) (zlen pre + 1)) as E.
    rewrite <- app_assoc in E. cbn [app] in E |- *. rewrite zlen_cons.
    replace (zlen pre + (1 + zlen cls) + 1) with (zlen pre + 1 + zlen cls + 1) by lia.
    rewrite E; [|simpl in Hn; lia|by rewrite zlen_app|done|simpl in Hf; lia].
    rewrite in_ranges_cons, eqb_range. f_equal.
    destruct (in_ranges (ranges cls) ch), ((c <=? ch) && (ch <=? c)), found; done. }
  specialize (Hone fuel eq_refl). destruct cls as [|d [|h cls]]; [exact Hone|exact Hone|].
  destruct (d =? 45) eqn:Ed; [|exact Hone].
  assert (mget (pre ++ (c :: d :: h :: cls) ++ 93 :: y) (zlen pre + 2) = Some h) as ->.
  { replace (zlen pre + 2) with (zlen (pre ++ [c; d])) by (by rewrite zlen_app).
    change (pre ++ (c :: d :: h :: cls) ++ 93 :: y) with (pre ++ [c; d] ++ h :: cls ++ 93 :: y).
    rewrite app_assoc. apply mget_app_mid. }
  pose proof (IH cls fuel (pre ++ [c; d; h]) y ch (((c <=? ch) && (ch <=? h)) || found) (zlen pre + 3)) as E.
  rewrite <- app_assoc in E. cbn [app] in E |- *. rewrite !zlen_cons.
  replace (zlen pre + (1 + (1 + (1 + zlen cls))) + 1) with (zlen pre + 3 + zlen cls + 1) by lia.
  apply Forall_cons_1 in Hcs as [_ Hcs]. apply Forall_cons_1 in Hcs as [_ Hcs].
  rewrite E; [|simpl in Hn; lia|by rewrite zlen_app|done|simpl in Hf; lia].
  rewrite in_ranges_cons. f_equal.
  destruct (in_ranges (ranges cls) ch), ((c <=? ch) && (ch <=? h)), found; done.
Qed.

(** What the code knows about the first token of a pattern. *)
Definition token_at (q : list Z) (x : list Z) (t : tok) (r : list Z) : Prop :=
  exists w, q = w ++ r /\ w <> [] /\ token_length (q ++ x) (zlen q) = Some (zlen w) /\
    forall ch, token_matches (q ++ x) (zlen w) ch = Some (tok_in t ch).

(** A bracket expression: the length and the members, given where it starts. *)
Lemma bracket_spec pre body x (neg : bool) :
  pre = (if neg then [91; 94] else [91]) ->
  (neg = false -> match body with c :: _ => c <> 94 | [] => True end) ->
  match before_close body with
  | Some (cls, r) => token_at (pre ++ body) x (Class neg (ranges cls)) r
  | None => token_at (pre ++ body) x Never (drop 1 (pre ++ body))
  end.
Proof.
  intros Hpre Hneg.
  assert (forall n, 1 < n -> zlen pre <= n -> n <= zlen (pre ++ body) ->
    (if 1 <? n then x <- mget ((pre ++ body) ++ x) 1;; Some (x =? 94) else Some false) = Some neg) as Hn.
  { intros n H1 H2 H3. destruct (Z.ltb_spec 1 n); [|lia]. rewrite Hpre in H3 |- *. destruct neg; [done|].
    specialize (Hneg eq_refl). destruct body as [|c body]; [change (zlen ([91] ++ [])) with 1 in H3; lia|].
    change (mget (([91] ++ c :: body) ++ x) 1) with (Some c). cbv beta iota in Hneg |- *. f_equal. by apply Z.eqb_neq. }
  assert (forall n, zlen pre <= n -> n <= zlen (pre ++ body) ->
    (if 1 <? n then x <- mget ((pre ++ body) ++ x) 1;; Some (if x =? 94 then 2 else 1) else Some 1) =
    Some (zlen pre)) as Hi.
  { intros n H2 H3. destruct (decide (1 < n)) as [H1|H1].
    - specialize (Hn n H1 H2 H3). destruct (Z.ltb_spec 1 n); [|lia].
      destruct (mget ((pre ++ body) ++ x) 1) as [z|]; [|done].
      injection Hn as Hz. rewrite Hz, Hpre. by destruct neg.
    - rewrite Hpre in H2 |- *. destruct (Z.ltb_spec 1 n); [lia|]. destruct neg; [change (zlen [91; 94]) with 2 in H2; lia|done]. }
  assert (mget ((pre ++ body) ++ x) 0 = Some 91) as H0 by (rewrite Hpre; by destruct neg).
  assert (1 <= zlen pre) as Hp1 by (rewrite Hpre; destruct neg; done).
  pose proof (zlen_nonneg body) as Hb0.
  destruct (before_close body) as [[cls r]|] eqn:Eb.
  - apply before_close_Some in Eb as [-> Hcls]. exists (pre ++ cls ++ [93]).
    pose proof (zlen_nonneg r). pose proof (zlen_nonneg cls).
    assert (zlen (pre ++ cls ++ 93 :: r) = zlen pre + zlen cls + 1 + zlen r) as El
      by (rewrite !zlen_app, zlen_cons; lia).
    assert (zlen (pre ++ cls ++ [93]) = zlen pre + zlen cls + 1) as Ew by (rewrite !zlen_app; change (zlen [93]) with 1; lia).
    split; [by rewrite <- !app_assoc|]. split; [by destruct pre|]. split.
    + unfold token_length. rewrite H0, El. destruct (Z.leb_spec (zlen pre + zlen cls + 1 + zlen r) 0); [lia|].
      change ((91 =? 92) && _) with false. change (91 =? 91) with true. cbv iota.
      rewrite Hi by (rewrite ?El; lia). rewrite <- !app_assoc. cbn [app].
      rewrite scan_closed by (done || lia || unfold zlen in *; lia).
      destruct (Z.ltb_spec (zlen pre + zlen cls) (zlen pre + zlen cls + 1 + zlen r)); [|lia]. f_equal. lia.
    + intros ch. unfold token_matches. rewrite H0, Ew. destruct (Z.leb_spec (zlen pre + zlen cls + 1) 0); [lia|].
      change (91 =? 46) with false. change ((91 =? 92) && _) with false. change (91 =? 91) with true. cbv iota.
      rewrite Hn by (rewrite ?El; lia). replace (if neg then 2 else 1) with (zlen pre) by (rewrite Hpre; by destruct neg).
      rewrite <- !app_assoc. cbn [app].
      rewrite (class_loop_spec (length cls)) by (done || lia || unfold zlen in *; lia). by rewrite orb_false_r.
  - apply before_close_None in Eb. exists [91].
    split; [rewrite Hpre; by destruct neg|]. split; [done|]. split.
    + unfold token_length. rewrite H0, zlen_app. destruct (Z.leb_spec (zlen pre + zlen body) 0); [lia|].
      change ((91 =? 92) && _) with false. change (91 =? 91) with true. cbv iota.
      rewrite Hi by (rewrite ?zlen_app; lia). rewrite <- app_assoc.
      rewrite scan_unclosed by (done || unfold zlen in *; lia). rewrite Z.ltb_irrefl. done.
    + intros ch. unfold token_matches. change (zlen [91]) with 1. rewrite H0. cbn [class_loop Z.leb Z.ltb]. done.
Qed.

Lemma tokenise_spec q x t r : tokenise q = Some (t, r) -> token_at q x t r.
Proof.
  destruct q as [|c q]; [done|]. cbn [tokenise]. intros E.
  assert (forall l, mget ((c :: l) ++ x) 0 = Some c) as H0 by done.
  destruct (c =? 46) eqn:E46.
  { simplify_eq. apply Z.eqb_eq in E46 as ->. exists [46]. split; [done|]. split; [done|].
    pose proof (zlen_nonneg r). split; [|done]. unfold token_length. rewrite zlen_cons.
    destruct (Z.leb_spec (1 + zlen r) 0); [lia|]. done. }
  destruct (c =? 92) eqn:E92.
  { apply Z.eqb_eq in E92 as ->. destruct q as [|y q]; simplify_eq.
    - by exists [92].
    - exists [92; y]. split; [done|]. split; [done|]. pose proof (zlen_nonneg r). split; [|done].
      unfold token_length. rewrite !zlen_cons. destruct (Z.leb_spec (1 + (1 + zlen r)) 0); [lia|].
      rewrite H0. destruct (Z.geb_spec (1 + (1 + zlen r)) 2); [done|lia]. }
  destruct (c =? 91) eqn:E91.
  { apply Z.eqb_eq in E91 as ->.
    set (neg := match q with y :: _ => y =? 94 | [] => false end) in *.
    pose proof (bracket_spec (if neg then [91; 94] else [91]) (if neg then drop 1 q else q) x neg eq_refl) as H.
    assert ((if neg then [91; 94] else [91]) ++ (if neg then drop 1 q else q) = 91 :: q) as Eq.
    { destruct neg eqn:En; [|done]. subst neg. destruct q as [|y q]; [done|]. apply Z.eqb_eq in En as ->. done. }
    rewrite Eq in H. assert (neg = false -> match (if neg then drop 1 q else q) with c :: _ => c <> 94 | [] => True end) as Hs.
    { intros En. rewrite En. subst neg. destruct q as [|y q]; [done|]. by apply Z.eqb_neq. }
    specialize (H Hs). destruct (before_close (if neg then drop 1 q else q)) as [[cls r']|];
      injection E as <- <-; exact H. }
  simplify_eq. exists [c]. split; [done|]. split; [done|]. pose proof (zlen_nonneg r). split.
  - unfold token_length. rewrite zlen_cons. destruct (Z.leb_spec (1 + zlen r) 0); [lia|]. by rewrite H0, E92, E91.
  - intros ch. unfold token_matches. change (zlen [c]) with 1. cbn [Z.leb]. by rewrite H0, E46, E92, E91.
Qed.

Lemma tokenise_cons c q : exists t r, tokenise (c :: q) = Some (t, r).
Proof.
  cbn [tokenise]. destruct (c =? 46); [eauto|]. destruct (c =? 92); [destruct q; eauto|].
  destruct (c =? 91); [|eauto]. destruct (before_close _) as [[]|]; eauto.
Qed.

(** ** Matching *)

Lemma matches_seq_iff t r k s :
  matches (Seq t r k) s <-> exists w s', s = w ++ s' /\ Forall (fun ch => tok_in t ch = true) w /\
    rep_ok r (zlen w) = true /\ matches k s'.
Proof.
  split.
  - intros H. inversion H; subst. eauto 10.
  - intros (w & s' & -> & Hw & Hr & Hk). by constructor.
Qed.

Section text.
Context (T y : list Z).

(** The text from a position on. *)
Definition from (i : Z) : list Z := drop (Z.to_nat i) T.

Lemma from_cons i : 0 <= i < zlen T -> exists ch, mget (T ++ y) i = Some ch /\ from i = ch :: from (i + 1).
Proof.
  intros Hi. destruct (lookup_lt_is_Some_2 T (Z.to_nat i)) as [ch E]; [unfold zlen in Hi; lia|].
  exists ch. split.
  - rewrite mget_app_l by lia. unfold mget. destruct (Z.leb_spec 0 i); [done|lia].
  - unfold from. rewrite (drop_S T ch _ E). do 2 f_equal. lia.
Qed.

Lemma from_end i : zlen T <= i -> from i = [].
Proof. intros Hi. apply drop_ge. unfold zlen in Hi. lia. Qed.

Lemma from_app i w s : 0 <= i <= zlen T -> from i = w ++ s -> from (i + zlen w) = s /\ i + zlen w <= zlen T.
Proof.
  intros Hi E. unfold from in *. split.
  - replace (Z.to_nat (i + zlen w)) with (Z.to_nat i + length w)%nat by (unfold zlen; lia).
    rewrite <- drop_drop, E. apply drop_app_length.
  - apply (f_equal length) in E. rewrite length_drop, length_app in E. unfold zlen in *. lia.
Qed.

(** The greedy count takes the longest run of the token within the limit. *)
Lemma count_loop_spec p tokenlen (tk : tok) mx tpos fuel : forall count,
  (forall ch, token_matches p tokenlen ch = Some (tok_in tk ch)) ->
  0 <= tpos -> 0 <= count <= mx -> tpos + count <= zlen T ->
  Z.of_nat fuel > zlen T - (tpos + count) ->
  exists n, count_loop fuel p tokenlen mx (T ++ y) (zlen T) tpos count = Some n /\
    count <= n <= mx /\ tpos + n <= zlen T /\
    forall w s, from (tpos + count) = w ++ s ->
      (Forall (fun ch => tok_in tk ch = true) w /\ zlen w <= mx - count <-> zlen w <= n - count).
Proof.
  induction fuel as [|fuel IH]; intros count Hm Ht Hc Hl Hf; [lia|]. cbn [count_loop].
  assert (forall w : list Z, zlen w <= 0 -> w = []) as Hnil
    by (intros [|c w] Hw; [done|rewrite zlen_cons in Hw; pose proof (zlen_nonneg w); lia]).
  destruct (Z.ltb_spec count mx) as [Hlt|Hge]; cycle 1.
  { exists count. split; [done|]. split; [lia|]. split; [lia|]. intros w s _. split; [lia|].
    intros Hw. rewrite (Hnil w) by lia. split; [constructor|]. change (zlen []) with 0. lia. }
  destruct (Z.ltb_spec (tpos + count) (zlen T)) as [Hlt2|Hge2]; cbn [andb]; cycle 1.
  { exists count. split; [done|]. split; [lia|]. split; [lia|]. intros w s E.
    rewrite from_end in E by lia. symmetry in E. apply app_eq_nil in E as [-> ->]. change (zlen []) with 0.
    split; [lia|]. intros _. split; [constructor|lia]. }
  destruct (from_cons (tpos + count)) as (ch & -> & Efr); [lia|]. rewrite Hm.
  destruct (tok_in tk ch) eqn:Ech.
  - destruct (IH (count + 1) Hm) as (n & -> & Hn & Hn2 & Hw); [lia|lia|lia|lia|].
    exists n. split; [done|]. split; [lia|]. split; [done|]. intros w s E. rewrite Efr in E.
    destruct w as [|c w]; [change (zlen []) with 0; split; [lia|intros _; split; [constructor|lia]]|].
    injection E as -> E. replace (tpos + count + 1) with (tpos + (count + 1)) in E by lia.
    specialize (Hw w s E). rewrite zlen_cons, Forall_cons_iff. split.
    + intros [[_ Hws] Hl']. assert (zlen w <= n - (count + 1)) by (apply Hw; split; [done|lia]). lia.
    + intros Hl'. destruct (proj2 Hw) as [Hws Hl'']; [lia|]. split; [done|lia].
  - exists count. split; [done|]. split; [lia|]. split; [lia|]. intros w s E. rewrite Efr in E. split.
    + intros [Hw _]. destruct w as [|c w]; [change (zlen []) with 0; lia|]. injection E as -> _.
      apply Forall_cons_1 in Hw as [Hw _]. cbv beta in Hw. congruence.
    + intros Hw. rewrite (Hnil w) by lia. split; [constructor|]. change (zlen []) with 0. lia.
Qed.

(** Giving back matches tries every count down to the least. *)
Lemma back_loop_spec (P : Z -> Prop) rest mn : 0 <= mn -> forall fuel count,
  (forall k, 0 <= k <= count -> exists b, rest k = Some b /\ (b = true <-> P k)) ->
  0 <= count -> Z.of_nat fuel > count ->
  exists b, back_loop fuel rest mn count = Some b /\ (b = true <-> exists k, mn <= k <= count /\ P k).
Proof.
  intros Hmn. induction fuel as [|fuel IH]; intros count Hr Hc Hf; [lia|]. cbn [back_loop].
  destruct (Z.geb_spec count mn) as [Hge|Hlt]; cycle 1.
  { exists false. split; [done|]. split; [done|]. intros (k & Hk & _). lia. }
  destruct (Hr count) as (b & -> & Hb); [lia|]. destruct b.
  { exists true. split; [done|]. split; [|done]. intros _. exists count. split; [lia|]. by apply Hb. }
  destruct (Z.eqb_spec count 0) as [->|Hne].
  { exists false. split; [done|]. split; [done|]. intros (k & Hk & HP). replace k with 0 in HP by lia. by apply Hb in HP. }
  destruct (IH (count - 1)) as (b & -> & Hb'); [intros k Hk; apply Hr; lia|lia|lia|].
  exists b. split; [done|]. rewrite Hb'. split; intros (k & Hk & HP); exists k; split; try done; [lia|].
  destruct (decide (k = count)) as [->|]; [by apply Hb in HP|lia].
Qed.

Lemma match_quant_spec here p tokenlen tk quant rp plen k tpos :
  (forall ch, token_matches p tokenlen ch = Some (tok_in tk ch)) -> rep_of quant = Some rp ->
  0 <= tpos <= zlen T ->
  (forall i, 0 <= i <= zlen T -> exists b, here (drop (Z.to_nat (tokenlen + 1)) p) plen i = Some b /\
     (b = true <-> matches k (from i))) ->
  exists b, match_quant here p tokenlen quant plen (T ++ y) (zlen T) tpos = Some b /\
    (b = true <-> matches (Seq tk rp k) (from tpos)).
Proof.
  intros Hm Hq Ht Hk. unfold match_quant.
  set (mn := if quant =? 43 then 1 else 0). set (mx := if quant =? 63 then 1 else 32767).
  assert (forall n, 0 <= n -> rep_ok rp n = true <-> mn <= n <= mx) as Hrep.
  { intros n Hn. unfold rep_of in Hq. unfold mn, mx.
    destruct (Z.eqb_spec quant 42) as [->|]; [simplify_eq; cbn; lia|].
    destruct (Z.eqb_spec quant 43) as [->|]; [simplify_eq; cbn [rep_ok Z.eqb]; rewrite andb_true_iff; cbn; lia|].
    destruct (Z.eqb_spec quant 63) as [->|]; [simplify_eq; cbn; lia|done]. }
  assert (0 <= mn <= 1 /\ 1 <= mx) as [Hmn Hmx] by (unfold mn, mx; destruct (quant =? 43), (quant =? 63); lia).
  destruct (count_loop_spec p tokenlen tk mx tpos (S (Z.to_nat (zlen T))) 0 Hm) as (n & -> & Hn & Hnl & Hw);
    [lia|lia|lia|lia|]. rewrite Z.add_0_r, Z.sub_0_r in Hw.
  destruct (back_loop_spec (fun c => matches k (from (tpos + c)))
    (fun count => here (drop (Z.to_nat (tokenlen + 1)) p) plen (tpos + count)) mn ltac:(lia)
    (S (Z.to_nat n)) n) as (b & -> & Hb); [intros c Hc; apply Hk; lia|lia|lia|].
  exists b. split; [done|]. rewrite Hb, matches_seq_iff. split.
  - intros (c & Hc & HM).
    destruct (zsplit (from tpos) c) as (w & s & E & El).
    { unfold from, zlen in *. rewrite length_drop. lia. }
    destruct (from_app tpos w s Ht E) as [Es _]. rewrite El in Es. subst s.
    exists w, (from (tpos + c)). split; [done|]. specialize (Hw _ _ E). rewrite Z.sub_0_r in Hw.
    destruct (proj2 Hw) as [Hall Hlen]; [lia|]. split; [done|]. split; [|done]. apply Hrep; lia.
  - intros (w & s & E & Hall & Hr & HM). pose proof (zlen_nonneg w) as H0.
    apply Hrep in Hr; [|done]. destruct (from_app tpos w s Ht E) as [Es _]. subst s.
    exists (zlen w). split; [|done]. specialize (Hw _ _ E). rewrite Z.sub_0_r in Hw.
    assert (zlen w <= n) by (apply Hw; split; [done|lia]). lia.
Qed.

(** A token without a quantifier; [cont] is the call for the rest of the pattern. *)
Lemma match_one_spec tk p tokenlen cont k tpos :
  (forall ch, token_matches p tokenlen ch = Some (tok_in tk ch)) -> 0 <= tpos <= zlen T ->
  (forall i, 0 <= i <= zlen T -> exists b, cont i = Some b /\ (b = true <-> matches k (from i))) ->
  exists b, (if tpos <? zlen T then
      ch <- mget (T ++ y) tpos;; m <- token_matches p tokenlen ch;;
      if m : bool then cont (tpos + 1) else Some false
    else Some false) = Some b /\ (b = true <-> matches (Seq tk One k) (from tpos)).
Proof.
  intros Hm Ht Hk. destruct (Z.ltb_spec tpos (zlen T)) as [Hlt|Hge].
  - destruct (from_cons tpos) as (ch & -> & Ef); [lia|]. rewrite Hm, Ef. destruct (tok_in tk ch) eqn:Ech.
    + destruct (Hk (tpos + 1)) as (b & -> & Hb); [lia|]. exists b. split; [done|]. rewrite Hb, matches_seq_iff. split.
      * intros HM. exists [ch], (from (tpos + 1)). split; [done|]. split; [by apply Forall_singleton|]. done.
      * intros (w' & s' & E & _ & Hr & HM). destruct w' as [|c1 [|c2 w']]; [done| |].
        -- simplify_eq/=. done.
        -- exfalso. cbn [rep_ok] in Hr. rewrite !zlen_cons in Hr. pose proof (zlen_nonneg w').
           apply Z.eqb_eq in Hr. lia.
    + exists false. split; [done|]. split; [done|]. rewrite matches_seq_iff. intros (w' & s' & E & Hall & Hr & HM).
      destruct w' as [|c1 w']; [done|]. injection E as -> _. apply Forall_cons_1 in Hall as [Hall _]. cbv beta in Hall. congruence.
  - exists false. split; [done|]. split; [done|]. rewrite matches_seq_iff, from_end by lia.
    intros (w' & s' & E & _ & Hr & _). symmetry in E. apply app_eq_nil in E as [-> _]. done.
Qed.

Lemma match_here_spec fuel : forall fuel' q x tpos,
  (length q < fuel)%nat -> (length q < fuel')%nat -> 0 <= tpos <= zlen T ->
  exists b, match_here fuel (T ++ y) (zlen T) (q ++ x) (zlen q) tpos = Some b /\
    (b = true <-> matches (parse fuel' q) (from tpos)).
Proof.
  induction fuel as [|fuel IH]; intros fuel' q x tpos Hf Hf' Ht; [lia|].
  destruct fuel' as [|fuel']; [lia|]. cbn [match_here parse].
  destruct q as [|c q].
  { exists true. split; [done|]. rewrite bool_decide_eq_false_2 by done. cbn [tokenise]. split; [constructor|done]. }
  pose proof (zlen_nonneg q) as Hq0. rewrite zlen_cons. destruct (Z.leb_spec (1 + zlen q) 0); [lia|].
  change (mget ((c :: q) ++ x) 0) with (Some c). cbv beta iota.
  assert (((1 + zlen q =? 1) && (c =? 36)) = bool_decide (c :: q = [36])) as ->.
  { destruct q as [|d q]; [change (1 + zlen [] =? 1) with true; cbn [andb]|].
    - destruct (Z.eqb_spec c 36) as [->|]; [done|]. rewrite bool_decide_eq_false_2; congruence.
    - rewrite bool_decide_eq_false_2 by done. rewrite zlen_cons. pose proof (zlen_nonneg q).
      destruct (Z.eqb_spec (1 + (1 + zlen q)) 1); [lia|done]. }
  case_bool_decide as Hend.
  { exists (tpos =? zlen T). split; [done|]. rewrite Z.eqb_eq. split.
    - intros ->. rewrite from_end by lia. constructor.
    - intros H1. inversion H1 as [|E|]. destruct (Z.eq_dec tpos (zlen T)); [done|].
      destruct (from_cons tpos) as (ch & _ & Ef); [lia|]. congruence. }
  destruct (tokenise_cons c q) as (tk & r & Et).
  destruct (tokenise_spec (c :: q) x tk r Et) as (w & Eq & Hw & El & Hm). rewrite zlen_cons in El.
  rewrite Et, El. rewrite Eq in *. assert (1 <= zlen w) as Hw1 by (destruct w; [done|rewrite zlen_cons; unfold zlen; lia]).
  assert (1 + zlen q = zlen w + zlen r) as Ez by (rewrite <- zlen_app, <- Eq, zlen_cons; done). rewrite Ez.
  destruct (Z.eqb_spec (zlen w) 0); [lia|].
  assert (length r < length (w ++ r))%nat as Hlr by (rewrite length_app; unfold zlen in Hw1; lia).
  assert (forall r', (length r' <= length r)%nat -> forall x' i, 0 <= i <= zlen T ->
    exists b, match_here fuel (T ++ y) (zlen T) (r' ++ x') (zlen r') i = Some b /\
      (b = true <-> matches (parse fuel' r') (from i))) as Hrec by (intros r' Hr' x' i Hi; apply IH; lia).
  assert (drop (Z.to_nat (zlen w)) ((w ++ r) ++ x) = r ++ x) as Edr.
  { unfold zlen. rewrite Nat2Z.id, <- app_assoc. apply drop_app_length. }
  replace (zlen w + zlen r - zlen w) with (zlen r) by lia. rewrite Edr.
  destruct r as [|c' r].
  - rewrite Z.add_0_r, Z.ltb_irrefl. change (zlen []) with 0 in *.
    apply (match_one_spec _ _ _ (match_here fuel (T ++ y) (zlen T) ([] ++ x) 0)); [done|done|]. intros i Hi.
    exists true. split; [|split; [constructor|done]]. destruct fuel; [rewrite length_app in Hf; unfold zlen in Hw1; lia|done].
  - pose proof (zlen_nonneg r). rewrite zlen_cons in *. destruct (Z.ltb_spec (zlen w) (zlen w + (1 + zlen r))); [|lia].
    assert (mget ((w ++ c' :: r) ++ x) (zlen w) = Some c') as -> by (rewrite <- app_assoc; apply mget_app_mid).
    assert (((c' =? 42) || (c' =? 43) || (c' =? 63)) = match rep_of c' with Some _ => true | None => false end) as ->
      by (unfold rep_of; destruct (c' =? 42), (c' =? 43), (c' =? 63); done).
    destruct (rep_of c') as [rp|] eqn:Erp.
    + apply (match_quant_spec _ _ _ tk); [done|done|done|]. intros i Hi.
      assert (drop (Z.to_nat (zlen w + 1)) ((w ++ c' :: r) ++ x) = r ++ x) as ->.
      { replace (Z.to_nat (zlen w + 1)) with (Z.to_nat (zlen w) + 1)%nat by (unfold zlen; lia).
        by rewrite <- drop_drop, Edr. }
      replace (1 + zlen r - 1) with (zlen r) by lia. apply Hrec; [cbn [length]; lia|done].
    + rewrite <- (zlen_cons c' r).
      apply (match_one_spec _ _ _ (match_here fuel (T ++ y) (zlen T) ((c' :: r) ++ x) (zlen (c' :: r)))); [done|done|].
      intros i Hi. apply (Hrec (c' :: r)); [lia|done].
Qed.

End text.

Definition regex_of (q : list Z) : regex := parse (S (length q)) q.

(** [r] is the first position at which [re] matches, or -1 if there is none. *)
Definition first_match (re : regex) (T : list Z) (r : Z) : Prop :=
  (0 <= r <= zlen T /\ matches re (from T r) /\ forall j, 0 <= j < r -> ~ matches re (from T j)) \/
  (r = -1 /\ forall j, 0 <= j <= zlen T -> ~ matches re (from T j)).

Lemma search_loop_spec p x T y fuel : forall i,
  0 <= i -> Z.of_nat fuel > zlen T + 1 - i -> (0 < fuel)%nat ->
  (forall j, 0 <= j < Z.min i (zlen T + 1) -> ~ matches (regex_of p) (from T j)) ->
  exists r, search_loop fuel (p ++ x) (zlen p) (T ++ y) (zlen T) i = Some r /\ first_match (regex_of p) T r.
Proof.
  induction fuel as [|fuel IH]; intros i Hi Hf Hf0 Hj; [lia|]. cbn [search_loop].
  destruct (Z.leb_spec i (zlen T)) as [Hle|Hgt]; cycle 1.
  { exists (-1). split; [done|]. right. split; [done|]. intros j Hjr. apply Hj. lia. }
  destruct (match_here_spec T y (S (Z.to_nat (zlen p))) (S (length p)) p x i) as (b & -> & Hb);
    [unfold zlen; lia|lia|lia|].
  destruct b.
  - exists i. split; [done|]. left. split; [lia|]. split; [by apply Hb|]. intros j Hjr. apply Hj. lia.
  - apply IH; [lia|lia|lia|]. intros j Hjr HM. destruct (decide (j = i)) as [->|Hne].
    + by apply Hb in HM.
    + apply (Hj j); [lia|done].
Qed.

(** ** Properties *)

(** C24: [regex_match] always returns, reads only the pattern and the text, and returns
    the first position at which the regular expression of the pattern matches, or -1;
    a pattern that begins with a circumflex is tried at the beginning only; without a
    pattern or a text the result is -1. *)
Theorem regex_match_spec m p T y : cstring m p ->
  (exists r, regex_match (Some m) (Some (T ++ y)) (zlen T) = Some r /\
     match p with
     | c :: q => if c =? 94 then r = 0 /\ matches (regex_of q) T \/ r = -1 /\ ~ matches (regex_of q) T
                 else first_match (regex_of p) T r
     | [] => r = 0
     end) /\
  regex_match None (Some T) (zlen T) = Some (-1) /\ regex_match (Some m) None (zlen T) = Some (-1).
Proof.
  intros Hp. split; [|done]. unfold regex_match. rewrite (strlen_cstring m p Hp).
  destruct Hp as [Hn [x ->]]. pose proof (zlen_nonneg T) as HT.
  assert (exists r, search_loop (S (S (Z.to_nat (zlen T)))) (p ++ 0 :: x) (zlen p) (T ++ y) (zlen T) 0 = Some r /\
    first_match (regex_of p) T r) as Hsearch by (apply search_loop_spec; [lia|lia|lia|lia]).
  destruct p as [|c q].
  - exists 0. split; [|done]. change (mget ([] ++ 0 :: x) 0) with (Some 0). change ((zlen [] >? 0) && _) with false.
    cbv beta iota. cbn [search_loop]. destruct (Z.leb_spec 0 (zlen T)); [done|lia].
  - change (mget ((c :: q) ++ 0 :: x) 0) with (Some c). rewrite zlen_cons in *. pose proof (zlen_nonneg q).
    destruct (Z.gtb_spec (1 + zlen q) 0); [|lia]. destruct (c =? 94); cbn [andb]; [|exact Hsearch].
    change (drop 1 ((c :: q) ++ 0 :: x)) with (q ++ 0 :: x). replace (1 + zlen q - 1) with (zlen q) by lia.
    destruct (match_here_spec T y (S (Z.to_nat (1 + zlen q))) (S (length q)) q (0 :: x) 0) as (b & -> & Hb);
      [unfold zlen; lia|lia|lia|].
    change (from T 0) with T in Hb. fold (regex_of q) in Hb. destruct b.
    + exists 0. split; [done|]. left. split; [done|]. by apply Hb.
    + exists (-1). split; [done|]. right. split; [done|]. intros HM. by apply Hb in HM.
Qed.

Lemma matches_star_limit (c : Z) n : matches (Seq (Lit c) Star AtEnd) (replicate n c) -> Z.of_nat n <= 32767.
Proof.
  rewrite matches_seq_iff. intros (w & s & E & _ & Hr & HM). inversion HM; subst. rewrite app_nil_r in E.
  cbn [rep_ok] in Hr. apply Z.leb_le in Hr. rewrite <- E in Hr. unfold zlen in Hr. rewrite length_replicate in Hr. lia.
Qed.

(** a starred token matches at most 32767 characters, so the pattern ^a*$ does not
    match a longer text that consists of the letter a only. *)
Theorem regex_star_limit n y : 32767 < Z.of_nat n ->
  regex_match (Some [94; 97; 42; 36; 0]) (Some (replicate n 97 ++ y)) (Z.of_nat n) = Some (-1).
Proof.
  intros Hn. set (T := replicate n 97). assert (zlen T = Z.of_nat n) as El by (unfold zlen, T; by rewrite length_replicate).
  unfold regex_match. change (strlen [94; 97; 42; 36; 0]) with (Some 4). cbv beta iota.
  change (mget [94; 97; 42; 36; 0] 0) with (Some 94). change ((4 >? 0) && (94 =? 94)) with true. cbv iota.
  rewrite <- El.
  destruct (match_here_spec T y 5 4 [97; 42; 36] [0] 0) as (b & E & Hb); [simpl; lia|simpl; lia|lia|].
  change (S (Z.to_nat 4)) with 5%nat. change (4 - 1) with (zlen [97; 42; 36]).
  change (drop 1 [94; 97; 42; 36; 0]) with ([97; 42; 36] ++ [0]). rewrite E. destruct b; [|done].
  change (parse 4 [97; 42; 36]) with (Seq (Lit 97) Star AtEnd) in Hb.
  apply proj1 in Hb. specialize (Hb eq_refl). change (from T 0) with T in Hb. apply matches_star_limit in Hb. lia.
Qed.

(** ** Concrete instances *)

(** The pattern [0-9]+x in the text ab12x. *)
Lemma regex_match_spec_witness :
  (exists r, regex_match (Some [91; 48; 45; 57; 93; 43; 120; 0]) (Some ([97; 98; 49; 50; 120] ++ [0])) 5 = Some r /\
     first_match (regex_of [91; 48; 45; 57; 93; 43; 120]) [97; 98; 49; 50; 120] r) /\
  regex_match None (Some [97; 98; 49; 50; 120]) 5 = Some (-1) /\
  regex_match (Some [91; 48; 45; 57; 93; 43; 120; 0]) None 5 = Some (-1).
Proof.
  apply (regex_match_spec [91; 48; 45; 57; 93; 43; 120; 0] [91; 48; 45; 57; 93; 43; 120] [97; 98; 49; 50; 120] [0]).
  split; [|exists []; reflexivity]. unfold no_nul. repeat (apply Forall_cons_2; [discriminate|]). constructor.
Defined.

Lemma regex_of_digits : regex_of [91; 48; 45; 57; 93; 43; 120] =
  Seq (Class false [(48, 57)]) Plus (Seq (Lit 120) One Empty).
Proof. done. Qed.

Lemma regex_star_limit_witness :
  regex_match (Some [94; 97; 42; 36; 0]) (Some (replicate (Z.to_nat 40000) 97 ++ [])) (Z.of_nat (Z.to_nat 40000)) =
  Some (-1).
Proof. apply (regex_star_limit (Z.to_nat 40000) []). lia. Defined.

End Regex.
