(* ===== verification/RingBuf.v ===== *)
(** The byte ring buffer, [src/utility/queue/ringbuf.h] and [ringbuf.cpp].

    [RINGBUF] keeps a block of memory, a read and a write pointer into it and
    the number of filled slots.  The pointers are offsets from [p_o].  The
    specification is a bounded FIFO of bytes; the class [ByteFifo] states what
    the framing layer (file Proto) relies on, and the last section discharges
    it for the ring buffer. *)
From S2P Require Import Prelude.
From stdpp Require Import base option list numbers.
From Stdlib Require Import ZArith Lia.

Open Scope Z_scope.

(** ** The interface the clients of the ring buffer use

    [fifo_put] and [fifo_get] return the C result code with the new buffer;
    [None] is undefined behaviour.  [fifo_get] takes the value the output
    byte holds before the call and returns the one it holds after it. *)
Class ByteFifo (R : Type) := {
  fifo_put : R -> Z -> option (Z * R);
  fifo_get : R -> Z -> option (Z * R * Z);
  fifo_ok : R -> Prop;
  fifo_bytes : R -> list Z;
  fifo_cap : R -> Z;
}.

Class ByteFifoSpec (R : Type) `{ByteFifo R} := {
  fifo_len_cap r : fifo_ok r -> zlen (fifo_bytes r) <= fifo_cap r;
  fifo_put_room r c :
    fifo_ok r -> zlen (fifo_bytes r) < fifo_cap r ->
    exists r', fifo_put r c = Some (0, r') /\ fifo_ok r' /\
      fifo_cap r' = fifo_cap r /\ fifo_bytes r' = fifo_bytes r ++ [c];
  fifo_put_full r c :
    fifo_ok r -> zlen (fifo_bytes r) = fifo_cap r ->
    fifo_put r c = Some (-1, r);
  fifo_get_some r c b bs :
    fifo_ok r -> fifo_bytes r = b :: bs ->
    exists r', fifo_get r c = Some (0, r', b) /\ fifo_ok r' /\
      fifo_cap r' = fifo_cap r /\ fifo_bytes r' = bs;
  fifo_get_empty r c :
    fifo_ok r -> fifo_bytes r = [] -> fifo_get r c = Some (-1, r, c);
}.

Module RingBuf.

(** [typedef struct {...} RINGBUF] *)
Record RINGBUF := mkRINGBUF {
  p_o : list Z;
  p_r : Z;
  p_w : Z;
  fill_cnt : Z;
  size : Z;
}.

(** [RINGBUF_Init]: a null [r] or [buf], or a size under 2, is an error and
    changes nothing. *)
Definition RINGBUF_Init (r : option RINGBUF) (buf : option (list Z)) (sz : Z)
  : Z * option RINGBUF :=
  match r, buf with
  | Some _, Some b =>
      if sz <? 2 then (-1, r)
      else (0, Some (mkRINGBUF b 0 0 0 sz))
  | _, _ => (-1, r)
  end.

(** [RINGBUF_Put] *)
Definition RINGBUF_Put (r : RINGBUF) (c : Z) : option (Z * RINGBUF) :=
  if fill_cnt r >=? size r then Some (-1, r)
  else
    let fill := u32 (fill_cnt r + 1) in
    m <- mset (p_o r) (p_w r) c;;
    let w := p_w r + 1 in
    let w := if w >=? size r then 0 else w in
    Some (0, mkRINGBUF m (p_r r) w fill (size r)).

(** [RINGBUF_Get] *)
Definition RINGBUF_Get (r : RINGBUF) (c : Z) : option (Z * RINGBUF * Z) :=
  if fill_cnt r <=? 0 then Some (-1, r, c)
  else
    let fill := u32 (fill_cnt r - 1) in
    v <- mget (p_o r) (p_r r);;
    let rd := p_r r + 1 in
    let rd := if rd >=? size r then 0 else rd in
    Some (0, mkRINGBUF (p_o r) rd (p_w r) fill (size r), v).

(** *** Invariant and abstraction *)

Record rb_ok (r : RINGBUF) : Prop := {
  rb_size : 2 <= size r < 4294967296;
  rb_mem : size r <= zlen (p_o r);
  rb_rd : 0 <= p_r r < size r;
  rb_fill : 0 <= fill_cnt r <= size r;
  rb_wr : p_w r = (p_r r + fill_cnt r) mod size r;
}.

(** The byte in the [k]-th filled slot. *)
Definition rb_at (r : RINGBUF) (k : Z) : Z :=
  p_o r !!! Z.to_nat ((p_r r + k) mod size r).

Definition rb_bytes (r : RINGBUF) : list Z := rb_at r <$> seqZ 0 (fill_cnt r).

(** *** Lemmas *)

Lemma rb_bytes_len r : rb_ok r -> zlen (rb_bytes r) = fill_cnt r.
Proof.
  intros H. unfold rb_bytes, zlen. rewrite length_fmap, length_seqZ.
  pose proof (rb_fill _ H); lia.
Qed.

Lemma slot_ne p k f s :
  0 <= p < s -> 0 <= k < f -> f < s -> (p + k) mod s <> (p + f) mod s.
Proof.
  intros Hp Hk Hf E.
  pose proof (Z.div_mod (p + k) s ltac:(lia)) as E1.
  pose proof (Z.div_mod (p + f) s ltac:(lia)) as E2.
  rewrite E in E1.
  assert (f - k = s * ((p + f) / s - (p + k) / s)) as E3 by lia.
  assert ((p + f) / s - (p + k) / s <= 0 \/ 1 <= (p + f) / s - (p + k) / s)
    as [H|H] by lia; nia.
Qed.

Lemma next_slot p s :
  0 <= p < s -> (if p + 1 >=? s then 0 else p + 1) = (p + 1) mod s.
Proof.
  intros H. destruct (Z.geb_spec (p + 1) s).
  - replace (p + 1) with s by lia. rewrite Z.mod_same; lia.
  - rewrite Z.mod_small; lia.
Qed.

Lemma Put_room r c :
  rb_ok r -> zlen (rb_bytes r) < size r ->
  exists r', RINGBUF_Put r c = Some (0, r') /\ rb_ok r' /\
    size r' = size r /\ rb_bytes r' = rb_bytes r ++ [c].
Proof.
  intros H. rewrite (rb_bytes_len _ H). intros Hl.
  destruct H as [Hs Hm Hr Hf Hw].
  pose proof (Z.mod_pos_bound (p_r r + fill_cnt r) (size r) ltac:(lia)) as Hb.
  rewrite <- Hw in Hb.
  unfold RINGBUF_Put. destruct (Z.geb_spec (fill_cnt r) (size r)); [lia|].
  rewrite mset_Some by lia. simpl.
  rewrite next_slot by lia. rewrite u32_small by lia.
  eexists; split; [reflexivity|]; split; [split|split]; simpl; try lia.
  - unfold zlen; rewrite length_insert; exact Hm.
  - rewrite Hw, Zplus_mod_idemp_l. f_equal; lia.
  - unfold rb_bytes; simpl.
    rewrite (seqZ_app 0 (fill_cnt r) 1), fmap_app by lia. f_equal.
    + apply list_fmap_ext. intros i k Hk. apply lookup_seqZ in Hk as [-> Hk].
      unfold rb_at; simpl.
      pose proof (slot_ne (p_r r) (0 + Z.of_nat i) (fill_cnt r) (size r)
                    ltac:(lia) ltac:(lia) ltac:(lia)).
      pose proof (Z.mod_pos_bound (p_r r + (0 + Z.of_nat i)) (size r) ltac:(lia)).
      rewrite list_lookup_total_insert_ne; [reflexivity|lia].
    + change (seqZ (0 + fill_cnt r) 1) with [0 + fill_cnt r]. simpl.
      unfold rb_at; simpl. rewrite Z.add_0_l, <- Hw.
      rewrite list_lookup_total_insert_eq; [reflexivity|unfold zlen in *; lia].
Qed.

Lemma Put_full r c :
  rb_ok r -> zlen (rb_bytes r) = size r -> RINGBUF_Put r c = Some (-1, r).
Proof.
  intros H. rewrite (rb_bytes_len _ H). intros E. unfold RINGBUF_Put.
  rewrite E. destruct (Z.geb_spec (size r) (size r)); [reflexivity|lia].
Qed.

Lemma Get_some r c b bs :
  rb_ok r -> rb_bytes r = b :: bs ->
  exists r', RINGBUF_Get r c = Some (0, r', b) /\ rb_ok r' /\
    size r' = size r /\ rb_bytes r' = bs.
Proof.
  intros H E. pose proof (rb_bytes_len _ H) as Hl.
  rewrite E, zlen_cons in Hl. pose proof (zlen_nonneg bs).
  destruct H as [Hs Hm Hr Hf Hw].
  unfold RINGBUF_Get. destruct (Z.leb_spec (fill_cnt r) 0); [lia|].
  rewrite mget_Some by lia. simpl.
  rewrite next_slot by lia. rewrite u32_small by lia.
  unfold rb_bytes in E. rewrite seqZ_cons in E by lia. simpl in E.
  injection E as E1 E2.
  unfold rb_at in E1. rewrite Z.add_0_r, Z.mod_small in E1 by lia. subst b.
  eexists; split; [reflexivity|]; split; [split|split]; simpl; try lia.
  - apply Z.mod_pos_bound; lia.
  - rewrite Hw, Zplus_mod_idemp_l. f_equal; lia.
  - rewrite <- E2. unfold rb_bytes; simpl.
    change (Z.succ 0) with (1 + 0).
    rewrite <- (fmap_add_seqZ 1 0), <- list_fmap_compose.
    replace (Z.pred (fill_cnt r)) with (fill_cnt r - 1) by lia.
    apply list_fmap_ext. intros i k _. unfold rb_at, compose; simpl.
    rewrite Zplus_mod_idemp_l. do 3 f_equal. lia.
Qed.

Lemma Get_empty r c :
  rb_ok r -> rb_bytes r = [] -> RINGBUF_Get r c = Some (-1, r, c).
Proof.
  intros H E. pose proof (rb_bytes_len _ H) as Hl. rewrite E in Hl.
  unfold RINGBUF_Get. rewrite <- Hl. reflexivity.
Qed.

#[global] Instance ringbuf_fifo : ByteFifo RINGBUF := {
  fifo_put := RINGBUF_Put;
  fifo_get := RINGBUF_Get;
  fifo_ok := rb_ok;
  fifo_bytes := rb_bytes;
  fifo_cap := size;
}.

#[global] Instance ringbuf_fifo_spec : ByteFifoSpec RINGBUF.
Proof.
  split; simpl; eauto using Put_room, Put_full, Get_some, Get_empty.
  intros r H. rewrite rb_bytes_len by done. apply (rb_fill _ H).
Qed.

Lemma Init_ok buf sz r :
  2 <= sz < 4294967296 -> sz <= zlen buf ->
  exists r', RINGBUF_Init (Some r) (Some buf) sz = (0, Some r') /\
    rb_ok r' /\ rb_bytes r' = [] /\ size r' = sz.
Proof.
  intros Hs Hm. unfold RINGBUF_Init. destruct (Z.ltb_spec sz 2); [lia|].
  eexists; split; [reflexivity|]. split; [split; simpl; try lia|done].
  rewrite Z.mod_small; lia.
Qed.

(** *** The ring buffer refines a bounded FIFO *)

Inductive op := OpPut (c : Z) | OpGet.

(** What a run of the code returns: for each operation the C result code and
    the byte it delivered, if any. *)
Fixpoint run (r : RINGBUF) (ops : list op)
  : option (RINGBUF * list (Z * option Z)) :=
  match ops with
  | [] => Some (r, [])
  | OpPut c :: ops =>
      '(ret, r') <- RINGBUF_Put r c;;
      '(rf, out) <- run r' ops;;
      Some (rf, (ret, None) :: out)
  | OpGet :: ops =>
      '(ret, r', c) <- RINGBUF_Get r 0;;
      '(rf, out) <- run r' ops;;
      Some (rf, (ret, if ret =? 0 then Some c else None) :: out)
  end.

(** The specification: a list of at most [cap] bytes. *)
Fixpoint spec_run (cap : Z) (q : list Z) (ops : list op)
  : list Z * list (Z * option Z) :=
  match ops with
  | [] => (q, [])
  | OpPut c :: ops =>
      if zlen q <? cap
      then let '(qf, out) := spec_run cap (q ++ [c]) ops in (qf, (0, None) :: out)
      else let '(qf, out) := spec_run cap q ops in (qf, (-1, None) :: out)
  | OpGet :: ops =>
      match q with
      | [] => let '(qf, out) := spec_run cap q ops in (qf, (-1, None) :: out)
      | c :: q' =>
          let '(qf, out) := spec_run cap q' ops in (qf, (0, Some c) :: out)
      end
  end.

#[local] Ltac solve_run :=
  do 2 eexists; split; [reflexivity|]; split_and!; first [done | congruence].

(** C11: over every sequence of [RINGBUF_Put] and [RINGBUF_Get] calls on a
    well-formed ring buffer no access leaves the buffer memory, the invariant
    is kept, and the result codes and bytes delivered are exactly those of a
    FIFO queue of capacity [size]. *)
Theorem ringbuf_refines_fifo (r : RINGBUF) (ops : list op) (H : rb_ok r) :
  exists r' out,
    run r ops = Some (r', out) /\ rb_ok r' /\ size r' = size r /\
    spec_run (size r) (rb_bytes r) ops = (rb_bytes r', out).
Proof.
  revert r H. induction ops as [|[c|] ops IH]; intros r H; simpl.
  - solve_run.
  - pose proof (fifo_len_cap r H) as Hc; simpl in Hc.
    destruct (Z.ltb_spec (zlen (rb_bytes r)) (size r)).
    + destruct (Put_room r c H) as (r1 & -> & H1 & S1 & <-); [lia|]. simpl.
      destruct (IH r1 H1) as (r2 & out & -> & H2 & S2 & E). rewrite S1 in *.
      rewrite E. simpl. solve_run.
    + rewrite Put_full by (done || lia). simpl.
      destruct (IH r H) as (r2 & out & -> & H2 & S2 & ->). simpl. solve_run.
  - destruct (rb_bytes r) as [|b bs] eqn:Eb.
    + rewrite Get_empty by done. simpl.
      destruct (IH r H) as (r2 & out & -> & H2 & S2 & E). rewrite Eb in E.
      rewrite E. simpl. solve_run.
    + destruct (Get_some r 0 b bs H Eb) as (r1 & -> & H1 & S1 & <-). simpl.
      destruct (IH r1 H1) as (r2 & out & -> & H2 & S2 & E). rewrite S1 in *.
      rewrite E. simpl. solve_run.
Qed.

Lemma ringbuf_refines_fifo_witness :
  let r := mkRINGBUF [7; 8; 9] 2 1 2 3 in
  rb_ok r /\
  exists r' out, run r [OpPut 5; OpPut 6; OpGet; OpGet] = Some (r', out) /\
    rb_ok r' /\ size r' = 3 /\
    spec_run 3 [9; 7] [OpPut 5; OpPut 6; OpGet; OpGet] = (rb_bytes r', out).
Proof.
  intros r. assert (rb_ok r) as H by (split; vm_compute; intuition congruence).
  split; [exact H|].
  exact (ringbuf_refines_fifo r [OpPut 5; OpPut 6; OpGet; OpGet] H).
Defined.

End RingBuf.
