(* ===== verification/Proto.v ===== *)
(** The framing layer over the byte FIFO, [src/utility/queue/proto.h] and
    [proto.cpp]: a packet travels as 0x7E, its bytes with 0x7D, 0x7E and 0x7F
    escaped, and 0x7F.  The operations that work on a ring buffer are written
    over the interface [ByteFifo] of file RingBuf. *)
From S2P Require Import Prelude RingBuf.
From stdpp Require Import base option list numbers.
From Stdlib Require Import ZArith Lia.

Open Scope Z_scope.

Module Proto.

(** [typedef struct {...} PROTO_PARSER].  [callback] tells whether the
    callback pointer is set; calls of it are reported by the operations. *)
Record PROTO_PARSER := mkPARSER {
  buf : list Z;
  bufSize : Z;
  dataLen : Z;
  isEsc : Z;
  isBegin : Z;
  callback : bool;
}.

(** [PROTO_Init]: [isBegin] keeps the value the memory had before. *)
Definition PROTO_Init (parser : PROTO_PARSER) (completeCallback : bool)
    (b : list Z) (bsize : Z) : Z * PROTO_PARSER :=
  (0, mkPARSER b bsize 0 0 (isBegin parser) completeCallback).

(** [PROTO_ParseByte]: result code, parser, and whether the callback ran. *)
Definition PROTO_ParseByte (parser : PROTO_PARSER) (value : Z)
  : option (Z * PROTO_PARSER * bool) :=
  let '(mkPARSER b bs dl es bg cb) := parser in
  if value =? 0x7D then Some (-1, mkPARSER b bs dl 1 bg cb, false)
  else if value =? 0x7E then Some (-1, mkPARSER b bs 0 0 1 cb, false)
  else if value =? 0x7F then Some (0, mkPARSER b bs dl es 0 cb, cb)
  else if bg =? 0 then Some (-1, parser, false)
  else
    let '(value, es) :=
      if negb (es =? 0) then (Z.lxor value 0x20, 0) else (value, es) in
    if dl <? bs then
      b' <- mset b dl value;;
      Some (-1, mkPARSER b' bs (u16 (dl + 1)) es bg cb, false)
    else Some (-1, mkPARSER b bs dl es bg cb, false).

(** [PROTO_Parse]: the [while (len--)] loop from offset [k] of [b]; the
    result also counts the callback calls. *)
Fixpoint PROTO_Parse_loop (n : nat) (parser : PROTO_PARSER) (b : list Z)
    (k : Z) (calls : Z) : option (Z * PROTO_PARSER * Z) :=
  match n with
  | O => Some (0, parser, calls)
  | S n =>
      v <- mget b k;;
      '(_, parser, called) <- PROTO_ParseByte parser v;;
      PROTO_Parse_loop n parser b (k + 1) (calls + if called then 1 else 0)
  end.

Definition PROTO_Parse (parser : PROTO_PARSER) (b : list Z) (len : Z)
  : option (Z * PROTO_PARSER * Z) :=
  PROTO_Parse_loop (Z.to_nat len) parser b 0 0.

Definition special (b : Z) : bool := (b =? 0x7D) || (b =? 0x7E) || (b =? 0x7F).

(** The [while (len--)] loop of [PROTO_Add]: [pos] is the write position in
    [out], [k] the read position in [packet].  [inl] is the early
    [return -1]. *)
Fixpoint PROTO_Add_loop (n : nat) (out : list Z) (pos : Z) (packet : list Z)
    (k bsize i : Z) : option (list Z + (list Z * Z * Z * Z)) :=
  match n with
  | O => Some (inr (out, pos, bsize, i))
  | S n =>
      c <- mget packet k;;
      if special c then
        if bsize <? 2 then Some (inl out)
        else
          out <- mset out pos 0x7D;;
          out <- mset out (pos + 1) (Z.lxor c 0x20);;
          PROTO_Add_loop n out (pos + 2) packet (k + 1) (bsize - 2) (u16 (i + 2))
      else
        if bsize <? 1 then Some (inl out)
        else
          out <- mset out pos c;;
          PROTO_Add_loop n out (pos + 1) packet (k + 1) (bsize - 1) (u16 (i + 1))
  end.

(** [PROTO_Add]: the length is the little-endian 16-bit word at the start of
    the packet, and the packet is encoded from that word on. *)
Definition PROTO_Add (out packet : list Z) (bsize : Z) : option (Z * list Z) :=
  lo <- mget packet 0;;
  hi <- mget packet 1;;
  let len := lo + 256 * hi in
  if bsize <? 1 then Some (-1, out)
  else
    out <- mset out 0 0x7E;;
    r <- PROTO_Add_loop (Z.to_nat len) out 1 packet 0 (bsize - 1) 2;;
    match r with
    | inl out => Some (-1, out)
    | inr (out, pos, bsize, i) =>
        if bsize <? 1 then Some (-1, out)
        else
          out <- mset out pos 0x7F;;
          Some (i, out)
    end.

Section ring.
Context {R : Type} `{ByteFifo R}.

(** The [while (len--)] loop of [PROTO_AddRb]. *)
Fixpoint PROTO_AddRb_loop (n : nat) (rb : R) (packet : list Z) (k i : Z)
  : option (Z * R) :=
  match n with
  | O =>
      '(ret, rb) <- fifo_put rb 0x7F;;
      if ret =? -1 then Some (-1, rb) else Some (i, rb)
  | S n =>
      c <- mget packet k;;
      if special c then
        '(ret, rb) <- fifo_put rb 0x7D;;
        if ret =? -1 then Some (-1, rb)
        else
          '(ret, rb) <- fifo_put rb (Z.lxor c 0x20);;
          if ret =? -1 then Some (-1, rb)
          else PROTO_AddRb_loop n rb packet (k + 1) (u16 (i + 2))
      else
        '(ret, rb) <- fifo_put rb c;;
        if ret =? -1 then Some (-1, rb)
        else PROTO_AddRb_loop n rb packet (k + 1) (u16 (i + 1))
  end.

(** [PROTO_AddRb]; a negative [len] runs past every buffer. *)
Definition PROTO_AddRb (rb : R) (packet : list Z) (len : Z)
  : option (Z * R) :=
  '(ret, rb) <- fifo_put rb 0x7E;;
  if ret =? -1 then Some (-1, rb)
  else if len <? 0 then None
  else PROTO_AddRb_loop (Z.to_nat len) rb packet 0 2.

(** The [while (RINGBUF_Get(rb, &c) == 0)] loop of [PROTO_ParseRb];
    [fuel] bounds the number of bytes read. *)
Fixpoint PROTO_ParseRb_loop (fuel : nat) (rb : R) (proto : PROTO_PARSER)
    (c len : Z) : option (Z * R * list Z * Z) :=
  match fuel with
  | O => None
  | S fuel =>
      '(g, rb, c) <- fifo_get rb c;;
      if g =? 0 then
        '(ret, proto, _) <- PROTO_ParseByte proto c;;
        if ret =? 0 then Some (0, rb, buf proto, dataLen proto)
        else PROTO_ParseRb_loop fuel rb proto c len
      else Some (-1, rb, buf proto, len)
  end.

(** [PROTO_ParseRb]: [stk] is what the stack slot of the local parser holds
    when the function is entered.  Returns the code, the ring buffer, the
    output buffer and the value of [*len]. *)
Definition PROTO_ParseRb (fuel : nat) (stk : PROTO_PARSER) (rb : R)
    (bufOut : list Z) (len maxBufLen : Z) : option (Z * R * list Z * Z) :=
  let '(_, proto) := PROTO_Init stk false bufOut maxBufLen in
  PROTO_ParseRb_loop fuel rb proto 0 len.
End ring.

(** *** Specification of the framing *)

Definition esc (b : Z) : list Z :=
  if special b then [0x7D; Z.lxor b 0x20] else [b].

Definition escaped (p : list Z) : list Z := p ≫= esc.

Definition frame (p : list Z) : list Z := 0x7E :: escaped p ++ [0x7F].

Record parser_ok (ps : PROTO_PARSER) : Prop := {
  po_len : 0 <= dataLen ps <= bufSize ps;
  po_mem : bufSize ps <= zlen (buf ps);
  po_u16 : bufSize ps < 65536;
}.

(** [ps] has seen the start of a packet and the payload bytes [d]. *)
Record collected (ps : PROTO_PARSER) (d : list Z) : Prop := {
  co_ok : parser_ok ps;
  co_esc : isEsc ps = 0;
  co_begin : isBegin ps = 1;
  co_len : dataLen ps = Z.min (zlen d) (bufSize ps);
  co_data : take (Z.to_nat (dataLen ps)) (buf ps) = take (Z.to_nat (bufSize ps)) d;
}.

(** The part of the parser no byte changes. *)
Definition same_buffer (ps ps' : PROTO_PARSER) : Prop :=
  bufSize ps' = bufSize ps /\ zlen (buf ps') = zlen (buf ps).

(** The loop of [PROTO_ParseRb] on a plain list of bytes. *)
Fixpoint consume (ps : PROTO_PARSER) (bs : list Z)
  : option (Z * PROTO_PARSER * list Z) :=
  match bs with
  | [] => Some (-1, ps, [])
  | b :: bs =>
      '(ret, ps, _) <- PROTO_ParseByte ps b;;
      if ret =? 0 then Some (0, ps, bs) else consume ps bs
  end.

Lemma special_true b :
  special b = true -> b = 0x7D \/ b = 0x7E \/ b = 0x7F.
Proof.
  unfold special. intros H. apply orb_prop in H as [H|H];
    [apply orb_prop in H as [H|H]|]; apply Z.eqb_eq in H; auto.
Qed.

Lemma special_false b :
  special b = false -> b <> 0x7D /\ b <> 0x7E /\ b <> 0x7F.
Proof.
  unfold special. intros H. apply orb_false_elim in H as [H H3].
  apply orb_false_elim in H as [H1 H2].
  apply Z.eqb_neq in H1, H2, H3. auto.
Qed.

#[local] Ltac eqb_cases :=
  repeat match goal with
  | |- context [?x =? ?y] => destruct (Z.eqb_spec x y); try lia; simpl
  | |- context [?x <? ?y] => destruct (Z.ltb_spec x y); try lia; simpl
  end.

Lemma ParseByte_safe ps v :
  parser_ok ps ->
  exists ret ps' cb, PROTO_ParseByte ps v = Some (ret, ps', cb) /\
    parser_ok ps' /\ same_buffer ps ps' /\
    ((v = 0x7F /\ ret = 0) \/ (v <> 0x7F /\ ret = -1)) /\
    cb = (callback ps && (v =? 0x7F)) /\ callback ps' = callback ps.
Proof.
  intros [H1 H2 H3]. destruct ps as [b bs dl es bg cb]; simpl in *.
  unfold same_buffer.
  destruct (Z.eqb_spec v 0x7D); [subst; simpl; rewrite andb_false_r; repeat eexists; simpl; auto; lia|].
  destruct (Z.eqb_spec v 0x7E); [subst; simpl; rewrite andb_false_r; repeat eexists; simpl; auto; lia|].
  destruct (Z.eqb_spec v 0x7F); [subst; simpl; rewrite andb_true_r; repeat eexists; simpl; auto; lia|].
  rewrite andb_false_r.
  destruct (bg =? 0); [repeat eexists; simpl; auto; lia|].
  destruct (negb (es =? 0)); simpl;
    (destruct (Z.ltb_spec dl bs); [rewrite mset_Some by lia; simpl|]);
    repeat eexists; simpl; rewrite ?u16_small by lia; unfold zlen in *;
    rewrite ?length_insert; auto; lia.
Qed.

(** The store at the end of [PROTO_ParseByte]: kept while there is room,
    dropped afterwards. *)
Lemma store_collected m bs dl cb d v :
  collected (mkPARSER m bs dl 0 1 cb) d ->
  exists ps',
    (if dl <? bs then
       m' <- mset m dl v;;
       Some (-1, mkPARSER m' bs (u16 (dl + 1)) 0 1 cb, false)
     else Some (-1, mkPARSER m bs dl 0 1 cb, false)) = Some (-1, ps', false) /\
    collected ps' (d ++ [v]) /\ same_buffer (mkPARSER m bs dl 0 1 cb) ps'.
Proof.
  intros [[H1 H2 H3] _ _ Hl Hd]; simpl in *.
  unfold same_buffer. pose proof (zlen_nonneg d).
  destruct (Z.ltb_spec dl bs).
  - rewrite mset_Some by lia. rewrite u16_small by lia.
    assert (dl = zlen d) as -> by lia.
    eexists; split; [reflexivity|]; split; [split; [split|..]|]; simpl;
      rewrite ?zlen_app, ?zlen_cons, ?zlen_nil;
      unfold zlen in *; rewrite ?length_insert; try lia.
    replace (Z.to_nat (Z.of_nat (length d) + 1)) with (S (length d)) by lia.
    rewrite !Nat2Z.id in *. rewrite insert_take_snoc by lia. rewrite Hd.
    rewrite take_ge by lia. symmetry. apply take_ge.
    rewrite length_app; simpl; lia.
  - eexists; split; [reflexivity|]; split; [split; [split|..]|]; simpl;
      rewrite ?zlen_app, ?zlen_cons, ?zlen_nil; try lia.
    rewrite Hd. rewrite take_app_le by (unfold zlen in *; lia). done.
Qed.

Lemma lxor_esc b : special b = true ->
  special (Z.lxor b 0x20) = false /\ Z.lxor (Z.lxor b 0x20) 0x20 = b.
Proof. intros H. apply special_true in H as [->|[->| ->]]; done. Qed.

(** One payload byte, as it appears in a frame, reaches the buffer. *)
Lemma consume_esc ps d b rest :
  collected ps d -> exists ps', consume ps (esc b ++ rest) = consume ps' rest /\
    collected ps' (d ++ [b]) /\ same_buffer ps ps'.
Proof.
  intros H. destruct ps as [m bs dl es bg cb].
  pose proof (co_esc _ _ H) as He. pose proof (co_begin _ _ H) as Hb.
  simpl in He, Hb. subst es bg.
  destruct (store_collected _ _ _ _ _ b H) as (ps' & E & Hc & Hsb).
  exists ps'; split; [|done].
  unfold esc. destruct (special b) eqn:Hs; simpl.
  - destruct (lxor_esc b Hs) as [Hs' Hx].
    apply special_false in Hs' as (?&?&?).
    repeat (rewrite (proj2 (Z.eqb_neq _ _)) by done). simpl.
    rewrite Hx, E. done.
  - apply special_false in Hs as (?&?&?).
    repeat (rewrite (proj2 (Z.eqb_neq _ _)) by done). simpl.
    rewrite E. done.
Qed.

Lemma same_buffer_trans a b c :
  same_buffer a b -> same_buffer b c -> same_buffer a c.
Proof. unfold same_buffer. lia. Qed.

Lemma consume_escaped p ps d rest :
  collected ps d -> exists ps',
    consume ps (escaped p ++ rest) = consume ps' rest /\
    collected ps' (d ++ p) /\ same_buffer ps ps'.
Proof.
  revert ps d. induction p as [|b p IH]; intros ps d H; simpl.
  - exists ps. rewrite app_nil_r. done.
  - rewrite <- app_assoc.
    destruct (consume_esc ps d b (escaped p ++ rest) H) as (ps1 & E1 & H1 & S1).
    destruct (IH ps1 _ H1) as (ps2 & E2 & H2 & S2).
    exists ps2. rewrite <- app_assoc in H2. unfold escaped in *.
    rewrite E1, E2. eauto using same_buffer_trans.
Qed.

(** A whole frame is received whatever state the parser is in. *)
Lemma consume_frame ps p rest :
  parser_ok ps -> exists ps', consume ps (frame p ++ rest) = Some (0, ps', rest) /\
    parser_ok ps' /\ same_buffer ps ps' /\
    dataLen ps' = Z.min (zlen p) (bufSize ps) /\
    take (Z.to_nat (dataLen ps')) (buf ps') = take (Z.to_nat (bufSize ps)) p.
Proof.
  intros [H1 H2 H3]. destruct ps as [m bs dl es bg cb]; simpl in *.
  assert (collected (mkPARSER m bs 0 0 1 cb) []) as Hc.
  { split; [split|..]; simpl; rewrite ?take_nil; try done; try lia.
    change (zlen (@nil Z)) with 0; lia. }
  rewrite <- app_assoc.
  destruct (consume_escaped p _ [] ([0x7F] ++ rest) Hc) as (ps1 & E1 & C1 & S1).
  rewrite E1. destruct ps1 as [m1 bs1 dl1 es1 bg1 cb1].
  destruct C1 as [[? ? ?] _ _ Hl Hd]. unfold same_buffer in *. simpl in *.
  destruct S1 as [-> S1]. eexists; split; [reflexivity|]. simpl. done.
Qed.

(** Bytes before the next end marker never complete a packet. *)
Lemma consume_noend g ps rest :
  parser_ok ps -> Forall (fun b => b <> 0x7F) g ->
  exists ps', consume ps (g ++ rest) = consume ps' rest /\
    parser_ok ps' /\ same_buffer ps ps'.
Proof.
  revert ps. induction g as [|b g IH]; intros ps H Hg; simpl.
  - exists ps. unfold same_buffer. done.
  - apply Forall_cons_iff in Hg as [Hb Hg].
    destruct (ParseByte_safe ps b H) as (ret & ps1 & cb & -> & H1 & S1 & Hr & _).
    destruct Hr as [[? _]|[_ ->]]; [done|]. simpl.
    destruct (IH ps1 H1 Hg) as (ps2 & E & H2 & S2).
    eauto using same_buffer_trans.
Qed.

Section ring_lemmas.
Context {R : Type} `{ByteFifoSpec R}.
Implicit Types (rb : R) (bs p : list Z).

(** Sequential puts, stopping at the first one that fails. *)
Fixpoint put_bytes rb bs : option (bool * R) :=
  match bs with
  | [] => Some (true, rb)
  | b :: bs =>
      '(ret, rb) <- fifo_put rb b;;
      if ret =? -1 then Some (false, rb) else put_bytes rb bs
  end.

Lemma put_bytes_app bs cs rb :
  put_bytes rb (bs ++ cs) =
    '(ok, rb') <- put_bytes rb bs;;
    if ok : bool then put_bytes rb' cs else Some (false, rb').
Proof.
  revert rb. induction bs as [|b bs IH]; intros rb; simpl; [done|].
  destruct (fifo_put rb b) as [[ret rb']|]; [|done].
  destruct (ret =? -1); [done|apply IH].
Qed.

Lemma put_bytes_spec bs rb :
  fifo_ok rb ->
  let room := fifo_cap rb - zlen (fifo_bytes rb) in
  exists rb', put_bytes rb bs = Some (zlen bs <=? room, rb') /\
    fifo_ok rb' /\ fifo_cap rb' = fifo_cap rb /\
    fifo_bytes rb' = fifo_bytes rb ++ take (Z.to_nat room) bs.
Proof.
  revert rb. induction bs as [|b bs IH]; intros rb Hok room; simpl.
  - exists rb. rewrite take_nil, app_nil_r.
    pose proof (fifo_len_cap rb Hok). rewrite zlen_nil.
    destruct (Z.leb_spec 0 room); [done|lia].
  - pose proof (fifo_len_cap rb Hok). rewrite zlen_cons.
    pose proof (zlen_nonneg bs).
    destruct (Z.eq_dec (zlen (fifo_bytes rb)) (fifo_cap rb)) as [E|E].
    + rewrite fifo_put_full by done. simpl. exists rb.
      replace (Z.to_nat room) with O by lia. rewrite app_nil_r.
      destruct (Z.leb_spec (1 + zlen bs) room); [lia|done].
    + destruct (fifo_put_room rb b Hok) as (rb1 & -> & Hok1 & Hc & Hb); [lia|].
      simpl. destruct (IH rb1 Hok1) as (rb2 & E2 & Hok2 & Hc2 & Hb2).
      exists rb2. rewrite E2, Hc2, Hb2, Hc, Hb, zlen_app, zlen_cons, zlen_nil.
      split; [do 2 f_equal; lia|]. split_and!; [done..|].
      rewrite <- app_assoc. simpl. f_equal.
      replace (Z.to_nat room) with
        (S (Z.to_nat (fifo_cap rb - (zlen (fifo_bytes rb) + (1 + 0))))) by lia.
      done.
Qed.

Lemma AddRb_loop_put p pre post rb i :
  0 <= i < 65536 ->
  PROTO_AddRb_loop (length p) rb (pre ++ p ++ post) (zlen pre) i =
    '(ok, rb') <- put_bytes rb (escaped p ++ [0x7F]);;
    Some (if ok : bool then u16 (i + zlen (escaped p)) else -1, rb').
Proof.
  revert rb pre i. induction p as [|b p IH]; intros rb pre i Hi; simpl.
  - destruct (fifo_put rb 0x7F) as [[ret rb']|]; [|done].
    destruct (ret =? -1); [done|]. change (zlen (@nil Z)) with 0.
    rewrite Z.add_0_r, u16_small by lia. done.
  - rewrite mget_app_mid.
    replace (pre ++ b :: p ++ post) with ((pre ++ [b]) ++ p ++ post)
      by (rewrite <- app_assoc; done).
    assert (zlen pre + 1 = zlen (pre ++ [b])) as -> by (rewrite zlen_app; done).
    unfold esc. destruct (special b); simpl.
    + destruct (fifo_put rb 0x7D) as [[r1 rb1]|]; [|done].
      destruct (r1 =? -1); [done|].
      destruct (fifo_put rb1 _) as [[r2 rb2]|]; [|done].
      destruct (r2 =? -1); [done|].
      rewrite IH by apply u16_range. fold (escaped p).
      destruct (put_bytes rb2 _) as [[[] ?]|]; [|done..].
      do 2 f_equal. rewrite !zlen_cons. wrap_lia.
    + destruct (fifo_put rb b) as [[r1 rb1]|]; [|done].
      destruct (r1 =? -1); [done|].
      rewrite IH by apply u16_range. fold (escaped p).
      destruct (put_bytes rb1 _) as [[[] ?]|]; [|done..].
      do 2 f_equal. rewrite !zlen_cons. wrap_lia.
Qed.

(** [PROTO_AddRb] appends the frame when it fits and otherwise fills the
    ring with the part of the frame that does. *)
Lemma AddRb_spec rb p post :
  fifo_ok rb ->
  let room := fifo_cap rb - zlen (fifo_bytes rb) in
  exists rb', PROTO_AddRb rb (p ++ post) (zlen p) =
      Some (if zlen (frame p) <=? room then u16 (zlen (frame p)) else -1, rb') /\
    fifo_ok rb' /\ fifo_cap rb' = fifo_cap rb /\
    fifo_bytes rb' = fifo_bytes rb ++ take (Z.to_nat room) (frame p).
Proof.
  intros Hok room.
  destruct (put_bytes_spec (frame p) rb Hok) as (rb' & E & Hok' & Hc & Hb).
  exists rb'. split_and!; [|done..]. fold room in E.
  unfold PROTO_AddRb, frame in *. simpl in E.
  destruct (fifo_put rb 0x7E) as [[r1 rb1]|]; [|done].
  destruct (r1 =? -1).
  { injection E as E1 E2. rewrite <- E1, E2. done. }
  destruct (Z.ltb_spec (zlen p) 0); [unfold zlen in *; lia|].
  replace (Z.to_nat (zlen p)) with (length p) by (unfold zlen; lia).
  pose proof (AddRb_loop_put p [] post rb1 2 ltac:(lia)) as L.
  change (zlen (@nil Z)) with 0 in L. simpl in L. rewrite L, E.
  destruct (zlen (0x7E :: escaped p ++ [0x7F]) <=? room); [|done]. do 3 f_equal.
  rewrite zlen_cons, zlen_app. change (zlen [0x7F]) with 1. lia.
Qed.

(** The loop of [PROTO_ParseRb] is [consume] on the bytes of the ring. *)
Lemma ParseRb_loop_consume fuel rb ps c len :
  fifo_ok rb -> parser_ok ps -> (length (fifo_bytes rb) < fuel)%nat ->
  exists ret ps' rest rb',
    consume ps (fifo_bytes rb) = Some (ret, ps', rest) /\
    PROTO_ParseRb_loop fuel rb ps c len =
      Some (ret, rb', buf ps', if ret =? 0 then dataLen ps' else len) /\
    fifo_ok rb' /\ fifo_cap rb' = fifo_cap rb /\ fifo_bytes rb' = rest.
Proof.
  revert rb ps c. induction fuel as [|fuel IH]; intros rb ps c Hok Hp Hl; [lia|].
  simpl. destruct (fifo_bytes rb) as [|b bs] eqn:Eb; simpl.
  - rewrite fifo_get_empty by done. simpl. exists (-1), ps, [], rb. done.
  - destruct (fifo_get_some rb c b bs Hok Eb) as (rb1 & -> & Hok1 & Hc1 & Hb1).
    simpl.
    destruct (ParseByte_safe ps b Hp) as (ret & ps1 & cb & -> & Hp1 & _ & Hr & _).
    destruct (Z.eqb_spec ret 0).
    + subst ret. exists 0, ps1, bs, rb1. done.
    + destruct (IH rb1 ps1 b Hok1 Hp1) as (r2 & ps2 & rest & rb2 & E2 & L2 & O2 & C2 & B2).
      { rewrite Hb1. simpl in Hl. lia. }
      rewrite Hb1 in E2. exists r2, ps2, rest, rb2.
      split_and!; first [done | congruence].
Qed.
End ring_lemmas.

(** *** The encoder into a plain buffer *)

(** One turn of the loop writes the escaped byte, or stops for lack of room. *)
Lemma Add_loop_step n w tail packet k b bsz i :
  mget packet k = Some b -> bsz <= zlen tail ->
  PROTO_Add_loop (S n) (w ++ tail) (zlen w) packet k bsz i =
    if bsz <? zlen (esc b) then Some (inl (w ++ tail))
    else PROTO_Add_loop n ((w ++ esc b) ++ drop (length (esc b)) tail)
           (zlen (w ++ esc b)) packet (k + 1) (bsz - zlen (esc b))
           (u16 (i + zlen (esc b))).
Proof.
  intros Hb Ht. simpl. rewrite Hb, zlen_app. unfold esc.
  destruct (special b); simpl length.
  - change (zlen [0x7D; Z.lxor b 0x20]) with 2.
    destruct (Z.ltb_spec bsz 2); [done|].
    destruct tail as [|x [|y tail]]; [unfold zlen in *; simpl in *; lia..|].
    rewrite mset_app_mid.
    pose proof (mset_app_mid (w ++ [0x7D]) y tail (Z.lxor b 0x20)) as E.
    rewrite zlen_app, <- !app_assoc in E. change (zlen [0x7D]) with 1 in E.
    simpl in E. rewrite E.
    rewrite <- app_assoc. done.
  - change (zlen [b]) with 1. destruct (Z.ltb_spec bsz 1); [done|].
    destruct tail as [|x tail]; [unfold zlen in *; simpl in *; lia|].
    rewrite mset_app_mid, <- app_assoc. done.
Qed.

(** The loop writes the escaped packet after [w], or a part of it of at most
    [bsz] bytes when it does not fit. *)
Lemma Add_loop_spec p : forall pre post w tail bsz i,
  0 <= bsz <= zlen tail -> 0 <= i < 65536 ->
  exists v,
    PROTO_Add_loop (length p) (w ++ tail) (zlen w) (pre ++ p ++ post) (zlen pre) bsz i =
      Some (if zlen (escaped p) <=? bsz
            then inr (w ++ v ++ drop (length v) tail, zlen w + zlen v,
                      bsz - zlen v, u16 (i + zlen v))
            else inl (w ++ v ++ drop (length v) tail)) /\
    zlen v <= bsz /\ (zlen (escaped p) <= bsz -> v = escaped p).
Proof.
  induction p as [|b p IH]; intros pre post w tail bsz i Hb Hi.
  - exists []. simpl. change (zlen (@nil Z)) with 0.
    destruct (Z.leb_spec 0 bsz); [|lia].
    rewrite drop_0, !Z.add_0_r, Z.sub_0_r, u16_small by lia. done.
  - cbn [length]. rewrite (Add_loop_step _ _ _ _ _ b) by (lia || apply mget_app_mid).
    assert (zlen (escaped (b :: p)) = zlen (esc b) + zlen (escaped p)) as E
      by (unfold escaped; simpl; apply zlen_app).
    rewrite E. pose proof (zlen_nonneg (escaped p)).
    destruct (Z.ltb_spec bsz (zlen (esc b))).
    { exists []. destruct (Z.leb_spec (zlen (esc b) + zlen (escaped p)) bsz); [lia|].
      split_and!; [done|change (zlen (@nil Z)) with 0; lia|lia]. }
    destruct (IH (pre ++ [b]) post (w ++ esc b) (drop (length (esc b)) tail)
                (bsz - zlen (esc b)) (u16 (i + zlen (esc b)))) as (v & L & Hv & Hf).
    { unfold zlen in *; rewrite length_drop; lia. } { apply u16_range. }
    exists (esc b ++ v). rewrite <- !app_assoc in L.
    rewrite (zlen_app pre) in L. change (zlen [b]) with 1 in L. cbn [app] in L.
    rewrite <- !app_assoc. cbn [app]. rewrite L, drop_drop, !zlen_app, length_app.
    replace (zlen (escaped p) <=? bsz - zlen (esc b))
      with (zlen (esc b) + zlen (escaped p) <=? bsz) by lia.
    split_and!; [|lia|].
    + f_equal. destruct (_ <=? bsz); [|done]. f_equal.
      split_pairs; [done|lia|lia|wrap_lia].
    + intros Hle. unfold escaped; simpl. rewrite Hf by lia. done.
Qed.

(** [PROTO_Add] overwrites the start of the buffer with bytes [w], at
    most [bsize] of them.  When the frame of the packet (its length word
    included) fits in [bsize] bytes, [w] is the frame and the result is its
    length as a 16-bit number; otherwise the result is -1. *)
Theorem proto_add_correct (out packet : list Z) (lo hi : Z) (rest : list Z) (bsize : Z)
    (Hp : packet = lo :: hi :: rest)
    (Hlen : 0 <= lo + 256 * hi <= zlen packet)
    (Hout : 0 <= bsize <= zlen out) :
  let p := take (Z.to_nat (lo + 256 * hi)) packet in
  exists w,
    PROTO_Add out packet bsize =
      Some (if zlen (frame p) <=? bsize then u16 (zlen (frame p)) else -1,
            w ++ drop (length w) out) /\
    zlen w <= bsize /\ (zlen (frame p) <= bsize -> w = frame p).
Proof.
  intros p. unfold PROTO_Add.
  assert (mget packet 0 = Some lo) as -> by (subst; done).
  assert (mget packet 1 = Some hi) as -> by (subst; done).
  assert (zlen (frame p) = zlen (escaped p) + 2) as ->
    by (unfold frame; rewrite zlen_cons, zlen_app; change (zlen [0x7F]) with 1; lia).
  pose proof (zlen_nonneg (escaped p)).
  destruct (Z.ltb_spec bsize 1).
  { exists []. destruct (Z.leb_spec (zlen (escaped p) + 2) bsize); [lia|].
    split_and!; [done|change (zlen (@nil Z)) with 0; lia|lia]. }
  destruct out as [|x tail]; [unfold zlen in Hout; simpl in Hout; lia|].
  rewrite zlen_cons in Hout.
  rewrite (mset_app_mid [] x tail 0x7E : mset (x :: tail) 0 0x7E = _).
  destruct (Add_loop_spec p [] (drop (Z.to_nat (lo + 256 * hi)) packet) [0x7E] tail
              (bsize - 1) 2) as (v & L & Hv & Hf); [lia..|].
  assert (length p = Z.to_nat (lo + 256 * hi)) as Hlp
    by (unfold p; rewrite length_take; unfold zlen in Hlen; lia).
  simpl app in *. unfold p at 2 in L. rewrite take_drop, Hlp in L.
  change (zlen [0x7E]) with 1 in L. change (zlen (@nil Z)) with 0 in L. rewrite L.
  destruct (Z.leb_spec (zlen (escaped p)) (bsize - 1)) as [Hle|Hle];
    [rewrite (Hf Hle) in *|]; clear L.
  - destruct (Z.ltb_spec (bsize - 1 - zlen (escaped p)) 1);
      destruct (Z.leb_spec (zlen (escaped p) + 2) bsize); try lia.
    + exists (0x7E :: escaped p). rewrite zlen_cons. split_and!; [done|lia..].
    + destruct (drop (length (escaped p)) tail) as [|y t] eqn:Et.
      { apply (f_equal length) in Et. rewrite length_drop in Et.
        unfold zlen in *; simpl in *; lia. }
      pose proof (mset_app_mid (0x7E :: escaped p) y t 0x7F) as M.
      rewrite zlen_cons in M. simpl app in M. rewrite M.
      exists (frame p). unfold frame. simpl. rewrite length_app, <- app_assoc.
      rewrite <- drop_drop, Et. rewrite !zlen_cons, zlen_app.
      change (zlen [0x7F]) with 1. split_and!; [|lia|done].
      simpl. do 2 f_equal. f_equal. lia.
  - exists (0x7E :: v). rewrite zlen_cons.
    destruct (Z.leb_spec (zlen (escaped p) + 2) bsize); [lia|].
    split_and!; [done|lia..].
Qed.

Lemma proto_add_correct_witness :
  exists w, PROTO_Add (replicate 9 0) [4; 0; 0x7E; 9] 9 =
    Some (7, w ++ drop (length w) (replicate 9 0)) /\
    zlen w <= 9 /\ (7 <= 9 -> w = [0x7E; 4; 0; 0x7D; 0x5E; 9; 0x7F]).
Proof.
  exact (proto_add_correct (replicate 9 0) [4; 0; 0x7E; 9] 4 0 [0x7E; 9] 9
           eq_refl ltac:(vm_compute; intuition congruence)
           ltac:(vm_compute; intuition congruence)).
Defined.

(** *** The parser on a plain buffer *)

Definition ends (bs : list Z) : Z := zlen (filter (fun b => b = 0x7F) bs).

Lemma Parse_loop_safe q : forall ps pre post calls,
  parser_ok ps -> callback ps = true ->
  exists ps', PROTO_Parse_loop (length q) ps (pre ++ q ++ post) (zlen pre) calls =
      Some (0, ps', calls + ends q) /\ parser_ok ps' /\ same_buffer ps ps'.
Proof.
  induction q as [|b q IH]; intros ps pre post calls H Hcb.
  - exists ps. unfold ends, same_buffer. simpl. rewrite Z.add_0_r. done.
  - cbn [length PROTO_Parse_loop app]. rewrite mget_app_mid.
    destruct (ParseByte_safe ps b H) as (ret & ps1 & cb & -> & H1 & S1 & _ & -> & C1).
    rewrite Hcb in C1 |- *. simpl.
    destruct (IH ps1 (pre ++ [b]) post
                (calls + if b =? 0x7F then 1 else 0) H1 C1) as (ps2 & L & H2 & S2).
    rewrite <- app_assoc, zlen_app in L. change (zlen [b]) with 1 in L.
    cbn [app] in L. rewrite L. exists ps2. split_and!; eauto using same_buffer_trans.
    do 2 f_equal. unfold ends. rewrite filter_cons.
    destruct (Z.eqb_spec b 0x7F); case_decide; try done; rewrite ?zlen_cons; lia.
Qed.

(** [PROTO_Parse] on any input of [len] readable bytes returns 0, never
    stores outside the parser's buffer, and runs the callback once for every
    end marker of the input. *)
Theorem proto_parse_safe (ps : PROTO_PARSER) (b : list Z) (len : Z)
    (Hok : parser_ok ps) (Hcb : callback ps = true) (Hlen : 0 <= len <= zlen b) :
  exists ps', PROTO_Parse ps b len =
      Some (0, ps', ends (take (Z.to_nat len) b)) /\
    parser_ok ps' /\ same_buffer ps ps'.
Proof.
  destruct (Parse_loop_safe (take (Z.to_nat len) b) ps [] (drop (Z.to_nat len) b) 0 Hok Hcb)
    as (ps' & L & H').
  exists ps'. split; [|done]. unfold PROTO_Parse. simpl app in L.
  rewrite take_drop, length_take in L.
  replace (Z.to_nat len `min` length b)%nat with (Z.to_nat len) in L
    by (unfold zlen in *; lia).
  exact L.
Qed.

Lemma proto_parse_safe_witness :
  let ps := mkPARSER [0; 0] 2 0 0 0 true in
  exists ps', PROTO_Parse ps [0x7E; 1; 2; 3; 0x7F; 0x7F] 6 = Some (0, ps', 2) /\
    parser_ok ps' /\ same_buffer ps ps'.
Proof.
  apply (proto_parse_safe (mkPARSER [0; 0] 2 0 0 0 true) [0x7E; 1; 2; 3; 0x7F; 0x7F] 6);
    [split; vm_compute; intuition congruence | reflexivity
    | vm_compute; intuition congruence].
Defined.

(** [PROTO_Init] leaves [isBegin] as it finds it, so what [PROTO_ParseRb]
    makes of bytes that precede the first start marker depends on the old
    contents of its stack slot: the same ring buffer yields a packet of one
    byte or an empty packet. *)
Theorem proto_parse_rb_reads_stack :
  let rb := RingBuf.mkRINGBUF [0x41; 0x7F; 0] 0 2 2 3 in
  let stk b := mkPARSER [] 0 0 0 b false in
  RingBuf.rb_ok rb /\
  (exists r m, PROTO_ParseRb 3 (stk 1) rb [0; 0] 0 2 = Some (0, r, m, 1)) /\
  (exists r m, PROTO_ParseRb 3 (stk 0) rb [0; 0] 0 2 = Some (0, r, m, 0)).
Proof.
  split_and!; [split; vm_compute; intuition congruence|..];
    do 2 eexists; vm_compute; reflexivity.
Qed.
End Proto.
