(* ===== verification/Queue.v ===== *)
(** The packet queue, [src/utility/queue/queue.h] and [queue.cpp]: frames of
    file Proto in the ring buffer of file RingBuf.  The abstract view of a
    queue is the list of complete packets it holds; a packet that did not fit
    leaves bytes behind that no later read can mistake for a packet. *)
From S2P Require Import Prelude RingBuf Proto.
From stdpp Require Import base option list numbers.
From Stdlib Require Import ZArith Lia.
Import RingBuf Proto.

Open Scope Z_scope.

Module Queue.

(** [typedef struct {...} QUEUE].  The block [buf] points to is the memory of
    [rb]; the field keeps whether the pointer is set. *)
Record QUEUE := mkQUEUE {
  q_buf : bool;
  rb : RINGBUF;
}.

(** [QUEUE_Init]; [mem] is the block [new uint8_t[bufferSize]] returns. *)
Definition QUEUE_Init (queue : QUEUE) (mem : list Z) (bufferSize : Z) : QUEUE :=
  let '(_, r) := RINGBUF_Init (Some (rb queue)) (Some mem) (u32 bufferSize) in
  mkQUEUE true (default (rb queue) r).

(** [QUEUE_Puts] *)
Definition QUEUE_Puts (queue : QUEUE) (buffer : list Z) (len : Z)
  : option (Z * QUEUE) :=
  '(ret, r) <- PROTO_AddRb (rb queue) buffer len;;
  Some (ret, mkQUEUE (q_buf queue) r).

(** [QUEUE_Gets]; the loop it runs reads at most the bytes of the ring. *)
Definition QUEUE_Gets (stk : PROTO_PARSER) (queue : QUEUE) (buffer : list Z)
    (len maxLen : Z) : option (Z * QUEUE * list Z * Z) :=
  let fuel := S (Z.to_nat (fill_cnt (rb queue))) in
  '(ret, r, b, l) <- PROTO_ParseRb fuel stk (rb queue) buffer len maxLen;;
  Some (ret, mkQUEUE (q_buf queue) r, b, l).

(** [QUEUE_IsEmpty] *)
Definition QUEUE_IsEmpty (queue : QUEUE) : bool := fill_cnt (rb queue) <=? 0.

(** *** The abstract view *)

Abbreviation partial := (Forall (fun b : Z => b <> 0x7F)).

Inductive stream_of : list Z -> list (list Z) -> Prop :=
| stream_tail g : partial g -> stream_of g []
| stream_packet g p s ps :
    partial g -> stream_of s ps -> stream_of (g ++ frame p ++ s) (p :: ps).

Definition represents (q : QUEUE) (ps : list (list Z)) : Prop :=
  rb_ok (rb q) /\ stream_of (rb_bytes (rb q)) ps.

(** Free bytes of the ring. *)
Definition room (q : QUEUE) : Z := size (rb q) - zlen (rb_bytes (rb q)).

(** *** Lemmas on streams *)

Lemma escaped_partial p : partial (escaped p).
Proof.
  induction p as [|b p IH]; simpl; [done|]. apply Forall_app; split; [|done].
  unfold esc. destruct (special b) eqn:E.
  - apply special_true in E as [->|[->| ->]]; repeat constructor; done.
  - apply special_false in E as (_&_&?). by repeat constructor.
Qed.

Lemma frame_take_partial p n :
  (n < length (frame p))%nat -> partial (take n (frame p)).
Proof.
  unfold frame. destruct n as [|n]; simpl; [done|].
  rewrite length_app; simpl. intros H. constructor; [done|].
  rewrite take_app_le by lia. apply Forall_take, escaped_partial.
Qed.

Lemma stream_app_partial s ps g :
  stream_of s ps -> partial g -> stream_of (s ++ g) ps.
Proof.
  intros H Hg. induction H as [g' Hg'|g' p s ps Hg' H IH].
  - constructor. by apply Forall_app.
  - rewrite <- (app_assoc g'), <- (app_assoc (frame p)). by constructor.
Qed.

Lemma stream_app_frame s ps p :
  stream_of s ps -> stream_of (s ++ frame p) (ps ++ [p]).
Proof.
  induction 1 as [g Hg|g p' s ps Hg H IH].
  - rewrite <- (app_nil_r (frame p)). apply stream_packet; [done|]. by constructor.
  - rewrite <- (app_assoc g), <- (app_assoc (frame p')). by constructor.
Qed.

Lemma consume_stream_cons ps0 s p ps :
  parser_ok ps0 -> stream_of s (p :: ps) ->
  exists ps' s', consume ps0 s = Some (0, ps', s') /\ stream_of s' ps /\
    dataLen ps' = Z.min (zlen p) (bufSize ps0) /\
    zlen (buf ps') = zlen (buf ps0) /\
    take (Z.to_nat (dataLen ps')) (buf ps') = take (Z.to_nat (bufSize ps0)) p.
Proof.
  intros H0 H. inversion H as [|g p' s' ps' Hg Hs]; subst.
  destruct (consume_noend g ps0 (frame p ++ s') H0 Hg) as (ps1 & -> & H1 & [B1 Z1]).
  destruct (consume_frame ps1 p s' H1) as (ps2 & -> & H2 & [B2 Z2] & L2 & D2).
  rewrite B1 in *. exists ps2, s'. split_and!; [done..|congruence|done].
Qed.

Lemma consume_stream_nil ps0 s :
  parser_ok ps0 -> stream_of s [] ->
  exists ps', consume ps0 s = Some (-1, ps', []).
Proof.
  intros H0 H. inversion H as [g Hg|]; subst.
  destruct (consume_noend s ps0 [] H0 Hg) as (ps1 & E & _).
  rewrite app_nil_r in E. rewrite E. eauto.
Qed.

(** *** The packet queue *)

Lemma Puts_spec (q : QUEUE) (ps : list (list Z)) (p post : list Z)
    (Hq : represents q ps) :
  exists q',
    QUEUE_Puts q (p ++ post) (zlen p) =
      Some (if zlen (frame p) <=? room q then u16 (zlen (frame p)) else -1, q') /\
    size (rb q') = size (rb q) /\
    (if zlen (frame p) <=? room q then represents q' (ps ++ [p])
     else represents q' ps /\ room q' = 0).
Proof.
  destruct Hq as [Hok Hs].
  destruct (AddRb_spec (H := ringbuf_fifo) (rb q) p post Hok) as (r & E & Hok' & Hc & Hb).
  simpl in *. fold (room q) in E, Hb. unfold QUEUE_Puts. rewrite E.
  eexists; split; [done|]; split; [done|]. unfold represents; simpl.
  pose proof (fifo_len_cap (H := ringbuf_fifo) r Hok') as Hle. simpl in Hle.
  pose proof (fifo_len_cap (H := ringbuf_fifo) (rb q) Hok) as Hle0. simpl in Hle0.
  destruct (Z.leb_spec (zlen (frame p)) (room q)).
  - split; [done|]. rewrite Hb, take_ge by (unfold zlen in *; lia).
    by apply stream_app_frame.
  - split; [split; [done|]|].
    + rewrite Hb. apply stream_app_partial; [done|].
      apply frame_take_partial. unfold room, zlen in *; lia.
    + unfold room in *; simpl. rewrite Hc, Hb, zlen_app.
      unfold zlen in *. rewrite length_take. lia.
Qed.

(** C12: [QUEUE_Puts] of a packet [p] neither faults nor disturbs the packets
    already queued.  When the frame fits in the free bytes the result is its
    length and [p] is the new last packet; otherwise the result is -1 and the
    queue still represents the same packets (the ring is then full). *)
Theorem queue_puts_refines (q : QUEUE) (ps : list (list Z)) (p post : list Z)
    (Hq : represents q ps) :
  exists q',
    QUEUE_Puts q (p ++ post) (zlen p) =
      Some (if zlen (frame p) <=? room q then u16 (zlen (frame p)) else -1, q') /\
    size (rb q') = size (rb q) /\
    (if zlen (frame p) <=? room q then represents q' (ps ++ [p])
     else represents q' ps /\ room q' = 0).
Proof. by apply Puts_spec. Qed.

Lemma queue_puts_refines_witness :
  let q := mkQUEUE true (mkRINGBUF [0; 0; 0; 0] 3 3 0 4) in
  represents q [] /\
  exists q', QUEUE_Puts q ([5; 0x7E] ++ [6]) 2 = Some (-1, q') /\
    size (rb q') = 4 /\ represents q' [] /\ room q' = 0.
Proof.
  intros q.
  assert (represents q []) as H.
  { split; [split; vm_compute; intuition congruence|]. constructor. constructor. }
  split; [exact H|]. exact (queue_puts_refines q [] [5; 0x7E] [6] H).
Defined.

Lemma gets_parser_ok stk buffer maxLen :
  0 <= maxLen < 65536 -> maxLen <= zlen buffer ->
  parser_ok (PROTO_Init stk false buffer maxLen).2.
Proof. intros; split; simpl; lia. Qed.

(** What [QUEUE_Gets] does in terms of [consume]. *)
Lemma Gets_consume stk q buffer len maxLen :
  rb_ok (rb q) -> 0 <= maxLen < 65536 -> maxLen <= zlen buffer ->
  exists ret ps' rest q',
    consume (PROTO_Init stk false buffer maxLen).2 (rb_bytes (rb q)) =
      Some (ret, ps', rest) /\
    QUEUE_Gets stk q buffer len maxLen =
      Some (ret, q', buf ps', if ret =? 0 then dataLen ps' else len) /\
    rb_ok (rb q') /\ size (rb q') = size (rb q) /\ rb_bytes (rb q') = rest.
Proof.
  intros Hok Hm Hb.
  destruct (ParseRb_loop_consume (H := ringbuf_fifo) (S (Z.to_nat (fill_cnt (rb q)))) (rb q) _ 0 len
              Hok (gets_parser_ok stk buffer maxLen Hm Hb))
    as (ret & ps' & rest & r & E & L & Hok' & Hc & Hbs).
  { pose proof (rb_bytes_len _ Hok). simpl. unfold zlen in *. lia. }
  exists ret, ps', rest, (mkQUEUE (q_buf q) r). split; [exact E|].
  split; [|done]. unfold QUEUE_Gets, PROTO_ParseRb. cbv zeta.
  cbn [PROTO_Init]. cbn [PROTO_Init snd] in L. rewrite L. done.
Qed.

Lemma Gets_spec (stk : PROTO_PARSER) (q : QUEUE) (ps : list (list Z))
    (buffer : list Z) (len maxLen : Z)
    (Hq : represents q ps) (Hmax : 0 <= maxLen < 65536)
    (Hbuf : maxLen <= zlen buffer) :
  exists ret q' buffer' len',
    QUEUE_Gets stk q buffer len maxLen = Some (ret, q', buffer', len') /\
    size (rb q') = size (rb q) /\
    match ps with
    | [] => ret = -1 /\ len' = len /\ rb_ok (rb q') /\ rb_bytes (rb q') = []
    | p :: ps' =>
        ret = 0 /\ len' = Z.min (zlen p) maxLen /\ zlen buffer' = zlen buffer /\
        take (Z.to_nat len') buffer' = take (Z.to_nat maxLen) p /\
        represents q' ps'
    end.
Proof.
  destruct Hq as [Hok Hs].
  destruct (Gets_consume stk q buffer len maxLen Hok Hmax Hbuf)
    as (ret & pf & rest & q' & E & G & Hok' & Hsz & Hb).
  pose proof (gets_parser_ok stk buffer maxLen Hmax Hbuf) as Hp.
  destruct ps as [|p ps].
  - destruct (consume_stream_nil _ _ Hp Hs) as (pf' & E'). rewrite E' in E.
    injection E as <- <- <-. simpl in G. eexists _, _, _, _; eauto 10.
  - destruct (consume_stream_cons _ _ _ _ Hp Hs) as (pf' & s' & E' & Hs' & Hl & Hz & Hd).
    rewrite E' in E. injection E as <- <- <-. simpl in *.
    eexists _, _, _, _; split; [exact G|]. unfold represents. rewrite Hb. done.
Qed.

(** C13: [QUEUE_Gets] delivers the oldest packet, cut to the output buffer,
    and removes it, whatever the parser's stack slot held and whatever bytes
    failed puts left in the ring; without a packet it returns -1, leaves the
    length alone and empties the ring.  It never stores outside the buffer. *)
Theorem queue_gets_refines (stk : PROTO_PARSER) (q : QUEUE) (ps : list (list Z))
    (buffer : list Z) (len maxLen : Z)
    (Hq : represents q ps) (Hmax : 0 <= maxLen < 65536)
    (Hbuf : maxLen <= zlen buffer) :
  exists ret q' buffer' len',
    QUEUE_Gets stk q buffer len maxLen = Some (ret, q', buffer', len') /\
    size (rb q') = size (rb q) /\
    match ps with
    | [] => ret = -1 /\ len' = len /\ rb_ok (rb q') /\ rb_bytes (rb q') = []
    | p :: ps' =>
        ret = 0 /\ len' = Z.min (zlen p) maxLen /\ zlen buffer' = zlen buffer /\
        take (Z.to_nat len') buffer' = take (Z.to_nat maxLen) p /\
        represents q' ps'
    end.
Proof. by apply Gets_spec. Qed.

Lemma queue_gets_refines_witness :
  let q := mkQUEUE true (mkRINGBUF [0x7E; 8; 0x7F; 0x7E; 9] 3 3 5 5) in
  let stk := mkPARSER [] 0 0 0 1 false in
  represents q [[8]] /\
  exists ret q' b' len',
    QUEUE_Gets stk q [0; 0] 7 2 = Some (ret, q', b', len') /\
    size (rb q') = 5 /\ ret = 0 /\ len' = 1 /\ zlen b' = 2 /\
    take (Z.to_nat len') b' = [8] /\ represents q' [].
Proof.
  intros q stk.
  assert (represents q [[8]]) as H.
  { split; [split; vm_compute; intuition congruence|].
    change (rb_bytes (rb q)) with ([0x7E; 9] ++ frame [8] ++ []).
    repeat (constructor; try done). }
  split; [exact H|].
  exact (queue_gets_refines stk q [[8]] [0; 0] 7 2 H
           ltac:(lia) ltac:(vm_compute; congruence)).
Defined.

(** [QUEUE_IsEmpty] looks at the bytes, not at the packets. *)
Lemma IsEmpty_bytes q : rb_ok (rb q) ->
  QUEUE_IsEmpty q = true <-> rb_bytes (rb q) = [].
Proof.
  intros H. unfold QUEUE_IsEmpty. pose proof (rb_bytes_len _ H) as Hl.
  pose proof (rb_fill _ H). split.
  - intros E%Z.leb_le. apply length_zero_iff_nil. unfold zlen in *; lia.
  - intros E. rewrite E in Hl. apply Z.leb_le. rewrite <- Hl. done.
Qed.

Lemma Init_represents q mem n :
  2 <= n < 2147483648 -> n <= zlen mem ->
  represents (QUEUE_Init q mem n) [] /\ room (QUEUE_Init q mem n) = n.
Proof.
  intros Hn Hm. unfold QUEUE_Init. rewrite u32_small by lia.
  destruct (Init_ok mem n (rb q) ltac:(lia) Hm) as (r & -> & Hr & Hb & Hs).
  unfold represents, room; simpl. rewrite Hb, Hs. change (zlen (@nil Z)) with 0.
  split; [|lia]. split; [done|]. by constructor.
Qed.

End Queue.
