(* ===== verification/Conversions.v ===== *)
(** Conversions between numbers and text, [src/utility/DataTypeConversions.cpp].

    A string argument is the block of characters readable from the pointer; an
    output buffer is the block it points to, and [None] inside the outer
    [option] is the null pointer, for which every function returns at once.  A finite
    [double] is a sign, a mantissa and a binary exponent, and its operations round to
    nearest as IEEE 754 has it. *)
From S2P Require Import Prelude.
From stdpp Require Import base option list numbers.
From Stdlib Require Import ZArith Lia.

Open Scope Z_scope.

Module Conversions.

(** *** Binary-coded decimal *)

Definition BcdToUint8 (val : Z) : Z := u8 (val - 6 * Z.shiftr val 4).
Definition Uint8ToBcd (val : Z) : Z := u8 (val + 6 * Z.quot val 10).

(** *** Text to numbers *)

(** [while (f( *p ) && n < _len) { p++; n++; }] *)
Fixpoint skip_while (f : Z -> bool) (p : list Z) (n len : Z) : option (list Z * Z) :=
  match p with
  | [] => None
  | c :: p' => if f c && (n <? len) then skip_while f p' (u8 (n + 1)) len else Some (p, n)
  end.

Definition is_pad (c : Z) : bool := (c =? 48) || (c =? 32) || (c =? 34).
Definition is_blank (c : Z) : bool := (c =? 32) || (c =? 34).
Definition is_digit (c : Z) : bool := (48 <=? c) && (c <=? 57).
Definition is_octal (c : Z) : bool := (48 <=? c) && (c <=? 55).

(** The digit loop; [wrap] is the conversion to the type of [value]. *)
Fixpoint digits_loop (wrap : Z -> Z) (p : list Z) (n len value : Z) : option Z :=
  match p with
  | [] => None
  | c :: p' =>
      if is_digit c && (n <? len)
      then digits_loop wrap p' (u8 (n + 1)) len (wrap (wrap (value * 10) + (c - 48)))
      else Some value
  end.

(** The body shared by [StringToUint64], [StringToUint32], [StringToUint16] and
    [StringToUint8]. *)
Definition string_to_uint (wrap : Z -> Z) (pString : option (list Z)) (len : Z) : option Z :=
  match pString with
  | None => Some 0
  | Some p =>
      '(p, n) <- skip_while is_pad p 0 len;;
      digits_loop wrap p n len 0
  end.

Definition StringToUint64 := string_to_uint u64.
Definition StringToUint32 := string_to_uint u32.
Definition StringToUint16 := string_to_uint u16.
Definition StringToUint8 := string_to_uint u8.

Fixpoint octal_loop (p : list Z) (n len value : Z) : option Z :=
  if n <? len then
    match p with
    | [] => None
    | c :: p' =>
        if is_octal c
        then octal_loop p' (u8 (n + 1)) len (u16 (Z.lor (Z.shiftl value 3) (u16 (c - 48))))
        else Some value
    end
  else Some value.

Definition StringToOctalUint16 (pString : option (list Z)) (len : Z) : option Z :=
  match pString with
  | None => Some 0
  | Some p =>
      '(p, n) <- skip_while is_blank p 0 len;;
      octal_loop p n len 0
  end.

Fixpoint skip_blank (p : list Z) : option (list Z) :=
  match p with
  | [] => None
  | c :: p' => if is_blank c then skip_blank p' else Some p
  end.

(** The value of a hexadecimal digit; the three ranges of the source. *)
Definition hex_value (c : Z) : option Z :=
  if (48 <=? c) && (c <=? 57) then Some (c - 48)
  else if (97 <=? c) && (c <=? 102) then Some (10 + (c - 97))
  else if (65 <=? c) && (c <=? 70) then Some (10 + (c - 65))
  else None.

Fixpoint hex_loop (p : list Z) (hexValue hexWeight : Z) : option Z :=
  match p with
  | [] => None
  | c :: p' =>
      match hex_value c with
      | Some value => hex_loop p' (u16 (hexValue + hexWeight * value)) (Z.quot hexWeight 16)
      | None => Some hexValue
      end
  end.

Definition StringToHex16 (pString : option (list Z)) (strlen : Z) : option Z :=
  match pString with
  | None => Some 0
  | Some p =>
      let hexWeight := Nat.iter (Z.to_nat (strlen - 1)) (fun h => u16 (h * 16)) 1 in
      p <- skip_blank p;;
      hex_loop p 0 hexWeight
  end.

(** *** Numbers to text *)

(** [while (u > 0 && tpos > 0) { tmp[--tpos] = digit(u % base); u /= base; }];
    [acc] is the used end of [tmp]. *)
Fixpoint rev_digits (digit : Z -> Z) (base : Z) (tpos : nat) (u : Z) (acc : list Z) : list Z :=
  match tpos with
  | O => acc
  | S tpos =>
      if u >? 0 then rev_digits digit base tpos (u / base) (digit (u mod base) :: acc)
      else acc
  end.

(** The digits of [u] in a [tmp] of [size] bytes. *)
Definition tmp_digits (digit : Z -> Z) (base : Z) (size : nat) (u : Z) : list Z :=
  if u =? 0 then [digit 0] else rev_digits digit base size u [].

Definition dec_digit (n : Z) : Z := 48 + n.

(** [for (int l = len; l < _padmax && l < _maxlen - 1; l++) pString[l] = ' ';] *)
Fixpoint pad_loop (n : nat) (p : list Z) (l padmax maxlen : Z) : option (list Z) :=
  if (l <? padmax) && (l <? maxlen - 1) then
    match n with
    | O => None
    | S n => p <- mset p l 32;; pad_loop n p (l + 1) padmax maxlen
    end
  else Some p.

(** From [memset] to the end of the printing functions: [tmp] are the characters
    from [&tmp[tpos]] on. *)
Definition print_tmp (pString : option (list Z)) (maxlen padmax : Z) (tmp : list Z)
  : option (option (list Z)) :=
  match pString with
  | None => Some None
  | Some p =>
      if maxlen =? 0 then Some (Some p)
      else
        p <- mfill p 0 0 maxlen;;
        let len := zlen tmp in
        let len := if len >? maxlen - 1 then maxlen - 1 else len in
        p <- mcpy p 0 (take (Z.to_nat len) tmp);;
        p <- pad_loop (Z.to_nat maxlen) p len padmax maxlen;;
        Some (Some p)
  end.

(** The characters of a signed number in a [tmp] of [size] bytes; [u] is the
    magnitude. *)
Definition signed_tmp (size : nat) (neg : bool) (u : Z) : list Z :=
  let t := tmp_digits dec_digit 10 size u in
  if neg && (zlen t <? Z.of_nat size) then 45 :: t else t.

Definition Int32ToString (val : Z) (pString : option (list Z)) (maxlen padmax : Z) :=
  let neg := val <? 0 in
  let u := if val =? -2147483648 then 2147483648
           else if neg then u32 (- val) else u32 val in
  print_tmp pString maxlen padmax (signed_tmp 12 neg u).

Definition Int64ToString (val : Z) (pString : option (list Z)) (maxlen padmax : Z) :=
  let neg := val <? 0 in
  let u := if val =? -9223372036854775808 then 9223372036854775808
           else if neg then u64 (- val) else u64 val in
  print_tmp pString maxlen padmax (signed_tmp 21 neg u).

Definition Uint32ToString (val : Z) (pString : option (list Z)) (maxlen padmax : Z) :=
  print_tmp pString maxlen padmax (tmp_digits dec_digit 10 11 val).

Definition hex_digit (cap : bool) (n : Z) : Z :=
  if n <? 10 then 48 + n else (if cap then 65 else 97) + (n - 10).

Definition Uint32ToHexString (val : Z) (pString : option (list Z)) (maxlen : Z) (cap : bool) :=
  print_tmp pString maxlen 0 (tmp_digits (hex_digit cap) 16 9 val).

(** *** Byte arrays *)

Fixpoint to_hex_loop (bytes : list Z) (n : nat) (i : Z) (out : list Z) : option (list Z) :=
  match n with
  | O => Some out
  | S n =>
      b <- mget bytes i;;
      out <- mset out (i * 2) (hex_digit false (Z.land (Z.shiftr b 4) 0x0F));;
      out <- mset out (i * 2 + 1) (hex_digit false (Z.land b 0x0F));;
      to_hex_loop bytes n (i + 1) out
  end.

Definition BytesToHexString (bytes : option (list Z)) (bytelen : Z) (out : option (list Z))
  : option (option (list Z)) :=
  match bytes, out with
  | Some bytes, Some out =>
      out <- to_hex_loop bytes (Z.to_nat bytelen) 0 out;;
      out <- mset out (bytelen * 2) 0;;
      Some (Some out)
  | _, _ => Some out
  end.

Fixpoint from_hex_loop (hex : list Z) (n : nat) (i : Z) (out : list Z)
  : option (bool * list Z) :=
  match n with
  | O => Some (true, out)
  | S n =>
      c <- mget hex (i * 2);;
      match hex_value c with
      | None => Some (false, out)
      | Some hi =>
          c <- mget hex (i * 2 + 1);;
          match hex_value c with
          | None => Some (false, out)
          | Some lo =>
              out <- mset out i (u8 (Z.lor (Z.shiftl hi 4) lo));;
              from_hex_loop hex n (i + 1) out
          end
      end
  end.

Definition HexStringToBytes (hex : option (list Z)) (bytelen : Z) (out : option (list Z))
  : option (bool * option (list Z)) :=
  match hex, out with
  | Some hex, Some o =>
      '(r, o) <- from_hex_loop hex (Z.to_nat bytelen) 0 o;; Some (r, Some o)
  | _, _ => Some (false, out)
  end.

(** *** Dates *)

(** [__g_month_abbr] *)
Definition month_abbr : list (list Z) :=
  [[32; 32; 32]; [74; 97; 110]; [70; 101; 98]; [77; 97; 114]; [65; 112; 114]; [77; 97; 121];
   [74; 117; 110]; [74; 117; 108]; [65; 117; 103]; [83; 101; 112]; [79; 99; 116];
   [78; 111; 118]; [68; 101; 99]].

(** [EpochFmtWidth] *)
Fixpoint EpochFmtWidth (fmt : list Z) (w : Z) : option Z :=
  match fmt with
  | [] => None
  | f :: fmt =>
      if f =? 0 then Some w
      else if f =? 37 then
        match fmt with
        | [] => None
        | c :: fmt' =>
            if c =? 0 then EpochFmtWidth fmt (u8 (w + 1))
            else
              let k := if c =? 89 then 4 else if c =? 98 then 3
                       else if c =? 37 then 1 else 2 in
              EpochFmtWidth fmt' (u8 (w + k))
        end
      else EpochFmtWidth fmt (u8 (w + 1))
  end.

Record civil := mkCivil { yr : Z; mon : Z; day : Z; hh : Z; mm : Z; ss : Z }.

(** The date and time of an epoch, as [EpochToDateTimeString] computes them. *)
Definition civil_of_days (days : Z) : Z * Z * Z :=
  let z := i32 days + 719468 in
  let era := Z.quot (if z >=? 0 then z else z - 146096) 146097 in
  let doe := u32 (z - era * 146097) in
  let yoe := u32 (doe - doe / 1460 + doe / 36524 - doe / 146096) / 365 in
  let y := i32 yoe + era * 400 in
  let doy := u32 (doe - (365 * yoe + yoe / 4 - yoe / 100)) in
  let mp := (5 * doy + 2) / 153 in
  let d := u32 (doy - (153 * mp + 2) / 5 + 1) in
  let m := if mp <? 10 then mp + 3 else mp - 9 in
  let y := if m <=? 2 then y + 1 else y in
  (if y <? 0 then 0 else u32 y, m, d).

Definition civil_of_epoch (epoch : Z) : civil :=
  let sec_of_day := epoch mod 86400 in
  let '(y, m, d) := civil_of_days (epoch / 86400) in
  mkCivil y m d (sec_of_day / 3600) ((sec_of_day mod 3600) / 60) (sec_of_day mod 60).

Definition two (n : Z) : list Z := [48 + n / 10; 48 + n mod 10].

(** What one conversion of the format prints. *)
Definition epoch_field (t : civil) (c : Z) : list Z :=
  if c =? 89 then [48 + (yr t / 1000) mod 10; 48 + (yr t / 100) mod 10;
                   48 + (yr t / 10) mod 10; 48 + yr t mod 10]
  else if c =? 121 then [48 + (yr t / 10) mod 10; 48 + yr t mod 10]
  else if c =? 109 then two (mon t)
  else if c =? 98 then
    nth (Z.to_nat (if (1 <=? mon t) && (mon t <=? 12) then mon t else 0)) month_abbr []
  else if c =? 100 then two (day t)
  else if c =? 72 then two (hh t)
  else if c =? 77 then two (mm t)
  else if c =? 83 then two (ss t)
  else [37].

(** [pString[pos++] = c] for the characters of [cs]. *)
Fixpoint put_chars (p : list Z) (pos : Z) (cs : list Z) : option (list Z * Z) :=
  match cs with
  | [] => Some (p, pos)
  | c :: cs => p <- mset p pos (u8 c);; put_chars p (u8 (pos + 1)) cs
  end.

Definition known_field (c : Z) : bool :=
  existsb (Z.eqb c) [89; 121; 109; 98; 100; 72; 77; 83; 37].

(** The formatting loop. *)
Fixpoint epoch_loop (t : civil) (maxlen : Z) (fmt : list Z) (p : list Z) (pos : Z)
  : option (list Z * Z) :=
  match fmt with
  | [] => None
  | f :: fmt =>
      if negb (f =? 0) && (u8 (pos + 1) <? maxlen) then
        if f =? 37 then
          match fmt with
          | [] => None
          | c :: fmt' =>
              if c =? 0 then
                '(p, pos) <- put_chars p pos [f];; epoch_loop t maxlen fmt p pos
              else
                '(p, pos) <- put_chars p pos (epoch_field t c);;
                '(p, pos) <- (if negb (known_field c) && (u8 (pos + 1) <? maxlen)
                              then put_chars p pos [c] else Some (p, pos));;
                epoch_loop t maxlen fmt' p pos
          end
        else '(p, pos) <- put_chars p pos [f];; epoch_loop t maxlen fmt p pos
      else Some (p, pos)
  end.

(** ["%Y-%m-%d %H:%M:%S"] *)
Definition default_fmt : list Z :=
  [37; 89; 45; 37; 109; 45; 37; 100; 32; 37; 72; 58; 37; 77; 58; 37; 83; 0].

Fixpoint dash_loop (n : nat) (p : list Z) (i : Z) : option (list Z) :=
  match n with
  | O => Some p
  | S n => p <- mset p i 32;; dash_loop n p (i + 1)
  end.

(** [EpochToDateTimeString] *)
Definition EpochToDateTimeString (epoch : Z) (pString : option (list Z)) (maxlen : Z)
    (fmt : option (list Z)) : option (option (list Z)) :=
  match pString with
  | None => Some None
  | Some p =>
      if maxlen =? 0 then Some (Some p)
      else
        let fmt := default default_fmt fmt in
        p <- mfill p 0 0 maxlen;;
        width <- EpochFmtWidth fmt 0;;
        if epoch =? 0 then
          let n := if maxlen - 1 <? width then maxlen - 1 else width in
          if n >? 0 then
            p <- mset p 0 45;;
            p <- dash_loop (Z.to_nat (n - 1)) p 1;;
            Some (Some p)
          else Some (Some p)
        else if maxlen <=? width then
          p <- mset p 0 0;; Some (Some p)
        else
          '(p, pos) <- epoch_loop (civil_of_epoch epoch) maxlen fmt p 0;;
          p <- mset p pos 0;;
          Some (Some p)
  end.

(** *** Digit counts *)

Definition count_pos32 (x : Z) : Z :=
  if x >=? 10000 then
    if x >=? 10000000 then
      if x >=? 100000000 then
        if x >=? 1000000000 then 10 else 9
      else 8
    else if x >=? 100000 then
      if x >=? 1000000 then 7 else 6
    else 5
  else if x >=? 100 then
    if x >=? 1000 then 4 else 3
  else if x >=? 10 then 2 else 1.

Definition Int32DigitCount (x : Z) : Z :=
  if x =? -2147483648 then 10 + 1
  else if x <? 0 then u8 (count_pos32 (- x) + 1)
  else count_pos32 x.

Definition count_pos64 (x : Z) : Z :=
  if x >=? 10000000000 then
    if x >=? 100000000000000 then
      if x >=? 10000000000000000 then
        if x >=? 100000000000000000 then
          if x >=? 1000000000000000000 then 19 else 18
        else 17
      else if x >=? 1000000000000000 then 16 else 15
    else if x >=? 1000000000000 then
      if x >=? 10000000000000 then 14 else 13
    else if x >=? 100000000000 then 12 else 11
  else if x >=? 100000 then
    if x >=? 10000000 then
      if x >=? 100000000 then
        if x >=? 1000000000 then 10 else 9
      else 8
    else if x >=? 1000000 then 7 else 6
  else if x >=? 100 then
    if x >=? 1000 then
      if x >=? 10000 then 5 else 4
    else 3
  else if x >=? 10 then 2 else 1.

Definition Int64DigitCount (x : Z) : Z :=
  if x =? -9223372036854775808 then 19 + 1
  else if x <? 0 then u8 (count_pos64 (- x) + 1)
  else count_pos64 x.

(** *** Reference: decimal notation *)

(** The number a list of digit characters denotes. *)
Definition dec_value (ds : list Z) : Z := fold_left (fun v c => 10 * v + (c - 48)) ds 0.

Lemma dec_value_snoc ds c : dec_value (ds ++ [c]) = 10 * dec_value ds + (c - 48).
Proof. unfold dec_value. rewrite fold_left_app. done. Qed.

(** [ds] is the decimal notation of [u]: digits without a leading zero. *)
Definition decimal (u : Z) (ds : list Z) : Prop :=
  Forall (fun c => is_digit c = true) ds /\ dec_value ds = u /\
  (ds = [48] \/ hd 0 ds <> 48) /\ ds <> [].

Lemma rev_digits_app digit base n : forall u acc,
  rev_digits digit base n u acc = rev_digits digit base n u [] ++ acc.
Proof.
  induction n as [|n IH]; intros u acc; simpl; [done|].
  destruct (u >? 0); [|done]. rewrite IH, (IH _ [_]), <- app_assoc. done.
Qed.

Lemma is_digit_dec n : 0 <= n < 10 -> is_digit (dec_digit n) = true.
Proof.
  intros H. unfold is_digit, dec_digit.
  destruct (Z.leb_spec 48 (48 + n)), (Z.leb_spec (48 + n) 57); simpl; done || lia.
Qed.

Lemma rev_digits_decimal n : forall u,
  0 < u < 10 ^ Z.of_nat n -> decimal u (rev_digits dec_digit 10 n u []) /\
    (length (rev_digits dec_digit 10 n u []) <= n)%nat.
Proof.
  induction n as [|n IH]; intros u Hu; [simpl in Hu; lia|].
  cbn [rev_digits]. destruct (Z.gtb_spec u 0); [|lia].
  rewrite Nat2Z.inj_succ, Z.pow_succ_r in Hu by lia.
  rewrite rev_digits_app. assert (0 <= u mod 10 < 10) as Hm by div_lia.
  destruct (Z.eq_dec (u / 10) 0) as [E|E].
  - rewrite E. replace (rev_digits dec_digit 10 n 0 []) with (@nil Z) by (by destruct n).
    assert (u mod 10 = u) as Eu by div_lia. rewrite Eu. simpl. split; [|lia].
    split; [constructor; [by apply is_digit_dec; lia|done]|].
    unfold dec_value, dec_digit. simpl. split_and!; try done; [lia|right; lia].
  - destruct (IH (u / 10)) as [(Hd & Hv & Hz & Hn) Hl]; [div_lia|].
    split; [|rewrite length_app; simpl; lia]. split; [apply Forall_app; split; [done|]|].
    { constructor; [by apply is_digit_dec|done]. }
    rewrite dec_value_snoc, Hv. split; [unfold dec_digit; div_lia|].
    split; [|intros En; by apply app_eq_nil in En as [_ ?]].
    destruct (rev_digits dec_digit 10 n (u / 10) []) as [|c ds] eqn:Ed; [done|].
    right. simpl. destruct Hz as [Hz|Hz]; [|done]. injection Hz as -> ->.
    exfalso. apply E. unfold dec_value in Hv. simpl in Hv. lia.
Qed.

Lemma tmp_digits_decimal n u :
  0 <= u < 10 ^ Z.of_nat n -> (0 < n)%nat ->
  decimal u (tmp_digits dec_digit 10 n u) /\ (length (tmp_digits dec_digit 10 n u) <= n)%nat.
Proof.
  intros Hu Hn. unfold tmp_digits. destruct (Z.eqb_spec u 0) as [->|].
  - split; [|simpl; lia]. split_and!; try done; [by repeat constructor|by left].
  - apply rev_digits_decimal. lia.
Qed.

(** *** What the printing functions leave in the buffer *)

Definition zeros (n : Z) : list Z := replicate (Z.to_nat n) 0.
Definition blanks (n : Z) : list Z := replicate (Z.to_nat n) 32.

Lemma pad_loop_spec n : forall a k rest padmax maxlen,
  zlen a + k = maxlen -> 1 <= k -> k <= Z.of_nat n ->
  let j := Z.max 0 (Z.min padmax (maxlen - 1) - zlen a) in
  pad_loop n (a ++ zeros k ++ rest) (zlen a) padmax maxlen =
    Some (a ++ blanks j ++ zeros (k - j) ++ rest).
Proof.
  induction n as [|n IH]; intros a k rest padmax maxlen E Hk Hn j; [lia|].
  cbn [pad_loop].
  destruct (Z.ltb_spec (zlen a) padmax), (Z.ltb_spec (zlen a) (maxlen - 1)); simpl;
    try (unfold j; replace (Z.max 0 _) with 0 by lia; rewrite Z.sub_0_r; done).
  unfold zeros at 1. replace (Z.to_nat k) with (S (Z.to_nat (k - 1))) by lia.
  cbn [replicate app]. rewrite mset_app_mid.
  pose proof (IH (a ++ [32]) (k - 1) rest padmax maxlen) as IH'.
  rewrite <- !app_assoc, zlen_app in IH'. change (zlen [32]) with 1 in IH'. cbn [app] in IH'.
  fold (zeros (k - 1)). rewrite IH' by lia. rewrite <- app_assoc. do 2 f_equal.
  set (j' := Z.max 0 (Z.min padmax (maxlen - 1) - (zlen a + 1))).
  assert (j = 1 + j') as Ej by lia.
  unfold blanks. rewrite Ej, Z2Nat.inj_add by lia. simpl. do 4 f_equal. lia.
Qed.

(** The buffer after printing [tmp]: the text, cut to leave room for the
    terminator, blanks up to [padmax], the terminator, and the rest of the
    buffer untouched. *)
Definition printed (p : list Z) (maxlen padmax : Z) (tmp : list Z) : list Z :=
  let t := take (Z.to_nat (maxlen - 1)) tmp in
  let j := Z.max 0 (Z.min padmax (maxlen - 1) - zlen t) in
  t ++ blanks j ++ zeros (maxlen - zlen t - j) ++ drop (Z.to_nat maxlen) p.

Lemma print_tmp_spec p maxlen padmax tmp :
  1 <= maxlen <= zlen p ->
  print_tmp (Some p) maxlen padmax tmp = Some (Some (printed p maxlen padmax tmp)).
Proof.
  intros Hm. unfold print_tmp. destruct (Z.eqb_spec maxlen 0); [lia|].
  rewrite mfill_0 by lia.
  set (t := take (Z.to_nat (maxlen - 1)) tmp).
  assert (take (Z.to_nat (if zlen tmp >? maxlen - 1 then maxlen - 1 else zlen tmp)) tmp = t
    /\ (if zlen tmp >? maxlen - 1 then maxlen - 1 else zlen tmp) = zlen t /\ zlen t <= maxlen - 1)
    as (-> & -> & Ht).
  { unfold t, zlen in *. rewrite length_take.
    destruct (Z.gtb_spec (Z.of_nat (length tmp)) (maxlen - 1)); split_and!; try done; try lia.
    rewrite Nat2Z.id, !take_ge by lia. done. }
  pose proof (zlen_nonneg t).
  assert (replicate (Z.to_nat maxlen) 0 = zeros (zlen t) ++ zeros (maxlen - zlen t)) as ->.
  { unfold zeros. rewrite <- replicate_add. f_equal. lia. }
  rewrite <- app_assoc.
  rewrite mcpy_0 by (unfold zeros; rewrite zlen_replicate; lia).
  rewrite pad_loop_spec by lia. done.
Qed.

(** *** Parsing *)

Lemma skip_pads f ds : forall n len c rest,
  Forall (fun c => f c = true) ds -> f c = false -> 0 <= n -> n + zlen ds <= len -> len < 256 ->
  skip_while f (ds ++ c :: rest) n len = Some (c :: rest, n + zlen ds).
Proof.
  induction ds as [|d ds IH]; intros n len c rest Hd Hc Hn Hl H256; simpl.
  - rewrite Hc. simpl. change (zlen (@nil Z)) with 0. rewrite Z.add_0_r. done.
  - apply Forall_cons_iff in Hd as [Hd1 Hd]. rewrite zlen_cons in *. pose proof (zlen_nonneg ds).
    rewrite Hd1. destruct (Z.ltb_spec n len); [|lia]. simpl.
    rewrite u8_small by lia. rewrite IH by (done || lia). do 2 f_equal. lia.
Qed.

Lemma digits_loop_spec wrap M ds : forall n len v c rest,
  (forall x, wrap x = x mod M) -> 0 < M ->
  Forall (fun c => is_digit c = true) ds -> is_digit c = false ->
  0 <= n -> n + zlen ds <= len -> len < 256 ->
  digits_loop wrap (ds ++ c :: rest) n len (v mod M) =
    Some (fold_left (fun v c => 10 * v + (c - 48)) ds v mod M).
Proof.
  induction ds as [|d ds IH]; intros n len v c rest Hw HM Hd Hc Hn Hl H256; simpl.
  - rewrite Hc. done.
  - apply Forall_cons_iff in Hd as [Hd1 Hd]. rewrite zlen_cons in *. pose proof (zlen_nonneg ds).
    rewrite Hd1. destruct (Z.ltb_spec n len); [|lia]. simpl.
    rewrite u8_small, !Hw by lia.
    rewrite Zplus_mod_idemp_l. rewrite <- Zplus_mod_idemp_l.
    rewrite Zmult_mod_idemp_l, Zplus_mod_idemp_l.
    replace (v * 10 + (d - 48)) with (10 * v + (d - 48)) by lia.
    apply IH; done || lia.
Qed.

Lemma parse_spec wrap M pads ds c rest len :
  (forall x, wrap x = x mod M) -> 0 < M ->
  Forall (fun c => is_pad c = true) pads -> Forall (fun c => is_digit c = true) ds ->
  is_pad (hd c ds) = false -> is_digit c = false ->
  zlen pads + zlen ds <= len < 256 ->
  string_to_uint wrap (Some (pads ++ ds ++ c :: rest)) len = Some (dec_value ds mod M).
Proof.
  intros Hw HM Hp Hd Hh Hc Hl. pose proof (zlen_nonneg pads). pose proof (zlen_nonneg ds).
  unfold string_to_uint.
  assert (exists x l, ds ++ c :: rest = x :: l /\ is_pad x = false) as (x & l & E & Hx)
    by (destruct ds; simpl in *; eauto).
  rewrite E, skip_pads by (done || lia). rewrite <- E.
  pose proof (digits_loop_spec wrap M ds (0 + zlen pads) len 0 c rest) as P.
  rewrite Zmod_0_l in P. apply P; done || lia.
Qed.

(** A decimal text is found by the parsers, with blanks and a terminator behind
    it. *)
Lemma parse_decimal wrap M u ds k z rest len :
  (forall x, wrap x = x mod M) -> 0 <= u < M -> decimal u ds -> 0 <= k -> 1 <= z ->
  zlen ds + k <= len < 256 ->
  string_to_uint wrap (Some (ds ++ blanks k ++ zeros z ++ rest)) len = Some u.
Proof.
  intros Hw Hu (Hd & Hv & Hz & Hn) Hk Hz1 Hl. pose proof (zlen_nonneg ds).
  unfold zeros. replace (Z.to_nat z) with (S (Z.to_nat (z - 1))) by lia. cbn [replicate app].
  set (rest' := replicate _ 0 ++ rest).
  assert (zlen (blanks k) = k) as Eb by (by apply zlen_replicate).
  destruct Hz as [->|Hz].
  - assert (u = 0) as -> by (rewrite <- Hv; done).
    pose proof (parse_spec wrap M (48 :: blanks k) [] 0 rest' len Hw ltac:(lia)) as P.
    cbn [app] in P |- *. apply P; try done.
    + constructor; [done|]. apply Forall_replicate. done.
    + rewrite zlen_cons, Eb. change (zlen [48]) with 1 in Hl. change (zlen (@nil Z)) with 0. lia.
  - destruct ds as [|x ds]; [done|]. simpl in Hz.
    assert (is_pad x = false) as Hx.
    { apply Forall_cons_iff in Hd as [Hx _]. unfold is_digit in Hx.
      apply andb_prop in Hx as [H1 H2]. apply Z.leb_le in H1. apply Z.leb_le in H2. unfold is_pad.
      destruct (Z.eqb_spec x 48), (Z.eqb_spec x 32), (Z.eqb_spec x 34); simpl; done || lia. }
    assert (exists c l, blanks k ++ 0 :: rest' = c :: l /\ is_digit c = false) as (c & l & -> & Hc).
    { unfold blanks. destruct (Z.to_nat k); simpl; eauto. }
    pose proof (parse_spec wrap M [] (x :: ds) c l len Hw ltac:(lia)) as P.
    rewrite <- (Z.mod_small u M) by lia. rewrite <- Hv.
    apply P; try done. change (zlen (@nil Z)) with 0. lia.
Qed.

(** *** The length of a decimal text *)

Lemma dec_value_from ds : forall v,
  fold_left (fun v c => 10 * v + (c - 48)) ds v = v * 10 ^ zlen ds + dec_value ds.
Proof.
  unfold dec_value. induction ds as [|c ds IH]; intros v; cbn [fold_left].
  - change (zlen (@nil Z)) with 0. lia.
  - rewrite IH, (IH (10 * 0 + (c - 48))), zlen_cons, Z.pow_add_r by (pose proof (zlen_nonneg ds); lia). lia.
Qed.

Lemma is_digit_range c : is_digit c = true -> 48 <= c <= 57.
Proof.
  unfold is_digit. intros H. apply andb_prop in H as [H1 H2].
  apply Z.leb_le in H1. apply Z.leb_le in H2. lia.
Qed.

Lemma dec_value_bound ds :
  Forall (fun c => is_digit c = true) ds -> 0 <= dec_value ds < 10 ^ zlen ds.
Proof.
  induction 1 as [|c ds Hc Hd IH]; [by unfold dec_value|].
  apply is_digit_range in Hc. unfold dec_value. cbn [fold_left].
  rewrite dec_value_from, zlen_cons, Z.pow_add_r by (pose proof (zlen_nonneg ds); lia). nia.
Qed.

Lemma decimal_bounds u ds :
  decimal u ds -> 1 <= zlen ds /\ 0 <= u < 10 ^ zlen ds /\
    (ds = [48] /\ u = 0 \/ 10 ^ (zlen ds - 1) <= u).
Proof.
  intros (Hd & <- & Hz & Hn). pose proof (dec_value_bound ds Hd) as Hb.
  destruct ds as [|c ds]; [done|]. rewrite zlen_cons in *. pose proof (zlen_nonneg ds).
  split; [lia|]. split; [done|]. destruct Hz as [Hz|Hz]; [by left; rewrite Hz|right].
  apply Forall_cons_iff in Hd as [Hc Hd]. apply is_digit_range in Hc. simpl in Hz.
  pose proof (dec_value_bound ds Hd). unfold dec_value. cbn [fold_left]. rewrite dec_value_from.
  replace (1 + zlen ds - 1) with (zlen ds) by lia.
  assert (0 < 10 ^ zlen ds) by (apply Z.pow_pos_nonneg; lia). nia.
Qed.

(** A bracket of [u] by powers of ten gives the number of its digits. *)
Lemma decimal_len u ds k :
  decimal u ds -> 1 <= k -> u < 10 ^ k -> (u = 0 /\ k = 1 \/ 10 ^ (k - 1) <= u) -> zlen ds = k.
Proof.
  intros Hd Hk Hu Hl. destruct (decimal_bounds _ _ Hd) as (H1 & H2 & H3).
  destruct H3 as [[-> H3]|H3].
  - destruct Hl as [[_ ->]|Hl]; [done|]. assert (0 < 10 ^ (k - 1)) by (apply Z.pow_pos_nonneg; lia). lia.
  - assert (zlen ds - 1 < k) by (apply (Z.pow_lt_mono_r_iff 10); lia).
    destruct Hl as [[-> ->]|Hl].
    + assert (0 < 10 ^ (zlen ds - 1)) by (apply Z.pow_pos_nonneg; lia). lia.
    + assert (k - 1 < zlen ds) by (apply (Z.pow_lt_mono_r_iff 10); lia). lia.
Qed.

Ltac count_cases :=
  repeat match goal with |- context [?x >=? ?y] => destruct (Z.geb_spec x y) end;
  change (10 ^ 1) with 10; simpl Z.sub; simpl Z.pow; lia.

Lemma count_pos32_spec x : 0 <= x < 2 ^ 31 ->
  1 <= count_pos32 x <= 10 /\ x < 10 ^ count_pos32 x /\
  (x = 0 /\ count_pos32 x = 1 \/ 10 ^ (count_pos32 x - 1) <= x).
Proof. intros H. change (2 ^ 31) with 2147483648 in H. unfold count_pos32. count_cases. Qed.

Lemma count_pos64_spec x : 0 <= x < 2 ^ 63 ->
  1 <= count_pos64 x <= 19 /\ x < 10 ^ count_pos64 x /\
  (x = 0 /\ count_pos64 x = 1 \/ 10 ^ (count_pos64 x - 1) <= x).
Proof. intros H. change (2 ^ 63) with 9223372036854775808 in H. unfold count_pos64. count_cases. Qed.

(** *** Properties *)

Lemma signed_tmp_spec size neg u k :
  decimal u (tmp_digits dec_digit 10 size u) ->
  1 <= k < Z.of_nat size -> u < 10 ^ k -> (u = 0 /\ k = 1 \/ 10 ^ (k - 1) <= u) ->
  exists ds, decimal u ds /\ zlen ds = k /\
    signed_tmp size neg u = (if neg then 45 :: ds else ds).
Proof.
  intros Hd Hk Hu Hl. exists (tmp_digits dec_digit 10 size u).
  pose proof (decimal_len _ _ k Hd ltac:(lia) Hu Hl) as E. split; [done|]. split; [done|].
  unfold signed_tmp. rewrite E.
  destruct neg; [|done]. simpl. destruct (Z.ltb_spec k (Z.of_nat size)); [done|lia].
Qed.

(** The text of a signed number. *)
Definition int_text (v : Z) (t : list Z) : Prop :=
  exists ds, decimal (Z.abs v) ds /\ t = if v <? 0 then 45 :: ds else ds.

Lemma int32_text_spec v :
  -2147483648 <= v <= 2147483647 ->
  let u := if v =? -2147483648 then 2147483648
           else if v <? 0 then u32 (- v) else u32 v in
  int_text v (signed_tmp 12 (v <? 0) u) /\
  zlen (signed_tmp 12 (v <? 0) u) = Int32DigitCount v.
Proof.
  intros Hv u. assert (u = Z.abs v) as ->.
  { unfold u. destruct (Z.eqb_spec v (-2147483648)) as [->|]; [done|].
    destruct (Z.ltb_spec v 0); rewrite u32_small; lia. }
  destruct (tmp_digits_decimal 12 (Z.abs v)) as [Hd _]; [change (10 ^ Z.of_nat 12) with 1000000000000; lia|lia|].
  assert (exists k, 1 <= k <= 10 /\ Z.abs v < 10 ^ k /\
    (Z.abs v = 0 /\ k = 1 \/ 10 ^ (k - 1) <= Z.abs v) /\
    Int32DigitCount v = (if v <? 0 then k + 1 else k)) as (k & Hk & Hu & Hl & Ec).
  { unfold Int32DigitCount. destruct (Z.eqb_spec v (-2147483648)) as [->|].
    - exists 10. simpl. split_and!; try done; lia.
    - destruct (count_pos32_spec (Z.abs v)) as (H1 & H2 & H3); [change (2 ^ 31) with 2147483648; lia|].
      exists (count_pos32 (Z.abs v)). split_and!; try done; try lia.
      destruct (Z.ltb_spec v 0); [|by rewrite Z.abs_eq by lia].
      rewrite Z.abs_neq by lia. rewrite Z.abs_neq in H1 by lia. rewrite u8_small; lia. }
  destruct (signed_tmp_spec 12 (v <? 0) _ k Hd) as (ds & Hds & Hz & ->); [lia|done..|].
  rewrite Ec. split; [by exists ds|]. destruct (v <? 0); rewrite ?zlen_cons; lia.
Qed.

Lemma int64_text_spec v :
  -9223372036854775808 <= v <= 9223372036854775807 ->
  let u := if v =? -9223372036854775808 then 9223372036854775808
           else if v <? 0 then u64 (- v) else u64 v in
  int_text v (signed_tmp 21 (v <? 0) u) /\
  zlen (signed_tmp 21 (v <? 0) u) = Int64DigitCount v.
Proof.
  intros Hv u. assert (u = Z.abs v) as ->.
  { unfold u. destruct (Z.eqb_spec v (-9223372036854775808)) as [->|]; [done|].
    destruct (Z.ltb_spec v 0); rewrite u64_small; lia. }
  destruct (tmp_digits_decimal 21 (Z.abs v)) as [Hd _];
    [change (10 ^ Z.of_nat 21) with 1000000000000000000000; lia|lia|].
  assert (exists k, 1 <= k <= 19 /\ Z.abs v < 10 ^ k /\
    (Z.abs v = 0 /\ k = 1 \/ 10 ^ (k - 1) <= Z.abs v) /\
    Int64DigitCount v = (if v <? 0 then k + 1 else k)) as (k & Hk & Hu & Hl & Ec).
  { unfold Int64DigitCount. destruct (Z.eqb_spec v (-9223372036854775808)) as [->|].
    - exists 19. simpl. split_and!; try done; lia.
    - destruct (count_pos64_spec (Z.abs v)) as (H1 & H2 & H3);
        [change (2 ^ 63) with 9223372036854775808; lia|].
      exists (count_pos64 (Z.abs v)). split_and!; try done; try lia.
      destruct (Z.ltb_spec v 0); [|by rewrite Z.abs_eq by lia].
      rewrite Z.abs_neq by lia. rewrite Z.abs_neq in H1 by lia. rewrite u8_small; lia. }
  destruct (signed_tmp_spec 21 (v <? 0) _ k Hd) as (ds & Hds & Hz & ->); [lia|done..|].
  rewrite Ec. split; [by exists ds|]. destruct (v <? 0); rewrite ?zlen_cons; lia.
Qed.

(** [Int32ToString] and [Int64ToString] write the decimal notation of every
    number of their type, the smallest included, of exactly the length
    [Int32DigitCount] and [Int64DigitCount] announce, then blanks up to
    [_padmax] and a terminator; they cut the text to [_maxlen - 1] characters
    and touch nothing behind [_maxlen]. *)
Theorem int_to_string_correct v p maxlen padmax :
  1 <= maxlen <= zlen p ->
  (-2147483648 <= v <= 2147483647 ->
   exists t, int_text v t /\ zlen t = Int32DigitCount v /\
     Int32ToString v (Some p) maxlen padmax = Some (Some (printed p maxlen padmax t))) /\
  (-9223372036854775808 <= v <= 9223372036854775807 ->
   exists t, int_text v t /\ zlen t = Int64DigitCount v /\
     Int64ToString v (Some p) maxlen padmax = Some (Some (printed p maxlen padmax t))).
Proof.
  intros Hm. split; intros Hv.
  - destruct (int32_text_spec v Hv) as [Ht Hz]. eexists. split; [exact Ht|]. split; [done|].
    by apply print_tmp_spec.
  - destruct (int64_text_spec v Hv) as [Ht Hz]. eexists. split; [exact Ht|]. split; [done|].
    by apply print_tmp_spec.
Qed.

Lemma int_to_string_correct_witness :
  exists t, int_text (-2147483648) t /\ zlen t = 11 /\
    Int32ToString (-2147483648) (Some (replicate 14 7)) 13 0 =
      Some (Some (printed (replicate 14 7) 13 0 t)).
Proof.
  destruct (int_to_string_correct (-2147483648) (replicate 14 7) 13 0) as [H _];
    [vm_compute; split; discriminate|].
  destruct H as (t & H1 & H2 & H3); [lia|]. exists t. split; [exact H1|]. split; [exact H2|exact H3].
Defined.

Lemma tmp_digits_u32 v : 0 <= v < 4294967296 ->
  decimal v (tmp_digits dec_digit 10 11 v) /\ zlen (tmp_digits dec_digit 10 11 v) <= 10.
Proof.
  intros Hv. destruct (tmp_digits_decimal 11 v) as [Hd _];
    [change (10 ^ Z.of_nat 11) with 100000000000; lia|lia|]. split; [done|].
  destruct (decimal_bounds _ _ Hd) as (H1 & H2 & [[-> _]|H3]); [done|].
  assert (zlen (tmp_digits dec_digit 10 11 v) - 1 < 10); [|lia].
  apply (Z.pow_lt_mono_r_iff 10); [lia..|]. change (10 ^ 10) with 10000000000. lia.
Qed.

(** what [Uint32ToString] prints, [StringToUint32] reads back, for every
    32-bit number, every padding and every buffer of at least 11 bytes. *)
Theorem uint32_text_roundtrip v p maxlen padmax :
  0 <= v < 4294967296 -> 11 <= maxlen < 256 -> maxlen <= zlen p -> 0 <= padmax ->
  exists p', Uint32ToString v (Some p) maxlen padmax = Some (Some p') /\
    StringToUint32 (Some p') maxlen = Some v.
Proof.
  intros Hv Hm Hp Hpad. destruct (tmp_digits_u32 v Hv) as [Hd Hz].
  eexists. split; [apply print_tmp_spec; lia|]. unfold printed, StringToUint32.
  rewrite take_ge by (unfold zlen in Hz; lia).
  destruct (decimal_bounds _ _ Hd) as (H1 & _).
  apply (parse_decimal u32 4294967296); try done; lia.
Qed.

Lemma uint32_text_roundtrip_witness :
  exists p', Uint32ToString 4294967295 (Some (replicate 11 0)) 11 20 = Some (Some p') /\
    StringToUint32 (Some p') 11 = Some 4294967295.
Proof.
  exact (uint32_text_roundtrip 4294967295 (replicate 11 0) 11 20 ltac:(lia) ltac:(lia)
    ltac:(vm_compute; discriminate) ltac:(lia)).
Defined.

(** the four decimal parsers skip blanks, quotes and zeros and return the
    number the following digits denote modulo 2^64, 2^32, 2^16 and 2^8, as
    long as text and digits end within [_len] characters. *)
Theorem decimal_parsers pads ds c rest len :
  Forall (fun c => is_pad c = true) pads -> Forall (fun c => is_digit c = true) ds ->
  is_pad (hd c ds) = false -> is_digit c = false -> zlen pads + zlen ds <= len < 256 ->
  let s := Some (pads ++ ds ++ c :: rest) in
  StringToUint64 s len = Some (dec_value ds mod 2 ^ 64) /\
  StringToUint32 s len = Some (dec_value ds mod 2 ^ 32) /\
  StringToUint16 s len = Some (dec_value ds mod 2 ^ 16) /\
  StringToUint8 s len = Some (dec_value ds mod 2 ^ 8).
Proof. intros. split_and!; by apply parse_spec. Qed.

Lemma decimal_parsers_witness :
  StringToUint8 (Some [32; 34; 48; 51; 48; 48; 46; 9]) 7 = Some 44.
Proof.
  exact (proj2 (proj2 (proj2 (decimal_parsers [32; 34; 48] [51; 48; 48] 46 [9] 7
    ltac:(repeat constructor) ltac:(repeat constructor) eq_refl eq_refl ltac:(vm_compute; split; [discriminate|done]))))).
Defined.

(** *** The calendar *)

Definition leap (y : Z) : bool :=
  ((y mod 4 =? 0) && negb (y mod 100 =? 0)) || (y mod 400 =? 0).

Definition month_days (lp : bool) (m : Z) : Z :=
  if m =? 2 then (if lp then 29 else 28)
  else if (m =? 4) || (m =? 6) || (m =? 9) || (m =? 11) then 30 else 31.

Definition next_day_in (lp : bool) (t : Z * Z * Z) : Z * Z * Z :=
  let '(y, m, d) := t in
  if d <? month_days lp m then (y, m, d + 1)
  else if m <? 12 then (y, m + 1, 1) else (y + 1, 1, 1).

(** The day after [t] in the Gregorian calendar. *)
Definition next_day (t : Z * Z * Z) : Z * Z * Z := next_day_in (leap t.1.1) t.

(** The date of day [q] of the year that starts on 1 March of [y]. *)
Definition march_date (y q : Z) : Z * Z * Z :=
  let mp := (5 * q + 2) / 153 in
  let m := if mp <? 10 then mp + 3 else mp - 9 in
  (if m <=? 2 then y + 1 else y, m, q - (153 * mp + 2) / 5 + 1).

(** Day number of 1 March of year [y] of an era, and the length of the year. *)
Definition year_start (y : Z) : Z := 365 * y + y / 4 - y / 100.
Definition year_len (y : Z) : Z := if leap (y + 1) then 366 else 365.
Definition year_of (doe : Z) : Z := (doe - doe / 1460 + doe / 36524 - doe / 146096) / 365.

Lemma year_of_mono a b : 0 <= a <= b -> b <= 146096 -> year_of a <= year_of b.
Proof.
  intros H Hb. apply Z.div_le_mono; [lia|].
  assert (forall n : nat, a + Z.of_nat n <= 146096 ->
    a - a / 1460 + a / 36524 - a / 146096 <=
    (a + Z.of_nat n) - (a + Z.of_nat n) / 1460 + (a + Z.of_nat n) / 36524 - (a + Z.of_nat n) / 146096) as Hn.
  { induction n as [|n IH]; intros Hle; [rewrite Z.add_0_r; lia|].
    etransitivity; [apply IH; lia|]. rewrite Nat2Z.inj_succ.
    set (x := a + Z.of_nat n). replace (a + Z.succ (Z.of_nat n)) with (x + 1) by lia.
    assert (0 <= x < 146096) as Hx by lia. clearbody x. clear - Hx. div_lia. }
  specialize (Hn (Z.to_nat (b - a))). rewrite Z2Nat.id in Hn by lia.
  replace (a + (b - a)) with b in Hn by lia. apply Hn. lia.
Qed.

Lemma year_of_ends y : 0 <= y < 400 ->
  year_of (year_start y) = y /\ year_of (year_start y + year_len y - 1) = y /\
  year_start (y + 1) = year_start y + year_len y - (if y =? 399 then 1 else 0).
Proof.
  intros H.
  pose proof (forall_below (fun y => (year_of (year_start y) =? y)
    && (year_of (year_start y + year_len y - 1) =? y)
    && (year_start (y + 1) =? year_start y + year_len y - (if y =? 399 then 1 else 0))) 400
    ltac:(vm_compute; done) y H) as E. simpl in E.
  apply andb_prop in E as [E E3]. apply andb_prop in E as [E1 E2].
  split_and!; by apply Z.eqb_eq.
Qed.

Lemma year_start_mono a b : a <= b -> year_start a <= year_start b.
Proof. intros H. unfold year_start. div_lia. Qed.

(** Every day of an era has its year and its day in the year. *)
Lemma doe_split doe : 0 <= doe <= 146096 ->
  let y := year_of doe in
  0 <= y < 400 /\ 0 <= doe - year_start y < year_len y.
Proof.
  intros H y.
  assert (0 <= y < 400) as Hy.
  { pose proof (year_of_mono 0 doe ltac:(lia) ltac:(lia)).
    pose proof (year_of_mono doe 146096 ltac:(lia) ltac:(lia)).
    change (year_of 0) with 0 in *. change (year_of 146096) with 399 in *. lia. }
  split; [done|]. destruct (year_of_ends y Hy) as (_ & E2 & E3). split.
  - destruct (Z.le_gt_cases (year_start y) doe) as [|Hlt]; [lia|].
    destruct (Z.eq_dec y 0) as [E0|E0]; [rewrite E0 in Hlt; change (year_start 0) with 0 in Hlt; lia|].
    destruct (year_of_ends (y - 1) ltac:(lia)) as (_ & F2 & F3).
    replace (y - 1 + 1) with y in F3 by lia.
    destruct (Z.eqb_spec (y - 1) 399); [lia|].
    assert (year_start y <= 146096).
    { etransitivity; [apply (year_start_mono y 399); lia|]. vm_compute. discriminate. }
    pose proof (year_of_mono doe (year_start (y - 1) + year_len (y - 1) - 1) ltac:(lia) ltac:(lia)).
    fold y in H1. lia.
  - destruct (Z.le_gt_cases (year_start y + year_len y) doe) as [Hge|]; [|lia].
    destruct (Z.eq_dec y 399) as [E0|E0].
    { rewrite E0 in Hge. change (year_start 399 + year_len 399) with 146097 in Hge. lia. }
    destruct (year_of_ends (y + 1) ltac:(lia)) as (F1 & _ & _).
    destruct (Z.eqb_spec y 399); [lia|].
    pose proof (year_of_mono (year_start (y + 1)) doe) as Hm.
    assert (0 <= year_start (y + 1)) by (change 0 with (year_start 0); apply year_start_mono; lia).
    specialize (Hm ltac:(lia) ltac:(lia)). fold y in Hm. lia.
Qed.

(** The date arithmetic of the source in terms of eras, years and days. *)
Lemma civil_of_days_march n : 0 <= n < 1000000 ->
  let z := n + 719468 in
  let y := year_of (z mod 146097) in
  civil_of_days n = march_date (z / 146097 * 400 + y) (z mod 146097 - year_start y) /\
  0 <= y < 400 /\ 0 <= z mod 146097 - year_start y < year_len y.
Proof.
  intros Hn z y.
  assert (0 <= z mod 146097 <= 146096) as Hd by div_lia.
  destruct (doe_split _ Hd) as [Hy Hq]. fold y in Hy, Hq. split; [|done].
  assert (year_len y <= 366) by (unfold year_len; destruct (leap _); lia).
  unfold civil_of_days. rewrite (i32_small n) by lia. fold z.
  destruct (Z.geb_spec z 0); [|lia].
  rewrite Z.quot_div_nonneg by lia.
  replace (z - z / 146097 * 146097) with (z mod 146097) by div_lia.
  set (doe := z mod 146097) in *.
  rewrite (u32_small doe) by lia.
  assert (0 <= doe - doe / 1460 + doe / 36524 - doe / 146096 < 4294967296) as Hy0 by div_lia.
  rewrite (u32_small _ Hy0). change ((doe - doe / 1460 + doe / 36524 - doe / 146096) / 365) with y.
  change (365 * y + y / 4 - y / 100) with (year_start y).
  rewrite (i32_small y), (u32_small (doe - year_start y)) by lia.
  set (q := doe - year_start y) in *. unfold march_date. set (mp := (5 * q + 2) / 153).
  assert (0 <= mp <= 11) by (unfold mp; div_lia).
  assert (0 <= q - (153 * mp + 2) / 5 + 1 < 400) by (unfold mp; div_lia).
  rewrite (u32_small (q - (153 * mp + 2) / 5 + 1)) by lia.
  assert (0 <= z / 146097 < 20) by div_lia.
  set (m := if mp <? 10 then mp + 3 else mp - 9).
  destruct (m <=? 2).
  - destruct (Z.ltb_spec (y + z / 146097 * 400 + 1) 0); [lia|]. rewrite u32_small by lia.
    do 2 f_equal. lia.
  - destruct (Z.ltb_spec (y + z / 146097 * 400) 0); [lia|]. rewrite u32_small by lia.
    do 2 f_equal. lia.
Qed.

Definition eq3 (a b : Z * Z * Z) : bool :=
  (a.1.1 =? b.1.1) && (a.1.2 =? b.1.2) && (a.2 =? b.2).

Lemma eq3_eq a b : eq3 a b = true -> a = b.
Proof.
  destruct a as [[? ?] ?], b as [[? ?] ?]. unfold eq3. simpl. intros H.
  apply andb_prop in H as [H H3]. apply andb_prop in H as [H1 H2].
  f_equal; [f_equal|]; by apply Z.eqb_eq.
Qed.

Lemma march_date_shift y q :
  march_date y q = (y + (march_date 0 q).1.1, (march_date 0 q).1.2, (march_date 0 q).2).
Proof. unfold march_date. simpl. destruct (_ <=? 2); do 2 f_equal; lia. Qed.

Lemma next_day_in_shift lp y (t : Z * Z * Z) :
  next_day_in lp (y + t.1.1, t.1.2, t.2) =
  let t' := next_day_in lp t in (y + t'.1.1, t'.1.2, t'.2).
Proof.
  destruct t as [[a m] d]. simpl. destruct (d <? _); [done|].
  destruct (m <? 12); simpl; [done|]. do 2 f_equal. lia.
Qed.

(** Inside a year that starts in March, the next day is the next date. *)
Lemma march_date_next (lp : bool) y q : 0 <= q -> q + 1 < (if lp then 366 else 365) ->
  march_date y (q + 1) = next_day_in lp (march_date y q).
Proof.
  intros H0 H1. rewrite march_date_shift, (march_date_shift y q), next_day_in_shift. cbv zeta.
  assert (march_date 0 (q + 1) = next_day_in lp (march_date 0 q)) as ->; [|done].
  apply eq3_eq. destruct lp.
  - apply (forall_below (fun q => eq3 (march_date 0 (q + 1)) (next_day_in true (march_date 0 q))) 365);
      [vm_compute; done|lia].
  - apply (forall_below (fun q => eq3 (march_date 0 (q + 1)) (next_day_in false (march_date 0 q))) 364);
      [vm_compute; done|lia].
Qed.

(** The last day of February and 1 March. *)
Lemma march_date_last (lp : bool) y :
  march_date (y + 1) 0 = next_day_in lp (march_date y (if lp then 365 else 364)).
Proof. destruct lp; reflexivity. Qed.

(** The leap rule for the year in which February ends the March year [y]. *)
Lemma march_date_leap (lp : bool) c y q :
  0 <= q -> q + 1 <= (if lp then 366 else 365) -> lp = leap (c * 400 + y + 1) ->
  next_day (march_date (c * 400 + y) q) = next_day_in lp (march_date (c * 400 + y) q).
Proof.
  intros H0 H1 E. unfold next_day. set (Y := c * 400 + y) in *.
  assert (month_days (leap (march_date Y q).1.1) (march_date Y q).1.2 =
          month_days lp (march_date Y q).1.2) as Hm.
  { unfold march_date. simpl. set (m := if _ <? 10 then _ else _).
    unfold month_days. destruct (Z.eqb_spec m 2) as [->|]; [simpl; by rewrite E|done]. }
  destruct (march_date Y q) as [[a m] d]. simpl in *. rewrite Hm. done.
Qed.

Lemma leap_era c y : leap (c * 400 + y) = leap y.
Proof.
  unfold leap. f_equal; [f_equal; [|f_equal]|]; f_equal.
  - replace (c * 400 + y) with (y + c * 100 * 4) by lia. apply Z_mod_plus_full.
  - replace (c * 400 + y) with (y + c * 4 * 100) by lia. apply Z_mod_plus_full.
  - replace (c * 400 + y) with (y + c * 400) by lia. apply Z_mod_plus_full.
Qed.

Lemma year_of_within y q : 0 <= y < 400 -> 0 <= q < year_len y -> year_start y + q <= 146096 ->
  year_of (year_start y + q) = y.
Proof.
  intros Hy Hq Hd. destruct (year_of_ends y Hy) as (E1 & E2 & E3).
  assert (0 <= year_start y) by (change 0 with (year_start 0); apply year_start_mono; lia).
  pose proof (year_of_mono (year_start y) (year_start y + q) ltac:(lia) ltac:(lia)).
  assert (year_start y + year_len y - 1 <= 146096).
  { destruct (Z.eq_dec y 399) as [->|]; [vm_compute; discriminate|].
    destruct (Z.eqb_spec y 399); [done|].
    pose proof (year_start_mono (y + 1) 399 ltac:(lia)). change (year_start 399) with 145731 in *. lia. }
  pose proof (year_of_mono (year_start y + q) (year_start y + year_len y - 1) ltac:(lia) ltac:(lia)).
  lia.
Qed.

Lemma civil_next n : 0 <= n < 999999 -> civil_of_days (n + 1) = next_day (civil_of_days n).
Proof.
  intros Hn. destruct (civil_of_days_march n ltac:(lia)) as (-> & Hy & Hq).
  destruct (civil_of_days_march (n + 1) ltac:(lia)) as (-> & _ & _).
  set (z := n + 719468) in *. replace (n + 1 + 719468) with (z + 1) by lia.
  set (y := year_of (z mod 146097)) in *. set (q := z mod 146097 - year_start y) in *.
  assert (z mod 146097 = year_start y + q) as Ez by lia.
  set (lp := leap (z / 146097 * 400 + y + 1)).
  assert (year_len y = if lp then 366 else 365) as El.
  { unfold year_len, lp. replace (z / 146097 * 400 + y + 1) with (z / 146097 * 400 + (y + 1)) by lia.
    by rewrite leap_era. }
  rewrite (march_date_leap lp) by (done || lia).
  destruct (year_of_ends y Hy) as (_ & _ & E3).
  destruct (Z.eq_dec (q + 1) (year_len y)) as [Eq|Eq].
  - assert (q = if lp then 365 else 364) as Eq' by (destruct lp; lia).
    rewrite Eq', <- march_date_last. destruct (Z.eqb_spec y 399) as [E9|E9].
    + assert (z mod 146097 = 146096) as Em.
      { rewrite Ez, E9. replace q with (year_len y - 1) by lia. rewrite E9. done. }
      assert ((z + 1) mod 146097 = 0 /\ (z + 1) / 146097 = z / 146097 + 1) as [-> ->] by div_lia.
      change (year_of 0) with 0. f_equal. lia.
    + assert (year_start (y + 1) <= 145731) by (change 145731 with (year_start 399); apply year_start_mono; lia).
      assert ((z + 1) mod 146097 = year_start (y + 1) /\ (z + 1) / 146097 = z / 146097) as [-> ->] by div_lia.
      destruct (year_of_ends (y + 1) ltac:(lia)) as (-> & _). f_equal; lia.
  - assert (z mod 146097 <> 146096) as Hne.
    { intros Em. assert (y = 399) as E9 by (unfold y; rewrite Em; done).
      rewrite E9 in *. change (year_len 399) with 366 in *. change (year_start 399) with 145731 in *. lia. }
    assert (0 <= z mod 146097 < 146097) by div_lia.
    assert ((z + 1) mod 146097 = year_start y + (q + 1) /\ (z + 1) / 146097 = z / 146097) as [-> ->] by div_lia.
    rewrite year_of_within by lia. rewrite <- march_date_next by (done || lia). f_equal. lia.
Qed.

(** the date [EpochToDateTimeString] prints is the Gregorian one, for every
    32-bit epoch: day 0 is 1 January 1970 and every further day, up to the last
    one a 32-bit epoch reaches, is the calendar's next day (leap years by the
    rule of 4, 100 and 400); the time of day recombines to the epoch. *)
Theorem epoch_date_correct epoch : 0 <= epoch < 4294967296 ->
  let t := civil_of_epoch epoch in
  civil_of_days 0 = (1970, 1, 1) /\
  (yr t, mon t, day t) = civil_of_days (epoch / 86400) /\
  civil_of_days (epoch / 86400 + 1) = next_day (yr t, mon t, day t) /\
  epoch / 86400 * 86400 + hh t * 3600 + mm t * 60 + ss t = epoch /\
  0 <= hh t < 24 /\ 0 <= mm t < 60 /\ 0 <= ss t < 60.
Proof.
  intros He t. unfold t, civil_of_epoch. set (n := epoch / 86400).
  assert (0 <= n < 49711) as Hn by (unfold n; div_lia).
  pose proof (civil_next n ltac:(lia)) as E.
  destruct (civil_of_days n) as [[y m] d]. simpl. split_and!; try done; unfold n; div_lia.
Qed.

Lemma epoch_date_correct_witness :
  let t := civil_of_epoch 951782399 in
  (yr t, mon t, day t) = (2000, 2, 28) /\ (2000, 2, 29) = next_day (yr t, mon t, day t).
Proof.
  destruct (epoch_date_correct 951782399 ltac:(lia)) as (_ & E1 & E2 & _).
  split; [exact E1|exact E2].
Defined.

(** *** Hexadecimal text of byte arrays *)

Definition hex_pair (b : Z) : list Z := [hex_digit false (b / 16); hex_digit false (b mod 16)].
Definition hexes (bs : list Z) : list Z := bs ≫= hex_pair.

Lemma hexes_len bs : zlen (hexes bs) = 2 * zlen bs.
Proof.
  induction bs as [|b bs IH]; [done|].
  change (hexes (b :: bs)) with (hex_pair b ++ hexes bs). rewrite zlen_app, IH, zlen_cons.
  change (zlen (hex_pair b)) with 2. lia.
Qed.

Lemma hexes_snoc bs b : hexes (bs ++ [b]) = hexes bs ++ hex_pair b.
Proof. unfold hexes. rewrite bind_app. simpl. done. Qed.

Lemma nibbles b : byte_ok b ->
  Z.land (Z.shiftr b 4) 0x0F = b / 16 /\ Z.land b 0x0F = b mod 16 /\
  hex_value (hex_digit false (b / 16)) = Some (b / 16) /\
  hex_value (hex_digit false (b mod 16)) = Some (b mod 16) /\
  u8 (Z.lor (Z.shiftl (b / 16) 4) (b mod 16)) = b.
Proof.
  intros Hb.
  pose proof (forall_below (fun b => (Z.land (Z.shiftr b 4) 0x0F =? b / 16)
    && (Z.land b 0x0F =? b mod 16)
    && bool_decide (hex_value (hex_digit false (b / 16)) = Some (b / 16))
    && bool_decide (hex_value (hex_digit false (b mod 16)) = Some (b mod 16))
    && (u8 (Z.lor (Z.shiftl (b / 16) 4) (b mod 16)) =? b)) 256
    ltac:(vm_compute; done) b Hb) as E. simpl in E.
  repeat (apply andb_prop in E as [E ?]).
  split_and!; try (by apply Z.eqb_eq); by eapply bool_decide_eq_true_1.
Qed.

Lemma to_hex_spec bs : forall pre rest,
  bytes_ok bs -> 2 * zlen bs <= zlen rest ->
  to_hex_loop (pre ++ bs) (length bs) (zlen pre) (hexes pre ++ rest) =
    Some (hexes (pre ++ bs) ++ drop (2 * length bs) rest).
Proof.
  induction bs as [|b bs IH]; intros pre rest Hb Hl; cbn [to_hex_loop length].
  - rewrite app_nil_r. done.
  - apply Forall_cons_iff in Hb as [Hb1 Hb]. destruct (nibbles b Hb1) as (E1 & E2 & _).
    rewrite zlen_cons in Hl. pose proof (zlen_nonneg bs).
    destruct rest as [|r0 [|r1 rest]]; try (unfold zlen in Hl; simpl in Hl; lia).
    rewrite mget_app_mid. rewrite E1, E2.
    replace (zlen pre * 2) with (zlen (hexes pre)) by (rewrite hexes_len; lia).
    rewrite mset_app_mid.
    pose proof (mset_app_mid (hexes pre ++ [hex_digit false (b / 16)]) r1 rest
      (hex_digit false (b mod 16))) as E.
    rewrite <- !app_assoc, zlen_app in E. change (zlen [_]) with 1 in E. cbn [app] in E. rewrite E.
    rewrite !zlen_cons in Hl.
    specialize (IH (pre ++ [b]) rest Hb ltac:(lia)).
    rewrite hexes_snoc, <- !app_assoc, zlen_app in IH. change (zlen [b]) with 1 in IH.
    cbn [app hex_pair] in IH. rewrite IH. do 2 f_equal.
    replace (2 * S (length bs))%nat with (S (S (2 * length bs))) by lia. done.
Qed.

Lemma from_hex_spec bs : forall pre x rest,
  bytes_ok bs -> zlen bs <= zlen rest ->
  from_hex_loop (hexes (pre ++ bs) ++ x) (length bs) (zlen pre) (pre ++ rest) =
    Some (true, pre ++ bs ++ drop (length bs) rest).
Proof.
  induction bs as [|b bs IH]; intros pre x rest Hb Hl; cbn [from_hex_loop length].
  - done.
  - apply Forall_cons_iff in Hb as [Hb1 Hb]. destruct (nibbles b Hb1) as (_ & _ & E3 & E4 & E5).
    rewrite zlen_cons in Hl. pose proof (zlen_nonneg bs).
    destruct rest as [|r0 rest]; [unfold zlen in Hl; simpl in Hl; lia|]. rewrite zlen_cons in Hl.
    specialize (IH (pre ++ [b]) x rest Hb ltac:(lia)).
    rewrite <- !app_assoc, zlen_app in IH. change (zlen [b]) with 1 in IH. cbn [app] in IH.
    assert (hexes (pre ++ b :: bs) ++ x = hexes pre ++ hex_digit false (b / 16) ::
      hex_digit false (b mod 16) :: hexes bs ++ x) as Eh.
    { unfold hexes. rewrite bind_app. simpl. rewrite <- app_assoc. done. }
    rewrite Eh in IH |- *.
    replace (zlen pre * 2) with (zlen (hexes pre)) by (rewrite hexes_len; lia).
    rewrite mget_app_mid, E3.
    pose proof (mget_app_mid (hexes pre ++ [hex_digit false (b / 16)]) (hex_digit false (b mod 16))
      (hexes bs ++ x)) as E.
    rewrite <- !app_assoc, zlen_app in E. change (zlen [_]) with 1 in E. cbn [app] in E.
    rewrite E, E4, E5, mset_app_mid, IH. done.
Qed.

(** [HexStringToBytes] inverts [BytesToHexString]: the text of any byte array
    is two digits per byte and a terminator, inside an output of
    [2 * bytelen + 1] bytes, and parses back to the array. *)
Theorem hex_bytes_roundtrip bs out dst :
  bytes_ok bs -> zlen bs < 256 -> 2 * zlen bs + 1 <= zlen out -> zlen bs <= zlen dst ->
  exists text,
    BytesToHexString (Some bs) (zlen bs) (Some out) = Some (Some text) /\
    zlen text = zlen out /\ mget text (2 * zlen bs) = Some 0 /\
    HexStringToBytes (Some text) (zlen bs) (Some dst) =
      Some (true, Some (bs ++ drop (length bs) dst)).
Proof.
  intros Hb H256 Ho Hd. pose proof (zlen_nonneg bs).
  pose proof (to_hex_spec bs [] out Hb ltac:(lia)) as E. rewrite !app_nil_l in E.
  change (zlen (@nil Z)) with 0 in E. change (hexes [] ++ out) with out in E.
  destruct (drop (2 * length bs) out) as [|x rest] eqn:Ed.
  { apply (f_equal length) in Ed. rewrite length_drop in Ed. unfold zlen in *. simpl in Ed. lia. }
  assert (zlen out = 2 * zlen bs + 1 + zlen rest) as Hz.
  { apply (f_equal length) in Ed. rewrite length_drop in Ed. unfold zlen in *. simpl in Ed. lia. }
  exists (hexes bs ++ 0 :: rest). unfold BytesToHexString, HexStringToBytes.
  unfold zlen at 1. rewrite Nat2Z.id. rewrite E.
  replace (zlen bs * 2) with (zlen (hexes bs)) by (rewrite hexes_len; lia). rewrite mset_app_mid.
  split; [done|]. split; [rewrite zlen_app, hexes_len, zlen_cons; lia|].
  split; [rewrite <- hexes_len; apply mget_app_mid|].
  pose proof (from_hex_spec bs [] (0 :: rest) dst Hb Hd) as F. simpl app in F.
  change (zlen (@nil Z)) with 0 in F. unfold zlen at 1. rewrite Nat2Z.id, F. done.
Qed.

Lemma hex_bytes_roundtrip_witness :
  exists text, BytesToHexString (Some [0; 171; 255]) 3 (Some (replicate 7 1)) = Some (Some text) /\
    HexStringToBytes (Some text) 3 (Some [9; 9; 9]) = Some (true, Some [0; 171; 255]).
Proof.
  destruct (hex_bytes_roundtrip [0; 171; 255] (replicate 7 1) [9; 9; 9]) as (text & E1 & _ & _ & E2);
    [repeat constructor; done|done|vm_compute; discriminate|vm_compute; discriminate|].
  exists text. split; [exact E1|exact E2].
Defined.

(** [BcdToUint8] inverts [Uint8ToBcd] on the numbers 0 to 99, and the
    result of the latter has the decimal digits as its nibbles. *)
Theorem bcd_roundtrip v : 0 <= v < 100 ->
  Uint8ToBcd v = 16 * (v / 10) + v mod 10 /\ BcdToUint8 (Uint8ToBcd v) = v.
Proof.
  intros Hv.
  pose proof (forall_below (fun v => (Uint8ToBcd v =? 16 * (v / 10) + v mod 10)
    && (BcdToUint8 (Uint8ToBcd v) =? v)) 100 ltac:(vm_compute; done) v Hv) as E.
  simpl in E. apply andb_prop in E as [E1 E2]. split; by apply Z.eqb_eq.
Qed.

Lemma bcd_roundtrip_witness : Uint8ToBcd 59 = 89 /\ BcdToUint8 89 = 59.
Proof. exact (bcd_roundtrip 59 ltac:(lia)). Defined.
(** *** Floating point

    A finite [double] is [d_mant * 2 ^ d_exp] with a sign.  The operations are needed on
    numbers that are not negative, as pairs of mantissa and exponent: the exact result is
    rounded to 53 bits, to the even one when it lies in the middle. *)

Record double := mkDouble { d_neg : bool; d_mant : Z; d_exp : Z }.

Definition round_double (x : Z * Z) : Z * Z :=
  let '(m, e) := x in
  let k := Z.max (Z.log2 m + 1 - 53) (-1074 - e) in
  if k <=? 0 then x
  else
    let q := Z.shiftr m k in
    let r := m - Z.shiftl q k in
    let half := 2 ^ (k - 1) in
    (if (half <? r) || ((half =? r) && Z.odd q) then q + 1 else q, e + k).

Definition common (x y : Z * Z) : Z * Z * Z :=
  let e := Z.min x.2 y.2 in (x.1 * 2 ^ (x.2 - e), y.1 * 2 ^ (y.2 - e), e).

Definition fmul (x y : Z * Z) : Z * Z := round_double (x.1 * y.1, x.2 + y.2).
Definition fadd (x y : Z * Z) : Z * Z := let '(a, b, e) := common x y in round_double (a + b, e).
Definition fsub (x y : Z * Z) : Z * Z := let '(a, b, e) := common x y in round_double (a - b, e).

(** [(uint64_t)]: undefined when the integral part does not fit. *)
Definition to_u64 (x : Z * Z) : option Z :=
  let n := Z.shiftl x.1 x.2 in if n <? 18446744073709551616 then Some n else None.

Definition of_u64 (n : Z) : Z * Z := round_double (n, 0).

(** [if (pos + n > _maxlen - 1) n = _maxlen - 1 - pos; if (n > 0) { memcpy; pos += n; }] *)
Definition put_cut (p : list Z) (pos maxlen : Z) (t : list Z) : option (list Z * Z) :=
  let n := if pos + zlen t >? maxlen - 1 then maxlen - 1 - pos else zlen t in
  if n >? 0 then p <- mcpy p pos (take (Z.to_nat n) t);; Some (p, pos + n) else Some (p, pos).

(** [if (pos < _maxlen - 1) pString[pos++] = c;] *)
Definition put_one (p : list Z) (pos maxlen c : Z) : option (list Z * Z) :=
  if pos <? maxlen - 1 then p <- mset p pos c;; Some (p, pos + 1) else Some (p, pos).

(** [for (int i = 5; i >= 0; i--)]: the six digits, the last one first. *)
Fixpoint frac_digits (n : nat) (frac_part : Z) (acc : list Z) : list Z :=
  match n with
  | O => acc
  | S n => frac_digits n (Z.quot frac_part 10) (48 + Z.rem frac_part 10 :: acc)
  end.

(** From [uint64_t int_part] to the carry: the integral part and the millionths. *)
Definition float_parts (v : Z * Z) : option (Z * Z) :=
  int_part <- to_u64 v;;
  let frac := fsub v (of_u64 int_part) in
  frac_part <- to_u64 (fadd (fmul frac (1000000, 0)) (1, -1));;
  Some (if frac_part >=? 1000000 then (u64 (int_part + 1), u64 (frac_part - 1000000)) else (int_part, frac_part)).

(** [val < 0.0]; false of the negative zero. *)
Definition below_zero (val : double) : bool := d_neg val && negb (d_mant val =? 0).

Definition FloatToString (val : double) (pString : option (list Z)) (maxlen padmax : Z) : option (option (list Z)) :=
  match pString with
  | None => Some None
  | Some p =>
      if maxlen =? 0 then Some (Some p)
      else
        p <- mfill p 0 0 maxlen;;
        '(int_part, frac_part) <- float_parts (d_mant val, d_exp val);;
        '(p, pos) <- (if below_zero val then put_one p 0 maxlen 45 else Some (p, 0));;
        '(p, pos) <- put_cut p pos maxlen (tmp_digits dec_digit 10 21 int_part);;
        '(p, pos) <- put_one p pos maxlen 46;;
        '(p, pos) <- put_cut p pos maxlen (frac_digits 6 frac_part []);;
        p <- pad_loop (Z.to_nat maxlen) p pos padmax maxlen;;
        Some (Some p)
  end.

(** A number that is not negative in units of 2^-1200, which is enough for every exponent
    here. *)
Definition scaled (x : Z * Z) : Z := x.1 * 2 ^ (x.2 + 1200).

(** A finite [double] below 2^64, whose conversion to [uint64_t] is defined. *)
Definition double_ok (d : double) : Prop := 0 <= d_mant d < 2 ^ 53 /\ -1074 <= d_exp d <= 971 /\ scaled (d_mant d, d_exp d) < 2 ^ 1264.

(** [n] millionths are the nearest, up to 2^-32 of one. *)
Definition near_millionths (x : Z * Z) (n : Z) : Prop := Z.abs (2 * (n * 2 ^ 1200 - 1000000 * scaled x)) <= 2 ^ 1200 + 2 ^ 1169.

(** The text of a [double] to six decimals. *)
Definition float_text (d : double) (t : list Z) : Prop :=
  exists n ti tf, 0 <= n /\ near_millionths (d_mant d, d_exp d) n /\ decimal (n / 1000000) ti /\
    length tf = 6%nat /\ Forall (fun c => is_digit c = true) tf /\ dec_value tf = n mod 1000000 /\
    t = (if below_zero d then [45] else []) ++ ti ++ [46] ++ tf.

(** What the code prints. *)
Definition float_chars (d : double) (i f : Z) : list Z :=
  (if below_zero d then [45] else []) ++ tmp_digits dec_digit 10 21 i ++ [46] ++ frac_digits 6 f [].

#[local] Opaque Z.pow.

(** The error of one rounding of a number below 2^21. *)
Lemma round_error m e : 0 <= m -> -1100 <= e -> scaled (m, e) < 2 ^ 1221 ->
  Z.abs (scaled (round_double (m, e)) - scaled (m, e)) <= 2 ^ 1167 /\ 0 <= (round_double (m, e)).1 /\ -1100 <= (round_double (m, e)).2.
Proof.
  intros Hm He Hs. unfold round_double. set (k := Z.max _ _). destruct (Z.leb_spec k 0) as [Hk|Hk].
  { cbn [fst snd]. replace (scaled (m, e) - scaled (m, e)) with 0 by lia. split; [pose proof (Z.pow_nonneg 2 1167); lia|lia]. }
  rewrite Z.shiftr_div_pow2, Z.shiftl_mul_pow2 by lia. set (q := m / 2 ^ k). assert (0 < 2 ^ (k - 1)) as Hp by (apply Z.pow_pos_nonneg; lia).
  assert (2 ^ k = 2 * 2 ^ (k - 1)) as Ek by (rewrite <- Z.pow_succ_r by lia; f_equal; lia).
  assert (0 <= m - q * 2 ^ k < 2 ^ k) as Hr by (unfold q; pose proof (Z.mod_pos_bound m (2 ^ k)); pose proof (Z.div_mod m (2 ^ k)); lia).
  assert (0 <= q) as Hq by (apply Z.div_pos; lia).
  assert (e + k <= -32) as Hek.
  { destruct (Z.eq_dec k (-1074 - e)) as [->|Hk']; [lia|]. assert (k = Z.log2 m + 1 - 53) as E by lia.
    destruct (Z.eq_dec m 0) as [->|Hm0]; [change (Z.log2 0) with 0 in E; lia|]. destruct (Z.log2_spec m) as [Hl _]; [lia|].
    assert (2 ^ (Z.log2 m + (e + 1200)) < 2 ^ 1221) as Hlt.
    { rewrite Z.pow_add_r by (pose proof (Z.log2_nonneg m); lia). unfold scaled in Hs. cbn [fst snd] in Hs. nia. }
    apply Z.pow_lt_mono_r_iff in Hlt; lia. }
  set (q' := if _ || _ then q + 1 else q).
  assert (Z.abs (q' * 2 ^ k - m) <= 2 ^ (k - 1)) as Hd.
  { unfold q'. destruct (Z.ltb_spec (2 ^ (k - 1)) (m - q * 2 ^ k)); cbn [orb]; [lia|].
    destruct (Z.eqb_spec (2 ^ (k - 1)) (m - q * 2 ^ k)); cbn [andb]; [destruct (Z.odd q); lia|lia]. }
  cbn [fst snd]. split; [|unfold q'; destruct (_ || _); lia]. unfold scaled. cbn [fst snd].
  replace (e + k + 1200) with (k + (e + 1200)) by lia. rewrite Z.pow_add_r by lia.
  replace (q' * (2 ^ k * 2 ^ (e + 1200)) - m * 2 ^ (e + 1200)) with ((q' * 2 ^ k - m) * 2 ^ (e + 1200)) by lia.
  rewrite Z.abs_mul, (Z.abs_eq (2 ^ (e + 1200))) by (apply Z.pow_nonneg; lia).
  transitivity (2 ^ (k - 1) * 2 ^ (e + 1200)); [apply Z.mul_le_mono_nonneg_r; [apply Z.pow_nonneg; lia|done]|].
  rewrite <- Z.pow_add_r by lia. apply Z.pow_le_mono_r; lia.
Qed.

Lemma to_u64_spec x : 0 <= x.1 -> -1200 <= x.2 -> scaled x < 2 ^ 1264 ->
  exists n, to_u64 x = Some n /\ 0 <= n < 2 ^ 64 /\ n * 2 ^ 1200 <= scaled x < (n + 1) * 2 ^ 1200.
Proof.
  destruct x as [m e]. unfold scaled, to_u64. cbn [fst snd]. intros Hm He Hs. set (n := Z.shiftl m e).
  assert (0 <= n /\ n * 2 ^ 1200 <= m * 2 ^ (e + 1200) < (n + 1) * 2 ^ 1200) as [Hn Hb].
  { unfold n. destruct (Z.le_gt_cases 0 e) as [H0|H0].
    - rewrite Z.shiftl_mul_pow2, Z.pow_add_r by lia. assert (0 < 2 ^ 1200) by (apply Z.pow_pos_nonneg; lia). assert (0 < 2 ^ e) by (apply Z.pow_pos_nonneg; lia). nia.
    - replace (Z.shiftl m e) with (Z.shiftr m (- e)) by (by rewrite Z.shiftr_opp_r). rewrite Z.shiftr_div_pow2 by lia. replace 1200 with (- e + (e + 1200)) at 1 4 by lia.
      rewrite Z.pow_add_r by lia. assert (0 < 2 ^ (- e)) by (apply Z.pow_pos_nonneg; lia). assert (0 < 2 ^ (e + 1200)) by (apply Z.pow_pos_nonneg; lia).
      pose proof (Z.mod_pos_bound m (2 ^ (- e)) ltac:(lia)). pose proof (Z.div_mod m (2 ^ (- e)) ltac:(lia)). set (q := m / 2 ^ (- e)) in *.
      split; [apply Z.div_pos; lia|]. nia. }
  assert (n < 2 ^ 64) as Hlt.
  { replace 1264 with (64 + 1200) in Hs by lia. rewrite (Z.pow_add_r 2 64 1200) in Hs by lia. assert (0 < 2 ^ 1200) by (apply Z.pow_pos_nonneg; lia). nia. }
  exists n. split; [|lia]. change 18446744073709551616 with (2 ^ 64). destruct (Z.ltb_spec n (2 ^ 64)); [done|lia].
Qed.

Lemma round_exact m e : 0 <= m < 2 ^ 53 -> -1074 <= e -> round_double (m, e) = (m, e).
Proof.
  intros Hm He. unfold round_double. destruct (Z.leb_spec (Z.max (Z.log2 m + 1 - 53) (-1074 - e)) 0) as [|H]; [done|].
  destruct (Z.eq_dec m 0) as [->|Hm0]; [change (Z.log2 0) with 0 in H; lia|]. assert (Z.log2 m < 53) by (apply Z.log2_lt_pow2; lia). lia.
Qed.

(** A [double] below 2^64 that is an integer survives the conversion and back. *)
Lemma of_u64_exact m e : 0 <= m < 2 ^ 53 -> 0 <= e -> exists q k, of_u64 (m * 2 ^ e) = (q, k) /\ 0 <= k /\ q * 2 ^ k = m * 2 ^ e.
Proof.
  intros Hm He. unfold of_u64, round_double. set (n := m * 2 ^ e). set (k := Z.max _ _). assert (0 < 2 ^ e) by (apply Z.pow_pos_nonneg; lia).
  destruct (Z.leb_spec k 0) as [Hk|Hk]; [exists n, 0; split; [done|]; split; [done|]; change (2 ^ 0) with 1; lia|].
  assert (k <= e) as Hke.
  { destruct (Z.eq_dec m 0) as [->|Hm0]; [unfold k, n in *; rewrite Z.mul_0_l in *; change (Z.log2 0) with 0 in *; lia|].
    assert (Z.log2 m < 53) by (apply Z.log2_lt_pow2; lia). unfold k, n. rewrite Z.log2_mul_pow2 by lia. lia. }
  assert (Z.shiftl (Z.shiftr n k) k = n) as Hex.
  { rewrite Z.shiftr_div_pow2, Z.shiftl_mul_pow2 by lia. unfold n. replace e with (e - k + k) by lia. rewrite Z.pow_add_r, Z.mul_assoc, Z.div_mul by (lia || apply Z.pow_nonzero; lia). done. }
  rewrite Hex, Z.sub_diag. assert (0 < 2 ^ (k - 1)) by (apply Z.pow_pos_nonneg; lia). destruct (Z.ltb_spec (2 ^ (k - 1)) 0); [lia|]. destruct (Z.eqb_spec (2 ^ (k - 1)) 0); [lia|].
  cbn [orb andb]. exists (Z.shiftr n k), k. split; [f_equal; lia|]. split; [lia|]. by rewrite <- Z.shiftl_mul_pow2 by lia.
Qed.

(** The fraction is what is left of the number, exactly. *)
Lemma frac_exact m e n : 0 <= m < 2 ^ 53 -> -1074 <= e -> to_u64 (m, e) = Some n ->
  exists r k, fsub (m, e) (of_u64 n) = (r, k) /\ 0 <= r /\ -1074 <= k /\ scaled (m, e) = n * 2 ^ 1200 + scaled (r, k) /\ scaled (r, k) < 2 ^ 1200 /\ (0 <= e -> r = 0).
Proof.
  unfold to_u64. cbn [fst snd]. intros Hm He. destruct (_ <? _); intros [= <-]. unfold scaled. cbn [fst snd]. assert (0 < 2 ^ 1200) by (apply Z.pow_pos_nonneg; lia).
  destruct (Z.le_gt_cases 0 e) as [H0|H0].
  - rewrite Z.shiftl_mul_pow2 by lia. destruct (of_u64_exact m e Hm H0) as (q & k & -> & Hk & Eq). unfold fsub, common. cbn [fst snd].
    assert (m * 2 ^ (e - Z.min e k) - q * 2 ^ (k - Z.min e k) = 0) as ->.
    { assert (0 < 2 ^ Z.min e k) by (apply Z.pow_pos_nonneg; lia). assert ((m * 2 ^ (e - Z.min e k) - q * 2 ^ (k - Z.min e k)) * 2 ^ Z.min e k = 0); [|nia].
      rewrite Z.mul_sub_distr_r, <- !Z.mul_assoc, <- !Z.pow_add_r by lia. rewrite !Z.sub_add. lia. }
    rewrite round_exact by lia. exists 0, (Z.min e k). split; [done|]. rewrite Z.pow_add_r by lia. repeat split; lia.
  - replace (Z.shiftl m e) with (Z.shiftr m (- e)) by (by rewrite Z.shiftr_opp_r). rewrite Z.shiftr_div_pow2 by lia.
    assert (0 < 2 ^ (- e)) by (apply Z.pow_pos_nonneg; lia). assert (0 < 2 ^ (e + 1200)) by (apply Z.pow_pos_nonneg; lia).
    pose proof (Z.mod_pos_bound m (2 ^ (- e)) ltac:(lia)). pose proof (Z.div_mod m (2 ^ (- e)) ltac:(lia)).
    assert (0 <= m / 2 ^ (- e) <= m) by (split; [apply Z.div_pos; lia|apply Z.div_le_upper_bound; nia]). unfold of_u64. rewrite round_exact by lia.
    unfold fsub, common. cbn [fst snd]. replace (Z.min e 0) with e by lia. rewrite Z.sub_diag. change (2 ^ 0) with 1. replace (0 - e) with (- e) by lia.
    replace (m * 1 - m / 2 ^ (- e) * 2 ^ (- e)) with (m mod 2 ^ (- e)) by lia. rewrite round_exact by lia. eexists _, _. split; [done|].
    assert (2 ^ 1200 = 2 ^ (- e) * 2 ^ (e + 1200)) as -> by (rewrite <- Z.pow_add_r by lia; f_equal; lia). repeat split; [lia|lia|nia|nia|lia].
Qed.

Lemma scaled_add x y : -1100 <= x.2 -> -1100 <= y.2 -> let '(a, b, e) := common x y in
  scaled (a + b, e) = scaled x + scaled y /\ (0 <= x.1 -> 0 <= y.1 -> 0 <= a + b) /\ -1100 <= e.
Proof.
  destruct x as [m e], y as [n k]. unfold common, scaled. cbn [fst snd]. intros He Hk.
  assert (forall a c, Z.min e k <= c -> -1100 <= c -> a * 2 ^ (c - Z.min e k) * 2 ^ (Z.min e k + 1200) = a * 2 ^ (c + 1200)) as Hs.
  { intros a c Hc Hc'. rewrite <- Z.mul_assoc, <- Z.pow_add_r by lia. do 2 f_equal. lia. }
  split; [rewrite Z.mul_add_distr_r, !Hs by lia; done|]. split; [|lia]. intros.
  assert (0 <= 2 ^ (e - Z.min e k) /\ 0 <= 2 ^ (k - Z.min e k)) as [? ?] by (split; apply Z.pow_nonneg; lia). nia.
Qed.

(** The millionths of a fraction below one, and the carry when they are a whole. *)
Lemma frac_near r k : 0 <= r -> -1074 <= k -> scaled (r, k) < 2 ^ 1200 ->
  exists f, to_u64 (fadd (fmul (r, k) (1000000, 0)) (1, -1)) = Some f /\ 0 <= f <= 1000000 /\ near_millionths (r, k) f /\ (r = 0 -> f = 0).
Proof.
  intros Hr Hk Hs. assert (2 ^ 1221 = 2097152 * 2 ^ 1200) as E1 by (change 2097152 with (2 ^ 21); rewrite <- Z.pow_add_r by lia; done).
  assert (2 ^ 1200 = 2 ^ 33 * 2 ^ 1167) as E2 by (rewrite <- Z.pow_add_r by lia; done). change (2 ^ 33) with 8589934592 in E2.
  assert (2 ^ 1169 = 4 * 2 ^ 1167) as E3 by (change 4 with (2 ^ 2); rewrite <- Z.pow_add_r by lia; done).
  assert (2 ^ 1264 = 2 ^ 64 * 2 ^ 1200) as E4 by (rewrite <- Z.pow_add_r by lia; done). change (2 ^ 64) with 18446744073709551616 in E4.
  assert (0 < 2 ^ 1167) as Hp by (apply Z.pow_pos_nonneg; lia).
  unfold fmul. cbn [fst snd]. rewrite Z.add_0_r. assert (scaled (r * 1000000, k) = 1000000 * scaled (r, k)) as Em by (unfold scaled; cbn [fst snd]; lia).
  assert (0 <= scaled (r, k)) as Hs0 by (unfold scaled; cbn [fst snd]; apply Z.mul_nonneg_nonneg; [lia|apply Z.pow_nonneg; lia]).
  destruct (round_error (r * 1000000) k) as (He1 & Hx1 & Hx2); [lia|lia|lia|]. set (x := round_double (r * 1000000, k)) in *.
  assert (scaled (1, -1) = 2 ^ 1199) as Eh by (unfold scaled; cbn [fst snd]; change (-1 + 1200) with 1199; lia).
  assert (2 ^ 1200 = 2 * 2 ^ 1199) as E5 by (change 2 with (2 ^ 1) at 2; rewrite <- Z.pow_add_r by lia; done).
  unfold fadd. pose proof (scaled_add x (1, -1) Hx2 ltac:(cbn; lia)) as Ha. destruct (common x (1, -1)) as [[a b] e]. cbn [fst snd] in Ha. destruct Ha as (Ea & Hab & He).
  destruct (round_error (a + b) e) as (He2 & Hy1 & Hy2); [apply Hab; lia|lia|lia|]. set (y := round_double (a + b, e)) in *.
  destruct (to_u64_spec y Hy1 ltac:(lia) ltac:(lia)) as (f & -> & Hf0 & Hf). exists f. split; [done|]. split; [split; [lia|nia]|].
  split; [unfold near_millionths; lia|]. intros ->. assert (scaled (0, k) = 0) as E0 by done. nia.
Qed.

Lemma float_parts_spec m e : 0 <= m < 2 ^ 53 -> -1074 <= e -> scaled (m, e) < 2 ^ 1264 ->
  exists i f, float_parts (m, e) = Some (i, f) /\ 0 <= i < 2 ^ 64 /\ 0 <= f < 1000000 /\ near_millionths (m, e) (i * 1000000 + f).
Proof.
  intros Hm He Hs. unfold float_parts. destruct (to_u64_spec (m, e)) as (n & Hn & Hn0 & Hnb); [cbn; lia|cbn; lia|done|]. rewrite Hn. cbn [mbind option_bind].
  destruct (frac_exact m e n Hm He Hn) as (r & k & -> & Hr & Hk & Es & Hlt & Hint). destruct (frac_near r k Hr Hk Hlt) as (f & -> & Hf & Hnear & Hzero). cbn [mbind option_bind].
  assert (forall i f', i * 1000000 + f' = n * 1000000 + f -> near_millionths (m, e) (i * 1000000 + f')) as Hok.
  { intros i f' ->. unfold near_millionths in *. rewrite Es. replace (2 * _) with (2 * (f * 2 ^ 1200 - 1000000 * scaled (r, k))) by lia. done. }
  destruct (Z.geb_spec f 1000000) as [Hc|Hc]; [|exists n, f; split; [done|]; split; [lia|]; split; [lia|]; by apply Hok].
  assert (e < 0) as He0 by (destruct (Z.le_gt_cases 0 e) as [H|]; [|lia]; specialize (Hzero (Hint H)); lia).
  assert (n < 2 ^ 53) as Hn53.
  { assert (2 ^ 1200 = 2 ^ (- e) * 2 ^ (e + 1200)) as E by (rewrite <- Z.pow_add_r by lia; f_equal; lia). unfold scaled in Hnb. cbn [fst snd] in Hnb.
    assert (0 < 2 ^ (e + 1200)) by (apply Z.pow_pos_nonneg; lia). assert (1 <= 2 ^ (- e)) by (pose proof (Z.pow_pos_nonneg 2 (- e)); lia). rewrite E in Hnb. nia. }
  exists (n + 1), 0. assert (2 ^ 53 < 2 ^ 64) by done. unfold u64. rewrite (Z.mod_small (n + 1)) by (change 18446744073709551616 with (2 ^ 64); lia).
  replace (f - 1000000) with 0 by lia. split; [done|]. split; [lia|]. split; [lia|]. apply Hok. lia.
Qed.

(** The steps of the printing: [o] is written so far, the rest of the buffer is zero. *)
Definition so_far (maxlen : Z) (rest o : list Z) : list Z * Z :=
  let t := take (Z.to_nat (maxlen - 1)) o in (t ++ zeros (maxlen - zlen t) ++ rest, zlen t).

Lemma put_cut_spec maxlen rest o t : 1 <= maxlen -> let '(p, pos) := so_far maxlen rest o in put_cut p pos maxlen t = Some (so_far maxlen rest (o ++ t)).
Proof.
  intros Hm. unfold so_far, put_cut. set (u := take (Z.to_nat (maxlen - 1)) o). assert (zlen u <= maxlen - 1) as Hu by (unfold u, zlen; rewrite length_take; lia).
  rewrite take_app. fold u. set (v := take (Z.to_nat (maxlen - 1) - length o) t).
  set (n := if zlen u + zlen t >? maxlen - 1 then maxlen - 1 - zlen u else zlen t). pose proof (zlen_nonneg u). pose proof (zlen_nonneg t).
  assert (take (Z.to_nat n) t = v /\ n = zlen v) as [Et En].
  { unfold n, v, u, zlen in *. rewrite !length_take in *. destruct (Z.gtb_spec (Z.of_nat (Z.to_nat (maxlen - 1) `min` length o) + Z.of_nat (length t)) (maxlen - 1)).
    - split; [f_equal; lia|lia].
    - rewrite !take_ge by lia. split; [done|lia]. }
  rewrite Et, En. destruct (Z.gtb_spec (zlen v) 0) as [Hv|Hv].
  - assert (zeros (maxlen - zlen u) = zeros (zlen v) ++ zeros (maxlen - zlen u - zlen v)) as ->.
    { unfold zeros. rewrite <- replicate_add. f_equal. assert (zlen v <= maxlen - 1 - zlen u); [|lia]. rewrite <- En. unfold n. destruct (Z.gtb_spec (zlen u + zlen t) (maxlen - 1)); lia. }
    rewrite <- app_assoc, mcpy_app_mid by (unfold zeros; rewrite zlen_replicate; lia). cbn [mbind option_bind]. rewrite zlen_app, <- app_assoc, Z.sub_add_distr. done.
  - assert (v = []) as Hv0 by (destruct v; [done|]; rewrite zlen_cons in Hv; pose proof (zlen_nonneg v); lia). rewrite Hv0, app_nil_r. done.
Qed.

Lemma put_one_spec maxlen rest o c : 1 <= maxlen -> let '(p, pos) := so_far maxlen rest o in put_one p pos maxlen c = Some (so_far maxlen rest (o ++ [c])).
Proof.
  intros Hm. unfold so_far, put_one. rewrite take_app. set (u := take (Z.to_nat (maxlen - 1)) o). assert (zlen u = Z.min (maxlen - 1) (zlen o)) as Hu by (unfold u, zlen; rewrite length_take; lia).
  destruct (Z.ltb_spec (zlen u) (maxlen - 1)) as [Hl|Hl].
  - replace (zeros (maxlen - zlen u)) with (0 :: zeros (maxlen - zlen u - 1)) by (unfold zeros; replace (Z.to_nat (maxlen - zlen u)) with (S (Z.to_nat (maxlen - zlen u - 1))) by lia; done).
    cbn [app]. rewrite mset_app_mid. cbn [mbind option_bind]. replace (Z.to_nat (maxlen - 1) - length o)%nat with (S (Z.to_nat (maxlen - 1) - length o - 1)) by (unfold zlen in *; lia).
    cbn [take]. rewrite take_nil, zlen_app, <- app_assoc, Z.sub_add_distr. done.
  - replace (Z.to_nat (maxlen - 1) - length o)%nat with 0%nat by (unfold zlen in *; lia). cbn [take]. by rewrite app_nil_r.
Qed.

Lemma FloatToString_spec d p maxlen padmax i f : 1 <= maxlen <= zlen p -> float_parts (d_mant d, d_exp d) = Some (i, f) ->
  FloatToString d (Some p) maxlen padmax = Some (Some (printed p maxlen padmax (float_chars d i f))).
Proof.
  intros Hm Hp. unfold FloatToString. destruct (Z.eqb_spec maxlen 0); [lia|]. rewrite mfill_0 by lia. cbn [mbind option_bind]. rewrite Hp. cbn [mbind option_bind].
  set (rest := drop (Z.to_nat maxlen) p). fold (zeros maxlen).
  assert ((if below_zero d then put_one (zeros maxlen ++ rest) 0 maxlen 45 else Some (zeros maxlen ++ rest, 0)) = Some (so_far maxlen rest (if below_zero d then [45] else []))) as ->.
  { assert (so_far maxlen rest [] = (zeros maxlen ++ rest, 0)) as E by (unfold so_far; rewrite take_nil; cbn [app]; change (zlen []) with 0; by rewrite Z.sub_0_r).
    destruct (below_zero d); [|by rewrite E]. pose proof (put_one_spec maxlen rest [] 45 ltac:(lia)) as H. rewrite E in H. exact H. }
  cbn [mbind option_bind]. set (o1 := if below_zero d then [45] else []). pose proof (put_cut_spec maxlen rest o1 (tmp_digits dec_digit 10 21 i) ltac:(lia)) as H1.
  destruct (so_far maxlen rest o1) as [p1 pos1]. rewrite H1. cbn [mbind option_bind]. set (o2 := o1 ++ _). pose proof (put_one_spec maxlen rest o2 46 ltac:(lia)) as H2.
  fold o2. destruct (so_far maxlen rest o2) as [p2 pos2]. rewrite H2. cbn [mbind option_bind]. pose proof (put_cut_spec maxlen rest (o2 ++ [46]) (frac_digits 6 f []) ltac:(lia)) as H3.
  destruct (so_far maxlen rest (o2 ++ [46])) as [p3 pos3]. rewrite H3. cbn [mbind option_bind].
  unfold so_far, o2. rewrite <- !app_assoc. cbn [app]. unfold printed, float_chars. fold o1. cbn [app]. set (t := take _ _).
  assert (zlen t <= maxlen - 1) by (unfold t, zlen; rewrite length_take; lia). pose proof (zlen_nonneg t). rewrite pad_loop_spec by lia. done.
Qed.

Lemma frac_digits_spec n : forall f acc, 0 <= f -> exists ds, frac_digits n f acc = ds ++ acc /\ length ds = n /\ Forall (fun c => is_digit c = true) ds /\ dec_value ds = f mod 10 ^ Z.of_nat n.
Proof.
  induction n as [|n IH]; intros f acc Hf; cbn [frac_digits].
  - exists []. change (10 ^ Z.of_nat 0) with 1. rewrite Z.mod_1_r. done.
  - rewrite Z.quot_div_nonneg, Z.rem_mod_nonneg by lia. destruct (IH (f / 10) (48 + f mod 10 :: acc)) as (ds & -> & Hl & Hd & Hv); [apply Z.div_pos; lia|].
    exists (ds ++ [48 + f mod 10]). rewrite <- app_assoc, length_app, dec_value_snoc, Hv. pose proof (Z.mod_pos_bound f 10 ltac:(lia)). split; [done|]. split; [cbn; lia|].
    split; [apply Forall_app; split; [done|]; constructor; [by apply is_digit_dec|done]|]. rewrite Nat2Z.inj_succ, Z.pow_succ_r, Z.rem_mul_r by (lia || apply Z.pow_pos_nonneg; lia). lia.
Qed.

(** Every finite [double] below 2^64 is printed to six decimals. *)
Lemma FloatToString_text d : double_ok d -> exists t, float_text d t /\ zlen t <= 29 /\
  forall p maxlen padmax, 1 <= maxlen <= zlen p -> FloatToString d (Some p) maxlen padmax = Some (Some (printed p maxlen padmax t)).
Proof.
  intros (Hm & He & Hs). destruct (float_parts_spec _ _ Hm (proj1 He) Hs) as (i & f & Ep & Hi & Hf & Hn). exists (float_chars d i f).
  destruct (frac_digits_spec 6 f [] ltac:(lia)) as (ds & E & Hl & Hd & Hv). rewrite app_nil_r in E.
  destruct (tmp_digits_decimal 21 i) as [Hdec Hlen]; [split; [lia|]; transitivity (2 ^ 64); [lia|done]|lia|].
  split; [|split; [|intros; by apply FloatToString_spec]]; unfold float_chars; rewrite E.
  - exists (i * 1000000 + f), (tmp_digits dec_digit 10 21 i), ds. replace ((i * 1000000 + f) / 1000000) with i by div_lia. replace ((i * 1000000 + f) mod 1000000) with f by div_lia.
    rewrite Hv. change (10 ^ Z.of_nat 6) with 1000000. rewrite Z.mod_small by lia. split; [lia|]. done.
  - unfold zlen. rewrite !length_app, Hl. cbn [length]. destruct (below_zero d); cbn [length]; lia.
Qed.

End Conversions.
