(* ===== verification/StrOps.v ===== *)
(** String operations, [src/utility/StringOperations.cpp].

    A [char *] argument is [None] for the null pointer and otherwise the block
    of characters readable from it; functions that write return the block they
    leave.  Not modelled here: the printf family and the JSON scanner. *)
From S2P Require Import Prelude Conversions.
From stdpp Require Import base option list numbers.
From Stdlib Require Import ZArith Lia.
Import Conversions.

Open Scope Z_scope.

Module StrOps.

(** *** [basic_string] from a pointer and a length ([src/utility/pdistl/string])

    The string is empty when the first character is not positive; [char] is unsigned on the
    devices.  [npos] is refused: the program stops. *)
Definition string_data (s : list Z) : list Z := match s with c :: _ => if c =? 0 then [] else s | [] => [] end.

Definition string_at (m : list Z) (off n : Z) : option (list Z) :=
  if n =? 4294967295 then None
  else c <- mget m off;; if c =? 0 then Some [] else msub m off n.

(** *** [__strstr] *)

(** The inner loop: what is left of [pattern] when it stops. *)
Fixpoint match_loop (s pattern : list Z) : option (list Z) :=
  match s with
  | [] => None
  | c :: s' =>
      if c =? 0 then Some pattern
      else
        match pattern with
        | [] => None
        | d :: pattern' =>
            if negb (d =? 0) && (c =? d) then match_loop s' pattern' else Some pattern
        end
  end.

Fixpoint strstr_loop (s substr : list Z) (n len : Z) : option Z :=
  match s with
  | [] => None
  | c :: s' =>
      if negb (c =? 0) && (n <? len) then
        pattern <- match_loop s substr;;
        d <- mget pattern 0;;
        if d =? 0 then Some n else strstr_loop s' substr (n + 1) len
      else Some (-1)
  end.

(** [__strstr] *)
Definition strstr (str substr : option (list Z)) (len : Z) : option Z :=
  match str, substr with
  | Some s, Some t =>
      ls <- strlen s;;
      if ls =? 0 then Some (-1)
      else
        lt <- strlen t;;
        if lt =? 0 then Some (-1) else strstr_loop s t 0 len
  | _, _ => Some (-1)
  end.

(** *** Comparisons *)

(** The loop shared by the two comparisons: [n] characters from index [i]. *)
Fixpoint equal_loop (a b : list Z) (n : nat) (i : Z) : option bool :=
  match n with
  | O => Some true
  | S n =>
      x <- mget a i;;
      y <- mget b i;;
      if x =? y then equal_loop a b n (i + 1) else Some false
  end.

(** [__are_str_equals] *)
Definition are_str_equals (str1 str2 : option (list Z)) (limit : Z) : option bool :=
  match str1, str2 with
  | Some s, Some t =>
      l1 <- strlen s;;
      let len := u16 l1 in
      l2 <- strlen t;;
      if negb (len =? l2) then Some false
      else equal_loop s t (Z.to_nat (Z.min len limit)) 0
  | _, _ => Some false
  end.

(** [__are_arrays_equal] *)
Definition are_arrays_equal (array1 array2 : option (list Z)) (len : Z) : option bool :=
  match array1, array2 with
  | Some a, Some b => equal_loop a b (Z.to_nat len) 0
  | _, _ => Some false
  end.

(** *** Trimming *)

(** The loop over the leading characters: how many are skipped. *)
Fixpoint lead_loop (s : list Z) (val n len limit : Z) : option Z :=
  match s with
  | [] => None
  | c :: s' =>
      if negb (c =? 0) && (c =? val) && (n <? len) && (n <? limit)
      then lead_loop s' val (u16 (n + 1)) len limit else Some n
  end.

(** The loop over the trailing characters. *)
Fixpoint trail_loop (fuel : nat) (s : list Z) (val n len limit : Z) : option (list Z) :=
  c <- mget s (len - 1);;
  if negb (c =? 0) && (len >? 0) && (n <? limit) then
    if c =? val then
      match fuel with
      | O => None
      | S fuel =>
          s <- mset s (len - 1) 0;;
          trail_loop fuel s val (u16 (n + 1)) (u16 (len - 1)) limit
      end
    else Some s
  else Some s.

(** [__strtrim_val]: the pointer returned, as an offset into the string, and the
    string after the call. *)
Definition strtrim_val (str : option (list Z)) (val limit : Z)
  : option (option Z * option (list Z)) :=
  match str with
  | None => Some (None, None)
  | Some s =>
      l <- strlen s;;
      let len := u16 l in
      if len =? 0 then Some (None, str)
      else
        c <- mget s 0;;
        if negb (c =? 0) && (0 <? limit) then
          n <- lead_loop s val 0 len limit;;
          s' <- trail_loop (Z.to_nat len) s val n len limit;;
          Some (Some n, Some s')
        else Some (None, str)
  end.

(** [__strtrim] *)
Definition strtrim (str : option (list Z)) (limit : Z) := strtrim_val str 32 limit.

(** *** Letter case *)

Fixpoint case_loop (f : Z -> Z) (fuel : nat) (s : list Z) (i slen : Z) : option (list Z) :=
  l <- strlen s;;
  if (i <? l) && (i <? slen) then
    match fuel with
    | O => None
    | S fuel =>
        c <- mget s i;;
        s <- mset s i (f c);;
        case_loop f fuel s (u16 (i + 1)) slen
    end
  else Some s.

Definition lower (c : Z) : Z := if (65 <=? c) && (c <=? 90) then c + 32 else c.
Definition upper (c : Z) : Z := if (97 <=? c) && (c <=? 122) then c - 32 else c.

(** [__tolowercase] *)
Definition tolowercase (str : list Z) (slen : Z) : option (list Z) :=
  case_loop lower (length str) str 0 slen.

(** [__touppercase] *)
Definition touppercase (str : option (list Z)) (slen : Z) : option (option (list Z)) :=
  match str with
  | None => Some None
  | Some s => s <- case_loop upper (length s) s 0 slen;; Some (Some s)
  end.

(** *** IP addresses *)

Definition dot : Z := 46.

(** One round of the loop of [__int_ip_to_str]. *)
Definition ip_octet (str : list Z) (pos i b len : Z) : option (list Z * Z) :=
  num <- Uint32ToString b (Some [0; 0; 0; 0]) 4 0;;
  num <- num;;
  n <- strlen num;;
  let n := if pos + n >? len - 1 then len - 1 - pos else n in
  '(str, pos) <- (if n >? 0 then
                    src <- msub num 0 n;;
                    str <- mcpy str pos src;;
                    Some (str, pos + n)
                  else Some (str, pos));;
  if (i <? 3) && (pos <? len - 1) then
    str <- mset str pos dot;; Some (str, pos + 1)
  else Some (str, pos).

Fixpoint ip_loop (ip : list Z) (n : nat) (i : Z) (str : list Z) (pos len : Z)
  : option (list Z * Z) :=
  match n with
  | O => Some (str, pos)
  | S n =>
      b <- mget ip i;;
      '(str, pos) <- ip_octet str pos i b len;;
      ip_loop ip n (i + 1) str pos len
  end.

(** [__int_ip_to_str] *)
Definition int_ip_to_str (str ip : option (list Z)) (len : Z) : option (option (list Z)) :=
  match str, ip with
  | Some s, Some ip =>
      if len <=? 0 then Some str
      else
        s <- mfill s 0 0 len;;
        '(s, pos) <- ip_loop ip 4 0 s 0 len;;
        s <- mset s pos 0;;
        Some (Some s)
  | _, _ => Some str
  end.

(** The loop of [__str_ip_to_int] over the rest [s] of the string from index
    [i]; the index is 8 bits wide, and [n] is the length of the string. *)
Fixpoint ip_parse_loop (s : list Z) (i n len : Z) (ip : list Z) (ip_index : Z)
  : option (list Z) :=
  if (i <? n) && (i <? len) then
    match s with
    | [] => None
    | c :: s' =>
        if (c =? dot) && (ip_index <? 4) then
          v <- StringToUint8 (Some s') 3;;
          ip <- mset ip ip_index v;;
          ip_parse_loop s' (i + 1) n len ip (ip_index + 1)
        else ip_parse_loop s' (i + 1) n len ip ip_index
    end
  else Some ip.

(** [__str_ip_to_int], for strings under 256 characters: the address and the
    string after the call. *)
Definition str_ip_to_int (str ip : list Z) (len : Z) (clear : bool)
  : option (list Z * list Z) :=
  v <- StringToUint8 (Some str) 3;;
  ip <- mset ip 0 v;;
  n <- strlen str;;
  ip <- ip_parse_loop str 0 n len ip 1;;
  str <- (if clear then mfill str 0 0 len else Some str);;
  Some (ip, str).

(** *** Replacing *)

(** [strncat(buf, src, n)] for a [src] of at least [n] characters before its
    terminator, or with its terminator within the first [n]. *)
Definition strncat (buf src : list Z) (n : Z) : option (list Z) :=
  l <- strlen buf;;
  k <- (match strlen (take (Z.to_nat n) src) with
        | Some k => Some k
        | None => if n <=? zlen src then Some n else None
        end);;
  mcpy buf l (take (Z.to_nat k) src ++ [0]).

(** The loop of [__find_and_replace]. *)
Fixpoint replace_loop (fuel : nat) (str find rep buf : list Z) (j o slen flen rlen occ : Z)
  : option (list Z * Z * Z) :=
  if (j <? slen) && (o <? occ) then
    match fuel with
    | O => None
    | S fuel =>
        k <- strstr (Some (drop (Z.to_nat j) str)) (Some find) (slen - j);;
        if k >=? 0 then
          buf <- strncat buf (drop (Z.to_nat j) str) k;;
          buf <- strncat buf rep rlen;;
          replace_loop fuel str find rep buf (j + (k + flen)) (o + 1) slen flen rlen occ
        else Some (buf, j, o)
    end
  else Some (buf, j, o).

(** [__find_and_replace]: the string after the call. *)
Definition find_and_replace (str find rep : option (list Z)) (occ : Z) : option (option (list Z)) :=
  match str, find, rep with
  | Some s, Some f, Some r =>
      slen <- strlen s;;
      flen <- strlen f;;
      rlen <- strlen r;;
      a <- int_val (rlen * occ);;
      b <- int_val (occ * flen);;
      t <- int_val (slen + a);;
      t <- int_val (t - b + 1);;
      let total := Z.max slen t + 1 in
      '(buf, j, o) <- replace_loop (Z.to_nat slen) s f r (replicate (Z.to_nat total) 0)
                        0 0 slen flen rlen occ;;
      buf <- (if j <? slen then strncat buf (drop (Z.to_nat j) s) (slen - j) else Some buf);;
      let fin := slen - o * flen + o * rlen in
      l <- strlen buf;;
      if (l >? 0) && (o >? 0) && (slen >? fin) then
        s <- mfill s 0 0 slen;;
        src <- msub buf 0 (fin + 1);;
        s <- mcpy s 0 src;;
        Some (Some s)
      else Some (Some s)
  | _, _, _ => Some str
  end.

(** *** Reference: the first occurrence *)

Fixpoint first_occ (t s : list Z) : option nat :=
  if decide (t `prefix_of` s) then Some O
  else match s with [] => None | _ :: s' => S <$> first_occ t s' end.

Lemma string_data_text s : no_nul s -> string_data s = s.
Proof. intros [|c s' Hc _]; [done|]. cbn. by destruct (Z.eqb_spec c 0). Qed.

Lemma first_occ_spec t s k :
  first_occ t s = Some k <->
  t `prefix_of` drop k s /\ (k <= length s)%nat /\
  forall j, (j < k)%nat -> ~ t `prefix_of` drop j s.
Proof.
  revert k. induction s as [|c s IH]; intros k; simpl; case_decide as Hp.
  - split; [intros [= <-]|].
    + split; [done|]. split; [lia|]. intros j Hj. lia.
    + intros (_ & Hk & _). f_equal. lia.
  - split; [done|]. intros (H & _ & _). by rewrite drop_nil in H.
  - split; [intros [= <-]|].
    + split; [done|]. split; [lia|]. intros j Hj. lia.
    + intros (_ & _ & H). destruct k as [|k]; [done|]. exfalso. by apply (H O); [lia|].
  - split.
    + intros (k' & E & ->)%fmap_Some. apply IH in E as (H1 & H2 & H3).
      split; [done|]. split; [lia|]. intros [|j] Hj; [done|]. apply H3. lia.
    + intros (H1 & H2 & H3). destruct k as [|k]; [done|].
      apply fmap_Some. exists k. split; [|done]. apply IH.
      split; [done|]. split; [lia|]. intros j Hj. apply (H3 (S j)). lia.
Qed.

Lemma first_occ_here x u r : without x u -> first_occ [x] (u ++ x :: r) = Some (length u).
Proof.
  induction u as [|c u IH]; intros Hu; cbn [app first_occ length].
  - rewrite decide_True; [done|]. by exists r.
  - apply Forall_cons_1 in Hu as [Hc Hu]. rewrite decide_False by (intros [k Hk]; by injection Hk). by rewrite IH.
Qed.

Lemma first_occ_absent x u : without x u -> first_occ [x] u = None.
Proof.
  induction 1 as [|c u Hc _ IH]; cbn [first_occ]; [by rewrite decide_False by (intros [k [=]])|].
  rewrite decide_False by (intros [k Hk]; by injection Hk). by rewrite IH.
Qed.

Lemma first_occ_None t s : first_occ t s = None <-> forall j, (j <= length s)%nat -> ~ t `prefix_of` drop j s.
Proof.
  induction s as [|c s IH]; simpl; case_decide as Hp.
  - split; [done|]. intros H. by destruct (H O ltac:(lia)).
  - split; [|done]. intros _ j Hj. by rewrite drop_nil.
  - split; [done|]. intros H. by destruct (H O ltac:(lia)).
  - rewrite fmap_None, IH. split.
    + intros H [|j] Hj; [done|]. apply H. lia.
    + intros H j Hj. apply (H (S j)). lia.
Qed.

Lemma match_loop_spec s : forall t x y, no_nul s -> no_nul t ->
  exists d p, match_loop (s ++ 0 :: x) (t ++ 0 :: y) = Some (d :: p) /\
    (d =? 0) = bool_decide (t `prefix_of` s).
Proof.
  induction s as [|c s IH]; intros t x y Hs Ht.
  - cbn [match_loop app Z.eqb]. destruct t as [|d t]; [by eexists 0, _|].
    apply Forall_cons_iff in Ht as [Hd _]. eexists d, _; split; [done|].
    rewrite bool_decide_eq_false_2; [by apply Z.eqb_neq|].
    intros H. by apply prefix_nil_inv in H.
  - apply Forall_cons_iff in Hs as [Hc Hs]. cbn [match_loop app]. destruct (Z.eqb_spec c 0); [done|].
    destruct t as [|d t]; cbn [app].
    + eexists 0, _; split; [done|]. rewrite bool_decide_eq_true_2; [done|apply prefix_nil].
    + apply Forall_cons_iff in Ht as [Hd Ht]. destruct (Z.eqb_spec d 0); [done|]. cbn [negb andb].
      destruct (Z.eqb_spec c d) as [->|Hne].
      * destruct (IH t x y Hs Ht) as (e & p & -> & E). eexists e, p; split; [done|].
        rewrite E. apply bool_decide_ext. split; [apply prefix_cons|apply prefix_cons_inv_2].
      * eexists d, _; split; [done|]. rewrite bool_decide_eq_false_2; [by apply Z.eqb_neq|].
        intros H. by apply prefix_cons_inv_1 in H.
Qed.

Lemma strstr_loop_spec t y s : forall x n len, no_nul s -> no_nul t -> t <> [] ->
  strstr_loop (s ++ 0 :: x) (t ++ 0 :: y) n len =
    Some (match first_occ t s with
          | Some k => if n + Z.of_nat k <? len then n + Z.of_nat k else -1
          | None => -1
          end).
Proof.
  induction s as [|c s IH]; intros x n len Hs Ht Ht0.
  - simpl. case_decide as H; [|done]. by apply prefix_nil_inv in H.
  - pose proof Hs as Hs'. apply Forall_cons_iff in Hs' as [Hc Hs'].
    destruct (match_loop_spec (c :: s) t x y Hs Ht) as (d & p & E & Ed).
    cbn [strstr_loop app]. cbn [app] in E. rewrite E.
    destruct (Z.eqb_spec c 0); [done|]. simpl.
    destruct (Z.ltb_spec n len) as [Hn|Hn].
    + change (mget (d :: p) 0) with (Some d). cbv iota. rewrite Ed.
      case_bool_decide; case_decide; try done.
      * simpl. rewrite Z.add_0_r. destruct (Z.ltb_spec n len); [done|lia].
      * rewrite IH by done. destruct (first_occ t s) as [k|]; simpl; [|done].
        replace (n + Z.of_nat (S k)) with (n + 1 + Z.of_nat k) by lia. done.
    + case_decide; simpl.
      * destruct (Z.ltb_spec (n + Z.of_nat 0) len); [lia|done].
      * destruct (first_occ t s) as [k|]; simpl; [|done].
        destruct (Z.ltb_spec (n + Z.of_nat (S k)) len); [lia|done].
Qed.

Lemma strstr_spec sm s tm t len : cstring sm s -> cstring tm t -> s <> [] -> t <> [] ->
  strstr (Some sm) (Some tm) len =
    Some (match first_occ t s with
          | Some k => if Z.of_nat k <? len then Z.of_nat k else -1
          | None => -1
          end).
Proof.
  intros Hs Ht Hs0 Ht0. unfold strstr. rewrite (strlen_cstring _ _ Hs), (strlen_cstring _ _ Ht).
  destruct Hs as [Hs [x ->]], Ht as [Ht [y ->]].
  destruct (Z.eqb_spec (zlen s) 0) as [E|_]; [by destruct s|].
  destruct (Z.eqb_spec (zlen t) 0) as [E|_]; [by destruct t|].
  rewrite strstr_loop_spec by done. done.
Qed.

(** *** Comparing *)

Lemma equal_loop_spec n : forall a b i, 0 <= i ->
  i + Z.of_nat n <= zlen a -> i + Z.of_nat n <= zlen b ->
  equal_loop a b n i =
    Some (bool_decide (take n (drop (Z.to_nat i) a) = take n (drop (Z.to_nat i) b))).
Proof.
  induction n as [|n IH]; intros a b i Hi Ha Hb; cbn [equal_loop].
  - by rewrite bool_decide_eq_true_2.
  - rewrite !mget_Some by lia.
    rewrite (drop_S a (a !!! Z.to_nat i)) by
      (apply list_lookup_lookup_total_lt; unfold zlen in *; lia).
    rewrite (drop_S b (b !!! Z.to_nat i)) by
      (apply list_lookup_lookup_total_lt; unfold zlen in *; lia).
    simpl. destruct (Z.eqb_spec (a !!! Z.to_nat i) (b !!! Z.to_nat i)) as [E|E].
    + rewrite IH by lia. f_equal. rewrite E. replace (Z.to_nat (i + 1)) with (S (Z.to_nat i)) by lia.
      apply bool_decide_ext. split; [by intros ->|by intros [=]].
    + f_equal. rewrite bool_decide_eq_false_2; [done|]. by intros [=].
Qed.

Lemma are_str_equals_spec sm s tm t limit :
  cstring sm s -> cstring tm t -> zlen s <= limit -> zlen s < 65536 ->
  are_str_equals (Some sm) (Some tm) limit = Some (bool_decide (s = t)).
Proof.
  intros Hs Ht Hl H16. pose proof (zlen_nonneg s). unfold are_str_equals.
  rewrite (strlen_cstring _ _ Hs), (strlen_cstring _ _ Ht), u16_small by lia.
  destruct Hs as [_ [x ->]], Ht as [_ [y ->]].
  destruct (Z.eqb_spec (zlen s) (zlen t)) as [E|E]; simpl.
  - rewrite Z.min_l by lia. pose proof (zlen_nonneg x). pose proof (zlen_nonneg y).
    rewrite equal_loop_spec by (rewrite ?zlen_app, ?zlen_cons; lia).
    change (Z.to_nat 0) with O. rewrite !drop_0.
    assert (forall u z, take (Z.to_nat (zlen u)) (u ++ 0 :: z) = u) as Et
      by (intros; unfold zlen; rewrite Nat2Z.id; apply take_app_length).
    rewrite Et, E, Et. done.
  - f_equal. rewrite bool_decide_eq_false_2; [done|]. by intros ->.
Qed.

(** *** Trimming *)

Lemma lead_loop_spec v len limit a : forall n rest,
  v <> 0 -> (hd 0 rest <> v \/ n + Z.of_nat a = len) -> rest <> [] -> 0 <= n ->
  n + Z.of_nat a <= len -> n + Z.of_nat a <= limit -> limit < 65536 ->
  lead_loop (replicate a v ++ rest) v n len limit = Some (n + Z.of_nat a).
Proof.
  induction a as [|a IH]; intros n rest Hv Hr Hr0 Hn Hl Hlim H16.
  - destruct rest as [|c rest]; [done|]. simpl in *. rewrite Z.add_0_r in *.
    destruct (Z.eqb_spec c 0); simpl; [done|]. destruct Hr as [Hr| ->].
    + destruct (Z.eqb_spec c v); [done|]. done.
    + destruct (Z.ltb_spec len len); [lia|]. rewrite andb_false_r. done.
  - cbn [replicate app lead_loop]. destruct (Z.eqb_spec v 0); [done|]. rewrite Z.eqb_refl.
    destruct (Z.ltb_spec n len); [|lia]. destruct (Z.ltb_spec n limit); [|lia]. simpl.
    rewrite u16_small by lia. rewrite IH; try done; try lia; try (f_equal; lia).
Qed.

Lemma trail_loop_step fuel pre v n limit rest :
  v <> 0 -> 0 <= n < limit -> limit < 65536 -> zlen pre < 65535 ->
  trail_loop (S fuel) (pre ++ v :: rest) v n (zlen pre + 1) limit =
  trail_loop fuel (pre ++ 0 :: rest) v (n + 1) (zlen pre) limit.
Proof.
  intros Hv Hn Hl Hp. pose proof (zlen_nonneg pre). cbn [trail_loop].
  replace (zlen pre + 1 - 1) with (zlen pre) by lia. rewrite mget_app_mid.
  destruct (Z.eqb_spec v 0); [done|]. simpl. destruct (Z.gtb_spec (zlen pre + 1) 0); [|lia].
  destruct (Z.ltb_spec n limit); [|lia]. simpl. rewrite Z.eqb_refl, mset_app_mid.
  rewrite !u16_small by lia. done.
Qed.

Lemma trail_loop_spec v limit b : forall fuel pre n rest,
  v <> 0 -> 0 <= n -> n + Z.of_nat b <= limit -> limit < 65536 ->
  zlen pre + Z.of_nat b < 65536 -> (b <= fuel)%nat ->
  trail_loop fuel (pre ++ replicate b v ++ rest) v n (zlen pre + Z.of_nat b) limit =
  trail_loop (fuel - b) (pre ++ replicate b 0 ++ rest) v (n + Z.of_nat b) (zlen pre) limit.
Proof.
  induction b as [|b IH]; intros fuel pre n rest Hv Hn Hl H16 Hp Hf.
  - rewrite !Z.add_0_r, Nat.sub_0_r. done.
  - destruct fuel as [|fuel]; [lia|].
    assert (pre ++ replicate (S b) v ++ rest = (pre ++ replicate b v) ++ v :: rest) as ->.
    { rewrite replicate_S_end, <- !app_assoc. done. }
    assert (zlen pre + Z.of_nat (S b) = zlen (pre ++ replicate b v) + 1) as ->.
    { rewrite zlen_app. unfold zlen. rewrite length_replicate. lia. }
    rewrite trail_loop_step; try done; try lia.
    2:{ rewrite zlen_app. unfold zlen. rewrite length_replicate. unfold zlen in *. lia. }
    assert ((pre ++ replicate b v) ++ 0 :: rest = pre ++ replicate b v ++ 0 :: rest) as ->
      by (by rewrite <- app_assoc).
    assert (zlen (pre ++ replicate b v) = zlen pre + Z.of_nat b) as ->.
    { rewrite zlen_app. unfold zlen. rewrite length_replicate. lia. }
    rewrite IH; try done; try lia.
    assert (replicate b 0 ++ 0 :: rest = replicate (S b) 0 ++ rest) as ->.
    { rewrite replicate_S_end, <- app_assoc. done. }
    f_equal; lia.
Qed.

(** [__strstr] returns the index of the first occurrence of the substring
    if it starts before [_len], and -1 otherwise: the index it returns is one,
    and no smaller index is. *)
Theorem strstr_first sm s tm t len :
  cstring sm s -> cstring tm t -> s <> [] -> t <> [] -> zlen s <= len ->
  exists r, strstr (Some sm) (Some tm) len = Some r /\
    (r = -1 /\ (forall j, (j <= length s)%nat -> ~ t `prefix_of` drop j s) \/
     0 <= r < zlen s /\ t `prefix_of` drop (Z.to_nat r) s /\
     forall j, Z.of_nat j < r -> ~ t `prefix_of` drop j s).
Proof.
  intros Hs Ht Hs0 Ht0 Hl. eexists. split; [by apply strstr_spec|].
  destruct (first_occ t s) as [k|] eqn:E.
  - apply first_occ_spec in E as (H1 & H2 & H3). right.
    assert (k < length s)%nat as Hk.
    { destruct (decide (k = length s)) as [->|]; [|lia].
      rewrite drop_all in H1. by apply prefix_nil_inv in H1. }
    unfold zlen in *. destruct (Z.ltb_spec (Z.of_nat k) len); [|lia].
    rewrite Nat2Z.id. split_and!; try done; try lia. intros j Hj. apply H3. lia.
  - left. split; [done|]. by apply first_occ_None.
Qed.

Lemma strstr_first_witness :
  exists r, strstr (Some [97; 98; 97; 98; 99; 0]) (Some [97; 98; 99; 0]) 5 = Some r /\
    (r = -1 /\ (forall j, (j <= 5)%nat -> ~ [97; 98; 99] `prefix_of` drop j [97; 98; 97; 98; 99]) \/
     0 <= r < 5 /\ [97; 98; 99] `prefix_of` drop (Z.to_nat r) [97; 98; 97; 98; 99] /\
     forall j, Z.of_nat j < r -> ~ [97; 98; 99] `prefix_of` drop j [97; 98; 97; 98; 99]).
Proof.
  exact (strstr_first [97; 98; 97; 98; 99; 0] [97; 98; 97; 98; 99] [97; 98; 99; 0] [97; 98; 99] 5
    ltac:(split; [repeat constructor; discriminate|by exists []])
    ltac:(split; [repeat constructor; discriminate|by exists []])
    ltac:(discriminate) ltac:(discriminate) ltac:(vm_compute; discriminate)).
Defined.

(** [__strtrim_val] of a string with [a] trimmed characters before and [b]
    behind a middle part that starts and ends with another character returns
    a pointer to the middle part, which it terminates in place. *)
Theorem strtrim_middle v a b body x limit :
  v <> 0 -> no_nul body -> body <> [] -> hd 0 body <> v -> List.last body 0 <> v ->
  Z.of_nat a + Z.of_nat b <= limit -> 0 < limit < 65536 ->
  Z.of_nat a + zlen body + Z.of_nat b < 65536 ->
  exists m, strtrim_val (Some (replicate a v ++ body ++ replicate b v ++ 0 :: x)) v limit =
      Some (Some (Z.of_nat a), Some m) /\
    m = replicate a v ++ body ++ replicate b 0 ++ 0 :: x /\
    cstring (drop a m) body.
Proof.
  intros Hv Hn Hb0 Hh Hl Hlim H16 Hsz. eexists. split; [|split; [reflexivity|]].
  2:{ rewrite drop_app_length' by (by rewrite length_replicate). split; [done|].
      destruct b; simpl; eauto. }
  assert (0 < zlen body) by (destruct body; [done|rewrite zlen_cons; pose proof (zlen_nonneg body); lia]).
  set (all := replicate a v ++ body ++ replicate b v).
  assert (zlen all = Z.of_nat a + zlen body + Z.of_nat b) as Ez.
  { unfold all. rewrite !zlen_app. unfold zlen. rewrite !length_replicate. lia. }
  assert (cstring (replicate a v ++ body ++ replicate b v ++ 0 :: x) all) as Hc.
  { split; [|exists x; unfold all; by rewrite <- !app_assoc].
    repeat (apply Forall_app; split); try done; by apply Forall_replicate. }
  unfold strtrim_val. rewrite (strlen_cstring _ _ Hc), u16_small by lia.
  destruct (Z.eqb_spec (zlen all) 0); [lia|].
  destruct (cstring_first _ _ Hc) as (c & -> & ->).
  rewrite bool_decide_eq_false_2 by (intros E; rewrite E in Ez; change (zlen (@nil Z)) with 0 in Ez; lia).
  destruct (Z.ltb_spec 0 limit); [|lia]. simpl.
  rewrite (lead_loop_spec v (zlen all) limit a 0); try done; try lia.
  2:{ left. destruct body; done. } 2:{ by destruct body. }
  rewrite Z.add_0_l. rewrite (app_assoc (replicate a v)).
  replace (zlen all) with (zlen (replicate a v ++ body) + Z.of_nat b).
  2:{ rewrite zlen_app. unfold zlen in *. rewrite length_replicate. lia. }
  rewrite trail_loop_spec; try done; try lia.
  2:{ rewrite zlen_app. unfold zlen in *. rewrite length_replicate. lia. }
  2:{ unfold zlen in *. rewrite length_app, length_replicate. lia. }
  destruct (exists_last Hb0) as (body' & c' & Eb). rewrite Eb in *.
  rewrite last_last in Hl.
  assert (forall f n r, trail_loop f ((replicate a v ++ body' ++ [c']) ++ r) v n
      (zlen (replicate a v ++ body' ++ [c'])) limit = Some ((replicate a v ++ body' ++ [c']) ++ r)) as Hstop.
  { intros f n0 r. replace (zlen (replicate a v ++ body' ++ [c'])) with (zlen (replicate a v ++ body') + 1).
    2:{ rewrite !zlen_app. change (zlen [c']) with 1. lia. }
    rewrite app_assoc, <- (app_assoc _ [c'] r). destruct f; cbn [trail_loop];
      rewrite Z.add_simpl_r; simpl ([c'] ++ r); rewrite mget_app_mid;
      (destruct (_ && _); [destruct (Z.eqb_spec c' v)|]); done. }
  rewrite Hstop. rewrite <- !app_assoc. done.
Qed.

Lemma strtrim_middle_witness :
  exists m, strtrim_val (Some [32; 32; 97; 32; 98; 32; 0]) 32 300 = Some (Some 2, Some m) /\
    m = [32; 32; 97; 32; 98; 0; 0] /\ cstring (drop 2 m) [97; 32; 98].
Proof.
  exact (strtrim_middle 32 2 1 [97; 32; 98] [] 300 ltac:(discriminate)
    ltac:(repeat constructor; discriminate) ltac:(discriminate) ltac:(discriminate)
    ltac:(discriminate) ltac:(lia) ltac:(lia) ltac:(vm_compute; done)).
Defined.

(** trimming a string made only of the trimmed character reads the byte
    before the string: the loop over the trailing characters looks at
    [str[len - 1]] before it tests that [len] is positive. *)
Theorem strtrim_all_reads_before v a x limit :
  v <> 0 -> (0 < a)%nat -> 2 * Z.of_nat a <= limit -> limit < 65536 ->
  strtrim_val (Some (replicate a v ++ 0 :: x)) v limit = None.
Proof.
  intros Hv Ha Hlim H16.
  assert (cstring (replicate a v ++ 0 :: x) (replicate a v)) as Hc.
  { split; [by apply Forall_replicate|eauto]. }
  assert (zlen (replicate a v) = Z.of_nat a) as Ez by (unfold zlen; by rewrite length_replicate).
  unfold strtrim_val. rewrite (strlen_cstring _ _ Hc), Ez, u16_small by lia.
  destruct (Z.eqb_spec (Z.of_nat a) 0); [lia|].
  destruct (cstring_first _ _ Hc) as (c & -> & ->).
  rewrite bool_decide_eq_false_2 by (intros E; rewrite E in Ez; change (zlen (@nil Z)) with 0 in Ez; lia).
  destruct (Z.ltb_spec 0 limit); [|lia]. simpl.
  rewrite (lead_loop_spec v (Z.of_nat a) limit a 0); try done; try lia.
  pose proof (trail_loop_spec v limit a (Z.to_nat (Z.of_nat a)) [] (0 + Z.of_nat a) (0 :: x)) as T.
  change (zlen (@nil Z)) with 0 in T. rewrite !app_nil_l, Z.add_0_l in T. rewrite Z.add_0_l.
  rewrite T; try done; try lia. destruct (Z.to_nat (Z.of_nat a) - a)%nat; done.
Qed.

Lemma strtrim_all_reads_before_witness : strtrim_val (Some [32; 32; 0]) 32 300 = None.
Proof.
  exact (strtrim_all_reads_before 32 2 [] 300 ltac:(discriminate) ltac:(lia) ltac:(lia) ltac:(lia)).
Defined.

(** *** Replacing *)

(** Reference: the first [occ] occurrences replaced, with how many there were. *)
Fixpoint replace_ref (occ : nat) (f r s : list Z) : list Z * nat :=
  match occ with
  | O => (s, O)
  | S occ =>
      match first_occ f s with
      | None => (s, O)
      | Some k =>
          let '(t, o) := replace_ref occ f r (drop (k + length f) s) in
          (take k s ++ r ++ t, S o)
      end
  end.

Lemma first_occ_fits f s k : first_occ f s = Some k -> (k + length f <= length s)%nat.
Proof.
  intros (H1 & H2 & _)%first_occ_spec. apply prefix_length in H1.
  rewrite length_drop in H1. lia.
Qed.

Lemma replace_ref_len occ f r : forall s,
  zlen (replace_ref occ f r s).1 =
    zlen s + Z.of_nat (replace_ref occ f r s).2 * (zlen r - zlen f).
Proof.
  induction occ as [|occ IH]; intros s; simpl; [lia|].
  destruct (first_occ f s) as [k|] eqn:E; simpl; [|lia].
  apply first_occ_fits in E. specialize (IH (drop (k + length f) s)).
  destruct (replace_ref occ f r (drop (k + length f) s)) as [t o]. simpl in *.
  rewrite !zlen_app. unfold zlen in *. rewrite length_drop in IH. rewrite length_take. nia.
Qed.

Lemma replace_ref_count occ f r : forall s, ((replace_ref occ f r s).2 <= occ)%nat.
Proof.
  induction occ as [|occ IH]; intros s; simpl; [lia|].
  destruct (first_occ f s) as [k|]; simpl; [|lia].
  specialize (IH (drop (k + length f) s)). destruct (replace_ref _ _ _ _). simpl in *. lia.
Qed.

Lemma strlen_no_nul l : no_nul l -> strlen l = None.
Proof.
  induction 1 as [|c l Hc _ IH]; [done|]. simpl. destruct (Z.eqb_spec c 0); [done|].
  by rewrite IH.
Qed.

Lemma strncat_spec out zs t y :
  no_nul out -> no_nul t -> zlen t <= zlen zs ->
  strncat (out ++ 0 :: zs) (t ++ y) (zlen t) =
    Some ((out ++ t) ++ 0 :: drop (length t) zs).
Proof.
  intros Ho Ht Hl. unfold strncat. rewrite strlen_app by done.
  assert (take (Z.to_nat (zlen t)) (t ++ y) = t) as E.
  { unfold zlen. rewrite Nat2Z.id. apply take_app_length. }
  rewrite E, (strlen_no_nul t Ht). rewrite zlen_app. pose proof (zlen_nonneg y).
  destruct (Z.leb_spec (zlen t) (zlen t + zlen y)); [|lia]. rewrite E.
  rewrite <- (take_drop (length t) zs) at 1.
  pose proof (mcpy_app_mid out (0 :: take (length t) zs) (drop (length t) zs) (t ++ [0])) as M.
  rewrite zlen_cons, zlen_app in M. change (zlen [0]) with 1 in M.
  cbn [app] in M. rewrite M.
  - rewrite <- !app_assoc. done.
  - unfold zlen in *. rewrite length_take. lia.
Qed.

Section replacing.
Context (fm f rm r : list Z) (occ : Z).
Hypotheses (Hf : cstring fm f) (Hf0 : f <> []) (Hr : cstring rm r).

Lemma replace_loop_spec n : forall fuel pre s x out zs o,
  no_nul s -> no_nul out -> (length s <= fuel)%nat -> 0 <= o -> occ - o = Z.of_nat n ->
  zlen s + Z.max 0 (Z.of_nat n * (zlen r - zlen f)) <= zlen zs ->
  exists pre' s' out' zs',
    replace_loop fuel (pre ++ s ++ 0 :: x) fm rm (out ++ 0 :: zs) (zlen pre) o
      (zlen pre + zlen s) (zlen f) (zlen r) occ =
      Some (out' ++ 0 :: zs', zlen pre', o + Z.of_nat (replace_ref n f r s).2) /\
    pre ++ s = pre' ++ s' /\ out' ++ s' = out ++ (replace_ref n f r s).1 /\
    no_nul out' /\ zlen s' <= zlen zs' /\ zlen out' + zlen zs' = zlen out + zlen zs.
Proof.
  induction n as [|n IH]; intros fuel pre s x out zs o Hs Ho Hfu Ho0 Hoc Hroom;
    pose proof (zlen_nonneg s); pose proof (zlen_nonneg pre).
  - exists pre, s, out, zs. split; [|split_and!; done || lia].
    destruct fuel; cbn [replace_loop]; destruct (Z.ltb_spec o occ); try lia;
      rewrite andb_false_r; simpl; do 2 f_equal; lia.
  - destruct (decide (s = [])) as [->|Hs0].
    + exists pre, [], out, zs. cbn [replace_ref].
      assert (first_occ f [] = None) as ->.
      { simpl. case_decide as Hp; [by apply prefix_nil_inv in Hp|done]. }
      cbn [fst snd]. split; [|split_and!; done || lia].
      destruct fuel; cbn [replace_loop]; change (zlen (@nil Z)) with 0;
        destruct (Z.ltb_spec (zlen pre) (zlen pre + 0)); try lia; simpl; do 2 f_equal; lia.
    + destruct fuel as [|fuel]; [destruct s; simpl in *; [done|lia]|].
      assert (0 < zlen s) by (destruct s; [done|rewrite zlen_cons; pose proof (zlen_nonneg s); lia]).
      cbn [replace_loop]. destruct (Z.ltb_spec (zlen pre) (zlen pre + zlen s)); [|lia].
      destruct (Z.ltb_spec o occ); [|lia]. simpl andb. cbv iota.
      assert (drop (Z.to_nat (zlen pre)) (pre ++ s ++ 0 :: x) = s ++ 0 :: x) as ->.
      { unfold zlen. rewrite Nat2Z.id. apply drop_app_length. }
      rewrite (strstr_spec _ s _ f) by (done || split; eauto).
      replace (zlen pre + zlen s - zlen pre) with (zlen s) by lia.
      cbn [replace_ref]. destruct (first_occ f s) as [k|] eqn:Ek.
      2:{ exists pre, s, out, zs. simpl. split_and!; try done; try lia. do 2 f_equal. lia. }
      pose proof (first_occ_fits _ _ _ Ek) as Hk.
      assert (0 < length f)%nat by (destruct f; [done|simpl; lia]).
      destruct (Z.ltb_spec (Z.of_nat k) (zlen s)); [|unfold zlen in *; lia].
      destruct (Z.geb_spec (Z.of_nat k) 0); [|lia].
      assert (Z.of_nat k = zlen (take k s)) as -> by (unfold zlen; rewrite length_take; lia).
      assert (s ++ 0 :: x = take k s ++ (drop k s ++ 0 :: x)) as Es
        by (by rewrite app_assoc, take_drop).
      assert (zlen (take k s) = Z.of_nat k) as Ezk by (unfold zlen; rewrite length_take; lia).
      assert (strncat (out ++ 0 :: zs) (s ++ 0 :: x) (zlen (take k s)) =
        Some ((out ++ take k s) ++ 0 :: drop (length (take k s)) zs)) as ->.
      { rewrite Es. apply strncat_spec; [done|by apply Forall_take|unfold zlen in *; nia]. }
      assert (strncat ((out ++ take k s) ++ 0 :: drop (length (take k s)) zs) rm (zlen r) =
        Some (((out ++ take k s) ++ r) ++ 0 :: drop (length r) (drop (length (take k s)) zs))) as ->.
      { destruct Hr as [Hrn [y ->]].
        apply strncat_spec; [apply Forall_app; split; [done|by apply Forall_take]|done|].
        unfold zlen in *. rewrite length_drop, length_take. nia. }
      assert (pre ++ s ++ 0 :: x =
        (pre ++ take (k + length f) s) ++ drop (k + length f) s ++ 0 :: x) as E2.
      { rewrite <- app_assoc, (app_assoc (take _ s)), take_drop. done. }
      rewrite E2.
      assert (zlen pre + (zlen (take k s) + zlen f) = zlen (pre ++ take (k + length f) s)) as ->.
      { rewrite zlen_app. unfold zlen. rewrite !length_take. lia. }
      assert (zlen pre + zlen s =
        zlen (pre ++ take (k + length f) s) + zlen (drop (k + length f) s)) as ->.
      { rewrite zlen_app. unfold zlen. rewrite length_take, length_drop. lia. }
      destruct (IH fuel (pre ++ take (k + length f) s) (drop (k + length f) s) x
        ((out ++ take k s) ++ r) (drop (length r) (drop (length (take k s)) zs)) (o + 1))
        as (pre' & s' & out' & zs' & E & E3 & E4 & Ho' & Hz & Hsum).
      * by apply Forall_drop.
      * apply Forall_app; split; [apply Forall_app; split; [done|by apply Forall_take]|apply Hr].
      * rewrite length_drop. lia.
      * lia.
      * lia.
      * unfold zlen in *. rewrite !length_drop, length_take. nia.
      * exists pre', s', out', zs'. rewrite E.
        destruct (replace_ref n f r (drop (k + length f) s)) as [t o']. simpl in *.
        split; [do 2 f_equal; lia|]. rewrite <- E3, <- app_assoc, take_drop.
        rewrite E4, <- !app_assoc. split_and!; try done.
        rewrite Hsum. rewrite !zlen_app. unfold zlen in *. rewrite !length_drop, length_take. nia.
Qed.
End replacing.

(** The string [__find_and_replace] leaves: replaced only when the result is
    shorter than the string, not empty, and something was found. *)
Definition replaced (occ : nat) (f r s x : list Z) : list Z :=
  let '(t, o) := replace_ref occ f r s in
  if negb (bool_decide (t = [])) && (0 <? Z.of_nat o) && (zlen t <? zlen s)
  then t ++ replicate (length s - length t) 0 ++ 0 :: x
  else s ++ 0 :: x.

Lemma find_and_replace_spec s x fm f rm r occ :
  no_nul s -> cstring fm f -> f <> [] -> cstring rm r ->
  0 <= occ <= 1000 -> zlen s <= 1000000 -> zlen f <= 1000000 -> zlen r <= 1000000 ->
  find_and_replace (Some (s ++ 0 :: x)) (Some fm) (Some rm) occ =
    Some (Some (replaced (Z.to_nat occ) f r s x)).
Proof.
  intros Hs Hf Hf0 Hr Ho Hs1 Hf1 Hr1. pose proof (zlen_nonneg s). pose proof (zlen_nonneg f).
  pose proof (zlen_nonneg r). unfold find_and_replace, replaced.
  rewrite strlen_app, (strlen_cstring _ _ Hf), (strlen_cstring _ _ Hr) by done.
  rewrite !int_val_Some by nia.
  set (total := Z.max (zlen s) (zlen s + zlen r * occ - occ * zlen f + 1) + 1).
  destruct (replace_loop_spec fm f rm r occ Hf Hf0 Hr (Z.to_nat occ) (Z.to_nat (zlen s)) [] s x []
    (replicate (Z.to_nat (total - 1)) 0) 0) as (pre' & s' & out' & zs' & E & E1 & E2 & Hn & Hz & Hsum);
    try done; try lia; [constructor|unfold zlen; lia|rewrite zlen_replicate by lia; nia|].
  rewrite !app_nil_l in *. change (zlen (@nil Z)) with 0 in *. rewrite !Z.add_0_l in *.
  replace (replicate (Z.to_nat total) 0) with (0 :: replicate (Z.to_nat (total - 1)) 0)
    by (replace (Z.to_nat total) with (S (Z.to_nat (total - 1))) by lia; done).
  rewrite E. pose proof (replace_ref_len (Z.to_nat occ) f r s) as Hlen.
  destruct (replace_ref (Z.to_nat occ) f r s) as [t o]. simpl in E2, Hlen |- *.
  assert (no_nul s') as Hs' by (rewrite E1 in Hs; by apply Forall_app in Hs as [_ ?]).
  assert (no_nul t) as Ht by (rewrite <- E2; by apply Forall_app).
  assert (exists zs2, (if zlen pre' <? zlen s
    then strncat (out' ++ 0 :: zs') (drop (Z.to_nat (zlen pre')) (s ++ 0 :: x)) (zlen s - zlen pre')
    else Some (out' ++ 0 :: zs')) = Some (t ++ 0 :: zs2)) as (zs2 & ->).
  { rewrite E1, zlen_app. replace (zlen pre' + zlen s' - zlen pre') with (zlen s') by lia.
    destruct (Z.ltb_spec (zlen pre') (zlen pre' + zlen s')).
    - unfold zlen at 1. rewrite Nat2Z.id, <- app_assoc, drop_app_length.
      rewrite strncat_spec, E2 by done. eauto.
    - assert (s' = []) as -> by (destruct s'; [done|rewrite zlen_cons in *; pose proof (zlen_nonneg s'); lia]).
      rewrite app_nil_r in E2. subst. eauto. }
  rewrite strlen_app by done. replace (zlen s - Z.of_nat o * zlen f + Z.of_nat o * zlen r) with (zlen t) by lia.
  assert ((zlen t >? 0) = negb (bool_decide (t = []))) as ->.
  { destruct t; [done|]. rewrite bool_decide_eq_false_2 by done. rewrite zlen_cons.
    pose proof (zlen_nonneg t). destruct (Z.gtb_spec (1 + zlen t) 0); [done|lia]. }
  rewrite !Z.gtb_ltb. destruct (_ && _) eqn:Ec; [|done].
  apply andb_prop in Ec as [_ Ec]. apply Z.ltb_lt in Ec. pose proof (zlen_nonneg t).
  rewrite mfill_0 by (rewrite zlen_app, zlen_cons; pose proof (zlen_nonneg x); lia).
  pose proof (msub_app_mid [] (t ++ [0]) zs2) as M. simpl app in M. rewrite <- app_assoc in M.
  rewrite zlen_app in M. change (zlen (@nil Z)) with 0 in M. change (zlen [0]) with 1 in M.
  simpl app in M. rewrite M.
  assert (drop (Z.to_nat (zlen s)) (s ++ 0 :: x) = 0 :: x) as ->
    by (unfold zlen; rewrite Nat2Z.id; apply drop_app_length).
  replace (Z.to_nat (zlen s)) with (S (length t) + (length s - length t - 1))%nat
    by (unfold zlen in *; lia).
  rewrite replicate_add, <- app_assoc, mcpy_0
    by (unfold zlen; rewrite length_replicate, length_app; simpl; lia).
  rewrite <- app_assoc. do 3 f_equal.
  replace (length s - length t)%nat with (S (length s - length t - 1)) by (unfold zlen in *; lia).
  rewrite Nat.sub_1_r. done.
Qed.

(** [__find_and_replace] replaces the first [_occurence] occurrences when
    that makes the string strictly shorter but not empty, and otherwise
    leaves the string as it was; in either case it stays within the string's
    own characters and the buffer it allocates. *)
Theorem find_and_replace_correct s x fm f rm r occ :
  no_nul s -> cstring fm f -> f <> [] -> cstring rm r ->
  0 <= occ <= 1000 -> zlen s <= 1000000 -> zlen f <= 1000000 -> zlen r <= 1000000 ->
  find_and_replace (Some (s ++ 0 :: x)) (Some fm) (Some rm) occ =
    Some (Some (replaced (Z.to_nat occ) f r s x)).
Proof. apply find_and_replace_spec. Qed.

Lemma find_and_replace_correct_witness :
  find_and_replace (Some [97; 98; 98; 97; 98; 98; 0]) (Some [98; 98; 0]) (Some [99; 0]) 2 =
    Some (Some [97; 99; 97; 99; 0; 0; 0]).
Proof.
  exact (find_and_replace_correct [97; 98; 98; 97; 98; 98] [] [98; 98; 0] [98; 98] [99; 0] [99] 2
    ltac:(repeat constructor; discriminate)
    ltac:(split; [repeat constructor; discriminate|by exists []]) ltac:(discriminate)
    ltac:(split; [repeat constructor; discriminate|by exists []]) ltac:(lia)
    ltac:(vm_compute; discriminate) ltac:(vm_compute; discriminate) ltac:(vm_compute; discriminate)).
Defined.

(** with a replacement at least as long as the searched text the call does
    nothing, however often the text occurs; in particular a placeholder such as
    ["[mac]"] is never filled in with the 17 characters of a MAC address. *)
Theorem find_and_replace_never_grows s x fm f rm r occ :
  no_nul s -> cstring fm f -> f <> [] -> cstring rm r -> zlen f <= zlen r ->
  0 <= occ <= 1000 -> zlen s <= 1000000 -> zlen f <= 1000000 -> zlen r <= 1000000 ->
  find_and_replace (Some (s ++ 0 :: x)) (Some fm) (Some rm) occ = Some (Some (s ++ 0 :: x)).
Proof.
  intros Hs Hf Hf0 Hr Hle Ho Hs1 Hf1 Hr1. rewrite (find_and_replace_spec s x fm f rm r) by done.
  unfold replaced. pose proof (replace_ref_len (Z.to_nat occ) f r s) as Hl.
  destruct (replace_ref (Z.to_nat occ) f r s) as [t o]. simpl in Hl.
  destruct (Z.ltb_spec (zlen t) (zlen s)); [nia|]. rewrite andb_false_r. done.
Qed.

(** ["d/[mac]"] and a MAC address in text. *)
Lemma find_and_replace_never_grows_witness :
  let placeholder := [91; 109; 97; 99; 93] in
  let mac := [97; 97; 58; 98; 98; 58; 99; 99; 58; 100; 100; 58; 101; 101; 58; 102; 102] in
  find_and_replace (Some ([100; 47] ++ placeholder ++ 0 :: replicate 40 0))
    (Some (placeholder ++ [0])) (Some (mac ++ [0])) 2 =
  Some (Some ([100; 47] ++ placeholder ++ 0 :: replicate 40 0)).
Proof.
  intros placeholder mac.
  exact (find_and_replace_never_grows ([100; 47] ++ placeholder) (replicate 40 0)
    (placeholder ++ [0]) placeholder (mac ++ [0]) mac 2
    ltac:(repeat constructor; discriminate)
    ltac:(split; [repeat constructor; discriminate|by exists []]) ltac:(discriminate)
    ltac:(split; [repeat constructor; discriminate|by exists []]) ltac:(vm_compute; discriminate)
    ltac:(lia) ltac:(vm_compute; discriminate) ltac:(vm_compute; discriminate)
    ltac:(vm_compute; discriminate)).
Defined.

(** *** IP addresses *)

(** The decimal text of an octet. *)
Definition octet (b : Z) : list Z := tmp_digits dec_digit 10 11 b.

Definition dotted (a b c d : Z) : list Z :=
  octet a ++ [dot] ++ octet b ++ [dot] ++ octet c ++ [dot] ++ octet d.

Lemma octet_spec b : byte_ok b ->
  decimal b (octet b) /\ 1 <= zlen (octet b) <= 3 /\
  exists num, Uint32ToString b (Some [0; 0; 0; 0]) 4 0 = Some (Some num) /\
    strlen num = Some (zlen (octet b)) /\ msub num 0 (zlen (octet b)) = Some (octet b).
Proof.
  intros Hb. unfold byte_ok in Hb. destruct (tmp_digits_u32 b ltac:(lia)) as [Hd Hl]. fold (octet b) in *.
  split; [done|]. destruct (decimal_bounds _ _ Hd) as (H1 & H2 & H3).
  assert (zlen (octet b) <= 3) as H4.
  { destruct H3 as [[-> _]|H3]; [by vm_compute|].
    assert (zlen (octet b) - 1 < 3); [|lia].
    apply (Z.pow_lt_mono_r_iff 10); [lia..|]. change (10 ^ 3) with 1000. lia. }
  split; [lia|]. eexists. split; [apply print_tmp_spec; by vm_compute|].
  unfold printed. fold (octet b). rewrite take_ge by (unfold zlen in H4; lia).
  rewrite Z.max_l by lia. simpl app.
  assert (no_nul (octet b)) as Hn.
  { destruct Hd as [Hd _]. eapply Forall_impl; [|exact Hd]. intros c Hc%is_digit_range. lia. }
  assert (cstring (octet b ++ zeros (4 - zlen (octet b) - 0) ++ []) (octet b)) as Hc.
  { split; [done|]. unfold zeros.
    replace (Z.to_nat (4 - zlen (octet b) - 0)) with (S (Z.to_nat (3 - zlen (octet b)))) by lia.
    simpl. eauto. }
  split; [by apply strlen_cstring|by apply msub_cstring].
Qed.

Lemma ip_octet_spec out k rest b i len :
  byte_ok b -> 0 <= k -> zlen out + zlen (octet b) + (if i <? 3 then 1 else 0) <= len - 1 ->
  len <= zlen out + k ->
  let t := octet b ++ (if i <? 3 then [dot] else []) in
  ip_octet (out ++ zeros k ++ rest) (zlen out) i b len =
    Some ((out ++ t) ++ zeros (k - zlen t) ++ rest, zlen (out ++ t)).
Proof.
  intros Hb Hk Hl Hk2 t. destruct (octet_spec b Hb) as (_ & Hz & num & E1 & E2 & E3).
  pose proof (zlen_nonneg out). unfold ip_octet. rewrite E1, E2.
  destruct (Z.gtb_spec (zlen out + zlen (octet b)) (len - 1)); [destruct (i <? 3); lia|].
  destruct (Z.gtb_spec (zlen (octet b)) 0); [|lia]. rewrite E3.
  assert (zeros k = zeros (zlen (octet b)) ++ zeros (k - zlen (octet b))) as ->.
  { unfold zeros. rewrite <- replicate_add. f_equal. destruct (i <? 3); lia. }
  rewrite <- app_assoc.
  rewrite mcpy_app_mid by (unfold zeros; rewrite zlen_replicate; lia).
  unfold t. destruct (Z.ltb_spec i 3) as [Hi|Hi]; simpl andb.
  - destruct (Z.ltb_spec (zlen out + zlen (octet b)) (len - 1)); [|lia].
    assert (zeros (k - zlen (octet b)) = 0 :: zeros (k - zlen (octet b) - 1)) as ->.
    { unfold zeros. replace (Z.to_nat (k - zlen (octet b))) with (S (Z.to_nat (k - zlen (octet b) - 1))) by lia.
      done. }
    pose proof (mset_app_mid (out ++ octet b) 0 (zeros (k - zlen (octet b) - 1) ++ rest) dot) as M.
    rewrite zlen_app, <- !app_assoc in M. cbn [app] in M |- *. rewrite M.
    rewrite !zlen_app. change (zlen [dot]) with 1. rewrite <- !app_assoc. cbn [app].
    rewrite Z.sub_add_distr, Z.add_assoc. done.
  - rewrite app_nil_r, zlen_app, <- app_assoc. do 2 f_equal.
Qed.

Lemma ip_print_spec str a b c d len :
  byte_ok a -> byte_ok b -> byte_ok c -> byte_ok d -> 16 <= len <= zlen str ->
  exists rest, int_ip_to_str (Some str) (Some [a; b; c; d]) len =
    Some (Some (dotted a b c d ++ 0 :: rest)).
Proof.
  intros Ha Hb Hc Hd Hl. unfold int_ip_to_str. destruct (Z.leb_spec len 0); [lia|].
  rewrite mfill_0 by lia. cbn [ip_loop].
  change (mget [a; b; c; d] 0) with (Some a). change (mget [a; b; c; d] (0 + 1)) with (Some b).
  change (mget [a; b; c; d] (0 + 1 + 1)) with (Some c).
  change (mget [a; b; c; d] (0 + 1 + 1 + 1)) with (Some d). cbv iota.
  destruct (octet_spec a Ha) as (_ & La & _), (octet_spec b Hb) as (_ & Lb & _),
    (octet_spec c Hc) as (_ & Lc & _), (octet_spec d Hd) as (_ & Ld & _).
  pose proof (ip_octet_spec [] len (drop (Z.to_nat len) str) a 0 len Ha) as E.
  change (zlen (@nil Z)) with 0 in E. simpl app in E. unfold zeros in E at 1. rewrite E by (simpl; lia).
  change (0 <? 3) with true. cbv iota.
  assert (forall x, zlen (octet x ++ [dot]) = zlen (octet x) + 1) as Eo
    by (intros; rewrite zlen_app; done).
  change (0 + 1 + 1 + 1) with 3. change (0 + 1 + 1) with 2. change (0 + 1) with 1.
  rewrite ip_octet_spec by (change (1 <? 3) with true; rewrite ?zlen_app;
    change (zlen [dot]) with 1; lia || done).
  change (1 <? 3) with true. cbv iota.
  rewrite ip_octet_spec by (change (2 <? 3) with true; rewrite ?zlen_app;
    change (zlen [dot]) with 1; lia || done).
  change (2 <? 3) with true. cbv iota.
  rewrite ip_octet_spec by (change (3 <? 3) with false; rewrite ?zlen_app;
    change (zlen [dot]) with 1; lia || done).
  change (3 <? 3) with false. cbv iota.
  rewrite app_nil_r.
  set (k := len - _ - _ - _ - _). assert (1 <= k).
  { unfold k. rewrite !zlen_app. change (zlen [dot]) with 1. lia. }
  unfold zeros. replace (Z.to_nat k) with (S (Z.to_nat (k - 1))) by lia. cbn [replicate app].
  rewrite mset_app_mid. eexists. unfold dotted. rewrite <- !app_assoc. reflexivity.
Qed.

Lemma parse_octet b ds c rest :
  decimal b ds -> byte_ok b -> zlen ds <= 3 -> is_digit c = false -> is_pad c = false ->
  StringToUint8 (Some (ds ++ c :: rest)) 3 = Some b.
Proof.
  intros (Hd & Hv & Hz & Hn) Hb Hl Hc Hp. unfold byte_ok in Hb. unfold StringToUint8.
  destruct Hz as [->|Hz].
  - assert (b = 0) as -> by (rewrite <- Hv; done).
    apply (parse_spec u8 256 [48] [] c rest 3); try done. by repeat constructor.
  - assert (is_pad (hd c ds) = false) as Hh.
    { destruct ds as [|x ds]; [done|]. simpl in *. apply Forall_cons_iff in Hd as [Hx _].
      apply is_digit_range in Hx. unfold is_pad.
      destruct (Z.eqb_spec x 48), (Z.eqb_spec x 32), (Z.eqb_spec x 34); simpl; done || lia. }
    pose proof (parse_spec u8 256 [] ds c rest 3) as P. rewrite Hv, Z.mod_small in P by lia.
    apply P; done || lia.
Qed.

(** Characters that are no dots are passed over. *)
Lemma ip_parse_skip ds : forall s i n len ip k,
  Forall (fun c => is_digit c = true) ds -> 0 <= i -> i + zlen ds <= n -> i + zlen ds <= len ->
  ip_parse_loop (ds ++ s) i n len ip k = ip_parse_loop s (i + zlen ds) n len ip k.
Proof.
  induction ds as [|c ds IH]; intros s i n len ip k Hd Hi Hn Hl.
  - change (zlen (@nil Z)) with 0. by rewrite Z.add_0_r.
  - apply Forall_cons_iff in Hd as [Hc Hd]. apply is_digit_range in Hc.
    rewrite zlen_cons in *. pose proof (zlen_nonneg ds). cbn [app ip_parse_loop].
    destruct (Z.ltb_spec i n); [|lia]. destruct (Z.ltb_spec i len); [|lia]. simpl.
    destruct (Z.eqb_spec c dot); [unfold dot in *; lia|]. simpl.
    rewrite IH by (done || lia). f_equal. lia.
Qed.

Lemma ip_parse_dot b c s i n len ip k v0 rest :
  byte_ok b -> is_digit c = false -> is_pad c = false ->
  0 <= i < n -> i < len -> k < 4 -> zlen ip = k ->
  ip_parse_loop (dot :: octet b ++ c :: s) i n len (ip ++ v0 :: rest) k =
  ip_parse_loop (octet b ++ c :: s) (i + 1) n len ((ip ++ [b]) ++ rest) (k + 1).
Proof.
  intros Hb Hc Hp Hi Hl Hk E. destruct (octet_spec b Hb) as (Hd & Hz & _).
  cbn [ip_parse_loop]. destruct (Z.ltb_spec i n); [|lia]. destruct (Z.ltb_spec i len); [|lia].
  rewrite Z.eqb_refl. destruct (Z.ltb_spec k 4); [|lia]. simpl andb. cbv iota.
  rewrite (parse_octet b) by (done || lia). subst k. rewrite mset_app_mid.
  by rewrite <- app_assoc.
Qed.

(** an address printed by [__int_ip_to_str] into a buffer of at least 16
    bytes is its dotted decimal form and is read back by [__str_ip_to_int]. *)
Theorem ip_text_roundtrip str a b c d len ip0 :
  byte_ok a -> byte_ok b -> byte_ok c -> byte_ok d ->
  16 <= len < 256 -> len <= zlen str -> zlen ip0 = 4 ->
  exists s, int_ip_to_str (Some str) (Some [a; b; c; d]) len = Some (Some s) /\
    cstring s (dotted a b c d) /\
    str_ip_to_int s ip0 len false = Some ([a; b; c; d], s).
Proof.
  intros Ha Hb Hc Hd Hl Hs Hip.
  destruct (ip_print_spec str a b c d len Ha Hb Hc Hd ltac:(lia)) as (rest & E).
  eexists. split; [exact E|].
  assert (cstring (dotted a b c d ++ 0 :: rest) (dotted a b c d)) as Hcs.
  { split; [|eauto]. unfold dotted.
    assert (forall x, byte_ok x -> no_nul (octet x)) as Hn.
    { intros x Hx. destruct (octet_spec x Hx) as ((Hdg & _) & _).
      eapply Forall_impl; [|exact Hdg]. intros y Hy%is_digit_range. lia. }
    repeat (apply Forall_app; split); (by apply Hn) || (constructor; [discriminate|constructor]). }
  split; [done|]. unfold str_ip_to_int. rewrite (strlen_cstring _ _ Hcs).
  destruct ip0 as [|p0 [|p1 [|p2 [|p3 [|]]]]]; try (unfold zlen in Hip; simpl in Hip; lia).
  destruct (octet_spec a Ha) as (Da & La & _), (octet_spec b Hb) as (Db & Lb & _),
    (octet_spec c Hc) as (Dc & Lc & _), (octet_spec d Hd) as (Dd & Ld & _).
  assert (zlen (dotted a b c d) =
    zlen (octet a) + zlen (octet b) + zlen (octet c) + zlen (octet d) + 3) as ->.
  { unfold dotted. rewrite !zlen_app. change (zlen [dot]) with 1. lia. }
  set (n := _ + 3). unfold dotted. rewrite <- !app_assoc. cbn [app].
  rewrite (parse_octet a) by (done || lia). rewrite mset_0.
  rewrite ip_parse_skip by (apply Da || lia).
  rewrite (ip_parse_dot b dot _ _ _ _ [a] 1 p1 [p2; p3]) by (done || lia).
  rewrite ip_parse_skip by (apply Db || lia).
  rewrite (ip_parse_dot c dot _ _ _ _ [a; b] _ p2 [p3]) by (done || lia).
  rewrite ip_parse_skip by (apply Dc || lia).
  rewrite (ip_parse_dot d 0 _ _ _ _ [a; b; c] _ p3 []) by (done || lia).
  rewrite ip_parse_skip by (apply Dd || lia).
  cbn [ip_parse_loop].
  match goal with |- context [?i <? n] => destruct (Z.ltb_spec i n) as [Hlt|] end;
    [unfold n in Hlt; lia|]. done.
Qed.

Lemma ip_text_roundtrip_witness :
  exists s, int_ip_to_str (Some (replicate 20 7)) (Some [192; 168; 0; 255]) 20 = Some (Some s) /\
    cstring s (dotted 192 168 0 255) /\
    str_ip_to_int s [0; 0; 0; 0] 20 false = Some ([192; 168; 0; 255], s).
Proof.
  exact (ip_text_roundtrip (replicate 20 7) 192 168 0 255 20 [0; 0; 0; 0] ltac:(done) ltac:(done)
    ltac:(done) ltac:(done) ltac:(lia) ltac:(vm_compute; discriminate) eq_refl).
Defined.

(** with the default length of 15 the last digit of a 15-character address
    is lost, since the terminator takes one of the 15 bytes. *)
Theorem ip_default_len_cuts :
  exists s, int_ip_to_str (Some (replicate 16 0)) (Some [255; 255; 255; 255]) 15 = Some (Some s) /\
    str_ip_to_int s [0; 0; 0; 0] 15 false = Some ([255; 255; 255; 25], s).
Proof. eexists. split; vm_compute; reflexivity. Qed.
End StrOps.
