(* ===== verification/Printf.v ===== *)
(** * Formatted text ([src/utility/StringOperations.cpp])

    [__vsnprintf] with [__snprintf] and [__sprintf], and [__appendUintToBuff].  The
    variable arguments are a list of values; reading one of another type than the one
    passed, or one more than were passed, is undefined.

    The theorem: the output is what the C standard says of the format, with integers taken
    as 32 bits and fields other than strings padded to at most 31 characters, cut to the
    size of the buffer, and never written past it. *)

From stdpp Require Import base option list numbers.
From Stdlib Require Import ZArith Lia.
From S2P Require Import Prelude Conversions StrOps.
Import Conversions.

Open Scope Z_scope.

Module Printf.

(** ** The code *)

Inductive varg := VInt (v : Z) | VDouble (d : double) | VStr (s : option (list Z)).

(** [while ( *p == '0' || *p == '-')] *)
Fixpoint flag_loop (p : list Z) (zero_pad left_justify : bool) : option (bool * bool * list Z) :=
  match p with
  | [] => None
  | c :: p' =>
      if c =? 48 then flag_loop p' true left_justify
      else if c =? 45 then flag_loop p' zero_pad true
      else Some (zero_pad, left_justify, p)
  end.

(** [while ( *p >= '0' && *p <= '9')]; an [int]. *)
Fixpoint width_loop (p : list Z) (width : Z) : option (Z * list Z) :=
  match p with
  | [] => None
  | c :: p' =>
      if (48 <=? c) && (c <=? 57) then
        let width := width * 10 + (c - 48) in
        if width <=? 2147483647 then width_loop p' width else None
      else Some (width, p)
  end.

(** [for (int i = 0; i < n && pos < size - 1; i++) str[pos++] = c;] *)
Fixpoint fill_loop (n : nat) (str : list Z) (pos size c : Z) : option (list Z * Z) :=
  match n with
  | O => Some (str, pos)
  | S n =>
      if pos <? size - 1 then str <- mset str pos c;; fill_loop n str (pos + 1) size c
      else Some (str, pos)
  end.

(** [for (int i = 0; i < slen && pos < size - 1; i++) str[pos++] = s[i];] *)
Fixpoint copy_loop (s : list Z) (str : list Z) (pos size : Z) : option (list Z * Z) :=
  match s with
  | [] => Some (str, pos)
  | c :: s =>
      if pos <? size - 1 then str <- mset str pos c;; copy_loop s str (pos + 1) size
      else Some (str, pos)
  end.

Definition __snprintf_copy (str : list Z) (size pos : Z) (src : list Z) (src_len : Z) : option (list Z * Z) :=
  if (pos >=? size - 1) || (src_len <=? 0) then Some (str, pos)
  else
    let room := size - 1 - pos in
    let n := if src_len <? room then src_len else room in
    t <- msub src 0 n;;
    str <- mcpy str pos t;;
    Some (str, pos + n).

(** The padding of what is in the [tmp] of 32 bytes. *)
Definition pad_tmp (zero_pad left_justify : bool) (width : Z) (tmp : list Z) (tmplen : Z) : option (list Z * Z) :=
  if (width >? tmplen) && (tmplen <? 32 - 1) then
    let shift := width - tmplen in
    let shift := if tmplen + shift >? 32 - 1 then 32 - 1 - tmplen else shift in
    if left_justify then
      tmp <- mfill tmp tmplen 32 shift;;
      tmp <- mset tmp (tmplen + shift) 0;;
      Some (tmp, tmplen + shift)
    else
      let pad := if zero_pad then 48 else 32 in
      first <- mget tmp 0;;
      tmp <- (if zero_pad && (tmplen >? 0) && (first =? 45) then
                t <- msub tmp 1 (tmplen - 1);; tmp <- mcpy tmp (1 + shift) t;; mfill tmp 1 48 shift
              else
                t <- msub tmp 0 tmplen;; tmp <- mcpy tmp shift t;; mfill tmp 0 pad shift);;
      tmp <- mset tmp (tmplen + shift) 0;;
      Some (tmp, tmplen + shift)
  else Some (tmp, tmplen).

(** A number written to [tmp], and its length. *)
Definition number (r : option (option (list Z))) : option (list Z * Z) := t <- r;; t <- t;; n <- strlen t;; Some (t, n).

(** What the [switch] leaves: a text in [tmp] to be padded, or nothing more to do. *)
Inductive spec_result := InTmp (tmp : list Z) (tmplen : Z) | Inline (str : list Z) (pos : Z).

(** [case 's'] *)
Definition string_spec (left_justify : bool) (width : Z) (s : option (list Z)) (str : list Z) (pos size : Z) : option (list Z * Z) :=
  s <- (match s with None => Some [] | Some s => n <- strlen s;; msub s 0 n end);;
  let slen := zlen s in
  '(str, pos) <- (if negb left_justify && (width >? slen) then fill_loop (Z.to_nat (width - slen)) str pos size 32 else Some (str, pos));;
  '(str, pos) <- copy_loop s str pos size;;
  if left_justify && (width >? slen) then fill_loop (Z.to_nat (width - slen)) str pos size 32 else Some (str, pos).

(** [default] *)
Definition unknown_spec (is_long : bool) (p : list Z) (str : list Z) (pos size : Z) : option (list Z * list Z * Z) :=
  '(str, pos) <- copy_loop [37] str pos size;;
  '(str, pos) <- (if is_long then copy_loop [108] str pos size else Some (str, pos));;
  match p with
  | [] => None
  | c :: p' =>
      if negb (c =? 0) && (pos <? size - 1) then '(str, pos) <- copy_loop [c] str pos size;; Some (p', str, pos)
      else Some (p, str, pos)
  end.

(** From the character of the conversion on; [tmp] is the array as it is found. *)
Definition convert (is_long left_justify : bool) (width : Z) (tmp p : list Z) (args : list varg) (str : list Z) (pos size : Z)
  : option (list Z * list varg * spec_result) :=
  match p with
  | [] => None
  | c :: p' =>
      if (c =? 100) || (c =? 105) then
        match args with VInt v :: args => '(t, n) <- number (Int32ToString (i32 v) (Some tmp) 32 0);; Some (p', args, InTmp t n) | _ => None end
      else if c =? 117 then
        match args with VInt v :: args => '(t, n) <- number (Uint32ToString (u32 v) (Some tmp) 32 0);; Some (p', args, InTmp t n) | _ => None end
      else if (c =? 120) || (c =? 88) then
        match args with VInt v :: args => '(t, n) <- number (Uint32ToHexString (u32 v) (Some tmp) 32 (c =? 88));; Some (p', args, InTmp t n) | _ => None end
      else if c =? 102 then
        match args with VDouble d :: args => '(t, n) <- number (FloatToString d (Some tmp) 32 0);; Some (p', args, InTmp t n) | _ => None end
      else if c =? 115 then
        match args with VStr s :: args => '(str, pos) <- string_spec left_justify width s str pos size;; Some (p', args, Inline str pos) | _ => None end
      else if c =? 99 then
        match args with VInt v :: args => t <- mset tmp 0 (u8 v);; t <- mset t 1 0;; Some (p', args, InTmp t 1) | _ => None end
      else if c =? 37 then t <- mset tmp 0 37;; t <- mset t 1 0;; Some (p', args, InTmp t 1)
      else '(p, str, pos) <- unknown_spec is_long p str pos size;; Some (p, args, Inline str pos)
  end.

(** One conversion, from behind the [%] on. *)
Definition conversion (tmp p : list Z) (args : list varg) (str : list Z) (pos size : Z) : option (list Z * list varg * list Z * Z) :=
  '(zero_pad, left_justify, p) <- flag_loop p false false;;
  '(width, p) <- width_loop p 0;;
  let is_long := bool_decide (head p = Some 108) in
  let p := if is_long then drop 1 p else p in
  '(p, args, r) <- convert is_long left_justify width tmp p args str pos size;;
  match r with
  | Inline str pos => Some (p, args, str, pos)
  | InTmp t n =>
      '(t, n) <- pad_tmp zero_pad left_justify width t n;;
      '(str, pos) <- __snprintf_copy str size pos t n;;
      Some (p, args, str, pos)
  end.

(** The main loop; each turn consumes a character of the format. *)
Fixpoint format_loop (fuel : nat) (tmp p : list Z) (args : list varg) (str : list Z) (pos size : Z) : option (list Z * Z) :=
  match p with
  | [] => None
  | c :: p' =>
      if negb (c =? 0) && (pos <? size - 1) then
        match fuel with
        | O => None
        | S fuel =>
            if negb (c =? 37) then str <- mset str pos c;; format_loop fuel tmp p' args str (pos + 1) size
            else '(p, args, str, pos) <- conversion tmp p' args str pos size;; format_loop fuel tmp p args str pos size
        end
      else Some (str, pos)
  end.

(** [tmp]: what the local array holds. *)
Definition __vsnprintf (tmp : list Z) (str : option (list Z)) (size : Z) (format : option (list Z)) (args : list varg) : option (Z * option (list Z)) :=
  match str, format with
  | Some s, Some f =>
      if size <=? 0 then Some (0, str)
      else
        '(s, pos) <- format_loop (length f) tmp f args s 0 size;;
        s <- mset s pos 0;;
        Some (pos, Some s)
  | _, _ => Some (0, str)
  end.

Definition __snprintf := __vsnprintf.

Definition __sprintf (tmp : list Z) (str format : option (list Z)) (args : list varg) : option (Z * option (list Z)) := __vsnprintf tmp str 2147483647 format args.

(** ** Reference *)

Inductive kind := Kd | Ki | Ku | Kx | KX | Kf | Ks | Kc | Kpercent.

#[export] Instance kind_eq_dec : EqDecision kind.
Proof. solve_decision. Defined.

Definition kind_char (k : kind) : Z :=
  match k with Kd => 100 | Ki => 105 | Ku => 117 | Kx => 120 | KX => 88 | Kf => 102 | Ks => 115 | Kc => 99 | Kpercent => 37 end.

(** A format: characters, and conversions with flags, a width (0: none) and a length
    modifier. *)
Inductive directive := Lit (c : Z) | Conv (flags : list Z) (width : Z) (long : bool) (k : kind).

Definition directive_text (d : directive) : list Z :=
  match d with
  | Lit c => [c]
  | Conv flags width long k =>
      37 :: flags ++ (if width =? 0 then [] else tmp_digits dec_digit 10 11 width) ++ (if long then [108] else []) ++ [kind_char k]
  end.

Definition format_text (ds : list directive) : list Z := concat (map directive_text ds).

(** The width is any [int]. *)
Definition directive_ok (d : directive) : Prop :=
  match d with
  | Lit c => c <> 0 /\ c <> 37
  | Conv flags width _ _ => Forall (fun c => c = 48 \/ c = 45) flags /\ 0 <= width <= 2147483647
  end.

Definition fill (n c : Z) : list Z := replicate (Z.to_nat n) c.

(** To the left; with zeros, behind the sign; to the right. *)
Definition padded (zero left : bool) (width : Z) (t : list Z) : list Z :=
  let n := width - zlen t in
  if left then t ++ fill n 32
  else if zero then match t with 45 :: d => 45 :: fill n 48 ++ d | _ => fill n 48 ++ t end
  else fill n 32 ++ t.

(** [t] denotes [u] to the base 16. *)
Definition hex_text (cap : bool) (u : Z) (t : list Z) : Prop :=
  exists ds, t = map (hex_digit cap) ds /\ Forall (fun d => 0 <= d < 16) ds /\ fold_left (fun v d => 16 * v + d) ds 0 = u /\
    (ds = [0] \/ hd 0 ds <> 0) /\ ds <> [].

(** The text of an argument: integers of 32 bits, with the modifier or without; [F] are the
    texts of a [double]. *)
Inductive text_of (F : double -> list Z -> Prop) : kind -> varg -> list Z -> Prop :=
  | text_d v t : int_text (i32 v) t -> text_of F Kd (VInt v) t
  | text_i v t : int_text (i32 v) t -> text_of F Ki (VInt v) t
  | text_u v t : decimal (u32 v) t -> text_of F Ku (VInt v) t
  | text_x v t : hex_text false (u32 v) t -> text_of F Kx (VInt v) t
  | text_X v t : hex_text true (u32 v) t -> text_of F KX (VInt v) t
  | text_f d t : F d t -> text_of F Kf (VDouble d) t
  | text_c v : text_of F Kc (VInt v) [u8 v]
  | text_s m s : cstring m s -> text_of F Ks (VStr (Some m)) s
  | text_null : text_of F Ks (VStr None) [].

(** What is not a string is padded to at most 31 characters. *)
Definition field_width (k : kind) (w : Z) : Z := match k with Ks => w | _ => Z.min w 31 end.

(** The text of a format with these arguments; zeros do not fill strings. *)
Inductive renders (F : double -> list Z -> Prop) : list directive -> list varg -> list Z -> Prop :=
  | renders_nil args : renders F [] args []
  | renders_lit c ds args o : renders F ds args o -> renders F (Lit c :: ds) args (c :: o)
  | renders_percent flags w l ds args o : renders F ds args o ->
      renders F (Conv flags w l Kpercent :: ds) args (padded (bool_decide (48 ∈ flags)) (bool_decide (45 ∈ flags)) (field_width Kpercent w) [37] ++ o)
  | renders_arg flags w l k a t ds args o : text_of F k a t -> renders F ds args o ->
      renders F (Conv flags w l k :: ds) (a :: args)
        (padded (match k with Ks => false | _ => bool_decide (48 ∈ flags) end) (bool_decide (45 ∈ flags)) (field_width k w) t ++ o).

(** The arguments are of the types the format asks for. *)
Definition arg_ok (k : kind) (a : varg) : Prop :=
  match k, a with
  | (Kd | Ki | Ku | Kx | KX | Kc), VInt _ => True
  | Kf, VDouble d => double_ok d
  | Ks, VStr None => True
  | Ks, VStr (Some m) => exists s, cstring m s
  | _, _ => False
  end.

Fixpoint takes (ds : list directive) (args : list varg) : Prop :=
  match ds with
  | [] => True
  | Lit _ :: ds | Conv _ _ _ Kpercent :: ds => takes ds args
  | Conv _ _ _ k :: ds => match args with [] => False | a :: args => arg_ok k a /\ takes ds args end
  end.

(** ** Writing *)

(** The part of the buffer written and the rest of it; [o] written as far as there is room. *)
Definition emit (size : Z) (s : list Z * list Z) (o : list Z) : list Z * list Z :=
  let t := take (Z.to_nat (size - 1 - zlen s.1)) o in (s.1 ++ t, drop (length t) s.2).

(** The buffer has room for what is written of [o], and a terminator. *)
Definition fits (size : Z) (s : list Z * list Z) (o : list Z) : Prop := zlen s.1 <= size - 1 /\ Z.min (size - 1) (zlen s.1 + zlen o) < zlen s.1 + zlen s.2.

Lemma fits_before size s o1 o2 : fits size s (o1 ++ o2) -> fits size s o1.
Proof. unfold fits. rewrite zlen_app. pose proof (zlen_nonneg o2). lia. Qed.

Lemma emit_fits size s o1 o2 : fits size s (o1 ++ o2) -> fits size (emit size s o1) o2.
Proof.
  unfold fits, emit, zlen. cbn [fst snd]. rewrite !length_app, length_drop. intros [H1 H2].
  pose proof (length_take o1 (Z.to_nat (size - 1 - Z.of_nat (length s.1)))). lia.
Qed.

Lemma emit_nil size s : emit size s [] = s.
Proof. destruct s as [a b]. unfold emit. rewrite take_nil. cbn. by rewrite app_nil_r. Qed.

Lemma emit_app size s o1 o2 : zlen s.1 <= size - 1 -> emit size (emit size s o1) o2 = emit size s (o1 ++ o2).
Proof.
  unfold emit, zlen. cbn [fst snd]. intros H1. rewrite take_app, length_app, length_take.
  set (k := Z.to_nat (size - 1 - Z.of_nat (length s.1))).
  replace (Z.to_nat (size - 1 - Z.of_nat (length s.1 + Nat.min k (length o1)))) with (k - length o1)%nat by lia.
  rewrite <- app_assoc, drop_drop, length_app, (length_take o1 k). done.
Qed.

(** The buffer and the position. *)
Definition out (s : list Z * list Z) : list Z * Z := (s.1 ++ s.2, zlen s.1).

Lemma copy_loop_emit size o : forall s, fits size s o -> copy_loop o (s.1 ++ s.2) (zlen s.1) size = Some (out (emit size s o)).
Proof.
  induction o as [|c o IH]; intros s Hs; cbn [copy_loop]; [by rewrite emit_nil|]. destruct (Hs) as [H1 H2]. destruct (Z.ltb_spec (zlen s.1) (size - 1)) as [Hl|Hl].
  - destruct s as [pre [|r rest]]; cbn [fst snd] in *; [change (zlen []) with 0 in H2; rewrite zlen_cons in H2; pose proof (zlen_nonneg o); lia|]. rewrite mset_app_mid. cbn [mbind option_bind].
    assert (emit size (pre, r :: rest) [c] = (pre ++ [c], rest)) as E.
    { unfold emit. cbn [fst snd]. destruct (Z.to_nat (size - 1 - zlen pre)) eqn:En; [lia|]. cbn. by rewrite take_nil. }
    change (c :: o) with ([c] ++ o). rewrite <- (emit_app size (pre, r :: rest) [c] o H1), E. specialize (IH (pre ++ [c], rest)). cbn [fst snd] in IH.
    rewrite <- app_assoc, zlen_app in IH. apply IH. unfold fits. cbn [fst snd]. rewrite zlen_app. rewrite !zlen_cons in H2. change (zlen [c]) with 1. lia.
  - unfold emit. replace (Z.to_nat (size - 1 - zlen s.1)) with 0%nat by lia. cbn. unfold out. cbn. by rewrite app_nil_r.
Qed.

Lemma fill_loop_copy n : forall str pos size c, fill_loop n str pos size c = copy_loop (replicate n c) str pos size.
Proof. induction n as [|n IH]; intros; cbn; [done|]. destruct (_ <? _); [|done]. destruct (mset str pos c); [|done]. apply IH. Qed.

Lemma mset_out size s c : fits size s [c] -> zlen s.1 < size - 1 -> mset (s.1 ++ s.2) (zlen s.1) c = Some (out (emit size s [c])).1 /\ zlen s.1 + 1 = (out (emit size s [c])).2.
Proof.
  intros Hs Hl. pose proof (copy_loop_emit size [c] s Hs) as E. cbn [copy_loop] in E. destruct (Z.ltb_spec (zlen s.1) (size - 1)); [|lia].
  destruct (mset _ _ _); [|done]. destruct (out (emit size s [c])) as [a b]. cbn [mbind option_bind] in E. by injection E as -> ->.
Qed.

Lemma snprintf_copy_emit size s t x : fits size s t -> __snprintf_copy (s.1 ++ s.2) size (zlen s.1) (t ++ x) (zlen t) = Some (out (emit size s t)).
Proof.
  intros Hs. destruct (Hs) as [H1 H2]. unfold __snprintf_copy. destruct (Z.geb_spec (zlen s.1) (size - 1)) as [Hg|Hg]; cbn [orb].
  { unfold emit. replace (Z.to_nat (size - 1 - zlen s.1)) with 0%nat by lia. unfold out. cbn. by rewrite app_nil_r. }
  destruct (Z.leb_spec (zlen t) 0) as [Ht|Ht]; [destruct t; [by rewrite emit_nil|rewrite zlen_cons in Ht; pose proof (zlen_nonneg t); lia]|].
  set (k := if zlen t <? size - 1 - zlen s.1 then zlen t else size - 1 - zlen s.1). set (u := take (Z.to_nat (size - 1 - zlen s.1)) t).
  assert (k = zlen u) as Ek by (unfold k, u, zlen in *; rewrite length_take; destruct (Z.ltb_spec (Z.of_nat (length t)) (size - 1 - Z.of_nat (length s.1))); lia).
  assert (t = u ++ drop (Z.to_nat (size - 1 - zlen s.1)) t) as Et by (unfold u; by rewrite take_drop).
  assert (msub (t ++ x) 0 k = Some u) as ->. { rewrite Et, <- app_assoc, Ek. apply (msub_app_mid [] u). }
  cbn [mbind option_bind]. assert (zlen u <= zlen s.2) by (rewrite <- Ek; unfold k; destruct (_ <? _) eqn:?; [apply Z.ltb_lt in Heqb|]; lia).
  rewrite <- (take_drop (length u) s.2) at 1. rewrite mcpy_app_mid; [|unfold zlen in *; rewrite length_take; lia]. cbn [mbind option_bind]. rewrite Ek.
  unfold out, emit. cbn [fst snd]. fold u. by rewrite zlen_app, <- app_assoc.
Qed.

(** ** Notations of a number *)

Section notation.
Variables (f : Z -> Z) (base : Z).
Hypothesis (Hbase : 1 < base).

Definition value (cs : list Z) : Z := fold_left (fun v c => base * v + f c) cs 0.

Definition digits (cs : list Z) : Prop := Forall (fun c => 0 <= f c < base) cs.

Definition lead (cs : list Z) : Prop := cs = [] \/ f (hd 0 cs) <> 0.

Lemma value_snoc cs c : value (cs ++ [c]) = base * value cs + f c.
Proof. unfold value. by rewrite fold_left_app. Qed.

Lemma lead_snoc cs c : lead (cs ++ [c]) -> lead cs.
Proof. intros [E|Hl]; [by destruct cs|]. destruct cs; [by left|by right]. Qed.

Lemma value_pos cs : digits cs -> lead cs -> cs <> [] -> 0 < value cs.
Proof.
  induction cs as [|c cs IH] using rev_ind; intros Hd Hl Hn; [done|]. apply Forall_app in Hd as [Hd Hc]. apply Forall_cons_1 in Hc as [Hc _]. rewrite value_snoc.
  destruct cs as [|a cs]; [|specialize (IH Hd (lead_snoc _ _ Hl) ltac:(done)); nia]. destruct Hl as [|Hl]; [done|]. cbn in Hl |- *. lia.
Qed.

Lemma value_inj cs1 : forall cs2, (forall a b, f a = f b -> a = b) -> digits cs1 -> digits cs2 -> lead cs1 -> lead cs2 -> value cs1 = value cs2 -> cs1 = cs2.
Proof.
  induction cs1 as [|a cs1 IH] using rev_ind; intros cs2 Hf Hd1 Hd2 Hl1 Hl2 E.
  - destruct cs2 as [|b cs2]; [done|]. pose proof (value_pos _ Hd2 Hl2 ltac:(done)). change (value []) with 0 in E. lia.
  - destruct cs2 as [|b cs2 _] using rev_ind; [pose proof (value_pos _ Hd1 Hl1 ltac:(by destruct cs1)); change (value []) with 0 in E; lia|].
    apply Forall_app in Hd1 as [Hd1 Ha]. apply Forall_app in Hd2 as [Hd2 Hb]. apply Forall_cons_1 in Ha as [Ha _]. apply Forall_cons_1 in Hb as [Hb _].
    rewrite !value_snoc in E. assert (value cs1 = value cs2) as Ev by nia.
    rewrite (IH cs2 Hf Hd1 Hd2 (lead_snoc _ _ Hl1) (lead_snoc _ _ Hl2) Ev). f_equal. f_equal. apply Hf. nia.
Qed.

(** Without a leading zero, or the one zero. *)
Lemma notation_unique z cs1 cs2 : (forall a b, f a = f b -> a = b) -> f z = 0 -> digits cs1 -> digits cs2 -> cs1 = [z] \/ hd 0 cs1 <> z -> cs2 = [z] \/ hd 0 cs2 <> z ->
  cs1 <> [] -> cs2 <> [] -> value cs1 = value cs2 -> cs1 = cs2.
Proof.
  intros Hf Hz Hd1 Hd2 H1 H2 Hn1 Hn2 E. assert (forall cs, digits cs -> hd 0 cs <> z -> lead cs) as Hlead by (intros cs _ Hc; right; intros E0; apply Hc, Hf; congruence).
  assert (value [z] = 0) as Ez by (cbn; lia). destruct H1 as [->|H1], H2 as [->|H2]; [done| | |by apply value_inj; auto].
  - pose proof (value_pos cs2 Hd2 (Hlead _ Hd2 H2) Hn2). lia.
  - pose proof (value_pos cs1 Hd1 (Hlead _ Hd1 H1) Hn1). lia.
Qed.

End notation.

Lemma decimal_unique u t1 t2 : decimal u t1 -> decimal u t2 -> t1 = t2.
Proof.
  intros (D1 & V1 & L1 & N1) (D2 & V2 & L2 & N2).
  assert (forall t, Forall (fun c => is_digit c = true) t -> digits (fun c => c - 48) 10 t) as Hd.
  { intros t. apply Forall_impl. intros c Hc. unfold is_digit in Hc. apply andb_true_iff in Hc as [H1%Z.leb_le H2%Z.leb_le]. lia. }
  apply (notation_unique (fun c => c - 48) 10 ltac:(lia) 48); auto; [lia|]. unfold dec_value in V1, V2. unfold value. congruence.
Qed.

Lemma int_text_unique v t1 t2 : int_text v t1 -> int_text v t2 -> t1 = t2.
Proof.
  unfold int_text. intros (d1 & D1 & ->) (d2 & D2 & ->). by rewrite (decimal_unique _ _ _ D1 D2).
Qed.

Lemma hex_unique cap u t1 t2 : hex_text cap u t1 -> hex_text cap u t2 -> t1 = t2.
Proof.
  intros (d1 & -> & D1 & V1 & L1 & N1) (d2 & -> & D2 & V2 & L2 & N2). f_equal. apply (notation_unique (fun d => d) 16 ltac:(lia) 0); auto. unfold value. congruence.
Qed.

(** What [Uint32ToHexString] prints. *)
Lemma rev_digits_hex cap n : forall u, 0 < u < 16 ^ Z.of_nat n -> hex_text cap u (rev_digits (hex_digit cap) 16 n u []) /\ (length (rev_digits (hex_digit cap) 16 n u []) <= n)%nat.
Proof.
  induction n as [|n IH]; intros u Hu; [cbn in Hu; lia|]. cbn [rev_digits]. destruct (Z.gtb_spec u 0); [|lia]. rewrite Nat2Z.inj_succ, Z.pow_succ_r in Hu by lia.
  rewrite rev_digits_app. assert (0 <= u mod 16 < 16) as Hm by div_lia. destruct (Z.eq_dec (u / 16) 0) as [E|E].
  - rewrite E. replace (rev_digits (hex_digit cap) 16 n 0 []) with (@nil Z) by (by destruct n). assert (u mod 16 = u) as Eu by div_lia. rewrite Eu. split; [|cbn; lia].
    exists [u]. split; [done|]. split; [constructor; [lia|done]|]. split; [cbn; lia|]. split; [right; cbn; lia|done].
  - destruct (IH (u / 16)) as [(ds & -> & Hd & Hv & Hz & Hn) Hl]; [div_lia|]. rewrite length_map in Hl. split; [|rewrite length_app, length_map; cbn; lia].
    exists (ds ++ [u mod 16]). split; [by rewrite map_app|]. split; [apply Forall_app; split; [done|constructor; [lia|done]]|]. rewrite fold_left_app, Hv. split; [cbn; div_lia|].
    split; [|by destruct ds]. destruct ds as [|d ds]; [done|]. destruct Hz as [Hz|Hz]; [|by right]. injection Hz as -> ->. cbn in Hv. lia.
Qed.

Lemma tmp_digits_hex cap u : 0 <= u < 4294967296 -> hex_text cap u (tmp_digits (hex_digit cap) 16 9 u) /\ zlen (tmp_digits (hex_digit cap) 16 9 u) <= 9.
Proof.
  intros Hu. unfold tmp_digits. destruct (Z.eqb_spec u 0) as [->|].
  - split; [|done]. exists [0]. split; [done|]. split; [by repeat constructor|]. split; [done|]. split; [by left|done].
  - destruct (rev_digits_hex cap 9 u) as [H1 H2]; [change (16 ^ Z.of_nat 9) with 68719476736; lia|]. split; [done|]. unfold zlen. lia.
Qed.

(** ** Texts in the array of 32 bytes *)

Definition in_tmp (t m : list Z) : Prop := exists x, m = t ++ 0 :: x /\ length m = 32%nat.

Lemma number_in_tmp tmp t : length tmp = 32%nat -> no_nul t -> zlen t <= 31 -> exists m, number (print_tmp (Some tmp) 32 0 t) = Some (m, zlen t) /\ in_tmp t m.
Proof.
  intros Hl Hn Hz. unfold number. rewrite print_tmp_spec by (unfold zlen; lia). cbn [mbind option_bind]. unfold zlen in Hz.
  assert (printed tmp 32 0 t = t ++ 0 :: replicate (31 - length t) 0) as ->.
  { unfold printed. rewrite take_ge by lia. replace (Z.max 0 (Z.min 0 (32 - 1) - zlen t)) with 0 by (pose proof (zlen_nonneg t); lia).
    rewrite drop_ge by lia. unfold blanks, zeros, zlen. replace (Z.to_nat (32 - Z.of_nat (length t) - 0)) with (S (31 - length t)) by lia. cbn. by rewrite app_nil_r. }
  rewrite strlen_app by done. cbn [mbind option_bind]. eexists. split; [done|]. eexists. split; [done|]. rewrite length_app. cbn. rewrite length_replicate. lia.
Qed.

Lemma split_format {A} (m : list A) a b : (a + b <= length m)%nat -> exists p old post, m = p ++ old ++ post /\ length p = a /\ length old = b.
Proof.
  intros Hl. exists (take a m), (take b (drop a m)), (drop b (drop a m)). split; [by rewrite take_drop, take_drop|]. rewrite !length_take, length_drop. lia.
Qed.

Lemma mset_in_tmp t m : length m = 32%nat -> (exists x, m = t ++ x) -> zlen t <= 31 -> exists m', mset m (zlen t) 0 = Some m' /\ in_tmp t m'.
Proof.
  intros Hl [x ->] Hz. destruct x as [|a x]; [rewrite app_nil_r in Hl; unfold zlen in Hz; lia|]. rewrite mset_app_mid. eexists. split; [done|]. exists x. split; [done|].
  by rewrite length_app in *.
Qed.

Lemma zlen_fill n c : 0 <= n -> zlen (fill n c) = n.
Proof. apply zlen_replicate. Qed.

Lemma mfill_mid pre old post v n : zlen old = n -> mfill (pre ++ old ++ post) (zlen pre) v n = Some (pre ++ fill n v ++ post).
Proof. intros E. unfold mfill. apply mcpy_app_mid. rewrite zlen_fill; [done|rewrite <- E; apply zlen_nonneg]. Qed.

(** The three ways to make room, before the terminator is written again. *)
Lemma pad_left t x n : 0 <= n -> (Z.to_nat n <= length x)%nat -> exists y, mfill (t ++ x) (zlen t) 32 n = Some ((t ++ fill n 32) ++ y) /\ length y = (length x - Z.to_nat n)%nat.
Proof.
  intros Hn Hl. destruct (split_format x (Z.to_nat n) 0 ltac:(lia)) as (p & old & post & -> & Hp & Ho). rewrite mfill_mid by (unfold zlen; lia).
  exists (old ++ post). rewrite <- app_assoc. split; [done|]. rewrite (length_app p), Hp. lia.
Qed.

Lemma pad_right s t x n v : 0 <= n -> (Z.to_nat n <= length x)%nat ->
  exists y, (u <- msub (s ++ t ++ x) (zlen s) (zlen t);; m <- mcpy (s ++ t ++ x) (zlen s + n) u;; mfill m (zlen s) v n) = Some ((s ++ fill n v ++ t) ++ y) /\
    length y = (length x - Z.to_nat n)%nat.
Proof.
  intros Hn Hl. rewrite msub_app_mid. cbn [mbind option_bind]. destruct (split_format (t ++ x) (Z.to_nat n) (length t)) as (p & old & post & E & Hp & Ho); [rewrite length_app; lia|].
  rewrite E. rewrite (app_assoc s p). replace (zlen s + n) with (zlen (s ++ p)) by (rewrite zlen_app; unfold zlen at 2; lia).
  rewrite mcpy_app_mid by (unfold zlen; lia). cbn [mbind option_bind]. rewrite <- app_assoc, mfill_mid by (unfold zlen; lia). exists post. rewrite <- !app_assoc. split; [done|].
  apply (f_equal length) in E. rewrite !length_app in E. lia.
Qed.

Lemma pad_tmp_spec zero left w t m : in_tmp t m -> 0 <= w -> zlen t <= 31 -> let width := Z.min w 31 in
  exists m', pad_tmp zero left w m (zlen t) = Some (m', zlen (padded zero left width t)) /\ in_tmp (padded zero left width t) m'.
Proof.
  intros (x & Em & Hm) Hw Hz width. unfold pad_tmp, padded.
  assert ((w >? zlen t) && (zlen t <? 32 - 1) = (width >? zlen t)) as ->.
  { unfold width. destruct (Z.gtb_spec w (zlen t)), (Z.ltb_spec (zlen t) (32 - 1)), (Z.gtb_spec (Z.min w 31) (zlen t)); done || lia. }
  assert ((if zlen t + (w - zlen t) >? 32 - 1 then 32 - 1 - zlen t else w - zlen t) = width - zlen t) as ->.
  { unfold width. destruct (Z.gtb_spec (zlen t + (w - zlen t)) (32 - 1)); lia. }
  assert (0 <= width <= 31) as Hw' by (unfold width; lia). clearbody width. clear Hw. rename Hw' into Hw.
  destruct (Z.gtb_spec width (zlen t)) as [Hg|Hg].
  2:{ assert (forall c, fill (width - zlen t) c = []) as Hf by (intros c; unfold fill; by replace (Z.to_nat (width - zlen t)) with 0%nat by lia).
      exists m. rewrite !Hf. assert ((if left then t ++ [] else if zero then match t with 45 :: d => 45 :: [] ++ d | _ => [] ++ t end else [] ++ t) = t) as ->.
      { destruct left; [by rewrite app_nil_r|]. destruct zero; [|done]. by repeat case_match. }
      split; [done|by exists x]. }
  remember (width - zlen t) as n eqn:En.
  assert (Hlx : (Z.to_nat n <= S (length x))%nat) by (rewrite Em, length_app in Hm; cbn in Hm; unfold zlen in *; lia).
  assert (forall t' y, length y = (S (length x) - Z.to_nat n)%nat -> zlen t' = zlen t + n ->
    exists m', (tmp <- mset (t' ++ y) (zlen t + n) 0;; Some (tmp, zlen t + n)) = Some (m', zlen t') /\ in_tmp t' m') as Hend.
  { intros t' y Hy Hz'. rewrite <- Hz'. destruct (mset_in_tmp t' (t' ++ y)) as (m' & -> & Hin); [|by exists y|lia|by exists m'].
    rewrite Em, length_app in Hm. cbn in Hm. rewrite length_app. unfold zlen in *. lia. }
  rewrite Em. destruct left.
  { destruct (pad_left t (0 :: x) n ltac:(lia) Hlx) as (y & -> & Hy). cbn [mbind option_bind]. apply Hend; [done|]. rewrite zlen_app, zlen_fill; lia. }
  assert (exists a, mget (t ++ 0 :: x) 0 = Some a /\ (a = 45 /\ zlen t > 0 <-> hd 0 t = 45)) as (a & -> & Ha).
  { destruct t as [|b t]; [exists 0; cbn; split; [done|split; [intros [? ?]; lia|done]]|]. exists b. split; [done|]. cbn. rewrite zlen_cons. pose proof (zlen_nonneg t). intuition lia. }
  cbn [mbind option_bind]. destruct zero.
  - destruct (Z.eq_dec (hd 0 t) 45) as [E|E].
    + destruct t as [|b d]; [done|]. cbn in E. subst b. destruct (proj2 Ha eq_refl) as [-> _]. rewrite zlen_cons in *. pose proof (zlen_nonneg d).
      destruct (Z.gtb_spec (1 + zlen d) 0); [|lia]. cbn [andb Z.eqb Pos.eqb]. replace (1 + zlen d - 1) with (zlen d) by lia.
      destruct (pad_right [45] d (0 :: x) n 48 ltac:(lia) Hlx) as (y & Ey & Hy). change (zlen [45]) with 1 in Ey. change ((45 :: d) ++ 0 :: x) with ([45] ++ d ++ 0 :: x).
      rewrite Ey. cbn [mbind option_bind]. apply (Hend (45 :: fill n 48 ++ d)); [done|]. rewrite zlen_cons, zlen_app, zlen_fill; lia.
    + assert (true && (zlen t >? 0) && (a =? 45) = false) as ->.
      { cbn [andb]. destruct (Z.gtb_spec (zlen t) 0); [|done]. destruct (Z.eqb_spec a 45); [|done]. destruct E. apply Ha. lia. }
      destruct (pad_right [] t (0 :: x) n 48 ltac:(lia) Hlx) as (y & Ey & Hy). change (zlen []) with 0 in Ey. rewrite Z.add_0_l in Ey. cbn [app] in Ey. rewrite Ey. cbn [mbind option_bind].
      assert (match t with 45 :: d => 45 :: fill n 48 ++ d | _ => fill n 48 ++ t end = fill n 48 ++ t) as ->.
      { destruct t as [|b t]; [done|]. cbn in E. repeat case_match; done. }
      apply Hend; [done|]. rewrite zlen_app, zlen_fill; lia.
  - cbn [andb]. destruct (pad_right [] t (0 :: x) n 32 ltac:(lia) Hlx) as (y & Ey & Hy). change (zlen []) with 0 in Ey. rewrite Z.add_0_l in Ey. cbn [app] in Ey. rewrite Ey. cbn [mbind option_bind].
    apply Hend; [done|]. rewrite zlen_app, zlen_fill; lia.
Qed.

(** ** Conversions *)

Lemma flag_loop_spec fl c p : c <> 48 -> c <> 45 -> forall zero left, Forall (fun c => c = 48 \/ c = 45) fl ->
  flag_loop (fl ++ c :: p) zero left = Some (zero || bool_decide (48 ∈ fl), left || bool_decide (45 ∈ fl), c :: p).
Proof.
  intros H48 H45. assert (forall x y l, bool_decide (x ∈ y :: l) = (x =? y) || bool_decide (x ∈ l)) as Hin.
  { intros x y l. destruct (Z.eqb_spec x y) as [->|Hne]; cbn [orb]; [apply bool_decide_eq_true_2, elem_of_cons; by left|].
    apply bool_decide_ext. rewrite elem_of_cons. intuition done. }
  induction fl as [|f fl IH]; intros zero left Hf; cbn [app flag_loop].
  - destruct (Z.eqb_spec c 48); [done|]. destruct (Z.eqb_spec c 45); [done|]. rewrite !(bool_decide_eq_false_2 (_ ∈ [])) by (apply not_elem_of_nil). by rewrite !orb_false_r.
  - apply Forall_cons_1 in Hf as [[-> | ->] Hf]; cbn [Z.eqb Pos.eqb]; rewrite IH, !Hin by done; cbn; by rewrite ?orb_true_r.
Qed.

Lemma width_loop_spec ds c p : is_digit c = false -> forall w, Forall (fun c => is_digit c = true) ds -> 0 <= w ->
  fold_left (fun v c => 10 * v + (c - 48)) ds w <= 2147483647 -> width_loop (ds ++ c :: p) w = Some (fold_left (fun v c => 10 * v + (c - 48)) ds w, c :: p).
Proof.
  intros Hc. assert (forall ds w, Forall (fun c => is_digit c = true) ds -> 0 <= w -> w <= fold_left (fun v c => 10 * v + (c - 48)) ds w) as Hmono.
  { intros l. induction l as [|d l IH]; intros w Hd Hw; cbn; [lia|]. apply Forall_cons_1 in Hd as [Hd Hl]. unfold is_digit in Hd. apply andb_true_iff in Hd as [?%Z.leb_le ?%Z.leb_le].
    specialize (IH (10 * w + (d - 48)) Hl ltac:(lia)). lia. }
  induction ds as [|d ds IH]; intros w Hd Hw Hv; cbn [app width_loop fold_left].
  - unfold is_digit in Hc. by rewrite Hc.
  - apply Forall_cons_1 in Hd as [Hd Hds]. pose proof Hd as Hdd. unfold is_digit in Hd. rewrite Hd. apply andb_true_iff in Hd as [?%Z.leb_le ?%Z.leb_le].
    cbn [fold_left] in Hv. rewrite (Z.mul_comm w 10). pose proof (Hmono ds (10 * w + (d - 48)) Hds ltac:(lia)).
    destruct (Z.leb_spec (10 * w + (d - 48)) 2147483647); [|lia]. apply IH; [done|lia|done].
Qed.

Lemma i32_range v : -2147483648 <= i32 v <= 2147483647.
Proof. unfold i32. div_lia. Qed.

Lemma digit_count_le v : Int32DigitCount v <= 11.
Proof.
  assert (forall x, 1 <= count_pos32 x <= 10) as Hc by (intros x; unfold count_pos32; repeat case_match; lia). unfold Int32DigitCount.
  destruct (v =? _); [lia|]. destruct (v <? 0); [rewrite u8_small; specialize (Hc (- v)); lia|specialize (Hc v); lia].
Qed.

Lemma decimal_text u t : decimal u t -> no_nul t.
Proof. intros (Hd & _). eapply Forall_impl; [|exact Hd]. by intros c Hc ->. Qed.

Lemma hex_no_nul cap u t : hex_text cap u t -> no_nul t.
Proof.
  intros (ds & -> & Hd & _). apply Forall_map. eapply Forall_impl; [|exact Hd]. intros d Hd'. cbv beta in *. cbn. unfold hex_digit. destruct (Z.ltb_spec d 10); [lia|]. destruct cap; lia.
Qed.

Lemma int_number tmp v t : length tmp = 32%nat -> int_text (i32 v) t -> exists m, number (Int32ToString (i32 v) (Some tmp) 32 0) = Some (m, zlen t) /\ in_tmp t m /\ zlen t <= 31.
Proof.
  intros Hl Hi. destruct (int32_text_spec (i32 v) (i32_range v)) as [Hs Hz]. rewrite (int_text_unique _ _ _ Hs Hi) in Hz. pose proof (digit_count_le (i32 v)).
  destruct (number_in_tmp tmp t Hl) as (m & Em & Hm); [|lia|].
  - destruct Hi as (ds & Hd & ->). apply decimal_text in Hd. destruct (_ <? _); [by constructor|done].
  - exists m. unfold Int32ToString. rewrite (int_text_unique _ _ _ Hs Hi). split; [done|]. split; [done|lia].
Qed.

Lemma unsigned_number tmp v t : length tmp = 32%nat -> decimal (u32 v) t -> exists m, number (Uint32ToString (u32 v) (Some tmp) 32 0) = Some (m, zlen t) /\ in_tmp t m /\ zlen t <= 31.
Proof.
  intros Hl Hd. destruct (tmp_digits_u32 (u32 v)) as [Hs Hz]; [unfold u32; div_lia|]. rewrite (decimal_unique _ _ _ Hs Hd) in Hz. unfold Uint32ToString.
  rewrite (decimal_unique _ _ _ Hs Hd). destruct (number_in_tmp tmp t Hl) as (m & Em & Hm); [by apply decimal_text in Hd|lia|]. exists m. split; [done|]. split; [done|lia].
Qed.

Lemma hex_number tmp cap v t : length tmp = 32%nat -> hex_text cap (u32 v) t ->
  exists m, number (Uint32ToHexString (u32 v) (Some tmp) 32 cap) = Some (m, zlen t) /\ in_tmp t m /\ zlen t <= 31.
Proof.
  intros Hl Hd. destruct (tmp_digits_hex cap (u32 v)) as [Hs Hz]; [unfold u32; div_lia|]. rewrite (hex_unique _ _ _ _ Hs Hd) in Hz. unfold Uint32ToHexString.
  rewrite (hex_unique _ _ _ _ Hs Hd). destruct (number_in_tmp tmp t Hl) as (m & Em & Hm); [by apply hex_no_nul in Hd|lia|]. exists m. split; [done|]. split; [done|lia].
Qed.

Lemma char_in_tmp tmp c : length tmp = 32%nat -> exists m, (t <- mset tmp 0 c;; mset t 1 0) = Some m /\ in_tmp [c] m.
Proof.
  intros Hl. destruct tmp as [|a [|b x]]; [done|done|]. rewrite mset_0. cbn [mbind option_bind]. rewrite mset_1. eexists. split; [done|]. by exists x.
Qed.

(** The text that [FloatToString] makes of a number. *)
Definition float_code (d : double) (t : list Z) : Prop :=
  float_text d t /\ zlen t <= 29 /\ forall p maxlen padmax, 1 <= maxlen <= zlen p -> FloatToString d (Some p) maxlen padmax = Some (Some (printed p maxlen padmax t)).

Lemma float_no_nul d t : float_text d t -> no_nul t.
Proof.
  intros (n & ti & tf & _ & _ & Hi & _ & Hf & _ & ->). apply decimal_text in Hi. repeat apply Forall_app_2; [by destruct (below_zero d); repeat constructor|done|by constructor|].
  eapply Forall_impl; [|exact Hf]. by intros c Hc ->.
Qed.

Lemma float_number tmp d t : length tmp = 32%nat -> float_code d t -> exists m, number (FloatToString d (Some tmp) 32 0) = Some (m, zlen t) /\ in_tmp t m /\ zlen t <= 31.
Proof.
  intros Hl (Ht & Hz & He). rewrite He by (unfold zlen; lia). destruct (number_in_tmp tmp t Hl) as (m & Em & Hm); [by eapply float_no_nul|lia|].
  rewrite print_tmp_spec in Em by (unfold zlen; lia). exists m. split; [done|]. split; [done|lia].
Qed.

Lemma text_tmp k a t tmp p args l left w str pos size : length tmp = 32%nat -> k <> Ks -> text_of float_code k a t ->
  exists m, convert l left w tmp (kind_char k :: p) (a :: args) str pos size = Some (p, args, InTmp m (zlen t)) /\ in_tmp t m /\ zlen t <= 31.
Proof.
  intros Hl Hk Ht. destruct Ht as [v t Hi|v t Hi|v t Hd|v t Hh|v t Hh|d t Hf|v| |]; try done; cbn [convert kind_char Z.eqb Pos.eqb orb].
  - destruct (int_number tmp v t Hl Hi) as (m & -> & Hm). by exists m.
  - destruct (int_number tmp v t Hl Hi) as (m & -> & Hm). by exists m.
  - destruct (unsigned_number tmp v t Hl Hd) as (m & -> & Hm). by exists m.
  - destruct (hex_number tmp false v t Hl Hh) as (m & -> & Hm). by exists m.
  - destruct (hex_number tmp true v t Hl Hh) as (m & -> & Hm). by exists m.
  - destruct (float_number tmp d t Hl Hf) as (m & -> & Hm). by exists m.
  - destruct (char_in_tmp tmp (u8 v) Hl) as (m & Em & Hm). destruct (mset tmp 0 (u8 v)) as [t1|]; [|done]. cbn [mbind option_bind] in Em |- *. rewrite Em. by exists m.
Qed.

Lemma string_spec_emit size s left w m t : fits size s (padded false left w t) -> (m = None /\ t = [] \/ exists b, m = Some b /\ cstring b t) ->
  string_spec left w m (s.1 ++ s.2) (zlen s.1) size = Some (out (emit size s (padded false left w t))).
Proof.
  intros Hs Hm. unfold string_spec. assert ((match m with None => Some [] | Some s => n <- strlen s;; msub s 0 n end) = Some t) as ->.
  { destruct Hm as [[-> ->]|(b & -> & Hb)]; [done|]. rewrite (strlen_cstring _ _ Hb). cbn [mbind option_bind]. by apply msub_cstring. }
  cbn [mbind option_bind]. assert (forall n, n <= 0 -> fill n 32 = []) as Hf by (intros n Hn; unfold fill; by replace (Z.to_nat n) with 0%nat by lia).
  pose proof (proj1 Hs) as H1. unfold padded in Hs |- *. destruct left; cbn [negb andb].
  - rewrite copy_loop_emit by (by eapply fits_before). unfold out at 1. cbn [mbind option_bind]. destruct (Z.gtb_spec w (zlen t)).
    + rewrite fill_loop_copy, copy_loop_emit by (by apply emit_fits). by rewrite emit_app.
    + rewrite Hf by lia. by rewrite app_nil_r.
  - destruct (Z.gtb_spec w (zlen t)).
    + rewrite fill_loop_copy, copy_loop_emit by (by eapply fits_before). unfold out at 1. cbn [mbind option_bind]. rewrite copy_loop_emit by (by apply emit_fits). unfold out at 1.
      cbn [mbind option_bind]. by rewrite emit_app.
    + rewrite Hf in Hs |- * by lia. cbn [mbind option_bind]. by rewrite copy_loop_emit.
Qed.

(** The flags, the width and the modifier are read. *)
Lemma conversion_reads tmp fl w l k p args str pos size : directive_ok (Conv fl w l k) ->
  conversion tmp (drop 1 (directive_text (Conv fl w l k)) ++ p) args str pos size =
    ('(p, args, r) <- convert l (bool_decide (45 ∈ fl)) w tmp (kind_char k :: p) args str pos size;;
     match r with
     | Inline str pos => Some (p, args, str, pos)
     | InTmp t n =>
         '(t, n) <- pad_tmp (bool_decide (48 ∈ fl)) (bool_decide (45 ∈ fl)) w t n;;
         '(str, pos) <- __snprintf_copy str size pos t n;;
         Some (p, args, str, pos)
     end).
Proof.
  intros (Hf & Hw). unfold conversion.
  change (drop 1 (directive_text (Conv fl w l k))) with (fl ++ (if w =? 0 then [] else tmp_digits dec_digit 10 11 w) ++ (if l then [108] else []) ++ [kind_char k]).
  rewrite <- !app_assoc. cbn [app].
  set (rest := (if l then [108] else []) ++ kind_char k :: p). assert (exists c q, rest = c :: q /\ is_digit c = false /\ c <> 45) as (c & q & Er & Hc & Hc45).
  { unfold rest. destruct l; [by eexists _, _|]. by destruct k; eexists _, _. }
  assert (c <> 48) as Hc48 by (by intros ->). set (ws := if w =? 0 then [] else tmp_digits dec_digit 10 11 w).
  assert (Forall (fun c => is_digit c = true) ws /\ fold_left (fun v c => 10 * v + (c - 48)) ws 0 = w /\ (ws = [] \/ hd 0 ws <> 48)) as (Hd & Hv & Hhd).
  { unfold ws. destruct (Z.eqb_spec w 0) as [->|Hw0]; [split; [constructor|split; [done|by left]]|]. destruct (tmp_digits_u32 w ltac:(lia)) as [(D & V & L & N) _]. split; [done|]. split; [done|].
    destruct L as [E|E]; [rewrite E in V; cbn in V; lia|by right]. }
  assert (exists c' q', ws ++ rest = c' :: q' /\ c' <> 48 /\ c' <> 45) as (c' & q' & Ew & H48 & H45).
  { destruct ws as [|d ws']; [rewrite Er; by exists c, q|]. exists d, (ws' ++ rest). split; [done|]. apply Forall_cons_1 in Hd as [Hd _]. destruct Hhd as [?|?]; [done|]. split; [done|by intros ->]. }
  change (fl ++ ws ++ rest) with (fl ++ (ws ++ rest)). rewrite Ew, flag_loop_spec by done. cbn [mbind option_bind orb]. rewrite <- Ew, Er, width_loop_spec by (done || lia || (rewrite Hv; lia)).
  cbn [mbind option_bind]. rewrite Hv, <- Er. unfold rest. destruct l; cbn [app head drop]; [by rewrite bool_decide_eq_true_2|]. rewrite bool_decide_eq_false_2; [done|]. by destruct k.
Qed.

(** A text of [tmp] is padded and copied. *)
Lemma tmp_written size s t m zero left w : fits size s (padded zero left (Z.min w 31) t) -> in_tmp t m -> zlen t <= 31 -> 0 <= w ->
  ('(t, n) <- pad_tmp zero left w m (zlen t);; __snprintf_copy (s.1 ++ s.2) size (zlen s.1) t n) = Some (out (emit size s (padded zero left (Z.min w 31) t))).
Proof.
  intros Hs Hm Hz Hw. destruct (pad_tmp_spec zero left w t m Hm Hw Hz) as (m' & -> & x & -> & _). cbn [mbind option_bind]. by apply snprintf_copy_emit.
Qed.

Lemma conversion_arg tmp size s fl w l k a t p args : length tmp = 32%nat -> directive_ok (Conv fl w l k) -> text_of float_code k a t ->
  let o := padded (match k with Ks => false | _ => bool_decide (48 ∈ fl) end) (bool_decide (45 ∈ fl)) (field_width k w) t in fits size s o -> let s' := emit size s o in
  conversion tmp (drop 1 (directive_text (Conv fl w l k)) ++ p) (a :: args) (s.1 ++ s.2) (zlen s.1) size = Some (p, args, s'.1 ++ s'.2, zlen s'.1).
Proof.
  intros Hl Hok Ht o Hs s'. rewrite conversion_reads by done. assert (k = Ks \/ k <> Ks) as [->|Hk] by (destruct k; auto).
  - assert (exists m, a = VStr m /\ (m = None /\ t = [] \/ exists b, m = Some b /\ cstring b t)) as (m & -> & Hm) by (inversion Ht; subst; [eexists; split; [done|]; eauto|eexists; split; [done|]; by left]).
    cbn [convert kind_char Z.eqb Pos.eqb orb]. rewrite (string_spec_emit _ _ _ _ _ t) by done. done.
  - destruct (text_tmp k a t tmp p args l (bool_decide (45 ∈ fl)) w (s.1 ++ s.2) (zlen s.1) size Hl Hk Ht) as (m & -> & Hm & Hz). cbn [mbind option_bind].
    assert (0 <= w) as Hw by (destruct Hok as [_ Hw]; lia).
    assert (o = padded (bool_decide (48 ∈ fl)) (bool_decide (45 ∈ fl)) (Z.min w 31) t) as Eo by (unfold o; by destruct k). rewrite Eo in Hs. pose proof (tmp_written size s t m (bool_decide (48 ∈ fl)) (bool_decide (45 ∈ fl)) w Hs Hm Hz Hw) as E.
    unfold s'. rewrite Eo.
    destruct (pad_tmp _ _ _ _ _) as [[m' n']|]; [|done]. cbn [mbind option_bind] in E |- *. by rewrite E.
Qed.

Lemma conversion_percent tmp size s fl w l p args : length tmp = 32%nat -> directive_ok (Conv fl w l Kpercent) ->
  let o := padded (bool_decide (48 ∈ fl)) (bool_decide (45 ∈ fl)) (field_width Kpercent w) [37] in fits size s o -> let s' := emit size s o in
  conversion tmp (drop 1 (directive_text (Conv fl w l Kpercent)) ++ p) args (s.1 ++ s.2) (zlen s.1) size = Some (p, args, s'.1 ++ s'.2, zlen s'.1).
Proof.
  intros Hl Hok o Hs s'. rewrite conversion_reads by done. cbn [convert kind_char Z.eqb Pos.eqb orb]. destruct (char_in_tmp tmp 37 Hl) as (m & Em & Hm).
  destruct (mset tmp 0 37) as [t1|]; [|done]. cbn [mbind option_bind] in Em |- *. rewrite Em. cbn [mbind option_bind].
  pose proof (tmp_written size s [37] m (bool_decide (48 ∈ fl)) (bool_decide (45 ∈ fl)) w Hs Hm ltac:(done) (proj1 (proj2 Hok))) as E. change (zlen [37]) with 1 in E.
  destruct (pad_tmp _ _ _ _ _) as [[m' n']|]; [|done]. cbn [mbind option_bind] in E |- *. by rewrite E.
Qed.

(** ** The loop *)

Lemma directive_text_length d : (1 <= length (directive_text d))%nat.
Proof. destruct d; cbn; lia. Qed.

Lemma full_stops size s o : size - 1 <= zlen s.1 -> emit size s o = s.
Proof. intros Hl. destruct s as [a b]. unfold emit. cbn [fst snd] in *. replace (Z.to_nat (size - 1 - zlen a)) with 0%nat by lia. cbn. by rewrite app_nil_r. Qed.

Lemma format_loop_full fuel tmp p args str pos size : size - 1 <= pos -> p <> [] -> format_loop fuel tmp p args str pos size = Some (str, pos).
Proof. intros Hp Hn. destruct p as [|c p]; [done|]. destruct fuel; cbn [format_loop]; (destruct (Z.ltb_spec pos (size - 1)); [lia|]); by rewrite andb_false_r. Qed.

Lemma format_loop_spec tmp ds args o x size : length tmp = 32%nat -> renders float_code ds args o -> forall fuel s, Forall directive_ok ds -> fits size s o -> (length (format_text ds) <= fuel)%nat ->
  format_loop fuel tmp (format_text ds ++ 0 :: x) args (s.1 ++ s.2) (zlen s.1) size = Some (out (emit size s o)).
Proof.
  intros Htmp. induction 1 as [args|c ds args o Hr IH|fl w l ds args o Hr IH|fl w l k a t ds args o Ht Hr IH]; intros fuel s Hok Hs Hf; pose proof (proj1 Hs) as H1.
  - cbn. rewrite emit_nil. by destruct fuel.
  - apply Forall_cons_1 in Hok as [[Hc0 Hc37] Hok]. destruct (Z.le_gt_cases (size - 1) (zlen s.1)) as [Hfull|Hroom].
    { rewrite format_loop_full by (done || by apply app_nonnil_r). by rewrite full_stops. }
    destruct fuel as [|fuel]; [cbn in Hf; lia|]. cbn [format_text map concat directive_text app format_loop]. destruct (Z.eqb_spec c 0); [done|]. destruct (Z.ltb_spec (zlen s.1) (size - 1)); [|lia].
    cbn [negb andb]. destruct (Z.eqb_spec c 37); [done|]. cbn [negb]. destruct (mset_out size s c (fits_before _ _ [c] o Hs) Hroom) as [-> Hz]. cbn [mbind option_bind]. rewrite Hz.
    cbn [out fst snd]. rewrite IH; [|done|by apply (emit_fits _ _ [c])|cbn in Hf; fold (format_text ds) in Hf; lia]. by rewrite emit_app.
  - apply Forall_cons_1 in Hok as [Hd Hok]. destruct (Z.le_gt_cases (size - 1) (zlen s.1)) as [Hfull|Hroom].
    { rewrite format_loop_full by (done || by apply app_nonnil_r). by rewrite full_stops. }
    destruct fuel as [|fuel]; [cbn in Hf; lia|]. cbn [format_text map concat]. rewrite <- app_assoc. change (directive_text (Conv fl w l Kpercent)) with (37 :: drop 1 (directive_text (Conv fl w l Kpercent))).
    cbn [app format_loop]. destruct (Z.ltb_spec (zlen s.1) (size - 1)); [|lia]. cbn [Z.eqb Pos.eqb negb andb]. rewrite conversion_percent by (done || by eapply fits_before). cbn [mbind option_bind].
    rewrite IH; [|done|by apply emit_fits|cbn in Hf; fold (format_text ds) in Hf; rewrite length_app in Hf; lia]. by rewrite emit_app.
  - apply Forall_cons_1 in Hok as [Hd Hok]. destruct (Z.le_gt_cases (size - 1) (zlen s.1)) as [Hfull|Hroom].
    { rewrite format_loop_full by (done || by apply app_nonnil_r). by rewrite full_stops. }
    destruct fuel as [|fuel]; [cbn in Hf; lia|]. cbn [format_text map concat]. rewrite <- app_assoc. change (directive_text (Conv fl w l k)) with (37 :: drop 1 (directive_text (Conv fl w l k))).
    cbn [app format_loop]. destruct (Z.ltb_spec (zlen s.1) (size - 1)); [|lia]. cbn [Z.eqb Pos.eqb negb andb]. rewrite (conversion_arg _ _ _ _ _ _ _ _ t) by (done || by eapply fits_before). cbn [mbind option_bind].
    rewrite IH; [|done|by apply emit_fits|cbn in Hf; fold (format_text ds) in Hf; rewrite length_app in Hf; lia]. by rewrite emit_app.
Qed.

Lemma vsnprintf_spec tmp str size ds args o x : length tmp = 32%nat -> Forall directive_ok ds -> renders float_code ds args o -> 1 <= size -> Z.min (size - 1) (zlen o) < zlen str ->
  let t := take (Z.to_nat (size - 1)) o in
  __vsnprintf tmp (Some str) size (Some (format_text ds ++ 0 :: x)) args = Some (zlen t, Some (t ++ 0 :: drop (S (length t)) str)).
Proof.
  intros Htmp Hok Hr Hsz Hstr t. unfold __vsnprintf. destruct (Z.leb_spec size 0); [lia|]. assert (fits size ([], str) o) as Hs by (unfold fits; cbn [fst snd]; change (zlen (@nil Z)) with 0; lia).
  pose proof (format_loop_spec tmp ds args o x size Htmp Hr (length (format_text ds ++ 0 :: x)) ([], str) Hok Hs ltac:(rewrite length_app; lia)) as E.
  cbn [fst snd app] in E. change (zlen []) with 0 in E. rewrite E. unfold out, emit. cbn [fst snd app mbind option_bind]. change (zlen []) with 0. rewrite Z.sub_0_r. fold t.
  assert (length t < length str)%nat by (unfold t, zlen in *; rewrite length_take; lia). destruct (drop (length t) str) as [|b rest] eqn:Ed.
  { apply (f_equal length) in Ed. rewrite length_drop in Ed. cbn in Ed. lia. }
  rewrite mset_app_mid. cbn [mbind option_bind]. do 4 f_equal. change (S (length t)) with (1 + length t)%nat. rewrite Nat.add_comm, <- drop_drop, Ed. done.
Qed.

(** Every argument has a text. *)
Lemma text_exists k a : k <> Kpercent -> arg_ok k a -> exists t, text_of float_code k a t.
Proof.
  intros Hk Ha. assert (forall v, exists t, int_text (i32 v) t) as Hi by (intros v; eexists; apply (int32_text_spec (i32 v) (i32_range v))).
  assert (forall v, exists t, decimal (u32 v) t) as Hd by (intros v; eexists; apply tmp_digits_u32; unfold u32; div_lia).
  assert (forall c v, exists t, hex_text c (u32 v) t) as Hx by (intros c v; eexists; apply tmp_digits_hex; unfold u32; div_lia).
  destruct k; try done; destruct a as [v|d|[m|]]; try done; cbn [arg_ok] in Ha.
  - destruct (Hi v) as [t Ht]. exists t. by constructor.
  - destruct (Hi v) as [t Ht]. exists t. by constructor.
  - destruct (Hd v) as [t Ht]. exists t. by constructor.
  - destruct (Hx false v) as [t Ht]. exists t. by constructor.
  - destruct (Hx true v) as [t Ht]. exists t. by constructor.
  - destruct (FloatToString_text d Ha) as [t Ht]. exists t. by constructor.
  - destruct Ha as [s Hs]. exists s. by constructor.
  - exists []. constructor.
  - eexists. constructor.
Qed.

Lemma renders_exists ds : forall args, takes ds args -> exists o, renders float_code ds args o.
Proof.
  induction ds as [|[c|fl w l k] ds IH]; intros args Ht; [by eexists; constructor| |].
  - destruct (IH args Ht) as [o Ho]. by eexists; constructor.
  - destruct (decide (k = Kpercent)) as [->|Hk]; [destruct (IH args Ht) as [o Ho]; by eexists; apply renders_percent|].
    assert (exists a args', args = a :: args' /\ arg_ok k a /\ takes ds args') as (a & args' & -> & Ha & Ht') by (cbn [takes] in Ht; destruct k; try done; destruct args as [|a args']; try done; by exists a, args').
    destruct (text_exists k a Hk Ha) as [t Htx]. destruct (IH args' Ht') as [o Ho]. by eexists; apply (renders_arg _ fl w l k a t).
Qed.

Lemma renders_impl (F G : double -> list Z -> Prop) ds args o : (forall d t, F d t -> G d t) -> renders F ds args o -> renders G ds args o.
Proof.
  intros HFG. induction 1 as [args|c ds args o Hr IH|fl w l ds args o Hr IH|fl w l k a t ds args o Ht Hr IH]; [by constructor|by constructor|by apply renders_percent|].
  apply renders_arg; [|done]. destruct Ht; constructor; auto.
Qed.

(** ** Theorems *)



(** The same call evaluated: [-0042|-2.500000], cut to 15 characters. *)
Lemma vsnprintf_float_example :
  __vsnprintf (replicate 32 7) (Some (replicate 16 1)) 16 (Some (format_text [Conv [48] 5 false Kd; Lit 124; Conv [] 0 false Kf; Conv [45] 40 false Ks] ++ 0 :: []))
    [VInt (-42); VDouble (mkDouble true 5 (-1)); VStr (Some [97; 98; 0])] =
  Some (15, Some [45; 48; 48; 52; 50; 124; 45; 50; 46; 53; 48; 48; 48; 48; 48; 0]).
Proof. vm_compute. reflexivity. Qed.

End Printf.
