(* ===== verification/MqttMsg.v ===== *)
(** The MQTT message codec, [src/transports/mqtt/Mqtt_msg.h] and
    [Mqtt_msg.cpp], for protocol version 3.1.1 (the macro the header defines).

    A message is built in the buffer of an [mqtt_connection_t] behind three
    bytes kept free for the fixed header.  Pointers that the code compares
    with [nullptr] are options; [message.data], which points into the buffer,
    is the offset it points to.  Results are [None] for undefined behaviour:
    an access outside a block, a null pointer followed, a shift or a sum that
    leaves [int]. *)
From S2P Require Import Prelude.
From stdpp Require Import base option list numbers.
From Stdlib Require Import ZArith Lia.

Open Scope Z_scope.

Module MqttMsg.

Inductive mqtt_message_type :=
  | MQTT_MSG_TYPE_CONNECT | MQTT_MSG_TYPE_CONNACK | MQTT_MSG_TYPE_PUBLISH
  | MQTT_MSG_TYPE_PUBACK | MQTT_MSG_TYPE_PUBREC | MQTT_MSG_TYPE_PUBREL
  | MQTT_MSG_TYPE_PUBCOMP | MQTT_MSG_TYPE_SUBSCRIBE | MQTT_MSG_TYPE_SUBACK
  | MQTT_MSG_TYPE_UNSUBSCRIBE | MQTT_MSG_TYPE_UNSUBACK | MQTT_MSG_TYPE_PINGREQ
  | MQTT_MSG_TYPE_PINGRESP | MQTT_MSG_TYPE_DISCONNECT.

(** The numbers of [enum mqtt_message_type : uint8_t]. *)
Definition type_code (t : mqtt_message_type) : Z :=
  match t with
  | MQTT_MSG_TYPE_CONNECT => 1 | MQTT_MSG_TYPE_CONNACK => 2
  | MQTT_MSG_TYPE_PUBLISH => 3 | MQTT_MSG_TYPE_PUBACK => 4
  | MQTT_MSG_TYPE_PUBREC => 5 | MQTT_MSG_TYPE_PUBREL => 6
  | MQTT_MSG_TYPE_PUBCOMP => 7 | MQTT_MSG_TYPE_SUBSCRIBE => 8
  | MQTT_MSG_TYPE_SUBACK => 9 | MQTT_MSG_TYPE_UNSUBSCRIBE => 10
  | MQTT_MSG_TYPE_UNSUBACK => 11 | MQTT_MSG_TYPE_PINGREQ => 12
  | MQTT_MSG_TYPE_PINGRESP => 13 | MQTT_MSG_TYPE_DISCONNECT => 14
  end.
Coercion type_code : mqtt_message_type >-> Z.

Record mqtt_message_t := mkMessage {
  msg_data : option Z;
  msg_length : Z;
}.

Record mqtt_connection_t := mkConnection {
  message : mqtt_message_t;
  message_id : Z;
  buffer : option (list Z);
  buffer_length : Z;
}.

Record mqtt_connect_info_t := mkInfo {
  client_id : option (list Z);
  username : option (list Z);
  password : option (list Z);
  will_topic : option (list Z);
  will_message : option (list Z);
  keepalive : Z;
  will_qos : Z;
  will_retain : Z;
  clean_session : Z;
}.

(** The field accessors of the fixed header, on the first byte. *)
Definition mqtt_get_type (b : list Z) : option Z :=
  b0 <- mget b 0;; Some (Z.shiftr (Z.land b0 0xf0) 4).
Definition mqtt_get_dup (b : list Z) : option Z :=
  b0 <- mget b 0;; Some (Z.shiftr (Z.land b0 0x08) 3).
Definition mqtt_get_qos (b : list Z) : option Z :=
  b0 <- mget b 0;; Some (Z.shiftr (Z.land b0 0x06) 1).
Definition mqtt_get_retain (b : list Z) : option Z :=
  b0 <- mget b 0;; Some (Z.land b0 0x01).

Definition MQTT_MAX_FIXED_HEADER_SIZE : Z := 3.

(** The bits of [enum mqtt_connect_flag]. *)
Definition MQTT_CONNECT_FLAG_USERNAME : Z := Z.shiftl 1 7.
Definition MQTT_CONNECT_FLAG_PASSWORD : Z := Z.shiftl 1 6.
Definition MQTT_CONNECT_FLAG_WILL_RETAIN : Z := Z.shiftl 1 5.
Definition MQTT_CONNECT_FLAG_WILL : Z := Z.shiftl 1 2.
Definition MQTT_CONNECT_FLAG_CLEAN_SESSION : Z := Z.shiftl 1 1.

(** *** Writing through [connection->buffer] *)

Definition set_length (c : mqtt_connection_t) (n : Z) : mqtt_connection_t :=
  mkConnection (mkMessage (msg_data (message c)) n) (message_id c) (buffer c)
    (buffer_length c).

Definition set_buffer (c : mqtt_connection_t) (b : list Z) : mqtt_connection_t :=
  mkConnection (message c) (message_id c) (Some b) (buffer_length c).

Definition set_id (c : mqtt_connection_t) (i : Z) : mqtt_connection_t :=
  mkConnection (message c) i (buffer c) (buffer_length c).

(** [connection->buffer[i] = v] *)
Definition put_at (c : mqtt_connection_t) (i v : Z) : option mqtt_connection_t :=
  b <- buffer c;;
  b <- mset b i (u8 v);;
  Some (set_buffer c b).

(** [connection->buffer[connection->message.length++] = v] *)
Definition put_next (c : mqtt_connection_t) (v : Z) : option mqtt_connection_t :=
  c <- put_at c (msg_length (message c)) v;;
  Some (set_length c (u16 (msg_length (message c) + 1))).

(** [memcpy(connection->buffer + connection->message.length, src, n);
     connection->message.length += n] *)
Definition put_block (c : mqtt_connection_t) (src : list Z) (n : Z)
  : option mqtt_connection_t :=
  b <- buffer c;;
  s <- msub src 0 n;;
  b <- mcpy b (msg_length (message c)) s;;
  Some (set_length (set_buffer c b) (u16 (msg_length (message c) + n))).

(** [append_string]: result code and connection. *)
Definition append_string (connection : option mqtt_connection_t)
    (string : option (list Z)) (len : Z) : option (Z * option mqtt_connection_t) :=
  match connection, string with
  | Some c, Some s =>
      match buffer c with
      | None => Some (-1, connection)
      | Some _ =>
          n <- int_val (msg_length (message c) + len);;
          n <- int_val (n + 2);;
          if n >? buffer_length c then Some (-1, connection)
          else
            c <- put_next c (Z.shiftr len 8);;
            c <- put_next c (Z.land len 0xff);;
            c <- put_block c s len;;
            r <- int_val (len + 2);;
            Some (r, Some c)
      end
  | _, _ => Some (-1, connection)
  end.

(** The loop that assigns a message id when the caller gave none; two turns
    are enough, since the counter is 0 at most once per wrap-around. *)
Fixpoint assign_id (fuel : nat) (connection : option mqtt_connection_t) (mid : Z)
  : option (Z * option mqtt_connection_t) :=
  if mid =? 0 then
    match fuel, connection with
    | S fuel, Some c =>
        let mid := u16 (message_id c + 1) in
        assign_id fuel (Some (set_id c mid)) mid
    | _, _ => None
    end
  else Some (mid, connection).

(** [append_message_id] *)
Definition append_message_id (connection : option mqtt_connection_t) (mid : Z)
  : option (Z * option mqtt_connection_t) :=
  '(mid, connection) <- assign_id 2 connection mid;;
  match connection with
  | None => Some (0, connection)
  | Some c =>
      match buffer c with
      | None => Some (0, connection)
      | Some _ =>
          if msg_length (message c) + 2 >? buffer_length c then Some (0, connection)
          else
            c <- put_next c (Z.shiftr mid 8);;
            c <- put_next c (Z.land mid 0xff);;
            Some (mid, Some c)
      end
  end.

(** [init_message] *)
Definition init_message (connection : option mqtt_connection_t)
  : Z * option mqtt_connection_t :=
  match connection with
  | None => (-1, None)
  | Some c => (MQTT_MAX_FIXED_HEADER_SIZE,
               Some (set_length c MQTT_MAX_FIXED_HEADER_SIZE))
  end.

(** [fail_message] and [fini_message] return [&connection->message] (here
    [true]) or [nullptr] (here [false]). *)
Definition fail_message (connection : option mqtt_connection_t)
  : bool * option mqtt_connection_t :=
  match connection with
  | None => (false, None)
  | Some c =>
      match buffer c with
      | None => (false, connection)
      | Some _ =>
          (true, Some (mkConnection (mkMessage (Some 0) 0) (message_id c) (buffer c)
                         (buffer_length c)))
      end
  end.

Definition header_byte (type dup qos retain : Z) : Z :=
  Z.lor (Z.lor (Z.lor (Z.shiftl (Z.land type 0x0f) 4) (Z.shiftl (Z.land dup 1) 3))
           (Z.shiftl (Z.land qos 3) 1)) (Z.land retain 1).

Definition fini_message (connection : option mqtt_connection_t)
    (type dup qos retain : Z) : option (bool * option mqtt_connection_t) :=
  match connection with
  | None => Some (false, None)
  | Some c =>
      match buffer c with
      | None => Some (false, connection)
      | Some _ =>
          let remaining_length := msg_length (message c) - MQTT_MAX_FIXED_HEADER_SIZE in
          if remaining_length >? 127 then
            c <- put_at c 0 (header_byte type dup qos retain);;
            c <- put_at c 1 (Z.lor 0x80 (Z.rem remaining_length 128));;
            c <- put_at c 2 (Z.quot remaining_length 128);;
            Some (true, Some (mkConnection (mkMessage (Some 0) (u16 (remaining_length + 3)))
                                (message_id c) (buffer c) (buffer_length c)))
          else
            c <- put_at c 1 (header_byte type dup qos retain);;
            c <- put_at c 2 remaining_length;;
            Some (true, Some (mkConnection (mkMessage (Some 1) (u16 (remaining_length + 2)))
                                (message_id c) (buffer c) (buffer_length c)))
      end
  end.

(** [mqtt_msg_init] *)
Definition mqtt_msg_init (connection : option mqtt_connection_t)
    (buf : option (list Z)) (buf_length : Z) : option mqtt_connection_t :=
  match connection, buf with
  | Some _, Some b => Some (mkConnection (mkMessage None 0) 0 (Some b) buf_length)
  | _, _ => connection
  end.

(** *** Reading a received message *)

(** The loop over the bytes of the remaining-length field, from index 1. *)
Fixpoint remaining_length_loop (fuel : nat) (b : list Z) (i len totlen : Z)
  : option (Z * Z) :=
  if i <? len then
    match fuel with
    | O => None
    | S fuel =>
        bi <- mget b i;;
        if 7 * (i - 1) >? 31 then None
        else
          t <- int_val (Z.shiftl (Z.land bi 0x7f) (7 * (i - 1)));;
          totlen <- int_val (totlen + t);;
          if Z.land bi 0x80 =? 0 then Some (i + 1, totlen)
          else remaining_length_loop fuel b (i + 1) len totlen
    end
  else Some (i, totlen).

(** [mqtt_get_total_length] *)
Definition mqtt_get_total_length (buf : option (list Z)) (len : Z) : option Z :=
  match buf with
  | None => Some (-1)
  | Some b =>
      if len <? 1 then Some (-1)
      else
        '(i, totlen) <- remaining_length_loop (Z.to_nat len) b 1 len 0;;
        int_val (totlen + i)
  end.

(** The big-endian 16-bit word at index [i]. *)
Definition word_at (b : list Z) (i : Z) : option Z :=
  hi <- mget b i;;
  lo <- mget b (i + 1);;
  Some (Z.lor (Z.shiftl hi 8) lo).

(** [mqtt_get_publish_topic]: the pointer returned (an offset) and the new
    value of [*length]. *)
Definition mqtt_get_publish_topic (buf : option (list Z)) (len : Z)
  : option (option Z * Z) :=
  match buf with
  | None => Some (None, len)
  | Some b =>
      '(i, totlen) <- remaining_length_loop (Z.to_nat len) b 1 len 0;;
      _ <- int_val (totlen + i);;
      if i + 2 >=? len then Some (None, len)
      else
        topiclen <- word_at b i;;
        let i := i + 2 in
        if i + topiclen >? len then Some (None, len)
        else Some (Some i, u16 topiclen)
  end.

(** [mqtt_get_publish_data] *)
Definition mqtt_get_publish_data (buf : option (list Z)) (blength : Z)
  : option (option Z * Z) :=
  match buf with
  | None => Some (None, blength)
  | Some b =>
      '(i, totlen) <- remaining_length_loop (Z.to_nat blength) b 1 blength 0;;
      totlen <- int_val (totlen + i);;
      if i + 2 >=? blength then Some (None, 0)
      else
        topiclen <- word_at b i;;
        let i := i + 2 in
        if i + topiclen >=? blength then Some (None, 0)
        else
          let i := i + topiclen in
          qos <- mqtt_get_qos b;;
          if (qos >? 0) && (i + 2 >=? blength) then Some (None, 0)
          else
            let i := if qos >? 0 then i + 2 else i in
            if totlen <? i then Some (None, 0)
            else if totlen <=? blength then Some (Some i, u16 (totlen - i))
            else Some (Some i, u16 (blength - i))
  end.

(** The loop of [mqtt_get_id], which only skips the length field. *)
Fixpoint skip_length_loop (fuel : nat) (b : list Z) (i len : Z) : option Z :=
  if i <? len then
    match fuel with
    | O => None
    | S fuel =>
        bi <- mget b i;;
        if Z.land bi 0x80 =? 0 then Some (i + 1)
        else skip_length_loop fuel b (i + 1) len
    end
  else Some i.

(** [mqtt_get_id] *)
Definition mqtt_get_id (buf : option (list Z)) (len : Z) : option Z :=
  match buf with
  | None => Some 0
  | Some b =>
      if len <? 1 then Some 0
      else
        t <- mqtt_get_type b;;
        if t =? MQTT_MSG_TYPE_PUBLISH then
          i <- skip_length_loop (Z.to_nat len) b 1 len;;
          if i + 2 >=? len then Some 0
          else
            topiclen <- word_at b i;;
            let i := i + 2 in
            if i + topiclen >=? len then Some 0
            else
              let i := i + topiclen in
              qos <- mqtt_get_qos b;;
              if qos >? 0 then
                if i + 2 >=? len then Some 0
                else id <- word_at b i;; Some (u16 id)
              else Some 0
        else if (t =? MQTT_MSG_TYPE_PUBACK) || (t =? MQTT_MSG_TYPE_PUBREC)
             || (t =? MQTT_MSG_TYPE_PUBREL) || (t =? MQTT_MSG_TYPE_PUBCOMP)
             || (t =? MQTT_MSG_TYPE_SUBACK) || (t =? MQTT_MSG_TYPE_UNSUBACK)
             || (t =? MQTT_MSG_TYPE_SUBSCRIBE) || (t =? MQTT_MSG_TYPE_UNSUBSCRIBE)
        then
          if len >=? 4 then
            b1 <- mget b 1;;
            if Z.land b1 0x80 =? 0 then id <- word_at b 2;; Some (u16 id)
            else Some 0
          else Some 0
        else Some 0
  end.

(** *** Building messages *)

(** A [char *] that is set and not empty. *)
Definition given (s : option (list Z)) : option bool :=
  match s with
  | None => Some false
  | Some m => c <- mget m 0;; Some (negb (c =? 0))
  end.

(** [append_string(connection, s, strlen(s)) < 0] with the connection. *)
Definition append_cstr (c : mqtt_connection_t) (s : option (list Z))
  : option (bool * mqtt_connection_t) :=
  m <- s;;
  n <- strlen m;;
  '(r, c') <- append_string (Some c) s (i32 n);;
  c' <- c';;
  Some (r <? 0, c').

(** [variable_header->flags |= f]; the header starts at offset 3. *)
Definition or_flags (c : mqtt_connection_t) (f : Z) : option mqtt_connection_t :=
  b <- buffer c;;
  v <- mget b 10;;
  put_at c 10 (Z.lor v f).

Definition variable_header_size : Z := 10.

(** [mqtt_msg_connect] up to the payload: the variable header. *)
Definition connect_header (c : mqtt_connection_t) (info : mqtt_connect_info_t)
  : option mqtt_connection_t :=
  let c := set_length c (u16 (msg_length (message c) + variable_header_size)) in
  c <- put_at c 3 0;;
  c <- put_at c 4 4;;
  c <- put_at c 5 0x4D;;
  c <- put_at c 6 0x51;;
  c <- put_at c 7 0x54;;
  c <- put_at c 8 0x54;;
  c <- put_at c 9 4;;
  c <- put_at c 10 0;;
  c <- put_at c 11 (Z.shiftr (keepalive info) 8);;
  c <- put_at c 12 (Z.land (keepalive info) 0xff);;
  if negb (clean_session info =? 0)
  then or_flags c MQTT_CONNECT_FLAG_CLEAN_SESSION else Some c.

(** The will part: topic, message and the flag bits. *)
Definition connect_will (c : mqtt_connection_t) (info : mqtt_connect_info_t)
  : option (bool * mqtt_connection_t) :=
  g <- given (will_topic info);;
  if g then
    '(bad, c) <- append_cstr c (will_topic info);;
    if bad then Some (true, c)
    else
      '(bad, c) <- append_cstr c (will_message info);;
      if bad then Some (true, c)
      else
        c <- or_flags c MQTT_CONNECT_FLAG_WILL;;
        c <- (if negb (will_retain info =? 0)
              then or_flags c MQTT_CONNECT_FLAG_WILL_RETAIN else Some c);;
        c <- or_flags c (Z.shiftl (Z.land (will_qos info) 3) 3);;
        Some (false, c)
  else Some (false, c).

(** One optional credential with its flag. *)
Definition connect_credential (c : mqtt_connection_t) (s : option (list Z)) (flag : Z)
  : option (bool * mqtt_connection_t) :=
  g <- given s;;
  if g then
    '(bad, c) <- append_cstr c s;;
    if bad then Some (true, c)
    else c <- or_flags c flag;; Some (false, c)
  else Some (false, c).

(** [mqtt_msg_connect] *)
Definition mqtt_msg_connect (connection : option mqtt_connection_t)
    (info : option mqtt_connect_info_t) : option (bool * option mqtt_connection_t) :=
  match connection, info with
  | Some _, Some info =>
      c <- (init_message connection).2;;
      if msg_length (message c) + variable_header_size >? buffer_length c
      then Some (fail_message (Some c))
      else
        c <- connect_header c info;;
        g <- given (client_id info);;
        if g then
          '(bad, c) <- append_cstr c (client_id info);;
          if bad then Some (fail_message (Some c))
          else
            '(bad, c) <- connect_will c info;;
            if bad then Some (fail_message (Some c))
            else
              '(bad, c) <- connect_credential c (username info) MQTT_CONNECT_FLAG_USERNAME;;
              if bad then Some (fail_message (Some c))
              else
                '(bad, c) <- connect_credential c (password info) MQTT_CONNECT_FLAG_PASSWORD;;
                if bad then Some (fail_message (Some c))
                else fini_message (Some c) MQTT_MSG_TYPE_CONNECT 0 0 0
        else Some (fail_message (Some c))
  | _, _ => Some (false, connection)
  end.

(** [mqtt_msg_publish]; [mid] is the value of [*message_id] before the call,
    the result holds the one after it.  The bound check on [data_length] is
    computed in [size_t]. *)
Definition mqtt_msg_publish (connection : option mqtt_connection_t)
    (topic dat : option (list Z)) (data_length qos retain mid : Z)
  : option (bool * option mqtt_connection_t * Z) :=
  match connection with
  | None => Some (false, None, mid)
  | Some _ =>
      c <- (init_message connection).2;;
      gt <- given topic;;
      if negb gt then Some (fail_message (Some c), mid)
      else
        gd <- given dat;;
        if negb gd then Some (fail_message (Some c), mid)
        else
          '(bad, c) <- append_cstr c topic;;
          if bad then Some (fail_message (Some c), mid)
          else
            '(mid, c) <- (if qos >? 0 then append_message_id (Some c) 0
                          else Some (0, Some c));;
            if (qos >? 0) && (mid =? 0) then Some (fail_message c, mid)
            else
              c <- c;;
              if u32 (msg_length (message c) + data_length) >? buffer_length c
              then Some (fail_message (Some c), mid)
              else
                d <- dat;;
                c <- put_block c d data_length;;
                r <- fini_message (Some c) MQTT_MSG_TYPE_PUBLISH 0 qos retain;;
                Some (r, mid)
  end.

(** [mqtt_msg_puback], [mqtt_msg_pubrec], [mqtt_msg_pubrel] and
    [mqtt_msg_pubcomp] have one body, up to the type and the QoS bits. *)
Definition msg_ack (t : mqtt_message_type) (qos : Z)
    (connection : option mqtt_connection_t) (mid : Z)
  : option (bool * option mqtt_connection_t) :=
  match connection with
  | None => Some (false, None)
  | Some _ =>
      '(r, c) <- append_message_id (init_message connection).2 mid;;
      if r =? 0 then Some (fail_message c) else fini_message c t 0 qos 0
  end.

Definition mqtt_msg_puback := msg_ack MQTT_MSG_TYPE_PUBACK 0.
Definition mqtt_msg_pubrec := msg_ack MQTT_MSG_TYPE_PUBREC 0.
Definition mqtt_msg_pubrel := msg_ack MQTT_MSG_TYPE_PUBREL 1.
Definition mqtt_msg_pubcomp := msg_ack MQTT_MSG_TYPE_PUBCOMP 0.

(** [mqtt_msg_subscribe] *)
Definition mqtt_msg_subscribe (connection : option mqtt_connection_t)
    (topic : option (list Z)) (qos mid : Z)
  : option (bool * option mqtt_connection_t * Z) :=
  match connection with
  | None => Some (false, None, mid)
  | Some _ =>
      c <- (init_message connection).2;;
      gt <- given topic;;
      if negb gt then Some (fail_message (Some c), mid)
      else
        '(mid, c) <- append_message_id (Some c) 0;;
        if mid =? 0 then Some (fail_message c, mid)
        else
          c <- c;;
          '(bad, c) <- append_cstr c topic;;
          if bad then Some (fail_message (Some c), mid)
          else if msg_length (message c) + 1 >? buffer_length c
          then Some (fail_message (Some c), mid)
          else
            c <- put_next c qos;;
            r <- fini_message (Some c) MQTT_MSG_TYPE_SUBSCRIBE 0 1 0;;
            Some (r, mid)
  end.

(** [mqtt_msg_unsubscribe] *)
Definition mqtt_msg_unsubscribe (connection : option mqtt_connection_t)
    (topic : option (list Z)) (mid : Z)
  : option (bool * option mqtt_connection_t * Z) :=
  match connection with
  | None => Some (false, None, mid)
  | Some _ =>
      c <- (init_message connection).2;;
      gt <- given topic;;
      if negb gt then Some (fail_message (Some c), mid)
      else
        '(mid, c) <- append_message_id (Some c) 0;;
        if mid =? 0 then Some (fail_message c, mid)
        else
          c <- c;;
          '(bad, c) <- append_cstr c topic;;
          if bad then Some (fail_message (Some c), mid)
          else
            r <- fini_message (Some c) MQTT_MSG_TYPE_UNSUBSCRIBE 0 1 0;;
            Some (r, mid)
  end.

(** [mqtt_msg_pingreq], [mqtt_msg_pingresp] and [mqtt_msg_disconnect]. *)
Definition msg_empty (t : mqtt_message_type) (connection : option mqtt_connection_t)
  : option (bool * option mqtt_connection_t) :=
  match connection with
  | None => Some (false, None)
  | Some _ => fini_message (init_message connection).2 t 0 0 0
  end.

Definition mqtt_msg_pingreq := msg_empty MQTT_MSG_TYPE_PINGREQ.
Definition mqtt_msg_pingresp := msg_empty MQTT_MSG_TYPE_PINGRESP.
Definition mqtt_msg_disconnect := msg_empty MQTT_MSG_TYPE_DISCONNECT.


(** *** Layout of the messages *)

(** The 16-bit big-endian number [n]. *)
Definition be16 (n : Z) : list Z := [n / 256; n mod 256].

(** A length-prefixed string. *)
Definition mstring (s : list Z) : list Z := be16 (zlen s) ++ s.

(** The remaining-length field, for lengths under 16384. *)
Definition remlen (n : Z) : list Z :=
  if n <=? 127 then [n] else [128 + n mod 128; n / 128].

Definition packet (t : mqtt_message_type) (qos retain : Z) (body : list Z) : list Z :=
  header_byte t 0 qos retain :: remlen (zlen body) ++ body.

(** What the caller transmits: [message.length] bytes from [message.data]. *)
Definition outbound (c : mqtt_connection_t) : option (list Z) :=
  off <- msg_data (message c);;
  b <- buffer c;;
  msub b off (msg_length (message c)).

(** [c] has its buffer, of a size the two-byte length field can describe. *)
Record ready (c : mqtt_connection_t) : Prop := {
  rd_buf : exists b, buffer c = Some b /\ buffer_length c <= zlen b;
  rd_len : 3 <= buffer_length c <= 16386;
  rd_id : 0 <= message_id c < 65536;
}.

(** [body] has been written behind the room for the fixed header. *)
Definition building (c : mqtt_connection_t) (body : list Z) : Prop :=
  exists h rest, buffer c = Some (h ++ body ++ rest) /\ zlen h = 3 /\
    msg_length (message c) = 3 + zlen body /\
    3 + zlen body <= buffer_length c <= zlen (h ++ body ++ rest) /\
    buffer_length c <= 16386.

(** What appending to a message leaves alone. *)
Definition same_conn (c c' : mqtt_connection_t) : Prop :=
  message_id c' = message_id c /\ buffer_length c' = buffer_length c.

Lemma same_conn_trans a b c : same_conn a b -> same_conn b c -> same_conn a c.
Proof. unfold same_conn. intuition congruence. Qed.

Lemma u8_hi n : 0 <= n < 65536 -> u8 (Z.shiftr n 8) = n / 256.
Proof.
  intros. rewrite Z.shiftr_div_pow2 by lia. apply u8_small.
  change (2 ^ 8) with 256. div_lia.
Qed.

Lemma u8_lo n : u8 (Z.land n 0xff) = n mod 256.
Proof.
  change 0xff with (Z.ones 8). rewrite Z.land_ones by lia. change (2 ^ 8) with 256.
  unfold u8. apply Z.mod_mod. lia.
Qed.

Lemma building_init c :
  ready c -> building (set_length c 3) [] /\ same_conn c (set_length c 3).
Proof.
  intros [[b [Hb Hl]] Hr _]. split; [|done].
  destruct (zsplit b 3 ltac:(lia)) as (h & rest & -> & Hh).
  exists h, rest. simpl. change (zlen (@nil Z)) with 0. split_and!; try done; lia.
Qed.

Lemma put_next_spec c body v :
  building c body -> 3 + zlen body + 1 <= buffer_length c ->
  exists c', put_next c v = Some c' /\ building c' (body ++ [u8 v]) /\ same_conn c c'.
Proof.
  intros (h & rest & Hb & Hh & Hl & Hn & Hr) Hroom. pose proof (zlen_nonneg body).
  destruct rest as [|x rest];
    [rewrite !zlen_app in Hn; change (zlen (@nil Z)) with 0 in Hn; lia|].
  unfold put_next, put_at. rewrite Hb, Hl.
  pose proof (mset_app_mid (h ++ body) x rest (u8 v)) as E.
  rewrite <- !app_assoc, zlen_app, Hh in E. rewrite E. simpl.
  eexists; split; [done|]. split; [|done].
  exists h, rest. simpl. rewrite Hl. rewrite !zlen_app in *. rewrite zlen_cons in Hn.
  change (zlen [u8 v]) with 1. rewrite u16_small by lia. rewrite <- app_assoc.
  split_and!; try done; lia.
Qed.

Lemma put_block_spec c body src s :
  building c body -> msub src 0 (zlen s) = Some s ->
  3 + zlen body + zlen s <= buffer_length c ->
  exists c', put_block c src (zlen s) = Some c' /\ building c' (body ++ s) /\
    same_conn c c'.
Proof.
  intros (h & rest & Hb & Hh & Hl & Hn & Hr) Hs Hroom.
  pose proof (zlen_nonneg s). rewrite !zlen_app in Hn.
  destruct (zsplit rest (zlen s) ltac:(lia)) as (old & rest' & -> & Hold).
  unfold put_block. rewrite Hb, Hs, Hl.
  pose proof (mcpy_app_mid (h ++ body) old rest' s Hold) as E.
  rewrite <- !app_assoc, zlen_app, Hh in E. rewrite E.
  eexists; split; [done|]. split; [|done].
  exists h, rest'. simpl. rewrite !zlen_app in *. pose proof (zlen_nonneg body).
  rewrite u16_small by lia. rewrite <- app_assoc. split_and!; try done; lia.
Qed.

Lemma building_buffer c body : building c body -> exists b, buffer c = Some b.
Proof. intros (h & rest & Hb & _). eauto. Qed.

Lemma put_be16_spec c body n :
  building c body -> 0 <= n < 65536 -> 3 + zlen body + 2 <= buffer_length c ->
  exists c1 c', put_next c (Z.shiftr n 8) = Some c1 /\
    put_next c1 (Z.land n 0xff) = Some c' /\
    building c' (body ++ be16 n) /\ same_conn c c'.
Proof.
  intros H Hn Hroom.
  destruct (put_next_spec c body (Z.shiftr n 8) H ltac:(lia)) as (c1 & E1 & H1 & S1).
  destruct (put_next_spec c1 _ (Z.land n 0xff) H1) as (c2 & E2 & H2 & S2).
  { destruct S1 as [_ ->]. rewrite zlen_app. change (zlen [_]) with 1. lia. }
  exists c1, c2. rewrite u8_hi, u8_lo, <- app_assoc in H2 by lia.
  eauto using same_conn_trans.
Qed.

Lemma append_cstr_spec c body m s :
  building c body -> cstring m s -> zlen s < 1073741824 ->
  let fits := 3 + zlen body + zlen s + 2 <=? buffer_length c in
  exists c', append_cstr c (Some m) = Some (negb fits, c') /\ same_conn c c' /\
    building c' (if fits then body ++ mstring s else body).
Proof.
  intros H Hs Hsz fits. pose proof (zlen_nonneg s) as Hz.
  destruct (building_buffer _ _ H) as [b Hb].
  assert (exists h rest, msg_length (message c) = 3 + zlen body /\
    buffer_length c <= 16386 /\ zlen h = 3 /\ buffer c = Some (h ++ body ++ rest))
    as (h & rest & Hl & Hr & _).
  { destruct H as (h & rest & ? & ? & ? & ? & ?). exists h, rest. done. }
  pose proof (zlen_nonneg body) as Hz'.
  assert (3 + zlen body <= buffer_length c) as Hroom by (destruct H as (?&?&?); lia).
  unfold append_cstr, append_string. rewrite (strlen_cstring _ _ Hs), Hb, Hl.
  rewrite i32_small by lia. rewrite !int_val_Some by lia. unfold fits.
  destruct (Z.gtb_spec (3 + zlen body + zlen s + 2) (buffer_length c)) as [Hg|Hg];
    destruct (Z.leb_spec (3 + zlen body + zlen s + 2) (buffer_length c)) as [Hg'|Hg'];
    try lia.
  - exists c. done.
  - destruct (put_be16_spec c body (zlen s) H) as (c1 & c2 & -> & -> & H2 & S2); [lia..|].
    destruct (put_block_spec c2 _ m s H2 (msub_cstring _ _ Hs)) as (c3 & -> & H3 & S3).
    { destruct S2 as [_ ->]. rewrite zlen_app. change (zlen (be16 _)) with 2. lia. }
    exists c3. destruct (Z.ltb_spec (zlen s + 2) 0); [lia|].
    rewrite <- app_assoc in H3. eauto using same_conn_trans.
Qed.

(** The identifier a message gets when the caller leaves the choice open. *)
Definition next_id (mid cur : Z) : Z :=
  if mid =? 0 then (if u16 (cur + 1) =? 0 then 1 else u16 (cur + 1)) else mid.

Lemma next_id_range mid cur : 0 <= mid < 65536 -> 0 < next_id mid cur < 65536.
Proof.
  intros H. unfold next_id. pose proof (u16_range (cur + 1)).
  destruct (Z.eqb_spec mid 0); [destruct (Z.eqb_spec (u16 (cur + 1)) 0)|]; lia.
Qed.

Lemma assign_id_spec c mid :
  0 <= message_id c < 65536 ->
  assign_id 2 (Some c) mid =
    Some (next_id mid (message_id c),
          Some (if mid =? 0 then set_id c (next_id mid (message_id c)) else c)).
Proof.
  intros Hc. unfold next_id. simpl. destruct (mid =? 0) eqn:E; [|done].
  destruct (u16 (message_id c + 1) =? 0) eqn:E1; [|done].
  apply Z.eqb_eq in E1. rewrite E1. simpl. done.
Qed.

Lemma building_set_id c body i : building c body -> building (set_id c i) body.
Proof. done. Qed.

Lemma append_id_spec c body mid :
  building c body -> 0 <= message_id c < 65536 -> 0 <= mid < 65536 ->
  let i := next_id mid (message_id c) in
  let fits := 3 + zlen body + 2 <=? buffer_length c in
  exists c', append_message_id (Some c) mid =
      Some (if fits then i else 0, Some c') /\
    building c' (if fits then body ++ be16 i else body) /\
    message_id c' = (if mid =? 0 then i else message_id c) /\
    buffer_length c' = buffer_length c.
Proof.
  intros H Hc Hm i fits. unfold append_message_id.
  rewrite assign_id_spec by done. fold i.
  set (c1 := if mid =? 0 then set_id c i else c).
  assert (building c1 body) as H1 by (unfold c1; destruct (mid =? 0); done).
  assert (buffer_length c1 = buffer_length c) as Hbl by (unfold c1; destruct (mid =? 0); done).
  assert (message_id c1 = if mid =? 0 then i else message_id c) as Hid
    by (unfold c1; destruct (mid =? 0); done).
  destruct (building_buffer _ _ H1) as [b ->]. rewrite Hbl.
  assert (msg_length (message c1) = 3 + zlen body) as -> by (destruct H1 as (?&?&?); lia).
  unfold fits.
  destruct (Z.gtb_spec (3 + zlen body + 2) (buffer_length c)) as [Hg|Hg];
    destruct (Z.leb_spec (3 + zlen body + 2) (buffer_length c)) as [Hg'|Hg']; try lia.
  - exists c1. done.
  - destruct (put_be16_spec c1 body i H1) as (c2 & c3 & -> & -> & H3 & [S3 S4]).
    { pose proof (next_id_range mid (message_id c) Hm). fold i in H0. lia. } { lia. }
    exists c3. rewrite S3, S4. done.
Qed.

Lemma remlen_bytes n : 0 <= n < 16384 ->
  remlen n = if n >? 127 then [u8 (Z.lor 0x80 (Z.rem n 128)); u8 (Z.quot n 128)] else [u8 n].
Proof.
  intros H. unfold remlen.
  destruct (Z.leb_spec n 127), (Z.gtb_spec n 127); try lia.
  - rewrite u8_small by lia. done.
  - rewrite Z.rem_mod_nonneg, Z.quot_div_nonneg by lia.
    rewrite lor_128, !u8_small by div_lia. done.
Qed.

(** The fixed-header byte reads back, for a QoS of two bits. *)
Lemma header_fields (t : mqtt_message_type) q r :
  0 <= q <= 3 ->
  let h := header_byte t 0 q r in
  0 <= h < 256 /\
  (forall rest, mqtt_get_type (h :: rest) = Some (type_code t) /\
    mqtt_get_dup (h :: rest) = Some 0 /\ mqtt_get_qos (h :: rest) = Some q /\
    mqtt_get_retain (h :: rest) = Some (r mod 2)).
Proof.
  intros Hq. unfold header_byte.
  change (Z.land r 1) with (Z.land r (Z.ones 1)). rewrite Z.land_ones by lia.
  change (2 ^ 1) with 2.
  assert (q = 0 \/ q = 1 \/ q = 2 \/ q = 3) as Eq by lia.
  assert (r mod 2 = 0 \/ r mod 2 = 1) as Er by div_lia.
  destruct Er as [-> | ->], Eq as [-> | [-> | [-> | ->]]], t;
    (split; [vm_compute; intuition congruence|intros rest; split_and!; reflexivity]).
Qed.

Lemma fini_spec c body (t : mqtt_message_type) q r :
  building c body -> 0 <= q <= 3 ->
  exists c', fini_message (Some c) t 0 q r = Some (true, Some c') /\
    outbound c' = Some (packet t q r body) /\
    msg_length (message c') = zlen (packet t q r body) /\
    same_conn c c' /\ exists b, buffer c' = Some b /\ buffer_length c' <= zlen b.
Proof.
  intros (h & rest & Hb & Hh & Hl & Hn & Hr) Hq.
  pose proof (zlen_nonneg body) as Hz.
  destruct h as [|h0 [|h1 [|h2 [|]]]]; try (unfold zlen in Hh; simpl in Hh; lia).
  destruct (header_fields t q r Hq) as [Hhb _].
  unfold fini_message, MQTT_MAX_FIXED_HEADER_SIZE, packet, put_at, outbound, same_conn.
  rewrite Hb, Hl. replace (3 + zlen body - 3) with (zlen body) by lia.
  rewrite remlen_bytes by lia. rewrite !(u8_small (header_byte _ _ _ _)) by lia.
  simpl in Hb |- *.
  destruct (zlen body >? 127).
  - rewrite ?mset_0. simpl. rewrite mset_1. simpl. rewrite mset_2. simpl.
    eexists; split; [done|]; simpl. rewrite u16_small by lia.
    rewrite !zlen_cons. split_and!; [|lia|done|done|].
    + etransitivity; [|exact (msub_app_mid [] (_ :: _ :: _ :: body) rest)].
      rewrite !zlen_cons. simpl. f_equal; lia.
    + eexists; split; [done|]. unfold zlen in *; simpl in *; lia.
  - rewrite mset_1. simpl. rewrite mset_2. simpl.
    eexists; split; [done|]; simpl. rewrite u16_small by lia.
    rewrite !zlen_cons. split_and!; [|lia|done|done|].
    + etransitivity; [|exact (msub_app_mid [h0] (_ :: _ :: body) rest)].
      rewrite !zlen_cons. simpl. f_equal; lia.
    + eexists; split; [done|]. unfold zlen in *; simpl in *; lia.
Qed.

(** Packets are bytes when their bodies are. *)
Lemma be16_bytes n : 0 <= n < 65536 -> bytes_ok (be16 n).
Proof. intros Hn. repeat constructor; unfold byte_ok; div_lia. Qed.

Lemma mstring_bytes s : bytes_ok s -> zlen s < 65536 -> bytes_ok (mstring s).
Proof.
  intros Hs Hz. apply Forall_app. split; [|done]. pose proof (zlen_nonneg s).
  apply be16_bytes. lia.
Qed.

Lemma packet_bytes (t : mqtt_message_type) q r body :
  0 <= q <= 3 -> zlen body < 16384 -> bytes_ok body -> bytes_ok (packet t q r body).
Proof.
  intros Hq Hz Hb. pose proof (zlen_nonneg body). constructor.
  - apply (proj1 (header_fields t q r Hq)).
  - apply Forall_app. split; [|done]. rewrite remlen_bytes by lia.
    destruct (_ >? _); repeat constructor; apply u8_range.
Qed.

(** *** Reading back what was built *)

Lemma remlen_len n : zlen (remlen n) = if n <=? 127 then 1 else 2.
Proof. unfold remlen. destruct (n <=? 127); done. Qed.

Lemma remaining_length_spec h n rest len :
  0 <= n < 16384 -> zlen (remlen n) < len ->
  remaining_length_loop (Z.to_nat len) (h :: remlen n ++ rest) 1 len 0 =
    Some (1 + zlen (remlen n), n).
Proof.
  intros Hn. rewrite remlen_len. unfold remlen. intros Hl.
  destruct (Z.leb_spec n 127); simpl app.
  - destruct (Z.to_nat len) as [|f] eqn:Ef; [lia|]. cbn [remaining_length_loop].
    destruct (Z.ltb_spec 1 len); [|lia].
    change (mget (h :: n :: rest) 1) with (Some n). simpl.
    rewrite land_127, land_128 by lia. rewrite Z.shiftl_0_r, Z.mod_small by lia.
    rewrite !int_val_Some by lia. destruct (Z.ltb_spec n 128); [done|lia].
  - destruct (Z.to_nat len) as [|[|f]] eqn:Ef; [lia..|]. cbn [remaining_length_loop].
    destruct (Z.ltb_spec 1 len); [|lia]. destruct (Z.ltb_spec (1 + 1) len); [|lia].
    set (m := n mod 128). assert (0 <= m < 128) by (unfold m; div_lia).
    assert (0 <= n / 128 < 128) by div_lia.
    change (mget (h :: 128 + m :: n / 128 :: rest) 1) with (Some (128 + m)).
    change (mget (h :: 128 + m :: n / 128 :: rest) (1 + 1)) with (Some (n / 128)).
    simpl. rewrite !land_127, !land_128 by lia.
    rewrite Z.shiftl_0_r, Z.shiftl_mul_pow2 by lia. change (2 ^ 7) with 128.
    replace ((128 + m) mod 128) with m by (unfold m; div_lia).
    rewrite (Z.mod_small (n / 128)) by lia.
    rewrite !int_val_Some by lia.
    destruct (Z.ltb_spec (128 + m) 128), (Z.ltb_spec (n / 128) 128); try lia.
    do 2 f_equal. unfold m. div_lia.
Qed.

Lemma skip_length_spec h n rest len :
  0 <= n < 16384 -> zlen (remlen n) < len ->
  skip_length_loop (Z.to_nat len) (h :: remlen n ++ rest) 1 len =
    Some (1 + zlen (remlen n)).
Proof.
  intros Hn. rewrite remlen_len. unfold remlen. intros Hl.
  destruct (Z.leb_spec n 127); simpl app.
  - destruct (Z.to_nat len) as [|f] eqn:Ef; [lia|]. cbn [skip_length_loop].
    destruct (Z.ltb_spec 1 len); [|lia].
    change (mget (h :: n :: rest) 1) with (Some n). simpl.
    rewrite land_128 by lia. destruct (Z.ltb_spec n 128); [done|lia].
  - destruct (Z.to_nat len) as [|[|f]] eqn:Ef; [lia..|]. cbn [skip_length_loop].
    destruct (Z.ltb_spec 1 len); [|lia]. destruct (Z.ltb_spec (1 + 1) len); [|lia].
    set (m := n mod 128). assert (0 <= m < 128) by (unfold m; div_lia).
    assert (0 <= n / 128 < 128) by div_lia.
    change (mget (h :: 128 + m :: n / 128 :: rest) 1) with (Some (128 + m)).
    change (mget (h :: 128 + m :: n / 128 :: rest) (1 + 1)) with (Some (n / 128)).
    simpl. rewrite !land_128 by lia.
    destruct (Z.ltb_spec (128 + m) 128), (Z.ltb_spec (n / 128) 128); try lia. done.
Qed.

Lemma word_at_spec pre n post i :
  0 <= n < 65536 -> i = zlen pre -> word_at (pre ++ be16 n ++ post) i = Some n.
Proof.
  intros Hn ->. unfold word_at, be16. simpl app. rewrite mget_app_mid.
  pose proof (mget_app_mid (pre ++ [n / 256]) (n mod 256) post) as E.
  rewrite <- app_assoc, zlen_app in E. change (zlen [_]) with 1 in E.
  simpl in E. rewrite E. rewrite lor_word by div_lia. f_equal. div_lia.
Qed.

Section publish_packet.
Context (q r mid : Z) (t d tail : list Z).
Let idb := if q >? 0 then be16 mid else [].
Let body := mstring t ++ idb ++ d.
Let pre := header_byte MQTT_MSG_TYPE_PUBLISH 0 q r :: remlen (zlen body).
Let pk := packet MQTT_MSG_TYPE_PUBLISH q r body.
Hypotheses (Hq : 0 <= q <= 3) (Hid : 0 <= mid < 65536) (Hb : zlen body < 16384)
  (Hd : d <> []).

Lemma pub_lens : 1 <= zlen d /\ 0 <= zlen t < 16384 /\
  zlen pre = 1 + zlen (remlen (zlen body)) /\
  zlen idb = (if q >? 0 then 2 else 0) /\
  zlen body = 2 + zlen t + zlen idb + zlen d /\
  zlen pk = zlen pre + zlen body /\ 1 <= zlen (remlen (zlen body)) <= 2 /\
  0 <= zlen idb.
Proof.
  assert (1 <= zlen d) by (destruct d; [done|rewrite zlen_cons; pose proof (zlen_nonneg l); lia]).
  pose proof (zlen_nonneg t).
  assert (zlen idb = if q >? 0 then 2 else 0) as Hi by (unfold idb; destruct (q >? 0); done).
  assert (zlen body = 2 + zlen t + zlen idb + zlen d) as E.
  { unfold body, mstring. rewrite !zlen_app. change (zlen (be16 _)) with 2. lia. }
  assert (0 <= zlen idb) by (rewrite Hi; destruct (q >? 0); lia).
  rewrite remlen_len. unfold pk, packet, pre. rewrite !zlen_cons, zlen_app, remlen_len.
  destruct (zlen body <=? 127); split_and!; lia.
Qed.

Lemma pub_split : pk ++ tail = pre ++ be16 (zlen t) ++ t ++ idb ++ d ++ tail.
Proof.
  unfold pk, packet, pre. cbn [app]. rewrite <- !app_assoc. do 2 f_equal.
  unfold body, mstring. rewrite <- !app_assoc. done.
Qed.

Lemma pub_header : remaining_length_loop (Z.to_nat (zlen pk)) (pk ++ tail) 1 (zlen pk) 0 =
  Some (zlen pre, zlen body).
Proof.
  destruct pub_lens as (?&?&E&?&?&?&?&?). rewrite E. unfold pk at 2, packet.
  simpl app. rewrite <- app_assoc. apply remaining_length_spec; lia.
Qed.

Lemma pub_total : mqtt_get_total_length (Some (pk ++ tail)) (zlen pk) = Some (zlen pk).
Proof.
  destruct pub_lens as (?&?&?&?&?&?&?&?). unfold mqtt_get_total_length.
  rewrite pub_header. destruct (Z.ltb_spec (zlen pk) 1); [lia|].
  rewrite int_val_Some by lia. f_equal; lia.
Qed.

Lemma pub_topic : exists off,
  mqtt_get_publish_topic (Some (pk ++ tail)) (zlen pk) = Some (Some off, zlen t) /\
  msub (pk ++ tail) off (zlen t) = Some t.
Proof.
  destruct pub_lens as (?&?&?&?&?&?&?&?). exists (zlen pre + 2).
  unfold mqtt_get_publish_topic. rewrite pub_header, int_val_Some by lia.
  destruct (Z.geb_spec (zlen pre + 2) (zlen pk)); [lia|].
  rewrite pub_split. rewrite (word_at_spec pre (zlen t)) by lia.
  destruct (Z.gtb_spec (zlen pre + 2 + zlen t) (zlen pk)); [lia|].
  rewrite u16_small by lia. split; [done|].
  pose proof (msub_app_mid (pre ++ be16 (zlen t)) t (idb ++ d ++ tail)) as E.
  rewrite <- app_assoc, zlen_app in E. exact E.
Qed.

Lemma pub_qos : mqtt_get_qos (pk ++ tail) = Some q.
Proof. apply (header_fields MQTT_MSG_TYPE_PUBLISH q r Hq). Qed.

Lemma pub_data : exists off,
  mqtt_get_publish_data (Some (pk ++ tail)) (zlen pk) = Some (Some off, zlen d) /\
  msub (pk ++ tail) off (zlen d) = Some d.
Proof.
  destruct pub_lens as (?&?&?&Hi&?&?&?&?). exists (zlen pre + 2 + zlen t + zlen idb).
  unfold mqtt_get_publish_data. rewrite pub_header, int_val_Some by lia.
  destruct (Z.geb_spec (zlen pre + 2) (zlen pk)); [lia|].
  rewrite pub_qos, pub_split, (word_at_spec pre (zlen t)) by lia.
  destruct (Z.geb_spec (zlen pre + 2 + zlen t) (zlen pk)); [lia|].
  assert ((q >? 0) && (zlen pre + 2 + zlen t + 2 >=? zlen pk) = false) as ->.
  { destruct (q >? 0); [|done].
    destruct (Z.geb_spec (zlen pre + 2 + zlen t + 2) (zlen pk)); [lia|done]. }
  replace (if q >? 0 then zlen pre + 2 + zlen t + 2 else zlen pre + 2 + zlen t)
    with (zlen pre + 2 + zlen t + zlen idb) by (destruct (q >? 0); lia).
  destruct (Z.ltb_spec (zlen body + zlen pre) (zlen pre + 2 + zlen t + zlen idb)); [lia|].
  destruct (Z.leb_spec (zlen body + zlen pre) (zlen pk)); [|lia].
  rewrite u16_small by lia. split; [do 2 f_equal; lia|].
  pose proof (msub_app_mid (pre ++ be16 (zlen t) ++ t ++ idb) d tail) as E.
  rewrite <- !app_assoc, !zlen_app in E. change (zlen (be16 _)) with 2 in E.
  rewrite !Z.add_assoc in E. exact E.
Qed.

Lemma pub_id :
  mqtt_get_id (Some (pk ++ tail)) (zlen pk) = Some (if q >? 0 then mid else 0).
Proof.
  destruct pub_lens as (?&?&E&Hi&?&?&?&?). unfold mqtt_get_id.
  assert (mqtt_get_type (pk ++ tail) = Some (MQTT_MSG_TYPE_PUBLISH : Z)) as ->
    by apply (header_fields MQTT_MSG_TYPE_PUBLISH q r Hq).
  assert (skip_length_loop (Z.to_nat (zlen pk)) (pk ++ tail) 1 (zlen pk) = Some (zlen pre)) as ->.
  { rewrite E. unfold pk at 2, packet. simpl app. rewrite <- app_assoc.
    apply skip_length_spec; lia. }
  destruct (Z.ltb_spec (zlen pk) 1); [lia|]. rewrite Z.eqb_refl. cbv beta iota zeta.
  destruct (Z.geb_spec (zlen pre + 2) (zlen pk)); [lia|].
  rewrite pub_qos, pub_split, (word_at_spec pre (zlen t)) by lia.
  destruct (Z.geb_spec (zlen pre + 2 + zlen t) (zlen pk)); [lia|].
  destruct (q >? 0) eqn:Eq; [|done].
  destruct (Z.geb_spec (zlen pre + 2 + zlen t + 2) (zlen pk)); [lia|].
  pose proof (word_at_spec (pre ++ be16 (zlen t) ++ t) mid (d ++ tail)
                (zlen pre + 2 + zlen t) Hid) as W.
  rewrite !zlen_app, <- !app_assoc in W. change (zlen (be16 _)) with 2 in W.
  unfold idb. rewrite W by lia. rewrite u16_small by lia. done.
Qed.
End publish_packet.

(** *** The builders *)

(** The outcome of one appending step that should extend the message to
    [body]: it reports failure exactly when [body] does not fit. *)
Definition stage (c : mqtt_connection_t) (res : option (bool * mqtt_connection_t))
    (body : list Z) : Prop :=
  exists bad c', res = Some (bad, c') /\ same_conn c c' /\
    bad = negb (3 + zlen body <=? buffer_length c) /\
    if bad then exists b, building c' b else building c' body.

(** What a builder hands to its caller: the packet when it fits the buffer, an
    empty message otherwise. *)
Definition built (c : mqtt_connection_t) (r : bool * option mqtt_connection_t)
    (t : mqtt_message_type) (q retain : Z) (body : list Z) : Prop :=
  exists c', r = (true, Some c') /\ ready c' /\ buffer_length c' = buffer_length c /\
    outbound c' =
      Some (if 3 + zlen body <=? buffer_length c then packet t q retain body else []) /\
    (buffer_length c < 3 + zlen body -> msg_data (message c') = Some 0).

(** What stays of the connection while a message is built. *)
Definition linked (c c' : mqtt_connection_t) : Prop :=
  buffer_length c' = buffer_length c /\ 3 <= buffer_length c <= 16386 /\
  0 <= message_id c' < 65536.

Lemma linked_same c c1 c2 : linked c c1 -> same_conn c1 c2 -> linked c c2.
Proof. unfold linked, same_conn. intros (? & ? & ?) (-> & ->). auto. Qed.

Lemma linked_init c : ready c -> linked c (set_length c 3).
Proof. intros [_ H1 H2]. unfold linked. simpl. auto. Qed.

Lemma building_fits c body : building c body -> 3 + zlen body <= buffer_length c.
Proof. intros (?&?&?); lia. Qed.

Lemma fail_built c c' b body t q r :
  building c' b -> linked c c' -> (3 + zlen body <=? buffer_length c) = false ->
  built c (fail_message (Some c')) t q r body.
Proof.
  intros (h & rest & Hb & Hh & Hl & Hn & Hr) (E & E3 & Ei) F. unfold fail_message, built.
  rewrite Hb, F. eexists; split; [done|].
  split; [split; simpl; [eexists; split; [done|lia]|lia|done]|]. split; [done|].
  split; [exact (msub_app_mid [] [] (h ++ b ++ rest))|done].
Qed.

Lemma fini_built c c' body (t : mqtt_message_type) q r :
  building c' body -> linked c c' -> 0 <= q <= 3 ->
  exists res, fini_message (Some c') t 0 q r = Some res /\ built c res t q r body.
Proof.
  intros H (E & E3 & Ei) Hq. pose proof (building_fits _ _ H).
  destruct (fini_spec c' body t q r H Hq) as (c2 & -> & Ho & _ & [Si S] & Hbuf).
  eexists; split; [done|]. exists c2. split; [done|].
  split; [split; [done|lia|lia]|]. split; [lia|].
  destruct (Z.leb_spec (3 + zlen body) (buffer_length c)); [|lia]. split; [done|lia].
Qed.

Lemma append_cstr_stage c body m s :
  building c body -> cstring m s -> zlen s < 1073741824 ->
  stage c (append_cstr c (Some m)) (body ++ mstring s).
Proof.
  intros H Hs Hz. destruct (append_cstr_spec c body m s H Hs Hz) as (c' & -> & S & B).
  assert (3 + zlen (body ++ mstring s) = 3 + zlen body + zlen s + 2) as E.
  { unfold mstring. rewrite !zlen_app. change (zlen (be16 _)) with 2. lia. }
  eexists _, c'. split; [done|]. split; [done|]. rewrite E. split; [done|].
  destruct (_ <=? _); simpl; eauto.
Qed.

(** A string argument: [nullptr] and the empty string both read as empty. *)
Definition field (s : option (list Z)) (v : list Z) : Prop :=
  match s with None => v = [] | Some m => cstring m v end /\ zlen v < 1073741824.

Definition opt_mstring (v : list Z) : list Z := if bool_decide (v = []) then [] else mstring v.

Lemma given_field s v : field s v -> given s = Some (negb (bool_decide (v = []))).
Proof.
  intros [H _]. destruct s as [m|]; simpl; [|by subst].
  destruct (cstring_first _ _ H) as (x & -> & ->). done.
Qed.

Lemma field_Some s v : field s v -> v <> [] -> exists m, s = Some m /\ cstring m v.
Proof. intros [H _] Hv. destruct s; [eauto|done]. Qed.

Lemma field_append c body s v :
  building c body -> field s v -> v <> [] ->
  stage c (append_cstr c s) (body ++ mstring v).
Proof.
  intros H Hs Hv. destruct (field_Some _ _ Hs Hv) as (m & -> & Hm).
  apply append_cstr_stage; [done..|apply Hs].
Qed.

(** [mqtt_msg_publish] *)
Definition publish_body (t d : list Z) (q mid : Z) : list Z :=
  mstring t ++ (if q >? 0 then be16 mid else []) ++ d.

Lemma publish_body_len t d q mid :
  zlen (publish_body t d q mid) = zlen (mstring t) + (if q >? 0 then 2 else 0) + zlen d.
Proof.
  unfold publish_body. rewrite !zlen_app.
  destruct (q >? 0); [change (zlen (be16 mid)) with 2|change (zlen (@nil Z)) with 0]; lia.
Qed.

(** The packet identifier of a message with QoS. *)
Lemma publish_id_stage c body q :
  building c body -> 0 <= message_id c < 65536 ->
  let mid := next_id 0 (message_id c) in
  let body' := body ++ (if q >? 0 then be16 mid else []) in
  exists i c', (if q >? 0 then append_message_id (Some c) 0 else Some (0, Some c)) =
      Some (i, Some c') /\ buffer_length c' = buffer_length c /\ 0 <= message_id c' < 65536 /\
    ((q >? 0) && (i =? 0)) = negb (3 + zlen body' <=? buffer_length c) /\
    if (q >? 0) && (i =? 0) then exists b, building c' b
    else building c' body' /\ i = if q >? 0 then mid else 0.
Proof.
  intros B Hid mid body'. unfold body'. destruct (q >? 0); simpl.
  - destruct (append_id_spec c body 0 B Hid ltac:(lia)) as (c' & -> & B' & Hi & Hl).
    pose proof (next_id_range 0 (message_id c) ltac:(lia)). fold mid in H, B', Hi.
    eexists _, c'. split; [done|]. split; [done|]. simpl in Hi. split; [lia|]. rewrite zlen_app.
    change (zlen (be16 mid)) with 2. rewrite Z.add_assoc. fold mid.
    destruct (_ <=? _); simpl; [|eauto].
    destruct (Z.eqb_spec mid 0); [lia|]. done.
  - eexists _, c. rewrite app_nil_r. split_and!; try done; try lia.
    pose proof (building_fits _ _ B). destruct (Z.leb_spec (3 + zlen body) (buffer_length c)); [done|lia].
Qed.

Lemma put_block_stage c0 c body d dm (t : mqtt_message_type) q r :
  building c body -> linked c0 c -> 0 <= q <= 3 ->
  zlen d < 1073741824 ->
  exists res,
    (if u32 (msg_length (message c) + zlen d) >? buffer_length c
     then Some (fail_message (Some c))
     else c <- put_block c (d ++ dm) (zlen d);; fini_message (Some c) t 0 q r) = Some res /\
    built c0 res t q r (body ++ d).
Proof.
  intros B L Hq Hd. pose proof L as (E & _ & _). pose proof (zlen_nonneg d). pose proof (zlen_nonneg body).
  assert (msg_length (message c) = 3 + zlen body /\ buffer_length c <= 16386 /\
    3 + zlen body <= buffer_length c) as (-> & ? & ?) by (destruct B as (?&?&?); lia).
  rewrite u32_small by lia.
  destruct (Z.gtb_spec (3 + zlen body + zlen d) (buffer_length c)).
  - eexists; split; [done|]. eapply fail_built; [done..|]. rewrite zlen_app.
    apply Z.leb_gt. lia.
  - destruct (put_block_spec c body (d ++ dm) d B) as (c' & -> & B' & S);
      [exact (msub_app_mid [] d dm)|lia|].
    destruct (fini_built c0 c' (body ++ d) t q r B') as (res & E' & Hb);
      [by apply (linked_same c0 c)|lia|]. eauto.
Qed.

Lemma publish_spec c tm t dm d q r mid0 :
  ready c -> field tm t -> t <> [] ->
  0 <= q <= 3 -> hd 0 d <> 0 -> zlen d < 1073741824 ->
  let mid := next_id 0 (message_id c) in
  exists res mid',
    mqtt_msg_publish (Some c) tm (Some (d ++ dm)) (zlen d) q r mid0 = Some (res, mid') /\
    built c res MQTT_MSG_TYPE_PUBLISH q r (publish_body t d q mid) /\
    (3 + zlen (publish_body t d q mid) <= buffer_length c ->
     mid' = if q >? 0 then mid else 0).
Proof.
  intros R Ht Ht0 Hq Hd Hdz mid. pose proof (rd_id _ R) as Hid.
  pose proof (zlen_nonneg d) as Hd0.
  destruct (building_init c R) as [B0 S0]. unfold mqtt_msg_publish. simpl init_message.
  cbn [snd]. change MQTT_MAX_FIXED_HEADER_SIZE with 3.
  rewrite (given_field _ _ Ht), bool_decide_eq_false_2 by done. simpl negb. cbv beta iota.
  assert (given (Some (d ++ dm)) = Some true) as ->.
  { destruct d as [|x d]; [done|]. simpl in Hd |- *. change (mget (x :: d ++ dm) 0) with (Some x).
    by destruct (Z.eqb_spec x 0). }
  simpl negb. cbv beta iota. pose proof (publish_body_len t d q mid) as El.
  destruct (field_append _ _ _ _ B0 Ht Ht0) as (bad & c1 & -> & S1' & Eb & B1).
  pose proof (linked_same _ _ _ (linked_init c R) S1') as L1. destruct S1' as [S1i S1].
  rewrite app_nil_l in *. simpl in S1i, S1, Eb.
  destruct bad.
  { assert (buffer_length c < 3 + zlen (publish_body t d q mid)) by
      (destruct (Z.leb_spec (3 + zlen (mstring t)) (buffer_length c)), (q >? 0); [done..|lia|lia]).
    destruct B1 as [b B1]. eexists _, _; split; [done|]. split; [|lia].
    eapply fail_built; [done..|]. by apply Z.leb_gt. }
  destruct (publish_id_stage c1 _ q B1) as (i & c2 & E2 & S2 & Si2 & Ei & B2); [lia|].
  rewrite E2, S1i, S1 in *. fold mid in Ei, B2.
  assert (linked c c2) as L2 by (split; [lia|split; [apply L1|done]]). destruct ((q >? 0) && (i =? 0)).
  { assert (buffer_length c < 3 + zlen (publish_body t d q mid)).
    { unfold publish_body. rewrite app_assoc, zlen_app.
      destruct (Z.leb_spec (3 + zlen (mstring t ++ (if q >? 0 then be16 mid else [])))
                  (buffer_length c)); [done|lia]. }
    destruct B2 as [b B2]. eexists _, _; split; [done|]. split; [|lia].
    eapply fail_built; [done..|]. by apply Z.leb_gt. }
  destruct B2 as [B2 ->].
  destruct (put_block_stage c c2 _ d dm MQTT_MSG_TYPE_PUBLISH q r B2 L2 Hq Hdz)
    as (res & E3 & Hres).
  exists res, (if q >? 0 then mid else 0). unfold publish_body. rewrite app_assoc.
  split; [|done]. destruct (_ >? buffer_length c2); [by simplify_eq|].
  destruct (put_block _ _ _); [|done]. by rewrite E3.
Qed.

(** *** SUBSCRIBE, UNSUBSCRIBE, the acknowledgements and the empty messages *)

(** A message that starts with a fresh identifier and the topic. *)
Lemma id_topic_stage c tm t :
  ready c -> field tm t -> t <> [] ->
  let mid := next_id 0 (message_id c) in
  exists i c1, append_message_id (Some (set_length c 3)) 0 = Some (i, Some c1) /\
    linked c c1 /\ (i =? 0) = negb (5 <=? buffer_length c) /\
    if i =? 0 then exists b, building c1 b
    else i = mid /\ stage c1 (append_cstr c1 tm) (be16 mid ++ mstring t).
Proof.
  intros R Ht Ht0 mid. destruct (building_init c R) as [B0 [Hi Hl]].
  pose proof (rd_id _ R) as Hid.
  destruct (append_id_spec _ [] 0 B0 Hid ltac:(lia)) as (c1 & -> & B1 & Hi1 & H1).
  simpl app in B1. change (zlen (@nil Z)) with 0 in *. change (3 + 0 + 2) with 5 in *.
  simpl message_id in *. simpl buffer_length in *. fold mid in B1.
  pose proof (next_id_range 0 (message_id c) ltac:(lia)). fold mid in H |- *.
  simpl Z.eqb in Hi1. cbv iota in Hi1. fold mid in Hi1.
  eexists _, c1. split; [done|]. split; [split; [done|split; [apply R|lia]]|].
  destruct (5 <=? buffer_length c); simpl; [|eauto].
  destruct (Z.eqb_spec mid 0); [lia|]. split; [done|]. split; [done|].
  by apply (field_append c1 (be16 mid)).
Qed.

Lemma zlen_be16 n : zlen (be16 n) = 2.
Proof. done. Qed.

Lemma mstring_len t : zlen (mstring t) = 2 + zlen t.
Proof. unfold mstring. rewrite zlen_app, zlen_be16. done. Qed.

Lemma subscribe_spec c tm t q mid0 :
  ready c -> field tm t -> t <> [] -> 0 <= q < 256 ->
  let mid := next_id 0 (message_id c) in
  let body := be16 mid ++ mstring t ++ [q] in
  exists res mid', mqtt_msg_subscribe (Some c) tm q mid0 = Some (res, mid') /\
    built c res MQTT_MSG_TYPE_SUBSCRIBE 1 0 body /\
    (3 + zlen body <= buffer_length c -> mid' = mid).
Proof.
  intros R Ht Ht0 Hq mid body.
  assert (zlen body = 5 + zlen t) as El by
    (unfold body; rewrite !zlen_app, mstring_len, zlen_be16; change (zlen [q]) with 1; lia).
  pose proof (zlen_nonneg t). unfold mqtt_msg_subscribe.
  rewrite (given_field _ _ Ht), bool_decide_eq_false_2 by done.
  destruct (id_topic_stage c tm t R Ht Ht0) as (i & c1 & E1 & L1 & Ei & B1). fold mid in B1.
  change (init_message (Some c)).2 with (Some (set_length c 3)).
  simpl negb. cbv beta iota. rewrite E1.
  destruct (i =? 0).
  { destruct B1 as [b B1]. eexists _, _; split; [done|]. symmetry in Ei.
    apply negb_true_iff, Z.leb_gt in Ei. split; [|lia].
    eapply fail_built; [done..|]. apply Z.leb_gt. lia. }
  destruct B1 as (-> & bad & c2 & -> & S2 & Eb & B2).
  pose proof (linked_same _ _ _ L1 S2) as L2. pose proof L1 as (S1 & _). pose proof L2 as (S2' & _).
  rewrite zlen_app, mstring_len, zlen_be16 in Eb. destruct bad.
  { destruct B2 as [b B2]. eexists _, _; split; [done|]. symmetry in Eb.
    apply negb_true_iff, Z.leb_gt in Eb. split; [|lia].
    eapply fail_built; [done..|]. apply Z.leb_gt. lia. }
  assert (msg_length (message c2) = 7 + zlen t) as ->.
  { destruct B2 as (?&?&_&_&->&_). rewrite zlen_app, mstring_len, zlen_be16. lia. }
  destruct (Z.gtb_spec (7 + zlen t + 1) (buffer_length c2)).
  { eexists _, _; split; [done|]. split; [|lia].
    eapply fail_built; [done..|]. apply Z.leb_gt. lia. }
  destruct (put_next_spec c2 _ q B2) as (c3 & -> & B3 & S3).
  { rewrite zlen_app, mstring_len, zlen_be16. lia. }
  rewrite u8_small, <- app_assoc in B3 by lia.
  destruct (fini_built c c3 _ MQTT_MSG_TYPE_SUBSCRIBE 1 0 B3) as (res & -> & Hres);
    [by apply (linked_same c c2)|lia|].
  eauto.
Qed.

Lemma unsubscribe_spec c tm t mid0 :
  ready c -> field tm t -> t <> [] ->
  let mid := next_id 0 (message_id c) in
  let body := be16 mid ++ mstring t in
  exists res mid', mqtt_msg_unsubscribe (Some c) tm mid0 = Some (res, mid') /\
    built c res MQTT_MSG_TYPE_UNSUBSCRIBE 1 0 body /\
    (3 + zlen body <= buffer_length c -> mid' = mid).
Proof.
  intros R Ht Ht0 mid body.
  assert (zlen body = 4 + zlen t) as El by
    (unfold body; rewrite !zlen_app, mstring_len, zlen_be16; lia).
  pose proof (zlen_nonneg t). unfold mqtt_msg_unsubscribe.
  rewrite (given_field _ _ Ht), bool_decide_eq_false_2 by done.
  destruct (id_topic_stage c tm t R Ht Ht0) as (i & c1 & E1 & L1 & Ei & B1). fold mid in B1.
  change (init_message (Some c)).2 with (Some (set_length c 3)).
  simpl negb. cbv beta iota. rewrite E1.
  destruct (i =? 0).
  { destruct B1 as [b B1]. eexists _, _; split; [done|]. symmetry in Ei.
    apply negb_true_iff, Z.leb_gt in Ei. split; [|lia].
    eapply fail_built; [done..|]. apply Z.leb_gt. lia. }
  destruct B1 as (-> & bad & c2 & -> & S2 & Eb & B2).
  pose proof (linked_same _ _ _ L1 S2) as L2. pose proof L1 as (S1 & _). pose proof L2 as (S2' & _).
  rewrite zlen_app, mstring_len, zlen_be16 in Eb. destruct bad.
  { destruct B2 as [b B2]. eexists _, _; split; [done|]. symmetry in Eb.
    apply negb_true_iff, Z.leb_gt in Eb. split; [|lia].
    eapply fail_built; [done..|]. apply Z.leb_gt. lia. }
  destruct (fini_built c c2 _ MQTT_MSG_TYPE_UNSUBSCRIBE 1 0 B2) as (res & -> & Hres); [done|lia|].
  eauto.
Qed.

Lemma msg_ack_spec c (t : mqtt_message_type) q mid :
  ready c -> 0 <= mid < 65536 -> 0 <= q <= 3 ->
  exists res, msg_ack t q (Some c) mid = Some res /\
    built c res t q 0 (be16 (next_id mid (message_id c))).
Proof.
  intros R Hm Hq. destruct (building_init c R) as [B0 _]. unfold msg_ack.
  destruct (append_id_spec _ [] mid B0 (rd_id _ R) Hm) as (c1 & E1 & B1 & Hi & H1).
  pose proof (next_id_range mid (message_id c) Hm) as Hn. pose proof (rd_id _ R) as Hr.
  change (init_message (Some c)).2 with (Some (set_length c 3)). rewrite E1.
  change (zlen (@nil Z)) with 0 in *. change (3 + 0 + 2) with 5 in *. simpl buffer_length in *.
  simpl message_id in *. simpl app in B1.
  assert (linked c c1) as L by (split; [done|split; [apply R|destruct (mid =? 0); lia]]).
  destruct (Z.leb_spec 5 (buffer_length c)) as [Hle|Hle].
  - destruct (Z.eqb_spec (next_id mid (message_id c)) 0); [lia|]. by apply fini_built.
  - eexists; split; [done|]. eapply fail_built; [done..|]. by apply Z.leb_gt.
Qed.

Lemma msg_empty_spec c (t : mqtt_message_type) :
  ready c -> exists res, msg_empty t (Some c) = Some res /\ built c res t 0 0 [].
Proof.
  intros R. destruct (building_init c R) as [B0 _].
  apply fini_built; [done|by apply linked_init|lia].
Qed.

(** *** CONNECT *)

(** The seven bytes before the flags: protocol name and level 4. *)
Definition protocol_name : list Z := [0; 4; 0x4D; 0x51; 0x54; 0x54; 4].

Ltac put_const :=
  rewrite mset_Some by (unfold zlen; simpl; lia); simpl.

Lemma connect_header_spec c info :
  building (set_length c 3) [] -> 13 <= buffer_length c -> 0 <= keepalive info < 65536 ->
  exists c', connect_header (set_length c 3) info = Some c' /\ same_conn c c' /\
    building c' (protocol_name ++
      (if clean_session info =? 0 then 0 else 2) :: be16 (keepalive info)).
Proof.
  intros (h & rest & Hb & Hh & Hl & Hn & Hr) Hbl Hk. simpl in Hb, Hl, Hn, Hr.
  rewrite !zlen_app, Hh in Hn. change (zlen (@nil Z)) with 0 in *.
  destruct (zsplit rest 10 ltac:(lia)) as (old & rest' & -> & Ho). rewrite zlen_app in Hn.
  do 4 (destruct h as [|? h]; try (unfold zlen in Hh; simpl in Hh; lia)).
  do 11 (destruct old as [|? old]; try (unfold zlen in Ho; simpl in Ho; lia)).
  unfold connect_header, or_flags, put_at. simpl in Hb |- *. rewrite Hb.
  do 10 put_const. rewrite u8_hi, u8_lo by lia.
  assert (13 <= buffer_length c <= 3 + (0 + (10 + zlen rest'))) by (simpl in Ho; lia).
  destruct (clean_session info =? 0); simpl; [|put_const];
    (eexists; split; [done|]; split; [done|]);
    eexists [_; _; _], rest'; unfold protocol_name, be16; simpl;
    (split; [done|]; unfold zlen in *; simpl length in *; split_and!; try done; lia).
Qed.

Lemma or_flags_spec c a v rest f :
  building c (a ++ v :: rest) -> zlen a = 7 ->
  exists c', or_flags c f = Some c' /\ same_conn c c' /\
    building c' (a ++ u8 (Z.lor v f) :: rest).
Proof.
  intros (h & tl & Hb & Hh & Hl & Hn & Hr) Ha. unfold or_flags, put_at. rewrite Hb.
  assert (h ++ (a ++ v :: rest) ++ tl = (h ++ a) ++ v :: rest ++ tl) as E
    by (rewrite <- !app_assoc; done).
  rewrite E. replace 10 with (zlen (h ++ a)) by (rewrite zlen_app; lia).
  rewrite mget_app_mid, mset_app_mid. eexists; split; [done|]. split; [done|].
  exists h, tl. simpl. rewrite !zlen_app, !zlen_cons in *.
  split_and!; try done; try lia. rewrite <- !app_assoc. done.
Qed.

Lemma credential_stage c a v rest s x f :
  building c (a ++ v :: rest) -> zlen a = 7 -> field s x ->
  stage c (connect_credential c s f)
    (a ++ (if bool_decide (x = []) then v else u8 (Z.lor v f)) :: rest ++ opt_mstring x).
Proof.
  intros B Ha Hs. unfold connect_credential, opt_mstring. rewrite (given_field _ _ Hs).
  case_bool_decide as Hx; simpl.
  - eexists false, c. rewrite app_nil_r. split_and!; try done.
    pose proof (building_fits _ _ B). destruct (Z.leb_spec (3 + zlen (a ++ v :: rest)) (buffer_length c)); [done|lia].
  - destruct (field_append _ _ _ _ B Hs Hx) as (bad & c1 & -> & S & Eb & B1).
    rewrite <- app_assoc in Eb, B1. simpl in Eb, B1.
    assert (forall w, zlen (a ++ w :: rest ++ mstring x) = zlen (a ++ v :: rest ++ mstring x)) as El
      by (intros w; rewrite !zlen_app, !zlen_cons; done).
    destruct bad.
    + exists true, c1. rewrite El. split_and!; done.
    + destruct (or_flags_spec c1 a v _ f B1 Ha) as (c2 & -> & S2 & B2).
      exists false, c2. rewrite El. split_and!; eauto using same_conn_trans.
Qed.

(** The flag byte after the will bits. *)
Definition will_flags (v retain qos : Z) : Z :=
  let v := u8 (Z.lor v MQTT_CONNECT_FLAG_WILL) in
  let v := if retain =? 0 then v else u8 (Z.lor v MQTT_CONNECT_FLAG_WILL_RETAIN) in
  u8 (Z.lor v (Z.shiftl (Z.land qos 3) 3)).

Definition will_part (wt wm : list Z) : list Z :=
  if bool_decide (wt = []) then [] else mstring wt ++ mstring wm.

Lemma will_bits_spec c a v rest info :
  building c (a ++ v :: rest) -> zlen a = 7 ->
  exists c', (c <- or_flags c MQTT_CONNECT_FLAG_WILL;;
        c <- (if negb (will_retain info =? 0)
              then or_flags c MQTT_CONNECT_FLAG_WILL_RETAIN else Some c);;
        c <- or_flags c (Z.shiftl (Z.land (will_qos info) 3) 3);;
        Some (false, c)) = Some (false, c') /\ same_conn c c' /\
    building c' (a ++ will_flags v (will_retain info) (will_qos info) :: rest).
Proof.
  intros B Ha. destruct (or_flags_spec _ _ _ _ MQTT_CONNECT_FLAG_WILL B Ha) as (c1 & -> & S1 & B1).
  unfold will_flags. destruct (will_retain info =? 0); simpl negb; cbv beta iota zeta.
  - destruct (or_flags_spec _ _ _ _ (Z.shiftl (Z.land (will_qos info) 3) 3) B1 Ha)
      as (c2 & -> & S2 & B2).
    eexists; split; [done|]; split; [|done]. eauto using same_conn_trans.
  - destruct (or_flags_spec _ _ _ _ MQTT_CONNECT_FLAG_WILL_RETAIN B1 Ha) as (c2 & -> & S2 & B2).
    destruct (or_flags_spec _ _ _ _ (Z.shiftl (Z.land (will_qos info) 3) 3) B2 Ha)
      as (c3 & -> & S3 & B3).
    eexists; split; [done|]; split; [|done]. eauto using same_conn_trans.
Qed.

(** The will message is only read when there is a will topic. *)
Definition will_ok (info : mqtt_connect_info_t) (wt wm : list Z) : Prop :=
  field (will_topic info) wt /\
  (wt <> [] -> exists m, will_message info = Some m /\ cstring m wm /\ zlen wm < 1073741824).

Lemma will_stage c a v rest info wt wm :
  building c (a ++ v :: rest) -> zlen a = 7 -> will_ok info wt wm ->
  stage c (connect_will c info)
    (a ++ (if bool_decide (wt = []) then v
           else will_flags v (will_retain info) (will_qos info)) :: rest ++ will_part wt wm).
Proof.
  intros B Ha [Hs Hw]. unfold connect_will, will_part.
  rewrite (given_field _ _ Hs). case_bool_decide as Hx; simpl negb; cbv beta iota.
  - eexists false, c. rewrite app_nil_r. split_and!; try done.
    pose proof (building_fits _ _ B). destruct (Z.leb_spec (3 + zlen (a ++ v :: rest)) (buffer_length c)); [done|lia].
  - destruct (Hw Hx) as (m & -> & Hwm & Hz).
    assert (forall w y, zlen (a ++ w :: rest ++ y) = 8 + zlen rest + zlen y) as El
      by (intros w y; rewrite !zlen_app, !zlen_cons, zlen_app; lia).
    destruct (field_append _ _ _ _ B Hs Hx) as (bad & c1 & -> & S1 & Eb & B1).
    rewrite <- app_assoc in Eb, B1. simpl in Eb, B1. rewrite El in Eb.
    pose proof (zlen_nonneg wm). pose proof (mstring_len wm) as Ew. destruct bad.
    { exists true, c1. rewrite El, zlen_app. split_and!; try done.
      symmetry in Eb |- *. apply negb_true_iff, Z.leb_gt in Eb.
      apply negb_true_iff, Z.leb_gt. lia. }
    destruct (append_cstr_stage _ _ m wm B1 Hwm Hz) as (bad & c2 & -> & S2 & Eb2 & B2).
    rewrite <- app_assoc in Eb2, B2. simpl in Eb2, B2. rewrite <- app_assoc in Eb2, B2.
    destruct S1 as [Si Sl]. rewrite El, Sl in Eb2. unfold stage. rewrite El.
    destruct bad.
    { exists true, c2. split_and!; eauto using same_conn_trans.
      apply (same_conn_trans _ c1); done. }
    destruct (will_bits_spec c2 a v _ info B2 Ha) as (c3 & E3 & S3 & B3).
    exists false, c3. split_and!; eauto.
    apply (same_conn_trans _ c1); [done|]. by apply (same_conn_trans _ c2).
Qed.

(** The flag byte as the protocol lays it out. *)
Definition connect_flags (clean will wretain : bool) (wqos : Z) (user pass : bool) : Z :=
  2 * Z.b2z clean + (if will then 4 + 8 * (wqos mod 4) + 32 * Z.b2z wretain else 0)
  + 64 * Z.b2z pass + 128 * Z.b2z user.

Lemma connect_flags_or (clean will wr user pass : bool) retain wq :
  (retain =? 0) = negb wr ->
  let v := if clean then 2 else 0 in
  let v := if will then will_flags v retain wq else v in
  let v := if user then u8 (Z.lor v MQTT_CONNECT_FLAG_USERNAME) else v in
  (if pass then u8 (Z.lor v MQTT_CONNECT_FLAG_PASSWORD) else v) =
  connect_flags clean will wr wq user pass.
Proof.
  intros E. unfold will_flags, connect_flags. rewrite E.
  change (Z.land wq 3) with (Z.land wq (Z.ones 2)). rewrite Z.land_ones by lia. change (2 ^ 2) with 4.
  assert (wq mod 4 = 0 \/ wq mod 4 = 1 \/ wq mod 4 = 2 \/ wq mod 4 = 3) as Hq by div_lia.
  destruct Hq as [-> | [-> | [-> | ->]]], clean, will, wr, user, pass; reflexivity.
Qed.

Definition is_given (x : list Z) : bool := negb (bool_decide (x = [])).

Definition connect_body (info : mqtt_connect_info_t) (cid wt wm us pw : list Z) : list Z :=
  protocol_name ++
  connect_flags (negb (clean_session info =? 0)) (is_given wt)
    (negb (will_retain info =? 0)) (will_qos info) (is_given us) (is_given pw) ::
  be16 (keepalive info) ++ mstring cid ++ will_part wt wm ++ opt_mstring us ++ opt_mstring pw.

Lemma publish_body_bytes t d q mid :
  bytes_ok t -> bytes_ok d -> 0 < mid < 65536 -> zlen (publish_body t d q mid) < 65536 ->
  bytes_ok (publish_body t d q mid).
Proof.
  intros Ht Hd Hm Hz. rewrite publish_body_len, mstring_len in Hz. pose proof (zlen_nonneg d).
  apply Forall_app. split; [apply mstring_bytes; [done|]; destruct (q >? 0); lia|].
  apply Forall_app. split; [|done]. destruct (q >? 0); [apply be16_bytes; lia|constructor].
Qed.

Lemma connect_body_bytes info cid wt wm us pw :
  0 <= keepalive info < 65536 -> zlen (connect_body info cid wt wm us pw) < 65536 ->
  bytes_ok cid -> bytes_ok wt -> bytes_ok wm -> bytes_ok us -> bytes_ok pw ->
  bytes_ok (connect_body info cid wt wm us pw).
Proof.
  intros Hk Hz Hc Hwt Hwm Hu Hp. unfold connect_body, will_part, opt_mstring in *.
  rewrite zlen_app, zlen_cons, !zlen_app in Hz. change (zlen protocol_name) with 7 in Hz.
  pose proof (zlen_nonneg cid). pose proof (zlen_nonneg wt). pose proof (zlen_nonneg wm).
  pose proof (zlen_nonneg us). pose proof (zlen_nonneg pw).
  rewrite zlen_be16, mstring_len in Hz.
  apply Forall_app; split; [repeat constructor; unfold byte_ok; lia|]. constructor.
  { unfold connect_flags, byte_ok. assert (0 <= will_qos info mod 4 < 4) by div_lia.
    destruct (clean_session info =? 0), (is_given wt), (will_retain info =? 0), (is_given us),
      (is_given pw); simpl negb; simpl Z.b2z; lia. }
  apply Forall_app; split; [by apply be16_bytes|].
  repeat case_bool_decide; rewrite ?zlen_app, ?mstring_len in Hz; change (zlen (@nil Z)) with 0 in Hz;
    repeat (apply Forall_app; split); try apply be16_bytes; done || lia || constructor.
Qed.

(** A failed stage ends in an empty message when the whole does not fit. *)
Lemma stage_fail c c1 (res : option (bool * mqtt_connection_t)) body all
    (k : mqtt_connection_t -> option (bool * option mqtt_connection_t)) t q r :
  stage c1 res body -> linked c c1 -> zlen body <= zlen all ->
  (forall c2, building c2 body -> linked c c2 ->
     exists x, k c2 = Some x /\ built c x t q r all) ->
  exists x, ('(bad, c2) <- res;; if bad then Some (fail_message (Some c2)) else k c2) = Some x /\
    built c x t q r all.
Proof.
  intros (bad & c2 & -> & S & Eb & B) L Hl Hk. pose proof (linked_same _ _ _ L S) as L2.
  destruct bad; [|by apply Hk]. pose proof L as (E & _).
  destruct B as [b B]. eexists; split; [done|]. eapply fail_built; [done..|].
  symmetry in Eb. apply negb_true_iff, Z.leb_gt in Eb. apply Z.leb_gt. lia.
Qed.

Lemma connect_spec c info cid wt wm us pw :
  ready c -> 0 <= keepalive info < 65536 -> field (client_id info) cid -> cid <> [] ->
  will_ok info wt wm -> field (username info) us -> field (password info) pw ->
  exists res, mqtt_msg_connect (Some c) (Some info) = Some res /\
    built c res MQTT_MSG_TYPE_CONNECT 0 0 (connect_body info cid wt wm us pw).
Proof.
  intros R Hk Hc Hc0 Hwt Hus Hpw. destruct (building_init c R) as [B0 _].
  set (all := connect_body info cid wt wm us pw). unfold mqtt_msg_connect.
  change (init_message (Some c)).2 with (Some (set_length c 3)).
  cbn [message set_length msg_length buffer_length]. unfold variable_header_size.
  set (f0 := if clean_session info =? 0 then 0 else 2).
  set (f1 := if bool_decide (wt = []) then f0 else will_flags f0 (will_retain info) (will_qos info)).
  set (f2 := if bool_decide (us = []) then f1 else u8 (Z.lor f1 MQTT_CONNECT_FLAG_USERNAME)).
  assert (zlen all = 10 + zlen (mstring cid) + zlen (will_part wt wm) + zlen (opt_mstring us)
    + zlen (opt_mstring pw)) as Ea.
  { unfold all, connect_body. rewrite zlen_app, zlen_cons, !zlen_app, zlen_be16.
    change (zlen protocol_name) with 7. lia. }
  pose proof (zlen_nonneg (mstring cid)). pose proof (zlen_nonneg (will_part wt wm)).
  pose proof (zlen_nonneg (opt_mstring us)). pose proof (zlen_nonneg (opt_mstring pw)).
  destruct (Z.gtb_spec (3 + 10) (buffer_length c)).
  { eexists; split; [done|]. eapply fail_built; [done|by apply linked_init|]. apply Z.leb_gt. lia. }
  destruct (connect_header_spec c info B0 ltac:(lia) Hk) as (c1 & E1 & S1 & B1).
  pose proof (linked_same _ _ _ (linked_init c R) S1) as L1.
  rewrite E1. fold f0 in B1.
  rewrite (given_field _ _ Hc), bool_decide_eq_false_2 by done. simpl negb. cbv beta iota.
  assert (forall v x, zlen (protocol_name ++ v :: be16 (keepalive info) ++ x) = 10 + zlen x) as El
    by (intros; rewrite zlen_app, zlen_cons, zlen_app, zlen_be16; change (zlen protocol_name) with 7; lia).
  eapply stage_fail; [apply (field_append _ _ _ _ B1 Hc Hc0)|done| |].
  { rewrite <- app_assoc. cbn [app]. rewrite El. lia. }
  intros c2 B2 S2. rewrite <- app_assoc in B2. cbn [app] in B2.
  eapply stage_fail; [apply (will_stage _ _ _ _ info wt wm B2); done|done| |].
  { rewrite <- app_assoc, El, zlen_app. lia. }
  intros c3 B3 S3. fold f1 in B3.
  eapply stage_fail; [apply (credential_stage _ _ _ _ _ us _ B3); done|done| |].
  { rewrite <- !app_assoc, El, !zlen_app. lia. }
  intros c4 B4 S4. fold f2 in B4.
  eapply stage_fail; [apply (credential_stage _ _ _ _ _ pw _ B4); done|done| |].
  { rewrite <- !app_assoc, El, !zlen_app. lia. }
  intros c5 B5 S5. apply fini_built; [|done|lia].
  replace all with (protocol_name ++ (if bool_decide (pw = []) then f2
      else u8 (Z.lor f2 MQTT_CONNECT_FLAG_PASSWORD)) ::
    (((be16 (keepalive info) ++ mstring cid) ++ will_part wt wm) ++ opt_mstring us) ++
    opt_mstring pw); [done|].
  unfold all, connect_body. rewrite <- !app_assoc. do 2 f_equal.
  rewrite <- connect_flags_or with (retain := will_retain info)
    by (by rewrite negb_involutive). unfold f2, f1, f0, is_given.
  destruct (clean_session info =? 0), (bool_decide (wt = [])), (bool_decide (us = [])),
    (bool_decide (pw = [])); reflexivity.
Qed.

(** *** The decoders on arbitrary input *)

(** The remaining-length field ends within its four bytes. *)
Definition length_field_ok (b : list Z) : Prop :=
  exists k v, 1 <= k <= 4 /\ mget b k = Some v /\ 0 <= v < 128.

(** The first [len] entries of [b] are bytes. *)
Definition readable (b : list Z) (len : Z) : Prop :=
  forall i, 0 <= i < len -> exists v, mget b i = Some v /\ 0 <= v < 256.

Lemma bytes_readable b len : bytes_ok b -> len <= zlen b -> readable b len.
Proof.
  intros Hb Hl i Hi. eexists. split; [apply mget_Some; lia|].
  apply (Forall_lookup_total_1 byte_ok b); [done|]. unfold zlen in Hl. lia.
Qed.

Lemma readable_app p post : bytes_ok p -> readable (p ++ post) (zlen p).
Proof.
  intros Hp i Hi. destruct (bytes_readable p (zlen p) Hp ltac:(lia) i Hi) as (v & Hv & Hb).
  exists v. split; [|done]. rewrite mget_app_l; done || lia.
Qed.

Lemma type_some b : 1 <= zlen b -> exists t q, mqtt_get_type b = Some t /\ mqtt_get_qos b = Some q.
Proof.
  intros Hb. unfold mqtt_get_type, mqtt_get_qos. rewrite mget_Some by lia. eauto.
Qed.

Section decoders.
Context (b : list Z) (len : Z).
Hypotheses (byte_at : readable b len) (Hlen16 : len < 65536) (Hfield : length_field_ok b).

Lemma decode_loop k v fuel : forall i tot,
  mget b k = Some v -> 0 <= v < 128 -> 1 <= i <= k -> k <= 4 -> len - i <= Z.of_nat fuel ->
  0 <= tot < 2 ^ (7 * (i - 1)) ->
  exists i' tot', remaining_length_loop fuel b i len tot = Some (i', tot') /\
    i <= i' <= Z.max i len /\ 0 <= tot' < 2 ^ 28.
Proof.
  induction fuel as [|fuel IH]; intros i tot Hv Hv' Hi Hk Hf Ht; cbn [remaining_length_loop];
    destruct (Z.ltb_spec i len); try lia;
    try (exists i, tot; split_and!; try lia; [done|];
         assert (2 ^ (7 * (i - 1)) <= 2 ^ 28) by (apply Z.pow_le_mono_r; lia); lia).
  destruct (byte_at i ltac:(lia)) as (x & Hx & Hx'). rewrite Hx.
  destruct (Z.gtb_spec (7 * (i - 1)) 31); [lia|].
  rewrite land_127, land_128, Z.shiftl_mul_pow2 by lia.
  assert (0 <= x mod 128 < 128) by div_lia.
  assert (2 ^ (7 * (i + 1 - 1)) = 128 * 2 ^ (7 * (i - 1))) as Ep.
  { replace (7 * (i + 1 - 1)) with (7 + 7 * (i - 1)) by lia. rewrite Z.pow_add_r by lia. done. }
  assert (2 ^ (7 * (i + 1 - 1)) <= 2 ^ 28) by (apply Z.pow_le_mono_r; lia).
  change (2 ^ 28) with 268435456 in *. set (P := 2 ^ (7 * (i - 1))) in *.
  assert (0 <= x mod 128 * P) by nia.
  assert (tot + x mod 128 * P < 128 * P) by nia.
  rewrite !int_val_Some by lia. destruct (Z.ltb_spec x 128) as [Hs|Hs].
  - exists (i + 1), (tot + x mod 128 * P). split_and!; try lia; done.
  - assert (i <> k) by (intros ->; rewrite Hv in Hx; simplify_eq; lia).
    destruct (IH (i + 1) (tot + x mod 128 * P)) as (i' & t' & -> & ? & ?); try lia; [done|].
    exists i', t'. split_and!; try lia; done.
Qed.

Lemma decode_header : exists i tot,
  remaining_length_loop (Z.to_nat len) b 1 len 0 = Some (i, tot) /\
  1 <= i <= Z.max 1 len /\ 0 <= tot < 2 ^ 28.
Proof.
  destruct Hfield as (k & v & Hk & Hv & Hv'). by apply (decode_loop k v); try lia.
Qed.

Lemma skip_loop fuel : forall i, 1 <= i -> len - i <= Z.of_nat fuel ->
  exists i', skip_length_loop fuel b i len = Some i' /\ i <= i' <= Z.max i len.
Proof.
  induction fuel as [|fuel IH]; intros i Hi Hf; cbn [skip_length_loop];
    destruct (Z.ltb_spec i len); try lia; try (exists i; split; [done|lia]).
  destruct (byte_at i ltac:(lia)) as (x & -> & _). destruct (_ =? 0).
  - exists (i + 1). split; [done|lia].
  - destruct (IH (i + 1)) as (i' & -> & ?); [lia..|]. exists i'. split; [done|lia].
Qed.

Lemma word_safe i : 0 <= i -> i + 2 <= len -> exists w, word_at b i = Some w /\ 0 <= w < 65536.
Proof.
  intros Hi H. destruct (byte_at i ltac:(lia)) as (x & Hx & Hx').
  destruct (byte_at (i + 1) ltac:(lia)) as (y & Hy & Hy').
  exists (x * 256 + y). unfold word_at. rewrite Hx, Hy, lor_word by lia. split; [done|lia].
Qed.

Lemma qos_safe : 1 <= len -> exists q, mqtt_get_qos b = Some q.
Proof.
  intros H. destruct (byte_at 0 ltac:(lia)) as (x & Hx & _).
  unfold mqtt_get_qos. rewrite Hx. eauto.
Qed.

Lemma type_safe : 1 <= len -> exists t, mqtt_get_type b = Some t.
Proof.
  intros H. destruct (byte_at 0 ltac:(lia)) as (x & Hx & _).
  unfold mqtt_get_type. rewrite Hx. eauto.
Qed.

(** A pointer and a length returned by a decoder lie within the packet. *)
Definition within (n : Z) (r : option Z * Z) : Prop :=
  forall off, r.1 = Some off -> 0 <= off /\ 0 <= r.2 /\ off + r.2 <= n.

Lemma topic_safe : exists r,
  mqtt_get_publish_topic (Some b) len = Some r /\ within len r.
Proof.
  unfold mqtt_get_publish_topic. destruct decode_header as (i & tot & -> & Hi & Ht).
  change (2 ^ 28) with 268435456 in Ht. rewrite int_val_Some by lia.
  destruct (Z.geb_spec (i + 2) len); [by eexists; split|].
  destruct (word_safe i ltac:(lia) ltac:(lia)) as (w & -> & Hw).
  destruct (Z.gtb_spec (i + 2 + w) len); [by eexists; split|].
  eexists; split; [done|]. intros off E. simpl in *. simplify_eq.
  rewrite u16_small by lia. lia.
Qed.

Lemma data_safe : exists r,
  mqtt_get_publish_data (Some b) len = Some r /\ within len r.
Proof.
  unfold mqtt_get_publish_data. destruct decode_header as (i & tot & -> & Hi & Ht).
  change (2 ^ 28) with 268435456 in Ht. rewrite int_val_Some by lia.
  destruct (Z.geb_spec (i + 2) len); [by eexists; split|].
  destruct (word_safe i ltac:(lia) ltac:(lia)) as (w & -> & Hw).
  destruct (Z.geb_spec (i + 2 + w) len); [by eexists; split|].
  destruct (qos_safe ltac:(lia)) as (q & ->).
  assert (exists j, (if q >? 0 then i + 2 + w + 2 else i + 2 + w) = j /\
    ((q >? 0) && (i + 2 + w + 2 >=? len) = false -> 0 <= j <= len)) as (j & -> & Hj).
  { destruct (q >? 0); simpl; eexists; (split; [done|]); [|lia].
    destruct (Z.geb_spec (i + 2 + w + 2) len); [done|lia]. }
  destruct ((q >? 0) && _); [by eexists; split|]. specialize (Hj eq_refl).
  destruct (Z.ltb_spec (tot + i) j); [by eexists; split|].
  destruct (Z.leb_spec (tot + i) len); (eexists; split; [done|]; intros off E; simpl in *;
    simplify_eq; rewrite u16_small by lia; lia).
Qed.

Lemma id_safe : exists i, mqtt_get_id (Some b) len = Some i /\ 0 <= i < 65536.
Proof.
  assert (0 <= 0 < 65536) as H0 by lia.
  unfold mqtt_get_id. destruct (Z.ltb_spec len 1); [eauto|].
  destruct (type_safe ltac:(lia)) as (t & ->).
  destruct (t =? _).
  - destruct (skip_loop (Z.to_nat len) 1 ltac:(lia) ltac:(lia)) as (i & -> & Hi).
    destruct (Z.geb_spec (i + 2) len); [eauto|].
    destruct (word_safe i ltac:(lia) ltac:(lia)) as (w & -> & Hw).
    destruct (Z.geb_spec (i + 2 + w) len); [eauto|].
    destruct (qos_safe ltac:(lia)) as (q & ->). destruct (q >? 0); [|eauto].
    destruct (Z.geb_spec (i + 2 + w + 2) len); [eauto|].
    destruct (word_safe (i + 2 + w) ltac:(lia) ltac:(lia)) as (x & -> & Hx).
    eexists; split; [done|]. rewrite u16_small; lia.
  - destruct (_ || _); [|eauto]. destruct (Z.geb_spec len 4); [|eauto].
    destruct (byte_at 1 ltac:(lia)) as (x & -> & _). destruct (_ =? 0); [|eauto].
    destruct (word_safe 2 ltac:(lia) ltac:(lia)) as (w & -> & Hw).
    eexists; split; [done|]. rewrite u16_small; lia.
Qed.
End decoders.

(** *** Properties *)

(** C22: a PUBLISH built by [mqtt_msg_publish] for a non-empty topic and a payload
    that fits the output buffer reads back, at the receiver and with anything
    behind it in the receive buffer: message type, QoS, retain bit, total
    length, topic, payload, and the packet identifier when the QoS asks for
    one. *)
Theorem mqtt_publish_roundtrip c tm t dm d q r mid0 tail :
  ready c -> field tm t -> t <> [] -> 0 <= q <= 3 -> hd 0 d <> 0 ->
  3 + zlen (publish_body t d q (next_id 0 (message_id c))) <= buffer_length c ->
  exists c' mid p toff doff,
    mqtt_msg_publish (Some c) tm (Some (d ++ dm)) (zlen d) q r mid0
      = Some (true, Some c', mid) /\
    outbound c' = Some p /\
    mqtt_get_type (p ++ tail) = Some (MQTT_MSG_TYPE_PUBLISH : Z) /\
    mqtt_get_qos (p ++ tail) = Some q /\
    mqtt_get_retain (p ++ tail) = Some (r mod 2) /\
    mqtt_get_total_length (Some (p ++ tail)) (zlen p) = Some (zlen p) /\
    mqtt_get_publish_topic (Some (p ++ tail)) (zlen p) = Some (Some toff, zlen t) /\
    msub (p ++ tail) toff (zlen t) = Some t /\
    mqtt_get_publish_data (Some (p ++ tail)) (zlen p) = Some (Some doff, zlen d) /\
    msub (p ++ tail) doff (zlen d) = Some d /\
    mqtt_get_id (Some (p ++ tail)) (zlen p) = Some mid /\
    (q > 0 -> 0 < mid < 65536).
Proof.
  intros R Ht Ht0 Hq Hd Hfit. set (i := next_id 0 (message_id c)) in *.
  pose proof (next_id_range 0 (message_id c) ltac:(lia)) as Hi. fold i in Hi.
  pose proof (rd_len _ R). assert (d <> []) by (by intros ->).
  assert (zlen d < 1073741824).
  { rewrite publish_body_len in Hfit. pose proof (zlen_nonneg (mstring t)).
    destruct (q >? 0); lia. }
  destruct (publish_spec c tm t dm d q r mid0) as (res & mid & E & (c' & -> & _ & _ & Ho & _) & Hm);
    try done. fold i in Ho, Hm. specialize (Hm Hfit).
  destruct (Z.leb_spec (3 + zlen (publish_body t d q i)) (buffer_length c)); [|lia].
  assert (zlen (publish_body t d q i) < 16384) as Hb by lia.
  assert (0 <= i < 65536) as Hi' by lia.
  destruct (pub_topic q r i t d tail Hb ltac:(done)) as (toff & E1 & E2).
  destruct (pub_data q r i t d tail Hq Hb ltac:(done)) as (doff & E3 & E4).
  exists c', mid, (packet MQTT_MSG_TYPE_PUBLISH q r (publish_body t d q i)), toff, doff.
  destruct (header_fields MQTT_MSG_TYPE_PUBLISH q r Hq) as [_ Hh].
  split; [done|]. split; [done|]. split_and!; try apply Hh; try done.
  - by apply pub_total.
  - rewrite Hm. by apply pub_id.
  - intros. rewrite Hm. destruct (Z.gtb_spec q 0); lia.
Qed.

(** A connection with a 64-byte buffer, and the topic [a/b]. *)
Definition conn64 : mqtt_connection_t :=
  mkConnection (mkMessage None 0) 65535 (Some (replicate 64 0)) 64.

Definition topic_ab : list Z := [97; 47; 98].

Lemma conn64_ready : ready conn64.
Proof. split; simpl; [eexists; split; [done|vm_compute; discriminate]|lia..]. Defined.

Lemma topic_ab_field : field (Some (topic_ab ++ [0])) topic_ab.
Proof. split; [split; [repeat constructor; discriminate|by exists []]|done]. Defined.

Lemma mqtt_publish_roundtrip_witness :
  exists c' mid p doff,
    mqtt_msg_publish (Some conn64) (Some (topic_ab ++ [0])) (Some [104; 105; 0]) 2 1 1 0
      = Some (true, Some c', mid) /\ outbound c' = Some p /\
    mqtt_get_publish_data (Some (p ++ [9; 9])) (zlen p) = Some (Some doff, 2) /\
    msub (p ++ [9; 9]) doff 2 = Some [104; 105].
Proof.
  destruct (mqtt_publish_roundtrip conn64 _ topic_ab [0] [104; 105] 1 1 0 [9; 9]
    conn64_ready topic_ab_field) as (c' & mid & p & toff & doff & E & Ho & _ & _ & _ & _ & _ & _
      & Hd & Hs & _); [done|lia|done|vm_compute; discriminate|].
  exists c', mid, p, doff. split; [exact E|]. split; [exact Ho|]. split; [exact Hd|exact Hs].
Defined.

(** [mqtt_msg_connect] writes the CONNECT packet of MQTT 3.1.1: protocol name
    and level, the flag byte with one bit per part that is present and the will
    QoS in bits 3 and 4, the keep-alive, then client identifier, will topic
    and message, user name and password in that order, each present exactly
    when its string is given; a packet larger than the buffer becomes an empty
    message. *)
Theorem mqtt_connect_layout c info cid wt wm us pw :
  ready c -> 0 <= keepalive info < 65536 -> field (client_id info) cid -> cid <> [] ->
  will_ok info wt wm -> field (username info) us -> field (password info) pw ->
  let body := connect_body info cid wt wm us pw in
  exists c', mqtt_msg_connect (Some c) (Some info) = Some (true, Some c') /\
    outbound c' = Some (if 3 + zlen body <=? buffer_length c
                        then packet MQTT_MSG_TYPE_CONNECT 0 0 body else []).
Proof.
  intros. edestruct connect_spec as (res & E & c' & -> & _ & _ & Ho & _); eauto.
Qed.

Lemma mqtt_connect_layout_witness :
  let info := mkInfo (Some (topic_ab ++ [0])) (Some [117; 0]) None (Some [119; 0])
                (Some [109; 0]) 300 1 1 1 in
  exists c', mqtt_msg_connect (Some conn64) (Some info) = Some (true, Some c') /\
    outbound c' = Some [16; 24; 0; 4; 77; 81; 84; 84; 4; 174; 1; 44; 0; 3; 97; 47; 98;
                        0; 1; 119; 0; 1; 109; 0; 1; 117].
Proof.
  intros info.
  destruct (mqtt_connect_layout conn64 info topic_ab [119] [109] [117] [] conn64_ready)
    as (c' & E & Ho).
  - simpl; lia.
  - exact topic_ab_field.
  - done.
  - split; [split; [split; [repeat constructor; discriminate|by exists []]|done]|].
    intros _. exists [109; 0]. split; [done|].
    split; [split; [repeat constructor; discriminate|by exists []]|done].
  - split; [split; [repeat constructor; discriminate|by exists []]|done].
  - done.
  - exists c'. split; [exact E|]. rewrite Ho. vm_compute. reflexivity.
Defined.

(** The SUBSCRIBE, UNSUBSCRIBE and acknowledgement packets name their packet in
    the same place. *)
Lemma id_packet_get_id (t : mqtt_message_type) q mid rest tail :
  0 <= q <= 3 -> 0 <= mid < 65536 -> zlen rest < 16382 ->
  In t [MQTT_MSG_TYPE_PUBACK; MQTT_MSG_TYPE_PUBREC; MQTT_MSG_TYPE_PUBREL;
        MQTT_MSG_TYPE_PUBCOMP; MQTT_MSG_TYPE_SUBSCRIBE; MQTT_MSG_TYPE_UNSUBSCRIBE] ->
  let p := packet t q 0 (be16 mid ++ rest) in
  mqtt_get_id (Some (p ++ tail)) (zlen p) = Some (if zlen rest <=? 125 then mid else 0).
Proof.
  intros Hq Hm Hr Ht p. pose proof (zlen_nonneg rest).
  assert (4 <= zlen p) as Hl.
  { unfold p, packet. rewrite zlen_cons, !zlen_app, remlen_len, zlen_be16.
    destruct (_ <=? 127); lia. }
  unfold mqtt_get_id. destruct (header_fields t q 0 Hq) as [_ Hh].
  destruct (Z.ltb_spec (zlen p) 1); [lia|].
  assert (mqtt_get_type (p ++ tail) = Some (t : Z)) as -> by apply Hh.
  assert ((t =? MQTT_MSG_TYPE_PUBLISH) = false) as ->
    by (simpl in Ht; intuition (subst; done)).
  assert (((t =? MQTT_MSG_TYPE_PUBACK) || (t =? MQTT_MSG_TYPE_PUBREC)
             || (t =? MQTT_MSG_TYPE_PUBREL) || (t =? MQTT_MSG_TYPE_PUBCOMP)
             || (t =? MQTT_MSG_TYPE_SUBACK) || (t =? MQTT_MSG_TYPE_UNSUBACK)
             || (t =? MQTT_MSG_TYPE_SUBSCRIBE) || (t =? MQTT_MSG_TYPE_UNSUBSCRIBE)) = true) as ->
    by (simpl in Ht; intuition (subst; done)).
  destruct (Z.geb_spec (zlen p) 4); [|lia].
  unfold p at 1 2, packet, remlen. rewrite zlen_app, zlen_be16.
  destruct (Z.leb_spec (2 + zlen rest) 127), (Z.leb_spec (zlen rest) 125); try lia; simpl app.
  - match goal with |- context [mget (?h :: ?x :: ?l) 1] =>
      change (mget (h :: x :: l) 1) with (Some x) end. cbv iota.
    rewrite land_128 by lia. destruct (Z.ltb_spec (2 + zlen rest) 128); [|lia].
    pose proof (word_at_spec [header_byte t 0 q 0; 2 + zlen rest] mid (rest ++ tail) 2 Hm eq_refl) as E.
    simpl app in E. rewrite E. rewrite u16_small by lia. done.
  - match goal with |- context [mget (?h :: ?x :: ?l) 1] =>
      change (mget (h :: x :: l) 1) with (Some x) end. cbv iota.
    assert (0 <= (2 + zlen rest) mod 128 < 128) by div_lia.
    rewrite land_128 by lia.
    destruct (Z.ltb_spec (128 + (2 + zlen rest) mod 128) 128); [lia|done].
Qed.

(** [mqtt_msg_subscribe] and [mqtt_msg_unsubscribe] write the packet with a
    fresh identifier, the topic filter and (for SUBSCRIBE) the requested QoS;
    the identifier is never 0, also when the counter wraps, and is the one
    [mqtt_get_id] reads back as long as the remaining length takes one byte. *)
Theorem mqtt_subscription_packets c tm t q mid0 tail :
  ready c -> field tm t -> t <> [] -> 0 <= q < 256 -> 8 + zlen t <= buffer_length c ->
  let mid := next_id 0 (message_id c) in
  let ps := packet MQTT_MSG_TYPE_SUBSCRIBE 1 0 (be16 mid ++ mstring t ++ [q]) in
  let pu := packet MQTT_MSG_TYPE_UNSUBSCRIBE 1 0 (be16 mid ++ mstring t) in
  exists cs cu,
    mqtt_msg_subscribe (Some c) tm q mid0 = Some (true, Some cs, mid) /\
    outbound cs = Some ps /\
    mqtt_msg_unsubscribe (Some c) tm mid0 = Some (true, Some cu, mid) /\
    outbound cu = Some pu /\ 0 < mid < 65536 /\
    mqtt_get_id (Some (ps ++ tail)) (zlen ps) = Some (if zlen t <=? 122 then mid else 0) /\
    mqtt_get_id (Some (pu ++ tail)) (zlen pu) = Some (if zlen t <=? 123 then mid else 0).
Proof.
  intros R Ht Ht0 Hq Hfit mid ps pu. pose proof (rd_len _ R). pose proof (zlen_nonneg t).
  pose proof (next_id_range 0 (message_id c) ltac:(lia)) as Hi. fold mid in Hi.
  assert (zlen (be16 mid ++ mstring t ++ [q]) = 5 + zlen t) as E1
    by (rewrite !zlen_app, mstring_len, zlen_be16; change (zlen [q]) with 1; lia).
  assert (zlen (be16 mid ++ mstring t) = 4 + zlen t) as E2
    by (rewrite !zlen_app, mstring_len, zlen_be16; lia).
  destruct (subscribe_spec c tm t q mid0) as (rs & ms & Es & (cs & -> & _ & _ & Os & _) & Hs); try done.
  destruct (unsubscribe_spec c tm t mid0) as (ru & mu & Eu & (cu & -> & _ & _ & Ou & _) & Hu); try done.
  fold mid in Os, Ou, Hs, Hu. rewrite E1 in *. rewrite E2 in *.
  rewrite Hs in Es by lia. rewrite Hu in Eu by lia.
  destruct (Z.leb_spec (3 + (5 + zlen t)) (buffer_length c)); [|lia].
  destruct (Z.leb_spec (3 + (4 + zlen t)) (buffer_length c)); [|lia].
  exists cs, cu. split_and!; try done; try lia; unfold ps, pu;
    rewrite id_packet_get_id; try lia; try (simpl; tauto);
    rewrite ?zlen_app, mstring_len; change (zlen [q]) with 1; try lia; f_equal;
    repeat match goal with |- context [?a <=? ?b] => destruct (Z.leb_spec a b) end;
    done || lia.
Qed.

Lemma mqtt_subscription_packets_witness :
  exists cs cu,
    mqtt_msg_subscribe (Some conn64) (Some (topic_ab ++ [0])) 1 0 = Some (true, Some cs, 1) /\
    outbound cs = Some [130; 8; 0; 1; 0; 3; 97; 47; 98; 1] /\
    mqtt_msg_unsubscribe (Some conn64) (Some (topic_ab ++ [0])) 0 = Some (true, Some cu, 1) /\
    outbound cu = Some [162; 7; 0; 1; 0; 3; 97; 47; 98].
Proof.
  destruct (mqtt_subscription_packets conn64 _ topic_ab 1 0 [] conn64_ready topic_ab_field)
    as (cs & cu & E1 & E2 & E3 & E4 & _); [done|lia|vm_compute; discriminate|].
  exists cs, cu. split; [exact E1|]. split; [exact E2|]. split; [exact E3|exact E4].
Defined.

(** each of the four acknowledgement builders produces a four-byte packet
    of its type, PUBREL with the QoS bits 01, from which [mqtt_get_id] and
    [mqtt_get_total_length] read back the identifier and the length. *)
Theorem mqtt_ack_roundtrip f (t : mqtt_message_type) q c mid tail :
  In (f, t, q) [(mqtt_msg_puback, MQTT_MSG_TYPE_PUBACK, 0);
                (mqtt_msg_pubrec, MQTT_MSG_TYPE_PUBREC, 0);
                (mqtt_msg_pubrel, MQTT_MSG_TYPE_PUBREL, 1);
                (mqtt_msg_pubcomp, MQTT_MSG_TYPE_PUBCOMP, 0)] ->
  ready c -> 5 <= buffer_length c -> 0 < mid < 65536 ->
  exists c' p, f (Some c) mid = Some (true, Some c') /\ outbound c' = Some p /\ zlen p = 4 /\
    mqtt_get_type (p ++ tail) = Some (t : Z) /\ mqtt_get_qos (p ++ tail) = Some q /\
    mqtt_get_total_length (Some (p ++ tail)) 4 = Some 4 /\
    mqtt_get_id (Some (p ++ tail)) 4 = Some mid.
Proof.
  intros Hf R Hl Hm.
  assert (f = msg_ack t q /\ 0 <= q <= 3 /\ In t [MQTT_MSG_TYPE_PUBACK; MQTT_MSG_TYPE_PUBREC;
    MQTT_MSG_TYPE_PUBREL; MQTT_MSG_TYPE_PUBCOMP; MQTT_MSG_TYPE_SUBSCRIBE;
    MQTT_MSG_TYPE_UNSUBSCRIBE]) as (-> & Hq & Ht).
  { simpl in Hf. destruct Hf as [E|[E|[E|[E|[]]]]]; injection E as <- <- <-;
      (split; [reflexivity|split; [lia|simpl; tauto]]). }
  destruct (msg_ack_spec c t q mid R ltac:(lia) Hq) as (res & E & c' & -> & _ & _ & Ho & _).
  unfold next_id in Ho. destruct (Z.eqb_spec mid 0); [lia|].
  rewrite zlen_be16 in Ho. destruct (Z.leb_spec (3 + 2) (buffer_length c)); [|lia].
  exists c', (packet t q 0 (be16 mid)). destruct (header_fields t q 0 Hq) as [_ Hh].
  split; [done|]. split; [done|]. split; [done|]. split; [apply Hh|]. split; [apply Hh|].
  split; [reflexivity|].
  pose proof (id_packet_get_id t q mid [] tail Hq ltac:(lia) eq_refl Ht) as G.
  rewrite app_nil_r in G. exact G.
Qed.

Lemma mqtt_ack_roundtrip_witness :
  exists c' p, mqtt_msg_pubrel (Some conn64) 258 = Some (true, Some c') /\
    outbound c' = Some p /\ mqtt_get_id (Some (p ++ [7])) 4 = Some 258.
Proof.
  destruct (mqtt_ack_roundtrip mqtt_msg_pubrel MQTT_MSG_TYPE_PUBREL 1 conn64 258 [7])
    as (c' & p & E & Ho & _ & _ & _ & _ & G);
    [simpl; tauto|exact conn64_ready|simpl; lia|lia|].
  exists c', p. split; [exact E|]. split; [exact Ho|exact G].
Defined.

(** on any packet of at most 65535 bytes whose remaining-length field ends
    within four bytes, every decoder is defined (no access outside the packet,
    no overflow of [int]), and a topic or payload it points to lies inside the
    packet. *)
Theorem mqtt_decoders_safe b len :
  bytes_ok b -> 1 <= len <= zlen b -> len < 65536 -> length_field_ok b ->
  exists total topic payload id,
    mqtt_get_total_length (Some b) len = Some total /\ 0 < total /\
    mqtt_get_publish_topic (Some b) len = Some topic /\ within len topic /\
    mqtt_get_publish_data (Some b) len = Some payload /\ within len payload /\
    mqtt_get_id (Some b) len = Some id /\ 0 <= id < 65536.
Proof.
  intros Hb Hl Hl16 Hf. assert (readable b len) as Hr by (apply bytes_readable; [done|lia]).
  destruct (topic_safe b len) as (rt & ? & ?); try done.
  destruct (data_safe b len) as (rd & ? & ?); try done.
  destruct (id_safe b len) as (id & ? & ?); try done.
  destruct (decode_header b len) as (i & tot & E & Hi & Ht); try done.
  exists (tot + i), rt, rd, id. change (2 ^ 28) with 268435456 in Ht. split_and!; try done; try lia.
  unfold mqtt_get_total_length. rewrite E. destruct (Z.ltb_spec len 1); [lia|].
  rewrite int_val_Some by lia. done.
Qed.

Lemma mqtt_decoders_safe_witness :
  exists total topic, mqtt_get_total_length (Some [50; 200; 1; 0; 9; 9]) 6 = Some total /\
    mqtt_get_publish_topic (Some [50; 200; 1; 0; 9; 9]) 6 = Some topic /\ within 6 topic.
Proof.
  destruct (mqtt_decoders_safe [50; 200; 1; 0; 9; 9] 6) as (total & topic & d & i & E & _ & T & W & _);
    [repeat constructor; done|unfold zlen; simpl; lia|lia|exists 2, 1; split; [lia|]; split; [done|lia]|].
  exists total, topic. split; [exact E|]. split; [exact T|exact W].
Defined.

(** a PUBLISH with QoS and an empty payload, which the protocol allows, loses
    its identifier: [mqtt_get_id] answers 0 for it whatever identifier the
    packet carries, because the bound check asks for a byte behind the
    identifier. *)
Theorem mqtt_empty_publish_loses_id q r mid t :
  1 <= q <= 3 -> 0 <= mid < 65536 -> zlen t < 16380 ->
  let p := packet MQTT_MSG_TYPE_PUBLISH q r (publish_body t [] q mid) in
  mqtt_get_id (Some p) (zlen p) = Some 0.
Proof.
  intros Hq Hm Ht p. pose proof (zlen_nonneg t).
  assert (zlen (publish_body t [] q mid) = 4 + zlen t) as Eb.
  { rewrite publish_body_len, mstring_len. change (zlen (@nil Z)) with 0.
    destruct (Z.gtb_spec q 0); lia. }
  set (pre := header_byte MQTT_MSG_TYPE_PUBLISH 0 q r :: remlen (4 + zlen t)).
  assert (p = pre ++ be16 (zlen t) ++ t ++ be16 mid) as Ep.
  { unfold p, packet, pre. rewrite Eb. unfold publish_body, mstring.
    destruct (Z.gtb_spec q 0); [|lia]. rewrite app_nil_r, <- !app_assoc. done. }
  assert (zlen pre = 1 + zlen (remlen (4 + zlen t))) as El by (unfold pre; by rewrite zlen_cons).
  assert (zlen p = zlen pre + 2 + zlen t + 2) as Elp
    by (rewrite Ep, !zlen_app, !zlen_be16; lia).
  pose proof (zlen_nonneg (remlen (4 + zlen t))). unfold mqtt_get_id.
  destruct (header_fields MQTT_MSG_TYPE_PUBLISH q r ltac:(lia)) as [_ Hh].
  assert (mqtt_get_type p = Some (MQTT_MSG_TYPE_PUBLISH : Z)) as -> by apply Hh.
  assert (mqtt_get_qos p = Some q) as -> by apply Hh.
  assert (skip_length_loop (Z.to_nat (zlen p)) p 1 (zlen p) = Some (zlen pre)) as ->.
  { rewrite El. rewrite Ep at 2. unfold pre. cbn [app]. apply skip_length_spec; lia. }
  destruct (Z.ltb_spec (zlen p) 1); [lia|]. rewrite Z.eqb_refl. cbv beta iota zeta.
  destruct (Z.geb_spec (zlen pre + 2) (zlen p)); [done|].
  rewrite Ep at 1. rewrite (word_at_spec pre (zlen t)) by lia.
  destruct (Z.geb_spec (zlen pre + 2 + zlen t) (zlen p)); [done|].
  destruct (q >? 0); [|done].
  destruct (Z.geb_spec (zlen pre + 2 + zlen t + 2) (zlen p)); [done|lia].
Qed.

Lemma mqtt_empty_publish_loses_id_witness :
  mqtt_get_id (Some [50; 7; 0; 3; 97; 47; 98; 2; 1]) 9 = Some 0.
Proof.
  exact (mqtt_empty_publish_loses_id 1 0 513 topic_ab ltac:(lia) ltac:(lia) eq_refl).
Defined.
End MqttMsg.
