(* ===== verification/ClientHelper.v ===== *)
(** The client helpers, [src/helpers/ClientHelper.cpp]: sending and receiving
    over an [iClientInterface].

    The interface ([src/interface/pdi/.../iClientInterface.h],
    [src/utility/iIOInterface.h]) and the device clock are implemented per
    device; here they are the operations of the class [Net] on an abstract
    world [W].  [NetSpec] collects what the helpers rely on: what the interface
    documents for [write] and [read], and that the clock moves while the code
    waits. *)
From S2P Require Import Prelude.
From stdpp Require Import base option list numbers.
From Stdlib Require Import ZArith Lia.

Open Scope Z_scope.

Class Net (W : Type) := {
  io_setTimeout : Z -> W -> W;
  io_connect : list Z -> Z -> W -> Z * W;
  io_connected : W -> bool * W;
  io_disconnect : W -> Z * W;
  io_close : W -> Z * W;
  io_flush : W -> W;
  io_available : W -> Z * W;
  io_availableforwrite : Z -> W -> bool * W;
  io_read : W -> Z * W;
  io_write : list Z -> W -> Z * W;
  millis_now : W -> Z * W;
  dvc_yield : W -> W;
  dvc_wait : Z -> W -> W;
}.

(** [net_sent] are the bytes the interface has reported as taken: a write answers how many
    of its bytes were taken, or a negative number down to -99, as the device's TCP client
    does on an error, and then reports none.  [net_read] are the bytes it has delivered;
    [net_ticks] is the time in units of which [net_rate] make
    a millisecond, of which each [yield] takes at least one. *)
Class NetSpec (W : Type) `{Net W} := {
  net_sent : W -> list Z;
  net_read : W -> list Z;
  net_ticks : W -> Z;
  net_rate : Z;
  net_rate_pos : 1 <= net_rate;
  net_write bs w : let '(n, w') := io_write bs w in
    -99 <= n <= zlen bs /\ net_sent w' = net_sent w ++ take (Z.to_nat n) bs;
  net_read_byte w : let '(c, w') := io_read w in
    byte_ok c /\ net_read w' = net_read w ++ [c] /\ net_sent w' = net_sent w;
  net_available w : let '(_, w') := io_available w in
    net_read w' = net_read w /\ net_sent w' = net_sent w;
  net_availw n w : let '(_, w') := io_availableforwrite n w in
    net_sent w' = net_sent w /\ net_ticks w' = net_ticks w;
  net_connected w : net_sent (io_connected w).2 = net_sent w;
  net_close w : net_sent (io_close w).2 = net_sent w;
  net_disconnect w : net_sent (io_disconnect w).2 = net_sent w;
  net_wait n w : net_read (dvc_wait n w) = net_read w /\ net_sent (dvc_wait n w) = net_sent w;
  net_yield w : net_sent (dvc_yield w) = net_sent w /\
    net_ticks w + 1 <= net_ticks (dvc_yield w) <= net_ticks w + net_rate * 1048576;
  net_millis w : let '(t, w') := millis_now w in
    t = u32 (net_ticks w / net_rate) /\ net_ticks w' = net_ticks w /\ net_sent w' = net_sent w;
}.

Module ClientHelper.
Section helpers.
Context {W : Type} `{Net W}.

(** In all of these [client] says whether the pointer is set. *)

(** [connectToServer] *)
Definition connectToServer (client : bool) (host : option (list Z)) (port timeout : Z)
    (w : W) : bool * W :=
  match client, host with
  | true, Some h =>
      let w := io_setTimeout timeout w in
      let '(result, w) := io_connect h port w in
      (result >=? 0, w)
  | _, _ => (0 >=? 0, w)
  end.

(** [isConnected] *)
Definition isConnected (client : bool) (w : W) : bool * W :=
  if client then io_connected w else (false, w).

(** [disconnect] *)
Definition disconnect (client : bool) (w : W) : bool * W :=
  if client then let '(r, w) := io_disconnect w in (r =? 0, w) else (false, w).

(** [close] *)
Definition close (client : bool) (w : W) : bool * W :=
  if client then let '(r, w) := io_close w in (r =? 0, w) else (false, w).

(** The inner loop of [sendPacket], which waits until [sendlen] bytes can be
    written; [now] is the time the waiting started.  The result is [status].
    [spin] bounds the number of rounds. *)
Fixpoint await_write (spin : nat) (sendlen now timeout : Z) (w : W) : option (bool * W) :=
  match spin with
  | O => None
  | S spin =>
      let '(ready, w) := io_availableforwrite sendlen w in
      if ready then Some (true, w)
      else
        let w := dvc_yield w in
        let '(t, w) := millis_now w in
        if u32 (t - now) >? timeout then Some (false, w)
        else await_write spin sendlen now timeout w
  end.

(** The loop of [sendPacket] over the chunks. *)
Fixpoint send_loop (fuel spin : nat) (buffer : list Z) (sentBytes len max timeout now : Z)
    (w : W) : option (bool * W) :=
  if len >? 0 then
    match fuel with
    | O => None
    | S fuel =>
        let sendlen := if len >? max then max else len in
        '(status, w) <- await_write spin sendlen now timeout w;;
        if negb status then
          let '(_, w) := io_close w in Some (false, w)
        else
          chunk <- msub buffer sentBytes sendlen;;
          let '(sent, w) := io_write chunk w in
          let sentBytes := i32 (sentBytes + sent) in
          let len := u16 (len - sent) in
          if len =? 0 then Some (true, w)
          else if negb (sent =? sendlen) then Some (false, w)
          else
            let w := dvc_wait 0 w in
            let '(now, w) := millis_now w in
            send_loop fuel spin buffer sentBytes len max timeout now w
    end
  else Some (true, w).

(** [sendPacket] *)
Definition sendPacket (spin : nat) (client : bool) (buffer : option (list Z))
    (len max_bytes_in_one_write timeout : Z) (w : W) : option (bool * W) :=
  let '(conn, w) := isConnected client w in
  match conn, buffer with
  | true, Some b =>
      let '(now, w) := millis_now w in
      '(status, w) <- send_loop (Z.to_nat len) spin b 0 len max_bytes_in_one_write timeout now w;;
      let '(_, w) := io_write [] w in
      Some (status, w)
  | _, _ => Some (false, w)
  end.

(** The two nested loops of [readPacket]; [off] is where [buffer] starts in the
    block it points into. *)
Fixpoint read_loop (fuel : nat) (buffer : list Z) (off maxlen timeout readUntilChar len t : Z)
    (w : W) : option (Z * list Z * W) :=
  match fuel with
  | O => None
  | S fuel =>
      let '(n, w) := io_available w in
      if n >? 0 then
        let '(c, w) := io_read w in
        buffer <- mset buffer (off + len) (u8 c);;
        let len := u16 (len + 1) in
        if negb (readUntilChar =? 0) && (u8 c =? readUntilChar) then Some (len, buffer, w)
        else if len =? maxlen then Some (len, buffer, w)
        else read_loop fuel buffer off maxlen timeout readUntilChar len timeout w
      else
        let t := t - 1 in
        let w := dvc_wait 1 w in
        if t >? 0 then read_loop fuel buffer off maxlen timeout readUntilChar len t w
        else Some (len, buffer, w)
  end.

(** [readPacket] for a buffer that is not null: the length read and the block
    after it. *)
Definition readPacket (client : bool) (buffer : list Z) (off maxlen timeout readUntilChar : Z)
    (w : W) : option (Z * list Z * W) :=
  if client && (maxlen >? 0) then
    if timeout >? 0 then
      read_loop (Z.to_nat (maxlen * timeout)) buffer off maxlen timeout readUntilChar 0 timeout w
    else Some (0, buffer, w)
  else Some (0, buffer, w).

(** *** Reading *)

Lemma read_loop_total fuel : forall buffer off maxlen timeout until len t w,
  0 <= off -> off + maxlen <= zlen buffer -> maxlen < 65536 ->
  0 <= len < maxlen -> 1 <= t <= timeout ->
  (maxlen - len - 1) * timeout + t <= Z.of_nat fuel ->
  exists n buffer' w', read_loop fuel buffer off maxlen timeout until len t w = Some (n, buffer', w') /\
    len <= n <= maxlen /\ zlen buffer' = zlen buffer.
Proof.
  induction fuel as [|fuel IH]; intros buffer off maxlen timeout until len t w Ho Hb Hm Hl Ht Hf;
    cbn [read_loop]; [nia|].
  destruct (io_available w) as [n w1]. destruct (n >? 0).
  - destruct (io_read w1) as [c w2]. rewrite mset_Some by lia.
    set (b' := <[_:=_]> buffer).
    assert (zlen b' = zlen buffer) as Hz by (unfold b', zlen; by rewrite length_insert).
    rewrite u16_small by lia.
    destruct (negb (until =? 0) && _); [eexists _, _, _; split; [done|lia]|].
    destruct (Z.eqb_spec (len + 1) maxlen); [eexists _, _, _; split; [done|lia]|].
    destruct (IH b' off maxlen timeout until (len + 1) timeout w2) as (k & b2 & w' & -> & Hk & E);
      [lia..|nia|]. eexists _, _, _; split; [done|]. lia.
  - destruct (Z.gtb_spec (t - 1) 0).
    + destruct (IH buffer off maxlen timeout until len (t - 1) (dvc_wait 1 w1))
        as (k & b2 & w' & -> & Hk & E); [lia..|]. eexists _, _, _; split; [done|]. lia.
    + eexists _, _, _; split; [done|]. lia.
Qed.

(** [readPacket] always returns, with at most [maxlen] bytes stored. *)
Lemma readPacket_total client buffer off maxlen timeout until w :
  0 <= off -> 0 <= maxlen < 65536 -> off + maxlen <= zlen buffer ->
  exists n buffer' w', readPacket client buffer off maxlen timeout until w = Some (n, buffer', w') /\
    0 <= n <= maxlen /\ zlen buffer' = zlen buffer.
Proof.
  intros Ho Hm Hb. unfold readPacket.
  destruct client; simpl; [|eexists _, _, _; split; [done|lia]].
  destruct (Z.gtb_spec maxlen 0); [|eexists _, _, _; split; [done|lia]].
  destruct (Z.gtb_spec timeout 0); [|eexists _, _, _; split; [done|lia]].
  apply read_loop_total; lia || nia.
Qed.

(** Reading leaves the block in front of the buffer alone and stores bytes. *)
Lemma mset_frame b i v b' :
  mset b i v = Some b' -> zlen b' = zlen b /\
  (byte_ok v -> bytes_ok b -> bytes_ok b') /\ forall j, j < i -> mget b' j = mget b j.
Proof.
  unfold mset. destruct (Z.leb_spec 0 i); [|done]. destruct (Z.ltb_spec i (zlen b)); [|done].
  simpl. intros [= <-]. split; [unfold zlen; by rewrite length_insert|].
  split; [intros Hv Hb; by apply Forall_insert|].
  intros j Hj. unfold mget. destruct (Z.leb_spec 0 j); [|done].
  rewrite list_lookup_insert_ne by lia. done.
Qed.

Lemma read_loop_frame fuel : forall buffer off maxlen timeout until len t w n buffer' w',
  0 <= len -> maxlen < 65536 ->
  read_loop fuel buffer off maxlen timeout until len t w = Some (n, buffer', w') ->
  zlen buffer' = zlen buffer /\ (bytes_ok buffer -> bytes_ok buffer') /\
  forall j, j < off -> mget buffer' j = mget buffer j.
Proof.
  induction fuel as [|fuel IH]; intros buffer off maxlen timeout until len t w n buffer' w' Hl Hm E;
    cbn [read_loop] in E; [done|].
  destruct (io_available w) as [k w1]. destruct (k >? 0).
  - destruct (io_read w1) as [c w2].
    destruct (mset buffer (off + len) (u8 c)) as [b1|] eqn:E1; [|done].
    apply mset_frame in E1 as (Z1 & B1 & F1). pose proof (u16_range (len + 1)).
    assert (zlen b1 = zlen buffer /\ (bytes_ok buffer -> bytes_ok b1) /\
      forall j, j < off -> mget b1 j = mget buffer j) as Hb1.
    { split; [done|]. split; [apply B1, u8_range|]. intros j Hj. apply F1. lia. }
    destruct (negb (until =? 0) && _); [by injection E as <- <- <-|].
    destruct (u16 (len + 1) =? maxlen); [by injection E as <- <- <-|].
    apply IH in E as (Z2 & B2 & F2); [|lia|done].
    destruct Hb1 as (Z3 & B3 & F3). split; [congruence|]. split; [auto|].
    intros j Hj. rewrite F2, F3 by done. done.
  - destruct (t - 1 >? 0); [by apply IH in E|]. by injection E as <- <- <-.
Qed.

Lemma readPacket_frame client buffer off maxlen timeout until w n buffer' w' :
  maxlen < 65536 ->
  readPacket client buffer off maxlen timeout until w = Some (n, buffer', w') ->
  zlen buffer' = zlen buffer /\ (bytes_ok buffer -> bytes_ok buffer') /\
  forall j, j < off -> mget buffer' j = mget buffer j.
Proof.
  intros Hm. unfold readPacket. destruct (client && _); [|by intros [= <- <- <-]].
  destruct (timeout >? 0); [|by intros [= <- <- <-]]. by apply read_loop_frame.
Qed.

(** *** Reading and sending over an interface that meets its specification *)

Context `{!NetSpec W}.

Lemma mset_prefix (b : list Z) (off n : Z) (c : Z) d :
  0 <= off -> 0 <= n -> off + n < zlen b -> msub b off n = Some d ->
  exists b', mset b (off + n) c = Some b' /\ zlen b' = zlen b /\ msub b' off (n + 1) = Some (d ++ [c]).
Proof.
  intros Ho Hn Hl Hd. rewrite mset_Some by lia. eexists; split; [done|].
  assert (zlen (<[Z.to_nat (off + n) := c]> b) = zlen b) as Hz
    by (unfold zlen; by rewrite length_insert).
  split; [done|]. unfold msub in *. rewrite Hz.
  destruct (Z.leb_spec 0 off), (Z.leb_spec 0 n), (Z.leb_spec (off + n) (zlen b)); simpl in Hd; try lia.
  destruct (Z.leb_spec 0 (n + 1)), (Z.leb_spec (off + (n + 1)) (zlen b)); simpl; try lia.
  injection Hd as <-. f_equal.
  replace (Z.to_nat (n + 1)) with (S (Z.to_nat n)) by lia.
  replace (Z.to_nat (off + n)) with (Z.to_nat off + Z.to_nat n)%nat by lia.
  rewrite drop_insert_ge by lia.
  replace (Z.to_nat off + Z.to_nat n - Z.to_nat off)%nat with (Z.to_nat n) by lia.
  apply insert_take_snoc. rewrite length_drop. unfold zlen in *. lia.
Qed.

Lemma read_loop_spec fuel : forall buffer off maxlen timeout until len t w pre n buffer' w',
  0 <= off -> off + maxlen <= zlen buffer -> maxlen < 65536 -> 0 <= len < maxlen ->
  msub buffer off len = Some pre ->
  read_loop fuel buffer off maxlen timeout until len t w = Some (n, buffer', w') ->
  exists d, net_read w' = net_read w ++ d /\ net_sent w' = net_sent w /\ bytes_ok d /\
    n = len + zlen d /\ msub buffer' off n = Some (pre ++ d) /\
    (until <> 0 -> Forall (fun c => c <> until) (removelast d)).
Proof.
  induction fuel as [|fuel IH]; intros buffer off maxlen timeout until len t w pre n buffer' w'
    Ho Hb Hm Hl Hp E; cbn [read_loop] in E; [done|].
  pose proof (net_available w) as Ha. destruct (io_available w) as [k w1].
  destruct Ha as [Ha Ha']. destruct (k >? 0).
  - pose proof (net_read_byte w1) as Hr. destruct (io_read w1) as [c w2].
    destruct Hr as (Hc & Hr & Hs). rewrite u8_small in E by (unfold byte_ok in Hc; lia).
    destruct (mset_prefix buffer off len c pre) as (b' & E1 & Hz & Hp'); [lia..|done|].
    rewrite E1, u16_small in E by lia.
    assert (forall b2 w2', b2 = b' -> w2' = w2 ->
      exists d, net_read w2' = net_read w ++ d /\ net_sent w2' = net_sent w /\ bytes_ok d /\
        len + 1 = len + zlen d /\ msub b2 off (len + 1) = Some (pre ++ d) /\
        (until <> 0 -> Forall (fun c => c <> until) (removelast d))) as Hstop.
    { intros ? ? -> ->. exists [c]. rewrite Hr, Ha, Hs, Ha'. change (zlen [c]) with 1.
      split_and!; try done; by constructor. }
    destruct (negb (until =? 0) && (c =? until)) eqn:Eu; [injection E as <- <- <-; eauto|].
    destruct (Z.eqb_spec (len + 1) maxlen); [injection E as <- <- <-; eauto|].
    apply (IH _ _ _ _ _ _ _ _ (pre ++ [c])) in E as (d & R & S & B & -> & Hd & Hu);
      [|lia..|done].
    exists (c :: d). rewrite R, S, Hr, Ha, Hs, Ha', zlen_cons.
    rewrite <- !app_assoc in *. split_and!; try done; try lia; [by constructor|].
    intros Hu0. destruct d as [|x d]; [constructor|]. constructor; [|by apply Hu].
    intros ->. rewrite Z.eqb_refl, andb_true_r in Eu. by destruct (Z.eqb_spec until 0).
  - destruct (net_wait 1 w1) as [W1 W2]. destruct (t - 1 >? 0).
    + apply (IH _ _ _ _ _ _ _ _ pre) in E as (d & R & S & D); [|done..].
      exists d. rewrite R, S, W1, W2, Ha, Ha'. split_and!; try done; apply D.
    + injection E as <- <- <-. exists []. rewrite W1, W2, Ha, Ha', !app_nil_r.
      change (zlen (@nil Z)) with 0. rewrite Z.add_0_r. split_and!; done.
Qed.

(** *** Sending *)

(** Waiting for room ends: the clock passes the timeout. *)
Lemma await_write_total spin : forall sendlen timeout T0 w,
  0 <= timeout < 2147483648 ->
  0 <= net_ticks w - T0 -> net_ticks w / net_rate - T0 / net_rate <= timeout ->
  net_rate * (timeout + 2) - (net_ticks w - T0) <= Z.of_nat spin ->
  exists st w', await_write spin sendlen (u32 (T0 / net_rate)) timeout w = Some (st, w') /\
    net_sent w' = net_sent w.
Proof.
  pose proof net_rate_pos as Hr. set (R := net_rate) in *.
  induction spin as [|spin IH]; intros sendlen timeout T0 w Ht Hd Hms Hf; cbn [await_write].
  { pose proof (Z.div_mod (net_ticks w) R ltac:(lia)). pose proof (Z.div_mod T0 R ltac:(lia)).
    pose proof (Z.mod_pos_bound (net_ticks w) R ltac:(lia)).
    pose proof (Z.mod_pos_bound T0 R ltac:(lia)). nia. }
  pose proof (net_availw sendlen w) as Ha. destruct (io_availableforwrite sendlen w) as [rdy w1].
  destruct Ha as [Ha1 Ha2]. destruct rdy; [eauto|].
  destruct (net_yield w1) as [Hy1 Hy2].
  pose proof (net_millis (dvc_yield w1)) as Hm. destruct (millis_now (dvc_yield w1)) as [t w2].
  destruct Hm as (-> & Hm1 & Hm2).
  destruct (_ >? timeout) eqn:Eg; [eexists _, _; split; [done|congruence]|].
  fold R in Hy2, Eg, IH.
  assert (u32 (u32 (net_ticks (dvc_yield w1) / R) - u32 (T0 / R)) =
    net_ticks (dvc_yield w1) / R - T0 / R) as E.
  { unfold u32. rewrite <- Zminus_mod. apply Z.mod_small. rewrite Ha2 in Hy2. split.
    - assert (T0 / R <= net_ticks (dvc_yield w1) / R) by (apply Z.div_le_mono; lia). lia.
    - assert (net_ticks (dvc_yield w1) / R <= (net_ticks w + 1048576 * R) / R) as Hle
        by (apply Z.div_le_mono; lia).
      rewrite Z.div_add in Hle by lia. change (2 ^ 32) with 4294967296. lia. }
  rewrite E in Eg. rewrite Z.gtb_ltb in Eg. apply Z.ltb_ge in Eg.
  destruct (IH sendlen timeout T0 w2) as (st & w' & -> & S); [rewrite ?Hm1; lia..|].
  eexists _, _; split; [done|congruence].
Qed.

Lemma send_loop_spec fuel spin : forall buffer k len max timeout T0 w,
  0 <= len -> 1 <= max -> 0 <= timeout < 2147483648 -> 0 <= k ->
  k + len <= zlen buffer -> k + len < 65437 -> len <= Z.of_nat fuel ->
  net_rate * (timeout + 2) <= Z.of_nat spin -> T0 = net_ticks w ->
  exists st w' n, send_loop fuel spin buffer k len max timeout (u32 (T0 / net_rate)) w = Some (st, w') /\
    0 <= n <= len /\ (st = true <-> n = len) /\
    net_sent w' = net_sent w ++ take (Z.to_nat n) (drop (Z.to_nat k) buffer).
Proof.
  induction fuel as [|fuel IH]; intros buffer k len max timeout T0 w Hl Hm Ht Hk Hb Hb16 Hf Hs ->;
    cbn [send_loop]; (destruct (Z.gtb_spec len 0);
      [|eexists _, _, 0; split; [done|]; rewrite app_nil_r; split_and!; done || lia]); [lia|].
  set (sl := if len >? max then max else len).
  assert (1 <= sl <= len) as Hsl by (unfold sl; destruct (Z.gtb_spec len max); lia).
  destruct (await_write_total spin sl timeout (net_ticks w) w) as (st & w1 & -> & S1); [lia..|].
  destruct st; simpl negb; cbv iota.
  2:{ pose proof (net_close w1) as Hc. destruct (io_close w1) as [? w2]. simpl in Hc.
      eexists _, _, 0. split; [done|]. rewrite app_nil_r. split_and!; try lia; congruence. }
  unfold msub. destruct (Z.leb_spec 0 k), (Z.leb_spec 0 sl), (Z.leb_spec (k + sl) (zlen buffer)); try lia.
  simpl. pose proof (net_write (take (Z.to_nat sl) (drop (Z.to_nat k) buffer)) w1) as Hw.
  destruct (io_write _ w1) as [sent w2]. destruct Hw as [Hn Hw].
  assert (zlen (take (Z.to_nat sl) (drop (Z.to_nat k) buffer)) = sl) as Hz.
  { unfold zlen in *. rewrite length_take, length_drop. lia. }
  rewrite Hz in Hn. rewrite take_take, Nat.min_l, S1 in Hw by lia.
  rewrite i32_small, u16_small by lia.
  destruct (Z.eqb_spec (len - sent) 0).
  { eexists _, _, sent. split; [done|]. split_and!; done || lia. }
  destruct (Z.eqb_spec sent sl); simpl.
  2:{ eexists _, _, (Z.max 0 sent). split; [done|]. split; [lia|]. split; [split; [done|lia]|].
      rewrite Hw. do 2 f_equal. lia. }
  destruct (net_wait 0 w2) as [_ W2].
  pose proof (net_millis (dvc_wait 0 w2)) as Hm2. destruct (millis_now (dvc_wait 0 w2)) as [now w3].
  destruct Hm2 as (-> & E3 & S3). subst sent.
  destruct (IH buffer (k + sl) (len - sl) max timeout (net_ticks w3) w3) as (st & w' & n' & E & Hn' & Hst & S);
    [lia..|]. rewrite E3 in E. rewrite E.
  eexists _, _, (sl + n'). split; [done|]. split; [lia|]. split; [rewrite Hst; lia|].
  rewrite S, S3, W2, Hw, <- app_assoc. f_equal.
  replace (Z.to_nat (sl + n')) with (Z.to_nat sl + Z.to_nat n')%nat by lia.
  replace (Z.to_nat (k + sl)) with (Z.to_nat k + Z.to_nat sl)%nat by lia.
  rewrite <- drop_drop. apply take_take_drop.
Qed.

Lemma sendPacket_spec spin client buffer len max timeout w :
  0 <= len < 65437 -> len <= zlen buffer -> 1 <= max -> 0 <= timeout < 2147483648 ->
  net_rate * (timeout + 2) <= Z.of_nat spin ->
  exists st w' n, sendPacket spin client (Some buffer) len max timeout w = Some (st, w') /\
    0 <= n <= len /\ (st = true <-> n = len /\ (isConnected client w).1 = true) /\
    net_sent w' = net_sent w ++ take (Z.to_nat n) buffer.
Proof.
  intros Hl Hb Hm Ht Hs. unfold sendPacket.
  assert (net_sent (isConnected client w).2 = net_sent w) as Hc.
  { destruct client; [apply net_connected|done]. }
  destruct (isConnected client w) as [conn w1]. simpl in Hc. destruct conn.
  2:{ eexists _, _, 0. split; [done|]. rewrite app_nil_r. split; [lia|]. split; [|done]. by split; [|intros [_ ?]]. }
  pose proof (net_millis w1) as Hms. destruct (millis_now w1) as [now w2].
  destruct Hms as (-> & E2 & S2).
  destruct (send_loop_spec (Z.to_nat len) spin buffer 0 len max timeout (net_ticks w2) w2)
    as (st & w3 & n & E & Hn & Hst & S); [lia..|]. rewrite E2 in E. rewrite E.
  pose proof (net_write [] w3) as Hw. destruct (io_write [] w3) as [? w4]. destruct Hw as [_ Hw].
  eexists _, _, n. split; [done|]. split; [done|]. split; [rewrite Hst; tauto|].
  rewrite Hw, S, S2, Hc, take_nil, app_nil_r. done.
Qed.

(** [sendPacket] returns, whatever the interface does within its contract,
    once the busy-wait is given the rounds the clock needs to reach the
    timeout.  The bytes the interface reports as taken are a prefix of the packet
    in order, and it answers [true] exactly when a connected interface reported the
    whole packet as taken.  (A longer packet would reach 65536 when 99 is added to its
    length.) *)
Theorem send_packet_delivers spin client buffer len max timeout w :
  0 <= len < 65437 -> len <= zlen buffer -> 1 <= max -> 0 <= timeout < 2147483648 ->
  net_rate * (timeout + 2) <= Z.of_nat spin ->
  exists st w' n, sendPacket spin client (Some buffer) len max timeout w = Some (st, w') /\
    0 <= n <= len /\ (st = true <-> n = len /\ (isConnected client w).1 = true) /\
    net_sent w' = net_sent w ++ take (Z.to_nat n) buffer.
Proof. apply sendPacket_spec. Qed.

Lemma readPacket_spec client buffer off maxlen timeout until w n buffer' w' :
  0 <= off -> 0 <= maxlen < 65536 -> off + maxlen <= zlen buffer ->
  readPacket client buffer off maxlen timeout until w = Some (n, buffer', w') ->
  exists d, net_read w' = net_read w ++ d /\ net_sent w' = net_sent w /\
    n = zlen d /\ msub buffer' off n = Some d /\
    (until <> 0 -> Forall (fun c => c <> until) (removelast d)).
Proof.
  intros Ho Hm Hb E.
  assert (msub buffer off 0 = Some []) as H0.
  { unfold msub. destruct (Z.leb_spec 0 off), (Z.leb_spec (off + 0) (zlen buffer)); simpl; lia || done. }
  assert (n = 0 /\ buffer' = buffer /\ w' = w -> exists d, net_read w' = net_read w ++ d /\
    net_sent w' = net_sent w /\ n = zlen d /\ msub buffer' off n = Some d /\
    (until <> 0 -> Forall (fun c => c <> until) (removelast d))) as Hnone.
  { intros (-> & -> & ->). exists []. rewrite app_nil_r. split_and!; done. }
  unfold readPacket in E.
  destruct client; simpl in E; [|apply Hnone; simplify_eq; done].
  destruct (Z.gtb_spec maxlen 0); [|apply Hnone; simplify_eq; done].
  destruct (timeout >? 0); [|apply Hnone; simplify_eq; done].
  apply (read_loop_spec _ _ _ _ _ _ _ _ _ []) in E as (d & R & S & _ & -> & Hd & Hu); [|lia..|done].
  exists d. split_and!; done || lia.
Qed.

(** [readPacket] returns within [maxlen * timeout] rounds; it stores exactly
    the bytes it takes from the interface, in order, at the buffer and nowhere
    else before it, never more than [maxlen], and stops behind the first
    [readUntilChar] when one is asked for. *)
Theorem read_packet_reads client buffer off maxlen timeout until w :
  0 <= off -> 0 <= maxlen < 65536 -> off + maxlen <= zlen buffer ->
  exists n buffer' w' d, readPacket client buffer off maxlen timeout until w = Some (n, buffer', w') /\
    net_read w' = net_read w ++ d /\ net_sent w' = net_sent w /\
    n = zlen d /\ n <= maxlen /\ zlen buffer' = zlen buffer /\
    msub buffer' off n = Some d /\
    (until <> 0 -> Forall (fun c => c <> until) (removelast d)).
Proof.
  intros Ho Hm Hb.
  destruct (readPacket_total client buffer off maxlen timeout until w) as (n & b' & w' & E & Hn & Hz);
    [done..|].
  destruct (readPacket_spec _ _ _ _ _ _ _ _ _ _ Ho Hm Hb E) as (d & R & S & Hd & D).
  exists n, b', w', d. split_and!; try done; try lia; apply D.
Qed.
End helpers.

(** *** A concrete interface

    A peer that accepts at most [sim_accept] bytes per write and answers with
    the bytes of [sim_in]; a tick is a millisecond. *)
Record SimNet := mkSim {
  sim_up : bool;
  sim_in : list Z;
  sim_log : list Z;
  sim_out : list Z;
  sim_accept : Z;
  sim_ticks : Z;
}.

Definition sim_pass (n : Z) (s : SimNet) : SimNet :=
  mkSim (sim_up s) (sim_in s) (sim_log s) (sim_out s) (sim_accept s) (sim_ticks s + n).

Definition sim_set_up (b : bool) (s : SimNet) : SimNet :=
  mkSim b (sim_in s) (sim_log s) (sim_out s) (sim_accept s) (sim_ticks s).

Definition sim_read (s : SimNet) : Z * SimNet :=
  let c := u8 (hd 0 (sim_in s)) in
  (c, mkSim (sim_up s) (tl (sim_in s)) (sim_log s ++ [c]) (sim_out s) (sim_accept s) (sim_ticks s)).

Definition sim_write (bs : list Z) (s : SimNet) : Z * SimNet :=
  let n := Z.max 0 (Z.min (zlen bs) (sim_accept s)) in
  (n, mkSim (sim_up s) (sim_in s) (sim_log s) (sim_out s ++ take (Z.to_nat n) bs)
        (sim_accept s) (sim_ticks s)).

#[global] Instance sim_net : Net SimNet := {|
  io_setTimeout _ s := s;
  io_connect _ _ s := (0, sim_set_up true s);
  io_connected s := (sim_up s, s);
  io_disconnect s := (0, sim_set_up false s);
  io_close s := (0, sim_set_up false s);
  io_flush s := s;
  io_available s := (zlen (sim_in s), s);
  io_availableforwrite n s := (0 <? sim_accept s, s);
  io_read := sim_read;
  io_write := sim_write;
  millis_now s := (u32 (sim_ticks s), s);
  dvc_yield s := sim_pass 1 s;
  dvc_wait n s := sim_pass n s;
|}.

#[global] Program Instance sim_spec : NetSpec SimNet := {|
  net_sent := sim_out;
  net_read := sim_log;
  net_ticks := sim_ticks;
  net_rate := 1;
|}.
Next Obligation. lia. Qed.
Next Obligation. intros bs w. simpl. pose proof (zlen_nonneg bs). split; [lia|done]. Qed.
Next Obligation. intros w. simpl. split; [apply u8_range|done]. Qed.
Next Obligation. done. Qed.
Next Obligation. done. Qed.
Next Obligation. done. Qed.
Next Obligation. done. Qed.
Next Obligation. done. Qed.
Next Obligation. done. Qed.
Next Obligation. intros w. simpl. split; [done|lia]. Qed.
Next Obligation. intros w. simpl. rewrite Z.div_1_r. done. Qed.

Definition sim0 (input : list Z) : SimNet := mkSim true input [] [] 4 0.

Lemma send_packet_delivers_witness :
  exists st w' n, sendPacket 12 true (Some [1; 2; 3; 4; 5; 6]) 6 4 10 (sim0 []) = Some (st, w') /\
    0 <= n <= 6 /\ sim_out w' = take (Z.to_nat n) [1; 2; 3; 4; 5; 6].
Proof.
  destruct (send_packet_delivers 12 true [1; 2; 3; 4; 5; 6] 6 4 10 (sim0 []))
    as (st & w' & n & E & Hn & _ & S); [lia|vm_compute; discriminate|lia|lia|simpl; lia|].
  exists st, w', n. split; [exact E|]. split; [exact Hn|exact S].
Defined.

Lemma read_packet_reads_witness :
  exists n b' w' d, readPacket true [9; 9; 9; 9; 9] 1 3 2 0 (sim0 [7; 8]) = Some (n, b', w') /\
    sim_log w' = d /\ n = zlen d /\ msub b' 1 n = Some d.
Proof.
  destruct (read_packet_reads true [9; 9; 9; 9; 9] 1 3 2 0 (sim0 [7; 8]))
    as (n & b' & w' & d & E & R & _ & Hn & _ & _ & Hd & _); [lia|lia|vm_compute; discriminate|].
  exists n, b', w', d. split; [exact E|]. split; [exact R|]. split; [exact Hn|exact Hd].
Defined.
End ClientHelper.
