(* ===== verification/MqttClient.v ===== *)
(** The MQTT client, [src/transports/mqtt/MqttClient.h] and [MqttClient.cpp]: the
    connection state machine, the timer, the queue of outgoing packets, packet
    reception and delivery.

    The network interface is the class [Net] of file ClientHelper.  Callbacks
    the application installs are functions on the client object, given as
    variables of the section; the callbacks of the file itself are modelled.
    Allocation does not fail, and logging is left out.  [None] is undefined
    behaviour, as in the files this one builds on. *)
From S2P Require Import Prelude StrOps RingBuf Proto Queue MqttMsg ClientHelper.
From stdpp Require Import base option list numbers sets.
From Stdlib Require Import ZArith Lia.
Import StrOps RingBuf Proto Queue MqttMsg ClientHelper.
#[local] Set Warnings "-clear-no-such-hyp".

Open Scope Z_scope.

Module MqttClient.

(** [tConnState] *)
Inductive tConnState :=
| MQTT_PUBLISH_RECV
| MQTT_HOST_CONNECTING
| MQTT_HOST_CONNECTED
| MQTT_CONNECT_SENT
| MQTT_CONNECT_FAILED
| MQTT_DISCONNECT_REQ
| MQTT_DISCONNECT_SENT
| MQTT_DISCONNECT_FAILED
| MQTT_DISCONNECTED
| MQTT_DATA
| MQTT_DATA_SENT
| MQTT_DATA_FAILED
| MQTT_KEEPALIVE_REQ
| MQTT_PING_SENT
| MQTT_PING_FAILED
| MQTT_DELETING
| MQTT_HOST_RECONNECT_REQ
| MQTT_HOST_RECONNECT.

#[global] Instance tConnState_eq_dec : EqDecision tConnState.
Proof. solve_decision. Defined.

(** [mqtt_subscribed_topics_t] *)
Record mqtt_subscribed_topics_t := mkTopic {
  st_topic : option (list Z);
  st_qos : Z;
}.

(** A callback slot holds one of the functions of the file or one of the
    application's. *)
Inductive MqttCallback :=
| mqttConnectedCb
| mqttDisconnectedCb
| mqttPublishedCb
| mqttSubscribedCb
| mqttUnsubscribedCb
| UserCb (k : nat).

(** [mqtt_state_t].  Pointers that only ever point into the same object are kept as
    whether they are set: [connect_info], and [outbound_message], which points to
    the connection's message.  The block [out_buffer] points to is the buffer of
    [mqtt_connection].  [pending_publish_qos] is never used. *)
Record mqtt_state_t := mkState {
  connect_info_ptr : bool;
  in_buffer : option (list Z);
  out_buffer : bool;
  in_buffer_length : Z;
  out_buffer_length : Z;
  message_length : Z;
  message_length_read : Z;
  outbound_message : bool;
  mqtt_connection : mqtt_connection_t;
  pending_msg_id : Z;
  pending_msg_type : Z;
}.

(** [MQTT_Client] *)
Record MQTT_Client := mkClient {
  mqtt_state : mqtt_state_t;
  connect_info : mqtt_connect_info_t;
  keepAliveTick : Z;
  sendTimeout : Z;
  readTimeout : Z;
  connState : tConnState;
  msgQueue : QUEUE;
  host_connect_tick : Z;
  subscribed_topics : list mqtt_subscribed_topics_t;
  mqtt_connected : bool;
}.

(** [class MQTTClient].  [m_client] is whether the interface is set; [freed] is
    whether [mqtt_client_delete] has freed the blocks that the connection and
    the queue still point to. *)
Record MQTTClient := mkMQTTClient {
  m_mqttClient : MQTT_Client;
  m_host : option (list Z);
  m_port : Z;
  m_security : Z;
  m_client : bool;
  m_connectedCb : option MqttCallback;
  m_disconnectedCb : option MqttCallback;
  m_publishedCb : option MqttCallback;
  m_subscribedCb : option MqttCallback;
  m_unsubscribedCb : option MqttCallback;
  m_timeoutCb : option MqttCallback;
  m_dataCb : option nat;
  freed : bool;
}.

(** Field updates. *)
Definition set_m_mqttClient (v : MQTT_Client) (c : MQTTClient) : MQTTClient :=
    mkMQTTClient v (m_host c) (m_port c) (m_security c) (m_client c) (m_connectedCb c)
      (m_disconnectedCb c) (m_publishedCb c) (m_subscribedCb c) (m_unsubscribedCb c)
      (m_timeoutCb c) (m_dataCb c) (freed c).

Definition set_m_host (v : option (list Z)) (c : MQTTClient) : MQTTClient :=
    mkMQTTClient (m_mqttClient c) v (m_port c) (m_security c) (m_client c) (m_connectedCb c)
      (m_disconnectedCb c) (m_publishedCb c) (m_subscribedCb c) (m_unsubscribedCb c)
      (m_timeoutCb c) (m_dataCb c) (freed c).

Definition set_m_port (v : Z) (c : MQTTClient) : MQTTClient :=
    mkMQTTClient (m_mqttClient c) (m_host c) v (m_security c) (m_client c) (m_connectedCb c)
      (m_disconnectedCb c) (m_publishedCb c) (m_subscribedCb c) (m_unsubscribedCb c)
      (m_timeoutCb c) (m_dataCb c) (freed c).

Definition set_m_security (v : Z) (c : MQTTClient) : MQTTClient :=
    mkMQTTClient (m_mqttClient c) (m_host c) (m_port c) v (m_client c) (m_connectedCb c)
      (m_disconnectedCb c) (m_publishedCb c) (m_subscribedCb c) (m_unsubscribedCb c)
      (m_timeoutCb c) (m_dataCb c) (freed c).

Definition set_m_client (v : bool) (c : MQTTClient) : MQTTClient :=
    mkMQTTClient (m_mqttClient c) (m_host c) (m_port c) (m_security c) v (m_connectedCb c)
      (m_disconnectedCb c) (m_publishedCb c) (m_subscribedCb c) (m_unsubscribedCb c)
      (m_timeoutCb c) (m_dataCb c) (freed c).

Definition set_m_connectedCb (v : option MqttCallback) (c : MQTTClient) : MQTTClient :=
    mkMQTTClient (m_mqttClient c) (m_host c) (m_port c) (m_security c) (m_client c) v
      (m_disconnectedCb c) (m_publishedCb c) (m_subscribedCb c) (m_unsubscribedCb c)
      (m_timeoutCb c) (m_dataCb c) (freed c).

Definition set_m_disconnectedCb (v : option MqttCallback) (c : MQTTClient) : MQTTClient :=
    mkMQTTClient (m_mqttClient c) (m_host c) (m_port c) (m_security c) (m_client c)
      (m_connectedCb c) v (m_publishedCb c) (m_subscribedCb c) (m_unsubscribedCb c)
      (m_timeoutCb c) (m_dataCb c) (freed c).

Definition set_m_publishedCb (v : option MqttCallback) (c : MQTTClient) : MQTTClient :=
    mkMQTTClient (m_mqttClient c) (m_host c) (m_port c) (m_security c) (m_client c)
      (m_connectedCb c) (m_disconnectedCb c) v (m_subscribedCb c) (m_unsubscribedCb c)
      (m_timeoutCb c) (m_dataCb c) (freed c).

Definition set_m_subscribedCb (v : option MqttCallback) (c : MQTTClient) : MQTTClient :=
    mkMQTTClient (m_mqttClient c) (m_host c) (m_port c) (m_security c) (m_client c)
      (m_connectedCb c) (m_disconnectedCb c) (m_publishedCb c) v (m_unsubscribedCb c)
      (m_timeoutCb c) (m_dataCb c) (freed c).

Definition set_m_unsubscribedCb (v : option MqttCallback) (c : MQTTClient) : MQTTClient :=
    mkMQTTClient (m_mqttClient c) (m_host c) (m_port c) (m_security c) (m_client c)
      (m_connectedCb c) (m_disconnectedCb c) (m_publishedCb c) (m_subscribedCb c) v
      (m_timeoutCb c) (m_dataCb c) (freed c).

Definition set_m_timeoutCb (v : option MqttCallback) (c : MQTTClient) : MQTTClient :=
    mkMQTTClient (m_mqttClient c) (m_host c) (m_port c) (m_security c) (m_client c)
      (m_connectedCb c) (m_disconnectedCb c) (m_publishedCb c) (m_subscribedCb c)
      (m_unsubscribedCb c) v (m_dataCb c) (freed c).

Definition set_m_dataCb (v : option nat) (c : MQTTClient) : MQTTClient :=
    mkMQTTClient (m_mqttClient c) (m_host c) (m_port c) (m_security c) (m_client c)
      (m_connectedCb c) (m_disconnectedCb c) (m_publishedCb c) (m_subscribedCb c)
      (m_unsubscribedCb c) (m_timeoutCb c) v (freed c).

Definition set_freed (v : bool) (c : MQTTClient) : MQTTClient :=
    mkMQTTClient (m_mqttClient c) (m_host c) (m_port c) (m_security c) (m_client c)
      (m_connectedCb c) (m_disconnectedCb c) (m_publishedCb c) (m_subscribedCb c)
      (m_unsubscribedCb c) (m_timeoutCb c) (m_dataCb c) v.

Definition set_mqtt_state (v : mqtt_state_t) (c : MQTTClient) : MQTTClient :=
  let m := m_mqttClient c in
    set_m_mqttClient (mkClient v (connect_info m) (keepAliveTick m) (sendTimeout m)
      (readTimeout m) (connState m) (msgQueue m) (host_connect_tick m) (subscribed_topics m)
      (mqtt_connected m)) c.

Definition set_connect_info (v : mqtt_connect_info_t) (c : MQTTClient) : MQTTClient :=
  let m := m_mqttClient c in
    set_m_mqttClient (mkClient (mqtt_state m) v (keepAliveTick m) (sendTimeout m)
      (readTimeout m) (connState m) (msgQueue m) (host_connect_tick m) (subscribed_topics m)
      (mqtt_connected m)) c.

Definition set_keepAliveTick (v : Z) (c : MQTTClient) : MQTTClient :=
  let m := m_mqttClient c in
    set_m_mqttClient (mkClient (mqtt_state m) (connect_info m) v (sendTimeout m)
      (readTimeout m) (connState m) (msgQueue m) (host_connect_tick m) (subscribed_topics m)
      (mqtt_connected m)) c.

Definition set_sendTimeout (v : Z) (c : MQTTClient) : MQTTClient :=
  let m := m_mqttClient c in
    set_m_mqttClient (mkClient (mqtt_state m) (connect_info m) (keepAliveTick m) v
      (readTimeout m) (connState m) (msgQueue m) (host_connect_tick m) (subscribed_topics m)
      (mqtt_connected m)) c.

Definition set_readTimeout (v : Z) (c : MQTTClient) : MQTTClient :=
  let m := m_mqttClient c in
    set_m_mqttClient (mkClient (mqtt_state m) (connect_info m) (keepAliveTick m)
      (sendTimeout m) v (connState m) (msgQueue m) (host_connect_tick m) (subscribed_topics m)
      (mqtt_connected m)) c.

Definition set_connState (v : tConnState) (c : MQTTClient) : MQTTClient :=
  let m := m_mqttClient c in
    set_m_mqttClient (mkClient (mqtt_state m) (connect_info m) (keepAliveTick m)
      (sendTimeout m) (readTimeout m) v (msgQueue m) (host_connect_tick m)
      (subscribed_topics m) (mqtt_connected m)) c.

Definition set_msgQueue (v : QUEUE) (c : MQTTClient) : MQTTClient :=
  let m := m_mqttClient c in
    set_m_mqttClient (mkClient (mqtt_state m) (connect_info m) (keepAliveTick m)
      (sendTimeout m) (readTimeout m) (connState m) v (host_connect_tick m)
      (subscribed_topics m) (mqtt_connected m)) c.

Definition set_host_connect_tick (v : Z) (c : MQTTClient) : MQTTClient :=
  let m := m_mqttClient c in
    set_m_mqttClient (mkClient (mqtt_state m) (connect_info m) (keepAliveTick m)
      (sendTimeout m) (readTimeout m) (connState m) (msgQueue m) v (subscribed_topics m)
      (mqtt_connected m)) c.

Definition set_subscribed_topics (v : list mqtt_subscribed_topics_t) (c : MQTTClient) :
    MQTTClient :=
  let m := m_mqttClient c in
    set_m_mqttClient (mkClient (mqtt_state m) (connect_info m) (keepAliveTick m)
      (sendTimeout m) (readTimeout m) (connState m) (msgQueue m) (host_connect_tick m) v
      (mqtt_connected m)) c.

Definition set_mqtt_connected (v : bool) (c : MQTTClient) : MQTTClient :=
  let m := m_mqttClient c in
    set_m_mqttClient (mkClient (mqtt_state m) (connect_info m) (keepAliveTick m)
      (sendTimeout m) (readTimeout m) (connState m) (msgQueue m) (host_connect_tick m)
      (subscribed_topics m) v) c.

Definition set_connect_info_ptr (v : bool) (c : MQTTClient) : MQTTClient :=
  let s := mqtt_state (m_mqttClient c) in
    set_mqtt_state (mkState v (in_buffer s) (out_buffer s) (in_buffer_length s)
      (out_buffer_length s) (message_length s) (message_length_read s) (outbound_message s)
      (mqtt_connection s) (pending_msg_id s) (pending_msg_type s)) c.

Definition set_in_buffer (v : option (list Z)) (c : MQTTClient) : MQTTClient :=
  let s := mqtt_state (m_mqttClient c) in
    set_mqtt_state (mkState (connect_info_ptr s) v (out_buffer s) (in_buffer_length s)
      (out_buffer_length s) (message_length s) (message_length_read s) (outbound_message s)
      (mqtt_connection s) (pending_msg_id s) (pending_msg_type s)) c.

Definition set_out_buffer (v : bool) (c : MQTTClient) : MQTTClient :=
  let s := mqtt_state (m_mqttClient c) in
    set_mqtt_state (mkState (connect_info_ptr s) (in_buffer s) v (in_buffer_length s)
      (out_buffer_length s) (message_length s) (message_length_read s) (outbound_message s)
      (mqtt_connection s) (pending_msg_id s) (pending_msg_type s)) c.

Definition set_in_buffer_length (v : Z) (c : MQTTClient) : MQTTClient :=
  let s := mqtt_state (m_mqttClient c) in
    set_mqtt_state (mkState (connect_info_ptr s) (in_buffer s) (out_buffer s) v
      (out_buffer_length s) (message_length s) (message_length_read s) (outbound_message s)
      (mqtt_connection s) (pending_msg_id s) (pending_msg_type s)) c.

Definition set_out_buffer_length (v : Z) (c : MQTTClient) : MQTTClient :=
  let s := mqtt_state (m_mqttClient c) in
    set_mqtt_state (mkState (connect_info_ptr s) (in_buffer s) (out_buffer s)
      (in_buffer_length s) v (message_length s) (message_length_read s) (outbound_message s)
      (mqtt_connection s) (pending_msg_id s) (pending_msg_type s)) c.

Definition set_message_length (v : Z) (c : MQTTClient) : MQTTClient :=
  let s := mqtt_state (m_mqttClient c) in
    set_mqtt_state (mkState (connect_info_ptr s) (in_buffer s) (out_buffer s)
      (in_buffer_length s) (out_buffer_length s) v (message_length_read s)
      (outbound_message s) (mqtt_connection s) (pending_msg_id s) (pending_msg_type s)) c.

Definition set_message_length_read (v : Z) (c : MQTTClient) : MQTTClient :=
  let s := mqtt_state (m_mqttClient c) in
    set_mqtt_state (mkState (connect_info_ptr s) (in_buffer s) (out_buffer s)
      (in_buffer_length s) (out_buffer_length s) (message_length s) v (outbound_message s)
      (mqtt_connection s) (pending_msg_id s) (pending_msg_type s)) c.

Definition set_outbound_message (v : bool) (c : MQTTClient) : MQTTClient :=
  let s := mqtt_state (m_mqttClient c) in
    set_mqtt_state (mkState (connect_info_ptr s) (in_buffer s) (out_buffer s)
      (in_buffer_length s) (out_buffer_length s) (message_length s) (message_length_read s) v
      (mqtt_connection s) (pending_msg_id s) (pending_msg_type s)) c.

Definition set_mqtt_connection (v : mqtt_connection_t) (c : MQTTClient) : MQTTClient :=
  let s := mqtt_state (m_mqttClient c) in
    set_mqtt_state (mkState (connect_info_ptr s) (in_buffer s) (out_buffer s)
      (in_buffer_length s) (out_buffer_length s) (message_length s) (message_length_read s)
      (outbound_message s) v (pending_msg_id s) (pending_msg_type s)) c.

Definition set_pending_msg_id (v : Z) (c : MQTTClient) : MQTTClient :=
  let s := mqtt_state (m_mqttClient c) in
    set_mqtt_state (mkState (connect_info_ptr s) (in_buffer s) (out_buffer s)
      (in_buffer_length s) (out_buffer_length s) (message_length s) (message_length_read s)
      (outbound_message s) (mqtt_connection s) v (pending_msg_type s)) c.

Definition set_pending_msg_type (v : Z) (c : MQTTClient) : MQTTClient :=
  let s := mqtt_state (m_mqttClient c) in
    set_mqtt_state (mkState (connect_info_ptr s) (in_buffer s) (out_buffer s)
      (in_buffer_length s) (out_buffer_length s) (message_length s) (message_length_read s)
      (outbound_message s) (mqtt_connection s) (pending_msg_id s) v) c.

(** Field reads through the object. *)
Abbreviation c_connect_info c := (connect_info (m_mqttClient c)).
Abbreviation c_keepAliveTick c := (keepAliveTick (m_mqttClient c)).
Abbreviation c_sendTimeout c := (sendTimeout (m_mqttClient c)).
Abbreviation c_readTimeout c := (readTimeout (m_mqttClient c)).
Abbreviation c_connState c := (connState (m_mqttClient c)).
Abbreviation c_msgQueue c := (msgQueue (m_mqttClient c)).
Abbreviation c_host_connect_tick c := (host_connect_tick (m_mqttClient c)).
Abbreviation c_subscribed_topics c := (subscribed_topics (m_mqttClient c)).
Abbreviation c_mqtt_connected c := (mqtt_connected (m_mqttClient c)).
Abbreviation c_connect_info_ptr c :=
  (connect_info_ptr (mqtt_state (m_mqttClient c))).
Abbreviation c_in_buffer c :=
  (in_buffer (mqtt_state (m_mqttClient c))).
Abbreviation c_out_buffer c :=
  (out_buffer (mqtt_state (m_mqttClient c))).
Abbreviation c_in_buffer_length c :=
  (in_buffer_length (mqtt_state (m_mqttClient c))).
Abbreviation c_out_buffer_length c :=
  (out_buffer_length (mqtt_state (m_mqttClient c))).
Abbreviation c_message_length c :=
  (message_length (mqtt_state (m_mqttClient c))).
Abbreviation c_message_length_read c :=
  (message_length_read (mqtt_state (m_mqttClient c))).
Abbreviation c_outbound_message c :=
  (outbound_message (mqtt_state (m_mqttClient c))).
Abbreviation c_mqtt_connection c :=
  (mqtt_connection (mqtt_state (m_mqttClient c))).
Abbreviation c_pending_msg_id c :=
  (pending_msg_id (mqtt_state (m_mqttClient c))).
Abbreviation c_pending_msg_type c :=
  (pending_msg_type (mqtt_state (m_mqttClient c))).

(** *** Initial values and helpers *)

Definition zero_info : mqtt_connect_info_t := mkInfo None None None None None 0 0 0 0.
Definition zero_conn : mqtt_connection_t := mkConnection (mkMessage None 0) 0 None 0.
Definition zero_queue : QUEUE := mkQUEUE false (mkRINGBUF [] 0 0 0 0).

(** [memset(&m_mqttClient, 0, sizeof(MQTT_Client))] *)
Definition zero_client : MQTT_Client :=
  mkClient (mkState false None false 0 0 0 0 false zero_conn 0 0) zero_info 0 0 0
    MQTT_PUBLISH_RECV zero_queue 0 [] false.

(** The constructor, on memory that holds [mem]. *)
Definition MQTTClient_ctor (mem : MQTT_Client) : MQTTClient :=
  mkMQTTClient mem None 0 0 false None None None None None None None false.

Definition MQTT_SEND_TIMEOUT : Z := 5.
Definition MQTT_READ_TIMEOUT : Z := 10.
Definition MQTT_HOST_CONNECT_TIMEOUT : Z := 5.
Definition MQTT_BUF_SIZE : Z := 640.
Definition QUEUE_BUFFER_SIZE : Z := 1536.
Definition MQTT_DEFAULT_KEEPALIVE : Z := 60.
Definition MQTT_MAX_QOS_LEVEL : Z := 2.

(** A copy of the string at [s]: [new char[strlen(s) + 1]] and [strcpy]. *)
Definition dup_string (s : list Z) : option (list Z) :=
  n <- strlen s;; Some (take (Z.to_nat n) s ++ [0]).

Definition dup_opt (s : option (list Z)) : option (option (list Z)) :=
  match s with
  | None => Some None
  | Some s => d <- dup_string s;; Some (Some d)
  end.

(** *** Subscribed topics *)

(** [is_topic_subscribed] *)
Fixpoint topic_in (ts : list mqtt_subscribed_topics_t) (topic : list Z) : option bool :=
  match ts with
  | [] => Some false
  | t :: ts =>
      match st_topic t with
      | None => topic_in ts topic
      | Some m =>
          n <- strlen m;;
          e <- are_str_equals (Some m) (Some topic) (u16 n);;
          if e then Some true else topic_in ts topic
      end
  end.

Definition is_topic_subscribed (c : MQTTClient) (topic : list Z) : option bool :=
  topic_in (c_subscribed_topics c) topic.

(** [clear_all_subscribed_topics] *)
Definition clear_all_subscribed_topics (c : MQTTClient) : MQTTClient :=
  set_subscribed_topics [] c.

(** [add_to_subscribed_topics] *)
Definition add_to_subscribed_topics (topic : list Z) (qos : Z) (c : MQTTClient)
  : option MQTTClient :=
  d <- dup_string topic;;
  Some (set_subscribed_topics (c_subscribed_topics c ++ [mkTopic (Some d) qos]) c).

(** [remove_from_subscribed_topics] *)
Fixpoint topic_remove (ts : list mqtt_subscribed_topics_t) (topic : list Z)
  : option (bool * list mqtt_subscribed_topics_t) :=
  match ts with
  | [] => Some (false, [])
  | t :: ts =>
      e <- (match st_topic t with
            | None => Some false
            | Some m =>
                n <- strlen m;;
                are_str_equals (Some m) (Some topic) (u16 n)
            end);;
      if e then Some (true, ts)
      else '(r, ts) <- topic_remove ts topic;; Some (r, t :: ts)
  end.

Definition remove_from_subscribed_topics (topic : list Z) (c : MQTTClient)
  : option (bool * MQTTClient) :=
  '(r, ts) <- topic_remove (c_subscribed_topics c) topic;;
  Some (r, set_subscribed_topics ts c).

(** *** Messages and the queue *)

(** [outbound_message = f(&mqtt_connection, ...)] *)
Definition build (f : option mqtt_connection_t -> option (bool * option mqtt_connection_t))
    (c : MQTTClient) : option MQTTClient :=
  if freed c then None
  else
    '(r, conn) <- f (Some (c_mqtt_connection c));;
    conn <- conn;;
    Some (set_outbound_message r (set_mqtt_connection conn c)).

(** The same for the builders that also set [pending_msg_id]. *)
Definition build_id
    (f : option mqtt_connection_t -> Z -> option (bool * option mqtt_connection_t * Z))
    (c : MQTTClient) : option MQTTClient :=
  if freed c then None
  else
    '(r, conn, mid) <- f (Some (c_mqtt_connection c)) (c_pending_msg_id c);;
    conn <- conn;;
    Some (set_pending_msg_id mid (set_outbound_message r (set_mqtt_connection conn c))).

(** [outbound_message->data] and [outbound_message->length]. *)
Definition out_data (c : MQTTClient) : option (list Z * Z) :=
  if freed c || negb (c_outbound_message c) then None
  else
    off <- msg_data (message (c_mqtt_connection c));;
    b <- buffer (c_mqtt_connection c);;
    Some (drop (Z.to_nat off) b, msg_length (message (c_mqtt_connection c))).

Definition queue_put (c : MQTTClient) (d : list Z) (n : Z) : option (Z * MQTTClient) :=
  if freed c then None
  else
    '(r, q) <- QUEUE_Puts (c_msgQueue c) d n;;
    Some (r, set_msgQueue q c).

(** A reply: build it and queue it; a full queue is only logged. *)
Definition queue_reply (f : option mqtt_connection_t -> option (bool * option mqtt_connection_t))
    (c : MQTTClient) : option MQTTClient :=
  c <- build f c;;
  '(d, n) <- out_data c;;
  '(_, c) <- queue_put c d n;;
  Some c.

(** [mqtt_general_config_table] and [mqtt_lwt_config_table] *)
Record mqtt_general_configs := mkGeneral {
  g_host : list Z;
  g_port : Z;
  g_security : Z;
  g_client_id : list Z;
  g_username : list Z;
  g_password : list Z;
  g_keepalive : Z;
  g_clean_session : Z;
}.

Record mqtt_lwt_configs := mkLwt {
  l_will_topic : list Z;
  l_will_message : list Z;
  l_will_qos : Z;
  l_will_retain : Z;
}.

(** *** The subscribed topics as a list of names *)

Definition topic_is (t : mqtt_subscribed_topics_t) (s : list Z) : Prop :=
  exists m, st_topic t = Some m /\ cstring m s /\ zlen s < 65536.

Abbreviation topics_are := (Forall2 topic_is).

(** The names without the first occurrence of [s]. *)
Fixpoint remove_name (s : list Z) (ns : list (list Z)) : list (list Z) :=
  match ns with
  | [] => []
  | n :: ns => if bool_decide (n = s) then ns else n :: remove_name s ns
  end.

Lemma dup_string_cstring m s : cstring m s -> dup_string m = Some (s ++ [0]).
Proof.
  intros Hm. unfold dup_string. rewrite (strlen_cstring _ _ Hm). destruct Hm as [_ [x ->]].
  unfold zlen. by rewrite Nat2Z.id, take_app_length.
Qed.

Lemma topic_eq t n m s : topic_is t n -> cstring m s ->
  exists tm, st_topic t = Some tm /\
    (k <- strlen tm;; are_str_equals (Some tm) (Some m) (u16 k)) = Some (bool_decide (n = s)).
Proof.
  intros (tm & E & Hc & Hz) Hm. exists tm. split; [done|]. pose proof (zlen_nonneg n).
  rewrite (strlen_cstring _ _ Hc), u16_small by lia. by apply are_str_equals_spec.
Qed.

Lemma topic_in_spec ts ns m s : topics_are ts ns -> cstring m s ->
  topic_in ts m = Some (bool_decide (s ∈ ns)).
Proof.
  intros Ht Hm. induction Ht as [|t n ts ns Ht Hts IH]; cbn [topic_in]; [done|].
  destruct (topic_eq t n m s Ht Hm) as (tm & -> & E). destruct (strlen tm) as [k|]; [|done].
  rewrite E. case_bool_decide as H1; subst.
  - by rewrite bool_decide_eq_true_2 by left.
  - rewrite IH. f_equal. apply bool_decide_ext. set_solver.
Qed.

Lemma topic_remove_spec ts ns m s : topics_are ts ns -> cstring m s ->
  exists ts', topic_remove ts m = Some (bool_decide (s ∈ ns), ts') /\
    topics_are ts' (remove_name s ns).
Proof.
  intros Ht Hm. induction Ht as [|t n ts ns Ht Hts IH]; cbn [topic_remove remove_name]; [by eexists|].
  destruct (topic_eq t n m s Ht Hm) as (tm & -> & E). rewrite E. case_bool_decide as H1; subst.
  - rewrite bool_decide_eq_true_2 by left. by eexists.
  - destruct IH as (ts' & -> & H'). eexists. split; [|by constructor].
    do 2 f_equal. apply bool_decide_ext. set_solver.
Qed.

Lemma remove_name_NoDup s ns : NoDup ns -> NoDup (remove_name s ns) /\
  forall x, x ∈ remove_name s ns <-> x ∈ ns /\ x <> s.
Proof.
  induction 1 as [|n ns Hn Hns [IH1 IH2]]; simpl; [split; [constructor|set_solver]|].
  case_bool_decide as E; subst.
  - split; [done|]. intros x. rewrite elem_of_cons. split; [|naive_solver].
    intros Hx. split; [auto|]. by intros ->.
  - split.
    + constructor; [|done]. rewrite IH2. naive_solver.
    + intros x. rewrite !elem_of_cons, IH2. naive_solver.
Qed.

Lemma NoDup_snoc (s : list Z) ns : NoDup ns -> s ∉ ns -> NoDup (ns ++ [s]).
Proof.
  intros Hn Hs. apply NoDup_app. split; [done|]. split; [set_solver|apply NoDup_singleton].
Qed.

(** The names after a [Subscribe] that answers [res]. *)
Lemma add_name_spec (res : bool) (s : list Z) ns : NoDup ns ->
  let ns' := if res && negb (bool_decide (s ∈ ns)) then ns ++ [s] else ns in
  NoDup ns' /\ forall x, x ∈ ns' <-> x ∈ ns \/ (res = true /\ x = s).
Proof.
  intros Hn. destruct res; simpl; [|split; [done|]; set_solver].
  case_bool_decide; simpl; [split; [done|]; set_solver|].
  split; [by apply NoDup_snoc|set_solver].
Qed.

(** The names after an [UnSubscribe] that answers [res]. *)
Lemma sub_name_spec (res : bool) (s : list Z) ns : NoDup ns ->
  let ns' := if res then remove_name s ns else ns in
  NoDup ns' /\ forall x, x ∈ ns' <-> x ∈ ns /\ (res = true -> x <> s).
Proof.
  intros Hn. destruct (remove_name_NoDup s ns Hn) as [Hnd Hin].
  destruct res; (split; [done|]); [|set_solver]. intros x. rewrite Hin. naive_solver.
Qed.

Section client.
Context {W : Type} `{Net W}.

(** [spin] bounds the busy-wait of [sendPacket], [stk] and [junk] are the
    contents of uninitialised locals, [fresh n] is the block [new uint8_t[n]]
    returns. *)
Context (spin : nat) (stk : PROTO_PARSER) (junk : Z) (fresh : Z -> list Z).

(** The application's callbacks. *)
Context (user_cb : nat -> MQTTClient -> MQTTClient)
  (user_data : nat -> list Z -> list Z -> MQTTClient -> MQTTClient).

(** A call through a callback slot, with [this] as its argument. *)
Definition run_cb (cb : option MqttCallback) (c : MQTTClient) : MQTTClient :=
  match cb with
  | None => c
  | Some mqttConnectedCb => set_mqtt_connected true c
  | Some mqttDisconnectedCb =>
      clear_all_subscribed_topics (set_mqtt_connected false c)
  | Some mqttPublishedCb | Some mqttSubscribedCb | Some mqttUnsubscribedCb => c
  | Some (UserCb k) => user_cb k c
  end.

(** [is_mqtt_connected] *)
Definition is_mqtt_connected (c : MQTTClient) (w : W) : bool * W :=
  match c_connState c with
  | MQTT_DELETING | MQTT_DISCONNECTED => (false, w)
  | _ =>
      let '(r, w) := isConnected (m_client c) w in
      (r && c_mqtt_connected c, w)
  end.

(** [disconnectServer] *)
Definition disconnectServer (c : MQTTClient) (w : W) : bool * MQTTClient * W :=
  let c := run_cb (m_disconnectedCb c) c in
  let '(r, w) := disconnect (m_client c) w in
  (r, c, w).

(** [sendPacket(m_client, data, len)] with its default limits. *)
Definition send_bytes (c : MQTTClient) (d : list Z) (n : Z) (w : W) : option (bool * W) :=
  sendPacket spin (m_client c) (Some d) n 250 2000 w.

(** [readFullPacket]: the loop over the bytes of the remaining length. *)
Fixpoint length_loop (fuel : nat) (client : bool) (buffer : list Z) (pos timeout value
    multiplier : Z) (w : W) : option (option (Z * Z) * list Z * W) :=
  match fuel with
  | O => None
  | S fuel =>
      '(rlen, buffer, w) <- readPacket client buffer pos 1 timeout 0 w;;
      if negb (rlen =? 1) then Some (None, buffer, w)
      else
        encodedByte <- mget buffer pos;;
        let pos := pos + 1 in
        let intermediate := u32 (Z.land encodedByte 0x7F * multiplier) in
        let value := u32 (value + intermediate) in
        let multiplier := u32 (multiplier * 128) in
        if multiplier >? 128 * 128 * 128 then Some (None, buffer, w)
        else if negb (Z.land encodedByte 0x80 =? 0)
        then length_loop fuel client buffer pos timeout value multiplier w
        else Some (Some (value, pos), buffer, w)
  end.

Definition readFullPacket (client : bool) (buffer : list Z) (maxsize timeout : Z) (w : W)
  : option (Z * list Z * W) :=
  buffer <- mfill buffer 0 0 maxsize;;
  let '(none, w) := (if client then let '(n, w) := io_available w in (n <? 1, w)
                     else (false, w)) in
  if none then Some (0, buffer, w)
  else
    '(rlen, buffer, w) <- readPacket client buffer 0 1 timeout 0 w;;
    if negb (rlen =? 1) then Some (0, buffer, w)
    else
      '(r, buffer, w) <- length_loop 4 client buffer 1 timeout 0 1 w;;
      match r with
      | None => Some (0, buffer, w)
      | Some (value, pos) =>
          let n := if value >? u32 (maxsize - pos - 1) then maxsize - pos - 1 else value in
          '(rlen, buffer, w) <- readPacket client buffer pos (u16 n) timeout 0 w;;
          Some (u16 (pos + rlen), buffer, w)
      end.

(** The copy [mqttDataCb] takes of [n] characters from a pointer into [b]. *)
Definition data_copy (b : list Z) (p : option Z) (n : Z) : option (list Z) :=
  if n =? 0 then Some [] else off <- p;; msub b off n.

(** [deliver_publish] *)
Definition deliver_publish (c : MQTTClient) (b : list Z) (length : Z) : option MQTTClient :=
  '(tp, tl) <- mqtt_get_publish_topic (Some b) (u16 length);;
  '(dp, dl) <- mqtt_get_publish_data (Some b) (u16 length);;
  match m_dataCb c, tp, dp with
  | Some k, Some to, Some d0 =>
      topic <- msub b to tl;;
      data <- msub b d0 dl;;
      Some (user_data k topic data c)
  | _, _, _ =>
      _ <- data_copy b tp tl;;
      _ <- data_copy b dp dl;;
      Some c
  end.

(** *** Reception *)

(** The switch of [mqtt_client_recv] over the packet type, once connected. *)
Definition recv_packet (msg_type msg_qos msg_id : Z) (b : list Z) (c : MQTTClient)
  : option MQTTClient :=
  if msg_type =? MQTT_MSG_TYPE_SUBACK then Some (run_cb (m_subscribedCb c) c)
  else if msg_type =? MQTT_MSG_TYPE_UNSUBACK then Some (run_cb (m_unsubscribedCb c) c)
  else if msg_type =? MQTT_MSG_TYPE_PUBLISH then
    c <- (if msg_qos =? 1 then queue_reply (fun k => mqtt_msg_puback k msg_id) c
          else if msg_qos =? 2 then queue_reply (fun k => mqtt_msg_pubrec k msg_id) c
          else Some c);;
    deliver_publish c b (c_message_length_read c)
  else if (msg_type =? MQTT_MSG_TYPE_PUBACK) || (msg_type =? MQTT_MSG_TYPE_PUBCOMP) then
    if (c_pending_msg_type c =? MQTT_MSG_TYPE_PUBLISH) && (c_pending_msg_id c =? msg_id)
    then Some (run_cb (m_publishedCb c) c) else Some c
  else if msg_type =? MQTT_MSG_TYPE_PUBREC then
    queue_reply (fun k => mqtt_msg_pubrel k msg_id) c
  else if msg_type =? MQTT_MSG_TYPE_PUBREL then
    queue_reply (fun k => mqtt_msg_pubcomp k msg_id) c
  else if msg_type =? MQTT_MSG_TYPE_PINGREQ then queue_reply mqtt_msg_pingresp c
  else Some c.

(** The part of [mqtt_client_recv] for a packet of [len] bytes in [b]. *)
Definition recv_handle (b : list Z) (len : Z) (c : MQTTClient) : option MQTTClient :=
  msg_type <- mqtt_get_type b;;
  msg_qos <- mqtt_get_qos b;;
  msg_id <- mqtt_get_id (Some b) (u16 (c_in_buffer_length c));;
  let c := if (msg_type =? MQTT_MSG_TYPE_PUBLISH) && (msg_qos =? 0) then c
           else set_sendTimeout MQTT_SEND_TIMEOUT (set_readTimeout 0 (set_keepAliveTick 0 c)) in
  match c_connState c with
  | MQTT_CONNECT_SENT =>
      if msg_type =? MQTT_MSG_TYPE_CONNACK then
        if negb (c_pending_msg_type c =? MQTT_MSG_TYPE_CONNECT)
        then Some (set_connState MQTT_HOST_RECONNECT_REQ c)
        else
          let c := set_connState MQTT_DATA c in
          Some (run_cb (m_connectedCb c) c)
      else Some c
  | MQTT_DISCONNECT_SENT =>
      let c := run_cb (m_disconnectedCb c) c in
      Some (set_connState MQTT_DISCONNECTED c)
  | MQTT_DATA_SENT | MQTT_PING_SENT | MQTT_DATA | MQTT_KEEPALIVE_REQ =>
      let c := set_message_length_read (u16 len) c in
      total <- mqtt_get_total_length (Some b) (c_message_length_read c);;
      let c := set_message_length (u16 total) c in
      let c := set_connState MQTT_DATA c in
      recv_packet msg_type msg_qos msg_id b c
  | _ => Some c
  end.

(** [mqtt_client_recv]; the log loop waits once for each byte received. *)
Definition mqtt_client_recv (c : MQTTClient) (w : W) : option (MQTTClient * W) :=
  match c_in_buffer c with
  | None => Some (c, w)
  | Some b =>
      '(len, b, w) <- readFullPacket (m_client c) b (u16 (c_in_buffer_length c))
                        (MQTT_READ_TIMEOUT * 20) w;;
      let c := set_in_buffer (Some b) c in
      let w := Nat.iter (Z.to_nat len) (dvc_wait 0) w in
      let w := dvc_wait 0 w in
      if (len <? MQTT_BUF_SIZE) && (len >? 0) then
        c <- recv_handle b len c;; Some (c, w)
      else if len =? 0 then
        match c_connState c with
        | MQTT_PING_SENT => Some (set_connState MQTT_DATA c, w)
        | _ => Some (c, w)
        end
      else Some (c, w)
  end.

(** *** The packets of the session itself *)

(** Sending the message just built, with the bookkeeping that is common to
    CONNECT, DISCONNECT and PINGREQ. *)
Definition send_outbound (c : MQTTClient) (w : W) : option (bool * MQTTClient * W) :=
  '(d, n) <- out_data c;;
  t <- mqtt_get_type d;;
  let c := set_pending_msg_type t c in
  id <- mqtt_get_id (Some d) n;;
  let c := set_pending_msg_id id c in
  let c := set_sendTimeout MQTT_SEND_TIMEOUT c in
  '(r, w) <- send_bytes c d n w;;
  Some (r, c, w).

(** [mqtt_client_connect] *)
Definition mqtt_client_connect (c : MQTTClient) (w : W) : option (MQTTClient * W) :=
  if freed c then None
  else
    let out := if c_out_buffer c then buffer (c_mqtt_connection c) else None in
    conn <- mqtt_msg_init (Some (c_mqtt_connection c)) out (u16 (c_out_buffer_length c));;
    let c := set_mqtt_connection conn c in
    let info := if c_connect_info_ptr c then Some (c_connect_info c) else None in
    c <- build (fun k => mqtt_msg_connect k info) c;;
    '(result, c, w) <- send_outbound c w;;
    let '(c, w) :=
      if result then (set_readTimeout 0 (set_connState MQTT_CONNECT_SENT c), w)
      else
        let c := set_host_connect_tick 0 (set_connState MQTT_CONNECT_FAILED c) in
        let '(_, c, w) := disconnectServer c w in (c, w) in
    Some (set_outbound_message false c, w).

(** [mqtt_client_disconnect] *)
Definition mqtt_client_disconnect (c : MQTTClient) (w : W) : option (MQTTClient * W) :=
  c <- build mqtt_msg_disconnect c;;
  '(result, c, w) <- send_outbound c w;;
  let c := if result then set_readTimeout 0 (set_connState MQTT_DISCONNECT_SENT c)
           else set_host_connect_tick 0 (set_connState MQTT_DISCONNECT_FAILED c) in
  let '(_, c, w) := disconnectServer c w in
  Some (set_outbound_message false c, w).

(** [mqtt_send_keepalive] *)
Definition mqtt_send_keepalive (c : MQTTClient) (w : W) : option (MQTTClient * W) :=
  c <- build mqtt_msg_pingreq c;;
  '(result, c, w) <- send_outbound c w;;
  let '(c, w) :=
    if result
    then (set_connState MQTT_PING_SENT (set_readTimeout 0 (set_keepAliveTick 0 c)), w)
    else
      let c := set_connState MQTT_PING_FAILED (set_host_connect_tick 0 c) in
      let '(_, c, w) := disconnectServer c w in (c, w) in
  Some (set_outbound_message false c, w).

(** *** The task *)

Definition dataBuffer0 : list Z := replicate (Z.to_nat MQTT_BUF_SIZE) 0.

Definition queue_get (c : MQTTClient) : option (Z * MQTTClient * list Z * Z) :=
  if freed c then None
  else
    '(r, q, d, n) <- QUEUE_Gets stk (c_msgQueue c) dataBuffer0 junk MQTT_BUF_SIZE;;
    Some (r, set_msgQueue q c, d, n).

(** The case [MQTT_DATA] of [MQTT_Task]; the log loop waits once for each byte. *)
Definition task_data (c : MQTTClient) (w : W) : option (MQTTClient * W) :=
  if freed c then None
  else if QUEUE_IsEmpty (c_msgQueue c) then mqtt_client_recv c w
  else
    '(r, c, d, n) <- queue_get c;;
    if r =? 0 then
      let w := Nat.iter (Z.to_nat n) (dvc_wait 0) w in
      msg_qos <- mqtt_get_qos d;;
      msg_type <- mqtt_get_type d;;
      let c := set_pending_msg_type msg_type c in
      id <- mqtt_get_id (Some d) n;;
      let c := set_sendTimeout MQTT_SEND_TIMEOUT (set_pending_msg_id id c) in
      '(result, w) <- send_bytes c d n w;;
      let '(c, w) :=
        if result then
          let st := if (msg_type =? MQTT_MSG_TYPE_PUBLISH) && (msg_qos =? 0)
                    then MQTT_DATA else MQTT_DATA_SENT in
          (set_readTimeout 0 (set_connState st c), w)
        else
          let c := set_host_connect_tick 0 (set_connState MQTT_DATA_FAILED c) in
          let '(_, c, w) := disconnectServer c w in (c, w) in
      Some (set_outbound_message false c, w)
    else Some (c, w).

(** [Connect], with the call of [MQTT_Task] it ends in. *)
Definition connect_with (task : MQTTClient -> W -> option (MQTTClient * W))
    (c : MQTTClient) (w : W) : option (MQTTClient * W) :=
  if negb (m_client c) then Some (c, w)
  else
    let c := set_host_connect_tick 0 (set_keepAliveTick 0 c) in
    let c := set_connState MQTT_HOST_CONNECTING c in
    let '(_, w) := connectToServer (m_client c) (m_host c) (m_port c) 2500 w in
    task c w.

(** [MQTT_Task]; [Connect] and the task call each other, to the given depth. *)
Fixpoint task_at (depth : nat) (c : MQTTClient) (w : W) : option (MQTTClient * W) :=
  '(c, w) <-
    (match c_connState c with
     | MQTT_HOST_RECONNECT_REQ | MQTT_HOST_RECONNECT =>
         let '(_, c, w) := disconnectServer c w in
         match depth with
         | O => None
         | S depth => connect_with (task_at depth) c w
         end
     | MQTT_CONNECT_SENT | MQTT_DISCONNECT_SENT | MQTT_DATA_SENT | MQTT_PING_SENT =>
         mqtt_client_recv c w
     | MQTT_HOST_CONNECTING =>
         let '(conn, w) := isConnected (m_client c) w in
         if conn then mqtt_client_connect c w else Some (c, w)
     | MQTT_DISCONNECT_REQ => mqtt_client_disconnect c w
     | MQTT_KEEPALIVE_REQ => mqtt_send_keepalive c w
     | MQTT_DATA => task_data c w
     | _ => Some (c, w)
     end);;
  Some (c, dvc_yield w).

Definition MQTT_Task : MQTTClient -> W -> option (MQTTClient * W) := task_at 1.

(** [Connect] *)
Definition Connect : MQTTClient -> W -> option (MQTTClient * W) := connect_with MQTT_Task.

(** [Disconnect] *)
Definition Disconnect (c : MQTTClient) (w : W) : option (MQTTClient * W) :=
  MQTT_Task (set_connState MQTT_DISCONNECT_REQ c) w.

(** *** The timer *)

(** [connect_info->keepalive * 0.85] truncated; for 16-bit values the product in
    double precision truncates to the exact quotient. *)
Definition keepalive_limit (keepalive : Z) : Z := 17 * keepalive / 20.

(** The [if] chain of [mqtt_timer] over the connection state. *)
Definition timer_step (c : MQTTClient) (w : W) : option (MQTTClient * W) :=
  match c_connState c with
  | MQTT_DATA =>
      let c := set_keepAliveTick (u32 (c_keepAliveTick c + 1)) c in
      if negb (c_connect_info_ptr c) then None
      else
        let c := if c_keepAliveTick c >? keepalive_limit (keepalive (c_connect_info c))
                 then set_connState MQTT_KEEPALIVE_REQ c else c in
        MQTT_Task c w
  | MQTT_CONNECT_SENT | MQTT_DISCONNECT_SENT | MQTT_PING_SENT | MQTT_DATA_SENT =>
      let c := set_readTimeout (u32 (c_readTimeout c + 1)) c in
      let c := if c_readTimeout c >? MQTT_READ_TIMEOUT then
                 let c := set_connState MQTT_HOST_RECONNECT_REQ (set_readTimeout 0 c) in
                 run_cb (m_timeoutCb c) c
               else c in
      MQTT_Task c w
  | MQTT_HOST_RECONNECT_REQ => MQTT_Task c w
  | MQTT_HOST_CONNECTING | MQTT_CONNECT_FAILED | MQTT_DISCONNECT_FAILED
  | MQTT_PING_FAILED | MQTT_DATA_FAILED =>
      let c := set_host_connect_tick (u16 (c_host_connect_tick c + 1)) c in
      if c_host_connect_tick c >? MQTT_HOST_CONNECT_TIMEOUT then
        MQTT_Task (set_connState MQTT_HOST_RECONNECT (set_host_connect_tick 0 c)) w
      else if decide (c_connState c = MQTT_HOST_CONNECTING) then
        let '(conn, w) := isConnected (m_client c) w in
        if conn then MQTT_Task c w else Some (c, w)
      else Some (c, w)
  | _ => Some (c, w)
  end.

(** [mqtt_timer]; its log line asks the interface whether it is connected. *)
Definition mqtt_timer (c : MQTTClient) (w : W) : option (MQTTClient * W) :=
  let '(_, w) := isConnected (m_client c) w in
  '(c, w) <- timer_step c w;;
  let c := if c_sendTimeout c >? 0 then set_sendTimeout (u32 (c_sendTimeout c - 1)) c else c in
  Some (c, dvc_yield w).

(** *** Publishing and subscribing *)

(** [while (QUEUE_Puts(...) == -1) { if (QUEUE_Gets(...) == -1) return false; }]:
    [true] when the packet is queued. *)
Fixpoint push_loop (fuel : nat) (c : MQTTClient) : option (bool * MQTTClient) :=
  match fuel with
  | O => None
  | S fuel =>
      '(d, n) <- out_data c;;
      '(r, c) <- queue_put c d n;;
      if r =? -1 then
        '(r, c, _, _) <- queue_get c;;
        if r =? -1 then Some (false, c) else push_loop fuel c
      else Some (true, c)
  end.

(** The queue holds less than a packet per byte. *)
Definition push_packet (c : MQTTClient) : option (bool * MQTTClient) :=
  push_loop (S (S (Z.to_nat (size (rb (c_msgQueue c)))))) c.

(** [Subscribe] *)
Definition Subscribe (topic : list Z) (qos : Z) (c : MQTTClient) (w : W)
  : option (bool * MQTTClient * W) :=
  let '(conn, w) := isConnected (m_client c) w in
  if negb conn then Some (false, c, w)
  else
    c <- build_id (fun k mid => mqtt_msg_subscribe k (Some topic) qos mid) c;;
    '(ok, c) <- push_packet c;;
    if negb ok then Some (false, c, w)
    else
      sub <- is_topic_subscribed c topic;;
      c <- (if sub then Some c else add_to_subscribed_topics topic qos c);;
      Some (true, set_sendTimeout MQTT_SEND_TIMEOUT c, w).

(** [UnSubscribe] *)
Definition UnSubscribe (topic : list Z) (c : MQTTClient) (w : W)
  : option (bool * MQTTClient * W) :=
  c <- build_id (fun k mid => mqtt_msg_unsubscribe k (Some topic) mid) c;;
  '(ok, c) <- push_packet c;;
  if negb ok then Some (false, c, w)
  else
    '(_, c) <- remove_from_subscribed_topics topic c;;
    Some (true, set_sendTimeout MQTT_SEND_TIMEOUT c, w).

(** [Publish] *)
Definition Publish (topic data : option (list Z)) (data_length qos retain : Z)
    (c : MQTTClient) (w : W) : option (bool * MQTTClient * W) :=
  let '(conn, w) := isConnected (m_client c) w in
  if negb conn then Some (false, c, w)
  else
    c <- build_id (fun k mid => mqtt_msg_publish k topic data data_length qos retain mid) c;;
    '(_, n) <- out_data c;;
    if n =? 0 then Some (false, c, w)
    else
      '(ok, c) <- push_packet c;;
      if negb ok then Some (false, c, w)
      else Some (true, set_sendTimeout MQTT_SEND_TIMEOUT c, w).

(** *** Set-up and deletion *)

(** [mqtt_client_delete] *)
Definition mqtt_client_delete (c : MQTTClient) (w : W) : MQTTClient * W :=
  let info := c_connect_info c in
  let c := set_m_host None c in
  let c := set_connect_info (mkInfo None None None None None (keepalive info) (will_qos info)
                               (will_retain info) (clean_session info)) c in
  let c := set_in_buffer None c in
  let c := set_freed (freed c || c_out_buffer c || q_buf (c_msgQueue c)) c in
  let c := set_out_buffer false c in
  let c := set_msgQueue (mkQUEUE false (rb (c_msgQueue c))) c in
  let '(c, w) :=
    if m_client c then
      let w := io_flush w in
      let '(_, w) := io_close w in
      (set_m_client false c, w)
    else (c, w) in
  (clear_all_subscribed_topics c, w).

(** [DeleteClient] *)
Definition DeleteClient (c : MQTTClient) (w : W) : MQTTClient * W :=
  let c := set_connState MQTT_DELETING c in
  let '(_, c, w) := disconnectServer c w in
  mqtt_client_delete c w.

(** [InitConnection] *)
Definition InitConnection (host : list Z) (port security : Z) (c : MQTTClient)
  : option MQTTClient :=
  h <- dup_string host;;
  let c := set_freed false (set_m_mqttClient zero_client c) in
  Some (set_m_security security (set_m_port port (set_m_host (Some h) c))).

(** [InitClient] *)
Definition InitClient (client_id client_user client_pass : option (list Z))
    (keepAliveTime cleanSession : Z) (c : MQTTClient) : option MQTTClient :=
  id <- dup_opt client_id;;
  user <- dup_opt client_user;;
  pass <- dup_opt client_pass;;
  let keep := if keepAliveTime >? 5 then keepAliveTime else MQTT_DEFAULT_KEEPALIVE in
  let c := set_connect_info (mkInfo id user pass None None (u16 keep) 0 0 cleanSession) c in
  let c := set_in_buffer_length MQTT_BUF_SIZE (set_in_buffer (Some dataBuffer0) c) in
  let c := set_out_buffer_length MQTT_BUF_SIZE (set_out_buffer true c) in
  let c := set_connect_info_ptr true c in
  conn <- mqtt_msg_init (Some (c_mqtt_connection c)) (Some dataBuffer0) MQTT_BUF_SIZE;;
  let c := set_mqtt_connection conn c in
  Some (set_msgQueue (QUEUE_Init (c_msgQueue c) (fresh QUEUE_BUFFER_SIZE) QUEUE_BUFFER_SIZE) c).

(** [InitLWT] *)
Definition InitLWT (topic msg : option (list Z)) (qos retain : Z) (c : MQTTClient)
  : option MQTTClient :=
  let info := c_connect_info c in
  '(wt, wm) <- (match topic with
                | None => Some (will_topic info, will_message info)
                | Some t =>
                    d <- dup_string t;;
                    m <- msg;;
                    e <- dup_string m;;
                    Some (Some d, Some e)
                end);;
  Some (set_connect_info (mkInfo (client_id info) (username info) (password info) wt wm
                            (keepalive info) qos retain (clean_session info)) c).

(** The [On...] functions. *)
Definition OnConnected := set_m_connectedCb.
Definition OnDisconnected := set_m_disconnectedCb.
Definition OnPublished := set_m_publishedCb.
Definition OnSubscribed := set_m_subscribedCb.
Definition OnUnsubscribed := set_m_unsubscribedCb.
Definition OnTimeout := set_m_timeoutCb.
Definition OnData := set_m_dataCb.

(** [begin] *)
Definition begin (client : bool) (general : option mqtt_general_configs)
    (lwt : option mqtt_lwt_configs) (c : MQTTClient) (w : W) : option (bool * MQTTClient * W) :=
  match client, general, lwt with
  | true, Some g, Some l =>
      let '(c, w) := DeleteClient c w in
      let c := set_m_client true c in
      hl <- strlen (g_host g);;
      if negb ((hl >? 5) && (g_port g >? 0)) then Some (false, c, w)
      else
        c <- InitConnection (g_host g) (g_port g) (g_security g) c;;
        il <- strlen (g_client_id g);;
        if negb ((il >? 0) && (g_keepalive g >? 5)) then
          let '(c, w) := mqtt_client_delete c w in Some (false, c, w)
        else
          c <- InitClient (Some (g_client_id g)) (Some (g_username g)) (Some (g_password g))
                 (g_keepalive g) (g_clean_session g) c;;
          tl <- strlen (l_will_topic l);;
          c <- (if tl >? 0 then
                  InitLWT (Some (l_will_topic l)) (Some (l_will_message l))
                    (if l_will_qos l <? MQTT_MAX_QOS_LEVEL then l_will_qos l
                     else MQTT_MAX_QOS_LEVEL) (l_will_retain l) c
                else Some c);;
          let c := OnConnected (Some mqttConnectedCb) c in
          let c := OnDisconnected (Some mqttDisconnectedCb) c in
          let c := OnPublished (Some mqttPublishedCb) c in
          let c := OnSubscribed (Some mqttSubscribedCb) c in
          let c := OnUnsubscribed (Some mqttUnsubscribedCb) c in
          '(c, w) <- Connect c w;;
          Some (true, c, w)
  | _, _, _ => Some (false, c, w)
  end.

(** *** Reading a packet *)

Lemma byte_after_read client b pos timeout until w n b' w' :
  0 <= pos < zlen b -> bytes_ok b ->
  readPacket client b pos 1 timeout until w = Some (n, b', w') ->
  exists v, mget b' pos = Some v /\ 0 <= v < 256.
Proof.
  intros Hp Hb E. apply readPacket_frame in E as (Hz & Hb' & _); [|lia].
  eexists. split; [apply mget_Some; lia|].
  apply (Forall_lookup_total_1 byte_ok b'); [auto|]. unfold zlen in *. lia.
Qed.

(** The loop over the length field stays within the first four bytes and, when
    it finds a length, has left a last byte under 128 in front of its end. *)
Lemma length_loop_spec fuel client timeout : forall b pos value multiplier w,
  1 <= pos <= 4 -> multiplier = 128 ^ (pos - 1) -> 4 - pos < Z.of_nat fuel -> 8 <= zlen b ->
  bytes_ok b ->
  exists r b' w', length_loop fuel client b pos timeout value multiplier w = Some (r, b', w') /\
    zlen b' = zlen b /\ bytes_ok b' /\
    match r with
    | None => True
    | Some (v, p) => 0 <= v /\ 2 <= p <= 4 /\
        exists x, mget b' (p - 1) = Some x /\ 0 <= x < 128
    end.
Proof.
  induction fuel as [|fuel IH]; intros b pos value multiplier w Hp Hm Hf Hz Hb; [lia|].
  cbn [length_loop].
  destruct (readPacket_total client b pos 1 timeout 0 w) as (n & b1 & w1 & E1 & Hn & Hz1); [lia..|].
  rewrite E1. pose proof (byte_after_read client b pos timeout 0 w n b1 w1 ltac:(lia) Hb E1)
    as (x & Hx & Hx'). apply readPacket_frame in E1 as (_ & Hb1 & _); [|lia]. specialize (Hb1 Hb).
  destruct (n =? 1); simpl negb; cbv iota; [|eexists _, _, _; split; [done|]; done].
  rewrite Hx, land_128 by lia.
  destruct (Z.gtb_spec (u32 (multiplier * 128)) (128 * 128 * 128)) as [Hg|Hg];
    [eexists _, _, _; split; [done|]; done|].
  assert (pos <= 3) as Hp3.
  { destruct (Z.eq_dec pos 4) as [->|]; [|lia]. subst multiplier. vm_compute in Hg. congruence. }
  destruct (Z.ltb_spec x 128); simpl negb; cbv iota.
  - eexists _, _, _; split; [done|]. split; [done|]. split; [done|]. pose proof (u32_range (value +
      u32 (Z.land x 127 * multiplier))). split; [lia|]. split; [lia|].
    replace (pos + 1 - 1) with pos by lia. exists x. split; [done|lia].
  - assert (multiplier * 128 = 128 ^ pos) as Em.
    { subst multiplier. replace pos with (pos - 1 + 1) at 2 by lia. rewrite Z.pow_add_r by lia. done. }
    assert (128 ^ pos <= 128 ^ 3) by (apply Z.pow_le_mono_r; lia).
    change (128 ^ 3) with 2097152 in *. assert (0 < 128 ^ pos) by (apply Z.pow_pos_nonneg; lia).
    destruct (IH b1 (pos + 1) (u32 (value + u32 (Z.land x 127 * multiplier))) (u32 (multiplier * 128)) w1)
      as (r & b' & w' & -> & Hz' & Hb' & Hr); try lia; try done.
    { rewrite Em, u32_small by lia. f_equal. lia. }
    eexists _, _, _; split; [done|]. split; [lia|]. done.
Qed.

Lemma readFullPacket_spec client b maxsize timeout w :
  8 <= maxsize < 65536 -> maxsize <= zlen b -> bytes_ok b ->
  exists n b' w', readFullPacket client b maxsize timeout w = Some (n, b', w') /\
    zlen b' = zlen b /\ bytes_ok b' /\ 0 <= n < maxsize /\ (n <> 0 -> length_field_ok b').
Proof.
  intros Hm Hz Hb. unfold readFullPacket. rewrite mfill_0 by lia.
  set (b0 := replicate (Z.to_nat maxsize) 0 ++ drop (Z.to_nat maxsize) b).
  assert (zlen b0 = zlen b) as Hz0.
  { unfold b0. rewrite zlen_app, zlen_replicate by lia. unfold zlen in *. rewrite length_drop. lia. }
  assert (bytes_ok b0) as Hb0.
  { apply Forall_app. split; [by apply Forall_replicate|by apply Forall_drop]. }
  destruct (if client then _ else _) as [none w1]. destruct none.
  { eexists _, _, _; split; [done|]. split_and!; done || lia. }
  destruct (readPacket_total client b0 0 1 timeout 0 w1) as (n1 & b1 & w2 & E1 & _ & Hz1); [lia..|].
  rewrite E1. apply readPacket_frame in E1 as (_ & Hb1 & _); [|lia]. specialize (Hb1 Hb0).
  destruct (n1 =? 1); simpl negb; cbv iota.
  2:{ eexists _, _, _; split; [done|]. split_and!; done || lia. }
  destruct (length_loop_spec 4 client timeout b1 1 0 1 w2) as (r & b2 & w3 & -> & Hz2 & Hb2 & Hr);
    try done; try lia.
  destruct r as [[v p]|]; [|eexists _, _, _; split; [done|]; split_and!; done || lia].
  destruct Hr as (Hv & Hp & x & Hx & Hx'). rewrite u32_small by lia.
  set (n := if v >? maxsize - p - 1 then maxsize - p - 1 else v).
  assert (0 <= n <= maxsize - p - 1) as Hn
    by (unfold n; destruct (Z.gtb_spec v (maxsize - p - 1)); lia).
  rewrite (u16_small n) by lia.
  destruct (readPacket_total client b2 p n timeout 0 w3) as (n3 & b3 & w4 & E3 & Hn3 & Hz3); [lia..|].
  rewrite E3. apply readPacket_frame in E3 as (_ & Hb3 & Hf3); [|lia].
  eexists _, _, _; split; [done|]. rewrite u16_small by lia.
  split; [lia|]. split; [auto|]. split; [lia|]. intros _.
  exists (p - 1), x. rewrite Hf3 by lia. split; [lia|]. split; [done|lia].
Qed.

(** *** The invariant of an initialised client *)

(** The connection data, with the strings it points to. *)
Definition info_has (info : mqtt_connect_info_t) (cid wt wm us pw : list Z) : Prop :=
  0 <= keepalive info < 65536 /\ field (client_id info) cid /\ cid <> [] /\
  will_ok info wt wm /\ field (username info) us /\ field (password info) pw /\
  bytes_ok cid /\ bytes_ok wt /\ bytes_ok wm /\ bytes_ok us /\ bytes_ok pw.

Definition info_ok (info : mqtt_connect_info_t) : Prop :=
  exists cid wt wm us pw, info_has info cid wt wm us pw.

Record client_ok (c : MQTTClient) : Prop := {
  ck_freed : freed c = false;
  ck_conn : ready (c_mqtt_connection c);
  ck_conn_len : buffer_length (c_mqtt_connection c) = MQTT_BUF_SIZE;
  ck_out : c_out_buffer c = true;
  ck_out_len : c_out_buffer_length c = MQTT_BUF_SIZE;
  ck_in : exists b, c_in_buffer c = Some b /\ zlen b = MQTT_BUF_SIZE /\ bytes_ok b;
  ck_in_len : c_in_buffer_length c = MQTT_BUF_SIZE;
  ck_info_ptr : c_connect_info_ptr c = true;
  ck_info : info_ok (c_connect_info c);
  ck_queue : exists ps, represents (c_msgQueue c) ps /\ Forall bytes_ok ps;
  ck_topics : exists ns, topics_are (c_subscribed_topics c) ns /\ NoDup ns;
}.

Ltac client_ok_auto := intros []; split; simpl in *; eauto.

Lemma ok_connState s c : client_ok c -> client_ok (set_connState s c).
Proof. client_ok_auto. Qed.
Lemma ok_keepAliveTick v c : client_ok c -> client_ok (set_keepAliveTick v c).
Proof. client_ok_auto. Qed.
Lemma ok_sendTimeout v c : client_ok c -> client_ok (set_sendTimeout v c).
Proof. client_ok_auto. Qed.
Lemma ok_readTimeout v c : client_ok c -> client_ok (set_readTimeout v c).
Proof. client_ok_auto. Qed.
Lemma ok_host_connect_tick v c : client_ok c -> client_ok (set_host_connect_tick v c).
Proof. client_ok_auto. Qed.
Lemma ok_subscribed_topics v ns c : client_ok c -> topics_are v ns -> NoDup ns ->
  client_ok (set_subscribed_topics v c).
Proof. client_ok_auto. Qed.
Lemma ok_mqtt_connected v c : client_ok c -> client_ok (set_mqtt_connected v c).
Proof. client_ok_auto. Qed.
Lemma ok_message_length v c : client_ok c -> client_ok (set_message_length v c).
Proof. client_ok_auto. Qed.
Lemma ok_message_length_read v c : client_ok c -> client_ok (set_message_length_read v c).
Proof. client_ok_auto. Qed.
Lemma ok_outbound_message v c : client_ok c -> client_ok (set_outbound_message v c).
Proof. client_ok_auto. Qed.
Lemma ok_pending_msg_id v c : client_ok c -> client_ok (set_pending_msg_id v c).
Proof. client_ok_auto. Qed.
Lemma ok_pending_msg_type v c : client_ok c -> client_ok (set_pending_msg_type v c).
Proof. client_ok_auto. Qed.
Lemma ok_mqtt_connection k c : client_ok c -> ready k -> buffer_length k = MQTT_BUF_SIZE ->
  client_ok (set_mqtt_connection k c).
Proof. client_ok_auto. Qed.
Lemma ok_msgQueue q ps c : client_ok c -> represents q ps -> Forall bytes_ok ps ->
  client_ok (set_msgQueue q c).
Proof. client_ok_auto. Qed.
Lemma ok_in_buffer b c : client_ok c -> zlen b = MQTT_BUF_SIZE -> bytes_ok b ->
  client_ok (set_in_buffer (Some b) c).
Proof. client_ok_auto. Qed.

#[local] Hint Resolve ok_connState ok_keepAliveTick ok_sendTimeout ok_readTimeout
  ok_host_connect_tick ok_subscribed_topics ok_mqtt_connected ok_message_length
  ok_message_length_read ok_outbound_message ok_pending_msg_id ok_pending_msg_type
  ok_mqtt_connection ok_msgQueue ok_in_buffer : core.

(** *** Building and queueing *)

Lemma msub_drop b off n p : msub b off n = Some p ->
  exists post, drop (Z.to_nat off) b = p ++ post /\ zlen p = n.
Proof.
  unfold msub. destruct (Z.leb_spec 0 off); [|done]. destruct (Z.leb_spec 0 n); [|done].
  destruct (Z.leb_spec (off + n) (zlen b)); [|done]. simpl. intros [= <-].
  eexists (drop (Z.to_nat n) (drop (Z.to_nat off) b)). split; [by rewrite take_drop|].
  unfold zlen in *. rewrite length_take, length_drop. lia.
Qed.

Lemma outbound_data c p : freed c = false -> c_outbound_message c = true ->
  outbound (c_mqtt_connection c) = Some p ->
  exists post, out_data c = Some (p ++ post, zlen p).
Proof.
  intros Hf Ho E. unfold out_data, outbound in *. rewrite Hf, Ho. simpl.
  destruct (msg_data _) as [off|]; [|done]. destruct (buffer _) as [b|]; [|done].
  apply msub_drop in E as (post & -> & ->). eauto.
Qed.

(** The message a builder leaves when it succeeds or fails for lack of room. *)
Definition sent_bytes (t : mqtt_message_type) (q retain : Z) (body : list Z) : list Z :=
  if 3 + zlen body <=? MQTT_BUF_SIZE then packet t q retain body else [].

Lemma sent_bytes_ok t q r body :
  0 <= q <= 3 -> (3 + zlen body <= MQTT_BUF_SIZE -> bytes_ok body) ->
  bytes_ok (sent_bytes t q r body).
Proof.
  unfold sent_bytes, MQTT_BUF_SIZE. intros Hq Hb.
  destruct (Z.leb_spec (3 + zlen body) 640); [|constructor]. apply packet_bytes; auto. lia.
Qed.

Lemma sent_bytes_len t q r body : 0 <= zlen (sent_bytes t q r body) <= MQTT_BUF_SIZE.
Proof.
  pose proof (zlen_nonneg (sent_bytes t q r body)). split; [done|].
  unfold sent_bytes, MQTT_BUF_SIZE, packet in *. destruct (Z.leb_spec (3 + zlen body) 640); [|done].
  rewrite zlen_cons, zlen_app, remlen_len. destruct (_ <=? 127); lia.
Qed.

Lemma sent_bytes_16 t q r body : zlen (sent_bytes t q r body) < 65437.
Proof. pose proof (sent_bytes_len t q r body). unfold MQTT_BUF_SIZE in *. lia. Qed.

(** What [build] leaves: the message, readable from its first byte on. *)
Definition built_client (c : MQTTClient) (p : list Z) : Prop :=
  client_ok c /\ exists post, out_data c = Some (p ++ post, zlen p) /\ 1 <= zlen (p ++ post).

Lemma build_spec c f t q r body :
  client_ok c ->
  (exists res, f (Some (c_mqtt_connection c)) = Some res /\
     built (c_mqtt_connection c) res t q r body) ->
  exists k, let c' := set_outbound_message true (set_mqtt_connection k c) in
    build f c = Some c' /\ built_client c' (sent_bytes t q r body).
Proof.
  intros Hc (res & E & k & -> & Hk & Hl & Ho & Hd). unfold build, sent_bytes.
  rewrite (ck_freed _ Hc), E. rewrite (ck_conn_len _ Hc) in *.
  exists k. split; [done|]. split; [auto|].
  destruct (outbound_data (set_outbound_message true (set_mqtt_connection k c)) _
    (ck_freed _ Hc) eq_refl Ho) as (post & Hp). exists post. split; [done|].
  pose proof (zlen_nonneg post). destruct (Z.leb_spec (3 + zlen body) MQTT_BUF_SIZE).
  - unfold packet. rewrite <- app_comm_cons, zlen_cons. pose proof (zlen_nonneg ((remlen (zlen body) ++ body) ++ post)). lia.
  - unfold out_data in Hp. cbn -[drop] in Hp. rewrite (ck_freed _ Hc) in Hp.
    rewrite Hd in Hp by lia. destruct (rd_buf _ Hk) as (b & Eb & Hb). rewrite Eb in Hp.
    injection Hp as <- _. rewrite drop_0. pose proof (rd_len _ Hk). simpl. lia.
Qed.

Lemma queue_put_spec c p post ps :
  client_ok c -> represents (c_msgQueue c) ps -> Forall bytes_ok ps -> bytes_ok p ->
  exists q, let fits := zlen (frame p) <=? room (c_msgQueue c) in
    queue_put c (p ++ post) (zlen p) =
      Some (if fits then u16 (zlen (frame p)) else -1, set_msgQueue q c) /\
    client_ok (set_msgQueue q c) /\ size (rb q) = size (rb (c_msgQueue c)) /\
    if fits then represents q (ps ++ [p]) else represents q ps /\ room q = 0.
Proof.
  intros Hc Hq Hps Hp. unfold queue_put. rewrite (ck_freed _ Hc).
  destruct (Puts_spec (c_msgQueue c) ps p post Hq) as (q & -> & Hsz & Hr).
  exists q. split; [done|]. split; [|done]. destruct (_ <=? _).
  - eapply ok_msgQueue; [done..|]. by apply Forall_app_2; [|constructor].
  - by eapply ok_msgQueue; [done|apply Hr|].
Qed.

Lemma queue_reply_safe c f t q r body :
  client_ok c ->
  (exists res, f (Some (c_mqtt_connection c)) = Some res /\
     built (c_mqtt_connection c) res t q r body) ->
  0 <= q <= 3 -> bytes_ok body ->
  exists c', queue_reply f c = Some c' /\ client_ok c'.
Proof.
  intros Hc Hf Hq Hb. destruct (build_spec c f t q r body Hc Hf) as (k & E & Hok & post & Ho & _).
  unfold queue_reply. rewrite E, Ho. destruct (ck_queue _ Hok) as (ps & Hr & Hps).
  destruct (queue_put_spec _ (sent_bytes t q r body) post ps Hok Hr Hps) as (q' & -> & Hok' & _).
  - by apply sent_bytes_ok.
  - eauto.
Qed.

Lemma queue_get_spec c ps :
  client_ok c -> represents (c_msgQueue c) ps -> Forall bytes_ok ps ->
  exists r q d n, queue_get c = Some (r, set_msgQueue q c, d, n) /\
    client_ok (set_msgQueue q c) /\ size (rb q) = size (rb (c_msgQueue c)) /\
    match ps with
    | [] => r = -1 /\ rb_bytes (rb q) = []
    | p :: ps' => r = 0 /\ represents q ps' /\ exists rest, d = take (Z.to_nat n) p ++ rest /\
        n = Z.min (zlen p) MQTT_BUF_SIZE /\ zlen d = MQTT_BUF_SIZE
    end.
Proof.
  intros Hc Hq Hps. unfold queue_get. rewrite (ck_freed _ Hc).
  destruct (Gets_spec stk (c_msgQueue c) ps dataBuffer0 junk MQTT_BUF_SIZE Hq)
    as (r & q & d & n & -> & Hsz & Hm); [done|done|].
  exists r, q, d, n. split; [done|]. destruct ps as [|p ps].
  - destruct Hm as (-> & -> & Hok & Hnil). split; [|done].
    apply (ok_msgQueue q []); [done| |constructor]. split; [done|]. rewrite Hnil. by constructor.
  - destruct Hm as (-> & Hn & Hz & Ht & Hq'). apply Forall_cons_1 in Hps as [Hp Hps].
    split; [by eapply ok_msgQueue|]. split; [done|]. split; [done|]. split; [done|].
    exists (drop (Z.to_nat n) d). split; [|done].
    assert (take (Z.to_nat n) d = take (Z.to_nat n) p) as <-; [|by rewrite take_drop].
    rewrite Ht, Hn. unfold zlen, MQTT_BUF_SIZE. rewrite Z2Nat.inj_min, Nat2Z.id.
    destruct (Nat.le_ge_cases (length p) (Z.to_nat 640)).
    + rewrite Nat.min_l, !take_ge by lia. done.
    + by rewrite Nat.min_r by lia.
Qed.

(** *** The push loop of Publish, Subscribe and UnSubscribe *)

Lemma stream_of_count s ps : stream_of s ps -> 2 * Z.of_nat (length ps) <= zlen s.
Proof.
  induction 1 as [g|g p s ps Hg Hs IH]; simpl length; [apply zlen_nonneg|].
  rewrite !zlen_app. pose proof (zlen_nonneg g). pose proof (zlen_nonneg (escaped p)).
  unfold frame. rewrite zlen_cons, zlen_app. change (zlen [_]) with 1. lia.
Qed.

Lemma set_msgQueue_twice q q' c : set_msgQueue q' (set_msgQueue q c) = set_msgQueue q' c.
Proof. done. Qed.

Lemma push_loop_spec fuel p post : forall c ps,
  client_ok c -> out_data c = Some (p ++ post, zlen p) -> bytes_ok p ->
  represents (c_msgQueue c) ps -> Forall bytes_ok ps -> (length ps < fuel)%nat ->
  exists r q, push_loop fuel c = Some (r, set_msgQueue q c) /\ client_ok (set_msgQueue q c) /\
    if r : bool then
      exists k, (k <= length ps)%nat /\ represents q (drop k ps ++ [p]) /\
        (zlen (frame p) <= room (c_msgQueue c) -> k = 0%nat)
    else room (c_msgQueue c) < zlen (frame p) /\ rb_bytes (rb q) = [].
Proof.
  induction fuel as [|fuel IH]; intros c ps Hc Ho Hp Hq Hps Hf; [lia|]. cbn [push_loop].
  rewrite Ho. destruct (queue_put_spec c p post ps Hc Hq Hps Hp) as (q & -> & Hc1 & _ & Hr).
  destruct (Z.leb_spec (zlen (frame p)) (room (c_msgQueue c))) as [Hfit|Hfit].
  { pose proof (u16_range (zlen (frame p))). destruct (Z.eqb_spec (u16 (zlen (frame p))) (-1)); [lia|].
    exists true, q. split; [done|]. split; [done|]. exists 0%nat. split; [lia|]. done. }
  destruct Hr as [Hr _]. simpl (_ =? _). cbv iota.
  destruct (queue_get_spec (set_msgQueue q c) ps Hc1 Hr Hps) as (r & q2 & d & n & -> & Hc2 & _ & Hm).
  rewrite set_msgQueue_twice in *. destruct ps as [|p0 ps].
  - destruct Hm as [-> Hb]. exists false, q2. done.
  - destruct Hm as (-> & Hq2 & _). simpl (_ =? _). cbv iota. apply Forall_cons_1 in Hps as [_ Hps].
    simpl in Hf. destruct (IH (set_msgQueue q2 c) ps Hc2 Ho Hp Hq2 Hps) as (r & q3 & -> & Hc3 & Hr3); [lia|].
    rewrite set_msgQueue_twice in *. exists r, q3. split; [done|]. split; [done|].
    destruct r; [|split; [lia|apply Hr3]]. destruct Hr3 as (k & Hk & Hr3 & _).
    exists (S k). simpl. split; [lia|]. split; [done|lia].
Qed.

Lemma push_packet_spec c p post ps :
  client_ok c -> out_data c = Some (p ++ post, zlen p) -> bytes_ok p ->
  represents (c_msgQueue c) ps -> Forall bytes_ok ps ->
  exists r q, push_packet c = Some (r, set_msgQueue q c) /\ client_ok (set_msgQueue q c) /\
    if r : bool then
      exists k, (k <= length ps)%nat /\ represents q (drop k ps ++ [p]) /\
        (zlen (frame p) <= room (c_msgQueue c) -> k = 0%nat)
    else room (c_msgQueue c) < zlen (frame p) /\ rb_bytes (rb q) = [].
Proof.
  intros Hc Ho Hp Hq Hps. eapply push_loop_spec; try done.
  destruct Hq as [Hok Hs]. apply stream_of_count in Hs.
  pose proof (rb_bytes_len _ Hok). pose proof (rb_fill _ Hok). lia.
Qed.

(** *** Publishing and subscribing *)

Lemma build_id_spec c f t q r body :
  client_ok c ->
  (exists res mid, f (Some (c_mqtt_connection c)) (c_pending_msg_id c) = Some (res, mid) /\
     built (c_mqtt_connection c) res t q r body) ->
  exists k mid, let c' := set_pending_msg_id mid (set_outbound_message true (set_mqtt_connection k c)) in
    build_id f c = Some c' /\ built_client c' (sent_bytes t q r body).
Proof.
  intros Hc (res & mid & E & Hb).
  destruct (build_spec c (fun _ => Some res) t q r body Hc) as (k & Eb & Hok & Ho).
  { by exists res. }
  unfold build, build_id in *. rewrite (ck_freed _ Hc) in *. destruct Hb as (k' & -> & _). rewrite E.
  injection Eb as Ek. exists k', mid. split; [done|]. rewrite Ek. split; [auto|exact Ho].
Qed.

(** What [push_packet] does to the queued packets [ps]: the new packet [p] is at the end,
    behind what is left of the older ones, or nothing is left. *)
Definition pushed (p : list Z) (ps : list (list Z)) (q0 : QUEUE) (r : bool) (q : QUEUE) : Prop :=
  if r then
    exists k, (k <= length ps)%nat /\ represents q (drop k ps ++ [p]) /\
      (zlen (frame p) <= room q0 -> k = 0%nat)
  else room q0 < zlen (frame p) /\ rb_bytes (rb q) = [].

Lemma Publish_spec c w tm t dm d q r ps :
  client_ok c -> field tm t -> t <> [] -> 0 <= q <= 2 -> hd 0 d <> 0 ->
  zlen d < 1073741824 -> bytes_ok t -> bytes_ok d ->
  represents (c_msgQueue c) ps -> Forall bytes_ok ps ->
  let body := publish_body t d q (next_id 0 (message_id (c_mqtt_connection c))) in
  exists res c' w', Publish tm (Some (d ++ dm)) (zlen d) q r c w = Some (res, c', w') /\
    client_ok c' /\
    if (isConnected (m_client c) w).1 && (3 + zlen body <=? MQTT_BUF_SIZE)
    then pushed (packet MQTT_MSG_TYPE_PUBLISH q r body) ps (c_msgQueue c) res (c_msgQueue c')
    else res = false /\ c_msgQueue c' = c_msgQueue c.
Proof.
  intros Hc Ht Ht0 Hq Hd Hdz Bt Bd Hps Bps body. unfold Publish.
  destruct (isConnected (m_client c) w) as [[|] w1]; simpl negb; cbn [fst andb]; cbv iota; [|eauto 10].
  destruct (build_id_spec c (fun k mid => mqtt_msg_publish k tm (Some (d ++ dm)) (zlen d) q r mid)
    MQTT_MSG_TYPE_PUBLISH q r body Hc) as (k & mid & -> & Hok & post & Ho & _).
  { destruct (publish_spec (c_mqtt_connection c) tm t dm d q r (c_pending_msg_id c))
      as (res & mid & E & Hb & _); try done; [apply (ck_conn _ Hc)|lia|]. eauto. }
  set (c1 := set_pending_msg_id mid _) in *. rewrite Ho.
  unfold sent_bytes in *. destruct (Z.leb_spec (3 + zlen body) MQTT_BUF_SIZE) as [Hfit|Hfit].
  2:{ simpl. eauto 10. }
  set (p := packet MQTT_MSG_TYPE_PUBLISH q r body) in *.
  assert (bytes_ok p) as Hp.
  { unfold MQTT_BUF_SIZE in Hfit. apply packet_bytes; [lia|lia|].
    apply publish_body_bytes; try done; [|fold body; lia]. apply next_id_range. lia. }
  destruct (Z.eqb_spec (zlen p) 0) as [E0|_].
  { unfold p, packet in E0. rewrite zlen_cons in E0. pose proof (zlen_nonneg (remlen (zlen body) ++ body)). lia. }
  destruct (push_packet_spec c1 p post ps Hok Ho Hp Hps Bps) as (res & q' & -> & Hok' & Hr).
  destruct res; simpl negb; cbv iota; (eexists _, _, _; split; [done|]); (split; [auto|]); exact Hr.
Qed.

Lemma Subscribe_spec c w tm t qos ps ns :
  client_ok c -> cstring tm t -> t <> [] -> zlen t < 65536 -> 0 <= qos < 256 -> bytes_ok t ->
  represents (c_msgQueue c) ps -> Forall bytes_ok ps -> topics_are (c_subscribed_topics c) ns -> NoDup ns ->
  let p := sent_bytes MQTT_MSG_TYPE_SUBSCRIBE 1 0
    (be16 (next_id 0 (message_id (c_mqtt_connection c))) ++ mstring t ++ [qos]) in
  exists res c' w', Subscribe tm qos c w = Some (res, c', w') /\ client_ok c' /\
    topics_are (c_subscribed_topics c')
      (if res && negb (bool_decide (t ∈ ns)) then ns ++ [t] else ns) /\
    if (isConnected (m_client c) w).1 then pushed p ps (c_msgQueue c) res (c_msgQueue c')
    else res = false /\ c_msgQueue c' = c_msgQueue c.
Proof.
  intros Hc Ht Ht0 Hz Hq Bt Hps Bps Hts Hnd p. unfold Subscribe.
  destruct (isConnected (m_client c) w) as [[|] w1]; simpl negb; cbv iota;
    [|eexists _, _, _; split; [done|]; done].
  destruct (build_id_spec c (fun k mid => mqtt_msg_subscribe k (Some tm) qos mid)
    MQTT_MSG_TYPE_SUBSCRIBE 1 0
    (be16 (next_id 0 (message_id (c_mqtt_connection c))) ++ mstring t ++ [qos]) Hc) as (k & mid & -> & Hok & post & Ho & _).
  { destruct (subscribe_spec (c_mqtt_connection c) (Some tm) t qos (c_pending_msg_id c))
      as (res & mid & E & Hb & _); try done; [apply (ck_conn _ Hc)|split; [done|lia]|]. eauto. }
  fold p in Ho. set (c1 := set_pending_msg_id mid _) in *.
  assert (bytes_ok p) as Hp.
  { apply sent_bytes_ok; [lia|]. intros _.
    apply Forall_app; split; [apply be16_bytes|apply Forall_app; split; [by apply mstring_bytes|]].
    2:{ constructor; [exact Hq|constructor]. }
    pose proof (next_id_range 0 (message_id (c_mqtt_connection c)) ltac:(lia)). lia. }
  destruct (push_packet_spec c1 p post ps Hok Ho Hp Hps Bps) as (res & q' & -> & Hok' & Hr).
  destruct res; simpl negb; cbv iota; [|eexists _, _, _; split; [done|]; done].
  unfold is_topic_subscribed. rewrite (topic_in_spec _ ns tm t) by done.
  case_bool_decide as Hin; simpl andb; cbv iota.
  - eexists _, _, _; split; [done|]. split; [auto|]. done.
  - unfold add_to_subscribed_topics. rewrite (dup_string_cstring _ _ Ht).
    assert (topics_are (c_subscribed_topics c ++ [mkTopic (Some (t ++ [0])) qos]) (ns ++ [t])) as Hts'.
    { apply Forall2_app; [done|]. constructor; [|constructor]. exists (t ++ [0]).
      split; [done|]. split; [|done]. destruct Ht as [Hnul _]. split; [done|]. by exists []. }
    eexists _, _, _; split; [done|]. split; [|done].
    apply ok_sendTimeout, (ok_subscribed_topics _ (ns ++ [t])); [done..|].
    by apply NoDup_snoc.
Qed.

Lemma UnSubscribe_spec c w tm t ps ns :
  client_ok c -> cstring tm t -> t <> [] -> zlen t < 65536 -> bytes_ok t ->
  represents (c_msgQueue c) ps -> Forall bytes_ok ps -> topics_are (c_subscribed_topics c) ns -> NoDup ns ->
  let p := sent_bytes MQTT_MSG_TYPE_UNSUBSCRIBE 1 0
    (be16 (next_id 0 (message_id (c_mqtt_connection c))) ++ mstring t) in
  exists res c' w', UnSubscribe tm c w = Some (res, c', w') /\ client_ok c' /\
    topics_are (c_subscribed_topics c') (if res then remove_name t ns else ns) /\
    pushed p ps (c_msgQueue c) res (c_msgQueue c').
Proof.
  intros Hc Ht Ht0 Hz Bt Hps Bps Hts Hnd p. unfold UnSubscribe.
  destruct (build_id_spec c (fun k mid => mqtt_msg_unsubscribe k (Some tm) mid)
    MQTT_MSG_TYPE_UNSUBSCRIBE 1 0
    (be16 (next_id 0 (message_id (c_mqtt_connection c))) ++ mstring t) Hc) as (k & mid & -> & Hok & post & Ho & _).
  { destruct (unsubscribe_spec (c_mqtt_connection c) (Some tm) t (c_pending_msg_id c))
      as (res & mid & E & Hb & _); try done; [apply (ck_conn _ Hc)|split; [done|lia]|]. eauto. }
  fold p in Ho. set (c1 := set_pending_msg_id mid _) in *.
  assert (bytes_ok p) as Hp.
  { apply sent_bytes_ok; [lia|]. intros _.
    apply Forall_app; split; [apply be16_bytes|by apply mstring_bytes].
    pose proof (next_id_range 0 (message_id (c_mqtt_connection c)) ltac:(lia)). lia. }
  destruct (push_packet_spec c1 p post ps Hok Ho Hp Hps Bps) as (res & q' & -> & Hok' & Hr).
  destruct res; simpl negb; cbv iota; [|eexists _, _, _; split; [done|]; done].
  unfold remove_from_subscribed_topics.
  destruct (topic_remove_spec (c_subscribed_topics (set_msgQueue q' c1)) ns tm t Hts Ht) as (ts' & -> & Hts').
  eexists _, _, _; split; [done|]. split; [|done].
  apply ok_sendTimeout, (ok_subscribed_topics _ _ _ Hok' Hts'), remove_name_NoDup, Hnd.
Qed.

(** *** Reception is safe but for a PUBLISH without a topic *)

(** The application's callbacks keep the invariant. *)
Hypotheses (Hcb : forall k c, client_ok c -> client_ok (user_cb k c))
  (Hdata : forall k t d c, client_ok c -> client_ok (user_data k t d c)).

Lemma run_cb_ok cb c : client_ok c -> client_ok (run_cb cb c).
Proof.
  intros Hc. destruct cb as [[]|]; simpl; auto. unfold clear_all_subscribed_topics.
  apply (ok_subscribed_topics [] []); [auto|constructor|constructor].
Qed.

#[local] Hint Resolve run_cb_ok Hdata : core.

Lemma disconnectServer_ok c w : client_ok c -> client_ok (disconnectServer c w).1.2.
Proof.
  intros Hc. unfold disconnectServer. destruct (disconnect _ w). simpl. auto.
Qed.

Lemma publish_data_null b len n : mqtt_get_publish_data (Some b) len = Some (None, n) -> n = 0.
Proof.
  unfold mqtt_get_publish_data. destruct (remaining_length_loop _ _ _ _ _) as [[i tot]|]; [|done].
  destruct (int_val _); [|done]. destruct (_ >=? _); [by intros [= <-]|].
  destruct (word_at _ _); [|done]. destruct (_ >=? _); [by intros [= <-]|].
  destruct (mqtt_get_qos b); [|done]. destruct (_ && _); [by intros [= <-]|].
  destruct (_ <? _); [by intros [= <-]|]. destruct (_ <=? _); done.
Qed.

Lemma within_msub b len off n : 0 <= len <= zlen b -> within len (Some off, n) ->
  exists d, msub b off n = Some d.
Proof.
  intros Hl Hw. destruct (Hw off eq_refl) as (H1 & H2 & H3). simpl in *. unfold msub.
  destruct (Z.leb_spec 0 off), (Z.leb_spec 0 n), (Z.leb_spec (off + n) (zlen b)); simpl; eauto; lia.
Qed.

Lemma data_copy_safe b len r : 0 <= len <= zlen b -> within len r ->
  (r.1 = None -> r.2 = 0) -> exists d, data_copy b r.1 r.2 = Some d.
Proof.
  intros Hl Hw Hn. unfold data_copy. destruct (Z.eqb_spec r.2 0) as [|Hne]; [eauto|].
  destruct r as [[off|] n]; simpl in *; [|specialize (Hn eq_refl); lia].
  by apply (within_msub b len).
Qed.

(** A packet whose topic, if it is a PUBLISH, is inside the packet. *)
Definition has_topic (b : list Z) (len : Z) : Prop :=
  mqtt_get_type b = Some (MQTT_MSG_TYPE_PUBLISH : Z) ->
  exists off n, mqtt_get_publish_topic (Some b) len = Some (Some off, n).

Lemma deliver_publish_safe c b len :
  client_ok c -> bytes_ok b -> 1 <= len <= zlen b -> len < 65536 -> length_field_ok b ->
  (exists off n, mqtt_get_publish_topic (Some b) len = Some (Some off, n)) ->
  exists c', deliver_publish c b len = Some c' /\ client_ok c'.
Proof.
  intros Hc Hb Hl H16 Hf (off & n & Et). unfold deliver_publish. rewrite u16_small by lia.
  assert (0 <= len <= zlen b) as Hl0 by lia.
  assert (readable b len) as Hr by (apply bytes_readable; [done|lia]).
  destruct (topic_safe b len) as (rt & Et' & Wt); try done.
  destruct (data_safe b len) as (rd & Ed & Wd); try done.
  rewrite Et in Et'. injection Et' as <-. rewrite Et, Ed. destruct rd as [dp dl].
  destruct (within_msub b len off n Hl0 Wt) as (topic & Em).
  destruct (data_copy_safe b len (Some off, n) Hl0 Wt) as (d1 & Ed1); [done|].
  destruct (data_copy_safe b len (dp, dl) Hl0 Wd) as (d2 & Ed2).
  { simpl. intros ->. by apply publish_data_null in Ed. }
  cbn [fst snd] in Ed1, Ed2.
  destruct (m_dataCb c); [destruct dp as [d0|]|]; rewrite ?Ed1, ?Ed2; try (by eexists).
  destruct (within_msub b len d0 dl Hl0 Wd) as (data & ->). rewrite Em. eauto.
Qed.

Lemma recv_packet_safe (t q id : Z) b c :
  client_ok c -> 0 <= id < 65536 ->
  (t = MQTT_MSG_TYPE_PUBLISH ->
   forall c1, client_ok c1 -> exists c', deliver_publish c1 b (c_message_length_read c) = Some c' /\ client_ok c') ->
  exists c', recv_packet t q id b c = Some c' /\ client_ok c'.
Proof.
  intros Hc Hid Hpub. unfold recv_packet.
  assert (forall f (ty : mqtt_message_type) qq, f = msg_ack ty qq -> 0 <= qq <= 3 ->
    exists c', queue_reply (fun k => f k id) c = Some c' /\ client_ok c' /\
      c_message_length_read c' = c_message_length_read c) as Hack.
  { intros f ty qq -> Hqq.
    destruct (queue_reply_safe c (fun k => msg_ack ty qq k id) ty qq 0 _ Hc (msg_ack_spec _ ty qq id (ck_conn _ Hc) Hid Hqq) Hqq)
      as (c' & E & Hok).
    { apply be16_bytes. pose proof (next_id_range id (message_id (c_mqtt_connection c)) Hid). lia. } exists c'. split; [done|]. split; [done|].
    unfold queue_reply, build, queue_put in E. rewrite (ck_freed _ Hc) in E.
    destruct (msg_ack ty qq _ id) as [[? [?|]]|]; try done.
    destruct (out_data _) as [[? ?]|]; [|done]. simpl in E. rewrite (ck_freed _ Hc) in E.
    destruct (QUEUE_Puts _ _ _) as [[? ?]|]; [|done]. by injection E as <-. }
  destruct (t =? MQTT_MSG_TYPE_SUBACK); [eauto|]. destruct (t =? MQTT_MSG_TYPE_UNSUBACK); [eauto|].
  destruct (Z.eqb_spec t MQTT_MSG_TYPE_PUBLISH) as [Et|_].
  { specialize (Hpub Et).
    destruct (q =? 1);
      [destruct (Hack mqtt_msg_puback MQTT_MSG_TYPE_PUBACK 0 eq_refl ltac:(lia)) as (c1 & -> & H1 & Em); rewrite Em; auto|].
    destruct (q =? 2);
      [destruct (Hack mqtt_msg_pubrec MQTT_MSG_TYPE_PUBREC 0 eq_refl ltac:(lia)) as (c1 & -> & H1 & Em); rewrite Em; auto|].
    auto. }
  destruct (_ || _); [destruct (_ && _); eauto|].
  destruct (t =? MQTT_MSG_TYPE_PUBREC).
  { destruct (Hack mqtt_msg_pubrel MQTT_MSG_TYPE_PUBREL 1 eq_refl ltac:(lia)) as (c1 & -> & H1 & _); eauto. }
  destruct (t =? MQTT_MSG_TYPE_PUBREL).
  { destruct (Hack mqtt_msg_pubcomp MQTT_MSG_TYPE_PUBCOMP 0 eq_refl ltac:(lia)) as (c1 & -> & H1 & _); eauto. }
  destruct (t =? MQTT_MSG_TYPE_PINGREQ); [|eauto].
  exact (queue_reply_safe c mqtt_msg_pingresp _ _ _ _ Hc (msg_empty_spec _ MQTT_MSG_TYPE_PINGRESP (ck_conn _ Hc)) ltac:(lia) ltac:(constructor)).
Qed.

Lemma recv_handle_safe b len c :
  client_ok c -> zlen b = MQTT_BUF_SIZE -> bytes_ok b -> length_field_ok b ->
  0 < len < MQTT_BUF_SIZE -> has_topic b len ->
  exists c', recv_handle b len c = Some c' /\ client_ok c'.
Proof.
  unfold MQTT_BUF_SIZE. intros Hc Hz Hb Hf Hl Ht. unfold recv_handle.
  rewrite (ck_in_len _ Hc). change (u16 MQTT_BUF_SIZE) with 640.
  assert (readable b 640) as Hr by (apply bytes_readable; [done|lia]).
  assert (readable b len) as Hr' by (apply bytes_readable; [done|lia]).
  destruct (type_safe b 640) as (t & Et); try done; try lia.
  destruct (qos_safe b 640) as (q & ->); try done; try lia.
  destruct (id_safe b 640) as (id & -> & Hid); try done; try lia. rewrite Et.
  destruct (decode_header b len) as (i & tot & El & Hi & Htot); try done; try lia.
  change (2 ^ 28) with 268435456 in Htot.
  assert (mqtt_get_total_length (Some b) len = Some (tot + i)) as Etot.
  { unfold mqtt_get_total_length. destruct (Z.ltb_spec len 1); [lia|].
    rewrite El, int_val_Some by lia. done. }
  set (c1 := if (t =? _) && _ then c else _).
  assert (client_ok c1) as Hc1 by (unfold c1; destruct (_ && _); auto). clearbody c1.
  assert (exists c', (total <- mqtt_get_total_length (Some b)
      (c_message_length_read (set_message_length_read (u16 len) c1));;
    recv_packet t q id b (set_connState MQTT_DATA (set_message_length (u16 total)
      (set_message_length_read (u16 len) c1)))) = Some c' /\ client_ok c') as Hpacket.
  { change (c_message_length_read (set_message_length_read (u16 len) c1)) with (u16 len).
    rewrite u16_small, Etot by lia. apply recv_packet_safe; [auto|done|].
    intros -> c2 Hc2. change (c_message_length_read _) with len.
    apply deliver_publish_safe; try done; try lia. by apply Ht. }
  destruct (connState (m_mqttClient c1));
    try exact Hpacket; try (by eexists; split; [done|]; auto).
  destruct (t =? _); [destruct (negb _)|]; eexists; (split; [done|]); auto.
Qed.

(** What a client that reads now is handed: if it is a PUBLISH, its topic is inside. *)
Definition sane_read (w : W) : Prop :=
  forall client b n b' w', zlen b = MQTT_BUF_SIZE ->
    readFullPacket client b MQTT_BUF_SIZE (MQTT_READ_TIMEOUT * 20) w = Some (n, b', w') ->
    0 < n < MQTT_BUF_SIZE -> has_topic b' n.

Lemma mqtt_client_recv_safe c w : client_ok c -> sane_read w ->
  exists c' w', mqtt_client_recv c w = Some (c', w') /\ client_ok c'.
Proof.
  intros Hc Hs. unfold mqtt_client_recv. destruct (ck_in _ Hc) as (b & Eb & Hz & Hb).
  rewrite Eb, (ck_in_len _ Hc). change (u16 MQTT_BUF_SIZE) with MQTT_BUF_SIZE.
  destruct (readFullPacket_spec (m_client c) b MQTT_BUF_SIZE (MQTT_READ_TIMEOUT * 20) w)
    as (n & b' & w' & Er & Hz' & Hb' & Hn & Hf); [unfold MQTT_BUF_SIZE in *; lia..|done|].
  rewrite Er. assert (client_ok (set_in_buffer (Some b') c)) as Hc' by (apply ok_in_buffer; congruence || done).
  destruct (Z.ltb_spec n MQTT_BUF_SIZE); [|lia]. cbn [andb]. destruct (Z.gtb_spec n 0).
  - destruct (recv_handle_safe b' n (set_in_buffer (Some b') c)) as (c' & -> & Hok); try done; try lia.
    + apply Hf. lia.
    + by eapply (Hs _ _ _ _ _ Hz Er).
    + eauto.
  - destruct (n =? 0); [|eauto]. destruct (connState _); eauto.
Qed.

(** *** The session packets *)

(** From here on the interface keeps its contract, and the busy-wait of
    [sendPacket] gets the rounds the clock needs to reach its limit. *)
Section session.
Context `{!NetSpec W}.
Hypothesis (Hspin : net_rate * 2002 <= Z.of_nat spin).

Lemma send_bytes_spec c d n w : 0 <= n <= zlen d -> n < 65437 ->
  exists r w' k, send_bytes c d n w = Some (r, w') /\ 0 <= k <= n /\
    (r = true <-> k = n /\ (isConnected (m_client c) w).1 = true) /\
    net_sent w' = net_sent w ++ take (Z.to_nat k) d.
Proof. intros Hn H16. unfold send_bytes. apply sendPacket_spec; lia. Qed.

Lemma send_outbound_spec c p w : built_client c p -> bytes_ok p -> zlen p < 65437 ->
  exists r t id w' k,
    send_outbound c w = Some (r, set_sendTimeout MQTT_SEND_TIMEOUT (set_pending_msg_id id
      (set_pending_msg_type t c)), w') /\
    0 <= k <= zlen p /\ (r = true <-> k = zlen p /\ (isConnected (m_client c) w).1 = true) /\
    net_sent w' = net_sent w ++ take (Z.to_nat k) p.
Proof.
  intros [Hc (post & Ho & H1)] Hp H16. unfold send_outbound. rewrite Ho.
  destruct (type_some _ H1) as (t & q & -> & _).
  destruct (id_safe (p ++ post) (zlen p)) as (id & -> & _); [by apply readable_app..|].
  pose proof (zlen_nonneg p). pose proof (zlen_nonneg post).
  destruct (send_bytes_spec (set_sendTimeout MQTT_SEND_TIMEOUT (set_pending_msg_id id
    (set_pending_msg_type t c))) (p ++ post) (zlen p) w) as (r & w' & k & -> & Hk & Hr & Hs);
    [rewrite zlen_app; lia|lia|].
  eexists _, _, _, _, k. split; [done|]. split; [done|]. split; [done|].
  rewrite Hs, take_app_le by (unfold zlen in *; lia). done.
Qed.

(** How a session packet ends: the interface takes the first [k] bytes of it.  If it
    is connected and takes them all, the state is [ok]; else it is [bad], unless an
    application's callback changes it. *)
Definition session_end (p : list Z) (ok bad : tConnState) (c : MQTTClient) (w : W)
    (c' : MQTTClient) (w' : W) : Prop :=
  exists k, 0 <= k <= zlen p /\ net_sent w' = net_sent w ++ take (Z.to_nat k) p /\
    if bool_decide (k = zlen p) && (isConnected (m_client c) w).1 then c_connState c' = ok
    else m_disconnectedCb c = Some mqttDisconnectedCb -> c_connState c' = bad.

Lemma session_end_intro p ok bad c w c' w' (r : bool) k :
  0 <= k <= zlen p -> (r = true <-> k = zlen p /\ (isConnected (m_client c) w).1 = true) ->
  net_sent w' = net_sent w ++ take (Z.to_nat k) p ->
  (if r then c_connState c' = ok
   else m_disconnectedCb c = Some mqttDisconnectedCb -> c_connState c' = bad) ->
  session_end p ok bad c w c' w'.
Proof.
  intros Hk Hr Hs He. exists k. split; [done|]. split; [done|].
  destruct r.
  - destruct (proj1 Hr eq_refl) as [-> ->]. by rewrite bool_decide_eq_true_2.
  - destruct ((isConnected (m_client c) w).1); [|by rewrite andb_false_r].
    rewrite bool_decide_eq_false_2; [done|]. intros ->. by destruct Hr as [_ Hr]; discriminate Hr.
Qed.

Lemma disconnectServer_state c w : m_disconnectedCb c = Some mqttDisconnectedCb ->
  c_connState (disconnectServer c w).1.2 = c_connState c.
Proof. intros E. unfold disconnectServer. rewrite E. simpl. by destruct (disconnect _ w). Qed.

Lemma disconnectServer_sent c w : net_sent (disconnectServer c w).2 = net_sent w.
Proof.
  unfold disconnectServer, disconnect. destruct (m_client _); [|done].
  pose proof (net_disconnect w) as Hn. by destruct (io_disconnect w).
Qed.

Lemma take_all (k : Z) (p : list Z) : k = zlen p -> take (Z.to_nat k) p = p.
Proof. intros ->. apply take_ge. unfold zlen. lia. Qed.

Lemma mqtt_client_connect_spec c w cid wt wm us pw :
  client_ok c -> info_has (c_connect_info c) cid wt wm us pw ->
  let p := sent_bytes MQTT_MSG_TYPE_CONNECT 0 0 (connect_body (c_connect_info c) cid wt wm us pw) in
  exists c' w', mqtt_client_connect c w = Some (c', w') /\ client_ok c' /\
    session_end p MQTT_CONNECT_SENT MQTT_CONNECT_FAILED c w c' w'.
Proof.
  intros Hc (Hk & H1 & H2 & H3 & H4 & H5 & B1 & B2 & B3 & B4 & B5) p. unfold mqtt_client_connect.
  rewrite (ck_freed _ Hc), (ck_out _ Hc), (ck_out_len _ Hc). change (u16 MQTT_BUF_SIZE) with MQTT_BUF_SIZE.
  destruct (rd_buf _ (ck_conn _ Hc)) as (b & Eb & Hb). rewrite (ck_conn_len _ Hc) in Hb.
  rewrite Eb. cbn [mqtt_msg_init]. set (k0 := mkConnection _ _ _ _).
  assert (ready k0) as R0 by (split; simpl; [eauto|unfold MQTT_BUF_SIZE; lia|lia]).
  assert (client_ok (set_mqtt_connection k0 c)) as Hc0 by auto.
  rewrite (ck_info_ptr _ Hc0).
  change (c_connect_info (set_mqtt_connection k0 c)) with (c_connect_info c).
  destruct (build_spec _ (fun k => mqtt_msg_connect k (Some (c_connect_info c))) MQTT_MSG_TYPE_CONNECT 0 0 _ Hc0
    (connect_spec k0 _ cid wt wm us pw R0 Hk H1 H2 H3 H4 H5)) as (k & -> & Hbuilt). fold p in Hbuilt.
  set (c1 := set_outbound_message true _) in *.
  destruct (send_outbound_spec c1 p w Hbuilt) as (r & t & id & w' & n & -> & Hn & Hr & Hs).
  { apply sent_bytes_ok; [lia|]. unfold MQTT_BUF_SIZE. intros. apply connect_body_bytes; done || lia. }
  { apply sent_bytes_16. }
  destruct Hbuilt as [Hc1 _]. destruct r.
  - eexists _, _. split; [done|]. split; [auto 10|]. by apply (session_end_intro _ _ _ _ _ _ _ true n).
  - set (c2 := set_host_connect_tick 0 _).
    pose proof (disconnectServer_ok c2 w' ltac:(unfold c2; auto 10)) as Hd.
    pose proof (disconnectServer_state c2 w') as Hst. pose proof (disconnectServer_sent c2 w') as Hds.
    destruct (disconnectServer c2 w') as [[? c3] w2]. simpl in Hd, Hst, Hds.
    eexists _, _. split; [done|]. split; [auto|].
    apply (session_end_intro _ _ _ _ _ _ _ false n); [done..|by rewrite Hds|exact Hst].
Qed.

Lemma mqtt_client_disconnect_spec c w : client_ok c ->
  exists c' w', mqtt_client_disconnect c w = Some (c', w') /\ client_ok c' /\
    (m_disconnectedCb c = Some mqttDisconnectedCb ->
     c_connState c' = MQTT_DISCONNECT_SENT \/ c_connState c' = MQTT_DISCONNECT_FAILED).
Proof.
  intros Hc. unfold mqtt_client_disconnect.
  destruct (build_spec c mqtt_msg_disconnect _ _ _ _ Hc (msg_empty_spec _ MQTT_MSG_TYPE_DISCONNECT (ck_conn _ Hc)))
    as (k & -> & Hbuilt). set (c1 := set_outbound_message true _) in *.
  destruct (send_outbound_spec c1 _ w Hbuilt) as (r & t & id & w' & n & -> & _);
    [apply sent_bytes_ok; [lia|constructor]|apply sent_bytes_16|].
  destruct Hbuilt as [Hc1 _]. set (c2 := if r then _ else _).
  assert (client_ok c2) as Hc2 by (unfold c2; destruct r; auto 10).
  pose proof (disconnectServer_ok c2 w' Hc2) as Hd.
  assert (m_disconnectedCb c2 = m_disconnectedCb c) as Ecb by (unfold c2; by destruct r).
  pose proof (disconnectServer_state c2 w') as Hst. rewrite Ecb in Hst.
  destruct (disconnectServer c2 w') as [[? c3] w2]. simpl in Hd, Hst.
  eexists _, _. split; [done|]. split; [auto|]. intros E. simpl. rewrite Hst by done.
  unfold c2. destruct r; auto.
Qed.

Lemma mqtt_send_keepalive_spec c w : client_ok c ->
  exists c' w', mqtt_send_keepalive c w = Some (c', w') /\ client_ok c' /\
    session_end [0xC0; 0] MQTT_PING_SENT MQTT_PING_FAILED c w c' w'.
Proof.
  intros Hc. unfold mqtt_send_keepalive.
  destruct (build_spec c mqtt_msg_pingreq _ _ _ _ Hc (msg_empty_spec _ MQTT_MSG_TYPE_PINGREQ (ck_conn _ Hc)))
    as (k & -> & Hbuilt). set (c1 := set_outbound_message true _) in *.
  destruct (send_outbound_spec c1 _ w Hbuilt) as (r & t & id & w' & n & -> & Hn & Hr & Hs);
    [apply sent_bytes_ok; [lia|constructor]|apply sent_bytes_16|].
  destruct Hbuilt as [Hc1 _]. destruct r.
  - eexists _, _. split; [done|]. split; [auto 10|]. by apply (session_end_intro _ _ _ _ _ _ _ true n).
  - set (c2 := set_connState MQTT_PING_FAILED _).
    pose proof (disconnectServer_ok c2 w' ltac:(unfold c2; auto 10)) as Hd.
    pose proof (disconnectServer_state c2 w') as Hst. pose proof (disconnectServer_sent c2 w') as Hds.
    destruct (disconnectServer c2 w') as [[? c3] w2]. simpl in Hd, Hst, Hds.
    eexists _, _. split; [done|]. split; [auto|].
    apply (session_end_intro _ _ _ _ _ _ _ false n); [done..|by rewrite Hds|exact Hst].
Qed.

(** *** The task *)

Lemma stream_nonempty p ps : ~ stream_of [] (p :: ps).
Proof.
  intros Hs. inversion Hs as [|g p' s ps' Hg Hs' E E']; subst.
  apply app_eq_nil in E as [-> E]. unfold frame in E. done.
Qed.

(** How sending a packet of the queue ends. *)
Definition data_end (t q : Z) (p : list Z) (c : MQTTClient) (w : W) (c' : MQTTClient) (w' : W)
  : Prop :=
  session_end p (if (t =? MQTT_MSG_TYPE_PUBLISH) && (q =? 0) then MQTT_DATA else MQTT_DATA_SENT)
    MQTT_DATA_FAILED c w c' w'.

Lemma disconnectServer_queue c w : m_disconnectedCb c = Some mqttDisconnectedCb ->
  c_msgQueue (disconnectServer c w).1.2 = c_msgQueue c.
Proof. intros E. unfold disconnectServer. rewrite E. simpl. by destruct (disconnect _ w). Qed.

(** The time the log loop takes. *)
Definition waits (n : Z) (w : W) : W := Nat.iter (Z.to_nat n) (dvc_wait 0) w.

Lemma waits_sent n w : net_sent (waits n w) = net_sent w.
Proof.
  unfold waits. induction (Z.to_nat n) as [|k IH]; [done|]. simpl. by rewrite (proj2 (net_wait 0 _)).
Qed.

Lemma task_data_sends c w p ps :
  client_ok c -> represents (c_msgQueue c) (p :: ps) -> Forall bytes_ok (p :: ps) ->
  exists rest t q c' w', let n := Z.min (zlen p) MQTT_BUF_SIZE in
    mqtt_get_type (take (Z.to_nat n) p ++ rest) = Some t /\
    mqtt_get_qos (take (Z.to_nat n) p ++ rest) = Some q /\
    task_data c w = Some (c', w') /\ client_ok c' /\
    (m_disconnectedCb c = Some mqttDisconnectedCb -> represents (c_msgQueue c') ps) /\
    data_end t q (take (Z.to_nat n) p) c (waits n w) c' w'.
Proof.
  intros Hc Hq Hps. destruct (queue_get_spec c _ Hc Hq Hps)
    as (r & q & d & n & E & Hok & _ & -> & Hq' & rest & Hd & Hn & Hz). cbv zeta. rewrite <- Hn.
  destruct (type_some d) as (t & qos & Et & Eq); [by rewrite Hz|].
  exists rest, t, qos. rewrite <- Hd.
  apply Forall_cons_1 in Hps as [Hp _]. unfold task_data. rewrite (ck_freed _ Hc).
  destruct (QUEUE_IsEmpty _) eqn:Ee.
  { destruct Hq as [Hrb Hq]. apply (IsEmpty_bytes _ Hrb) in Ee. rewrite Ee in Hq.
    by destruct (stream_nonempty _ _ Hq). }
  assert (zlen (take (Z.to_nat n) p) = n) as Hn'.
  { unfold zlen, MQTT_BUF_SIZE in *. rewrite length_take. lia. }
  pose proof (zlen_nonneg (take (Z.to_nat n) p)).
  assert (readable d n) as Hr.
  { pose proof (readable_app _ rest (Forall_take _ (Z.to_nat n) _ Hp)) as Hr.
    by rewrite Hn', <- Hd in Hr. }
  destruct (id_safe d n Hr) as (id & Eid & _). rewrite E, Eq, Et, Eid. cbn [Z.eqb].
  set (c1 := set_sendTimeout _ _). fold (waits n w). set (v := waits n w).
  destruct (send_bytes_spec c1 d n v) as (res & w' & k & -> & Hk & Hres & Hs).
  { unfold MQTT_BUF_SIZE in *. lia. } { unfold MQTT_BUF_SIZE in *. lia. }
  rewrite Hd, take_app_le in Hs by (unfold zlen in *; lia).
  rewrite <- Hn' in Hk, Hres. destruct res.
  - eexists _, _. do 3 (split; [done|]). split; [unfold c1; auto 10|]. split; [done|].
    by apply (session_end_intro _ _ _ _ _ _ _ true k).
  - set (c2 := set_host_connect_tick 0 _).
    pose proof (disconnectServer_ok c2 w' ltac:(unfold c2, c1; auto 10)) as Hd'.
    pose proof (disconnectServer_state c2 w') as Hst.
    pose proof (disconnectServer_queue c2 w') as Hqu. pose proof (disconnectServer_sent c2 w') as Hds.
    destruct (disconnectServer c2 w') as [[? c3] w2]. simpl in Hd', Hst, Hqu, Hds.
    eexists _, _. do 3 (split; [done|]). split; [auto|]. split; [intros Ecb; simpl; by rewrite Hqu|].
    apply (session_end_intro _ _ _ _ _ _ _ false k); [done..|by rewrite Hds|exact Hst].
Qed.

(** The states in which the task reads. *)
Definition reading (c : MQTTClient) : Prop :=
  match c_connState c with
  | MQTT_CONNECT_SENT | MQTT_DISCONNECT_SENT | MQTT_DATA_SENT | MQTT_PING_SENT => True
  | MQTT_DATA => QUEUE_IsEmpty (c_msgQueue c) = true
  | _ => False
  end.

Lemma task_data_safe c w : client_ok c -> (QUEUE_IsEmpty (c_msgQueue c) = true -> sane_read w) ->
  exists c' w', task_data c w = Some (c', w') /\ client_ok c'.
Proof.
  intros Hc Hb. destruct (ck_queue _ Hc) as ([|p ps] & Hq & Hps).
  - unfold task_data. rewrite (ck_freed _ Hc). destruct (QUEUE_IsEmpty _).
    + apply mqtt_client_recv_safe; auto.
    + destruct (queue_get_spec c _ Hc Hq Hps) as (r & q & d & n & -> & Hok & _ & -> & _). eauto.
  - destruct (task_data_sends c w p ps Hc Hq Hps) as (? & ? & ? & c' & w' & _ & _ & E & Hok & _).
    eauto.
Qed.

Lemma task_at_safe depth : forall c w, client_ok c -> (reading c -> sane_read w) ->
  (depth = O -> c_connState c <> MQTT_HOST_RECONNECT_REQ /\ c_connState c <> MQTT_HOST_RECONNECT) ->
  exists c' w', task_at depth c w = Some (c', w') /\ client_ok c'.
Proof.
  assert (forall r : option (MQTTClient * W), (exists c' w', r = Some (c', w') /\ client_ok c') ->
    exists c' w', ('(c, w) <- r;; Some (c, dvc_yield w)) = Some (c', w') /\ client_ok c') as Hy.
  { intros r (c' & w' & -> & Hok). eauto. }
  induction depth as [|depth IH]; intros c w Hc Hb Hd; unfold reading in Hb; cbn [task_at]; apply Hy.
  all: destruct (connState (m_mqttClient c)) eqn:Es; try (by eauto).
  all: try (destruct (Hd eq_refl); done).
  all: try (by apply mqtt_client_recv_safe; auto).
  all: try (by apply task_data_safe).
  all: try (destruct (mqtt_client_disconnect_spec c w Hc) as (c' & w' & -> & Hok & _); by eauto).
  all: try (destruct (mqtt_send_keepalive_spec c w Hc) as (c' & w' & -> & Hok & _); by eauto).
  all: try (destruct (isConnected (m_client c) w) as [[|] w1]; [|by eauto];
    destruct (ck_info _ Hc) as (cid & wt & wm & us & pw & Hi);
    destruct (mqtt_client_connect_spec c w1 _ _ _ _ _ Hc Hi) as (c' & w' & -> & Hok & _); by eauto).
  all: pose proof (disconnectServer_ok c w Hc) as Hd';
    destruct (disconnectServer c w) as [[? c1] w1]; simpl in Hd'; unfold connect_with;
    destruct (negb _); [by eauto|]; destruct (connectToServer _ _ _ _ w1) as [? w2];
    (apply IH; [auto|done|done]).
Qed.

Lemma MQTT_Task_safe c w : client_ok c -> (reading c -> sane_read w) ->
  exists c' w', MQTT_Task c w = Some (c', w') /\ client_ok c'.
Proof. intros Hc Hb. by apply task_at_safe. Qed.

Lemma Connect_safe c w : client_ok c ->
  exists c' w', Connect c w = Some (c', w') /\ client_ok c'.
Proof.
  intros Hc. unfold Connect, connect_with. destruct (negb _); [eauto|].
  destruct (connectToServer _ _ _ _ w). apply MQTT_Task_safe; [auto|done].
Qed.

Lemma timer_step_safe c w : client_ok c -> (reading c -> sane_read w) ->
  exists c' w', timer_step c w = Some (c', w') /\ client_ok c'.
Proof.
  intros Hc Hb. unfold timer_step, reading in *. destruct (connState _) eqn:Es; try (by eauto);
    try (by apply MQTT_Task_safe; [auto|unfold reading; rewrite Es]).
  all: try (apply MQTT_Task_safe; [destruct (_ >? _); by auto 10|intros _; by apply Hb]).
  all: try (destruct (_ >? _); [by apply MQTT_Task_safe; [auto 10|]|]; destruct (decide _); [|by eauto];
    destruct (isConnected _ w) as [[|] w1]; [by apply MQTT_Task_safe; [auto|unfold reading; cbn; rewrite Es]|by eauto]).
  cbn [connect_info_ptr mqtt_state m_mqttClient set_keepAliveTick set_m_mqttClient].
  rewrite (ck_info_ptr _ Hc). apply MQTT_Task_safe; [destruct (_ >? _); auto|].
  destruct (_ >? _); [done|]. unfold reading. cbn. rewrite Es. exact Hb.
Qed.

Lemma mqtt_timer_total c w : client_ok c -> (reading c -> sane_read (isConnected (m_client c) w).2) ->
  exists c' w', mqtt_timer c w = Some (c', w') /\ client_ok c'.
Proof.
  intros Hc Hb. unfold mqtt_timer. destruct (isConnected _ w) as [? w1].
  destruct (timer_step_safe c w1 Hc Hb) as (c' & w' & -> & Hok).
  destruct (_ >? 0); eauto.
Qed.

(** *** Set-up *)

(** Tables [begin] accepts, with the strings in them. *)
Record tables_ok (g : mqtt_general_configs) (l : mqtt_lwt_configs)
    (host cid us pw wt wm : list Z) : Prop := {
  tb_host : cstring (g_host g) host;
  tb_host_len : 5 < zlen host;
  tb_port : 0 < g_port g;
  tb_cid : cstring (g_client_id g) cid;
  tb_cid_ne : cid <> [];
  tb_us : cstring (g_username g) us;
  tb_pw : cstring (g_password g) pw;
  tb_keep : 5 < g_keepalive g < 65536;
  tb_wt : cstring (l_will_topic l) wt;
  tb_wm : cstring (l_will_message l) wm;
  tb_small : Forall (fun s => zlen s < 1073741824) [cid; us; pw; wt; wm];
  tb_bytes : Forall bytes_ok [cid; us; pw; wt; wm];
}.

Hypothesis (Hfresh : QUEUE_BUFFER_SIZE <= zlen (fresh QUEUE_BUFFER_SIZE)).

Lemma dup_cstring s : no_nul s -> cstring (s ++ [0]) s.
Proof. intros Hs. split; [done|]. by exists []. Qed.

Lemma InitClient_spec c cm cid um us pm pw keep clean :
  freed c = false -> c_subscribed_topics c = [] -> cstring cm cid -> cstring um us -> cstring pm pw -> 5 < keep < 65536 ->
  cid <> [] -> Forall (fun s => zlen s < 1073741824) [cid; us; pw] -> Forall bytes_ok [cid; us; pw] ->
  exists c', InitClient (Some cm) (Some um) (Some pm) keep clean c = Some c' /\ client_ok c' /\
    info_has (c_connect_info c') cid [] [] us pw.
Proof.
  intros Hf Hts Hc Hu Hp Hk Hne Hs Hb. unfold InitClient, dup_opt.
  rewrite (dup_string_cstring _ _ Hc), (dup_string_cstring _ _ Hu), (dup_string_cstring _ _ Hp).
  destruct (Z.gtb_spec keep 5); [|lia]. rewrite u16_small by lia.
  apply Forall_cons_1 in Hs as [S1 Hs]. apply Forall_cons_1 in Hs as [S2 Hs].
  apply Forall_cons_1 in Hs as [S3 _]. apply Forall_cons_1 in Hb as [B1 Hb].
  apply Forall_cons_1 in Hb as [B2 Hb]. apply Forall_cons_1 in Hb as [B3 _].
  set (info := mkInfo _ _ _ _ _ _ _ _ _).
  assert (info_has info cid [] [] us pw) as Hi.
  { unfold info_has, will_ok, field. simpl.
    split_and!; try done; try (by apply dup_cstring; apply Hc || apply Hu || apply Hp); try lia;
      constructor. }
  eexists. split; [done|]. split; [|exact Hi]. split; try done; simpl.
  - split; simpl; [by eexists|unfold MQTT_BUF_SIZE; lia|lia].
  - eexists. split; [done|]. split; [done|]. by apply Forall_replicate.
  - by exists cid, [], [], us, pw.
  - exists []. split; [|constructor]. apply Init_represents; [unfold QUEUE_BUFFER_SIZE; lia|done].
  - exists []. rewrite Hts. split; constructor.
Qed.

Lemma InitLWT_spec c tm wt mm wm qos retain cid us pw :
  client_ok c -> cstring tm wt -> cstring mm wm ->
  info_has (c_connect_info c) cid [] [] us pw ->
  Forall (fun s => zlen s < 1073741824) [wt; wm] -> Forall bytes_ok [wt; wm] ->
  exists c', InitLWT (Some tm) (Some mm) qos retain c = Some c' /\ client_ok c' /\
    info_has (c_connect_info c') cid wt wm us pw.
Proof.
  intros Hc Ht Hm (Hk & H1 & H2 & _ & H4 & H5 & B1 & _ & _ & B4 & B5) Hs Hb. unfold InitLWT.
  rewrite (dup_string_cstring _ _ Ht), (dup_string_cstring _ _ Hm).
  apply Forall_cons_1 in Hs as [S1 Hs]. apply Forall_cons_1 in Hs as [S2 _].
  apply Forall_cons_1 in Hb as [C1 Hb]. apply Forall_cons_1 in Hb as [C2 _].
  set (info := mkInfo _ _ _ _ _ _ _ _ _).
  assert (info_has info cid wt wm us pw) as Hi.
  { assert (will_ok info wt wm) as Hw; [|by unfold info_has; split; [exact Hk|split_and!]].
    split; [split; [apply dup_cstring, Ht|done]|].
    intros _. eexists. split; [done|]. split; [apply dup_cstring, Hm|done]. }
  eexists. split; [done|]. split; [|exact Hi]. destruct Hc. split; try done. by exists cid, wt, wm, us, pw.
Qed.

Lemma begin_spec g l host cid us pw wt wm c w :
  tables_ok g l host cid us pw wt wm ->
  exists c' w', begin true (Some g) (Some l) c w = Some (true, c', w') /\ client_ok c'.
Proof.
  intros []. unfold begin. destruct (DeleteClient c w) as [c0 w0].
  rewrite (strlen_cstring _ _ tb_host0). destruct (Z.gtb_spec (zlen host) 5); [|lia].
  destruct (Z.gtb_spec (g_port g) 0); [|lia]. simpl negb. cbv iota.
  unfold InitConnection. rewrite (dup_string_cstring _ _ tb_host0), (strlen_cstring _ _ tb_cid0).
  assert (0 < zlen cid) by (destruct cid; [done|]; rewrite zlen_cons; pose proof (zlen_nonneg cid); lia).
  destruct (Z.gtb_spec (zlen cid) 0); [|lia]. destruct (Z.gtb_spec (g_keepalive g) 5); [|lia].
  simpl negb. cbv iota. set (c1 := set_m_security _ _).
  assert (Forall bytes_ok [cid; us; pw] /\ Forall bytes_ok [wt; wm]) as [Hb1 Hb2]
    by (apply Forall_app; exact tb_bytes0).
  assert (Forall (fun s => zlen s < 1073741824) [cid; us; pw] /\
    Forall (fun s => zlen s < 1073741824) [wt; wm]) as [Hs1 Hs2] by (apply Forall_app; exact tb_small0).
  destruct (InitClient_spec c1 _ cid _ us _ pw (g_keepalive g) (g_clean_session g) eq_refl eq_refl
    tb_cid0 tb_us0 tb_pw0 tb_keep0 tb_cid_ne0 Hs1 Hb1) as (c2 & -> & Hok2 & Hi2).
  rewrite (strlen_cstring _ _ tb_wt0).
  assert (exists c3, (if zlen wt >? 0 then InitLWT (Some (l_will_topic l)) (Some (l_will_message l))
      (if l_will_qos l <? MQTT_MAX_QOS_LEVEL then l_will_qos l else MQTT_MAX_QOS_LEVEL)
      (l_will_retain l) c2 else Some c2) = Some c3 /\ client_ok c3) as (c3 & -> & Hok3).
  { destruct (zlen wt >? 0); [|eauto].
    destruct (InitLWT_spec c2 _ wt _ wm (if l_will_qos l <? MQTT_MAX_QOS_LEVEL then l_will_qos l else MQTT_MAX_QOS_LEVEL)
      (l_will_retain l) cid us pw Hok2 tb_wt0 tb_wm0 Hi2 Hs2 Hb2) as (c3 & -> & Hok & _). eauto. }
  assert (client_ok (OnUnsubscribed (Some mqttUnsubscribedCb) (OnSubscribed (Some mqttSubscribedCb)
    (OnPublished (Some mqttPublishedCb) (OnDisconnected (Some mqttDisconnectedCb)
      (OnConnected (Some mqttConnectedCb) c3)))))) as Hok4 by (destruct Hok3; split; done).
  destruct (Connect_safe _ w0 Hok4) as (c' & w' & -> & Hok'). eauto.
Qed.

(** *** Histories *)

(** The calls an application and its timer make after [begin]. *)
Inductive client_call :=
| CallTimer
| CallConnect
| CallDisconnect
| CallPublish (topic data : list Z) (data_length qos retain : Z)
| CallSubscribe (topic : list Z) (qos : Z)
| CallUnSubscribe (topic : list Z).

Definition do_call (e : client_call) (c : MQTTClient) (w : W) : option (MQTTClient * W) :=
  match e with
  | CallTimer => mqtt_timer c w
  | CallConnect => Connect c w
  | CallDisconnect => Disconnect c w
  | CallPublish topic data n qos retain =>
      '(_, c, w) <- Publish (Some topic) (Some data) n qos retain c w;; Some (c, w)
  | CallSubscribe topic qos => '(_, c, w) <- Subscribe topic qos c w;; Some (c, w)
  | CallUnSubscribe topic => '(_, c, w) <- UnSubscribe topic c w;; Some (c, w)
  end.

Fixpoint do_calls (es : list client_call) (c : MQTTClient) (w : W) : option (MQTTClient * W) :=
  match es with
  | [] => Some (c, w)
  | e :: es => '(c, w) <- do_call e c w;; do_calls es c w
  end.

(** A topic that is a non-empty string. *)
Definition topic_arg (m : list Z) : Prop :=
  exists s, cstring m s /\ s <> [] /\ zlen s < 65536 /\ bytes_ok s.

Definition call_ok (e : client_call) : Prop :=
  match e with
  | CallPublish topic data n qos _ => topic_arg topic /\ 0 <= qos <= 2 /\
      bytes_ok data /\ hd 0 data <> 0 /\ 1 <= n <= zlen data /\ n < 1073741824
  | CallSubscribe topic qos => topic_arg topic /\ 0 <= qos < 256
  | CallUnSubscribe topic => topic_arg topic
  | _ => True
  end.

(** What the broker has to keep to in a history: at each tick at which the client reads,
    what it is handed has its topic if it is a PUBLISH.  The timer asks the interface for
    its connection first. *)
Fixpoint broker_ok (es : list client_call) (c : MQTTClient) (w : W) : Prop :=
  match es with
  | [] => True
  | e :: es =>
      (e = CallTimer -> reading c -> sane_read (isConnected (m_client c) w).2) /\
      forall c' w', do_call e c w = Some (c', w') -> broker_ok es c' w'
  end.

Lemma do_call_safe e c w : client_ok c -> call_ok e ->
  (e = CallTimer -> reading c -> sane_read (isConnected (m_client c) w).2) ->
  exists c' w', do_call e c w = Some (c', w') /\ client_ok c'.
Proof.
  intros Hc He Hb. destruct (ck_queue _ Hc) as (ps & Hps & Bps). destruct (ck_topics _ Hc) as (ns & Hts & Hnd).
  destruct e as [| | |topic data n qos retain|topic qos|topic]; simpl in *.
  - apply mqtt_timer_total; auto.
  - by apply Connect_safe.
  - unfold Disconnect. by apply MQTT_Task_safe; [auto|].
  - destruct He as ((s & Hs & Hs0 & Hsz & Hsb) & Hq & Hd & Hd0 & Hn & Hn').
    assert (data = take (Z.to_nat n) data ++ drop (Z.to_nat n) data) as Ed by (by rewrite take_drop).
    assert (zlen (take (Z.to_nat n) data) = n) as En by (unfold zlen in *; rewrite length_take; lia).
    destruct (Publish_spec c w (Some topic) s (drop (Z.to_nat n) data) (take (Z.to_nat n) data) qos retain ps)
      as (res & c' & w' & E & Hok & _); try done; try lia.
    + split; [done|lia].
    + destruct data as [|x data]; [done|]. by destruct (Z.to_nat n) eqn:E; [lia|].
    + by apply Forall_take.
    + rewrite <- Ed, En in E. rewrite E. eauto.
  - destruct He as ((s & Hs & Hs0 & Hsz & Hsb) & Hq).
    destruct (Subscribe_spec c w topic s qos ps ns) as (res & c' & w' & -> & Hok & _); try done. eauto.
  - destruct He as (s & Hs & Hs0 & Hsz & Hsb).
    destruct (UnSubscribe_spec c w topic s ps ns) as (res & c' & w' & -> & Hok & _); try done. eauto.
Qed.

Lemma do_calls_safe es : forall c w, client_ok c -> Forall call_ok es -> broker_ok es c w ->
  exists c' w', do_calls es c w = Some (c', w') /\ client_ok c'.
Proof.
  induction es as [|e es IH]; intros c w Hc Hes Hb; cbn [do_calls]; [eauto|].
  apply Forall_cons_1 in Hes as [He Hes]. destruct Hb as [Hb1 Hb].
  destruct (do_call_safe e c w Hc He Hb1) as (c' & w' & E & Hok). rewrite E. apply IH; auto.
Qed.

(** *** The timer's decisions *)

Lemma finish_timer c w : client_ok c ->
  client_ok (if c_sendTimeout c >? 0 then set_sendTimeout (u32 (c_sendTimeout c - 1)) c else c) /\
  c_connState (if c_sendTimeout c >? 0 then set_sendTimeout (u32 (c_sendTimeout c - 1)) c else c) =
    c_connState c /\ net_sent (dvc_yield w) = net_sent w.
Proof.
  intros Hc. split; [destruct (_ >? 0); auto|]. split; [by destruct (_ >? 0)|apply net_yield].
Qed.

(** A network on which nothing arrives: [quiet] holds while the client asks for its
    connection and for input and lets time pass, and there is no input. *)
Record quiet_net (quiet : W -> Prop) : Prop := {
  qn_connected w : quiet w -> quiet (io_connected w).2;
  qn_available w : quiet w -> (io_available w).1 < 1 /\ quiet (io_available w).2;
  qn_wait n w : quiet w -> quiet (dvc_wait n w);
  qn_yield w : quiet w -> quiet (dvc_yield w);
}.

(** Reading then gives nothing. *)
Lemma quiet_recv quiet c w : quiet_net quiet -> quiet w -> client_ok c -> m_client c = true ->
  exists b' w', quiet w' /\ zlen b' = MQTT_BUF_SIZE /\ bytes_ok b' /\
    mqtt_client_recv c w = Some (if decide (c_connState c = MQTT_PING_SENT) then set_connState MQTT_DATA (set_in_buffer (Some b') c)
      else set_in_buffer (Some b') c, w').
Proof.
  intros Hq Hw Hc Hm. unfold mqtt_client_recv. destruct (ck_in _ Hc) as (b & Eb & Hz & Hb).
  rewrite Eb, (ck_in_len _ Hc), Hm. change (u16 MQTT_BUF_SIZE) with MQTT_BUF_SIZE. unfold readFullPacket.
  rewrite mfill_0 by (unfold MQTT_BUF_SIZE in *; lia). rewrite drop_ge, app_nil_r by (unfold zlen in Hz; lia). cbn [mbind option_bind].
  destruct (qn_available _ Hq w Hw) as [Ha Hw1]. destruct (io_available w) as [n w1]. cbn [fst snd] in *. destruct (Z.ltb_spec n 1); [|lia].
  exists (replicate (Z.to_nat MQTT_BUF_SIZE) 0), (dvc_wait 0 w1). split; [by apply Hq|]. split; [done|]. split; [by apply Forall_replicate|].
  change (Nat.iter (Z.to_nat 0) (dvc_wait 0) w1) with w1. cbn [Z.ltb Z.gtb andb Z.eqb Z.compare]. cbv zeta.
  change (c_connState (set_in_buffer _ c)) with (c_connState c). destruct (connState (m_mqttClient c)); done.
Qed.

(** A client that waits for an answer, with [k] ticks counted. *)
Record awaiting (st : tConnState) (k : Z) (c : MQTTClient) : Prop := {
  aw_ok : client_ok c;
  aw_client : m_client c = true;
  aw_timeout : m_timeoutCb c = None;
  aw_closed : m_disconnectedCb c = Some mqttDisconnectedCb;
  aw_state : c_connState c = st;
  aw_ticks : c_readTimeout c = k;
}.

Definition answered_states : list tConnState := [MQTT_CONNECT_SENT; MQTT_DISCONNECT_SENT; MQTT_DATA_SENT].

Lemma awaiting_finish st k c : awaiting st k c -> awaiting st k (if c_sendTimeout c >? 0 then set_sendTimeout (u32 (c_sendTimeout c - 1)) c else c).
Proof. intros []. destruct (_ >? 0); split; auto. Qed.

Lemma quiet_tick quiet st k c w : quiet_net quiet -> quiet w -> st ∈ answered_states -> 0 <= k < MQTT_READ_TIMEOUT -> awaiting st k c ->
  exists c' w', mqtt_timer c w = Some (c', w') /\ quiet w' /\ awaiting st (k + 1) c'.
Proof.
  intros Hq Hw Hst Hk [Hc Hm Ht Hd Hs Hr]. unfold mqtt_timer. rewrite Hm. cbn [isConnected].
  pose proof (qn_connected _ Hq w Hw) as Hw1. destruct (io_connected w) as [con w1]. cbn [snd] in Hw1.
  set (c1 := set_readTimeout (u32 (c_readTimeout c + 1)) c). assert (client_ok c1) as Hc1 by (unfold c1; auto).
  assert (c_readTimeout c1 = k + 1) as Hr1 by (unfold c1; cbn; rewrite Hr, u32_small; unfold MQTT_READ_TIMEOUT in *; lia).
  assert (timer_step c w1 = MQTT_Task c1 w1) as ->.
  { unfold timer_step. unfold answered_states in Hst. rewrite !elem_of_cons, elem_of_nil in Hst. rewrite Hs.
    destruct Hst as [-> |[-> |[-> |[]]]]; fold c1; rewrite Hr1; (destruct (Z.gtb_spec (k + 1) MQTT_READ_TIMEOUT); [lia|done]). }
  assert (MQTT_Task c1 w1 = ('(c, w) <- mqtt_client_recv c1 w1;; Some (c, dvc_yield w))) as ->.
  { unfold MQTT_Task. cbn [task_at]. change (connState (m_mqttClient c1)) with (c_connState c). rewrite Hs. unfold answered_states in Hst. rewrite !elem_of_cons, elem_of_nil in Hst.
    by destruct Hst as [-> |[-> |[-> |[]]]]. }
  destruct (quiet_recv quiet c1 w1 Hq Hw1 Hc1 Hm) as (b & w2 & Hw2 & Hz & Hb & ->). cbn [mbind option_bind].
  change (c_connState c1) with (c_connState c). rewrite decide_False.
  2:{ intros E. rewrite E in Hs. subst st. unfold answered_states in Hst. rewrite !elem_of_cons, elem_of_nil in Hst. by destruct Hst as [?|[?|[?|[]]]]. }
  eexists _, _. split; [done|]. split; [apply Hq, Hq, Hw2|]. apply awaiting_finish. split; try done. by apply ok_in_buffer.
Qed.

Lemma quiet_ticks quiet st c w n : quiet_net quiet -> quiet w -> st ∈ answered_states -> awaiting st 0 c -> (n <= Z.to_nat MQTT_READ_TIMEOUT)%nat ->
  exists c' w', do_calls (replicate n CallTimer) c w = Some (c', w') /\ quiet w' /\ awaiting st (Z.of_nat n) c'.
Proof.
  intros Hq Hw Hst Ha. change 0 with (Z.of_nat 0) in Ha. change (Z.of_nat n) with (Z.of_nat (0 + n)).
  replace (n <= Z.to_nat MQTT_READ_TIMEOUT)%nat with (0 + n <= Z.to_nat MQTT_READ_TIMEOUT)%nat by done. revert c w Hw Ha. generalize 0%nat as j.
  induction n as [|n IH]; intros j c w Hw Ha Hj; cbn [replicate do_calls]; [rewrite Nat.add_0_r; eauto|]. cbn [do_call].
  destruct (quiet_tick quiet st (Z.of_nat j) c w Hq Hw Hst ltac:(unfold MQTT_READ_TIMEOUT in *; lia) Ha) as (c1 & w1 & -> & Hw1 & Ha1). cbn [mbind option_bind].
  replace (Z.of_nat j + 1) with (Z.of_nat (S j)) in Ha1 by lia. destruct (IH (S j) c1 w1 Hw1 Ha1 ltac:(lia)) as (c' & w' & E & Hw' & Ha').
  exists c', w'. split; [done|]. split; [done|]. by replace (j + S n)%nat with (S j + n)%nat by lia.
Qed.

(** The tick that finds the limit passed. *)
Lemma timeout_tick st c w : st ∈ answered_states -> awaiting st MQTT_READ_TIMEOUT c ->
  exists c' w', mqtt_timer c w = Some (c', w') /\ client_ok c' /\
    let '(_, c3, w3) := disconnectServer (set_connState MQTT_HOST_RECONNECT_REQ (set_readTimeout 0 (set_readTimeout (MQTT_READ_TIMEOUT + 1) c))) (isConnected true w).2 in
    exists c4 w4, Connect c3 w3 = Some (c4, w4) /\ w' = dvc_yield (dvc_yield w4) /\ c_connState c' = c_connState c4.
Proof.
  intros Hst [Hc Hm Ht Hd Hs Hr]. unfold mqtt_timer. rewrite Hm. destruct (isConnected true w) as [? w1]. cbn [snd].
  set (c1 := set_connState MQTT_HOST_RECONNECT_REQ (set_readTimeout 0 (set_readTimeout (MQTT_READ_TIMEOUT + 1) c))).
  assert (client_ok c1) as Hc1 by (unfold c1; auto).
  assert (timer_step c w1 = MQTT_Task c1 w1) as ->.
  { unfold timer_step. unfold answered_states in Hst. rewrite !elem_of_cons, elem_of_nil in Hst. rewrite Hs.
    destruct Hst as [-> |[-> |[-> |[]]]]; rewrite Hr; change (u32 (MQTT_READ_TIMEOUT + 1)) with (MQTT_READ_TIMEOUT + 1);
      cbn [readTimeout m_mqttClient set_readTimeout set_m_mqttClient]; change (MQTT_READ_TIMEOUT + 1 >? MQTT_READ_TIMEOUT) with true; cbv iota; fold c1; cbn [run_cb]; change (m_timeoutCb c1) with (m_timeoutCb c); rewrite Ht; done. }
  pose proof (disconnectServer_ok c1 w1 Hc1) as Hd'.
  change (MQTT_Task c1 w1) with ('(c, w) <- (let '(_, c, w) := disconnectServer c1 w1 in connect_with (task_at 0) c w);; Some (c, dvc_yield w)).
  destruct (disconnectServer c1 w1) as [[? c3] w3]. cbn [fst snd] in Hd'. destruct (Connect_safe c3 w3 Hd') as (c4 & w4 & E & Hok).
  assert (connect_with (task_at 0) c3 w3 = Connect c3 w3) as ->.
  { unfold Connect, connect_with. destruct (negb _); [done|]. by destruct (connectToServer _ _ _ _ w3). }
  rewrite E. cbn [mbind option_bind]. destruct (finish_timer c4 (dvc_yield w4) Hok) as (Hok' & Hst' & _).
  eexists _, _. split; [done|]. split; [done|]. exists c4, w4. done.
Qed.

Lemma ping_tick quiet c w : quiet_net quiet -> quiet w -> client_ok c -> m_client c = true -> c_readTimeout c = 0 -> c_connState c = MQTT_PING_SENT ->
  exists c' w', mqtt_timer c w = Some (c', w') /\ client_ok c' /\ c_connState c' = MQTT_DATA.
Proof.
  intros Hq Hw Hc Hm Hr Hs. unfold mqtt_timer. rewrite Hm. cbn [isConnected].
  pose proof (qn_connected _ Hq w Hw) as Hw1. destruct (io_connected w) as [con w1]. cbn [snd] in Hw1.
  unfold timer_step. rewrite Hs, Hr. change (u32 (0 + 1)) with 1. cbn [readTimeout m_mqttClient set_readTimeout set_m_mqttClient].
  change (1 >? MQTT_READ_TIMEOUT) with false. cbv iota. set (c1 := set_readTimeout 1 c). assert (client_ok c1) as Hc1 by (unfold c1; auto).
  unfold MQTT_Task. cbn [task_at]. change (connState (m_mqttClient c1)) with (c_connState c). rewrite Hs. cbv iota.
  destruct (quiet_recv quiet c1 w1 Hq Hw1 Hc1 Hm) as (b & w2 & Hw2 & Hz & Hb & ->). cbn [mbind option_bind].
  change (c_connState c1) with (c_connState c). rewrite decide_True by done. set (c2 := set_connState MQTT_DATA _). assert (client_ok c2) as Hc2 by (unfold c2; auto).
  destruct (finish_timer c2 (dvc_yield w2) Hc2) as (Hok' & Hst' & _). eexists _, _. split; [done|]. split; [done|]. by rewrite Hst'.
Qed.

(** *** Properties *)


(** the CONNECT step returns.  It hands the interface the CONNECT packet of the
    connection data - nothing at all when the packet exceeds the buffer.  If the
    interface is connected and takes all of it, the client waits for the answer;
    else the client has failed and closed. *)
Theorem mqtt_connect_step c w cid wt wm us pw :
  client_ok c -> info_has (c_connect_info c) cid wt wm us pw ->
  let body := connect_body (c_connect_info c) cid wt wm us pw in
  let p := if 3 + zlen body <=? MQTT_BUF_SIZE then packet MQTT_MSG_TYPE_CONNECT 0 0 body else [] in
  exists c' w' k, mqtt_client_connect c w = Some (c', w') /\ client_ok c' /\
    0 <= k <= zlen p /\ net_sent w' = net_sent w ++ take (Z.to_nat k) p /\
    if bool_decide (k = zlen p) && (isConnected (m_client c) w).1
    then c_connState c' = MQTT_CONNECT_SENT
    else m_disconnectedCb c = Some mqttDisconnectedCb -> c_connState c' = MQTT_CONNECT_FAILED.
Proof.
  intros Hc Hi. destruct (mqtt_client_connect_spec c w _ _ _ _ _ Hc Hi) as (c' & w' & E & Hok & k & He).
  by exists c', w', k.
Qed.

(** C25: with packets queued, the task in state [MQTT_DATA] takes the oldest one
    out, waits once for each of its bytes and hands it to the interface.  If the interface
    is connected then and reports all of it as taken, the client waits for an answer
    unless the packet is a PUBLISH without acknowledgement; else it closes, and the
    packet is lost. *)
Theorem mqtt_task_sends_oldest c w p ps :
  client_ok c -> c_connState c = MQTT_DATA ->
  represents (c_msgQueue c) (p :: ps) -> Forall bytes_ok (p :: ps) ->
  1 <= zlen p <= MQTT_BUF_SIZE -> m_disconnectedCb c = Some mqttDisconnectedCb ->
  exists t q c' w', mqtt_get_type p = Some t /\ mqtt_get_qos p = Some q /\
    MQTT_Task c w = Some (c', w') /\ client_ok c' /\ represents (c_msgQueue c') ps /\
    exists k, 0 <= k <= zlen p /\ net_sent w' = net_sent w ++ take (Z.to_nat k) p /\
      c_connState c' =
        if bool_decide (k = zlen p) && (isConnected (m_client c) (waits (zlen p) w)).1 then
          if (t =? MQTT_MSG_TYPE_PUBLISH) && (q =? 0) then MQTT_DATA else MQTT_DATA_SENT
        else MQTT_DATA_FAILED.
Proof.
  intros Hc Hs Hq Hb Hp Hcb'.
  destruct (task_data_sends c w p ps Hc Hq Hb) as (rest & t & q & c' & w' & Et & Eq & E & Hok & Hq' & Hend).
  rewrite Z.min_l, take_all in * by (done || lia).
  exists t, q, c', (dvc_yield w'). split; [|split].
  - unfold mqtt_get_type in *. by rewrite mget_app_l in Et by lia.
  - unfold mqtt_get_qos in *. by rewrite mget_app_l in Eq by lia.
  - unfold MQTT_Task. cbn [task_at]. rewrite Hs, E. split; [done|]. split; [done|].
    split; [auto|]. destruct Hend as (k & Hk & Hsent & Hend). exists k. rewrite (proj1 (net_yield w')).
    rewrite waits_sent in Hsent. split; [done|]. split; [done|]. destruct (_ && (isConnected _ _).1); auto.
Qed.

(** in state [MQTT_DATA] the tick that takes the idle counter past 85% of the
    keep-alive time hands the interface a PINGREQ; if the interface is connected and
    takes it, the client waits for the answer, else it closes. *)
Theorem mqtt_timer_keepalive c w :
  client_ok c -> c_connState c = MQTT_DATA -> 0 <= c_keepAliveTick c < 4294967295 ->
  17 * keepalive (c_connect_info c) / 20 <= c_keepAliveTick c ->
  m_disconnectedCb c = Some mqttDisconnectedCb ->
  exists c' w' k, mqtt_timer c w = Some (c', w') /\ client_ok c' /\
    0 <= k <= 2 /\ net_sent w' = net_sent w ++ take (Z.to_nat k) [0xC0; 0] /\
    c_connState c' =
      if bool_decide (k = 2) && (isConnected (m_client c) (isConnected (m_client c) w).2).1
      then MQTT_PING_SENT else MQTT_PING_FAILED.
Proof.
  intros Hc Hs Ht Hk Hcb'. unfold mqtt_timer.
  assert (net_sent (isConnected (m_client c) w).2 = net_sent w) as Hn
    by (destruct (m_client c); [apply net_connected|done]).
  destruct (isConnected (m_client c) w) as [? w1]. simpl in Hn. unfold timer_step. rewrite Hs.
  cbn [connect_info_ptr mqtt_state m_mqttClient set_keepAliveTick set_m_mqttClient keepAliveTick connect_info].
  rewrite (ck_info_ptr _ Hc), u32_small by lia. simpl negb. cbv iota. unfold keepalive_limit.
  destruct (Z.gtb_spec (c_keepAliveTick c + 1) (17 * keepalive (c_connect_info c) / 20)); [|lia].
  set (c1 := set_connState MQTT_KEEPALIVE_REQ _). assert (client_ok c1) as Hc1 by (unfold c1; auto).
  destruct (mqtt_send_keepalive_spec c1 w1 Hc1) as (c' & w' & E & Hok & He).
  unfold MQTT_Task. cbn [task_at]. change (connState (m_mqttClient c1)) with MQTT_KEEPALIVE_REQ.
  rewrite E. destruct (finish_timer c' (dvc_yield w') Hok) as (Hok' & Hst' & Hy).
  destruct He as (k & Hk' & Hsent & He). eexists _, _, k. split; [done|]. split; [done|].
  rewrite Hst', Hy, (proj1 (net_yield w')), <- Hn. split; [done|]. split; [done|].
  change (m_client c1) with (m_client c) in He. change (zlen [0xC0; 0]) with 2 in He. cbn [snd].
  destruct (_ && _); auto.
Qed.


End session.

(** [Publish] of a topic and a payload whose first byte is not zero returns; not
    connected, or when the packet exceeds the buffer, it answers false and leaves
    the queue alone.  Otherwise the PUBLISH packet is at the end of the queue, behind
    what is left of the older packets - all of them when there was room - or the answer
    is false and the queue has been emptied. *)
Theorem mqtt_publish_queues c w tm t dm d q r ps :
  client_ok c -> field tm t -> t <> [] -> 0 <= q <= 2 -> hd 0 d <> 0 ->
  zlen d < 1073741824 -> bytes_ok t -> bytes_ok d ->
  represents (c_msgQueue c) ps -> Forall bytes_ok ps ->
  let body := publish_body t d q (next_id 0 (message_id (c_mqtt_connection c))) in
  let p := packet MQTT_MSG_TYPE_PUBLISH q r body in
  exists res c' w', Publish tm (Some (d ++ dm)) (zlen d) q r c w = Some (res, c', w') /\
    client_ok c' /\
    if (isConnected (m_client c) w).1 && (3 + zlen body <=? MQTT_BUF_SIZE) then
      if res then
        exists k, (k <= length ps)%nat /\ represents (c_msgQueue c') (drop k ps ++ [p]) /\
          (zlen (frame p) <= room (c_msgQueue c) -> k = 0%nat)
      else room (c_msgQueue c) < zlen (frame p) /\ rb_bytes (rb (c_msgQueue c')) = []
    else res = false /\ c_msgQueue c' = c_msgQueue c.
Proof. intros. by apply Publish_spec. Qed.

(** the subscribed topics are a set of names: [Subscribe] that succeeds adds its
    topic, [UnSubscribe] that succeeds removes it, a failure of either leaves the
    set alone, and [is_topic_subscribed] is membership. *)
Theorem mqtt_subscription_set c w tm t qos ns :
  client_ok c -> cstring tm t -> t <> [] -> zlen t < 65536 -> 0 <= qos < 256 -> bytes_ok t ->
  topics_are (c_subscribed_topics c) ns -> NoDup ns ->
  is_topic_subscribed c tm = Some (bool_decide (t ∈ ns)) /\
  (exists res c' w' ns', Subscribe tm qos c w = Some (res, c', w') /\ client_ok c' /\
     topics_are (c_subscribed_topics c') ns' /\ NoDup ns' /\
     forall x, x ∈ ns' <-> x ∈ ns \/ (res = true /\ x = t)) /\
  (exists res c' w' ns', UnSubscribe tm c w = Some (res, c', w') /\ client_ok c' /\
     topics_are (c_subscribed_topics c') ns' /\ NoDup ns' /\
     forall x, x ∈ ns' <-> x ∈ ns /\ (res = true -> x <> t)).
Proof.
  intros Hc Ht Ht0 Hz Hq Hb Hts Hnd. destruct (ck_queue _ Hc) as (ps & Hps & Bps).
  split; [by apply topic_in_spec|]. split.
  - destruct (Subscribe_spec c w tm t qos ps ns) as (res & c' & w' & E & Hok & Hts' & _); try done.
    eexists res, c', w', _. split; [done|]. split; [done|]. split; [exact Hts'|].
    by apply add_name_spec.
  - destruct (UnSubscribe_spec c w tm t ps ns) as (res & c' & w' & E & Hok & Hts' & _); try done.
    eexists res, c', w', _. split; [done|]. split; [done|]. split; [exact Hts'|].
    by apply sub_name_spec.
Qed.

(** a PUBLISH of two bytes after its header, which the client reads like any
    other packet, is undefined behaviour: [mqtt_get_publish_topic] returns a null
    pointer and leaves the length at that of the packet, and [mqttDataCb] copies that
    many bytes from it. *)
Theorem mqtt_topicless_publish_undefined c tail :
  readable ([0x30; 2; 0; 0] ++ tail) 4 /\ length_field_ok ([0x30; 2; 0; 0] ++ tail) /\
  mqtt_get_publish_topic (Some ([0x30; 2; 0; 0] ++ tail)) 4 = Some (None, 4) /\
  deliver_publish c ([0x30; 2; 0; 0] ++ tail) 4 = None.
Proof.
  split; [by apply (readable_app [0x30; 2; 0; 0]); repeat constructor|].
  split; [by exists 1, 2|]. split; [done|]. unfold deliver_publish. simpl. by destruct (m_dataCb c).
Qed.

End client.
(** *** Instances *)

Definition keep_cb (k : nat) (c : MQTTClient) : MQTTClient := c.
Definition keep_data (k : nat) (t d : list Z) (c : MQTTClient) : MQTTClient := c.
Definition zeros (n : Z) : list Z := replicate (Z.to_nat n) 0.
Definition stack0 : PROTO_PARSER := mkPARSER [] 0 0 0 0 false.

(** A client with the identifier "id" and a keep-alive time of 60 s, in state [st]. *)
Definition info0 : mqtt_connect_info_t :=
  mkInfo (Some [105; 100; 0]) None None None None 60 0 0 1.

Definition client0 (st : tConnState) : MQTTClient :=
  mkMQTTClient
    (mkClient (mkState true (Some dataBuffer0) true MQTT_BUF_SIZE MQTT_BUF_SIZE 0 0 false
       (mkConnection (mkMessage None 0) 0 (Some dataBuffer0) MQTT_BUF_SIZE) 0 0)
       info0 60 0 MQTT_READ_TIMEOUT st (QUEUE_Init zero_queue (zeros 1536) 1536) 0 [] true)
    None 0 0 true None (Some mqttDisconnectedCb) None None None None None false.

Lemma info0_has : info_has info0 [105; 100] [] [] [] [].
Proof.
  unfold info_has, will_ok, field. simpl. split_and!; try done; try lia; try (by repeat constructor).
  split; [by repeat constructor|by exists []].
Qed.

Lemma client0_queue : represents (QUEUE_Init zero_queue (zeros 1536) 1536) [].
Proof. apply Init_represents; [lia|done]. Qed.

Lemma client0_ok st : client_ok (client0 st).
Proof.
  split; try done; simpl.
  - split; simpl; [by eexists|unfold MQTT_BUF_SIZE; lia|lia].
  - eexists. split; [done|]. split; [done|]. by apply Forall_replicate.
  - exists [105; 100], [], [], [], []. exact info0_has.
  - exists []. split; [exact client0_queue|constructor].
  - exists []. split; constructor.
Qed.

Lemma sim_spin : net_rate (W := SimNet) * 2002 <= Z.of_nat 2002.
Proof. vm_compute. discriminate. Qed.

Lemma mqtt_connect_step_witness :
  exists c' w', mqtt_client_connect 2002 keep_cb (client0 MQTT_HOST_CONNECTING) (sim0 []) = Some (c', w') /\
    client_ok c'.
Proof.
  destruct (mqtt_connect_step 2002 keep_cb (fun _ _ H => H) sim_spin
    (client0 MQTT_HOST_CONNECTING) (sim0 []) [105; 100] [] [] [] [] (client0_ok _) info0_has)
    as (c' & w' & k & E & Hok & _). exists c', w'. split; [exact E|exact Hok].
Defined.

Lemma mqtt_task_sends_oldest_witness :
  exists c t q c' w', represents (c_msgQueue c) [[0x30; 3; 0; 1; 97]] /\
    mqtt_get_type [0x30; 3; 0; 1; 97] = Some t /\ mqtt_get_qos [0x30; 3; 0; 1; 97] = Some q /\
    MQTT_Task 2002 stack0 0 keep_cb keep_data c (sim0 []) = Some (c', w') /\
    represents (c_msgQueue c') [].
Proof.
  assert (Forall bytes_ok [[0x30; 3; 0; 1; 97]]) as Hb by (repeat constructor; done).
  destruct (queue_put_spec (client0 MQTT_DATA) [0x30; 3; 0; 1; 97] [] [] (client0_ok _) client0_queue)
    as (q & _ & Hok & _ & Hr); [constructor|by repeat constructor|].
  change (zlen (frame [0x30; 3; 0; 1; 97]) <=? room (c_msgQueue (client0 MQTT_DATA))) with true in Hr.
  destruct (mqtt_task_sends_oldest 2002 stack0 0 keep_cb keep_data (fun _ _ H => H) sim_spin
    (set_msgQueue q (client0 MQTT_DATA)) (sim0 []) [0x30; 3; 0; 1; 97] [] Hok eq_refl Hr Hb
    ltac:(unfold zlen, MQTT_BUF_SIZE; simpl; lia) eq_refl) as (t & qos & c' & w' & E1 & E2 & E3 & _ & Hq & _).
  exists (set_msgQueue q (client0 MQTT_DATA)), t, qos, c', w'. split; [exact Hr|]. split; [exact E1|]. split; [exact E2|].
  split; [exact E3|exact Hq].
Defined.

Lemma mqtt_timer_keepalive_witness :
  exists c' w', mqtt_timer 2002 stack0 0 keep_cb keep_data (client0 MQTT_DATA) (sim0 []) = Some (c', w') /\
    (c_connState c' = MQTT_PING_SENT \/ c_connState c' = MQTT_PING_FAILED).
Proof.
  destruct (mqtt_timer_keepalive 2002 stack0 0 keep_cb keep_data (fun _ _ H => H) sim_spin
    (client0 MQTT_DATA) (sim0 []) (client0_ok _) eq_refl ltac:(simpl; lia)
    ltac:(vm_compute; discriminate) eq_refl) as (c' & w' & k & E & _ & _ & _ & Hs).
  exists c', w'. split; [exact E|]. rewrite Hs. destruct (_ && _); [left|right]; reflexivity.
Defined.

Definition no_input (w : SimNet) : Prop := sim_in w = [].

Lemma no_input_quiet : quiet_net no_input.
Proof. split; unfold no_input; try done. intros w E. simpl. rewrite E. done. Qed.


Lemma client0_room st : room (c_msgQueue (client0 st)) = 1536.
Proof. apply (Init_represents zero_queue (zeros 1536) 1536); [lia|done]. Qed.

Lemma mqtt_publish_queues_witness :
  exists res c' w', Publish stack0 0 (Some [97; 0]) (Some ([1; 2] ++ [])) 2 1 0 (client0 MQTT_DATA)
      (sim0 []) = Some (res, c', w') /\
    represents (c_msgQueue c') [packet MQTT_MSG_TYPE_PUBLISH 1 0 (publish_body [97] [1; 2] 1 1)].
Proof.
  assert (field (Some [97; 0]) [97]) as Ht.
  { split; [|done]. split; [by repeat constructor|by exists []]. }
  assert (bytes_ok [97]) as Hb1 by (by repeat constructor).
  assert (bytes_ok [1; 2]) as Hb2 by (by repeat constructor).
  destruct (mqtt_publish_queues stack0 0 (client0 MQTT_DATA) (sim0 []) (Some [97; 0]) [97] [] [1; 2] 1 0 []
    (client0_ok _) Ht ltac:(discriminate) ltac:(lia) ltac:(discriminate) eq_refl Hb1 Hb2 client0_queue
    (Forall_nil_2 _)) as (res & c' & w' & E & _ & Hr).
  exists res, c', w'. split; [exact E|]. rewrite client0_room in Hr.
  change (next_id 0 (message_id (c_mqtt_connection (client0 MQTT_DATA)))) with 1 in Hr.
  change (isConnected (m_client (client0 MQTT_DATA)) (sim0 [])) with (true, sim0 []) in Hr.
  set (p := packet _ _ _ _) in *. assert (zlen (frame p) <= 1536) by (vm_compute; discriminate).
  destruct (Z.leb_spec (3 + zlen (publish_body [97] [1; 2] 1 1)) MQTT_BUF_SIZE) as [_|Hl];
    [|vm_compute in Hl; discriminate Hl].
  cbn [fst andb] in Hr. destruct res; [|lia]. destruct Hr as (k & Hk & Hr & H0).
  rewrite (H0 ltac:(lia)) in Hr. exact Hr.
Defined.

Lemma mqtt_subscription_set_witness :
  is_topic_subscribed (client0 MQTT_DATA) [97; 0] = Some false /\
  exists res c' w' ns, Subscribe stack0 0 [97; 0] 1 (client0 MQTT_DATA) (sim0 []) = Some (res, c', w') /\
    topics_are (c_subscribed_topics c') ns /\ forall x, x ∈ ns <-> x ∈ [] \/ (res = true /\ x = [97]).
Proof.
  assert (cstring [97; 0] [97]) as Ht by (split; [by repeat constructor|by exists []]).
  assert (bytes_ok [97]) as Hb by (by repeat constructor).
  destruct (mqtt_subscription_set stack0 0 (client0 MQTT_DATA) (sim0 []) [97; 0] [97] 1 []
    (client0_ok _) Ht ltac:(discriminate) eq_refl ltac:(lia) Hb (Forall2_nil_2 _ _ _) (NoDup_nil_2))
    as (E & (res & c' & w' & ns' & E' & _ & Hts & _ & Hin) & _).
  split; [exact E|]. exists res, c', w', ns'. split; [exact E'|]. split; [exact Hts|exact Hin].
Defined.

(** What is read does not depend on what the buffer held. *)
Lemma readFullPacket_cleared {W} `{Net W} client b t (w : W) : zlen b = MQTT_BUF_SIZE ->
  readFullPacket client b MQTT_BUF_SIZE t w = readFullPacket client (replicate (Z.to_nat MQTT_BUF_SIZE) 0) MQTT_BUF_SIZE t w.
Proof.
  intros Hz. unfold readFullPacket. rewrite !mfill_0 by (unfold MQTT_BUF_SIZE in *; lia || done).
  rewrite drop_ge by (unfold zlen in Hz; lia). by rewrite (drop_ge (replicate _ 0)) by done.
Qed.

(** The demands on the broker, computed. *)
Definition topic_inside (b : list Z) (n : Z) : bool :=
  match mqtt_get_type b with
  | Some t => if t =? MQTT_MSG_TYPE_PUBLISH then match mqtt_get_publish_topic (Some b) n with Some (Some _, _) => true | _ => false end else true
  | None => true
  end.

Definition read_inside (client : bool) (w : SimNet) : bool :=
  match readFullPacket client (replicate (Z.to_nat MQTT_BUF_SIZE) 0) MQTT_BUF_SIZE (MQTT_READ_TIMEOUT * 20) w with
  | Some (n, b, _) => negb ((0 <? n) && (n <? MQTT_BUF_SIZE)) || topic_inside b n
  | None => true
  end.

Lemma read_inside_sane w : read_inside true w = true -> read_inside false w = true -> sane_read w.
Proof.
  intros Ht Hf client b n b' w' Hz E Hn Hp. rewrite readFullPacket_cleared in E by done.
  assert (read_inside client w = true) as Hr by (by destruct client). unfold read_inside in Hr. rewrite E in Hr.
  replace (0 <? n) with true in Hr by lia. replace (n <? MQTT_BUF_SIZE) with true in Hr by lia. cbn [andb negb orb] in Hr.
  unfold topic_inside in Hr. rewrite Hp in Hr. change (MQTT_MSG_TYPE_PUBLISH =? MQTT_MSG_TYPE_PUBLISH) with true in Hr. cbv iota in Hr.
  destruct (mqtt_get_publish_topic _ _) as [[[off|] k]|]; [by exists off, k|done..].
Qed.

Section checked.
Variable step : client_call -> MQTTClient -> SimNet -> option (MQTTClient * SimNet).

Fixpoint broker_inside (es : list client_call) (c : MQTTClient) (w : SimNet) : bool :=
  match es with
  | [] => true
  | e :: es =>
      (let w1 := (isConnected (m_client c) w).2 in read_inside true w1 && read_inside false w1) &&
      match step e c w with Some (c, w) => broker_inside es c w | None => true end
  end.
End checked.

Lemma broker_inside_ok es : forall c w, broker_inside (do_call 2002 stack0 0 keep_cb keep_data) es c w = true -> broker_ok 2002 stack0 0 keep_cb keep_data es c w.
Proof.
  induction es as [|e es IH]; intros c w Hb; cbn [broker_inside broker_ok] in *; [done|]. apply andb_true_iff in Hb as [Hr Hb]. apply andb_true_iff in Hr as [Ht Hf]. split.
  - intros _ _. by apply read_inside_sane.
  - intros c' w' E. rewrite E in Hb. by apply IH.
Qed.

(** Tables with the host "broker", the identifier "id" and the will "t". *)
Definition general0 : mqtt_general_configs :=
  mkGeneral [98; 114; 111; 107; 101; 114; 0] 1883 0 [105; 100; 0] [0] [0] 60 1.
Definition lwt0 : mqtt_lwt_configs := mkLwt [116; 0] [98; 121; 101; 0] 1 0.

Lemma tables0_ok : tables_ok general0 lwt0 [98; 114; 111; 107; 101; 114] [105; 100] [] [] [116]
  [98; 121; 101].
Proof.
  split; try done; try (split; [by repeat constructor|by exists []]); by repeat constructor.
Qed.

(** The broker answers the CONNECT and publishes [1; 2] under the topic "a". *)
Definition broker_bytes : list Z := [0x20; 2; 0; 0] ++ [0x30; 5; 0; 1; 97; 1; 2].

Definition history0 : list client_call :=
  [CallTimer; CallTimer; CallSubscribe [97; 0] 1; CallPublish [97; 0] [1; 2] 2 1 0; CallTimer; CallUnSubscribe [97; 0]; CallDisconnect].


End MqttClient.
