(* ===== verification/Scheduler.v ===== *)
(** The cooperative task scheduler, [src/utility/TaskScheduler.h] and
    [TaskScheduler.cpp], with [task_t] of [DataTypeDef.h]: registration, priorities
    and scores, one round of [handle_tasks], signals and the removal of expired
    tasks.

    A task's callback is an arbitrary function on the scheduler and the device,
    given as a variable of the section; so is the device's clock.  The reference
    [handle_tasks] keeps to its task across the callback is the task's index; it
    is undefined behaviour, [None], when the callback has removed the task or has
    made the vector move.  [floor(log2(x + 1))] is exact here; in double precision
    it is exact for [x] under 2 to the 47. *)
From S2P Require Import Prelude.
From stdpp Require Import base option list numbers sets.
From Stdlib Require Import ZArith Lia Sorted.
#[local] Set Warnings "-clear-no-such-hyp".

Open Scope Z_scope.

Module Scheduler.

(** [TaskPolicy] *)
Inductive TaskPolicy :=
| TASK_POLICY_FIFO
| TASK_POLICY_ROUNDROBIN
| TASK_POLICY_DEADLINE
| TASK_POLICY_FAIRSHARE.

(** [TaskState] *)
Inductive TaskState :=
| TASK_STATE_READY
| TASK_STATE_RUNNING
| TASK_STATE_SLEEPING
| TASK_STATE_STOPPED
| TASK_STATE_ZOMBIE.

#[global] Instance TaskState_eq_dec : EqDecision TaskState.
Proof. solve_decision. Defined.

Definition TASK_MODE_INLINE : Z := 0.

(** [Signal] *)
Definition SIG_NONE : Z := 0.
Definition SIG_KILL : Z := 9.
Definition SIG_TERM : Z := 15.
Definition SIG_CONT : Z := 18.
Definition SIG_STOP : Z := 19.

(** [task_t]; a callback is the number of a function. *)
Record task_t := mkTask {
  m_task_id : Z;
  m_max_attempts : Z;
  m_duration : Z;
  m_last_millis : Z;
  m_task : option nat;
  m_task_priority : Z;
  m_task_exec_us : Z;
  m_task_mode : Z;
  m_task_policy : TaskPolicy;
  m_name : option (list Z);
  m_owner : Z;
  m_state : TaskState;
  m_nice : Z;
  m_created_ms : Z;
  m_run_count : Z;
  m_total_exec_us : Z;
  m_pending_sig : Z;
}.

(** Field updates. *)
Definition set_m_max_attempts (v : Z) (t : task_t) : task_t :=
  mkTask (m_task_id t) v (m_duration t) (m_last_millis t) (m_task t) (m_task_priority t)
    (m_task_exec_us t) (m_task_mode t) (m_task_policy t) (m_name t) (m_owner t) (m_state t)
    (m_nice t) (m_created_ms t) (m_run_count t) (m_total_exec_us t) (m_pending_sig t).

Definition set_m_duration (v : Z) (t : task_t) : task_t :=
  mkTask (m_task_id t) (m_max_attempts t) v (m_last_millis t) (m_task t) (m_task_priority t)
    (m_task_exec_us t) (m_task_mode t) (m_task_policy t) (m_name t) (m_owner t) (m_state t)
    (m_nice t) (m_created_ms t) (m_run_count t) (m_total_exec_us t) (m_pending_sig t).

Definition set_m_last_millis (v : Z) (t : task_t) : task_t :=
  mkTask (m_task_id t) (m_max_attempts t) (m_duration t) v (m_task t) (m_task_priority t)
    (m_task_exec_us t) (m_task_mode t) (m_task_policy t) (m_name t) (m_owner t) (m_state t)
    (m_nice t) (m_created_ms t) (m_run_count t) (m_total_exec_us t) (m_pending_sig t).

Definition set_m_task (v : option nat) (t : task_t) : task_t :=
  mkTask (m_task_id t) (m_max_attempts t) (m_duration t) (m_last_millis t) v
    (m_task_priority t) (m_task_exec_us t) (m_task_mode t) (m_task_policy t) (m_name t)
    (m_owner t) (m_state t) (m_nice t) (m_created_ms t) (m_run_count t) (m_total_exec_us t)
    (m_pending_sig t).

Definition set_m_task_priority (v : Z) (t : task_t) : task_t :=
  mkTask (m_task_id t) (m_max_attempts t) (m_duration t) (m_last_millis t) (m_task t) v
    (m_task_exec_us t) (m_task_mode t) (m_task_policy t) (m_name t) (m_owner t) (m_state t)
    (m_nice t) (m_created_ms t) (m_run_count t) (m_total_exec_us t) (m_pending_sig t).

Definition set_m_task_exec_us (v : Z) (t : task_t) : task_t :=
  mkTask (m_task_id t) (m_max_attempts t) (m_duration t) (m_last_millis t) (m_task t)
    (m_task_priority t) v (m_task_mode t) (m_task_policy t) (m_name t) (m_owner t) (m_state t)
    (m_nice t) (m_created_ms t) (m_run_count t) (m_total_exec_us t) (m_pending_sig t).

Definition set_m_name (v : option (list Z)) (t : task_t) : task_t :=
  mkTask (m_task_id t) (m_max_attempts t) (m_duration t) (m_last_millis t) (m_task t)
    (m_task_priority t) (m_task_exec_us t) (m_task_mode t) (m_task_policy t) v (m_owner t)
    (m_state t) (m_nice t) (m_created_ms t) (m_run_count t) (m_total_exec_us t)
    (m_pending_sig t).

Definition set_m_owner (v : Z) (t : task_t) : task_t :=
  mkTask (m_task_id t) (m_max_attempts t) (m_duration t) (m_last_millis t) (m_task t)
    (m_task_priority t) (m_task_exec_us t) (m_task_mode t) (m_task_policy t) (m_name t) v
    (m_state t) (m_nice t) (m_created_ms t) (m_run_count t) (m_total_exec_us t)
    (m_pending_sig t).

Definition set_m_state (v : TaskState) (t : task_t) : task_t :=
  mkTask (m_task_id t) (m_max_attempts t) (m_duration t) (m_last_millis t) (m_task t)
    (m_task_priority t) (m_task_exec_us t) (m_task_mode t) (m_task_policy t) (m_name t)
    (m_owner t) v (m_nice t) (m_created_ms t) (m_run_count t) (m_total_exec_us t)
    (m_pending_sig t).

Definition set_m_nice (v : Z) (t : task_t) : task_t :=
  mkTask (m_task_id t) (m_max_attempts t) (m_duration t) (m_last_millis t) (m_task t)
    (m_task_priority t) (m_task_exec_us t) (m_task_mode t) (m_task_policy t) (m_name t)
    (m_owner t) (m_state t) v (m_created_ms t) (m_run_count t) (m_total_exec_us t)
    (m_pending_sig t).

Definition set_m_run_count (v : Z) (t : task_t) : task_t :=
  mkTask (m_task_id t) (m_max_attempts t) (m_duration t) (m_last_millis t) (m_task t)
    (m_task_priority t) (m_task_exec_us t) (m_task_mode t) (m_task_policy t) (m_name t)
    (m_owner t) (m_state t) (m_nice t) (m_created_ms t) v (m_total_exec_us t)
    (m_pending_sig t).

Definition set_m_total_exec_us (v : Z) (t : task_t) : task_t :=
  mkTask (m_task_id t) (m_max_attempts t) (m_duration t) (m_last_millis t) (m_task t)
    (m_task_priority t) (m_task_exec_us t) (m_task_mode t) (m_task_policy t) (m_name t)
    (m_owner t) (m_state t) (m_nice t) (m_created_ms t) (m_run_count t) v (m_pending_sig t).

Definition set_m_pending_sig (v : Z) (t : task_t) : task_t :=
  mkTask (m_task_id t) (m_max_attempts t) (m_duration t) (m_last_millis t) (m_task t)
    (m_task_priority t) (m_task_exec_us t) (m_task_mode t) (m_task_policy t) (m_name t)
    (m_owner t) (m_state t) (m_nice t) (m_created_ms t) (m_run_count t) (m_total_exec_us t) v.

(** [TaskScheduler].  [m_util] is whether the utility interface is set,
    [m_capacity] the room of the vector and [m_moved] how often it has moved. *)
Record TaskScheduler := mkSched {
  m_tasks : list task_t;
  m_util : bool;
  m_max_tasks : Z;
  m_rebase_start_priotask : bool;
  m_capacity : Z;
  m_moved : nat;
}.

Definition set_m_tasks (v : list task_t) (s : TaskScheduler) : TaskScheduler :=
  mkSched v (m_util s) (m_max_tasks s) (m_rebase_start_priotask s) (m_capacity s) (m_moved s).

Definition MAX_SCHEDULABLE_TASKS : Z := 25.

(** The default constructor. *)
Definition TaskScheduler_ctor : TaskScheduler :=
  mkSched [] false MAX_SCHEDULABLE_TASKS false MAX_SCHEDULABLE_TASKS 0.

(** [setMaxTasksLimit] *)
Definition setMaxTasksLimit (maxtasks : Z) (s : TaskScheduler) : TaskScheduler :=
  mkSched (m_tasks s) (m_util s) maxtasks (m_rebase_start_priotask s) (m_capacity s) (m_moved s).

(** [setUtilityInterface] *)
Definition setUtilityInterface (util : bool) (s : TaskScheduler) : TaskScheduler :=
  mkSched (m_tasks s) util (m_max_tasks s) (m_rebase_start_priotask s) (m_capacity s) (m_moved s).

(** [rebaseAndRestartPrioTasks] *)
Definition set_rebase (v : bool) (s : TaskScheduler) : TaskScheduler :=
  mkSched (m_tasks s) (m_util s) (m_max_tasks s) v (m_capacity s) (m_moved s).
Definition rebaseAndRestartPrioTasks : TaskScheduler -> TaskScheduler := set_rebase true.

(** [m_tasks.push_back]: a full vector moves to a bigger block. *)
Definition push_back (t : task_t) (s : TaskScheduler) : TaskScheduler :=
  let full := m_capacity s <=? zlen (m_tasks s) in
  mkSched (m_tasks s ++ [t]) (m_util s) (m_max_tasks s) (m_rebase_start_priotask s)
    (if full then 2 * m_capacity s + 1 else m_capacity s)
    (if full then S (m_moved s) else m_moved s).

(** *** Tasks by identifier *)

(** [is_registered_task], from index [i] on. *)
Fixpoint find_task (ts : list task_t) (id i : Z) : Z :=
  match ts with
  | [] => -1
  | t :: ts => if m_task_id t =? id then i else find_task ts id (i + 1)
  end.

Definition is_registered_task (s : TaskScheduler) (id : Z) : Z := find_task (m_tasks s) id 0.

(** [get_task], as an index. *)
Definition get_task (s : TaskScheduler) (id : Z) : option Z :=
  let i := is_registered_task s id in if i =? -1 then None else Some i.

(** [get_unique_task_id]: the loop over the candidates from [id] on. *)
Fixpoint unique_loop (fuel : nat) (ts : list task_t) (id max : Z) : Z :=
  match fuel with
  | O => -1
  | S fuel =>
      if id <? max then
        if existsb (fun t => m_task_id t =? id) ts then unique_loop fuel ts (id + 1) max
        else id
      else -1
  end.

Definition get_unique_task_id (s : TaskScheduler) : Z :=
  unique_loop (Z.to_nat (m_max_tasks s)) (m_tasks s) 1 (m_max_tasks s).

(** Update of the task at an index the caller has found. *)
Definition update_at (i : Z) (f : task_t -> task_t) (s : TaskScheduler) : TaskScheduler :=
  set_m_tasks (alter f (Z.to_nat i) (m_tasks s)) s.

(** [setTaskName], [setTaskOwner], [setTaskNice] and [sendSignal] *)
Definition update_registered (id : Z) (f : task_t -> task_t) (s : TaskScheduler)
  : bool * TaskScheduler :=
  let i := is_registered_task s id in
  if i <? 0 then (false, s) else (true, update_at i f s).

Definition setTaskName (id : Z) (name : option (list Z)) := update_registered id (set_m_name name).
Definition setTaskOwner (id owner : Z) := update_registered id (set_m_owner owner).
Definition setTaskNice (id nice : Z) :=
  let nice := if nice <? -20 then -20 else nice in
  let nice := if nice >? 19 then 19 else nice in
  update_registered id (set_m_nice nice).
Definition sendSignal (id sig : Z) := update_registered id (set_m_pending_sig sig).

(** [getTaskOwner] *)
Definition getTaskOwner (s : TaskScheduler) (id : Z) : option Z :=
  let i := is_registered_task s id in
  if i <? 0 then Some 0 else t <- m_tasks s !! Z.to_nat i;; Some (m_owner t).

(** Whether [strncmp(a, b, n)] is 0. *)
Fixpoint strncmp_eq (n : nat) (a b : list Z) : option bool :=
  match n with
  | O => Some true
  | S n =>
      match a, b with
      | x :: a, y :: b =>
          if x =? y then if x =? 0 then Some true else strncmp_eq n a b else Some false
      | _, _ => None
      end
  end.

(** [sendSignalByName]: the loop over the tasks. *)
Fixpoint signal_loop (ts : list task_t) (name : list Z) (match_len : nat) (sig requester : Z)
    (is_root : bool) : option (Z * list task_t) :=
  match ts with
  | [] => Some (0, [])
  | t :: ts =>
      '(hits, ts) <- signal_loop ts name match_len sig requester is_root;;
      if decide (m_state t = TASK_STATE_ZOMBIE) then Some (hits, t :: ts)
      else
        match m_name t with
        | None => Some (hits, t :: ts)
        | Some n =>
            e <- strncmp_eq match_len name n;;
            if negb e then Some (hits, t :: ts)
            else if negb is_root && negb (m_owner t =? requester) then Some (hits, t :: ts)
            else Some (u16 (hits + 1), set_m_pending_sig sig t :: ts)
        end
  end.

Definition sendSignalByName (name : option (list Z)) (sig requester : Z) (is_root : bool)
    (s : TaskScheduler) : option (Z * TaskScheduler) :=
  match name with
  | None => Some (0, s)
  | Some n =>
      c <- mget n 0;;
      if c =? 0 then Some (0, s)
      else
        l <- strlen n;;
        '(hits, ts) <- signal_loop (m_tasks s) n (Z.to_nat (l + 1)) sig requester is_root;;
        Some (hits, set_m_tasks ts s)
  end.

(** [remove_task] ([clearTimeout], [clearInterval]): every task with the identifier
    becomes an expired one. *)
Definition expire (t : task_t) : task_t :=
  set_m_state TASK_STATE_ZOMBIE (set_m_task None (set_m_max_attempts 0
    (set_m_task_priority 0 (set_m_duration 10 t)))).

Definition remove_task (id : Z) (s : TaskScheduler) : bool * TaskScheduler :=
  (existsb (fun t => m_task_id t =? id) (m_tasks s),
   set_m_tasks (map (fun t => if m_task_id t =? id then expire t else t) (m_tasks s)) s).
Definition clearTimeout := remove_task.
Definition clearInterval := remove_task.

(** [remove_expired_tasks]: the element that takes the place of an erased one is
    not looked at. *)
Fixpoint remove_expired (ts : list task_t) : list task_t :=
  match ts with
  | [] => []
  | t :: ts =>
      if m_max_attempts t =? 0 then
        match ts with
        | [] => []
        | t' :: ts => t' :: remove_expired ts
        end
      else t :: remove_expired ts
  end.

Definition remove_expired_tasks (s : TaskScheduler) : TaskScheduler :=
  set_m_tasks (remove_expired (m_tasks s)) s.

(** *** Scores *)

(** [(int)floor(log2((double)x + 1.0))]: undefined for negative [x]. *)
Definition floor_log2 (x : Z) : option Z := if 0 <=? x then Some (Z.log2 (x + 1)) else None.

(** The [uint64_t] sum of [m_last_millis] and [m_duration]. *)
Definition next_due (t : task_t) : Z := u64 (m_last_millis t + m_duration t).

(** [computeScore]; a result outside [int] is undefined. *)
Definition computeScore (t : task_t) (now : Z) : option Z :=
  let overdue := now >=? next_due t in
  let lateness := if overdue then i64 (now - next_due t) else 0 in
  let earlyness := if overdue then 0 else i64 (next_due t - now) in
  let recentness := i64 (now - m_last_millis t) in
  let effective_priority := m_task_priority t - m_nice t in
  match m_task_policy t with
  | TASK_POLICY_ROUNDROBIN =>
      l <- floor_log2 recentness;;
      int_val (effective_priority * 100 + 320 * Z.min l 50)
  | TASK_POLICY_DEADLINE =>
      l <- floor_log2 earlyness;;
      int_val (effective_priority * 100 + 640 * Z.max 0 (50 - Z.min l 50))
  | TASK_POLICY_FAIRSHARE =>
      l <- floor_log2 (m_task_exec_us t);;
      int_val (effective_priority * 100 + 480 * Z.max 0 (50 - Z.min l 50))
  | TASK_POLICY_FIFO =>
      int_val (effective_priority * 100 + 320 * Z.min (Z.quot (i32 lateness) 100) 50)
  end.

(** [swap_needed] of [getSortedTaskList] *)
Definition swap_needed (ti tj : task_t) (now : Z) : option bool :=
  si <- computeScore ti now;;
  sj <- computeScore tj now;;
  if negb (si =? sj) then Some (sj >? si)
  else
    let diff := i64 (next_due ti - next_due tj) in
    if diff =? -9223372036854775808 then None
    else if Z.abs diff >? 3 then Some (next_due tj <? next_due ti)
    else Some (m_task_exec_us ti >? m_task_exec_us tj).

(** The inner loop, [k] more rounds from [j] on. *)
Fixpoint sort_inner (ts : list task_t) (now : Z) (i : nat) (k j : nat) (idx : list nat)
  : option (list nat) :=
  match k with
  | O => Some idx
  | S k =>
      a <- idx !! i;;
      b <- idx !! j;;
      ti <- ts !! a;;
      tj <- ts !! b;;
      sw <- swap_needed ti tj now;;
      sort_inner ts now i k (S j) (if sw : bool then <[i := b]> (<[j := a]> idx) else idx)
  end.

Fixpoint sort_outer (ts : list task_t) (now : Z) (n k i : nat) (idx : list nat)
  : option (list nat) :=
  match k with
  | O => Some idx
  | S k =>
      idx <- sort_inner ts now i (n - S i) (S i) idx;;
      sort_outer ts now n k (S i) idx
  end.

(** [getSortedTaskList], for all the tasks. *)
Definition getSortedTaskList (s : TaskScheduler) (now : Z) : option (list nat) :=
  let n := length (m_tasks s) in
  sort_outer (m_tasks s) now n n 0 (seq 0 n).

(** *** Registration and the rounds of the scheduler *)

Section device.
Context {W : Type}.

(** The device: its clock in milliseconds and microseconds and its [yield], the
    tasks' callbacks, and whether [ENABLE_CONTEXTUAL_EXECUTION] is set. *)
Context (util_millis : W -> Z * W) (util_micros : W -> Z * W) (util_yield : W -> W)
  (call : nat -> TaskScheduler -> W -> TaskScheduler * W) (contextual : bool).

(** [register_task] *)
Definition register_task (fn : option nat) (duration priority last_millis max_attempts : Z)
    (name : option (list Z)) (owner : Z) (s : TaskScheduler) (w : W) : Z * TaskScheduler * W :=
  if zlen (m_tasks s) <? m_max_tasks s then
    let id := get_unique_task_id s in
    let '(created, w) := if m_util s then util_millis w else (0, w) in
    (id, push_back (mkTask id max_attempts duration last_millis fn priority 0 TASK_MODE_INLINE
                      TASK_POLICY_FIFO name owner TASK_STATE_SLEEPING 0 created 0 0 SIG_NONE) s, w)
  else (-1, s, w).

(** [setTimeout], [setInterval] *)
Definition setTimeout (fn : option nat) (duration now priority : Z) (name : option (list Z))
    (owner : Z) := register_task fn duration priority now 1 name owner.
Definition setInterval (fn : option nat) (duration now priority : Z) (name : option (list Z))
    (owner : Z) := register_task fn duration priority now (-1) name owner.

(** [updateInterval] *)
Definition updateInterval (id : Z) (fn : option nat) (duration priority last_millis max_attempts : Z)
    (name : option (list Z)) (owner : Z) (s : TaskScheduler) (w : W) : Z * TaskScheduler * W :=
  let i := is_registered_task s id in
  if i >? -1 then
    (id, update_at i (fun t =>
       let t := set_m_duration duration (set_m_task fn t) in
       let t := set_m_task_priority priority t in
       let t := set_m_last_millis (if last_millis =? 0 then m_last_millis t else last_millis) t in
       let t := set_m_max_attempts max_attempts t in
       let t := match name with None => t | Some _ => set_m_name name t end in
       set_m_owner owner t) s, w)
  else register_task fn duration priority last_millis max_attempts name owner s w.

(** [updateTimeout] *)
Definition updateTimeout (id : Z) (fn : option nat) (duration now priority : Z) :=
  updateInterval id fn duration priority now 1 None 0.

(** *** [handle_tasks] *)

(** Consumption of the pending signal; whether it ends the task. *)
Definition consume_signal (t : task_t) : task_t * bool :=
  let sig := m_pending_sig t in
  if sig =? SIG_NONE then (t, false)
  else
    let t := set_m_pending_sig SIG_NONE t in
    if (sig =? SIG_KILL) || (sig =? SIG_TERM) then
      (set_m_state TASK_STATE_ZOMBIE (set_m_max_attempts 0 (set_m_task None t)), true)
    else if sig =? SIG_STOP then (set_m_state TASK_STATE_STOPPED t, false)
    else if sig =? SIG_CONT then
      (if decide (m_state t = TASK_STATE_STOPPED) then set_m_state TASK_STATE_SLEEPING t else t,
       false)
    else (t, false).

(** The catch-up loop, at most [rounds] times. *)
Fixpoint catch_up (rounds : nat) (now : Z) (t : task_t) : task_t :=
  match rounds with
  | O => t
  | S rounds =>
      if u64 (now - m_last_millis t) >=? m_duration t
      then catch_up rounds now (set_m_last_millis (u64 (m_last_millis t + m_duration t)) t)
      else t
  end.

(** The call of the callback, between the two readings of the clock. *)
Definition run_callback (i : nat) (s : TaskScheduler) (w : W) : option (TaskScheduler * W) :=
  t <- m_tasks s !! i;;
  match m_task t with
  | None => Some (s, w)
  | Some fn =>
      let s := set_m_tasks (<[i := set_m_state TASK_STATE_RUNNING t]> (m_tasks s)) s in
      let '(start, w) := util_micros w in
      let '(s', w) := call fn s w in
      if negb (m_moved s' =? m_moved s)%nat then None
      else
        let '(stop, w) := util_micros w in
        t <- m_tasks s' !! i;;
        let t := set_m_task_exec_us (u32 (stop - start)) t in
        let t := set_m_total_exec_us (u64 (m_total_exec_us t + m_task_exec_us t)) t in
        let t := set_m_run_count (u32 (m_run_count t + 1)) t in
        let t := set_m_state TASK_STATE_SLEEPING t in
        Some (set_m_tasks (<[i := t]> (m_tasks s')) s', w)
  end.

(** The times and attempts of a task that was due. *)
Definition after_run (now : Z) (t : task_t) : task_t :=
  let t := if m_last_millis t =? 0 then set_m_last_millis now t else catch_up 4 now t in
  let t := set_m_max_attempts
             (if m_max_attempts t >? 0 then m_max_attempts t - 1 else m_max_attempts t) t in
  if m_max_attempts t =? 0 then set_m_state TASK_STATE_ZOMBIE t else t.

Definition is_due (now : Z) (t : task_t) : bool :=
  negb (m_max_attempts t =? 0) && (u64 (now - m_last_millis t) >=? m_duration t).

(** The loop over the sorted tasks. *)
Fixpoint handle_loop (idx : list nat) (s : TaskScheduler) (w : W) : option (TaskScheduler * W) :=
  match idx with
  | [] => Some (s, w)
  | i :: idx =>
      let '(now, w) := util_millis w in
      t <- m_tasks s !! i;;
      if contextual && negb (m_task_mode t =? TASK_MODE_INLINE) then handle_loop idx s w
      else
        let '(t, killed) := consume_signal t in
        let s := set_m_tasks (<[i := t]> (m_tasks s)) s in
        if killed then handle_loop idx s w
        else if decide (m_state t = TASK_STATE_STOPPED) then handle_loop idx s w
        else
          let t := if now <? m_last_millis t then set_m_last_millis now t else t in
          let s := set_m_tasks (<[i := t]> (m_tasks s)) s in
          '(s, w) <- (if is_due now t then
                        '(s, w) <- run_callback i s w;;
                        Some (set_m_tasks (alter (after_run now) i (m_tasks s)) s, w)
                      else Some (s, w));;
          let w := if m_util s then util_yield w else w in
          if m_rebase_start_priotask s then Some (set_rebase false s, w)
          else handle_loop idx s w
  end.

Definition handle_tasks (s : TaskScheduler) (w : W) : option (TaskScheduler * W) :=
  if negb (m_util s) then Some (s, w)
  else
    let '(now, w) := util_millis w in
    idx <- getSortedTaskList s now;;
    '(s, w) <- handle_loop idx (set_rebase true s) w;;
    Some (remove_expired_tasks s, w).

End device.

(** *** The order of the tasks *)

(** The score of the task at an index. *)
Definition score_at (ts : list task_t) (now : Z) (a : nat) : Z :=
  default 0 (t <- ts !! a;; computeScore t now).

(** Times far from the end of [uint64_t], and a defined score. *)
Definition task_times_ok (now : Z) (t : task_t) : Prop :=
  0 <= m_last_millis t < 4611686018427387904 /\ 0 <= m_duration t < 4611686018427387904 /\
  is_Some (computeScore t now).

Lemma next_due_ok now t : task_times_ok now t -> next_due t = m_last_millis t + m_duration t.
Proof. intros (H1 & H2 & _). unfold next_due. apply u64_small. lia. Qed.

(** Scores are defined for tasks under the default policy that are less than
    24 days overdue. *)
Lemma fifo_score t now :
  m_task_policy t = TASK_POLICY_FIFO -> 0 <= m_task_priority t < 256 -> -20 <= m_nice t <= 19 ->
  0 <= next_due t -> 0 <= now < 9223372036854775808 -> now - next_due t < 2147483648 ->
  computeScore t now =
    Some ((m_task_priority t - m_nice t) * 100 + 320 * Z.min (Z.max 0 (now - next_due t) / 100) 50).
Proof.
  intros Hp Hpr Hn Hd H0 Hl. unfold computeScore. rewrite Hp.
  assert (Z.quot (i32 (if now >=? next_due t then i64 (now - next_due t) else 0)) 100 =
    Z.max 0 (now - next_due t) / 100) as ->.
  { destruct (Z.geb_spec now (next_due t)).
    - rewrite i64_small by lia. unfold i32. rewrite Z.mod_small by lia.
      rewrite Z.max_r by lia. rewrite Z.quot_div_nonneg by lia. f_equal. lia.
    - rewrite Z.max_l by lia. done. }
  apply int_val_Some. assert (0 <= Z.max 0 (now - next_due t) / 100) by div_lia. lia.
Qed.

Section sorting.
Context (ts : list task_t) (now : Z) (Hts : Forall (task_times_ok now) ts).

Abbreviation sc := (score_at ts now).

Lemma swap_spec a b : (a < length ts)%nat -> (b < length ts)%nat ->
  exists ti tj sw, ts !! a = Some ti /\ ts !! b = Some tj /\ swap_needed ti tj now = Some sw /\
    if sw : bool then sc a <= sc b else sc b <= sc a.
Proof.
  intros Ha Hb. destruct (lookup_lt_is_Some_2 ts a Ha) as [ti Ei].
  destruct (lookup_lt_is_Some_2 ts b Hb) as [tj Ej].
  pose proof (Forall_lookup_1 _ _ _ _ Hts Ei) as Hi. pose proof (Forall_lookup_1 _ _ _ _ Hts Ej) as Hj.
  exists ti, tj. unfold score_at. rewrite Ei, Ej. simpl. unfold swap_needed.
  destruct (proj2 (proj2 Hi)) as [si Esi]. destruct (proj2 (proj2 Hj)) as [sj Esj]. rewrite Esi, Esj. simpl.
  rewrite (next_due_ok _ _ Hi), (next_due_ok _ _ Hj).
  destruct Hi as (Hi1 & Hi2 & _), Hj as (Hj1 & Hj2 & _).
  destruct (Z.eqb_spec si sj); simpl.
  - rewrite i64_small by lia. destruct (Z.eqb_spec (m_last_millis ti + m_duration ti -
      (m_last_millis tj + m_duration tj)) (-9223372036854775808)); [lia|].
    destruct (_ >? 3); eexists; (do 3 (split; [done|])).
    + destruct (_ <? _); lia.
    + destruct (_ >? _); lia.
  - exists (sj >? si). do 3 (split; [done|]). destruct (Z.gtb_spec sj si); lia.
Qed.

Lemma swap_lists (pre mid rest : list nat) a b :
  <[length pre := b]> (<[S (length pre + length mid) := a]> (pre ++ a :: mid ++ b :: rest)) =
  pre ++ b :: mid ++ a :: rest.
Proof.
  replace (S (length pre + length mid)) with (length pre + S (length mid))%nat by lia.
  rewrite insert_app_r. simpl. rewrite <- (Nat.add_0_r (length mid)), insert_app_r. simpl.
  rewrite <- (Nat.add_0_r (length pre)), insert_app_r. done.
Qed.

Lemma sort_inner_spec rest : forall pre x mid,
  Forall (fun a => a < length ts)%nat (x :: mid ++ rest) -> Forall (fun a => sc a <= sc x) mid ->
  exists y l, sort_inner ts now (length pre) (length rest) (S (length pre + length mid))
      (pre ++ x :: mid ++ rest) = Some (pre ++ y :: l) /\
    y :: l ≡ₚ x :: mid ++ rest /\ Forall (fun a => sc a <= sc y) l.
Proof.
  induction rest as [|z rest IH]; intros pre x mid Hv Hm; cbn [sort_inner length].
  { exists x, (mid ++ []). rewrite app_nil_r. done. }
  assert ((pre ++ x :: mid ++ z :: rest) !! length pre = Some x) as -> by (by apply list_lookup_middle).
  assert ((pre ++ x :: mid ++ z :: rest) !! S (length pre + length mid) = Some z) as ->.
  { replace (pre ++ x :: mid ++ z :: rest) with ((pre ++ x :: mid) ++ z :: rest)
      by (by rewrite <- app_assoc). apply list_lookup_middle. rewrite length_app. simpl. lia. }
  assert (x < length ts)%nat as Hx by (by inversion Hv).
  assert (z < length ts)%nat as Hz.
  { inversion Hv as [|? ? _ Hv']; subst. apply Forall_app in Hv' as [_ Hv']. by inversion Hv'. }
  destruct (swap_spec x z Hx Hz) as (ti & tj & sw & -> & -> & -> & Hsw).
  replace (S (S (length pre + length mid))) with (S (length pre + length (mid ++ [if sw then x else z])))
    by (rewrite length_app; simpl; lia).
  destruct sw.
  - rewrite swap_lists. replace (mid ++ x :: rest) with ((mid ++ [x]) ++ rest) by (by rewrite <- app_assoc).
    destruct (IH pre z (mid ++ [x])) as (y & l & -> & Hp & Hf).
    + revert Hv. rewrite <- app_assoc. simpl. rewrite !Forall_cons, !Forall_app, !Forall_cons. tauto.
    + apply Forall_app. split; [|by repeat constructor].
      eapply Forall_impl; [exact Hm|]. simpl. intros a Ha. lia.
    + exists y, l. split; [done|]. split; [|done]. rewrite Hp, <- app_assoc. simpl.
      rewrite <- !Permutation_middle. apply perm_swap.
  - replace (mid ++ z :: rest) with ((mid ++ [z]) ++ rest) by (by rewrite <- app_assoc).
    apply IH.
    + by rewrite <- app_assoc.
    + apply Forall_app. split; [done|]. by repeat constructor.
Qed.

Lemma sort_outer_spec k : forall pre l,
  length l = k -> Forall (fun a => a < length ts)%nat l ->
  exists l', sort_outer ts now (length pre + k) k (length pre) (pre ++ l) = Some (pre ++ l') /\
    l' ≡ₚ l /\ StronglySorted (fun a b => sc b <= sc a) l'.
Proof.
  induction k as [|k IH]; intros pre l Hl Hv; cbn [sort_outer].
  { destruct l; [|done]. exists []. split; [done|]. split; [done|constructor]. }
  destruct l as [|x rest]; [done|]. simpl in Hl.
  replace (length pre + S k - S (length pre))%nat with (length rest) by lia.
  destruct (sort_inner_spec rest pre x []) as (y & l & E & Hp & Hf); [done|constructor|].
  simpl in E. rewrite Nat.add_0_r in E. rewrite E.
  destruct (IH (pre ++ [y]) l) as (l' & E' & Hp' & Hs).
  - apply Permutation_length in Hp. simpl in Hp. lia.
  - rewrite <- Hp in Hv. by inversion Hv.
  - rewrite length_app in E'. simpl in E'. rewrite <- !app_assoc in E'. simpl in E'.
    replace (length pre + S k)%nat with (length pre + 1 + k)%nat by lia.
    replace (S (length pre)) with (length pre + 1)%nat by lia. rewrite E'.
    exists (y :: l'). split; [done|]. split; [by rewrite Hp'|].
    constructor; [done|]. by rewrite Hp'.
Qed.
End sorting.

(** *** Identifiers *)

Definition ids (s : TaskScheduler) : list Z := map m_task_id (m_tasks s).

(** Every identifier is -1 or one of the others' own between 1 and the limit. *)
Definition ids_ok (s : TaskScheduler) : Prop :=
  NoDup (filter (fun i => i <> -1) (ids s)) /\
  Forall (fun i => i = -1 \/ 1 <= i < m_max_tasks s) (ids s).

Lemma existsb_id ts id : existsb (fun t => m_task_id t =? id) ts = bool_decide (id ∈ map m_task_id ts).
Proof.
  induction ts as [|t ts IH]; simpl; [done|]. rewrite IH.
  destruct (Z.eqb_spec (m_task_id t) id) as [<-|Hn]; simpl.
  - by rewrite bool_decide_eq_true_2 by left.
  - apply bool_decide_ext. set_solver.
Qed.

Lemma unique_loop_spec fuel ts max : forall id, max - id <= Z.of_nat fuel ->
  let r := unique_loop fuel ts id max in
  (r = -1 /\ forall k, id <= k < max -> k ∈ map m_task_id ts) \/
  (id <= r < max /\ r ∉ map m_task_id ts).
Proof.
  induction fuel as [|fuel IH]; intros id Hf; cbn [unique_loop].
  { left. split; [done|lia]. }
  destruct (Z.ltb_spec id max); [|left; split; [done|lia]].
  rewrite existsb_id. case_bool_decide as Hin; [|right; split; [lia|done]].
  destruct (IH (id + 1)) as [[E Hall]|[Hr Hn]]; [lia| |].
  - left. split; [exact E|]. intros k Hk. destruct (Z.eq_dec k id) as [->|]; [done|]. apply Hall. lia.
  - right. split; [lia|exact Hn].
Qed.

Lemma range_length (l : list Z) n : 0 <= n -> (forall k, 1 <= k < 1 + n -> k ∈ l) -> n <= zlen l.
Proof.
  intros Hn Hk. assert (seqZ 1 n ⊆+ l) as Hs.
  { apply NoDup_submseteq; [apply NoDup_seqZ|]. intros k Hin%elem_of_seqZ. apply Hk. lia. }
  apply submseteq_length in Hs. rewrite length_seqZ in Hs. unfold zlen. lia.
Qed.

Lemma get_unique_spec s : 1 <= m_max_tasks s ->
  let r := get_unique_task_id s in
  (r = -1 /\ forall k, 1 <= k < m_max_tasks s -> k ∈ ids s) \/ (1 <= r < m_max_tasks s /\ r ∉ ids s).
Proof. intros Hm. apply unique_loop_spec. lia. Qed.

Lemma get_unique_fresh s : 1 <= m_max_tasks s -> zlen (m_tasks s) < m_max_tasks s - 1 ->
  1 <= get_unique_task_id s < m_max_tasks s /\ get_unique_task_id s ∉ ids s.
Proof.
  intros Hm Hl. destruct (get_unique_spec s Hm) as [[_ Hall]|H]; [|done].
  assert (m_max_tasks s - 1 <= zlen (ids s)) as Hz by (apply range_length; [lia|]; intros; apply Hall; lia).
  unfold ids, zlen in *. rewrite length_map in Hz. lia.
Qed.

Lemma ids_ok_push s t :
  1 <= m_max_tasks s -> ids_ok s -> m_task_id t = get_unique_task_id s -> ids_ok (push_back t s).
Proof.
  intros Hm [Hn Hf] Ht. unfold ids_ok, ids, push_back. simpl. rewrite map_app, filter_app. simpl.
  destruct (get_unique_spec s Hm) as [[E _]|[Hr Hnew]]; rewrite Ht in *.
  - rewrite E. split.
    + rewrite filter_cons_False by naive_solver. by rewrite filter_nil, app_nil_r.
    + apply Forall_app. split; [done|]. constructor; [by left|constructor].
  - split.
    + rewrite filter_cons_True, filter_nil by lia. apply NoDup_app. split; [done|].
      split; [|apply NoDup_singleton]. intros x Hx ->%list_elem_of_singleton.
      apply list_elem_of_filter in Hx as [_ Hx]. done.
    + apply Forall_app. split; [done|]. constructor; [by right|constructor].
Qed.

(** *** Expired tasks *)

Definition expired (t : task_t) : bool := m_max_attempts t =? 0.

Lemma remove_expired_spec n : forall ts, (length ts <= n)%nat ->
  filter (fun t => expired t = false) (remove_expired ts) = filter (fun t => expired t = false) ts /\
  (2 * length (filter (fun t => expired t = true) (remove_expired ts)) <=
   length (filter (fun t => expired t = true) ts))%nat.
Proof.
  induction n as [|n IH]; intros ts Hl; [destruct ts; simpl in *; [done|lia]|].
  destruct ts as [|t ts]; [done|]. cbn [remove_expired]. simpl in Hl.
  destruct (m_max_attempts t =? 0) eqn:E.
  - assert (expired t = true) as Ee by done. destruct ts as [|t' ts]; simpl in Hl.
    { rewrite !filter_cons, Ee. simpl. split; [done|lia]. }
    destruct (IH ts) as [H1 H2]; [lia|]. rewrite !filter_cons, Ee. simpl.
    destruct (expired t'); simpl; rewrite H1; (split; [done|lia]).
  - assert (expired t = false) as Ee by done. destruct (IH ts) as [H1 H2]; [lia|].
    rewrite !filter_cons, Ee. simpl. rewrite H1. split; [done|lia].
Qed.

(** *** Catching up *)

Lemma catch_up_spec rounds now : forall t,
  0 <= m_last_millis t <= now -> now < 18446744073709551616 -> 0 < m_duration t ->
  exists k, 0 <= k <= Z.of_nat rounds /\
    catch_up rounds now t = set_m_last_millis (m_last_millis t + k * m_duration t) t /\
    m_last_millis t + k * m_duration t <= now /\
    (k < Z.of_nat rounds -> now - (m_last_millis t + k * m_duration t) < m_duration t).
Proof.
  induction rounds as [|rounds IH]; intros t Hl Hn Hd; cbn [catch_up].
  { exists 0. rewrite Z.add_0_r. split; [lia|]. split; [by destruct t|]. lia. }
  rewrite u64_small by lia. destruct (Z.geb_spec (now - m_last_millis t) (m_duration t)).
  - rewrite u64_small by lia.
    destruct (IH (set_m_last_millis (m_last_millis t + m_duration t) t)) as (k & Hk & E & H1 & H2);
      simpl in *; [lia..|].
    exists (k + 1). split; [lia|]. rewrite E.
    replace (m_last_millis t + (k + 1) * m_duration t) with (m_last_millis t + m_duration t + k * m_duration t)
      by lia. split; [done|]. split; [done|]. intros. apply H2. lia.
  - exists 0. rewrite Z.mul_0_l, Z.add_0_r. split; [lia|]. split; [by destruct t|]. split; lia.
Qed.

Lemma catch_up_attempts rounds now : forall t,
  m_max_attempts (catch_up rounds now t) = m_max_attempts t.
Proof.
  induction rounds as [|rounds IH]; intros t; cbn [catch_up]; [done|].
  destruct (_ >=? _); [|done]. by rewrite IH.
Qed.

Lemma after_run_attempts now t :
  m_max_attempts (after_run now t) =
    if m_max_attempts t >? 0 then m_max_attempts t - 1 else m_max_attempts t.
Proof.
  unfold after_run. set (t1 := if m_last_millis t =? 0 then set_m_last_millis now t else _).
  assert (m_max_attempts t1 = m_max_attempts t) as E
    by (unfold t1; destruct (_ =? 0); [done|apply catch_up_attempts]).
  clearbody t1. rewrite <- E. destruct (m_max_attempts (set_m_max_attempts _ t1) =? 0); done.
Qed.

Lemma after_run_last now t : m_max_attempts t = 1 -> m_max_attempts (after_run now t) = 0.
Proof. intros E. by rewrite after_run_attempts, E. Qed.

(** *** Names *)

Lemma strncmp_eq_spec name : forall x p y, no_nul name -> no_nul p ->
  strncmp_eq (S (length name)) (name ++ 0 :: x) (p ++ 0 :: y) = Some (bool_decide (p = name)).
Proof.
  induction name as [|c name IH]; intros x p y Hn Hp.
  - destruct p as [|d p]; cbn; [done|]. apply Forall_cons_1 in Hp as [Hd _].
    destruct d; [done| |]; done.
  - apply Forall_cons_1 in Hn as [Hc Hn]. destruct p as [|d p].
    + simpl. by destruct c.
    + apply Forall_cons_1 in Hp as [Hd Hp].
      change (strncmp_eq (S (length (c :: name))) ((c :: name) ++ 0 :: x) ((d :: p) ++ 0 :: y)) with
        (if c =? d then if c =? 0 then Some true
                        else strncmp_eq (S (length name)) (name ++ 0 :: x) (p ++ 0 :: y)
         else Some false).
      destruct (Z.eqb_spec c d) as [->|Hcd].
      * destruct (Z.eqb_spec d 0); [done|]. rewrite IH by done. f_equal. apply bool_decide_ext.
        split; congruence.
      * rewrite bool_decide_eq_false_2; [done|]. congruence.
Qed.

(** The tasks [sendSignalByName] signals: alive, of that name, and the requester's own
    unless it is root. *)
Definition eligible (name : list Z) (requester : Z) (is_root : bool) (t : task_t) : bool :=
  negb (bool_decide (m_state t = TASK_STATE_ZOMBIE)) &&
  match m_name t with
  | None => false
  | Some n => bool_decide (take (S (length name)) n = name ++ [0])
  end && (is_root || (m_owner t =? requester)).

Definition names_ok (ts : list task_t) : Prop :=
  Forall (fun t => forall n, m_name t = Some n -> exists s, cstring n s) ts.

Lemma cstring_take n s name : cstring n s -> no_nul name ->
  bool_decide (take (S (length name)) n = name ++ [0]) = bool_decide (s = name).
Proof.
  intros [Hs [x ->]] Hn. apply bool_decide_ext. split.
  - revert s Hs. induction name as [|c name IH]; intros s Hs.
    + destruct s as [|d s]; [done|]. simpl. intros [= ->]. by inversion Hs.
    + apply Forall_cons_1 in Hn as [Hc Hn]. destruct s as [|d s]; simpl.
      * intros [= <-]. done.
      * apply Forall_cons_1 in Hs as [_ Hs]. intros [= -> E]. f_equal. by apply IH.
  - intros ->. replace (S (length name)) with (length (name ++ [0])) by (rewrite length_app; simpl; lia).
    change (name ++ 0 :: x) with (name ++ [0] ++ x). rewrite app_assoc. apply take_app_length.
Qed.

Lemma signal_loop_spec ts nm name sig requester is_root :
  cstring nm name -> names_ok ts -> zlen ts < 65536 ->
  signal_loop ts nm (S (length name)) sig requester is_root =
    Some (Z.of_nat (length (filter (fun t => eligible name requester is_root t = true) ts)),
          map (fun t => if eligible name requester is_root t then set_m_pending_sig sig t else t) ts).
Proof.
  intros Hnm. induction ts as [|t ts IH]; intros Hok Hz; [done|]. cbn [signal_loop].
  apply Forall_cons_1 in Hok as [Ht Hok]. rewrite zlen_cons in Hz. rewrite IH by (done || lia).
  simpl map. rewrite filter_cons.
  pose proof (length_filter (fun t => eligible name requester is_root t = true) ts) as Hlen.
  remember (eligible name requester is_root t) as e eqn:Ee. unfold eligible in Ee.
  destruct (decide (m_state t = TASK_STATE_ZOMBIE)) as [Hs|Hs].
  { rewrite bool_decide_eq_true_2 in Ee by done. by subst e. }
  rewrite bool_decide_eq_false_2 in Ee by done. destruct (m_name t) as [n|] eqn:En; [|by subst e].
  destruct (Ht n eq_refl) as [p Hp]. rewrite (cstring_take n p name Hp (proj1 Hnm)) in Ee.
  destruct Hnm as [Hn [x ->]], Hp as [Hp [y ->]]. rewrite strncmp_eq_spec by done.
  case_bool_decide; simpl in Ee |- *; [|by subst e]. destruct is_root, (m_owner t =? requester);
    simpl in Ee |- *; subst e; [| | |done];
    (rewrite u16_small by (unfold zlen in Hz; lia); do 2 f_equal; simpl; lia).
Qed.

(** *** Rounds *)

Lemma sorted_list s now : Forall (task_times_ok now) (m_tasks s) ->
  exists idx, getSortedTaskList s now = Some idx /\ idx ≡ₚ seq 0 (length (m_tasks s)) /\
    StronglySorted (fun a b => score_at (m_tasks s) now b <= score_at (m_tasks s) now a) idx.
Proof.
  intros Hts. unfold getSortedTaskList.
  apply (sort_outer_spec (m_tasks s) now Hts (length (m_tasks s)) []).
  - by rewrite length_seq.
  - apply Forall_forall. intros x Hx%elem_of_seq. lia.
Qed.

Section rounds.
Context {W : Type} (util_millis util_micros : W -> Z * W) (util_yield : W -> W)
  (call : nat -> TaskScheduler -> W -> TaskScheduler * W) (contextual : bool).

(** The callbacks run so far.  The device's own operations run none, and a callback
    runs no other; it may register tasks as long as the vector does not move. *)
Context (log : W -> list nat).
Hypotheses (Hmillis : forall w, log (util_millis w).2 = log w)
  (Hclock : forall w, 0 <= (util_millis w).1 < 18446744073709551616)
  (Hmicros : forall w, log (util_micros w).2 = log w)
  (Hyield : forall w, log (util_yield w) = log w)
  (Hcall : forall fn s w, log (call fn s w).2 = log w ++ [fn])
  (Hkeep : forall fn s w, let s' := (call fn s w).1 in
     m_moved s' = m_moved s /\ (length (m_tasks s) <= length (m_tasks s'))%nat /\
     m_rebase_start_priotask s' = m_rebase_start_priotask s).

Abbreviation loop := (handle_loop util_millis util_micros util_yield call contextual).

Lemma run_callback_spec i s w t : m_tasks s !! i = Some t ->
  exists s' w', run_callback util_micros call i s w = Some (s', w') /\
    m_rebase_start_priotask s' = m_rebase_start_priotask s /\
    log w' = log w ++ option_list (m_task t).
Proof.
  intros Et. unfold run_callback. rewrite Et. destruct (m_task t) as [fn|]; simpl.
  2:{ rewrite app_nil_r. eauto. }
  pose proof (Hmicros w) as H1. destruct (util_micros w) as [start w1]. simpl in H1.
  set (s1 := set_m_tasks _ s). pose proof (Hcall fn s1 w1) as H2. destruct (Hkeep fn s1 w1) as (K1 & K2 & K3).
  destruct (call fn s1 w1) as [s2 w2]. simpl in *. rewrite K1, Nat.eqb_refl. simpl.
  pose proof (Hmicros w2) as H3. destruct (util_micros w2) as [stop w3]. simpl in H3.
  rewrite length_insert in K2. apply lookup_lt_Some in Et.
  destruct (lookup_lt_is_Some_2 (m_tasks s2) i ltac:(lia)) as [t2 ->].
  eexists _, _. split; [done|]. split; [done|]. by rewrite H3, H2, H1.
Qed.

(** The round passes over a task that is killed or stopped, by its state or by a signal
    that waits for it, and with contextual execution over one that is not inline. *)
Definition passed_over (t : task_t) : bool :=
  (contextual && negb (m_task_mode t =? TASK_MODE_INLINE)) ||
  bool_decide (m_pending_sig t ∈ [SIG_KILL; SIG_TERM; SIG_STOP]) ||
  bool_decide (m_state t = TASK_STATE_STOPPED /\ m_pending_sig t <> SIG_CONT).

(** Attempts are left and the interval is over; a start in the future counts as now. *)
Definition due (now : Z) (t : task_t) : bool :=
  negb (m_max_attempts t =? 0) && (m_duration t <=? Z.max 0 (now - m_last_millis t)).

(** The callbacks of a round over the tasks in the order [idx]: that of the first task it
    does not pass over, if it is due when it is its turn. *)
Fixpoint round_runs (ts : list task_t) (idx : list nat) (w : W) : list nat :=
  match idx with
  | [] => []
  | i :: idx =>
      match ts !! i with
      | None => []
      | Some t =>
          if passed_over t then round_runs ts idx (util_millis w).2
          else if due (util_millis w).1 t then option_list (m_task t) else []
      end
  end.

Lemma consume_signal_spec t :
  let '(t', killed) := consume_signal t in
  (killed = true \/ m_state t' = TASK_STATE_STOPPED <->
   m_pending_sig t ∈ [SIG_KILL; SIG_TERM; SIG_STOP] \/ m_state t = TASK_STATE_STOPPED /\ m_pending_sig t <> SIG_CONT) /\
  (killed = false -> m_task t' = m_task t /\ m_max_attempts t' = m_max_attempts t /\
   m_last_millis t' = m_last_millis t /\ m_duration t' = m_duration t).
Proof.
  assert (m_pending_sig t ∈ [SIG_KILL; SIG_TERM; SIG_STOP] <-> m_pending_sig t = SIG_KILL \/ m_pending_sig t = SIG_TERM \/ m_pending_sig t = SIG_STOP) as Hin
    by (rewrite !elem_of_cons, elem_of_nil; tauto).
  unfold consume_signal. destruct (Z.eqb_spec (m_pending_sig t) SIG_NONE) as [E|E].
  { rewrite Hin, E. split; [|done]. split; [intros [?|?]; [done|]; right; by split|]. intros [?|[? _]]; [|by right]. unfold SIG_NONE, SIG_KILL, SIG_TERM, SIG_STOP in *. lia. }
  destruct (Z.eqb_spec (m_pending_sig t) SIG_KILL); [split; [tauto|done]|].
  destruct (Z.eqb_spec (m_pending_sig t) SIG_TERM); [split; [tauto|done]|]. simpl.
  destruct (Z.eqb_spec (m_pending_sig t) SIG_STOP); [split; [tauto|done]|].
  destruct (Z.eqb_spec (m_pending_sig t) SIG_CONT) as [Ec|Ec].
  - destruct (decide _) as [Es|Es]; simpl; (split; [|done]); split; intros; intuition congruence.
  - simpl. split; [|done]. split; intros; intuition congruence.
Qed.

Lemma is_due_spec now t : 0 <= now < 18446744073709551616 -> 0 <= m_last_millis t < 18446744073709551616 ->
  is_due now (if now <? m_last_millis t then set_m_last_millis now t else t) = due now t.
Proof.
  intros Hn Hl. unfold is_due, due. destruct (Z.ltb_spec now (m_last_millis t)); simpl.
  - rewrite Z.sub_diag. replace (Z.max 0 (now - m_last_millis t)) with 0 by lia. change (u64 0) with 0. by rewrite Z.geb_leb.
  - rewrite u64_small, Z.geb_leb by lia. by rewrite Z.max_r by lia.
Qed.

Lemma handle_loop_spec idx : forall s0 s w,
  m_rebase_start_priotask s = true -> NoDup idx -> length (m_tasks s) = length (m_tasks s0) ->
  Forall (fun t => 0 <= m_last_millis t < 18446744073709551616) (m_tasks s0) ->
  Forall (fun i => i < length (m_tasks s0))%nat idx ->
  Forall (fun i => m_tasks s !! i = m_tasks s0 !! i) idx ->
  exists s' w', loop idx s w = Some (s', w') /\ log w' = log w ++ round_runs (m_tasks s0) idx w.
Proof.
  induction idx as [|i idx IH]; intros s0 s w Hr Hnd Hlen Hlast Hv Heq; cbn [handle_loop round_runs]; [rewrite app_nil_r; eauto|].
  apply NoDup_cons in Hnd as [Hi Hnd]. apply Forall_cons_1 in Hv as [Hvi Hv]. apply Forall_cons_1 in Heq as [Ei Heq].
  pose proof (Hmillis w) as Hm. pose proof (Hclock w) as Hc. destruct (util_millis w) as [now w1]. simpl in Hm, Hc |- *.
  destruct (lookup_lt_is_Some_2 _ _ Hvi) as [t Et]. rewrite Ei, Et. simpl.
  assert (forall ts, length ts = length (m_tasks s) -> (forall j, j <> i -> ts !! j = m_tasks s !! j) ->
    exists s' w', loop idx (set_m_tasks ts s) w1 = Some (s', w') /\ log w' = log w ++ round_runs (m_tasks s0) idx w1) as Hnext.
  { intros ts H2 H3. rewrite <- Hm. apply (IH s0 (set_m_tasks ts s) w1); try done; [simpl; congruence|].
    apply Forall_forall. intros j Hj. simpl. rewrite H3 by (by intros ->). by apply (proj1 (Forall_forall _ _) Heq). }
  assert (forall x, exists s' w', loop idx (set_m_tasks (<[i:=x]> (m_tasks s)) s) w1 = Some (s', w') /\ log w' = log w ++ round_runs (m_tasks s0) idx w1) as Hskip.
  { intros x. apply Hnext; [by rewrite length_insert|]. intros j Hj. by rewrite list_lookup_insert_ne. }
  unfold passed_over. destruct (contextual && _); simpl orb; cbv iota.
  { replace s with (set_m_tasks (m_tasks s) s) by (by destruct s). by apply Hnext. }
  pose proof (consume_signal_spec t) as Hs. destruct (consume_signal t) as [t1 killed]. destruct Hs as [Hs Hk].
  rewrite <- bool_decide_or. destruct (bool_decide_reflect (m_pending_sig t ∈ [SIG_KILL; SIG_TERM; SIG_STOP] \/ m_state t = TASK_STATE_STOPPED /\ m_pending_sig t <> SIG_CONT)) as [Hp|Hp].
  { apply Hs in Hp. destruct killed; [apply Hskip|]. destruct (decide _) as [|Hn]; [apply Hskip|]. by destruct Hp. }
  destruct killed; [destruct Hp; apply Hs; by left|]. destruct (decide _) as [Hn|Hn]; [destruct Hp; apply Hs; by right|].
  destruct (Hk eq_refl) as (Ef & Ea & El & Ed). pose proof (Forall_lookup_1 _ _ _ _ Hlast Et) as Hl. simpl in Hl.
  simpl m_tasks. rewrite list_insert_insert_eq, is_due_spec by (rewrite ?El; lia).
  assert (due now t1 = due now t) as -> by (unfold due; by rewrite Ea, El, Ed).
  set (t2 := if now <? m_last_millis t1 then set_m_last_millis now t1 else t1). assert (m_task t2 = m_task t) as Ef2 by (unfold t2; destruct (now <? _); done).
  set (s2 := set_m_tasks (<[i:=t2]> (m_tasks s)) _). assert (m_tasks s2 !! i = Some t2) as E2 by (apply list_lookup_insert_eq; lia).
  destruct (due now t).
  - destruct (run_callback_spec i s2 w1 t2 E2) as (s3 & w3 & -> & Hr3 & Hl3). simpl. rewrite Hr3.
    replace (m_rebase_start_priotask s2) with true by (symmetry; exact Hr). eexists _, _. split; [done|].
    rewrite <- Ef2, <- Hm, <- Hl3. destruct (m_util s3); [apply Hyield|done].
  - simpl. rewrite Hr. eexists _, _. split; [done|]. rewrite app_nil_r, <- Hm. destruct (m_util s); [apply Hyield|done].
Qed.

Lemma handle_tasks_spec s w : Forall (task_times_ok (util_millis w).1) (m_tasks s) ->
  exists s' w', handle_tasks util_millis util_micros util_yield call contextual s w = Some (s', w') /\
    if m_util s then
      exists idx, idx ≡ₚ seq 0 (length (m_tasks s)) /\
        StronglySorted (fun a b => score_at (m_tasks s) (util_millis w).1 b <= score_at (m_tasks s) (util_millis w).1 a) idx /\
        log w' = log w ++ round_runs (m_tasks s) idx (util_millis w).2
    else s' = s /\ w' = w.
Proof.
  intros Hts. unfold handle_tasks. destruct (m_util s) eqn:Eu; simpl; [|by eexists _, _].
  pose proof (Hmillis w) as Hm. destruct (util_millis w) as [now w1]. simpl in Hts, Hm |- *.
  destruct (sorted_list s now Hts) as (idx & -> & Hp & Hsort). simpl.
  destruct (handle_loop_spec idx s (set_rebase true s) w1) as (s' & w' & -> & Hl); try done.
  - rewrite Hp. apply NoDup_seq.
  - eapply Forall_impl; [exact Hts|]. intros t (H & _). cbv beta. lia.
  - rewrite Hp. apply Forall_forall. intros x Hx%elem_of_seq. lia.
  - by apply Forall_forall.
  - eexists _, _. split; [done|]. exists idx. split; [done|]. split; [done|]. by rewrite <- Hm.
Qed.

(** C32: a round of the scheduler returns, and runs at most one callback: in the order of
    falling scores it passes over the tasks that are killed or stopped, and of the first
    other task it runs the callback exactly when that task has attempts left and its interval
    is over at its turn.  Callbacks may do anything but remove tasks, make the vector of tasks
    move or start a round of their own; times are in the first half of [uint64_t] and scores
    are defined. *)
Theorem scheduler_round_runs_one s w :
  Forall (task_times_ok (util_millis w).1) (m_tasks s) ->
  exists s' w', handle_tasks util_millis util_micros util_yield call contextual s w = Some (s', w') /\
    if m_util s then
      exists idx, idx ≡ₚ seq 0 (length (m_tasks s)) /\
        StronglySorted (fun a b => score_at (m_tasks s) (util_millis w).1 b <= score_at (m_tasks s) (util_millis w).1 a) idx /\
        log w' = log w ++ round_runs (m_tasks s) idx (util_millis w).2
    else s' = s /\ w' = w.
Proof. apply handle_tasks_spec. Qed.

(** a task that is not due keeps every other task from running when its priority is
    more than 160 above theirs, however late they are: the round looks at the task with
    the highest score only, and lateness adds at most 16000 to a score. *)
Theorem scheduler_undue_task_blocks s w i t :
  let now := (util_millis w).1 in
  let now' := (util_millis (util_millis w).2).1 in
  m_util s = true -> contextual = false -> Forall (task_times_ok now) (m_tasks s) ->
  Forall (fun x => m_task_policy x = TASK_POLICY_FIFO /\ 0 <= m_task_priority x < 256 /\
    -20 <= m_nice x <= 19 /\ now - (m_last_millis x + m_duration x) < 2147483648) (m_tasks s) ->
  0 <= now < 4294967296 -> now' < 4294967296 -> m_tasks s !! i = Some t ->
  (forall j x, m_tasks s !! j = Some x -> j <> i ->
     m_task_priority x - m_nice x + 160 < m_task_priority t - m_nice t) ->
  m_pending_sig t = SIG_NONE -> m_state t <> TASK_STATE_STOPPED ->
  m_last_millis t <= now' < m_last_millis t + m_duration t ->
  exists s' w', handle_tasks util_millis util_micros util_yield call contextual s w = Some (s', w') /\
    log w' = log w.
Proof.
  intros now now' Hu Hctx Hts Hf Hn Hn' Et Htop Hsig Hst Hdue. unfold handle_tasks. rewrite Hu. simpl negb.
  cbv iota. pose proof (Hmillis w) as Hm. subst now now'.
  destruct (util_millis w) as [now w1]. simpl in Hts, Hf, Hm, Hn, Hn', Hdue.
  destruct (sorted_list s now Hts) as (idx & -> & Hp & Hs).
  assert (forall j x, m_tasks s !! j = Some x -> exists l, 0 <= l <= 50 /\
    score_at (m_tasks s) now j = (m_task_priority x - m_nice x) * 100 + 320 * l) as Hsc.
  { intros j x Ex. pose proof (Forall_lookup_1 _ _ _ _ Hts Ex) as Hx.
    destruct (Forall_lookup_1 _ _ _ _ Hf Ex) as (F1 & F2 & F3 & F4).
    unfold score_at. rewrite Ex. pose proof (next_due_ok _ _ Hx) as Hd. destruct Hx as (X1 & X2 & _).
    simpl. rewrite fifo_score by (done || lia). simpl. eexists. split; [|done].
    assert (0 <= Z.max 0 (now - next_due x) / 100) by div_lia. lia. }
  destruct (Hsc i t Et) as (li & Hli & Ei).
  assert (i ∈ idx) as Hin by (rewrite Hp; apply elem_of_seq; apply lookup_lt_Some in Et; lia).
  destruct idx as [|h idx]; [by apply not_elem_of_nil in Hin|]. inversion Hs as [|? ? _ Hmax]; subst.
  assert (h = i) as ->.
  { destruct (decide (h = i)) as [|Hne]; [done|]. exfalso. apply elem_of_cons in Hin as [->|Hin]; [done|].
    pose proof (proj1 (Forall_forall _ _) Hmax i Hin) as Hle. simpl in Hle.
    assert (h < length (m_tasks s))%nat as Hh.
    { assert (h ∈ h :: idx) as Hh by left. rewrite Hp in Hh. apply elem_of_seq in Hh. lia. }
    destruct (lookup_lt_is_Some_2 _ _ Hh) as [x Ex]. destruct (Hsc h x Ex) as (lh & Hlh & Eh).
    pose proof (Htop h x Ex Hne). lia. }
  cbn [handle_loop]. pose proof (Hmillis w1) as Hm1. destruct (util_millis w1) as [now' w2].
  simpl in Hm1, Hdue, Hn'. simpl m_tasks. rewrite Et. cbn [andb]. unfold consume_signal. rewrite Hsig. simpl.
  destruct (decide _); [done|]. destruct (Z.ltb_spec now' (m_last_millis t)); [lia|].
  pose proof (Forall_lookup_1 _ _ _ _ Hts Et) as ([X1 _] & _).
  unfold is_due. rewrite u64_small by lia.
  destruct (Z.geb_spec (now' - m_last_millis t) (m_duration t)); [lia|]. rewrite andb_false_r.
  simpl. rewrite Hu. eexists _, _. split; [done|]. rewrite Hyield, Hm1. done.
Qed.
End rounds.

(** *** Properties *)

(** [getSortedTaskList] returns every index once, in the order of falling scores. *)
Theorem scheduler_sorts s now : Forall (task_times_ok now) (m_tasks s) ->
  exists idx, getSortedTaskList s now = Some idx /\ idx ≡ₚ seq 0 (length (m_tasks s)) /\
    StronglySorted (fun a b => score_at (m_tasks s) now b <= score_at (m_tasks s) now a) idx.
Proof. apply sorted_list. Qed.

(** [register_task] adds one task at the end unless the limit is reached, and keeps
    the identifiers other than -1 distinct; the identifier it returns is new and positive
    as long as two places are free.  With one place left and all identifiers used, it
    registers the task and returns -1, the answer for failure. *)
Theorem scheduler_register_ids {W} (util_millis : W -> Z * W) fn d prio last att name owner s w :
  1 <= m_max_tasks s -> ids_ok s ->
  let '(id, s', _) := register_task util_millis fn d prio last att name owner s w in
  if zlen (m_tasks s) <? m_max_tasks s then
    (exists t, m_tasks s' = m_tasks s ++ [t] /\ m_task_id t = id /\ m_task t = fn) /\ ids_ok s' /\
    (zlen (m_tasks s) < m_max_tasks s - 1 -> 1 <= id < m_max_tasks s /\ id ∉ ids s) /\
    ((forall k, 1 <= k < m_max_tasks s -> k ∈ ids s) -> id = -1) /\
    (zlen (m_tasks s) < m_capacity s -> m_moved s' = m_moved s)
  else id = -1 /\ s' = s.
Proof.
  intros Hm Hok. unfold register_task. destruct (Z.ltb_spec (zlen (m_tasks s)) (m_max_tasks s)); [|done].
  destruct (if m_util s then util_millis w else (0, w)) as [created w'].
  split; [eexists; split; [done|]; done|]. split; [by apply ids_ok_push|].
  split; [intros; by apply get_unique_fresh|]. split.
  - intros Hall. destruct (get_unique_spec s Hm) as [[E _]|[Hr Hn]]; [done|]. by destruct Hn; apply Hall.
  - intros Hc. simpl. destruct (Z.leb_spec (m_capacity s) (zlen (m_tasks s))); [lia|done].
Qed.

(** removing expired tasks keeps the others in their order and removes at least half
    of the expired ones; of two neighbours it removes one. *)
Theorem scheduler_reaps_half s :
  filter (fun t => expired t = false) (m_tasks (remove_expired_tasks s)) =
    filter (fun t => expired t = false) (m_tasks s) /\
  (2 * length (filter (fun t => expired t = true) (m_tasks (remove_expired_tasks s))) <=
   length (filter (fun t => expired t = true) (m_tasks s)))%nat /\
  (forall a b, m_tasks s = [a; b] -> expired a = true -> expired b = true ->
     m_tasks (remove_expired_tasks s) = [b]).
Proof.
  destruct (remove_expired_spec (length (m_tasks s)) (m_tasks s) ltac:(lia)) as [H1 H2].
  split; [done|]. split; [done|]. intros a b E Ha Hb. unfold remove_expired_tasks. simpl. rewrite E.
  unfold expired in Ha. simpl. by rewrite Ha.
Qed.

(** [sendSignalByName] marks exactly the eligible tasks and returns their number: a
    requester that is not root signals its own tasks only. *)
Theorem scheduler_signals_own s nm name sig requester is_root :
  cstring nm name -> name <> [] -> names_ok (m_tasks s) -> zlen (m_tasks s) < 65536 ->
  sendSignalByName (Some nm) sig requester is_root s =
    Some (Z.of_nat (length (filter (fun t => eligible name requester is_root t = true) (m_tasks s))),
          set_m_tasks (map (fun t => if eligible name requester is_root t then set_m_pending_sig sig t
                                     else t) (m_tasks s)) s).
Proof.
  intros Hn Hne Hok Hz. unfold sendSignalByName. rewrite (strlen_cstring _ _ Hn).
  destruct (cstring_first nm name Hn) as (x & -> & ->). rewrite bool_decide_eq_false_2 by done.
  replace (Z.to_nat (zlen name + 1)) with (S (length name)) by (unfold zlen; lia).
  by rewrite signal_loop_spec.
Qed.

(** a timeout fires once: a scheduler whose only task is a [setTimeout] of [d]
    milliseconds at time [now] leaves it alone before [now + d], and then runs its
    callback and is empty. *)
Theorem scheduler_timeout_fires_once {W} (util_millis util_micros : W -> Z * W) (util_yield : W -> W)
    (call : nat -> TaskScheduler -> W -> TaskScheduler * W) (log : W -> list nat)
    (Hmillis : forall w, log (util_millis w).2 = log w)
    (Hmicros : forall w, log (util_micros w).2 = log w)
    (Hyield : forall w, log (util_yield w) = log w)
    (Hcall : forall fn s w, (call fn s w).1 = s /\ log (call fn s w).2 = log w ++ [fn])
    fn d now prio name owner w0 w :
  0 <= now -> 0 <= d ->
  let '(id, s, _) := setTimeout util_millis (Some fn) d now prio name owner
    (setUtilityInterface true TaskScheduler_ctor) w0 in
  let T := (util_millis (util_millis w).2).1 in
  now <= T < 4294967296 ->
  id = 1 /\
  exists s' w', handle_tasks util_millis util_micros util_yield call false s w = Some (s', w') /\
    if T <? now + d then m_tasks s' = m_tasks s /\ log w' = log w
    else m_tasks s' = [] /\ log w' = log w ++ [fn].
Proof.
  intros Hn Hd. unfold setTimeout, register_task. simpl. destruct (util_millis w0) as [created w0'].
  intros HT. split; [done|]. unfold handle_tasks. simpl negb. cbv iota.
  pose proof (Hmillis w) as Hm. destruct (util_millis w) as [now1 w1]. simpl in Hm, HT.
  set (t := mkTask _ _ _ _ _ _ _ _ _ _ _ _ _ _ _ _ _).
  change (push_back t _) with (mkSched [t] true 25 false 25 0).
  change (getSortedTaskList (mkSched [t] true 25 false 25 0) now1) with (Some [0%nat]).
  change (set_rebase true _) with (mkSched [t] true 25 true 25 0). cbn [handle_loop].
  cbn [snd]. pose proof (Hmillis w1) as Hm1. destruct (util_millis w1) as [T w2]. simpl in Hm1, HT |- *.
  destruct (Z.ltb_spec T now); [lia|]. unfold is_due. simpl. rewrite u64_small by lia.
  destruct (Z.geb_spec (T - now) d), (Z.ltb_spec T (now + d)); try lia.
  - unfold run_callback. simpl. pose proof (Hmicros w2) as L1. destruct (util_micros w2) as [b w3].
    simpl in L1. set (s1 := set_m_tasks _ _). destruct (Hcall fn s1 w3) as [L2 L3].
    destruct (call fn s1 w3) as [s2 w4]. simpl in L2, L3. subst s2. rewrite Nat.eqb_refl. simpl.
    pose proof (Hmicros w4) as L4. destruct (util_micros w4) as [e w5]. simpl in L4 |- *.
    eexists _, _. split; [done|]. split; [|by rewrite Hyield, L4, L3, L1, Hm1, Hm].
    unfold remove_expired_tasks. simpl. set (x := after_run T _).
    assert (m_max_attempts x = 0) as ->; [|done]. unfold x. by apply after_run_last.
  - simpl. eexists _, _. split; [done|]. split; [done|]. simpl. by rewrite Hyield, Hm1, Hm.
Qed.

(** *** Instances *)

(** A device whose clock stands at a time, and the callbacks it has run. *)
Record Clock := mkClock { clock_ms : Z; clock_log : list nat }.

Definition clock_millis (c : Clock) : Z * Clock := (u32 (clock_ms c), c).
Definition clock_micros (c : Clock) : Z * Clock := (u64 (1000 * clock_ms c), c).
Definition clock_yield (c : Clock) : Clock := c.
Definition clock_call (fn : nat) (s : TaskScheduler) (c : Clock) : TaskScheduler * Clock :=
  (s, mkClock (clock_ms c) (clock_log c ++ [fn])).

Definition task0 (id priority duration last : Z) : task_t :=
  mkTask id (-1) duration last (Some (Z.to_nat id)) priority 0 TASK_MODE_INLINE TASK_POLICY_FIFO
    (Some [97; 0]) 7 TASK_STATE_SLEEPING 0 0 0 0 SIG_NONE.

(** A task with priority 200 that is due in an hour, and one that is 4 s late. *)
Definition sched0 : TaskScheduler :=
  mkSched [task0 1 0 10 990; task0 2 200 3600000 1000] true 25 false 25 0.

Lemma sched0_times : Forall (task_times_ok 5000) (m_tasks sched0).
Proof. repeat constructor; simpl; try lia; eexists; reflexivity. Qed.

Lemma clock_range c : 0 <= (clock_millis c).1 < 18446744073709551616.
Proof. simpl. unfold u32. div_lia. Qed.

(** A stopped task, one that is due, and one of a lower score. *)
Definition sched1 : TaskScheduler :=
  mkSched [task0 1 0 10 990; set_m_state TASK_STATE_STOPPED (task0 2 200 10 1000); task0 3 100 10 1000] true 25 false 25 0.

Lemma sched1_times : Forall (task_times_ok 5000) (m_tasks sched1).
Proof. repeat constructor; simpl; try lia; eexists; reflexivity. Qed.

(** The callback of the third task is run, and no other. *)
Lemma scheduler_round_runs_one_witness :
  exists s' w', handle_tasks clock_millis clock_micros clock_yield clock_call false sched1 (mkClock 5000 []) = Some (s', w') /\
    (exists idx, idx ≡ₚ seq 0 3 /\ StronglySorted (fun a b => score_at (m_tasks sched1) 5000 b <= score_at (m_tasks sched1) 5000 a) idx /\
      clock_log w' = round_runs clock_millis false (m_tasks sched1) idx (mkClock 5000 [])) /\
    clock_log w' = [3%nat].
Proof.
  destruct (scheduler_round_runs_one clock_millis clock_micros clock_yield clock_call false clock_log
    (fun _ => eq_refl) clock_range (fun _ => eq_refl) (fun _ => eq_refl) (fun _ _ _ => eq_refl)
    (fun _ _ _ => conj eq_refl (conj (Nat.le_refl _) eq_refl)) sched1 (mkClock 5000 []) sched1_times) as (s' & w' & E & H).
  exists s', w'. split; [exact E|]. split; [exact H|].
  pose proof (eq_refl : option_map (fun p => clock_log p.2) (handle_tasks clock_millis clock_micros clock_yield clock_call false sched1 (mkClock 5000 [])) = Some [3%nat]) as E'.
  rewrite E in E'. by injection E' as E'.
Defined.

Lemma scheduler_undue_task_blocks_witness :
  exists s' w', handle_tasks clock_millis clock_micros clock_yield clock_call false sched0
      (mkClock 5000 []) = Some (s', w') /\ clock_log w' = [].
Proof.
  apply (scheduler_undue_task_blocks clock_millis clock_micros clock_yield clock_call false clock_log
    (fun _ => eq_refl) (fun _ => eq_refl) sched0 (mkClock 5000 []) 1%nat
    (task0 2 200 3600000 1000)).
  - reflexivity.
  - reflexivity.
  - exact sched0_times.
  - repeat constructor; simpl; try lia; vm_compute; reflexivity || discriminate.
  - vm_compute. split; [discriminate|reflexivity].
  - reflexivity.
  - reflexivity.
  - intros [|[|j]] x E Hj; simplify_eq/=; lia || done.
  - reflexivity.
  - discriminate.
  - vm_compute. split; [discriminate|reflexivity].
Defined.

Lemma scheduler_sorts_witness :
  exists idx, getSortedTaskList sched0 5000 = Some idx /\ idx ≡ₚ [0%nat; 1%nat].
Proof.
  destruct (scheduler_sorts sched0 5000 sched0_times) as (idx & E & Hp & _). exists idx.
  split; [exact E|exact Hp].
Defined.

Lemma scheduler_register_ids_witness :
  let '(id, s', _) := register_task clock_millis (Some 3%nat) 10 0 0 (-1) None 0 sched0 (mkClock 5000 []) in
  1 <= id < 25 /\ ids_ok s'.
Proof.
  assert (ids_ok sched0) as Hok.
  { split; [by apply (bool_decide_unpack _)|].
    constructor; [right; simpl; lia|]. constructor; [right; simpl; lia|constructor]. }
  pose proof (scheduler_register_ids clock_millis (Some 3%nat) 10 0 0 (-1) None 0 sched0 (mkClock 5000 [])
    ltac:(simpl; lia) Hok) as H.
  destruct (register_task _ _ _ _ _ _ _ _ _ _) as [[id s'] w']. destruct H as (_ & H1 & H2 & _).
  split; [|exact H1]. exact (proj1 (H2 ltac:(vm_compute; reflexivity))).
Defined.

Lemma scheduler_signals_own_witness :
  exists s', sendSignalByName (Some [97; 0]) SIG_KILL 7 false sched0 = Some (2, s').
Proof.
  assert (names_ok (m_tasks sched0)) as Hok.
  { repeat constructor; simpl; intros n [= <-]; exists [97]; (split; [by repeat constructor|by exists []]). }
  eexists. refine (scheduler_signals_own sched0 [97; 0] [97] SIG_KILL 7 false _ _ Hok _).
  - split; [by repeat constructor|by exists []].
  - discriminate.
  - reflexivity.
Defined.

Lemma scheduler_timeout_fires_once_witness :
  let '(id, s, _) := setTimeout clock_millis (Some 4%nat) 100 1000 0 None 0
    (setUtilityInterface true TaskScheduler_ctor) (mkClock 1000 []) in
  exists s' w', handle_tasks clock_millis clock_micros clock_yield clock_call false s (mkClock 1100 []) =
      Some (s', w') /\ m_tasks s' = [] /\ clock_log w' = [4%nat].
Proof.
  apply (scheduler_timeout_fires_once clock_millis clock_micros clock_yield clock_call clock_log
    (fun _ => eq_refl) (fun _ => eq_refl) (fun _ => eq_refl) (fun _ _ _ => conj eq_refl eq_refl)
    4 100 1000 0 None 0 (mkClock 1000 []) (mkClock 1100 []) ltac:(lia) ltac:(lia)).
  vm_compute. split; [discriminate|reflexivity].
Defined.

End Scheduler.
