(* ===== verification/FileSys.v ===== *)
(** * What a file system promises ([src/interface/pdi/modules/storage/iFileSystemInterface.h])

    The data the file systems share: paths, file types, what is known of a file, and the
    session and clock new files are stamped with; the interface as the class
    [iFileSystem], and what its clients rely on as the class [FileSystemLaws]. *)

From stdpp Require Import base option list numbers.
From Stdlib Require Import ZArith Lia.
From S2P Require Import Prelude.

Open Scope Z_scope.

(** ** Data *)

Abbreviation path := (list Z).

Inductive file_type := FILE_TYPE_REG | FILE_TYPE_DIR | FILE_TYPE_LINK.

#[export] Instance file_type_eq_dec : EqDecision file_type.
Proof. solve_decision. Defined.

Definition is_type (a b : file_type) : bool := bool_decide (a = b).

(** [file_info_t] without the name. *)
Record file_info := mkInfo { i_type : file_type; i_size : Z; i_perms : Z; i_uid : Z; i_gid : Z;
  i_ctime : Z; i_mtime : Z }.

(** What the hooks [nowEpoch], [currentOwner] and [currentUmask] return. *)
Record env := mkEnv { e_now : Z; e_uid : Z; e_gid : Z; e_umask : Z }.

Definition FILE_ATTR_CTIME : Z := 1.
Definition FILE_ATTR_MTIME : Z := 2.
Definition FILE_ATTR_PERMS : Z := 3.
Definition FILE_ATTR_UID : Z := 4.
Definition FILE_ATTR_GID : Z := 5.

Definition FILE_PERM_DEFAULT_FILE : Z := 420. (* 0644 *)
Definition FILE_PERM_DEFAULT_DIR : Z := 493. (* 0755 *)

(** ** Reading in pieces *)

(** What the callback is given: pieces of at most [k] bytes. *)
Fixpoint chunks (fuel k : nat) (l : list Z) : list (list Z) :=
  match fuel, l with
  | S fuel, _ :: _ => take k l :: chunks fuel k (drop k l)
  | _, _ => []
  end.

(** The callback on every piece until it declines one; the bytes it took. *)
Fixpoint deliver {X} (cb : X -> list Z -> bool * X) (x : X) (cs : list (list Z)) : Z * X :=
  match cs with
  | [] => (0, x)
  | c :: cs => let '(more, x) := cb x c in
               if more : bool then let '(n, x) := deliver cb x cs in (zlen c + n, x) else (0, x)
  end.

Lemma concat_chunks fuel k l : (0 < k)%nat -> (length l <= fuel)%nat -> concat (chunks fuel k l) = l.
Proof.
  intros Hk. revert l. induction fuel as [|fuel IH]; intros [|x l] Hl; cbn [chunks]; try done; [cbn in Hl; lia|].
  cbn [concat]. rewrite IH; [apply take_drop|]. rewrite length_drop. cbn in *. lia.
Qed.

Lemma chunks_fuel f g k l : (0 < k)%nat -> (length l <= f)%nat -> (length l <= g)%nat -> chunks f k l = chunks g k l.
Proof.
  intros Hk. revert g l. induction f as [|f IH]; intros [|g] [|x l] Hf Hg; cbn in Hf, Hg; try done; try lia.
  cbn [chunks]. f_equal. apply IH; rewrite length_drop; cbn; lia.
Qed.

Lemma chunks_min n l : 0 < n -> chunks (length l) (Z.to_nat (Z.min n (zlen l))) l = chunks (length l) (Z.to_nat n) l.
Proof.
  intros Hn. destruct (Z.min_spec n (zlen l)) as [[_ ->]|[Hle ->]]; [done|]. unfold zlen in *. rewrite Nat2Z.id.
  destruct l as [|x l]; [done|]. remember (x :: l) as l0 eqn:E. destruct (length l0) as [|m] eqn:El; [by rewrite E in El|].
  assert (forall k, (length l0 <= k)%nat -> chunks (S m) k l0 = [l0]) as H.
  { intros k Hk. rewrite E in Hk |- *. cbn [chunks]. rewrite take_ge, drop_ge by done. by destruct m. }
  by rewrite !H by lia.
Qed.

Lemma deliver_collect cs acc :
  deliver (fun acc d => (true, acc ++ d)) acc cs = (zlen (concat cs), acc ++ concat cs).
Proof.
  revert acc. induction cs as [|c cs IH]; intros acc; cbn; [by rewrite app_nil_r|].
  rewrite IH, zlen_app. by rewrite <- app_assoc.
Qed.

Lemma deliver_nonneg {X} (cb : X -> list Z -> bool * X) x cs : 0 <= fst (deliver cb x cs).
Proof.
  revert x. induction cs as [|c cs IH]; intros x; cbn; [lia|]. destruct (cb x c) as [[|] y]; [|cbn; lia].
  specialize (IH y). destruct (deliver cb y cs) as [n z]. cbn in *. pose proof (zlen_nonneg c). lia.
Qed.

(** ** The interface

    The virtual functions of [iFileSystemInterface] that take a path.  A path is a C string
    or null, content a block of memory or null, the callback of [readFile] has a state of
    its own, and reading stops at a text when one is given.  Results are the return value and the new state, [None] undefined behaviour.
    The callbacks that let other tasks run while a file is searched are left out. *)

Class iFileSystem (B : Type) := {
  fs_init : B -> option (Z * B);
  fs_createFile : env -> B -> option path -> option (list Z) -> Z -> option (Z * B);
  fs_editFile : env -> B -> option path -> Z -> option (list Z) -> Z -> option (Z * B);
  fs_writeFile : env -> B -> option path -> option (list Z) -> Z -> bool -> option (Z * B);
  fs_readFile : forall X : Type, B -> option path -> Z -> (X -> list Z -> bool * X) -> Z -> option (list Z) -> X -> option (Z * X);
  fs_getOffsetFromLineNumber : B -> option path -> Z -> option Z;
  fs_getLineNumberFromOffset : B -> option path -> Z -> option Z;
  fs_findInFile : B -> option path -> option (list Z) -> Z -> Z -> Z -> option (Z * list Z);
  fs_getLineNumbersInFile : B -> option path -> Z -> Z -> option (Z * list Z);
  fs_readLineInFile : B -> option path -> Z -> option (list Z) -> option (Z * list Z);
  fs_createDirectory : env -> B -> option path -> option (Z * B);
  fs_deleteDirectory : env -> B -> option path -> option (Z * B);
  fs_rename : env -> B -> option path -> option path -> option (Z * B);
  fs_copyFile : env -> B -> option path -> option path -> option (Z * B);
  fs_moveFile : env -> B -> option path -> option path -> option (Z * B);
  fs_deleteFile : env -> B -> option path -> option (Z * B);
  fs_getFileSize : B -> option path -> option Z;
  fs_getDirFileList : B -> option path -> list (path * file_info) -> option (Z * list (path * file_info));
  fs_isFileExist : B -> option path -> option bool;
  fs_isDirExist : B -> option path -> option bool;
  fs_isDirectory : B -> option path -> option bool;
  fs_setFileAttr : env -> B -> option path -> Z -> option (list Z) -> Z -> option (Z * B);
  fs_getFileAttr : B -> option path -> Z -> option (list Z) -> Z -> option (Z * option (list Z));
  fs_removeFileAttr : env -> B -> option path -> Z -> option (Z * B);
  fs_getFileMeta : B -> option path -> option (Z * option file_info);
  fs_setFilePermissions : env -> B -> option path -> Z -> option (Z * B);
  fs_setFileOwner : env -> B -> option path -> Z -> Z -> option (Z * B);
  fs_touch : env -> B -> option path -> option (Z * B) }.

(** ** What clients rely on

    [fs_files b] is the content of the regular files of [b] by their names in normal form,
    [fs_norm b] gives the normal form of a path, [fs_ok] is the invariant of the
    implementation.  Operations that change a file leave every other one as it was, and
    the names too.  All of them may fail: a read that reports an error has delivered a part
    of the file, a write that does leaves the file in any state, and a deletion that does
    leaves it as it was, as the read-only file systems do. *)

Definition fs_frame {B} (norm : B -> path -> path) (files : B -> path -> option (list Z)) (q : path) (b b' : B) : Prop :=
  (forall k, k <> norm b q -> files b' k = files b k) /\ (forall r, norm b' r = norm b r).

Class FileSystemLaws (B : Type) `{iFileSystem B} := {
  fs_ok : B -> Prop;
  fs_norm : B -> path -> path;
  fs_files : B -> path -> option (list Z);
  law_size : forall b k d, fs_ok b -> fs_files b k = Some d -> zlen d < 2147483648;
  law_isFileExist : forall b q, fs_ok b ->
    fs_isFileExist b (Some q) = Some (match fs_files b (fs_norm b q) with Some _ => true | None => false end);
  law_isDirectory : forall b q d, fs_ok b -> fs_files b (fs_norm b q) = Some d -> fs_isDirectory b (Some q) = Some false;
  law_isDirExist : forall b q, fs_ok b -> exists r, fs_isDirExist b (Some q) = Some r;
  law_readFile : forall X b q d n cb (x : X), fs_ok b -> fs_files b (fs_norm b q) = Some d -> 0 < n < 2147483648 ->
    let cs := chunks (length d) (Z.to_nat n) d in
    exists rc k, fs_readFile X b (Some q) n cb 0 None x = Some (rc, snd (deliver cb x (take k cs))) /\ (0 <= rc -> take k cs = cs);
  law_writeFile : forall e b q c append, fs_ok b -> c <> [] -> zlen c < 2147483648 ->
    exists rc b', fs_writeFile e b (Some q) (Some c) (zlen c) append = Some (rc, b') /\ fs_ok b' /\ fs_frame fs_norm fs_files q b b' /\
      (0 <= rc -> fs_files b' (fs_norm b q) = Some ((if append then default [] (fs_files b (fs_norm b q)) else []) ++ c));
  law_createFile : forall e b q, fs_ok b -> fs_files b (fs_norm b q) = None ->
    exists rc b', fs_createFile e b (Some q) (Some [0]) 0 = Some (rc, b') /\ fs_ok b' /\ fs_frame fs_norm fs_files q b b' /\
      (0 <= rc /\ fs_files b' (fs_norm b q) = Some [] \/ rc < 0 /\ fs_files b' (fs_norm b q) = None);
  law_deleteFile : forall e b q, fs_ok b ->
    exists rc b', fs_deleteFile e b (Some q) = Some (rc, b') /\ fs_ok b' /\ fs_frame fs_norm fs_files q b b' /\
      fs_files b' (fs_norm b q) = (if rc =? 0 then None else fs_files b (fs_norm b q)) }.

(** ** Two implementations

    A pointer to the interface leads to an object of one class or of the other, and a
    virtual call to the function of that class. *)

Section either.
Context {A B : Type} {HA : iFileSystem A} {HB : iFileSystem B}.

Definition call_update (f : forall C : Type, iFileSystem C -> C -> option (Z * C)) (x : A + B) : option (Z * (A + B)) :=
  match x with
  | inl a => '(r, a) <- f A HA a;; Some (r, inl a)
  | inr b => '(r, b) <- f B HB b;; Some (r, inr b)
  end.

Definition call_query {R : Type} (f : forall C : Type, iFileSystem C -> C -> option R) (x : A + B) : option R :=
  match x with inl a => f A HA a | inr b => f B HB b end.

#[export] Instance either_fs : iFileSystem (A + B) := {|
  fs_init := call_update (fun C _ s => fs_init s);
  fs_createFile e x p c n := call_update (fun C _ s => fs_createFile e s p c n) x;
  fs_editFile e x p o c n := call_update (fun C _ s => fs_editFile e s p o c n) x;
  fs_writeFile e x p c n app := call_update (fun C _ s => fs_writeFile e s p c n app) x;
  fs_readFile X x p n cb o t y := call_query (fun C _ s => fs_readFile X s p n cb o t y) x;
  fs_getOffsetFromLineNumber x p n := call_query (fun C _ s => fs_getOffsetFromLineNumber s p n) x;
  fs_getLineNumberFromOffset x p o := call_query (fun C _ s => fs_getLineNumberFromOffset s p o) x;
  fs_findInFile x p t m n o := call_query (fun C _ s => fs_findInFile s p t m n o) x;
  fs_getLineNumbersInFile x p m n := call_query (fun C _ s => fs_getLineNumbersInFile s p m n) x;
  fs_readLineInFile x p n t := call_query (fun C _ s => fs_readLineInFile s p n t) x;
  fs_createDirectory e x p := call_update (fun C _ s => fs_createDirectory e s p) x;
  fs_deleteDirectory e x p := call_update (fun C _ s => fs_deleteDirectory e s p) x;
  fs_rename e x p q := call_update (fun C _ s => fs_rename e s p q) x;
  fs_copyFile e x p q := call_update (fun C _ s => fs_copyFile e s p q) x;
  fs_moveFile e x p q := call_update (fun C _ s => fs_moveFile e s p q) x;
  fs_deleteFile e x p := call_update (fun C _ s => fs_deleteFile e s p) x;
  fs_getFileSize x p := call_query (fun C _ s => fs_getFileSize s p) x;
  fs_getDirFileList x p items := call_query (fun C _ s => fs_getDirFileList s p items) x;
  fs_isFileExist x p := call_query (fun C _ s => fs_isFileExist s p) x;
  fs_isDirExist x p := call_query (fun C _ s => fs_isDirExist s p) x;
  fs_isDirectory x p := call_query (fun C _ s => fs_isDirectory s p) x;
  fs_setFileAttr e x p t v n := call_update (fun C _ s => fs_setFileAttr e s p t v n) x;
  fs_getFileAttr x p t v n := call_query (fun C _ s => fs_getFileAttr s p t v n) x;
  fs_removeFileAttr e x p t := call_update (fun C _ s => fs_removeFileAttr e s p t) x;
  fs_getFileMeta x p := call_query (fun C _ s => fs_getFileMeta s p) x;
  fs_setFilePermissions e x p m := call_update (fun C _ s => fs_setFilePermissions e s p m) x;
  fs_setFileOwner e x p u g := call_update (fun C _ s => fs_setFileOwner e s p u g) x;
  fs_touch e x p := call_update (fun C _ s => fs_touch e s p) x |}.

Context {LA : FileSystemLaws A} {LB : FileSystemLaws B}.

Definition either_ok (x : A + B) : Prop := match x with inl a => fs_ok a | inr b => fs_ok b end.
Definition either_norm (x : A + B) (q : path) : path := match x with inl a => fs_norm a q | inr b => fs_norm b q end.
Definition either_files (x : A + B) (k : path) : option (list Z) := match x with inl a => fs_files a k | inr b => fs_files b k end.

Lemma either_writeFile e x q c append : either_ok x -> c <> [] -> zlen c < 2147483648 ->
  exists rc x', fs_writeFile e x (Some q) (Some c) (zlen c) append = Some (rc, x') /\ either_ok x' /\ fs_frame either_norm either_files q x x' /\
    (0 <= rc -> either_files x' (either_norm x q) = Some ((if append then default [] (either_files x (either_norm x q)) else []) ++ c)).
Proof.
  destruct x as [a|b]; intros Hok Hc Hl.
  - destruct (law_writeFile e a q c append Hok Hc Hl) as (rc & a' & E & ?). exists rc, (inl a'). cbn. by rewrite E.
  - destruct (law_writeFile e b q c append Hok Hc Hl) as (rc & b' & E & ?). exists rc, (inr b'). cbn. by rewrite E.
Qed.

Lemma either_createFile e x q : either_ok x -> either_files x (either_norm x q) = None ->
  exists rc x', fs_createFile e x (Some q) (Some [0]) 0 = Some (rc, x') /\ either_ok x' /\ fs_frame either_norm either_files q x x' /\
    (0 <= rc /\ either_files x' (either_norm x q) = Some [] \/ rc < 0 /\ either_files x' (either_norm x q) = None).
Proof.
  destruct x as [a|b]; intros Hok Hn.
  - destruct (law_createFile e a q Hok Hn) as (rc & a' & E & ?). exists rc, (inl a'). cbn. by rewrite E.
  - destruct (law_createFile e b q Hok Hn) as (rc & b' & E & ?). exists rc, (inr b'). cbn. by rewrite E.
Qed.

Lemma either_deleteFile e x q : either_ok x ->
  exists rc x', fs_deleteFile e x (Some q) = Some (rc, x') /\ either_ok x' /\ fs_frame either_norm either_files q x x' /\
    either_files x' (either_norm x q) = (if rc =? 0 then None else either_files x (either_norm x q)).
Proof.
  destruct x as [a|b]; intros Hok.
  - destruct (law_deleteFile e a q Hok) as (rc & a' & E & ?). exists rc, (inl a'). cbn. by rewrite E.
  - destruct (law_deleteFile e b q Hok) as (rc & b' & E & ?). exists rc, (inr b'). cbn. by rewrite E.
Qed.

#[export] Instance either_laws : FileSystemLaws (A + B).
Proof.
  refine {| fs_ok := either_ok; fs_norm := either_norm; fs_files := either_files; law_writeFile := either_writeFile;
    law_createFile := either_createFile; law_deleteFile := either_deleteFile |}.
  - intros [a|b] k d; [apply (law_size a)|apply (law_size b)].
  - intros [a|b] q; [apply (law_isFileExist a)|apply (law_isFileExist b)].
  - intros [a|b] q d; [apply (law_isDirectory a)|apply (law_isDirectory b)].
  - intros [a|b] q; [apply (law_isDirExist a)|apply (law_isDirExist b)].
  - intros X [a|b] q d n cb x; [apply (law_readFile X a)|apply (law_readFile X b)].
Defined.
End either.
