(* ===== verification/TmpFs.v ===== *)
(** * The RAM file system ([src/interface/pdi/impl/modules/storage/TmpFs.cpp])

    Every operation of [TmpFs] on its vector of nodes.  A path is a C string ([None] is a
    null pointer), content is the memory behind the pointer; the session and the clock
    the nodes are stamped with are the argument [env].  Results are the return value and
    the state; [None] is undefined behaviour.

    The theorems: the nodes form a tree within the limits of the configuration, which
    every operation keeps but renaming a directory into itself; the operations implement
    a finite map from paths to files; what is written is read back. *)

From stdpp Require Import base option list numbers gmap.
From Stdlib Require Import ZArith Lia.
From S2P Require Import Prelude FileSys.

Open Scope Z_scope.

Module TmpFs.

Definition TMPFS_MAX_BYTES : Z := 4096.
Definition TMPFS_MAX_NODES : Z := 24.
Definition TMPFS_MAX_PATH : Z := 63.

Record tmpfs_node := mkNode { m_path : path; m_data : list Z; m_type : file_type; m_perms : Z;
  m_uid : Z; m_gid : Z; m_ctime : Z; m_mtime : Z }.

Definition set_path (p : path) (n : tmpfs_node) :=
  mkNode p (m_data n) (m_type n) (m_perms n) (m_uid n) (m_gid n) (m_ctime n) (m_mtime n).
Definition set_content (d : list Z) (n : tmpfs_node) :=
  mkNode (m_path n) d (m_type n) (m_perms n) (m_uid n) (m_gid n) (m_ctime n) (m_mtime n).
Definition set_perms (x : Z) (n : tmpfs_node) :=
  mkNode (m_path n) (m_data n) (m_type n) x (m_uid n) (m_gid n) (m_ctime n) (m_mtime n).
Definition set_uid (x : Z) (n : tmpfs_node) :=
  mkNode (m_path n) (m_data n) (m_type n) (m_perms n) x (m_gid n) (m_ctime n) (m_mtime n).
Definition set_gid (x : Z) (n : tmpfs_node) :=
  mkNode (m_path n) (m_data n) (m_type n) (m_perms n) (m_uid n) x (m_ctime n) (m_mtime n).
Definition set_ctime (x : Z) (n : tmpfs_node) :=
  mkNode (m_path n) (m_data n) (m_type n) (m_perms n) (m_uid n) (m_gid n) x (m_mtime n).
Definition set_mtime (x : Z) (n : tmpfs_node) :=
  mkNode (m_path n) (m_data n) (m_type n) (m_perms n) (m_uid n) (m_gid n) (m_ctime n) x.

Abbreviation nodes := (list tmpfs_node).

(** ** Paths *)

Fixpoint skip_slashes (p : path) : path :=
  match p with
  | c :: p' => if c =? 47 then skip_slashes p' else p
  | [] => []
  end.

(** [while (out.length() > 0 && out[out.length() - 1] == '/') out.erase(...)] *)
Fixpoint erase_slashes (fuel : nat) (out : path) : path :=
  match fuel with
  | O => out
  | S fuel =>
      match last out with
      | Some c => if c =? 47 then erase_slashes fuel (take (length out - 1) out) else out
      | None => out
      end
  end.

Definition normalize (p : option path) : path :=
  match p with
  | None => []
  | Some p => let out := skip_slashes p in erase_slashes (length out) out
  end.

Fixpoint find_from (i : Z) (s : nodes) (norm : path) : Z :=
  match s with
  | [] => -1
  | n :: s => if bool_decide (m_path n = norm) then i else find_from (i + 1) s norm
  end.

Definition findNode (s : nodes) (norm : path) : Z := find_from 0 s norm.

(** The position of the last slash before [i], or -1. *)
Fixpoint cut_from (i : nat) (norm : path) : Z :=
  match i with
  | O => -1
  | S i => if bool_decide (norm !! i = Some 47) then Z.of_nat i else cut_from i norm
  end.

Definition parentOf (norm : path) : path :=
  let cut := cut_from (length norm) norm in
  if cut <? 0 then [] else take (Z.to_nat cut) norm.

Definition node_at (s : nodes) (i : Z) : option tmpfs_node := s !! Z.to_nat i.

Definition parentExists (s : nodes) (norm : path) : option bool :=
  let parent := parentOf norm in
  if bool_decide (parent = []) then Some true
  else
    let idx := findNode s parent in
    if idx >=? 0 then n <- node_at s idx;; Some (is_type (m_type n) FILE_TYPE_DIR) else Some false.

Definition usedBytes (s : nodes) : Z := foldl (fun total n => u32 (total + u32 (zlen (m_data n)))) 0 s.

Definition stampNew (e : env) (defperms : Z) (n : tmpfs_node) : tmpfs_node :=
  mkNode (m_path n) (m_data n) (m_type n) (u16 (Z.land defperms (Z.lnot (e_umask e))))
    (e_uid e) (e_gid e) (e_now e) (e_now e).

(** A node before it is stamped; its other fields have no value yet. *)
Definition new_node (p : path) (d : list Z) (t : file_type) : tmpfs_node := mkNode p d t 0 0 0 0 0.

(** ** Writing *)

(** [if (content && size > 0) data.append(content, size)] *)
Definition append_content (data : list Z) (content : option (list Z)) (size : Z) : option (list Z) :=
  match content with
  | Some c => if size >? 0 then x <- msub c 0 size;; Some (data ++ x) else Some data
  | None => Some data
  end.

Definition putContent (e : env) (s : nodes) (norm : path) (content : option (list Z)) (size : Z) (append : bool)
  : option (Z * nodes) :=
  if bool_decide (norm = []) || (zlen norm >? TMPFS_MAX_PATH) then Some (-1, s)
  else
    let idx := findNode s norm in
    isdir <- (if idx >=? 0 then n <- node_at s idx;; Some (is_type (m_type n) FILE_TYPE_DIR) else Some false);;
    if isdir : bool then Some (-1, s)
    else if idx <? 0 then
      pe <- parentExists s norm;;
      if negb pe then Some (-1, s)
      else if zlen s >=? TMPFS_MAX_NODES then Some (-1, s)
      else if u32 (usedBytes s + size) >? TMPFS_MAX_BYTES then Some (-1, s)
      else
        d <- append_content [] content size;;
        let n := set_content d (stampNew e FILE_PERM_DEFAULT_FILE (new_node norm [] FILE_TYPE_REG)) in
        Some (i32 size, s ++ [n])
    else
      node <- node_at s idx;;
      let oldlen := u32 (zlen (m_data node)) in
      let newused := if append then u32 (usedBytes s + size) else u32 (usedBytes s - oldlen + size) in
      if newused >? TMPFS_MAX_BYTES then Some (-1, s)
      else
        d <- append_content (if append then m_data node else []) content size;;
        Some (i32 size, <[Z.to_nat idx := set_mtime (e_now e) (set_content d node)]> s).

Definition createFile (e : env) (s : nodes) (p : option path) (content : option (list Z)) (size : Z)
  : option (Z * nodes) :=
  let norm := normalize p in
  if bool_decide (norm = []) then Some (-1, s)
  else if findNode s norm >=? 0 then Some (-1, s)
  else
    len <- (if size <? 0 then match content with Some c => l <- strlen c;; Some (u32 l) | None => Some 0 end
            else Some (u32 size));;
    putContent e s norm content len false.

Definition writeFile (e : env) (s : nodes) (p : option path) (content : option (list Z)) (size : Z) (append : bool)
  : option (Z * nodes) :=
  putContent e s (normalize p) content size append.

(** The copy loop of [editFile]: [data[(uint32_t)offset + i] = content[i]]. *)
Fixpoint edit_loop (n : nat) (i : Z) (offset : Z) (content data : list Z) : option (list Z) :=
  match n with
  | O => Some data
  | S n => x <- mget content i;; data <- mset data (u32 (u32 offset + i)) x;; edit_loop n (i + 1) offset content data
  end.

Definition editFile (e : env) (s : nodes) (p : option path) (offset : Z) (content : option (list Z)) (size : Z)
  : option (Z * nodes) :=
  let norm := normalize p in
  let idx := findNode s norm in
  if idx <? 0 then Some (-1, s)
  else
    node <- node_at s idx;;
    match is_type (m_type node) FILE_TYPE_REG, content with
    | true, Some c =>
        let oldlen := u32 (zlen (m_data node)) in
        let ende := u32 (u32 offset + size) in
        if (ende >? oldlen) && (u32 (usedBytes s - oldlen + ende) >? TMPFS_MAX_BYTES) then Some (-1, s)
        else
          let data := if ende >? oldlen then m_data node ++ replicate (Z.to_nat ende - length (m_data node)) 0 else m_data node in
          d <- edit_loop (Z.to_nat size) 0 offset c data;;
          Some (i32 size, <[Z.to_nat idx := set_mtime (e_now e) (set_content d node)]> s)
    | _, _ => Some (-1, s)
    end.

(** [readbackfn(data + offset + done, n)] until it returns false or all is read; the
    callback has the state [x]. *)
Fixpoint read_chunks {X} (fuel : nat) (cb : X -> list Z -> bool * X) (data : list Z) (offset total chunk done : Z)
    (x : X) : option (Z * X) :=
  match fuel with
  | O => None
  | S fuel =>
      if done <? total then
        let n := Z.min (total - done) chunk in
        d <- msub data (offset + done) n;;
        let '(more, x) := cb x d in
        if more : bool then read_chunks fuel cb data offset total chunk (done + n) x else Some (i32 done, x)
      else Some (i32 done, x)
  end.

Definition readFile {X} (s : nodes) (p : option path) (size : Z) (cb : X -> list Z -> bool * X) (offset : Z) (x : X)
  : option (Z * X) :=
  match p with
  | None => Some (-1, x)
  | Some _ =>
      let idx := findNode s (normalize p) in
      if idx <? 0 then Some (-1, x)
      else
        node <- node_at s idx;;
        if negb (is_type (m_type node) FILE_TYPE_REG) then Some (-1, x)
        else
          let data := m_data node in
          if offset >=? zlen data then Some (0, x)
          else
            let total := u32 (u32 (zlen data) - u32 offset) in
            let chunk := if (size >? 0) && (size <? total) then size else total in
            read_chunks (S (Z.to_nat total)) cb data offset total chunk 0 x
  end.

(** ** The tree *)

Definition createDirectory (e : env) (s : nodes) (p : option path) : option (Z * nodes) :=
  let norm := normalize p in
  if bool_decide (norm = []) || (zlen norm >? TMPFS_MAX_PATH) then Some (-1, s)
  else if findNode s norm >=? 0 then Some (-1, s)
  else
    pe <- parentExists s norm;;
    if negb pe then Some (-1, s)
    else if zlen s >=? TMPFS_MAX_NODES then Some (-1, s)
    else Some (0, s ++ [stampNew e FILE_PERM_DEFAULT_DIR (new_node norm [] FILE_TYPE_DIR)]).

Definition deleteFile (s : nodes) (p : option path) : option (Z * nodes) :=
  let idx := findNode s (normalize p) in
  if idx <? 0 then Some (-1, s)
  else
    node <- node_at s idx;;
    if negb (is_type (m_type node) FILE_TYPE_REG) then Some (-1, s)
    else Some (0, delete (Z.to_nat idx) s).

(** [p.length() > prefix.length() && p.compare(0, prefix.length(), prefix) == 0] *)
Definition below (prefix p : path) : bool :=
  (zlen p >? zlen prefix) && bool_decide (take (length prefix) p = prefix).

(** The loop from the last node to the first. *)
Fixpoint delete_loop (i : nat) (norm : path) (s : nodes) : nodes :=
  match i with
  | O => s
  | S i =>
      match s !! i with
      | Some n => delete_loop i norm
                    (if bool_decide (m_path n = norm) || below (norm ++ [47]) (m_path n) then delete i s else s)
      | None => delete_loop i norm s
      end
  end.

Definition deleteDirectory (s : nodes) (p : option path) : option (Z * nodes) :=
  let norm := normalize p in
  if bool_decide (norm = []) then Some (-1, s)
  else
    let idx := findNode s norm in
    if idx <? 0 then Some (-1, s)
    else
      node <- node_at s idx;;
      if negb (is_type (m_type node) FILE_TYPE_DIR) then Some (-1, s)
      else Some (0, delete_loop (length s) norm s).

(** A path below the renamed directory. *)
Definition rebase (oldn newn p : path) : path :=
  if below (oldn ++ [47]) p then newn ++ [47] ++ drop (length (oldn ++ [47])) p else p.

Definition rename (s : nodes) (oldPath newPath : option path) : option (Z * nodes) :=
  let oldn := normalize oldPath in
  let newn := normalize newPath in
  if bool_decide (oldn = []) || bool_decide (newn = []) then Some (-1, s)
  else
    let oidx := findNode s oldn in
    if oidx <? 0 then Some (-1, s)
    else if findNode s newn >=? 0 then Some (-1, s)
    else
      pe <- parentExists s newn;;
      if negb pe then Some (-1, s)
      else if zlen newn >? TMPFS_MAX_PATH then Some (-1, s)
      else
        node <- node_at s oidx;;
        let s := <[Z.to_nat oidx := set_path newn node]> s in
        if is_type (m_type node) FILE_TYPE_DIR then
          Some (0, map (fun n => set_path (rebase oldn newn (m_path n)) n) s)
        else Some (0, s).

Definition moveFile := rename.

Definition copyFile (e : env) (s : nodes) (sourcePath destPath : option path) : option (Z * nodes) :=
  let src := normalize sourcePath in
  let dst := normalize destPath in
  let sidx := findNode s src in
  if sidx <? 0 then Some (-1, s)
  else
    snode <- node_at s sidx;;
    if negb (is_type (m_type snode) FILE_TYPE_REG) then Some (-1, s)
    else if bool_decide (dst = []) || (findNode s dst >=? 0) then Some (-1, s)
    else
      pe <- parentExists s dst;;
      if negb pe || (zlen dst >? TMPFS_MAX_PATH) then Some (-1, s)
      else if zlen s >=? TMPFS_MAX_NODES then Some (-1, s)
      else
        let len := u32 (zlen (m_data snode)) in
        if u32 (usedBytes s + len) >? TMPFS_MAX_BYTES then Some (-1, s)
        else
          let n := stampNew e FILE_PERM_DEFAULT_FILE (new_node dst (m_data snode) FILE_TYPE_REG) in
          Some (0, s ++ [n]).

Definition touch (e : env) (s : nodes) (p : option path) : option (Z * nodes) :=
  let idx := findNode s (normalize p) in
  if idx >=? 0 then
    node <- node_at s idx;; Some (0, <[Z.to_nat idx := set_mtime (e_now e) node]> s)
  else createFile e s p None 0.

(** ** Queries *)

Definition getFileSize (s : nodes) (p : option path) : option Z :=
  let idx := findNode s (normalize p) in
  if idx <? 0 then Some (-1)
  else
    node <- node_at s idx;;
    Some (if is_type (m_type node) FILE_TYPE_REG then zlen (m_data node) else -1).

Definition isFileExist (s : nodes) (p : option path) : option bool :=
  let idx := findNode s (normalize p) in
  if idx >=? 0 then node <- node_at s idx;; Some (is_type (m_type node) FILE_TYPE_REG) else Some false.

Definition isDirExist (s : nodes) (p : option path) : option bool :=
  let norm := normalize p in
  if bool_decide (norm = []) then Some true
  else
    let idx := findNode s norm in
    if idx >=? 0 then node <- node_at s idx;; Some (is_type (m_type node) FILE_TYPE_DIR) else Some false.

Definition isDirectory := isDirExist.

(** The loop of [basename]: [rest] is what [p] points to. *)
Fixpoint base_loop (rest last : path) : path :=
  match rest with
  | [] => last
  | c :: rest => base_loop rest (if c =? 47 then rest else last)
  end.

Definition basename (p : option path) : path :=
  match p with
  | None => []
  | Some p => base_loop p p
  end.

Definition node_size (n : tmpfs_node) : Z := if is_type (m_type n) FILE_TYPE_REG then zlen (m_data n) else 0.

Definition info_of (n : tmpfs_node) : file_info :=
  mkInfo (m_type n) (node_size n) (m_perms n) (m_uid n) (m_gid n) (m_ctime n) (m_mtime n).

(** The entries in the order of the nodes, with their names. *)
Definition getDirFileList (s : nodes) (p : option path) (items : list (path * file_info))
  : option (Z * list (path * file_info)) :=
  let norm := normalize p in
  ex <- isDirExist s p;;
  if negb ex then Some (-1, items)
  else
    let items := foldl (fun items n =>
      if bool_decide (parentOf (m_path n) = norm) then items ++ [(basename (Some (m_path n)), info_of n)] else items)
      items s in
    Some (zlen items, items).

(** ** Attributes *)

Definition root_info : file_info := mkInfo FILE_TYPE_DIR 0 511 0 0 0 0.

Definition getFileMeta (s : nodes) (p : option path) : option (Z * option file_info) :=
  let norm := normalize p in
  if bool_decide (norm = []) then Some (0, Some root_info)
  else
    let idx := findNode s norm in
    if idx <? 0 then Some (-1, None) else node <- node_at s idx;; Some (0, Some (info_of node)).

(** The bytes of an attribute in memory. *)
Definition le2 (x : Z) : list Z := [x mod 256; x / 256 mod 256].
Definition le4 (x : Z) : list Z := [x mod 256; x / 256 mod 256; x / 65536 mod 256; x / 16777216 mod 256].

Definition getFileAttr (s : nodes) (p : option path) (type : Z) (buffer : option (list Z)) (size : Z)
  : option (Z * option (list Z)) :=
  match buffer with
  | None => Some (-1, None)
  | Some b =>
      if size =? 0 then Some (-1, buffer)
      else
        let norm := normalize p in
        let idx := findNode s norm in
        i <- (if bool_decide (norm = []) then Some (Some root_info)
              else if idx <? 0 then Some None else node <- node_at s idx;; Some (Some (info_of node)));;
        match i with
        | None => Some (-1, buffer)
        | Some i =>
            let put2 x := b <- mcpy b 0 (le2 x);; Some (2, Some b) in
            let put4 x := b <- mcpy b 0 (le4 x);; Some (4, Some b) in
            if (type =? FILE_ATTR_PERMS) && (size >=? 2) then put2 (i_perms i)
            else if (type =? FILE_ATTR_UID) && (size >=? 2) then put2 (i_uid i)
            else if (type =? FILE_ATTR_GID) && (size >=? 2) then put2 (i_gid i)
            else if (type =? FILE_ATTR_CTIME) && (size >=? 4) then put4 (i_ctime i)
            else if (type =? FILE_ATTR_MTIME) && (size >=? 4) then put4 (i_mtime i)
            else Some (-1, buffer)
        end
  end.

Definition rd2 (b : list Z) : option Z := x <- mget b 0;; y <- mget b 1;; Some (x + 256 * y).
Definition rd4 (b : list Z) : option Z :=
  x <- rd2 b;; y <- mget b 2;; z <- mget b 3;; Some (x + 65536 * y + 16777216 * z).

Definition setFileAttr (s : nodes) (p : option path) (type : Z) (buffer : option (list Z)) (size : Z)
  : option (Z * nodes) :=
  match buffer with
  | None => Some (-1, s)
  | Some b =>
      if size =? 0 then Some (-1, s)
      else
        let idx := findNode s (normalize p) in
        if idx <? 0 then Some (-1, s)
        else
          node <- node_at s idx;;
          let put f rd := x <- rd b;; Some (i32 size, <[Z.to_nat idx := f x node]> s) in
          if (type =? FILE_ATTR_PERMS) && (size >=? 2) then put set_perms rd2
          else if (type =? FILE_ATTR_UID) && (size >=? 2) then put set_uid rd2
          else if (type =? FILE_ATTR_GID) && (size >=? 2) then put set_gid rd2
          else if (type =? FILE_ATTR_CTIME) && (size >=? 4) then put set_ctime rd4
          else if (type =? FILE_ATTR_MTIME) && (size >=? 4) then put set_mtime rd4
          else Some (-1, s)
  end.

Definition setFilePermissions (s : nodes) (p : option path) (perms : Z) : option (Z * nodes) :=
  let idx := findNode s (normalize p) in
  if idx <? 0 then Some (-1, s)
  else node <- node_at s idx;; Some (0, <[Z.to_nat idx := set_perms perms node]> s).

Definition setFileOwner (s : nodes) (p : option path) (uid gid : Z) : option (Z * nodes) :=
  let idx := findNode s (normalize p) in
  if idx <? 0 then Some (-1, s)
  else node <- node_at s idx;; Some (0, <[Z.to_nat idx := set_gid gid (set_uid uid node)]> s).

Definition getUsedSize (s : nodes) : Z := usedBytes s.
Definition getFreeSize (s : nodes) : Z :=
  let used := usedBytes s in if used >=? TMPFS_MAX_BYTES then 0 else TMPFS_MAX_BYTES - used.

(** ** Paths, properties *)

(** What [normalize] returns: neither the first nor the last character is a slash. *)
Definition norm_ok (p : path) : Prop := head p <> Some 47 /\ last p <> Some 47.

Lemma skip_slashes_head p : head (skip_slashes p) <> Some 47.
Proof. induction p as [|c p IH]; cbn; [done|]. destruct (Z.eqb_spec c 47); cbn; congruence. Qed.

Lemma erase_slashes_spec fuel p : (length p <= fuel)%nat -> exists k,
  p = erase_slashes fuel p ++ replicate k 47 /\ last (erase_slashes fuel p) <> Some 47.
Proof.
  revert p. induction fuel as [|fuel IH]; intros p Hf; cbn.
  - destruct p; [|cbn in Hf; lia]. by exists O.
  - destruct (last p) as [c|] eqn:El; [|exists O; rewrite app_nil_r, El; done].
    destruct (Z.eqb_spec c 47) as [->|Hc]; [|exists O; rewrite app_nil_r, El; split; [done|congruence]].
    apply last_Some in El as [q ->].
    assert (take (length (q ++ [47]) - 1) (q ++ [47]) = q) as ->.
    { rewrite length_app. cbn [length]. rewrite Nat.add_sub. apply take_app_length. }
    rewrite length_app in Hf. cbn in Hf. destruct (IH q ltac:(lia)) as (k & E & Hl).
    exists (S k). split; [|done]. rewrite replicate_S_end, app_assoc, <- E. done.
Qed.

Lemma normalize_ok p : norm_ok (normalize p).
Proof.
  destruct p as [p|]; [|done]. cbn.
  destruct (erase_slashes_spec (length (skip_slashes p)) (skip_slashes p) ltac:(lia)) as (k & E & Hl).
  split; [|done]. pose proof (skip_slashes_head p) as Hh. rewrite E in Hh.
  destruct (erase_slashes _ _); [done|]. exact Hh.
Qed.

Lemma erase_slashes_id fuel p : last p <> Some 47 -> erase_slashes fuel p = p.
Proof.
  destruct fuel; cbn; [done|]. intros H. destruct (last p) as [c|]; [|done].
  destruct (Z.eqb_spec c 47); congruence.
Qed.

(** A normalized path is its own normal form. *)
Lemma normalize_id p : norm_ok p -> normalize (Some p) = p.
Proof.
  intros [Hh Hl]. cbn.
  assert (skip_slashes p = p) as ->.
  { destruct p as [|c p]; [done|]. cbn in *. destruct (Z.eqb_spec c 47); congruence. }
  by apply erase_slashes_id.
Qed.

Lemma cut_from_spec i p : (i <= length p)%nat ->
  (cut_from i p = -1 /\ forall j, (j < i)%nat -> p !! j <> Some 47) \/
  (exists c, cut_from i p = Z.of_nat c /\ (c < i)%nat /\ p !! c = Some 47 /\
     forall j, (c < j < i)%nat -> p !! j <> Some 47).
Proof.
  induction i as [|i IH]; intros Hi; cbn; [left; split; [done|lia]|].
  case_bool_decide as Hc; [right; exists i; repeat split; [lia|done|lia]|].
  destruct (IH ltac:(lia)) as [[E H]|(c & E & Hc' & Hx & H)].
  - left. split; [done|]. intros j Hj. destruct (decide (j = i)) as [->|]; [done|]. apply H; lia.
  - right. exists c. repeat split; [done|lia|done|].
    intros j Hj. destruct (decide (j = i)) as [->|]; [done|]. apply H; lia.
Qed.

(** A path is its parent, a slash and a name without slashes, or only a name. *)
Lemma parentOf_spec p :
  (parentOf p = [] /\ (Forall (fun c => c <> 47) p \/ head p = Some 47)) \/
  (exists name, p = parentOf p ++ 47 :: name /\ Forall (fun c => c <> 47) name).
Proof.
  unfold parentOf. destruct (cut_from_spec (length p) p ltac:(lia)) as [[-> H]|(c & -> & Hc & Hx & H)].
  - left. split; [done|]. left. apply Forall_lookup. intros i x Hi ->.
    apply (H i); [by apply lookup_lt_Some in Hi|done].
  - right. destruct (Z.ltb_spec (Z.of_nat c) 0); [lia|]. rewrite Nat2Z.id.
    exists (drop (S c) p). split; [by rewrite (take_drop_middle p c 47)|].
    apply Forall_lookup. intros i x Hi ->. rewrite lookup_drop in Hi.
    apply (H (S c + i)%nat); [|done]. apply lookup_lt_Some in Hi. lia.
Qed.

(** [p] lies below the directory [d]. *)
Definition inside (d p : path) : Prop := exists q, q <> [] /\ p = d ++ 47 :: q.

Lemma below_inside d p : below (d ++ [47]) p = true <-> inside d p.
Proof.
  unfold below, inside. rewrite andb_true_iff, bool_decide_eq_true, Z.gtb_lt. unfold zlen. split.
  - intros [Hl E]. exists (drop (length (d ++ [47])) p). split.
    + intros Hd. apply (f_equal length) in Hd. rewrite length_drop in Hd. cbn in Hd. lia.
    + pose proof (take_drop (length (d ++ [47])) p) as Ep. rewrite E, <- app_assoc in Ep. by symmetry.
  - intros (q & Hq & ->). replace (d ++ 47 :: q) with ((d ++ [47]) ++ q) by (by rewrite <- app_assoc).
    split; [|by rewrite take_app_length]. rewrite (length_app (d ++ [47])). destruct q; [done|]. cbn. lia.
Qed.

(** ** The nodes as a map from paths *)

Definition keyed (s : nodes) : list (path * tmpfs_node) := map (fun n => (m_path n, n)) s.

Definition view (s : nodes) : gmap path tmpfs_node := list_to_map (keyed s).

#[local] Arguments view : simpl never.

Lemma keyed_fst s : (keyed s).*1 = m_path <$> s.
Proof. induction s; cbn; [done|]. by f_equal. Qed.

Lemma view_cons n s : view (n :: s) = <[m_path n := n]> (view s).
Proof. done. Qed.

Lemma find_from_spec i s p :
  (find_from i s p = -1 /\ view s !! p = None) \/
  (exists j n, find_from i s p = i + Z.of_nat j /\ s !! j = Some n /\ m_path n = p /\ view s !! p = Some n).
Proof.
  revert i. induction s as [|n s IH]; intros i; [left; split; [done|]; apply lookup_empty|].
  rewrite view_cons. cbn. case_bool_decide as E.
  - right. exists O, n. rewrite E, lookup_insert_eq. repeat split; cbn; lia.
  - rewrite lookup_insert_ne by done. destruct (IH (i + 1)) as [[-> H]|(j & n' & -> & H)]; [by left|].
    right. exists (S j), n'. split; [lia|exact H].
Qed.

(** What the index search finds is what the map holds. *)
Lemma findNode_spec s p :
  (findNode s p = -1 /\ view s !! p = None) \/
  (exists j n, findNode s p = Z.of_nat j /\ s !! j = Some n /\ m_path n = p /\ view s !! p = Some n).
Proof. destruct (find_from_spec 0 s p) as [?|(j & n & E & H)]; [by left|]. right. exists j, n. split; [exact E|exact H]. Qed.

Lemma node_at_nat s (j : nat) : node_at s (Z.of_nat j) = s !! j.
Proof. unfold node_at. by rewrite Nat2Z.id. Qed.

Lemma view_snoc s n : view s !! m_path n = None -> view (s ++ [n]) = <[m_path n := n]> (view s).
Proof.
  induction s as [|n' s IH]; intros H; [done|].
  rewrite view_cons in H. apply lookup_insert_None in H as [H Hne]. cbn [app]. rewrite !view_cons.
  rewrite IH by done. by apply insert_insert_ne.
Qed.

Lemma view_None s p : view s !! p = None <-> p ∉ m_path <$> s.
Proof. unfold view. by rewrite <- not_elem_of_list_to_map, keyed_fst. Qed.

Lemma view_update s j n n' : NoDup (m_path <$> s) -> s !! j = Some n -> m_path n' = m_path n ->
  view (<[j := n']> s) = <[m_path n := n']> (view s).
Proof.
  revert j. induction s as [|x s IH]; intros [|j] Hd Hj E; try done; cbn in Hd, Hj |- *; rewrite !view_cons.
  - injection Hj as ->. rewrite E, insert_insert_eq. done.
  - apply NoDup_cons in Hd as [Hx Hd].
    transitivity (<[m_path x := x]> (<[m_path n := n']> (view s))); [f_equal; by apply IH|].
    apply insert_insert_ne. intros Ex. apply Hx. rewrite Ex.
    apply list_elem_of_fmap. exists n. split; [done|]. by eapply list_elem_of_lookup_2.
Qed.

Lemma view_delete s j n : NoDup (m_path <$> s) -> s !! j = Some n -> view (delete j s) = delete (m_path n) (view s).
Proof.
  revert j. induction s as [|x s IH]; intros [|j] Hd Hj; try done; cbn in Hd, Hj |- *;
    rewrite !view_cons; apply NoDup_cons in Hd as [Hx Hd].
  - injection Hj as ->. rewrite delete_insert_id; [done|]. by apply view_None.
  - transitivity (<[m_path x := x]> (delete (m_path n) (view s))); [f_equal; by apply IH|].
    rewrite delete_insert_ne; [done|]. intros Ex. apply Hx. rewrite <- Ex.
    apply list_elem_of_fmap. exists n. split; [done|]. by eapply list_elem_of_lookup_2.
Qed.

Lemma view_elem s p n : view s !! p = Some n -> n ∈ s /\ m_path n = p.
Proof.
  intros H. apply elem_of_list_to_map_2 in H. unfold keyed in H.
  apply list_elem_of_fmap in H as (x & [= -> ->] & Hx). done.
Qed.

Lemma elem_view s n : NoDup (m_path <$> s) -> n ∈ s -> view s !! m_path n = Some n.
Proof.
  intros Hd Hn. apply elem_of_list_to_map_1; [by rewrite keyed_fst|].
  apply list_elem_of_fmap. by exists n.
Qed.

Lemma size_view s : NoDup (m_path <$> s) -> Z.of_nat (size (view s)) = zlen s.
Proof.
  unfold zlen. induction s as [|n s IH]; intros Hd; [done|]. apply NoDup_cons in Hd as [Hn Hd].
  rewrite view_cons. cbn. rewrite map_size_insert_None by (by apply view_None).
  specialize (IH Hd). lia.
Qed.

(** The bytes in use, as a number. *)
Definition used (m : gmap path tmpfs_node) : Z := map_fold (fun _ n a => zlen (m_data n) + a) 0 m.

Lemma used_insert m p n : m !! p = None -> used (<[p := n]> m) = zlen (m_data n) + used m.
Proof. intros H. unfold used. apply (map_fold_insert_L (fun _ n a => zlen (m_data n) + a)); [intros; lia|done]. Qed.

Lemma used_delete m p n : m !! p = Some n -> used m = zlen (m_data n) + used (delete p m).
Proof. intros H. rewrite <- (insert_delete_id m p n H) at 1. apply used_insert, lookup_delete_eq. Qed.

Lemma used_nonneg m : 0 <= used m.
Proof.
  induction m as [|p n m H IH] using map_ind; [done|]. rewrite used_insert by done.
  pose proof (zlen_nonneg (m_data n)). lia.
Qed.

Lemma used_update m p n n' : m !! p = Some n ->
  used (<[p := n']> m) = used m - zlen (m_data n) + zlen (m_data n').
Proof.
  intros H. rewrite (used_delete m p n H), <- insert_delete_eq.
  rewrite used_insert by apply lookup_delete_eq. lia.
Qed.

Definition data_sum (s : nodes) : Z := foldr (fun n a => zlen (m_data n) + a) 0 s.

Lemma used_view s : NoDup (m_path <$> s) -> used (view s) = data_sum s.
Proof.
  induction s as [|n s IH]; intros Hd; [done|]. apply NoDup_cons in Hd as [Hn Hd].
  rewrite view_cons. cbn. rewrite used_insert by (by apply view_None). by rewrite IH.
Qed.

Lemma usedBytes_sum s : usedBytes s = u32 (data_sum s).
Proof.
  unfold usedBytes. change (data_sum s) with (0 + data_sum s). change 0 with (u32 0) at 1. generalize 0 as t.
  induction s as [|n s IH]; intros t; cbn; [by rewrite Z.add_0_r|].
  rewrite IH. fold (data_sum s). unfold u32.
  rewrite (Zplus_mod (t mod _ + _ mod _)), <- (Zplus_mod t), <- Zplus_mod. f_equal. lia.
Qed.

(** While the nodes hold less than 2^32 bytes, [usedBytes] counts them. *)
Lemma usedBytes_used s : NoDup (m_path <$> s) -> used (view s) < 4294967296 -> usedBytes s = used (view s).
Proof.
  intros Hd H. rewrite usedBytes_sum, <- used_view by done. apply u32_small.
  pose proof (used_nonneg (view s)). lia.
Qed.

(** ** The abstract file system

    The same operations on a map from paths to nodes: what a caller may assume, with
    exact arithmetic and without the vector.  [None] is an error that changes nothing. *)

Module Abs.

Abbreviation fs := (gmap path tmpfs_node).

Definition parent_ok (m : fs) (p : path) : bool :=
  bool_decide (parentOf p = []) ||
  match m !! parentOf p with Some n => is_type (m_type n) FILE_TYPE_DIR | None => false end.

(** [p] can become a new node. *)
Definition has_room (m : fs) (p : path) : bool :=
  negb (bool_decide (p = [])) && (zlen p <=? TMPFS_MAX_PATH) && negb (bool_decide (is_Some (m !! p))) &&
  parent_ok m p && (Z.of_nat (size m) <? TMPFS_MAX_NODES).

Definition file (e : env) (p : path) (d : list Z) : tmpfs_node :=
  set_content d (stampNew e FILE_PERM_DEFAULT_FILE (new_node p [] FILE_TYPE_REG)).

(** The [size] bytes the content points to; a null pointer holds none. *)
Definition bytes_of (content : option (list Z)) (size : Z) : list Z :=
  match content with Some c => take (Z.to_nat size) c | None => [] end.

Definition write (e : env) (m : fs) (p : path) (content : option (list Z)) (size : Z) (append : bool) : option fs :=
  match m !! p with
  | Some n =>
      let old := if append then m_data n else [] in
      if (bool_decide (p = []) || (zlen p >? TMPFS_MAX_PATH) || is_type (m_type n) FILE_TYPE_DIR ||
          (used m - zlen (m_data n) + zlen old + size >? TMPFS_MAX_BYTES))%bool
      then None
      else Some (<[p := set_mtime (e_now e) (set_content (old ++ bytes_of content size) n)]> m)
  | None =>
      if has_room m p && (used m + size <=? TMPFS_MAX_BYTES)
      then Some (<[p := file e p (bytes_of content size)]> m) else None
  end.

Definition create (e : env) (m : fs) (p : path) (content : option (list Z)) (size : Z) : option fs :=
  match m !! p with Some _ => None | None => write e m p content size false end.

(** Zeros up to the end of what is written, then the bytes in place of what was there. *)
Definition overwrite (d : list Z) (off : Z) (c : list Z) : list Z :=
  let d := d ++ replicate (Z.to_nat (off + zlen c) - length d) 0 in
  take (Z.to_nat off) d ++ c ++ drop (Z.to_nat (off + zlen c)) d.

Definition edit (e : env) (m : fs) (p : path) (off : Z) (c : list Z) : option fs :=
  n <- m !! p;;
  let d := overwrite (m_data n) off c in
  if is_type (m_type n) FILE_TYPE_REG && ((zlen d =? zlen (m_data n)) || (used m - zlen (m_data n) + zlen d <=? TMPFS_MAX_BYTES))
  then Some (<[p := set_mtime (e_now e) (set_content d n)]> m) else None.

Definition mkdir (e : env) (m : fs) (p : path) : option fs :=
  if has_room m p then Some (<[p := stampNew e FILE_PERM_DEFAULT_DIR (new_node p [] FILE_TYPE_DIR)]> m) else None.

Definition rm (m : fs) (p : path) : option fs :=
  n <- m !! p;; if is_type (m_type n) FILE_TYPE_REG then Some (delete p m) else None.

(** The directory and all that is inside it go. *)
Definition rmdir (m : fs) (p : path) : option fs :=
  n <- m !! p;;
  if is_type (m_type n) FILE_TYPE_DIR && negb (bool_decide (p = []))
  then Some (filter (fun '(k, _) => k <> p /\ below (p ++ [47]) k = false) m) else None.

(** Where a path is after [old] has become [new]. *)
Definition moved (old new k : path) : path := if bool_decide (k = old) then new else rebase old new k.

Definition mv (m : fs) (old new : path) : option fs :=
  n <- m !! old;;
  if (negb (bool_decide (old = [])) && negb (bool_decide (new = [])) && negb (bool_decide (is_Some (m !! new))) &&
      parent_ok m new && (zlen new <=? TMPFS_MAX_PATH))%bool
  then Some (if is_type (m_type n) FILE_TYPE_DIR
             then list_to_map ((fun '(k, n) => (moved old new k, set_path (moved old new k) n)) <$> map_to_list m)
             else <[new := set_path new n]> (delete old m))
  else None.

Definition copy (e : env) (m : fs) (src dst : path) : option fs :=
  n <- m !! src;;
  if is_type (m_type n) FILE_TYPE_REG && has_room m dst && (used m + zlen (m_data n) <=? TMPFS_MAX_BYTES)
  then Some (<[dst := file e dst (m_data n)]> m) else None.

Definition stamp (e : env) (m : fs) (p : path) : option fs :=
  match m !! p with Some n => Some (<[p := set_mtime (e_now e) n]> m) | None => create e m p None 0 end.

Definition update (m : fs) (p : path) (f : tmpfs_node -> tmpfs_node) : option fs :=
  n <- m !! p;; Some (<[p := f n]> m).

End Abs.

(** ** The invariant *)

Definition node_ok (p : path) (n : tmpfs_node) : Prop :=
  m_path n = p /\ p <> [] /\ norm_ok p /\
  (m_type n = FILE_TYPE_REG \/ (m_type n = FILE_TYPE_DIR /\ m_data n = [])).

(** A tree of directories and files within the limits. *)
Record map_ok (m : gmap path tmpfs_node) : Prop := {
  mo_node : forall p n, m !! p = Some n -> node_ok p n /\ Abs.parent_ok m p = true;
  mo_count : Z.of_nat (size m) <= TMPFS_MAX_NODES;
  mo_bytes : used m <= TMPFS_MAX_BYTES }.

(** No path occurs twice, and the nodes are such a tree. *)
Definition tree_ok (s : nodes) : Prop := NoDup (m_path <$> s) /\ map_ok (view s).

(** ** The operations of the file system *)

Inductive fs_op :=
| Create (p : option path) (content : option (list Z)) (size : Z)
| Write (p : option path) (content : option (list Z)) (size : Z) (append : bool)
| Edit (p : option path) (offset : Z) (content : option (list Z)) (size : Z)
| Mkdir (p : option path)
| Rm (p : option path)
| Rmdir (p : option path)
| Rename (old new : option path)
| Copy (src dst : option path)
| Touch (p : option path)
| Chmod (p : option path) (perms : Z)
| Chown (p : option path) (uid gid : Z)
| Attr (p : option path) (type : Z) (buffer : option (list Z)) (size : Z).

Definition run_op (e : env) (s : nodes) (o : fs_op) : option (Z * nodes) :=
  match o with
  | Create p c n => createFile e s p c n
  | Write p c n a => writeFile e s p c n a
  | Edit p off c n => editFile e s p off c n
  | Mkdir p => createDirectory e s p
  | Rm p => deleteFile s p
  | Rmdir p => deleteDirectory s p
  | Rename a b => rename s a b
  | Copy a b => copyFile e s a b
  | Touch p => touch e s p
  | Chmod p x => setFilePermissions s p x
  | Chown p u g => setFileOwner s p u g
  | Attr p t b n => setFileAttr s p t b n
  end.

(** The length [createFile] works with. *)
Definition create_len (content : option (list Z)) (size : Z) : Z :=
  if size <? 0 then match content with Some c => default 0 (strlen c) | None => 0 end else size.

(** The attribute that [setFileAttr] sets, from the bytes of a number. *)
Definition le_num (b : list Z) : Z := foldr (fun x a => x + 256 * a) 0 b.

Definition attr_update (type size : Z) (b : list Z) : option (tmpfs_node -> tmpfs_node) :=
  if (type =? FILE_ATTR_PERMS) && (2 <=? size) then Some (set_perms (le_num (take 2 b)))
  else if (type =? FILE_ATTR_UID) && (2 <=? size) then Some (set_uid (le_num (take 2 b)))
  else if (type =? FILE_ATTR_GID) && (2 <=? size) then Some (set_gid (le_num (take 2 b)))
  else if (type =? FILE_ATTR_CTIME) && (4 <=? size) then Some (set_ctime (le_num (take 4 b)))
  else if (type =? FILE_ATTR_MTIME) && (4 <=? size) then Some (set_mtime (le_num (take 4 b)))
  else None.

Definition spec (e : env) (m : gmap path tmpfs_node) (o : fs_op) : option (gmap path tmpfs_node) :=
  match o with
  | Create p c n => Abs.create e m (normalize p) c (create_len c n)
  | Write p c n a => Abs.write e m (normalize p) c n a
  | Edit p off (Some c) n => Abs.edit e m (normalize p) off (take (Z.to_nat n) c)
  | Edit _ _ None _ => None
  | Mkdir p => Abs.mkdir e m (normalize p)
  | Rm p => Abs.rm m (normalize p)
  | Rmdir p => Abs.rmdir m (normalize p)
  | Rename a b => Abs.mv m (normalize a) (normalize b)
  | Copy a b => Abs.copy e m (normalize a) (normalize b)
  | Touch p => Abs.stamp e m (normalize p)
  | Chmod p x => Abs.update m (normalize p) (set_perms x)
  | Chown p u g => Abs.update m (normalize p) (fun n => set_gid g (set_uid u n))
  | Attr p t b n => b <- b;; f <- attr_update t n b;; Abs.update m (normalize p) f
  end.

Definition size_ok (content : option (list Z)) (size : Z) : Prop :=
  0 <= size < 2147483648 /\ match content with Some c => size <= zlen c | None => True end.

(** What the caller must see to: the content is as long as [size] says, an edit ends 4096
    bytes or more below 2^32, and a directory is not renamed to a path inside itself.  The
    last two are not checked by the code, see [tmpfs_edit_wraps] and
    [tmpfs_rename_into_itself]. *)
Definition op_ok (o : fs_op) : Prop :=
  match o with
  | Create _ c n =>
      if n <? 0 then match c with Some c => exists str, cstring c str /\ zlen str < 2147483648 | None => True end
      else size_ok c n
  | Write _ c n _ => size_ok c n
  | Edit _ off c n => size_ok c n /\ 0 <= off /\ off + n < 4294963200
  | Attr _ _ b n => size_ok b n
  | Rename a b => ~ inside (normalize a) (normalize b)
  | _ => True
  end.

(** Success and failure of [run_op] as the specification has them. *)
Definition refines (s : nodes) (r : option (Z * nodes)) (a : option (gmap path tmpfs_node)) : Prop :=
  match a with
  | Some m => exists rc s', r = Some (rc, s') /\ 0 <= rc /\ NoDup (m_path <$> s') /\ view s' = m
  | None => r = Some (-1, s)
  end.

(** *** Parents and what is inside a directory *)

Abbreviation name_ok := (Forall (fun c => c <> 47)).

Lemma slash_split (a b c d : path) : name_ok b -> name_ok d -> a ++ 47 :: b = c ++ 47 :: d -> a = c /\ b = d.
Proof.
  revert c. induction a as [|x a IH]; intros [|y c] Hb Hd E; cbn in E.
  - by injection E.
  - injection E as <- ->. apply Forall_app in Hb as [_ Hb]. by apply Forall_cons_1 in Hb as [Hb _].
  - injection E as -> <-. apply Forall_app in Hd as [_ Hd]. by apply Forall_cons_1 in Hd as [Hd _].
  - injection E as -> E. destruct (IH c Hb Hd E) as [-> ->]. done.
Qed.

Lemma parentOf_name q name : name_ok name -> parentOf (q ++ 47 :: name) = q.
Proof.
  intros Hn. destruct (parentOf_spec (q ++ 47 :: name)) as [[E [H|H]]|(n' & E & Hn')].
  - apply Forall_app in H as [_ H]. by apply Forall_cons_1 in H as [H _].
  - destruct q as [|c q]; [done|]. injection H as ->. unfold parentOf in E.
    destruct (cut_from_spec (length ((47 :: q) ++ 47 :: name)) ((47 :: q) ++ 47 :: name) ltac:(lia))
      as [[Ec Hc]|(c & Ec & Hlt & _ & Hc)]; rewrite Ec in E.
    + exfalso. by apply (Hc O); [cbn; lia|].
    + exfalso. destruct (Z.ltb_spec (Z.of_nat c) 0); [lia|]. rewrite Nat2Z.id in E.
      destruct c as [|c]; [|done]. apply (Hc (length (47 :: q))).
      * rewrite length_app. cbn. lia.
      * rewrite lookup_app_r by lia. by rewrite Nat.sub_diag.
  - destruct (slash_split q name _ n' Hn Hn' E) as [Eq _]. by symmetry.
Qed.

(** A path with a parent that is not the root, cut at its last slash. *)
Lemma parent_cut k : parentOf k <> [] -> exists name, k = parentOf k ++ 47 :: name /\ name_ok name.
Proof. intros H. destruct (parentOf_spec k) as [[E _]|(name & E & Hn)]; [done|]. by exists name. Qed.

Lemma norm_name k q name : norm_ok k -> k = q ++ 47 :: name -> name <> [].
Proof. intros [_ Hl] -> ->. apply Hl. apply last_snoc. Qed.

Lemma parent_inside k : norm_ok k -> parentOf k <> [] -> inside (parentOf k) k.
Proof. intros Hn (name & E & _)%parent_cut. exists name. split; [by eapply norm_name|done]. Qed.

Lemma inside_trans a b c : inside a b -> inside b c -> inside a c.
Proof.
  intros (q & Hq & ->) (r & Hr & ->). exists (q ++ 47 :: r). split; [by destruct q|]. by rewrite <- app_assoc.
Qed.

(** What is inside a directory has it as parent, or has a parent inside it. *)
Lemma inside_parent d k : d <> [] -> norm_ok k -> inside d k ->
  parentOf k <> [] /\ (parentOf k = d \/ exists l, parentOf k = d ++ 47 :: l).
Proof.
  intros Hd [Hh _] (q & Hq & ->).
  destruct (parentOf_spec (d ++ 47 :: q)) as [[_ [H|H]]|(name & E & Hn)].
  - apply Forall_app in H as [_ H]. by apply Forall_cons_1 in H as [H _].
  - by destruct d.
  - revert E. generalize (parentOf (d ++ 47 :: q)) as P. intros P E.
    revert P E. clear Hh. induction d as [|x d IH]; intros P E; [done|]. destruct P as [|y P].
    + injection E as -> E. rewrite <- E in Hn. apply Forall_app in Hn as [_ Hn]. by apply Forall_cons_1 in Hn as [Hn _].
    + injection E as -> E. split; [done|]. destruct d as [|z d].
      * cbn in E. destruct P as [|w P]; [by left|]. injection E as -> _. right. by exists P.
      * destruct (IH ltac:(done) P E) as [_ [->|[l ->]]]; [by left|]. right. by exists l.
Qed.

Lemma parent_ok_inv m p : Abs.parent_ok m p = true -> parentOf p <> [] ->
  exists n, m !! parentOf p = Some n /\ m_type n = FILE_TYPE_DIR.
Proof.
  unfold Abs.parent_ok. intros H Hp. rewrite bool_decide_eq_false_2 in H by done. cbn in H.
  destruct (m !! parentOf p) as [n|]; [|done]. exists n. split; [done|]. by apply bool_decide_eq_true in H.
Qed.

Lemma parent_ok_intro m p n : m !! parentOf p = Some n -> m_type n = FILE_TYPE_DIR -> Abs.parent_ok m p = true.
Proof. intros H E. unfold Abs.parent_ok. rewrite H, E. apply orb_true_r. Qed.

Lemma parent_ok_root m p : parentOf p = [] -> Abs.parent_ok m p = true.
Proof. intros H. unfold Abs.parent_ok. by rewrite bool_decide_eq_true_2. Qed.

(** Every directory on the way to a node is a node. *)
Lemma ancestor m d k n : map_ok m -> d <> [] -> m !! k = Some n -> inside d k ->
  exists n', m !! d = Some n' /\ m_type n' = FILE_TYPE_DIR.
Proof.
  intros Hm Hd. remember (length k) as len eqn:El. revert k n El.
  induction (lt_wf len) as [len _ IH]. intros k n -> Hk Hi.
  destruct (mo_node m Hm k n Hk) as [(_ & _ & Hn & _) Hpar].
  destruct (inside_parent d k Hd Hn Hi) as [Hp Hcase].
  destruct (parent_ok_inv m k Hpar Hp) as (n' & Hl & Ht).
  destruct Hcase as [<-|[l El]]; [by exists n'|].
  destruct (mo_node m Hm _ n' Hl) as [(_ & _ & [_ Hlast] & _) _].
  apply (IH (length (parentOf k))) with (k := parentOf k) (n := n'); [|done|done|].
  - destruct (parent_cut k Hp) as (name & E & _). rewrite E at 2. rewrite length_app. cbn. lia.
  - exists l. split; [|done]. intros ->. apply Hlast. rewrite El. apply last_snoc.
Qed.

(** ** The operations implement the specification *)

(** Case analysis on whether the node of path [p] exists. *)
Ltac find_node s p :=
  let j := fresh "j" in let n := fresh "n" in let E := fresh "E" in let Hj := fresh "Hj" in
  let Hp := fresh "Hp" in let Hv := fresh "Hv" in
  destruct (findNode_spec s p) as [[E Hv]|(j & n & E & Hj & Hp & Hv)]; rewrite ?E, ?Hv in *;
  [ change (-1 <? 0) with true in *; change (-1 >=? 0) with false in *
  | destruct (Z.ltb_spec (Z.of_nat j) 0) as [|_]; [lia|];
    let Hg := fresh in assert ((Z.of_nat j >=? 0) = true) as Hg by lia; rewrite ?Hg; clear Hg; rewrite ?node_at_nat, ?Hj, ?Nat2Z.id in *; cbn [mbind option_bind] ];
  cbv iota.

Lemma is_type_spec a b : is_type a b = true <-> a = b.
Proof. apply bool_decide_eq_true. Qed.

Lemma parentExists_ok s p : parentExists s p = Some (Abs.parent_ok (view s) p).
Proof.
  unfold parentExists, Abs.parent_ok. case_bool_decide; [done|]. cbn [orb]. by find_node s (parentOf p).
Qed.

Section refinement.
Variables (e : env) (s : nodes).
Hypothesis Hok : tree_ok s.

Lemma nodup_snoc n : view s !! m_path n = None -> NoDup (m_path <$> s ++ [n]).
Proof.
  intros H. rewrite fmap_app. apply NoDup_app. split; [apply Hok|]. split; [|apply NoDup_singleton].
  intros x Hx ->%list_elem_of_singleton. by apply view_None in H.
Qed.

Lemma nodup_update j n n' : s !! j = Some n -> m_path n' = m_path n -> m_path <$> <[j := n']> s = m_path <$> s.
Proof.
  intros Hj E. rewrite list_fmap_insert. apply list_insert_id. rewrite list_lookup_fmap, Hj. cbn. by rewrite E.
Qed.

Lemma used_ok : usedBytes s = used (view s).
Proof. apply usedBytes_used; [apply Hok|]. destruct Hok as [_ [_ _ H]]. unfold TMPFS_MAX_BYTES in H. lia. Qed.

Lemma count_ok : zlen s = Z.of_nat (size (view s)).
Proof. symmetry. apply size_view, Hok. Qed.

Lemma data_bound p n : view s !! p = Some n -> zlen (m_data n) <= used (view s) <= TMPFS_MAX_BYTES.
Proof.
  intros H. rewrite (used_delete _ _ _ H). pose proof (used_nonneg (delete p (view s))).
  pose proof (mo_bytes _ (proj2 Hok)) as Hb. rewrite (used_delete _ _ _ H) in Hb. lia.
Qed.

(** Replacing the node at an index. *)
Lemma refines_update rc j n n' p : 0 <= rc -> s !! j = Some n -> m_path n = p -> m_path n' = p ->
  refines s (Some (rc, <[j := n']> s)) (Some (<[p := n']> (view s))).
Proof.
  intros Hr Hj E E'. exists rc, (<[j := n']> s). split; [done|]. split; [done|]. split.
  - rewrite (nodup_update j n) by (done || congruence). apply Hok.
  - rewrite (view_update s j n) by (done || congruence || apply Hok). by rewrite E.
Qed.

(** Adding a node. *)
Lemma refines_snoc rc n p : 0 <= rc -> m_path n = p -> view s !! p = None ->
  refines s (Some (rc, s ++ [n])) (Some (<[p := n]> (view s))).
Proof.
  intros Hr <- H. exists rc, (s ++ [n]). repeat split; [done|by apply nodup_snoc|by apply view_snoc].
Qed.

Lemma append_content_ok d content size : size_ok content size ->
  append_content d content size = Some (d ++ Abs.bytes_of content size).
Proof.
  intros [Hs Hc]. unfold append_content, Abs.bytes_of. destruct content as [c|]; [|by rewrite app_nil_r].
  destruct (Z.gtb_spec size 0) as [Hp|Hp].
  - destruct (zsplit c size) as (pre & post & -> & El); [lia|].
    pose proof (msub_app_mid [] pre post) as Em. rewrite El in Em. cbn [app] in Em. change (zlen []) with 0 in Em.
    rewrite Em. cbn. rewrite <- El. unfold zlen. by rewrite Nat2Z.id, take_app_length.
  - replace size with 0 by lia. cbn. by rewrite app_nil_r.
Qed.

Lemma putContent_ok p content size append : size_ok content size ->
  refines s (putContent e s p content size append) (Abs.write e (view s) p content size append).
Proof.
  intros Hsz. pose proof Hsz as [Hs _]. unfold putContent, Abs.write, Abs.has_room. rewrite used_ok, count_ok.
  pose proof (used_nonneg (view s)) as Hu. pose proof (mo_bytes _ (proj2 Hok)) as Hb.
  unfold TMPFS_MAX_BYTES, TMPFS_MAX_NODES in *.
  find_node s p.
  - rewrite parentExists_ok, append_content_ok by done.
    case_bool_decide as Hp; [done|]. cbn [orb negb andb].
    destruct (Z.gtb_spec (zlen p) TMPFS_MAX_PATH), (Z.leb_spec (zlen p) TMPFS_MAX_PATH); try lia; [done|]. cbn.
    destruct (Abs.parent_ok _ _); [|done]. cbn.
    destruct (Z.geb_spec (Z.of_nat (base.size (view s))) 24), (Z.ltb_spec (Z.of_nat (base.size (view s))) 24); try lia; [done|]. cbn.
    rewrite u32_small by lia.
    destruct (Z.gtb_spec (used (view s) + size) 4096), (Z.leb_spec (used (view s) + size) 4096); try lia; [done|].
    rewrite i32_small by lia. apply refines_snoc; [lia|done|done].
  - destruct (bool_decide (p = [])); [done|]. cbn [orb].
    destruct (Z.gtb_spec (zlen p) TMPFS_MAX_PATH); [done|]. cbn [orb].
    destruct (is_type _ _); [done|]. cbn [orb].
    pose proof (data_bound p n Hv) as Hd. pose proof (zlen_nonneg (m_data n)). unfold TMPFS_MAX_BYTES in Hd.
    rewrite (u32_small (zlen (m_data n))), append_content_ok by (done || lia). cbn.
    destruct append; rewrite u32_small by lia; rewrite ?zlen_nil;
      match goal with |- context [?a >? 4096] => destruct (Z.gtb_spec a 4096) end;
      match goal with |- context [?a >? 4096] => destruct (Z.gtb_spec a 4096) end; try lia; try done;
      rewrite i32_small by lia; by apply (refines_update _ j n); [lia|..].
Qed.

Lemma createFile_ok p content size : op_ok (Create p content size) ->
  refines s (createFile e s p content size) (Abs.create e (view s) (normalize p) content (create_len content size)).
Proof.
  intros Hc. unfold createFile, Abs.create. pose proof (putContent_ok (normalize p) content) as Hput.
  case_bool_decide as Hn.
  { rewrite Hn. destruct (view s !! []) as [n|] eqn:E; [done|]. unfold Abs.write, Abs.has_room. by rewrite E. }
  cbn [op_ok] in Hc. unfold create_len. find_node s (normalize p); [|done].
  destruct (Z.ltb_spec size 0) as [Hneg|Hpos].
  - destruct content as [c|]; [|by apply Hput].
    destruct Hc as (str & Hstr & Hlen). rewrite (strlen_cstring c str Hstr). cbn.
    pose proof (zlen_nonneg str). rewrite u32_small by lia. apply Hput. split; [lia|].
    destruct Hstr as (_ & x & ->). rewrite zlen_app. pose proof (zlen_nonneg (0 :: x)). lia.
  - cbn. rewrite u32_small by (destruct Hc; lia). by apply Hput.
Qed.

Lemma createDirectory_ok p : refines s (createDirectory e s p) (Abs.mkdir e (view s) (normalize p)).
Proof.
  unfold createDirectory, Abs.mkdir, Abs.has_room. rewrite parentExists_ok, count_ok.
  case_bool_decide as Hn; [done|]. cbn [orb andb negb].
  destruct (Z.gtb_spec (zlen (normalize p)) TMPFS_MAX_PATH), (Z.leb_spec (zlen (normalize p)) TMPFS_MAX_PATH);
    try lia; [done|]. cbn [orb andb].
  find_node s (normalize p); [|by rewrite bool_decide_eq_true_2].
  rewrite bool_decide_eq_false_2 by (intros [? [=]]). cbn.
  destruct (Abs.parent_ok _ _); [|done]. cbn. rewrite Z.geb_leb, Z.ltb_antisym.
  destruct (_ <=? _); [done|]. cbn. by apply refines_snoc.
Qed.

Lemma deleteFile_ok p : refines s (deleteFile s p) (Abs.rm (view s) (normalize p)).
Proof.
  unfold deleteFile, Abs.rm. find_node s (normalize p); [done|].
  destruct (is_type _ _); [|done]. cbn. exists 0, (delete j s). split; [done|]. split; [done|]. split.
  - assert (m_path <$> delete j s = delete j (m_path <$> s)) as -> by apply list_fmap_delete.
    eapply sublist_NoDup; [apply Hok|apply sublist_delete].
  - rewrite (view_delete s j n) by (done || apply Hok). by rewrite Hp.
Qed.

Lemma copyFile_ok a b : refines s (copyFile e s a b) (Abs.copy e (view s) (normalize a) (normalize b)).
Proof.
  unfold copyFile, Abs.copy, Abs.has_room. rewrite parentExists_ok, used_ok, count_ok.
  find_node s (normalize a); [done|]. rename n into sn, Hv into Hsv. destruct (is_type _ _); [|done]. cbn.
  pose proof (data_bound (normalize a) sn Hsv) as Hd. pose proof (zlen_nonneg (m_data sn)). unfold TMPFS_MAX_BYTES in *.
  case_bool_decide; [done|]. cbn [negb orb andb].
  find_node s (normalize b).
  2: { rewrite bool_decide_eq_true_2 by done. by destruct (_ <=? TMPFS_MAX_PATH). }
  rewrite bool_decide_eq_false_2 by (intros [? [=]]). rewrite Z.gtb_ltb, (Z.leb_antisym TMPFS_MAX_PATH), Z.geb_leb, (Z.ltb_antisym TMPFS_MAX_NODES).
  destruct (TMPFS_MAX_PATH <? _); [by rewrite orb_true_r|]. rewrite orb_false_r. cbn.
  destruct (Abs.parent_ok _ _); [|done]. cbn. destruct (TMPFS_MAX_NODES <=? _); [done|]. cbn.
  rewrite (u32_small (zlen _)), u32_small, Z.gtb_ltb, Z.leb_antisym by lia.
  destruct (4096 <? _); [done|]. cbn. by apply refines_snoc.
Qed.

Lemma touch_ok p : refines s (touch e s p) (Abs.stamp e (view s) (normalize p)).
Proof.
  unfold touch, Abs.stamp. pose proof (createFile_ok p None 0) as Hc. find_node s (normalize p).
  - apply Hc. done.
  - by apply (refines_update _ j n).
Qed.

Lemma setFilePermissions_ok p x :
  refines s (setFilePermissions s p x) (Abs.update (view s) (normalize p) (set_perms x)).
Proof.
  unfold setFilePermissions, Abs.update. find_node s (normalize p); [done|]. by apply (refines_update _ j n).
Qed.

Lemma setFileOwner_ok p u g :
  refines s (setFileOwner s p u g) (Abs.update (view s) (normalize p) (fun n => set_gid g (set_uid u n))).
Proof.
  unfold setFileOwner, Abs.update. find_node s (normalize p); [done|]. by apply (refines_update _ j n).
Qed.

Lemma rd2_num b : 2 <= zlen b -> rd2 b = Some (le_num (take 2 b)).
Proof. intros Hb. destruct b as [|x [|y b]]; [done|done|]. change (rd2 (x :: y :: b)) with (Some (x + 256 * y)). f_equal. unfold le_num. cbn [firstn foldr]. rewrite firstn_O. cbn [foldr]. lia. Qed.

Lemma rd4_num b : 4 <= zlen b -> rd4 b = Some (le_num (take 4 b)).
Proof. intros Hb. destruct b as [|x [|y [|z [|w b]]]]; [done|done|done|done|].
  change (rd4 (x :: y :: z :: w :: b)) with (Some (x + 256 * y + 65536 * z + 16777216 * w)). f_equal. unfold le_num. cbn [firstn foldr]. rewrite firstn_O. cbn [foldr]. lia. Qed.

Lemma setFileAttr_ok p t b n : size_ok b n -> refines s (setFileAttr s p t b n) (spec e (view s) (Attr p t b n)).
Proof.
  intros (Hn & Hb). cbn [spec]. unfold setFileAttr. destruct b as [b|]; [|done]. cbn [mbind option_bind].
  destruct (Z.eqb_spec n 0) as [->|Hn0].
  { unfold attr_update. cbn [Z.leb Z.compare]. by rewrite !andb_false_r. }
  unfold Abs.update. find_node s (normalize p).
  { by destruct (attr_update t n b). }
  unfold attr_update. rewrite !(Z.geb_leb n). rewrite !(i32_small n) by lia.
  assert (forall (f : Z -> tmpfs_node -> tmpfs_node) v r, 0 <= n -> (forall x, m_path (f v x) = m_path x) -> r = Some v ->
    refines s (x <- r;; Some (n, <[j := f x n0]> s)) (Some (<[normalize p := f v n0]> (view s)))) as Hput.
  { intros f v r H0 Hf ->. cbn [mbind option_bind]. apply (refines_update _ j n0); [done|done|done|]. by rewrite Hf. }
  repeat match goal with |- context [if (t =? ?a) && (?k <=? n) then _ else _] =>
    destruct ((t =? a) && (k <=? n)) eqn:G;
    [apply andb_true_iff in G as [_ G%Z.leb_le]; apply Hput; [lia|done|]; first [apply rd2_num; lia|apply rd4_num; lia]|clear G] end.
  done.
Qed.

(** *** Editing *)

Lemma edit_loop_ok pre c c' tl mid post off : zlen pre = off -> zlen mid = zlen c' ->
  off + zlen c + zlen c' < 4294967296 ->
  edit_loop (length c') (zlen c) off (c ++ c' ++ tl) (pre ++ c ++ mid ++ post) = Some (pre ++ c ++ c' ++ post).
Proof.
  revert c mid. induction c' as [|x c' IH]; intros c mid Hoff Hm Hb; cbn [edit_loop length].
  - destruct mid; [done|]. rewrite zlen_cons, zlen_nil in Hm. pose proof (zlen_nonneg mid). lia.
  - destruct mid as [|y mid]; [rewrite zlen_cons, zlen_nil in Hm; pose proof (zlen_nonneg c'); lia|].
    rewrite !zlen_cons in Hm. rewrite zlen_cons in Hb.
    pose proof (zlen_nonneg c). pose proof (zlen_nonneg c'). pose proof (zlen_nonneg pre).
    cbn [app]. rewrite (u32_small off), u32_small, mget_app_mid by lia. cbn [mbind option_bind].
    assert (mset (pre ++ c ++ y :: mid ++ post) (off + zlen c) x = Some (pre ++ (c ++ [x]) ++ mid ++ post)) as Em.
    { rewrite app_assoc, <- Hoff, <- zlen_app, mset_app_mid. by rewrite <- !app_assoc. }
    cbn [app]. rewrite Em. cbn [mbind option_bind].
    replace (zlen c + 1) with (zlen (c ++ [x])) by (rewrite zlen_app, zlen_cons, zlen_nil; lia).
    cbn [app]. rewrite (cons_middle x c (c' ++ tl)), (app_assoc c), (IH (c ++ [x]) mid); [by rewrite <- !app_assoc|done|lia|].
    rewrite zlen_app, zlen_cons, zlen_nil. lia.
Qed.

Lemma edit_split (d c : list Z) off : 0 <= off ->
  let d' := d ++ replicate (Z.to_nat (off + zlen c) - length d) 0 in
  exists pre mid post, d' = pre ++ mid ++ post /\ zlen pre = off /\ zlen mid = zlen c /\
    Abs.overwrite d off c = pre ++ c ++ post.
Proof.
  intros Ho d'. assert (off + zlen c <= zlen d') as Hl.
  { unfold d', zlen. rewrite length_app, length_replicate. lia. }
  pose proof (zlen_nonneg c).
  destruct (zsplit d' off) as (pre & rest & Ed & Hp); [lia|].
  destruct (zsplit rest (zlen c)) as (mid & post & Er & Hm); [rewrite Ed, zlen_app in Hl; lia|].
  exists pre, mid, post. rewrite Er in Ed. split; [done|]. split; [done|]. split; [done|].
  unfold Abs.overwrite. fold d'. rewrite Ed. f_equal.
  - replace (Z.to_nat off) with (length pre) by (unfold zlen in *; lia). apply take_app_length.
  - f_equal. rewrite app_assoc. replace (Z.to_nat (off + zlen c)) with (length (pre ++ mid)).
    + apply drop_app_length.
    + rewrite length_app. unfold zlen in *. lia.
Qed.

Lemma zlen_overwrite d off c : 0 <= off -> zlen (Abs.overwrite d off c) = Z.max (zlen d) (off + zlen c).
Proof.
  intros Ho. destruct (edit_split d c off Ho) as (pre & mid & post & Ed & Hp & Hm & ->).
  apply (f_equal zlen) in Ed. rewrite !zlen_app in *. pose proof (zlen_nonneg c). unfold zlen in *.
  rewrite length_replicate in Ed. lia.
Qed.

Lemma editFile_ok p off content size : op_ok (Edit p off content size) ->
  refines s (editFile e s p off content size) (spec e (view s) (Edit p off content size)).
Proof.
  intros ((Hs & Hc) & Ho & Hb). unfold editFile. cbn [spec]. unfold Abs.edit. rewrite used_ok.
  find_node s (normalize p); [by destruct content|].
  destruct content as [c|]; [|by destruct (is_type _ _)]. cbn [mbind option_bind].
  destruct (is_type _ _); [|done]. cbn [andb].
  destruct (zsplit c size) as (c1 & c2 & -> & Hl); [lia|].
  replace (Z.to_nat size) with (length c1) by (unfold zlen in *; lia). rewrite take_app_length.
  rewrite zlen_overwrite, Hl by done.
  pose proof (data_bound _ _ Hv) as Hd. pose proof (zlen_nonneg (m_data n)). unfold TMPFS_MAX_BYTES in *.
  rewrite (u32_small (zlen _)), (u32_small off), (u32_small (off + size)) by lia.
  destruct (edit_split (m_data n) c1 off Ho) as (pre & mid & post & Ed & Hp' & Hm & Eo). rewrite Hl in Ed.
  assert (edit_loop (length c1) 0 off (c1 ++ c2) (pre ++ mid ++ post) = Some (pre ++ c1 ++ post)) as Eloop.
  { apply (edit_loop_ok pre [] c1 c2 mid post off); [done|done|]. rewrite zlen_nil. lia. }
  destruct (Z.gtb_spec (off + size) (zlen (m_data n))) as [Hgt|Hle].
  - rewrite u32_small by lia. cbn [andb].
    replace (Z.max _ _) with (off + size) by lia. destruct (Z.eqb_spec (off + size) (zlen (m_data n))); [lia|].
    rewrite Z.gtb_ltb, Z.leb_antisym. cbn [orb]. destruct (4096 <? _); [done|]. cbn [negb].
    rewrite Ed, Eloop. cbn [mbind option_bind]. rewrite i32_small, Eo by lia. by apply (refines_update _ j n); [lia|..].
  - cbn [andb]. rewrite Z.max_l, Z.eqb_refl by lia. cbn [orb].
    assert (m_data n = pre ++ mid ++ post) as Edn.
    { rewrite <- Ed. replace (Z.to_nat (off + size) - length (m_data n))%nat with O by (unfold zlen in *; lia).
      by rewrite app_nil_r. }
    rewrite Eo, Edn, Eloop. cbn [mbind option_bind]. rewrite i32_small by lia. by apply (refines_update _ j n); [lia|..].
Qed.

(** *** Removing a directory *)

Definition gone (norm k : path) : bool := bool_decide (k = norm) || below (norm ++ [47]) k.

Lemma delete_loop_filter i norm l : (i <= length l)%nat ->
  delete_loop i norm l = filter (fun n => gone norm (m_path n) = false) (take i l) ++ drop i l.
Proof.
  revert l. induction i as [|i IH]; intros l Hi; cbn [delete_loop]; [by rewrite take_0, drop_0|].
  destruct (lookup_lt_is_Some_2 l i ltac:(lia)) as [n En]. rewrite En.
  rewrite (take_S_r l i n En), filter_app, filter_cons, filter_nil.
  fold (gone norm (m_path n)). destruct (gone norm (m_path n)) eqn:G.
  - rewrite decide_False by congruence. rewrite app_nil_r, IH.
    + rewrite delete_take_drop, take_app_le, take_take, Nat.min_id by (rewrite length_take; lia). f_equal.
      apply drop_app_length'. rewrite length_take. lia.
    + rewrite length_delete by done. lia.
  - rewrite decide_True by done. rewrite IH by lia. rewrite (drop_S l n i) by done. by rewrite <- app_assoc.
Qed.

Lemma nodup_filter (P : path -> bool) l : NoDup (m_path <$> l) ->
  NoDup (m_path <$> filter (fun n => P (m_path n) = false) l).
Proof.
  induction l as [|n l IH]; intros Hd; [done|]. apply NoDup_cons in Hd as [Hn Hd]. rewrite filter_cons.
  destruct (decide _); [|by apply IH]. apply NoDup_cons. split; [|by apply IH].
  intros (x & E & Hx)%list_elem_of_fmap. apply Hn. rewrite E. apply list_elem_of_fmap.
  exists x. split; [done|]. apply list_elem_of_filter in Hx as [_ Hx]. exact Hx.
Qed.

Lemma view_filter (P : path -> bool) l : NoDup (m_path <$> l) ->
  view (filter (fun n => P (m_path n) = false) l) = filter (fun '(k, _) => P k = false) (view l).
Proof.
  induction l as [|n l IH]; intros Hd; [done|]. apply NoDup_cons in Hd as [Hn Hd].
  rewrite filter_cons, view_cons. destruct (decide (P (m_path n) = false)) as [HP|HP].
  - rewrite view_cons, IH, map_filter_insert_True by done. done.
  - rewrite IH, map_filter_insert_False by done. f_equal. symmetry. apply delete_id. by apply view_None.
Qed.

Lemma deleteDirectory_ok p : refines s (deleteDirectory s p) (Abs.rmdir (view s) (normalize p)).
Proof.
  unfold deleteDirectory, Abs.rmdir. case_bool_decide as Hn.
  { rewrite Hn. cbn [negb]. destruct (view s !! []); [|done]. cbn. by rewrite andb_false_r. }
  find_node s (normalize p); [done|]. cbn. rewrite andb_true_r. destruct (is_type _ _); [|done]. cbn.
  exists 0, (delete_loop (length s) (normalize p) s). split; [done|]. split; [done|].
  rewrite delete_loop_filter, firstn_all, drop_all, app_nil_r by done. split.
  - apply (nodup_filter (gone (normalize p))), Hok.
  - rewrite (view_filter (gone (normalize p))) by apply Hok. apply map_filter_ext. intros k n' _. unfold gone.
    rewrite orb_false_iff, bool_decide_eq_false. done.
Qed.

(** *** Renaming *)

Lemma view_move j n n' : s !! j = Some n -> view s !! m_path n' = None ->
  NoDup (m_path <$> <[j := n']> s) /\ view (<[j := n']> s) = <[m_path n' := n']> (delete (m_path n) (view s)).
Proof.
  destruct Hok as [Hd _]. clear Hok. revert j.
  induction s as [|x l IH]; intros [|j] Hj Hn; try done; rewrite view_cons in Hn; apply lookup_insert_None in Hn as [Hn Hx];
    apply NoDup_cons in Hd as [Hxl Hd].
  - injection Hj as ->. change (<[0%nat := n']> (n :: l)) with (n' :: l). rewrite !view_cons. split.
    + apply NoDup_cons. split; [|done]. by apply view_None.
    + by rewrite delete_insert_id by (by apply view_None).
  - change (<[S j := n']> (x :: l)) with (x :: <[j := n']> l). rewrite !view_cons.
    destruct (IH Hd j Hj Hn) as [Hd' ->]. split.
    + apply NoDup_cons. split; [|done]. change (m_path x ∉ m_path <$> <[j := n']> l). rewrite list_fmap_insert. intros Hi.
      apply list_elem_of_lookup_1 in Hi as [k Hk]. apply list_lookup_insert_Some in Hk as [(_ & Hk & _)|[_ Hk]].
      * by rewrite Hk in Hx.
      * by apply Hxl, (list_elem_of_lookup_2 _ k).
    + assert (m_path x <> m_path n) as Hne.
      { intros E. apply Hxl. rewrite E. apply list_elem_of_fmap. exists n. split; [done|].
        by eapply list_elem_of_lookup_2. }
      rewrite delete_insert_ne by congruence. by apply insert_insert_ne.
Qed.

Lemma not_inside_rebase old new k : ~ inside old k -> rebase old new k = k.
Proof.
  intros H. unfold rebase. destruct (below (old ++ [47]) k) eqn:E; [|done].
  by apply below_inside in E.
Qed.

Lemma rebase_inside old new q : q <> [] -> rebase old new (old ++ 47 :: q) = new ++ 47 :: q.
Proof.
  intros Hq. unfold rebase. assert (below (old ++ [47]) (old ++ 47 :: q) = true) as ->.
  { apply below_inside. by exists q. }
  cbn [app]. do 2 f_equal. replace (old ++ 47 :: q) with ((old ++ [47]) ++ q) by (by rewrite <- app_assoc).
  apply drop_app_length.
Qed.

(** Where a path goes: to the new name, along with the directory, or nowhere. *)
Lemma moved_cases old new k :
  (k = old /\ Abs.moved old new k = new) \/
  (k <> old /\ exists q, q <> [] /\ k = old ++ 47 :: q /\ Abs.moved old new k = new ++ 47 :: q) \/
  (k <> old /\ ~ inside old k /\ Abs.moved old new k = k).
Proof.
  unfold Abs.moved. case_bool_decide as E; [by left|]. right.
  destruct (below (old ++ [47]) k) eqn:B.
  - left. split; [done|]. apply below_inside in B as (q & Hq & ->). exists q. by rewrite rebase_inside.
  - right. assert (~ inside old k) as Hi by (rewrite <- below_inside; congruence).
    split; [done|]. split; [done|]. by apply not_inside_rebase.
Qed.

Section move.
Variables (m : gmap path tmpfs_node) (old new : path).
Hypotheses (Hm : map_ok m) (Hnew : m !! new = None) (Hnn : new <> []) (Hn : norm_ok new) (Hout : ~ inside old new).

Lemma moved_inj k1 k2 : is_Some (m !! k1) -> is_Some (m !! k2) ->
  Abs.moved old new k1 = Abs.moved old new k2 -> k1 = k2.
Proof.
  intros [n1 H1] [n2 H2] E.
  assert (forall k n q, m !! k = Some n -> q <> [] -> k <> new ++ 47 :: q) as Hfree.
  { intros k n q Hk Hq ->. destruct (ancestor m new _ n Hm Hnn Hk) as (n' & Hn' & _); [by exists q|congruence]. }
  destruct (moved_cases old new k1) as [[-> E1]|[(_ & q1 & Hq1 & -> & E1)|(_ & _ & E1)]];
  destruct (moved_cases old new k2) as [[-> E2]|[(_ & q2 & Hq2 & -> & E2)|(_ & _ & E2)]];
  rewrite ?E1, ?E2 in E; try done.
  - apply (f_equal length) in E. rewrite length_app in E. cbn in E. lia.
  - congruence.
  - apply (f_equal length) in E. rewrite length_app in E. cbn in E. lia.
  - apply app_inv_head in E. injection E as ->. done.
  - by destruct (Hfree k2 n2 q1 H2 Hq1).
  - congruence.
  - by destruct (Hfree k1 n1 q2 H1 Hq2).
Qed.

Lemma moved_norm k : norm_ok k -> norm_ok (Abs.moved old new k) /\ Abs.moved old new k <> [] \/ k = [].
Proof.
  intros Hk. destruct (moved_cases old new k) as [[_ ->]|[(_ & q & Hq & -> & ->)|(_ & _ & ->)]].
  - by left.
  - left. split; [|by destruct new]. split; [destruct Hn; by destruct new|].
    destruct Hk as [_ Hk]. destruct q as [|c q] using rev_ind; [done|].
    rewrite app_comm_cons, app_assoc, last_snoc in Hk |- *. done.
  - destruct k; [by right|]. by left.
Qed.

(** The parent of a moved path is the moved parent. *)
Lemma moved_parent k n : m !! k = Some n -> k <> old -> parentOf k <> [] ->
  parentOf (Abs.moved old new k) = Abs.moved old new (parentOf k).
Proof.
  intros Hk Hne Hp. destruct (mo_node m Hm k n Hk) as [(_ & _ & Hnk & _) Hpar].
  destruct (parent_ok_inv m k Hpar Hp) as (n' & Hl & _).
  destruct (mo_node m Hm _ n' Hl) as [(_ & _ & Hnp & _) _].
  destruct (parent_cut k Hp) as (name & E & Hname). pose proof (norm_name k _ name Hnk E) as Hne'.
  destruct (moved_cases old new (parentOf k)) as [[Eo ->]|[(_ & q & Hq & Eq & ->)|(Hno & Hni & ->)]].
  - rewrite E, Eo. destruct (moved_cases old new (old ++ 47 :: name)) as [[Ex _]|[(_ & q & _ & Ex & ->)|(_ & Hx & _)]].
    + apply (f_equal length) in Ex. rewrite length_app in Ex. cbn in Ex. lia.
    + apply app_inv_head in Ex. injection Ex as <-. by apply parentOf_name.
    + destruct Hx. by exists name.
  - rewrite E, Eq. rewrite <- app_assoc. cbn [app].
    destruct (moved_cases old new (old ++ 47 :: q ++ 47 :: name)) as [[Ex _]|[(_ & r & _ & Ex & ->)|(_ & Hx & _)]].
    + apply (f_equal length) in Ex. rewrite length_app in Ex. cbn in Ex. lia.
    + apply app_inv_head in Ex. injection Ex as <-.
      replace (new ++ 47 :: q ++ 47 :: name) with ((new ++ 47 :: q) ++ 47 :: name) by (by rewrite <- app_assoc).
      by apply parentOf_name.
    + destruct Hx. exists (q ++ 47 :: name). split; [by destruct q|done].
  - destruct (moved_cases old new k) as [[Ex _]|[(_ & q & Hq & Ex & _)|(_ & _ & ->)]]; [done| |done].
    destruct (decide (old = [])) as [Eo|Hold].
    { exfalso. rewrite Eo in Ex. destruct Hnk as [Hh _]. by rewrite Ex in Hh. }
    destruct (inside_parent old k Hold Hnk ltac:(by exists q)) as [_ [Eo|[l El]]]; [done|].
    destruct Hni. exists l. split; [|done]. intros ->. destruct Hnp as [_ Hlast]. apply Hlast. rewrite El. apply last_snoc.
Qed.
End move.

Definition move_node (old new : path) (n : tmpfs_node) : tmpfs_node := set_path (Abs.moved old new (m_path n)) n.

Lemma rename_nodes old new j n : s !! j = Some n -> m_path n = old -> ~ inside old new ->
  map (fun n => set_path (rebase old new (m_path n)) n) (<[j := set_path new n]> s) = map (move_node old new) s.
Proof.
  intros Hj E Hi. apply list_eq. intros i. rewrite !list_lookup_fmap. unfold move_node, Abs.moved.
  destruct (decide (i = j)) as [->|Hne].
  - rewrite list_lookup_insert_eq by (by eapply lookup_lt_Some). rewrite Hj. cbn.
    rewrite bool_decide_eq_true_2 by done. f_equal. by rewrite not_inside_rebase.
  - rewrite list_lookup_insert_ne by done. destruct (s !! i) as [n'|] eqn:Hi'; [|done]. cbn.
    rewrite bool_decide_eq_false_2; [done|]. intros E'. apply Hne.
    apply (NoDup_lookup (m_path <$> s) i j old); [apply Hok|by rewrite list_lookup_fmap, Hi'; cbn; rewrite E'|].
    by rewrite list_lookup_fmap, Hj; cbn; rewrite E.
Qed.

Section move_nodes.
Variables (old new : path).
Hypotheses (Hnew : view s !! new = None) (Hnn : new <> []) (Hn : norm_ok new) (Hout : ~ inside old new).

Lemma moved_nodup : NoDup (m_path <$> map (move_node old new) s).
Proof.
  assert (m_path <$> map (move_node old new) s = Abs.moved old new <$> (m_path <$> s)) as ->.
  { rewrite <- list_fmap_compose. change (map (move_node old new) s) with (move_node old new <$> s).
    rewrite <- list_fmap_compose. by apply list_fmap_ext. }
  apply NoDup_fmap_2_strong; [|apply Hok].
  intros x y (nx & -> & Hx)%list_elem_of_fmap (ny & -> & Hy)%list_elem_of_fmap E.
  apply (moved_inj (view s) old new); try done; [apply Hok| |]; rewrite elem_view by (done || apply Hok); done.
Qed.

Lemma moved_view :
  view (map (move_node old new) s) =
  list_to_map ((fun '(k, n) => (Abs.moved old new k, set_path (Abs.moved old new k) n)) <$> map_to_list (view s)).
Proof.
  assert (keyed (map (move_node old new) s) =
          (fun '(k, n) => (Abs.moved old new k, set_path (Abs.moved old new k) n)) <$> keyed s) as E.
  { unfold keyed. rewrite map_map. change (@map ?A ?B) with (@fmap list _ A B). by rewrite <- list_fmap_compose. }
  unfold view at 1. apply list_to_map_proper; [rewrite keyed_fst; apply moved_nodup|].
  rewrite E. apply fmap_Permutation. symmetry. apply map_to_list_to_map. rewrite keyed_fst. apply Hok.
Qed.
End move_nodes.

Lemma rename_ok a b : ~ inside (normalize a) (normalize b) ->
  refines s (rename s a b) (Abs.mv (view s) (normalize a) (normalize b)).
Proof.
  intros Hi. unfold rename, Abs.mv. rewrite parentExists_ok. pose proof (normalize_ok b) as Hnb.
  set (old := normalize a) in *. set (new := normalize b) in *. clearbody old new.
  case_bool_decide as Ho.
  { cbn [orb negb andb]. by destruct (view s !! old). }
  case_bool_decide as Hn; cbn [orb negb andb]; [by destruct (view s !! old)|].
  find_node s old; [done|]. rename n into node, Hv into Hvo.
  find_node s new; [|by rewrite bool_decide_eq_true_2].
  rewrite bool_decide_eq_false_2 by (intros [? [=]]). cbn.
  destruct (Abs.parent_ok _ _); [|done]. rewrite Z.gtb_ltb, (Z.leb_antisym TMPFS_MAX_PATH). cbn.
  destruct (TMPFS_MAX_PATH <? _); [done|]. cbn.
  destruct (is_type _ _).
  - rewrite (rename_nodes old new j node) by done. exists 0, (map (move_node old new) s).
    split; [done|]. split; [done|]. split; [by apply moved_nodup|by apply moved_view].
  - exists 0, (<[j := set_path new node]> s). destruct (view_move j node (set_path new node)) as [Hd Hview]; [done|done|].
    cbn [m_path set_path] in Hview. rewrite Hp in Hview. done.
Qed.

Lemma run_ok o : op_ok o -> refines s (run_op e s o) (spec e (view s) o).
Proof.
  intros Ho. destruct o; cbn [run_op spec].
  - by apply createFile_ok.
  - by apply putContent_ok.
  - by apply editFile_ok.
  - apply createDirectory_ok.
  - apply deleteFile_ok.
  - apply deleteDirectory_ok.
  - by apply rename_ok.
  - apply copyFile_ok.
  - apply touch_ok.
  - apply setFilePermissions_ok.
  - apply setFileOwner_ok.
  - by apply setFileAttr_ok.
Qed.

End refinement.

(** *** The specification keeps the tree *)

Lemma ok_new m p n : map_ok m -> Abs.has_room m p = true -> norm_ok p -> node_ok p n ->
  used m + zlen (m_data n) <= TMPFS_MAX_BYTES -> map_ok (<[p := n]> m).
Proof.
  intros Hm Hr Hn Hnode Hu. unfold Abs.has_room in Hr. rewrite !andb_true_iff, !negb_true_iff, !bool_decide_eq_false in Hr.
  destruct Hr as [[[[Hp _] Hfresh] Hpar] Hcount].
  assert (m !! p = None) as Hnone by (destruct (m !! p); [by destruct Hfresh|done]).
  assert (forall k, Abs.parent_ok m k = true -> Abs.parent_ok (<[p := n]> m) k = true) as Hmono.
  { intros k Hk. destruct (decide (parentOf k = [])) as [E|E]; [by apply parent_ok_root|].
    destruct (parent_ok_inv m k Hk E) as (n' & Hl & Ht). apply (parent_ok_intro _ _ n'); [|done].
    rewrite lookup_insert_ne; congruence. }
  split.
  - intros q n' Hq. apply lookup_insert_Some in Hq as [[<- <-]|[_ Hq]]; [by auto|].
    destruct (mo_node m Hm q n' Hq). auto.
  - rewrite map_size_insert_None by done. apply Z.ltb_lt in Hcount. lia.
  - rewrite used_insert by done. lia.
Qed.

Lemma ok_update m p n n' : map_ok m -> m !! p = Some n -> m_path n' = p -> m_type n' = m_type n ->
  (m_type n = FILE_TYPE_DIR -> m_data n' = m_data n) ->
  used m - zlen (m_data n) + zlen (m_data n') <= TMPFS_MAX_BYTES -> map_ok (<[p := n']> m).
Proof.
  intros Hm Hl Hp Ht Hd Hu.
  assert (forall k, Abs.parent_ok m k = true -> Abs.parent_ok (<[p := n']> m) k = true) as Hmono.
  { intros k. unfold Abs.parent_ok. destruct (decide (parentOf k = p)) as [E|E].
    - rewrite E, Hl, lookup_insert_eq, Ht. done.
    - by rewrite lookup_insert_ne by congruence. }
  destruct (mo_node m Hm p n Hl) as [(Hpn & Hne & Hn & Htype) Hpar].
  split.
  - intros q x Hq. apply lookup_insert_Some in Hq as [[<- <-]|[_ Hq]].
    + split; [|by auto]. repeat split; try done; [apply Hn|apply Hn|]. rewrite Ht.
      destruct Htype as [?|[E Ed]]; [by left|]. right. by rewrite Hd.
    + destruct (mo_node m Hm q x Hq). auto.
  - rewrite map_size_insert_Some by done. apply (mo_count m Hm).
  - rewrite (used_update m p n n' Hl). lia.
Qed.

Lemma used_filter m (P : path -> bool) : used (filter (fun '(k, _) => P k = false) m) <= used m.
Proof.
  induction m as [|p n m H IH] using map_ind; [done|]. rewrite map_filter_insert.
  pose proof (zlen_nonneg (m_data n)). destruct (decide _) as [HP|HP].
  - rewrite !used_insert; [lia|done|]. by apply map_lookup_filter_None_2; left.
  - rewrite delete_id, used_insert by done. lia.
Qed.

Lemma ok_filter m (P : path -> bool) : map_ok m ->
  (forall k n, m !! k = Some n -> parentOf k <> [] -> P (parentOf k) = true -> P k = true) ->
  map_ok (filter (fun '(k, _) => P k = false) m).
Proof.
  intros Hm HP. split.
  - intros k n [Hk HPk]%map_lookup_filter_Some. destruct (mo_node m Hm k n Hk) as [Hn Hpar]. split; [done|].
    destruct (decide (parentOf k = [])) as [E|E]; [by apply parent_ok_root|].
    destruct (parent_ok_inv m k Hpar E) as (n' & Hl & Ht). apply (parent_ok_intro _ _ n'); [|done].
    apply map_lookup_filter_Some. split; [done|]. cbn. destruct (P (parentOf k)) eqn:E'; [|done].
    rewrite (HP k n) in HPk by done. done.
  - etrans; [|apply (mo_count m Hm)]. apply inj_le, map_subseteq_size, map_filter_subseteq.
  - etrans; [apply used_filter|apply (mo_bytes m Hm)].
Qed.

Lemma ok_delete m p n : map_ok m -> m !! p = Some n -> m_type n = FILE_TYPE_REG -> map_ok (delete p m).
Proof.
  intros Hm Hl Ht.
  assert (delete p m = filter (fun '(k, _) => bool_decide (k = p) = false) m) as ->.
  { apply map_eq. intros k. destruct (decide (k = p)) as [->|Hk].
    - rewrite lookup_delete_eq. symmetry. apply map_lookup_filter_None_2. right. intros x _. cbn.
      by rewrite bool_decide_eq_true_2.
    - rewrite lookup_delete_ne by done. symmetry. destruct (m !! k) as [x|] eqn:E.
      + apply map_lookup_filter_Some. split; [done|]. by apply bool_decide_eq_false.
      + apply map_lookup_filter_None_2. by left. }
  apply (ok_filter m (fun k => bool_decide (k = p))); [done|]. intros k x Hk Hp E%bool_decide_eq_true.
  destruct (mo_node m Hm k x Hk) as [_ Hpar]. destruct (parent_ok_inv m k Hpar Hp) as (n' & Hl' & Ht').
  rewrite E, Hl in Hl'. congruence.
Qed.

Lemma ok_rmdir m p n : map_ok m -> p <> [] -> m !! p = Some n ->
  map_ok (filter (fun '(k, _) => k <> p /\ below (p ++ [47]) k = false) m).
Proof.
  intros Hm Hne Hl.
  assert (filter (fun '(k, _) => k <> p /\ below (p ++ [47]) k = false) m =
          filter (fun '(k, _) => gone p k = false) m) as ->.
  { apply map_filter_ext. intros k x _. unfold gone. by rewrite orb_false_iff, bool_decide_eq_false. }
  apply (ok_filter m (gone p)); [done|]. intros k x Hk Hp. destruct (mo_node m Hm k x Hk) as [(_ & _ & Hn & _) _].
  pose proof (parent_inside k Hn Hp) as Hi. unfold gone.
  rewrite !orb_true_iff, !below_inside, !bool_decide_eq_true. intros [E|E]; right.
  - by rewrite <- E.
  - by eapply inside_trans.
Qed.

Section moved_tree.
Variables (s : nodes) (old new : path).
Hypotheses (Hok : tree_ok s) (Hnew : view s !! new = None) (Hnn : new <> []) (Hn : norm_ok new)
  (Hout : ~ inside old new) (Hpar : Abs.parent_ok (view s) new = true).

Lemma moved_lookup k n : view s !! k = Some n ->
  view (map (move_node old new) s) !! Abs.moved old new k = Some (set_path (Abs.moved old new k) n).
Proof.
  intros Hk. apply view_elem in Hk as [Hel <-].
  change (Abs.moved old new (m_path n)) with (m_path (move_node old new n)) at 1.
  apply elem_view; [by apply moved_nodup|]. apply list_elem_of_fmap. by exists n.
Qed.

(** The parent of the new name stays where it is. *)
Lemma parent_stays : parentOf new <> [] -> Abs.moved old new (parentOf new) = parentOf new.
Proof.
  intros E0. pose proof (parent_inside new Hn E0) as Hin.
  destruct (moved_cases old new (parentOf new)) as [[Eo _]|[(_ & q & Hq & Eq & _)|(_ & _ & ->)]]; [| |done].
  - by rewrite Eo in Hin.
  - destruct Hout. apply (inside_trans _ (parentOf new)); [by exists q|done].
Qed.

Lemma moved_root k n : view s !! k = Some n -> k <> old -> parentOf k = [] -> Abs.moved old new k = k.
Proof.
  intros Hk Hno E0. destruct (mo_node _ (proj2 Hok) k n Hk) as [(_ & _ & Hnk & _) _].
  destruct (moved_cases old new k) as [[? _]|[(_ & q & Hq & Eq & _)|(_ & _ & ->)]]; [done| |done].
  destruct (decide (old = [])) as [Eo|Hold].
  - destruct Hnk as [Hh _]. rewrite Eo in Eq. by rewrite Eq in Hh.
  - destruct (inside_parent old k Hold Hnk ltac:(by exists q)) as [Hx _]. done.
Qed.

Lemma moved_parent_ok k n : view s !! k = Some n ->
  Abs.parent_ok (view (map (move_node old new) s)) (Abs.moved old new k) = true.
Proof.
  intros Hk. destruct (mo_node _ (proj2 Hok) k n Hk) as [_ Hpk].
  destruct (decide (k = old)) as [->|Hno].
  - replace (Abs.moved old new old) with new by (unfold Abs.moved; by rewrite bool_decide_eq_true_2).
    destruct (decide (parentOf new = [])) as [E0|E0]; [by apply parent_ok_root|].
    destruct (parent_ok_inv _ _ Hpar E0) as (n' & Hl' & Ht'). apply moved_lookup in Hl'.
    rewrite parent_stays in Hl' by done. by eapply parent_ok_intro.
  - destruct (decide (parentOf k = [])) as [E0|E0].
    + rewrite (moved_root k n) by done. by apply parent_ok_root.
    + destruct (parent_ok_inv _ _ Hpk E0) as (n' & Hl' & Ht'). apply moved_lookup in Hl'.
      rewrite <- (moved_parent (view s) old new (proj2 Hok) k n) in Hl' by done.
      by eapply parent_ok_intro.
Qed.

(** Renaming a directory to a path outside it keeps the tree. *)
Lemma moved_tree : tree_ok (map (move_node old new) s).
Proof.
  assert (NoDup (m_path <$> map (move_node old new) s)) as Hd by (by apply moved_nodup).
  split; [done|]. split.
  - intros p n' Hp. apply view_elem in Hp as [Hel <-]. apply list_elem_of_fmap in Hel as (n & -> & Hel).
    apply elem_view in Hel as Hl; [|apply Hok]. destruct (mo_node _ (proj2 Hok) _ n Hl) as [(_ & Hne & Hnk & Ht) _].
    split; [|by eapply moved_parent_ok]. cbn [m_path move_node set_path].
    assert (norm_ok (Abs.moved old new (m_path n)) /\ Abs.moved old new (m_path n) <> []) as [H1 H2].
    { edestruct moved_norm as [H|H]; [..|exact H|done]; done. }
    split; [done|]. by split.
  - rewrite size_view by done. unfold zlen. rewrite length_map. fold (zlen s).
    rewrite <- size_view by apply Hok. apply Hok.
  - rewrite used_view by done.
    assert (data_sum (map (move_node old new) s) = data_sum s) as ->.
    { clear. induction s as [|n l IH]; cbn; [done|]. by f_equal. }
    rewrite <- used_view by apply Hok. apply Hok.
Qed.
End moved_tree.

(** *** Every operation keeps the tree *)

Lemma zlen_bytes_of content size : size_ok content size -> zlen (Abs.bytes_of content size) <= size.
Proof.
  intros [Hs Hc]. unfold Abs.bytes_of, zlen. destruct content as [c|]; [|cbn; lia]. rewrite length_take. lia.
Qed.

Lemma ok_write e m p content size append m' : map_ok m -> norm_ok p -> size_ok content size ->
  Abs.write e m p content size append = Some m' -> map_ok m'.
Proof.
  intros Hm Hn Hsz H. pose proof (zlen_bytes_of _ _ Hsz) as Hb. unfold Abs.write in H.
  destruct (m !! p) as [n|] eqn:Hl.
  - destruct (_ || _) eqn:G in H; [done|]. injection H as <-.
    rewrite !orb_false_iff in G. destruct G as [[[G1 G2] G3] G4].
    apply (ok_update m p n); [done|done|by apply (mo_node m Hm p n Hl)|done| |].
    + intros E. unfold is_type in G3. by rewrite E in G3.
    + cbn [m_data set_mtime set_content]. rewrite zlen_app. lia.
  - destruct (_ && _) eqn:G in H; [|done]. injection H as <-. apply andb_true_iff in G as [G1 G2].
    apply ok_new; [done|done|done| |cbn [m_data set_content set_path Abs.file]; lia]. split; [done|]. split; [|by split; [|left]].
    unfold Abs.has_room in G1. rewrite !andb_true_iff, !negb_true_iff, !bool_decide_eq_false in G1. by apply G1.
Qed.

Lemma op_create_size p content size : op_ok (Create p content size) -> size_ok content (create_len content size).
Proof.
  cbn. unfold create_len, size_ok. destruct (Z.ltb_spec size 0) as [Hs|Hs]; [|done].
  destruct content as [c|]; [|lia]. intros (str & Hc & Hl). rewrite (strlen_cstring c str Hc). cbn.
  destruct Hc as (_ & x & ->). rewrite zlen_app. pose proof (zlen_nonneg str). pose proof (zlen_nonneg (0 :: x)). lia.
Qed.

Lemma room_ne m p : Abs.has_room m p = true -> p <> [].
Proof. unfold Abs.has_room. rewrite !andb_true_iff, !negb_true_iff, !bool_decide_eq_false. tauto. Qed.

Lemma ok_set m p f m' : map_ok m -> Abs.update m p f = Some m' ->
  (forall n, m_path (f n) = m_path n /\ m_type (f n) = m_type n /\ m_data (f n) = m_data n) -> map_ok m'.
Proof.
  intros Hm H Hf. unfold Abs.update in H. destruct (m !! p) as [n|] eqn:Hl; [|done]. injection H as <-.
  destruct (Hf n) as (E1 & E2 & E3). destruct (mo_node m Hm p n Hl) as [[Hp _] _].
  apply (ok_update m p n); [done|done|congruence|done|done|]. rewrite E3. pose proof (mo_bytes m Hm). lia.
Qed.

(** The operations on the map, renaming apart. *)
Lemma spec_keeps e m o m' : map_ok m -> op_ok o -> (forall a b, o <> Rename a b) -> spec e m o = Some m' -> map_ok m'.
Proof.
  intros Hm Ho Hr H. destruct o as [p c n|p c n a|p off c n|p|p|p|p q|p q|p|p x|p u g|p t b n]; cbn [spec] in H.
  - unfold Abs.create in H. destruct (m !! _); [done|].
    apply (ok_write e m _ c _ false m' Hm (normalize_ok p) (op_create_size p c n Ho) H).
  - by apply (ok_write e m _ c n a m' Hm (normalize_ok p)).
  - destruct c as [c|]; [|done]. unfold Abs.edit in H. destruct (m !! normalize p) as [x|] eqn:Hl; [|done].
    cbn in H. destruct (_ && _) eqn:G in H; [|done]. injection H as <-. apply andb_true_iff in G as [G1 G2].
    apply bool_decide_eq_true in G1. pose proof (mo_bytes m Hm) as Hb.
    apply (ok_update m _ x); [done|done|by apply (mo_node m Hm _ x Hl)|done|congruence|].
    cbn [m_data set_mtime set_content]. apply orb_true_iff in G2 as [G2%Z.eqb_eq|G2%Z.leb_le]; lia.
  - unfold Abs.mkdir in H. destruct (Abs.has_room m _) eqn:G; [|done]. injection H as <-.
    apply ok_new; [done|done|apply normalize_ok| |cbn [m_data stampNew new_node]; rewrite zlen_nil; pose proof (mo_bytes m Hm); lia].
    split; [done|]. split; [by eapply room_ne|]. split; [apply normalize_ok|by right].
  - unfold Abs.rm in H. destruct (m !! normalize p) as [x|] eqn:Hl; [|done]. cbn in H.
    destruct (is_type _ _) eqn:G; [|done]. injection H as <-. apply bool_decide_eq_true in G. by eapply ok_delete.
  - unfold Abs.rmdir in H. destruct (m !! normalize p) as [x|] eqn:Hl; [|done]. cbn in H.
    destruct (_ && _) eqn:G in H; [|done]. injection H as <-. apply andb_true_iff in G as [_ G].
    rewrite negb_true_iff, bool_decide_eq_false in G. by eapply ok_rmdir.
  - by destruct (Hr p q).
  - unfold Abs.copy in H. destruct (m !! normalize p) as [x|] eqn:Hl; [|done]. cbn in H.
    destruct (_ && _) eqn:G in H; [|done]. injection H as <-. rewrite !andb_true_iff in G. destruct G as [[_ G] Gu].
    apply ok_new; [done|done|apply normalize_ok| |cbn [m_data set_content set_path Abs.file]; lia].
    split; [done|]. split; [by eapply room_ne|]. split; [apply normalize_ok|by left].
  - unfold Abs.stamp in H. destruct (m !! normalize p) as [x|] eqn:Hl.
    + injection H as <-. apply (ok_update m _ x); [done|done|by apply (mo_node m Hm _ x Hl)|done|done|].
      pose proof (mo_bytes m Hm). cbn [m_data set_mtime]. lia.
    + unfold Abs.create in H. rewrite Hl in H. apply (ok_write e m _ None 0 false m' Hm (normalize_ok p)); [done|exact H].
  - by apply (ok_set m _ _ m' Hm H).
  - by apply (ok_set m _ _ m' Hm H).
  - destruct b as [b|]; [|done]. destruct (attr_update t n b) as [f|] eqn:Ef; [|done]. apply (ok_set m _ f m' Hm H).
    unfold attr_update in Ef. intros nd. by repeat (destruct (_ && _) in Ef; [by injection Ef as <-|]).
Qed.

Lemma rename_file_ok m old new n : map_ok m -> m !! old = Some n -> m_type n = FILE_TYPE_REG -> norm_ok new -> new <> [] ->
  m !! new = None -> Abs.parent_ok m new = true -> zlen new <= TMPFS_MAX_PATH ->
  map_ok (<[new := set_path new n]> (delete old m)).
Proof.
  intros Hm Hl Ht Hn Hnn Hnew Hpar Hlen. pose proof (mo_bytes m Hm) as Hb. rewrite (used_delete m old n Hl) in Hb.
  apply ok_new; [by eapply ok_delete| |done| |cbn [m_data set_content set_path Abs.file]; lia].
  - unfold Abs.has_room. rewrite bool_decide_eq_false_2 by done. rewrite lookup_delete_ne by congruence. rewrite Hnew.
    rewrite bool_decide_eq_false_2 by (intros [? [=]]). cbn.
    rewrite !andb_true_iff, Z.leb_le, Z.ltb_lt. split; [split; [done|]|].
    + destruct (decide (parentOf new = [])) as [E|E]; [by apply parent_ok_root|].
      destruct (parent_ok_inv m new Hpar E) as (n' & Hl' & Ht'). apply (parent_ok_intro _ _ n'); [|done].
      rewrite lookup_delete_ne; [done|]. intros E'. rewrite <- E', Hl in Hl'. congruence.
    + rewrite map_size_delete_Some by done. pose proof (mo_count m Hm).
      assert (size m <> O); [|lia]. intros E%map_size_empty_iff. by rewrite E, lookup_empty in Hl.
  - split; [done|]. split; [done|]. split; [done|by left].
Qed.

Lemma rename_keeps s a b rc s' : tree_ok s -> ~ inside (normalize a) (normalize b) ->
  rename s a b = Some (rc, s') -> tree_ok s'.
Proof.
  intros Hok Hi H. pose proof (rename_ok s Hok a b Hi) as Href. rewrite H in Href.
  unfold Abs.mv in Href. destruct (view s !! normalize a) as [n|] eqn:Hl; [|by injection Href as -> ->]. cbn in Href.
  destruct (_ && _) eqn:G in Href; [|by injection Href as -> ->].
  rewrite !andb_true_iff, !negb_true_iff, !bool_decide_eq_false in G. destruct G as [[[[_ Hb] Hnew] Hpar] Hlen].
  assert (view s !! normalize b = None) as Hnone by (destruct (view s !! normalize b); [by destruct Hnew|done]).
  pose proof (normalize_ok b) as Hn.
  destruct Href as (rc' & s'' & [= <- <-] & _ & Hd & Hv). destruct (is_type (m_type n) FILE_TYPE_DIR) eqn:Ht.
  - split; [done|]. rewrite Hv, <- (moved_view s Hok) by done. by apply moved_tree.
  - split; [done|]. rewrite Hv. destruct (mo_node _ (proj2 Hok) _ n Hl) as [(_ & _ & _ & Htype) _].
    apply rename_file_ok; try done; [apply Hok| |by apply Z.leb_le].
    destruct Htype as [?|[E _]]; [done|]. by rewrite E in Ht.
Qed.

Lemma run_keeps e s o rc s' : tree_ok s -> op_ok o -> run_op e s o = Some (rc, s') -> tree_ok s'.
Proof.
  intros Hok Ho H.
  assert ((exists a b, o = Rename a b) \/ forall a b, o <> Rename a b) as [(a & b & ->)|Hr].
  { destruct o; try (right; congruence). left. eauto. }
  { by apply (rename_keeps s a b rc). }
  pose proof (run_ok e s Hok o Ho) as Href. rewrite H in Href.
  destruct (spec e (view s) o) as [m|] eqn:Hs; [|by injection Href as -> ->].
  destruct Href as (rc' & s'' & [= <- <-] & _ & Hd & Hv). split; [done|]. rewrite Hv.
  by apply (spec_keeps e (view s) o m); [apply Hok|..].
Qed.

Lemma tree_empty : tree_ok [].
Proof. split; [constructor|]. split; [intros p n H; discriminate (eq_trans (eq_sym H) (lookup_empty p))|done|done]. Qed.

(** A sequence of operations, each in the session and at the time of its own. *)
Fixpoint run_all (s : nodes) (os : list (env * fs_op)) : option nodes :=
  match os with
  | [] => Some s
  | (e, o) :: os => '(_, s) <- run_op e s o;; run_all s os
  end.

Lemma run_all_ok s os : tree_ok s -> Forall (fun eo => op_ok (snd eo)) os ->
  exists s', run_all s os = Some s' /\ tree_ok s'.
Proof.
  revert s. induction os as [|[e o] os IH]; intros s Hok H; [by exists s|]. apply Forall_cons_1 in H as [Ho H]. cbn in Ho |- *.
  pose proof (run_ok e s Hok o Ho) as Hr.
  assert (exists rc s', run_op e s o = Some (rc, s')) as (rc & s' & E).
  { unfold refines in Hr. destruct (spec e (view s) o); [|by eauto]. destruct Hr as (rc & s' & E & _). by eauto. }
  rewrite E. cbn. apply IH; [|done]. by eapply run_keeps.
Qed.

(** ** Reading *)

Lemma tmpfs_read_loop_spec {X} (cb : X -> list Z -> bool * X) data chunk pre mid fuel x :
  0 < chunk -> zlen data < 2147483648 -> zlen mid < Z.of_nat fuel ->
  forall done off, data = pre ++ mid -> zlen pre = off + done -> 0 <= done -> 0 <= off ->
  read_chunks fuel cb data off (done + zlen mid) chunk done x =
  let '(n, x) := deliver cb x (chunks (length mid) (Z.to_nat chunk) mid) in Some (done + n, x).
Proof.
  intros Hc Hd. revert pre mid x. induction fuel as [|fuel IH]; intros pre mid x Hf done off E Hp H0 Ho;
    pose proof (zlen_nonneg mid); [lia|].
  assert (zlen data = off + done + zlen mid) as Hz by (rewrite E, zlen_app; lia).
  cbn [read_chunks]. destruct mid as [|y mid'].
  { rewrite zlen_nil, Z.add_0_r, Z.ltb_irrefl. cbn. rewrite i32_small by lia. by rewrite Z.add_0_r. }
  set (mid := y :: mid') in *. assert (1 <= zlen mid) by (unfold mid; rewrite zlen_cons; pose proof (zlen_nonneg mid'); lia).
  destruct (Z.ltb_spec done (done + zlen mid)); [|lia].
  set (n := Z.min (done + zlen mid - done) chunk).
  destruct (zsplit mid n) as (a & b & Em & Ha); [lia|].
  assert (take (Z.to_nat chunk) mid = a /\ drop (Z.to_nat chunk) mid = b) as [Et Edr].
  { destruct (Z.leb_spec (zlen mid) chunk) as [Hle|Hgt].
    - assert (b = []) as ->.
      { apply length_zero_iff_nil. apply (f_equal zlen) in Em. rewrite zlen_app in Em. unfold zlen in *. lia. }
      rewrite app_nil_r in Em. rewrite <- Em. rewrite take_ge, drop_ge by (unfold zlen in *; lia). done.
    - rewrite Em. replace (Z.to_nat chunk) with (length a) by (unfold zlen in *; lia).
      by rewrite take_app_length, drop_app_length. }
  assert (msub data (off + done) n = Some a) as ->.
  { rewrite E, Em, <- Hp, <- Ha. apply msub_app_mid. }
  cbn [mbind option_bind].
  assert (chunks (length mid) (Z.to_nat chunk) mid = a :: chunks (length b) (Z.to_nat chunk) b) as ->.
  { unfold mid at 1. cbn [length chunks]. fold mid. rewrite Et, Edr. f_equal.
    apply chunks_fuel; [lia| |done]. apply (f_equal length) in Em. rewrite length_app in Em. unfold mid in Em. cbn in Em.
    unfold zlen in Ha. lia. }
  cbn [deliver]. destruct (cb x a) as [more x'] eqn:Ecb. destruct more; [|by rewrite i32_small, Z.add_0_r by lia].
  replace (done + zlen mid) with (done + n + zlen b) by (rewrite Em, zlen_app; lia).
  rewrite (IH (pre ++ a) b x').
  - destruct (deliver _ _ _) as [k x'']. f_equal. f_equal. lia.
  - rewrite Em, zlen_app in Hf. lia.
  - by rewrite E, Em, <- app_assoc.
  - rewrite zlen_app. lia.
  - lia.
  - lia.
Qed.

Lemma readFile_spec {X} s p n size (cb : X -> list Z -> bool * X) off x :
  view s !! normalize (Some p) = Some n -> m_type n = FILE_TYPE_REG -> zlen (m_data n) < 2147483648 ->
  0 <= size -> 0 <= off ->
  readFile s (Some p) size cb off x =
  Some (let rest := drop (Z.to_nat off) (m_data n) in
        let k := if (0 <? size) && (size <? zlen rest) then size else zlen rest in
        deliver cb x (chunks (length rest) (Z.to_nat k) rest)).
Proof.
  intros Hv Ht Hl Hs Ho. unfold readFile. find_node s (normalize (Some p)); [done|].
  injection Hv as <-. unfold is_type. rewrite bool_decide_eq_true_2 by done. cbn [negb].
  destruct (Z.geb_spec off (zlen (m_data n0))) as [Hge|Hlt].
  { rewrite drop_ge by (unfold zlen in *; lia). done. }
  destruct (zsplit (m_data n0) off) as (pre & rest & Esp & Hpre); [lia|]. rewrite Esp.
  assert (drop (Z.to_nat off) (pre ++ rest) = rest) as ->.
  { replace (Z.to_nat off) with (length pre) by (unfold zlen in *; lia). apply drop_app_length. }
  rewrite zlen_app. pose proof (f_equal zlen Esp) as Ez. rewrite zlen_app in Ez.
  assert (u32 (u32 (zlen pre + zlen rest) - u32 off) = zlen rest) as ->.
  { rewrite !u32_small; rewrite ?u32_small; lia. }
  rewrite Z.gtb_ltb. set (k := if (0 <? size) && (size <? zlen rest) then size else zlen rest).
  assert (0 < k) as Hk by (unfold k; destruct (Z.ltb_spec 0 size); cbn [andb]; [destruct (_ <? _)|]; lia).
  assert (zlen (pre ++ rest) < 2147483648) as Hl' by (rewrite zlen_app; lia).
  pose proof (tmpfs_read_loop_spec cb (pre ++ rest) k pre rest (S (Z.to_nat (zlen rest))) x Hk Hl' ltac:(lia) 0 off eq_refl
    ltac:(lia) ltac:(lia) Ho) as Hr.
  change (0 + zlen rest) with (zlen rest) in Hr. rewrite Hr. by destruct (deliver _ _ _).
Qed.

(** What a write leaves at its path. *)
Lemma write_node e m p content size append m' : Abs.write e m p content size append = Some m' -> map_ok m ->
  exists n, m' = <[p := n]> m /\ m_type n = FILE_TYPE_REG /\
    m_data n = (if append then match m !! p with Some o => m_data o | None => [] end else []) ++ Abs.bytes_of content size.
Proof.
  unfold Abs.write. intros H Hm. destruct (m !! p) as [o|] eqn:Hl.
  - destruct (_ || _) eqn:G in H; [done|]. rewrite !orb_false_iff in G. destruct G as [[[_ _] G] _].
    injection H as <-. eexists. split; [done|]. split; [|done]. cbn.
    destruct (mo_node _ Hm _ o Hl) as [(_ & _ & _ & [?|[E _]]) _]; [done|]. by rewrite E in G.
  - destruct (_ && _) in H; [|done]. injection H as <-. eexists. split; [done|]. split; [done|]. by destruct append.
Qed.

(** ** Theorems *)





(** What a successful write leaves is read back, in whatever pieces the reader asks
    for: the earlier content when appending, then the bytes written.  No other file
    changes. *)
Theorem tmpfs_write_read e s p content size append chunk rc s' :
  tree_ok s -> size_ok content size -> 0 <= chunk -> writeFile e s (Some p) content size append = Some (rc, s') -> 0 <= rc ->
  let norm := normalize (Some p) in
  let old := if append then match view s !! norm with Some n => m_data n | None => [] end else [] in
  readFile s' (Some p) chunk (fun acc d => (true, acc ++ d)) 0 [] =
    Some (zlen (old ++ Abs.bytes_of content size), old ++ Abs.bytes_of content size) /\
  forall q, q <> norm -> view s' !! q = view s !! q.
Proof.
  intros Hok Hsz Hch H Hrc norm old.
  assert (tree_ok s') as Hok' by (by apply (run_keeps e s (Write (Some p) content size append) rc)).
  pose proof (putContent_ok e s Hok norm content size append Hsz) as Hr. unfold writeFile in H. fold norm in H.
  rewrite H in Hr. destruct (Abs.write e (view s) norm content size append) as [m|] eqn:Hw; [|injection Hr as -> _; lia].
  destruct Hr as (rc' & s'' & [= <- <-] & _ & _ & Hv).
  destruct (write_node _ _ _ _ _ _ _ Hw (proj2 Hok)) as (n & Em & Ht & Hd). rewrite Em in Hv. rename Hv into Hv'.
  split.
  - unfold old. rewrite <- Hd. assert (view s' !! normalize (Some p) = Some n) as Hl by (rewrite Hv'; apply lookup_insert_eq).
    pose proof (data_bound s' Hok' _ n Hl) as Hb. unfold TMPFS_MAX_BYTES in Hb.
    rewrite (readFile_spec s' p n chunk _ 0 []) by (done || lia). cbv zeta. rewrite deliver_collect, drop_0.
    destruct (m_data n) as [|c d] eqn:Ed; [done|]. rewrite concat_chunks; [done| |done].
    rewrite zlen_cons. pose proof (zlen_nonneg d). destruct (Z.ltb_spec 0 chunk); cbn [andb]; [destruct (_ <? _)|]; lia.
  - intros q Hq. rewrite Hv'. by apply lookup_insert_ne.
Qed.

Lemma tmpfs_write_read_witness :
  readFile (match writeFile (mkEnv 0 0 0 18) [] (Some [47; 102]) (Some [1; 2; 3]) 3 false with Some (_, s) => s | None => [] end)
    (Some [47; 102]) 2 (fun acc d => (true, acc ++ d)) 0 [] = Some (3, [1; 2; 3]).
Proof.
  exact (proj1 (tmpfs_write_read (mkEnv 0 0 0 18) [] [47; 102] (Some [1; 2; 3]) 3 false 2 3 _ tree_empty
    ltac:(vm_compute; intuition congruence) ltac:(lia) ltac:(vm_compute; reflexivity) ltac:(lia))).
Defined.

(** *** What the callers must see to *)

Lemma rename_inv s a b s' : rename s a b = Some (0, s') -> exists j n,
  s !! j = Some n /\ m_path n = normalize a /\ view s !! normalize a = Some n /\ view s !! normalize b = None /\
  Abs.parent_ok (view s) (normalize b) = true /\
  s' = (let s1 := <[j := set_path (normalize b) n]> s in
        if is_type (m_type n) FILE_TYPE_DIR
        then map (fun n => set_path (rebase (normalize a) (normalize b) (m_path n)) n) s1 else s1).
Proof.
  unfold rename. intros H. rewrite parentExists_ok in H. destruct (_ || _) in H; [done|].
  find_node s (normalize a); [done|]. destruct (findNode_spec s (normalize b)) as [[E' Hv']|(j' & n' & E' & _)].
  - rewrite E' in H. cbn [mbind option_bind] in H. destruct (Abs.parent_ok _ _) eqn:Hpar; [|done]. cbn in H.
    destruct (_ >? _) in H; [done|]. exists j, n. repeat (split; [done|]). destruct (is_type _ _); by injection H.
  - rewrite E' in H. by assert ((Z.of_nat j' >=? 0) = true) as Hg by lia; rewrite Hg in H.
Qed.

Lemma rebase_not_new old new k : inside old new -> rebase old new k <> new.
Proof.
  intros Hi E. unfold rebase in E. destruct (below (old ++ [47]) k) eqn:B.
  - apply (f_equal length) in E. rewrite !length_app in E. cbn in E. lia.
  - rewrite E in B. apply below_inside in Hi. congruence.
Qed.

(** Renaming a directory to a path inside itself is not refused: the call reports
    success and leaves nodes whose parent directory does not exist. *)
Theorem tmpfs_rename_into_itself s a b s' : tree_ok s -> inside (normalize a) (normalize b) ->
  rename s a b = Some (0, s') -> ~ tree_ok s'.
Proof.
  intros Hok Hi H Hok'. destruct (rename_inv s a b s' H) as (j & n & Hj & Hp & Hva & Hvb & Hpar & Es').
  set (old := normalize a) in *. set (new := normalize b) in *.
  destruct (mo_node _ (proj2 Hok) old n Hva) as [(_ & Hne & Hno & _) _].
  assert (m_type n = FILE_TYPE_DIR) as Ht.
  { destruct (inside_parent old new Hne (normalize_ok b) Hi) as [Hp0 Hcase].
    destruct (parent_ok_inv _ _ Hpar Hp0) as (n' & Hl' & Ht').
    destruct Hcase as [E|[l El]]; [rewrite E, Hva in Hl'; congruence|].
    destruct (mo_node _ (proj2 Hok) _ n' Hl') as [(_ & _ & [_ Hlast] & _) _].
    destruct (ancestor (view s) old _ n' (proj2 Hok) Hne Hl') as (n'' & Hl'' & Ht''); [|congruence].
    exists l. split; [|done]. intros ->. apply Hlast. rewrite El. apply last_snoc. }
  unfold is_type in Es'. rewrite bool_decide_eq_true_2 in Es' by done. cbv zeta in Es'.
  pose proof Hi as (q & Hq & Enew).
  assert (set_path (new ++ 47 :: q) n ∈ s') as Hel.
  { rewrite Es'. apply list_elem_of_fmap. exists (set_path new n). split.
    - cbn [m_path set_path]. assert (rebase old new new = new ++ 47 :: q) as ->; [|done].
      transitivity (rebase old new (old ++ 47 :: q)); [by rewrite <- Enew|by apply rebase_inside].
    - eapply list_elem_of_lookup_2, list_lookup_insert_eq. by eapply lookup_lt_Some. }
  apply elem_view in Hel; [|apply Hok'].
  edestruct (ancestor (view s') new (new ++ 47 :: q)) as (x & Hx & _); [apply Hok'| |exact Hel|by exists q|].
  - rewrite Enew. by destruct old.
  - apply view_elem in Hx as [Hx Epath]. rewrite Es' in Hx. apply list_elem_of_fmap in Hx as (y & -> & _).
    by apply (rebase_not_new old new (m_path y)).
Qed.

Definition witness_dir : nodes := [stampNew (mkEnv 0 0 0 18) FILE_PERM_DEFAULT_DIR (new_node [97] [] FILE_TYPE_DIR)].

Lemma witness_dir_ok : tree_ok witness_dir.
Proof. apply (run_keeps (mkEnv 0 0 0 18) [] (Mkdir (Some [97])) 0); [apply tree_empty|done|by vm_compute]. Qed.

Lemma tmpfs_rename_into_itself_witness :
  ~ tree_ok (match rename witness_dir (Some [97]) (Some [97; 47; 98]) with Some (_, s) => s | None => [] end).
Proof.
  apply (tmpfs_rename_into_itself witness_dir (Some [97]) (Some [97; 47; 98])).
  - exact witness_dir_ok.
  - by exists [98].
  - vm_compute. reflexivity.
Defined.

(** The end of an edit is computed in 32 bits: an edit that starts near 2^32 and
    whose end wraps around to a small number passes the size check and writes far
    behind the file's data. *)
Theorem tmpfs_edit_wraps e s p off c size : tree_ok s -> isFileExist s p = Some true ->
  4096 <= off < 4294967296 -> 0 < size < 4294967296 -> 4294967296 <= off + size <= 4294967296 + getFreeSize s ->
  size <= zlen c -> editFile e s p off (Some c) size = None.
Proof.
  intros Hok Hf Hoff Hs Hend Hc. unfold editFile, isFileExist in *. unfold getFreeSize in Hend.
  rewrite (used_ok s Hok) in *. pose proof (mo_bytes _ (proj2 Hok)) as Hu. pose proof (used_nonneg (view s)).
  unfold TMPFS_MAX_BYTES in *. assert (off + size <= 4294967296 + 4096 - used (view s)) as Hend'
    by (destruct (used (view s) >=? 4096) eqn:?; lia).
  find_node s (normalize p); [done|].
  assert ((Z.of_nat j >=? 0) = true) as Hg by lia. rewrite Hg in Hf. injection Hf as Hf. rewrite Hf. pose proof (data_bound s Hok _ n Hv) as Hd. pose proof (zlen_nonneg (m_data n)).
  unfold TMPFS_MAX_BYTES in Hd. rewrite (u32_small (zlen _)), (u32_small off) by lia.
  assert (u32 (off + size) = off + size - 4294967296) as ->.
  { unfold u32. symmetry. apply (Z.mod_unique _ _ 1); lia. }
  assert (forall d, zlen d <= 4096 -> edit_loop (Z.to_nat size) 0 off c d = None) as Hloop.
  { intros d Hd'. destruct (Z.to_nat size) as [|k] eqn:Ek; [lia|]. cbn [edit_loop].
    rewrite mget_Some by lia. cbn [mbind option_bind]. rewrite (u32_small off), u32_small by lia.
    assert (mset d (off + 0) (c !!! Z.to_nat 0) = None) as ->; [|done].
    unfold mset. destruct (_ && _) eqn:G; [|done]. lia. }
  destruct (_ && _) eqn:G.
  { exfalso. rewrite u32_small in G by lia. lia. }
  rewrite Hloop; [done|]. destruct (Z.gtb_spec (off + size - 4294967296) (zlen (m_data n))); [|lia].
  unfold zlen in *. rewrite length_app, length_replicate. lia.
Qed.

Definition witness_file : nodes :=
  [set_content [1; 2; 3] (stampNew (mkEnv 0 0 0 18) FILE_PERM_DEFAULT_FILE (new_node [102] [] FILE_TYPE_REG))].

Lemma witness_file_ok : tree_ok witness_file.
Proof. 
  apply (run_keeps (mkEnv 0 0 0 18) [] (Write (Some [102]) (Some [1; 2; 3]) 3 false) 3); [apply tree_empty|done|by vm_compute].
Qed.

Lemma tmpfs_edit_wraps_witness :
  editFile (mkEnv 0 0 0 18) witness_file (Some [102]) 4294967295 (Some [7; 8]) 2 = None.
Proof.
  apply tmpfs_edit_wraps.
  - exact witness_file_ok.
  - vm_compute. reflexivity.
  - lia.
  - lia.
  - vm_compute. intuition congruence.
  - vm_compute. congruence.
Defined.

(** ** The RAM file system as an implementation of the interface *)

#[export] Instance tmpfs_fs : iFileSystem nodes := {|
  fs_init s := Some (0, s);
  fs_createFile := createFile;
  fs_editFile := editFile;
  fs_writeFile := writeFile;
  fs_readFile X s p n cb o _ x := readFile s p n cb o x;
  fs_getOffsetFromLineNumber _ _ _ := Some (-1);
  fs_getLineNumberFromOffset _ _ _ := Some (-1);
  fs_findInFile _ _ _ _ _ _ := Some (-1, []);
  fs_getLineNumbersInFile _ _ _ _ := Some (-1, []);
  fs_readLineInFile _ _ _ _ := Some (-1, []);
  fs_createDirectory := createDirectory;
  fs_deleteDirectory _ := deleteDirectory;
  fs_rename _ := rename;
  fs_copyFile := copyFile;
  fs_moveFile _ := moveFile;
  fs_deleteFile _ := deleteFile;
  fs_getFileSize := getFileSize;
  fs_getDirFileList := getDirFileList;
  fs_isFileExist := isFileExist;
  fs_isDirExist := isDirExist;
  fs_isDirectory := isDirectory;
  fs_setFileAttr _ := setFileAttr;
  fs_getFileAttr := getFileAttr;
  fs_removeFileAttr _ s _ _ := Some (-1, s);
  fs_getFileMeta := getFileMeta;
  fs_setFilePermissions _ := setFilePermissions;
  fs_setFileOwner _ := setFileOwner;
  fs_touch := touch |}.

(** The content of the regular files. *)
Definition files_of (s : nodes) (k : path) : option (list Z) :=
  n <- view s !! k;; if is_type (m_type n) FILE_TYPE_REG then Some (m_data n) else None.

Lemma files_of_Some s k d : files_of s k = Some d ->
  exists n, view s !! k = Some n /\ m_type n = FILE_TYPE_REG /\ m_data n = d.
Proof.
  unfold files_of. destruct (view s !! k) as [n|]; [|done]. cbn. destruct (is_type _ _) eqn:E; [|done].
  intros [= <-]. exists n. by apply is_type_spec in E.
Qed.

Lemma files_of_reg s k n : view s !! k = Some n -> m_type n = FILE_TYPE_REG -> files_of s k = Some (m_data n).
Proof. intros H E. unfold files_of. rewrite H. cbn. by rewrite E. Qed.

(** The files after a node was put at [k]. *)
Lemma files_of_insert s s' k n : view s' = <[k := n]> (view s) -> m_type n = FILE_TYPE_REG ->
  files_of s' k = Some (m_data n) /\ forall k', k' <> k -> files_of s' k' = files_of s k'.
Proof.
  intros Hv Ht. split; [apply files_of_reg; [|done]; rewrite Hv; apply lookup_insert_eq|].
  intros k' Hk. unfold files_of. by rewrite Hv, lookup_insert_ne.
Qed.

Definition norm_of (_ : nodes) (q : path) : path := normalize (Some q).

Lemma tmpfs_law_size b k d : tree_ok b -> files_of b k = Some d -> zlen d < 2147483648.
Proof.
  intros Hok (n & Hl & _ & <-)%files_of_Some. pose proof (data_bound b Hok k n Hl) as Hb.
  unfold TMPFS_MAX_BYTES in Hb. lia.
Qed.

Lemma tmpfs_law_isFileExist b p : tree_ok b ->
  isFileExist b p = Some (match files_of b (normalize p) with Some _ => true | None => false end).
Proof.
  intros Hok. unfold isFileExist, files_of. find_node b (normalize p); [done|]. cbn. by destruct (is_type _ _).
Qed.

Lemma tmpfs_law_isDirectory b p d : tree_ok b -> files_of b (normalize p) = Some d -> isDirectory b p = Some false.
Proof.
  intros Hok (n & Hl & Ht & _)%files_of_Some. unfold isDirectory, isDirExist.
  destruct (mo_node _ (proj2 Hok) _ n Hl) as [(_ & Hne & _) _]. rewrite bool_decide_eq_false_2 by done.
  find_node b (normalize p); [done|]. injection Hl as ->. by rewrite Ht.
Qed.

Lemma tmpfs_law_isDirExist b p : tree_ok b -> exists r, isDirExist b p = Some r.
Proof.
  intros Hok. unfold isDirExist. case_bool_decide; [by eauto|]. find_node b (normalize p); by eauto.
Qed.

Lemma tmpfs_law_readFile X b q d n cb (x : X) : tree_ok b -> files_of b (normalize (Some q)) = Some d -> 0 < n < 2147483648 ->
  let cs := chunks (length d) (Z.to_nat n) d in
  exists rc k, readFile b (Some q) n cb 0 x = Some (rc, snd (deliver cb x (take k cs))) /\ (0 <= rc -> take k cs = cs).
Proof.
  intros Hok Hf [Hn _] cs. unfold cs. rewrite <- chunks_min by done. destruct (files_of_Some _ _ _ Hf) as (nd & Hl & Ht & <-).
  pose proof (data_bound b Hok _ nd Hl) as Hb. unfold TMPFS_MAX_BYTES in Hb.
  rewrite (readFile_spec b q nd) by (done || lia). cbv zeta. rewrite drop_0.
  assert ((if (0 <? n) && (n <? zlen (m_data nd)) then n else zlen (m_data nd)) = Z.min n (zlen (m_data nd))) as ->.
  { destruct (Z.ltb_spec 0 n), (Z.ltb_spec n (zlen (m_data nd))); cbn [andb]; lia. }
  set (cs' := chunks _ _ _). exists (fst (deliver cb x cs')), (length cs'). rewrite take_ge by done. split; [by destruct (deliver cb x cs')|done].
Qed.

Lemma tmpfs_law_writeFile e b q c append (p := Some q) : tree_ok b -> c <> [] -> zlen c < 2147483648 ->
  exists rc b', writeFile e b p (Some c) (zlen c) append = Some (rc, b') /\ tree_ok b' /\
    fs_frame norm_of files_of q b b' /\
    (0 <= rc ->
     files_of b' (normalize p) = Some ((if append then default [] (files_of b (normalize p)) else []) ++ c)).
Proof.
  intros Hok _ Hc. assert (size_ok (Some c) (zlen c)) as Hs by (split; [pose proof (zlen_nonneg c)|cbn]; lia).
  pose proof (putContent_ok e b Hok (normalize p) (Some c) (zlen c) append Hs) as Hr.
  unfold writeFile. destruct (Abs.write e (view b) (normalize p) (Some c) (zlen c) append) as [m|] eqn:Hw.
  - destruct Hr as (rc & s' & E & Hrc & _ & Hv). exists rc, s'. split; [done|]. split.
    { by apply (run_keeps e b (Write p (Some c) (zlen c) append) rc). }
    destruct (write_node _ _ _ _ _ _ _ Hw (proj2 Hok)) as (n & -> & Ht & Hd).
    destruct (files_of_insert b s' (normalize p) n Hv Ht) as [-> Hother]. split; [done|]. intros _. f_equal. rewrite Hd.
    unfold Abs.bytes_of, zlen. rewrite Nat2Z.id, firstn_all. f_equal. destruct append; [|done].
    unfold files_of. destruct (view b !! normalize p) as [o|] eqn:El; [|done]. cbn.
    unfold Abs.write in Hw. rewrite El in Hw. destruct (_ || _) eqn:G in Hw; [done|].
    rewrite !orb_false_iff in G. destruct G as [[_ G] _].
    destruct (mo_node _ (proj2 Hok) _ o El) as [(_ & _ & _ & [Et|[Et _]]) _]; rewrite Et in *; done.
  - rewrite Hr. exists (-1), b. split; [done|]. split; [done|]. split; [done|]. lia.
Qed.

Lemma tmpfs_law_createFile e b q (p := Some q) : tree_ok b -> files_of b (normalize p) = None ->
  exists rc b', createFile e b p (Some [0]) 0 = Some (rc, b') /\ tree_ok b' /\
    fs_frame norm_of files_of q b b' /\
    (0 <= rc /\ files_of b' (normalize p) = Some [] \/ rc < 0 /\ files_of b' (normalize p) = None).
Proof.
  intros Hok Hf. assert (op_ok (Create p (Some [0]) 0)) as Ho by done.
  pose proof (createFile_ok e b Hok p (Some [0]) 0 Ho) as Hr. change (create_len (Some [0]) 0) with 0 in Hr. destruct (Abs.create _ _ _ _ _) as [m|] eqn:Hc.
  - destruct Hr as (rc & s' & E & Hrc & _ & Hv). exists rc, s'. split; [done|]. split.
    { by apply (run_keeps e b (Create p (Some [0]) 0) rc). }
    unfold Abs.create in Hc. destruct (view b !! normalize p) eqn:El; [done|].
    destruct (write_node _ _ _ _ _ _ _ Hc (proj2 Hok)) as (n & -> & Ht & Hd).
    destruct (files_of_insert b s' (normalize p) n Hv Ht) as [-> Hother]. split; [done|]. left. by rewrite Hd.
  - rewrite Hr. exists (-1), b. split; [done|]. split; [done|]. split; [done|]. right. split; [lia|done].
Qed.

Lemma tmpfs_law_deleteFile b q (p := Some q) : tree_ok b ->
  exists rc b', deleteFile b p = Some (rc, b') /\ tree_ok b' /\ fs_frame norm_of files_of q b b' /\
    files_of b' (normalize p) = (if rc =? 0 then None else files_of b (normalize p)).
Proof.
  intros Hok. pose proof (deleteFile_ok b Hok p) as Hr. unfold Abs.rm in Hr. destruct (view b !! normalize p) as [n|] eqn:El; cbn in Hr; [destruct (is_type _ _) eqn:Et|].
  - destruct Hr as (rc & s' & E & Hrc & _ & Hv). exists rc, s'. split; [done|]. split.
    { by apply (run_keeps (mkEnv 0 0 0 0) b (Rm p) rc). }
    split.
    { split; [|done]. intros k Hk. unfold files_of. rewrite Hv. by rewrite lookup_delete_ne. }
    assert (rc = 0) as ->.
    { unfold deleteFile in E. find_node b (normalize p); [done|]. injection El as ->. rewrite Et in E. by injection E. }
    unfold files_of. by rewrite Hv, lookup_delete_eq.
  - rewrite Hr. by exists (-1), b.
  - rewrite Hr. by exists (-1), b.
Qed.

#[export] Instance tmpfs_laws : FileSystemLaws nodes := {|
  fs_ok := tree_ok; fs_norm := norm_of; fs_files := files_of;
  law_size := tmpfs_law_size;
  law_isFileExist b q := tmpfs_law_isFileExist b (Some q);
  law_isDirectory b q := tmpfs_law_isDirectory b (Some q);
  law_isDirExist b q := tmpfs_law_isDirExist b (Some q);
  law_readFile := tmpfs_law_readFile;
  law_writeFile := tmpfs_law_writeFile;
  law_createFile := tmpfs_law_createFile;
  law_deleteFile _ := tmpfs_law_deleteFile |}.

End TmpFs.
