(* ===== verification/LittleFs.v ===== *)
(** * The flash file system ([src/external/LittleFSWrapper.cpp],
    [src/interface/pdi/impl/modules/storage/FileSystemInterfaceImpl.cpp])

    The wrapper that implements the file system interface over the littlefs library, and
    the layer above it with the permissions, the working directory and the names.  The
    library itself is the class [Lfs]: its functions over a state [L], open files [F] and
    open directories [D]; what the code relies on is the class [LfsSpec], from the
    documentation in [lfs.h].

    The theorems: reading up to a text stops before its first occurrence, searching finds
    the occurrences, line numbers and offsets correspond; the wrapper keeps the promises
    of the interface; the cases where it does not report what happened. *)

From stdpp Require Import base option list numbers gmap.
From Stdlib Require Import ZArith Lia.
From S2P Require Import Prelude StrOps FileSys TmpFs.

Open Scope Z_scope.

Module LittleFs.

(** ** The library *)

Definition LFS_O_RDONLY : Z := 1.
Definition LFS_O_WRONLY : Z := 2.
Definition LFS_O_CREAT : Z := 256.
Definition LFS_O_EXCL : Z := 512.
Definition LFS_O_TRUNC : Z := 1024.
Definition LFS_O_APPEND : Z := 2048.
Definition LFS_SEEK_SET : Z := 0.
Definition LFS_SEEK_END : Z := 2.
Definition LFS_TYPE_DIR : Z := 2.
Definition LFS_ERR_OK : Z := 0.
Definition LFS_ERR_IO : Z := -5.
Definition LFS_ERR_EXIST : Z := -17.
Definition LFS_ERR_INVAL : Z := -22.
Definition LFS_ERR_NAMETOOLONG : Z := -36.
Definition LFS_NAME_MAX : Z := 24.

(** The fields of [lfs_config] the wrapper sets. *)
Record lfs_config := mkConfig { read_size : Z; prog_size : Z; block_size : Z; cache_size : Z; lookahead_size : Z;
  block_cycles : Z; block_count : Z }.

Record lfs_info := mkLfsInfo { l_type : Z; l_size : Z; l_name : path }.

(** Reading returns the bytes with their number; [lfs_getattr] takes the buffer as it is and
    returns what it holds afterwards. *)
Class Lfs (L F D : Type) := {
  lfs_mount : L -> lfs_config -> Z * L;
  lfs_format : L -> lfs_config -> Z * L;
  lfs_file_open : L -> path -> Z -> Z * F * L;
  lfs_file_close : L -> F -> Z * L;
  lfs_file_size : L -> F -> Z;
  lfs_file_seek : L -> F -> Z -> Z -> Z * F;
  lfs_file_read : L -> F -> Z -> Z * list Z * F;
  lfs_file_write : L -> F -> list Z -> Z * F * L;
  lfs_remove : L -> path -> Z * L;
  lfs_rename : L -> path -> path -> Z * L;
  lfs_mkdir : L -> path -> Z * L;
  lfs_setattr : L -> path -> Z -> list Z -> Z * L;
  lfs_getattr : L -> path -> Z -> list Z -> Z * list Z;
  lfs_removeattr : L -> path -> Z -> Z * L;
  lfs_dir_open : L -> path -> Z * D * L;
  lfs_dir_read : L -> D -> Z * lfs_info * D;
  lfs_dir_close : L -> D -> Z * L;
  lfs_fs_size : L -> Z }.

(** ** The device *)

(** [iStorageInterface] *)
Class iStorage (S : Type) := {
  st_read : S -> Z -> Z -> Z * list Z;
  st_write : S -> Z -> list Z -> Z * S;
  st_erase : S -> Z -> Z -> bool * S;
  st_size : S -> Z }.

Section device.
Context {S : Type} `{iStorage S}.

Definition address (c : lfs_config) (block offset : Z) : Z := u32 (block * block_size c + offset).

Definition readCallback (c : lfs_config) (st : S) (block offset size : Z) : Z * list Z :=
  let '(byteRead, data) := st_read st (address c block offset) size in
  if byteRead <? 0 then (LFS_ERR_IO, data) else (LFS_ERR_OK, data).

Definition progCallback (c : lfs_config) (st : S) (block offset : Z) (buffer : list Z) : Z * S :=
  let '(byteWritten, st) := st_write st (address c block offset) buffer in
  if byteWritten <? 0 then (LFS_ERR_IO, st) else (LFS_ERR_OK, st).

Definition eraseCallback (c : lfs_config) (st : S) (block : Z) : Z * S :=
  let '(bytesErased, st) := st_erase st (address c block 0) (block_size c) in
  if bytesErased : bool then (LFS_ERR_OK, st) else (LFS_ERR_IO, st).

Definition syncCallback (c : lfs_config) : Z := LFS_ERR_OK.
End device.

Section wrapper.
Context {L F D : Type} `{Lfs L F D}.

(** ** Mounting *)

Definition initLFSConfig (storage_size : Z) (lfscnfg : option lfs_config) (l : L) : option (Z * lfs_config * L) :=
  let c := match lfscnfg with Some c => c | None => mkConfig 8 8 32 8 8 500 0 end in
  if block_size c =? 0 then None
  else
    let c := mkConfig (read_size c) (prog_size c) (block_size c) (cache_size c) (lookahead_size c) (block_cycles c)
               (u32 (storage_size / block_size c)) in
    let '(ret, l) := lfs_mount l c in
    if negb (ret =? LFS_ERR_OK) then
      let '(_, l) := lfs_format l c in
      let '(ret, l) := lfs_mount l c in Some (ret, c, l)
    else Some (ret, c, l).

Definition getTotalSize (c : lfs_config) : Z := u32 (block_size c * block_count c).
Definition getUsedSize (c : lfs_config) (l : L) : Z := u32 (i32 (lfs_fs_size l) * block_size c).

Definition getFreeSize (c : lfs_config) (l : L) : Z :=
  let totalSize := getTotalSize c in
  let usedSize := getUsedSize c l in
  if totalSize >? usedSize then totalSize - usedSize else 0.

(** ** Writing *)

Definition FILE_PERM_BITS : Z := 511.

Definition stampCreate (e : env) (l : L) (p : path) (isDir : bool) : L :=
  let perms := if isDir then FILE_PERM_DEFAULT_DIR else FILE_PERM_DEFAULT_FILE in
  let perms := Z.land perms (Z.land (Z.lnot (e_umask e)) FILE_PERM_BITS) in
  let '(_, l) := lfs_setattr l p FILE_ATTR_PERMS (TmpFs.le2 perms) in
  let '(_, l) := lfs_setattr l p FILE_ATTR_UID (TmpFs.le2 (e_uid e)) in
  let '(_, l) := lfs_setattr l p FILE_ATTR_GID (TmpFs.le2 (e_gid e)) in
  if e_now e =? 0 then l
  else
    let '(_, l) := lfs_setattr l p FILE_ATTR_CTIME (TmpFs.le4 (e_now e)) in
    let '(_, l) := lfs_setattr l p FILE_ATTR_MTIME (TmpFs.le4 (e_now e)) in
    l.

Definition stampModify (e : env) (l : L) (p : path) : L :=
  if e_now e =? 0 then l else snd (lfs_setattr l p FILE_ATTR_MTIME (TmpFs.le4 (e_now e))).

(** The [n] bytes a pointer leads to. *)
Definition bytes_at (content : option (list Z)) (n : Z) : option (list Z) :=
  match content with Some c => msub c 0 n | None => if n =? 0 then Some [] else None end.

Definition isFileExist (l : L) (p : path) : bool * L :=
  let '(rc, f, l) := lfs_file_open l p LFS_O_RDONLY in
  if rc <? 0 then (false, l) else (true, snd (lfs_file_close l f)).

Definition createFile (e : env) (l : L) (p : path) (content : option (list Z)) (size : Z) : option (Z * L) :=
  let '(rc, f, l) := lfs_file_open l p (Z.lor (Z.lor (Z.lor LFS_O_WRONLY LFS_O_CREAT) LFS_O_TRUNC) LFS_O_EXCL) in
  if rc <? 0 then Some (rc, l)
  else
    n <- (if size =? -1 then match content with Some c => strlen c | None => None end else Some size);;
    data <- bytes_at content (u32 n);;
    let '(w, f, l) := lfs_file_write l f data in
    let l := snd (lfs_file_close l f) in
    Some (w, if w >=? 0 then stampCreate e l p false else l).

(** The zeros between the end of the file and the offset; the result is an error or 0. *)
Fixpoint gap_loop (fuel : nat) (l : L) (f : F) (gap : Z) : option (Z * F * L) :=
  match fuel with
  | O => None
  | S fuel =>
      if gap >? 0 then
        let chunk := if gap >? 64 then 64 else gap in
        let '(written, f, l) := lfs_file_write l f (replicate (Z.to_nat chunk) 0) in
        if written <=? 0 then Some (if written =? 0 then -3 else written, f, l)
        else gap_loop fuel l f (u64 (gap - written))
      else Some (0, f, l)
  end.

Definition pad_to (l : L) (f : F) (offset filesize : Z) : option (Z * F * L) :=
  if offset >? u64 filesize then
    let gap := u64 (offset - filesize) in
    gap_loop (S (Z.to_nat gap)) l (snd (lfs_file_seek l f 0 LFS_SEEK_END)) gap
  else Some (0, f, l).

Definition editFile (e : env) (l : L) (p : path) (offset : Z) (content : option (list Z)) (size : Z) : option (Z * L) :=
  if size =? 0 then Some (0, l)
  else
    let '(rc, f, l) := lfs_file_open l p LFS_O_WRONLY in
    if rc <? 0 then Some (rc, l)
    else
      let filesize := lfs_file_size l f in
      '(err, f, l) <- pad_to l f offset filesize;;
      if negb (err =? 0) then Some (err, snd (lfs_file_close l f))
      else
        let '(pos, f) := lfs_file_seek l f (i32 offset) LFS_SEEK_SET in
        if pos <? 0 then Some (-1, snd (lfs_file_close l f))
        else
          data <- bytes_at content size;;
          let '(w, f, l) := lfs_file_write l f data in
          let l := snd (lfs_file_close l f) in
          if (w >? 0) && negb (u32 w =? size) then Some (-2, l)
          else Some (w, if w >=? 0 then stampModify e l p else l).

Definition writeFile (e : env) (l : L) (p : path) (content : option (list Z)) (size : Z) (append : bool) : option (Z * L) :=
  if size =? 0 then Some (0, l)
  else
    let '(preExisted, l) := isFileExist l p in
    let '(rc, f, l) := lfs_file_open l p (Z.lor (Z.lor LFS_O_WRONLY LFS_O_CREAT) (if append then LFS_O_APPEND else LFS_O_TRUNC)) in
    if rc <? 0 then Some (rc, l)
    else
      data <- bytes_at content size;;
      let '(w, f, l) := lfs_file_write l f data in
      let l := snd (lfs_file_close l f) in
      Some (w, if w >=? 0 then (if preExisted : bool then stampModify e l p else stampCreate e l p false) else l).

(** ** Reading *)

(** The bytes of one chunk go through the window of the last [matchstrlen] bytes, until it
    holds the text: the index where that is, and the position [__strstr] gives. *)
Fixpoint window_loop (matchstr : list Z) (buffer window : list Z) (j : Z) : option (option (Z * Z) * list Z) :=
  match buffer with
  | [] => Some (None, window)
  | c :: buffer =>
      let n := u16 (zlen matchstr) in
      let window := drop 1 (take (Z.to_nat n) window) ++ [c; 0] in
      matchPos <- StrOps.strstr (Some window) (Some (matchstr ++ [0])) n;;
      if negb (matchPos =? -1) then Some (Some (j, matchPos), window)
      else window_loop matchstr buffer window (j + 1)
  end.

(** [matchstrlen] has 16 bits: no text when it is 0. *)
Definition match_text (readUntilMatchStr : option (list Z)) : option (list Z) :=
  match readUntilMatchStr with Some t => if u16 (zlen t) =? 0 then None else Some t | None => None end.

(** The loop over the chunks of [size] bytes; [until] is the text, when it is not empty.
    The index into a chunk has 16 bits, so a longer chunk is never left.
    Returns the bytes read or an error, whether the text was found, and the state of the
    callback. *)
Fixpoint chunk_loop {X} (fuel : nat) (l : L) (f : F) (cb : X -> list Z -> bool * X) (until : option (list Z))
    (window : list Z) (filesize size i bytes : Z) (x : X) : option (Z * bool * F * X) :=
  match fuel with
  | O => None
  | S fuel =>
      if i <? filesize then
        let '(rc, buffer, f) := lfs_file_read l f (Z.min (u32 size) (u32 (filesize - i))) in
        if rc <? 0 then Some (rc, false, f, x)
        else
          '(found, window) <- (match until with
                               | Some t => if zlen buffer >? 65535 then None else window_loop t buffer window 0
                               | None => Some (None, window)
                               end);;
          match found with
          | Some (j, matchPos) =>
              let chunk := (if matchPos >? 0 then matchPos - 1 else matchPos) + j in
              let x := if chunk >? 0 then snd (cb x (take (Z.to_nat chunk) buffer)) else x in
              Some (bytes + chunk, true, f, x)
          | None =>
              let '(more, x) := cb x buffer in
              if more : bool then chunk_loop fuel l f cb until window filesize size (u32 (i + size)) (bytes + rc) x
              else Some (bytes + rc, false, f, x)
          end
      else Some (bytes, false, f, x)
  end.

(** [char buffer[size]] needs a positive size. *)
Definition readFile {X} (l : L) (p : path) (size : Z) (cb : X -> list Z -> bool * X) (offset : Z)
    (readUntilMatchStr : option (list Z)) (x : X) : option (Z * bool * L * X) :=
  let '(rc, f, l) := lfs_file_open l p LFS_O_RDONLY in
  if rc <? 0 then Some (rc, false, l, x)
  else if size <=? 0 then None
  else
    let until := match_text readUntilMatchStr in
    let window := match until with Some t => replicate (Z.to_nat (u16 (zlen t) + 1)) 0 | None => [] end in
    let filesize := u32 (lfs_file_size l f) in
    let '(filesize, f) := if offset <? filesize then (u32 (filesize - offset), snd (lfs_file_seek l f (i32 offset) LFS_SEEK_SET))
                          else (0, f) in
    '(bytes, found, f, x) <- chunk_loop (S (Z.to_nat filesize)) l f cb until window filesize size 0 0 x;;
    Some (bytes, found, snd (lfs_file_close l f), x).

Definition getFileSize (l : L) (p : path) : Z * L :=
  let '(rc, f, l) := lfs_file_open l p LFS_O_RDONLY in
  if rc <? 0 then (rc, l) else let size := lfs_file_size l f in (size, snd (lfs_file_close l f)).

(** ** Searching *)

(** The captured variables of the search: where to look next, the matches so far and the
    indices kept. *)
Record find_state := mkFind { fi_offset : Z; fi_count : Z; fi_indices : list Z; fi_next : Z; fi_chunk : Z; fi_lfs : L }.

(** One round of the [do] loop; [keep] is whether the caller wants the indices.  [inl] is
    the result of the search, [inr] the state of the next round. *)
Definition find_round (p findStr : path) (keep : bool) (maxindices nth offset endoffset filesize : Z) (s : find_state)
  : option (Z * find_state + find_state) :=
  '(bytes, found, l, _) <- readFile (fi_lfs s) p (fi_chunk s) (fun (x : unit) _ => (true, x)) (fi_offset s) (Some findStr) tt;;
  if bytes <? 0 then Some (inl (bytes, mkFind (fi_offset s) (fi_count s) (fi_indices s) (fi_next s) (fi_chunk s) l))
  else
    let offsetindex := u64 (fi_offset s + bytes + 1) in
    let count := if found : bool then fi_count s + 1 else fi_count s in
    let push := found && (count =? fi_next s) in
    let indices :=
      if push && keep then
        let kept := if (offset <? 0) && (maxindices >? 0) && (zlen (fi_indices s) >=? maxindices)
                    then drop 1 (fi_indices s) else fi_indices s in
        kept ++ [u32 (offsetindex - zlen findStr)]
      else fi_indices s in
    let next := if push then fi_next s + nth else fi_next s in
    let stop := (endoffset >? 0) && (offsetindex >? endoffset) in
    let chunk := if (endoffset >? 0) && (offsetindex + fi_chunk s >? endoffset) then endoffset - offsetindex + 1 else fi_chunk s in
    let s := mkFind offsetindex count indices next chunk l in
    if stop then Some (inl (count, s))
    else if (offsetindex <? filesize) &&
            ((maxindices =? -1) || (offset <? 0) || ((if keep then zlen indices else count) <? u32 maxindices))
         then Some (inr s) else Some (inl (count, s)).

Fixpoint find_loop (fuel : nat) (p findStr : path) (keep : bool) (maxindices nth offset endoffset filesize : Z) (s : find_state)
  : option (Z * find_state) :=
  match fuel with
  | O => None
  | S fuel =>
      r <- find_round p findStr keep maxindices nth offset endoffset filesize s;;
      match r with
      | inl r => Some r
      | inr s => find_loop fuel p findStr keep maxindices nth offset endoffset filesize s
      end
  end.

(** The search with the place of the first index to keep given. *)
Definition find_from (l : L) (p findStr : path) (keep : bool) (maxindices nth offset nextPushAt filesize : Z)
  : option (Z * list Z * L) :=
  let endoffset := if offset <? 0 then - offset else -1 in
  let offsetindex := if offset <? 0 then 0 else offset in
  let chunk := if (endoffset <? 0) || (endoffset >? 250) then 250 else endoffset in
  '(rc, s) <- find_loop (S (Z.to_nat filesize)) p findStr keep maxindices nth offset endoffset filesize
                (mkFind offsetindex 0 [] nextPushAt chunk l);;
  Some (rc, fi_indices s, fi_lfs s).

Definition find_all (l : L) (p findStr : path) (offset : Z) : option (Z * L) :=
  let '(filesize, l) := getFileSize l p in
  let filesize := i32 filesize in
  if filesize <? 0 then Some (filesize, l)
  else '(n, _, l) <- find_from l p findStr false (-1) 1 offset 1 filesize;; Some (n, l).

Definition findInFile (l : L) (p : path) (findStr : option path) (keep : bool) (maxindices nth offset : Z)
  : option (Z * list Z * L) :=
  match findStr with
  | None => Some (-99, [], l)
  | Some findStr =>
      let '(filesize, l) := getFileSize l p in
      let filesize := i32 filesize in
      if filesize <? 0 then Some (filesize, [], l)
      else
        let maxindices := if (maxindices >? 0) && (nth >? 1) then Z.quot maxindices nth else maxindices in
        '(next, l) <- (if (offset <? 0) && (nth >? 1)
                       then '(n, l) <- find_all l p findStr offset;; Some (Z.rem n nth + 1, l) else Some (nth, l));;
        find_from l p findStr keep maxindices nth offset next filesize
  end.

(** ** Lines *)

Definition count_newlines (data : list Z) : Z := zlen (filter (fun c => c = 10) data).

Definition last_char (l : L) (p : path) (fs : Z) : option (Z * L) :=
  '(_, _, l, c) <- readFile l p 1 (fun c data => (true, match data with x :: _ => x | [] => c end)) (u64 (fs - 1)) None 10;;
  Some (c, l).

(** The callback that looks for the line: offset and newlines so far. *)
Fixpoint newline_loop (data : list Z) (i linenumber newlines : Z) : option Z * Z :=
  match data with
  | [] => (None, newlines)
  | c :: data =>
      if c =? 10 then
        if newlines + 1 >=? linenumber then (Some (i + 1), newlines + 1) else newline_loop data (i + 1) linenumber (newlines + 1)
      else newline_loop data (i + 1) linenumber newlines
  end.

Definition line_cb (linenumber : Z) (x : Z * Z) (data : list Z) : bool * (Z * Z) :=
  let '(offset, newlines) := x in
  match newline_loop data 0 linenumber newlines with
  | (Some k, newlines) => (false, (offset + k, newlines))
  | (None, newlines) => (true, (offset + zlen data, newlines))
  end.

Definition getOffsetFromLineNumber (l : L) (p : path) (linenumber : Z) : option (Z * L) :=
  '(err, linenumber, l) <-
    (if linenumber <? 0 then
       '(rc, _, l, total) <- readFile l p 250 (fun total data => (true, u32 (total + count_newlines data))) 0 None 0;;
       if rc <? 0 then Some (rc, 0, l)
       else
         let '(fs, l) := getFileSize l p in
         '(total, l) <- (if fs >? 0 then
                           '(c, l) <- last_char l p fs;; Some (if negb (c =? 10) then u32 (total + 1) else total, l)
                         else Some (total, l));;
         let n := i32 (total + linenumber) in
         Some (if n <? 0 then -1 else 0, n, l)
     else Some (0, linenumber, l));;
  if err <? 0 then Some (err, l)
  else if linenumber >? 0 then
    '(rc, _, l, x) <- readFile l p 250 (line_cb linenumber) 0 None (0, 0);;
    Some (if rc <? 0 then rc else fst x, l)
  else Some (0, l).

(** The callback that counts the newlines before the offset: line and bytes so far. *)
Fixpoint before_loop (data : list Z) (i offset count line : Z) : bool * Z :=
  match data with
  | [] => (true, line)
  | c :: data =>
      if offset <=? count + i then (false, line)
      else before_loop data (i + 1) offset count (if c =? 10 then line + 1 else line)
  end.

Definition before_cb (offset : Z) (x : Z * Z) (data : list Z) : bool * (Z * Z) :=
  let '(line, count) := x in
  match before_loop data 0 offset count line with
  | (true, line) => (true, (line, count + zlen data))
  | (false, line) => (false, (line, count))
  end.

Definition getLineNumberFromOffset (l : L) (p : path) (offset : Z) : option (Z * L) :=
  let '(filesize, l) := getFileSize l p in
  if filesize <? 0 then Some (filesize, l)
  else
    let offset := if offset <? 0 then filesize + offset else offset in
    if offset >? 0 then
      '(rc, _, l, x) <- readFile l p 250 (before_cb offset) 0 None (0, 0);;
      Some (if rc <? 0 then rc else fst x, l)
    else Some (0, l).

Definition getLineNumbersInFile (l : L) (p : path) (maxlinenumbers linenumberoffset : Z) : option (Z * list Z * L) :=
  '(offset, l) <- getOffsetFromLineNumber l p linenumberoffset;;
  let offset := if offset <? 0 then 0 else offset in
  '(status, indices, l) <- findInFile l p (Some [10]) true maxlinenumbers 1 offset;;
  if status <? 0 then Some (status, indices, l)
  else if zlen indices >? 0 then
    let '(filesize, l) := getFileSize l p in
    let indices := u32 offset :: map (fun x => u32 (x + 1)) indices in
    let indices := if u32 (List.last indices 0 + 1) >? u32 filesize then take (length indices - 1) indices else indices in
    Some (zlen indices, indices, l)
  else Some (zlen indices, indices, l).

(** The lines of the window that hold one of the indices of the pattern. *)
Fixpoint lines_with (lines patternindices : list Z) (filesize : Z) : list Z :=
  match lines with
  | [] => []
  | lineStart :: lines =>
      let lineEnd := match lines with next :: _ => next | [] => u32 filesize end in
      if existsb (fun x => (x >=? lineStart) && (x <? lineEnd)) patternindices
      then lineStart :: lines_with lines patternindices filesize else lines_with lines patternindices filesize
  end.

(** Where the line that is asked for begins, or an error. *)
Definition pattern_line (l : L) (p : path) (linenumber : Z) (pattern : path) (filesize : Z) : option (Z * L) :=
  let CAP := if linenumber >? 0 then linenumber else if linenumber <? 0 then - linenumber else 1 in
  '(rc, patternindices, l) <- findInFile l p (Some pattern) true CAP CAP (if linenumber <? 0 then - filesize else 0);;
  if rc <? 0 then Some (rc, l)
  else
    match patternindices with
    | [] => Some (-99, l)
    | first :: _ =>
        '(anchorLine, l) <- getLineNumberFromOffset l p first;;
        if anchorLine <? 0 then Some (-99, l)
        else
          let windowStartLine := Z.max (i32 anchorLine - 50) 0 in
          '(rc, lines, l) <- getLineNumbersInFile l p 101 windowStartLine;;
          if rc <? 0 then Some (rc, l)
          else
            match lines with
            | [] => Some (-99, l)
            | start :: _ =>
                '(rc, winpatternindices, l) <- findInFile l p (Some pattern) true (-1) 1 start;;
                if rc <? 0 then Some (rc, l)
                else
                  let filtered := lines_with lines winpatternindices filesize in
                  let idx := if linenumber <? 0 then zlen filtered + linenumber else linenumber in
                  Some (match filtered with
                        | [] => -99
                        | _ => if (idx <? 0) || (idx >=? zlen filtered) then -99
                               else match filtered !! Z.to_nat idx with
                                    | Some o => if o >=? filesize then -99 else o
                                    | None => -99
                                    end
                        end, l)
            end
    end.

Definition readLineInFile (l : L) (p : path) (linenumber : Z) (pattern : option path) : option (Z * list Z * L) :=
  let '(filesize, l) := getFileSize l p in
  if filesize <? 0 then Some (i32 filesize, [], l)
  else
    '(lineoffset, l) <-
      (match pattern with
       | None => '(o, l) <- getOffsetFromLineNumber l p linenumber;; Some (if (0 <=? o) && (o >=? filesize) then -99 else o, l)
       | Some pattern => pattern_line l p linenumber pattern filesize
       end);;
    if lineoffset <? 0 then Some (i32 lineoffset, [], l)
    else
      '(bytes, _, l, linedata) <- readFile l p 250 (fun acc data => (true, acc ++ data)) lineoffset (Some [10]) [];;
      if bool_decide (list.last linedata = Some 13) then Some (bytes - 1, take (length linedata - 1) linedata, l)
      else Some (bytes, linedata, l).

(** ** Directories *)

Definition isDirExist (l : L) (p : path) : bool * L :=
  let '(rc, d, l) := lfs_dir_open l p in
  if rc <? 0 then (false, l) else (true, snd (lfs_dir_close l d)).

Definition isDirectory (l : L) (p : path) : bool * L := isDirExist l p.

(** Every prefix that ends before a slash or at the end of the path. *)
Fixpoint mkdir_loop (e : env) (p : path) (n : nat) (i last : nat) (l : L) : Z * L :=
  match n with
  | O => (0, l)
  | S n =>
      match p !! i with
      | Some c =>
          if c =? 47 then
            if (last <? i)%nat then
              let '(res, l) := lfs_mkdir l (take i p) in
              if negb (res =? 0) && negb (res =? LFS_ERR_EXIST) then (res, l)
              else mkdir_loop e p n (S i) (S i) (if res =? 0 then stampCreate e l (take i p) true else l)
            else mkdir_loop e p n (S i) (S i) l
          else mkdir_loop e p n (S i) last l
      | None =>
          if (last <? i)%nat then
            let '(res, l) := lfs_mkdir l p in
            if negb (res =? 0) && negb (res =? LFS_ERR_EXIST) then (res, l)
            else (0, if res =? 0 then stampCreate e l p true else l)
          else (0, l)
      end
  end.

Definition createDirectory (e : env) (l : L) (p : option path) : Z * L :=
  match p with
  | None | Some [] => (LFS_ERR_INVAL, l)
  | Some p =>
      if zlen p >=? LFS_NAME_MAX * 2 then (LFS_ERR_NAMETOOLONG, l)
      else mkdir_loop e p (S (length p)) 0 (if bool_decide (head p = Some 47) then 1%nat else 0%nat) l
  end.

(** [snprintf(childPath, 256, "%s/%s", path, name)] *)
Definition child_path (p name : path) : path := take 255 (p ++ 47 :: name).

(** [rec] deletes a subdirectory. *)
Fixpoint rmdir_loop (rec : L -> path -> option (Z * L)) (n : nat) (p : path) (d : D) (l : L) : option (Z * D * L) :=
  match n with
  | O => None
  | S n =>
      let '(rc, info, d) := lfs_dir_read l d in
      if rc <=? 0 then Some (0, d, l)
      else if bool_decide (l_name info = [46]) || bool_decide (l_name info = [46; 46]) then rmdir_loop rec n p d l
      else
        '(res, l) <- (if l_type info =? LFS_TYPE_DIR then rec l (child_path p (l_name info))
                      else Some (lfs_remove l (child_path p (l_name info))));;
        if res <? 0 then Some (res, d, l) else rmdir_loop rec n p d l
  end.

(** [fuel] bounds the depth of the directories and the entries of each. *)
Fixpoint deleteDirectory (fuel : nat) (l : L) (p : path) : option (Z * L) :=
  match fuel with
  | O => None
  | S fuel =>
      let '(rc, d, l) := lfs_dir_open l p in
      if rc <? 0 then Some (rc, l)
      else
        '(res, d, l) <- rmdir_loop (deleteDirectory fuel) (S fuel) p d l;;
        let l := snd (lfs_dir_close l d) in
        if res <? 0 then Some (res, l) else Some (lfs_remove l p)
  end.

(** ** Moving and copying *)

Definition rename (l : L) (oldPath newPath : path) : Z * L := lfs_rename l oldPath newPath.
Definition moveFile (l : L) (oldPath newPath : path) : Z * L := lfs_rename l oldPath newPath.
Definition deleteFile (l : L) (p : path) : Z * L := lfs_remove l p.

(** The loop of [copyFile]: the buffer keeps what a short read left in it. *)
Fixpoint copy_loop (fuel : nat) (l : L) (sf df : F) (buffer : list Z) (read_size filesize i : Z) : option (F * F * L) :=
  match fuel with
  | O => None
  | S fuel =>
      if i <? filesize then
        let chunk := Z.min read_size (u32 (filesize - i)) in
        let '(rc, data, sf) := lfs_file_read l sf chunk in
        let buffer := data ++ drop (length data) buffer in
        out <- msub buffer 0 chunk;;
        let '(_, df, l) := lfs_file_write l df out in
        copy_loop fuel l sf df buffer read_size filesize (u32 (i + read_size))
      else Some (sf, df, l)
  end.

Definition copyFile (e : env) (read_size : Z) (l : L) (sourcePath destPath : path) : option (Z * L) :=
  let '(rc, sf, l) := lfs_file_open l sourcePath LFS_O_RDONLY in
  if rc <? 0 then Some (rc, l)
  else
    let '(rc, df, l) := lfs_file_open l destPath (Z.lor (Z.lor LFS_O_WRONLY LFS_O_CREAT) LFS_O_TRUNC) in
    if rc <? 0 then Some (rc, l)
    else
      let filesize := u32 (lfs_file_size l sf) in
      '(sf, df, l) <- copy_loop (S (Z.to_nat filesize)) l sf df (replicate (Z.to_nat read_size) 0) read_size filesize 0;;
      let l := snd (lfs_file_close l sf) in
      let l := snd (lfs_file_close l df) in
      let l := stampCreate e l destPath false in
      let '(rc, perms) := lfs_getattr l sourcePath FILE_ATTR_PERMS [0; 0] in
      Some (LFS_ERR_OK, if rc =? 2 then snd (lfs_setattr l destPath FILE_ATTR_PERMS perms) else l).

(** ** Attributes *)

Definition setFileAttr (l : L) (p : path) (type : Z) (buffer : list Z) : Z * L := lfs_setattr l p type buffer.
Definition getFileAttr (l : L) (p : path) (type : Z) (buffer : list Z) : Z * list Z := lfs_getattr l p type buffer.
Definition removeFileAttr (l : L) (p : path) (type : Z) : Z * L := lfs_removeattr l p type.

Definition setFileOwner (l : L) (p : path) (uid gid : Z) : Z * L :=
  let '(r1, l) := lfs_setattr l p FILE_ATTR_UID (TmpFs.le2 uid) in
  let '(r2, l) := lfs_setattr l p FILE_ATTR_GID (TmpFs.le2 gid) in
  (if r1 <? 0 then r1 else r2, l).

(** A field before and after its attribute was read into it. *)
Definition le_num (b : list Z) : Z := foldr (fun x acc => x + 256 * acc) 0 b.

Definition read_attr (l : L) (p : path) (type : Z) (field : list Z) : Z := le_num (snd (lfs_getattr l p type field)).

(** One entry of a listing; [childpath] is null when it does not fit. *)
Definition entry_info (l : L) (info : lfs_info) (childpath : option path) : file_info :=
  let isDir := l_type info =? LFS_TYPE_DIR in
  let perms := if isDir then FILE_PERM_DEFAULT_DIR else FILE_PERM_DEFAULT_FILE in
  let type := if isDir then FILE_TYPE_DIR else FILE_TYPE_REG in
  match childpath with
  | Some c =>
      mkInfo type (l_size info) (read_attr l c FILE_ATTR_PERMS (TmpFs.le2 perms)) (read_attr l c FILE_ATTR_UID [0; 0])
        (read_attr l c FILE_ATTR_GID [0; 0]) (read_attr l c FILE_ATTR_CTIME [0; 0; 0; 0]) (read_attr l c FILE_ATTR_MTIME [0; 0; 0; 0])
  | None => mkInfo type (l_size info) perms 0 0 0 0
  end.

Definition pattern_fits (pattern : option path) (name : path) : bool :=
  match pattern with
  | None | Some [] => true
  | Some q => (zlen q <=? zlen name) && bool_decide (take (length q) name = q)
  end.

Fixpoint list_loop (n : nat) (p : path) (pattern : option path) (d : D) (l : L) (items : list (path * file_info))
  : option (D * list (path * file_info)) :=
  match n with
  | O => None
  | S n =>
      let '(rc, info, d) := lfs_dir_read l d in
      if rc <=? 0 then Some (d, items)
      else if negb (pattern_fits pattern (l_name info)) then list_loop n p pattern d l items
      else
        let child := if bool_decide (list.last p = Some 47) || bool_decide (p = []) then p ++ l_name info else p ++ 47 :: l_name info in
        let special := bool_decide (l_name info = [46]) || bool_decide (l_name info = [46; 46]) in
        let childpath := if special || (zlen child >=? LFS_NAME_MAX * 2) then None else Some child in
        list_loop n p pattern d l (items ++ [(l_name info, entry_info l info childpath)])
  end.

Definition getDirFileList (fuel : nat) (l : L) (p : path) (items : list (path * file_info)) (pattern : option path)
  : option (Z * list (path * file_info) * L) :=
  let '(rc, d, l) := lfs_dir_open l p in
  if rc <? 0 then Some (rc, items, l)
  else
    '(d, items) <- list_loop fuel p pattern d l items;;
    Some (LFS_ERR_OK, items, snd (lfs_dir_close l d)).

End wrapper.

(** ** The window *)

(** The first byte after which the window holds the text. *)
Fixpoint hit (t w b : list Z) : option nat :=
  match b with
  | [] => None
  | c :: b => let w := tail w ++ [c] in if bool_decide (w = t) then Some O else S <$> hit t w b
  end.

Definition slide (w b : list Z) : list Z := drop (length b) (w ++ b).

#[local] Arguments slide : simpl never.

Lemma slide_cons w c b : w <> [] -> slide w (c :: b) = slide (tail w ++ [c]) b.
Proof. intros Hw. destruct w as [|x w]; [done|]. unfold slide. cbn. by rewrite <- app_assoc. Qed.

Lemma slide_length w b : length (slide w b) = length w.
Proof. unfold slide. rewrite length_drop, length_app. lia. Qed.

Lemma window_length (w : list Z) c : w <> [] -> length (tail w ++ [c]) = length w.
Proof. intros Hw. destruct w; [done|]. rewrite length_app. cbn. lia. Qed.

Lemma snoc_not_nil (w : list Z) c : w ++ [c] <> [].
Proof. by destruct w. Qed.

(** A window of the length of the text holds it or no part of it: [__strstr] finds it at the
    start or not at all, whatever zeros the window has. *)
Lemma window_strstr t w : no_nul t -> t <> [] -> length w = length t ->
  StrOps.strstr (Some (w ++ [0])) (Some (t ++ [0])) (zlen t) = Some (if bool_decide (w = t) then 0 else -1).
Proof.
  intros Ht Hne Hl. assert (cstring (t ++ [0]) t) as Hct by (split; [done|by exists []]).
  destruct (no_nul_or w) as [Hw|(s & r & Hs & ->)].
  - assert (cstring (w ++ [0]) w) as Hcw by (split; [done|by exists []]).
    rewrite (StrOps.strstr_spec _ w _ t) by (done || by intros ->; destruct t). case_bool_decide as Ew.
    + subst w. destruct t as [|c t]; [done|]. cbn. by rewrite decide_True.
    + destruct (StrOps.first_occ t w) as [k|] eqn:E; [|done]. exfalso. apply Ew.
      apply StrOps.first_occ_spec in E as ([r Hr] & Hk & _).
      apply (f_equal length) in Hr as Hlen. rewrite length_drop, length_app in Hlen.
      assert (k = 0%nat) as -> by lia. assert (r = []) as -> by (destruct r; [done|cbn in Hlen; lia]).
      by rewrite drop_0, app_nil_r in Hr.
  - rewrite bool_decide_eq_false_2; cycle 1.
    { intros <-. unfold no_nul in Ht. rewrite Forall_app, Forall_cons in Ht. tauto. }
    assert (cstring ((s ++ 0 :: r) ++ [0]) s) as Hcs.
    { split; [done|]. exists (r ++ [0]). by rewrite <- app_assoc. }
    destruct (decide (s = [])) as [->|Hs0]; [unfold StrOps.strstr; by rewrite (strlen_cstring _ _ Hcs)|].
    rewrite (StrOps.strstr_spec _ s _ t) by done.
    destruct (StrOps.first_occ t s) as [k|] eqn:E; [|done]. exfalso.
    apply StrOps.first_occ_spec in E as ([r' Hr] & _ & _). apply (f_equal length) in Hr.
    rewrite length_drop, length_app in Hr. rewrite length_app in Hl. cbn in Hl. lia.
Qed.


Lemma window_loop_spec t : no_nul t -> t <> [] -> zlen t < 65536 -> forall b w j, length w = length t ->
  window_loop t b (w ++ [0]) j =
    Some (match hit t w b with
          | Some k => (Some (j + Z.of_nat k, 0), slide w (take (S k) b) ++ [0])
          | None => (None, slide w b ++ [0])
          end).
Proof.
  intros Ht Hne H16. induction b as [|c b IH]; intros w j Hw; cbn [window_loop hit].
  { unfold slide. cbn. by rewrite app_nil_r. }
  assert (w <> []) as Hw0 by (by intros ->; destruct t). rewrite (u16_small (zlen t)) by (pose proof (zlen_nonneg t); lia).
  assert (drop 1 (take (Z.to_nat (zlen t)) (w ++ [0])) ++ [c; 0] = (tail w ++ [c]) ++ [0]) as ->.
  { unfold zlen. rewrite Nat2Z.id, take_app_length' by done. destruct w; [done|]. cbn. by rewrite drop_0, <- app_assoc. }
  pose proof (window_length w c Hw0) as Hl.
  rewrite window_strstr by (done || lia). case_bool_decide; cbn.
  - rewrite Z.add_0_r. f_equal. f_equal. rewrite slide_cons, take_0 by done. unfold slide. cbn. by rewrite !app_nil_r.
  - rewrite IH by lia. destruct (hit t (tail w ++ [c]) b) as [k|]; cbn; rewrite slide_cons by done; [|done].
    by replace (j + 1 + Z.of_nat k) with (j + Z.of_nat (S k)) by lia.
Qed.

Lemma hit_app t a : forall w b, w <> [] ->
  hit t w (a ++ b) = match hit t w a with Some k => Some k | None => Nat.add (length a) <$> hit t (slide w a) b end.
Proof.
  induction a as [|c a IH]; intros w b Hw; cbn [hit app].
  { unfold slide. cbn. rewrite app_nil_r. rewrite drop_0. by destruct (hit t w b). }
  case_bool_decide; [done|]. rewrite IH by apply snoc_not_nil. rewrite slide_cons by done.
  destruct (hit t (tail w ++ [c]) a); [done|]. cbn. by destruct (hit _ _ _).
Qed.

Lemma hit_lt t b : forall w k, hit t w b = Some k -> (k < length b)%nat.
Proof.
  induction b as [|c b IH]; intros w k; cbn [hit]; [done|]. case_bool_decide; [intros [= <-]; cbn; lia|].
  intros (k' & E & ->)%fmap_Some. apply IH in E. cbn. lia.
Qed.

Lemma hit_first_occ t : t <> [] -> forall b w, length w = length t -> hit t w b = StrOps.first_occ t (tail w ++ b).
Proof.
  intros Hne. induction b as [|c b IH]; intros w Hw; cbn [hit].
  - rewrite app_nil_r. symmetry. apply StrOps.first_occ_None. intros j _ Hp. apply prefix_length in Hp.
    rewrite length_drop in Hp. destruct w; cbn in *; [by destruct t|lia].
  - assert (w <> []) as Hw0 by (by intros ->; destruct t). pose proof (window_length w c Hw0) as Hl.
    change (c :: b) with ([c] ++ b). rewrite app_assoc. remember (tail w ++ [c]) as v eqn:Ev.
    destruct v as [|y v]; [by destruct (snoc_not_nil (tail w) c)|]. rewrite IH by lia.
    cbn [StrOps.first_occ app tail]. case_bool_decide as Eq.
    + rewrite decide_True; [done|]. rewrite <- Eq. by exists b.
    + rewrite decide_False; [done|]. intros [r Hr]. apply Eq.
      change (y :: v ++ b) with ((y :: v) ++ b) in Hr. apply app_inj_1 in Hr as [-> _]; [done|lia].
Qed.

(** With zeros in the window first, the text is found where it first ends. *)
Lemma hit_zeros t d : no_nul t -> t <> [] ->
  hit t (replicate (length t) 0) d = (fun s => (s + length t - 1)%nat) <$> StrOps.first_occ t d.
Proof.
  intros Ht Hne. rewrite hit_first_occ by (done || by rewrite length_replicate).
  destruct t as [|c t]; [done|]. apply Forall_cons_1 in Ht as [Hc _]. cbn [length replicate tail].
  assert (forall n, StrOps.first_occ (c :: t) (replicate n 0 ++ d) = (fun s => (s + n)%nat) <$> StrOps.first_occ (c :: t) d) as H.
  { induction n as [|n IH]; cbn [replicate app StrOps.first_occ].
    - destruct (StrOps.first_occ _ d); cbn; [by rewrite Nat.add_0_r|done].
    - rewrite decide_False by (intros [r Hr]; injection Hr as <- _; done). rewrite IH.
      destruct (StrOps.first_occ _ d); cbn; [f_equal; lia|done]. }
  rewrite H. destruct (StrOps.first_occ _ d); cbn; [f_equal; lia|done].
Qed.

(** ** Lines of a text *)

(** The lines; a newline at the end does not begin another one. *)
Fixpoint lines (c : list Z) : list (list Z) :=
  match c with
  | [] => []
  | x :: c => if x =? 10 then [] :: lines c
              else match lines c with [] => [[x]] | l :: ls => (x :: l) :: ls end
  end.

(** The offset after [n] newlines, or the end. *)
Fixpoint line_start (c : list Z) (n : nat) : nat :=
  match n with
  | O => O
  | S m => match c with [] => O | x :: c => S (line_start c (if x =? 10 then m else n)) end
  end.

Definition newlines (c : list Z) : nat := length (filter (fun x => x = 10) c).

(** The text before the first newline. *)
Definition first_line (c : list Z) : list Z := match StrOps.first_occ [10] c with Some s => take s c | None => c end.

Definition strip_cr (line : list Z) : list Z :=
  if bool_decide (list.last line = Some 13) then take (length line - 1) line else line.

Lemma newlines_cons x c : newlines (x :: c) = ((if (x =? 10)%Z then 1 else 0) + newlines c)%nat.
Proof. unfold newlines. rewrite filter_cons. destruct (Z.eqb_spec x 10); case_decide; done. Qed.

Lemma newlines_app a b : newlines (a ++ b) = (newlines a + newlines b)%nat.
Proof. unfold newlines. by rewrite filter_app, length_app. Qed.

Lemma newlines_le c : (newlines c <= length c)%nat.
Proof. unfold newlines. apply length_filter. Qed.

Lemma line_start_app a : forall b n, (0 < n)%nat -> line_start (a ++ b) n =
  if (n <=? newlines a)%nat then line_start a n else (length a + line_start b (n - newlines a))%nat.
Proof.
  induction a as [|x a IH]; intros b n Hn.
  { cbn [app newlines]. destruct (Nat.leb_spec n (newlines [])) as [H|_]; [cbn in H; lia|]. cbn. by rewrite Nat.sub_0_r. }
  rewrite newlines_cons. destruct n as [|n]; [lia|]. cbn [line_start app length]. destruct (Z.eqb_spec x 10); cycle 1.
  { rewrite IH by lia. cbn [Nat.add]. by destruct (S n <=? newlines a)%nat. }
  destruct n as [|n].
  { destruct (Nat.leb_spec 1 (1 + newlines a)); [|lia]. by destruct (a ++ b), a. }
  rewrite IH by lia. destruct (Nat.leb_spec (S n) (newlines a)), (Nat.leb_spec (S (S n)) (1 + newlines a)); try lia. done.
Qed.

Lemma line_start_le c : forall n, (line_start c n <= length c)%nat.
Proof. induction c as [|x c IH]; intros [|n]; cbn [line_start length]; try lia. specialize (IH (if x =? 10 then n else S n)). lia. Qed.

Lemma line_start_beyond c : forall n, (newlines c < n)%nat -> line_start c n = length c.
Proof.
  induction c as [|x c IH]; intros [|n] H; rewrite ?newlines_cons in H; cbn [line_start length]; try done; [lia|]. f_equal.
  destruct (Z.eqb_spec x 10); apply IH; lia.
Qed.

(** The line number of the start of a line. *)
Lemma newlines_line_start c : forall n, (n <= newlines c)%nat -> newlines (take (line_start c n) c) = n.
Proof.
  induction c as [|x c IH]; intros [|n] H; try done; [cbn in H; lia|]. rewrite newlines_cons in H. cbn [line_start take]. rewrite newlines_cons.
  destruct (Z.eqb_spec x 10); rewrite IH by lia; lia.
Qed.

Lemma first_line_cons x c : first_line (x :: c) = if x =? 10 then [] else x :: first_line c.
Proof.
  unfold first_line. cbn [StrOps.first_occ]. destruct (Z.eqb_spec x 10) as [->|Hx].
  - rewrite decide_True; [done|]. by exists c.
  - rewrite decide_False; [by destruct (StrOps.first_occ [10] c)|]. intros [r Hr]. by injection Hr.
Qed.

(** A line is what stands between its start and the next newline. *)
Lemma lines_lookup c : forall n, lines c !! n =
  if decide (line_start c n < length c)%nat then Some (first_line (drop (line_start c n) c)) else None.
Proof.
  induction c as [|x c IH]; intros n; cbn [lines]; [by destruct n|].
  destruct (Z.eqb_spec x 10) as [->|Hx].
  - destruct n as [|n]; cbn [line_start]; [done|]. change (10 =? 10) with true. cbn [lookup list_lookup length drop].
    rewrite IH. repeat case_decide; (done || lia).
  - specialize (IH n) as En. destruct n as [|n]; cbn [line_start].
    + cbn [length drop]. rewrite decide_True by lia. rewrite first_line_cons. destruct (Z.eqb_spec x 10); [done|].
      cbn [line_start drop] in En. destruct (lines c) as [|y ls]; cbn in En |- *.
      * case_decide as Hd; [done|]. destruct c as [|z c]; [done|]. cbn in Hd. lia.
      * case_decide as Hd; [|done]. injection En as ->. by destruct c.
    + destruct (Z.eqb_spec x 10); [done|]. cbn [length drop].
      assert ((match lines c with [] => [[x]] | l :: ls => (x :: l) :: ls end) !! S n = lines c !! S n) as -> by (by destruct (lines c)).
      rewrite En. by repeat case_decide; try lia.
Qed.

(** As many as newlines, and one more when the last line has none. *)
Definition open_line (c : list Z) : nat := if bool_decide (list.last c = Some 10) || bool_decide (c = []) then O else 1.

Lemma length_lines c : length (lines c) = (newlines c + open_line c)%nat.
Proof.
  unfold open_line. induction c as [|x c IH]; [done|]. cbn [lines]. rewrite newlines_cons.
  assert (length (lines c) = 0%nat <-> c = []) as H0.
  { destruct c as [|y c]; [done|]. split; [|done]. cbn [lines]. destruct (y =? 10); [done|]. by destruct (lines c). }
  destruct (decide (c = [])) as [->|Hc]; [destruct (Z.eqb_spec x 10) as [->|Hx]; [done|]; rewrite !bool_decide_eq_false_2 by (cbn; congruence); done|].
  rewrite (bool_decide_eq_false_2 (c = [])) in IH by done. rewrite (bool_decide_eq_false_2 (x :: c = [])) by done.
  rewrite last_cons. destruct (list.last c) as [y|] eqn:El; [|by apply last_None in El].
  destruct (Z.eqb_spec x 10); cbn [length]; [lia|]. destruct (lines c) as [|l ls]; cbn [length] in *; [by destruct H0 as [H0 _]; destruct Hc; apply H0|].
  lia.
Qed.

(** ** What the library promises

    From the comments of [lfs.h], for a mounted file system on a working device: [lfs_files]
    is the content of the files by their names in normal form; [reading l f c i] an open
    file of content [c] at position [i]; [writing l f p c i] a file opened for writing that
    will have content [c] when it is closed, at position [i]. *)

Definition same_but (k : path) (m m' : gmap path (list Z)) : Prop := forall k', k' <> k -> m' !! k' = m !! k'.

(** The content with [data] at position [i]. *)
Definition overwrite (c : list Z) (i : Z) (data : list Z) : list Z :=
  take (Z.to_nat i) c ++ data ++ drop (Z.to_nat i + length data) c.

Class LfsSpec (L F D : Type) `{Lfs L F D} := {
  lfs_ok : L -> Prop;
  lfs_norm : path -> path;
  lfs_files : L -> gmap path (list Z);
  reading : L -> F -> list Z -> Z -> Prop;
  writing : L -> F -> path -> list Z -> Z -> Prop;
  listing : L -> D -> Prop;
  spec_bound : forall l k c, lfs_ok l -> lfs_files l !! k = Some c -> zlen c < 2147483648;
  spec_open : forall l p, lfs_ok l -> exists rc f l', lfs_file_open l p LFS_O_RDONLY = (rc, f, l') /\
    lfs_ok l' /\ lfs_files l' = lfs_files l /\
    match lfs_files l !! lfs_norm p with Some c => rc = 0 /\ reading l' f c 0 | None => rc < 0 end;
  spec_size : forall l f c i, reading l f c i -> lfs_file_size l f = zlen c;
  spec_seek : forall l f c i o, reading l f c i -> 0 <= o <= zlen c ->
    exists f', lfs_file_seek l f o LFS_SEEK_SET = (o, f') /\ reading l f' c o;
  spec_read : forall l f c i n, reading l f c i -> 0 <= n ->
    let data := take (Z.to_nat n) (drop (Z.to_nat i) c) in
    exists f', lfs_file_read l f n = (zlen data, data, f') /\ reading l f' c (i + zlen data);
  spec_close : forall l f c i, reading l f c i -> exists rc l', lfs_file_close l f = (rc, l') /\
    lfs_ok l' /\ lfs_files l' = lfs_files l;
  spec_reading : forall l f c i, reading l f c i -> lfs_ok l /\ 0 <= i <= zlen c /\ zlen c < 2147483648;
  (* opening for writing: a new file, to write over it or at its end, to change it *)
  spec_open_new : forall l p, lfs_ok l -> exists rc f l', lfs_file_open l p (Z.lor (Z.lor (Z.lor LFS_O_WRONLY LFS_O_CREAT) LFS_O_TRUNC) LFS_O_EXCL) = (rc, f, l') /\
    lfs_ok l' /\ (rc < 0 /\ lfs_files l' = lfs_files l \/
      rc = 0 /\ lfs_files l !! lfs_norm p = None /\ same_but (lfs_norm p) (lfs_files l) (lfs_files l') /\ writing l' f p [] 0);
  spec_open_write : forall l p append, lfs_ok l ->
    let c := if append : bool then default [] (lfs_files l !! lfs_norm p) else [] in
    exists rc f l', lfs_file_open l p (Z.lor (Z.lor LFS_O_WRONLY LFS_O_CREAT) (if append then LFS_O_APPEND else LFS_O_TRUNC)) = (rc, f, l') /\
    lfs_ok l' /\ (rc < 0 /\ lfs_files l' = lfs_files l \/
      rc = 0 /\ same_but (lfs_norm p) (lfs_files l) (lfs_files l') /\ writing l' f p c (zlen c));
  spec_open_edit : forall l p, lfs_ok l -> exists rc f l', lfs_file_open l p LFS_O_WRONLY = (rc, f, l') /\
    lfs_ok l' /\ lfs_files l' = lfs_files l /\
    match lfs_files l !! lfs_norm p with Some c => rc = 0 /\ writing l' f p c 0 | None => rc < 0 end;
  spec_writing : forall l f p c i, writing l f p c i -> lfs_ok l /\ 0 <= i <= zlen c /\ zlen c < 2147483648 /\ lfs_file_size l f = zlen c;
  spec_writing_seek : forall l f p c i o, writing l f p c i -> 0 <= o <= zlen c ->
    exists f', lfs_file_seek l f o LFS_SEEK_SET = (o, f') /\ writing l f' p c o;
  spec_writing_end : forall l f p c i, writing l f p c i ->
    exists f', lfs_file_seek l f 0 LFS_SEEK_END = (zlen c, f') /\ writing l f' p c (zlen c);
  spec_write : forall l f p c i data, writing l f p c i -> exists rc f' l', lfs_file_write l f data = (rc, f', l') /\
    same_but (lfs_norm p) (lfs_files l) (lfs_files l') /\
    (rc = zlen data /\ writing l' f' p (overwrite c i data) (i + zlen data) \/ rc < 0 /\ data <> [] /\ exists c' i', writing l' f' p c' i');
  spec_close_writing : forall l f p c i, writing l f p c i -> exists rc l', lfs_file_close l f = (rc, l') /\ lfs_ok l' /\
    same_but (lfs_norm p) (lfs_files l) (lfs_files l') /\ (rc = 0 -> lfs_files l' !! lfs_norm p = Some c);
  spec_setattr : forall l p t v, lfs_ok l -> exists rc l', lfs_setattr l p t v = (rc, l') /\ lfs_ok l' /\ lfs_files l' = lfs_files l;
  spec_remove : forall l p, lfs_ok l -> exists rc l', lfs_remove l p = (rc, l') /\ lfs_ok l' /\
    match lfs_files l !! lfs_norm p with
    | Some _ => rc = 0 /\ lfs_files l' = delete (lfs_norm p) (lfs_files l) \/ rc <> 0 /\ lfs_files l' = lfs_files l
    | None => lfs_files l' = lfs_files l
    end;
  spec_dir_open : forall l p, lfs_ok l -> exists rc d l', lfs_dir_open l p = (rc, d, l') /\ lfs_ok l' /\ lfs_files l' = lfs_files l /\
    (is_Some (lfs_files l !! lfs_norm p) -> rc < 0) /\ (0 <= rc -> listing l' d);
  spec_dir_close : forall l d, listing l d -> exists rc l', lfs_dir_close l d = (rc, l') /\ lfs_ok l' /\ lfs_files l' = lfs_files l }.

(** The device has room: what was written is there when the file is closed. *)
Class LfsRoom (L F D : Type) `{LfsSpec L F D} :=
  spec_room : forall l f p c i, writing l f p c i -> fst (lfs_file_close l f) = 0.

Section reading.
Context {L F D : Type} `{LfsSpec L F D}.

Lemma drop_drop_z (c : list Z) i n : 0 <= i -> drop (Z.to_nat (i + Z.of_nat n)) c = drop n (drop (Z.to_nat i) c).
Proof. intros Hi. rewrite drop_drop. f_equal. lia. Qed.

(** One read of the loop: the next piece, and how much is left after it. *)
Lemma read_piece l f c pos size filesize i : reading l f c pos -> 0 < size < 2147483648 ->
  0 <= i -> filesize < 2147483648 -> zlen (drop (Z.to_nat pos) c) = Z.max 0 (filesize - i) -> i < filesize ->
  let rest := drop (Z.to_nat pos) c in
  let data := take (Z.to_nat size) rest in
  exists f', lfs_file_read l f (Z.min (u32 size) (u32 (filesize - i))) = (zlen data, data, f') /\
    reading l f' c (pos + zlen data) /\ drop (Z.to_nat (pos + zlen data)) c = drop (Z.to_nat size) rest /\
    u32 (i + size) = i + size /\ zlen (drop (Z.to_nat size) rest) = Z.max 0 (filesize - (i + size)) /\ rest <> [].
Proof.
  intros Hr Hs Hi Hfs Hrest Hlt rest data. destruct (spec_reading _ _ _ _ Hr) as (_ & Hpos & _).
  rewrite !u32_small by lia.
  assert (take (Z.to_nat (Z.min size (filesize - i))) rest = data) as Ed.
  { unfold data. fold rest in Hrest. unfold zlen in Hrest. destruct (Z.min_spec size (filesize - i)) as [[_ ->]|[? ->]]; [done|].
    rewrite !take_ge by lia. done. }
  destruct (spec_read l f c pos (Z.min size (filesize - i)) Hr ltac:(lia)) as (f' & E & Hr').
  fold rest in E, Hr', Hrest. rewrite Ed in E, Hr'. exists f'. split; [done|]. split; [done|].
  assert (length data = Nat.min (Z.to_nat size) (length rest)) as Hl by (unfold data; by rewrite length_take).
  split.
  { unfold zlen at 1. rewrite drop_drop_z by lia. fold rest. rewrite Hl.
    destruct (Nat.min_spec (Z.to_nat size) (length rest)) as [[? ->]|[? ->]]; [done|]. by rewrite !drop_ge by lia. }
  split; [done|]. unfold zlen in *. rewrite length_drop. split; [lia|]. intros E0. rewrite E0 in Hrest. cbn in Hrest. lia.
Qed.

Lemma chunks_step fuel k (d : list Z) : d <> [] -> chunks (S fuel) k d = take k d :: chunks fuel k (drop k d).
Proof. by destruct d. Qed.

(** Without a text, the callback gets the pieces of the file until it declines one. *)
Lemma chunk_loop_plain {X} (cb : X -> list Z -> bool * X) l c w size filesize : 0 < size < 2147483648 -> filesize < 2147483648 ->
  forall fuel f pos i bytes x, reading l f c pos -> 0 <= i -> 0 <= bytes ->
  zlen (drop (Z.to_nat pos) c) = Z.max 0 (filesize - i) -> (length (drop (Z.to_nat pos) c) < fuel)%nat ->
  exists rc f' pos', 0 <= rc /\ reading l f' c pos' /\
    chunk_loop fuel l f cb None w filesize size i bytes x =
      Some (rc, false, f', snd (deliver cb x (chunks (length (drop (Z.to_nat pos) c)) (Z.to_nat size) (drop (Z.to_nat pos) c)))).
Proof.
  intros Hs Hfs. induction fuel as [|fuel IH]; intros f pos i bytes x Hr Hi Hb Hrest Hf; [lia|]. cbn [chunk_loop].
  destruct (Z.ltb_spec i filesize) as [Hlt|Hge].
  - destruct (read_piece l f c pos size filesize i Hr Hs Hi Hfs Hrest Hlt) as (f' & -> & Hr' & Hd & Hu & Hz & Hne).
    set (rest := drop (Z.to_nat pos) c) in *. set (data := take (Z.to_nat size) rest) in *.
    pose proof (zlen_nonneg data). destruct (Z.ltb_spec (zlen data) 0); [lia|]. cbn [mbind option_bind].
    assert (0 < length rest)%nat as Hl by (destruct rest; [done|cbn; lia]).
    destruct (length rest) as [|n] eqn:En; [lia|]. rewrite chunks_step by done. fold data. cbn [deliver].
    destruct (cb x data) as [[|] y]; cycle 1.
    { exists (bytes + zlen data), f', (pos + zlen data). split; [lia|done]. }
    destruct (IH f' (pos + zlen data) (i + size) (bytes + zlen data) y Hr') as (rc & f'' & pos'' & Hrc & Hr'' & E).
    1-3: rewrite ?Hd; lia || done.
    { rewrite Hd, length_drop. lia. }
    rewrite Hu. exists rc, f'', pos''. split; [done|]. split; [done|]. rewrite E, Hd.
    rewrite (chunks_fuel _ n) by (rewrite ?length_drop; lia). by destruct (deliver cb y (chunks n _ _)).
  - exists bytes, f, pos. split; [done|]. split; [done|]. destruct (drop (Z.to_nat pos) c) as [|z r]; [done|].
    rewrite zlen_cons in Hrest. pose proof (zlen_nonneg r). lia.
Qed.

Lemma chunks_take n (k j : nat) (d : list Z) : d <> [] -> (0 < k)%nat ->
  chunks (S n) k (take (length (take k d) + j) d) = take k d :: chunks n k (take j (drop k d)).
Proof.
  intros Hd Hk. assert (take (length (take k d) + j) d = take k d ++ take j (drop k d)) as ->.
  { rewrite <- (take_drop k d) at 2. by rewrite take_app_add. }
  rewrite chunks_step by (destruct d, k; done || lia).
  destruct (decide (k <= length d)%nat) as [Hl|Hl].
  - rewrite take_app_length', drop_app_length' by (rewrite length_take; lia). done.
  - rewrite (drop_ge d) by lia. rewrite take_nil, app_nil_r, (take_ge d), (take_ge d), (drop_ge d) by lia. done.
Qed.

Lemma chunks_one n k (d : list Z) : d <> [] -> (length d <= k)%nat -> chunks (S n) k d = [d].
Proof. intros Hd Hk. rewrite chunks_step, take_ge, drop_ge by done. by destruct n. Qed.

(** The callback never declines a piece. *)
Definition takes_all {X} (cb : X -> list Z -> bool * X) : Prop := forall x d, fst (cb x d) = true.

(** How much is delivered when the text is looked for with window [w]. *)
Definition upto (t w rest : list Z) : nat := default (length rest) (hit t w rest).

(** With a text, the pieces up to the byte that completes it. *)
Lemma chunk_loop_until {X} (cb : X -> list Z -> bool * X) t l c size filesize :
  takes_all cb -> no_nul t -> t <> [] -> zlen t < 65536 -> 0 < size <= 65535 -> filesize < 2147483648 ->
  forall fuel f w pos i bytes x, reading l f c pos -> 0 <= i -> length w = length t ->
  let rest := drop (Z.to_nat pos) c in
  zlen rest = Z.max 0 (filesize - i) -> (length rest < fuel)%nat ->
  exists f' pos', reading l f' c pos' /\
    chunk_loop fuel l f cb (Some t) (w ++ [0]) filesize size i bytes x =
      Some (bytes + Z.of_nat (upto t w rest), bool_decide (is_Some (hit t w rest)), f',
            snd (deliver cb x (chunks (length rest) (Z.to_nat size) (take (upto t w rest) rest)))).
Proof.
  intros Hcb Ht Hne H16 Hs Hfs. induction fuel as [|fuel IH]; intros f w pos i bytes x Hr Hi Hw rest Hrest Hf; [lia|]. cbn [chunk_loop].
  destruct (Z.ltb_spec i filesize) as [Hlt|Hge]; cycle 1.
  { exists f, pos. split; [done|]. destruct rest as [|z r]; [|rewrite zlen_cons in Hrest; pose proof (zlen_nonneg r); lia].
    unfold upto. cbn. by rewrite Z.add_0_r. }
  destruct (read_piece l f c pos size filesize i Hr ltac:(lia) Hi Hfs Hrest Hlt) as (f' & -> & Hr' & Hd & Hu & Hz & Hn).
  fold rest in Hd, Hz, Hn |- *. set (data := take (Z.to_nat size) rest) in *.
  assert (w <> []) as Hw0 by (by intros ->; destruct t).
  assert (0 < length data <= Z.to_nat size)%nat as Hl by (unfold data; rewrite length_take; destruct rest; [done|cbn; lia]).
  pose proof (zlen_nonneg data). destruct (Z.ltb_spec (zlen data) 0); [lia|].
  assert ((zlen data >? 65535) = false) as -> by (unfold zlen; lia).
  rewrite window_loop_spec by done. cbn [mbind option_bind].
  destruct (length rest) as [|n] eqn:En; [by destruct rest|].
  assert (hit t w rest = match hit t w data with Some k => Some k | None => Nat.add (length data) <$> hit t (slide w data) (drop (Z.to_nat size) rest) end) as Eh.
  { rewrite <- (take_drop (Z.to_nat size) rest) at 1. by apply hit_app. }
  unfold upto. rewrite Eh. destruct (hit t w data) as [k|] eqn:Ek.
  - apply hit_lt in Ek. assert (k < S n)%nat as Hkn by (unfold data in Ek; rewrite length_take in Ek; lia). exists f', (pos + zlen data). split; [done|]. unfold default. cbn [from_option id]. rewrite bool_decide_eq_true_2 by done.
    replace (0 + Z.of_nat k) with (Z.of_nat k) by lia. change (0 >? 0) with false. cbv iota. rewrite Z.add_0_l.
    rewrite Nat2Z.id. unfold data. rewrite take_take, Nat.min_l by lia. destruct (Z.gtb_spec (Z.of_nat k) 0).
    + assert (length (take k rest) = k) as Elk by (rewrite length_take; lia).
      rewrite chunks_one by (lia || intros E; rewrite E in Elk; cbn in Elk; lia).
      cbn [deliver]. by destruct (cb x _) as [[|] y].
    + assert (k = 0%nat) as -> by lia. by rewrite take_0.
  - pose proof (Hcb x data) as Hm. destruct (cb x data) as [more y] eqn:Ey. cbn in Hm. subst more. cbv iota.
    pose proof (slide_length w data) as Hsl.
    destruct (IH f' (slide w data) (pos + zlen data) (i + size) (bytes + zlen data) y Hr' ltac:(lia) ltac:(lia)) as (f'' & pos'' & Hr'' & E).
    { by rewrite Hd. }
    { rewrite Hd, length_drop. lia. }
    rewrite Hu, E, Hd. exists f'', pos''. split; [done|]. set (rest' := drop (Z.to_nat size) rest) in *.
    set (k' := default (length rest') (hit t (slide w data) rest')).
    assert (default (length rest) (Nat.add (length data) <$> hit t (slide w data) rest') = length data + k')%nat as ->.
    { unfold k'. destruct (hit t _ rest'); [done|]. cbn. rewrite <- length_app. unfold data, rest'. by rewrite take_drop. }
    unfold data. rewrite chunks_take by (done || lia). fold data rest'. cbn [deliver]. rewrite Ey.
    unfold upto. fold k'. rewrite (chunks_fuel _ n) by (unfold rest'; rewrite ?length_take, ?length_drop; lia).
    destruct (deliver cb y (chunks n _ _)) as [m z]. cbn [snd]. f_equal. f_equal. f_equal. f_equal; [unfold zlen; lia|].
    apply bool_decide_ext. by rewrite fmap_is_Some.
Qed.

(** The state after an operation that only reads. *)
Definition unchanged (l l' : L) : Prop := lfs_ok l' /\ lfs_files l' = lfs_files l.

Lemma unchanged_trans l l' l'' : unchanged l l' -> unchanged l' l'' -> unchanged l l''.
Proof. intros [_ E] [Hok E']. split; [done|]. by rewrite E'. Qed.

Lemma readFile_missing {X} l p size (cb : X -> list Z -> bool * X) offset until x : lfs_ok l -> lfs_files l !! lfs_norm p = None ->
  exists rc l', rc < 0 /\ readFile l p size cb offset until x = Some (rc, false, l', x) /\ unchanged l l'.
Proof.
  intros Hok Hf. unfold readFile. destruct (spec_open l p Hok) as (rc & f & l' & -> & Hok' & Hfs & Hc). rewrite Hf in Hc.
  destruct (Z.ltb_spec rc 0); [|lia]. by exists rc, l'.
Qed.

(** The file is opened and the position set. *)
Lemma readFile_open {X} l p c size (cb : X -> list Z -> bool * X) offset until x :
  lfs_ok l -> lfs_files l !! lfs_norm p = Some c -> 0 < size -> 0 <= offset < 18446744073709551616 ->
  let d := drop (Z.to_nat offset) c in
  let t := match_text until in
  let w := match t with Some t => replicate (Z.to_nat (u16 (zlen t) + 1)) 0 | None => [] end in
  exists l' f pos, unchanged l l' /\ zlen d < 2147483648 /\ reading l' f c pos /\ (d = [] \/ drop (Z.to_nat pos) c = d) /\
    readFile l p size cb offset until x =
      '(bytes, found, f, x) <- chunk_loop (S (length d)) l' f cb t w (zlen d) size 0 0 x;;
      Some (bytes, found, snd (lfs_file_close l' f), x).
Proof.
  intros Hok Hf Hs Ho d t w. unfold readFile. destruct (spec_open l p Hok) as (rc & f & l' & -> & Hok' & Hfs & Hc). rewrite Hf in Hc.
  destruct Hc as [-> Hr]. cbn [Z.ltb Z.compare]. destruct (Z.leb_spec size 0); [lia|]. fold t. fold w.
  rewrite (spec_size _ _ _ _ Hr). destruct (spec_reading _ _ _ _ Hr) as (_ & _ & Hb). pose proof (zlen_nonneg c). rewrite u32_small by lia.
  assert (zlen d = Z.max 0 (zlen c - offset)) as Hd by (unfold d, zlen; rewrite length_drop; lia).
  destruct (Z.ltb_spec offset (zlen c)) as [Hlt|Hge].
  - rewrite i32_small by lia. destruct (spec_seek _ _ _ _ offset Hr ltac:(lia)) as (f' & -> & Hr'). cbn [snd]. rewrite u32_small by lia.
    replace (zlen c - offset) with (zlen d) by lia. exists l', f', offset. split; [done|]. split; [lia|]. split; [done|]. split; [by right|].
    unfold zlen at 1. by rewrite Nat2Z.id.
  - assert (d = []) as Ed by (unfold d; apply drop_ge; unfold zlen in *; lia). exists l', f, 0. rewrite Ed.
    split; [done|]. split; [by cbn|]. split; [done|]. split; [by left|]. done.
Qed.

Lemma close_unchanged l l0 f c pos : reading l f c pos -> unchanged l0 l -> unchanged l0 (snd (lfs_file_close l f)).
Proof.
  intros Hr Hu. destruct (spec_close _ _ _ _ Hr) as (rc & l' & -> & Hok & E). cbn. by eapply unchanged_trans.
Qed.

Lemma readFile_plain {X} l p c size (cb : X -> list Z -> bool * X) offset x :
  lfs_ok l -> lfs_files l !! lfs_norm p = Some c -> 0 < size < 2147483648 -> 0 <= offset < 18446744073709551616 ->
  let d := drop (Z.to_nat offset) c in
  exists rc l', 0 <= rc /\ unchanged l l' /\
    readFile l p size cb offset None x = Some (rc, false, l', snd (deliver cb x (chunks (length d) (Z.to_nat size) d))).
Proof.
  intros Hok Hf Hs Ho d. destruct (readFile_open l p c size cb offset None x Hok Hf ltac:(lia) Ho) as (l' & f & pos & Hu & Hb & Hr & Hd & ->).
  fold d in Hb, Hd |- *. cbn [match_text]. destruct Hd as [Ed|Hd].
  { rewrite Ed. cbn. exists 0, (snd (lfs_file_close l' f)). split; [done|]. split; [by eapply close_unchanged|done]. }
  destruct (chunk_loop_plain cb l' c [] size (zlen d) Hs Hb (S (length d)) f pos 0 0 x Hr) as (rc & f' & pos' & Hrc & Hr' & E);
    rewrite ?Hd; try lia. { pose proof (zlen_nonneg d). lia. }
  rewrite E, Hd. cbn [mbind option_bind]. exists rc, (snd (lfs_file_close l' f')). split; [done|]. split; [by eapply close_unchanged|done].
Qed.

(** Reading up to a text delivers everything before the byte that completes its first
    occurrence, and all of the file when it does not occur. *)
Lemma readFile_until {X} l p c size (cb : X -> list Z -> bool * X) offset t x :
  lfs_ok l -> lfs_files l !! lfs_norm p = Some c -> 0 < size <= 65535 -> 0 <= offset < 18446744073709551616 ->
  takes_all cb -> no_nul t -> t <> [] -> zlen t < 65536 ->
  let d := drop (Z.to_nat offset) c in
  let stop := match StrOps.first_occ t d with Some s => (s + length t - 1)%nat | None => length d end in
  exists l', unchanged l l' /\
    readFile l p size cb offset (Some t) x =
      Some (Z.of_nat stop, bool_decide (is_Some (StrOps.first_occ t d)), l',
            snd (deliver cb x (chunks (length d) (Z.to_nat size) (take stop d)))).
Proof.
  intros Hok Hf Hs Ho Hcb Ht Hne H16 d stop.
  destruct (readFile_open l p c size cb offset (Some t) x Hok Hf ltac:(lia) Ho) as (l' & f & pos & Hu & Hb & Hr & Hd & ->).
  fold d in Hb, Hd |- *. set (w := replicate (length t) 0).
  assert (0 < zlen t) as Hpos by (destruct t; [done|]; rewrite zlen_cons; pose proof (zlen_nonneg t); lia).
  unfold match_text. rewrite (u16_small (zlen t)) by lia. destruct (Z.eqb_spec (zlen t) 0); [lia|]. rewrite (u16_small (zlen t)) by lia.
  replace (Z.to_nat (zlen t + 1)) with (length t + 1)%nat by (unfold zlen; lia). rewrite replicate_add. fold w. cbn [replicate].
  assert (hit t w d = (fun s => (s + length t - 1)%nat) <$> StrOps.first_occ t d) as Eh by (by apply hit_zeros).
  assert (upto t w d = stop) as Eu by (unfold upto, stop; rewrite Eh; by destruct (StrOps.first_occ t d)).
  assert (bool_decide (is_Some (hit t w d)) = bool_decide (is_Some (StrOps.first_occ t d))) as Eb
    by (apply bool_decide_ext; by rewrite Eh, fmap_is_Some).
  rewrite <- Eb, <- Eu. destruct Hd as [Ed|Hd].
  { rewrite Ed. cbn. exists (snd (lfs_file_close l' f)). split; [by eapply close_unchanged|done]. }
  destruct (chunk_loop_until cb t l' c size (zlen d) Hcb Ht Hne H16 Hs Hb (S (length d)) f w pos 0 0 x Hr) as (f' & pos' & Hr' & E);
    rewrite ?Hd; try lia. { unfold w. by rewrite length_replicate. } { pose proof (zlen_nonneg d). lia. }
  rewrite E, Hd. cbn [mbind option_bind]. exists (snd (lfs_file_close l' f')). split; [by eapply close_unchanged|done].
Qed.

Lemma getFileSize_spec l p c : lfs_ok l -> lfs_files l !! lfs_norm p = Some c ->
  exists l', getFileSize l p = (zlen c, l') /\ unchanged l l'.
Proof.
  intros Hok Hf. unfold getFileSize. destruct (spec_open l p Hok) as (rc & f & l' & -> & Hok' & Hfs & Hc). rewrite Hf in Hc.
  destruct Hc as [-> Hr]. cbn [Z.ltb Z.compare]. rewrite (spec_size _ _ _ _ Hr). eexists. split; [done|]. by eapply close_unchanged.
Qed.

Lemma count_newlines_spec c : count_newlines c = Z.of_nat (newlines c).
Proof. done. Qed.

Lemma deliver_count cs : forall n, 0 <= n -> n + zlen (concat cs) < 4294967296 ->
  snd (deliver (fun total data => (true, u32 (total + count_newlines data))) n cs) = n + Z.of_nat (newlines (concat cs)).
Proof.
  induction cs as [|c cs IH]; intros n Hn Hb; cbn [deliver concat]; [cbn; lia|]. cbn [concat] in Hb.
  rewrite zlen_app in Hb. rewrite newlines_app. pose proof (newlines_le c). pose proof (zlen_nonneg (concat cs)).
  rewrite count_newlines_spec. unfold zlen in *. rewrite u32_small by lia. specialize (IH (n + Z.of_nat (newlines c)) ltac:(lia) ltac:(lia)).
  destruct (deliver _ _ cs) as [m y]. cbn in *. lia.
Qed.

Lemma newline_loop_spec data : forall i n nl, nl < n ->
  newline_loop data i n nl =
    if (Z.to_nat (n - nl) <=? newlines data)%nat then (Some (i + Z.of_nat (line_start data (Z.to_nat (n - nl)))), n)
    else (None, nl + Z.of_nat (newlines data)).
Proof.
  induction data as [|x data IH]; intros i n nl Hn; cbn [newline_loop].
  { destruct (Nat.leb_spec (Z.to_nat (n - nl)) (newlines [])) as [Hx|_]; cbn in *; [lia|]. by rewrite Z.add_0_r. }
  rewrite newlines_cons. destruct (Z.to_nat (n - nl)) as [|k] eqn:Ek; [lia|]. cbn [line_start].
  destruct (Z.eqb_spec x 10); [rewrite Z.geb_leb; destruct (Z.leb_spec n (nl + 1))|].
  - assert (k = 0%nat) as -> by lia. destruct (Nat.leb_spec 1 (1 + newlines data)); [|lia].
    replace (line_start data 0) with 0%nat by (by destruct data). repeat (f_equal; try lia).
  - rewrite IH by lia. replace (Z.to_nat (n - (nl + 1))) with k by lia.
    destruct (Nat.leb_spec k (newlines data)), (Nat.leb_spec (S k) (1 + newlines data)); try lia; repeat (f_equal; try lia).
  - rewrite IH, Ek by lia. cbn [Nat.add]. destruct (S k <=? newlines data)%nat; [|done]. f_equal. f_equal. lia.
Qed.

Lemma deliver_line n cs : forall o nl, nl < n ->
  fst (snd (deliver (line_cb n) (o, nl) cs)) = o + Z.of_nat (line_start (concat cs) (Z.to_nat (n - nl))).
Proof.
  induction cs as [|c cs IH]; intros o nl Hn; cbn [deliver concat].
  { destruct (Z.to_nat (n - nl)); cbn; lia. }
  unfold line_cb at 1. rewrite newline_loop_spec by done. rewrite line_start_app by lia.
  destruct (Nat.leb_spec (Z.to_nat (n - nl)) (newlines c)); [cbn; lia|].
  specialize (IH (o + zlen c) (nl + Z.of_nat (newlines c)) ltac:(lia)).
  destruct (deliver (line_cb n) _ cs) as [m y]. cbn [snd fst] in *. rewrite IH. unfold zlen.
  replace (Z.to_nat (n - (nl + Z.of_nat (newlines c)))) with (Z.to_nat (n - nl) - newlines c)%nat by lia. lia.
Qed.

Lemma last_char_spec l p c : lfs_ok l -> lfs_files l !! lfs_norm p = Some c -> c <> [] ->
  exists l', last_char l p (zlen c) = Some (default 10 (list.last c), l') /\ unchanged l l'.
Proof.
  intros Hok Hf Hc. unfold last_char. pose proof (spec_bound _ _ _ Hok Hf) as Hb. assert (0 < zlen c) by (destruct c; [done|rewrite zlen_cons; pose proof (zlen_nonneg c); lia]).
  rewrite u64_small by lia.
  destruct (readFile_plain l p c 1 (fun (a : Z) data => (true, match data with x :: _ => x | [] => a end)) (zlen c - 1) 10 Hok Hf ltac:(lia) ltac:(lia))
    as (rc & l' & _ & Hu & ->).
  cbn [mbind option_bind]. exists l'. split; [|done]. f_equal. f_equal.
  destruct (exists_last Hc) as (c' & x & ->). rewrite last_snoc. unfold zlen. rewrite length_app. cbn [length].
  replace (Z.to_nat _) with (length c') by lia. by rewrite drop_app_length.
Qed.

(** The number of the line from the front; [-1] when there is no such line. *)
Definition line_index (c : list Z) (n : Z) : Z :=
  if n <? 0 then if zlen (lines c) + n <? 0 then -1 else zlen (lines c) + n else n.

Lemma lines_bound c : zlen (lines c) <= zlen c.
Proof.
  unfold zlen. rewrite length_lines. unfold open_line. destruct (decide (c = [])) as [->|Hc]; [done|].
  rewrite (bool_decide_eq_false_2 (c = [])) by done. destruct (exists_last Hc) as (c' & x & ->). rewrite last_snoc.
  rewrite newlines_app, length_app, newlines_cons. pose proof (newlines_le c'). cbn [length]. change (newlines []) with O.
  destruct (Z.eqb_spec x 10) as [->|Hx]; [rewrite bool_decide_eq_true_2 by done|rewrite bool_decide_eq_false_2 by congruence]; cbn [orb]; lia.
Qed.

Lemma getOffsetFromLineNumber_front l p c n : lfs_ok l -> lfs_files l !! lfs_norm p = Some c -> 0 <= n ->
  exists l', (if n >? 0 then '(rc, _, l, x) <- readFile l p 250 (line_cb n) 0 None (0, 0);; Some (if rc <? 0 then rc else fst x, l)
              else Some (0, l)) = Some (Z.of_nat (line_start c (Z.to_nat n)), l') /\ unchanged l l'.
Proof.
  intros Hok Hf Hn. destruct (Z.gtb_spec n 0); cycle 1.
  { exists l. assert (n = 0) as -> by lia. split; [by destruct c|done]. }
  destruct (readFile_plain l p c 250 (line_cb n) 0 (0, 0) Hok Hf ltac:(lia) ltac:(lia)) as (rc & l' & Hrc & Hu & ->).
  cbn [mbind option_bind]. destruct (Z.ltb_spec rc 0); [lia|]. exists l'. split; [|done]. rewrite drop_0, deliver_line by lia.
  rewrite concat_chunks by lia. do 2 f_equal. rewrite Z.add_0_l. do 2 f_equal. lia.
Qed.

Lemma getOffsetFromLineNumber_spec l p c n : lfs_ok l -> lfs_files l !! lfs_norm p = Some c -> -2147483648 <= n ->
  exists l', getOffsetFromLineNumber l p n =
      Some (if line_index c n <? 0 then -1 else Z.of_nat (line_start c (Z.to_nat (line_index c n))), l') /\ unchanged l l'.
Proof.
  intros Hok Hf Hn. unfold getOffsetFromLineNumber, line_index. pose proof (spec_bound _ _ _ Hok Hf) as Hb. pose proof (lines_bound c).
  pose proof (zlen_nonneg (lines c)). destruct (Z.ltb_spec n 0) as [Hneg|Hpos]; cycle 1.
  { cbn [mbind option_bind Z.ltb Z.compare]. destruct (Z.ltb_spec n 0); [lia|]. by apply getOffsetFromLineNumber_front. }
  edestruct (readFile_plain l p c 250 (fun total data => (true, u32 (total + count_newlines data))) 0 0 Hok Hf ltac:(lia) ltac:(lia))
    as (rc & l1 & Hrc & Hu1 & ->). cbn [mbind option_bind]. rewrite drop_0.
  rewrite deliver_count by (rewrite ?concat_chunks; lia). rewrite concat_chunks, Z.add_0_l by lia.
  destruct (Z.ltb_spec rc 0); [lia|]. pose proof Hu1 as [Hok1 E1]. rewrite <- E1 in Hf.
  destruct (getFileSize_spec l1 p c Hok1 Hf) as (l2 & -> & Hu2).
  assert (exists l3, (if zlen c >? 0 then '(ch, l) <- last_char l2 p (zlen c);;
            Some (if negb (ch =? 10) then u32 (Z.of_nat (newlines c) + 1) else Z.of_nat (newlines c), l)
          else Some (Z.of_nat (newlines c), l2)) = Some (zlen (lines c), l3) /\ unchanged l l3) as (l3 & -> & Hu3).
  { pose proof Hu2 as [Hok2 E2]. rewrite <- E2 in Hf. unfold zlen at 3. rewrite length_lines. unfold open_line.
    destruct (Z.gtb_spec (zlen c) 0) as [Hc|Hc]; cycle 1.
    { exists l2. destruct c; [|rewrite zlen_cons in Hc; pose proof (zlen_nonneg c); lia]. split; [done|]. by do 2 (eapply unchanged_trans; [done|]). }
    assert (c <> []) as Hne by (by intros ->). destruct (last_char_spec l2 p c Hok2 Hf Hne) as (l3 & -> & Hu3).
    cbn [mbind option_bind]. exists l3. split; [|by do 2 (eapply unchanged_trans; [done|])]. do 2 f_equal.
    rewrite (bool_decide_eq_false_2 (c = [])) by done. rewrite orb_false_r. destruct (list.last c) as [z|] eqn:El; [|by apply last_None in El].
    cbn [default from_option id]. pose proof (newlines_le c). unfold zlen in *. destruct (Z.eqb_spec z 10) as [->|Hz]; cbn [negb].
    - rewrite bool_decide_eq_true_2 by done. lia.
    - rewrite bool_decide_eq_false_2 by congruence. rewrite u32_small by lia. lia. }
  cbn [mbind option_bind]. rewrite i32_small by lia. destruct (Z.ltb_spec (zlen (lines c) + n) 0); cbn [Z.ltb Z.compare].
  { by exists l3. }
  destruct (Z.ltb_spec (zlen (lines c) + n) 0); [lia|].
  pose proof Hu3 as [Hok3 E3]. rewrite E1, <- E3 in Hf.
  destruct (getOffsetFromLineNumber_front l3 p c (zlen (lines c) + n) Hok3 Hf ltac:(lia)) as (l4 & -> & Hu4).
  exists l4. split; [done|]. by eapply unchanged_trans.
Qed.

(** *** Back to line numbers *)

Lemma before_loop_spec data : forall i offset count line, count + i <= offset ->
  before_loop data i offset count line =
    (bool_decide (count + i + zlen data <= offset), line + Z.of_nat (newlines (take (Z.to_nat (offset - count - i)) data))).
Proof.
  induction data as [|x data IH]; intros i offset count line Hi; cbn [before_loop].
  { rewrite take_nil, zlen_nil. rewrite bool_decide_eq_true_2 by lia. f_equal. cbn. lia. }
  rewrite zlen_cons. pose proof (zlen_nonneg data). destruct (Z.leb_spec offset (count + i)).
  - replace (Z.to_nat (offset - count - i)) with O by lia. rewrite bool_decide_eq_false_2 by lia. cbn. by rewrite Z.add_0_r.
  - rewrite IH by lia. replace (Z.to_nat (offset - count - i)) with (S (Z.to_nat (offset - count - (i + 1)))) by lia.
    cbn [take]. rewrite newlines_cons. f_equal; [apply bool_decide_ext; lia|]. destruct (x =? 10); lia.
Qed.

Lemma deliver_before offset cs : forall line count, count <= offset ->
  fst (snd (deliver (before_cb offset) (line, count) cs)) = line + Z.of_nat (newlines (take (Z.to_nat (offset - count)) (concat cs))).
Proof.
  induction cs as [|c cs IH]; intros line count Hc; cbn [deliver concat]; [rewrite take_nil; cbn; lia|].
  unfold before_cb at 1. rewrite before_loop_spec by lia. rewrite Z.add_0_r, Z.sub_0_r, take_app, newlines_app.
  case_bool_decide as Hle.
  - rewrite (take_ge c) by (unfold zlen in Hle; lia). specialize (IH (line + Z.of_nat (newlines c)) (count + zlen c) Hle).
    destruct (deliver (before_cb offset) _ cs) as [m y]. cbn [snd fst] in *. rewrite IH. unfold zlen.
    replace (Z.to_nat (offset - (count + Z.of_nat (length c)))) with (Z.to_nat (offset - count) - length c)%nat by lia. lia.
  - cbn [fst snd]. unfold zlen in Hle. replace (Z.to_nat (offset - count) - length c)%nat with O by lia. rewrite take_0. cbn. lia.
Qed.

Lemma getLineNumberFromOffset_spec l p c offset : lfs_ok l -> lfs_files l !! lfs_norm p = Some c ->
  let o := if offset <? 0 then zlen c + offset else offset in
  exists l', getLineNumberFromOffset l p offset = Some (Z.of_nat (newlines (take (Z.to_nat o) c)), l') /\ unchanged l l'.
Proof.
  intros Hok Hf o. unfold getLineNumberFromOffset. destruct (getFileSize_spec l p c Hok Hf) as (l1 & -> & Hu1).
  pose proof (zlen_nonneg c). destruct (Z.ltb_spec (zlen c) 0); [lia|]. fold o. destruct (Z.gtb_spec o 0); cycle 1.
  { exists l1. split; [|done]. by replace (Z.to_nat o) with O by lia. }
  pose proof Hu1 as [Hok1 E1]. rewrite <- E1 in Hf.
  destruct (readFile_plain l1 p c 250 (before_cb o) 0 (0, 0) Hok1 Hf ltac:(lia) ltac:(lia)) as (rc & l2 & Hrc & Hu2 & ->).
  cbn [mbind option_bind]. destruct (Z.ltb_spec rc 0); [lia|]. rewrite drop_0, deliver_before by lia.
  rewrite concat_chunks, Z.sub_0_r, Z.add_0_l by lia. exists l2. split; [done|]. by eapply unchanged_trans.
Qed.

(** *** One line *)

Lemma first_line_stop d : match StrOps.first_occ [10] d with Some s => (s + length [10%Z] - 1)%nat | None => length d end = length (first_line d) /\
  take (length (first_line d)) d = first_line d.
Proof.
  unfold first_line. destruct (StrOps.first_occ [10] d) as [s|] eqn:E; [|by rewrite take_ge].
  apply StrOps.first_occ_fits in E. cbn in *. assert (length (take s d) = s) as -> by (rewrite length_take; lia). split; [lia|done].
Qed.

Lemma collect_takes_all : takes_all (fun acc (data : list Z) => (true, acc ++ data)).
Proof. done. Qed.

Lemma readLine_at l p c o size : lfs_ok l -> lfs_files l !! lfs_norm p = Some c -> 0 <= o <= zlen c -> 0 < size <= 65535 ->
  let line := first_line (drop (Z.to_nat o) c) in
  exists l', readFile l p size (fun acc data => (true, acc ++ data)) o (Some [10]) [] =
    Some (zlen line, bool_decide (is_Some (StrOps.first_occ [10] (drop (Z.to_nat o) c))), l', line) /\ unchanged l l'.
Proof.
  intros Hok Hf Ho Hsz line. pose proof (spec_bound _ _ _ Hok Hf).
  destruct (readFile_until l p c size (fun acc data => (true, acc ++ data)) o [10] [] Hok Hf Hsz ltac:(lia) collect_takes_all
    ltac:(by repeat constructor) ltac:(done) ltac:(done)) as (l' & Hu & ->).
  destruct (first_line_stop (drop (Z.to_nat o) c)) as [-> E]. fold line in E |- *. rewrite E, deliver_collect.
  cbn [snd app]. rewrite concat_chunks; [by exists l'|lia|]. rewrite <- E, length_take. lia.
Qed.

(** The result of [readLineInFile] without a pattern. *)
Definition read_line_ref (c : list Z) (n : Z) : Z * list Z :=
  if line_index c n <? 0 then (-1, [])
  else match lines c !! Z.to_nat (line_index c n) with
       | Some line => (zlen (strip_cr line), strip_cr line)
       | None => (-99, [])
       end.

Lemma readLineInFile_spec l p c n : lfs_ok l -> lfs_files l !! lfs_norm p = Some c -> -2147483648 <= n ->
  exists l', readLineInFile l p n None = Some (read_line_ref c n, l') /\ unchanged l l'.
Proof.
  intros Hok Hf Hn. unfold readLineInFile, read_line_ref. destruct (getFileSize_spec l p c Hok Hf) as (l1 & -> & Hu1).
  pose proof (zlen_nonneg c). destruct (Z.ltb_spec (zlen c) 0); [lia|]. pose proof Hu1 as [Hok1 E1]. rewrite <- E1 in Hf.
  destruct (getOffsetFromLineNumber_spec l1 p c n Hok1 Hf Hn) as (l2 & -> & Hu2). cbn [mbind option_bind].
  assert (unchanged l l2) as Hu by (by eapply unchanged_trans).
  destruct (Z.ltb_spec (line_index c n) 0); [by exists l2|]. set (k := Z.to_nat (line_index c n)). rewrite lines_lookup.
  destruct (Z.leb_spec 0 (Z.of_nat (line_start c k))); [|lia]. cbn [andb]. rewrite Z.geb_leb.
  destruct (Z.leb_spec (zlen c) (Z.of_nat (line_start c k))) as [Hge|Hlt].
  { rewrite decide_False by (unfold zlen in *; lia). by exists l2. }
  rewrite decide_True by (unfold zlen in *; lia). destruct (Z.ltb_spec (Z.of_nat (line_start c k)) 0); [lia|].
  pose proof Hu as [Hok2 E2]. rewrite E1, <- E2 in Hf.
  destruct (readLine_at l2 p c (Z.of_nat (line_start c k)) 250 Hok2 Hf ltac:(lia) ltac:(lia)) as (l3 & -> & Hu3). cbn [mbind option_bind]. rewrite Nat2Z.id.
  exists l3. split; [|by eapply unchanged_trans]. unfold strip_cr. set (line := first_line _). case_bool_decide as Hcr; [|done].
  do 3 f_equal. unfold zlen. rewrite length_take. assert (line <> []) by (intros Hl; by rewrite Hl in Hcr). destruct line; [done|]. cbn [length]. lia.
Qed.

(** *** Searching *)

(** The occurrences from [o] on that do not overlap. *)
Fixpoint occs (fuel : nat) (t c : list Z) (o : nat) : list nat :=
  match fuel with
  | O => []
  | S fuel => match StrOps.first_occ t (drop o c) with
              | Some s => (o + s)%nat :: occs fuel t c (o + s + length t)
              | None => []
              end
  end.

Lemma first_occ_nil t : t <> [] -> StrOps.first_occ t [] = None.
Proof. intros Ht. cbn. by rewrite decide_False by (intros [r Hr]; destruct t; done). Qed.

Lemma occs_fuel t c : t <> [] -> forall f g o, (length c < f + o)%nat -> (0 < f)%nat -> (length c < g + o)%nat -> (0 < g)%nat ->
  occs f t c o = occs g t c o.
Proof.
  intros Ht. induction f as [|f IH]; intros [|g] o Hf Hf0 Hg Hg0; try lia. cbn [occs].
  destruct (StrOps.first_occ t (drop o c)) as [s|] eqn:E; [|done]. f_equal. apply StrOps.first_occ_fits in E. rewrite length_drop in E.
  assert (0 < length t)%nat by (destruct t; [done|cbn; lia]).
  destruct f as [|f]; [lia|]. destruct g as [|g]; [lia|]. apply IH; lia.
Qed.

Lemma occs_end t c f o : t <> [] -> (length c <= o)%nat -> occs f t c o = [].
Proof. intros Ht Ho. destruct f; [done|]. cbn [occs]. by rewrite drop_ge, first_occ_nil by (done || lia). Qed.

(** The first [m] of them, all for [-1]. *)
Definition at_most (m : Z) (l : list nat) : list nat := if m =? -1 then l else take (Z.to_nat m) l.

(** One round finds the next occurrence or ends the search. *)
Lemma find_round_spec p t c m off l o ids : no_nul t -> t <> [] -> zlen t < 65536 -> m = -1 \/ 0 < m < 2147483648 -> 0 <= off ->
  lfs_ok l -> lfs_files l !! lfs_norm p = Some c -> zlen c + zlen t < 2147483648 -> 0 <= o < 2147483648 ->
  let d := drop (Z.to_nat o) c in
  exists l1, unchanged l l1 /\
    find_round p t true m 1 off (-1) (zlen c) (mkFind o (zlen ids) ids (zlen ids + 1) 250 l) =
      Some (match StrOps.first_occ t d with
            | Some s => let ids := ids ++ [Z.of_nat (Z.to_nat o + s)] in
                        let o := o + Z.of_nat (s + length t) in
                        let s := mkFind o (zlen ids) ids (zlen ids + 1) 250 l1 in
                        if (o <? zlen c) && ((m =? -1) || (zlen ids <? m)) then inr s else inl (zlen ids, s)
            | None => inl (zlen ids, mkFind (o + zlen d + 1) (zlen ids) ids (zlen ids + 1) 250 l1)
            end).
Proof.
  intros Ht Hne H16 Hm Hoff Hok Hf Hb Ho d. unfold find_round. cbn [fi_lfs fi_offset fi_count fi_indices fi_next fi_chunk].
  destruct (readFile_until l p c 250 (fun (x : unit) _ => (true, x)) o t tt Hok Hf ltac:(lia) ltac:(lia) ltac:(done) Ht Hne H16) as (l1 & Hu1 & ->).
  cbn [mbind option_bind]. fold d. exists l1. split; [done|]. assert ((off <? 0) = false) as -> by lia.
  assert (length d = length c - Z.to_nat o)%nat as Hd by (unfold d; by rewrite length_drop).
  assert (0 < length t)%nat by (destruct t; [done|cbn; lia]). unfold zlen in Hb. change (-1 >? 0) with false. cbn [andb].
  destruct (StrOps.first_occ t d) as [s|] eqn:Es.
  - pose proof (StrOps.first_occ_fits _ _ _ Es) as Hfit. rewrite bool_decide_eq_true_2 by done.
    destruct (Z.ltb_spec (Z.of_nat (s + length t - 1)) 0); [lia|]. rewrite u64_small by lia. rewrite Z.eqb_refl. cbn [andb orb].
    replace (o + Z.of_nat (s + length t - 1) + 1) with (o + Z.of_nat (s + length t)) by lia. cbv zeta.
    assert (u32 (o + Z.of_nat (s + length t) - zlen t) = Z.of_nat (Z.to_nat o + s)) as -> by (rewrite u32_small; unfold zlen; lia).
    assert (zlen (ids ++ [Z.of_nat (Z.to_nat o + s)]) = zlen ids + 1) as -> by (by rewrite zlen_app).
    assert ((m =? -1) || false || (zlen ids + 1 <? u32 m) = (m =? -1) || (zlen ids + 1 <? m)) as ->; [|by destruct ((_ <? zlen c) && _)].
    destruct Hm as [->|Hm]; [done|]. by rewrite u32_small, orb_false_r by lia.
  - rewrite bool_decide_eq_false_2 by (by intros [? ?]). cbn [andb]. destruct (Z.ltb_spec (Z.of_nat (length d)) 0); [lia|].
    rewrite u64_small by lia. destruct (Z.ltb_spec (o + Z.of_nat (length d) + 1) (zlen c)); [unfold zlen in *; lia|]. done.
Qed.

Lemma at_most_cons m x l : 0 < m \/ m = -1 -> at_most m (x :: l) = x :: at_most (if m =? -1 then -1 else m - 1) l.
Proof.
  intros Hm. unfold at_most. destruct (Z.eqb_spec m (-1)); [done|]. destruct (Z.eqb_spec (m - 1) (-1)); [lia|].
  by replace (Z.to_nat m) with (S (Z.to_nat (m - 1))) by lia.
Qed.

Lemma at_most_nil m : at_most m [] = [].
Proof. unfold at_most. by destruct (m =? -1); rewrite ?take_nil. Qed.

Lemma find_loop_spec p t c m off : no_nul t -> t <> [] -> zlen t < 65536 -> m = -1 \/ 0 < m < 2147483648 -> 0 <= off ->
  zlen c + zlen t < 2147483648 ->
  forall fuel l o ids, lfs_ok l -> lfs_files l !! lfs_norm p = Some c ->
  0 <= o < 2147483648 -> (m = -1 \/ zlen ids < m) -> (length c < fuel + Z.to_nat o)%nat -> (0 < fuel)%nat ->
  exists s', find_loop fuel p t true m 1 off (-1) (zlen c) (mkFind o (zlen ids) ids (zlen ids + 1) 250 l) =
      Some (zlen (fi_indices s'), s') /\ unchanged l (fi_lfs s') /\
    fi_indices s' = ids ++ (Z.of_nat <$> at_most (if m =? -1 then -1 else m - zlen ids) (occs fuel t c (Z.to_nat o))).
Proof.
  intros Ht Hne H16 Hm Hoff Hb. induction fuel as [|fuel IH]; intros l o ids Hok Hf Ho Hids Hfuel Hf0; [lia|]. cbn [find_loop occs].
  destruct (find_round_spec p t c m off l o ids Ht Hne H16 Hm Hoff Hok Hf Hb Ho) as (l1 & Hu1 & ->). cbn [mbind option_bind].
  pose proof (zlen_nonneg ids). pose proof Hu1 as [Hok1 E1]. rewrite <- E1 in Hf.
  destruct (StrOps.first_occ t (drop (Z.to_nat o) c)) as [s|] eqn:Es; cbv zeta; cycle 1.
  { eexists (mkFind _ _ _ _ _ _). cbn [fi_lfs fi_indices]. split; [reflexivity|]. split; [done|]. by rewrite at_most_nil, app_nil_r. }
  pose proof (StrOps.first_occ_fits _ _ _ Es) as Hfit. rewrite length_drop in Hfit. assert (0 < length t)%nat by (destruct t; [done|cbn; lia]).
  set (ids' := ids ++ [Z.of_nat (Z.to_nat o + s)]). set (o' := o + Z.of_nat (s + length t)).
  assert (Z.to_nat o + s + length t = Z.to_nat o')%nat as -> by lia. rewrite at_most_cons by (destruct (Z.eqb_spec m (-1)); lia).
  assert (zlen ids' = zlen ids + 1) as Hl' by (unfold ids'; by rewrite zlen_app).
  assert ((if (if m =? -1 then -1 else m - zlen ids) =? -1 then -1 else (if m =? -1 then -1 else m - zlen ids) - 1) =
    (if m =? -1 then -1 else m - zlen ids')) as ->.
  { destruct (Z.eqb_spec m (-1)); [done|]. destruct (Z.eqb_spec (m - zlen ids) (-1)); lia. }
  rewrite fmap_cons, cons_middle, app_assoc. fold ids'.
  destruct ((o' <? zlen c) && _) eqn:Econt.
  - rewrite andb_true_iff, orb_true_iff, Z.eqb_eq, !Z.ltb_lt in Econt. destruct Econt as [Hlt Hmore].
    destruct (IH l1 o' ids' Hok1 Hf ltac:(unfold zlen in *; lia) Hmore ltac:(lia) ltac:(lia)) as (s' & E & Hu' & Hi).
    exists s'. split; [exact E|]. split; [by eapply unchanged_trans|exact Hi].
  - eexists (mkFind _ _ _ _ _ _). cbn [fi_lfs fi_indices]. split; [reflexivity|]. split; [done|]. apply andb_false_iff in Econt as [Hge|Hmax].
    + rewrite occs_end, at_most_nil by (done || unfold zlen in *; lia). by rewrite app_nil_r.
    + apply orb_false_iff in Hmax as [Hm1 Hmax]. rewrite Hm1. apply Z.eqb_neq in Hm1. apply Z.ltb_ge in Hmax. unfold at_most. replace (m - zlen ids') with 0 by lia. cbn. by rewrite app_nil_r.
Qed.

(** The search with the indices kept, from the front. *)
Lemma findInFile_spec l p t c m off : lfs_ok l -> lfs_files l !! lfs_norm p = Some c -> no_nul t -> t <> [] -> zlen t < 65536 ->
  m = -1 \/ 0 < m < 2147483648 -> 0 <= off < 2147483648 -> zlen c + zlen t < 2147483648 ->
  let found := Z.of_nat <$> at_most m (occs (S (length c)) t c (Z.to_nat off)) in
  exists l', findInFile l p (Some t) true m 1 off = Some (zlen found, found, l') /\ unchanged l l'.
Proof.
  intros Hok Hf Ht Hne H16 Hm Hoff Hb found. unfold findInFile. destruct (getFileSize_spec l p c Hok Hf) as (l1 & -> & Hu1).
  pose proof (zlen_nonneg c). pose proof (zlen_nonneg t). rewrite i32_small by lia. destruct (Z.ltb_spec (zlen c) 0); [lia|].
  assert ((off <? 0) = false) as Eoff by lia. change (1 >? 1) with false. rewrite !andb_false_r. cbn [andb mbind option_bind].
  unfold find_from. rewrite Eoff. change ((-1 <? 0) || (-1 >? 250)) with true. cbv iota zeta.
  pose proof Hu1 as [Hok1 E1]. rewrite <- E1 in Hf.
  destruct (find_loop_spec p t c m off Ht Hne H16 Hm ltac:(lia) Hb (S (Z.to_nat (zlen c))) l1 off [] Hok1 Hf ltac:(lia)
    ltac:(destruct Hm; [by left|right; rewrite zlen_nil; lia]) ltac:(unfold zlen; lia) ltac:(lia)) as (s' & E & Hu' & Hi).
  rewrite zlen_nil in E, Hi. change (0 + 1) with 1 in E. cbn [app] in Hi. rewrite E. cbn [mbind option_bind]. exists (fi_lfs s').
  split; [|by eapply unchanged_trans]. assert (fi_indices s' = found) as ->; [|done].
  rewrite Hi. unfold found, zlen. rewrite Nat2Z.id. destruct (Z.eqb_spec m (-1)) as [->|]; [done|]. by rewrite Z.sub_0_r.
Qed.
End reading.

(** ** Writing *)

Lemma lfs_same_trans k a b c : same_but k a b -> same_but k b c -> same_but k a c.
Proof. intros Hab Hbc k' Hk. by rewrite Hbc, Hab. Qed.

Lemma msub_all (c : list Z) : msub c 0 (zlen c) = Some c.
Proof. pose proof (msub_app_mid [] c []) as E. rewrite app_nil_r in E. exact E. Qed.

Lemma overwrite_end c data : overwrite c (zlen c) data = c ++ data.
Proof. unfold overwrite, zlen. rewrite Nat2Z.id, take_ge, drop_ge, app_nil_r by lia. done. Qed.

Section writing.
Context {L F D : Type} `{LfsSpec L F D}.

Lemma setattr_unchanged l p t v : lfs_ok l -> unchanged l (snd (lfs_setattr l p t v)).
Proof. intros Hok. by destruct (spec_setattr l p t v Hok) as (rc & l' & -> & ?). Qed.

Lemma stampModify_unchanged e l p : lfs_ok l -> unchanged l (stampModify e l p).
Proof. intros Hok. unfold stampModify. destruct (e_now e =? 0); [done|by apply setattr_unchanged]. Qed.

Lemma with_attr l0 l p t v (k : L -> L) : unchanged l0 l -> (forall l', unchanged l0 l' -> unchanged l0 (k l')) ->
  unchanged l0 (let '(_, l) := lfs_setattr l p t v in k l).
Proof.
  intros Hu Hk. pose proof (setattr_unchanged l p t v (proj1 Hu)) as Hs. destruct (lfs_setattr l p t v) as [rc l'].
  apply Hk. by eapply unchanged_trans.
Qed.

Lemma stampCreate_unchanged e l p isDir : lfs_ok l -> unchanged l (stampCreate e l p isDir).
Proof.
  intros Hok. unfold stampCreate. do 3 (apply with_attr; [done|intros ? ?]). destruct (e_now e =? 0); [done|].
  by do 2 (apply with_attr; [done|intros ? ?]).
Qed.

Lemma isFileExist_spec l p : lfs_ok l ->
  exists l', isFileExist l p = (bool_decide (is_Some (lfs_files l !! lfs_norm p)), l') /\ unchanged l l'.
Proof.
  intros Hok. unfold isFileExist. destruct (spec_open l p Hok) as (rc & f & l' & -> & Hok' & Hf & Hc).
  destruct (lfs_files l !! lfs_norm p) as [c|].
  - destruct Hc as [-> Hr]. change (0 <? 0) with false. rewrite bool_decide_eq_true_2 by done. eexists. split; [done|].
    by eapply close_unchanged.
  - destruct (Z.ltb_spec rc 0); [|lia]. rewrite bool_decide_eq_false_2 by (by intros [? ?]). by exists l'.
Qed.

Lemma isDirExist_spec l p : lfs_ok l -> exists r l', isDirExist l p = (r, l') /\ unchanged l l' /\
  (is_Some (lfs_files l !! lfs_norm p) -> r = false).
Proof.
  intros Hok. unfold isDirExist. destruct (spec_dir_open l p Hok) as (rc & d & l' & -> & Hok' & Hf & Hfile & Hd).
  destruct (Z.ltb_spec rc 0) as [Hrc|Hrc]; [by exists false, l'|].
  destruct (spec_dir_close l' d (Hd Hrc)) as (rc' & l'' & -> & Hok'' & Hf''). exists true, l''. split; [done|]. split; [split; [done|by rewrite Hf'']|].
  intros Hs. specialize (Hfile Hs). lia.
Qed.

Lemma deleteFile_spec l p : lfs_ok l -> exists rc l', deleteFile l p = (rc, l') /\ lfs_ok l' /\
  same_but (lfs_norm p) (lfs_files l) (lfs_files l') /\
  lfs_files l' !! lfs_norm p = (if rc =? 0 then None else lfs_files l !! lfs_norm p).
Proof.
  intros Hok. unfold deleteFile. destruct (spec_remove l p Hok) as (rc & l' & -> & Hok' & Hf). exists rc, l'. split; [done|]. split; [done|].
  destruct (lfs_files l !! lfs_norm p) as [c|] eqn:E.
  - destruct Hf as [[-> ->]|[Hrc ->]].
    + split; [|by rewrite lookup_delete_eq]. intros k Hk. by rewrite lookup_delete_ne.
    + split; [done|]. by destruct (Z.eqb_spec rc 0).
  - rewrite Hf, E. split; [done|]. by destruct (rc =? 0).
Qed.

(** *** With room on the device *)

Section room.
Context `{!LfsRoom L F D}.

(** One write to an open file, and closing it. *)
Lemma write_close l0 l f p c i data : writing l f p c i -> same_but (lfs_norm p) (lfs_files l0) (lfs_files l) ->
  exists rc f' l1, lfs_file_write l f data = (rc, f', l1) /\
    lfs_ok (snd (lfs_file_close l1 f')) /\ same_but (lfs_norm p) (lfs_files l0) (lfs_files (snd (lfs_file_close l1 f'))) /\
    (rc = zlen data /\ lfs_files (snd (lfs_file_close l1 f')) !! lfs_norm p = Some (overwrite c i data) \/ rc < 0 /\ data <> []).
Proof.
  intros Hw Hs. destruct (spec_write l f p c i data Hw) as (rc & f' & l1 & -> & Hs1 & Hres). exists rc, f', l1. split; [done|].
  assert (exists c' i', writing l1 f' p c' i') as (c' & i' & Hw') by (destruct Hres as [[_ ?]|(_ & _ & ?)]; by eauto).
  destruct (spec_close_writing l1 f' p c' i' Hw') as (rc' & l2 & E & Hok2 & Hs2 & _). rewrite E. cbn [snd].
  split; [done|]. split; [by do 2 (eapply lfs_same_trans; [done|])|]. destruct Hres as [[-> Hw1]|(Hrc & Hd & _)]; [left|by right].
  split; [done|]. destruct (spec_close_writing _ _ _ _ _ Hw1) as (rc2 & l3 & E2 & _ & _ & Hc). pose proof (spec_room _ _ _ _ _ Hw1) as Hr.
  rewrite E2 in E, Hr. cbn in Hr. injection E as -> ->. by apply Hc.
Qed.

Lemma unchanged_same_but l l' k m : unchanged l l' -> same_but k m (lfs_files l) -> same_but k m (lfs_files l').
Proof. intros [_ ->]. done. Qed.

(** A non-empty content replaces the old one or is appended to it. *)
Lemma writeFile_spec e l p c append : lfs_ok l -> c <> [] ->
  exists rc l', writeFile e l p (Some c) (zlen c) append = Some (rc, l') /\ lfs_ok l' /\
    same_but (lfs_norm p) (lfs_files l) (lfs_files l') /\
    (rc = zlen c /\ lfs_files l' !! lfs_norm p = Some ((if append then default [] (lfs_files l !! lfs_norm p) else []) ++ c) \/ rc < 0).
Proof.
  intros Hok Hc. unfold writeFile. destruct (Z.eqb_spec (zlen c) 0) as [E|_]; [by destruct c|].
  destruct (isFileExist_spec l p Hok) as (l1 & -> & Hok1 & E1).
  destruct (spec_open_write l1 p append Hok1) as (rc & f & l2 & -> & Hok2 & Hres). rewrite E1 in Hres.
  destruct Hres as [[Hrc E2]|(-> & Hs2 & Hw)].
  { destruct (Z.ltb_spec rc 0); [|lia]. exists rc, l2. rewrite E2. split; [done|]. split; [done|]. split; [done|by right]. }
  change (0 <? 0) with false. cbv iota. unfold bytes_at. rewrite msub_all. cbn [mbind option_bind].
  destruct (write_close l l2 f p _ _ c Hw Hs2) as (rc & f' & l3 & -> & Hok3 & Hs3 & Hres). set (l4 := snd (lfs_file_close l3 f')) in *.
  rewrite overwrite_end in Hres. exists rc. eexists. split; [done|].
  set (l5 := if rc >=? 0 then _ else l4). assert (unchanged l4 l5) as Hu.
  { unfold l5. destruct (rc >=? 0); [|done]. destruct (bool_decide _); [by apply stampModify_unchanged|by apply stampCreate_unchanged]. }
  split; [apply Hu|]. split; [by eapply unchanged_same_but|]. destruct Hu as [_ ->]. destruct Hres as [?|[? _]]; [by left|by right].
Qed.

(** A new file has the content given. *)
Lemma createFile_spec e l p content size n data : lfs_ok l ->
  (if size =? -1 then match content with Some c => strlen c | None => None end else Some size) = Some n ->
  bytes_at content (u32 n) = Some data ->
  exists rc l', createFile e l p content size = Some (rc, l') /\ lfs_ok l' /\
    same_but (lfs_norm p) (lfs_files l) (lfs_files l') /\
    (rc = zlen data /\ lfs_files l !! lfs_norm p = None /\ lfs_files l' !! lfs_norm p = Some data \/
     rc < 0 /\ (data = [] \/ is_Some (lfs_files l !! lfs_norm p) -> lfs_files l' = lfs_files l)).
Proof.
  intros Hok Hn Hd. unfold createFile. destruct (spec_open_new l p Hok) as (rc & f & l1 & -> & Hok1 & Hres).
  destruct Hres as [[Hrc E1]|(-> & Hnone & Hs1 & Hw)].
  { destruct (Z.ltb_spec rc 0); [|lia]. exists rc, l1. rewrite E1. split; [done|]. split; [done|]. split; [done|by right]. }
  change (0 <? 0) with false. cbv iota. rewrite Hn. cbn [mbind option_bind]. rewrite Hd. cbn [mbind option_bind].
  destruct (write_close l l1 f p [] 0 data Hw Hs1) as (rc & f' & l2 & -> & Hok2 & Hs2 & Hres). set (l3 := snd (lfs_file_close l2 f')) in *.
  exists rc. eexists. split; [done|]. set (l4 := if rc >=? 0 then _ else l3). assert (unchanged l3 l4) as Hu.
  { unfold l4. destruct (rc >=? 0); [by apply stampCreate_unchanged|done]. }
  split; [apply Hu|]. split; [by eapply unchanged_same_but|]. destruct Hu as [_ ->].
  destruct Hres as [[-> Hf]|[Hrc Hne]]; [left|right; split; [done|]; rewrite Hnone; by intros [?|[? ?]]].
  split; [done|]. split; [done|]. rewrite Hf. unfold overwrite. by rewrite take_nil, drop_nil, app_nil_r.
Qed.

(** *** Editing *)

Lemma overwrite_length c i data : 0 <= i <= zlen c -> zlen (overwrite c i data) = Z.max (zlen c) (i + zlen data).
Proof. intros Hi. unfold overwrite, zlen in *. rewrite !length_app, length_take, length_drop. lia. Qed.

Lemma gap_loop_spec p l0 : forall fuel l f c gap, writing l f p c (zlen c) -> same_but (lfs_norm p) (lfs_files l0) (lfs_files l) ->
  0 <= gap < 18446744073709551616 -> (Z.to_nat gap < fuel)%nat ->
  exists err f' l', gap_loop fuel l f gap = Some (err, f', l') /\ same_but (lfs_norm p) (lfs_files l0) (lfs_files l') /\
    (err = 0 /\ writing l' f' p (c ++ replicate (Z.to_nat gap) 0) (zlen c + gap) \/ err < 0 /\ exists c' i', writing l' f' p c' i').
Proof.
  induction fuel as [|fuel IH]; intros l f c gap Hw Hs Hg Hf; [lia|]. cbn [gap_loop]. destruct (Z.gtb_spec gap 0) as [Hpos|Hz]; cycle 1.
  { exists 0, f, l. split; [done|]. split; [done|]. left. assert (gap = 0) as -> by lia. cbn. by rewrite app_nil_r, Z.add_0_r. }
  set (n := if gap >? 64 then 64 else gap). assert (0 < n <= gap) as Hn by (unfold n; destruct (Z.gtb_spec gap 64); lia).
  destruct (spec_write l f p c (zlen c) (replicate (Z.to_nat n) 0) Hw) as (rc & f1 & l1 & -> & Hs1 & Hres).
  assert (same_but (lfs_norm p) (lfs_files l0) (lfs_files l1)) as Hs' by (by eapply lfs_same_trans).
  destruct Hres as [[-> Hw1]|(Hrc & _ & Hw1)]; cycle 1.
  { destruct (Z.leb_spec rc 0); [|lia]. destruct (Z.eqb_spec rc 0); [lia|]. exists rc, f1, l1. split; [done|]. split; [done|by right]. }
  rewrite zlen_replicate in * by lia. rewrite overwrite_end in Hw1. destruct (Z.leb_spec n 0); [lia|]. rewrite u64_small by lia.
  assert (zlen (c ++ replicate (Z.to_nat n) 0) = zlen c + n) as El by (rewrite zlen_app, zlen_replicate; lia). rewrite <- El in Hw1.
  destruct (IH l1 f1 _ (gap - n) Hw1 Hs' ltac:(lia) ltac:(lia)) as (err & f2 & l2 & -> & Hs2 & Hres2). exists err, f2, l2.
  split; [done|]. split; [done|]. destruct Hres2 as [[-> Hw2]|?]; [left|by right]. split; [done|]. rewrite El in Hw2.
  rewrite <- app_assoc, <- replicate_add in Hw2.
  replace (Z.to_nat n + Z.to_nat (gap - n))%nat with (Z.to_nat gap) in Hw2 by lia. by replace (zlen c + n + (gap - n)) with (zlen c + gap) in Hw2 by lia.
Qed.

(** The content with zeros up to [o]. *)
Definition padded (c : list Z) (o : Z) : list Z := c ++ replicate (Z.to_nat (o - zlen c)) 0.

Lemma pad_to_spec p l0 l f c i offset : writing l f p c i -> same_but (lfs_norm p) (lfs_files l0) (lfs_files l) ->
  0 <= offset < 18446744073709551616 ->
  exists err f' l', pad_to l f offset (zlen c) = Some (err, f', l') /\ same_but (lfs_norm p) (lfs_files l0) (lfs_files l') /\
    (err = 0 /\ (exists i', writing l' f' p (padded c offset) i') \/ err < 0 /\ exists c' i', writing l' f' p c' i').
Proof.
  intros Hw Hs Ho. destruct (spec_writing _ _ _ _ _ Hw) as (_ & _ & Hb & _). pose proof (zlen_nonneg c). unfold pad_to.
  rewrite (u64_small (zlen c)) by lia. destruct (Z.gtb_spec offset (zlen c)) as [Hgt|Hle]; cycle 1.
  - exists 0, f, l. split; [done|]. split; [done|]. left. split; [done|]. exists i. unfold padded.
    replace (Z.to_nat (offset - zlen c)) with O by lia. cbn. by rewrite app_nil_r.
  - destruct (spec_writing_end _ _ _ _ _ Hw) as (f' & -> & Hw'). cbn [snd]. rewrite u64_small by lia.
    destruct (gap_loop_spec p l0 (S (Z.to_nat (offset - zlen c))) l f' c (offset - zlen c) Hw' Hs ltac:(lia) ltac:(lia)) as (err & f2 & l2 & -> & Hs2 & Hr).
    exists err, f2, l2. split; [done|]. split; [done|]. destruct Hr as [[-> ?]|?]; [left; by eauto|by right].
Qed.

(** Content is put at the offset, after zeros when the file is shorter. *)
Lemma editFile_spec e l p c offset data : lfs_ok l -> lfs_files l !! lfs_norm p = Some c -> data <> [] -> zlen data < 4294967296 ->
  0 <= offset < 18446744073709551616 ->
  exists rc l', editFile e l p offset (Some data) (zlen data) = Some (rc, l') /\ lfs_ok l' /\
    same_but (lfs_norm p) (lfs_files l) (lfs_files l') /\
    (rc = zlen data /\ lfs_files l' !! lfs_norm p = Some (overwrite (padded c offset) offset data) \/ rc < 0).
Proof.
  intros Hok Hf Hne Hsz Ho. unfold editFile. destruct (Z.eqb_spec (zlen data) 0) as [E|_]; [by destruct data|].
  destruct (spec_open_edit l p Hok) as (rc & f & l1 & -> & Hok1 & E1 & Hc). rewrite Hf in Hc. destruct Hc as [-> Hw].
  change (0 <? 0) with false. cbv iota. destruct (spec_writing _ _ _ _ _ Hw) as (_ & _ & Hb & ->). pose proof (zlen_nonneg c).
  assert (same_but (lfs_norm p) (lfs_files l) (lfs_files l1)) as Hs1 by (by rewrite E1).
  destruct (pad_to_spec p l l1 f c 0 offset Hw Hs1 Ho) as (err & f2 & l2 & -> & Hs2 & Hres).
  cbn [mbind option_bind]. destruct Hres as [[-> [i Hw2]]|(Herr & c' & i' & Hw2)]; cycle 1.
  { destruct (Z.eqb_spec err 0); [lia|]. cbn [negb]. destruct (spec_close_writing _ _ _ _ _ Hw2) as (rc & l3 & -> & Hok3 & Hs3 & _).
    exists err, l3. split; [done|]. split; [done|]. split; [by eapply lfs_same_trans|by right]. }
  change (negb (0 =? 0)) with false. cbv iota. destruct (spec_writing _ _ _ _ _ Hw2) as (_ & _ & Hb2 & _).
  assert (zlen (padded c offset) = Z.max (zlen c) offset) as Elen by (unfold padded; rewrite zlen_app; unfold zlen at 2; rewrite length_replicate; lia).
  rewrite i32_small by lia. destruct (spec_writing_seek _ _ _ _ _ offset Hw2 ltac:(lia)) as (f3 & -> & Hw3).
  destruct (Z.ltb_spec offset 0); [lia|]. unfold bytes_at. rewrite msub_all. cbn [mbind option_bind].
  destruct (write_close l l2 f3 p _ _ data Hw3 Hs2) as (rc & f4 & l3 & -> & Hok3 & Hs3 & Hres). set (l4 := snd (lfs_file_close l3 f4)) in *.
  assert ((rc >? 0) && negb (u32 rc =? zlen data) = false) as ->.
  { pose proof (zlen_nonneg data). destruct Hres as [[-> _]|[Hrc _]]; [rewrite u32_small, Z.eqb_refl by lia; by rewrite andb_false_r|].
    destruct (Z.gtb_spec rc 0); [lia|done]. }
  exists rc. eexists. split; [done|]. set (l5 := if rc >=? 0 then _ else l4).
  assert (unchanged l4 l5) as Hu by (unfold l5; destruct (rc >=? 0); [by apply stampModify_unchanged|done]).
  split; [apply Hu|]. split; [by eapply unchanged_same_but|]. destruct Hu as [_ ->]. destruct Hres as [?|[? _]]; [by left|by right].
Qed.
End room.
End writing.

(** ** A library in memory

    An instance of what the library promises.  It takes [r_left] more bytes, and writing more
    fails as the library does, with [LFS_ERR_NOSPC]; with [full] closing a written file
    fails. *)

Record ram := mkRam { r_files : gmap path (list Z); r_dirs : list path; r_attrs : gmap (path * Z) (list Z); r_left : Z }.
Record ram_file := mkRamFile { h_path : path; h_data : list Z; h_pos : Z; h_write : bool }.

Definition set_files (fs : gmap path (list Z)) (r : ram) : ram := mkRam fs (r_dirs r) (r_attrs r) (r_left r).

Definition ram_open (r : ram) (p : path) (flags : Z) : Z * ram_file * ram :=
  let none := mkRamFile p [] 0 false in
  match r_files r !! p with
  | Some c =>
      if Z.testbit flags 9 then (-17, none, r)
      else let c := if Z.testbit flags 10 then [] else c in
           (0, mkRamFile p c (if Z.testbit flags 11 then zlen c else 0) (Z.testbit flags 1), r)
  | None =>
      if Z.testbit flags 8 && negb (bool_decide (p ∈ r_dirs r))
      then (0, mkRamFile p [] 0 (Z.testbit flags 1), set_files (<[p := []]> (r_files r)) r) else (-2, none, r)
  end.

Definition ram_close (full : bool) (r : ram) (f : ram_file) : Z * ram :=
  if h_write f then if full then (-28, r) else (0, set_files (<[h_path f := h_data f]> (r_files r)) r) else (0, r).

Definition ram_seek (f : ram_file) (o whence : Z) : Z * ram_file :=
  let pos := if whence =? LFS_SEEK_END then zlen (h_data f) + o else o in
  (pos, mkRamFile (h_path f) (h_data f) pos (h_write f)).

Definition ram_read (f : ram_file) (n : Z) : Z * list Z * ram_file :=
  let data := take (Z.to_nat n) (drop (Z.to_nat (h_pos f)) (h_data f)) in
  (zlen data, data, mkRamFile (h_path f) (h_data f) (h_pos f + zlen data) (h_write f)).

Definition ram_write (r : ram) (f : ram_file) (data : list Z) : Z * ram_file * ram :=
  let c := overwrite (h_data f) (h_pos f) data in
  if negb (zlen c <? 2147483648) then (-27, f, r)
  else if negb (bool_decide (data = [])) && (r_left r <? zlen data) then (-28, f, r)
  else (zlen data, mkRamFile (h_path f) c (h_pos f + zlen data) (h_write f), mkRam (r_files r) (r_dirs r) (r_attrs r) (r_left r - zlen data)).

Definition ram_remove (r : ram) (p : path) : Z * ram :=
  match r_files r !! p with
  | Some _ => (0, mkRam (delete p (r_files r)) (r_dirs r) (filter (fun x => x.1.1 <> p) (r_attrs r)) (r_left r))
  | None => if bool_decide (p ∈ r_dirs r) then (0, mkRam (r_files r) (filter (fun d => d <> p) (r_dirs r)) (r_attrs r) (r_left r)) else (-2, r)
  end.

Definition ram_rename (r : ram) (p q : path) : Z * ram :=
  match r_files r !! p with
  | Some c =>
      if bool_decide (q ∈ r_dirs r) then (-21, r)
      else
        let kept := filter (fun x => x.1.1 <> p /\ x.1.1 <> q) (r_attrs r) in
        let moved := map_fold (fun k v m => if decide (k.1 = p) then <[(q, k.2) := v]> m else m) ∅ (r_attrs r) in
        (0, mkRam (<[q := c]> (delete p (r_files r))) (r_dirs r) (moved ∪ kept) (r_left r))
  | None => (-2, r)
  end.

Definition ram_mkdir (r : ram) (p : path) : Z * ram :=
  if bool_decide (p ∈ r_dirs r) then (-17, r) else (0, mkRam (r_files r) (p :: r_dirs r) (r_attrs r) (r_left r)).

Definition ram_setattr (r : ram) (p : path) (t : Z) (v : list Z) : Z * ram :=
  (0, mkRam (r_files r) (r_dirs r) (<[(p, t) := v]> (r_attrs r)) (r_left r)).

Definition ram_getattr (r : ram) (p : path) (t : Z) (buffer : list Z) : Z * list Z :=
  match r_attrs r !! (p, t) with Some v => (zlen v, v) | None => (-61, buffer) end.

Definition ram_dir_open (r : ram) (p : path) : Z * list lfs_info * ram :=
  if bool_decide (p ∈ r_dirs r) && negb (bool_decide (is_Some (r_files r !! p)))
  then (0, (fun '(q, c) => mkLfsInfo 1 (zlen c) (drop (S (length p)) q)) <$> filter (fun x => take (S (length p)) (fst x) = p ++ [47]) (map_to_list (r_files r)), r)
  else (-2, [], r).

Definition ram_dir_read (d : list lfs_info) : Z * lfs_info * list lfs_info :=
  match d with i :: d => (1, i, d) | [] => (0, mkLfsInfo 0 0 [], []) end.

Definition ram_lfs (full : bool) : Lfs ram ram_file (list lfs_info) := {|
  lfs_mount r _ := (0, r);
  lfs_format r _ := (0, mkRam ∅ [] ∅ (r_left r));
  lfs_file_open := ram_open;
  lfs_file_close := ram_close full;
  lfs_file_size _ f := zlen (h_data f);
  lfs_file_seek _ := ram_seek;
  lfs_file_read _ := ram_read;
  lfs_file_write := ram_write;
  lfs_remove := ram_remove;
  lfs_rename := ram_rename;
  lfs_mkdir := ram_mkdir;
  lfs_setattr := ram_setattr;
  lfs_getattr := ram_getattr;
  lfs_removeattr r p t := (0, mkRam (r_files r) (r_dirs r) (delete (p, t) (r_attrs r)) (r_left r));
  lfs_dir_open := ram_dir_open;
  lfs_dir_read _ := ram_dir_read;
  lfs_dir_close r _ := (0, r);
  lfs_fs_size r := Z.of_nat (size (r_files r)) |}.

Definition ram_ok (r : ram) : Prop := map_Forall (fun _ c => zlen c < 2147483648) (r_files r).

Definition ram_handle (w : bool) (r : ram) (f : ram_file) (c : list Z) (i : Z) : Prop :=
  ram_ok r /\ h_data f = c /\ h_pos f = i /\ h_write f = w /\ 0 <= i <= zlen c /\ zlen c < 2147483648.

Lemma ram_ok_insert r p c : ram_ok r -> zlen c < 2147483648 -> ram_ok (set_files (<[p := c]> (r_files r)) r).
Proof. intros Hok Hc. by apply map_Forall_insert_2. Qed.

Lemma same_but_insert (k : path) (m : gmap path (list Z)) (c : list Z) : same_but k m (<[k := c]> m).
Proof. intros k' Hk. by rewrite lookup_insert_ne. Qed.

Section ram.
Variable full : bool.
#[local] Instance the_ram : Lfs ram ram_file (list lfs_info) := ram_lfs full.

Lemma ram_open_read l p : ram_ok l -> exists rc f l', lfs_file_open l p LFS_O_RDONLY = (rc, f, l') /\
  ram_ok l' /\ r_files l' = r_files l /\
  match r_files l !! p with Some c => rc = 0 /\ ram_handle false l' f c 0 | None => rc < 0 end.
Proof.
  intros Hok. cbn. unfold ram_open. destruct (r_files l !! p) as [c|] eqn:E.
  - do 3 eexists. split; [done|]. split; [done|]. split; [done|]. split; [done|].
    pose proof (Hok _ _ E). pose proof (zlen_nonneg c). repeat split; try done; lia.
  - do 3 eexists. split; [done|]. split; [done|]. split; [done|]. lia.
Qed.

Lemma ram_read_spec l f c i n : ram_handle false l f c i -> 0 <= n ->
  let data := take (Z.to_nat n) (drop (Z.to_nat i) c) in
  exists f', lfs_file_read l f n = (zlen data, data, f') /\ ram_handle false l f' c (i + zlen data).
Proof.
  intros (Hok & <- & <- & Hw & Hi & Hb) Hn data. eexists. split; [done|]. repeat split; try done.
  - pose proof (zlen_nonneg data). cbn. fold data. lia.
  - cbn. fold data. unfold data, zlen in *. rewrite length_take, length_drop. lia.
Qed.

Lemma ram_open_new l p : ram_ok l -> exists rc f l', lfs_file_open l p (Z.lor (Z.lor (Z.lor LFS_O_WRONLY LFS_O_CREAT) LFS_O_TRUNC) LFS_O_EXCL) = (rc, f, l') /\
  ram_ok l' /\ (rc < 0 /\ r_files l' = r_files l \/
    rc = 0 /\ r_files l !! p = None /\ same_but p (r_files l) (r_files l') /\ ram_handle true l' f [] 0 /\ h_path f = p).
Proof.
  intros Hok. cbn. unfold ram_open. change (Z.testbit _ 9) with true. cbn iota. destruct (r_files l !! p) as [c|] eqn:E.
  { do 3 eexists. split; [done|]. split; [done|]. left. split; [lia|done]. }
  change (Z.testbit _ 8) with true. destruct (bool_decide _); cbn [andb negb].
  { do 3 eexists. split; [done|]. split; [done|]. left. split; [lia|done]. }
  assert (ram_ok (set_files (<[p:=[]]> (r_files l)) l)) as Hok' by (by apply ram_ok_insert).
  do 3 eexists. split; [done|]. split; [done|]. right. split; [done|]. split; [done|]. split; [apply same_but_insert|]. by repeat split.
Qed.

Lemma ram_open_write l p append : ram_ok l ->
  let c := if append : bool then default [] (r_files l !! p) else [] in
  exists rc f l', lfs_file_open l p (Z.lor (Z.lor LFS_O_WRONLY LFS_O_CREAT) (if append then LFS_O_APPEND else LFS_O_TRUNC)) = (rc, f, l') /\
  ram_ok l' /\ (rc < 0 /\ r_files l' = r_files l \/
    rc = 0 /\ same_but p (r_files l) (r_files l') /\ ram_handle true l' f c (zlen c) /\ h_path f = p).
Proof.
  intros Hok c. subst c. cbn. unfold ram_open.
  assert (ram_ok (set_files (<[p:=[]]> (r_files l)) l)) as Hok' by (by apply ram_ok_insert).
  destruct (r_files l !! p) as [d|] eqn:E; [pose proof (Hok _ _ E); pose proof (zlen_nonneg d)|destruct (bool_decide (p ∈ r_dirs l))];
    destruct append; do 3 eexists; (split; [reflexivity|]); (split; [done|]); cbn.
  1, 2: right; split; [done|]; split; [done|]; split; [|done]; repeat split; cbn; done || lia.
  1, 2: left; split; [lia|done].
  all: right; split; [done|]; split; [apply same_but_insert|]; by repeat split.
Qed.

Lemma ram_write_spec l f p c i data : ram_handle true l f c i /\ h_path f = p -> exists rc f' l', lfs_file_write l f data = (rc, f', l') /\
  same_but p (r_files l) (r_files l') /\
  (rc = zlen data /\ (ram_handle true l' f' (overwrite c i data) (i + zlen data) /\ h_path f' = p) \/
   rc < 0 /\ data <> [] /\ exists c' i', ram_handle true l' f' c' i' /\ h_path f' = p).
Proof.
  intros [Hh Hp]. pose proof Hh as (Hok & <- & <- & Hw & Hi & Hb). cbn. unfold ram_write. pose proof (overwrite_length (h_data f) (h_pos f) data Hi) as El.
  destruct (Z.ltb_spec (zlen (overwrite (h_data f) (h_pos f) data)) 2147483648) as [Hlt|Hge]; cbn [negb]; cycle 1.
  { do 3 eexists. split; [done|]. split; [done|]. right. split; [lia|]. split; [|by exists (h_data f), (h_pos f)]. intros ->. rewrite zlen_nil in El. lia. }
  destruct (negb (bool_decide (data = [])) && (r_left l <? zlen data)) eqn:El2.
  - apply andb_true_iff in El2 as [Hne _]. apply negb_true_iff, bool_decide_eq_false in Hne.
    do 3 eexists. split; [done|]. split; [done|]. right. split; [lia|]. split; [done|by exists (h_data f), (h_pos f)].
  - do 3 eexists. split; [done|]. split; [done|]. left. split; [done|]. split; [|done]. pose proof (zlen_nonneg data). repeat split; cbn; try done; lia.
Qed.

Lemma ram_remove_spec l p : ram_ok l -> exists rc l', lfs_remove l p = (rc, l') /\ ram_ok l' /\
  match r_files l !! p with Some _ => rc = 0 /\ r_files l' = delete p (r_files l) \/ rc <> 0 /\ r_files l' = r_files l | None => r_files l' = r_files l end.
Proof.
  intros Hok. cbn. unfold ram_remove. destruct (r_files l !! p) as [c|]; [|destruct (bool_decide _)]; do 2 eexists; (split; [done|]); (split; [|by try left]);
    try done. by apply map_Forall_delete.
Qed.

Lemma ram_dir_spec l p : ram_ok l -> exists rc d l', lfs_dir_open l p = (rc, d, l') /\ ram_ok l' /\ r_files l' = r_files l /\
  (is_Some (r_files l !! p) -> rc < 0) /\ (0 <= rc -> ram_ok l').
Proof.
  intros Hok. cbn. unfold ram_dir_open. destruct (_ && _) eqn:E; do 3 eexists; (split; [done|]); (split; [done|]); (split; [done|]); (split; [|done]); [|done].
  apply andb_true_iff in E as [_ E]. apply negb_true_iff, bool_decide_eq_false_1 in E. done.
Qed.

Lemma ram_close_spec l f p c i : ram_handle true l f c i /\ h_path f = p -> exists rc l', lfs_file_close l f = (rc, l') /\ ram_ok l' /\
  same_but p (r_files l) (r_files l') /\ (rc = 0 -> r_files l' !! p = Some c).
Proof.
  intros [(Hok & <- & _ & Hw & _ & Hb) <-]. cbn. unfold ram_close. rewrite Hw. destruct full; do 2 eexists; (split; [done|]).
  - split; [done|]. split; [done|]. lia.
  - split; [by apply ram_ok_insert|]. split; [apply same_but_insert|]. intros _. cbn. by rewrite lookup_insert_eq.
Qed.

Definition ram_spec : LfsSpec ram ram_file (list lfs_info).
Proof.
  refine {| lfs_ok := ram_ok; lfs_norm := fun p => p; lfs_files := r_files; reading := ram_handle false;
    writing := fun l f p c i => ram_handle true l f c i /\ h_path f = p; listing := fun l _ => ram_ok l;
    spec_bound := fun l k c Hok => Hok k c; spec_open := ram_open_read; spec_read := ram_read_spec;
    spec_open_new := ram_open_new; spec_open_write := ram_open_write; spec_write := ram_write_spec;
    spec_close_writing := ram_close_spec; spec_remove := ram_remove_spec; spec_dir_open := ram_dir_spec |}.
  - by intros l f c i (_ & <- & _).
  - intros l f c i o (Hok & <- & _ & Hw & _ & Hb) Ho. eexists. split; [done|]. repeat split; cbn; done || lia.
  - intros l f c i (Hok & _ & _ & Hw & _). exists 0, l. cbn. unfold ram_close. by rewrite Hw.
  - by intros l f c i (Hok & _ & _ & _ & Hi & Hb).
  - intros l p Hok. cbn. unfold ram_open. destruct (r_files l !! p) as [c|] eqn:E; do 3 eexists; (split; [done|]); (split; [done|]); (split; [done|]).
    + split; [done|]. pose proof (Hok _ _ E). pose proof (zlen_nonneg c). repeat split; try done; lia.
    + lia.
  - intros l f p c i [(Hok & <- & _ & _ & Hi & Hb) _]. repeat split; done || lia.
  - intros l f p c i o [(Hok & <- & _ & Hw & _ & Hb) Hp] Ho. eexists. split; [done|]. repeat split; cbn; done || lia.
  - intros l f p c i [(Hok & <- & _ & Hw & _ & Hb) Hp]. pose proof (zlen_nonneg (h_data f)). eexists. split; [cbn; unfold ram_seek; cbn; by rewrite Z.add_0_r|].
    repeat split; cbn; done || lia.
  - intros l p t v Hok. by do 2 eexists.
  - intros l d Hok. by exists 0, l.
Defined.
End ram.

(** ** Theorems *)

(** A text file on the library in memory: [ab], [cde] and [f] on three lines, with a
    carriage return after the second. *)
Definition demo_text : list Z := [97; 98; 10; 99; 100; 101; 13; 10; 102].
Definition demo_path : path := [47; 116].
Definition demo_ram : ram := mkRam {[ demo_path := demo_text ]} [] ∅ 4096.

Lemma ram_one_ok p c n : zlen c < 2147483648 -> ram_ok (mkRam {[ p := c ]} [] ∅ n).
Proof. intros Hc. by apply map_Forall_singleton. Qed.

Lemma demo_ram_ok : ram_ok demo_ram.
Proof. by apply ram_one_ok. Qed.



(** A line is read by its number from the front or, when negative, from the end: the text
    between the newlines without a carriage return at its end, and its length; [-1] before
    the first line and [-99] after the last. *)
Theorem littlefs_read_line {L F D} `{LfsSpec L F D} l p c n :
  lfs_ok l -> lfs_files l !! lfs_norm p = Some c -> -2147483648 <= n ->
  let i := if n <? 0 then zlen (lines c) + n else n in
  exists l', unchanged l l' /\
    readLineInFile l p n None =
      Some (match (if i <? 0 then None else lines c !! Z.to_nat i) with
            | Some line => (zlen (strip_cr line), strip_cr line)
            | None => (if i <? 0 then -1 else -99, [])
            end, l').
Proof.
  intros Hok Hf Hn i. destruct (readLineInFile_spec l p c n Hok Hf Hn) as (l' & -> & Hu). exists l'. split; [done|].
  unfold read_line_ref, line_index. fold i. unfold i. destruct (Z.ltb_spec n 0); [|by destruct (Z.ltb_spec n 0); [lia|]].
  destruct (Z.ltb_spec (zlen (lines c) + n) 0); [done|]. by destruct (Z.ltb_spec (zlen (lines c) + n) 0); [lia|].
Qed.

Lemma littlefs_read_line_witness : exists l',
  readLineInFile (H := ram_lfs false) demo_ram demo_path (-2) None = Some (3, [99; 100; 101], l').
Proof.
  destruct (littlefs_read_line (H0 := ram_spec false) demo_ram demo_path demo_text (-2) demo_ram_ok ltac:(vm_compute; reflexivity)
    ltac:(lia)) as (l' & _ & E). exists l'. exact E.
Defined.

(** The line number of an offset is the number of newlines before it; the offset of line
    [n] is after [n] newlines, and its line number is [n] again. *)
Theorem littlefs_line_numbers {L F D} `{LfsSpec L F D} l p c :
  lfs_ok l -> lfs_files l !! lfs_norm p = Some c ->
  (forall o, 0 <= o -> exists l', unchanged l l' /\
     getLineNumberFromOffset l p o = Some (Z.of_nat (newlines (take (Z.to_nat o) c)), l')) /\
  (forall n, 0 <= n < zlen (lines c) -> exists o l1 l2, unchanged l l2 /\
     getOffsetFromLineNumber l p n = Some (o, l1) /\ 0 <= o < zlen c /\ getLineNumberFromOffset l1 p o = Some (n, l2)).
Proof.
  intros Hok Hf. split.
  - intros o Ho. destruct (getLineNumberFromOffset_spec l p c o Hok Hf) as (l' & E & Hu). exists l'. split; [done|].
    by destruct (Z.ltb_spec o 0); [lia|].
  - intros n Hn. destruct (getOffsetFromLineNumber_spec l p c n Hok Hf ltac:(lia)) as (l1 & E & Hu1).
    unfold line_index in E. destruct (Z.ltb_spec n 0); [lia|]. destruct (Z.ltb_spec n 0); [lia|].
    assert (line_start c (Z.to_nat n) < length c)%nat as Hlt.
    { assert (is_Some (lines c !! Z.to_nat n)) as [x Hx] by (apply lookup_lt_is_Some; unfold zlen in Hn; lia).
      rewrite lines_lookup in Hx. by case_decide. }
    assert (Z.to_nat n <= newlines c)%nat as Hle.
    { destruct (Nat.le_gt_cases (Z.to_nat n) (newlines c)) as [|Hgt]; [done|]. apply line_start_beyond in Hgt. lia. }
    pose proof Hu1 as [Hok1 E1]. rewrite <- E1 in Hf.
    destruct (getLineNumberFromOffset_spec l1 p c (Z.of_nat (line_start c (Z.to_nat n))) Hok1 Hf) as (l2 & E2 & Hu2).
    eexists _, l1, l2. split; [by eapply unchanged_trans|]. split; [exact E|]. split; [unfold zlen; lia|]. rewrite E2.
    destruct (Z.ltb_spec (Z.of_nat (line_start c (Z.to_nat n))) 0); [lia|]. rewrite Nat2Z.id, newlines_line_start by done. by rewrite Z2Nat.id by lia.
Qed.

Lemma littlefs_line_numbers_witness : exists o l1 l2,
  getOffsetFromLineNumber (H := ram_lfs false) demo_ram demo_path 2 = Some (o, l1) /\
  getLineNumberFromOffset (H := ram_lfs false) l1 demo_path o = Some (2, l2).
Proof.
  destruct (proj2 (littlefs_line_numbers (H0 := ram_spec false) demo_ram demo_path demo_text demo_ram_ok ltac:(vm_compute; reflexivity)) 2
    ltac:(vm_compute; split; [discriminate|reflexivity])) as (o & l1 & l2 & _ & E1 & _ & E2). by exists o, l1, l2.
Defined.

(** Searching from an offset returns where the text occurs: the first occurrence, then the
    first one after it that does not overlap it, and so on, up to the number asked for. *)
Theorem littlefs_find {L F D} `{LfsSpec L F D} l p t c m off :
  lfs_ok l -> lfs_files l !! lfs_norm p = Some c -> no_nul t -> t <> [] -> zlen t < 65536 ->
  m = -1 \/ 0 < m < 2147483648 -> 0 <= off < 2147483648 -> zlen c + zlen t < 2147483648 ->
  let found := Z.of_nat <$> at_most m (occs (S (length c)) t c (Z.to_nat off)) in
  exists l', findInFile l p (Some t) true m 1 off = Some (zlen found, found, l') /\ unchanged l l'.
Proof. apply findInFile_spec. Qed.

Lemma littlefs_find_witness : exists l',
  findInFile (H := ram_lfs false) demo_ram demo_path (Some [10]) true (-1) 1 0 = Some (2, [2; 7], l').
Proof.
  destruct (littlefs_find (H0 := ram_spec false) demo_ram demo_path [10] demo_text (-1) 0 demo_ram_ok ltac:(vm_compute; reflexivity)
    ltac:(by repeat constructor) ltac:(done) ltac:(done) ltac:(by left) ltac:(lia) ltac:(vm_compute; reflexivity)) as (l' & E & _). exists l'. exact E.
Defined.

(** Editing puts the content at the offset, after zeros when the file ends before it, and
    keeps the rest of the file and every other file; or it reports an error.  Writing
    replaces the file or appends to it, and reports the bytes written or an error. *)
Theorem littlefs_edit_write {L F D} `{LfsRoom L F D} e l p data :
  lfs_ok l -> data <> [] -> zlen data < 4294967296 ->
  (forall c offset, lfs_files l !! lfs_norm p = Some c -> 0 <= offset < 18446744073709551616 ->
   exists rc l', editFile e l p offset (Some data) (zlen data) = Some (rc, l') /\ lfs_ok l' /\
     same_but (lfs_norm p) (lfs_files l) (lfs_files l') /\
     (rc = zlen data /\ lfs_files l' !! lfs_norm p = Some (overwrite (padded c offset) offset data) \/ rc < 0)) /\
  (forall append, exists rc l', writeFile e l p (Some data) (zlen data) append = Some (rc, l') /\ lfs_ok l' /\
     same_but (lfs_norm p) (lfs_files l) (lfs_files l') /\
     (rc = zlen data /\ lfs_files l' !! lfs_norm p = Some ((if append : bool then default [] (lfs_files l !! lfs_norm p) else []) ++ data) \/
      rc < 0)).
Proof. intros Hok Hne Hl. split; intros; [by apply editFile_spec|by apply writeFile_spec]. Qed.

Definition ram_room : LfsRoom (H := ram_lfs false) ram ram_file (list lfs_info) (H0 := ram_spec false).
Proof. intros l f p c i [(_ & _ & _ & Hw & _) _]. cbn. unfold ram_close. by rewrite Hw. Defined.

Lemma littlefs_edit_write_witness : exists rc l',
  editFile (H := ram_lfs false) (mkEnv 7 0 0 18) demo_ram demo_path 11 (Some [120; 121]) 2 = Some (rc, l') /\
  (rc = 2 /\ r_files l' !! demo_path = Some (demo_text ++ [0; 0; 120; 121]) \/ rc < 0).
Proof.
  destruct (proj1 (littlefs_edit_write (H1 := ram_room) (mkEnv 7 0 0 18) demo_ram demo_path [120; 121] demo_ram_ok ltac:(done) ltac:(vm_compute; reflexivity))
    demo_text 11 ltac:(vm_compute; reflexivity) ltac:(lia)) as (rc & l' & E & _ & _ & Hr). exists rc, l'. split; [exact E|exact Hr].
Defined.

(** What closing a file reports is not looked at: on a device without room creating,
    writing and copying report success, and the content is not there. *)
Theorem littlefs_loss_unreported : exists l1 l2 l3,
  createFile (H := ram_lfs true) (mkEnv 7 0 0 18) demo_ram [47; 110] (Some [1; 2; 3]) 3 = Some (3, l1) /\
  r_files l1 !! [47; 110] = Some [] /\
  writeFile (H := ram_lfs true) (mkEnv 7 0 0 18) demo_ram demo_path (Some [1; 2; 3]) 3 true = Some (3, l2) /\
  r_files l2 !! demo_path = Some demo_text /\
  copyFile (H := ram_lfs true) (mkEnv 7 0 0 18) 64 demo_ram demo_path [47; 110] = Some (0, l3) /\
  r_files l3 !! [47; 110] = Some [].
Proof. do 3 eexists. repeat split; vm_compute; reflexivity. Qed.

(** The blocks of the file system lie on the device: the bytes of a block that is read or
    written start at the block's number times its size, end before the end of the device,
    and are not those of another block. *)
Theorem littlefs_on_device {L F D} `{Lfs L F D} size cfg l ret c l' block offset n :
  initLFSConfig size (Some cfg) l = Some (ret, c, l') -> 0 < block_size cfg -> 0 <= size < 4294967296 ->
  0 <= block < block_count c -> 0 <= offset -> 0 < n -> offset + n <= block_size cfg ->
  address c block offset = block * block_size cfg + offset /\ address c block offset + n <= size /\
  address c block offset / block_size cfg = block /\ getTotalSize c <= size.
Proof.
  intros E Hb Hs Hk Ho Hn Hin. unfold initLFSConfig in E. destruct (Z.eqb_spec (block_size cfg) 0); [lia|].
  assert (block_size c = block_size cfg /\ block_count c = u32 (size / block_size cfg)) as [Eb Ec].
  { destruct (lfs_mount l _) as [r l1]. destruct (negb (r =? LFS_ERR_OK)).
    - destruct (lfs_format l1 _) as [r2 l2]. destruct (lfs_mount l2 _) as [r3 l3]. by injection E as <- <- <-.
    - by injection E as <- <- <-. }
  assert (0 <= size / block_size cfg <= size) as Hq by (split; [apply Z.div_pos; lia|apply Z.div_le_upper_bound; nia]).
  rewrite Ec, u32_small in Hk by lia. assert (block_size cfg * (size / block_size cfg) <= size) as Hle by (apply Z.mul_div_le; lia).
  assert (block * block_size cfg + block_size cfg <= size) as Hend by nia.
  unfold address, getTotalSize. rewrite Eb, Ec, (u32_small (size / _)) by lia.
  rewrite (u32_small (_ + _)), (u32_small (_ * (_ / _))) by nia. split; [done|]. split; [lia|]. split; [|lia].
  rewrite Z.div_add_l by lia. rewrite Z.div_small by lia. lia.
Qed.

Lemma littlefs_on_device_witness :
  address (mkConfig 64 64 4096 64 64 100 16) 3 64 = 12352 /\ 12352 + 64 <= 65536 /\ 12352 / 4096 = 3 /\ getTotalSize (mkConfig 64 64 4096 64 64 100 16) <= 65536.
Proof.
  exact (littlefs_on_device (H := ram_lfs false) 65536 (mkConfig 64 64 4096 64 64 100 0) demo_ram 0 (mkConfig 64 64 4096 64 64 100 16) demo_ram 3 64 64
    ltac:(vm_compute; reflexivity) ltac:(reflexivity) ltac:(lia) ltac:(vm_compute; split; [discriminate|reflexivity]) ltac:(lia) ltac:(lia) ltac:(vm_compute; discriminate)).
Defined.

End LittleFs.
