(* ===== verification/FsImpl.v ===== *)
(** * The file system of the device
    ([src/interface/pdi/impl/modules/storage/FileSystemInterfaceImpl.cpp])

    What [FileSystemInterfaceImpl] adds to the LittleFS wrapper: the working directory, the
    normal form of paths, names and their limits, what is known of a file; and the
    wrapper as an implementation of the file system interface, so that what is proved of
    the interface holds of it. *)

From stdpp Require Import base option list numbers gmap.
From Stdlib Require Import ZArith Lia.
From S2P Require Import Prelude StrOps FileSys TmpFs LittleFs.

Open Scope Z_scope.

Module FsImpl.
Import LittleFs.

(** ** Paths *)

Definition FILE_SEPARATOR : Z := 47.

(** The dots after a separator, 0 when another character follows before the next one. *)
Fixpoint dot_count (rest : list Z) (n : Z) : Z :=
  match rest with
  | [] => n
  | c :: rest => if c =? 46 then dot_count rest (n + 1) else if c =? FILE_SEPARATOR then n else 0
  end.

(** Back to after the last separator. *)
Fixpoint up_loop (newpath : list Z) (j : nat) : option nat :=
  match j with
  | O => Some O
  | S k => c <- mget newpath (Z.of_nat k);; if c =? FILE_SEPARATOR then Some j else up_loop newpath k
  end.

(** The loop over the path: what is left of it, the new path and its length. *)
Fixpoint notation_loop (fuel : nat) (rest newpath : list Z) (j : Z) : option (list Z * Z) :=
  match fuel with
  | O => None
  | S fuel =>
      match rest with
      | [] => Some (newpath, j)
      | c :: rest =>
          if c =? FILE_SEPARATOR then
            let dotcount := dot_count rest 0 in
            if dotcount =? 1 then notation_loop fuel (drop 1 rest) newpath j
            else if dotcount =? 2 then
              k <- up_loop newpath (Z.to_nat j);;
              notation_loop fuel (drop 2 rest) newpath (if Z.of_nat k >? 0 then Z.of_nat k - 1 else Z.of_nat k)
            else
              sep <- (if j =? 0 then Some true else last <- mget newpath (j - 1);; Some (negb (last =? FILE_SEPARATOR)));;
              if sep : bool then
                newpath <- mset newpath j FILE_SEPARATOR;; notation_loop fuel rest newpath (j + 1)
              else notation_loop fuel rest newpath j
          else newpath <- mset newpath j c;; notation_loop fuel rest newpath (j + 1)
      end
  end.

(** The separator at the end is dropped, and a path that became empty is the root. *)
Definition finish (newpath : list Z) (j : Z) : option (list Z) :=
  last <- (if j >? 1 then mget newpath (j - 1) else Some 0);;
  let j := if (j >? 1) && (last =? FILE_SEPARATOR) then j - 1 else j in
  newpath <- mset newpath j 0;;
  newpath <- (if j =? 0 then newpath <- mset newpath 0 FILE_SEPARATOR;; mset newpath 1 0 else Some newpath);;
  n <- strlen newpath;; msub newpath 0 n.

Definition normal_path (p : path) : option path :=
  '(newpath, j) <- notation_loop (S (length p)) p (replicate (S (length p)) 0) 0;; finish newpath j.

(** [isdir] is [__i_fs.isDirectory].  The result is the new value of [updatedpath] when it
    was updated. *)
Definition updatePathNotations (isdir : path -> bool) (p : option path) : option (option path) :=
  match p with
  | None => Some None
  | Some p => newpath <- normal_path p;; Some (if isdir newpath then Some newpath else None)
  end.

(** ** Directories of the session *)

Record dirs := mkDirs { m_pwd : path; m_lastpwd : path; m_root : path; m_home : path; m_temp : path }.

Definition initial_dirs : dirs := mkDirs [47] [47] [47] [47] [47; 116; 101; 109; 112; 47].

(** The last character, read before the string when that is empty. *)
Definition last_of (p : path) : option Z := list.last p.

Definition with_separator (p : path) : option path :=
  c <- last_of p;; Some (if negb (c =? FILE_SEPARATOR) then p ++ [FILE_SEPARATOR] else p).

(** [isdir] is the [isDirectory] of this file system. *)
Definition setPWD (isdir : path -> bool) (s : dirs) (p : path) : option (bool * dirs) :=
  if isdir p then pwd <- with_separator p;; Some (true, mkDirs pwd (m_pwd s) (m_root s) (m_home s) (m_temp s))
  else Some (false, s).

Definition setHomeDirectory (isdir : path -> bool) (s : dirs) (homedir : path) : option (bool * dirs) :=
  if isdir homedir then home <- with_separator homedir;; Some (true, mkDirs (m_pwd s) (m_lastpwd s) (m_root s) home (m_temp s))
  else Some (false, s).

Definition changeDirectory (isdir : path -> bool) (s : dirs) (p : option path) : option (bool * dirs) :=
  r <- updatePathNotations isdir p;;
  Some (match r with
        | Some pwd => (true, mkDirs pwd (m_lastpwd s) (m_root s) (m_home s) (m_temp s))
        | None => (false, s)
        end).

Definition appendFileSeparator (p : path) : option path := with_separator p.

(** ** Names *)

(** The index of the last [x]. *)
Fixpoint find_last_of (x : Z) (s : list Z) : option nat :=
  match s with
  | [] => None
  | c :: s => match find_last_of x s with Some k => Some (S k) | None => if c =? x then Some O else None end
  end.

Definition basename (p : option path) : path :=
  match p with
  | None => []
  | Some p => match find_last_of FILE_SEPARATOR p with Some k => drop (S k) p | None => p end
  end.

Definition applyFileSizeLimit (name : path) (sizelimit : Z) : path :=
  if zlen name >? sizelimit then
    let keepsize := u32 (sizelimit - 1) in
    let '(fileformat, keepsize) :=
      match find_last_of 46 name with
      | None => ([], keepsize)
      | Some k => (drop k name, u32 (keepsize - zlen (drop k name)))
      end in
    take (Z.to_nat keepsize) name ++ fileformat
  else name.

Definition mime_extensions : list path :=
  [[46; 116; 120; 116]; [46; 104; 116; 109; 108]; [46; 99; 115; 115]; [46; 106; 115]; [46; 99; 115; 118];
   [46; 106; 115; 111; 110]; [46; 120; 109; 108]; [46; 98; 105; 110]; [46; 112; 100; 102]; [46; 122; 105; 112];
   [46; 103; 122]; [46; 117; 114; 108; 101; 110; 99; 111; 100; 101; 100]; [46; 103; 105; 102]; [46; 106; 112; 101; 103];
   [46; 112; 110; 103]].

Definition MIME_TYPE_MAX : nat := 15.

(** The first type with the extension. *)
Fixpoint mime_loop (ext : path) (exts : list path) (t : nat) : nat :=
  match exts with
  | [] => MIME_TYPE_MAX
  | x :: exts => if bool_decide (x = ext) then t else mime_loop ext exts (S t)
  end.

Definition getFileMimeType (isfile : path -> bool) (p : path) : nat :=
  match find_last_of 46 p with
  | Some k => if isfile p then mime_loop (drop k p) mime_extensions 0 else MIME_TYPE_MAX
  | None => MIME_TYPE_MAX
  end.

(** ** On the wrapper *)

Section impl.
Context {L F D : Type} `{Lfs L F D}.

Definition getFileMeta (l : L) (p : path) : Z * option file_info * L :=
  let '(isf, l) := isFileExist l p in
  let '(isd, l) := (if isf : bool then (false, l) else isDirExist l p) in
  if negb isf && negb isd then (-1, None, l)
  else
    let '(isDir, l) := isDirectory l p in
    let '(size, l) := (if isDir : bool then (0, l) else getFileSize l p) in
    let perms := if isDir then FILE_PERM_DEFAULT_DIR else FILE_PERM_DEFAULT_FILE in
    (0, Some (mkInfo (if isDir then FILE_TYPE_DIR else FILE_TYPE_REG) (u64 size)
       (read_attr l p FILE_ATTR_PERMS (TmpFs.le2 perms)) (read_attr l p FILE_ATTR_UID [0; 0]) (read_attr l p FILE_ATTR_GID [0; 0])
       (read_attr l p FILE_ATTR_CTIME [0; 0; 0; 0]) (read_attr l p FILE_ATTR_MTIME [0; 0; 0; 0])), l).

Definition setFilePermissions (l : L) (p : path) (perms : Z) : Z * L := setFileAttr l p FILE_ATTR_PERMS (TmpFs.le2 perms).

Definition touch (e : env) (l : L) (p : path) : option (Z * L) :=
  let '(ex, l) := isFileExist l p in
  if negb ex then createFile e l p (Some [0]) (-1)
  else if e_now e =? 0 then Some (0, l)
  else Some (setFileAttr l p FILE_ATTR_MTIME (TmpFs.le4 (e_now e))).

Definition device_config : lfs_config := mkConfig 64 64 4096 64 64 100 0.

(** [storage] is the size of the device, [e] the clock and the session at boot. *)
Definition init (storage : Z) (e : env) (l : L) : option (Z * L) :=
  '(status, _, l) <- initLFSConfig storage (Some device_config) l;;
  Some (status, if status =? LFS_ERR_OK then snd (createDirectory e l (Some (m_temp initial_dirs))) else l).

End impl.

(** ** The normal form of a path *)

(** What stands between two separators, which may be nothing, and a name. *)
Definition part_ok (c : path) : Prop := Forall (fun x => x <> 47) c /\ no_nul c.
Definition name_ok (c : path) : Prop := c <> [] /\ part_ok c.

(** The components, each after a separator. *)
Definition flat (cs : list path) : path := concat (map (cons 47) cs).

(** What the components mean, for the directories [st] passed so far. *)
Fixpoint resolve (st cs : list path) : list path :=
  match cs with
  | [] => st
  | c :: cs =>
      if bool_decide (c = [] \/ c = [46]) then resolve st cs
      else if bool_decide (c = [46; 46]) then resolve (removelast st) cs
      else resolve (st ++ [c]) cs
  end.

(** What the code makes of them: an empty component leaves a separator at the end, and a
    [..] after it drops that separator and no directory. *)
Fixpoint walk (st : list path) (sep : bool) (cs : list path) : list path * bool :=
  match cs with
  | [] => (st, sep)
  | c :: cs =>
      if bool_decide (c = []) then walk st true cs
      else if bool_decide (c = [46]) then walk st sep cs
      else if bool_decide (c = [46; 46]) then walk (if sep then st else removelast st) false cs
      else walk (st ++ [c]) false cs
  end.

Definition render (st : list path) : path := match st with [] => [47] | _ => flat st end.

Lemma flat_snoc st c : flat (st ++ [c]) = flat st ++ 47 :: c.
Proof. unfold flat. rewrite map_app, concat_app. cbn. by rewrite app_nil_r. Qed.

Lemma loop_chars c : forall fuel rest out junk, Forall (fun x => x <> 47) c -> (length c <= length junk)%nat ->
  notation_loop (length c + fuel) (c ++ rest) (out ++ junk) (zlen out) =
    notation_loop fuel rest ((out ++ c) ++ drop (length c) junk) (zlen (out ++ c)).
Proof.
  induction c as [|x c IH]; intros fuel rest out junk Hc Hl; cbn [length Nat.add app]; [by rewrite app_nil_r|].
  apply Forall_cons_1 in Hc as [Hx Hc]. cbn [notation_loop]. unfold FILE_SEPARATOR. destruct (Z.eqb_spec x 47); [done|].
  destruct junk as [|y junk]; [cbn in Hl; lia|]. rewrite mset_app_mid. cbn [mbind option_bind].
  rewrite cons_middle, app_assoc. replace (zlen out + 1) with (zlen (out ++ [x])) by (by rewrite zlen_app).
  rewrite IH by (done || cbn in Hl; lia). cbn [drop]. by rewrite <- !app_assoc.
Qed.

(** The characters that follow a component. *)
Definition ends (next : list Z) : Prop := next = [] \/ exists r, next = 47 :: r.

Lemma ends_flat cs tl : ends tl -> ends (flat cs ++ tl).
Proof. destruct cs as [|c cs]; [done|]. intros _. right. by eexists. Qed.

Lemma dot_count_spec c next : ends next -> Forall (fun x => x <> 47) c ->
  forall n, dot_count (c ++ next) n = if bool_decide (Forall (fun x => x = 46) c) then n + zlen c else 0.
Proof.
  intros Hn. induction c as [|x c IH]; intros Hc n.
  - rewrite bool_decide_eq_true_2 by constructor. rewrite zlen_nil, Z.add_0_r. by destruct Hn as [->|[r ->]].
  - apply Forall_cons_1 in Hc as [Hx Hc]. cbn [dot_count app]. unfold FILE_SEPARATOR. destruct (Z.eqb_spec x 46) as [->|Hx'].
    + rewrite IH by done. rewrite zlen_cons. destruct (decide (Forall (fun x => x = 46) c)) as [Hd|Hd].
      * rewrite !bool_decide_eq_true_2 by (by try constructor). lia.
      * rewrite !bool_decide_eq_false_2; [done|by intros [_ ?]%Forall_cons_1|done].
    + destruct (Z.eqb_spec x 47); [done|]. rewrite bool_decide_eq_false_2; [done|]. by intros [? _]%Forall_cons_1.
Qed.

Lemma dots_two c : Forall (fun x => x = 46) c -> (zlen c = 1 <-> c = [46]) /\ (zlen c = 2 <-> c = [46; 46]).
Proof.
  intros Hc. destruct c as [|x [|y [|z c]]]; (split; split; intros E); try (by injection E || done); try done.
  all: repeat (apply Forall_cons_1 in Hc as [-> Hc]); try done.
  all: rewrite !zlen_cons in E; pose proof (zlen_nonneg c); lia.
Qed.

Lemma dot_count_name c next : part_ok c -> ends next ->
  (dot_count (c ++ next) 0 =? 1) = bool_decide (c = [46]) /\ (dot_count (c ++ next) 0 =? 2) = bool_decide (c = [46; 46]).
Proof.
  intros (Hc & _) Hn. rewrite dot_count_spec by done. case_bool_decide as Hd.
  - destruct (dots_two c Hd) as [H1 H2]. rewrite Z.add_0_l. split; apply Bool.eq_iff_eq_true; by rewrite Z.eqb_eq, bool_decide_eq_true.
  - split; symmetry; apply bool_decide_eq_false_2; intros ->; apply Hd; by repeat constructor.
Qed.

Lemma back_name d : forall out junk, Forall (fun x => x <> 47) d ->
  up_loop (out ++ 47 :: d ++ junk) (length out + 1 + length d) = Some (length out + 1)%nat.
Proof.
  induction d as [|x d IH] using rev_ind; intros out junk Hd.
  - cbn [length]. rewrite Nat.add_0_r, Nat.add_1_r. cbn [up_loop]. by rewrite (mget_app_mid out).
  - apply Forall_app in Hd as [Hd Hx]. apply Forall_cons_1 in Hx as [Hx _]. rewrite length_app. cbn [length].
    replace (length out + 1 + (length d + 1))%nat with (S (length out + 1 + length d)) by lia. cbn [up_loop].
    rewrite <- app_assoc. cbn [app]. assert (out ++ 47 :: d ++ x :: junk = (out ++ 47 :: d) ++ x :: junk) as E by (by rewrite <- app_assoc).
    replace (Z.of_nat (length out + 1 + length d)) with (zlen (out ++ 47 :: d)) by (unfold zlen; rewrite length_app; cbn; lia).
    rewrite E, mget_app_mid. cbn [mbind option_bind]. unfold FILE_SEPARATOR. destruct (Z.eqb_spec x 47); [done|]. rewrite <- E. by apply IH.
Qed.

(** The last character of the directories passed is not a separator. *)
Lemma last_not_sep st junk : Forall name_ok st -> st <> [] ->
  exists x, mget (flat st ++ junk) (zlen (flat st) - 1) = Some x /\ x <> 47 /\ 0 < zlen (flat st).
Proof.
  intros Hst Hne. destruct (exists_last Hne) as (st0 & c & ->). apply Forall_app in Hst as [_ Hc]. apply Forall_cons_1 in Hc as [(Hc & Hs & _) _].
  destruct (exists_last Hc) as (c0 & x & ->). apply Forall_app in Hs as [_ Hx]. apply Forall_cons_1 in Hx as [Hx _].
  exists x. rewrite flat_snoc. assert (flat st0 ++ 47 :: c0 ++ [x] = (flat st0 ++ 47 :: c0) ++ [x]) as -> by (by rewrite <- app_assoc).
  rewrite zlen_app, <- app_assoc. change (zlen [x]) with 1. pose proof (zlen_nonneg (flat st0 ++ 47 :: c0)). split; [|split; [done|lia]].
  replace (zlen (flat st0 ++ 47 :: c0) + 1 - 1) with (zlen (flat st0 ++ 47 :: c0)) by lia. apply mget_app_mid.
Qed.

(** A separator that is kept. *)
Lemma loop_sep fuel rest st junk : Forall name_ok st -> (dot_count rest 0 =? 1) = false -> (dot_count rest 0 =? 2) = false -> junk <> [] ->
  notation_loop (S fuel) (47 :: rest) (flat st ++ junk) (zlen (flat st)) =
    notation_loop fuel rest ((flat st ++ [47]) ++ drop 1 junk) (zlen (flat st ++ [47])).
Proof.
  intros Hst H1 H2 Hj. cbn [notation_loop]. change (47 =? FILE_SEPARATOR) with true. cbv iota zeta. rewrite H1, H2.
  destruct junk as [|y junk]; [done|].
  assert ((if zlen (flat st) =? 0 then Some true else last <- mget (flat st ++ y :: junk) (zlen (flat st) - 1);; Some (negb (last =? FILE_SEPARATOR))) = Some true) as ->.
  { destruct (decide (st = [])) as [->|Hne]; [done|]. destruct (last_not_sep st (y :: junk) Hst Hne) as (x & -> & Hx & Hpos).
    destruct (Z.eqb_spec (zlen (flat st)) 0); [lia|]. cbn [mbind option_bind]. unfold FILE_SEPARATOR. by destruct (Z.eqb_spec x 47). }
  cbn [mbind option_bind]. rewrite mset_app_mid. cbn [mbind option_bind]. rewrite zlen_app. change (zlen [47]) with 1. cbn [drop].
  by rewrite <- app_assoc.
Qed.

Lemma removelast_names st : Forall name_ok st -> Forall name_ok (removelast st).
Proof.
  destruct (decide (st = [])) as [->|Hne]; [done|]. destruct (exists_last Hne) as (st0 & c & ->). rewrite removelast_last. by intros [? _]%Forall_app.
Qed.

Lemma length_flat_cons c cs : length (flat (c :: cs)) = S (length c + length (flat cs)).
Proof. unfold flat. cbn. by rewrite length_app. Qed.

(** The output so far, with or without a separator at the end. *)
Definition shape (r : list path * bool) : path := flat r.1 ++ (if r.2 then [47] else []).

(** A separator after one in the output is dropped. *)
Lemma loop_sep_again fuel rest st junk : (dot_count rest 0 =? 1) = false -> (dot_count rest 0 =? 2) = false ->
  notation_loop (S fuel) (47 :: rest) (shape (st, true) ++ junk) (zlen (shape (st, true))) = notation_loop fuel rest (shape (st, true) ++ junk) (zlen (shape (st, true))).
Proof.
  intros H1 H2. cbn [notation_loop]. change (47 =? FILE_SEPARATOR) with true. cbv iota zeta. rewrite H1, H2. unfold shape. cbn [fst snd].
  rewrite zlen_app. change (zlen [47]) with 1. pose proof (zlen_nonneg (flat st)). destruct (Z.eqb_spec (zlen (flat st) + 1) 0); [lia|].
  rewrite Z.add_simpl_r, <- app_assoc. cbn [app]. rewrite mget_app_mid. cbn [mbind option_bind]. change (47 =? FILE_SEPARATOR) with true. cbn [negb]. done.
Qed.

(** A separator before a component that is not dots. *)
Lemma loop_sep_any fuel rest st sep junk : Forall name_ok st -> (dot_count rest 0 =? 1) = false -> (dot_count rest 0 =? 2) = false -> junk <> [] ->
  exists junk', (length junk <= S (length junk'))%nat /\
    notation_loop (S fuel) (47 :: rest) (shape (st, sep) ++ junk) (zlen (shape (st, sep))) = notation_loop fuel rest (shape (st, true) ++ junk') (zlen (shape (st, true))).
Proof.
  intros Hst H1 H2 Hj. destruct sep; [exists junk; split; [lia|by apply loop_sep_again]|]. exists (drop 1 junk). split; [rewrite length_drop; lia|].
  unfold shape at 1 2. cbn [fst snd]. rewrite app_nil_r. by apply loop_sep.
Qed.

(** Up from the output. *)
Lemma up_shape st sep junk : Forall name_ok st -> exists k junk', up_loop (shape (st, sep) ++ junk) (Z.to_nat (zlen (shape (st, sep)))) = Some k /\
  (length junk <= length junk')%nat /\ shape (st, sep) ++ junk = shape (if sep then st else removelast st, false) ++ junk' /\
  (if Z.of_nat k >? 0 then Z.of_nat k - 1 else Z.of_nat k) = zlen (shape (if sep then st else removelast st, false)).
Proof.
  intros Hst. unfold shape. cbn [fst snd]. destruct sep.
  - exists (S (length (flat st))), (47 :: junk). rewrite <- app_assoc. cbn [app]. unfold zlen. rewrite length_app. cbn [length]. rewrite Nat2Z.id, Nat.add_1_r. cbn [up_loop].
    change (Z.of_nat (length (flat st))) with (zlen (flat st)). rewrite mget_app_mid. cbn [mbind option_bind]. change (47 =? FILE_SEPARATOR) with true. cbv iota.
    split; [done|]. split; [lia|]. rewrite app_nil_r. split; [done|]. destruct (Z.gtb_spec (Z.of_nat (S (length (flat st)))) 0); lia.
  - rewrite !app_nil_r. destruct (decide (st = [])) as [->|Hne]; [by exists 0%nat, junk|].
    destruct (exists_last Hne) as (st0 & d & ->). rewrite removelast_last. apply Forall_app in Hst as [_ Hd]. apply Forall_cons_1 in Hd as [(_ & Hd & _) _].
    exists (length (flat st0) + 1)%nat, (47 :: d ++ junk). rewrite flat_snoc.
    assert ((flat st0 ++ 47 :: d) ++ junk = flat st0 ++ 47 :: d ++ junk) as -> by (by rewrite <- app_assoc).
    assert (Z.to_nat (zlen (flat st0 ++ 47 :: d)) = (length (flat st0) + 1 + length d)%nat) as -> by (unfold zlen; rewrite length_app; cbn; lia).
    split; [by apply back_name|]. split; [cbn; rewrite length_app; lia|]. split; [done|]. destruct (Z.gtb_spec (Z.of_nat (length (flat st0) + 1)) 0); unfold zlen; lia.
Qed.

(** The loop takes the components one by one. *)
Lemma loop_walk : forall cs fuel st sep junk, Forall part_ok cs -> Forall name_ok st ->
  (length (flat cs) < fuel)%nat -> (length (flat cs) < length junk)%nat ->
  exists junk', junk' <> [] /\ Forall name_ok (walk st sep cs).1 /\
    notation_loop fuel (flat cs) (shape (st, sep) ++ junk) (zlen (shape (st, sep))) =
      Some (shape (walk st sep cs) ++ junk', zlen (shape (walk st sep cs))).
Proof.
  induction cs as [|c cs IH]; intros fuel st sep junk Hcs Hst Hf Hj.
  { destruct fuel as [|fuel]; [lia|]. exists junk. split; [by intros ->; cbn in Hj; lia|]. done. }
  apply Forall_cons_1 in Hcs as [Hc Hcs]. pose proof Hc as (Hsep & _). assert (ends (flat cs)) as Hends by (rewrite <- (app_nil_r (flat cs)); apply ends_flat; by left).
  destruct (dot_count_name c (flat cs) Hc Hends) as [E1 E2]. rewrite length_flat_cons in Hf, Hj.
  change (flat (c :: cs)) with (47 :: c ++ flat cs). cbn [walk]. destruct fuel as [|fuel]; [lia|].
  destruct (decide (c = [46])) as [->|Ec1].
  { rewrite (bool_decide_eq_false_2 ([46] = [])), (bool_decide_eq_true_2 ([46] = [46])) by done. rewrite bool_decide_eq_true_2 in E1 by done.
    cbn [notation_loop]. change (47 =? FILE_SEPARATOR) with true. cbv iota zeta. rewrite E1. cbn [app drop]. apply IH; try done; cbn in *; lia. }
  destruct (decide (c = [46; 46])) as [->|Ec2].
  { rewrite (bool_decide_eq_false_2 ([46; 46] = [])), (bool_decide_eq_false_2 ([46; 46] = [46])), (bool_decide_eq_true_2 ([46; 46] = [46; 46])) by done.
    rewrite bool_decide_eq_false_2 in E1 by done. rewrite bool_decide_eq_true_2 in E2 by done.
    cbn [notation_loop]. change (47 =? FILE_SEPARATOR) with true. cbv iota zeta. rewrite E1, E2. cbn [app drop].
    destruct (up_shape st sep junk Hst) as (k & junk' & -> & Hl & -> & ->). cbn [mbind option_bind].
    apply IH; try done; [by destruct sep; [|apply removelast_names]|cbn in *; lia|cbn in *; lia]. }
  rewrite bool_decide_eq_false_2 in E1 by done. rewrite bool_decide_eq_false_2 in E2 by done.
  destruct (loop_sep_any fuel (c ++ flat cs) st sep junk Hst E1 E2) as (junk' & Hl & ->); [by intros ->; cbn in Hj; lia|].
  destruct (decide (c = [])) as [->|Hne].
  { rewrite (bool_decide_eq_true_2 ([] = [])) by done. cbn [app]. apply IH; try done; cbn in *; lia. }
  rewrite (bool_decide_eq_false_2 (c = [])), (bool_decide_eq_false_2 (c = [46])), (bool_decide_eq_false_2 (c = [46; 46])) by done.
  assert (Forall name_ok (st ++ [c])) as Hst' by (apply Forall_app; split; [done|by constructor]).
  replace fuel with (length c + (fuel - length c))%nat by lia. rewrite loop_chars by (done || lia).
  assert (shape (st, true) ++ c = shape (st ++ [c], false)) as -> by (unfold shape; cbn [fst snd]; by rewrite app_nil_r, flat_snoc, <- app_assoc).
  apply IH; try done; [lia|]. rewrite length_drop. lia.
Qed.

(** Without empty components, but for a separator at the end, that is their meaning. *)
Lemma walk_resolve cs : forall st, Forall (fun c => c <> []) (removelast cs) -> (walk st false cs).1 = resolve st cs.
Proof.
  induction cs as [|c cs IH]; intros st Hcs; [done|]. cbn [walk resolve]. destruct (decide (cs = [])) as [->|Hne].
  { cbn [walk resolve]. destruct (decide (c = [])) as [->|Hc]; [done|]. rewrite (bool_decide_eq_false_2 (c = [])) by done.
    destruct (decide (c = [46])) as [->|Hc1]; [done|]. rewrite (bool_decide_eq_false_2 (c = [46])), (bool_decide_eq_false_2 (c = [] \/ c = [46])) by tauto.
    by destruct (bool_decide (c = [46; 46])). }
  destruct cs as [|c' cs]; [done|]. change (removelast (c :: c' :: cs)) with (c :: removelast (c' :: cs)) in Hcs. apply Forall_cons_1 in Hcs as [Hc Hcs].
  rewrite (bool_decide_eq_false_2 (c = [])) by done. destruct (decide (c = [46])) as [->|Hc1]; [by apply IH|].
  rewrite (bool_decide_eq_false_2 (c = [46])), (bool_decide_eq_false_2 (c = [] \/ c = [46])) by tauto. destruct (bool_decide (c = [46; 46])); by apply IH.
Qed.

Lemma notation_loop_length fuel : forall rest m j m' j', notation_loop fuel rest m j = Some (m', j') -> length m' = length m.
Proof.
  assert (forall m j v m', mset m j v = Some m' -> length m' = length m) as Hset.
  { intros m j v m' E. unfold mset in E. destruct (_ && _); [|done]. injection E as <-. apply length_insert. }
  induction fuel as [|fuel IH]; intros [|c rest] m j m' j' E; cbn [notation_loop] in E; try done; [by injection E as <- <-|].
  destruct (c =? FILE_SEPARATOR).
  - destruct (dot_count rest 0 =? 1); [by apply IH in E|]. destruct (dot_count rest 0 =? 2).
    + destruct (up_loop m _); [|done]. by apply IH in E.
    + destruct (if j =? 0 then _ else _) as [[|]|]; cbn [mbind option_bind] in E; [|by apply IH in E|done].
      destruct (mset m j _) as [m1|] eqn:Em; [|done]. apply IH in E. rewrite E. by eapply Hset.
  - destruct (mset m j c) as [m1|] eqn:Em; [|done]. apply IH in E. rewrite E. by eapply Hset.
Qed.

Lemma flat_no_nul st : Forall name_ok st -> no_nul (flat st).
Proof.
  induction 1 as [|c st (_ & _ & Hc) _ IH]; [constructor|]. change (flat (c :: st)) with (47 :: c ++ flat st). constructor; [done|]. by apply Forall_app.
Qed.

Lemma flat_big st : Forall name_ok st -> st <> [] -> 1 < zlen (flat st).
Proof.
  intros Hst Hne. destruct st as [|c st]; [done|]. apply Forall_cons_1 in Hst as [(Hc & _) _]. unfold zlen. rewrite length_flat_cons.
  destruct c; [done|]. cbn. lia.
Qed.

Lemma string_here s r : no_nul s -> (n <- strlen (s ++ 0 :: r);; msub (s ++ 0 :: r) 0 n) = Some s.
Proof. intros Hs. rewrite strlen_app by done. apply msub_cstring. split; [done|by eexists]. Qed.

(** The string is cut at [s]. *)
Lemma cut_here s x r : no_nul s -> s <> [] ->
  (m <- mset (s ++ x :: r) (zlen s) 0;;
   m <- (if zlen s =? 0 then m <- mset m 0 FILE_SEPARATOR;; mset m 1 0 else Some m);;
   n <- strlen m;; msub m 0 n) = Some s.
Proof.
  intros Hs Hne. rewrite mset_app_mid. cbn [mbind option_bind]. destruct (Z.eqb_spec (zlen s) 0); [by destruct s|]. cbn [mbind option_bind].
  by apply string_here.
Qed.

Lemma finish_spec st tl junk : Forall name_ok st -> tl = [] \/ tl = [47] -> junk <> [] -> (1 < length ((flat st ++ tl) ++ junk))%nat ->
  finish ((flat st ++ tl) ++ junk) (zlen (flat st ++ tl)) = Some (render st).
Proof.
  intros Hst Htl Hj Hlen. destruct junk as [|y junk]; [done|]. unfold finish. destruct (decide (st = [])) as [->|Hne].
  { assert (forall r, (n <- strlen (47 :: 0 :: r);; msub (47 :: 0 :: r) 0 n) = Some [47]) as Hroot.
    { intros r. apply (string_here [47]). by repeat constructor. }
    change (flat []) with (@nil Z). destruct Htl as [->| ->]; cbn [app].
    - destruct junk as [|z junk]; [cbn in Hlen; lia|]. change (zlen []) with 0. change (0 >? 1) with false. cbn [andb mbind option_bind].
      rewrite mset_0. cbn [mbind option_bind]. change (0 =? 0) with true. cbv iota. rewrite mset_0. cbn [mbind option_bind].
      rewrite mset_1. apply Hroot.
    - change (zlen [47]) with 1. change (1 >? 1) with false. cbn [andb mbind option_bind]. rewrite mset_1. apply Hroot. }
  pose proof (flat_no_nul st Hst) as Hn. pose proof (flat_big st Hst Hne) as Hb. assert (flat st <> []) as Hf by (by intros E; rewrite E in Hb).
  assert (render st = flat st) as -> by (by destruct st). destruct Htl as [->| ->].
  - rewrite app_nil_r. destruct (last_not_sep st (y :: junk) Hst Hne) as (x & -> & Hx & _).
    destruct (Z.gtb_spec (zlen (flat st)) 1); [|lia]. cbn [mbind option_bind andb]. assert ((x =? FILE_SEPARATOR) = false) as -> by (by apply Z.eqb_neq).
    by apply cut_here.
  - rewrite zlen_app. change (zlen [47]) with 1. destruct (Z.gtb_spec (zlen (flat st) + 1) 1); [|lia].
    rewrite Z.add_simpl_r, <- app_assoc. cbn [app]. rewrite mget_app_mid. cbn [mbind option_bind andb Z.eqb].
    change (47 =? FILE_SEPARATOR) with true. cbv iota. by apply cut_here.
Qed.

Lemma normal_path_spec cs : Forall part_ok cs -> cs <> [] -> normal_path (flat cs) = Some (render (walk [] false cs).1).
Proof.
  intros Hcs Hne. unfold normal_path. set (n := length (flat cs)).
  destruct (loop_walk cs (S n) [] false (replicate (S n) 0) Hcs ltac:(constructor) ltac:(lia) ltac:(rewrite length_replicate; lia)) as (junk & Hj & Hr & E).
  change (shape ([], false) ++ replicate (S n) 0) with (replicate (S n) 0) in E. change (zlen (shape ([], false))) with 0 in E. rewrite E. cbn [mbind option_bind].
  apply notation_loop_length in E. rewrite length_replicate in E. destruct (walk [] false cs) as [st sep]. unfold shape in *. cbn [fst snd] in *.
  apply finish_spec; [done|destruct sep; auto|done|]. rewrite E. unfold n. destruct cs as [|c cs]; [done|]. rewrite length_flat_cons. lia.
Qed.

(** ** The interface *)

Section interface.
Context {L F D : Type} `{Lfs L F D}.

(** The size of the device, the clock and the session at boot, and a bound for the entries
    and the depth of directories.  A null path is undefined but for [createDirectory]. *)
Variables (storage : Z) (boot : env) (entries : nat).

Definition littlefs_fs : iFileSystem L := {|
  fs_init := init storage boot;
  fs_createFile e l p c n := q <- p;; createFile e l q c n;
  fs_editFile e l p o c n := q <- p;; editFile e l q o c n;
  fs_writeFile e l p c n append := q <- p;; writeFile e l q c n append;
  fs_readFile X l p n cb o t x := q <- p;; '(rc, _, _, x) <- readFile l q n cb o t x;; Some (rc, x);
  fs_getOffsetFromLineNumber l p n := q <- p;; '(o, _) <- getOffsetFromLineNumber l q n;; Some o;
  fs_getLineNumberFromOffset l p o := q <- p;; '(n, _) <- getLineNumberFromOffset l q o;; Some n;
  fs_findInFile l p t m n o := q <- p;; '(rc, ids, _) <- findInFile l q t true m n o;; Some (rc, ids);
  fs_getLineNumbersInFile l p m n := q <- p;; '(rc, ids, _) <- getLineNumbersInFile l q m n;; Some (rc, ids);
  fs_readLineInFile l p n t := q <- p;; '(rc, line, _) <- readLineInFile l q n t;; Some (rc, line);
  fs_createDirectory e l p := Some (createDirectory e l p);
  fs_deleteDirectory _ l p := q <- p;; deleteDirectory entries l q;
  fs_rename _ l p q := p <- p;; q <- q;; Some (rename l p q);
  fs_copyFile e l p q := p <- p;; q <- q;; copyFile e (read_size device_config) l p q;
  fs_moveFile _ l p q := p <- p;; q <- q;; Some (moveFile l p q);
  fs_deleteFile _ l p := q <- p;; Some (deleteFile l q);
  fs_getFileSize l p := q <- p;; Some (fst (getFileSize l q));
  fs_getDirFileList l p items := q <- p;; '(rc, items, _) <- getDirFileList entries l q items None;; Some (rc, items);
  fs_isFileExist l p := q <- p;; Some (fst (isFileExist l q));
  fs_isDirExist l p := q <- p;; Some (fst (isDirExist l q));
  fs_isDirectory l p := q <- p;; Some (fst (isDirectory l q));
  fs_setFileAttr _ l p t v n := q <- p;; data <- bytes_at v n;; Some (setFileAttr l q t data);
  fs_getFileAttr l p t v n := q <- p;; b <- v;; data <- msub b 0 n;;
    let '(rc, out) := getFileAttr l q t data in Some (rc, Some (out ++ drop (Z.to_nat n) b));
  fs_removeFileAttr _ l p t := q <- p;; Some (removeFileAttr l q t);
  fs_getFileMeta l p := q <- p;; let '(rc, info, _) := getFileMeta l q in Some (rc, info);
  fs_setFilePermissions _ l p m := q <- p;; Some (setFilePermissions l q m);
  fs_setFileOwner _ l p u g := q <- p;; Some (setFileOwner l q u g);
  fs_touch e l p := q <- p;; touch e l q |}.

Context {SP : LfsSpec L F D} {RM : LfsRoom L F D}.
#[local] Existing Instance littlefs_fs.

Definition lfs_file (l : L) (k : path) : option (list Z) := lfs_files l !! k.
Definition lfs_name (_ : L) (q : path) : path := lfs_norm q.

Lemma frame_same_but q l l' : same_but (lfs_norm q) (lfs_files l) (lfs_files l') -> fs_frame lfs_name lfs_file q l l'.
Proof. intros Hs. by split. Qed.

Lemma littlefs_law_readFile X l q d n cb (x : X) : lfs_ok l -> lfs_file l (lfs_name l q) = Some d -> 0 < n < 2147483648 ->
  let cs := chunks (length d) (Z.to_nat n) d in
  exists rc k, fs_readFile X l (Some q) n cb 0 None x = Some (rc, snd (deliver cb x (take k cs))) /\ (0 <= rc -> take k cs = cs).
Proof.
  intros Hok Hf Hn cs. destruct (readFile_plain l q d n cb 0 x Hok Hf Hn ltac:(lia)) as (rc & l' & Hrc & _ & E).
  exists rc, (length cs). rewrite take_ge by done. split; [|done]. cbn. by rewrite E.
Qed.

Lemma littlefs_law_writeFile e l q c append : lfs_ok l -> c <> [] -> zlen c < 2147483648 ->
  exists rc l', fs_writeFile e l (Some q) (Some c) (zlen c) append = Some (rc, l') /\ lfs_ok l' /\ fs_frame lfs_name lfs_file q l l' /\
    (0 <= rc -> lfs_file l' (lfs_name l q) = Some ((if append then default [] (lfs_file l (lfs_name l q)) else []) ++ c)).
Proof.
  intros Hok Hc _. destruct (writeFile_spec e l q c append Hok Hc) as (rc & l' & E & Hok' & Hs & Hres). exists rc, l'. cbn. rewrite E.
  split; [done|]. split; [done|]. split; [by apply frame_same_but|]. intros Hrc. destruct Hres as [[_ Hf]|?]; [done|lia].
Qed.

Lemma littlefs_law_createFile e l q : lfs_ok l -> lfs_file l (lfs_name l q) = None ->
  exists rc l', fs_createFile e l (Some q) (Some [0]) 0 = Some (rc, l') /\ lfs_ok l' /\ fs_frame lfs_name lfs_file q l l' /\
    (0 <= rc /\ lfs_file l' (lfs_name l q) = Some [] \/ rc < 0 /\ lfs_file l' (lfs_name l q) = None).
Proof.
  intros Hok Hn. destruct (createFile_spec e l q (Some [0]) 0 0 [] Hok eq_refl eq_refl) as (rc & l' & E & Hok' & Hs & Hres).
  exists rc, l'. cbn. rewrite E. split; [done|]. split; [done|]. split; [by apply frame_same_but|].
  destruct Hres as [(-> & _ & Hf)|[Hrc Hf]]; [by left|right]. split; [done|]. unfold lfs_file. by rewrite Hf by (by left).
Qed.

Lemma littlefs_law_deleteFile (e : env) l q : lfs_ok l ->
  exists rc l', fs_deleteFile e l (Some q) = Some (rc, l') /\ lfs_ok l' /\ fs_frame lfs_name lfs_file q l l' /\
    lfs_file l' (lfs_name l q) = (if rc =? 0 then None else lfs_file l (lfs_name l q)).
Proof.
  intros Hok. destruct (deleteFile_spec l q Hok) as (rc & l' & E & Hok' & Hs & Hn). exists rc, l'. cbn. rewrite E.
  split; [done|]. split; [done|]. split; [by apply frame_same_but|]. exact Hn.
Qed.

(** The wrapper keeps what the interface promises. *)
Definition littlefs_laws : FileSystemLaws L.
Proof.
  refine {| fs_ok := lfs_ok; fs_norm := lfs_name; fs_files := lfs_file; law_readFile := littlefs_law_readFile;
    law_writeFile := littlefs_law_writeFile; law_createFile := littlefs_law_createFile; law_deleteFile := littlefs_law_deleteFile |}.
  - intros l k d Hok. by apply spec_bound.
  - intros l q Hok. destruct (isFileExist_spec l q Hok) as (l' & E & _). cbn. rewrite E. cbn. f_equal. unfold lfs_file, lfs_name.
    destruct (lfs_files l !! lfs_norm q); [by rewrite bool_decide_eq_true_2|]. rewrite bool_decide_eq_false_2; [done|]. by intros [? ?].
  - intros l q d Hok Hf. destruct (isDirExist_spec l q Hok) as (r & l' & E & _ & Hr). cbn. unfold isDirectory. rewrite E. cbn.
    rewrite Hr; [done|]. unfold lfs_file, lfs_name in Hf. by rewrite Hf.
  - intros l q Hok. by eexists.
Defined.
End interface.

(** ** Theorems *)

(** C30: An absolute path, taken as its components between the separators, empty ones
    included, is brought to its normal form: a component [.] is dropped, [..] with the
    directory before it, never going above the root, repeated separators become one, a
    separator at the end is dropped, and what is left of nothing is the root.  A [..]
    after a repeated separator drops that separator instead of the directory, as [walk]
    says; without repeated separators the result is the path that the components mean.
    The new directory is set when that is a directory, and otherwise kept. *)
Theorem path_normal_form isdir cs s : Forall part_ok cs -> cs <> [] ->
  let q := render (walk [] false cs).1 in
  updatePathNotations isdir (Some (flat cs)) = Some (if isdir q then Some q else None) /\
  changeDirectory isdir s (Some (flat cs)) =
    Some (if isdir q then (true, mkDirs q (m_lastpwd s) (m_root s) (m_home s) (m_temp s)) else (false, s)) /\
  (Forall (fun c => c <> []) (removelast cs) -> q = render (resolve [] cs)).
Proof.
  intros Hcs Hne q. unfold changeDirectory, updatePathNotations. rewrite normal_path_spec by done. cbn [mbind option_bind]. fold q.
  split; [done|]. split; [by destruct (isdir q)|]. intros H. unfold q. by rewrite walk_resolve.
Qed.

(** [/a/b/.././../c/] is [/c]. *)
Lemma path_normal_form_witness :
  updatePathNotations (fun _ => true) (Some (flat [[97]; [98]; [46; 46]; [46]; [46; 46]; [99]; []])) = Some (Some [47; 99]).
Proof.
  refine (proj1 (path_normal_form (fun _ => true) [[97]; [98]; [46; 46]; [46]; [46; 46]; [99]; []] initial_dirs _ _)); [|done].
  repeat (constructor; [by repeat constructor|]). constructor.
Defined.

(** Two separators in a row make [..] drop the second of them and not the component:
    [/a//..] stays in [/a].  For an empty path the terminator is written after the end of
    the buffer, and setting the working directory or appending a separator reads the
    character before the string. *)
Theorem path_double_separator isdir s :
  isdir [47; 97] = true -> isdir [] = true ->
  updatePathNotations isdir (Some [47; 97; 47; 47; 46; 46]) = Some (Some [47; 97]) /\
  updatePathNotations isdir (Some []) = None /\ setPWD isdir s [] = None /\ appendFileSeparator [] = None.
Proof.
  intros Ha He. unfold setPWD, updatePathNotations. rewrite He.
  assert (normal_path [47; 97; 47; 47; 46; 46] = Some [47; 97]) as -> by reflexivity. cbn [mbind option_bind]. by rewrite Ha.
Qed.

Lemma path_double_separator_witness : updatePathNotations (fun _ => true) (Some [47; 97; 47; 47; 46; 46]) = Some (Some [47; 97]).
Proof. exact (proj1 (path_double_separator (fun _ => true) initial_dirs eq_refl eq_refl)). Defined.

Lemma find_last_of_spec x s k : find_last_of x s = Some k -> (k < length s)%nat.
Proof.
  revert k. induction s as [|c s IH]; intros k; cbn [find_last_of]; [done|]. destruct (find_last_of x s) as [j|].
  - intros [= <-]. specialize (IH j eq_refl). cbn. lia.
  - destruct (c =? x); [|done]. intros [= <-]. cbn. lia.
Qed.

(** A name longer than the limit is cut to one byte less than the limit and keeps its
    extension, when the extension is shorter than the limit.  An extension that is not
    makes the number of bytes to keep wrap around, and the name gets longer: the whole
    name with the extension once more. *)
Theorem name_limit name limit : 0 < limit < 4294967296 -> limit < zlen name < 2147483648 ->
  let ext := match find_last_of 46 name with Some k => drop k name | None => [] end in
  (zlen ext < limit ->
     zlen (applyFileSizeLimit name limit) = limit - 1 /\
     exists keep, keep ++ ext = applyFileSizeLimit name limit /\ keep = take (length keep) name) /\
  (limit <= zlen ext < 2147483648 -> limit <= 2147483648 -> applyFileSizeLimit name limit = name ++ ext).
Proof.
  intros Hl Hn ext. unfold applyFileSizeLimit. destruct (Z.gtb_spec (zlen name) limit); [|lia]. rewrite (u32_small (limit - 1)) by lia.
  assert (zlen ext <= zlen name) as Hx by (unfold ext, zlen; destruct (find_last_of 46 name); [rewrite length_drop; lia|cbn; lia]).
  pose proof (zlen_nonneg ext).
  assert ((let '(fileformat, keepsize) := match find_last_of 46 name with
            | Some k => (drop k name, u32 (limit - 1 - zlen (drop k name))) | None => ([], limit - 1) end in
           take (Z.to_nat keepsize) name ++ fileformat) = take (Z.to_nat (u32 (limit - 1 - zlen ext))) name ++ ext) as ->.
  { unfold ext. destruct (find_last_of 46 name); [done|]. rewrite zlen_nil, Z.sub_0_r, u32_small by lia. done. }
  split.
  - intros He. rewrite u32_small by lia. split.
    + rewrite zlen_app. unfold zlen in *. rewrite length_take. lia.
    + eexists. split; [done|]. rewrite length_take. symmetry. destruct (Nat.min_spec (Z.to_nat (limit - 1 - zlen ext)) (length name)) as [[_ ->]|[? ->]]; [done|]. by rewrite !take_ge by lia.
  - intros He Hl'. assert (u32 (limit - 1 - zlen ext) = limit - 1 - zlen ext + 4294967296) as -> by (unfold u32; rewrite <- (Z_mod_plus_full _ 1); apply Z.mod_small; lia).
    rewrite take_ge; [done|]. unfold zlen in *. lia.
Qed.

(** The name [a.xxx...] with an extension of 25 bytes gets 51 bytes long. *)
Lemma name_limit_witness : zlen (applyFileSizeLimit (97 :: 46 :: replicate 24 120) 24) = 51.
Proof.
  rewrite (proj2 (name_limit (97 :: 46 :: replicate 24 120) 24 ltac:(lia) ltac:(vm_compute; split; reflexivity)) ltac:(vm_compute; split; [discriminate|reflexivity]) ltac:(lia)).
  reflexivity.
Defined.

End FsImpl.
