(* ===== verification/Vfs.v ===== *)
(** * The mount table ([src/interface/pdi/impl/modules/storage/VfsDispatcher.cpp])

    The dispatcher that all file access goes through: mounting, the choice of the file
    system for a path, the permission checks, every routed operation and the copies
    across mounts.  The mounted file systems are states of a type [B] that implements the
    interface; a mount points into the store of them, so that one can be mounted twice.
    The session is the argument [env], and the build has the authentication service.

    The theorems: a path is served by the longest mount prefix that ends at a component
    boundary; what the checked operations demand of a session; a copy across mounts copies
    all or nothing; the operations that check nothing. *)

From stdpp Require Import base option list numbers.
From Stdlib Require Import ZArith Lia.
From S2P Require Import Prelude FileSys TmpFs LittleFs FsImpl.

Open Scope Z_scope.

Module Vfs.

Definition VFS_MAX_MOUNTS : Z := 5.
Definition VFS_MOUNT_PREFIX_MAX : Z := 15.
Definition VFS_MOUNT_NAME_MAX : Z := 11.

Definition VFS_ACCESS_R : Z := 4.
Definition VFS_ACCESS_W : Z := 2.
Definition VFS_ACCESS_X : Z := 1.

Record vfs_mount := mkMount { m_prefix : path; m_name : list Z; m_backend : nat; m_prefix_len : Z; m_vtype : Z }.

Definition s_root_path : path := [47].

Section vfs.
Context {B : Type} `{iFileSystem B}.

(** [m_mounts] up to [m_mount_count], the store of the file systems, and the depth of the
    privileged scopes. *)
Record VfsDispatcher := mkVfs { m_mounts : list vfs_mount; m_fs : list B; m_priv_depth : Z }.

Definition set_fs (fs : list B) (v : VfsDispatcher) : VfsDispatcher := mkVfs (m_mounts v) fs (m_priv_depth v).

Definition VfsDispatcher_ctor (fs : list B) : VfsDispatcher := mkVfs [] fs 0.

Definition m_mount_count (v : VfsDispatcher) : Z := zlen (m_mounts v).

Definition getMount (v : VfsDispatcher) (idx : Z) : option vfs_mount :=
  if idx <? m_mount_count v then m_mounts v !! Z.to_nat idx else None.

Definition mount (v : VfsDispatcher) (prefix : option path) (backend : option nat) (name : option (list Z)) (type : Z)
  : Z * VfsDispatcher :=
  match prefix, backend with
  | Some prefix, Some backend =>
      if m_mount_count v >=? VFS_MAX_MOUNTS then (-1, v)
      else
        let plen := u32 (zlen prefix) in
        if (plen =? 0) || (plen >? VFS_MOUNT_PREFIX_MAX) then (-1, v)
        else if existsb (fun m => bool_decide (m_prefix m = prefix)) (m_mounts v) then (-1, v)
        else
          let nm := match name with
                    | Some n => take (Z.to_nat (if u32 (zlen n) >? VFS_MOUNT_NAME_MAX then VFS_MOUNT_NAME_MAX else zlen n)) n
                    | None => []
                    end in
          (0, mkVfs (m_mounts v ++ [mkMount prefix nm backend (u8 plen) type]) (m_fs v) (m_priv_depth v))
  | _, _ => (-1, v)
  end.

(** ** Which file system serves a path *)

Definition is_root_mount (m : vfs_mount) : bool :=
  (m_prefix_len m =? 1) && bool_decide (head (m_prefix m) = Some 47).

(** [strncmp(path, m.m_prefix, plen) == 0], and then a slash or the end of the path. *)
Definition prefix_matches (m : vfs_mount) (p : path) : bool :=
  bool_decide (take (Z.to_nat (m_prefix_len m)) p = take (Z.to_nat (m_prefix_len m)) (m_prefix m)) &&
  match p !! Z.to_nat (m_prefix_len m) with None => true | Some c => c =? 47 end.

(** The loop over the mounts; [best] is the mount chosen so far, [best_len] its length. *)
Fixpoint best_loop (ms : list vfs_mount) (p : path) (best : option vfs_mount) (best_len : Z) : option vfs_mount * Z :=
  match ms with
  | [] => (best, best_len)
  | m :: ms =>
      let plen := m_prefix_len m in
      if plen =? 0 then best_loop ms p best best_len
      else if is_root_mount m then
        if best_len =? 0 then best_loop ms p (Some m) 1 else best_loop ms p best best_len
      else if negb (prefix_matches m p) then best_loop ms p best best_len
      else if plen >? best_len then best_loop ms p (Some m) plen
      else best_loop ms p best best_len
  end.

Fixpoint root_loop (ms : list vfs_mount) : option nat :=
  match ms with
  | [] => None
  | m :: ms => if is_root_mount m then Some (m_backend m) else root_loop ms
  end.

Definition rootBackend (v : VfsDispatcher) : option nat := root_loop (m_mounts v).

(** The file system and the path inside it. *)
Definition resolve (v : VfsDispatcher) (p : option path) : option nat * option path :=
  match p with
  | None => (rootBackend v, None)
  | Some p =>
      let '(best, best_len) := best_loop (m_mounts v) p None 0 in
      match best with
      | None => (None, Some p)
      | Some m =>
          let rel := if is_root_mount m then p
                     else let suffix := drop (Z.to_nat best_len) p in
                          if bool_decide (suffix = []) then s_root_path else suffix in
          (Some (m_backend m), Some rel)
      end
  end.

Definition findMountForPath (v : VfsDispatcher) (p : option path) : option vfs_mount :=
  match p with
  | None => None
  | Some p => fst (best_loop (m_mounts v) p None 0)
  end.

(** [init] of every mounted file system; the first failure is the answer. *)
Fixpoint init_loop (ms : list vfs_mount) (rc : Z) (fs : list B) : option (Z * list B) :=
  match ms with
  | [] => Some (rc, fs)
  | m :: ms =>
      b <- fs !! m_backend m;;
      '(r, b) <- fs_init b;;
      init_loop ms (if negb (r =? 0) && (rc =? 0) then r else rc) (<[m_backend m := b]> fs)
  end.

Definition init (v : VfsDispatcher) : option (Z * VfsDispatcher) :=
  '(rc, fs) <- init_loop (m_mounts v) 0 (m_fs v);; Some (rc, set_fs fs v).

(** ** Privileged scopes *)

Definition beginPrivileged (v : VfsDispatcher) : VfsDispatcher := mkVfs (m_mounts v) (m_fs v) (u8 (m_priv_depth v + 1)).
Definition endPrivileged (v : VfsDispatcher) : VfsDispatcher :=
  if m_priv_depth v >? 0 then mkVfs (m_mounts v) (m_fs v) (m_priv_depth v - 1) else v.
Definition isPrivileged (v : VfsDispatcher) : bool := m_priv_depth v >? 0.

(** ** Routing: [VFS_ROUTE_PATH] for calls that change the file system and for queries *)

Definition route (v : VfsDispatcher) (p : option path) (call : B -> option path -> option (Z * B))
  : option (Z * VfsDispatcher) :=
  let '(b, rel) := resolve v p in
  match b with
  | None => Some (-1, v)
  | Some i => b <- m_fs v !! i;; '(rc, b) <- call b rel;; Some (rc, set_fs (<[i := b]> (m_fs v)) v)
  end.

Definition query {A} (v : VfsDispatcher) (p : option path) (fail : A) (call : B -> option path -> option A) : option A :=
  let '(b, rel) := resolve v p in
  match b with
  | None => Some fail
  | Some i => b <- m_fs v !! i;; call b rel
  end.

Definition getFileMeta (v : VfsDispatcher) (p : option path) : option (Z * option file_info) :=
  query v p (-1, None) fs_getFileMeta.

(** ** Permission checks *)

Definition checkRoot (e : env) (v : VfsDispatcher) : bool := isPrivileged v || (e_uid e =? 0).

Definition checkAccess (e : env) (v : VfsDispatcher) (p : option path) (need_mask : Z) : option bool :=
  if isPrivileged v then Some true
  else if e_uid e =? 0 then Some true
  else
    '(rc, meta) <- getFileMeta v p;;
    match meta with
    | Some meta =>
        if negb (rc =? 0) then Some true
        else
          let bits := if i_uid meta =? e_uid e then Z.land (Z.shiftr (i_perms meta) 6) 7
                      else if i_gid meta =? e_gid e then Z.land (Z.shiftr (i_perms meta) 3) 7
                      else Z.land (i_perms meta) 7 in
          Some (Z.land bits need_mask =? need_mask)
    | None => Some true
    end.

Definition checkOwnerOrRoot (e : env) (v : VfsDispatcher) (p : option path) : option bool :=
  if isPrivileged v then Some true
  else if e_uid e =? 0 then Some true
  else
    '(rc, meta) <- getFileMeta v p;;
    match meta with
    | Some meta => if negb (rc =? 0) then Some true else Some (i_uid meta =? e_uid e)
    | None => Some true
    end.

(** ** The operations *)

Definition guarded {A} (check : option bool) (fail : A) (call : option A) : option A :=
  ok <- check;; if ok : bool then call else Some fail.

Definition createFile (e : env) (v : VfsDispatcher) (p : option path) (content : option (list Z)) (size : Z) :=
  route v p (fun b rel => fs_createFile e b rel content size).

Definition editFile (e : env) (v : VfsDispatcher) (p : option path) (offset : Z) (content : option (list Z)) (size : Z) :=
  guarded (checkAccess e v p VFS_ACCESS_W) (-1, v) (route v p (fun b rel => fs_editFile e b rel offset content size)).

Definition writeFile (e : env) (v : VfsDispatcher) (p : option path) (content : option (list Z)) (size : Z) (append : bool) :=
  guarded (checkAccess e v p VFS_ACCESS_W) (-1, v) (route v p (fun b rel => fs_writeFile e b rel content size append)).

Definition readFile {X} (e : env) (v : VfsDispatcher) (p : option path) (size : Z) (cb : X -> list Z -> bool * X)
    (offset : Z) (until : option (list Z)) (x : X) : option (Z * X) :=
  guarded (checkAccess e v p VFS_ACCESS_R) (-1, x) (query v p (-1, x) (fun b rel => fs_readFile X b rel size cb offset until x)).

Definition getOffsetFromLineNumber (e : env) (v : VfsDispatcher) (p : option path) (linenumber : Z) : option Z :=
  guarded (checkAccess e v p VFS_ACCESS_R) (-1) (query v p (-1) (fun b rel => fs_getOffsetFromLineNumber b rel linenumber)).

Definition getLineNumberFromOffset (e : env) (v : VfsDispatcher) (p : option path) (offset : Z) : option Z :=
  guarded (checkAccess e v p VFS_ACCESS_R) (-1) (query v p (-1) (fun b rel => fs_getLineNumberFromOffset b rel offset)).

Definition findInFile (e : env) (v : VfsDispatcher) (p : option path) (findStr : option (list Z)) (maxindices nth offset : Z)
  : option (Z * list Z) :=
  guarded (checkAccess e v p VFS_ACCESS_R) (-1, [])
    (query v p (-1, []) (fun b rel => fs_findInFile b rel findStr maxindices nth offset)).

Definition getLineNumbersInFile (e : env) (v : VfsDispatcher) (p : option path) (maxlines offset : Z) : option (Z * list Z) :=
  guarded (checkAccess e v p VFS_ACCESS_R) (-1, [])
    (query v p (-1, []) (fun b rel => fs_getLineNumbersInFile b rel maxlines offset)).

Definition readLineInFile (e : env) (v : VfsDispatcher) (p : option path) (linenumber : Z) (pattern : option (list Z))
  : option (Z * list Z) :=
  guarded (checkAccess e v p VFS_ACCESS_R) (-1, [])
    (query v p (-1, []) (fun b rel => fs_readLineInFile b rel linenumber pattern)).

Definition createDirectory (e : env) (v : VfsDispatcher) (p : option path) := route v p (fs_createDirectory e).

Definition deleteDirectory (e : env) (v : VfsDispatcher) (p : option path) :=
  guarded (checkAccess e v p VFS_ACCESS_W) (-1, v) (route v p (fs_deleteDirectory e)).

Definition deleteFile (e : env) (v : VfsDispatcher) (p : option path) :=
  guarded (checkAccess e v p VFS_ACCESS_W) (-1, v) (route v p (fs_deleteFile e)).

Definition getFileSize (v : VfsDispatcher) (p : option path) : option Z := query v p (-1) fs_getFileSize.

Definition getDirFileList (e : env) (v : VfsDispatcher) (p : option path) (items : list (path * file_info)) :=
  guarded (checkAccess e v p VFS_ACCESS_R) (-1, items)
    (query v p (-1, items) (fun b rel => fs_getDirFileList b rel items)).

Definition isFileExist (v : VfsDispatcher) (p : option path) : option bool := query v p false fs_isFileExist.
Definition isDirExist (v : VfsDispatcher) (p : option path) : option bool := query v p false fs_isDirExist.
Definition isDirectory (v : VfsDispatcher) (p : option path) : option bool := query v p false fs_isDirectory.

Definition setFileAttr (e : env) (v : VfsDispatcher) (p : option path) (type : Z) (buffer : option (list Z)) (size : Z) :=
  guarded (checkOwnerOrRoot e v p) (-1, v) (route v p (fun b rel => fs_setFileAttr e b rel type buffer size)).

Definition getFileAttr (v : VfsDispatcher) (p : option path) (type : Z) (buffer : option (list Z)) (size : Z) :=
  query v p (-1, buffer) (fun b rel => fs_getFileAttr b rel type buffer size).

Definition removeFileAttr (e : env) (v : VfsDispatcher) (p : option path) (type : Z) :=
  guarded (checkOwnerOrRoot e v p) (-1, v) (route v p (fun b rel => fs_removeFileAttr e b rel type)).

Definition setFilePermissions (e : env) (v : VfsDispatcher) (p : option path) (perms : Z) :=
  guarded (checkOwnerOrRoot e v p) (-1, v) (route v p (fun b rel => fs_setFilePermissions e b rel perms)).

Definition setFileOwner (e : env) (v : VfsDispatcher) (p : option path) (uid gid : Z) :=
  guarded (Some (checkRoot e v)) (-1, v) (route v p (fun b rel => fs_setFileOwner e b rel uid gid)).

Definition touch (e : env) (v : VfsDispatcher) (p : option path) :=
  guarded (checkAccess e v p VFS_ACCESS_W) (-1, v) (route v p (fs_touch e)).

(** ** Copies across mounts *)

(** The variables the callback of [crossCopy] captures: the destination, [first] and [ok].
    [None] once a write was undefined. *)
Abbreviation copy_state := (option (B * bool * bool)).

Definition copy_chunk (e : env) (drel : option path) (x : copy_state) (data : list Z) : bool * copy_state :=
  match x with
  | None => (false, None)
  | Some (db, first, ok) =>
      match fs_writeFile e db drel (Some data) (zlen data) (negb first) with
      | None => (false, None)
      | Some (w, db) => if w <? 0 then (false, Some (db, false, false)) else (true, Some (db, false, ok))
      end
  end.

Definition crossCopy (e : env) (sb : B) (srel : option path) (db : B) (drel : option path) : option (Z * B) :=
  sf <- fs_isFileExist sb srel;;
  sd <- (if sf : bool then fs_isDirectory sb srel else Some false);;
  if negb sf || sd then Some (-1, db)
  else
    df <- fs_isFileExist db drel;;
    dd <- (if df : bool then Some false else fs_isDirExist db drel);;
    if df || dd then Some (-1, db)
    else
      '(rc, x) <- fs_readFile copy_state sb srel 128 (copy_chunk e drel) 0 None (Some (db, true, true));;
      '(db, first, ok) <- x;;
      if (rc <? 0) || negb ok then
        '(_, db) <- fs_deleteFile e db drel;; Some (-1, db)
      else if first : bool then
        '(r, db) <- fs_createFile e db drel (Some [0]) 0;;
        if r <? 0 then Some (-1, db) else Some (0, db)
      else Some (0, db).

(** [crossCopy] between two mounts of the store. *)
Definition copy_between (e : env) (v : VfsDispatcher) (s : nat) (srel : option path) (d : nat) (drel : option path)
  : option (Z * VfsDispatcher) :=
  sb <- m_fs v !! s;; db <- m_fs v !! d;;
  '(rc, db) <- crossCopy e sb srel db drel;;
  Some (rc, set_fs (<[d := db]> (m_fs v)) v).

(** [rename] and [moveFile] differ in the call inside one mount only. *)
Definition move_with (call : B -> option path -> option path -> option (Z * B)) (e : env) (v : VfsDispatcher)
    (oldPath newPath : option path) : option (Z * VfsDispatcher) :=
  let '(ob, orel) := resolve v oldPath in
  let '(nb, nrel) := resolve v newPath in
  match ob, nb with
  | Some o, Some n =>
      if bool_decide (o = n) then
        b <- m_fs v !! o;; '(rc, b) <- call b orel nrel;; Some (rc, set_fs (<[o := b]> (m_fs v)) v)
      else
        '(rc, v) <- copy_between e v o orel n nrel;;
        if rc <? 0 then Some (-1, v)
        else b <- m_fs v !! o;; '(rc, b) <- fs_deleteFile e b orel;; Some (rc, set_fs (<[o := b]> (m_fs v)) v)
  | _, _ => Some (-1, v)
  end.

Definition rename (e : env) := move_with (fs_rename e) e.
Definition moveFile (e : env) := move_with (fs_moveFile e) e.

Definition copyFile (e : env) (v : VfsDispatcher) (sourcePath destPath : option path) : option (Z * VfsDispatcher) :=
  let '(sb, srel) := resolve v sourcePath in
  let '(db, drel) := resolve v destPath in
  match sb, db with
  | Some s, Some d =>
      if bool_decide (s = d) then
        b <- m_fs v !! s;; '(rc, b) <- fs_copyFile e b srel drel;; Some (rc, set_fs (<[s := b]> (m_fs v)) v)
      else copy_between e v s srel d drel
  | _, _ => Some (-1, v)
  end.


(** ** The mount that serves a path *)

Record mounts_ok (v : VfsDispatcher) : Prop := {
  mk_prefix : Forall (fun m => head (m_prefix m) = Some 47 /\ m_prefix_len m = zlen (m_prefix m)) (m_mounts v);
  mk_distinct : NoDup (m_prefix <$> m_mounts v) }.

(** The prefix of [m] is the root or leads to [p] and ends where a component ends. *)
Definition serves (m : vfs_mount) (p : path) : Prop :=
  m_prefix m = [47] \/ exists rest, p = m_prefix m ++ rest /\ (rest = [] \/ head rest = Some 47).

(** The longest prefix among [ms] that serves [p]. *)
Definition longest (ms : list vfs_mount) (p : path) (best : option vfs_mount) (len : Z) : Prop :=
  match best with
  | None => len = 0 /\ forall m, m ∈ ms -> ~ serves m p
  | Some m => m ∈ ms /\ serves m p /\ len = zlen (m_prefix m) /\
              forall m', m' ∈ ms -> serves m' p -> zlen (m_prefix m') <= len
  end.

Lemma is_root_mount_spec m : head (m_prefix m) = Some 47 -> m_prefix_len m = zlen (m_prefix m) ->
  is_root_mount m = true <-> m_prefix m = [47].
Proof.
  intros Hh Hl. unfold is_root_mount. rewrite andb_true_iff, Z.eqb_eq, bool_decide_eq_true, Hl. split.
  - intros [E _]. destruct (m_prefix m) as [|c [|c' q]]; [done| |rewrite !zlen_cons in E; pose proof (zlen_nonneg q); lia].
    by injection Hh as ->.
  - by intros ->.
Qed.

Lemma prefix_matches_spec m p : m_prefix_len m = zlen (m_prefix m) ->
  prefix_matches m p = true <-> exists rest, p = m_prefix m ++ rest /\ (rest = [] \/ head rest = Some 47).
Proof.
  intros Hl. unfold prefix_matches. rewrite Hl. unfold zlen. rewrite Nat2Z.id, firstn_all, andb_true_iff, bool_decide_eq_true.
  split.
  - intros [E Hnext]. exists (drop (length (m_prefix m)) p). split; [rewrite <- E at 1; by rewrite take_drop|].
    rewrite head_lookup, lookup_drop, Nat.add_0_r. destruct (p !! length (m_prefix m)) as [c|] eqn:El.
    + right. apply Z.eqb_eq in Hnext. by subst.
    + left. apply drop_ge. by apply lookup_ge_None.
  - intros (rest & -> & Hr). rewrite take_app_length. split; [done|].
    rewrite lookup_app_r, Nat.sub_diag, <- head_lookup by lia. destruct Hr as [Hr|Hr]; rewrite Hr; done.
Qed.

(** One more mount is looked at. *)
Lemma longest_snoc ms m p best len best' len' : longest ms p best len ->
  (best' = best /\ len' = len /\ (serves m p -> best <> None /\ zlen (m_prefix m) <= len) \/
   best' = Some m /\ len' = zlen (m_prefix m) /\ serves m p /\ len <= len') ->
  longest (ms ++ [m]) p best' len'.
Proof.
  intros Hb [(-> & -> & Hm)|(-> & -> & Hm & Hle)].
  - destruct best as [b|]; cbn in *.
    + destruct Hb as (Hin & Hs & Hlen & Hmax). split; [apply elem_of_app; by left|]. split; [done|]. split; [done|].
      intros m' [Hm'|E%list_elem_of_singleton]%elem_of_app Hs'; [by apply Hmax|]. rewrite E in *. by apply Hm.
    + destruct Hb as [Hlen Hnone]. split; [done|].
      intros m' [Hm'|E%list_elem_of_singleton]%elem_of_app Hs'; [by apply (Hnone m')|]. rewrite E in Hs'. by destruct (Hm Hs').
  - cbn. split; [apply elem_of_app; right; by apply list_elem_of_singleton|]. split; [done|]. split; [done|].
    intros m' [Hm'|E%list_elem_of_singleton]%elem_of_app Hs'; [|rewrite E; lia].
    destruct best as [b|]; cbn in Hb; [destruct Hb as (_ & _ & -> & Hmax); specialize (Hmax m' Hm' Hs'); lia|].
    destruct Hb as [_ Hnone]. by destruct (Hnone m' Hm').
Qed.

Lemma best_loop_longest ms p : forall seen best len,
  Forall (fun m => head (m_prefix m) = Some 47 /\ m_prefix_len m = zlen (m_prefix m)) ms ->
  longest seen p best len -> 0 <= len -> (len = 0 <-> best = None) ->
  let '(best', len') := best_loop ms p best len in longest (seen ++ ms) p best' len'.
Proof.
  induction ms as [|m ms IH]; intros seen best len Hms Hb H0 Hn; cbn [best_loop]; [by rewrite app_nil_r|].
  apply Forall_cons_1 in Hms as [[Hh Hl] Hms].
  assert (1 <= zlen (m_prefix m)) as Hpos.
  { destruct (m_prefix m); [done|]. rewrite zlen_cons. pose proof (zlen_nonneg l). lia. }
  rewrite Hl. destruct (Z.eqb_spec (zlen (m_prefix m)) 0); [lia|].
  rewrite (cons_middle m seen ms), app_assoc.
  destruct (is_root_mount m) eqn:Er.
  - apply (is_root_mount_spec m Hh Hl) in Er. assert (zlen (m_prefix m) = 1) as E1 by (by rewrite Er).
    destruct (Z.eqb_spec len 0) as [E|E].
    + apply IH; [done| |lia|split; [lia|done]]. apply (longest_snoc _ _ _ best len); [done|]. right. repeat split; [lia|by left|lia].
    + apply IH; [done| |lia|done]. apply (longest_snoc _ _ _ best len); [done|]. left. repeat split; [|lia].
      by intros ->%Hn.
  - assert (m_prefix m <> [47]) as Hnr by (intros E; apply (is_root_mount_spec m Hh Hl) in E; congruence).
    destruct (prefix_matches m p) eqn:Em; cbn [negb].
    + apply (prefix_matches_spec m p Hl) in Em. assert (serves m p) as Hs by (by right).
      destruct (Z.gtb_spec (zlen (m_prefix m)) len) as [Hgt|Hle].
      * apply IH; [done| |lia|split; [lia|done]]. apply (longest_snoc _ _ _ best len); [done|]. right. repeat split; [done|lia].
      * apply IH; [done| |lia|done]. apply (longest_snoc _ _ _ best len); [done|]. left. repeat split; [|lia].
        intros E%Hn. lia.
    + apply IH; [done| |lia|done]. apply (longest_snoc _ _ _ best len); [done|]. left. split; [done|]. split; [done|].
      intros [E|Hs]; [done|]. apply (prefix_matches_spec m p Hl) in Hs. congruence.
Qed.

(** Two prefixes of one length that serve a path are the same, unless one is the root. *)
Lemma serves_unique v m m' p : mounts_ok v -> m ∈ m_mounts v -> m' ∈ m_mounts v -> serves m p -> serves m' p ->
  zlen (m_prefix m) = zlen (m_prefix m') -> m = m'.
Proof.
  intros [Hp Hd] Hm Hm' Hs Hs' El.
  assert (m_prefix m = m_prefix m') as E.
  { rewrite Forall_forall in Hp. destruct (Hp m ltac:(by apply list_elem_of_In)) as [Hh _].
    destruct (Hp m' ltac:(by apply list_elem_of_In)) as [Hh' _].
    assert (forall x, head x = Some 47 -> zlen x = 1 -> x = [47]) as Hone.
    { intros [|c [|c' x]] Hx Hz; [done|by injection Hx as ->|]. rewrite !zlen_cons in Hz. pose proof (zlen_nonneg x). lia. }
    destruct Hs as [E|(r & E & _)], Hs' as [E'|(r' & E' & _)].
    - congruence.
    - rewrite E. symmetry. apply Hone; [done|]. by rewrite <- El, E.
    - rewrite E'. apply Hone; [done|]. by rewrite El, E'.
    - rewrite E in E'. apply app_inj_1 in E' as [-> _]; [done|]. unfold zlen in El. lia. }
  apply list_elem_of_lookup_1 in Hm as [i Hi]. apply list_elem_of_lookup_1 in Hm' as [j Hj].
  assert (i = j) as ->; [|congruence].
  apply (NoDup_lookup (m_prefix <$> m_mounts v) i j (m_prefix m)); [done| |].
  - by rewrite list_lookup_fmap, Hi.
  - rewrite list_lookup_fmap, Hj. cbn. by rewrite E.
Qed.

(** The path inside the file system: all of it under the root, what follows the prefix
    otherwise. *)
Definition inner_path (m : vfs_mount) (p rel : path) : Prop :=
  (m_prefix m = [47] /\ rel = p) \/
  (m_prefix m <> [47] /\ (p = m_prefix m /\ rel = [47] \/ p = m_prefix m ++ rel /\ head rel = Some 47)).

Lemma resolve_spec v p : mounts_ok v ->
  match resolve v (Some p) with
  | (Some b, Some rel) => exists m, m ∈ m_mounts v /\ m_backend m = b /\ serves m p /\ inner_path m p rel /\
      forall m', m' ∈ m_mounts v -> serves m' p -> m' = m \/ zlen (m_prefix m') < zlen (m_prefix m)
  | (None, rel) => rel = Some p /\ forall m, m ∈ m_mounts v -> ~ serves m p
  | (Some _, None) => False
  end.
Proof.
  intros Hv. cbn [resolve].
  assert (longest [] p None 0) as H0 by (split; [done|]; by intros m ?%not_elem_of_nil).
  pose proof (best_loop_longest (m_mounts v) p [] None 0 (mk_prefix v Hv) H0 ltac:(lia) ltac:(done)) as Hb. cbn [app] in Hb.
  destruct (best_loop (m_mounts v) p None 0) as [[m|] len].
  - destruct Hb as (Hm & Hs & -> & Hmax). exists m. split; [done|]. split; [done|]. split; [done|].
    pose proof (mk_prefix v Hv) as Hp. rewrite Forall_forall in Hp.
    destruct (Hp m ltac:(by apply list_elem_of_In)) as [Hh Hl]. split.
    + destruct (is_root_mount m) eqn:Er.
      * left. split; [|done]. by apply is_root_mount_spec.
      * right. assert (m_prefix m <> [47]) as Hnr by (intros E; apply (is_root_mount_spec m Hh Hl) in E; congruence).
        split; [done|]. destruct Hs as [?|(rest & -> & Hr)]; [done|].
        unfold zlen. rewrite Nat2Z.id, drop_app_length. case_bool_decide as E; [left|right].
        -- by rewrite E, app_nil_r.
        -- split; [done|]. by destruct Hr.
    + intros m' Hm' Hs'. specialize (Hmax m' Hm' Hs').
      destruct (decide (zlen (m_prefix m') = zlen (m_prefix m))) as [E|E]; [left|right; lia].
      by apply (serves_unique v m' m p).
  - by destruct Hb.
Qed.

(** ** Permission checks *)

(** Where the three permission bits of the session's class are. *)
Definition class_shift (e : env) (i : file_info) : Z :=
  if i_uid i =? e_uid e then 6 else if i_gid i =? e_gid e then 3 else 0.

(** The session may access [p] in the way of permission bit [k] (2 to read, 1 to write). *)
Definition may (e : env) (v : VfsDispatcher) (p : option path) (k : Z) : Prop :=
  isPrivileged v = true \/ e_uid e = 0 \/
  exists rc meta, getFileMeta v p = Some (rc, meta) /\
    (rc <> 0 \/ meta = None \/ exists i, meta = Some i /\ Z.testbit (i_perms i) (class_shift e i + k) = true).

Lemma land_pow2_testbit x k : 0 <= k -> (Z.land x (2 ^ k) =? 2 ^ k) = Z.testbit x k.
Proof.
  intros Hk. destruct (Z.testbit x k) eqn:E.
  - apply Z.eqb_eq, Z.bits_inj'. intros n Hn. rewrite Z.land_spec, Z.pow2_bits_eqb by done.
    destruct (Z.eqb_spec k n) as [<-|]; [by rewrite E|by rewrite andb_false_r].
  - apply Z.eqb_neq. intros Heq. apply (f_equal (fun y => Z.testbit y k)) in Heq.
    rewrite Z.land_spec, Z.pow2_bits_true, E in Heq by done. done.
Qed.

Lemma class_bit x s k : 0 <= s -> 0 <= k < 3 ->
  (Z.land (Z.land (Z.shiftr x s) 7) (2 ^ k) =? 2 ^ k) = Z.testbit x (s + k).
Proof.
  intros Hs Hk. rewrite land_pow2_testbit by lia. rewrite Z.land_spec, Z.shiftr_spec by lia.
  assert (Z.testbit 7 k = true) as -> by (assert (k = 0 \/ k = 1 \/ k = 2) as [->|[->| ->]] by lia; done).
  rewrite andb_true_r. f_equal. lia.
Qed.

Lemma checkAccess_spec e v p k r : 0 <= k < 3 -> checkAccess e v p (2 ^ k) = Some r -> r = true <-> may e v p k.
Proof.
  intros Hk. unfold checkAccess, may. destruct (isPrivileged v); [intros [= <-]; split; [by left|done]|].
  destruct (Z.eqb_spec (e_uid e) 0) as [E|E]; [intros [= <-]; split; [by right; left|done]|].
  destruct (getFileMeta v p) as [[rc meta]|]; [|done]. cbn [mbind option_bind].
  destruct meta as [i|].
  - destruct (Z.eqb_spec rc 0) as [->|Hrc]; cbn [negb].
    + intros [= <-].
      assert ((Z.land (if i_uid i =? e_uid e then Z.land (Z.shiftr (i_perms i) 6) 7
                       else if i_gid i =? e_gid e then Z.land (Z.shiftr (i_perms i) 3) 7
                       else Z.land (i_perms i) 7) (2 ^ k) =? 2 ^ k) = Z.testbit (i_perms i) (class_shift e i + k)) as ->.
      { unfold class_shift. destruct (i_uid i =? e_uid e); [by apply class_bit|].
        destruct (i_gid i =? e_gid e); [by apply class_bit|].
        rewrite <- (Z.shiftr_0_r (i_perms i)) at 1. by apply class_bit. }
      split.
      * intros Hb. right. right. exists 0, (Some i). split; [done|]. right. right. by exists i.
      * intros [?|[?|(rc & meta & [= <- <-] & [?|[?|(i' & [= <-] & ?)]])]]; done.
    + intros [= <-]. split; [|done]. intros _. right. right. exists rc, (Some i). split; [done|]. by left.
  - intros [= <-]. split; [|done]. intros _. right. right. exists rc, None. split; [done|]. right. by left.
Qed.

(** A call that is guarded by a permission check and did something had the permission. *)
Lemma guarded_may {A} e v p k (fail r : A) call : 0 <= k < 3 ->
  guarded (checkAccess e v p (2 ^ k)) fail call = Some r -> r <> fail -> may e v p k.
Proof.
  intros Hk. unfold guarded. destruct (checkAccess e v p (2 ^ k)) as [ok|] eqn:E; [|done]. cbn.
  intros Hc Hne. apply (checkAccess_spec e v p k ok Hk E). destruct ok; [done|]. congruence.
Qed.

(** The session owns the file, or there is no such file. *)
Definition owns (e : env) (v : VfsDispatcher) (p : option path) : Prop :=
  isPrivileged v = true \/ e_uid e = 0 \/
  exists rc meta, getFileMeta v p = Some (rc, meta) /\
    (rc <> 0 \/ meta = None \/ exists i, meta = Some i /\ i_uid i = e_uid e).

Lemma guarded_owns {A} e v p (fail r : A) call :
  guarded (checkOwnerOrRoot e v p) fail call = Some r -> r <> fail -> owns e v p.
Proof.
  unfold guarded, checkOwnerOrRoot, owns. destruct (isPrivileged v); [by left|].
  destruct (Z.eqb_spec (e_uid e) 0) as [E|E]; [by right; left|].
  destruct (getFileMeta v p) as [[rc meta]|]; [|done]. cbn [mbind option_bind]. intros Hc Hne. right. right.
  exists rc, meta. split; [done|]. destruct meta as [i|]; [|by right; left].
  destruct (Z.eqb_spec rc 0) as [->|]; [|by left]. cbn in Hc. right. right. exists i. split; [done|].
  destruct (Z.eqb_spec (i_uid i) (e_uid e)); [done|]. cbn in Hc. congruence.
Qed.

(** The calls that change files. *)
Inductive vop :=
| VCreate (p : option path) (content : option (list Z)) (size : Z)
| VEdit (p : option path) (offset : Z) (content : option (list Z)) (size : Z)
| VWrite (p : option path) (content : option (list Z)) (size : Z) (append : bool)
| VMkdir (p : option path)
| VRmdir (p : option path)
| VRm (p : option path)
| VSetAttr (p : option path) (type : Z) (buffer : option (list Z)) (size : Z)
| VRemoveAttr (p : option path) (type : Z)
| VChmod (p : option path) (perms : Z)
| VChown (p : option path) (uid gid : Z)
| VTouch (p : option path)
| VRename (a b : option path)
| VCopy (a b : option path)
| VMove (a b : option path).

Definition run_vop (e : env) (v : VfsDispatcher) (o : vop) : option (Z * VfsDispatcher) :=
  match o with
  | VCreate p c n => createFile e v p c n
  | VEdit p off c n => editFile e v p off c n
  | VWrite p c n a => writeFile e v p c n a
  | VMkdir p => createDirectory e v p
  | VRmdir p => deleteDirectory e v p
  | VRm p => deleteFile e v p
  | VSetAttr p t b n => setFileAttr e v p t b n
  | VRemoveAttr p t => removeFileAttr e v p t
  | VChmod p x => setFilePermissions e v p x
  | VChown p u g => setFileOwner e v p u g
  | VTouch p => touch e v p
  | VRename a b => rename e v a b
  | VCopy a b => copyFile e v a b
  | VMove a b => moveFile e v a b
  end.

(** What the call demands of the session: nothing for new files and directories and for
    copies and moves. *)
Definition demands (e : env) (v : VfsDispatcher) (o : vop) : Prop :=
  match o with
  | VEdit p _ _ _ | VWrite p _ _ _ | VRmdir p | VRm p | VTouch p => may e v p 1
  | VSetAttr p _ _ _ | VRemoveAttr p _ | VChmod p _ => owns e v p
  | VChown _ _ _ => isPrivileged v = true \/ e_uid e = 0
  | VCreate _ _ _ | VMkdir _ | VRename _ _ | VCopy _ _ | VMove _ _ => True
  end.

Lemma run_vop_demands e v o r : run_vop e v o = Some r -> r <> (-1, v) -> demands e v o.
Proof.
  intros Hr Hne. destruct o; cbn [run_vop demands] in *; try done;
    try (by eapply (guarded_may e v p 1)); try (by eapply guarded_owns).
  unfold setFileOwner, guarded, checkRoot in Hr. cbn in Hr. destruct (isPrivileged v); [by left|].
  destruct (Z.eqb_spec (e_uid e) 0); [by right|]. cbn in Hr. congruence.
Qed.

(** ** Copies across mounts *)

Section copy.
Context `{!FileSystemLaws B}.

(** Other files than [q] are as before, and the names too. *)
Definition same_but (q : path) (b b' : B) : Prop := fs_frame fs_norm fs_files q b b'.

Lemma same_but_trans q a b c : same_but q a b -> same_but q b c -> same_but q a c.
Proof.
  intros [Hab Nab] [Hbc Nbc]. split; [|intros r; by rewrite Nbc, Nab].
  intros k Hk. rewrite Hbc by (by rewrite Nab). by rewrite Hab.
Qed.

(** The pieces written one after the other. *)
Lemma copy_chunks e q cs : forall db first acc, fs_ok db -> Forall (fun c => c <> [] /\ zlen c < 2147483648) cs ->
  (if first : bool then acc = [] else fs_files db (fs_norm db q) = Some acc) ->
  exists n db' first' ok', deliver (copy_chunk e (Some q)) (Some (db, first, true)) cs = (n, Some (db', first', ok')) /\
    0 <= n /\ fs_ok db' /\ same_but q db db' /\
    (ok' = true -> if bool_decide (cs = []) then first' = first /\ db' = db
                  else first' = false /\ fs_files db' (fs_norm db q) = Some (acc ++ concat cs)).
Proof.
  induction cs as [|c cs IH]; intros db first acc Hok Hcs Hacc; cbn [deliver].
  { exists 0, db, first, true. split; [done|]. split; [lia|]. done. }
  apply Forall_cons_1 in Hcs as [[Hne' Hc] Hcs]. cbn [copy_chunk].
  destruct (law_writeFile e db q c (negb first) Hok Hne' Hc) as (rc & db1 & -> & Hok1 & Ho & Hf).
  destruct (Z.ltb_spec rc 0) as [Hrc|Hrc]; [|specialize (Hf Hrc)]; cycle 1.
  - pose proof Ho as [_ Hn1]. assert (fs_files db1 (fs_norm db1 q) = Some (acc ++ c)) as Hf1.
    { rewrite Hn1, Hf. destruct first; cbn [negb]; [by rewrite Hacc|]. by rewrite Hacc. }
    destruct (IH db1 false (acc ++ c) Hok1 Hcs Hf1) as (n & db' & first' & ok' & -> & Hn & Hok' & Hs & Hend).
    exists (zlen c + n), db', first', ok'. pose proof (zlen_nonneg c). split; [done|]. split; [lia|]. split; [done|].
    split; [by eapply same_but_trans|]. intros Et. specialize (Hend Et). cbn.
    destruct (decide (cs = [])) as [->|Hne].
    + destruct Hend as [-> ->]. split; [done|]. cbn. by rewrite <- Hn1, app_nil_r.
    + rewrite bool_decide_eq_false_2 in Hend by done. destruct Hend as [-> Hend]. split; [done|]. rewrite <- Hn1, Hend. by rewrite <- app_assoc.
  - exists 0, db1, false, false. split; [done|]. split; [lia|]. done.
Qed.

Lemma chunks_small fuel k (l : list Z) : (0 < k)%nat -> zlen l < 2147483648 ->
  Forall (fun c => c <> [] /\ zlen c < 2147483648) (chunks fuel k l).
Proof.
  intros Hk. revert l. induction fuel as [|fuel IH]; intros [|x l] Hl; cbn [chunks]; try constructor.
  - split; [by destruct k; [lia|]|]. unfold zlen in *. rewrite length_take. lia.
  - apply IH. unfold zlen in *. rewrite length_drop. lia.
Qed.

Lemma chunks_nil fuel k (l : list Z) : (length l <= fuel)%nat -> chunks fuel k l = [] -> l = [].
Proof. destruct fuel, l; cbn; try done; lia. Qed.

(** The file system refused the deletion that ends a copy that failed. *)
Definition undeleted (e : env) (rel : option path) (b' : B) : Prop := exists b rc, fs_deleteFile e b rel = Some (rc, b') /\ rc <> 0.

(** All of the file or nothing arrives, unless what arrived cannot be deleted. *)
Lemma crossCopy_spec e sb q db r d : fs_ok sb -> fs_ok db -> fs_files sb (fs_norm sb q) = Some d ->
  exists rc db', crossCopy e sb (Some q) db (Some r) = Some (rc, db') /\ fs_ok db' /\ same_but r db db' /\
    (rc = 0 /\ fs_files db (fs_norm db r) = None /\ fs_files db' (fs_norm db r) = Some d \/
     rc = -1 /\ (fs_files db' (fs_norm db r) = fs_files db (fs_norm db r) \/ undeleted e (Some r) db')).
Proof.
  intros Hs Hd Hf. unfold crossCopy. rewrite law_isFileExist, Hf by done. cbn [mbind option_bind].
  rewrite (law_isDirectory sb q d) by done. cbn [mbind option_bind negb orb].
  rewrite law_isFileExist by done. cbn [mbind option_bind].
  destruct (fs_files db (fs_norm db r)) as [old|] eqn:Hold.
  { exists (-1), db. rewrite Hold. split; [done|]. split; [done|]. split; [done|]. right. split; [done|by left]. }
  destruct (law_isDirExist db r Hd) as [dd ->]. cbn [mbind option_bind orb].
  destruct dd.
  { exists (-1), db. rewrite Hold. split; [done|]. split; [done|]. split; [done|]. right. split; [done|by left]. }
  destruct (law_readFile copy_state sb q d 128 (copy_chunk e (Some r)) (Some (db, true, true)) Hs Hf ltac:(lia)) as (rc0 & k & -> & Hk).
  set (cs := chunks (length d) (Z.to_nat 128) d) in *.
  assert (Forall (fun c => c <> [] /\ zlen c < 2147483648) cs) as Hcs by (apply chunks_small; [lia|by apply (law_size sb _ _ Hs Hf)]).
  destruct (copy_chunks e r (take k cs) db true [] Hd (Forall_take _ k _ Hcs) eq_refl) as (n & db1 & first & ok & -> & Hn & Hok1 & Hsame & Hend).
  cbn [mbind option_bind snd]. destruct ((rc0 <? 0) || negb ok) eqn:Eok; cycle 1.
  - apply orb_false_iff in Eok as [Hrc0%Z.ltb_ge Eok%negb_false_iff]. rewrite Hk in Hend by done. specialize (Hend Eok). case_bool_decide as Ecs.
    + destruct Hend as [-> ->]. assert (d = []) as -> by (by eapply chunks_nil; [|exact Ecs]).
      destruct (law_createFile e db r Hd Hold) as (rc & db2 & -> & Hok2 & Ho2 & [(Hrc & Hf2)|(Hrc & Hf2)]);
        cbn [mbind option_bind].
      * destruct (Z.ltb_spec rc 0); [lia|]. exists 0, db2. split; [done|]. split; [done|]. split; [done|]. by left.
      * destruct (Z.ltb_spec rc 0); [|lia]. exists (-1), db2. split; [done|]. split; [done|]. split; [done|]. right. rewrite Hf2. split; [done|by left].
    + destruct Hend as [-> Hf1]. cbn. exists 0, db1. split; [done|]. split; [done|]. split; [done|]. left.
      split; [done|]. split; [done|]. rewrite Hf1. cbn [app]. f_equal. by apply concat_chunks; [lia|].
  - destruct (law_deleteFile e db1 r Hok1) as (rc & db2 & Edel & Hok2 & Ho2 & Hf2). rewrite Edel. cbn [mbind option_bind].
    exists (-1), db2. split; [done|]. split; [done|]. split; [by eapply same_but_trans|]. right. split; [done|].
    destruct (Z.eqb_spec rc 0); [left|right; by exists db1, rc]. rewrite <- Hf2. f_equal. symmetry. apply Hsame.
Qed.

(** *** The files of all mounts *)

(** A file by the number of its file system and its name there. *)
Definition key (v : VfsDispatcher) (p : option path) : option nat * path :=
  let '(i, rel) := resolve v p in
  (i, match i ≫= fun i => m_fs v !! i, rel with Some b, Some q => fs_norm b q | _, _ => [] end).

Definition file_of (v : VfsDispatcher) (k : option nat * path) : option (list Z) :=
  i <- fst k;; b <- m_fs v !! i;; fs_files b (snd k).

Definition file_at (v : VfsDispatcher) (p : option path) : option (list Z) := file_of v (key v p).

(** The file at [p] could not be deleted. *)
Definition left_behind (e : env) (v : VfsDispatcher) (p : option path) : Prop :=
  exists i b, fst (resolve v p) = Some i /\ m_fs v !! i = Some b /\ undeleted e (snd (resolve v p)) b.

Definition vfs_ok (v : VfsDispatcher) : Prop := Forall fs_ok (m_fs v).

Lemma resolve_rel v p : exists rel, snd (resolve v (Some p)) = Some rel.
Proof. cbn. destruct (best_loop _ _ _ _) as [[m|] len]; by eauto. Qed.

Lemma resolve_set_fs v fs p : resolve (set_fs fs v) p = resolve v p.
Proof. by destruct p. Qed.

(** One file system of the store was replaced. *)
Lemma key_update v i b b' q p : m_fs v !! i = Some b -> same_but q b b' -> key (set_fs (<[i := b']> (m_fs v)) v) p = key v p.
Proof.
  intros Hi [_ Hn]. unfold key. rewrite resolve_set_fs. destruct (resolve v p) as [[j|] [r|]]; cbn; try done.
  - destruct (decide (j = i)) as [->|Hj]; [|by rewrite list_lookup_insert_ne by done].
    rewrite list_lookup_insert_eq by (by eapply lookup_lt_Some). by rewrite Hi, Hn.
  - by destruct (<[i:=b']> (m_fs v) !! j), (m_fs v !! j).
Qed.

Lemma file_of_update v i b b' q k : m_fs v !! i = Some b -> same_but q b b' -> k <> (Some i, fs_norm b q) ->
  file_of (set_fs (<[i := b']> (m_fs v)) v) k = file_of v k.
Proof.
  intros Hi [Hs _] Hk. destruct k as [[j|] k]; [|done]. unfold file_of. cbn.
  destruct (decide (j = i)) as [->|Hj]; [|by rewrite list_lookup_insert_ne by done].
  rewrite list_lookup_insert_eq by (by eapply lookup_lt_Some). rewrite Hi. cbn. apply Hs. congruence.
Qed.

Lemma file_of_new v i b b' k : m_fs v !! i = Some b ->
  file_of (set_fs (<[i := b']> (m_fs v)) v) (Some i, k) = fs_files b' k.
Proof.
  intros Hi. unfold file_of. cbn. by rewrite list_lookup_insert_eq by (by eapply lookup_lt_Some).
Qed.

Lemma vfs_ok_update v i b' : vfs_ok v -> fs_ok b' -> vfs_ok (set_fs (<[i := b']> (m_fs v)) v).
Proof. intros Hv Hb. by apply Forall_insert. Qed.

(** The key of a path on file system [i]. *)
Lemma key_at v p i b : fst (key v (Some p)) = Some i -> m_fs v !! i = Some b ->
  exists r, resolve v (Some p) = (Some i, Some r) /\ key v (Some p) = (Some i, fs_norm b r).
Proof.
  intros Hk Hi. destruct (resolve_rel v p) as [r Er]. unfold key in *. destruct (resolve v (Some p)) as [j rel]. cbn in Hk, Er. subst.
  exists r. cbn. by rewrite Hi.
Qed.

Section two_mounts.
Variables (e : env) (v : VfsDispatcher) (src dst : path) (s d : nat) (content : list Z).
Hypotheses (Hv : vfs_ok v) (Hs : fst (key v (Some src)) = Some s) (Hd : fst (key v (Some dst)) = Some d)
  (Hne : s <> d) (Hin : is_Some (m_fs v !! d)) (Hfile : file_at v (Some src) = Some content).

Lemma copy_between_spec : exists rc v',
  copy_between e v s (snd (resolve v (Some src))) d (snd (resolve v (Some dst))) = Some (rc, v') /\ vfs_ok v' /\
  (forall p, resolve v' p = resolve v p) /\ (forall p, key v' p = key v p) /\
  (forall k, k <> key v (Some dst) -> file_of v' k = file_of v k) /\
  (rc = 0 /\ file_at v (Some dst) = None /\ file_at v' (Some dst) = Some content \/
   rc = -1 /\ (file_at v' (Some dst) = file_at v (Some dst) \/ left_behind e v' (Some dst))).
Proof.
  destruct Hin as [bd Hbd]. assert (exists bs, m_fs v !! s = Some bs) as [bs Hbs].
  { unfold file_at, file_of in Hfile. rewrite Hs in Hfile. cbn in Hfile. destruct (m_fs v !! s); [by eexists|done]. }
  destruct (key_at v src s bs Hs Hbs) as (q & Eq & Kq). destruct (key_at v dst d bd Hd Hbd) as (r & Er & Kr). rewrite Eq, Er. cbn [snd].
  assert (fs_files bs (fs_norm bs q) = Some content) as Hc by (unfold file_at in Hfile; rewrite Kq in Hfile; unfold file_of in Hfile; cbn in Hfile; by rewrite Hbs in Hfile).
  assert (fs_ok bs) as Hoks by (by eapply Forall_lookup_1). assert (fs_ok bd) as Hokd by (by eapply Forall_lookup_1).
  destruct (crossCopy_spec e bs q bd r content Hoks Hokd Hc) as (rc & db' & Ec & Hok' & Hsame & Hres).
  unfold copy_between. rewrite Hbs, Hbd. cbn [mbind option_bind]. rewrite Ec. cbn [mbind option_bind].
  assert (forall p, key (set_fs (<[d := db']> (m_fs v)) v) p = key v p) as Hkey by (intros p; by eapply key_update).
  eexists _, _. split; [done|]. split; [by apply vfs_ok_update|]. split; [intros p; apply resolve_set_fs|]. split; [done|].
  split; [intros k Hk; rewrite Kr in Hk; by eapply file_of_update|]. unfold file_at. rewrite Hkey, Kr, (file_of_new v d bd) by done.
  replace (file_of v (Some d, fs_norm bd r)) with (fs_files bd (fs_norm bd r)) by (unfold file_of; cbn; by rewrite Hbd).
  destruct Hres as [?|[? [?|Hu]]]; [by left|right; split; [done|by left]|right; split; [done|right]].
  exists d, db'. rewrite resolve_set_fs, Er. split; [done|]. split; [|done]. apply list_lookup_insert_eq. by eapply lookup_lt_Some.
Qed.

Lemma copyFile_across : exists rc v', copyFile e v (Some src) (Some dst) = Some (rc, v') /\ vfs_ok v' /\
  (forall k, k <> key v (Some dst) -> file_of v' k = file_of v k) /\
  (rc = 0 /\ file_at v (Some dst) = None /\ file_at v' (Some dst) = Some content \/
   rc = -1 /\ (file_at v' (Some dst) = file_at v (Some dst) \/ left_behind e v' (Some dst))).
Proof.
  destruct copy_between_spec as (rc & v' & Ec & H1 & _ & _ & H2 & H3). exists rc, v'. split; [|done].
  unfold copyFile. unfold key in Hs, Hd. destruct (resolve v (Some src)) as [sb sr], (resolve v (Some dst)) as [db dr].
  cbn in *. subst. by rewrite bool_decide_eq_false_2.
Qed.

Lemma move_across call : exists rc v', move_with call e v (Some src) (Some dst) = Some (rc, v') /\ vfs_ok v' /\
  (forall k, k <> key v (Some dst) -> k <> key v (Some src) -> file_of v' k = file_of v k) /\
  (rc = 0 /\ file_at v (Some dst) = None /\ file_at v' (Some dst) = Some content /\ file_at v' (Some src) = None \/
   rc <> 0 /\ file_at v (Some dst) = None /\ file_at v' (Some dst) = Some content /\ file_at v' (Some src) = Some content \/
   rc = -1 /\ (file_at v' (Some dst) = file_at v (Some dst) \/ left_behind e v' (Some dst)) /\ file_at v' (Some src) = Some content).
Proof.
  destruct copy_between_spec as (rc & v' & Ec & H1 & Hres & Hkey & H2 & H3).
  assert (key v (Some src) <> key v (Some dst)) as Hk by (intros E; rewrite E in Hs; congruence).
  assert (file_at v' (Some src) = Some content) as Hsrc by (unfold file_at; by rewrite Hkey, H2).
  unfold move_with. destruct (resolve v (Some src)) as [sb sr] eqn:Esrc. destruct (resolve v (Some dst)) as [db dr] eqn:Edst. cbn [snd] in Ec.
  assert (sb = Some s /\ db = Some d) as [-> ->] by (unfold key in Hs, Hd; rewrite Esrc in Hs; by rewrite Edst in Hd).
  rewrite bool_decide_eq_false_2 by done. rewrite Ec. cbn [mbind option_bind].
  destruct H3 as [(-> & Hn & Hc)|(-> & Hc)]; cycle 1.
  { change (-1 <? 0) with true. cbv iota. exists (-1), v'. split; [done|]. split; [done|]. split; [intros k Hk' _; by apply H2|].
    right. right. done. }
  change (0 <? 0) with false. cbv iota. assert (exists bs, m_fs v' !! s = Some bs) as [bs Hbs].
  { unfold file_at, file_of in Hsrc. rewrite Hkey, Hs in Hsrc. cbn in Hsrc. destruct (m_fs v' !! s); [by eexists|done]. }
  rewrite Hbs. cbn [mbind option_bind]. destruct (key_at v' src s bs) as (q & Eq & Kq); [by rewrite Hkey|done|].
  rewrite Hres, Esrc in Eq. injection Eq as ->. assert (fs_ok bs) as Hoks by (by eapply Forall_lookup_1).
  destruct (law_deleteFile e bs q Hoks) as (rc & b' & Edel & Hok' & Hfr & Hf'). rewrite Edel. cbn [mbind option_bind].
  assert (fs_files bs (fs_norm bs q) = Some content) as Hbc by (unfold file_at in Hsrc; rewrite Kq in Hsrc; unfold file_of in Hsrc; cbn in Hsrc; by rewrite Hbs in Hsrc).
  rewrite Hbc in Hf'. set (v2 := set_fs (<[s := b']> (m_fs v')) v'). exists rc, v2. split; [done|]. split; [by apply vfs_ok_update|].
  assert (forall p, key v2 p = key v p) as Hkey2 by (intros p; rewrite <- Hkey; by eapply key_update).
  assert (forall k, k <> key v (Some src) -> file_of v2 k = file_of v' k) as Hkeep.
  { intros k Hk'. rewrite <- Hkey, Kq in Hk'. by eapply file_of_update. }
  split; [intros k Hk1 Hk2; by rewrite Hkeep, H2|].
  assert (file_at v2 (Some dst) = Some content) as Hdst by (unfold file_at in *; rewrite Hkey2, Hkeep by congruence; by rewrite <- Hc, Hkey).
  assert (file_at v2 (Some src) = if rc =? 0 then None else Some content) as Hsrc2 by (unfold file_at; rewrite Hkey2, <- Hkey, Kq; unfold v2; by rewrite (file_of_new v' s bs)).
  destruct (Z.eqb_spec rc 0); [by left|right; by left].
Qed.
End two_mounts.
End copy.

End vfs.
Arguments VfsDispatcher : clear implicits.

(** ** Theorems *)

(** The RAM file system twice, as [/] and as [/tmp], with a file of root that nobody else
    may read. *)
Definition demo_file : TmpFs.tmpfs_node :=
  TmpFs.mkNode [101; 116; 99; 47; 115; 104] [115; 51; 99] FILE_TYPE_REG 384 0 0 0 0.

Definition demo_dir : TmpFs.tmpfs_node := TmpFs.mkNode [101; 116; 99] [] FILE_TYPE_DIR 493 0 0 0 0.

Definition demo_vfs : VfsDispatcher (list TmpFs.tmpfs_node) :=
  let v := VfsDispatcher_ctor [[demo_dir; demo_file]; []] in
  let v := snd (mount v (Some [47]) (Some 0%nat) None 4) in
  snd (mount v (Some [47; 116; 109; 112]) (Some 1%nat) None 4).

Definition demo_user : env := mkEnv 9 1000 1000 18.

(** [/etc/sh], [/tmp/c] and [/etc/old]. *)
Definition demo_secret : path := [47; 101; 116; 99; 47; 115; 104].
Definition demo_copy : path := [47; 116; 109; 112; 47; 99].
Definition demo_old : path := [47; 101; 116; 99; 47; 111; 108; 100].

#[local] Existing Instance TmpFs.tmpfs_fs.
#[local] Existing Instance TmpFs.tmpfs_laws.

(** C26: A path is served by the mount with the longest prefix that leads to it and ends at
    a component boundary, which is unique; the file system gets what follows the prefix,
    the whole path under the root mount, and a slash for the mount point itself.  Without
    such a mount nothing is called. *)
Theorem vfs_resolve_longest {B} `{iFileSystem B} (v : VfsDispatcher B) p : mounts_ok v ->
  match resolve v (Some p) with
  | (Some b, Some rel) => exists m, m ∈ m_mounts v /\ m_backend m = b /\ serves m p /\ inner_path m p rel /\
      forall m', m' ∈ m_mounts v -> serves m' p -> m' = m \/ zlen (m_prefix m') < zlen (m_prefix m)
  | (None, rel) => rel = Some p /\ forall m, m ∈ m_mounts v -> ~ serves m p
  | (Some _, None) => False
  end.
Proof. apply resolve_spec. Qed.

Lemma demo_mounts_ok : mounts_ok demo_vfs.
Proof. split; [by repeat constructor|]. apply (bool_decide_unpack _). by vm_compute. Qed.

Lemma vfs_resolve_longest_witness : exists m, m ∈ m_mounts demo_vfs /\ m_backend m = 1%nat /\ serves m demo_copy.
Proof.
  pose proof (vfs_resolve_longest demo_vfs demo_copy demo_mounts_ok) as Hr.
  change (resolve demo_vfs (Some demo_copy)) with (Some 1%nat, Some [47; 99]) in Hr. cbv beta iota in Hr.
  destruct Hr as (m & Hm & Hb & Hs & _). exists m. split; [exact Hm|]. split; [exact Hb|exact Hs].
Defined.

(** C27: A call other than creating, copying and moving that changes anything, or that
    returns anything but -1, was made in a privileged scope or by root, or with the right
    that the file's permission bits give to the session's class: writing for content,
    deletion and touching, ownership for attributes and permissions, root for the owner;
    files that do not exist are not protected.  A call that reads content, searches it,
    looks up lines or lists a directory, and returns anything but -1 or delivers anything,
    had the right to read. *)
Theorem vfs_access_control {B} `{iFileSystem B} {X} e (v : VfsDispatcher B) :
  (forall o r, run_vop e v o = Some r -> r <> (-1, v) -> demands e v o) /\
  (forall p size (cb : X -> list Z -> bool * X) off until x r,
     readFile e v p size cb off until x = Some r -> r <> (-1, x) -> may e v p 2) /\
  (forall p n pat r, readLineInFile e v p n pat = Some r -> r <> (-1, []) -> may e v p 2) /\
  (forall p t m n off r, findInFile e v p t m n off = Some r -> r <> (-1, []) -> may e v p 2) /\
  (forall p m off r, getLineNumbersInFile e v p m off = Some r -> r <> (-1, []) -> may e v p 2) /\
  (forall p n r, getOffsetFromLineNumber e v p n = Some r -> r <> -1 -> may e v p 2) /\
  (forall p off r, getLineNumberFromOffset e v p off = Some r -> r <> -1 -> may e v p 2) /\
  (forall p items r, getDirFileList e v p items = Some r -> r <> (-1, items) -> may e v p 2).
Proof.
  split; [intros o r; apply run_vop_demands|]. repeat split; intros p; intros; by eapply (guarded_may e v p 2).
Qed.

Lemma vfs_access_control_witness : may (mkEnv 9 0 0 18) demo_vfs (Some demo_secret) 1.
Proof.
  exact (proj1 (vfs_access_control (X := unit) (mkEnv 9 0 0 18) demo_vfs) (VRm (Some demo_secret))
    _ eq_refl ltac:(vm_compute; congruence)).
Defined.


(** LittleFS as [/] with the file [/f], and the RAM file system as [/tmp]. *)
#[local] Instance device_fs : iFileSystem LittleFs.ram :=
  FsImpl.littlefs_fs (H := LittleFs.ram_lfs false) 65536 (mkEnv 0 0 0 18) 8.
#[local] Instance device_laws : FileSystemLaws LittleFs.ram :=
  FsImpl.littlefs_laws 65536 (mkEnv 0 0 0 18) 8 (SP := LittleFs.ram_spec false) (RM := LittleFs.ram_room).

Definition device_vfs : VfsDispatcher (LittleFs.ram + list TmpFs.tmpfs_node) :=
  let flash := LittleFs.mkRam {[ [47; 102] := [104; 105] ]} [] ∅ 4096 in
  let v := VfsDispatcher_ctor [inl flash; inr []] in
  let v := snd (mount v (Some [47]) (Some 0%nat) None 4) in
  snd (mount v (Some [47; 116; 109; 112]) (Some 1%nat) None 4).

Lemma device_ok : vfs_ok device_vfs.
Proof.
  apply Forall_cons_2; [|apply Forall_cons_2; [apply TmpFs.tree_empty|constructor]]. by apply LittleFs.ram_one_ok.
Qed.


(** The bytes a reader collects. *)
Definition contents {B} `{iFileSystem B} (e : env) (v : VfsDispatcher B) (p : path) : option (Z * list Z) :=
  readFile e v (Some p) 128 (fun acc d => (true, acc ++ d)) 0 None [].

(** Copying, moving and creating check no permission: a user who may neither read nor
    write a file of root copies it and reads the copy, which belongs to that user; and
    moves it away and puts a file with other content in its place. *)
Theorem vfs_copy_and_move_unchecked : exists v1 v2 v3,
  contents demo_user demo_vfs demo_secret = Some (-1, []) /\
  writeFile demo_user demo_vfs (Some demo_secret) (Some [1]) 1 false = Some (-1, demo_vfs) /\
  copyFile demo_user demo_vfs (Some demo_secret) (Some demo_copy) = Some (0, v1) /\
  contents demo_user v1 demo_copy = Some (3, [115; 51; 99]) /\
  moveFile demo_user demo_vfs (Some demo_secret) (Some demo_old) = Some (0, v2) /\
  createFile demo_user v2 (Some demo_secret) (Some [1; 2]) 2 = Some (2, v3) /\
  contents demo_user v3 demo_secret = Some (2, [1; 2]).
Proof. do 3 eexists. repeat split; vm_compute; reflexivity. Qed.

End Vfs.
