(* ===== verification/FileStore.v ===== *)
(** * Files a service keeps its records in

    What a service relies on that keeps lines of text in files of fixed names: the class
    [FileStore] over a file system, its instance for the LittleFS wrapper, and what the
    service sees of those files through the mount table ([VfsDispatcher.cpp]) when its
    session is root or it runs in a privileged scope.  A call that changes a file may fail;
    it succeeds while the storage has [room] for it. *)

From stdpp Require Import base option list numbers gmap.
From Stdlib Require Import ZArith Lia.
From S2P Require Import Prelude StrOps FileSys TmpFs LittleFs FsImpl Vfs.

Open Scope Z_scope.

Module FileStore.

(** The callback that collects what is read: [linedata += string(data, size)]. *)
Definition collect (acc data : list Z) : bool * list Z := (true, acc ++ StrOps.string_data data).

Lemma deliver_text cs : forall acc, Forall no_nul cs -> (deliver collect acc cs).2 = acc ++ concat cs.
Proof.
  induction cs as [|c cs IH]; intros acc Hcs; cbn [deliver concat]; [by rewrite app_nil_r|]. apply Forall_cons_iff in Hcs as [Hc Hcs]. unfold collect at 1.
  rewrite StrOps.string_data_text by done. specialize (IH (acc ++ c) Hcs). destruct (deliver collect (acc ++ c) cs). cbn [snd] in *. by rewrite IH, <- app_assoc.
Qed.

Lemma chunks_text k (d : list Z) : forall n, no_nul d -> Forall no_nul (chunks n k d).
Proof.
  intros n. revert d. induction n as [|n IH]; intros d Hd; cbn [chunks]; [constructor|]. destruct d as [|x d0] eqn:E; [constructor|]. rewrite <- E in *.
  constructor; [by apply Forall_take|]. by apply IH, Forall_drop.
Qed.

(** The units of storage a call takes, next to one for every byte it writes. *)
Definition CALL_COST : Z := 10.

(** [kept]: reading stops at a text, the directories of the names exist and no name is a
    directory.  [room b n]: the storage takes [n] more units before a call may fail, so a call
    that finds its units succeeds and leaves the others. *)
Class FileStore (B : Type) `{FileSystemLaws B} (names : list path) := {
  kept : B -> Prop;
  room : B -> Z -> Prop;
  room_mono : forall b n m, room b n -> m <= n -> room b m;
  kept_getFileSize : forall b q d, fs_ok b -> kept b -> q ∈ names -> fs_files b (fs_norm b q) = Some d ->
    fs_getFileSize b (Some q) = Some (zlen d);
  kept_readLine : forall b q d o, fs_ok b -> kept b -> q ∈ names -> fs_files b (fs_norm b q) = Some d -> no_nul d -> 0 <= o <= zlen d ->
    let line := LittleFs.first_line (drop (Z.to_nat o) d) in
    fs_readFile (list Z) b (Some q) 128 collect o (Some [10]) [] = Some (zlen line, line);
  kept_append : forall e b q c, fs_ok b -> kept b -> q ∈ names -> c <> [] ->
    exists rc b', fs_writeFile e b (Some q) (Some c) (zlen c) true = Some (rc, b') /\ kept b' /\
      forall n, 0 <= n -> room b (n + (CALL_COST + zlen c)) -> room b' n /\
        (zlen (default [] (fs_files b (fs_norm b q))) + zlen c < 2147483648 -> 0 <= rc);
  kept_create : forall e b q, fs_ok b -> kept b -> q ∈ names -> fs_files b (fs_norm b q) = None ->
    exists rc b', fs_createFile e b (Some q) (Some [0]) (-1) = Some (rc, b') /\ fs_ok b' /\ kept b' /\ fs_frame fs_norm fs_files q b b' /\
      forall n, 0 <= n -> room b (n + CALL_COST) -> room b' n /\ 0 <= rc /\ fs_files b' (fs_norm b q) = Some [];
  kept_delete : forall e b q, fs_ok b -> kept b -> q ∈ names ->
    exists rc b', fs_deleteFile e b (Some q) = Some (rc, b') /\ kept b' /\
      forall n, 0 <= n -> room b (n + CALL_COST) -> room b' n /\ fs_files b' (fs_norm b q) = None;
  kept_move : forall e b q r, fs_ok b -> kept b -> q ∈ names -> r ∈ names -> fs_norm b q <> fs_norm b r ->
    exists rc b', fs_moveFile e b (Some q) (Some r) = Some (rc, b') /\ fs_ok b' /\ kept b' /\ (forall p, fs_norm b' p = fs_norm b p) /\
      (forall k, k <> fs_norm b q -> k <> fs_norm b r -> fs_files b' k = fs_files b k) /\
      forall n, 0 <= n -> room b (n + CALL_COST) -> room b' n /\
        match fs_files b (fs_norm b q) with
        | Some d => 0 <= rc /\ fs_files b' (fs_norm b r) = Some d /\ fs_files b' (fs_norm b q) = None
        | None => forall k, fs_files b' k = fs_files b k
        end;
  kept_chmod : forall e b q m, fs_ok b -> kept b -> q ∈ names ->
    exists rc b', fs_setFilePermissions e b (Some q) m = Some (rc, b') /\ fs_ok b' /\ kept b' /\
      (forall p, fs_norm b' p = fs_norm b p) /\ (forall k, fs_files b' k = fs_files b k) /\
      forall n, 0 <= n -> room b (n + CALL_COST) -> room b' n }.

(** ** LittleFS

    What the library promises about the names: the calls the wrapper makes on them leave
    the directories alone, take a unit each and one for every byte written, and succeed
    while [left] says that there are units. *)

Class LfsPlaces (L F D : Type) `{LittleFs.LfsSpec L F D} (names : list path) := {
  placed : L -> Prop;
  left : L -> Z -> Prop;
  left_mono : forall l n m, left l n -> m <= n -> left l m;
  placed_open : forall l p flags, placed l -> placed (LittleFs.lfs_file_open l p flags).2;
  placed_close : forall l f, placed l -> placed (LittleFs.lfs_file_close l f).2;
  placed_write : forall l f data, placed l -> placed (LittleFs.lfs_file_write l f data).2;
  placed_setattr : forall l p t v, placed l -> placed (LittleFs.lfs_setattr l p t v).2;
  placed_remove : forall l p, placed l -> p ∈ names -> placed (LittleFs.lfs_remove l p).2;
  left_open : forall l p flags n, left l (n + 1) -> left (LittleFs.lfs_file_open l p flags).2 n;
  left_close : forall l f n, left l (n + 1) -> left (LittleFs.lfs_file_close l f).2 n;
  left_write : forall l f data n, left l (n + 1 + zlen data) -> left (LittleFs.lfs_file_write l f data).2 n;
  left_setattr : forall l p t v n, left l (n + 1) -> left (LittleFs.lfs_setattr l p t v).2 n;
  left_remove : forall l p n, left l (n + 1) -> left (LittleFs.lfs_remove l p).2 n;
  done_append : forall l p, LittleFs.lfs_ok l -> placed l -> p ∈ names -> left l 1 ->
    0 <= (LittleFs.lfs_file_open l p (Z.lor (Z.lor LittleFs.LFS_O_WRONLY LittleFs.LFS_O_CREAT) LittleFs.LFS_O_APPEND)).1.1;
  done_new : forall l p, LittleFs.lfs_ok l -> placed l -> p ∈ names -> LittleFs.lfs_files l !! LittleFs.lfs_norm p = None -> left l 1 ->
    0 <= (LittleFs.lfs_file_open l p (Z.lor (Z.lor (Z.lor LittleFs.LFS_O_WRONLY LittleFs.LFS_O_CREAT) LittleFs.LFS_O_TRUNC) LittleFs.LFS_O_EXCL)).1.1;
  done_write : forall l f p c i data, LittleFs.writing l f p c i -> zlen (LittleFs.overwrite c i data) < 2147483648 -> left l (1 + zlen data) ->
    0 <= (LittleFs.lfs_file_write l f data).1.1;
  done_remove : forall l p, LittleFs.lfs_ok l -> placed l -> p ∈ names -> is_Some (LittleFs.lfs_files l !! LittleFs.lfs_norm p) -> left l 1 ->
    (LittleFs.lfs_remove l p).1 = 0;
  placed_rename : forall l p q, LittleFs.lfs_ok l -> placed l -> p ∈ names -> q ∈ names -> LittleFs.lfs_norm p <> LittleFs.lfs_norm q ->
    exists rc l', LittleFs.lfs_rename l p q = (rc, l') /\ LittleFs.lfs_ok l' /\ placed l' /\ (forall n, left l (n + 1) -> left l' n) /\
      match LittleFs.lfs_files l !! LittleFs.lfs_norm p with
      | Some c => rc = 0 /\ LittleFs.lfs_files l' = <[LittleFs.lfs_norm q := c]> (delete (LittleFs.lfs_norm p) (LittleFs.lfs_files l)) \/
                  rc < 0 /\ LittleFs.lfs_files l' = LittleFs.lfs_files l /\ ~ left l 1
      | None => LittleFs.lfs_files l' = LittleFs.lfs_files l
      end }.

Section littlefs.
Context {L F D : Type} `{LittleFs.LfsSpec L F D} {RM : LittleFs.LfsRoom L F D} (names : list path) {PL : LfsPlaces L F D names}.
Variables (storage : Z) (boot : env) (entries : nat).
#[local] Instance store_fs : iFileSystem L := FsImpl.littlefs_fs storage boot entries.
#[local] Instance store_laws : FileSystemLaws L := FsImpl.littlefs_laws storage boot entries.

Lemma placed_stampModify e l p : placed l -> placed (LittleFs.stampModify e l p).
Proof. intros Hp. unfold LittleFs.stampModify. destruct (e_now e =? 0); [done|by apply placed_setattr]. Qed.

Lemma placed_with_attr l p t v (k : L -> L) : placed l -> (forall l', placed l' -> placed (k l')) ->
  placed (let '(_, l) := LittleFs.lfs_setattr l p t v in k l).
Proof. intros Hp Hk. pose proof (placed_setattr l p t v Hp). destruct (LittleFs.lfs_setattr l p t v). by apply Hk. Qed.

Lemma placed_stampCreate e l p d : placed l -> placed (LittleFs.stampCreate e l p d).
Proof.
  intros Hp. unfold LittleFs.stampCreate. do 3 (apply placed_with_attr; [done|intros ? ?]). destruct (e_now e =? 0); [done|].
  by do 2 (apply placed_with_attr; [done|intros ? ?]).
Qed.

Lemma placed_isFileExist l p : placed l -> placed (LittleFs.isFileExist l p).2.
Proof.
  intros Hp. unfold LittleFs.isFileExist. pose proof (placed_open l p LittleFs.LFS_O_RDONLY Hp) as Ho.
  destruct (LittleFs.lfs_file_open l p LittleFs.LFS_O_RDONLY) as [[rc f] l']. destruct (rc <? 0); [done|by apply placed_close].
Qed.

(** The units that stamping a file takes. *)
Lemma left_with_attr l p t v (k : L -> L) m n : left l (n + m + 1) -> (forall l', left l' (n + m) -> left (k l') n) ->
  left (let '(_, l) := LittleFs.lfs_setattr l p t v in k l) n.
Proof. intros Hp Hk. pose proof (left_setattr l p t v _ Hp). destruct (LittleFs.lfs_setattr l p t v). by apply Hk. Qed.

Lemma left_stampModify e l p n : left l (n + 1) -> left (LittleFs.stampModify e l p) n.
Proof. intros Hp. unfold LittleFs.stampModify. destruct (e_now e =? 0); [apply (left_mono l (n + 1)); [done|lia]|by apply left_setattr]. Qed.

Lemma left_stampCreate e l p d n : left l (n + 5) -> left (LittleFs.stampCreate e l p d) n.
Proof.
  intros Hp. unfold LittleFs.stampCreate. apply (left_with_attr _ _ _ _ _ 4); [apply (left_mono l (n + 5)); [done|lia]|]. intros l1 H1.
  apply (left_with_attr _ _ _ _ _ 3); [apply (left_mono l1 (n + 4)); [done|lia]|]. intros l2 H2. apply (left_with_attr _ _ _ _ _ 2); [apply (left_mono l2 (n + 3)); [done|lia]|].
  intros l3 H3. destruct (e_now e =? 0); [apply (left_mono l3 (n + 2)); [done|lia]|]. apply (left_with_attr _ _ _ _ _ 1); [apply (left_mono l3 (n + 2)); [done|lia]|].
  intros l4 H4. apply (left_with_attr _ _ _ _ _ 0); [apply (left_mono l4 (n + 1)); [done|lia]|]. intros l5 H5. by rewrite Z.add_0_r in H5.
Qed.

Lemma left_isFileExist l p n : left l (n + 2) -> left (LittleFs.isFileExist l p).2 n.
Proof.
  intros Hp. unfold LittleFs.isFileExist. pose proof (left_open l p LittleFs.LFS_O_RDONLY (n + 1)) as Ho. replace (n + 1 + 1) with (n + 2) in Ho by lia. specialize (Ho Hp).
  destruct (LittleFs.lfs_file_open l p LittleFs.LFS_O_RDONLY) as [[rc f] l']. cbn [snd] in Ho. destruct (rc <? 0); [apply (left_mono l' (n + 1)); [done|lia]|by apply left_close].
Qed.

Lemma littlefs_kept_append e l q c : LittleFs.lfs_ok l -> placed l -> q ∈ names -> c <> [] ->
  exists rc l', fs_writeFile e l (Some q) (Some c) (zlen c) true = Some (rc, l') /\ placed l' /\
    forall n, 0 <= n -> left l (n + (CALL_COST + zlen c)) -> left l' n /\
      (zlen (default [] (FsImpl.lfs_file l (FsImpl.lfs_name l q))) + zlen c < 2147483648 -> 0 <= rc).
Proof.
  intros Hok Hp Hq Hc. cbn. unfold LittleFs.writeFile. destruct (Z.eqb_spec (zlen c) 0) as [E|_]; [by destruct c|].
  destruct (LittleFs.isFileExist_spec l q Hok) as (l1 & E1 & Hok1 & Ef1). pose proof (placed_isFileExist l q Hp) as Hp1. pose proof (left_isFileExist l q) as Hl1.
  rewrite E1 in Hp1, Hl1 |- *. cbn [snd] in Hp1, Hl1.
  pose proof (done_append l1 q Hok1 Hp1 Hq) as Hrc. set (fl := Z.lor (Z.lor LittleFs.LFS_O_WRONLY LittleFs.LFS_O_CREAT) LittleFs.LFS_O_APPEND) in *.
  pose proof (placed_open l1 q fl Hp1) as Hp2. pose proof (left_open l1 q fl) as Hl2.
  destruct (LittleFs.spec_open_write l1 q true Hok1) as (rc & f & l2 & E2 & Hok2 & Hres). fold fl in E2. rewrite E2 in Hrc, Hp2, Hl2 |- *. cbn [fst snd] in Hrc, Hp2, Hl2.
  assert (forall n, 0 <= n -> left l (n + (CALL_COST + zlen c)) -> left l1 (n + 8 + zlen c) /\ left l2 (n + 7 + zlen c)) as Hleft.
  { intros n Hn Hl. assert (left l1 (n + 8 + zlen c)) as H8 by (apply Hl1, (left_mono l (n + (CALL_COST + zlen c))); [done|unfold CALL_COST; lia]). split; [done|].
    apply Hl2, (left_mono l1 (n + 8 + zlen c)); [done|lia]. }
  pose proof (zlen_nonneg c). destruct Hres as [[Hneg _]|(-> & _ & Hw)].
  { destruct (Z.ltb_spec rc 0); [|lia]. eexists _, _. split; [done|]. split; [done|]. intros n Hn Hl. destruct (Hleft n Hn Hl) as [H8 H7].
    split; [apply (left_mono l2 (n + 7 + zlen c)); [done|lia]|]. intros _. apply Hrc, (left_mono l1 (n + 8 + zlen c)); [done|lia]. }
  change (0 <? 0) with false. cbv iota. unfold LittleFs.bytes_at. rewrite LittleFs.msub_all. cbn [mbind option_bind].
  pose proof (done_write l2 f q _ _ c Hw) as Hrc3. rewrite LittleFs.overwrite_end, zlen_app, Ef1 in Hrc3.
  pose proof (placed_write l2 f c Hp2) as Hp3. pose proof (left_write l2 f c) as Hl3. destruct (LittleFs.lfs_file_write l2 f c) as [[w f'] l3]. cbn [fst snd] in Hrc3, Hp3, Hl3.
  pose proof (placed_close l3 f' Hp3) as Hp4. pose proof (left_close l3 f') as Hl4. eexists _, _. split; [done|]. split.
  { destruct (w >=? 0); [|done]. destruct (bool_decide _); [by apply placed_stampModify|by apply placed_stampCreate]. }
  intros n Hn Hl. destruct (Hleft n Hn Hl) as [H8 H7]. assert (left (LittleFs.lfs_file_close l3 f').2 (n + 5)) as H5.
  { apply Hl4, Hl3, (left_mono l2 (n + 7 + zlen c)); [done|lia]. }
  split; [|intros Hb; apply Hrc3; [exact Hb|apply (left_mono l2 (n + 7 + zlen c)); [done|lia]]].
  destruct (w >=? 0); [|apply (left_mono _ (n + 5)); [done|lia]]. destruct (bool_decide _); [apply left_stampModify, (left_mono _ (n + 5)); [done|lia]|by apply left_stampCreate].
Qed.

Lemma littlefs_kept_create e l q : LittleFs.lfs_ok l -> placed l -> q ∈ names -> FsImpl.lfs_file l (FsImpl.lfs_name l q) = None ->
  exists rc l', fs_createFile e l (Some q) (Some [0]) (-1) = Some (rc, l') /\ LittleFs.lfs_ok l' /\ placed l' /\ fs_frame FsImpl.lfs_name FsImpl.lfs_file q l l' /\
    forall n, 0 <= n -> left l (n + CALL_COST) -> left l' n /\ 0 <= rc /\ FsImpl.lfs_file l' (FsImpl.lfs_name l q) = Some [].
Proof.
  intros Hok Hp Hq Hn. destruct (LittleFs.createFile_spec e l q (Some [0]) (-1) 0 [] Hok eq_refl eq_refl) as (rc & l' & E & Hok' & Hs & Hres).
  assert (placed l' /\ forall n, 0 <= n -> left l (n + CALL_COST) -> left l' n /\ 0 <= rc) as [Hp' Hleft].
  { revert E. unfold LittleFs.createFile. pose proof (done_new l q Hok Hp Hq Hn) as Hrc.
    set (fl := Z.lor (Z.lor (Z.lor LittleFs.LFS_O_WRONLY LittleFs.LFS_O_CREAT) LittleFs.LFS_O_TRUNC) LittleFs.LFS_O_EXCL) in *.
    pose proof (placed_open l q fl Hp) as Hp1. pose proof (left_open l q fl) as Hl1.
    destruct (LittleFs.spec_open_new l q Hok) as (rc1 & f & l1 & E1 & Hok1 & Hres1). fold fl in E1. rewrite E1 in Hrc, Hp1, Hl1 |- *. cbn [fst snd] in Hrc, Hp1, Hl1.
    destruct Hres1 as [[Hneg _]|(-> & _ & _ & Hw)].
    { destruct (Z.ltb_spec rc1 0); [|lia]. intros [= <- <-]. split; [done|]. intros n Hn0 Hl. split; [apply Hl1, (left_mono l (n + CALL_COST)); [done|unfold CALL_COST; lia]|].
      apply Hrc, (left_mono l (n + CALL_COST)); [done|unfold CALL_COST; lia]. }
    change (0 <? 0) with false. change (-1 =? -1) with true. change (strlen [0]) with (Some 0). cbv iota. cbn [mbind option_bind].
    pose proof (done_write l1 f q _ _ [] Hw ltac:(done)) as Hrc3. change (1 + zlen (@nil Z)) with 1 in Hrc3.
    pose proof (placed_write l1 f [] Hp1) as Hp3. pose proof (left_write l1 f []) as Hl3. change (LittleFs.bytes_at (Some [0]) (u32 0)) with (Some (@nil Z)). cbn [mbind option_bind].
    destruct (LittleFs.lfs_file_write l1 f []) as [[w f'] l3]. cbn [fst snd] in Hrc3, Hp3, Hl3. intros [= <- <-].
    pose proof (placed_close l3 f' Hp3). split; [destruct (w >=? 0); [by apply placed_stampCreate|done]|].
    intros n Hn0 Hl. assert (left l1 (n + 9)) as H9 by (apply Hl1, (left_mono l (n + CALL_COST)); [done|unfold CALL_COST; lia]).
    assert (left (LittleFs.lfs_file_close l3 f').2 (n + 5)) as H5 by (apply left_close, Hl3, (left_mono l1 (n + 9)); [done|change (zlen (@nil Z)) with 0; lia]).
    split; [|apply Hrc3, (left_mono l1 (n + 9)); [done|lia]]. destruct (w >=? 0); [by apply left_stampCreate|apply (left_mono _ (n + 5)); [done|lia]]. }
  exists rc, l'. cbn. rewrite E. split; [done|]. split; [done|]. split; [done|]. split; [by apply FsImpl.frame_same_but|]. intros n Hn0 Hl.
  destruct (Hleft n Hn0 Hl) as [Hl' Hrc]. split; [done|]. split; [done|]. destruct Hres as [(_ & _ & Hf)|[? _]]; [done|lia].
Qed.

Lemma littlefs_kept_move e l q r : LittleFs.lfs_ok l -> placed l -> q ∈ names -> r ∈ names -> FsImpl.lfs_name l q <> FsImpl.lfs_name l r ->
  exists rc l', fs_moveFile e l (Some q) (Some r) = Some (rc, l') /\ LittleFs.lfs_ok l' /\ placed l' /\ (forall p, FsImpl.lfs_name l' p = FsImpl.lfs_name l p) /\
    (forall k, k <> FsImpl.lfs_name l q -> k <> FsImpl.lfs_name l r -> FsImpl.lfs_file l' k = FsImpl.lfs_file l k) /\
    forall n, 0 <= n -> left l (n + CALL_COST) -> left l' n /\
      match FsImpl.lfs_file l (FsImpl.lfs_name l q) with
      | Some d => 0 <= rc /\ FsImpl.lfs_file l' (FsImpl.lfs_name l r) = Some d /\ FsImpl.lfs_file l' (FsImpl.lfs_name l q) = None
      | None => forall k, FsImpl.lfs_file l' k = FsImpl.lfs_file l k
      end.
Proof.
  intros Hok Hp Hq Hr Hne. destruct (placed_rename l q r Hok Hp Hq Hr Hne) as (rc & l' & E & Hok' & Hp' & Hl & Hf).
  exists rc, l'. cbn. unfold LittleFs.moveFile. rewrite E. split; [done|]. split; [done|]. split; [done|]. split; [done|].
  unfold FsImpl.lfs_file, FsImpl.lfs_name in *. split.
  { intros k Hk1 Hk2. destruct (LittleFs.lfs_files l !! LittleFs.lfs_norm q); [|by rewrite Hf]. destruct Hf as [[_ ->]|(_ & -> & _)]; [|done].
    by rewrite lookup_insert_ne, lookup_delete_ne. }
  intros n Hn Hleft. split; [apply Hl, (left_mono l (n + CALL_COST)); [done|unfold CALL_COST; lia]|].
  destruct (LittleFs.lfs_files l !! LittleFs.lfs_norm q) as [d|]; [|intros k; by rewrite Hf].
  destruct Hf as [[-> ->]|(_ & _ & Hno)]; [|destruct Hno; apply (left_mono l (n + CALL_COST)); [done|unfold CALL_COST; lia]].
  split; [done|]. by rewrite lookup_insert_eq, lookup_insert_ne, lookup_delete_eq.
Qed.

Definition littlefs_store : FileStore L names.
Proof.
  refine {| kept := placed : L -> Prop; room := left : L -> Z -> Prop; room_mono := left_mono; kept_append := littlefs_kept_append;
    kept_create := littlefs_kept_create; kept_move := littlefs_kept_move |}.
  - intros l q d Hok _ _ Hf. cbn. by destruct (LittleFs.getFileSize_spec l q d Hok Hf) as (l' & -> & _).
  - intros l q d o Hok _ _ Hf Hd Ho line. cbn. pose proof (LittleFs.spec_bound _ _ _ Hok Hf).
    destruct (LittleFs.readFile_until l q d 128 collect o [10] [] Hok Hf ltac:(lia) ltac:(lia) ltac:(done) ltac:(by repeat constructor) ltac:(done) ltac:(done)) as (l' & _ & ->).
    destruct (LittleFs.first_line_stop (drop (Z.to_nat o) d)) as [-> E]. fold line in E |- *. rewrite E, deliver_text by (apply chunks_text; rewrite <- E; by apply Forall_take, Forall_drop).
    cbn [app]. rewrite concat_chunks; [done|lia|]. rewrite <- E, length_take. lia.
  - intros e l q Hok Hp Hq. cbn. destruct (LittleFs.deleteFile_spec l q Hok) as (rc & l' & E & _ & _ & Hf). exists rc, l'. rewrite E. split; [done|].
    pose proof (placed_remove l q Hp Hq) as Hp'. pose proof (left_remove l q) as Hl. pose proof (done_remove l q Hok Hp Hq) as Hrc.
    unfold LittleFs.deleteFile in E. rewrite E in Hp', Hl, Hrc. cbn [fst snd] in Hp', Hl, Hrc. split; [done|]. intros n Hn Hleft.
    split; [apply Hl, (left_mono l (n + CALL_COST)); [done|unfold CALL_COST; lia]|]. unfold FsImpl.lfs_file, FsImpl.lfs_name. rewrite Hf.
    destruct (LittleFs.lfs_files l !! LittleFs.lfs_norm q) eqn:Eq; [|by destruct (rc =? 0)]. rewrite Hrc; [done|done|].
    apply (left_mono l (n + CALL_COST)); [done|unfold CALL_COST; lia].
  - intros e l q m Hok Hp Hq. cbn. unfold FsImpl.setFilePermissions, LittleFs.setFileAttr.
    destruct (LittleFs.spec_setattr l q FILE_ATTR_PERMS (TmpFs.le2 m) Hok) as (rc & l' & E & Hok' & Hf).
    pose proof (placed_setattr l q FILE_ATTR_PERMS (TmpFs.le2 m) Hp) as Hp'. pose proof (left_setattr l q FILE_ATTR_PERMS (TmpFs.le2 m)) as Hl. rewrite E in Hp', Hl.
    exists rc, l'. rewrite E. split; [done|]. split; [done|]. split; [done|]. split; [done|]. split; [intros k; unfold FsImpl.lfs_file; by rewrite Hf|].
    intros n Hn Hleft. apply Hl, (left_mono l (n + CALL_COST)); [done|unfold CALL_COST; lia].
Defined.
End littlefs.

(** The library in memory: no name is one of its directories, and it takes [r_left] more
    bytes. *)
Definition ram_places (names : list path) :
  LfsPlaces (H := LittleFs.ram_lfs false) LittleFs.ram LittleFs.ram_file (list LittleFs.lfs_info) (H0 := LittleFs.ram_spec false) names.
Proof.
  unshelve refine {| placed := fun r : LittleFs.ram => forall p, p ∈ names -> p ∉ LittleFs.r_dirs r; left := fun r n => n <= LittleFs.r_left r |}.
  - intros l n m Hl Hm. cbv beta in *. lia.
  - intros l p flags Hl. cbn. unfold LittleFs.ram_open. destruct (LittleFs.r_files l !! p); [by destruct (Z.testbit flags 9)|]. by destruct (_ && _).
  - intros l f Hl. cbn. unfold LittleFs.ram_close. by destruct (LittleFs.h_write f).
  - intros l f data Hl. cbn. unfold LittleFs.ram_write. destruct (negb _); [done|]. by destruct (_ && _).
  - intros l p t v Hl. done.
  - intros l p Hl Hp q Hq Hd. cbn in Hd. unfold LittleFs.ram_remove in Hd. apply (Hl q Hq). destruct (LittleFs.r_files l !! p); [done|].
    destruct (bool_decide _); [|done]. cbn in Hd. by apply list_elem_of_filter in Hd as [_ ?].
  - intros l p flags n Hl. cbn. unfold LittleFs.ram_open. destruct (LittleFs.r_files l !! p); [destruct (Z.testbit flags 9)|destruct (_ && _)]; cbn; lia.
  - intros l f n Hl. cbn. unfold LittleFs.ram_close. destruct (LittleFs.h_write f); cbn; lia.
  - intros l f data n Hl. cbn. unfold LittleFs.ram_write. pose proof (zlen_nonneg data). destruct (negb _); [cbn; lia|]. destruct (_ && _); cbn; lia.
  - intros l p t v n Hl. cbn. lia.
  - intros l p n Hl. cbn. unfold LittleFs.ram_remove. destruct (LittleFs.r_files l !! p); [cbn; lia|]. destruct (bool_decide _); cbn; lia.
  - intros l p Hok Hl Hp _. cbn. unfold LittleFs.ram_open. destruct (LittleFs.r_files l !! p) as [c|]; [done|].
    by rewrite (bool_decide_eq_false_2 (p ∈ _)) by (by apply Hl).
  - intros l p Hok Hl Hp Hn _. cbn in *. unfold LittleFs.ram_open. rewrite Hn. by rewrite (bool_decide_eq_false_2 (p ∈ _)) by (by apply Hl).
  - intros l f p c i data [(_ & <- & <- & _) _] Hz Hl. cbn. unfold LittleFs.ram_write. apply Z.ltb_lt in Hz. rewrite Hz. cbn [negb].
    destruct (Z.ltb_spec (LittleFs.r_left l) (zlen data)); [lia|]. rewrite andb_false_r. apply zlen_nonneg.
  - intros l p Hok Hl Hp [c Hc] _. cbn in *. unfold LittleFs.ram_remove. by rewrite Hc.
  - intros l p q Hok Hl Hp Hq Hne. cbn in *. unfold LittleFs.ram_rename. destruct (LittleFs.r_files l !! p) as [c|] eqn:E; cycle 1.
    { do 2 eexists. split; [done|]. split; [done|]. split; [done|]. split; [intros n Hn; lia|done]. }
    rewrite bool_decide_eq_false_2 by (by apply Hl). do 2 eexists. split; [done|]. split; [|split; [done|split; [intros n Hn; cbn; lia|by constructor]]].
    apply map_Forall_insert_2; [by apply (Hok p)|]. by apply map_Forall_delete.
Defined.

(** One of two implementations keeps the files. *)
#[export] Instance either_store {A B} `{FileStore A names} `{FileSystemLaws B} : FileStore (A + B) names.
Proof.
  refine {| kept := fun x : A + B => match x with inl a => kept a | inr _ => False end;
    room := fun (x : A + B) n => match x with inl a => room a n | inr _ => False end |}.
  - intros [a|b] n m; [apply room_mono|done].
  - intros [a|b] q d; [apply (kept_getFileSize a)|done].
  - intros [a|b] q d o; [apply (kept_readLine a)|done].
  - intros e [a|b] q c Hok Hk Hq Hc; [|done]. destruct (kept_append e a q c Hok Hk Hq Hc) as (rc & a' & E & ?). exists rc, (inl a'). cbn. by rewrite E.
  - intros e [a|b] q Hok Hk Hq Hn; [|done]. destruct (kept_create e a q Hok Hk Hq Hn) as (rc & a' & E & ?). exists rc, (inl a'). cbn. by rewrite E.
  - intros e [a|b] q Hok Hk Hq; [|done]. destruct (kept_delete e a q Hok Hk Hq) as (rc & a' & E & ?). exists rc, (inl a'). cbn. by rewrite E.
  - intros e [a|b] q r Hok Hk Hq Hr Hne; [|done]. destruct (kept_move e a q r Hok Hk Hq Hr Hne) as (rc & a' & E & ?). exists rc, (inl a'). cbn. by rewrite E.
  - intros e [a|b] q m Hok Hk Hq; [|done]. destruct (kept_chmod e a q m Hok Hk Hq) as (rc & a' & E & ?). exists rc, (inl a'). cbn. by rewrite E.
Defined.

(** ** Through the mount table *)

Section client.
Context {B : Type} {names : list path} `{FileStore B names}.
Implicit Types (v : Vfs.VfsDispatcher B) (p q : path).

(** The root mount has the files, under different names. *)
Record mounted (v : Vfs.VfsDispatcher B) (i : nat) : Prop := {
  h_ok : Vfs.vfs_ok v;
  h_names : forall p, p ∈ names -> Vfs.resolve v (Some p) = (Some i, Some p);
  h_kept : exists b, Vfs.m_fs v !! i = Some b /\ kept b;
  h_distinct : forall p q, p ∈ names -> q ∈ names -> p <> q -> Vfs.key v (Some p) <> Vfs.key v (Some q) }.

(** The file system takes [n] more units. *)
Definition roomy (v : Vfs.VfsDispatcher B) (i : nat) (n : Z) : Prop := exists b, Vfs.m_fs v !! i = Some b /\ room b n.

Lemma roomy_mono v i n m : roomy v i n -> m <= n -> roomy v i m.
Proof. intros (b & Hb & Hr) Hm. exists b. split; [done|by eapply room_mono]. Qed.

Lemma roomy_at v i n b : Vfs.m_fs v !! i = Some b -> roomy v i n -> room b n.
Proof. intros Hb (b' & Hb' & Hr). by simplify_eq. Qed.

(** Everything but the files [ps] is as before. *)
Definition only (ps : list path) v v' : Prop :=
  Vfs.m_mounts v' = Vfs.m_mounts v /\ Vfs.m_priv_depth v' = Vfs.m_priv_depth v /\ (forall r : option path, Vfs.key v' r = Vfs.key v r) /\
  forall k, (forall p, p ∈ ps -> k <> Vfs.key v (Some p)) -> Vfs.file_of v' k = Vfs.file_of v k.

Lemma only_refl ps v : only ps v v.
Proof. done. Qed.

Lemma only_trans ps qs v v' v'' : only ps v v' -> only qs v' v'' -> only (ps ++ qs) v v''.
Proof.
  intros (M1 & P1 & K1 & F1) (M2 & P2 & K2 & F2). split; [by rewrite M2|]. split; [by rewrite P2|]. split; [intros p; by rewrite K2|].
  intros k Hk. rewrite F2; [|intros p Hp; rewrite K1; apply Hk, elem_of_app; by right]. apply F1. intros p Hp. apply Hk, elem_of_app. by left.
Qed.

Lemma only_mono ps qs v v' : ps ⊆ qs -> only ps v v' -> only qs v v'.
Proof. intros Hs (M & P & K & F). split_and!; try done. intros k Hk. apply F. intros p Hp. by apply Hk, Hs. Qed.

Lemma only_file ps v v' i q : mounted v i -> only ps v v' -> ps ⊆ names -> q ∈ names -> q ∉ ps -> Vfs.file_at v' (Some q) = Vfs.file_at v (Some q).
Proof.
  intros Hh (_ & _ & K & F) Hs Hq Hn. unfold Vfs.file_at. rewrite K. apply F. intros p Hp. apply (h_distinct v i Hh); try done; [by apply Hs|].
  by intros ->.
Qed.

Lemma mounted_backend v i p : mounted v i -> p ∈ names -> exists b, Vfs.m_fs v !! i = Some b /\ fs_ok b /\ kept b /\
  Vfs.key v (Some p) = (Some i, fs_norm b p) /\ Vfs.file_at v (Some p) = fs_files b (fs_norm b p).
Proof.
  intros Hh Hp. destruct (h_kept v i Hh) as (b & Hb & Hk). exists b. split; [done|]. split; [by eapply Forall_lookup_1; [apply (h_ok v i Hh)|]|]. split; [done|].
  assert (Vfs.key v (Some p) = (Some i, fs_norm b p)) as E by (unfold Vfs.key; rewrite (h_names v i Hh p Hp); cbn; by rewrite Hb).
  split; [done|]. unfold Vfs.file_at. rewrite E. unfold Vfs.file_of. cbn. by rewrite Hb.
Qed.

(** The file system was replaced by one with the same names. *)
Lemma replaced v i b b' ps : mounted v i -> Vfs.m_fs v !! i = Some b -> fs_ok b' -> kept b' -> (forall p, fs_norm b' p = fs_norm b p) ->
  ps ⊆ names -> (forall k, (forall p, p ∈ ps -> k <> fs_norm b p) -> fs_files b' k = fs_files b k) ->
  let v' := Vfs.set_fs (<[i := b']> (Vfs.m_fs v)) v in
  mounted v' i /\ only ps v v' /\ (forall p, p ∈ names -> Vfs.file_at v' (Some p) = fs_files b' (fs_norm b p)) /\ forall n, room b' n -> roomy v' i n.
Proof.
  intros Hh Hb Hok Hk Hn Hps Hf v'.
  assert (forall r : option path, Vfs.key v' r = Vfs.key v r) as Hkey.
  { intros p. unfold Vfs.key, v'. rewrite Vfs.resolve_set_fs. destruct (Vfs.resolve v p) as [[j|] [r|]]; cbn; try done.
    - destruct (decide (j = i)) as [->|Hj]; [|by rewrite list_lookup_insert_ne by done].
      rewrite list_lookup_insert_eq by (by eapply lookup_lt_Some). by rewrite Hb, Hn.
    - by destruct (<[i:=b']> (Vfs.m_fs v) !! j), (Vfs.m_fs v !! j). }
  assert (forall p, p ∈ names -> Vfs.key v (Some p) = (Some i, fs_norm b p)) as Hkb.
  { intros p Hp. destruct (mounted_backend v i p Hh Hp) as (b0 & Hb0 & _ & _ & Kb & _). by simplify_eq. }
  split; [|split; [|split]].
  - split; [by apply Vfs.vfs_ok_update; [apply (h_ok v i Hh)|]| | |].
    + intros p Hp. unfold v'. rewrite Vfs.resolve_set_fs. by apply (h_names v i Hh).
    + exists b'. split; [|done]. unfold v'. cbn. apply list_lookup_insert_eq. by eapply lookup_lt_Some.
    + intros p q Hp Hq Hne. rewrite !Hkey. by apply (h_distinct v i Hh).
  - split; [done|]. split; [done|]. split; [done|]. intros [[j|] k] Hk'; [|done]. unfold Vfs.file_of, v'. cbn.
    destruct (decide (j = i)) as [->|Hj]; [|by rewrite list_lookup_insert_ne by done].
    rewrite list_lookup_insert_eq by (by eapply lookup_lt_Some). rewrite Hb. cbn. apply Hf. intros p Hp E. apply (Hk' p Hp). rewrite Hkb by (by apply Hps). by rewrite E.
  - intros p Hp. unfold Vfs.file_at. rewrite Hkey, Hkb by done. by apply (Vfs.file_of_new v i b).
  - intros n Hr. exists b'. split; [|done]. unfold v'. cbn. apply list_lookup_insert_eq. by eapply lookup_lt_Some.
Qed.

(** The session is root, or the scope privileged: no check fails. *)
Definition trusted (e : env) v : Prop := Vfs.checkRoot e v = true.

Lemma guarded_trusted {A} e v (p : option path) n (fail : A) call : trusted e v ->
  Vfs.guarded (Vfs.checkAccess e v p n) fail call = call /\ Vfs.guarded (Vfs.checkOwnerOrRoot e v p) fail call = call.
Proof.
  unfold trusted, Vfs.checkRoot, Vfs.guarded, Vfs.checkAccess, Vfs.checkOwnerOrRoot. destruct (Vfs.isPrivileged v); [done|]. cbn. by intros ->.
Qed.

Lemma only_trusted ps e v v' : only ps v v' -> trusted e v -> trusted e v'.
Proof. intros (_ & E & _). unfold trusted, Vfs.checkRoot, Vfs.isPrivileged. by rewrite E. Qed.

Section ops.
Variables (e : env) (v : Vfs.VfsDispatcher B) (i : nat).
Hypotheses (Hh : mounted v i) (Ht : trusted e v).

Lemma store_isFileExist p : p ∈ names -> Vfs.isFileExist v (Some p) = Some (bool_decide (is_Some (Vfs.file_at v (Some p)))).
Proof.
  intros Hp. destruct (mounted_backend v i p Hh Hp) as (b & Hb & Hok & _ & _ & ->). unfold Vfs.isFileExist, Vfs.query.
  rewrite (h_names v i Hh p Hp), Hb. cbn. rewrite law_isFileExist by done. f_equal. destruct (fs_files b (fs_norm b p)); [by rewrite bool_decide_eq_true_2|].
  rewrite bool_decide_eq_false_2; [done|]. by intros [? ?].
Qed.

Lemma store_getFileSize p d : p ∈ names -> Vfs.file_at v (Some p) = Some d -> Vfs.getFileSize v (Some p) = Some (zlen d).
Proof.
  intros Hp Hf. destruct (mounted_backend v i p Hh Hp) as (b & Hb & Hok & Hk & _ & E). unfold Vfs.getFileSize, Vfs.query.
  rewrite (h_names v i Hh p Hp), Hb. cbn. apply kept_getFileSize; congruence.
Qed.

Lemma store_size p d : p ∈ names -> Vfs.file_at v (Some p) = Some d -> zlen d < 2147483648.
Proof.
  intros Hp Hf. destruct (mounted_backend v i p Hh Hp) as (b & _ & Hok & _ & _ & E). apply (law_size b (fs_norm b p) d Hok). congruence.
Qed.

Lemma store_readLine p d o : p ∈ names -> Vfs.file_at v (Some p) = Some d -> no_nul d -> 0 <= o <= zlen d ->
  let line := LittleFs.first_line (drop (Z.to_nat o) d) in
  Vfs.readFile e v (Some p) 128 collect o (Some [10]) [] = Some (zlen line, line).
Proof.
  intros Hp Hf Hd Ho line. unfold Vfs.readFile. rewrite (proj1 (guarded_trusted e v _ _ _ _ Ht)).
  destruct (mounted_backend v i p Hh Hp) as (b & Hb & Hok & Hk & _ & E). unfold Vfs.query.
  rewrite (h_names v i Hh p Hp), Hb. cbn. apply (kept_readLine b p d o); congruence.
Qed.

Lemma store_append p c : p ∈ names -> c <> [] -> zlen c < 2147483648 ->
  exists rc v', Vfs.writeFile e v (Some p) (Some c) (zlen c) true = Some (rc, v') /\ mounted v' i /\ only [p] v v' /\
    forall n, 0 <= n -> roomy v i (n + (CALL_COST + zlen c)) -> roomy v' i n /\
      (zlen (default [] (Vfs.file_at v (Some p))) + zlen c < 2147483648 ->
       0 <= rc /\ Vfs.file_at v' (Some p) = Some (default [] (Vfs.file_at v (Some p)) ++ c)).
Proof.
  intros Hp Hc Hz. unfold Vfs.writeFile. rewrite (proj1 (guarded_trusted e v _ _ _ _ Ht)).
  destruct (mounted_backend v i p Hh Hp) as (b & Hb & Hok & Hk & _ & E). rewrite E. unfold Vfs.route.
  rewrite (h_names v i Hh p Hp), Hb. cbn [mbind option_bind].
  destruct (kept_append e b p c Hok Hk Hp Hc) as (rc & b' & Ew & Hk' & Hrc).
  destruct (law_writeFile e b p c true Hok Hc Hz) as (rc2 & b2 & Ew2 & Hok' & [Hfr Hn] & Hf). rewrite Ew in Ew2. injection Ew2 as <- <-.
  rewrite Ew. cbn [mbind option_bind]. eexists _, _. split; [done|].
  destruct (replaced v i b b' [p] Hh Hb Hok' Hk' Hn) as (Hh' & Ho & Hat & Hrm); [by intros ? ->%list_elem_of_singleton| |].
  { intros k Hk0. by apply Hfr, Hk0, list_elem_of_singleton. }
  split; [done|]. split; [done|]. intros n Hn0 Hr. destruct (Hrc n Hn0 (roomy_at _ _ _ _ Hb Hr)) as [Hr' Hrc']. split; [by apply Hrm|].
  intros Hsz. specialize (Hrc' Hsz). split; [done|]. rewrite Hat by done. by apply Hf.
Qed.

Lemma store_create p : p ∈ names -> Vfs.file_at v (Some p) = None ->
  exists rc v', Vfs.createFile e v (Some p) (Some [0]) (-1) = Some (rc, v') /\ mounted v' i /\ only [p] v v' /\
    forall n, 0 <= n -> roomy v i (n + CALL_COST) -> roomy v' i n /\ 0 <= rc /\ Vfs.file_at v' (Some p) = Some [].
Proof.
  intros Hp Hz. destruct (mounted_backend v i p Hh Hp) as (b & Hb & Hok & Hk & _ & E). rewrite E in Hz. unfold Vfs.createFile, Vfs.route.
  rewrite (h_names v i Hh p Hp), Hb. cbn [mbind option_bind].
  destruct (kept_create e b p Hok Hk Hp Hz) as (rc & b' & -> & Hok' & Hk' & [Hfr Hn] & Hf).
  cbn [mbind option_bind]. eexists _, _. split; [done|].
  destruct (replaced v i b b' [p] Hh Hb Hok' Hk' Hn) as (Hh' & Ho & Hat & Hrm); [by intros ? ->%list_elem_of_singleton| |].
  { intros k Hk0. by apply Hfr, Hk0, list_elem_of_singleton. }
  split; [done|]. split; [done|]. intros n Hn0 Hr. destruct (Hf n Hn0 (roomy_at _ _ _ _ Hb Hr)) as (Hr' & Hrc & Hf'). split; [by apply Hrm|]. split; [done|]. by rewrite Hat.
Qed.

Lemma store_delete p : p ∈ names ->
  exists rc v', Vfs.deleteFile e v (Some p) = Some (rc, v') /\ mounted v' i /\ only [p] v v' /\
    forall n, 0 <= n -> roomy v i (n + CALL_COST) -> roomy v' i n /\ Vfs.file_at v' (Some p) = None.
Proof.
  intros Hp. unfold Vfs.deleteFile. rewrite (proj1 (guarded_trusted e v _ _ _ _ Ht)).
  destruct (mounted_backend v i p Hh Hp) as (b & Hb & Hok & Hk & _ & E). unfold Vfs.route.
  rewrite (h_names v i Hh p Hp), Hb. cbn [mbind option_bind].
  destruct (kept_delete e b p Hok Hk Hp) as (rc & b' & Ew & Hk' & Hf).
  destruct (law_deleteFile e b p Hok) as (rc2 & b2 & Ew2 & Hok' & [Hfr Hn] & _). rewrite Ew in Ew2. injection Ew2 as <- <-.
  rewrite Ew. cbn [mbind option_bind]. eexists _, _. split; [done|].
  destruct (replaced v i b b' [p] Hh Hb Hok' Hk' Hn) as (Hh' & Ho & Hat & Hrm); [by intros ? ->%list_elem_of_singleton| |].
  { intros k Hk0. by apply Hfr, Hk0, list_elem_of_singleton. }
  split; [done|]. split; [done|]. intros n Hn0 Hr. destruct (Hf n Hn0 (roomy_at _ _ _ _ Hb Hr)) as (Hr' & Hf'). split; [by apply Hrm|]. by rewrite Hat.
Qed.

Lemma store_move p q : p ∈ names -> q ∈ names -> p <> q ->
  exists rc v', Vfs.moveFile e v (Some p) (Some q) = Some (rc, v') /\ mounted v' i /\ only [p; q] v v' /\
    forall n, 0 <= n -> roomy v i (n + CALL_COST) -> roomy v' i n /\
      match Vfs.file_at v (Some p) with
      | Some d => Vfs.file_at v' (Some q) = Some d /\ Vfs.file_at v' (Some p) = None
      | None => Vfs.file_at v' (Some q) = Vfs.file_at v (Some q) /\ Vfs.file_at v' (Some p) = None
      end.
Proof.
  intros Hp Hq Hne. pose proof (h_distinct v i Hh p q Hp Hq Hne) as Hd.
  destruct (mounted_backend v i p Hh Hp) as (b & Hb & Hok & Hk & Kp & Ep). destruct (mounted_backend v i q Hh Hq) as (b2 & Hb2 & _ & _ & Kq & Eq).
  simplify_eq. unfold Vfs.moveFile, Vfs.move_with. rewrite (h_names v i Hh p Hp), (h_names v i Hh q Hq).
  rewrite bool_decide_eq_true_2 by done. rewrite Hb. cbn [mbind option_bind].
  assert (fs_norm b p <> fs_norm b q) as Hn by (rewrite Kp, Kq in Hd; congruence).
  destruct (kept_move e b p q Hok Hk Hp Hq Hn) as (rc & b' & -> & Hok' & Hk' & Hn' & Hfr & Hf). cbn [mbind option_bind].
  eexists _, _. split; [done|].
  destruct (replaced v i b b' [p; q] Hh Hb Hok' Hk' Hn') as (Hh' & Ho & Hat & Hrm); [by intros ? [->|[->|?%not_elem_of_nil]%elem_of_cons]%elem_of_cons| |].
  { intros k Hk0. assert (k <> fs_norm b p) by (apply Hk0, elem_of_cons; by left). assert (k <> fs_norm b q) by (apply Hk0, elem_of_cons; right; by apply list_elem_of_singleton).
    by apply Hfr. }
  split; [done|]. split; [done|]. intros n Hn0 Hr. destruct (Hf n Hn0 (roomy_at _ _ _ _ Hb Hr)) as (Hr' & Hf'). split; [by apply Hrm|].
  rewrite Ep, Eq, !Hat by done. destruct (fs_files b (fs_norm b p)) as [d|] eqn:Ed; [by destruct Hf' as (_ & ? & ?)|by rewrite !Hf', Ed].
Qed.

Lemma store_chmod p m : p ∈ names ->
  exists rc v', Vfs.setFilePermissions e v (Some p) m = Some (rc, v') /\ mounted v' i /\ only [] v v' /\ Vfs.file_at v' (Some p) = Vfs.file_at v (Some p) /\
    forall n, 0 <= n -> roomy v i (n + CALL_COST) -> roomy v' i n.
Proof.
  intros Hp. unfold Vfs.setFilePermissions. rewrite (proj2 (guarded_trusted e v _ 0 _ _ Ht)).
  destruct (mounted_backend v i p Hh Hp) as (b & Hb & Hok & Hk & _ & E). unfold Vfs.route.
  rewrite (h_names v i Hh p Hp), Hb. cbn [mbind option_bind].
  destruct (kept_chmod e b p m Hok Hk Hp) as (rc & b' & -> & Hok' & Hk' & Hn & Hf & Hl).
  cbn [mbind option_bind]. eexists _, _. split; [done|].
  destruct (replaced v i b b' [] Hh Hb Hok' Hk' Hn) as (Hh' & Ho & Hat & Hrm); [by intros ? ?%not_elem_of_nil|by intros k _|].
  split; [done|]. split; [done|]. split; [rewrite Hat by done; by rewrite E, Hf|]. intros n Hn0 Hr. apply Hrm, Hl; [done|]. by eapply roomy_at.
Qed.
End ops.
End client.

End FileStore.
