(* ===== verification/UserStore.v ===== *)
(** * User accounts ([src/service_provider/user/UserStoreService.cpp])

    The accounts in [/etc/passwd] and the salted password hashes in [/etc/shadow]: parsing
    and printing of the lines, looking accounts up, adding and removing them, setting and
    checking passwords.  Every file access goes through the mount table ([Vfs.v]).

    The theorems: a record is read back as it was written; looking an account up finds the
    first line that describes it; a password that was set is accepted, another one only
    when its salted hash is the same, and the passwords of other users are not affected,
    while the storage has room; what is lost when it has not; and what happens to the
    permissions of the file. *)

From stdpp Require Import base option list numbers gmap.
From Stdlib Require Import ZArith Lia.
From S2P Require Import Prelude Words Fips180 Sha256 Conversions StrOps FileSys TmpFs LittleFs FsImpl Vfs FileStore.

Open Scope Z_scope.

Module UserStore.
Import Sha256 Conversions FileStore.

(** [/etc], [/etc/passwd], [/etc/shadow] and [cmd]. *)
Definition USER_STORE_ETC_DIR : path := [47; 101; 116; 99].
Definition USER_STORE_PASSWD_PATH : path := [47; 101; 116; 99; 47; 112; 97; 115; 115; 119; 100].
Definition USER_STORE_SHADOW_PATH : path := [47; 101; 116; 99; 47; 115; 104; 97; 100; 111; 119].
Definition USER_STORE_SALT_LEN : Z := 8.
Definition USER_STORE_ROOT_UID : Z := 0.
Definition USER_STORE_ROOT_GID : Z := 0.
Definition USER_STORE_DEFAULT_SHELL : list Z := [99; 109; 100].
Definition USER_STORE_FIELD_SEP : Z := 58.

Record user_record := mkUser { m_uid : Z; m_gid : Z; m_username : list Z; m_home : list Z; m_shell : list Z }.

(** ** Lines of the account file *)

(** The loop over the characters: [cur] is the field so far, [n] how many more fit.  The
    fields are made with [substr], so one that begins with NUL is empty. *)
Fixpoint field_loop (rest cur : list Z) (n : nat) : list (list Z) :=
  match n with
  | O => []
  | S m =>
      match rest with
      | [] => [cur]
      | c :: rest => if c =? USER_STORE_FIELD_SEP then cur :: field_loop rest [] m else field_loop rest (cur ++ [c]) n
      end
  end.

Definition parsePasswdLine (line : list Z) : option (option user_record) :=
  if bool_decide (line = []) || bool_decide (head line = Some 35) then Some None
  else match map StrOps.string_data (field_loop line [] 6) with
       | [name; _; uid; gid; home; shell] =>
           u <- StringToUint32 (Some (uid ++ [0])) (u8 (zlen uid));;
           g <- StringToUint32 (Some (gid ++ [0])) (u8 (zlen gid));;
           Some (Some (mkUser (u16 u) (u16 g) name home shell))
       | _ => Some None
       end.

(** The string a buffer holds. *)
Definition c_text (buf : option (list Z)) : option (list Z) := b <- buf;; n <- strlen b;; msub b 0 n.

(** [numbuf] is the local array. *)
Definition serializePasswdLine (numbuf : list Z) (r : user_record) : option (list Z) :=
  buf <- Uint32ToString (m_uid r) (Some numbuf) 8 0;;
  uid <- c_text buf;;
  buf <- Uint32ToString (m_gid r) buf 8 0;;
  gid <- c_text buf;;
  Some (m_username r ++ [USER_STORE_FIELD_SEP] ++ [120] ++ [USER_STORE_FIELD_SEP] ++ uid ++ [USER_STORE_FIELD_SEP] ++
        gid ++ [USER_STORE_FIELD_SEP] ++ m_home r ++ [USER_STORE_FIELD_SEP] ++ m_shell r).

(** ** Lines of the password file *)

(** The index of the first separator from [i] on. *)
Definition find_sep (line : list Z) (i : nat) : option nat :=
  k <- StrOps.first_occ [USER_STORE_FIELD_SEP] (drop i line);; Some (i + k)%nat.

(** The line is one of [username] and the two texts are hexadecimal of the right length:
    whether it was, and what [hashOut] and [saltOut] hold then. *)
Definition shadow_line (username line hashOut saltOut : list Z) : option (bool * list Z * list Z) :=
  let no := Some (false, hashOut, saltOut) in
  match find_sep line 0 with
  | None => no
  | Some sep1 =>
      if negb (bool_decide (sep1 = length username) && bool_decide (take (length username) line = username)) then no
      else
        match find_sep line (S sep1) with
        | None => no
        | Some sep2 =>
            let hashlen := (sep2 - sep1 - 1)%nat in
            let saltlen := (length line - sep2 - 1)%nat in
            if negb ((Z.of_nat hashlen =? 64) && (Z.of_nat saltlen =? USER_STORE_SALT_LEN * 2)) then no
            else
              '(ok, h) <- HexStringToBytes (Some (drop (S sep1) line ++ [0])) 32 (Some hashOut);;
              h <- h;;
              if negb ok then Some (false, h, saltOut)
              else
                '(ok, s) <- HexStringToBytes (Some (drop (S sep2) line ++ [0])) USER_STORE_SALT_LEN (Some saltOut);;
                s <- s;;
                Some (ok, h, s)
        end
  end.

(** ** The service *)

(** The local arrays and the context of a call, with what they hold at its start. *)
Record locals := mkLocals { l_hash : list Z; l_salt : list Z; l_computed : list Z; l_hexhash : list Z; l_hexsalt : list Z;
  l_numbuf : list Z; l_ctx : sha256_context }.

Definition hashPassword (ctx : sha256_context) (password salt : option (list Z)) (saltlen : Z) (out : list Z) : option (list Z) :=
  let ctx := sha256_init ctx in
  ctx <- match salt with Some s => if saltlen >? 0 then sha256_update ctx s saltlen else Some ctx | None => Some ctx end;;
  ctx <- match password with Some p => sha256_update ctx (p ++ [0]) (u32 (zlen p)) | None => Some ctx end;;
  '(_, out) <- sha256_final ctx out;;
  Some out.

(** [diff |= storedHash[i] ^ computedHash[i]] *)
Fixpoint diff_loop (n : nat) (i : Z) (a b : list Z) (diff : Z) : option Z :=
  match n with
  | O => Some diff
  | S n => x <- mget a i;; y <- mget b i;; diff_loop n (i + 1) a b (u8 (Z.lor diff (u8 (Z.lxor x y))))
  end.

Section service.
Context {B : Type} `{iFileSystem B}.

(** What [getTempDirectory] and [getHomeDirectory] of the root file system return, and the
    random numbers of the C library. *)
Variables (tempdir homedir : path) (R : Type) (srand : Z -> R) (rand : R -> Z * R).

(** [s_seeded] and the state of [rand]. *)
Record rng := mkRng { s_seeded : bool; r_state : R }.

Fixpoint salt_loop (n : nat) (i : Z) (salt : list Z) (r : R) : option (list Z * R) :=
  match n with
  | O => Some (salt, r)
  | S n => let '(x, r) := rand r in salt <- mset salt i (u8 (Z.land x 255));; salt_loop n (i + 1) salt r
  end.

(** [millis] is [millis_now()]. *)
Definition generateSalt (millis : Z) (salt : list Z) (saltlen : Z) (g : rng) : option (list Z * rng) :=
  let r := if s_seeded g then r_state g else srand (u32 millis) in
  '(salt, r) <- salt_loop (Z.to_nat saltlen) 0 salt r;;
  Some (salt, mkRng true r).

(** The loop that [scanPasswdFile], [removeLineByUsername] and [readShadowRecord] run over
    the lines of a file of [fs] bytes; [body] tells whether to stop. *)
Fixpoint line_loop {A} (fuel : nat) (e : env) (filepath : path) (fs : Z)
    (body : Vfs.VfsDispatcher B -> A -> list Z -> option (bool * Vfs.VfsDispatcher B * A))
    (offset : Z) (v : Vfs.VfsDispatcher B) (x : A) : option (Vfs.VfsDispatcher B * A) :=
  match fuel with
  | O => None
  | S fuel =>
      if offset <? u64 fs then
        '(bytes, linedata) <- Vfs.readFile e v (Some filepath) 128 collect offset (Some [10]) [];;
        if bytes <? 0 then Some (v, x)
        else
          '(stop, v, x) <- body v x linedata;;
          if stop : bool then Some (v, x)
          else line_loop fuel e filepath fs body (u64 (offset + (u64 bytes + 1))) v x
      else Some (v, x)
  end.

Definition scan_body (matchByUid : bool) (uid : Z) (username : option (list Z)) (v : Vfs.VfsDispatcher B)
    (out : option user_record) (linedata : list Z) : option (bool * Vfs.VfsDispatcher B * option user_record) :=
  candidate <- parsePasswdLine (LittleFs.strip_cr linedata);;
  Some (match candidate with
        | Some c =>
            if (if matchByUid then m_uid c =? uid else bool_decide (username = Some (m_username c)))
            then (true, v, Some c) else (false, v, out)
        | None => (false, v, out)
        end).

Definition scanPasswdFile (e : env) (v : Vfs.VfsDispatcher B) (matchByUid : bool) (uid : Z) (username : option (list Z))
  : option (option user_record) :=
  ex <- Vfs.isFileExist v (Some USER_STORE_PASSWD_PATH);;
  if negb ex then Some None
  else
    fs <- Vfs.getFileSize v (Some USER_STORE_PASSWD_PATH);;
    if fs <=? 0 then Some None
    else
      '(_, out) <- line_loop (S (Z.to_nat fs)) e USER_STORE_PASSWD_PATH fs (scan_body matchByUid uid username) 0 v None;;
      Some out.

Definition findUserByName (e : env) (v : Vfs.VfsDispatcher B) (username : option (list Z)) : option (option user_record) :=
  match username with
  | None | Some [] => Some None
  | Some u => scanPasswdFile e v false 0 (Some u)
  end.

Definition findUserByUid (e : env) (v : Vfs.VfsDispatcher B) (uid : Z) : option (option user_record) :=
  scanPasswdFile e v true uid None.

(** The line is one of [username]. *)
Definition matches_user (username line : list Z) : bool :=
  (length username <? length line)%nat && bool_decide (take (length username) line = username) &&
  bool_decide (line !! length username = Some USER_STORE_FIELD_SEP).

Definition remove_body (e : env) (temppath username : list Z) (v : Vfs.VfsDispatcher B) (removed : bool) (linedata : list Z)
  : option (bool * Vfs.VfsDispatcher B * bool) :=
  if matches_user username linedata then Some (false, v, true)
  else if bool_decide (linedata = []) then Some (false, v, removed)
  else
    let outline := linedata ++ [10] in
    '(_, v) <- Vfs.writeFile e v (Some temppath) (Some outline) (u32 (zlen outline)) true;;
    Some (false, v, removed).

Definition removeLineByUsername (e : env) (v : Vfs.VfsDispatcher B) (filepath username : list Z)
  : option (bool * Vfs.VfsDispatcher B) :=
  ex <- Vfs.isFileExist v (Some filepath);;
  if negb ex then Some (false, v)
  else
    let temppath := tempdir ++ FsImpl.basename (Some filepath) in
    ex <- Vfs.isFileExist v (Some temppath);;
    '(_, v) <- (if ex : bool then Vfs.deleteFile e v (Some temppath) else Some (0, v));;
    fs <- Vfs.getFileSize v (Some filepath);;
    if fs <=? 0 then Some (false, v)
    else
      '(v, removed) <- line_loop (S (Z.to_nat fs)) e filepath fs (remove_body e temppath username) 0 v false;;
      if removed : bool then
        '(_, v) <- Vfs.deleteFile e v (Some filepath);;
        '(_, v) <- Vfs.moveFile e v (Some temppath) (Some filepath);;
        Some (true, v)
      else
        '(_, v) <- Vfs.deleteFile e v (Some temppath);;
        Some (false, v).

Definition shadow_body (username : list Z) (v : Vfs.VfsDispatcher B) (x : bool * list Z * list Z) (linedata : list Z)
  : option (bool * Vfs.VfsDispatcher B * (bool * list Z * list Z)) :=
  let '(_, hashOut, saltOut) := x in
  '(found, hashOut, saltOut) <- shadow_line username (LittleFs.strip_cr linedata) hashOut saltOut;;
  Some (found, v, (found, hashOut, saltOut)).

Definition readShadowRecord (e : env) (v : Vfs.VfsDispatcher B) (username hashOut saltOut : list Z)
  : option (bool * list Z * list Z) :=
  ex <- Vfs.isFileExist v (Some USER_STORE_SHADOW_PATH);;
  if negb ex then Some (false, hashOut, saltOut)
  else
    fs <- Vfs.getFileSize v (Some USER_STORE_SHADOW_PATH);;
    if fs <=? 0 then Some (false, hashOut, saltOut)
    else
      '(_, x) <- line_loop (S (Z.to_nat fs)) e USER_STORE_SHADOW_PATH fs (shadow_body username) 0 v (false, hashOut, saltOut);;
      Some x.

Definition verifyPassword (e : env) (v : Vfs.VfsDispatcher B) (st : locals) (username password : option (list Z))
  : option (bool * Vfs.VfsDispatcher B) :=
  match username, password with
  | Some username, Some password =>
      let v := Vfs.beginPrivileged v in
      '(haveRec, storedHash, salt) <- readShadowRecord e v username (l_hash st) (l_salt st);;
      let v := Vfs.endPrivileged v in
      if negb haveRec then Some (false, v)
      else
        computedHash <- hashPassword (l_ctx st) (Some password) (Some salt) USER_STORE_SALT_LEN (l_computed st);;
        diff <- diff_loop 32 0 storedHash computedHash 0;;
        Some (diff =? 0, v)
  | _, _ => Some (false, v)
  end.

Definition setPassword (e : env) (v : Vfs.VfsDispatcher B) (g : rng) (st : locals) (millis : Z) (username password : option (list Z))
  : option (bool * Vfs.VfsDispatcher B * rng) :=
  match username, password with
  | None, _ | Some [], _ | _, None => Some (false, v, g)
  | Some username, Some password =>
      '(salt, g) <- generateSalt millis (l_salt st) USER_STORE_SALT_LEN g;;
      hash <- hashPassword (l_ctx st) (Some password) (Some salt) USER_STORE_SALT_LEN (l_hash st);;
      hexhash <- BytesToHexString (Some hash) 32 (Some (l_hexhash st));;
      hexsalt <- BytesToHexString (Some salt) USER_STORE_SALT_LEN (Some (l_hexsalt st));;
      hexhash <- c_text hexhash;;
      hexsalt <- c_text hexsalt;;
      let line := username ++ [USER_STORE_FIELD_SEP] ++ hexhash ++ [USER_STORE_FIELD_SEP] ++ hexsalt ++ [10] in
      let v := Vfs.beginPrivileged v in
      '(_, v) <- removeLineByUsername e v USER_STORE_SHADOW_PATH username;;
      ex <- Vfs.isFileExist v (Some USER_STORE_SHADOW_PATH);;
      '(created, v) <- (if ex : bool then Some (true, v)
        else
          '(rc, v) <- Vfs.createFile e v (Some USER_STORE_SHADOW_PATH) (Some [0]) (-1);;
          if rc <? 0 then Some (false, v)
          else '(_, v) <- Vfs.setFilePermissions e v (Some USER_STORE_SHADOW_PATH) 384;; Some (true, v));;
      if negb created then Some (false, Vfs.endPrivileged v, g)
      else
        '(iStatus, v) <- Vfs.writeFile e v (Some USER_STORE_SHADOW_PATH) (Some line) (u32 (zlen line)) true;;
        Some (iStatus >=? 0, Vfs.endPrivileged v, g)
  end.

Definition addUser (e : env) (v : Vfs.VfsDispatcher B) (g : rng) (st : locals) (millis : Z) (record : user_record) (password : option (list Z))
  : option (bool * Vfs.VfsDispatcher B * rng) :=
  if bool_decide (m_username record = []) then Some (false, v, g)
  else
    existing <- findUserByName e v (Some (m_username record));;
    match existing with
    | Some _ => Some (false, v, g)
    | None =>
        line <- serializePasswdLine (l_numbuf st) record;;
        let line := line ++ [10] in
        ex <- Vfs.isFileExist v (Some USER_STORE_PASSWD_PATH);;
        '(rc, v) <- (if ex : bool then Some (0, v) else Vfs.createFile e v (Some USER_STORE_PASSWD_PATH) (Some [0]) (-1));;
        if rc <? 0 then Some (false, v, g)
        else
          '(iStatus, v) <- Vfs.writeFile e v (Some USER_STORE_PASSWD_PATH) (Some line) (u32 (zlen line)) true;;
          if iStatus <? 0 then Some (false, v, g)
          else
            match password with
            | None | Some [] => Some (true, v, g)
            | Some _ =>
                '(ok, v, g) <- setPassword e v g st millis (Some (m_username record)) password;;
                if ok : bool then Some (true, v, g)
                else '(_, v) <- removeLineByUsername e v USER_STORE_PASSWD_PATH (m_username record);; Some (false, v, g)
            end
    end.

Definition removeUser (e : env) (v : Vfs.VfsDispatcher B) (username : option (list Z)) : option (bool * Vfs.VfsDispatcher B) :=
  match username with
  | None | Some [] => Some (false, v)
  | Some u =>
      '(passwdRemoved, v) <- removeLineByUsername e v USER_STORE_PASSWD_PATH u;;
      '(_, v) <- removeLineByUsername e v USER_STORE_SHADOW_PATH u;;
      Some (passwdRemoved, v)
  end.

(** [creds]: the user name and the password of the login table, when it can be read. *)
Definition bootstrapFromLoginTable (e : env) (v : Vfs.VfsDispatcher B) (g : rng) (st : locals) (millis : Z)
    (creds : option (list Z * list Z)) : option (Vfs.VfsDispatcher B * rng) :=
  ex <- Vfs.isFileExist v (Some USER_STORE_SHADOW_PATH);;
  '(_, v) <- (if ex : bool then Vfs.setFilePermissions e v (Some USER_STORE_SHADOW_PATH) 384 else Some (0, v));;
  ex <- Vfs.isFileExist v (Some USER_STORE_PASSWD_PATH);;
  if ex : bool then Some (v, g)
  else
    dir <- Vfs.isDirectory v (Some USER_STORE_ETC_DIR);;
    '(rc, v) <- (if dir : bool then Some (0, v) else Vfs.createDirectory e v (Some USER_STORE_ETC_DIR));;
    if rc <? 0 then Some (v, g)
    else
      match creds with
      | None => Some (v, g)
      | Some (username, password) =>
          if bool_decide (username = []) then Some (v, g)
          else
            let root := mkUser USER_STORE_ROOT_UID USER_STORE_ROOT_GID username homedir USER_STORE_DEFAULT_SHELL in
            '(_, v, g) <- addUser e v g st millis root (Some password);;
            Some (v, g)
      end.

End service.
Arguments mkRng {R} _ _.
Arguments s_seeded {R} _.
Arguments r_state {R} _.

(** ** Account lines *)

Lemma field_loop_sep f : forall cur rest n, without USER_STORE_FIELD_SEP f ->
  field_loop (f ++ USER_STORE_FIELD_SEP :: rest) cur (S n) = (cur ++ f) :: field_loop rest [] n.
Proof.
  induction f as [|c f IH]; intros cur rest n Hf; cbn [app field_loop]; [by rewrite app_nil_r|].
  apply Forall_cons_1 in Hf as [Hc Hf]. destruct (Z.eqb_spec c USER_STORE_FIELD_SEP); [done|]. rewrite IH by done. by rewrite <- app_assoc.
Qed.

Lemma field_loop_end f : forall cur n, without USER_STORE_FIELD_SEP f -> field_loop f cur (S n) = [cur ++ f].
Proof.
  induction f as [|c f IH]; intros cur n Hf; cbn [field_loop]; [by rewrite app_nil_r|].
  apply Forall_cons_1 in Hf as [Hc Hf]. destruct (Z.eqb_spec c USER_STORE_FIELD_SEP); [done|]. rewrite IH by done. by rewrite <- app_assoc.
Qed.

Lemma no_nul_digits ds : Forall (fun c => is_digit c = true) ds -> no_nul ds /\ without USER_STORE_FIELD_SEP ds /\ without 10 ds.
Proof.
  intros Hd. split_and!; (eapply Forall_impl; [exact Hd|]); intros c Hc; cbn in Hc; unfold is_digit in Hc;
    apply andb_prop in Hc as [H1 H2]; apply Z.leb_le in H1; apply Z.leb_le in H2; unfold USER_STORE_FIELD_SEP; lia.
Qed.

(** A 16-bit number is printed into the buffer, and read back from the field. *)
Lemma number_text n buf : 0 <= n < 65536 -> length buf = 8%nat ->
  exists ds buf', Uint32ToString n (Some buf) 8 0 = Some (Some buf') /\ length buf' = 8%nat /\ c_text (Some buf') = Some ds /\
    Forall (fun c => is_digit c = true) ds /\ zlen ds <= 5 /\ StringToUint32 (Some (ds ++ [0])) (u8 (zlen ds)) = Some n.
Proof.
  intros Hn Hb. destruct (tmp_digits_decimal 11 n) as [Hd _]; [change (10 ^ Z.of_nat 11) with 100000000000; lia|lia|].
  set (ds := tmp_digits dec_digit 10 11 n) in *. destruct (decimal_bounds _ _ Hd) as (H1 & H2 & H3).
  assert (zlen ds <= 5) as Hl.
  { destruct H3 as [[-> _]|H3]; [done|]. assert (zlen ds - 1 < 5); [|lia]. apply (Z.pow_lt_mono_r_iff 10); [lia..|]. change (10 ^ 5) with 100000. lia. }
  exists ds. eexists. split; [apply print_tmp_spec; unfold zlen; rewrite Hb; lia|]. unfold printed. fold ds.
  rewrite take_ge by (unfold zlen in Hl; lia). replace (Z.max 0 (Z.min 0 (8 - 1) - zlen ds)) with 0 by lia. change (blanks 0) with (@nil Z). rewrite app_nil_l.
  rewrite drop_ge, app_nil_r by (rewrite Hb; lia). unfold zeros. replace (Z.to_nat (8 - zlen ds - 0)) with (S (Z.to_nat (7 - zlen ds))) by lia. cbn [replicate].
  destruct (no_nul_digits ds (proj1 Hd)) as (Hnn & _). split; [rewrite length_app; cbn; rewrite length_replicate; unfold zlen in *; lia|].
  split; [by apply FsImpl.string_here|]. split; [apply Hd|]. split; [done|]. rewrite u8_small by lia.
  apply (parse_decimal u32 4294967296 n ds 0 1 []); try done; lia.
Qed.

(** What the file can hold: no separator and no newline in a field, a name that is not a
    comment, no carriage return at the end. *)
Record user_ok (r : user_record) : Prop := {
  uo_uid : 0 <= m_uid r < 65536;
  uo_gid : 0 <= m_gid r < 65536;
  uo_name : m_username r <> [] /\ head (m_username r) <> Some 35;
  uo_sep : without USER_STORE_FIELD_SEP (m_username r) /\ without USER_STORE_FIELD_SEP (m_home r) /\ without USER_STORE_FIELD_SEP (m_shell r);
  uo_line : without 10 (m_username r) /\ without 10 (m_home r) /\ without 10 (m_shell r);
  uo_shell : list.last (m_shell r) <> Some 13;
  uo_text : no_nul (m_username r) /\ no_nul (m_home r) /\ no_nul (m_shell r) }.

Lemma last_app_cons (a b : list Z) x : list.last (a ++ x :: b) = match list.last b with Some y => Some y | None => Some x end.
Proof. rewrite last_app, last_cons. by destruct (list.last b). Qed.

Lemma strip_cr_keeps s : list.last s <> Some 13 -> LittleFs.strip_cr s = s.
Proof. intros Hl. unfold LittleFs.strip_cr. by rewrite bool_decide_eq_false_2. Qed.

Lemma passwd_line_spec buf r : length buf = 8%nat -> user_ok r ->
  exists line, serializePasswdLine buf r = Some line /\ without 10 line /\ no_nul line /\ line <> [] /\
    zlen line <= zlen (m_username r) + zlen (m_home r) + zlen (m_shell r) + 16 /\
    LittleFs.strip_cr line = line /\ parsePasswdLine line = Some (Some r).
Proof.
  intros Hb Hr. destruct (uo_name r Hr) as [Hn1 Hn2], (uo_sep r Hr) as (S1 & S2 & S3), (uo_line r Hr) as (L1 & L2 & L3), (uo_text r Hr) as (T1 & T2 & T3).
  destruct (number_text (m_uid r) buf (uo_uid r Hr) Hb) as (ds & buf' & E1 & Hb' & E2 & D1 & Z1 & P1).
  destruct (number_text (m_gid r) buf' (uo_gid r Hr) Hb') as (ds' & buf2 & E3 & _ & E4 & D2 & Z2 & P2).
  destruct (no_nul_digits ds D1) as (T4 & S4 & L4), (no_nul_digits ds' D2) as (T5 & S5 & L5).
  unfold serializePasswdLine. rewrite E1. cbn [mbind option_bind]. rewrite E2. cbn [mbind option_bind]. rewrite E3. cbn [mbind option_bind].
  rewrite E4. cbn [mbind option_bind]. eexists. split; [done|]. cbn [app].
  split; [repeat (apply Forall_app; split; [done|]; constructor; [done|]); constructor; [done|]; constructor; [done|];
    repeat (apply Forall_app; split; [done|]; constructor; [done|]); done|].
  split; [repeat (apply Forall_app; split; [done|]; constructor; [done|]); constructor; [done|]; constructor; [done|];
    repeat (apply Forall_app; split; [done|]; constructor; [done|]); done|].
  split; [by destruct (m_username r)|]. split; [repeat rewrite zlen_app || rewrite zlen_cons; lia|].
  split.
  { apply strip_cr_keeps. do 2 rewrite ?app_comm_cons, ?app_assoc. rewrite last_app_cons. pose proof (uo_shell r Hr).
    destruct (list.last (m_shell r)); [done|]. done. }
  unfold parsePasswdLine. rewrite !bool_decide_eq_false_2 by (by destruct (m_username r)). cbn [orb].
  rewrite field_loop_sep by done. match goal with |- context [field_loop (120 :: ?x)] => change (120 :: x) with ([120] ++ x) end.
  rewrite field_loop_sep by (by repeat constructor). rewrite !field_loop_sep by done.
  rewrite field_loop_end by done. cbn [app map]. rewrite !StrOps.string_data_text by (done || by repeat constructor). rewrite P1. cbn [mbind option_bind]. rewrite P2. cbn [mbind option_bind].
  rewrite !u16_small by apply Hr. by destruct r.
Qed.

(** ** Texts and their lines *)

(** Every line has its newline. *)
Definition ended (d : list Z) : Prop := d = [] \/ list.last d = Some 10.

Definition unlines (ls : list (list Z)) : list Z := concat (map (fun l => l ++ [10]) ls).

Lemma ended_cons x d : ended (x :: d) -> ended d /\ (d = [] -> x = 10).
Proof.
  intros [?|E]; [done|]. rewrite last_cons in E. destruct (list.last d) as [y|] eqn:El; [split; [by right; rewrite El, E|by intros ->]|].
  apply last_None in El. injection E as ->. split; [by left|done].
Qed.

Lemma lines_nonempty d : d <> [] -> LittleFs.lines d <> [].
Proof. destruct d as [|x d]; [done|]. cbn. intros _. destruct (x =? 10); [done|]. by destruct (LittleFs.lines d). Qed.

Lemma lines_app a : forall b, ended a -> LittleFs.lines (a ++ b) = LittleFs.lines a ++ LittleFs.lines b.
Proof.
  induction a as [|x a IH]; intros b Ha; [done|]. apply ended_cons in Ha as [Ha Hx]. cbn [app LittleFs.lines]. rewrite IH by done.
  destruct (Z.eqb_spec x 10) as [_|Hne]; [done|]. destruct (LittleFs.lines a) eqn:E; [|done].
  destruct (decide (a = [])) as [->|Hne']; [by destruct Hne, Hx|]. by apply lines_nonempty in Hne'.
Qed.

Lemma lines_one l : without 10 l -> LittleFs.lines (l ++ [10]) = [l].
Proof.
  induction l as [|x l IH]; intros Hl; [done|]. apply Forall_cons_1 in Hl as [Hx Hl]. cbn [app LittleFs.lines].
  destruct (Z.eqb_spec x 10); [done|]. by rewrite IH.
Qed.

Lemma lines_without d : Forall (without 10) (LittleFs.lines d).
Proof.
  induction d as [|x d IH]; [constructor|]. cbn [LittleFs.lines]. destruct (Z.eqb_spec x 10) as [_|Hx]; [by constructor; [constructor|]|].
  destruct (LittleFs.lines d) as [|l ls]; [by repeat constructor|]. apply Forall_cons_1 in IH as [Hl Hls]. constructor; [by constructor|done].
Qed.

Lemma unlines_snoc ls l : unlines (ls ++ [l]) = unlines ls ++ l ++ [10].
Proof. unfold unlines. rewrite map_app, concat_app. cbn. by rewrite app_nil_r. Qed.

Lemma unlines_ended ls : ended (unlines ls).
Proof.
  destruct ls as [|l ls _] using rev_ind; [by left|]. right. by rewrite unlines_snoc, app_assoc, last_snoc.
Qed.

Lemma lines_unlines ls : Forall (without 10) ls -> LittleFs.lines (unlines ls) = ls.
Proof.
  induction ls as [|l ls IH] using rev_ind; intros Hls; [done|]. apply Forall_app in Hls as [Hls Hl]. apply Forall_cons_1 in Hl as [Hl _].
  rewrite unlines_snoc, lines_app by apply unlines_ended. by rewrite IH, lines_one.
Qed.

Lemma unlines_nil ls : unlines ls = [] -> ls = [].
Proof. destruct ls as [|l ls]; [done|]. unfold unlines. cbn. by destruct l. Qed.

Lemma unlines_lines d : zlen (unlines (LittleFs.lines d)) <= zlen d + 1.
Proof.
  assert (forall d, zlen (unlines (LittleFs.lines d)) <= zlen d + (if bool_decide (d = []) then 0 else 1)) as H.
  { clear d. induction d as [|x d IH]; [done|]. rewrite (bool_decide_eq_false_2 (x :: d = [])) by done. cbn [LittleFs.lines]. rewrite zlen_cons.
    assert (zlen (unlines (LittleFs.lines d)) <= zlen d + 1) as H by (destruct (bool_decide (d = [])); lia).
    destruct (Z.eqb_spec x 10) as [_|Hx].
    - change (unlines ([] :: LittleFs.lines d)) with (10 :: unlines (LittleFs.lines d)). rewrite zlen_cons. lia.
    - destruct (decide (d = [])) as [->|Hd]; [done|]. destruct (LittleFs.lines d) as [|l ls] eqn:E; [by apply lines_nonempty in Hd|].
      change (unlines ((x :: l) :: ls)) with (x :: unlines (l :: ls)). rewrite zlen_cons. lia. }
  specialize (H d). destruct (bool_decide (d = [])); lia.
Qed.

Lemma unlines_filter (P : list Z -> bool) ls : zlen (unlines (List.filter P ls)) <= zlen (unlines ls).
Proof.
  induction ls as [|l ls IH]; [done|]. cbn [List.filter]. change (unlines (l :: ls)) with ((l ++ [10]) ++ unlines ls). rewrite zlen_app.
  pose proof (zlen_nonneg (l ++ [10])). destruct (P l); [|lia]. change (unlines (l :: List.filter P ls)) with ((l ++ [10]) ++ unlines (List.filter P ls)).
  rewrite zlen_app. lia.
Qed.

(** The lines one by one. *)
Lemma lines_first d : d <> [] -> LittleFs.lines d = LittleFs.first_line d :: LittleFs.lines (drop (S (length (LittleFs.first_line d))) d).
Proof.
  induction d as [|x d IH]; intros Hd; [done|]. cbn [LittleFs.lines]. rewrite LittleFs.first_line_cons. destruct (Z.eqb_spec x 10); [done|].
  cbn [length drop]. destruct (decide (d = [])) as [->|Hne]; [done|]. rewrite IH by done. done.
Qed.

Section lookup.
Context {B : Type} {names : list path} `{FileStore B names}.

(** [body] on every line until it stops. *)
Fixpoint over_lines {A} (body : Vfs.VfsDispatcher B -> A -> list Z -> option (bool * Vfs.VfsDispatcher B * A))
    (v : Vfs.VfsDispatcher B) (x : A) (ls : list (list Z)) : option (Vfs.VfsDispatcher B * A) :=
  match ls with
  | [] => Some (v, x)
  | l :: ls => '(stop, v, x) <- body v x l;; if stop : bool then Some (v, x) else over_lines body v x ls
  end.

Lemma line_loop_spec {A} (I : Vfs.VfsDispatcher B -> Prop) e p d i
    (body : Vfs.VfsDispatcher B -> A -> list Z -> option (bool * Vfs.VfsDispatcher B * A)) :
  p ∈ names -> no_nul d -> (forall v, I v -> mounted v i /\ trusted e v /\ Vfs.file_at v (Some p) = Some d) ->
  (forall v x l s v' x', I v -> zlen l <= zlen d -> body v x l = Some (s, v', x') -> I v') ->
  forall fuel o v x, I v -> 0 <= o <= zlen d + 1 -> (length (drop (Z.to_nat o) d) < fuel)%nat ->
  line_loop fuel e p (zlen d) body o v x = over_lines body v x (LittleFs.lines (drop (Z.to_nat o) d)).
Proof.
  intros Hp Htxt HI Hbody. induction fuel as [|fuel IH]; intros o v x Hv Ho Hf; [lia|]. cbn [line_loop].
  destruct (HI v Hv) as (Hh & Ht & Hd). pose proof (store_size v i Hh p d Hp Hd) as Hz. pose proof (zlen_nonneg d). rewrite (u64_small (zlen d)) by lia.
  destruct (Z.ltb_spec o (zlen d)) as [Hlt|Hge]; cycle 1.
  { rewrite drop_ge by (unfold zlen in Hge; lia). done. }
  rewrite (store_readLine e v i Hh Ht p d o Hp Hd Htxt) by lia. cbn [mbind option_bind]. set (rest := drop (Z.to_nat o) d) in *.
  assert (rest <> []) as Hne by (intros E; apply (f_equal length) in E; unfold rest in E; rewrite length_drop in E; cbn in E; unfold zlen in Hlt; lia).
  rewrite (lines_first rest Hne). cbn [over_lines]. set (l := LittleFs.first_line rest) in *. pose proof (zlen_nonneg l).
  destruct (Z.ltb_spec (zlen l) 0); [lia|]. assert (zlen l <= zlen rest) as Hl.
  { unfold l, LittleFs.first_line. destruct (StrOps.first_occ [10] rest); [|lia]. unfold zlen. rewrite length_take. lia. }
  assert (zlen rest = zlen d - o) as Hr by (unfold rest, zlen in *; rewrite length_drop; lia).
  destruct (body v x l) as [[[s v'] x']|] eqn:Eb; [|done]. cbn [mbind option_bind]. destruct s; [done|].
  rewrite !u64_small by (rewrite ?u64_small by lia; lia).
  replace (drop (S (length l)) rest) with (drop (Z.to_nat (o + (zlen l + 1))) d); cycle 1.
  { unfold rest. rewrite drop_drop. f_equal. unfold zlen. lia. }
  apply IH; [eapply Hbody; [exact Hv| |exact Eb]; lia|lia|]. rewrite length_drop in *. unfold rest in Hf. rewrite length_drop in Hf. unfold zlen in *. lia.
Qed.
End lookup.

(** ** Looking accounts up *)

(** The number parsers end at the terminator. *)
Lemma skip_while_total f s : forall n len, f 0 = false -> exists t m, skip_while f (s ++ [0]) n len = Some (t ++ [0], m).
Proof.
  induction s as [|c s IH]; intros n len Hf; cbn [app skip_while].
  - rewrite Hf. cbn. by exists [], n.
  - destruct (f c && (n <? len)); [by apply IH|]. by exists (c :: s), n.
Qed.

Lemma digits_loop_total wrap s : forall n len x, exists y, digits_loop wrap (s ++ [0]) n len x = Some y.
Proof.
  induction s as [|c s IH]; intros n len x; cbn [app digits_loop]; [by eexists|]. destruct (is_digit c && (n <? len)); [by apply IH|by eexists].
Qed.

Lemma StringToUint32_total s len : exists y, StringToUint32 (Some (s ++ [0])) len = Some y.
Proof.
  unfold StringToUint32, string_to_uint. destruct (skip_while_total is_pad s 0 len eq_refl) as (t & m & ->). cbn [mbind option_bind]. apply digits_loop_total.
Qed.

Lemma parse_total line : exists r, parsePasswdLine line = Some r.
Proof.
  unfold parsePasswdLine. destruct (_ || _); [by eexists|]. destruct (map StrOps.string_data (field_loop line [] 6)) as [|f0 [|f1 [|f2 [|f3 [|f4 [|f5 [|]]]]]]]; try by eexists.
  destruct (StringToUint32_total f2 (u8 (zlen f2))) as [u ->], (StringToUint32_total f3 (u8 (zlen f3))) as [g ->]. by eexists.
Qed.

(** The account a line describes. *)
Definition account (line : list Z) : option user_record := default None (parsePasswdLine (LittleFs.strip_cr line)).

Definition accounts (d : list Z) : list user_record := omap account (LittleFs.lines d).

Definition wanted (matchByUid : bool) (uid : Z) (username : option (list Z)) (c : user_record) : bool :=
  if matchByUid then m_uid c =? uid else bool_decide (username = Some (m_username c)).

(** The files of the store: the two of [/etc] and their copies in the directory for
    temporary files. *)
Definition store_names (tempdir : path) : list path :=
  [USER_STORE_PASSWD_PATH; USER_STORE_SHADOW_PATH; tempdir ++ FsImpl.basename (Some USER_STORE_PASSWD_PATH);
   tempdir ++ FsImpl.basename (Some USER_STORE_SHADOW_PATH)].

(** ** Hashes *)

(** Arrays of the sizes the code declares. *)
Record locals_ok (st : locals) : Prop := {
  lo_hash : length (l_hash st) = 32%nat;
  lo_salt : length (l_salt st) = 8%nat;
  lo_computed : length (l_computed st) = 32%nat;
  lo_hexhash : length (l_hexhash st) = 65%nat;
  lo_hexsalt : length (l_hexsalt st) = 17%nat;
  lo_numbuf : length (l_numbuf st) = 8%nat;
  lo_ctx : length (data (l_ctx st)) = 64%nat /\ bytes_ok (data (l_ctx st)) }.

Lemma hashPassword_spec ctx pw salt out : length (data ctx) = 64%nat -> bytes_ok (data ctx) -> bytes_ok pw -> zlen pw < 4294967296 ->
  bytes_ok salt -> length salt = 8%nat -> length out = 32%nat ->
  hashPassword ctx (Some pw) (Some salt) USER_STORE_SALT_LEN out = Some (fips_sha256 (salt ++ pw)).
Proof.
  intros Hd Hb Hpw Hz Hs Hsl Ho. unfold hashPassword. change (USER_STORE_SALT_LEN >? 0) with true. cbv iota.
  destruct (sha256_update_absorbed _ [] salt [] (sha256_init_absorbed ctx Hd Hb) Hs) as (c1 & E1 & A1). rewrite app_nil_r in E1.
  assert (zlen salt = USER_STORE_SALT_LEN) as Ez by (unfold zlen; by rewrite Hsl). rewrite Ez in E1. rewrite E1. cbn [mbind option_bind].
  pose proof (zlen_nonneg pw). rewrite u32_small by lia. destruct (sha256_update_absorbed c1 ([] ++ salt) pw [0] A1 Hpw) as (c2 & -> & A2). cbn [mbind option_bind].
  destruct (sha256_final_spec c2 (([] ++ salt) ++ pw) out A2 Ho) as (c3 & ->). done.
Qed.

Lemma byte_lor x y : byte_ok x -> byte_ok y -> byte_ok (Z.lor x y).
Proof.
  unfold byte_ok. intros Hx Hy. split; [apply Z.lor_nonneg; lia|]. destruct (decide (Z.lor x y = 0)) as [->|Hne]; [lia|].
  assert (0 <= Z.lor x y) by (apply Z.lor_nonneg; lia).
  change 256 with (2 ^ 8). apply Z.log2_lt_pow2; [lia|]. rewrite Z.log2_lor by lia.
  assert (forall z, 0 <= z < 256 -> Z.log2 z < 8) as Hl.
  { intros z Hz. destruct (decide (z = 0)) as [->|]; [cbn; lia|]. apply Z.log2_lt_pow2; lia. }
  apply Z.max_lub_lt; by apply Hl.
Qed.

Lemma diff_loop_eq a : forall b pa pb d, bytes_ok a -> bytes_ok b -> length a = length b -> zlen pa = zlen pb -> byte_ok d ->
  exists d', diff_loop (length a) (zlen pa) (pa ++ a) (pb ++ b) d = Some d' /\ (d' = 0 <-> d = 0 /\ a = b).
Proof.
  induction a as [|x a IH]; intros [|y b] pa pb d Ha Hb Hl Hp Hd; try done; cbn [length diff_loop].
  { exists d. split; [done|]. tauto. }
  apply Forall_cons_1 in Ha as [Hx Ha]. apply Forall_cons_1 in Hb as [Hy Hb]. rewrite mget_app_mid. cbn [mbind option_bind]. rewrite Hp, mget_app_mid. cbn [mbind option_bind].
  pose proof (lxor_byte x y Hx Hy) as Hxy.
  rewrite (u8_small (Z.lxor x y)) by done. pose proof (byte_lor d (Z.lxor x y) Hd Hxy) as Hor. rewrite u8_small by done.
  specialize (IH b (pa ++ [x]) (pb ++ [y]) (Z.lor d (Z.lxor x y)) Ha Hb ltac:(cbn in Hl; lia) ltac:(rewrite !zlen_app, Hp; done) Hor).
  rewrite <- !app_assoc in IH. cbn [app] in IH. rewrite zlen_app in IH. change (zlen [x]) with 1 in IH. rewrite Hp in IH. destruct IH as (d' & E & Hiff). exists d'. split; [done|].
  rewrite Hiff, Z.lor_eq_0_iff, Z.lxor_eq_0_iff. split; [intros [[-> ->] ->]; done|]. intros [-> [= -> ->]]. done.
Qed.

Lemma diff_loop_spec a b : bytes_ok a -> bytes_ok b -> length a = 32%nat -> length b = 32%nat ->
  exists d, diff_loop 32 0 a b 0 = Some d /\ (d =? 0) = bool_decide (a = b).
Proof.
  intros Ha Hb La Lb. destruct (diff_loop_eq a b [] [] 0 Ha Hb ltac:(congruence) eq_refl ltac:(unfold byte_ok; lia)) as (d & E & Hd).
  rewrite La in E. exists d. split; [done|]. apply Bool.eq_iff_eq_true. rewrite Z.eqb_eq, bool_decide_eq_true, Hd. tauto.
Qed.

(** ** Password lines *)

Lemma hexes_without bs : bytes_ok bs -> without USER_STORE_FIELD_SEP (hexes bs) /\ without 10 (hexes bs) /\ no_nul (hexes bs) /\ without 13 (hexes bs).
Proof.
  assert (forall n, 0 <= n < 16 -> let c := hex_digit false n in 48 <= c <= 57 \/ 97 <= c <= 102) as Hd.
  { intros n Hn. unfold hex_digit. destruct (Z.ltb_spec n 10); cbv zeta; lia. }
  intros Hb. induction Hb as [|b bs Hb _ IH]; [by repeat constructor|]. change (hexes (b :: bs)) with (hex_pair b ++ hexes bs). destruct IH as (I1 & I2 & I3 & I4).
  pose proof (Hd (b / 16)) as H1. pose proof (Hd (b mod 16)) as H2. unfold byte_ok in Hb. cbv zeta in H1, H2.
  specialize (H1 ltac:(split; [apply Z.div_pos; lia|apply Z.div_lt_upper_bound; lia])). specialize (H2 ltac:(apply Z.mod_pos_bound; lia)).
  unfold hex_pair, USER_STORE_FIELD_SEP in *. split_and!; (constructor; [|constructor; [|done]]); lia.
Qed.

(** The line [setPassword] writes. *)
Definition shadow_text (u h s : list Z) : list Z := u ++ USER_STORE_FIELD_SEP :: hexes h ++ USER_STORE_FIELD_SEP :: hexes s.

Lemma hex_field bs rest out : bytes_ok bs -> length out = length bs ->
  HexStringToBytes (Some (hexes bs ++ rest)) (zlen bs) (Some out) = Some (true, Some bs).
Proof.
  intros Hb Hl. unfold HexStringToBytes. pose proof (from_hex_spec bs [] rest out Hb ltac:(unfold zlen; lia)) as E. cbn [app] in E.
  replace (Z.to_nat (zlen bs)) with (length bs) by (unfold zlen; lia). change (zlen []) with 0 in E. rewrite E. cbn. by rewrite drop_ge, app_nil_r by lia.
Qed.

Lemma drop_past (a : list Z) x b : drop (S (length a)) (a ++ x :: b) = b.
Proof. induction a; [done|]. cbn. done. Qed.

Lemma shadow_line_own u h s ho so : without USER_STORE_FIELD_SEP u -> bytes_ok h -> bytes_ok s -> length h = 32%nat -> length s = 8%nat ->
  length ho = 32%nat -> length so = 8%nat -> shadow_line u (shadow_text u h s) ho so = Some (true, h, s).
Proof.
  intros Hu Hh Hs Lh Ls Lho Lso. set (t := shadow_text u h s). destruct (hexes_without h Hh) as (W1 & _).
  pose proof (hexes_len h) as Zh. pose proof (hexes_len s) as Zs. unfold zlen in Zh, Zs. rewrite Lh in Zh. rewrite Ls in Zs.
  assert (length (hexes h) = 64%nat) as Z1 by lia. assert (length (hexes s) = 16%nat) as Z2 by lia.
  assert (length t = (length u + 82)%nat) as Lt by (unfold t, shadow_text; rewrite !length_app; cbn; rewrite length_app; cbn; lia).
  assert (take (length u) t = u) as Et by apply take_app_length.
  assert (drop (S (length u)) t = hexes h ++ USER_STORE_FIELD_SEP :: hexes s) as E1 by apply drop_past.
  assert (drop (S (S (length u) + 64)) t = hexes s) as E2.
  { replace (S (S (length u) + 64)) with (S (length u) + S 64)%nat by lia. rewrite <- drop_drop, E1, <- Z1. apply drop_past. }
  assert (find_sep t 0 = Some (length u)) as F1 by (unfold find_sep; rewrite drop_0; unfold t, shadow_text; by rewrite StrOps.first_occ_here).
  assert (find_sep t (S (length u)) = Some (S (length u) + 64)%nat) as F2 by (unfold find_sep; rewrite E1, StrOps.first_occ_here by done; by rewrite Z1).
  unfold shadow_line. rewrite F1, F2, Et, E1, E2, Lt, !bool_decide_eq_true_2 by done. cbn [negb andb].
  replace (S (length u) + 64 - length u - 1)%nat with 64%nat by lia. replace (length u + 82 - (S (length u) + 64) - 1)%nat with 16%nat by lia.
  change ((Z.of_nat 64 =? 64) && (Z.of_nat 16 =? USER_STORE_SALT_LEN * 2)) with true. cbn [negb].
  pose proof (hex_field h) as G1. pose proof (hex_field s) as G2. unfold zlen in G1, G2. rewrite Lh in G1. rewrite Ls in G2.
  rewrite <- app_assoc, (G1 _ ho) by (done || congruence). cbn [mbind option_bind negb]. change USER_STORE_SALT_LEN with (Z.of_nat 8).
  rewrite (G2 _ so) by (done || congruence). done.
Qed.

Lemma matches_user_spec u l : matches_user u l = true <-> exists r, l = u ++ USER_STORE_FIELD_SEP :: r.
Proof.
  unfold matches_user. rewrite !andb_true_iff, !bool_decide_eq_true, Nat.ltb_lt. split.
  - intros [[Hl Ht] Hs]. exists (drop (S (length u)) l). rewrite <- Ht at 1. by rewrite <- (take_drop_middle l _ _ Hs) at 1.
  - intros [r ->]. rewrite length_app, take_app_length, lookup_app_r, Nat.sub_diag by lia. cbn. split; [split; [lia|done]|done].
Qed.

(** A line has one owner. *)
Lemma matches_user_unique u u' l : without USER_STORE_FIELD_SEP u -> without USER_STORE_FIELD_SEP u' ->
  matches_user u l = true -> matches_user u' l = true -> u = u'.
Proof.
  intros Hu Hu' [r E]%matches_user_spec [r' E']%matches_user_spec.
  pose proof (StrOps.first_occ_here USER_STORE_FIELD_SEP u r Hu) as F. pose proof (StrOps.first_occ_here USER_STORE_FIELD_SEP u' r' Hu') as F'.
  rewrite <- E in F. rewrite <- E', F in F'. injection F' as Hl. rewrite E in E'. by apply app_inj_1 in E' as [? _].
Qed.

Lemma strip_cr_prefix l : exists r, l = LittleFs.strip_cr l ++ r.
Proof. unfold LittleFs.strip_cr. case_bool_decide; [|exists []; by rewrite app_nil_r]. exists (drop (length l - 1) l). by rewrite take_drop. Qed.

Lemma shadow_line_other u l ho so : matches_user u l = false -> shadow_line u (LittleFs.strip_cr l) ho so = Some (false, ho, so).
Proof.
  intros Hm. unfold shadow_line. destruct (find_sep (LittleFs.strip_cr l) 0) as [k|] eqn:Ek; [|done].
  destruct (bool_decide (k = length u) && bool_decide (take (length u) (LittleFs.strip_cr l) = u)) eqn:Eb; [|done]. exfalso.
  apply andb_true_iff in Eb as [->%bool_decide_eq_true Et%bool_decide_eq_true]. unfold find_sep in Ek. rewrite drop_0 in Ek.
  destruct (StrOps.first_occ _ _) as [k|] eqn:Ef; [|done]. injection Ek as ->. apply StrOps.first_occ_spec in Ef as ([r Hr] & _).
  destruct (strip_cr_prefix l) as [x El]. apply Bool.not_true_iff_false in Hm. apply Hm, matches_user_spec. exists (r ++ x). rewrite El at 1.
  rewrite <- (take_drop (length u) (LittleFs.strip_cr l)) at 1. rewrite Et, Hr, <- app_assoc. done.
Qed.

(** What [readShadowRecord] finds in the lines. *)
Fixpoint shadow_find (u : list Z) (ls : list (list Z)) (ho so : list Z) : option (bool * list Z * list Z) :=
  match ls with
  | [] => Some (false, ho, so)
  | l :: ls =>
      '(found, ho, so) <- shadow_line u (LittleFs.strip_cr l) ho so;;
      if found : bool then Some (true, ho, so) else shadow_find u ls ho so
  end.

(** Only the lines of the user matter. *)
Lemma shadow_find_own u ls : forall ho so, shadow_find u ls ho so = shadow_find u (List.filter (matches_user u) ls) ho so.
Proof.
  induction ls as [|l ls IH]; intros ho so; [done|]. cbn [shadow_find List.filter]. destruct (matches_user u l) eqn:E; cbn [shadow_find].
  - destruct (shadow_line _ _ _ _) as [[[f h] s]|]; [|done]. cbn. by destruct f.
  - rewrite shadow_line_other by done. cbn. apply IH.
Qed.

(** ** What is left of a file *)

(** The line stays when the lines of [u] are removed. *)
Definition stays (u l : list Z) : bool := negb (matches_user u l) && negb (bool_decide (l = [])).

(** What a file has of these lines when it is made by appending them. *)
Definition file_of_lines (ls : list (list Z)) : option (list Z) := if bool_decide (ls = []) then None else Some (unlines ls).

Lemma file_of_lines_default ls : default [] (file_of_lines ls) = unlines ls.
Proof. unfold file_of_lines. by case_bool_decide as E; [rewrite E|]. Qed.

(** The lines of the other users are what is left, and nothing else changes. *)
Definition removed_file (u d : list Z) : option (list Z) :=
  if existsb (matches_user u) (LittleFs.lines d) then file_of_lines (List.filter (stays u) (LittleFs.lines d)) else Some d.

(** ** Salts and hexadecimal texts *)

Lemma salt_loop_spec {R} (rand : R -> Z * R) n : forall pre rest r, length rest = n -> bytes_ok pre ->
  exists s r', salt_loop R rand n (zlen pre) (pre ++ rest) r = Some (s, r') /\ length s = (length pre + n)%nat /\ bytes_ok s.
Proof.
  induction n as [|n IH]; intros pre rest r Hl Hp; cbn [salt_loop].
  { destruct rest; [|done]. exists pre, r. rewrite app_nil_r. split; [done|]. split; [lia|done]. }
  destruct rest as [|x rest]; [done|]. destruct (rand r) as [y r1]. rewrite mset_app_mid. cbn [mbind option_bind].
  specialize (IH (pre ++ [u8 (Z.land y 255)]) rest r1 ltac:(cbn in Hl; lia)). rewrite <- app_assoc, zlen_app in IH. change (zlen [_]) with 1 in IH.
  destruct IH as (s & r' & E & El & Hs); [apply Forall_app; split; [done|]; constructor; [apply u8_range|constructor]|].
  exists s, r'. split; [done|]. split; [|done]. rewrite El, length_app. cbn. lia.
Qed.

Lemma hex_text bs out : bytes_ok bs -> length out = (2 * length bs + 1)%nat ->
  exists b, BytesToHexString (Some bs) (zlen bs) (Some out) = Some (Some b) /\ c_text (Some b) = Some (hexes bs).
Proof.
  intros Hb Hl. pose proof (to_hex_spec bs [] out Hb ltac:(unfold zlen; lia)) as E. rewrite !app_nil_l in E. change (hexes [] ++ out) with out in E. change (zlen []) with 0 in E.
  unfold BytesToHexString. replace (Z.to_nat (zlen bs)) with (length bs) by (unfold zlen; lia). rewrite E. cbn [mbind option_bind].
  destruct (drop (2 * length bs) out) as [|x rest] eqn:Ed; [apply (f_equal length) in Ed; rewrite length_drop in Ed; cbn in Ed; lia|].
  replace (zlen bs * 2) with (zlen (hexes bs)) by (rewrite hexes_len; lia). rewrite mset_app_mid. eexists. split; [done|].
  apply FsImpl.string_here. apply (hexes_without bs Hb).
Qed.

(** ** The lines after a password was set *)

Lemma filter_none {A} (P Q : A -> bool) ls : (forall x, In x ls -> P x = true -> Q x = false) -> List.filter P (List.filter Q ls) = [].
Proof.
  induction ls as [|x ls IH]; intros Hx; [done|]. cbn [List.filter]. destruct (Q x) eqn:Eq; [|apply IH; intros; apply Hx; [by right|done]].
  cbn [List.filter]. destruct (P x) eqn:Ep; [by rewrite (Hx x (or_introl eq_refl) Ep) in Eq|]. apply IH. intros. apply Hx; [by right|done].
Qed.

Lemma filter_same {A} (P Q : A -> bool) ls : (forall x, In x ls -> P x = true -> Q x = true) -> List.filter P (List.filter Q ls) = List.filter P ls.
Proof.
  induction ls as [|x ls IH]; intros Hx; [done|]. cbn [List.filter]. specialize (IH ltac:(intros; apply Hx; [by right|done])).
  destruct (Q x) eqn:Eq; cbn [List.filter]; [by rewrite IH|]. destruct (P x) eqn:Ep; [by rewrite (Hx x (or_introl eq_refl) Ep) in Eq|done].
Qed.

(** The lines that are left: none of [u], those of the others as before. *)
Lemma removed_lines u d : ended d -> without USER_STORE_FIELD_SEP u ->
  let d1 := default [] (removed_file u d) in
  ended d1 /\ zlen d1 <= zlen d + 1 /\ List.filter (matches_user u) (LittleFs.lines d1) = [] /\
  forall u', u' <> u -> without USER_STORE_FIELD_SEP u' ->
    List.filter (matches_user u') (LittleFs.lines d1) = List.filter (matches_user u') (LittleFs.lines d).
Proof.
  intros Hd Hu. cbv zeta. unfold removed_file. destruct (existsb (matches_user u) (LittleFs.lines d)) eqn:Ex.
  - rewrite file_of_lines_default. split; [apply unlines_ended|].
    split; [etransitivity; [apply unlines_filter|apply unlines_lines]|].
    assert (Forall (without 10) (List.filter (stays u) (LittleFs.lines d))) as Hw.
    { pose proof (lines_without d) as Hw. rewrite Forall_forall in Hw |- *. intros l [Hl _]%list_elem_of_In%filter_In. by apply Hw, list_elem_of_In. }
    rewrite lines_unlines by done. split.
    + apply filter_none. intros l _ Hm. unfold stays. by rewrite Hm.
    + intros u' Hne Hu'. apply filter_same. intros l _ Hm. unfold stays. apply andb_true_iff. split; apply negb_true_iff.
      * apply Bool.not_true_iff_false. intros Hm'. by destruct (Hne (matches_user_unique u' u l Hu' Hu Hm Hm')).
      * apply bool_decide_eq_false_2. intros ->. apply matches_user_spec in Hm as [r Hr]. by destruct u'.
  - change (default [] (Some d)) with d. split; [done|]. split; [lia|]. split; [|done]. apply Bool.not_true_iff_false in Ex. clear Hd.
    induction (LittleFs.lines d) as [|l ls IH]; [done|]. cbn [List.filter existsb] in *. apply Bool.not_true_iff_false, orb_false_iff in Ex as [-> Ex].
    apply IH. by rewrite Ex.
Qed.

Lemma lines_text d : no_nul d -> Forall no_nul (LittleFs.lines d).
Proof.
  induction 1 as [|x d Hx _ IH]; cbn [LittleFs.lines]; [constructor|]. destruct (x =? 10); [by repeat constructor|].
  destruct (LittleFs.lines d) as [|l ls]; [by repeat constructor|]. apply Forall_cons_iff in IH as [Hl Hls]. by repeat constructor.
Qed.

Lemma unlines_text ls : Forall no_nul ls -> no_nul (unlines ls).
Proof.
  unfold unlines. induction 1 as [|l ls Hl _ IH]; [constructor|]. cbn [map concat]. apply Forall_app. split; [|done]. apply Forall_app. split; [done|]. by repeat constructor.
Qed.

Lemma removed_text u d : no_nul d -> no_nul (default [] (removed_file u d)).
Proof.
  intros Hd. unfold removed_file. destruct (existsb _ _); [|done]. rewrite file_of_lines_default. apply unlines_text. pose proof (lines_text d Hd) as Hl.
  rewrite Forall_forall in Hl |- *. intros l [Hin _]%list_elem_of_In%filter_In. by apply Hl, list_elem_of_In.
Qed.

(** ** Accounts of a file *)

Lemma field_loop_first rest : forall cur n f g fs, field_loop rest cur (S n) = f :: g :: fs ->
  exists a r, f = cur ++ a /\ without USER_STORE_FIELD_SEP a /\ rest = a ++ USER_STORE_FIELD_SEP :: r.
Proof.
  induction rest as [|c rest IH]; intros cur n f g fs; cbn [field_loop]; [done|]. destruct (Z.eqb_spec c USER_STORE_FIELD_SEP) as [->|Hc].
  - intros [= <- _]. exists [], rest. split; [by rewrite app_nil_r|]. split; [constructor|done].
  - intros (a & r & -> & Ha & ->)%IH. exists (c :: a), r. split; [by rewrite <- app_assoc|]. split; [by constructor|done].
Qed.

(** The name of an account is the owner of its line. *)
Lemma account_owner l c : no_nul l -> account l = Some c -> without USER_STORE_FIELD_SEP (m_username c) /\ matches_user (m_username c) l = true.
Proof.
  intros Hn. unfold account, parsePasswdLine. destruct (strip_cr_prefix l) as [x Hl]. set (t := LittleFs.strip_cr l) in *. destruct (_ || _); [done|].
  destruct (field_loop t [] 6) as [|f0 [|f1 [|f2 [|f3 [|f4 [|f5 [|]]]]]]] eqn:Ef; try done. cbn [map].
  set (g2 := StrOps.string_data f2). set (g3 := StrOps.string_data f3).
  destruct (StringToUint32_total g2 (u8 (zlen g2))) as [y ->], (StringToUint32_total g3 (u8 (zlen g3))) as [z ->]. cbn [mbind option_bind]. intros [= <-]. cbn [m_username].
  destruct (field_loop_first t [] 5 f0 f1 _ Ef) as (a & r & -> & Ha & Et). cbn [app].
  assert (no_nul a) as Hna by (rewrite Hl, Et in Hn; by apply Forall_app in Hn as [[Hna _]%Forall_app _]). rewrite StrOps.string_data_text by done. split; [done|]. apply matches_user_spec. exists (r ++ x).
  rewrite Hl, Et, <- app_assoc. done.
Qed.

Lemma account_nil : account [] = None.
Proof. done. Qed.

(** Removing the lines of a user removes the accounts of that name. *)
Lemma accounts_removed u d : no_nul d -> without USER_STORE_FIELD_SEP u ->
  accounts (default [] (removed_file u d)) = List.filter (fun c => negb (bool_decide (m_username c = u))) (accounts d).
Proof.
  intros Hd Hu. unfold removed_file, accounts. pose proof (lines_text d Hd) as Hls.
  assert (forall ls, Forall no_nul ls -> omap account (List.filter (stays u) ls) = List.filter (fun c => negb (bool_decide (m_username c = u))) (omap account ls)) as Hf.
  { induction ls as [|l ls IH]; [done|]. intros [Hl Hls']%Forall_cons_iff. specialize (IH Hls'). cbn [List.filter omap list_omap]. unfold stays at 1. destruct (account l) as [c|] eqn:Ec.
    - destruct (account_owner l c Hl Ec) as [Hs Hm]. rewrite (bool_decide_eq_false_2 (l = [])) by (by intros ->). rewrite andb_true_r. cbn [List.filter].
      case_bool_decide as En; cbn [negb].
      + rewrite En in Hm. rewrite Hm. exact IH.
      + assert (matches_user u l = false) as -> by (apply Bool.not_true_iff_false; intros Hm'; by destruct En; apply (matches_user_unique _ _ l)).
        cbn [negb omap list_omap]. rewrite Ec. f_equal. exact IH.
    - destruct (_ && _); [|exact IH]. cbn [omap list_omap]. rewrite Ec. exact IH. }
  destruct (existsb (matches_user u) (LittleFs.lines d)) eqn:Ex.
  - rewrite file_of_lines_default, lines_unlines; [by apply Hf|]. pose proof (lines_without d) as Hw. rewrite Forall_forall in Hw |- *.
    intros l [Hl _]%list_elem_of_In%filter_In. by apply Hw, list_elem_of_In.
  - change (default [] (Some d)) with d. clear Hf. induction Hls as [|l ls Hl _ IH]; [done|]. cbn [existsb] in Ex. apply orb_false_iff in Ex as [Em Ex].
    cbn [omap list_omap]. destruct (account l) as [c|] eqn:Ec; [|by apply IH]. cbn [List.filter]. rewrite bool_decide_eq_false_2; [cbn [negb]; f_equal; by apply IH|].
    intros En. destruct (account_owner l c Hl Ec) as [_ Hm]. congruence.
Qed.

Lemma find_removed u u' (cs : list user_record) :
  List.find (wanted false 0 (Some u')) (List.filter (fun c => negb (bool_decide (m_username c = u))) cs) =
    if bool_decide (u' = u) then None else List.find (wanted false 0 (Some u')) cs.
Proof.
  induction cs as [|c cs IH]; cbn [List.filter List.find]; [by case_bool_decide|].
  destruct (decide (m_username c = u)) as [Eu|Eu].
  - rewrite (bool_decide_eq_true_2 (m_username c = u)) by done. cbn [negb]. rewrite IH. destruct (decide (u' = u)) as [E|E]; [by rewrite bool_decide_eq_true_2|].
    rewrite (bool_decide_eq_false_2 (u' = u)) by done. unfold wanted at 2. by rewrite bool_decide_eq_false_2 by congruence.
  - rewrite (bool_decide_eq_false_2 (m_username c = u)) by done. cbn [negb List.find]. rewrite IH. destruct (decide (u' = u)) as [E|E].
    + rewrite (bool_decide_eq_true_2 (u' = u)) by done. unfold wanted. by rewrite bool_decide_eq_false_2 by congruence.
    + by rewrite (bool_decide_eq_false_2 (u' = u)) by done.
Qed.

Lemma find_snoc u r (cs : list user_record) : List.find (wanted false 0 (Some u)) (cs ++ [r]) =
  match List.find (wanted false 0 (Some u)) cs with Some c => Some c | None => if bool_decide (u = m_username r) then Some r else None end.
Proof.
  induction cs as [|c cs IH]; cbn [app List.find].
  - unfold wanted. destruct (decide (u = m_username r)) as [->|E]; [by rewrite !bool_decide_eq_true_2|]. by rewrite !bool_decide_eq_false_2 by congruence.
  - by destruct (wanted false 0 (Some u) c).
Qed.

(** The units of storage that rewriting a file without the lines of a user takes: every
    line is a call, next to the removal of two files and the move. *)
Definition rewrite_cost (d : list Z) : Z := zlen d + 1 + CALL_COST * (zlen (LittleFs.lines d) + 3).

(** Those of a password: the rewriting, the creation of the file and its permissions, and
    the line. *)
Definition password_cost (d u : list Z) : Z := rewrite_cost d + 3 * CALL_COST + zlen u + 83.

Lemma password_cost_nonneg d u : 0 <= password_cost d u.
Proof.
  unfold password_cost, rewrite_cost, CALL_COST. pose proof (zlen_nonneg d). pose proof (zlen_nonneg u). pose proof (zlen_nonneg (LittleFs.lines d)). lia.
Qed.

(** Those of an account: the creation of the file and the line. *)
Definition account_cost (r : user_record) : Z := 2 * CALL_COST + zlen (m_username r) + zlen (m_home r) + zlen (m_shell r) + 17.

(** The two files hold text. *)
Record holds {B names} `{FileStore B names} (v : Vfs.VfsDispatcher B) (i : nat) : Prop := {
  h_mounted : mounted v i;
  h_passwd : no_nul (default [] (Vfs.file_at v (Some USER_STORE_PASSWD_PATH)));
  h_shadow : no_nul (default [] (Vfs.file_at v (Some USER_STORE_SHADOW_PATH))) }.

Section users.
Context {B : Type} {tempdir : path} `{FileStore B (store_names tempdir)}.
Hypothesis (Htemp : tempdir <> USER_STORE_ETC_DIR ++ [47]).
Implicit Types v : Vfs.VfsDispatcher B.

Lemma in_passwd : USER_STORE_PASSWD_PATH ∈ store_names tempdir.
Proof. apply elem_of_cons. by left. Qed.
Lemma in_shadow : USER_STORE_SHADOW_PATH ∈ store_names tempdir.
Proof. apply elem_of_cons. right. apply elem_of_cons. by left. Qed.
Lemma in_temp p : p ∈ [USER_STORE_PASSWD_PATH; USER_STORE_SHADOW_PATH] ->
  p ∈ store_names tempdir /\ tempdir ++ FsImpl.basename (Some p) ∈ store_names tempdir /\ tempdir ++ FsImpl.basename (Some p) <> p.
Proof.
  assert (forall r, tempdir ++ r = (USER_STORE_ETC_DIR ++ [47]) ++ r -> False) as Hr by (by intros r ?%app_inv_tail).
  intros [->|[->|?%not_elem_of_nil]%elem_of_cons]%elem_of_cons; [| |done].
  - split; [apply in_passwd|]. split; [do 2 (apply elem_of_cons; right); apply elem_of_cons; by left|]. intros E. exact (Hr _ E).
  - split; [apply in_shadow|]. split; [do 3 (apply elem_of_cons; right); apply elem_of_cons; by left|]. intros E. exact (Hr _ E).
Qed.

Lemma scan_lines mb uid un v ls : over_lines (scan_body mb uid un) v None ls = Some (v, List.find (wanted mb uid un) (omap account ls)).
Proof.
  induction ls as [|l ls IH]; [done|]. cbn [over_lines].
  assert (scan_body mb uid un v None l = Some (match account l with
    | Some c => if wanted mb uid un c then (true, v, Some c) else (false, v, None) | None => (false, v, None) end)) as ->.
  { unfold scan_body, account. by destruct (parse_total (LittleFs.strip_cr l)) as [[c|] ->]. }
  cbn [omap list_omap mbind option_bind]. destruct (account l) as [c|]; [|done]. cbn [List.find]. by destruct (wanted mb uid un c).
Qed.

Lemma scan_spec e v i mb uid un : holds v i -> trusted e v ->
  scanPasswdFile e v mb uid un =
    Some (d <- Vfs.file_at v (Some USER_STORE_PASSWD_PATH);; List.find (wanted mb uid un) (accounts d)).
Proof.
  intros [Hh Htxt _] Ht. unfold scanPasswdFile. rewrite (store_isFileExist v i Hh _ in_passwd).
  destruct (Vfs.file_at v (Some USER_STORE_PASSWD_PATH)) as [d|] eqn:Ed; cbn [mbind option_bind]; [|done].
  rewrite bool_decide_eq_true_2 by done. cbn [negb]. rewrite (store_getFileSize v i Hh _ d in_passwd Ed). cbn [mbind option_bind].
  pose proof (zlen_nonneg d). destruct (Z.leb_spec (zlen d) 0) as [Hz|Hz].
  { assert (d = []) as -> by (destruct d; [done|unfold zlen in Hz; cbn in Hz; lia]). done. }
  rewrite (line_loop_spec (fun w => w = v) e USER_STORE_PASSWD_PATH d i) by
    first [apply in_passwd|by intros ? ->|done|lia|rewrite length_drop; unfold zlen in *; lia|
      intros w x l s w' x' -> _; unfold scan_body; destruct (parsePasswdLine _) as [[c|]|]; cbn; try congruence; destruct (if mb then _ else _); congruence].
  rewrite drop_0, scan_lines. done.
Qed.

(** *** Removing lines *)

Lemma remove_lines e tp u ls : forall v i n removed acc, 0 <= n -> roomy v i (n + zlen (unlines ls) + CALL_COST * zlen ls) -> mounted v i -> trusted e v -> tp ∈ store_names tempdir ->
  Vfs.file_at v (Some tp) = file_of_lines acc -> zlen (unlines acc) + zlen (unlines ls) < 2147483648 ->
  exists v', over_lines (remove_body e tp u) v removed ls = Some (v', removed || existsb (matches_user u) ls) /\
    mounted v' i /\ only [tp] v v' /\ roomy v' i n /\ Vfs.file_at v' (Some tp) = file_of_lines (acc ++ List.filter (stays u) ls).
Proof.
  induction ls as [|l ls IH]; intros v i n removed acc Hn Hroom Hh Ht Htp Hf Hz; cbn [over_lines existsb List.filter].
  { exists v. rewrite orb_false_r, app_nil_r. split_and!; try done. eapply roomy_mono; [exact Hroom|]. change (unlines []) with (@nil Z). unfold CALL_COST, zlen. cbn [length]. lia. }
  change (unlines (l :: ls)) with ((l ++ [10]) ++ unlines ls) in Hz. rewrite zlen_app in Hz.
  change (unlines (l :: ls)) with ((l ++ [10]) ++ unlines ls) in Hroom. rewrite zlen_app, (zlen_cons l ls) in Hroom. pose proof (zlen_nonneg ls). pose proof (zlen_nonneg (unlines acc)). pose proof (zlen_nonneg (unlines ls)).
  pose proof (zlen_nonneg (l ++ [10])). unfold remove_body at 1, stays at 1. destruct (matches_user u l) eqn:Em; cbn [mbind option_bind negb andb orb].
  { destruct (IH v i n true acc Hn ltac:(eapply roomy_mono; [exact Hroom|unfold CALL_COST; lia]) Hh Ht Htp Hf ltac:(lia)) as (v' & E & ?). exists v'. rewrite E. cbn [orb]. by rewrite orb_true_r. }
  case_bool_decide as El; cbn [mbind option_bind negb].
  { apply IH; try done; [|lia]. eapply roomy_mono; [exact Hroom|unfold CALL_COST; lia]. }
  rewrite u32_small by lia. destruct (store_append e v i Hh Ht tp (l ++ [10]) Htp ltac:(by destruct l) ltac:(lia)) as (rc & v1 & -> & Hh1 & Ho1 & Hres).
  cbn [mbind option_bind]. rewrite Hf, file_of_lines_default in Hres.
  destruct (Hres (n + zlen (unlines ls) + CALL_COST * zlen ls)) as [Hroom1 Hf1]; [unfold CALL_COST; lia|eapply roomy_mono; [exact Hroom|unfold CALL_COST; lia]|].
  destruct Hf1 as [_ Hf1]; [lia|].
  destruct (IH v1 i n removed (acc ++ [l])) as (v' & -> & Hh' & Ho' & Hr' & Hf'); try done.
  - by eapply only_trusted.
  - rewrite Hf1, <- unlines_snoc. unfold file_of_lines. by rewrite bool_decide_eq_false_2 by (by destruct acc).
  - rewrite unlines_snoc, zlen_app. lia.
  - exists v'. split; [done|]. split; [done|]. split; [by eapply (only_mono ([tp] ++ [tp])); [intros ? [?|?]%elem_of_app|eapply only_trans]|].
    split; [done|]. rewrite Hf'. by rewrite <- app_assoc.
Qed.

Lemma only_trans_in ps qs v v' v'' : qs ⊆ ps -> only ps v v' -> only qs v' v'' -> only ps v v''.
Proof. intros Hs Ha Hb. eapply (only_mono (ps ++ qs)); [|by eapply only_trans]. intros p [?|?]%elem_of_app; [done|by apply Hs]. Qed.

Lemma in_pair (a b : path) : [a] ⊆ [a; b] /\ [b] ⊆ [a; b] /\ [b; a] ⊆ [a; b].
Proof.
  split_and!; intros p Hp; rewrite ?elem_of_cons, ?list_elem_of_singleton in *; try tauto.
Qed.

Lemma removeLine_spec e v i n p u d : 0 <= n -> roomy v i (n + rewrite_cost d) -> mounted v i -> trusted e v -> p ∈ [USER_STORE_PASSWD_PATH; USER_STORE_SHADOW_PATH] ->
  Vfs.file_at v (Some p) = Some d -> no_nul d -> zlen d < 2147483647 ->
  exists v', removeLineByUsername tempdir e v p u = Some (existsb (matches_user u) (LittleFs.lines d), v') /\ mounted v' i /\
    only [p; tempdir ++ FsImpl.basename (Some p)] v v' /\ roomy v' i n /\ Vfs.file_at v' (Some p) = removed_file u d.
Proof.
  unfold rewrite_cost. intros Hn Hroom Hh Ht Hp Hd Htxt Hz. destruct (in_temp p Hp) as (Hpn & Htn & Hne). set (tp := tempdir ++ FsImpl.basename (Some p)) in *.
  destruct (in_pair p tp) as (S1 & S2 & S3). pose proof (zlen_nonneg d).
  unfold removeLineByUsername. fold tp. rewrite (store_isFileExist v i Hh p Hpn), Hd. cbn [mbind option_bind]. rewrite bool_decide_eq_true_2 by done. cbn [negb].
  rewrite (store_isFileExist v i Hh tp Htn). cbn [mbind option_bind].
  assert (exists rc v1, (if bool_decide (is_Some (Vfs.file_at v (Some tp))) then Vfs.deleteFile e v (Some tp) else Some (0, v)) = Some (rc, v1) /\
    mounted v1 i /\ only [tp] v v1 /\ roomy v1 i (n + (zlen d + 1) + CALL_COST * zlen (LittleFs.lines d) + CALL_COST + CALL_COST) /\
    Vfs.file_at v1 (Some tp) = None) as (rc & v1 & -> & Hh1 & Ho1 & Hroom1 & Hf1).
  { pose proof (zlen_nonneg (LittleFs.lines d)). case_bool_decide as Ex.
    - destruct (store_delete e v i Hh Ht tp Htn) as (rc & v1 & E & Hh1 & Ho1 & Hf1). exists rc, v1. split; [done|]. split; [done|]. split; [done|].
      apply Hf1; [unfold CALL_COST; lia|]. eapply roomy_mono; [exact Hroom|unfold CALL_COST; lia].
    - exists 0, v. split_and!; try done; [eapply roomy_mono; [exact Hroom|unfold CALL_COST; lia]|by apply eq_None_not_Some]. }
  assert (trusted e v1) as Ht1 by (by eapply only_trusted).
  assert (Vfs.file_at v1 (Some p) = Some d) as Hd1.
  { rewrite <- Hd. apply (only_file [tp] v v1 i p Hh Ho1); [by intros ? ->%list_elem_of_singleton|done|]. rewrite list_elem_of_singleton. congruence. }
  cbn [mbind option_bind]. rewrite (store_getFileSize v1 i Hh1 p d Hpn Hd1). cbn [mbind option_bind]. unfold removed_file.
  destruct (Z.leb_spec (zlen d) 0) as [Hd0|Hd0].
  { assert (d = []) as -> by (destruct d; [done|unfold zlen in Hd0; cbn in Hd0; lia]). exists v1. split; [done|]. split; [done|].
    split; [by apply (only_mono [tp])|]. split; [eapply roomy_mono; [exact Hroom1|unfold CALL_COST, zlen; cbn [length LittleFs.lines]; lia]|done]. }
  rewrite (line_loop_spec (fun w => mounted w i /\ trusted e w /\ Vfs.file_at w (Some p) = Some d) e p d i); cycle 1.
  { done. } { done. } { done. } {
    intros w x l s w' x' (Hhw & Htw & Hdw) Hl. unfold remove_body. destruct (matches_user u l); [by intros [= _ <- _]|].
    case_bool_decide; [by intros [= _ <- _]|]. rewrite u32_small by (rewrite zlen_app; change (zlen [10]) with 1; pose proof (zlen_nonneg l); lia).
    destruct (store_append e w i Hhw Htw tp (l ++ [10]) Htn ltac:(by destruct l) ltac:(rewrite zlen_app; change (zlen [10]) with 1; lia)) as (rc' & w1 & -> & Hhw1 & Ho & _).
    intros [= _ <- _]. split; [done|]. split; [by eapply only_trusted|]. rewrite <- Hdw.
    apply (only_file [tp] w w1 i p Hhw Ho); [by intros ? ->%list_elem_of_singleton|done|]. rewrite list_elem_of_singleton. congruence. }
  { done. } { lia. } { rewrite length_drop. unfold zlen. lia. }
  rewrite drop_0. destruct (remove_lines e tp u (LittleFs.lines d) v1 i (n + CALL_COST + CALL_COST) false []) as (v2 & -> & Hh2 & Ho2 & Hroom2 & Hf2); try done.
  { unfold CALL_COST. lia. } { eapply roomy_mono; [exact Hroom1|]. pose proof (unlines_lines d). lia. }
  { pose proof (unlines_lines d). change (zlen (unlines [])) with 0. lia. }
  cbn [mbind option_bind orb app] in *. assert (trusted e v2) as Ht2 by (by eapply only_trusted).
  assert (only [p; tp] v v2) as Ho02 by (apply (only_trans_in _ [tp] v v1 v2 S2); [by apply (only_mono [tp])|done]).
  destruct (existsb (matches_user u) (LittleFs.lines d)).
  - destruct (store_delete e v2 i Hh2 Ht2 p Hpn) as (rc3 & v3 & -> & Hh3 & Ho3 & Hf3). cbn [mbind option_bind].
    destruct (Hf3 (n + CALL_COST) ltac:(unfold CALL_COST; lia) Hroom2) as [Hroom3 Hf3'].
    destruct (store_move e v3 i Hh3 tp p Htn Hpn Hne) as (rc4 & v4 & -> & Hh4 & Ho4 & Hf4). cbn [mbind option_bind]. destruct (Hf4 n Hn Hroom3) as [Hroom4 Hf4'].
    exists v4. split; [done|]. split; [done|]. split; [by apply (only_trans_in _ [tp; p] v v3 v4 S3); [apply (only_trans_in _ [p] v v2 v3 S1)|]|].
    split; [done|]. rewrite <- Hf2. rewrite (only_file [p] v2 v3 i tp Hh2 Ho3) in Hf4'; [|by intros ? ->%list_elem_of_singleton|done|by rewrite list_elem_of_singleton].
    destruct (Vfs.file_at v2 (Some tp)); [by apply Hf4'|]. destruct Hf4' as [-> _]. done.
  - destruct (store_delete e v2 i Hh2 Ht2 tp Htn) as (rc3 & v3 & -> & Hh3 & Ho3 & Hf3). cbn [mbind option_bind].
    exists v3. split; [done|]. split; [done|]. split; [by apply (only_trans_in _ [tp] v v2 v3 S2)|].
    split; [apply (Hf3 n Hn), (roomy_mono _ _ _ _ Hroom2); unfold CALL_COST; lia|].
    assert (only [tp] v v3) as Hot by (apply (only_trans_in _ [tp] v v2 v3); [done|by apply (only_trans_in _ [tp] v v1 v2)|done]).
    rewrite <- Hd. apply (only_file [tp] v v3 i p Hh Hot); [by intros ? ->%list_elem_of_singleton|done|]. rewrite list_elem_of_singleton. congruence.
Qed.

(** *** Passwords *)

Lemma shadow_lines u v ls : forall ho so, over_lines (shadow_body u) v (false, ho, so) ls = (fun r => (v, r)) <$> shadow_find u ls ho so.
Proof.
  induction ls as [|l ls IH]; intros ho so; [done|]. cbn [over_lines shadow_find]. unfold shadow_body at 1.
  destruct (shadow_line u (LittleFs.strip_cr l) ho so) as [[[f h] s]|]; [|done]. cbn [mbind option_bind]. destruct f; [done|]. apply IH.
Qed.

Lemma readShadow_spec e v i u ho so : holds v i -> trusted e v ->
  readShadowRecord e v u ho so = shadow_find u (LittleFs.lines (default [] (Vfs.file_at v (Some USER_STORE_SHADOW_PATH)))) ho so.
Proof.
  intros [Hh _ Htxt] Ht. unfold readShadowRecord. rewrite (store_isFileExist v i Hh _ in_shadow).
  destruct (Vfs.file_at v (Some USER_STORE_SHADOW_PATH)) as [d|] eqn:Ed; cbn [mbind option_bind]; [|done].
  rewrite bool_decide_eq_true_2 by done. cbn [negb]. rewrite (store_getFileSize v i Hh _ d in_shadow Ed). cbn [mbind option_bind].
  pose proof (zlen_nonneg d). cbn [default]. destruct (Z.leb_spec (zlen d) 0) as [Hz|Hz].
  { assert (d = []) as -> by (destruct d; [done|unfold zlen in Hz; cbn in Hz; lia]). done. }
  rewrite (line_loop_spec (fun w => w = v) e USER_STORE_SHADOW_PATH d i) by
    first [apply in_shadow|by intros ? ->|done|lia|rewrite length_drop; unfold zlen in *; lia|
      intros w [[a b] c] l s w' x' -> _; unfold shadow_body; destruct (shadow_line _ _ _ _) as [[[? ?] ?]|]; cbn; congruence].
  rewrite drop_0, shadow_lines. by destruct (shadow_find _ _ _ _).
Qed.

(** A privileged scope. *)
Lemma priv_scope v i e : holds v i -> 0 <= Vfs.m_priv_depth v < 255 ->
  holds (Vfs.beginPrivileged v) i /\ trusted e (Vfs.beginPrivileged v) /\ Vfs.endPrivileged (Vfs.beginPrivileged v) = v /\
  (forall p, Vfs.file_at (Vfs.beginPrivileged v) p = Vfs.file_at v p) /\ only [] (Vfs.endPrivileged (Vfs.beginPrivileged v)) v /\
  forall n, roomy v i n -> roomy (Vfs.beginPrivileged v) i n.
Proof.
  intros Hh Hd. assert (Vfs.endPrivileged (Vfs.beginPrivileged v) = v) as E.
  { unfold Vfs.endPrivileged, Vfs.beginPrivileged. cbn. rewrite u8_small by lia. destruct (Z.gtb_spec (Vfs.m_priv_depth v + 1) 0); [|lia].
    destruct v as [ms fs n]. cbn. f_equal. lia. }
  split; [destruct Hh as [[] ? ?]; by repeat split|]. split; [|split; [done|split; [done|split; [by rewrite E|done]]]].
  unfold trusted, Vfs.checkRoot, Vfs.isPrivileged. cbn. rewrite u8_small by lia. by destruct (Z.gtb_spec (Vfs.m_priv_depth v + 1) 0); [|lia].
Qed.

(** What [verifyPassword] answers for the text of the file. *)
Definition check (st : locals) (u pw d : list Z) : option bool :=
  '(have, h, s) <- shadow_find u (LittleFs.lines d) (l_hash st) (l_salt st);;
  if negb have then Some false
  else c <- hashPassword (l_ctx st) (Some pw) (Some s) USER_STORE_SALT_LEN (l_computed st);; diff <- diff_loop 32 0 h c 0;; Some (diff =? 0).

Lemma verify_spec e v i st u pw : holds v i -> 0 <= Vfs.m_priv_depth v < 255 ->
  verifyPassword e v st (Some u) (Some pw) =
    (fun r => (r, v)) <$> check st u pw (default [] (Vfs.file_at v (Some USER_STORE_SHADOW_PATH))).
Proof.
  intros Hh Hd. destruct (priv_scope v i e Hh Hd) as (Hh1 & Ht1 & E1 & F1 & _ & _). unfold verifyPassword, check.
  rewrite (readShadow_spec e _ i u _ _ Hh1 Ht1), F1, E1. destruct (shadow_find _ _ _ _) as [[[have h] s]|]; [|done]. cbn [mbind option_bind].
  destruct have; [|done]. cbn [negb]. destruct (hashPassword _ _ _ _ _) as [c|]; [|done]. cbn [mbind option_bind]. by destruct (diff_loop _ _ _ _ _).
Qed.

Lemma scope_end ps v w i : 0 <= Vfs.m_priv_depth v < 255 -> mounted w i -> only ps (Vfs.beginPrivileged v) w ->
  mounted (Vfs.endPrivileged w) i /\ only ps v (Vfs.endPrivileged w) /\ (forall p, Vfs.file_at (Vfs.endPrivileged w) p = Vfs.file_at w p) /\
  forall n, roomy w i n -> roomy (Vfs.endPrivileged w) i n.
Proof.
  intros Hd Hw (Em & Ed & Ek & Ef). assert (Vfs.endPrivileged w = Vfs.mkVfs (Vfs.m_mounts w) (Vfs.m_fs w) (Vfs.m_priv_depth v)) as E.
  { unfold Vfs.endPrivileged. rewrite Ed. cbn. rewrite u8_small by lia. destruct (Z.gtb_spec (Vfs.m_priv_depth v + 1) 0); [|lia]. f_equal. lia. }
  rewrite E. split; [by destruct Hw|]. split; [|done]. split; [done|]. split; [done|]. split; [done|]. intros k Hk. by apply Ef.
Qed.

(** The file exists before the line is appended. *)
Lemma shadow_ready e v i n : 0 <= n -> roomy v i (n + CALL_COST + CALL_COST) -> mounted v i -> trusted e v ->
  exists v', (ex <- Vfs.isFileExist v (Some USER_STORE_SHADOW_PATH);;
    if ex : bool then Some (true, v)
    else
      '(rc, v) <- Vfs.createFile e v (Some USER_STORE_SHADOW_PATH) (Some [0]) (-1);;
      if rc <? 0 then Some (false, v)
      else '(_, v) <- Vfs.setFilePermissions e v (Some USER_STORE_SHADOW_PATH) 384;; Some (true, v)) = Some (true, v') /\
    mounted v' i /\ only [USER_STORE_SHADOW_PATH] v v' /\ roomy v' i n /\
    Vfs.file_at v' (Some USER_STORE_SHADOW_PATH) = Some (default [] (Vfs.file_at v (Some USER_STORE_SHADOW_PATH))).
Proof.
  intros Hn Hroom Hh Ht. rewrite (store_isFileExist v i Hh _ in_shadow). cbn [mbind option_bind].
  destruct (Vfs.file_at v (Some USER_STORE_SHADOW_PATH)) as [d|] eqn:Ed.
  { rewrite bool_decide_eq_true_2 by done. exists v. rewrite Ed. split_and!; try done. eapply roomy_mono; [exact Hroom|unfold CALL_COST; lia]. }
  rewrite bool_decide_eq_false_2 by (by intros [? ?]).
  destruct (store_create e v i Hh _ in_shadow Ed) as (rc & v1 & -> & Hh1 & Ho1 & Hf1). cbn [mbind option_bind].
  destruct (Hf1 (n + CALL_COST) ltac:(unfold CALL_COST; lia) Hroom) as (Hroom1 & Hrc & Hf1'). destruct (Z.ltb_spec rc 0); [lia|].
  assert (trusted e v1) as Ht1 by (by eapply only_trusted).
  destruct (store_chmod e v1 i Hh1 Ht1 USER_STORE_SHADOW_PATH 384 in_shadow) as (rc' & v2 & -> & Hh2 & Ho2 & Hf2 & Hr2). cbn [mbind option_bind].
  exists v2. split; [done|]. split; [done|]. split; [by apply (only_trans_in _ [] v v1 v2); [intros ? ?%not_elem_of_nil| |]|]. split; [by apply Hr2|]. by rewrite Hf2, Hf1'.
Qed.

Lemma removeLine_any e v i n u : 0 <= n -> roomy v i (n + rewrite_cost (default [] (Vfs.file_at v (Some USER_STORE_SHADOW_PATH)))) -> mounted v i -> trusted e v ->
  no_nul (default [] (Vfs.file_at v (Some USER_STORE_SHADOW_PATH))) -> zlen (default [] (Vfs.file_at v (Some USER_STORE_SHADOW_PATH))) < 2147483647 ->
  exists r v', removeLineByUsername tempdir e v USER_STORE_SHADOW_PATH u = Some (r, v') /\ mounted v' i /\
    only [USER_STORE_SHADOW_PATH; tempdir ++ FsImpl.basename (Some USER_STORE_SHADOW_PATH)] v v' /\ roomy v' i n /\
    default [] (Vfs.file_at v' (Some USER_STORE_SHADOW_PATH)) = default [] (removed_file u (default [] (Vfs.file_at v (Some USER_STORE_SHADOW_PATH)))).
Proof.
  intros Hn Hroom Hh Ht Htxt Hz. destruct (Vfs.file_at v (Some USER_STORE_SHADOW_PATH)) as [d|] eqn:Ed.
  - destruct (removeLine_spec e v i n USER_STORE_SHADOW_PATH u d Hn Hroom Hh Ht) as (v' & E & Hh' & Ho & Hr & Hf); [|done|done|done|].
    { apply elem_of_cons. right. by apply list_elem_of_singleton. }
    eexists _, _. by rewrite Hf.
  - exists false, v. unfold removeLineByUsername. rewrite (store_isFileExist v i Hh _ in_shadow), Ed. rewrite bool_decide_eq_false_2 by (by intros [? ?]).
    split_and!; try done. eapply roomy_mono; [exact Hroom|unfold rewrite_cost, CALL_COST, zlen; cbn [default length LittleFs.lines]; lia].
Qed.

Lemma find_default e v i mb uid un : holds v i -> trusted e v ->
  scanPasswdFile e v mb uid un = Some (List.find (wanted mb uid un) (accounts (default [] (Vfs.file_at v (Some USER_STORE_PASSWD_PATH))))).
Proof. intros Hh Ht. rewrite (scan_spec e v i) by done. by destruct (Vfs.file_at v (Some USER_STORE_PASSWD_PATH)). Qed.

Lemma passwd_ready e v i n : 0 <= n -> roomy v i (n + CALL_COST) -> mounted v i ->
  exists rc v', (ex <- Vfs.isFileExist v (Some USER_STORE_PASSWD_PATH);;
    if ex : bool then Some (0, v) else Vfs.createFile e v (Some USER_STORE_PASSWD_PATH) (Some [0]) (-1)) = Some (rc, v') /\ 0 <= rc /\
    mounted v' i /\ only [USER_STORE_PASSWD_PATH] v v' /\ roomy v' i n /\
    Vfs.file_at v' (Some USER_STORE_PASSWD_PATH) = Some (default [] (Vfs.file_at v (Some USER_STORE_PASSWD_PATH))).
Proof.
  intros Hn Hroom Hh. rewrite (store_isFileExist v i Hh _ in_passwd). cbn [mbind option_bind].
  destruct (Vfs.file_at v (Some USER_STORE_PASSWD_PATH)) as [d|] eqn:Ed.
  { rewrite bool_decide_eq_true_2 by done. exists 0, v. rewrite Ed. split_and!; try done. eapply roomy_mono; [exact Hroom|unfold CALL_COST; lia]. }
  rewrite bool_decide_eq_false_2 by (by intros [? ?]). destruct (store_create e v i Hh _ in_passwd Ed) as (rc & v1 & -> & Hh1 & Ho1 & Hf1).
  destruct (Hf1 n Hn Hroom) as (? & ? & ?). by eexists _, _.
Qed.

(** The temporary file of one is not the other. *)
Lemma shadow_kept v v' i : mounted v i -> only [USER_STORE_PASSWD_PATH; tempdir ++ FsImpl.basename (Some USER_STORE_PASSWD_PATH)] v v' ->
  Vfs.file_at v' (Some USER_STORE_SHADOW_PATH) = Vfs.file_at v (Some USER_STORE_SHADOW_PATH).
Proof.
  intros Hh Ho. destruct (in_temp USER_STORE_PASSWD_PATH ltac:(apply elem_of_cons; by left)) as (Hp & Ht & _).
  apply (only_file _ v v' i _ Hh Ho); [by intros ? [->|[->|?%not_elem_of_nil]%elem_of_cons]%elem_of_cons|apply in_shadow|].
  intros [E|[E|?%not_elem_of_nil]%elem_of_cons]%elem_of_cons; [done| |done].
  apply (f_equal (fun p => list.last p)) in E. rewrite last_app in E. by vm_compute in E.
Qed.

Lemma passwd_kept v v' i : mounted v i -> only [USER_STORE_SHADOW_PATH; tempdir ++ FsImpl.basename (Some USER_STORE_SHADOW_PATH)] v v' ->
  Vfs.file_at v' (Some USER_STORE_PASSWD_PATH) = Vfs.file_at v (Some USER_STORE_PASSWD_PATH).
Proof.
  intros Hh Ho. destruct (in_temp USER_STORE_SHADOW_PATH ltac:(apply elem_of_cons; right; by apply list_elem_of_singleton)) as (Hp & Ht & _).
  apply (only_file _ v v' i _ Hh Ho); [by intros ? [->|[->|?%not_elem_of_nil]%elem_of_cons]%elem_of_cons|apply in_passwd|].
  intros [E|[E|?%not_elem_of_nil]%elem_of_cons]%elem_of_cons; [done| |done].
  apply (f_equal (fun p => list.last p)) in E. rewrite last_app in E. by vm_compute in E.
Qed.

Section set_password.
Variables (R : Type) (srand : Z -> R) (rand : R -> Z * R).

Lemma setPassword_spec e v i g st ms u pw : let d := default [] (Vfs.file_at v (Some USER_STORE_SHADOW_PATH)) in
  holds v i -> 0 <= Vfs.m_priv_depth v < 255 -> locals_ok st -> u <> [] -> without USER_STORE_FIELD_SEP u -> without 10 u -> no_nul u ->
  bytes_ok pw -> zlen pw < 4294967296 -> ended d -> zlen d + zlen u < 2147483000 -> roomy v i (password_cost d u) ->
  exists salt g' v' d', setPassword tempdir R srand rand e v g st ms (Some u) (Some pw) = Some (true, v', g') /\
    holds v' i /\ only [USER_STORE_SHADOW_PATH; tempdir ++ FsImpl.basename (Some USER_STORE_SHADOW_PATH)] v v' /\
    length salt = 8%nat /\ bytes_ok salt /\ Vfs.file_at v' (Some USER_STORE_SHADOW_PATH) = Some d' /\ ended d' /\
    LittleFs.lines d' = LittleFs.lines (default [] (removed_file u d)) ++ [shadow_text u (fips_sha256 (salt ++ pw)) salt].
Proof.
  intros d Hh Hdep Hst Hne Hu1 Hu2 Hu3 Hpw Hpz Hend Hz Hroom. unfold password_cost in Hroom. destruct (lo_ctx st Hst) as [Hc1 Hc2].
  destruct u as [|c u0]; [done|]. set (u := c :: u0) in *. cbn [setPassword]. unfold generateSalt.
  set (r0 := if s_seeded g then r_state g else srand (u32 ms)).
  destruct (salt_loop_spec rand 8 [] (l_salt st) r0 (lo_salt st Hst) ltac:(constructor)) as (salt & r1 & Es & Ls & Hs). cbn [app] in Es. change (zlen []) with 0 in Es.
  change (Z.to_nat USER_STORE_SALT_LEN) with 8%nat. rewrite Es. cbn [mbind option_bind].
  rewrite (hashPassword_spec _ pw salt) by (done || apply Hst). cbn [mbind option_bind]. set (h := fips_sha256 (salt ++ pw)).
  destruct (fips_sha256_shape (salt ++ pw)) as [Lh Hb]. fold h in Lh, Hb.
  assert (32 = zlen h) as Zh by (unfold zlen; by rewrite Lh). assert (USER_STORE_SALT_LEN = zlen salt) as Zs by (unfold zlen; by rewrite Ls).
  destruct (hex_text h (l_hexhash st) Hb ltac:(rewrite (lo_hexhash st Hst), Lh; done)) as (b1 & E1 & T1). rewrite Zh, E1. cbn [mbind option_bind].
  destruct (hex_text salt (l_hexsalt st) Hs ltac:(rewrite (lo_hexsalt st Hst), Ls; done)) as (b2 & E2 & T2). rewrite Zs, E2. cbn [mbind option_bind].
  rewrite T1. cbn [mbind option_bind]. rewrite T2. cbn [mbind option_bind].
  replace (u ++ [USER_STORE_FIELD_SEP] ++ hexes h ++ [USER_STORE_FIELD_SEP] ++ hexes salt ++ [10]) with (shadow_text u h salt ++ [10]); cycle 1.
  { unfold shadow_text. rewrite <- !app_assoc. cbn [app]. rewrite <- !app_assoc. done. }
  assert (zlen (shadow_text u h salt) = zlen u + 82) as Zt.
  { unfold shadow_text. rewrite zlen_app, zlen_cons, zlen_app, zlen_cons, !hexes_len, <- Zh, <- Zs. unfold USER_STORE_SALT_LEN. lia. }
  assert (without 10 (shadow_text u h salt)) as Ht10.
  { destruct (hexes_without h Hb) as (_ & W1 & _), (hexes_without salt Hs) as (_ & W2 & _). unfold shadow_text.
    apply Forall_app. split; [done|]. constructor; [done|]. apply Forall_app. split; [done|]. constructor; done. }
  assert (no_nul (shadow_text u h salt)) as Ht0.
  { destruct (hexes_without h Hb) as (_ & _ & W1 & _), (hexes_without salt Hs) as (_ & _ & W2 & _). unfold shadow_text.
    apply Forall_app. split; [done|]. constructor; [done|]. apply Forall_app. split; [done|]. constructor; done. }
  remember (shadow_text u h salt) as t eqn:Et. clear Es E1 E2 T1 T2.
  destruct (priv_scope v i e Hh Hdep) as ([Hh0 _ Hs0] & Htr0 & _ & F0 & _ & R0). rewrite F0 in Hs0. fold d in Hs0. pose proof (zlen_nonneg d). pose proof (zlen_nonneg u).
  destruct (removeLine_any e (Vfs.beginPrivileged v) i (CALL_COST + (zlen u + 83) + CALL_COST + CALL_COST) u) as (r & v1 & -> & Hh1 & Ho1 & Hroom1 & Hf1); try done.
  { apply R0. rewrite F0. fold d. eapply roomy_mono; [exact Hroom|lia]. } { rewrite F0. fold d. lia. }
  rewrite F0 in Hf1. fold d in Hf1. cbn [mbind option_bind].
  assert (trusted e v1) as Ht1 by (by eapply only_trusted). destruct (removed_lines u d Hend Hu1) as (He1 & Hz1 & _). set (d1 := default [] (removed_file u d)) in *.
  destruct (shadow_ready e v1 i (CALL_COST + (zlen u + 83)) ltac:(unfold CALL_COST; lia) Hroom1 Hh1 Ht1) as (v2 & E2 & Hh2 & Ho2 & Hroom2 & Hf2). cbn [mbind option_bind] in E2.
  destruct (Vfs.isFileExist v1 (Some USER_STORE_SHADOW_PATH)) as [ex|]; [|done]. cbn [mbind option_bind]. rewrite E2. cbn [mbind option_bind negb].
  rewrite Hf1 in Hf2. assert (trusted e v2) as Ht2 by (by eapply only_trusted).
  rewrite u32_small by (rewrite zlen_app; change (zlen [10]) with 1; lia).
  destruct (store_append e v2 i Hh2 Ht2 USER_STORE_SHADOW_PATH (t ++ [10]) in_shadow ltac:(by destruct t) ltac:(rewrite zlen_app; change (zlen [10]) with 1; lia)) as (rc & v3 & -> & Hh3 & Ho3 & Hf3).
  rewrite Hf2 in Hf3. destruct (Hf3 0 ltac:(lia)) as [_ [Hrc Hf3']]; [eapply roomy_mono; [exact Hroom2|rewrite zlen_app; change (zlen [10]) with 1; lia]|
    rewrite zlen_app; change (zlen [10]) with 1; cbn; lia|]. cbn [mbind option_bind default] in *.
  destruct (in_pair USER_STORE_SHADOW_PATH (tempdir ++ FsImpl.basename (Some USER_STORE_SHADOW_PATH))) as (S1 & _ & _).
  destruct (scope_end _ v v3 i Hdep Hh3 (only_trans_in _ _ _ _ _ S1 (only_trans_in _ _ _ _ _ S1 Ho1 Ho2) Ho3)) as (Hh4 & Ho4 & F4 & _).
  destruct (Z.geb_spec rc 0); [|lia]. exists salt, (mkRng true r1), (Vfs.endPrivileged v3), (d1 ++ t ++ [10]).
  pose proof (removed_text u d Hs0) as Hd1. fold d1 in Hd1. split; [done|]. split.
  { split; [done|rewrite (passwd_kept v _ i (h_mounted v i Hh) Ho4); apply Hh|]. rewrite F4, Hf3'. cbn [default]. apply Forall_app. split; [done|]. apply Forall_app. by repeat constructor. }
  split; [done|]. split; [done|]. split; [done|]. rewrite F4, Hf3'. split; [done|].
  split; [right; by rewrite app_assoc, last_snoc|]. rewrite lines_app, lines_one by done. by rewrite Et.
Qed.

Lemma setPassword_checks e v i g st ms u pw : let d := default [] (Vfs.file_at v (Some USER_STORE_SHADOW_PATH)) in
  holds v i -> 0 <= Vfs.m_priv_depth v < 255 -> locals_ok st -> u <> [] -> without USER_STORE_FIELD_SEP u -> without 10 u -> no_nul u ->
  bytes_ok pw -> zlen pw < 4294967296 -> ended d -> zlen d + zlen u < 2147483000 -> roomy v i (password_cost d u) ->
  exists salt g' v', setPassword tempdir R srand rand e v g st ms (Some u) (Some pw) = Some (true, v', g') /\ holds v' i /\
    only [USER_STORE_SHADOW_PATH; tempdir ++ FsImpl.basename (Some USER_STORE_SHADOW_PATH)] v v' /\
    (forall e' st' pw', locals_ok st' -> bytes_ok pw' -> zlen pw' < 4294967296 ->
       verifyPassword e' v' st' (Some u) (Some pw') = Some (bool_decide (fips_sha256 (salt ++ pw') = fips_sha256 (salt ++ pw)), v')) /\
    (forall e' st' u' pw', u' <> u -> without USER_STORE_FIELD_SEP u' ->
       fst <$> verifyPassword e' v' st' (Some u') (Some pw') = fst <$> verifyPassword e' v st' (Some u') (Some pw')).
Proof.
  intros d Hh Hdep Hst Hne Hu1 Hu2 Hu3 Hpw Hpz Hend Hz Hroom.
  destruct (setPassword_spec e v i g st ms u pw Hh Hdep Hst Hne Hu1 Hu2 Hu3 Hpw Hpz Hend Hz Hroom)
    as (salt & g' & v' & d' & E & Hh' & Ho & Ls & Hs & Hf & _ & Hl). fold d in Hl.
  destruct (removed_lines u d Hend Hu1) as (_ & _ & Hown & Hother). exists salt, g', v'. split; [done|]. split; [done|]. split; [done|].
  assert (0 <= Vfs.m_priv_depth v' < 255) as Hdep' by (destruct Ho as (_ & -> & _); done).
  destruct (fips_sha256_shape (salt ++ pw)) as [Lh Hb]. set (h := fips_sha256 (salt ++ pw)) in *. split.
  - intros e' st' pw' Hst' Hpw' Hpz'. rewrite (verify_spec e' v' i) by done. rewrite Hf. change (default [] (Some d')) with d'. unfold check.
    rewrite shadow_find_own, Hl, List.filter_app, Hown. cbn [List.filter app].
    rewrite (proj2 (matches_user_spec u (shadow_text u h salt))) by (by eexists). cbn [shadow_find].
    rewrite strip_cr_keeps; cycle 1.
    { unfold shadow_text. rewrite last_app_cons, last_app_cons. destruct (hexes_without salt Hs) as (_ & _ & _ & W).
      destruct (list.last (hexes salt)) as [x|] eqn:Ex; [|done]. intros [= ->]. unfold without in W. rewrite Forall_forall in W. apply (W 13); [|done].
      apply last_Some in Ex as [l ->]. apply elem_of_app. right. by apply list_elem_of_singleton. }
    rewrite shadow_line_own by (done || apply Hst'). cbn [mbind option_bind negb]. destruct (lo_ctx st' Hst') as [C1 C2].
    rewrite hashPassword_spec by (done || apply Hst'). cbn [mbind option_bind].
    destruct (fips_sha256_shape (salt ++ pw')) as [Lh' Hb'].
    destruct (diff_loop_spec h (fips_sha256 (salt ++ pw')) Hb Hb' Lh Lh') as (x & -> & Ex). cbn. do 2 f_equal. rewrite Ex. apply bool_decide_ext. split; intros Eq; symmetry; exact Eq.
  - intros e' st' u' pw' Hne' Hu'. rewrite (verify_spec e' v' i), (verify_spec e' v i) by done. rewrite Hf. fold d. change (default [] (Some d')) with d'.
    assert (check st' u' pw' d' = check st' u' pw' d) as ->; [|by destruct (check st' u' pw' d)].
    unfold check. rewrite (shadow_find_own u' (LittleFs.lines d')), (shadow_find_own u' (LittleFs.lines d)), Hl, List.filter_app, Hother by done.
    cbn [List.filter]. destruct (matches_user u' (shadow_text u h salt)) eqn:Em; [|by rewrite app_nil_r].
    destruct Hne'. apply (matches_user_unique u' u (shadow_text u h salt)); try done. apply matches_user_spec. by eexists.
Qed.

(** *** Adding an account *)

(** Up to the password. *)
Lemma addUser_line e v i n g st ms r pw : let d := default [] (Vfs.file_at v (Some USER_STORE_PASSWD_PATH)) in
  0 <= n -> roomy v i (n + account_cost r) -> holds v i -> trusted e v -> locals_ok st -> user_ok r -> ended d ->
  zlen d + zlen (m_username r) + zlen (m_home r) + zlen (m_shell r) < 2147483000 ->
  List.find (wanted false 0 (Some (m_username r))) (accounts d) = None ->
  exists v' d', holds v' i /\ only [USER_STORE_PASSWD_PATH] v v' /\ roomy v' i n /\ Vfs.file_at v' (Some USER_STORE_PASSWD_PATH) = Some d' /\ ended d' /\
    accounts d' = accounts d ++ [r] /\
    addUser tempdir R srand rand e v g st ms r pw =
      match pw with
      | None | Some [] => Some (true, v', g)
      | Some _ =>
          '(ok, v, g) <- setPassword tempdir R srand rand e v' g st ms (Some (m_username r)) pw;;
          if ok : bool then Some (true, v, g)
          else '(_, v) <- removeLineByUsername tempdir e v USER_STORE_PASSWD_PATH (m_username r);; Some (false, v, g)
      end.
Proof.
  intros d Hn Hroom Hh Ht Hst Hr Hend Hz Hnone. unfold account_cost in Hroom. destruct (uo_name r Hr) as [Hne _].
  destruct (passwd_line_spec (l_numbuf st) r (lo_numbuf st Hst) Hr) as (line & El & Hl10 & Hl0 & Hlne & Hlz & Hcr & Hparse).
  pose proof (zlen_nonneg line). destruct (passwd_ready e v i (n + (CALL_COST + (zlen line + 1))) ltac:(unfold CALL_COST; lia) ltac:(eapply roomy_mono; [exact Hroom|lia]) (h_mounted v i Hh))
    as (rc & v1 & E1 & Hrc & Hh1 & Ho1 & Hroom1 & Hf1). fold d in Hf1. assert (trusted e v1) as Ht1 by (by eapply only_trusted).
  pose proof (zlen_nonneg d). assert (zlen (line ++ [10]) = zlen line + 1) as Z1 by (by rewrite zlen_app).
  pose proof (zlen_nonneg (m_username r)). pose proof (zlen_nonneg (m_home r)). pose proof (zlen_nonneg (m_shell r)).
  destruct (store_append e v1 i Hh1 Ht1 USER_STORE_PASSWD_PATH (line ++ [10]) in_passwd ltac:(by destruct line) ltac:(lia)) as (rc2 & v2 & E2 & Hh2 & Ho2 & Hf2).
  rewrite Hf1, Z1 in Hf2. destruct (Hf2 n Hn Hroom1) as [Hroom2 [Hrc2 Hf2']]; [cbn; lia|]. exists v2, (d ++ line ++ [10]).
  assert (only [USER_STORE_PASSWD_PATH] v v2) as Ho12 by (by apply (only_trans_in _ [USER_STORE_PASSWD_PATH] v v1 v2)). split.
  { split; [done| |]; [rewrite Hf2'; cbn [default]; apply Forall_app; split; [apply Hh|]; apply Forall_app; by repeat constructor|].
    rewrite (only_file _ v v2 i _ (h_mounted v i Hh) Ho12); [apply Hh|intros ? ->%list_elem_of_singleton; apply in_passwd|apply in_shadow|by rewrite list_elem_of_singleton]. }
  split; [done|]. split; [done|]. split; [done|]. split; [right; by rewrite app_assoc, last_snoc|]. split.
  { unfold accounts. rewrite lines_app, lines_one, omap_app by done. f_equal. cbn. unfold account. by rewrite Hcr, Hparse. }
  unfold addUser. rewrite bool_decide_eq_false_2 by done. unfold findUserByName. destruct (m_username r) as [|c0 u0] eqn:Eu; [done|].
  rewrite (find_default e v i) by done. fold d. rewrite Hnone. cbn [mbind option_bind]. rewrite El. cbn [mbind option_bind].
  destruct (Vfs.isFileExist v (Some USER_STORE_PASSWD_PATH)) as [ex|]; [|done]. cbn [mbind option_bind] in E1 |- *. rewrite E1. cbn [mbind option_bind].
  destruct (Z.ltb_spec rc 0); [lia|]. rewrite u32_small by lia. rewrite E2. cbn [mbind option_bind]. by destruct (Z.ltb_spec rc2 0); [lia|].
Qed.

End set_password.

(** *** Removing an account *)

Lemma removeLine_passwd e v i n u d : 0 <= n -> roomy v i (n + rewrite_cost d) -> mounted v i -> trusted e v -> Vfs.file_at v (Some USER_STORE_PASSWD_PATH) = Some d -> no_nul d -> zlen d < 2147483647 ->
  exists v', removeLineByUsername tempdir e v USER_STORE_PASSWD_PATH u = Some (existsb (matches_user u) (LittleFs.lines d), v') /\ mounted v' i /\
    only [USER_STORE_PASSWD_PATH; tempdir ++ FsImpl.basename (Some USER_STORE_PASSWD_PATH)] v v' /\
    roomy v' i n /\ Vfs.file_at v' (Some USER_STORE_PASSWD_PATH) = removed_file u d.
Proof. intros Hn Hroom Hh Ht Hd Htxt Hz. apply removeLine_spec; try done. apply elem_of_cons. by left. Qed.

Lemma findUser_spec e v i u : holds v i -> trusted e v -> u <> [] ->
  findUserByName e v (Some u) = Some (List.find (wanted false 0 (Some u)) (accounts (default [] (Vfs.file_at v (Some USER_STORE_PASSWD_PATH))))).
Proof. intros Hh Ht Hu. unfold findUserByName. destruct u; [done|]. by apply find_default with i. Qed.

Lemma removeUser_spec e v i u d : let sh := default [] (Vfs.file_at v (Some USER_STORE_SHADOW_PATH)) in
  holds v i -> trusted e v -> u <> [] -> without USER_STORE_FIELD_SEP u ->
  Vfs.file_at v (Some USER_STORE_PASSWD_PATH) = Some d -> ended sh -> zlen d < 2147483647 -> zlen sh < 2147483647 ->
  roomy v i (rewrite_cost d + rewrite_cost sh) ->
  exists v', removeUser tempdir e v (Some u) = Some (existsb (matches_user u) (LittleFs.lines d), v') /\ holds v' i /\
    only (store_names tempdir) v v' /\
    accounts (default [] (Vfs.file_at v' (Some USER_STORE_PASSWD_PATH))) = List.filter (fun c => negb (bool_decide (m_username c = u))) (accounts d) /\
    default [] (Vfs.file_at v' (Some USER_STORE_SHADOW_PATH)) = default [] (removed_file u sh).
Proof.
  intros sh Hh Ht Hne Hu Hd Hend Hz1 Hz2 Hroom. assert (0 <= rewrite_cost sh) as Hsh by (unfold rewrite_cost, CALL_COST; pose proof (zlen_nonneg sh); pose proof (zlen_nonneg (LittleFs.lines sh)); lia).
  assert (no_nul d) as Htd by (pose proof (h_passwd v i Hh) as X; by rewrite Hd in X). pose proof (h_shadow v i Hh) as Hts. fold sh in Hts. pose proof (h_mounted v i Hh) as Hm.
  destruct (removeLine_passwd e v i (rewrite_cost sh) u d) as (v1 & E1 & Hh1 & Ho1 & Hroom1 & Hf1); try done. { eapply roomy_mono; [exact Hroom|lia]. }
  assert (trusted e v1) as Ht1 by (by eapply only_trusted). pose proof (shadow_kept v v1 i Hm Ho1) as Hs1.
  destruct (removeLine_any e v1 i 0 u) as (r & v2 & E2 & Hh2 & Ho2 & _ & Hf2); try done. { by rewrite Hs1. } { by rewrite Hs1. } { by rewrite Hs1. }
  exists v2. unfold removeUser. destruct u as [|c u0]; [done|]. rewrite E1. cbn [mbind option_bind]. rewrite E2. cbn [mbind option_bind].
  split; [done|]. pose proof (passwd_kept v1 v2 i Hh1 Ho2) as Hp2. split.
  { split; [done|rewrite Hp2, Hf1; by apply removed_text|rewrite Hf2, Hs1; by apply removed_text]. } split.
  { eapply only_mono; [|by eapply only_trans]. intros p. unfold store_names. rewrite elem_of_app, !elem_of_cons. tauto. }
  rewrite Hp2, Hf1, Hf2, Hs1. split; [|done]. by apply accounts_removed.
Qed.
End users.

(** ** Theorems *)

(** LittleFS as [/] with accounts and passwords of root and bob, and the RAM file system as
    [/tmp]; root owns the files, and only root may read the passwords. *)
#[local] Instance device_fs : iFileSystem LittleFs.ram :=
  FsImpl.littlefs_fs (H := LittleFs.ram_lfs false) 65536 (mkEnv 0 0 0 18) 8.
#[local] Instance device_laws : FileSystemLaws LittleFs.ram :=
  FsImpl.littlefs_laws 65536 (mkEnv 0 0 0 18) 8 (SP := LittleFs.ram_spec false) (RM := LittleFs.ram_room).
#[local] Existing Instance TmpFs.tmpfs_fs.
#[local] Existing Instance TmpFs.tmpfs_laws.

Definition temp_dir : path := FsImpl.m_temp FsImpl.initial_dirs.

#[local] Instance device_store : FileStore LittleFs.ram (store_names temp_dir) :=
  littlefs_store (H0 := LittleFs.ram_spec false) (RM := LittleFs.ram_room) (store_names temp_dir) 65536 (mkEnv 0 0 0 18) 8
    (PL := ram_places (store_names temp_dir)).

Definition root_name : list Z := [114; 111; 111; 116].
Definition bob_name : list Z := [98; 111; 98].

(** [root:x:0:0:/:cmd] and [bob:x:7:7:/:cmd] *)
Definition demo_passwd : list Z :=
  unlines [root_name ++ [58; 120; 58; 48; 58; 48; 58; 47; 58; 99; 109; 100]; bob_name ++ [58; 120; 58; 55; 58; 55; 58; 47; 58; 99; 109; 100]].

Definition demo_shadow : list Z :=
  unlines [shadow_text root_name (replicate 32 1) (replicate 8 2); shadow_text bob_name (replicate 32 3) (replicate 8 4)].

(** LittleFS with these files as [/], and the RAM file system as [/tmp]. *)
Definition store_with (units : Z) (files : gmap path (list Z)) : Vfs.VfsDispatcher (LittleFs.ram + list TmpFs.tmpfs_node) :=
  let flash := LittleFs.mkRam files [] {[ (USER_STORE_SHADOW_PATH, FILE_ATTR_PERMS) := [128; 1] ]} units in
  let v := Vfs.VfsDispatcher_ctor [inl flash; inr []] in
  let v := snd (Vfs.mount v (Some [47]) (Some 0%nat) None 4) in
  snd (Vfs.mount v (Some [47; 116; 109; 112]) (Some 1%nat) None 4).

Definition store_of : gmap path (list Z) -> Vfs.VfsDispatcher (LittleFs.ram + list TmpFs.tmpfs_node) := store_with 4096.

Definition demo_store : Vfs.VfsDispatcher (LittleFs.ram + list TmpFs.tmpfs_node) :=
  store_of (<[USER_STORE_PASSWD_PATH := demo_passwd]> {[ USER_STORE_SHADOW_PATH := demo_shadow ]}).

Definition demo_locals : locals :=
  mkLocals (replicate 32 0) (replicate 8 0) (replicate 32 0) (replicate 65 0) (replicate 17 0) (replicate 8 0) (mk256 (replicate 64 0) 0 0 []).

Definition demo_rand (n : Z) : Z * Z := (n, n + 1).

Definition root_env : env := mkEnv 9 0 0 18.
Definition bob_env : env := mkEnv 9 7 7 18.

Definition demo_setPassword := setPassword (B := LittleFs.ram + list TmpFs.tmpfs_node) temp_dir Z (fun s => s) demo_rand.
Definition demo_addUser := addUser (B := LittleFs.ram + list TmpFs.tmpfs_node) temp_dir Z (fun s => s) demo_rand.

Lemma store_of_holds files : map_Forall (fun _ d => zlen d < 2147483648 /\ no_nul d) files -> holds (names := store_names temp_dir) (store_of files) 0.
Proof.
  intros Hsz. assert (forall p, p ∈ store_names temp_dir -> p = USER_STORE_PASSWD_PATH \/ p = USER_STORE_SHADOW_PATH \/
    p = temp_dir ++ FsImpl.basename (Some USER_STORE_PASSWD_PATH) \/ p = temp_dir ++ FsImpl.basename (Some USER_STORE_SHADOW_PATH)) as Hn.
  { intros p Hp. unfold store_names in Hp. rewrite !elem_of_cons in Hp. destruct Hp as [?|[?|[?|[?|?%not_elem_of_nil]]]]; tauto. }
  assert (forall p, no_nul (default [] (files !! p))) as Hnn by (intros p; destruct (files !! p) eqn:E; [by apply (Hsz p)|constructor]).
  split; [|exact (Hnn USER_STORE_PASSWD_PATH)|exact (Hnn USER_STORE_SHADOW_PATH)]. split.
  - apply Forall_cons_2; [intros p d Hp; by apply (Hsz p)|apply Forall_cons_2; [apply TmpFs.tree_empty|constructor]].
  - intros p Hp. destruct (Hn p Hp) as [->|[->|[->| ->]]]; vm_compute; reflexivity.
  - eexists. split; [reflexivity|]. intros p Hp. apply not_elem_of_nil.
  - intros p q Hp Hq Hne. destruct (Hn p Hp) as [->|[->|[->| ->]]], (Hn q Hq) as [->|[->|[->| ->]]]; try done; vm_compute; congruence.
Qed.

Lemma demo_holds : holds (names := store_names temp_dir) demo_store 0.
Proof.
  apply store_of_holds. apply map_Forall_insert_2; [|apply map_Forall_singleton]; (split; [by vm_compute|]); apply (bool_decide_unpack (Forall (fun c => c <> 0) _)); by vm_compute.
Qed.

Lemma demo_roomy n : n <= 4096 -> roomy (names := store_names temp_dir) demo_store 0 n.
Proof. intros Hn. eexists. split; [reflexivity|exact Hn]. Qed.

Lemma demo_locals_ok : locals_ok demo_locals.
Proof. split; try done. split; [done|]. apply Forall_replicate. done. Qed.

(** A record whose fields hold no separator and no newline, and whose name does not
    begin a comment, is printed as a line, inside the eight bytes for a number, and parsing
    that line gives the record back: the name, both 16-bit numbers, home and shell. *)
Theorem passwd_line_roundtrip buf r : length buf = 8%nat -> user_ok r ->
  exists line, serializePasswdLine buf r = Some line /\ without 10 line /\ parsePasswdLine line = Some (Some r) /\
    accounts (line ++ [10]) = [r].
Proof.
  intros Hb Hr. destruct (passwd_line_spec buf r Hb Hr) as (line & E & Hl & _ & _ & _ & Hcr & Hp). exists line. split; [done|]. split; [done|]. split; [done|].
  unfold accounts. rewrite lines_one by done. cbn. unfold account. by rewrite Hcr, Hp.
Qed.

(** [eve:x:65535:80:/h:cmd] *)
Lemma passwd_line_roundtrip_witness :
  exists line, serializePasswdLine (replicate 8 7) (mkUser 65535 80 [101; 118; 101] [47; 104] USER_STORE_DEFAULT_SHELL) = Some line /\
    parsePasswdLine line = Some (Some (mkUser 65535 80 [101; 118; 101] [47; 104] USER_STORE_DEFAULT_SHELL)).
Proof.
  destruct (passwd_line_roundtrip (replicate 8 7) (mkUser 65535 80 [101; 118; 101] [47; 104] USER_STORE_DEFAULT_SHELL) eq_refl) as (line & E & _ & P & _).
  { split; cbn; try lia; try done; by repeat constructor. }
  exists line. split; [exact E|exact P].
Defined.




(** [eve] with uid 8. *)
Definition demo_user : user_record := mkUser 8 8 [101; 118; 101] [47] USER_STORE_DEFAULT_SHELL.

Lemma demo_user_ok : user_ok demo_user.
Proof. split; cbn; try lia; try done; by repeat constructor. Qed.




(** Changing a password replaces the password file by a copy that was made in the
    session of the caller, with that owner and the permissions of any new file: bob, who
    may neither read nor write the passwords, sets a new one for bob, then owns the file
    that everyone can read, and writes a line for root with any password, which is
    accepted. *)
Theorem shadow_taken_over :
  let hash := default [] (hashPassword (l_ctx demo_locals) (Some [120]) (Some (replicate 8 0)) USER_STORE_SALT_LEN (replicate 32 0)) in
  let line := shadow_text root_name hash (replicate 8 0) ++ [10] in
  Vfs.contents bob_env demo_store USER_STORE_SHADOW_PATH = Some (-1, []) /\
  Vfs.writeFile bob_env demo_store (Some USER_STORE_SHADOW_PATH) (Some line) (zlen line) false = Some (-1, demo_store) /\
  ('(ok, v1, _) <- demo_setPassword bob_env demo_store (mkRng false 0) demo_locals 5 (Some bob_name) (Some [112; 119]);;
   '(_, info) <- Vfs.getFileMeta v1 (Some USER_STORE_SHADOW_PATH);;
   '(written, v2) <- Vfs.writeFile bob_env v1 (Some USER_STORE_SHADOW_PATH) (Some line) (zlen line) false;;
   '(accepted, _) <- verifyPassword bob_env v2 demo_locals (Some root_name) (Some [120]);;
   Some (ok, i_uid <$> info, i_perms <$> info, written, accepted)) = Some (true, Some (e_uid bob_env), Some 420, zlen line, true).
Proof. split; [vm_compute; reflexivity|]. split; vm_compute; reflexivity. Qed.

(** The results of the writes that copy the password file are not looked at: on a storage
    that fills up while bob's password is changed, the change is refused, and root's
    password, accepted before, is gone. *)
Theorem passwords_lost_without_room :
  let v := store_with 200 (<[USER_STORE_PASSWD_PATH := demo_passwd]> {[ USER_STORE_SHADOW_PATH := demo_shadow ]}) in
  ('(ok, v1, g) <- demo_setPassword root_env v (mkRng false 0) demo_locals 5 (Some root_name) (Some [120]);;
   '(before, v1) <- verifyPassword root_env v1 demo_locals (Some root_name) (Some [120]);;
   '(ok2, v2, _) <- demo_setPassword bob_env v1 g demo_locals 5 (Some bob_name) (Some [112; 119]);;
   '(after, _) <- verifyPassword root_env v2 demo_locals (Some root_name) (Some [120]);;
   Some (ok, before, ok2, after)) = Some (true, true, false, false).
Proof. vm_compute. reflexivity. Qed.

(** A caller other than root that removes an account takes its line out of the account file
    and leaves the password. *)
Theorem password_left_behind :
  ('(ok, v1) <- removeUser temp_dir bob_env demo_store (Some root_name);;
   u <- findUserByName root_env v1 (Some root_name);;
   Some (ok, u, Vfs.file_at v1 (Some USER_STORE_SHADOW_PATH))) = Some (true, None, Some demo_shadow).
Proof. vm_compute. reflexivity. Qed.

End UserStore.
