(* ===== verification/Session.v ===== *)
(** * Sessions ([src/service_provider/session/SessionManager.cpp])

    The table of the three sessions, one per terminal, and the current one: attaching and
    detaching terminals, the working directories, the file mode mask and the identity of the
    session.

    The theorems: the table keeps one session per terminal through every history of calls,
    and nothing a session does touches another one. *)

From stdpp Require Import base option list numbers gmap.
From Stdlib Require Import ZArith Lia.
From S2P Require Import Prelude FileSys FsImpl.

Open Scope Z_scope.

Module Session.

Definition PDI_MAX_SESSIONS : nat := 3.
Definition FILE_UMASK_DEFAULT : Z := 18. (* 0022 *)

Inductive session_state := SESSION_STATE_FREE | SESSION_STATE_PRELOGIN | SESSION_STATE_LOGIN_WAIT | SESSION_STATE_INTERACTIVE
  | SESSION_STATE_DEAD.

#[export] Instance session_state_eq_dec : EqDecision session_state.
Proof. solve_decision. Defined.

(** The state of the line editor. *)
Record editor := mkEditor { m_linebuf : list Z; m_cursor : Z; m_historyIdx : Z; m_prevHistorySize : Z; m_origTypedPrefix : list Z;
  m_prevArgSize : Z; m_autoCompleteIdx : Z; m_prevCmdSize : Z }.

(** Who is logged in. *)
Record identity := mkIdentity { m_isAuthorized : bool; m_username : list Z; m_uid : Z; m_gid : Z; m_loginAt : Z; m_lastActivityAt : Z }.

(** [session_t]; a terminal is a number, null is [None]. *)
Record session := mkSession { m_sid : Z; m_state : session_state; m_terminal : option nat; m_editor : editor; m_cwd : path; m_lastCwd : path;
  m_umask : Z; m_identity : identity }.

Definition no_editor : editor := mkEditor [] 0 (-1) 0 [] 0 (-1) 0.
Definition nobody : identity := mkIdentity false [] 0 0 0 0.

(** [session_t::clear], which is also what the static table holds at first. *)
Definition cleared : session := mkSession 0 SESSION_STATE_FREE None no_editor [] [] FILE_UMASK_DEFAULT nobody.

Definition set_identity (i : identity) (s : session) : session :=
  mkSession (m_sid s) (m_state s) (m_terminal s) (m_editor s) (m_cwd s) (m_lastCwd s) (m_umask s) i.
Definition set_editor (e : editor) (s : session) : session :=
  mkSession (m_sid s) (m_state s) (m_terminal s) e (m_cwd s) (m_lastCwd s) (m_umask s) (m_identity s).
Definition set_umask (u : Z) (s : session) : session :=
  mkSession (m_sid s) (m_state s) (m_terminal s) (m_editor s) (m_cwd s) (m_lastCwd s) u (m_identity s).
Definition set_dirs (cwd lastCwd : path) (s : session) : session :=
  mkSession (m_sid s) (m_state s) (m_terminal s) (m_editor s) cwd lastCwd (m_umask s) (m_identity s).

(** The static members; a pointer to a session is its index. *)
Record manager := mkManager { m_sessions : list session; m_current : option nat }.

Definition initial_manager : manager := mkManager (replicate PDI_MAX_SESSIONS cleared) None.

Definition is_free (s : session) : bool := bool_decide (m_state s = SESSION_STATE_FREE).

(** The first session from index [i] on that [f] accepts. *)
Fixpoint slot_loop (f : session -> bool) (ss : list session) (i : nat) : option nat :=
  match ss with
  | [] => None
  | s :: ss => if f s then Some i else slot_loop f ss (S i)
  end.

Definition findByTerminal (m : manager) (terminal : option nat) : option nat :=
  match terminal with
  | None => None
  | Some t => slot_loop (fun s => negb (is_free s) && bool_decide (m_terminal s = Some t)) (m_sessions m) 0
  end.

(** The session handed out, if any. *)
Definition attach (m : manager) (terminal : option nat) : option nat * manager :=
  match terminal with
  | None => (None, m)
  | Some t =>
      match findByTerminal m (Some t) with
      | Some i => (Some i, mkManager (m_sessions m) (Some i))
      | None =>
          match slot_loop is_free (m_sessions m) 0 with
          | Some i =>
              let s := mkSession (u8 (Z.of_nat i + 1)) SESSION_STATE_PRELOGIN (Some t) no_editor [] [] FILE_UMASK_DEFAULT nobody in
              (Some i, mkManager (<[i := s]> (m_sessions m)) (Some i))
          | None => (None, m)
          end
      end
  end.

Definition detach (m : manager) (terminal : option nat) : manager :=
  match findByTerminal m terminal with
  | None => m
  | Some i => mkManager (<[i := cleared]> (m_sessions m)) (if bool_decide (m_current m = Some i) then None else m_current m)
  end.

Definition detachCurrent (m : manager) : manager :=
  match m_current m with
  | None => m
  | Some i => mkManager (<[i := cleared]> (m_sessions m)) None
  end.

Definition current (m : manager) : option (nat * session) :=
  i <- m_current m;; s <- m_sessions m !! i;; if is_free s then None else Some (i, s).

Definition getByIndex (m : manager) (idx : Z) : option session :=
  if idx >=? Z.of_nat PDI_MAX_SESSIONS then None else m_sessions m !! Z.to_nat idx.

Definition setCurrent (m : manager) (i : option nat) : manager := mkManager (m_sessions m) i.

Definition activeCount (m : manager) : Z := u8 (zlen (filter (fun s => is_free s = false) (m_sessions m))).

(** The current session replaced. *)
Definition update (m : manager) (i : nat) (s : session) : manager := mkManager (<[i := s]> (m_sessions m)) (m_current m).

(** ** Working directories

    [d] are the directories of the root file system; [isdir] is [__i_fs.isDirectory], and
    [rootdir] the [isDirectory] of the root file system, which its own [setPWD] asks. *)

Definition getPWD (m : manager) (d : FsImpl.dirs) : path :=
  match current m with
  | Some (_, s) => if bool_decide (m_cwd s = []) then FsImpl.m_pwd d else m_cwd s
  | None => FsImpl.m_pwd d
  end.

Definition getLastPWD (m : manager) (d : FsImpl.dirs) : path :=
  match current m with
  | Some (_, s) => if bool_decide (m_lastCwd s = []) then FsImpl.m_lastpwd d else m_lastCwd s
  | None => FsImpl.m_lastpwd d
  end.

(** [None]: the character before an empty path is read. *)
Definition setPWD (isdir rootdir : path -> bool) (m : manager) (d : FsImpl.dirs) (p : path) : option (bool * manager * FsImpl.dirs) :=
  match current m with
  | None => '(r, d) <- FsImpl.setPWD rootdir d p;; Some (r, m, d)
  | Some (i, s) =>
      if negb (isdir p) then Some (false, m, d)
      else cwd <- FsImpl.with_separator p;; Some (true, update m i (set_dirs cwd (m_cwd s) s), d)
  end.

Definition changeDirectory (isdir : path -> bool) (m : manager) (d : FsImpl.dirs) (p : option path) : option (bool * manager * FsImpl.dirs) :=
  match current m with
  | None => '(r, d) <- FsImpl.changeDirectory isdir d p;; Some (r, m, d)
  | Some (i, s) =>
      let cwd := if bool_decide (m_cwd s = []) then FsImpl.m_pwd d else m_cwd s in
      r <- FsImpl.updatePathNotations isdir p;;
      Some (match r with
            | Some q => (true, update m i (set_dirs q cwd s), d)
            | None => (false, update m i (set_dirs cwd cwd s), d)
            end)
  end.

(** ** Mask and identity *)

Definition getCurrentUmask (m : manager) : Z := match current m with Some (_, s) => m_umask s | None => FILE_UMASK_DEFAULT end.

Definition setCurrentUmask (m : manager) (umask : Z) : manager :=
  match current m with
  | Some (i, s) => update m i (set_umask (Z.land umask 511) s)
  | None => m
  end.

Definition getCurrentUid (m : manager) : Z := match current m with Some (_, s) => m_uid (m_identity s) | None => 0 end.
Definition getCurrentGid (m : manager) : Z := match current m with Some (_, s) => m_gid (m_identity s) | None => 0 end.

(** What the file systems ask for, at time [now]. *)
Definition session_env (m : manager) (now : Z) : env := mkEnv now (getCurrentUid m) (getCurrentGid m) (getCurrentUmask m).

(** The identity of the current session, which is given the default mask: what
    [AuthServiceProvider::setAuthorized] does to the session. *)
Definition set_current_identity (m : manager) (i : identity) : manager :=
  match current m with
  | Some (k, s) => update m k (set_umask FILE_UMASK_DEFAULT (set_identity i s))
  | None => m
  end.

(** What [processTerminalInput] does first: the session of the terminal becomes the current
    one, and its activity is stamped. *)
Definition select (m : manager) (terminal : option nat) (now : Z) : bool * manager :=
  match findByTerminal m terminal with
  | None => (false, m)
  | Some k =>
      let m := setCurrent m (Some k) in
      (true, match m_sessions m !! k with
             | Some s =>
                 let i := m_identity s in
                 update m k (set_identity (mkIdentity (m_isAuthorized i) (m_username i) (m_uid i) (m_gid i) (m_loginAt i) (u32 now)) s)
             | None => m
             end)
  end.

(** The line editor of the current session. *)
Definition edit (m : manager) (e : editor) : manager :=
  match current m with
  | Some (k, s) => update m k (set_editor e s)
  | None => m
  end.

(** ** The table *)

Record table_ok (m : manager) : Prop := {
  to_length : length (m_sessions m) = PDI_MAX_SESSIONS;
  to_used : forall i s, m_sessions m !! i = Some s -> is_free s = false -> m_sid s = Z.of_nat i + 1 /\ is_Some (m_terminal s);
  to_distinct : forall i j s s', m_sessions m !! i = Some s -> m_sessions m !! j = Some s' -> is_free s = false -> is_free s' = false ->
    m_terminal s = m_terminal s' -> i = j;
  to_current : forall i, m_current m = Some i -> exists s, m_sessions m !! i = Some s /\ is_free s = false }.

Lemma slot_loop_spec f ss : forall i,
  match slot_loop f ss i with
  | Some j => exists k s, j = (i + k)%nat /\ ss !! k = Some s /\ f s = true
  | None => forall k s, ss !! k = Some s -> f s = false
  end.
Proof.
  induction ss as [|s ss IH]; intros i; cbn [slot_loop]; [done|]. destruct (f s) eqn:Ef.
  - exists 0%nat, s. split; [lia|]. done.
  - specialize (IH (S i)). destruct (slot_loop f ss (S i)) as [j|].
    + destruct IH as (k & s' & -> & Hk & Hf). exists (S k), s'. split; [lia|]. done.
    + intros [|k] s' Hk; [by injection Hk as <-|]. by apply (IH k).
Qed.

(** The session of a terminal. *)
Lemma findByTerminal_spec m t : table_ok m ->
  match findByTerminal m (Some t) with
  | Some i => exists s, m_sessions m !! i = Some s /\ is_free s = false /\ m_terminal s = Some t
  | None => forall i s, m_sessions m !! i = Some s -> is_free s = false -> m_terminal s <> Some t
  end.
Proof.
  intros Hm. cbn. pose proof (slot_loop_spec (fun s => negb (is_free s) && bool_decide (m_terminal s = Some t)) (m_sessions m) 0) as Hs.
  destruct (slot_loop _ _ _) as [j|].
  - destruct Hs as (k & s & -> & Hk & [Hf Ht]%andb_true_iff). exists s. split; [done|]. split; [by apply negb_true_iff|]. by apply bool_decide_eq_true in Ht.
  - intros i s Hi Hf Ht. specialize (Hs i s Hi). rewrite Hf, bool_decide_eq_true_2 in Hs by done. done.
Qed.

Lemma table_set m i s c : table_ok m -> (i < PDI_MAX_SESSIONS)%nat ->
  (is_free s = false -> m_sid s = Z.of_nat i + 1 /\ exists t, m_terminal s = Some t /\
     forall j s', j <> i -> m_sessions m !! j = Some s' -> is_free s' = false -> m_terminal s' <> Some t) ->
  (forall j, c = Some j -> j = i /\ is_free s = false \/ j <> i /\ m_current m = Some j) ->
  table_ok (mkManager (<[i := s]> (m_sessions m)) c).
Proof.
  intros Hm Hi Hs Hc. assert (i < length (m_sessions m))%nat as Hil by (by rewrite (to_length m Hm)).
  assert (forall j s', <[i := s]> (m_sessions m) !! j = Some s' -> j = i /\ s' = s \/ j <> i /\ m_sessions m !! j = Some s') as Hl.
  { intros j s' Hj. destruct (decide (j = i)) as [->|Hne]; [rewrite list_lookup_insert_eq in Hj by done; left; by injection Hj as ->|].
    rewrite list_lookup_insert_ne in Hj by done. by right. }
  split; cbn [m_sessions m_current].
  - by rewrite length_insert, (to_length m Hm).
  - intros j s' Hj Hf. destruct (Hl j s' Hj) as [[-> ->]|[Hne Hj']]; [|by apply (to_used m Hm)].
    destruct (Hs Hf) as (Hsid & t & Ht & _). split; [done|by eexists].
  - intros j k s1 s2 Hj Hk Hf1 Hf2 Ht. destruct (Hl j s1 Hj) as [[-> ->]|[Hne1 Hj']], (Hl k s2 Hk) as [[-> ->]|[Hne2 Hk']]; try done.
    + destruct (Hs Hf1) as (_ & t & Ht1 & Hother). by destruct (Hother k s2 Hne2 Hk' Hf2); rewrite <- Ht.
    + destruct (Hs Hf2) as (_ & t & Ht2 & Hother). by destruct (Hother j s1 Hne1 Hj' Hf1); rewrite Ht.
    + by apply (to_distinct m Hm j k s1 s2).
  - intros j Hj. destruct (Hc j Hj) as [[-> Hf]|[Hne Hcur]].
    + exists s. by rewrite list_lookup_insert_eq.
    + destruct (to_current m Hm j Hcur) as (s' & Hs' & Hf). exists s'. by rewrite list_lookup_insert_ne.
Qed.

Lemma attach_ok m t : table_ok m -> table_ok (attach m t).2.
Proof.
  intros Hm. destruct t as [t|]; [|done]. unfold attach. pose proof (findByTerminal_spec m t Hm) as Hf. destruct (findByTerminal m (Some t)) as [i|].
  - destruct Hf as (s & Hs & Hfree & _). destruct Hm. split; try done. cbn. intros j [= <-]. by exists s.
  - pose proof (slot_loop_spec is_free (m_sessions m) 0) as Hl. destruct (slot_loop is_free (m_sessions m) 0) as [i|]; [|done].
    destruct Hl as (k & s & -> & Hk & _). assert (k < PDI_MAX_SESSIONS)%nat as Hi by (rewrite <- (to_length m Hm); by eapply lookup_lt_Some).
    cbn [snd]. apply table_set; try done.
    + intros _. cbn. unfold PDI_MAX_SESSIONS in Hi. split; [rewrite u8_small by lia; lia|]. exists t. split; [done|]. intros j s' _. by apply Hf.
    + intros j [= <-]. by left.
Qed.

Lemma detach_ok m t : table_ok m -> table_ok (detach m t).
Proof.
  intros Hm. unfold detach. destruct t as [t|]; [|done]. pose proof (findByTerminal_spec m t Hm) as Hf. destruct (findByTerminal m (Some t)) as [i|]; [|done].
  destruct Hf as (s & Hs & _). apply table_set; [done|rewrite <- (to_length m Hm); by eapply lookup_lt_Some|done|].
  intros j. case_bool_decide as E; [done|]. intros Hc. right. split; [congruence|done].
Qed.

Lemma detachCurrent_ok m : table_ok m -> table_ok (detachCurrent m).
Proof.
  intros Hm. unfold detachCurrent. destruct (m_current m) as [i|] eqn:Ec; [|done]. destruct (to_current m Hm i Ec) as (s & Hs & _).
  apply table_set; [done|rewrite <- (to_length m Hm); by eapply lookup_lt_Some|done|done].
Qed.

Lemma current_spec m i s : current m = Some (i, s) -> m_current m = Some i /\ m_sessions m !! i = Some s /\ is_free s = false.
Proof.
  unfold current. destruct (m_current m) as [j|]; [|done]. cbn. destruct (m_sessions m !! j) as [s'|] eqn:E; [|done]. cbn.
  destruct (is_free s') eqn:Ef; [done|]. intros [= -> ->]. done.
Qed.

(** What a session does to itself keeps its place in the table. *)
Definition same_place (s s' : session) : Prop := m_sid s' = m_sid s /\ m_state s' = m_state s /\ m_terminal s' = m_terminal s.

Lemma update_ok m i s s' : table_ok m -> current m = Some (i, s) -> same_place s s' -> table_ok (update m i s').
Proof.
  intros Hm (Hc & Hs & Hf)%current_spec (Esid & Est & Et). assert (is_free s' = false) as Hf' by (unfold is_free; by rewrite Est).
  apply table_set; [done|rewrite <- (to_length m Hm); by eapply lookup_lt_Some| |].
  - intros _. destruct (to_used m Hm i s Hs Hf) as (Hsid & t & Ht). rewrite Esid, Et, Ht. split; [done|]. exists t. split; [done|].
    intros j s2 Hne Hj Hf2 Ht2. apply Hne. apply (to_distinct m Hm j i s2 s); try done. by rewrite Ht, Ht2.
  - intros j Hj. destruct (decide (j = i)) as [->|Hne]; [by left|by right].
Qed.

(** ** One session per terminal

    What the table promises: each terminal has its own session, three at most, and one
    terminal is the current one. *)

Record view := mkView { v_editor : editor; v_cwd : path; v_lastCwd : path; v_umask : Z; v_identity : identity }.

Record terminals := mkTerminals { by_terminal : gmap nat view; at_terminal : option nat }.

Definition fresh_view : view := mkView no_editor [] [] FILE_UMASK_DEFAULT nobody.

Definition view_of (s : session) : view := mkView (m_editor s) (m_cwd s) (m_lastCwd s) (m_umask s) (m_identity s).

Definition used (s : session) : option (nat * view) := if is_free s then None else t <- m_terminal s;; Some (t, view_of s).

Definition table_view (ss : list session) : gmap nat view := list_to_map (omap used ss).

Definition terminal_of (m : manager) : option nat := i <- m_current m;; s <- m_sessions m !! i;; m_terminal s.

Definition abstract (m : manager) : terminals := mkTerminals (table_view (m_sessions m)) (terminal_of m).

Inductive op :=
  | OpAttach (t : option nat)
  | OpDetach (t : option nat)
  | OpDetachCurrent
  | OpSelect (t : option nat) (now : Z)
  | OpEdit (e : editor)
  | OpIdentity (i : identity)
  | OpUmask (u : Z)
  | OpSetPWD (p : path)
  | OpChangeDirectory (p : option path).

Section histories.

Variable isdir rootdir : path -> bool.

Definition step (o : op) (m : manager) (d : FsImpl.dirs) : option (bool * manager * FsImpl.dirs) :=
  match o with
  | OpAttach t => let '(r, m) := attach m t in Some (bool_decide (is_Some r), m, d)
  | OpDetach t => Some (true, detach m t, d)
  | OpDetachCurrent => Some (true, detachCurrent m, d)
  | OpSelect t now => let '(r, m) := select m t now in Some (r, m, d)
  | OpEdit e => Some (true, edit m e, d)
  | OpIdentity i => Some (true, set_current_identity m i, d)
  | OpUmask u => Some (true, setCurrentUmask m u, d)
  | OpSetPWD p => setPWD isdir rootdir m d p
  | OpChangeDirectory p => changeDirectory isdir m d p
  end.

(** The answers to a history of calls, and the state it leaves. *)
Fixpoint steps (os : list op) (m : manager) (d : FsImpl.dirs) : option (list bool * manager * FsImpl.dirs) :=
  match os with
  | [] => Some ([], m, d)
  | o :: os => '(r, m, d) <- step o m d;; '(rs, m, d) <- steps os m d;; Some (r :: rs, m, d)
  end.

(** The session of the current terminal changed. *)
Definition act (f : view -> view) (a : terminals) : terminals :=
  match at_terminal a with
  | Some t => mkTerminals (alter f t (by_terminal a)) (Some t)
  | None => a
  end.

Definition viewed (a : terminals) : option view := t <- at_terminal a;; by_terminal a !! t.

Definition view_dirs (cwd lastCwd : path) (v : view) : view := mkView (v_editor v) cwd lastCwd (v_umask v) (v_identity v).

Definition view_stamp (now : Z) (v : view) : view :=
  let i := v_identity v in
  mkView (v_editor v) (v_cwd v) (v_lastCwd v) (v_umask v)
    (mkIdentity (m_isAuthorized i) (m_username i) (m_uid i) (m_gid i) (m_loginAt i) (u32 now)).

Definition spec_attach (a : terminals) (t : nat) : bool * terminals :=
  match by_terminal a !! t with
  | Some _ => (true, mkTerminals (by_terminal a) (Some t))
  | None => if (size (by_terminal a) <? PDI_MAX_SESSIONS)%nat then (true, mkTerminals (<[t := fresh_view]> (by_terminal a)) (Some t)) else (false, a)
  end.

Definition spec_detach (a : terminals) (t : nat) : terminals :=
  mkTerminals (delete t (by_terminal a)) (if bool_decide (at_terminal a = Some t) then None else at_terminal a).

Definition spec_select (a : terminals) (t : nat) (now : Z) : bool * terminals :=
  match by_terminal a !! t with
  | Some _ => (true, act (view_stamp now) (mkTerminals (by_terminal a) (Some t)))
  | None => (false, a)
  end.

Definition spec_step (o : op) (a : terminals) (d : FsImpl.dirs) : option (bool * terminals * FsImpl.dirs) :=
  match o with
  | OpAttach None | OpSelect None _ => Some (false, a, d)
  | OpAttach (Some t) => let '(r, a) := spec_attach a t in Some (r, a, d)
  | OpSelect (Some t) now => let '(r, a) := spec_select a t now in Some (r, a, d)
  | OpDetach t => Some (true, match t with Some t => spec_detach a t | None => a end, d)
  | OpDetachCurrent => Some (true, match at_terminal a with Some t => spec_detach a t | None => a end, d)
  | OpEdit e => Some (true, act (fun v => mkView e (v_cwd v) (v_lastCwd v) (v_umask v) (v_identity v)) a, d)
  | OpIdentity i => Some (true, act (fun v => mkView (v_editor v) (v_cwd v) (v_lastCwd v) FILE_UMASK_DEFAULT i) a, d)
  | OpUmask u => Some (true, act (fun v => mkView (v_editor v) (v_cwd v) (v_lastCwd v) (Z.land u 511) (v_identity v)) a, d)
  | OpSetPWD p =>
      match viewed a with
      | None => '(r, d) <- FsImpl.setPWD rootdir d p;; Some (r, a, d)
      | Some v => if isdir p then cwd <- FsImpl.with_separator p;; Some (true, act (view_dirs cwd (v_cwd v)) a, d) else Some (false, a, d)
      end
  | OpChangeDirectory p =>
      match viewed a with
      | None => '(r, d) <- FsImpl.changeDirectory isdir d p;; Some (r, a, d)
      | Some v =>
          let cwd := match v_cwd v with [] => FsImpl.m_pwd d | _ => v_cwd v end in
          r <- FsImpl.updatePathNotations isdir p;;
          Some (bool_decide (is_Some r), act (view_dirs (default cwd r) cwd) a, d)
      end
  end.

Fixpoint spec_steps (os : list op) (a : terminals) (d : FsImpl.dirs) : option (list bool * terminals * FsImpl.dirs) :=
  match os with
  | [] => Some ([], a, d)
  | o :: os => '(r, a, d) <- spec_step o a d;; '(rs, a, d) <- spec_steps os a d;; Some (r :: rs, a, d)
  end.

End histories.

(** *** The table as a map *)

Lemma used_Some s t v : used s = Some (t, v) <-> is_free s = false /\ m_terminal s = Some t /\ v = view_of s.
Proof.
  unfold used. destruct (is_free s); [by split; [|intros (? & _)]|]. destruct (m_terminal s) as [t'|]; cbn; split.
  - intros [= -> <-]. done.
  - by intros (_ & [= ->] & ->).
  - done.
  - by intros (_ & ? & _).
Qed.

Lemma used_keys m : table_ok m -> NoDup (omap used (m_sessions m)).*1.
Proof.
  intros Hm. pose proof (to_distinct m Hm) as Hd. revert Hd. generalize (m_sessions m) as ss. induction ss as [|s ss IH]; intros Hd; [constructor|].
  assert (NoDup (omap used ss).*1) as Hss.
  { apply IH. intros i j s1 s2 Hi Hj Hf1 Hf2 Ht. specialize (Hd (S i) (S j) s1 s2 Hi Hj Hf1 Hf2 Ht). lia. }
  cbn. destruct (used s) as [[t v]|] eqn:Eu; [|done]. apply used_Some in Eu as (Hf & Ht & _). cbn. constructor; [|done].
  intros ([t' v'] & -> & (s' & Hin & (Hf' & Ht' & _)%used_Some)%list_elem_of_omap)%list_elem_of_fmap. apply list_elem_of_lookup in Hin as [j Hj].
  specialize (Hd 0%nat (S j) s s' eq_refl Hj Hf Hf'). rewrite Ht, Ht' in Hd. by specialize (Hd eq_refl).
Qed.

Lemma view_lookup m t v : table_ok m ->
  table_view (m_sessions m) !! t = Some v <-> exists i s, m_sessions m !! i = Some s /\ is_free s = false /\ m_terminal s = Some t /\ v = view_of s.
Proof.
  intros Hm. unfold table_view. rewrite <- elem_of_list_to_map by by apply used_keys. rewrite list_elem_of_omap. split.
  - intros (s & [i Hi]%list_elem_of_lookup & Hu%used_Some). by exists i, s.
  - intros (i & s & Hi & Hu). exists s. split; [by eapply list_elem_of_lookup_2|]. by apply used_Some.
Qed.

Lemma view_find m t : table_ok m ->
  table_view (m_sessions m) !! t = (i <- findByTerminal m (Some t);; s <- m_sessions m !! i;; Some (view_of s)).
Proof.
  intros Hm. pose proof (findByTerminal_spec m t Hm) as Hf. destruct (findByTerminal m (Some t)) as [i|].
  - destruct Hf as (s & Hs & Hfree & Ht). cbn. rewrite Hs. cbn. apply view_lookup; [done|]. by exists i, s.
  - cbn. apply eq_None_not_Some. intros [v (i & s & Hs & Hfree & Ht & _)%view_lookup]; [|done]. by apply (Hf i s).
Qed.

(** The session of a slot replaced by one of the terminal [t], the slot having been free or
    of that terminal. *)
Lemma view_set m i s s' t c : table_ok m -> table_ok (mkManager (<[i := s']> (m_sessions m)) c) ->
  m_sessions m !! i = Some s -> (is_free s = true \/ m_terminal s = Some t) -> is_free s' = false -> m_terminal s' = Some t ->
  table_view (<[i := s']> (m_sessions m)) = <[t := view_of s']> (table_view (m_sessions m)).
Proof.
  intros Hm Hm' Hi Hold Hf' Ht'. pose proof (lookup_lt_Some _ _ _ Hi) as Hil. apply map_eq. intros u. apply option_eq. intros v.
  rewrite (view_lookup _ u v Hm'). cbn [m_sessions]. rewrite lookup_insert_Some, (view_lookup _ u v Hm). split.
  - intros (j & s2 & Hj & Hf2 & Ht2 & ->). destruct (decide (i = j)) as [<-|Hne].
    + rewrite list_lookup_insert_eq in Hj by done. injection Hj as ->. left. split; [congruence|done].
    + right. split; [|rewrite list_lookup_insert_ne in Hj by done; by exists j, s2]. intros ->. apply Hne.
      apply (to_distinct _ Hm' i j s' s2); try done; [cbn; by rewrite list_lookup_insert_eq|congruence].
  - intros [[<- <-]|[Hne (j & s2 & Hj & Hf2 & Ht2 & ->)]].
    + exists i, s'. by rewrite list_lookup_insert_eq.
    + exists j, s2. rewrite list_lookup_insert_ne; [done|]. intros <-. destruct Hold as [Hold|Hold]; congruence.
Qed.

(** The session of a slot cleared. *)
Lemma view_clear m i s t c : table_ok m -> table_ok (mkManager (<[i := cleared]> (m_sessions m)) c) ->
  m_sessions m !! i = Some s -> is_free s = false -> m_terminal s = Some t ->
  table_view (<[i := cleared]> (m_sessions m)) = delete t (table_view (m_sessions m)).
Proof.
  intros Hm Hm' Hi Hf Ht. pose proof (lookup_lt_Some _ _ _ Hi) as Hil. apply map_eq. intros u. apply option_eq. intros v.
  rewrite (view_lookup _ u v Hm'). cbn [m_sessions]. rewrite lookup_delete_Some, (view_lookup _ u v Hm). split.
  - intros (j & s2 & Hj & Hf2 & Ht2 & ->). destruct (decide (i = j)) as [<-|Hne].
    + rewrite list_lookup_insert_eq in Hj by done. by injection Hj as <-.
    + rewrite list_lookup_insert_ne in Hj by done. split; [|by exists j, s2]. intros ->. apply Hne. apply (to_distinct _ Hm i j s s2); try done. congruence.
  - intros [Hne (j & s2 & Hj & Hf2 & Ht2 & ->)]. exists j, s2. rewrite list_lookup_insert_ne; [done|]. intros <-. congruence.
Qed.

(** A slot is free exactly when there are fewer sessions than slots. *)
Lemma view_size m : table_ok m -> size (table_view (m_sessions m)) = length (filter (fun s => is_free s = false) (m_sessions m)).
Proof.
  intros Hm. unfold table_view. rewrite map_size_list_to_map by by apply used_keys. pose proof (to_used m Hm) as Hu. revert Hu.
  generalize (m_sessions m) as ss. intros ss Hu. assert (forall s, s ∈ ss -> is_free s = false -> is_Some (m_terminal s)) as Hall.
  { intros s [i Hi]%list_elem_of_lookup Hf. by apply (Hu i s). }
  clear Hu. induction ss as [|s ss IH]; [done|]. cbn [omap list_omap]. specialize (IH (fun s' Hin => Hall s' (list_elem_of_further _ _ _ Hin))).
  destruct (is_free s) eqn:Ef.
  - rewrite filter_cons_False by congruence. unfold used at 1. by rewrite Ef.
  - rewrite filter_cons_True by done. destruct (Hall s (list_elem_of_here _ _) Ef) as [t Ht]. unfold used at 1. rewrite Ef, Ht. cbn. by rewrite IH.
Qed.

Lemma filter_all {A} (P : A -> Prop) `{forall x, Decision (P x)} (l : list A) : (forall x, x ∈ l -> P x) -> filter P l = l.
Proof.
  induction l as [|x l IH]; intros Hl; [done|]. rewrite filter_cons_True by (apply Hl, list_elem_of_here).
  rewrite IH; [done|]. intros y Hy. by apply Hl, list_elem_of_further.
Qed.

Lemma view_room m : table_ok m -> (slot_loop is_free (m_sessions m) 0 = None <-> ~ (size (table_view (m_sessions m)) < PDI_MAX_SESSIONS)%nat).
Proof.
  intros Hm. rewrite (view_size m Hm), <- (to_length m Hm). pose proof (slot_loop_spec is_free (m_sessions m) 0) as Hl. split.
  - intros E. rewrite E in Hl. assert (filter (fun s => is_free s = false) (m_sessions m) = m_sessions m) as ->; [|lia].
    apply filter_all. intros s [i Hi]%list_elem_of_lookup. by apply (Hl i).
  - intros Hlt. destruct (slot_loop _ _ _) as [i|]; [|done]. destruct Hl as (k & s & _ & Hk & Hf). destruct Hlt.
    apply length_filter_lt with s; [by eapply list_elem_of_lookup_2|congruence].
Qed.

(** *** Simulation *)

Lemma terminal_of_current m i s : table_ok m -> current m = Some (i, s) ->
  exists t, m_terminal s = Some t /\ terminal_of m = Some t /\ table_view (m_sessions m) !! t = Some (view_of s).
Proof.
  intros Hm (Hc & Hs & Hf)%current_spec. destruct (to_used m Hm i s Hs Hf) as (_ & t & Ht). exists t. split; [done|]. split.
  - unfold terminal_of. rewrite Hc. cbn. by rewrite Hs.
  - apply view_lookup; [done|]. by exists i, s.
Qed.

Lemma no_current m : table_ok m -> current m = None -> m_current m = None.
Proof.
  intros Hm. unfold current. destruct (m_current m) as [i|] eqn:Ec; [|done]. destruct (to_current m Hm i Ec) as (s & Hs & Hf). cbn. rewrite Hs. cbn. by rewrite Hf.
Qed.

Lemma viewed_abstract m : table_ok m -> viewed (abstract m) = (fun x => view_of x.2) <$> current m.
Proof.
  intros Hm. unfold viewed, abstract. cbn. destruct (current m) as [[i s]|] eqn:Ec; cbn.
  - destruct (terminal_of_current m i s Hm Ec) as (t & _ & -> & Hv). done.
  - unfold terminal_of. by rewrite (no_current m Hm Ec).
Qed.

Lemma act_ext f g a v : viewed a = Some v -> f v = g v -> act f a = act g a.
Proof.
  unfold viewed, act. destruct (at_terminal a) as [t|]; [|done]. cbn. intros Hv Hfg. f_equal. apply map_eq. intros u.
  destruct (decide (t = u)) as [<-|Hne]; [rewrite !lookup_alter_eq, Hv; cbn; by rewrite Hfg|by rewrite !lookup_alter_ne].
Qed.

Lemma act_idle f m : table_ok m -> current m = None -> act f (abstract m) = abstract m.
Proof. intros Hm Hc. unfold act, abstract. cbn. unfold terminal_of. by rewrite (no_current m Hm Hc). Qed.

Lemma abstract_update m i s s' : table_ok m -> current m = Some (i, s) -> same_place s s' ->
  abstract (update m i s') = act (fun _ => view_of s') (abstract m).
Proof.
  intros Hm Hc Hp. pose proof (update_ok m i s s' Hm Hc Hp) as Hm'. destruct (terminal_of_current m i s Hm Hc) as (t & Ht & Htm & Hv).
  destruct (current_spec m i s Hc) as (Hci & Hi & Hf). destruct Hp as (_ & Est & Et). assert (is_free s' = false) as Hf' by (unfold is_free; by rewrite Est).
  unfold act, abstract. cbn [by_terminal at_terminal]. rewrite Htm. f_equal.
  - cbn [update m_sessions]. rewrite (view_set m i s s' t (m_current m)); try done; [|by right|congruence].
    by rewrite <- (insert_id (table_view (m_sessions m)) t (view_of s)) at 2; [rewrite alter_insert_eq|].
  - unfold terminal_of. cbn. rewrite Hci. cbn. rewrite list_lookup_insert_eq by (by eapply lookup_lt_Some). cbn. congruence.
Qed.

(** What a session does to itself. *)
Lemma abstract_act m i s s' f : table_ok m -> current m = Some (i, s) -> same_place s s' -> view_of s' = f (view_of s) ->
  abstract (update m i s') = act f (abstract m).
Proof.
  intros Hm Hc Hp Hf. rewrite (abstract_update m i s s') by done. apply act_ext with (view_of s); [|done]. by rewrite viewed_abstract, Hc.
Qed.

Lemma abstract_current m i c : table_ok m -> m_sessions m !! i = Some c -> abstract (mkManager (m_sessions m) (Some i)) = mkTerminals (by_terminal (abstract m)) (m_terminal c).
Proof. intros Hm Hi. unfold abstract, terminal_of. cbn. by rewrite Hi. Qed.

Lemma attach_abstract m t : table_ok m ->
  (bool_decide (is_Some (attach m (Some t)).1), abstract (attach m (Some t)).2) = spec_attach (abstract m) t.
Proof.
  intros Hm. pose proof (attach_ok m (Some t) Hm) as Hm'. pose proof (findByTerminal_spec m t Hm) as Hf. unfold spec_attach. cbn [abstract by_terminal].
  rewrite (view_find m t Hm). unfold attach in *. destruct (findByTerminal m (Some t)) as [i|].
  - destruct Hf as (s & Hs & _ & Ht). cbn. rewrite Hs. cbn. f_equal. by rewrite (abstract_current m i s), Ht.
  - cbn [mbind option_bind]. pose proof (slot_loop_spec is_free (m_sessions m) 0) as Hl. pose proof (view_room m Hm) as Hroom.
    destruct (slot_loop is_free (m_sessions m) 0) as [i|].
    + destruct (Nat.ltb_spec (size (table_view (m_sessions m))) PDI_MAX_SESSIONS) as [_|Hge]; [|by discriminate (proj2 Hroom ltac:(lia))].
      destruct Hl as (k & s & -> & Hk & Hfree). cbn [fst snd] in *. unfold abstract. rewrite bool_decide_eq_true_2 by eauto. f_equal. f_equal.
      * cbn [m_sessions]. rewrite (view_set m k s _ t (Some k)); try done. by left.
      * unfold terminal_of. cbn [m_current m_sessions mbind option_bind]. by rewrite list_lookup_insert_eq by (by eapply lookup_lt_Some).
    + destruct (Nat.ltb_spec (size (table_view (m_sessions m))) PDI_MAX_SESSIONS) as [Hlt|_]; [by apply Hroom in Hlt|done].
Qed.

Lemma clear_abstract m i s t c : table_ok m -> table_ok (mkManager (<[i := cleared]> (m_sessions m)) c) ->
  m_sessions m !! i = Some s -> is_free s = false -> m_terminal s = Some t -> (c = if bool_decide (m_current m = Some i) then None else m_current m) ->
  abstract (mkManager (<[i := cleared]> (m_sessions m)) c) = spec_detach (abstract m) t.
Proof.
  intros Hm Hm' Hs Hf Ht Hc. unfold spec_detach, abstract. cbn [by_terminal at_terminal m_sessions]. f_equal; [by apply (view_clear m i s t c)|].
  unfold terminal_of. cbn [m_current m_sessions]. rewrite Hc. case_bool_decide as Ei.
  - rewrite Ei. cbn. rewrite Hs. cbn. by rewrite bool_decide_eq_true_2.
  - destruct (m_current m) as [j|] eqn:Ej; cbn; [|done]. destruct (to_current m Hm j Ej) as (s' & Hs' & Hf').
    rewrite list_lookup_insert_ne, Hs' by congruence. cbn. rewrite bool_decide_eq_false_2; [done|]. intros Ht'. apply Ei. f_equal.
    apply (to_distinct m Hm j i s' s); try done. congruence.
Qed.

Lemma detach_abstract m t : table_ok m -> abstract (detach m (Some t)) = spec_detach (abstract m) t.
Proof.
  intros Hm. pose proof (detach_ok m (Some t) Hm) as Hm'. pose proof (findByTerminal_spec m t Hm) as Hf. pose proof (view_find m t Hm) as Hv.
  unfold detach in *. destruct (findByTerminal m (Some t)) as [i|].
  - destruct Hf as (s & Hs & Hfree & Ht). by apply (clear_abstract m i s t).
  - cbn in Hv. unfold spec_detach, abstract. cbn. rewrite delete_id by done. f_equal. case_bool_decide as E; [|done]. exfalso.
    unfold terminal_of in E. destruct (m_current m) as [j|] eqn:Ej; [|done]. destruct (to_current m Hm j Ej) as (s & Hs & Hfree).
    cbn in E. rewrite Hs in E. by apply (Hf j s).
Qed.

Lemma detachCurrent_abstract m : table_ok m ->
  abstract (detachCurrent m) = match at_terminal (abstract m) with Some t => spec_detach (abstract m) t | None => abstract m end.
Proof.
  intros Hm. pose proof (detachCurrent_ok m Hm) as Hm'. unfold detachCurrent in *. cbn [abstract at_terminal]. unfold terminal_of.
  destruct (m_current m) as [i|] eqn:Ei; [|done]. destruct (to_current m Hm i Ei) as (s & Hs & Hf). destruct (to_used m Hm i s Hs Hf) as (_ & t & Ht).
  cbn. rewrite Hs. cbn. rewrite Ht. apply (clear_abstract m i s t); try done. by rewrite bool_decide_eq_true_2.
Qed.

Lemma setCurrent_ok m t i : table_ok m -> findByTerminal m (Some t) = Some i -> exists s,
  table_ok (setCurrent m (Some i)) /\ current (setCurrent m (Some i)) = Some (i, s) /\ m_sessions m !! i = Some s /\ m_terminal s = Some t.
Proof.
  intros Hm Hi. pose proof (findByTerminal_spec m t Hm) as Hf. rewrite Hi in Hf. destruct Hf as (s & Hs & Hfree & Ht). exists s. split; [|split; [|done]].
  - destruct Hm. split; try done. cbn. intros j [= <-]. by exists s.
  - unfold current. cbn. rewrite Hs. cbn. by rewrite Hfree.
Qed.

Lemma select_ok m t now : table_ok m -> table_ok (select m t now).2.
Proof.
  intros Hm. unfold select. destruct t as [t|]; [|done]. destruct (findByTerminal m (Some t)) as [i|] eqn:Ei; [|done].
  destruct (setCurrent_ok m t i Hm Ei) as (s & Hm' & Hc & Hs & Ht). cbn [snd]. change (m_sessions (setCurrent m (Some i))) with (m_sessions m).
  rewrite Hs. by apply (update_ok _ i s).
Qed.

Lemma select_abstract m t now : table_ok m -> ((select m (Some t) now).1, abstract (select m (Some t) now).2) = spec_select (abstract m) t now.
Proof.
  intros Hm. unfold spec_select. cbn [abstract by_terminal]. rewrite (view_find m t Hm). unfold select.
  destruct (findByTerminal m (Some t)) as [i|] eqn:Ei; [|done]. destruct (setCurrent_ok m t i Hm Ei) as (s & Hm' & Hc & Hs & Ht).
  change (m_sessions (setCurrent m (Some i))) with (m_sessions m). cbn. rewrite Hs. cbn. f_equal.
  rewrite (abstract_act _ i s _ (view_stamp now)) by done. unfold setCurrent. by rewrite (abstract_current m i s), Ht.
Qed.

Definition abstracted {A} (x : A * manager * FsImpl.dirs) : A * terminals * FsImpl.dirs := let '(r, m, d) := x in (r, abstract m, d).

Section simulation.

Variable isdir rootdir : path -> bool.

(** The operations of the current session. *)
Lemma acts_simulate m k f : table_ok m -> (forall s, same_place s (k s)) -> (forall s, view_of (k s) = f (view_of s)) ->
  let m' := match current m with Some (i, s) => update m i (k s) | None => m end in table_ok m' /\ abstract m' = act f (abstract m).
Proof.
  intros Hm Hk Hf. destruct (current m) as [[i s]|] eqn:Ec; cbn.
  - split; [by apply (update_ok m i s)|by apply (abstract_act m i s)].
  - split; [done|by rewrite act_idle].
Qed.

Lemma setPWD_simulates m d p : table_ok m ->
  abstracted <$> setPWD isdir rootdir m d p = spec_step isdir rootdir (OpSetPWD p) (abstract m) d /\
  (forall r m' d', setPWD isdir rootdir m d p = Some (r, m', d') -> table_ok m').
Proof.
  intros Hm. cbn [spec_step]. rewrite viewed_abstract by done. unfold setPWD. destruct (current m) as [[i s]|] eqn:Ec; cbn [fmap option_fmap option_map snd].
  - destruct (isdir p); cbn [negb]; [|by split; [|intros r m' d' [= _ <- _]]]. destruct (FsImpl.with_separator p) as [cwd|]; cbn; [|done]. split.
    + by rewrite (abstract_act m i s _ (view_dirs cwd (m_cwd s))).
    + intros r m' d' [= _ <- _]. by apply (update_ok m i s).
  - destruct (FsImpl.setPWD rootdir d p) as [[r d']|]; cbn; [|done]. by split; [|intros ? ? ? [= _ <- _]].
Qed.

Lemma changeDirectory_simulates m d p : table_ok m ->
  abstracted <$> changeDirectory isdir m d p = spec_step isdir rootdir (OpChangeDirectory p) (abstract m) d /\
  (forall r m' d', changeDirectory isdir m d p = Some (r, m', d') -> table_ok m').
Proof.
  intros Hm. cbn [spec_step]. rewrite viewed_abstract by done. unfold changeDirectory.
  destruct (current m) as [[i s]|] eqn:Ec; cbn [fmap option_fmap option_map snd].
  - assert ((if bool_decide (m_cwd s = []) then FsImpl.m_pwd d else m_cwd s) = match m_cwd s with [] => FsImpl.m_pwd d | _ => m_cwd s end) as ->
      by (by destruct (m_cwd s)).
    cbn [view_of v_cwd]. destruct (FsImpl.updatePathNotations isdir p) as [[q|]|]; cbn [mbind option_bind option_map default]; [| |done]; (split;
      [cbn; by erewrite (abstract_act m i s)|intros r m' d' [= _ <- _]; by apply (update_ok m i s)]).
  - destruct (FsImpl.changeDirectory isdir d p) as [[r d']|]; cbn; [|done]. by split; [|intros ? ? ? [= _ <- _]].
Qed.

Lemma step_simulates o m d : table_ok m ->
  abstracted <$> step isdir rootdir o m d = spec_step isdir rootdir o (abstract m) d /\
  (forall r m' d', step isdir rootdir o m d = Some (r, m', d') -> table_ok m').
Proof.
  intros Hm. destruct o as [t|t| |t now|e|i|u|p|p]; cbn [step]; [| | | | | | |by apply setPWD_simulates|by apply changeDirectory_simulates].
  - destruct t as [t|]; [|by split; [|intros ? ? ? [= _ <- _]]]. pose proof (attach_abstract m t Hm) as Ha. pose proof (attach_ok m (Some t) Hm) as Hm'.
    destruct (attach m (Some t)) as [k m1]. cbn [spec_step]. rewrite <- Ha. by split; [|intros ? ? ? [= _ <- _]].
  - split; [|intros ? ? ? [= _ <- _]; by apply detach_ok]. destruct t as [t|]; [|done]. cbn. by rewrite (detach_abstract m t).
  - split; [|intros ? ? ? [= _ <- _]; by apply detachCurrent_ok]. cbn [fmap option_fmap option_map spec_step abstracted]. by rewrite detachCurrent_abstract.
  - destruct t as [t|]; [|by split; [|intros ? ? ? [= _ <- _]]]. pose proof (select_abstract m t now Hm) as Ha. pose proof (select_ok m (Some t) now Hm) as Hm'.
    destruct (select m (Some t) now) as [k m1]. cbn [spec_step]. rewrite <- Ha. by split; [|intros ? ? ? [= _ <- _]].
  - destruct (acts_simulate m (set_editor e) (fun v => mkView e (v_cwd v) (v_lastCwd v) (v_umask v) (v_identity v))) as (Hok & Ha); try done.
    split; [cbn; unfold edit; by rewrite Ha|by intros ? ? ? [= _ <- _]].
  - destruct (acts_simulate m (fun s => set_umask FILE_UMASK_DEFAULT (set_identity i s)) (fun v => mkView (v_editor v) (v_cwd v) (v_lastCwd v) FILE_UMASK_DEFAULT i))
      as (Hok & Ha); try done. split; [cbn; unfold set_current_identity; by rewrite Ha|by intros ? ? ? [= _ <- _]].
  - destruct (acts_simulate m (set_umask (Z.land u 511)) (fun v => mkView (v_editor v) (v_cwd v) (v_lastCwd v) (Z.land u 511) (v_identity v)))
      as (Hok & Ha); try done. split; [cbn; unfold setCurrentUmask; by rewrite Ha|by intros ? ? ? [= _ <- _]].
Qed.

Lemma steps_simulate os : forall m d, table_ok m ->
  abstracted <$> steps isdir rootdir os m d = spec_steps isdir rootdir os (abstract m) d /\
  (forall r m' d', steps isdir rootdir os m d = Some (r, m', d') -> table_ok m').
Proof.
  induction os as [|o os IH]; intros m d Hm; cbn [steps spec_steps]; [by split; [|intros ? ? ? [= _ <- _]]|].
  destruct (step_simulates o m d Hm) as (Hs & Hok). rewrite <- Hs. destruct (step isdir rootdir o m d) as [[[r m1] d1]|]; cbn [fmap option_fmap option_map mbind option_bind abstracted]; [|done].
  destruct (IH m1 d1 (Hok _ _ _ eq_refl)) as (Hss & Hoks). rewrite <- Hss. destruct (steps isdir rootdir os m1 d1) as [[[rs m2] d2]|]; cbn; [|done].
  split; [done|]. intros ? ? ? [= _ <- _]. by eapply Hoks.
Qed.

Lemma initial_ok : table_ok initial_manager.
Proof.
  split; [done| | |done].
  - intros i s Hi Hf. apply lookup_replicate in Hi as [-> _]. done.
  - intros i j s s' Hi _ Hf. apply lookup_replicate in Hi as [-> _]. done.
Qed.

(** C19: through every history of calls, whatever the directories are, the table of sessions
    is a map from the terminals attached to their sessions: a terminal has one session from
    its attachment on, three terminals have one, each session's directories, mask, identity
    and line are its own, and the answers are those of the map. *)
Theorem one_session_per_terminal os d :
  abstracted <$> steps isdir rootdir os initial_manager d = spec_steps isdir rootdir os (mkTerminals ∅ None) d.
Proof. exact (proj1 (steps_simulate os initial_manager d initial_ok)). Qed.

End simulation.

End Session.
