(* ===== verification/Auth.v ===== *)
(** * Authentication ([src/service_provider/auth/AuthServiceProvider.cpp])

    The service that checks a name and a password against the user store, or against the
    login table of the database while there is no password file, and gives the current
    session the identity that was checked; and the two places of the SSH server that use it.

    The theorems: a login is accepted exactly for the password that is stored, and gives the
    identity of the account to the current session and to no other. *)

From stdpp Require Import base option list numbers gmap.
From Stdlib Require Import ZArith Lia.
From S2P Require Import Prelude Fips180 Sha256 Conversions StrOps FileSys TmpFs LittleFs FsImpl Vfs FileStore UserStore Session.
Import Sha256 Conversions FileStore UserStore.

Open Scope Z_scope.

Module Auth.
Import Session.

(** ** The service *)

Definition LOGIN_CONFIGS_BUF_SIZE : Z := 25.

(** The members; the two arrays of the login table are memory blocks. *)
Record auth := mkAuth { m_initStatus : bool; cred_username : list Z; cred_password : list Z; m_lastVerifiedUsername : list Z }.

Definition set_last (u : list Z) (a : auth) : auth := mkAuth (m_initStatus a) (cred_username a) (cred_password a) u.

(** The login table of the database, and whether it was read. *)
Definition initService (table : option (list Z * list Z)) (a : auth) : auth :=
  match table with
  | Some (u, p) => mkAuth true u p (m_lastVerifiedUsername a)
  | None => mkAuth false (cred_username a) (cred_password a) (m_lastVerifiedUsername a)
  end.

Section service.
Context {B : Type} `{iFileSystem B}.

(** [t] is the clock of the file systems. *)
Definition isAuthorized (v : Vfs.VfsDispatcher B) (m : manager) (a : auth) (st : locals) (t : Z) (username password : option (list Z))
  : option (bool * Vfs.VfsDispatcher B * auth) :=
  match username, password with
  | Some u, Some p =>
      ex <- Vfs.isFileExist v (Some USER_STORE_SHADOW_PATH);;
      '(ok, v) <-
        (if ex : bool then verifyPassword (session_env m t) v st (Some u) (Some p)
         else
           ok <- (if m_initStatus a then StrOps.are_str_equals (Some (u ++ [0])) (Some (cred_username a)) LOGIN_CONFIGS_BUF_SIZE else Some false);;
           ok <- (if ok : bool then StrOps.are_str_equals (Some (p ++ [0])) (Some (cred_password a)) LOGIN_CONFIGS_BUF_SIZE else Some false);;
           Some (ok, v));;
      Some (ok, v, if ok : bool then set_last u a else a)
  | _, _ => Some (false, v, a)
  end.

(** The account is looked up once the session has become that of root. *)
Definition setAuthorized (v : Vfs.VfsDispatcher B) (m : manager) (a : auth) (t millis : Z) (auth : bool) : option (manager * Auth.auth) :=
  match current m with
  | None => Some (m, a)
  | Some (i, s) =>
      if auth then
        name <- (if bool_decide (m_lastVerifiedUsername a = []) then c_text (Some (cred_username a)) else Some (m_lastVerifiedUsername a));;
        let login uid gid := mkIdentity true name uid gid (u32 millis) (u32 millis) in
        rec <- findUserByName (session_env (update m i (set_identity (login 0 0) s)) t) v (Some name);;
        let id := match rec with Some r => login (UserStore.m_uid r) (UserStore.m_gid r) | None => login 0 0 end in
        Some (set_current_identity m id, a)
      else Some (set_current_identity m nobody, set_last [] a)
  end.

Definition getAuthorized (m : manager) : bool := match current m with Some (_, s) => m_isAuthorized (m_identity s) | None => false end.

Definition getUsername (m : manager) (a : auth) : option (list Z) :=
  match current m with
  | Some (_, s) => match Session.m_username (m_identity s) with [] => c_text (Some (cred_username a)) | u => Some u end
  | None => c_text (Some (cred_username a))
  end.

(** ** Logging in *)

(** What [LoginCommand], [SuCommand] and the SSH server do with a name and a password. *)
Definition login (v : Vfs.VfsDispatcher B) (m : manager) (a : auth) (st : locals) (t millis : Z) (username password : list Z)
  : option (bool * Vfs.VfsDispatcher B * manager * auth) :=
  '(ok, v, a) <- isAuthorized v m a st t (Some username) (Some password);;
  if ok : bool then '(m, a) <- setAuthorized v m a t millis true;; Some (true, v, m, a)
  else Some (false, v, m, a).

(** The answer to [SSH2_MSG_USERAUTH_REQUEST] over the client's terminal; [sent] tells
    whether the reply could be sent. *)
Definition ssh_userauth (v : Vfs.VfsDispatcher B) (m : manager) (a : auth) (st : locals) (t millis : Z) (sshclient : option nat)
    (username password : list Z) (sent : bool) : option (bool * Vfs.VfsDispatcher B * manager * auth) :=
  '(ok, v, a) <-
    (if (1 <? zlen username) && (1 <? zlen password) then isAuthorized v m a st t (Some username) (Some password) else Some (false, v, a));;
  if negb ok then Some (false, v, m, a)
  else if negb sent then Some (false, v, m, a)
  else
    let m := (attach m sshclient).2 in
    '(m, a) <- setAuthorized v m a t millis true;;
    Some (true, v, m, a).

End service.

(** ** Stored passwords *)

Fixpoint unhex (n : nat) (t : list Z) : option (list Z) :=
  match n with
  | O => Some []
  | S n =>
      match t with
      | a :: b :: t => hi <- hex_value a;; lo <- hex_value b;; r <- unhex n t;; Some (u8 (Z.lor (Z.shiftl hi 4) lo) :: r)
      | _ => None
      end
  end.

(** The hash and the salt of a line of the password file that is one of [u]:
    [u:hash:salt]. *)
Definition entry_fields (r : list Z) : option (list Z * list Z) :=
  if (length r =? 81)%nat && bool_decide (r !! 64%nat = Some USER_STORE_FIELD_SEP)
  then h <- unhex 32 r;; s <- unhex 8 (drop 65 r);; Some (h, s) else None.

Definition shadow_entry (u line : list Z) : option (list Z * list Z) :=
  if matches_user u line then entry_fields (drop (S (length u)) line) else None.

(** The first such line counts. *)
Definition stored (u d : list Z) : option (list Z * list Z) := head (omap (fun l => shadow_entry u (LittleFs.strip_cr l)) (LittleFs.lines d)).

(** The password is the one of [u]. *)
Definition accepts (u pw d : list Z) : bool :=
  match stored u d with Some (h, s) => bool_decide (h = fips_sha256 (s ++ pw)) | None => false end.

Lemma unhex_shape n : forall t bs, unhex n t = Some bs -> length bs = n /\ bytes_ok bs.
Proof.
  induction n as [|n IH]; intros t bs; cbn [unhex]; [by intros [= <-]|]. destruct t as [|a [|b t]]; try done.
  destruct (hex_value a) as [hi|]; [|done]. destruct (hex_value b) as [lo|]; [|done]. cbn [mbind option_bind].
  destruct (unhex n t) as [r|] eqn:E; [|done]. cbn [mbind option_bind]. intros [= <-]. destruct (IH t r E) as [Hl Hb]. split; [cbn; by rewrite Hl|].
  constructor; [|done]. apply u8_range.
Qed.

Lemma from_hex_unhex n : forall t0 t pre rest, length t0 = (2 * length pre)%nat -> (2 * n <= length t)%nat -> (n <= length rest)%nat ->
  exists ok o, from_hex_loop (t0 ++ t) n (zlen pre) (pre ++ rest) = Some (ok, o) /\ length o = length (pre ++ rest) /\
    match unhex n t with Some bs => ok = true /\ o = pre ++ bs ++ drop n rest | None => ok = false end.
Proof.
  induction n as [|n IH]; intros t0 t pre rest Ht0 Ht Hr; cbn [from_hex_loop unhex]; [eexists _, _; split; [done|]; done|].
  destruct t as [|a [|b t]]; [cbn in Ht; lia..|]. destruct rest as [|x rest]; [cbn in Hr; lia|]. cbn in Ht, Hr.
  replace (zlen pre * 2) with (zlen t0) by (unfold zlen; lia). rewrite mget_app_mid. cbn [mbind option_bind].
  destruct (hex_value a) as [hi|]; [|eexists _, _; done]. cbn [mbind option_bind].
  assert (mget (t0 ++ a :: b :: t) (zlen t0 + 1) = Some b) as ->.
  { replace (t0 ++ a :: b :: t) with ((t0 ++ [a]) ++ b :: t) by (by rewrite <- app_assoc). replace (zlen t0 + 1) with (zlen (t0 ++ [a])) by (by rewrite zlen_app).
    apply mget_app_mid. }
  cbn [mbind option_bind]. destruct (hex_value b) as [lo|]; [|eexists _, _; done]. cbn [mbind option_bind]. set (y := u8 _). rewrite mset_app_mid. cbn [mbind option_bind].
  destruct (IH (t0 ++ [a; b]) t (pre ++ [y]) rest) as (ok & o & E & Hl & Hm); [rewrite !length_app; cbn; lia|lia|lia|].
  rewrite <- !app_assoc, zlen_app in E. cbn [app] in E. change (zlen [y]) with 1 in E. exists ok, o. split; [done|].
  rewrite !length_app in *. cbn [length] in *. split; [lia|]. destruct (unhex n t) as [bs|]; [|done]. destruct Hm as [-> ->]. split; [done|].
  rewrite <- app_assoc. done.
Qed.

Lemma hex_text_entry n t out : (2 * n <= length t)%nat -> length out = n ->
  exists ok o, HexStringToBytes (Some (t ++ [0])) (Z.of_nat n) (Some out) = Some (ok, Some o) /\ length o = n /\
    match unhex n t with Some bs => ok = true /\ o = bs | None => ok = false end.
Proof.
  intros Ht Ho. destruct (from_hex_unhex n [] (t ++ [0]) [] out) as (ok & o & E & Hl & Hm); [done|rewrite length_app; lia|lia|].
  exists ok, o. unfold HexStringToBytes. rewrite Nat2Z.id. cbn [app] in E. change (zlen []) with 0 in E. rewrite E. split; [done|]. split; [by rewrite Hl|].
  assert (forall j s, (2 * j <= length s)%nat -> unhex j (s ++ [0]) = unhex j s) as Hu.
  { clear. intros j. induction j as [|j IH]; intros s Hs; [done|]. destruct s as [|a [|b s]]; [cbn in Hs; lia..|]. cbn. by rewrite IH by (cbn in Hs; lia). }
  rewrite Hu in Hm by done. destruct (unhex n t) as [bs|]; [|done]. destruct Hm as [-> ->]. split; [done|]. cbn. by rewrite drop_ge, app_nil_r by lia.
Qed.

Lemma find_sep_from line i k : find_sep line i = Some k <->
  (i <= k)%nat /\ line !! k = Some USER_STORE_FIELD_SEP /\ without USER_STORE_FIELD_SEP (take (k - i) (drop i line)).
Proof.
  unfold find_sep. assert (forall l j, StrOps.first_occ [USER_STORE_FIELD_SEP] l = Some j <-> l !! j = Some USER_STORE_FIELD_SEP /\ without USER_STORE_FIELD_SEP (take j l)) as Hf.
  { intros l. induction l as [|c l IH]; intros j; cbn [StrOps.first_occ].
    - split; [|by intros [? _]]. rewrite decide_False by (intros [? [=]]). done.
    - destruct (decide ([USER_STORE_FIELD_SEP] `prefix_of` c :: l)) as [[r [= ->]]|Hp].
      + split; [intros [= <-]; split; [done|constructor]|]. destruct j as [|j]; [done|]. intros [_ Hw]. cbn in Hw. by apply Forall_cons_1 in Hw as [? _].
      + assert (c <> USER_STORE_FIELD_SEP) as Hc by (intros ->; apply Hp; by exists l). split.
        * destruct (StrOps.first_occ _ l) as [k'|]; [|done]. intros [= <-]. destruct (proj1 (IH k') eq_refl) as [Hl Hw]. split; [done|]. by constructor.
        * destruct j as [|j]; [by intros [[= ->] _]|]. cbn. intros [Hl Hw]. apply Forall_cons_1 in Hw as [_ Hw]. by rewrite (proj2 (IH j) (conj Hl Hw)). }
  split.
  - destruct (StrOps.first_occ _ _) as [j|] eqn:E; [|done]. cbn. intros [= <-]. apply Hf in E as [Hl Hw]. rewrite lookup_drop in Hl.
    split; [lia|]. split; [done|]. by replace (i + j - i)%nat with j by lia.
  - intros (Hi & Hl & Hw). rewrite (proj2 (Hf (drop i line) (k - i)%nat)); [cbn; f_equal; lia|]. split; [|done]. rewrite lookup_drop. by replace (i + (k - i))%nat with k by lia.
Qed.

Lemma unhex_without n : forall t bs, unhex n t = Some bs -> without USER_STORE_FIELD_SEP (take (2 * n) t).
Proof.
  induction n as [|n IH]; intros t bs; [constructor|]. cbn [unhex]. destruct t as [|a [|b t]]; try done. replace (2 * S n)%nat with (S (S (2 * n))) by lia.
  destruct (hex_value a) as [hi|] eqn:Ea; [|done]. destruct (hex_value b) as [lo|] eqn:Eb; [|done]. cbn [mbind option_bind].
  destruct (unhex n t) as [r|] eqn:E; [|done]. intros _. cbn [take]. constructor; [by intros ->|]. constructor; [by intros ->|]. by apply (IH t r).
Qed.

(** The first field ends at another place than the hash: no hash is there. *)
Lemma entry_misplaced r k : r !! k = Some USER_STORE_FIELD_SEP -> (k < 64)%nat -> unhex 32 r = None.
Proof.
  intros Hk Hlt. destruct (unhex 32 r) as [bs|] eqn:E; [|done]. apply unhex_without in E. exfalso.
  assert (take (2 * 32) r !! k = Some USER_STORE_FIELD_SEP) as Hl by (rewrite lookup_take_lt by lia; done). by apply (Forall_lookup_1 _ _ _ _ E Hl).
Qed.

Lemma own_fields u r ho so : without USER_STORE_FIELD_SEP u -> length ho = 32%nat -> length so = 8%nat ->
  exists ok h s, shadow_line u (u ++ USER_STORE_FIELD_SEP :: r) ho so = Some (ok, h, s) /\ length h = 32%nat /\ length s = 8%nat /\
    match entry_fields r with
    | Some x => ok = true /\ (h, s) = x
    | None => ok = false
    end.
Proof.
  intros Hu Lh Ls. set (line := u ++ USER_STORE_FIELD_SEP :: r). assert (drop (S (length u)) line = r) as Ed by apply drop_past.
  assert (find_sep line 0 = Some (length u)) as F1 by (unfold find_sep; rewrite drop_0; unfold line; by rewrite StrOps.first_occ_here).
  assert (length line = (length u + S (length r))%nat) as Ll by (unfold line; by rewrite length_app).
  unfold shadow_line. rewrite F1. assert (take (length u) line = u) as -> by apply take_app_length. rewrite !bool_decide_eq_true_2 by done. cbn [negb andb].
  destruct (find_sep line (S (length u))) as [sep2|] eqn:F2.
  2: { exists false, ho, so. split; [done|]. split; [done|]. split; [done|]. unfold entry_fields. destruct (_ && _) eqn:Ec; [|done]. exfalso. apply andb_true_iff in Ec as [_ Ec%bool_decide_eq_true].
       unfold find_sep in F2. rewrite Ed in F2. destruct (StrOps.first_occ _ r) eqn:Ef; [done|]. rewrite StrOps.first_occ_None in Ef. apply (Ef 64%nat).
       - apply lookup_lt_Some in Ec. lia.
       - exists (drop 65 r). by rewrite (drop_S _ _ _ Ec). }
  apply find_sep_from in F2 as (Hle & Hat & Hw). rewrite Ed in Hw. set (k := (sep2 - S (length u))%nat) in *.
  assert (r !! k = Some USER_STORE_FIELD_SEP) as Hk by (rewrite <- Ed, lookup_drop; unfold k; by replace (S (length u) + (sep2 - S (length u)))%nat with sep2 by lia).
  replace (sep2 - length u - 1)%nat with k by (unfold k; lia). replace (length line - sep2 - 1)%nat with (length r - k - 1)%nat by (unfold k; lia).
  destruct ((Z.of_nat k =? 64) && (Z.of_nat (length r - k - 1) =? USER_STORE_SALT_LEN * 2)) eqn:Eg; cbn [negb].
  - apply andb_true_iff in Eg as [E1%Z.eqb_eq E2%Z.eqb_eq]. assert (k = 64%nat) as Ek by lia. change (USER_STORE_SALT_LEN * 2) with 16 in E2.
    assert (length r = 81%nat) as Lr by lia. unfold entry_fields. rewrite Lr, Nat.eqb_refl. rewrite Ek in Hk. rewrite bool_decide_eq_true_2 by done. cbn [andb]. rewrite Ed.
    assert (drop (S sep2) line = drop 65 r) as -> by (rewrite <- Ed, drop_drop; f_equal; unfold k in Ek; lia).
    destruct (hex_text_entry 32 r ho) as (ok & h & E & Lh' & Hh); [lia|done|]. change (Z.of_nat 32) with 32 in E. rewrite E. clear E. cbn [mbind option_bind].
    destruct (unhex 32 r) as [h'|]; cbn [mbind option_bind]; [destruct Hh as [-> ->]|subst ok; exists false, h, so; done]. cbn [negb].
    destruct (hex_text_entry 8 (drop 65 r) so) as (ok & s & E & Ls' & Hs); [rewrite length_drop; lia|done|]. change (Z.of_nat 8) with USER_STORE_SALT_LEN in E. rewrite E.
    cbn [mbind option_bind]. exists ok, h', s. split; [done|]. split; [done|]. split; [done|].
    destruct (unhex 8 _) as [s'|]; cbn [mbind option_bind]; [by destruct Hs as [-> ->]|done].
  - exists false, ho, so. split; [done|]. split; [done|]. split; [done|]. unfold entry_fields. destruct (_ && _) eqn:Ec in |- *; [|done]. apply andb_true_iff in Ec as [E81%Nat.eqb_eq E64%bool_decide_eq_true].
    assert (k <= 64)%nat as Hle64.
    { destruct (decide (k <= 64)%nat) as [|Hgt]; [done|]. exfalso. assert (take k r !! 64%nat = Some USER_STORE_FIELD_SEP) as Hl by (rewrite lookup_take_lt by lia; done).
      by apply (Forall_lookup_1 _ _ _ _ Hw Hl). }
    rewrite (entry_misplaced r k) by (done || (apply andb_false_iff in Eg as [Eg|Eg]; apply Z.eqb_neq in Eg; [lia|];
      change (USER_STORE_SALT_LEN * 2) with 16 in Eg; lia)). done.
Qed.

Lemma shadow_line_entry u line ho so : without USER_STORE_FIELD_SEP u -> length ho = 32%nat -> length so = 8%nat ->
  exists ok h s, shadow_line u line ho so = Some (ok, h, s) /\ length h = 32%nat /\ length s = 8%nat /\
    match shadow_entry u line with Some x => ok = true /\ (h, s) = x | None => ok = false end.
Proof.
  intros Hu Lh Ls. unfold shadow_entry. destruct (matches_user u line) eqn:Em.
  - apply matches_user_spec in Em as [r ->]. rewrite drop_past. by apply own_fields.
  - exists false, ho, so. split; [|done]. unfold shadow_line. destruct (find_sep line 0) as [k|] eqn:Ek; [|done]. destruct (_ && _) eqn:Eb in |- *; [|done]. exfalso.
    apply andb_true_iff in Eb as [->%bool_decide_eq_true Et%bool_decide_eq_true]. apply find_sep_from in Ek as (_ & Hk & _).
    apply Bool.not_true_iff_false in Em. apply Em, matches_user_spec. exists (drop (S (length u)) line). rewrite <- Et at 1. symmetry. by apply take_drop_middle.
Qed.

Lemma shadow_find_stored u ls : forall ho so, without USER_STORE_FIELD_SEP u -> length ho = 32%nat -> length so = 8%nat ->
  exists ok h s, shadow_find u ls ho so = Some (ok, h, s) /\
    match head (omap (fun l => shadow_entry u (LittleFs.strip_cr l)) ls) with Some x => ok = true /\ (h, s) = x | None => ok = false end.
Proof.
  induction ls as [|l ls IH]; intros ho so Hu Lh Ls; [by eexists _, _, _|]. cbn [shadow_find omap list_omap].
  destruct (shadow_line_entry u (LittleFs.strip_cr l) ho so Hu Lh Ls) as (ok & h & s & -> & Lh' & Ls' & Hm). cbn [mbind option_bind].
  destruct (shadow_entry u (LittleFs.strip_cr l)) as [x|]; [destruct Hm as [-> <-]; by exists true, h, s|]. subst ok. by apply IH.
Qed.

Lemma entry_shape u l h s : shadow_entry u l = Some (h, s) -> length h = 32%nat /\ bytes_ok h /\ length s = 8%nat /\ bytes_ok s.
Proof.
  unfold shadow_entry, entry_fields. destruct (matches_user u l); [|done]. destruct (_ && _); [|done]. destruct (unhex 32 _) as [h'|] eqn:E1; [|done].
  cbn [mbind option_bind]. destruct (unhex 8 _) as [s'|] eqn:E2; [|done]. intros [= <- <-]. by destruct (unhex_shape _ _ _ E1), (unhex_shape _ _ _ E2).
Qed.

Lemma stored_shape u d h s : stored u d = Some (h, s) -> length h = 32%nat /\ bytes_ok h /\ length s = 8%nat /\ bytes_ok s.
Proof.
  unfold stored. intros Hs. assert ((h, s) ∈ omap (fun l => shadow_entry u (LittleFs.strip_cr l)) (LittleFs.lines d)) as (l & _ & El)%list_elem_of_omap.
  { destruct (omap _ _) as [|x xs]; [done|]. injection Hs as ->. apply list_elem_of_here. }
  by apply entry_shape in El.
Qed.

(** What [verifyPassword] computes: the SHA-256 of the salt and the password is the hash
    that is stored. *)
Lemma check_accepts st u pw d : locals_ok st -> without USER_STORE_FIELD_SEP u -> bytes_ok pw -> zlen pw < 4294967296 ->
  check st u pw d = Some (accepts u pw d).
Proof.
  intros Hst Hu Hpw Hz. unfold check, accepts. destruct (shadow_find_stored u (LittleFs.lines d) (l_hash st) (l_salt st) Hu (lo_hash st Hst) (lo_salt st Hst)) as (ok & h & s & -> & Hm).
  cbn [mbind option_bind]. fold (stored u d) in Hm. destruct (stored u d) as [[h' s']|] eqn:Es; [|by subst ok]. destruct Hm as [-> [= -> ->]]. cbn [negb].
  destruct (stored_shape u d h' s' Es) as (Lh & Hh & Ls & Hs). destruct (lo_ctx st Hst) as [Lc Hc].
  rewrite (hashPassword_spec (l_ctx st) pw s') by (done || apply (lo_computed st Hst)). cbn [mbind option_bind].
  destruct (fips_sha256_shape (s' ++ pw)) as [Lf Hf]. by destruct (diff_loop_spec h' (fips_sha256 (s' ++ pw)) Hh Hf Lh Lf) as (x & -> & <-).
Qed.

(** ** What a login does *)

(** The name and the password are those of the login table. *)
Definition in_table (a : auth) (u pw cu cp : list Z) : bool := m_initStatus a && bool_decide (u = cu) && bool_decide (pw = cp).

(** The login is right: by the password file when there is one. *)
Definition verdict (a : auth) (shadow : option (list Z)) (u pw cu cp : list Z) : bool :=
  match shadow with Some d => accepts u pw d | None => in_table a u pw cu cp end.

(** The identity of the account [u] in the accounts [pd]; a name without an account is
    taken for root. *)
Definition account_identity (u pd : list Z) (millis : Z) : identity :=
  let '(uid, gid) := match List.find (wanted false 0 (Some u)) (accounts pd) with Some r => (UserStore.m_uid r, UserStore.m_gid r) | None => (0, 0) end in
  mkIdentity true u uid gid (u32 millis) (u32 millis).

(** The arrays of the login table hold these strings. *)
Record table_holds (a : auth) (cu cp : list Z) : Prop := {
  th_username : cstring (cred_username a) cu;
  th_password : cstring (cred_password a) cp;
  th_sizes : zlen cu < LOGIN_CONFIGS_BUF_SIZE /\ zlen cp < LOGIN_CONFIGS_BUF_SIZE }.

Lemma cstring_snoc s : no_nul s -> cstring (s ++ [0]) s.
Proof. intros Hs. split; [done|]. by exists []. Qed.

Lemma same_text s tm t : no_nul s -> zlen s < 65536 -> cstring tm t -> zlen t < LOGIN_CONFIGS_BUF_SIZE ->
  StrOps.are_str_equals (Some (s ++ [0])) (Some tm) LOGIN_CONFIGS_BUF_SIZE = Some (bool_decide (s = t)).
Proof.
  intros Hs Hz Ht Hl. destruct (Z.leb_spec (zlen s) LOGIN_CONFIGS_BUF_SIZE) as [Hle|Hgt]; [by apply StrOps.are_str_equals_spec; [apply cstring_snoc|..]|].
  unfold StrOps.are_str_equals. rewrite (strlen_cstring _ s (cstring_snoc s Hs)), (strlen_cstring _ t Ht). cbn [mbind option_bind].
  rewrite u16_small by (pose proof (zlen_nonneg s); lia). destruct (Z.eqb_spec (zlen s) (zlen t)) as [E|_]; [lia|]. cbn [negb].
  rewrite bool_decide_eq_false_2; [done|]. intros ->. lia.
Qed.

(** A session that says it is root is. *)
Lemma root_session m k s i t {B} `{iFileSystem B} (v : Vfs.VfsDispatcher B) : current m = Some (k, s) -> Session.m_uid i = 0 ->
  trusted (session_env (update m k (set_identity i s)) t) v.
Proof.
  intros (Hc & Hs & Hf)%current_spec Hi. unfold trusted, Vfs.checkRoot, session_env, getCurrentUid, current. cbn [update m_current m_sessions e_uid].
  rewrite Hc. cbn [mbind option_bind]. rewrite list_lookup_insert_eq by (by eapply lookup_lt_Some). cbn [mbind option_bind].
  change (is_free (set_identity i s)) with (is_free s). rewrite Hf. cbn [m_identity set_identity]. rewrite Hi. by rewrite orb_true_r.
Qed.

Section logins.
Context {B : Type} {tempdir : path} `{FileStore B (store_names tempdir)}.
Variables (v : Vfs.VfsDispatcher B) (i : nat) (m : manager) (a : auth) (st : locals) (t millis : Z) (u pw cu cp : list Z).
Hypotheses (Hh : holds v i) (Hdep : 0 <= Vfs.m_priv_depth v < 255) (Hst : locals_ok st) (Ha : table_holds a cu cp).
Hypotheses (Hne : u <> []) (Hu : without USER_STORE_FIELD_SEP u) (Hnul : no_nul u) (Huz : zlen u < 65536).
Hypotheses (Hpw : bytes_ok pw) (Hpn : no_nul pw) (Hpz : zlen pw < 65536).

Lemma isAuthorized_spec : let ok := verdict a (Vfs.file_at v (Some USER_STORE_SHADOW_PATH)) u pw cu cp in
  isAuthorized v m a st t (Some u) (Some pw) = Some (ok, v, if ok then set_last u a else a).
Proof.
  intros ok. subst ok. unfold isAuthorized. rewrite (store_isFileExist v i (h_mounted v i Hh) _ in_shadow). cbn [mbind option_bind]. destruct (Vfs.file_at v _) as [d|] eqn:Ed.
  - rewrite bool_decide_eq_true_2 by done. rewrite (verify_spec _ v i) by done. rewrite Ed. change (default [] (Some d)) with d.
    rewrite check_accepts by (done || lia). done.
  - rewrite bool_decide_eq_false_2 by (by intros [? ?]). cbn [verdict]. unfold in_table. destruct Ha as [Tu Tp [Zu Zp]]. destruct (m_initStatus a); [|done].
    rewrite (same_text u _ cu) by done. cbn [mbind option_bind andb]. destruct (bool_decide (u = cu)); [|done]. rewrite (same_text pw _ cp) by done. done.
Qed.

Lemma setAuthorized_spec k s a' : current m = Some (k, s) -> m_lastVerifiedUsername a' = u ->
  setAuthorized v m a' t millis true =
    Some (set_current_identity m (account_identity u (default [] (Vfs.file_at v (Some USER_STORE_PASSWD_PATH))) millis), a').
Proof.
  intros Hc El. unfold setAuthorized. rewrite Hc, El, bool_decide_eq_false_2 by done. cbn [mbind option_bind].
  rewrite (findUser_spec _ v i) by (done || by apply root_session). cbn [mbind option_bind]. unfold account_identity. by destruct (List.find _ _).
Qed.

Lemma login_spec k s : current m = Some (k, s) ->
  login v m a st t millis u pw =
    Some (if verdict a (Vfs.file_at v (Some USER_STORE_SHADOW_PATH)) u pw cu cp
          then (true, v, set_current_identity m (account_identity u (default [] (Vfs.file_at v (Some USER_STORE_PASSWD_PATH))) millis), set_last u a)
          else (false, v, m, a)).
Proof.
  intros Hc. unfold login. rewrite isAuthorized_spec. cbn [mbind option_bind]. destruct (verdict _ _ _ _ _ _); [|done].
  by rewrite (setAuthorized_spec k s (set_last u a)).
Qed.
(** The session that answers for the SSH client is the one that is current after
    attaching its terminal. *)
Lemma ssh_spec k s client : 1 < zlen u -> 1 < zlen pw -> current (attach m client).2 = Some (k, s) ->
  let ok := verdict a (Vfs.file_at v (Some USER_STORE_SHADOW_PATH)) u pw cu cp in
  ssh_userauth v m a st t millis client u pw true =
    Some (if ok then (true, v, set_current_identity (attach m client).2 (account_identity u (default [] (Vfs.file_at v (Some USER_STORE_PASSWD_PATH))) millis), set_last u a)
          else (false, v, m, a)).
Proof.
  intros Hu1 Hp1 Hc ok. unfold ssh_userauth. destruct (Z.ltb_spec 1 (zlen u)); [|lia]. destruct (Z.ltb_spec 1 (zlen pw)); [|lia]. cbn [andb].
  rewrite isAuthorized_spec. cbn [mbind option_bind]. fold ok. destruct ok; [|done]. cbn [negb]. unfold setAuthorized. rewrite Hc.
  cbn [set_last m_lastVerifiedUsername]. rewrite bool_decide_eq_false_2 by done. cbn [mbind option_bind].
  rewrite (findUser_spec _ v i) by (done || by apply root_session). cbn [mbind option_bind]. unfold account_identity. by destruct (List.find _ _).
Qed.
End logins.

(** The session whose identity was set. *)
Lemma identity_set m k s i : table_ok m -> current m = Some (k, s) -> let m' := set_current_identity m i in
  table_ok m' /\ current m' = Some (k, set_umask FILE_UMASK_DEFAULT (set_identity i s)) /\
  (forall j, j <> k -> m_sessions m' !! j = m_sessions m !! j).
Proof.
  intros Hm Hc m'. unfold m', set_current_identity. rewrite Hc. destruct (current_spec m k s Hc) as (Hk & Hs & Hf). split; [by apply (update_ok m k s)|]. split.
  - unfold current. cbn. rewrite Hk. cbn. rewrite list_lookup_insert_eq by (by eapply lookup_lt_Some). cbn.
    change (is_free (set_umask _ _)) with (is_free s). by rewrite Hf.
  - intros j Hj. cbn. by rewrite list_lookup_insert_ne.
Qed.

Lemma attach_current m t j : table_ok m -> (attach m (Some t)).1 = Some j -> exists s, current (attach m (Some t)).2 = Some (j, s) /\ m_terminal s = Some t /\
  forall i, i <> j -> m_sessions (attach m (Some t)).2 !! i = m_sessions m !! i.
Proof.
  intros Hm. unfold attach. destruct (findByTerminal m (Some t)) as [i|] eqn:Ei; cbn [fst snd].
  - intros [= <-]. destruct (setCurrent_ok m t i Hm Ei) as (s & _ & Hc & _ & Ht). by exists s.
  - pose proof (slot_loop_spec is_free (m_sessions m) 0) as Hl. destruct (slot_loop is_free (m_sessions m) 0) as [i|]; cbn [fst snd]; [|done].
    destruct Hl as (k & s & -> & Hk & Hf). intros [= <-]. eexists. unfold current. cbn [m_current m_sessions mbind option_bind].
    rewrite list_lookup_insert_eq by (by eapply lookup_lt_Some). split; [done|]. split; [done|]. intros j Hj. by rewrite list_lookup_insert_ne.
Qed.

(** ** Theorems *)

(** C15: A login of the current session is accepted exactly when the SHA-256 of the stored
    salt and the password is the stored hash of the user, or, while there is no password
    file, when the pair is the one of the login table.  Then the session is authorised
    with the name and the numbers of the account, which the file systems see from then on;
    a refused login changes nothing.  The other sessions and all files stay as they are. *)
Theorem login_identity {B} {tempdir} `{FileStore B (store_names tempdir)} (v : Vfs.VfsDispatcher B) i m k s a st t millis u pw cu cp :
  let ok := verdict a (Vfs.file_at v (Some USER_STORE_SHADOW_PATH)) u pw cu cp in
  let id := account_identity u (default [] (Vfs.file_at v (Some USER_STORE_PASSWD_PATH))) millis in
  holds v i -> 0 <= Vfs.m_priv_depth v < 255 -> locals_ok st -> table_holds a cu cp -> table_ok m -> current m = Some (k, s) ->
  u <> [] -> without USER_STORE_FIELD_SEP u -> no_nul u -> zlen u < 65536 -> bytes_ok pw -> no_nul pw -> zlen pw < 65536 ->
  exists m', login v m a st t millis u pw = Some (ok, v, m', if ok then set_last u a else a) /\ table_ok m' /\
    (forall j, j <> k -> m_sessions m' !! j = m_sessions m !! j) /\
    if ok then session_env m' t = mkEnv t (Session.m_uid id) (Session.m_gid id) FILE_UMASK_DEFAULT /\ getAuthorized m' = true /\ getUsername m' a = Some u
    else m' = m.
Proof.
  intros ok id Hh Hd Hst Ha Hm Hc Hne Hu Hn Hz Hpw Hpn Hpz. pose proof (login_spec v i m a st t millis u pw cu cp Hh Hd Hst Ha Hne Hu Hn Hz Hpw Hpn Hpz k s Hc) as E.
  fold ok id in E. destruct ok.
  - destruct (identity_set m k s id Hm Hc) as (Hm' & Hc' & Ho). exists (set_current_identity m id). split; [done|]. split; [done|]. split; [done|].
    assert (id = mkIdentity true u (Session.m_uid id) (Session.m_gid id) (u32 millis) (u32 millis)) as Eid by (unfold id, account_identity; by destruct (List.find _ _)).
    unfold session_env, getCurrentUid, getCurrentGid, getCurrentUmask, getAuthorized, getUsername. rewrite Hc'. cbn [m_identity set_umask set_identity m_umask].
    split; [done|]. rewrite Eid. cbn. by destruct u.
  - by exists m.
Qed.

#[local] Existing Instance UserStore.device_fs.
#[local] Existing Instance UserStore.device_laws.
#[local] Existing Instance UserStore.device_store.
#[local] Existing Instance TmpFs.tmpfs_fs.
#[local] Existing Instance TmpFs.tmpfs_laws.

(** Accounts of root and bob, no password file, and bob in the login table. *)
Definition open_store : Vfs.VfsDispatcher (LittleFs.ram + list TmpFs.tmpfs_node) := store_of {[ USER_STORE_PASSWD_PATH := demo_passwd ]}.

Definition bob_auth : auth := mkAuth true (bob_name ++ replicate 22 0) ([112; 119] ++ replicate 23 0) [].

Definition attached (n : nat) : manager := fold_left (fun m t => (attach m (Some t)).2) (seq 0 n) initial_manager.

Lemma open_holds : holds (names := store_names temp_dir) open_store 0.
Proof. apply store_of_holds, map_Forall_singleton. split; [by vm_compute|]. apply (bool_decide_unpack (Forall (fun c => c <> 0) _)). by vm_compute. Qed.

Lemma bob_table : table_holds bob_auth bob_name [112; 119].
Proof.
  split; [split; [by repeat constructor|by exists (replicate 21 0)]|split; [by repeat constructor|by exists (replicate 22 0)]|]. split; by vm_compute.
Qed.

Lemma attached_ok n : table_ok (attached n).
Proof.
  unfold attached. assert (forall ts m, table_ok m -> table_ok (fold_left (fun m t => (attach m (Some t)).2) ts m)) as Hall; [|by apply Hall, initial_ok].
  induction ts as [|t ts IH]; intros m Hm; [done|]. by apply IH, attach_ok.
Qed.

Lemma login_identity_witness : exists m', login open_store (attached 2) bob_auth demo_locals 9 5 bob_name [112; 119] = Some (true, open_store, m', set_last bob_name bob_auth) /\
  session_env m' 9 = mkEnv 9 7 7 18 /\ getAuthorized m' = true.
Proof.
  destruct (login_identity (tempdir := temp_dir) open_store 0 (attached 2) 1 (default cleared (m_sessions (attached 2) !! 1%nat)) bob_auth demo_locals 9 5 bob_name [112; 119] bob_name [112; 119]
    open_holds ltac:(vm_compute; split; [discriminate|reflexivity]) demo_locals_ok bob_table (attached_ok 2) ltac:(reflexivity)
    ltac:(done) ltac:(by repeat constructor) ltac:(by repeat constructor) ltac:(reflexivity) ltac:(by repeat constructor) ltac:(by repeat constructor) ltac:(reflexivity))
    as (m' & E & _ & _ & Hid).
  exists m'. split; [exact E|]. destruct Hid as (He & Hg & _). split; [exact He|exact Hg].
Defined.

(** C35: With the right name and password an SSH client that is attached, or finds a free
    slot, is given the identity of the account in its own session, and no other session
    changes.  When the three slots are taken it has no session, and the identity, be it
    that of root, is given to whichever session is the current one, that of another
    terminal. *)
Theorem ssh_login_session {B} {tempdir} `{FileStore B (store_names tempdir)} (v : Vfs.VfsDispatcher B) i m k s a st t millis client u pw cu cp :
  let id := account_identity u (default [] (Vfs.file_at v (Some USER_STORE_PASSWD_PATH))) millis in
  holds v i -> 0 <= Vfs.m_priv_depth v < 255 -> locals_ok st -> table_holds a cu cp -> table_ok m -> current m = Some (k, s) ->
  1 < zlen u < 65536 -> without USER_STORE_FIELD_SEP u -> no_nul u -> bytes_ok pw -> no_nul pw -> 1 < zlen pw < 65536 ->
  verdict a (Vfs.file_at v (Some USER_STORE_SHADOW_PATH)) u pw cu cp = true ->
  exists m' j, ssh_userauth v m a st t millis (Some client) u pw true = Some (true, v, m', set_last u a) /\ table_ok m' /\
    (forall j', j' <> j -> m_sessions m' !! j' = m_sessions m !! j') /\
    exists s', current m' = Some (j, s') /\ m_identity s' = id /\
      match (attach m (Some client)).1 with
      | Some j0 => j = j0 /\ m_terminal s' = Some client
      | None => j = k /\ m_terminal s' = m_terminal s /\ m_terminal s' <> Some client
      end.
Proof.
  intros id Hh Hd Hst Ha Hm Hc Hz Hu Hn Hpw Hpn Hpz Hok. assert (u <> []) as Hne by (intros ->; unfold zlen in Hz; cbn in Hz; lia).
  pose proof (attach_ok m (Some client) Hm) as Hm1. pose proof (findByTerminal_spec m client Hm) as Hf.
  assert (exists j s1, current (attach m (Some client)).2 = Some (j, s1) /\ (forall i, i <> j -> m_sessions (attach m (Some client)).2 !! i = m_sessions m !! i) /\
    match (attach m (Some client)).1 with
    | Some j0 => j = j0 /\ m_terminal s1 = Some client
    | None => j = k /\ m_terminal s1 = m_terminal s /\ m_terminal s1 <> Some client
    end) as (j & s1 & Hc1 & Ho1 & Hj).
  { destruct ((attach m (Some client)).1) as [j|] eqn:Ej; [destruct (attach_current m client j Hm Ej) as (s1 & ? & ? & ?); by exists j, s1|].
    assert ((attach m (Some client)).2 = m /\ findByTerminal m (Some client) = None) as [-> Ef].
    { unfold attach in *. destruct (findByTerminal m (Some client)); [done|]. by destruct (slot_loop _ _ _). }
    rewrite Ef in Hf. exists k, s. split; [done|]. split; [done|]. split; [done|]. split; [done|]. destruct (current_spec m k s Hc) as (_ & Hs & Hfree). by apply (Hf k s). }
  pose proof (ssh_spec v i m a st t millis u pw cu cp Hh Hd Hst Ha Hne Hu Hn ltac:(lia) Hpw Hpn ltac:(lia) j s1 (Some client) ltac:(lia) ltac:(lia) Hc1) as E.
  cbn zeta in E. rewrite Hok in E. destruct (identity_set _ j s1 id Hm1 Hc1) as (Hm' & Hc' & Ho'). eexists _, j. split; [exact E|]. split; [done|].
  split; [intros j' Hj'; by rewrite Ho', Ho1|]. eexists. split; [exact Hc'|]. done.
Qed.

Lemma ssh_login_session_witness : exists m' j, ssh_userauth open_store (attached 3) bob_auth demo_locals 9 5 (Some 7%nat) bob_name [112; 119] true =
    Some (true, open_store, m', set_last bob_name bob_auth) /\
  exists s', current m' = Some (j, s') /\ m_identity s' = mkIdentity true bob_name 7 7 5 5 /\ m_terminal s' = Some 2%nat.
Proof.
  destruct (ssh_login_session (tempdir := temp_dir) open_store 0 (attached 3) 2 (default cleared (m_sessions (attached 3) !! 2%nat)) bob_auth demo_locals 9 5 7 bob_name [112; 119] bob_name [112; 119]
    open_holds ltac:(vm_compute; split; [discriminate|reflexivity]) demo_locals_ok bob_table (attached_ok 3) ltac:(reflexivity)
    ltac:(vm_compute; done) ltac:(by repeat constructor) ltac:(by repeat constructor) ltac:(by repeat constructor) ltac:(by repeat constructor) ltac:(vm_compute; done)
    ltac:(vm_compute; reflexivity)) as (m' & j & E & _ & _ & s' & Hc & Hid & Hk).
  exists m', j. split; [exact E|]. exists s'. split; [exact Hc|]. split; [exact Hid|]. destruct Hk as (_ & Hk & _). exact Hk.
Defined.

End Auth.
