(* ===== verification/Command.v ===== *)
(** * Commands ([src/utility/CommandBase.h])

    The base of the shell commands: the name, the up to three options and the option the
    command waits for; the parser of a command line, which finds the options in place; and
    the run of a command on a line.  What a command does itself is a parameter.

    An option points into the line, or to a copy of its own when the command holds it.  The
    line is the block of a string ([pdistl/string]): its text, a terminator, and whatever
    the block has behind.  The string keeps its block while a new line fits into it, so a
    pointer into an earlier line reads the new one; a longer line moves it to another block
    and the pointer is to released memory.  Which of the two it is is a parameter of each
    call. *)

From stdpp Require Import base option list numbers.
From Stdlib Require Import ZArith Lia.
From S2P Require Import Prelude StrOps.

Open Scope Z_scope.

Module Command.

Inductive cmd_result := CMD_RESULT_OK | CMD_RESULT_ARGS_ERROR | CMD_RESULT_ARGS_MISSING | CMD_RESULT_NOT_FOUND | CMD_RESULT_INVALID
  | CMD_RESULT_INVALID_OPTION | CMD_RESULT_NEED_AUTH | CMD_RESULT_INCOMPLETE | CMD_RESULT_WRONG_CREDENTIAL | CMD_RESULT_FAILED
  | CMD_RESULT_ABORTED | CMD_RESULT_TERMINAL_ERR | CMD_RESULT_TERMINAL_ABORTED | CMD_RESULT_TERMINAL_HOLD_BUFFER | CMD_RESULT_MAX.

#[export] Instance cmd_result_eq_dec : EqDecision cmd_result.
Proof. solve_decision. Defined.

Inductive cmd_term_inseq := CMD_TERM_INSEQ_NONE | CMD_TERM_INSEQ_ENTER | CMD_TERM_INSEQ_BACKSPACE_CHAR | CMD_TERM_INSEQ_DELETE_CHAR
  | CMD_TERM_INSEQ_DELETE | CMD_TERM_INSEQ_CTRL_C | CMD_TERM_INSEQ_CTRL_Z | CMD_TERM_INSEQ_ESC | CMD_TERM_INSEQ_UP_ARROW
  | CMD_TERM_INSEQ_DOWN_ARROW | CMD_TERM_INSEQ_RIGHT_ARROW | CMD_TERM_INSEQ_LEFT_ARROW | CMD_TERM_INSEQ_HOME | CMD_TERM_INSEQ_END
  | CMD_TERM_INSEQ_PAGE_UP | CMD_TERM_INSEQ_PAGE_DOWN | CMD_TERM_INSEQ_TAB | CMD_TERM_INSEQ_MAX.

#[export] Instance cmd_term_inseq_eq_dec : EqDecision cmd_term_inseq.
Proof. solve_decision. Defined.

Inductive cmd_status := CMD_STATUS_IDLE | CMD_STATUS_ACTIVE | CMD_STATUS_INACTIVE | CMD_STATUS_MAX.

Definition CMD_SIZE_MAX : Z := 8.
Definition CMD_OPTION_MAX : nat := 3.
Definition CMD_OPTION_SIZE_MAX : Z := 3.
Definition CMD_OPTION_SEPERATOR_COMMA : list Z := [44].
Definition CMD_OPTION_SEPERATOR_SPACE : list Z := [32].
Definition CMD_OPTION_ASSIGN_OPERATOR : list Z := [61].

(** ** Options *)

(** The value of an option: an offset into the block of the line, a pointer into a block
    the line was in earlier, or a block of its own. *)
Inductive value := Arg (off : Z) | Stale | Held (block : list Z).

Record CommandOption := mkOption { opt_name : list Z; optionval : option value; optionvalsize : Z; holdingoptn : bool }.

Definition no_option : CommandOption := mkOption (replicate 3 0) None 0 false.

Definition set_value (val : option value) (size : Z) (o : CommandOption) : CommandOption := mkOption (opt_name o) val size (holdingoptn o).

(** [CommandOption::Clear]; only a block of its own may be freed. *)
Definition option_Clear (deep : bool) (o : CommandOption) : option CommandOption :=
  let cleared := mkOption (if deep then replicate 3 0 else opt_name o) None 0 false in
  match optionval o with
  | Some (Arg _) | Some Stale => if holdingoptn o && negb (optionvalsize o =? 0) then None else Some cleared
  | _ => Some cleared
  end.

(** ** The command *)

Record command := mkCommand { m_cmd : option (list Z); m_options : list CommandOption; m_optionindx : Z; m_waitingoptionindx : Z;
  m_status : cmd_status; m_result : cmd_result; m_acceptArgsOptions : bool; m_optionseparator : list Z; m_iterations : Z;
  m_runinbackground : bool }.

Definition set_options (os : list CommandOption) (c : command) : command :=
  mkCommand (m_cmd c) os (m_optionindx c) (m_waitingoptionindx c) (m_status c) (m_result c) (m_acceptArgsOptions c) (m_optionseparator c)
    (m_iterations c) (m_runinbackground c).
Definition set_optionindx (n : Z) (c : command) : command :=
  mkCommand (m_cmd c) (m_options c) n (m_waitingoptionindx c) (m_status c) (m_result c) (m_acceptArgsOptions c) (m_optionseparator c)
    (m_iterations c) (m_runinbackground c).
Definition set_waiting (i : Z) (c : command) : command :=
  mkCommand (m_cmd c) (m_options c) (m_optionindx c) i (m_status c) (m_result c) (m_acceptArgsOptions c) (m_optionseparator c)
    (m_iterations c) (m_runinbackground c).
Definition set_state (s : cmd_status) (r : cmd_result) (n : Z) (c : command) : command :=
  mkCommand (m_cmd c) (m_options c) (m_optionindx c) (m_waitingoptionindx c) s r (m_acceptArgsOptions c) (m_optionseparator c)
    n (m_runinbackground c).
Definition set_result (r : cmd_result) (c : command) : command := set_state (m_status c) r (m_iterations c) c.

(** [Clear] on a new object. *)
Definition new_command : command :=
  mkCommand None (replicate CMD_OPTION_MAX no_option) 0 (-1) CMD_STATUS_MAX CMD_RESULT_MAX false CMD_OPTION_SEPERATOR_COMMA 0 false.

Definition ClearOptions (deep : bool) (c : command) : option command :=
  os <- mapM (option_Clear deep) (m_options c);;
  let c := set_options os c in
  Some (if deep then set_waiting (-1) c else c).

Definition SetCommand (cmd : option (list Z)) (c : command) : bool * command :=
  match cmd with
  | Some s =>
      if i16 (zlen s) <? CMD_SIZE_MAX
      then (true, mkCommand (Some s) (m_options c) (m_optionindx c) (m_waitingoptionindx c) (m_status c) (m_result c) (m_acceptArgsOptions c)
                    (m_optionseparator c) (m_iterations c) (m_runinbackground c))
      else (false, c)
  | None => (false, c)
  end.

(** The names given are strings, without their terminator. *)
Definition AddOption (optn : option (list Z)) (c : command) : option (bool * command) :=
  match optn with
  | Some s =>
      if (m_optionindx c <? Z.of_nat CMD_OPTION_MAX) && (i16 (zlen s) <? CMD_OPTION_SIZE_MAX) then
        o <- m_options c !! Z.to_nat (m_optionindx c);;
        name <- mcpy (opt_name o) 0 s;;
        let o := mkOption name (optionval o) (optionvalsize o) (holdingoptn o) in
        Some (true, set_optionindx (u8 (m_optionindx c + 1)) (set_options (<[Z.to_nat (m_optionindx c) := o]> (m_options c)) c))
      else Some (false, c)
  | None => Some (false, c)
  end.

(** The first option from index [i] on that has this name and, where [given] says so, a
    value. *)
Fixpoint option_loop (given : bool) (os : list CommandOption) (i : Z) (optn : list Z) : option Z :=
  match os with
  | [] => Some (-1)
  | o :: os =>
      if negb given || (bool_decide (is_Some (optionval o)) && (optionvalsize o >? 0)) then
        eq <- StrOps.are_str_equals (Some (opt_name o)) (Some optn) CMD_OPTION_SIZE_MAX;;
        if eq : bool then Some i else option_loop given os (i + 1) optn
      else option_loop given os (i + 1) optn
  end.

Definition getOptionIndex (c : command) (optn : option (list Z)) : option Z :=
  match optn with Some n => option_loop false (m_options c) 0 n | None => Some (-1) end.

Definition RetrieveOption (c : command) (optn : option (list Z)) : option (option CommandOption) :=
  match optn with
  | Some n => i <- option_loop true (m_options c) 0 n;; Some (if i =? -1 then None else m_options c !! Z.to_nat i)
  | None => Some None
  end.

(** The name of the command begins [cmd], up to the first blank. *)
Definition isCommandMatch (cmdname : option (list Z)) (cmd : option (list Z)) (partialmatch : bool) : option bool :=
  match cmd with
  | None => Some false
  | Some c =>
      l <- strlen c;;
      let cmd_max_len := i16 (Z.min CMD_SIZE_MAX l) in
      e <- StrOps.strstr (Some c) (Some [32; 0]) 300;;
      let cmd_end_indx := if i16 e <? 0 then cmd_max_len else i16 e in
      if (0 <? cmd_end_indx) && (cmd_end_indx <=? cmd_max_len) then
        let n := Z.min CMD_SIZE_MAX (Z.abs cmd_end_indx) in
        text <- msub c 0 n;;
        argcmd <- mcpy (replicate 8 0) 0 text;;
        let name := (fun s => s ++ [0]) <$> cmdname in
        if partialmatch then StrOps.are_arrays_equal name (Some argcmd) n else StrOps.are_str_equals name (Some argcmd) n
      else Some false
  end.

Definition isValidCommand (c : command) (cmd : option (list Z)) : option bool := isCommandMatch (m_cmd c) cmd false.

Definition isWaiting (c : command) : bool := negb (m_waitingoptionindx c =? -1).

(** [isWaitingForOption] and [setWaitingForOption] of a name. *)
Definition isWaitingForOption (c : command) (optn : list Z) : option bool :=
  i <- getOptionIndex c (Some (optn ++ [0]));; Some (m_waitingoptionindx c =? i).

Definition setWaitingForOption (c : command) (optn : option (list Z)) : option command :=
  i <- getOptionIndex c ((fun s => s ++ [0]) <$> optn);; Some (set_waiting i c).

Definition reservePositionalSlots (n : Z) (c : command) : command :=
  if (n <=? Z.of_nat CMD_OPTION_MAX) && (n >? m_optionindx c) then set_optionindx n c else c.

(** [size] characters of the value of an option, read from the line [args]. *)
Definition value_bytes (args : list Z) (v : value) (size : Z) : option (list Z) :=
  match v with
  | Arg off => msub args off size
  | Held b => msub b 0 size
  | Stale => None
  end.

Definition holdOption (args : list Z) (o : CommandOption) : option CommandOption :=
  match optionval o with
  | Some v =>
      if negb (holdingoptn o) && negb (optionvalsize o =? 0) then
        b <- value_bytes args v (optionvalsize o);;
        Some (mkOption (opt_name o) (Some (Held (b ++ [0; 0]))) (optionvalsize o) true)
      else Some o
  | None => Some o
  end.

(** [holdOptionValue] of an index. *)
Definition holdOptionValue (args : list Z) (optindx : Z) (c : command) : option (bool * command) :=
  if negb (optindx =? -1) && (optindx <? m_optionindx c) then
    o <- m_options c !! Z.to_nat optindx;;
    o <- holdOption args o;;
    Some (holdingoptn o, set_options (<[Z.to_nat optindx := o]> (m_options c)) c)
  else Some (false, c).

(** ** Trimming in the middle of a buffer *)

(** The trailing characters of the string at [base]. *)
Fixpoint trail_at (fuel : nat) (m : list Z) (base val n len limit : Z) : option (list Z) :=
  c <- mget m (base + len - 1);;
  if negb (c =? 0) && (len >? 0) && (n <? limit) then
    if c =? val then
      match fuel with
      | O => None
      | S fuel => m <- mset m (base + len - 1) 0;; trail_at fuel m base val (u16 (n + 1)) (u16 (len - 1)) limit
      end
    else Some m
  else Some m.

(** [__strtrim] of the string at [base]: the offset of the pointer returned, and the
    buffer. *)
Definition strtrim_at (m : list Z) (base limit : Z) : option (option Z * list Z) :=
  let s := drop (Z.to_nat base) m in
  l <- strlen s;;
  let len := u16 l in
  if len =? 0 then Some (None, m)
  else
    c <- mget s 0;;
    if negb (c =? 0) && (0 <? limit) then
      n <- StrOps.lead_loop s 32 0 len limit;;
      m <- trail_at (Z.to_nat len) m base 32 n len limit;;
      Some (Some (base + n), m)
    else Some (None, m).

(** [__strstr] from an offset on. *)
Definition strstr_at (m : list Z) (base : Z) (substr : list Z) : option Z :=
  if (0 <=? base) && (base <=? zlen m) then StrOps.strstr (Some (drop (Z.to_nat base) m)) (Some (substr ++ [0])) 300 else None.

(** ** Parsing *)

(** The value of an option set to what is at [start]. *)
Definition set_option (c : command) (args : list Z) (i start size : Z) : option (command * list Z) :=
  '(p, args) <- strtrim_at args start 300;;
  o <- m_options c !! Z.to_nat i;;
  Some (set_options (<[Z.to_nat i := set_value (Arg <$> p) size o]> (m_options c)) c, args).

(** The options [name=value] with the separator of the command between them. *)
Fixpoint named_loop (fuel : nat) (c : command) (args : list Z) (cmd_max_len optn_start_indx optn_end_indx : Z) : option (command * list Z) :=
  match fuel with
  | O => None
  | S fuel =>
      text <- msub args optn_start_indx (optn_end_indx - optn_start_indx);;
      argoptn <- mcpy (replicate 3 0) 0 text;;
      let optn_val_start_index := i16 (optn_end_indx + 1) in
      e <- strstr_at args optn_val_start_index (m_optionseparator c);;
      let optn_val_end_index := i16 (i16 e + (if i16 e =? -1 then cmd_max_len + 1 else optn_val_start_index)) in
      '(p, argoptn) <- StrOps.strtrim (Some argoptn) 300;;
      validoptnindex <- getOptionIndex c (p <- p;; b <- argoptn;; Some (drop (Z.to_nat p) b));;
      if validoptnindex =? -1 then Some (set_result CMD_RESULT_INVALID_OPTION c, args)
      else
        '(c, args) <- set_option c args validoptnindex optn_val_start_index (i16 (optn_val_end_index - optn_val_start_index));;
        let c := set_result CMD_RESULT_OK c in
        let optn_start_indx := i16 (optn_val_end_index + zlen (m_optionseparator c)) in
        e <- strstr_at args optn_start_indx CMD_OPTION_ASSIGN_OPERATOR;;
        let optn_end_indx := i16 (i16 e + (if i16 e =? -1 then 0 else optn_start_indx)) in
        if (optn_start_indx >? 0) && (optn_end_indx >? 0) && (optn_end_indx <? cmd_max_len) && (optn_start_indx <? optn_end_indx)
        then named_loop fuel c args cmd_max_len optn_start_indx optn_end_indx
        else Some (c, args)
  end.

(** The options by position. *)
Fixpoint free_loop (fuel : nat) (c : command) (args : list Z) (cmd_max_len optn_val_start_index option_indx : Z) : option (command * list Z) :=
  match fuel with
  | O => None
  | S fuel =>
      e <- strstr_at args optn_val_start_index (m_optionseparator c);;
      let optn_val_end_index := i16 (i16 e + (if i16 e =? -1 then cmd_max_len + 1 else optn_val_start_index)) in
      let optn_val_end_index := if optn_val_end_index >? cmd_max_len then cmd_max_len else optn_val_end_index in
      '(c, args) <- set_option c args option_indx optn_val_start_index (i16 (optn_val_end_index - optn_val_start_index));;
      let option_indx := u8 (option_indx + 1) in
      let optn_val_start_index := i16 (optn_val_end_index + zlen (m_optionseparator c)) in
      if (optn_val_start_index >? 0) && (optn_val_end_index >? 0) && (optn_val_start_index <? cmd_max_len) && (option_indx <? Z.of_nat CMD_OPTION_MAX)
      then free_loop fuel c args cmd_max_len optn_val_start_index option_indx
      else Some (c, args)
  end.

(** The options behind the name, which ends at [cmd_end_indx]. *)
Definition parse_options (c : command) (args : list Z) (cmd_max_len cmd_end_indx : Z) : option (command * list Z) :=
  e <- strstr_at args cmd_end_indx CMD_OPTION_ASSIGN_OPERATOR;;
  let optn_end_indx := i16 (i16 e + (if i16 e =? -1 then 0 else cmd_end_indx)) in
  if negb (optn_end_indx =? -1) && (m_optionindx c >? 0) then
    if (optn_end_indx <? cmd_max_len) && (cmd_end_indx <? optn_end_indx)
    then named_loop (S (length args)) c args cmd_max_len cmd_end_indx optn_end_indx
    else Some (set_result CMD_RESULT_ARGS_ERROR c, args)
  else
    '(c, args) <- (if m_acceptArgsOptions c then
                     let option_indx := if negb (m_waitingoptionindx c =? -1) then u8 (m_waitingoptionindx c) else 0 in
                     free_loop (S CMD_OPTION_MAX) c args cmd_max_len (i16 (cmd_end_indx + 1)) option_indx
                   else Some (c, args));;
    Some (set_result CMD_RESULT_OK c, args).

(** A whole line. *)
Definition parse_line (c : command) (args : list Z) (len : Z) : option (command * list Z) :=
  let cmd_max_len := len in
  e <- strstr_at args 0 [32];;
  let cmd_end_indx := if i16 e <? 0 then cmd_max_len else i16 e in
  let cmd_end_indx := if cmd_end_indx >? cmd_max_len then cmd_max_len else cmd_end_indx in
  if (0 <? cmd_end_indx) && (cmd_end_indx <=? cmd_max_len) then
    text <- msub args 0 (Z.abs cmd_end_indx);;
    argcmd <- mcpy (replicate 8 0) 0 text;;
    valid <- isValidCommand c (Some argcmd);;
    if valid : bool then parse_options c args cmd_max_len cmd_end_indx else Some (set_result CMD_RESULT_INVALID c, args)
  else Some (set_result CMD_RESULT_NOT_FOUND c, args).

(** The line as the value the command waits for. *)
Definition take_line (c : command) (len : Z) : option command :=
  let i := m_waitingoptionindx c in
  if negb (i =? -1) && (i <? m_optionindx c) then
    o <- m_options c !! Z.to_nat i;;
    Some (set_result CMD_RESULT_OK (set_waiting (-1) (set_options (<[Z.to_nat i := set_value (Some (Arg 0)) len o]> (m_options c)) c)))
  else Some c.

(** ** Running *)

(** Pointers into the line of an earlier call: to the [same] block the line is in now, or
    to one that was released. *)
Definition stale_option (same : bool) (o : CommandOption) : CommandOption :=
  match optionval o with
  | Some (Arg _) => if same then o else set_value (Some Stale) (optionvalsize o) o
  | _ => o
  end.

Definition stale (same : bool) (c : command) : command := set_options (map (stale_option same) (m_options c)) c.

(** [executeTermInputAction] of the base. *)
Definition executeTermInputAction (inseq : cmd_term_inseq) (c : command) : option (cmd_result * command) :=
  if bool_decide (inseq = CMD_TERM_INSEQ_CTRL_C) || bool_decide (inseq = CMD_TERM_INSEQ_CTRL_Z) then
    c <- ClearOptions false (set_state CMD_STATUS_INACTIVE (m_result c) (m_iterations c) c);;
    Some (CMD_RESULT_ABORTED, set_waiting (-1) c)
  else Some (m_result c, c).

Section run.
Context {S : Type}.

(** What the command does: on the line, the key that ended it and the state of the world. *)
Variable execute : list Z -> cmd_term_inseq -> command -> S -> option (cmd_result * command * S).

(** The action of a key on the command; [executeTermInputAction] unless overridden. *)
Variable action : cmd_term_inseq -> command -> S -> option (cmd_result * command * S).

(** Once the line was parsed: the result, the command, the line and the world. *)
Definition run_parsed (args : option (list Z)) (inseq : cmd_term_inseq) (c : command) (w : S) : option (cmd_result * command * option (list Z) * S) :=
  '(c, w) <-
    (if bool_decide (m_result c = CMD_RESULT_OK) then
       '(r, c, w) <- execute (default [] args) inseq (set_state CMD_STATUS_ACTIVE (m_result c) (m_iterations c) c) w;;
       Some (set_state (m_status c) r (u16 (m_iterations c + 1)) c, w)
     else Some (c, w));;
  '(c, w) <-
    (if negb (bool_decide (inseq = CMD_TERM_INSEQ_NONE)) && negb (bool_decide (inseq = CMD_TERM_INSEQ_MAX)) then
       '(r, c, w) <- action inseq c w;; Some (set_result r c, w)
     else Some (c, w));;
  c <- (if bool_decide (m_result c = CMD_RESULT_INCOMPLETE) then Some c
        else c <- ClearOptions false (set_state CMD_STATUS_INACTIVE (m_result c) (m_iterations c) c);; Some (set_state (m_status c) (m_result c) 0 c));;
  Some (m_result c, c, args, w).

Definition executeCommand (same : bool) (c : command) (args : option (list Z)) (len : Z) (waiting_option : bool) (inseq : cmd_term_inseq) (w : S)
  : option (cmd_result * command * option (list Z) * S) :=
  let c := set_result CMD_RESULT_MAX (stale same c) in
  '(c, args) <-
    match args with
    | None => Some (c, None)
    | Some a => if waiting_option then c <- take_line c len;; Some (c, args) else '(c, a) <- parse_line c a len;; Some (c, Some a)
    end;;
  run_parsed args inseq c w.

End run.

(** ** Positions in the line *)

Lemma i16_small x : -32768 <= x < 32768 -> i16 x = x.
Proof. unfold i16, u16. intros. rewrite Z.mod_small; lia. Qed.

Lemma drop_zlen {A} (pre rest : list A) : drop (Z.to_nat (zlen pre)) (pre ++ rest) = rest.
Proof. unfold zlen. by rewrite Nat2Z.id, drop_app_length. Qed.

Lemma strstr_at_spec pre s x c : no_nul s -> c <> 0 ->
  strstr_at (pre ++ s ++ 0 :: x) (zlen pre) [c] =
    Some (match StrOps.first_occ [c] s with Some k => if Z.of_nat k <? 300 then Z.of_nat k else -1 | None => -1 end).
Proof.
  intros Hs Hc. unfold strstr_at. rewrite drop_zlen. pose proof (zlen_nonneg pre). rewrite zlen_app. pose proof (zlen_nonneg (s ++ 0 :: x)).
  destruct (Z.leb_spec 0 (zlen pre)); [|lia]. destruct (Z.leb_spec (zlen pre) (zlen pre + zlen (s ++ 0 :: x))); [|lia]. cbn [andb].
  destruct s as [|a s]; [done|]. apply StrOps.strstr_spec; try done; [split; [done|by exists x]|]. split; [by repeat constructor|by exists []].
Qed.

Lemma strstr_at_found pre u c r x : no_nul u -> no_nul r -> c <> 0 -> without c u -> zlen u < 300 ->
  strstr_at (pre ++ (u ++ c :: r) ++ 0 :: x) (zlen pre) [c] = Some (zlen u).
Proof.
  intros Hu Hr Hc Hw Hl. rewrite strstr_at_spec by (done || (apply Forall_app; split; [done|by constructor])).
  rewrite StrOps.first_occ_here by done. unfold zlen in *. destruct (Z.ltb_spec (Z.of_nat (length u)) 300); [done|lia].
Qed.

Lemma strstr_at_absent pre s c x : no_nul s -> c <> 0 -> without c s -> strstr_at (pre ++ s ++ 0 :: x) (zlen pre) [c] = Some (-1).
Proof. intros Hs Hc Hw. rewrite strstr_at_spec by done. by rewrite StrOps.first_occ_absent. Qed.

(** A value without blanks around it is found where it is. *)
Lemma strtrim_at_plain pre s x : no_nul s -> s <> [] -> hd 0 s <> 32 -> list.last s <> Some 32 -> zlen s < 65536 ->
  strtrim_at (pre ++ s ++ 0 :: x) (zlen pre) 300 = Some (Some (zlen pre), pre ++ s ++ 0 :: x).
Proof.
  intros Hs Hne Hhd Hlast Hz. unfold strtrim_at. rewrite drop_zlen, strlen_app by done. cbn [mbind option_bind].
  destruct s as [|a s0] eqn:Es; [done|]. rewrite <- Es in *. assert (0 < zlen s) by (rewrite Es, zlen_cons; pose proof (zlen_nonneg s0); lia).
  rewrite u16_small by lia. destruct (Z.eqb_spec (zlen s) 0); [lia|]. assert (mget (s ++ 0 :: x) 0 = Some a) as -> by (rewrite Es; done).
  cbn [mbind option_bind]. assert (a <> 0) as Ha by (rewrite Es in Hs; by apply Forall_cons_1 in Hs as [? _]). destruct (Z.eqb_spec a 0); [done|]. cbn [negb andb].
  change (0 <? 300) with true. cbv iota. assert (StrOps.lead_loop (s ++ 0 :: x) 32 0 (zlen s) 300 = Some 0) as ->.
  { rewrite Es. cbn [app StrOps.lead_loop]. rewrite Es in Hhd. cbn in Hhd. destruct (Z.eqb_spec a 32); [done|]. by rewrite andb_false_r. }
  cbn [mbind option_bind]. destruct (exists_last (l := s) ltac:(by rewrite Es)) as (s1 & z & E). rewrite E in Hlast. rewrite last_snoc in Hlast.
  assert (trail_at (Z.to_nat (zlen s)) (pre ++ s ++ 0 :: x) (zlen pre) 32 0 (zlen s) 300 = Some (pre ++ s ++ 0 :: x)) as ->; [|cbn; by rewrite Z.add_0_r].
  assert (mget (pre ++ s ++ 0 :: x) (zlen pre + zlen s - 1) = Some z) as Hz'.
  { replace (pre ++ s ++ 0 :: x) with ((pre ++ s1) ++ z :: 0 :: x) by (rewrite E, <- !app_assoc; done).
    replace (zlen pre + zlen s - 1) with (zlen (pre ++ s1)) by (rewrite E, !zlen_app; change (zlen [z]) with 1; lia). apply mget_app_mid. }
  destruct (Z.to_nat (zlen s)); cbn [trail_at]; rewrite Hz'; cbn [mbind option_bind]; (destruct (Z.eqb_spec z 32); [congruence|]); by destruct (_ && _).
Qed.

(** ** Named options *)

(** The options of a command: one-letter names. *)
Definition letters (os : list CommandOption) (ns : list Z) : Prop :=
  map opt_name os = map (fun n => [n; 0; 0]) ns ++ replicate (CMD_OPTION_MAX - length ns) (replicate 3 0) /\ (length ns <= CMD_OPTION_MAX)%nat /\ no_nul ns.

Fixpoint letter_index (ns : list Z) (n : Z) (i : Z) : Z :=
  match ns with [] => -1 | x :: ns => if x =? n then i else letter_index ns n (i + 1) end.

Lemma same_letter n o x : o <> 0 -> StrOps.are_str_equals (Some [n; 0; 0]) (Some (o :: 0 :: x)) CMD_OPTION_SIZE_MAX = Some (n =? o).
Proof.
  intros Ho. destruct (Z.eq_dec n 0) as [->|Hn].
  - destruct (Z.eqb_spec 0 o); [congruence|]. unfold StrOps.are_str_equals. change (o :: 0 :: x) with ([o] ++ 0 :: x). rewrite (strlen_app [o] x) by (by repeat constructor). done.
  - rewrite (StrOps.are_str_equals_spec [n; 0; 0] [n] (o :: 0 :: x) [o]).
    + f_equal. destruct (Z.eqb_spec n o) as [->|Hne]; [by rewrite bool_decide_eq_true_2|]. rewrite bool_decide_eq_false_2; [done|]. by intros [=].
    + split; [by repeat constructor|]. by exists [0].
    + split; [by repeat constructor|]. by exists x.
    + done.
    + done.
Qed.

Lemma option_loop_letters os : forall ns k i o x, o <> 0 -> map opt_name os = map (fun n => [n; 0; 0]) ns ++ replicate k (replicate 3 0) ->
  option_loop false os i (o :: 0 :: x) = Some (letter_index ns o i).
Proof.
  induction os as [|p os IH]; intros ns k i o x Ho E; cbn [option_loop negb orb].
  - destruct ns; [|done]. done.
  - destruct ns as [|n ns]; cbn [letter_index].
    + destruct k as [|k]; [done|]. injection E as E1 E2. rewrite E1. change (replicate 3 0) with [0; 0; 0]. rewrite same_letter by done. cbn [mbind option_bind].
      destruct (Z.eqb_spec 0 o); [congruence|]. by apply (IH [] k).
    + injection E as E1 E2. rewrite E1, same_letter by done. cbn [mbind option_bind]. destruct (n =? o); [done|]. by apply (IH ns k).
Qed.

Lemma option_index_letters c ns o x : letters (m_options c) ns -> o <> 0 -> getOptionIndex c (Some (o :: 0 :: x)) = Some (letter_index ns o 0).
Proof. intros (E & _ & _) Ho. unfold getOptionIndex. by apply (option_loop_letters _ ns (CMD_OPTION_MAX - length ns)). Qed.

(** A text of assignments, [o=v] with [s] between them. *)
Fixpoint fields (s : Z) (g : list (Z * list Z)) : list Z :=
  match g with
  | [] => []
  | (o, v) :: g => o :: 61 :: v ++ match g with [] => [] | _ => s :: fields s g end
  end.

(** The options after these assignments, the first one at the offset [base]. *)
Fixpoint assign (ns : list Z) (os : list CommandOption) (base : Z) (g : list (Z * list Z)) : list CommandOption :=
  match g with
  | [] => os
  | (o, v) :: g =>
      let i := Z.to_nat (letter_index ns o 0) in
      let os := match os !! i with Some p => <[i := set_value (Some (Arg (base + 2))) (zlen v) p]> os | None => os end in
      assign ns os (base + 3 + zlen v) g
  end.

Record given_ok (s : Z) (ns : list Z) (ov : Z * list Z) : Prop := {
  go_name : ov.1 ∈ ns /\ ov.1 <> 32 /\ ov.1 <> 61 /\ ov.1 <> s;
  go_value : ov.2 <> [] /\ no_nul ov.2 /\ hd 0 ov.2 <> 32;
  go_marks : without 61 ov.2 /\ without s ov.2 }.

Lemma letter_index_in ns : forall n i, n ∈ ns -> exists k, letter_index ns n i = i + Z.of_nat k /\ ns !! k = Some n /\ forall j, (j < k)%nat -> ns !! j <> Some n.
Proof.
  induction ns as [|x ns IH]; intros n i Hn; [by apply not_elem_of_nil in Hn|]. cbn [letter_index]. destruct (Z.eqb_spec x n) as [->|Hx].
  - exists 0%nat. split; [lia|]. split; [done|lia].
  - apply elem_of_cons in Hn as [->|Hn]; [done|]. destruct (IH n (i + 1) Hn) as (k & E & Hk & Hf). exists (S k). split; [lia|]. split; [done|].
    intros [|j] Hj; [cbn; congruence|]. cbn. apply Hf. lia.
Qed.

Lemma letters_lookup os ns k n : letters os ns -> ns !! k = Some n -> exists o, os !! k = Some o /\ opt_name o = [n; 0; 0].
Proof.
  intros (E & _ & _) Hk. assert (map opt_name os !! k = Some [n; 0; 0]) as Hl.
  { rewrite E, lookup_app_l by (rewrite length_map; by eapply lookup_lt_Some). rewrite list_lookup_fmap, Hk. done. }
  rewrite list_lookup_fmap in Hl. destruct (os !! k) as [o|]; [|done]. injection Hl as <-. by exists o.
Qed.

Lemma letters_insert os ns k o p : letters os ns -> os !! k = Some o -> opt_name p = opt_name o -> letters (<[k := p]> os) ns.
Proof.
  intros (E & Hl) Hk Hp. split; [|done]. rewrite <- E. change (opt_name <$> <[k := p]> os = opt_name <$> os). rewrite list_fmap_insert, Hp, list_insert_id; [done|].
  by rewrite list_lookup_fmap, Hk.
Qed.

Lemma fields_text s ns g : s <> 0 -> no_nul ns -> Forall (given_ok s ns) g -> no_nul (fields s g).
Proof.
  intros Hs Hns Hg. induction Hg as [|[o v] g [(Ho & _) (_ & Hv & _) _] Hg IH]; [constructor|]. cbn [fields fst snd] in *.
  assert (o <> 0) as Ho0 by (apply list_elem_of_lookup in Ho as [j Hj]; by apply (Forall_lookup_1 _ _ _ _ Hns Hj)). constructor; [done|]. constructor; [done|]. apply Forall_app. split; [done|].
  destruct g; [constructor|]. by constructor.
Qed.

(** The text of one assignment, with blanks before the name, is cut out and recognised. *)
Lemma name_found c ns lead o : letters (m_options c) ns -> o <> 0 -> o <> 32 -> lead = [] \/ lead = [32] ->
  exists b p, mcpy (replicate 3 0) 0 (lead ++ [o]) = Some b /\ StrOps.strtrim (Some b) 300 = Some (Some p, Some b) /\
    getOptionIndex c (Some (drop (Z.to_nat p) b)) = Some (letter_index ns o 0).
Proof.
  intros Hl Ho H32 Hlead. pose proof (proj2 (Z.eqb_neq o 0) Ho) as E0. pose proof (proj2 (Z.eqb_neq o 32) H32) as E32. destruct Hlead as [->| ->].
  - exists [o; 0; 0], 0. split; [done|]. split; [|by apply option_index_letters]. unfold StrOps.strtrim, StrOps.strtrim_val.
    change [o; 0; 0] with ([o] ++ 0 :: [0]). rewrite strlen_app by (by repeat constructor). cbn [mbind option_bind]. change (u16 (zlen [o])) with 1.
    change (mget ([o] ++ [0; 0]) 0) with (Some o). cbn [mbind option_bind app StrOps.lead_loop]. rewrite E0, E32. change (Z.to_nat 1) with 1%nat. cbn.
    change (mget [o; 0; 0] (1 - 1)) with (Some o). cbn [mbind option_bind]. by rewrite E0, E32.
  - exists [32; o; 0], 1. split; [done|]. split; [|by apply option_index_letters]. unfold StrOps.strtrim, StrOps.strtrim_val.
    change [32; o; 0] with ([32; o] ++ 0 :: []). rewrite strlen_app by (by repeat constructor). cbn [mbind option_bind]. change (u16 (zlen [32; o])) with 2.
    change (mget ([32; o] ++ [0]) 0) with (Some 32). cbn [mbind option_bind app StrOps.lead_loop]. rewrite E0, E32. change (Z.to_nat 2) with 2%nat. cbn.
    change (mget [32; o; 0] (2 - 1)) with (Some o). cbn [mbind option_bind]. by rewrite E0, E32.
Qed.

Lemma msub_at pre t rest n : n = zlen t -> msub (pre ++ t ++ rest) (zlen pre) n = Some t.
Proof. intros ->. apply msub_app_mid. Qed.

Lemma without_app x a b : without x (a ++ b) <-> without x a /\ without x b.
Proof. apply Forall_app. Qed.

(** What lies behind the last assignment cannot start another one. *)
Lemma no_more_fields line slack y : no_nul slack -> zlen line < 300 ->
  exists e, strstr_at (line ++ 0 :: slack ++ 0 :: y) (zlen line + 1) [61] = Some e /\ -1 <= e < 300 /\
    (let e' := i16 (i16 e + (if i16 e =? -1 then 0 else zlen line + 1)) in (e' >? 0) && (e' <? zlen line) = false).
Proof.
  intros Hs Hl. pose proof (zlen_nonneg line). replace (line ++ 0 :: slack ++ 0 :: y) with ((line ++ [0]) ++ slack ++ 0 :: y) by (by rewrite <- app_assoc).
  replace (zlen line + 1) with (zlen (line ++ [0])) by (by rewrite zlen_app). eexists. split; [by apply strstr_at_spec|]. rewrite zlen_app. change (zlen [0]) with 1.
  set (k := match _ with Some _ => _ | None => _ end). assert (-1 <= k < 300) as Hk.
  { unfold k. destruct (StrOps.first_occ _ _) as [j|]; [|lia]. destruct (Z.ltb_spec (Z.of_nat j) 300); lia. }
  split; [done|]. cbn zeta. rewrite (i16_small k) by lia. destruct (Z.eqb_spec k (-1)) as [->|Hne]; [done|]. rewrite i16_small by lia.
  destruct (Z.gtb_spec (k + (zlen line + 1)) 0); [|lia]. by destruct (Z.ltb_spec (k + (zlen line + 1)) (zlen line)); [lia|].
Qed.

(** Both sides as nested to the right. *)
Ltac list_assoc := repeat (progress (rewrite <- ?app_assoc; cbn [app])).

Section named.
Variables (s : Z) (ns slack y : list Z).
Hypotheses (Hs : s <> 0 /\ s <> 61) (Hns : no_nul ns) (Hslack : no_nul slack).

(** One assignment is stored. *)
Lemma field_stored c pre lead o v tail : letters (m_options c) ns -> given_ok s ns (o, v) -> lead = [] \/ lead = [32] ->
  no_nul tail -> (tail = [] \/ hd 0 tail = s) -> list.last (v ++ tail) <> Some 32 -> zlen (pre ++ lead ++ o :: 61 :: v ++ tail) < 300 ->
  let line := pre ++ lead ++ o :: 61 :: v ++ tail in
  let args := line ++ 0 :: slack ++ 0 :: y in
  let start := zlen pre + zlen lead + 2 in
  exists b p e, msub args (zlen pre) (zlen pre + zlen lead + 1 - zlen pre) = Some (lead ++ [o]) /\
    mcpy (replicate 3 0) 0 (lead ++ [o]) = Some b /\ StrOps.strtrim (Some b) 300 = Some (Some p, Some b) /\
    getOptionIndex c (Some (drop (Z.to_nat p) b)) = Some (letter_index ns o 0) /\
    strstr_at args start [s] = Some e /\ i16 (i16 e + (if i16 e =? -1 then zlen line + 1 else start)) = start + zlen v /\
    set_option c args (letter_index ns o 0) start (zlen v) = Some (set_options (assign ns (m_options c) (zlen pre + zlen lead) [(o, v)]) c, args).
Proof.
  intros Hl [(Hin & H32 & H61 & Hos) (Hv0 & Hv & Hhd) (Hv61 & Hvs)] Hlead Htail Htl Hlast Hz line args start. cbn [fst snd] in *.
  assert (o <> 0) as Ho by (apply list_elem_of_lookup in Hin as [j Hj]; by apply (Forall_lookup_1 _ _ _ _ Hns Hj)).
  destruct (name_found c ns lead o Hl Ho H32 Hlead) as (b & p & Eb & Ep & Ei). exists b, p.
  assert (args = pre ++ (lead ++ [o]) ++ 61 :: (v ++ tail) ++ 0 :: slack ++ 0 :: y) as E1 by (unfold args, line; by list_assoc).
  assert (args = (pre ++ lead ++ [o; 61]) ++ (v ++ tail) ++ 0 :: slack ++ 0 :: y) as E2 by (unfold args, line; by list_assoc).
  assert (start = zlen (pre ++ lead ++ [o; 61])) as Est by (unfold start; rewrite !zlen_app; change (zlen [o; 61]) with 2; lia).
  assert (zlen line = start + zlen v + zlen tail) as Ezl by (unfold line, start; rewrite !zlen_app, !zlen_cons, zlen_app; lia).
  pose proof (zlen_nonneg pre). pose proof (zlen_nonneg lead). pose proof (zlen_nonneg v). pose proof (zlen_nonneg tail). fold line in Hz.
  destruct (letter_index_in ns o 0 Hin) as (k & Ek & Hk & _). destruct (letters_lookup _ ns k o Hl Hk) as (opt & Hopt & _).
  assert (set_option c args (letter_index ns o 0) start (zlen v) = Some (set_options (assign ns (m_options c) (zlen pre + zlen lead) [(o, v)]) c, args)) as Eset.
  { unfold set_option. rewrite E2, Est, strtrim_at_plain; [|by apply Forall_app|by destruct v|by destruct v|done|rewrite zlen_app; lia].
    cbn [mbind option_bind assign]. rewrite Ek, Z.add_0_l, Nat2Z.id, Hopt. cbn [mbind option_bind]. rewrite <- Est. done. }
  assert (exists e, strstr_at args start [s] = Some e /\ i16 (i16 e + (if i16 e =? -1 then zlen line + 1 else start)) = start + zlen v) as (e & Ee & Eend).
  { destruct tail as [|x tail0]; cbn in Htl.
    - exists (-1). split; [rewrite E2, Est, app_nil_r; apply strstr_at_absent; [done|apply Hs|done]|]. change (i16 (-1)) with (-1). change (-1 =? -1) with true. cbv iota.
      rewrite i16_small by lia. change (zlen []) with 0 in Ezl. lia.
    - destruct Htl as [?| ->]; [done|]. apply Forall_cons_1 in Htail as [_ Htail]. exists (zlen v). split; [rewrite E2, Est; apply strstr_at_found; [done|done|apply Hs|done|lia]|].
      rewrite (i16_small (zlen v)) by lia. destruct (Z.eqb_spec (zlen v) (-1)); [lia|]. rewrite i16_small by lia. lia. }
  exists e. split_and!; try done. rewrite E1. apply msub_at. rewrite zlen_app. change (zlen [o]) with 1. lia.
Qed.

Lemma named_loop_spec g : forall fuel c pre lead, g <> [] -> (length g <= fuel)%nat -> Forall (given_ok s ns) g -> letters (m_options c) ns -> m_optionseparator c = [s] ->
  lead = [] \/ lead = [32] -> list.last (fields s g) <> Some 32 -> zlen (pre ++ lead ++ fields s g) < 300 ->
  let line := pre ++ lead ++ fields s g in let args := line ++ 0 :: slack ++ 0 :: y in
  named_loop fuel c args (zlen line) (zlen pre) (zlen pre + zlen lead + 1) =
    Some (set_result CMD_RESULT_OK (set_options (assign ns (m_options c) (zlen pre + zlen lead) g) c), args).
Proof.
  induction g as [|[o v] g IH]; intros fuel c pre lead Hne Hf Hg Hl Hsep Hlead Hlast Hz line args; [done|]. destruct fuel as [|fuel]; [cbn in Hf; lia|].
  apply Forall_cons_1 in Hg as [Hov Hg]. set (tail := match g with [] => [] | _ => s :: fields s g end).
  assert (fields s ((o, v) :: g) = o :: 61 :: v ++ tail) as Ef by done. rewrite Ef in Hlast, Hz. unfold line in args. unfold args, line. rewrite Ef. clear args line.
  assert (no_nul tail) as Ht by (unfold tail; destruct g; [constructor|constructor; [apply Hs|apply (fields_text s ns); [apply Hs|done|done]]]).
  assert (list.last (v ++ tail) <> Some 32) as Hlast' by (destruct (go_value _ _ _ Hov) as (Hv0 & _); cbn in Hv0; by destruct v).
  destruct (field_stored c pre lead o v tail Hl Hov Hlead Ht ltac:(unfold tail; destruct g; [by left|by right]) Hlast' Hz) as (b & p & e & E1 & E2 & E3 & E4 & E5 & E6 & E7).
  set (line := pre ++ lead ++ o :: 61 :: v ++ tail) in *. set (args := line ++ 0 :: slack ++ 0 :: y) in *. set (start := zlen pre + zlen lead + 2) in *.
  assert (zlen line = start + zlen v + zlen tail) as Ezl by (unfold line, start; rewrite !zlen_app, !zlen_cons, zlen_app; lia).
  pose proof (zlen_nonneg pre). pose proof (zlen_nonneg lead). pose proof (zlen_nonneg v). pose proof (zlen_nonneg tail).
  destruct (letter_index_in ns o 0 (proj1 (go_name _ _ _ Hov))) as (k & Ek & _). cbn [fst] in Ek.
  cbn [named_loop]. rewrite E1. cbn [mbind option_bind]. rewrite E2. cbn [mbind option_bind].
  replace (zlen pre + zlen lead + 1 + 1) with start by (unfold start; lia). rewrite (i16_small start) by lia. rewrite Hsep, E5. cbn [mbind option_bind]. rewrite E3. cbn [mbind option_bind].
  rewrite E4. cbn [mbind option_bind]. destruct (Z.eqb_spec (letter_index ns o 0) (-1)); [lia|]. rewrite E6. replace (start + zlen v - start) with (zlen v) by lia.
  rewrite (i16_small (zlen v)) by lia. rewrite E7. cbn [mbind option_bind]. set (c1 := set_options (assign ns (m_options c) (zlen pre + zlen lead) [(o, v)]) c) in *.
  cbn [set_result set_state m_optionseparator c1 set_options]. rewrite Hsep. change (zlen [s]) with 1. rewrite (i16_small (start + zlen v + 1)) by lia.
  destruct g as [|ov2 g].
  - change (zlen tail) with 0 in Ezl. destruct (no_more_fields line slack y Hslack Hz) as (e2 & Ee2 & He2 & Hstop). replace (start + zlen v + 1) with (zlen line + 1) by lia.
    fold args in Ee2. unfold CMD_OPTION_ASSIGN_OPERATOR. rewrite Ee2. cbn [mbind option_bind]. cbn zeta in Hstop. rewrite <- (andb_assoc (zlen line + 1 >? 0)), Hstop, andb_false_r. done.
  - assert (line = (pre ++ lead ++ o :: 61 :: v ++ [s]) ++ fields s (ov2 :: g)) as El by (unfold line, tail; by list_assoc).
    set (pre' := pre ++ lead ++ o :: 61 :: v ++ [s]) in *. assert (zlen pre' = start + zlen v + 1) as Ep' by (unfold pre', start; rewrite !zlen_app, !zlen_cons, zlen_app; change (zlen [s]) with 1; lia).
    destruct ov2 as [o2 v2]. pose proof (Forall_cons_1 _ _ _ Hg) as [Hov2 _]. destruct (go_name _ _ _ Hov2) as (Hin2 & _ & Ho61 & _). cbn [fst] in *.
    assert (no_nul (fields s ((o2, v2) :: g))) as Hfn by (apply (fields_text s ns); [apply Hs|done|done]). set (rest := match g with [] => [] | _ => s :: fields s g end).
    assert (fields s ((o2, v2) :: g) = [o2] ++ 61 :: v2 ++ rest) as Ef2 by done.
    assert (strstr_at args (start + zlen v + 1) CMD_OPTION_ASSIGN_OPERATOR = Some 1) as ->.
    { unfold args. rewrite <- Ep', El, Ef2, <- app_assoc. rewrite Ef2 in Hfn. apply Forall_app in Hfn as [Hf1 Hf2]. apply Forall_cons_1 in Hf2 as [_ Hf2].
      apply strstr_at_found; try done; by repeat constructor. }
    cbn [mbind option_bind]. change (i16 1) with 1. change (1 =? -1) with false. cbv iota.
    assert (start + zlen v + 3 < zlen line + 1) as Hlt.
    { rewrite El, zlen_app, Ep', Ef2. cbn [app]. rewrite !zlen_cons. pose proof (zlen_nonneg (v2 ++ rest)). lia. }
    rewrite i16_small by lia. destruct (Z.gtb_spec (start + zlen v + 1) 0); [|lia]. destruct (Z.gtb_spec (1 + (start + zlen v + 1)) 0); [|lia].
    destruct (Z.ltb_spec (1 + (start + zlen v + 1)) (zlen line)); [|lia]. destruct (Z.ltb_spec (start + zlen v + 1) (1 + (start + zlen v + 1))); [|lia]. cbn [andb].
    specialize (IH fuel (set_result CMD_RESULT_OK c1) pre' [] ltac:(done) ltac:(cbn in Hf |- *; lia) Hg). cbn [app] in IH. rewrite <- El in IH. fold args in IH.
    change (zlen []) with 0 in IH. rewrite Z.add_0_r, Ep' in IH. replace (1 + (start + zlen v + 1)) with (start + zlen v + 1 + 1) by lia. rewrite IH.
    + unfold c1. cbn [assign set_result set_state set_options m_options]. by replace (zlen pre + zlen lead + 3 + zlen v) with (start + zlen v + 1) by (unfold start; lia).
    + cbn [set_result set_state m_options set_options c1 assign]. destruct (letters_lookup _ ns k o Hl) as (opt & Hopt & _).
      { destruct (letter_index_in ns o 0 (proj1 (go_name _ _ _ Hov))) as (k' & Ek' & Hk' & _). cbn [fst] in *. by replace k with k' by lia. }
      rewrite Ek, Z.add_0_l, Nat2Z.id, Hopt. by apply (letters_insert _ _ _ opt).
    + done.
    + by left.
    + revert Hlast'. unfold tail. rewrite last_app. cbn [list.last]. intros Hx. intros E. apply Hx. rewrite last_cons, E. done.
    + done.
Qed.
End named.

(** ** Command names *)

(** The text begins with the word [k]. *)
Definition first_word (k t : list Z) : Prop := without 32 k /\ (t = k \/ exists r, t = k ++ 32 :: r).

Lemma word_end k t x : no_nul t -> first_word k t -> zlen k < 300 ->
  exists e, StrOps.strstr (Some (t ++ 0 :: x)) (Some [32; 0]) 300 = Some e /\ (t = k /\ e = -1 \/ e = zlen k /\ exists r, t = k ++ 32 :: r).
Proof.
  intros Ht [Hk Hw] Hz. pose proof (strstr_at_spec [] t x 32 Ht ltac:(done)) as E. unfold strstr_at in E. cbn [app] in E. change (zlen []) with 0 in E.
  change (Z.to_nat 0) with 0%nat in E. rewrite drop_0 in E. destruct (Z.leb_spec 0 (zlen (t ++ 0 :: x))); [|pose proof (zlen_nonneg (t ++ 0 :: x)); lia]. cbn [Z.leb andb] in E.
  change (0 <=? 0) with true in E. cbn [andb] in E. destruct Hw as [->|[r ->]].
  - rewrite StrOps.first_occ_absent in E by done. exists (-1). split; [exact E|]. by left.
  - rewrite StrOps.first_occ_here in E by done. fold (zlen k) in E. destruct (Z.ltb_spec (zlen k) 300); [|lia]. exists (zlen k). split; [exact E|]. right. split; [done|by exists r].
Qed.

Lemma cut_word k x : zlen k <= 8 -> exists b, msub (k ++ x) 0 (zlen k) = Some k /\ mcpy (replicate 8 0) 0 k = Some b /\ b = k ++ replicate (8 - length k) 0.
Proof.
  intros Hk. exists (k ++ replicate (8 - length k) 0). split; [exact (msub_app_mid [] k x)|]. split; [|done].
  unfold zlen in Hk. assert (replicate 8 0 = replicate (length k) 0 ++ replicate (8 - length k) 0) as -> by (rewrite <- replicate_add; f_equal; lia).
  apply mcpy_0. unfold zlen. by rewrite length_replicate.
Qed.

(** A command is recognised by the first word of a line when that has up to seven
    characters. *)
Lemma isCommandMatch_spec n k t x : no_nul n -> zlen n < 8 -> no_nul t -> first_word k t -> 0 < zlen k < 8 ->
  isCommandMatch (Some n) (Some (t ++ 0 :: x)) false = Some (bool_decide (n = k)).
Proof.
  intros Hn Hnz Ht Hw Hk. unfold isCommandMatch. rewrite strlen_app by done. cbn [mbind option_bind].
  destruct (word_end k t x Ht Hw ltac:(lia)) as (e & -> & Hcase). cbn [mbind option_bind]. pose proof (zlen_nonneg t). unfold CMD_SIZE_MAX.
  assert (zlen k <= zlen t /\ exists r, t ++ 0 :: x = k ++ r) as [Hkt [r Er]].
  { destruct Hcase as [[-> _]|[_ [r ->]]]; [split; [lia|by eexists]|]. split; [rewrite zlen_app; pose proof (zlen_nonneg (32 :: r)); lia|]. exists (32 :: r ++ 0 :: x). by list_assoc. }
  rewrite (i16_small (Z.min 8 (zlen t))) by lia.
  assert ((if i16 e <? 0 then Z.min 8 (zlen t) else i16 e) = zlen k) as ->.
  { destruct Hcase as [[-> ->]|[-> _]]; [change (i16 (-1)) with (-1); change (-1 <? 0) with true; cbv iota; lia|]. rewrite i16_small by lia. by destruct (Z.ltb_spec (zlen k) 0); [lia|]. }
  destruct (Z.ltb_spec 0 (zlen k)); [|lia]. destruct (Z.leb_spec (zlen k) (Z.min 8 (zlen t))); [|lia]. cbn [andb]. replace (Z.min 8 (Z.abs (zlen k))) with (zlen k) by lia.
  destruct (cut_word k r ltac:(lia)) as (b & E1 & E2 & ->). rewrite Er, E1. cbn [mbind option_bind]. rewrite E2. cbn [mbind option_bind fmap option_fmap option_map].
  assert (cstring (k ++ replicate (8 - length k) 0) k) as Hc.
  { unfold zlen in Hk. destruct (8 - length k)%nat as [|j] eqn:Ej; [lia|]. split; [|by exists (replicate j 0)].
    destruct Hcase as [[-> _]|[_ [r' ->]]]; [done|]. by apply Forall_app in Ht as [? _]. }
  assert (no_nul k) as Hkn by apply Hc. destruct (Z.leb_spec (zlen n) (zlen k)) as [Hle|Hgt].
  - apply StrOps.are_str_equals_spec; [split; [done|by exists []]|done|lia|lia].
  - unfold StrOps.are_str_equals. rewrite (strlen_cstring _ n) by (split; [done|by exists []]). rewrite (strlen_cstring _ k Hc). cbn [mbind option_bind].
    rewrite u16_small by lia. destruct (Z.eqb_spec (zlen n) (zlen k)); [lia|]. cbn [negb]. rewrite bool_decide_eq_false_2; [done|]. intros ->. lia.
Qed.

(** ** Whole lines *)

(** A command with these one-letter options and this separator. *)
Record takes_options (c : command) (name : list Z) (ns : list Z) (s : Z) : Prop := {
  to_name : m_cmd c = Some name /\ 0 < zlen name < 8 /\ no_nul name /\ without 32 name;
  to_letters : letters (m_options c) ns /\ ns <> [] /\ NoDup ns /\ m_optionindx c = zlen ns;
  to_separator : m_optionseparator c = [s] /\ s <> 0 /\ s <> 61 }.

(** The name of the command stands at the beginning of the line. *)
Lemma parse_name c name rest x : m_cmd c = Some name -> 0 < zlen name < 8 -> no_nul name -> without 32 name -> no_nul rest -> zlen rest < 32000 ->
  rest = [] \/ hd 0 rest = 32 ->
  parse_line c ((name ++ rest) ++ 0 :: x) (zlen (name ++ rest)) = parse_options c ((name ++ rest) ++ 0 :: x) (zlen (name ++ rest)) (zlen name).
Proof.
  intros Hc Hz Hn Hw Hr Hrz Hhd. unfold parse_line. assert (first_word name (name ++ rest)) as Hfw.
  { split; [done|]. destruct rest as [|a rest]; [left; by rewrite app_nil_r|]. destruct Hhd as [?|Ha]; [done|]. cbn in Ha. subst a. right. by exists rest. }
  assert (no_nul (name ++ rest)) as Ht by (by apply Forall_app). destruct (word_end name (name ++ rest) x Ht Hfw ltac:(lia)) as (e & Ee & Hcase).
  assert (strstr_at ((name ++ rest) ++ 0 :: x) 0 [32] = Some e) as ->.
  { unfold strstr_at. pose proof (zlen_nonneg ((name ++ rest) ++ 0 :: x)). destruct (Z.leb_spec 0 (zlen ((name ++ rest) ++ 0 :: x))); [|lia]. exact Ee. }
  cbn [mbind option_bind]. pose proof (zlen_nonneg rest). rewrite zlen_app.
  assert ((if i16 e <? 0 then zlen name + zlen rest else i16 e) = zlen name) as ->.
  { destruct Hcase as [[E ->]|[-> _]]; [|rewrite i16_small by lia; by destruct (Z.ltb_spec (zlen name) 0); [lia|]]. change (i16 (-1) <? 0) with true. cbv iota.
    apply (f_equal zlen) in E. rewrite zlen_app in E. lia. }
  destruct (Z.gtb_spec (zlen name) (zlen name + zlen rest)); [lia|]. destruct (Z.ltb_spec 0 (zlen name)); [|lia].
  destruct (Z.leb_spec (zlen name) (zlen name + zlen rest)); [|lia]. cbn [andb]. rewrite Z.abs_eq by lia.
  destruct (cut_word name (rest ++ 0 :: x) ltac:(lia)) as (b & E1 & E2 & ->). rewrite <- app_assoc, E1. cbn [mbind option_bind]. rewrite E2. cbn [mbind option_bind].
  unfold isValidCommand. rewrite Hc. assert (exists j, (8 - length name)%nat = S j) as [j Ej] by (exists (7 - length name)%nat; unfold zlen in Hz; lia).
  rewrite Ej. cbn [replicate]. rewrite (isCommandMatch_spec name name name) by (done || lia || (split; [done|by left])). cbn [mbind option_bind]. by rewrite bool_decide_eq_true_2.
Qed.

Lemma parse_line_named c name ns s g slack y : takes_options c name ns s -> no_nul slack -> g <> [] -> Forall (given_ok s ns) g ->
  list.last (fields s g) <> Some 32 -> zlen (name ++ 32 :: fields s g) < 300 ->
  let line := name ++ 32 :: fields s g in let args := line ++ 0 :: slack ++ 0 :: y in
  parse_line c args (zlen line) = Some (set_result CMD_RESULT_OK (set_options (assign ns (m_options c) (zlen name + 1) g) c), args).
Proof.
  intros [(Hc & Hnz & Hn & Hw) (Hl & Hns0 & Hnd & Hidx) (Hsep & Hs0 & Hs61)] Hsl Hg0 Hg Hlast Hz line args.
  assert (no_nul ns) as Hns by apply Hl. pose proof (fields_text s ns g Hs0 Hns Hg) as Hft. unfold args, line. pose proof (zlen_nonneg (fields s g)).
  rewrite zlen_app, zlen_cons in Hz. rewrite parse_name; try done; [|by constructor|rewrite zlen_cons; lia|by right].
  destruct g as [|[o v] g]; [done|]. pose proof (Forall_cons_1 _ _ _ Hg) as [Hov _]. destruct (go_name _ _ _ Hov) as (Hin & H32 & H61 & _). cbn [fst] in *.
  set (r := v ++ match g with [] => [] | _ => s :: fields s g end). assert (fields s ((o, v) :: g) = o :: 61 :: r) as Ef by done.
  assert (o <> 0) as Ho by (apply list_elem_of_lookup in Hin as [j Hj]; by apply (Forall_lookup_1 _ _ _ _ Hns Hj)).
  unfold parse_options. assert (strstr_at ((name ++ 32 :: fields s ((o, v) :: g)) ++ 0 :: slack ++ 0 :: y) (zlen name) CMD_OPTION_ASSIGN_OPERATOR = Some 2) as ->.
  { rewrite Ef, <- app_assoc. rewrite Ef in Hft. apply Forall_cons_1 in Hft as [_ Hft]. apply Forall_cons_1 in Hft as [_ Hft].
    change ((32 :: o :: 61 :: r) ++ 0 :: slack ++ 0 :: y) with (([32; o] ++ 61 :: r) ++ 0 :: slack ++ 0 :: y).
    apply strstr_at_found; try done; by repeat constructor. }
  cbn [mbind option_bind]. change (i16 2) with 2. change (2 =? -1) with false. cbv iota. rewrite i16_small by lia.
  assert (0 < zlen ns) by (destruct ns; [done|rewrite zlen_cons; pose proof (zlen_nonneg ns); lia]). rewrite Hidx. destruct (Z.eqb_spec (2 + zlen name) (-1)); [lia|].
  destruct (Z.gtb_spec (zlen ns) 0); [|lia]. cbn [negb andb]. assert (2 <= zlen (fields s ((o, v) :: g))) by (rewrite Ef, !zlen_cons; pose proof (zlen_nonneg r); lia).
  rewrite zlen_app, zlen_cons. destruct (Z.ltb_spec (2 + zlen name) (zlen name + (1 + zlen (fields s ((o, v) :: g))))); [|lia].
  destruct (Z.ltb_spec (zlen name) (2 + zlen name)); [|lia]. cbn [andb].
  pose proof (named_loop_spec s ns slack y (conj Hs0 Hs61) Hns Hsl ((o, v) :: g) (S (length ((name ++ 32 :: fields s ((o, v) :: g)) ++ 0 :: slack ++ 0 :: y))) c name [32]
    Hg0) as HL. cbn [app] in HL. rewrite zlen_app, zlen_cons in HL. change (zlen [32]) with 1 in HL. replace (zlen name + 1 + 1) with (2 + zlen name) in HL by lia.
  apply HL; try done; [|by right]. assert (forall g', (length g' <= length (fields s g'))%nat) as Hlen.
  { clear. intros g'. induction g' as [|[a b] [|p g'] IH]; cbn in *; [lia|lia|]. rewrite length_app. cbn. lia. }
  specialize (Hlen ((o, v) :: g)). rewrite !length_app. cbn [length] in *. lia.
Qed.

(** ** Reading the options back *)

Lemma assign_keeps ns g : forall os base k, (forall o v, (o, v) ∈ g -> Z.to_nat (letter_index ns o 0) <> k) -> assign ns os base g !! k = os !! k.
Proof.
  induction g as [|[o v] g IH]; intros os base k Hk; [done|]. cbn [assign]. rewrite IH by (intros; eapply Hk, list_elem_of_further; eassumption).
  destruct (os !! Z.to_nat (letter_index ns o 0)); [|done]. rewrite list_lookup_insert_ne; [done|]. apply (Hk o v), list_elem_of_here.
Qed.

Lemma letter_index_inj ns o o' : o ∈ ns -> o' ∈ ns -> Z.to_nat (letter_index ns o 0) = Z.to_nat (letter_index ns o' 0) -> o = o'.
Proof.
  intros Ho Ho'. destruct (letter_index_in ns o 0 Ho) as (k & -> & Hk & _). destruct (letter_index_in ns o' 0 Ho') as (k' & -> & Hk' & _).
  rewrite !Z.add_0_l, !Nat2Z.id. intros ->. congruence.
Qed.

Lemma assign_letters s ns g : forall os base, letters os ns -> Forall (given_ok s ns) g -> letters (assign ns os base g) ns.
Proof.
  induction g as [|[o v] g IH]; intros os base Hl Hg; [done|]. apply Forall_cons_1 in Hg as [_ Hg]. cbn [assign]. apply IH; [|done].
  destruct (os !! _) as [p|] eqn:E; [|done]. by apply (letters_insert os ns _ p).
Qed.

Lemma assign_lookup s ns g : forall os pre rest o v, letters os ns -> Forall (given_ok s ns) g -> NoDup g.*1 -> (o, v) ∈ g ->
  exists p off, assign ns os (zlen pre) g !! Z.to_nat (letter_index ns o 0) = Some (set_value (Some (Arg off)) (zlen v) p) /\ opt_name p = [o; 0; 0] /\
    msub (pre ++ fields s g ++ rest) off (zlen v) = Some v.
Proof.
  induction g as [|[o1 v1] g IH]; intros os pre rest o v Hl Hg Hnd Hin; [by apply not_elem_of_nil in Hin|]. apply Forall_cons_1 in Hg as [Hov Hg].
  cbn [fmap list_fmap fst] in Hnd. inversion Hnd as [|? ? Hni Hnd2]; subst. clear Hnd. rename Hnd2 into Hnd. destruct (go_name _ _ _ Hov) as (Hin1 & _). cbn [fst] in Hin1.
  destruct (letter_index_in ns o1 0 Hin1) as (k & Ek & Hk & _). destruct (letters_lookup os ns k o1 Hl Hk) as (p & Hp & Hpn).
  assert (Z.to_nat (letter_index ns o1 0) = k) as Ek' by (rewrite Ek; lia). cbn [assign]. rewrite Ek', Hp. apply elem_of_cons in Hin as [E|Hin].
  - injection E as -> ->. rewrite assign_keeps.
    + rewrite Ek', list_lookup_insert_eq by (by eapply lookup_lt_Some). exists p, (zlen pre + 2). split; [done|]. split; [done|]. cbn [fields].
      set (t := match g with [] => [] | _ => s :: fields s g end). replace (pre ++ (o1 :: 61 :: v1 ++ t) ++ rest) with ((pre ++ [o1; 61]) ++ v1 ++ (t ++ rest)) by (by list_assoc).
      replace (zlen pre + 2) with (zlen (pre ++ [o1; 61])) by (by rewrite zlen_app). apply msub_app_mid.
    + intros o' v' Hin' E. assert (o' ∈ ns) as Ho'.
      { apply list_elem_of_lookup in Hin' as [j Hj]. by destruct (go_name _ _ _ (Forall_lookup_1 _ _ _ _ Hg Hj)). }
      assert (o' = o1) as -> by (by apply (letter_index_inj ns)). apply Hni, list_elem_of_fmap. by exists (o1, v').
  - destruct g as [|ov g]; [by apply not_elem_of_nil in Hin|].
    destruct (IH (<[k := set_value (Some (Arg (zlen pre + 2))) (zlen v1) p]> os) (pre ++ o1 :: 61 :: v1 ++ [s]) rest o v) as (q & off & E & Eq & Em); try done;
      [by apply (letters_insert os ns k p)|]. exists q, off. rewrite !zlen_app, !zlen_cons, zlen_app in E. change (zlen [s]) with 1 in E.
    replace (zlen pre + 3 + zlen v1) with (zlen pre + (1 + (1 + (zlen v1 + 1)))) by lia. split; [done|]. split; [done|].
    change (fields s ((o1, v1) :: ov :: g)) with (o1 :: 61 :: v1 ++ s :: fields s (ov :: g)).
    replace (pre ++ (o1 :: 61 :: v1 ++ s :: fields s (ov :: g)) ++ rest) with ((pre ++ o1 :: 61 :: v1 ++ [s]) ++ fields s (ov :: g) ++ rest); [done|].
    generalize (fields s (ov :: g)). intros t. by list_assoc.
Qed.

Lemma retrieve_loop os : forall ns k i o p x, o <> 0 -> (exists m, map opt_name os = map (fun n => [n; 0; 0]) ns ++ replicate m (replicate 3 0)) ->
  os !! k = Some p -> ns !! k = Some o -> (forall j, (j < k)%nat -> ns !! j <> Some o) -> is_Some (optionval p) -> 0 < optionvalsize p ->
  option_loop true os i (o :: 0 :: x) = Some (i + Z.of_nat k).
Proof.
  induction os as [|q os IH]; intros ns k i o p x Ho [m E] Hk Hn Hf Hv Hz; [done|].
  destruct ns as [|n ns]; [done|]. injection E as E1 E2. cbn [option_loop negb orb]. destruct k as [|k].
  - injection Hk as ->. injection Hn as ->. rewrite bool_decide_eq_true_2 by done. destruct (Z.gtb_spec (optionvalsize p) 0); [|lia]. cbn [andb].
    rewrite E1, same_letter, Z.eqb_refl by done. cbn. f_equal. lia.
  - assert (option_loop true os (i + 1) (o :: 0 :: x) = Some (i + Z.of_nat (S k))) as IH'.
    { rewrite (IH ns k (i + 1) o p x); try done; [f_equal; lia|by exists m|]. intros j Hj. apply (Hf (S j)). lia. }
    destruct (_ && _); [|done]. rewrite E1, same_letter by done. cbn [mbind option_bind]. destruct (Z.eqb_spec n o) as [->|]; [by destruct (Hf 0%nat ltac:(lia))|done].
Qed.

Lemma options_found c name ns s g slack y : takes_options c name ns s -> no_nul slack -> g <> [] -> Forall (given_ok s ns) g -> NoDup g.*1 ->
  list.last (fields s g) <> Some 32 -> zlen (name ++ 32 :: fields s g) < 300 ->
  let line := name ++ 32 :: fields s g in let args := line ++ 0 :: slack ++ 0 :: y in
  exists os, parse_line c args (zlen line) = Some (set_result CMD_RESULT_OK (set_options os c), args) /\
    (forall o v, (o, v) ∈ g -> exists opt val, RetrieveOption (set_options os c) (Some [o; 0]) = Some (Some opt) /\ optionvalsize opt = zlen v /\
       optionval opt = Some val /\ value_bytes args val (zlen v) = Some v) /\
    (forall k, (forall o v, (o, v) ∈ g -> Z.to_nat (letter_index ns o 0) <> k) -> os !! k = m_options c !! k).
Proof.
  intros Hc Hsl Hg0 Hg Hnd Hlast Hz line args. eexists. split; [by apply parse_line_named|]. destruct (to_letters c name ns s Hc) as (Hl & _ & Hndn & _). split.
  - intros o v Hin. assert (zlen name + 1 = zlen (name ++ [32])) as -> by (by rewrite zlen_app).
    destruct (assign_lookup s ns g (m_options c) (name ++ [32]) (0 :: slack ++ 0 :: y) o v Hl Hg Hnd Hin) as (p & off & E & Ep & Em).
    assert (given_ok s ns (o, v)) as [(Hio & _) (Hv0 & _) _] by (apply list_elem_of_lookup in Hin as [j Hj]; by apply (Forall_lookup_1 _ _ _ _ Hg Hj)). cbn [fst snd] in *.
    assert (o <> 0) as Ho by (destruct Hl as (_ & _ & Hns); apply list_elem_of_lookup in Hio as [j Hj]; by apply (Forall_lookup_1 _ _ _ _ Hns Hj)).
    destruct (letter_index_in ns o 0 Hio) as (k & Ek & Hk & Hf). rewrite Ek, Z.add_0_l, Nat2Z.id in E. eexists _, _. unfold RetrieveOption. cbn [set_options m_options].
    assert (0 < zlen v) by (destruct v; [done|rewrite zlen_cons; pose proof (zlen_nonneg v); lia]).
    rewrite (retrieve_loop _ ns k 0 o _ [] Ho) by (done || (eexists; apply (assign_letters s); done)). cbn [mbind option_bind].
    rewrite Z.add_0_l. destruct (Z.eqb_spec (Z.of_nat k) (-1)); [lia|]. rewrite Nat2Z.id, E. split; [done|]. split; [done|]. split; [done|]. cbn [value_bytes].
    unfold args, line. rewrite <- app_assoc in Em |- *. exact Em.
  - intros k Hk. by apply assign_keeps.
Qed.

Lemma takes_stale same r c name ns s : takes_options c name ns s -> takes_options (set_result r (stale same c)) name ns s.
Proof.
  intros [A (Hl & B) C]. split; [exact A| |exact C]. split; [|exact B]. destruct Hl as (E & Hl). split; [|exact Hl].
  cbn [set_result set_state stale set_options m_options]. rewrite map_map, <- E. apply map_ext. intros [n [[]|] z h]; by destruct same.
Qed.

(** ** Theorems *)


(** [login], with the options [u] and [p] *)
Definition login_name : list Z := [108; 111; 103; 105; 110].

Definition demo_command : command :=
  let add n c := match AddOption (Some [n]) c with Some (_, c) => c | None => c end in
  add 112 (add 117 (SetCommand (Some login_name) new_command).2).

Lemma demo_takes_options : takes_options demo_command login_name [117; 112] 44.
Proof.
  split; [by repeat constructor|split; [split; [done|split; [by apply Nat.leb_le|by repeat constructor]]|]|done]. split; [done|]. split; [|done].
  apply (bool_decide_unpack (NoDup [117; 112])). by vm_compute.
Qed.


(** [AddOption] takes a name of two letters, but the blank before the first option is copied
    with it and leaves no room for the terminator in the three bytes: [login ab=x]. *)
Theorem two_letter_option_overruns : exists c, AddOption (Some [97; 98]) (SetCommand (Some login_name) new_command).2 = Some (true, c) /\
  parse_line c ((login_name ++ 32 :: [97; 98] ++ 61 :: [120]) ++ [0; 0]) 10 = None.
Proof. eexists. split; [reflexivity|]. vm_compute. reflexivity. Qed.

Lemma strlen_open s : no_nul s -> strlen s = None.
Proof. induction 1 as [|c s Hc _ IH]; [done|]. cbn. destruct (Z.eqb_spec c 0); [done|]. by rewrite IH. Qed.

(** C40: Two lines that anyone can type make the parser leave its arrays: a text of three
    characters or more where the name of an option is expected is copied past the three
    bytes for it, and a first word of eight characters or more without a blank behind
    leaves no terminator in the eight bytes it is copied to, and is read past their end. *)
Theorem command_line_overruns c name ns s w r k x : takes_options c name ns s -> no_nul w -> without 61 w -> 3 <= zlen w < 290 -> no_nul r -> zlen r < 31000 ->
  no_nul k -> without 32 k -> 8 <= zlen k < 32000 ->
  (let line := name ++ 32 :: w ++ 61 :: r in parse_line c (line ++ 0 :: x) (zlen line) = None) /\
  (forall n, no_nul n -> isCommandMatch (Some n) (Some (k ++ 0 :: x)) false = None).
Proof.
  intros Hc Hw Hw61 Hwz Hr Hrz Hk Hk32 Hkz. destruct Hc as [(Hc & Hnz & Hn & Hnw) (Hl & Hns0 & Hnd & Hidx) (Hsep & Hs0 & Hs61)]. split.
  - intros line. unfold line. rewrite parse_name; try done; [|constructor; [done|apply Forall_app; split; [done|by constructor]]|rewrite zlen_cons, zlen_app, zlen_cons; lia|by right].
    unfold parse_options. assert (strstr_at ((name ++ 32 :: w ++ 61 :: r) ++ 0 :: x) (zlen name) CMD_OPTION_ASSIGN_OPERATOR = Some (1 + zlen w)) as ->.
    { rewrite <- app_assoc, <- (zlen_cons 32 w). change ((32 :: w ++ 61 :: r) ++ 0 :: x) with (((32 :: w) ++ 61 :: r) ++ 0 :: x).
      apply strstr_at_found; [by constructor|done|done|by constructor|rewrite zlen_cons; lia]. }
    cbn [mbind option_bind]. rewrite (i16_small (1 + zlen w)) by lia. destruct (Z.eqb_spec (1 + zlen w) (-1)); [lia|]. rewrite i16_small by lia.
    assert (0 < zlen ns) by (destruct ns; [done|rewrite zlen_cons; pose proof (zlen_nonneg ns); lia]). rewrite Hidx. pose proof (zlen_nonneg r).
    destruct (Z.eqb_spec (1 + zlen w + zlen name) (-1)); [lia|]. destruct (Z.gtb_spec (zlen ns) 0); [|lia]. cbn [negb andb].
    rewrite zlen_app, zlen_cons, zlen_app, zlen_cons. destruct (Z.ltb_spec (1 + zlen w + zlen name) (zlen name + (1 + (zlen w + (1 + zlen r))))); [|lia].
    destruct (Z.ltb_spec (zlen name) (1 + zlen w + zlen name)); [|lia]. cbn [andb named_loop].
    destruct (msub _ _ _) as [t|] eqn:Et; [|done]. cbn [mbind option_bind]. assert (zlen t = 1 + zlen w) as Hzt.
    { unfold msub in Et. destruct (_ && _) eqn:Eb in Et; [|done]. injection Et as <-. apply andb_true_iff in Eb as [_ Eb%Z.leb_le].
      unfold zlen in *. rewrite length_take, length_drop. lia. }
    unfold mcpy. change (zlen (replicate 3 0)) with 3. destruct (Z.leb_spec (0 + zlen t) 3); [lia|]. by rewrite andb_false_r.
  - intros n Hn'. unfold isCommandMatch. rewrite strlen_app by done. cbn [mbind option_bind].
    assert (StrOps.strstr (Some (k ++ 0 :: x)) (Some [32; 0]) 300 = Some (-1)) as ->.
    { rewrite (StrOps.strstr_spec _ k _ [32]), StrOps.first_occ_absent; try done; [by split; [|exists x]|split; [by repeat constructor|by exists []]|].
      intros ->. change (zlen []) with 0 in Hkz. lia. }
    cbn [mbind option_bind]. change (i16 (-1) <? 0) with true. cbv iota. unfold CMD_SIZE_MAX. replace (Z.min 8 (zlen k)) with 8 by lia. change (i16 8) with 8. cbn [andb Z.ltb Z.leb].
    change ((0 <? 8) && (8 <=? 8)) with true. cbv iota. change (Z.min 8 (Z.abs 8)) with 8. unfold zlen in Hkz.
    assert (exists a b, k = a ++ b /\ length a = 8%nat) as (a & b & -> & Ha) by (exists (take 8 k), (drop 8 k); rewrite take_drop, length_take; split; [done|lia]).
    rewrite <- app_assoc. assert (zlen a = 8) as Hza by (unfold zlen; lia). destruct (cut_word a (b ++ 0 :: x) ltac:(lia)) as (c8 & E1 & E2 & ->). rewrite Hza in E1.
    rewrite E1. cbn [mbind option_bind]. rewrite E2. cbn [mbind option_bind fmap option_fmap option_map]. rewrite Ha, app_nil_r. unfold StrOps.are_str_equals.
    rewrite strlen_app by done. cbn [mbind option_bind]. apply Forall_app in Hk as [Hka _]. by rewrite strlen_open.
Qed.

(** [login aaa=] and [abcdefgh] *)
Lemma command_line_overruns_witness :
  parse_line demo_command ((login_name ++ 32 :: [97; 97; 97] ++ 61 :: []) ++ [0; 0]) 10 = None /\
  isCommandMatch (Some login_name) (Some ([97; 98; 99; 100; 101; 102; 103; 104] ++ [0; 0])) false = None.
Proof.
  destruct (command_line_overruns demo_command login_name [117; 112] 44 [97; 97; 97] [] [97; 98; 99; 100; 101; 102; 103; 104] [0] demo_takes_options
    ltac:(by repeat constructor) ltac:(by repeat constructor) ltac:(by vm_compute) ltac:(constructor) ltac:(by vm_compute) ltac:(by repeat constructor)
    ltac:(by repeat constructor) ltac:(by vm_compute)) as (E1 & E2).
  split; [exact E1|]. apply E2. by repeat constructor.
Defined.

End Command.
