(* ===== verification/LineEdit.v ===== *)
(** * The line editor ([src/service_provider/cmd/CommandLineServiceProvider.cpp])

    What [processTerminalInput] does with the keys of a terminal: the line of the session
    is edited in place and the terminal is sent what keeps its screen in step; and the
    control sequences of [iTerminalInterface] ([src/utility/iIOInterface.h]) it sends.

    The theorems are about the line, described by what is before and behind the cursor, and
    about the screen of a terminal that follows ECMA-48, which is defined here.  The line
    fits into one row of the screen. *)

From stdpp Require Import base option list numbers.
From Stdlib Require Import ZArith Lia.
From S2P Require Import Prelude Conversions StrOps Printf FileSys FsImpl FileStore UserStore Session Command.
Import Conversions.

Open Scope Z_scope.

Module LineEdit.
Import Session Command.

(** ** Sequences sent to a terminal *)

Definition TERMINAL_ESCAPE_SEQ : list Z := [27; 91].

Section keys.

(** What the array of [__vsnprintf] holds. *)
Variable tmp : list Z.

(** [write(int32_t)] *)
Definition write_int (val : Z) : option (list Z) :=
  '(_, buff) <- Printf.__sprintf tmp (Some (replicate 25 0)) (Some [37; 100; 0]) [Printf.VInt val];; UserStore.c_text buff.

Definition csi_erase_in_line (lineerasemode : Z) : option (list Z) := n <- write_int lineerasemode;; Some (TERMINAL_ESCAPE_SEQ ++ n ++ [75]).

Definition csi_cursor_move_left (steps : Z) : option (list Z) :=
  if steps <=? 0 then Some [] else n <- write_int steps;; Some (TERMINAL_ESCAPE_SEQ ++ n ++ [68]).

(** [putln] *)
Definition putln : list Z := [13; 10].

(** ** Keys *)

Definition set_line (buf : list Z) (cursor : Z) (e : editor) : editor :=
  mkEditor buf cursor (m_historyIdx e) (m_prevHistorySize e) (m_origTypedPrefix e) (m_prevArgSize e) (m_autoCompleteIdx e) (m_prevCmdSize e).

(** [string::erase(pos, 1)] and [string::insert(pos, 1, c)], which throw behind the end. *)
Definition str_erase (s : list Z) (pos : Z) : option (list Z) :=
  if pos <=? zlen s then Some (take (Z.to_nat pos) s ++ drop (Z.to_nat (pos + 1)) s) else None.
Definition str_insert (s : list Z) (pos c : Z) : option (list Z) :=
  if pos <=? zlen s then Some (take (Z.to_nat pos) s ++ c :: drop (Z.to_nat pos) s) else None.

(** The text from the cursor on, drawn again. *)
Definition redraw_tail (e : editor) : option (list Z) :=
  let tailSize := u16 (zlen (m_linebuf e) - m_cursor e) in
  erase <- csi_erase_in_line 0;;
  if tailSize >? 0 then
    tail <- msub (m_linebuf e ++ [0]) (m_cursor e) tailSize;;
    back <- csi_cursor_move_left tailSize;;
    Some (erase ++ tail ++ back)
  else Some erase.

Definition key_backspace (e : editor) : option (editor * list Z) :=
  if (zlen (m_linebuf e) >? 0) && (m_cursor e >? 0) then
    buf <- str_erase (m_linebuf e) (m_cursor e - 1);;
    let e := set_line buf (u16 (m_cursor e - 1)) e in
    out <- redraw_tail e;;
    Some (e, 8 :: out)
  else Some (e, []).

(** The Delete key; whether the sequence is echoed. *)
Definition key_delete (e : editor) : option (editor * list Z * bool) :=
  if (zlen (m_linebuf e) >? 0) && (m_cursor e <? zlen (m_linebuf e)) then
    buf <- str_erase (m_linebuf e) (m_cursor e);;
    let e := set_line buf (m_cursor e) e in
    out <- redraw_tail e;;
    Some (e, out, false)
  else Some (e, [], true).

Definition key_insert (dontecho : bool) (c : Z) (e : editor) : option (editor * list Z) :=
  buf <- str_insert (m_linebuf e) (m_cursor e) c;;
  let e := set_line buf (u16 (m_cursor e + 1)) e in
  if dontecho then Some (e, [])
  else
    let tailRemaining := u16 (zlen (m_linebuf e) - m_cursor e) in
    let writeSize := u16 (tailRemaining + 1) in
    text <- msub (m_linebuf e ++ [0]) (m_cursor e - 1) writeSize;;
    back <- (if tailRemaining >? 0 then csi_cursor_move_left tailRemaining else Some []);;
    Some (e, text ++ back).

(** The sequence [ESC \[ c]: the action, the editor, what is written, whether the sequence
    is echoed; [None] inside when it is not one of these. *)
Definition csi_key (c : Z) (e : editor) : option (cmd_term_inseq * editor * bool) :=
  let size := zlen (m_linebuf e) in
  if c =? 65 then Some (CMD_TERM_INSEQ_UP_ARROW, e, false)
  else if c =? 66 then Some (CMD_TERM_INSEQ_DOWN_ARROW, e, false)
  else if c =? 67 then
    Some (if m_cursor e <? size then (CMD_TERM_INSEQ_RIGHT_ARROW, set_line (m_linebuf e) (u16 (m_cursor e + 1)) e, true) else (CMD_TERM_INSEQ_RIGHT_ARROW, e, false))
  else if c =? 68 then
    Some (if m_cursor e >? 0 then (CMD_TERM_INSEQ_LEFT_ARROW, set_line (m_linebuf e) (u16 (m_cursor e - 1)) e, true) else (CMD_TERM_INSEQ_LEFT_ARROW, e, false))
  else if c =? 72 then Some (CMD_TERM_INSEQ_HOME, set_line (m_linebuf e) 0 e, true)
  else if c =? 70 then Some (CMD_TERM_INSEQ_END, set_line (m_linebuf e) (u16 size) e, true)
  else None.

(** [ESC \[ c ~] *)
Definition vt_key (c : Z) (e : editor) : option (option (cmd_term_inseq * editor * list Z * bool)) :=
  if (c =? 49) || (c =? 55) then Some (Some (CMD_TERM_INSEQ_HOME, set_line (m_linebuf e) 0 e, [], true))
  else if c =? 51 then '(e, out, echo) <- key_delete e;; Some (Some (CMD_TERM_INSEQ_DELETE, e, out, echo))
  else if (c =? 52) || (c =? 56) then Some (Some (CMD_TERM_INSEQ_END, set_line (m_linebuf e) (u16 (zlen (m_linebuf e))) e, [], true))
  else if c =? 53 then Some (Some (CMD_TERM_INSEQ_PAGE_UP, e, [], false))
  else if c =? 54 then Some (Some (CMD_TERM_INSEQ_PAGE_DOWN, e, [], false))
  else Some None.

(** Behind an [ESC]: what was typed already is looked at. *)
Definition key_escape (input : list Z) (e : editor) : option (editor * list Z * list Z * cmd_term_inseq) :=
  match input with
  | [] => Some (e, [], [], CMD_TERM_INSEQ_ESC)
  | a :: input =>
      match input with
      | b :: input' =>
          if a =? 91 then
            match csi_key b e with
            | Some (inseq, e, echo) => Some (e, if echo then [27; a; b] else [], input', inseq)
            | None =>
                match input' with
                | c :: input'' =>
                    if c =? 126 then
                      r <- vt_key b e;;
                      match r with
                      | Some (inseq, e, out, echo) => Some (e, out ++ (if echo then [27; a; b; c] else []), input'', inseq)
                      | None => Some (e, [], input'', CMD_TERM_INSEQ_ESC)
                      end
                    else Some (e, [], input'', CMD_TERM_INSEQ_ESC)
                | [] => Some (e, [], [], CMD_TERM_INSEQ_ESC)
                end
            end
          else Some (e, [], input, CMD_TERM_INSEQ_ESC)
      | [] => Some (e, [], [], CMD_TERM_INSEQ_ESC)
      end
  end.

(** [while (terminal->available())]; [input]: what the terminal has.  A key consumes at
    least one byte. *)
Fixpoint read_keys (fuel : nat) (dontecho : bool) (input : list Z) (e : editor) (inseq : cmd_term_inseq) : option (editor * list Z * list Z * cmd_term_inseq) :=
  match input with
  | [] => Some (e, [], [], inseq)
  | c :: input =>
      if (c =? 10) || (c =? 13) then Some (e, [c], input, CMD_TERM_INSEQ_ENTER)
      else
        match fuel with
        | O => None
        | S fuel =>
            '(e, out, input, inseq) <-
              (if (c =? 8) || (c =? 127) then
                 '(e, out) <- key_backspace e;; Some (e, out, input, if c =? 8 then CMD_TERM_INSEQ_BACKSPACE_CHAR else CMD_TERM_INSEQ_DELETE_CHAR)
               else if c =? 9 then Some (e, [], input, CMD_TERM_INSEQ_TAB)
               else if c =? 3 then Some (e, putln, input, CMD_TERM_INSEQ_CTRL_C)
               else if c =? 26 then Some (e, putln, input, CMD_TERM_INSEQ_CTRL_Z)
               else if c =? 27 then key_escape input e
               else '(e, out) <- key_insert dontecho c e;; Some (e, out, input, inseq));;
            '(e, out', input, inseq) <- read_keys fuel dontecho input e inseq;;
            Some (e, out ++ out', input, inseq)
        end
  end.

End keys.

(** ** A terminal

    The row of the screen with the line, and the control functions of ECMA-48: backspace,
    carriage return, cursor left and right, erase in line, cursor position and cursor
    preceding line, the last two of which lead out of the row. *)

Inductive parser := Ground | Escape | Csi (params : list Z).

Record vt := mkVt { cells : list Z; col : nat; state : parser }.

Definition put_cell (c : Z) (v : vt) : vt :=
  mkVt (take (col v) (cells v ++ replicate (col v - length (cells v)) 32) ++ c :: drop (S (col v)) (cells v)) (S (col v)) Ground.

Definition param (ps : list Z) : nat := match ps with [] => 0%nat | _ => Z.to_nat (dec_value ps) end.

Definition control (f : Z) (n : nat) (v : vt) : vt :=
  if f =? 68 then mkVt (cells v) (col v - Nat.max 1 n) Ground
  else if f =? 67 then mkVt (cells v) (col v + Nat.max 1 n) Ground
  else if (f =? 72) || (f =? 70) then mkVt (cells v) 0 Ground
  else if f =? 75 then mkVt (match n with 0%nat => take (col v) (cells v) | _ => [] end) (col v) Ground
  else mkVt (cells v) (col v) Ground.

Definition vt_step (v : vt) (b : Z) : vt :=
  match state v with
  | Ground =>
      if b =? 27 then mkVt (cells v) (col v) Escape
      else if b =? 8 then mkVt (cells v) (col v - 1) Ground
      else if b =? 13 then mkVt (cells v) 0 Ground
      else if 32 <=? b then put_cell b v
      else v
  | Escape => mkVt (cells v) (col v) (if b =? 91 then Csi [] else Ground)
  | Csi ps => if (48 <=? b) && (b <=? 59) then mkVt (cells v) (col v) (Csi (ps ++ [b])) else control b (param ps) v
  end.

Definition vt_run (v : vt) (bs : list Z) : vt := fold_left vt_step bs v.

(** ** The line, before and behind the cursor *)

Inductive key := Char (c : Z) | Backspace (del : bool) | Delete | Left | Right | Home (tilde : bool) | End (tilde : bool).

Definition key_bytes (k : key) : list Z :=
  match k with
  | Char c => [c]
  | Backspace del => [if del then 127 else 8]
  | Delete => [27; 91; 51; 126]
  | Left => [27; 91; 68]
  | Right => [27; 91; 67]
  | Home tilde => if tilde then [27; 91; 49; 126] else [27; 91; 72]
  | End tilde => if tilde then [27; 91; 52; 126] else [27; 91; 70]
  end.

(** A character that is shown. *)
Definition key_ok (k : key) : Prop := match k with Char c => 32 <= c < 127 | _ => True end.

Definition apply_key (z : list Z * list Z) (k : key) : list Z * list Z :=
  let '(l, r) := z in
  match k with
  | Char c => (l ++ [c], r)
  | Backspace _ => (removelast l, r)
  | Delete => (l, tail r)
  | Left => match list.last l with Some c => (removelast l, c :: r) | None => z end
  | Right => match r with c :: r => (l ++ [c], r) | [] => z end
  | Home _ => ([], l ++ r)
  | End _ => (l ++ r, [])
  end.

Definition with_line (z : list Z * list Z) (e : editor) : editor := set_line (z.1 ++ z.2) (zlen z.1) e.

(** The screen that shows the line behind a prompt. *)
Definition shows (prompt : list Z) (z : list Z * list Z) : vt := mkVt (prompt ++ z.1 ++ z.2) (length prompt + length z.1) Ground.

(** ** What the terminal makes of the sequences *)

Lemma vt_run_app v a b : vt_run v (a ++ b) = vt_run (vt_run v a) b.
Proof. apply fold_left_app. Qed.

Lemma vt_params cs k ds : Forall (fun c => is_digit c = true) ds -> forall ps, vt_run (mkVt cs k (Csi ps)) ds = mkVt cs k (Csi (ps ++ ds)).
Proof.
  intros Hd. induction Hd as [|d ds Hd _ IH]; intros ps; [by rewrite app_nil_r|]. cbn [vt_run fold_left vt_step state].
  unfold is_digit in Hd. apply andb_true_iff in Hd as [H1%Z.leb_le H2%Z.leb_le]. destruct (Z.leb_spec 48 d), (Z.leb_spec d 59); try lia. cbn [andb cells col].
  unfold vt_run in IH. rewrite IH, <- app_assoc. done.
Qed.

Lemma vt_csi cs k n ds f : decimal (Z.of_nat n) ds -> (48 <=? f) && (f <=? 59) = false -> vt_run (mkVt cs k Ground) (TERMINAL_ESCAPE_SEQ ++ ds ++ [f]) = control f n (mkVt cs k Ground).
Proof.
  intros (Hd & Hv & _ & Hn) Hf. rewrite !vt_run_app. change (vt_run (mkVt cs k Ground) TERMINAL_ESCAPE_SEQ) with (mkVt cs k (Csi [])). rewrite vt_params by done.
  cbn [vt_run fold_left vt_step state app]. rewrite Hf. unfold param. rewrite Hv, Nat2Z.id. destruct ds; [done|]. by unfold control.
Qed.

(** Characters written at the cursor, up to the end of the row or past it. *)
Lemma vt_text s : forall cs k, Forall (fun c => 32 <= c) s -> (k <= length cs)%nat -> (length cs <= k + length s)%nat ->
  vt_run (mkVt cs k Ground) s = mkVt (take k cs ++ s) (k + length s) Ground.
Proof.
  induction s as [|c s IH]; intros cs k Hs Hk Hl; cbn [vt_run fold_left length] in *.
  - rewrite app_nil_r, take_ge by lia. f_equal. lia.
  - apply Forall_cons_1 in Hs as [Hc Hs]. cbn [vt_step state]. destruct (Z.eqb_spec c 27); [lia|]. destruct (Z.eqb_spec c 8); [lia|]. destruct (Z.eqb_spec c 13); [lia|].
    destruct (Z.leb_spec 32 c); [|lia]. unfold put_cell. cbn [cells col]. replace (k - length cs)%nat with 0%nat by lia. cbn [replicate]. rewrite app_nil_r. unfold vt_run in IH.
    assert (length (take k cs) = k) as Et by (rewrite length_take; lia).
    rewrite IH; [|done|rewrite length_app, Et; cbn; lia|rewrite length_app, Et; cbn; rewrite length_drop; lia].
    replace (S k) with (length (take k cs ++ [c])) at 1 by (rewrite length_app, Et; cbn; lia).
    change (c :: drop (S k) cs) with ([c] ++ drop (S k) cs). rewrite app_assoc, take_app_length, <- app_assoc. cbn [app]. f_equal. lia.
Qed.

(** ** What the editor sends *)

Section sent.
Variable tmp : list Z.
Hypothesis Htmp : length tmp = 32%nat.

Lemma write_int_spec n : 0 <= n < 2147483648 -> exists ds, decimal n ds /\ write_int tmp n = Some ds.
Proof.
  intros Hn. destruct (tmp_digits_u32 n ltac:(lia)) as [Hd Hz]. set (ds := tmp_digits dec_digit 10 11 n) in *. exists ds. split; [done|].
  assert (Printf.renders Printf.float_code [Printf.Conv [] 0 false Printf.Kd] [Printf.VInt n] ds) as Hr.
  { assert (Printf.padded (bool_decide (48 ∈ [])) (bool_decide (45 ∈ [])) 0 ds ++ [] = ds) as E.
    { change (bool_decide (48 ∈ [])) with false. change (bool_decide (45 ∈ [])) with false. unfold Printf.padded, Printf.fill. rewrite app_nil_r.
      by replace (Z.to_nat (0 - zlen ds)) with 0%nat by (pose proof (zlen_nonneg ds); lia). }
    rewrite <- E at 1. apply (Printf.renders_arg _ [] 0 false Printf.Kd); constructor. rewrite i32_small by lia. exists ds. rewrite Z.abs_eq by lia. destruct (Z.ltb_spec n 0); [lia|]. done. }
  unfold write_int, Printf.__sprintf. change [37; 100; 0] with (Printf.format_text [Printf.Conv [] 0 false Printf.Kd] ++ 0 :: []).
  rewrite (Printf.vsnprintf_spec tmp (replicate 25 0) 2147483647 [Printf.Conv [] 0 false Printf.Kd] [Printf.VInt n] ds [] Htmp); [|by repeat constructor|done|lia|].
  - rewrite take_ge by (unfold zlen in Hz; lia). cbn [mbind option_bind]. unfold UserStore.c_text. cbn [mbind option_bind].
    assert (cstring (ds ++ 0 :: drop (S (length ds)) (replicate 25 0)) ds) as Hc by (split; [by apply (Printf.decimal_text n)|by eexists]).
    rewrite (strlen_cstring _ _ Hc). by apply msub_cstring.
  - change (zlen (replicate 25 0)) with 25. lia.
Qed.

Lemma erase_spec : exists out, csi_erase_in_line tmp 0 = Some out /\ forall cs k, vt_run (mkVt cs k Ground) out = mkVt (take k cs) k Ground.
Proof.
  destruct (write_int_spec 0 ltac:(lia)) as (ds & Hd & E). unfold csi_erase_in_line. rewrite E. cbn [mbind option_bind]. eexists. split; [done|]. intros cs k.
  by rewrite (vt_csi cs k 0).
Qed.

Lemma left_spec n : Z.of_nat n < 65536 -> exists out, csi_cursor_move_left tmp (Z.of_nat n) = Some out /\ forall cs k, vt_run (mkVt cs k Ground) out = mkVt cs (k - n) Ground.
Proof.
  intros Hn. unfold csi_cursor_move_left. destruct (Z.leb_spec (Z.of_nat n) 0) as [Hz|Hz].
  - exists []. split; [done|]. intros cs k. cbn. f_equal. lia.
  - destruct (write_int_spec (Z.of_nat n) ltac:(lia)) as (ds & Hd & E). rewrite E. cbn [mbind option_bind]. eexists. split; [done|]. intros cs k.
    rewrite (vt_csi cs k n) by done. cbn [control Z.eqb Pos.eqb cells col]. f_equal. lia.
Qed.

(** The tail is drawn again at the cursor; what stood there is gone. *)
Lemma redraw_spec l r e : zlen l + zlen r < 65536 -> Forall (fun c => 32 <= c) r ->
  exists out, redraw_tail tmp (with_line (l, r) e) = Some out /\ (exists o1 o2, out = o1 ++ r ++ o2) /\
    forall prompt x, vt_run (mkVt (prompt ++ l ++ x) (length prompt + length l) Ground) out = shows prompt (l, r).
Proof.
  intros Hz Hr. unfold redraw_tail. cbn [with_line set_line m_linebuf m_cursor fst snd]. rewrite zlen_app. pose proof (zlen_nonneg l). pose proof (zlen_nonneg r).
  replace (zlen l + zlen r - zlen l) with (zlen r) by lia. rewrite u16_small by lia. destruct erase_spec as (er & -> & He). cbn [mbind option_bind].
  assert (forall prompt x, take (length prompt + length l) (prompt ++ l ++ x) = prompt ++ l) as Ht.
  { intros prompt x. rewrite app_assoc. rewrite <- length_app. apply take_app_length. }
  destruct (Z.gtb_spec (zlen r) 0) as [Hg|Hg].
  - rewrite <- app_assoc, msub_app_mid. cbn [mbind option_bind]. destruct (left_spec (length r)) as (bk & Eb & Hb); [unfold zlen in *; lia|]. unfold zlen at 1. rewrite Eb.
    cbn [mbind option_bind]. eexists. split; [done|]. split; [by eexists _, _|]. intros prompt x. rewrite !vt_run_app, He, Ht, vt_text; [|done|rewrite length_app; lia|rewrite length_app; lia].
    rewrite Hb, <- length_app, firstn_all. unfold shows. cbn [fst snd]. rewrite <- app_assoc. f_equal. rewrite length_app. lia.
  - assert (r = []) as -> by (destruct r; [done|rewrite zlen_cons in *; pose proof (zlen_nonneg r); lia]). eexists. split; [done|].
    split; [exists er, []; by rewrite app_nil_r|]. intros prompt x. rewrite He, Ht. unfold shows.
    cbn [fst snd]. by rewrite app_nil_r.
Qed.

Lemma erase_mid l c r : str_erase (l ++ c :: r) (zlen l) = Some (l ++ r).
Proof.
  unfold str_erase. rewrite zlen_app, zlen_cons. pose proof (zlen_nonneg r). destruct (Z.leb_spec (zlen l) (zlen l + (1 + zlen r))); [|lia].
  unfold zlen. rewrite Nat2Z.id, take_app_length. replace (Z.to_nat (Z.of_nat (length l) + 1)) with (length l + 1)%nat by lia. by rewrite <- drop_drop, drop_app_length.
Qed.

Lemma insert_mid l c r : str_insert (l ++ r) (zlen l) c = Some (l ++ c :: r).
Proof.
  unfold str_insert. rewrite zlen_app. pose proof (zlen_nonneg r). destruct (Z.leb_spec (zlen l) (zlen l + zlen r)); [|lia].
  unfold zlen. by rewrite Nat2Z.id, take_app_length, drop_app_length.
Qed.

Lemma cons_mid (l r : list Z) c : l ++ c :: r = (l ++ [c]) ++ r.
Proof. by rewrite <- app_assoc. Qed.

Lemma zlen_snoc (l : list Z) c : zlen (l ++ [c]) = zlen l + 1.
Proof. rewrite zlen_app. done. Qed.

Lemma backspace_out l x r e : zlen l + 1 + zlen r < 65536 ->
  key_backspace tmp (with_line (l ++ [x], r) e) = (out <- redraw_tail tmp (with_line (l, r) e);; Some (with_line (l, r) e, 8 :: out)).
Proof.
  intros Hz. unfold key_backspace. cbn [with_line set_line m_linebuf m_cursor fst snd]. rewrite zlen_app, zlen_snoc. pose proof (zlen_nonneg l). pose proof (zlen_nonneg r).
  destruct (Z.gtb_spec (zlen l + 1 + zlen r) 0), (Z.gtb_spec (zlen l + 1) 0); try lia. cbn [andb].
  replace (zlen l + 1 - 1) with (zlen l) by lia. rewrite <- cons_mid, erase_mid. cbn [mbind option_bind]. rewrite u16_small by lia. done.
Qed.

Lemma backspace_spec l r e : zlen l + zlen r < 65536 -> Forall (fun c => 32 <= c) r ->
  exists out, key_backspace tmp (with_line (l, r) e) = Some (with_line (removelast l, r) e, out) /\ forall prompt, vt_run (shows prompt (l, r)) out = shows prompt (removelast l, r).
Proof.
  intros Hz Hr. destruct l as [|x l _] using rev_ind; [exists []; split; [|done]; unfold key_backspace; cbn; by rewrite andb_false_r|].
  rewrite removelast_last. rewrite zlen_snoc in Hz. rewrite backspace_out by lia. destruct (redraw_spec l r e) as (out & Eo & _ & Ho); [lia|done|]. rewrite Eo. cbn [mbind option_bind].
  eexists. split; [done|]. intros prompt. change (8 :: out) with ([8] ++ out). rewrite vt_run_app. unfold shows at 1. cbn [fst snd vt_run fold_left vt_step state Z.eqb Pos.eqb cells col].
  rewrite length_app. cbn [length]. replace (length prompt + (length l + 1) - 1)%nat with (length prompt + length l)%nat by lia. rewrite <- app_assoc. apply Ho.
Qed.

Lemma delete_spec l r e : zlen l + zlen r < 65536 -> Forall (fun c => 32 <= c) r ->
  exists out echo, key_delete tmp (with_line (l, r) e) = Some (with_line (l, tail r) e, out, echo) /\
    forall prompt, vt_run (shows prompt (l, r)) (out ++ (if echo : bool then [27; 91; 51; 126] else [])) = shows prompt (l, tail r).
Proof.
  intros Hz Hr. unfold key_delete. cbn [with_line set_line m_linebuf m_cursor fst snd]. pose proof (zlen_nonneg l). rewrite zlen_app. destruct r as [|c r].
  { exists [], true. change (zlen (@nil Z)) with 0. destruct (Z.ltb_spec (zlen l) (zlen l + 0)); [lia|]. by rewrite andb_false_r. }
  rewrite zlen_cons in *. pose proof (zlen_nonneg r). destruct (Z.gtb_spec (zlen l + (1 + zlen r)) 0), (Z.ltb_spec (zlen l) (zlen l + (1 + zlen r))); try lia. cbn [andb].
  rewrite erase_mid. cbn [mbind option_bind tail]. apply Forall_cons_1 in Hr as [_ Hr]. destruct (redraw_spec l r e) as (out & Eo & _ & Ho); [lia|done|].
  change (set_line (l ++ r) (zlen l) _) with (with_line (l, r) e). rewrite Eo. cbn [mbind option_bind]. exists out, false. split; [done|]. intros prompt. rewrite app_nil_r.
  unfold shows at 1. cbn [fst snd]. apply Ho.
Qed.

Lemma insert_spec l r e c : zlen l + zlen r + 1 < 65536 -> Forall (fun c => 32 <= c) r -> 32 <= c ->
  exists out, key_insert tmp false c (with_line (l, r) e) = Some (with_line (l ++ [c], r) e, out) /\ forall prompt, vt_run (shows prompt (l, r)) out = shows prompt (l ++ [c], r).
Proof.
  intros Hz Hr Hc. unfold key_insert. cbn [with_line set_line m_linebuf m_cursor fst snd]. pose proof (zlen_nonneg l). pose proof (zlen_nonneg r). rewrite insert_mid. cbn [mbind option_bind].
  rewrite u16_small by lia. rewrite zlen_app, zlen_cons. replace (zlen l + (1 + zlen r) - (zlen l + 1)) with (zlen r) by lia. rewrite (u16_small (zlen r)), u16_small by lia.
  replace (zlen l + 1 - 1) with (zlen l) by lia. replace (zlen r + 1) with (zlen (c :: r)) by (rewrite zlen_cons; lia). rewrite <- app_assoc, msub_app_mid. cbn [mbind option_bind].
  assert ((if zlen r >? 0 then csi_cursor_move_left tmp (zlen r) else Some []) = csi_cursor_move_left tmp (zlen r)) as ->.
  { unfold csi_cursor_move_left. destruct (Z.gtb_spec (zlen r) 0), (Z.leb_spec (zlen r) 0); done || lia. }
  destruct (left_spec (length r)) as (bk & Eb & Hb); [unfold zlen in *; lia|]. unfold zlen at 1. rewrite Eb. cbn [mbind option_bind]. eexists.
  split; [unfold with_line; cbn [fst snd]; by rewrite zlen_snoc, <- cons_mid|]. intros prompt. rewrite vt_run_app. unfold shows. cbn [fst snd].
  rewrite vt_text; [|by constructor|rewrite !length_app; lia|rewrite !length_app; cbn; lia]. rewrite app_assoc, <- length_app, take_app_length, Hb. f_equal; [by rewrite <- !app_assoc|].
  rewrite !length_app. cbn. lia.
Qed.

(** The keys that do not lead out of the row. *)
Definition in_row (k : key) : bool := match k with Home _ | End _ => false | _ => true end.

Definition shown (z : list Z * list Z) : Prop := Forall (fun c => 32 <= c) z.1 /\ Forall (fun c => 32 <= c) z.2.

(** One key: the function of the loop body. *)
Definition key_result (k : key) (z : list Z * list Z) (e : editor) (input : list Z) (fuel : nat) (inseq : cmd_term_inseq) : Prop :=
  exists out inseq',
    read_keys tmp (S fuel) false (key_bytes k ++ input) (with_line z e) inseq =
      ('(e, out', input, q) <- read_keys tmp fuel false input (with_line (apply_key z k) e) inseq';; Some (e, out ++ out', input, q)) /\
    (in_row k = true -> forall prompt, vt_run (shows prompt z) out = shows prompt (apply_key z k)).

Lemma cursor_moves l r e : zlen l + zlen r < 65536 ->
  csi_key 67 (with_line (l, r) e) = Some (CMD_TERM_INSEQ_RIGHT_ARROW, with_line (apply_key (l, r) Right) e, bool_decide (r <> [])) /\
  csi_key 68 (with_line (l, r) e) = Some (CMD_TERM_INSEQ_LEFT_ARROW, with_line (apply_key (l, r) Left) e, bool_decide (l <> [])).
Proof.
  intros Hz. unfold csi_key. cbn [Z.eqb Pos.eqb with_line set_line m_linebuf m_cursor fst snd apply_key]. rewrite zlen_app. pose proof (zlen_nonneg l). pose proof (zlen_nonneg r). split.
  - destruct r as [|c r]; [change (zlen (@nil Z)) with 0; destruct (Z.ltb_spec (zlen l) (zlen l + 0)); [lia|done]|].
    rewrite zlen_cons in *. pose proof (zlen_nonneg r). destruct (Z.ltb_spec (zlen l) (zlen l + (1 + zlen r))); [|lia]. rewrite u16_small by lia. rewrite bool_decide_eq_true_2 by done.
    unfold with_line. cbn [fst snd]. by rewrite zlen_snoc, <- cons_mid.
  - destruct l as [|x l _] using rev_ind; [done|]. rewrite last_snoc, removelast_last. rewrite zlen_snoc in *. pose proof (zlen_nonneg l). destruct (Z.gtb_spec (zlen l + 1) 0); [|lia].
    rewrite u16_small by lia. rewrite bool_decide_eq_true_2 by (by destruct l). unfold with_line. cbn [fst snd]. replace (zlen l + 1 - 1) with (zlen l) by lia. by rewrite <- cons_mid.
Qed.

Lemma read_key k z e input fuel inseq : key_ok k -> shown z -> zlen z.1 + zlen z.2 + 1 < 65536 -> key_result k z e input fuel inseq.
Proof.
  destruct z as [l r]. cbn [fst snd]. intros Hk [Hl Hr] Hz. cbn [fst snd] in Hl, Hr. destruct (cursor_moves l r e ltac:(lia)) as [Eright Eleft]. unfold key_result.
  destruct k as [c|del| | | |tilde|tilde]; cbn [key_bytes app read_keys].
  - cbn in Hk. destruct (insert_spec l r e c Hz Hr ltac:(lia)) as (out & Eo & Ho). exists out, inseq.
    repeat match goal with |- context [c =? ?n] => destruct (Z.eqb_spec c n); [lia|] end. cbn [orb]. rewrite Eo. by split.
  - destruct (backspace_spec l r e ltac:(lia) Hr) as (out & Eo & Ho).
    exists out, (if del then CMD_TERM_INSEQ_DELETE_CHAR else CMD_TERM_INSEQ_BACKSPACE_CHAR). split; [|intros _; exact Ho]. destruct del; cbn [Z.eqb Pos.eqb orb]; rewrite Eo; done.
  - destruct (delete_spec l r e ltac:(lia) Hr) as (out & echo & Eo & Ho). eexists _, _. cbn [Z.eqb Pos.eqb orb key_escape]. unfold csi_key, vt_key. cbn [Z.eqb Pos.eqb orb]. rewrite Eo.
    split; [done|]. intros _. exact Ho.
  - eexists _, _. cbn [Z.eqb Pos.eqb orb key_escape]. rewrite Eleft. split; [done|]. intros _ prompt. destruct l as [|x l _] using rev_ind; [done|]. rewrite bool_decide_eq_true_2 by (by destruct l).
    cbn [apply_key]. rewrite last_snoc, removelast_last. unfold shows. cbn [fst snd]. rewrite <- cons_mid. cbn. f_equal. rewrite length_app. cbn. lia.
  - eexists _, _. cbn [Z.eqb Pos.eqb orb key_escape]. rewrite Eright. split; [done|]. intros _ prompt. destruct r as [|c r]; [done|]. rewrite bool_decide_eq_true_2 by done.
    cbn [apply_key]. unfold shows. cbn [fst snd]. rewrite cons_mid. cbn. f_equal. rewrite length_app. cbn. lia.
  - exists (key_bytes (Home tilde)), CMD_TERM_INSEQ_HOME. split; [|done]. destruct tilde; cbn [app Z.eqb Pos.eqb orb key_escape]; unfold csi_key, vt_key; cbn [Z.eqb Pos.eqb orb]; done.
  - exists (key_bytes (End tilde)), CMD_TERM_INSEQ_END. split; [|done]. assert (set_line (m_linebuf (with_line (l, r) e)) (u16 (zlen (m_linebuf (with_line (l, r) e)))) (with_line (l, r) e) = with_line (apply_key (l, r) (End tilde)) e) as Ee.
    { cbn [with_line set_line m_linebuf fst snd apply_key]. unfold with_line. cbn [fst snd]. rewrite app_nil_r, u16_small by (rewrite zlen_app; pose proof (zlen_nonneg l); pose proof (zlen_nonneg r); lia). done. }
    destruct tilde; cbn [app Z.eqb Pos.eqb orb key_escape]; unfold csi_key, vt_key; cbn [Z.eqb Pos.eqb orb]; rewrite Ee; done.
Qed.

Lemma apply_key_shown z k : key_ok k -> shown z -> shown (apply_key z k) /\ zlen (apply_key z k).1 + zlen (apply_key z k).2 <= zlen z.1 + zlen z.2 + 1.
Proof.
  destruct z as [l r]. intros Hk [Hl Hr]. cbn [fst snd] in *. unfold shown.
  destruct k as [c|del| | | |tilde|tilde]; cbn [apply_key].
  - split; [|cbn [fst snd]; rewrite zlen_snoc; lia]. split; [|done]. apply Forall_app. split; [done|]. constructor; [cbn in Hk; lia|done].
  - destruct l as [|x l _] using rev_ind; [split; [done|cbn; lia]|]. rewrite removelast_last. cbn [fst snd]. rewrite zlen_snoc. apply Forall_app in Hl as [Hl _]. split; [done|lia].
  - destruct r as [|c r]; cbn [fst snd tail]; [split; [done|lia]|]. rewrite zlen_cons. apply Forall_cons_1 in Hr as [_ Hr]. split; [done|lia].
  - destruct l as [|x l _] using rev_ind; [split; [done|cbn; lia]|]. rewrite last_snoc, removelast_last. cbn [fst snd]. rewrite zlen_snoc, zlen_cons. apply Forall_app in Hl as [Hl Hx].
    apply Forall_cons_1 in Hx as [Hx _]. split; [by split; [|constructor]|lia].
  - destruct r as [|c r]; [split; [done|cbn; lia]|]. cbn [fst snd]. rewrite zlen_snoc, zlen_cons. apply Forall_cons_1 in Hr as [Hc Hr]. split; [split; [|done]; apply Forall_app; split; [done|by constructor]|lia].
  - cbn [fst snd]. rewrite zlen_app. change (zlen (@nil Z)) with 0. split; [split; [constructor|by apply Forall_app]|lia].
  - cbn [fst snd]. rewrite zlen_app. change (zlen (@nil Z)) with 0. split; [split; [by apply Forall_app|constructor]|lia].
Qed.

(** All the keys of a line. *)
Lemma read_line_spec ks input : forall z e fuel inseq, Forall key_ok ks -> shown z -> zlen z.1 + zlen z.2 + zlen ks < 65536 -> (length ks <= fuel)%nat ->
  exists out, read_keys tmp fuel false (concat (map key_bytes ks) ++ 13 :: input) (with_line z e) inseq =
      Some (with_line (fold_left apply_key ks z) e, out ++ [13], input, CMD_TERM_INSEQ_ENTER) /\
    (forallb in_row ks = true -> forall prompt, vt_run (shows prompt z) out = shows prompt (fold_left apply_key ks z)).
Proof.
  induction ks as [|k ks IH]; intros z e fuel inseq Hk Hs Hz Hf; cbn [map concat app fold_left forallb].
  - exists []. split; [by destruct fuel|done].
  - apply Forall_cons_1 in Hk as [Hk Hks]. rewrite zlen_cons in Hz. pose proof (zlen_nonneg ks). destruct fuel as [|fuel]; [cbn in Hf; lia|]. cbn in Hf.
    destruct (read_key k z e (concat (map key_bytes ks) ++ 13 :: input) fuel inseq Hk Hs ltac:(lia)) as (out & q & E & Hv). destruct (apply_key_shown z k Hk Hs) as [Hs' Hz'].
    destruct (IH (apply_key z k) e fuel q Hks Hs' ltac:(lia) ltac:(lia)) as (outs & E' & Hv'). rewrite <- app_assoc, E, E'. cbn [mbind option_bind]. exists (out ++ outs).
    split; [by rewrite app_assoc|]. intros [H1 H2]%andb_true_iff prompt. by rewrite vt_run_app, Hv, Hv'.
Qed.

(** Masked characters are not sent. *)
Lemma masked_text s input : forall z e fuel inseq, Forall (fun c => 32 <= c < 127) s -> zlen z.1 + zlen z.2 + zlen s < 65536 ->
  read_keys tmp (length s + fuel) true (s ++ input) (with_line z e) inseq = read_keys tmp fuel true input (with_line (z.1 ++ s, z.2) e) inseq.
Proof.
  induction s as [|c s IH]; intros [l r] e fuel inseq Hs Hz; cbn [fst snd length app Nat.add] in *; [by rewrite app_nil_r|]. apply Forall_cons_1 in Hs as [Hc Hs]. cbn [read_keys].
  rewrite zlen_cons in Hz. pose proof (zlen_nonneg l). pose proof (zlen_nonneg r). pose proof (zlen_nonneg s).
  repeat match goal with |- context [c =? ?n] => destruct (Z.eqb_spec c n); [lia|] end. cbn [orb]. unfold key_insert at 1. cbn [with_line set_line m_linebuf m_cursor fst snd].
  rewrite insert_mid. cbn [mbind option_bind]. rewrite u16_small by lia.
  assert (set_line (l ++ c :: r) (zlen l + 1) (with_line (l, r) e) = with_line (l ++ [c], r) e) as -> by (unfold with_line; cbn [fst snd]; by rewrite zlen_snoc, <- cons_mid).
  rewrite (IH (l ++ [c], r)); [|done|cbn [fst snd]; rewrite zlen_snoc; lia]. cbn [fst snd]. rewrite <- app_assoc. cbn [app].
  by destruct (read_keys _ _ _ _ _ _) as [[[[? ?] ?] ?]|].
Qed.

End sent.

(** ** Theorems *)

(** C20: Editing a line: characters are inserted at the cursor, Backspace removes the
    character before it and Delete the one behind, the arrows, Home and End move it, and
    Enter ends the line, whatever the order of the keys, up to the 65535 characters the
    cursor can count.  As long as Home and End are not used, the screen of the terminal
    shows the line behind the prompt with the cursor where the editor has it. *)
Theorem line_editor_correct tmp ks z e prompt input : length tmp = 32%nat -> Forall key_ok ks -> shown z -> zlen z.1 + zlen z.2 + zlen ks < 65536 ->
  let typed := concat (map key_bytes ks) ++ 13 :: input in let z' := fold_left apply_key ks z in
  exists out, read_keys tmp (length typed) false typed (with_line z e) CMD_TERM_INSEQ_NONE = Some (with_line z' e, out ++ [13], input, CMD_TERM_INSEQ_ENTER) /\
    (forallb in_row ks = true -> vt_run (shows prompt z) out = shows prompt z').
Proof.
  intros Ht Hk Hs Hz typed z'. assert (length ks <= length typed)%nat as Hf.
  { unfold typed. rewrite length_app. cut (length ks <= length (concat (map key_bytes ks)))%nat; [lia|]. clear. induction ks as [|k ks IH]; [done|]. cbn. rewrite length_app.
    assert (1 <= length (key_bytes k))%nat by (destruct k as [| | | | |[]|[]]; cbn; lia). lia. }
  destruct (read_line_spec tmp Ht ks input z e (length typed) CMD_TERM_INSEQ_NONE Hk Hs Hz Hf) as (out & E & Hv). exists out. split; [done|]. intros Hr. by apply Hv.
Qed.

(** The sequences that terminals send for Home and End are sent back to them, and there
    they mean the upper left corner of the screen and the beginning of the preceding line:
    behind a prompt the cursor of the screen is not where the editor has it any more. *)
Theorem home_and_end_leave_the_row tmp z e prompt input k inseq fuel : length tmp = 32%nat -> shown z -> zlen z.1 + zlen z.2 + 1 < 65536 -> prompt <> [] -> k = Home false \/ k = End false ->
  exists out q, read_keys tmp (S fuel) false (key_bytes k ++ input) (with_line z e) inseq =
      ('(e, out', input, q) <- read_keys tmp fuel false input (with_line (apply_key z k) e) q;; Some (e, out ++ out', input, q)) /\
    col (vt_run (shows prompt z) out) = 0%nat /\ (0 < col (shows prompt (apply_key z k)))%nat.
Proof.
  intros Ht Hs Hz Hp Hk. destruct z as [l r]. cbn [fst snd] in Hz. pose proof (zlen_nonneg l). pose proof (zlen_nonneg r). assert (1 <= length prompt)%nat by (destruct prompt; [done|cbn; lia]).
  destruct Hk as [-> | ->]; eexists _, _; (split; [reflexivity || idtac|]).
  - split; [reflexivity|]. cbn. lia.
  - cbn [key_bytes app read_keys Z.eqb Pos.eqb orb key_escape]. unfold csi_key. cbn [Z.eqb Pos.eqb with_line set_line m_linebuf fst snd].
    rewrite u16_small by (rewrite zlen_app; lia). cbn [apply_key]. unfold with_line. cbn [fst snd]. rewrite app_nil_r. reflexivity.
  - split; [reflexivity|]. cbn. lia.
Qed.

(** While the characters of a password are not echoed, moving the cursor back and
    pressing Backspace draws the rest of the line again: the characters of the password
    behind the cursor are sent to the terminal. *)
Theorem masked_line_shown tmp s a b e : length tmp = 32%nat -> Forall (fun c => 32 <= c < 127) (s ++ [a; b]) -> zlen s + 2 < 65536 ->
  let typed := (s ++ [a; b]) ++ key_bytes Left ++ key_bytes (Backspace false) in
  exists o1 o2, read_keys tmp (length typed) true typed (with_line ([], []) e) CMD_TERM_INSEQ_NONE =
    Some (with_line (s, [b]) e, [27; 91; 68; 8] ++ o1 ++ [b] ++ o2, [], CMD_TERM_INSEQ_BACKSPACE_CHAR).
Proof.
  intros Ht Hs Hz typed. pose proof (zlen_nonneg s). unfold typed. rewrite length_app. rewrite (masked_text tmp Ht (s ++ [a; b]) _ ([], []) e) by (done || (cbn [fst snd]; rewrite zlen_app; change (zlen (@nil Z)) with 0; change (zlen [a; b]) with 2; lia)).
  cbn [fst snd app key_bytes length read_keys Z.eqb Pos.eqb orb key_escape]. replace (s ++ [a; b]) with ((s ++ [a]) ++ [b]) by (by rewrite <- app_assoc).
  destruct (cursor_moves tmp Ht ((s ++ [a]) ++ [b]) [] e) as [_ ->]; [rewrite !zlen_snoc; change (zlen (@nil Z)) with 0; lia|]. cbn [apply_key]. rewrite last_snoc, removelast_last.
  rewrite bool_decide_eq_true_2 by (by destruct s). cbn [mbind option_bind read_keys Z.eqb Pos.eqb orb]. change (zlen [b]) with 1.
  rewrite backspace_out by (change (zlen [b]) with 1; lia). apply Forall_app in Hs as [_ Hs]. apply Forall_cons_1 in Hs as [_ Hs]. apply Forall_cons_1 in Hs as [Hb _].
  destruct (redraw_spec tmp Ht s [b] e) as (out & -> & (o1 & o2 & ->) & _); [change (zlen [b]) with 1; lia|repeat constructor; lia|]. cbn [mbind option_bind].
  exists o1, o2. rewrite app_nil_r. done.
Qed.

(** [a], [c], left, [b], Delete, Enter behind [> ]: [ab] *)
Lemma line_editor_correct_witness : exists out,
  read_keys (replicate 32 7) 11 false [97; 99; 27; 91; 68; 98; 27; 91; 51; 126; 13] (with_line ([], []) no_editor) CMD_TERM_INSEQ_NONE =
    Some (with_line ([97; 98], []) no_editor, out ++ [13], [], CMD_TERM_INSEQ_ENTER) /\
  vt_run (mkVt [62; 32] 2 Ground) out = mkVt [62; 32; 97; 98] 4 Ground.
Proof.
  destruct (line_editor_correct (replicate 32 7) [Char 97; Char 99; Left; Char 98; Delete] ([], []) no_editor [62; 32] []) as (out & E & Hv).
  - reflexivity.
  - repeat constructor; cbn; lia.
  - split; constructor.
  - vm_compute. reflexivity.
  - exists out. split; [exact E|]. exact (Hv eq_refl).
Defined.

Lemma home_and_end_leave_the_row_witness : exists out q,
  read_keys (replicate 32 7) 3 false [27; 91; 72] (with_line ([97], []) no_editor) CMD_TERM_INSEQ_NONE =
    ('(e, out', input, q) <- read_keys (replicate 32 7) 2 false [] (with_line ([], [97]) no_editor) q;; Some (e, out ++ out', input, q)) /\
  col (vt_run (shows [62; 32] ([97], [])) out) = 0%nat.
Proof.
  destruct (home_and_end_leave_the_row (replicate 32 7) ([97], []) no_editor [62; 32] [] (Home false) CMD_TERM_INSEQ_NONE 2) as (out & q & E & Hc & _).
  - reflexivity.
  - split; repeat constructor; lia.
  - vm_compute. reflexivity.
  - discriminate.
  - by left.
  - exists out, q. split; [exact E|exact Hc].
Defined.

(** [pwd], left, Backspace *)
Lemma masked_line_shown_witness : exists o1 o2,
  read_keys (replicate 32 7) 7 true [112; 119; 100; 27; 91; 68; 8] (with_line ([], []) no_editor) CMD_TERM_INSEQ_NONE =
    Some (with_line ([112], [100]) no_editor, [27; 91; 68; 8] ++ o1 ++ [100] ++ o2, [], CMD_TERM_INSEQ_BACKSPACE_CHAR).
Proof. apply (masked_line_shown (replicate 32 7) [112] 119 100 no_editor); [reflexivity|repeat constructor; lia|vm_compute; reflexivity]. Defined.

End LineEdit.
