(* ===== verification/Shell.v ===== *)
(** * Shell commands ([src/service_provider/cmd/commands])

    What the commands for accounts, sessions and files do: [login], [logout], [su],
    [passwd], [useradd], [userdel], [umask], [chmod], [chown], [cd], [mkdir], [touch], [rm],
    [mv] and [cp].  They run on a world of the mount table, the sessions, the
    authentication service and the working directory, under [CommandBase::executeCommand].
    The terminal is there; what is printed on it is not modelled.

    The theorems: what a line typed at the prompt does to that world, through the parser,
    the command, the authentication service, the user store and the file systems. *)

From stdpp Require Import base option list numbers gmap.
From Stdlib Require Import ZArith Lia.
From S2P Require Import Prelude Sha256 Fips180 Conversions StrOps FileSys TmpFs LittleFs FsImpl Vfs FileStore UserStore Session Auth Command.
Import Sha256 Conversions FileStore UserStore.

Open Scope Z_scope.

Module Shell.
Import Session Auth Command.

Definition USER_STORE_MAX_USERNAME_LEN : Z := 25.

Definition CMD_OPTION_NAME_P : list Z := [112].
Definition CMD_OPTION_NAME_N : list Z := [110].
Definition CMD_OPTION_NAME_U : list Z := [117].
Definition CMD_OPTION_NAME_C : list Z := [99].

(** ** Construction *)

Definition with_option (optn : list Z) (c : command) : command := match AddOption (Some optn) c with Some (_, c) => c | None => c end.

Definition setCmdOptionSeparator (sep : list Z) (c : command) : command :=
  mkCommand (m_cmd c) (m_options c) (m_optionindx c) (m_waitingoptionindx c) (m_status c) (m_result c) (m_acceptArgsOptions c) sep (m_iterations c)
    (m_runinbackground c).
Definition setAcceptArgsOptions (accept : bool) (c : command) : command :=
  mkCommand (m_cmd c) (m_options c) (m_optionindx c) (m_waitingoptionindx c) (m_status c) (m_result c) accept (m_optionseparator c) (m_iterations c)
    (m_runinbackground c).

Definition named (name : list Z) : command := (SetCommand (Some name) new_command).2.

(** [login] *)
Definition LoginCommand : command := with_option CMD_OPTION_NAME_P (with_option CMD_OPTION_NAME_U (named [108; 111; 103; 105; 110])).
(** [logout] *)
Definition LogoutCommand : command := named [108; 111; 103; 111; 117; 116].
(** [su] *)
Definition SuCommand : command := reservePositionalSlots 2 (setCmdOptionSeparator CMD_OPTION_SEPERATOR_SPACE (setAcceptArgsOptions true (named [115; 117]))).
(** [passwd] *)
Definition PasswdCommand : command :=
  setCmdOptionSeparator CMD_OPTION_SEPERATOR_SPACE
    (with_option CMD_OPTION_NAME_C (with_option CMD_OPTION_NAME_N (with_option CMD_OPTION_NAME_P (named [112; 97; 115; 115; 119; 100])))).
(** [useradd] *)
Definition UseraddCommand : command :=
  setCmdOptionSeparator CMD_OPTION_SEPERATOR_SPACE (with_option CMD_OPTION_NAME_P (with_option CMD_OPTION_NAME_U (named [117; 115; 101; 114; 97; 100; 100]))).
(** [userdel] *)
Definition UserdelCommand : command :=
  setCmdOptionSeparator CMD_OPTION_SEPERATOR_SPACE (with_option CMD_OPTION_NAME_U (named [117; 115; 101; 114; 100; 101; 108])).

(** A command of arguments by position, with blanks or commas between them. *)
Definition positional (name sep : list Z) : command := setCmdOptionSeparator sep (setAcceptArgsOptions true (named name)).
Definition UmaskCommand : command := positional [117; 109; 97; 115; 107] CMD_OPTION_SEPERATOR_SPACE.
Definition ChmodCommand : command := positional [99; 104; 109; 111; 100] CMD_OPTION_SEPERATOR_SPACE.
Definition ChownCommand : command := positional [99; 104; 111; 119; 110] CMD_OPTION_SEPERATOR_SPACE.
Definition ChangeDirFSCommand : command := positional [99; 100] CMD_OPTION_SEPERATOR_COMMA.
Definition MkdirCommand : command := positional [109; 107; 100; 105; 114] CMD_OPTION_SEPERATOR_COMMA.
Definition TouchCommand : command := positional [116; 111; 117; 99; 104] CMD_OPTION_SEPERATOR_COMMA.
Definition RemoveFSCommand : command := positional [114; 109] CMD_OPTION_SEPERATOR_COMMA.
Definition MoveFSCommand : command := positional [109; 118] CMD_OPTION_SEPERATOR_SPACE.
Definition CopyFSCommand : command := positional [99; 112] CMD_OPTION_SEPERATOR_SPACE.

(** ** The world of the commands *)

Section commands.
Context {B : Type} `{iFileSystem B}.
Variables (R : Type) (srand : Z -> R) (rand : R -> Z * R).

(** The mount table, the sessions, the authentication service, the directories of the root
    file system, the random numbers, the clock of the file systems, the milliseconds since
    the start, what local arrays hold when a function is entered, and whether the terminal
    is that of a telnet or SSH client. *)
Record world := mkWorld { w_fs : Vfs.VfsDispatcher B; w_sessions : manager; w_auth : auth; w_dirs : FsImpl.dirs; w_rng : rng R; w_now : Z;
  w_millis : Z; w_locals : locals; w_remote : bool }.

Definition set_fs (v : Vfs.VfsDispatcher B) (w : world) : world :=
  mkWorld v (w_sessions w) (w_auth w) (w_dirs w) (w_rng w) (w_now w) (w_millis w) (w_locals w) (w_remote w).
Definition set_rng (g : rng R) (w : world) : world :=
  mkWorld (w_fs w) (w_sessions w) (w_auth w) (w_dirs w) g (w_now w) (w_millis w) (w_locals w) (w_remote w).
Definition set_sessions (m : manager) (w : world) : world :=
  mkWorld (w_fs w) m (w_auth w) (w_dirs w) (w_rng w) (w_now w) (w_millis w) (w_locals w) (w_remote w).
Definition set_auth (a : auth) (w : world) : world :=
  mkWorld (w_fs w) (w_sessions w) a (w_dirs w) (w_rng w) (w_now w) (w_millis w) (w_locals w) (w_remote w).
Definition set_root_dirs (d : FsImpl.dirs) (w : world) : world :=
  mkWorld (w_fs w) (w_sessions w) (w_auth w) d (w_rng w) (w_now w) (w_millis w) (w_locals w) (w_remote w).

(** The identity the file systems see. *)
Definition env_of (w : world) : env := session_env (w_sessions w) (w_now w).

Definition authorized (w : world) : bool := getAuthorized (w_sessions w).

(** The services on the world. *)
Definition try_login (w : world) (username password : list Z) : option (bool * world) :=
  '(ok, v, m, a) <- login (w_fs w) (w_sessions w) (w_auth w) (w_locals w) (w_now w) (w_millis w) username password;;
  Some (ok, set_auth a (set_sessions m (set_fs v w))).

Definition check_password (w : world) (username password : list Z) : option (bool * world) :=
  '(ok, v, a) <- isAuthorized (w_fs w) (w_sessions w) (w_auth w) (w_locals w) (w_now w) (Some username) (Some password);;
  Some (ok, set_auth a (set_fs v w)).

Definition find_user (w : world) (username : list Z) : option (option user_record) := findUserByName (env_of w) (w_fs w) (Some username).

(** [SessionManager::setPWD] and [changeDirectory]; [rootdir] is the [isDirectory] of the
    root file system, which is asked only when there is no session. *)
Definition session_setPWD (rootdir : path -> bool) (w : world) (p : path) : option (bool * world) :=
  isdir <- Vfs.isDirectory (w_fs w) (Some p);;
  '(r, m, d) <- setPWD (fun _ => isdir) rootdir (w_sessions w) (w_dirs w) p;;
  Some (r, set_root_dirs d (set_sessions m w)).

Definition session_changeDirectory (w : world) (p : path) : option (bool * world) :=
  q <- FsImpl.normal_path p;;
  isdir <- Vfs.isDirectory (w_fs w) (Some q);;
  '(r, m, d) <- changeDirectory (fun _ => isdir) (w_sessions w) (w_dirs w) (Some p);;
  Some (r, set_root_dirs d (set_sessions m w)).

(** ** Values of options *)

Definition has_value (o : CommandOption) : bool := bool_decide (is_Some (optionval o)) && (optionvalsize o >? 0).

Definition option_bytes (args : list Z) (o : CommandOption) (n : Z) : option (list Z) := v <- optionval o;; value_bytes args v n.

(** The memory behind the pointer of an option. *)
Definition option_mem (args : list Z) (o : CommandOption) : option (list Z) :=
  v <- optionval o;;
  match v with
  | Arg off => if (0 <=? off) && (off <=? zlen args) then Some (drop (Z.to_nat off) args) else None
  | Held b => Some b
  | Stale => None
  end.

(** An array of [limit] zero bytes into which the value was copied, cut to leave a
    terminator when [cut] says so; the string it holds. *)
Definition copy_value (cut : bool) (limit : Z) (args : list Z) (o : CommandOption) : option (list Z) :=
  let n := if cut then (if optionvalsize o <? limit - 1 then optionvalsize o else limit - 1) else optionvalsize o in
  b <- option_bytes args o n;;
  mcpy (replicate (Z.to_nat limit) 0) 0 b.

Fixpoint until_nul (s : list Z) : list Z := match s with [] => [] | c :: s => if c =? 0 then [] else c :: until_nul s end.

(** [resolveArgPath]: the string, and what its [c_str] reads as. *)
Definition resolveArgPath (args : list Z) (w : world) (o : CommandOption) : option (list Z) :=
  match optionval o with
  | Some _ =>
      if optionvalsize o <=? 0 then Some []
      else
        b <- option_bytes args o (optionvalsize o);;
        if bool_decide (head b = Some FsImpl.FILE_SEPARATOR) then Some b
        else p <- FsImpl.appendFileSeparator (getPWD (w_sessions w) (w_dirs w));; Some (p ++ b)
  | None => Some []
  end.

Definition c_str (s : list Z) : option path := Some (until_nul s).

Definition is_break (inseq : cmd_term_inseq) : bool := bool_decide (inseq = CMD_TERM_INSEQ_CTRL_C) || bool_decide (inseq = CMD_TERM_INSEQ_CTRL_Z).

(** [holdOptionValue] of a name. *)
Definition hold_named (args : list Z) (optn : list Z) (c : command) : option command :=
  i <- getOptionIndex c (Some (optn ++ [0]));; '(_, c) <- holdOptionValue args i c;; Some c.

Definition answer : Type := option (cmd_result * command * world).

Definition retrieve (c : command) (optn : list Z) : option (option CommandOption) := RetrieveOption c (Some (optn ++ [0])).

(** ** Accounts and sessions *)

Definition LoginCommand_execute (args : list Z) (inseq : cmd_term_inseq) (c : command) (w : world) : answer :=
  if authorized w then Some (CMD_RESULT_OK, c, w)
  else
    usernamecmdoptn <- retrieve c CMD_OPTION_NAME_U;;
    passwordcmdoptn <- retrieve c CMD_OPTION_NAME_P;;
    match usernamecmdoptn with
    | None => c <- setWaitingForOption c (Some CMD_OPTION_NAME_U);; Some (CMD_RESULT_INCOMPLETE, c, w)
    | Some u =>
        _username <- copy_value false LOGIN_CONFIGS_BUF_SIZE args u;;
        match passwordcmdoptn with
        | None =>
            c <- hold_named args CMD_OPTION_NAME_U c;;
            if is_break inseq then c <- setWaitingForOption c (Some CMD_OPTION_NAME_U);; Some (CMD_RESULT_ABORTED, c, w)
            else c <- setWaitingForOption c (Some CMD_OPTION_NAME_P);; Some (CMD_RESULT_INCOMPLETE, c, w)
        | Some p =>
            _password <- copy_value false LOGIN_CONFIGS_BUF_SIZE args p;;
            name <- c_text (Some _username);;
            '(ok, w) <-
              (if bool_decide (name = []) then Some (false, w)
               else
                 pw <- c_text (Some _password);;
                 if bool_decide (pw = []) then Some (false, w) else try_login w name pw);;
            if ok : bool then Some (CMD_RESULT_OK, c, w)
            else c <- setWaitingForOption c (Some CMD_OPTION_NAME_U);; Some (CMD_RESULT_WRONG_CREDENTIAL, c, w)
        end
    end.

Definition LogoutCommand_execute (rootdir : path -> bool) (args : list Z) (inseq : cmd_term_inseq) (c : command) (w : world) : answer :=
  '(m, a) <- setAuthorized (w_fs w) (w_sessions w) (w_auth w) (w_now w) (w_millis w) false;;
  '(_, w) <- session_setPWD rootdir (set_auth a (set_sessions m w)) (FsImpl.m_home (w_dirs w));;
  Some (if w_remote w then CMD_RESULT_TERMINAL_ABORTED else CMD_RESULT_OK, c, w).

Definition SuCommand_execute (rootdir : path -> bool) (args : list Z) (inseq : cmd_term_inseq) (c : command) (w : world) : answer :=
  if negb (authorized w) then Some (CMD_RESULT_NEED_AUTH, c, w)
  else if is_break inseq then Some (CMD_RESULT_ABORTED, c, w)
  else
    unameopt <- m_options c !! 0%nat;;
    passopt <- m_options c !! 1%nat;;
    if negb (has_value unameopt) then Some (CMD_RESULT_INCOMPLETE, set_waiting 0 c, w)
    else
      _username <- copy_value true LOGIN_CONFIGS_BUF_SIZE args unameopt;;
      if negb (has_value passopt) then '(_, c) <- holdOptionValue args 0 c;; Some (CMD_RESULT_INCOMPLETE, set_waiting 1 c, w)
      else
        _password <- copy_value true LOGIN_CONFIGS_BUF_SIZE args passopt;;
        name <- c_text (Some _username);;
        pw <- c_text (Some _password);;
        if bool_decide (name = []) || bool_decide (pw = []) then Some (CMD_RESULT_WRONG_CREDENTIAL, c, w)
        else
          '(ok, w) <- try_login w name pw;;
          if negb ok then Some (CMD_RESULT_WRONG_CREDENTIAL, c, w)
          else
            rec <- find_user w name;;
            match rec with
            | Some r =>
                if bool_decide (UserStore.m_home r = []) then Some (CMD_RESULT_OK, c, w)
                else '(_, w) <- session_setPWD rootdir w (UserStore.m_home r);; Some (CMD_RESULT_OK, c, w)
            | None => Some (CMD_RESULT_OK, c, w)
            end.

(** [tempdir]: where the user store makes its temporary copies. *)
Definition PasswdCommand_execute (tempdir : path) (args : list Z) (inseq : cmd_term_inseq) (c : command) (w : world) : answer :=
  if negb (authorized w) then Some (CMD_RESULT_NEED_AUTH, c, w)
  else
    username <- getUsername (w_sessions w) (w_auth w);;
    if bool_decide (username = []) then Some (CMD_RESULT_FAILED, c, w)
    else if is_break inseq then Some (CMD_RESULT_ABORTED, c, w)
    else
      pOpt <- retrieve c CMD_OPTION_NAME_P;;
      nOpt <- retrieve c CMD_OPTION_NAME_N;;
      cOpt <- retrieve c CMD_OPTION_NAME_C;;
      match pOpt with
      | None => c <- setWaitingForOption c (Some CMD_OPTION_NAME_P);; Some (CMD_RESULT_INCOMPLETE, c, w)
      | Some p =>
          curPw <- copy_value true LOGIN_CONFIGS_BUF_SIZE args p;;
          curPw <- c_text (Some curPw);;
          '(ok, w) <- check_password w username curPw;;
          if negb ok then Some (CMD_RESULT_WRONG_CREDENTIAL, c, w)
          else
            c <- hold_named args CMD_OPTION_NAME_P c;;
            match nOpt with
            | None => c <- setWaitingForOption c (Some CMD_OPTION_NAME_N);; Some (CMD_RESULT_INCOMPLETE, c, w)
            | Some n =>
                c <- hold_named args CMD_OPTION_NAME_N c;;
                match cOpt with
                | None => c <- setWaitingForOption c (Some CMD_OPTION_NAME_C);; Some (CMD_RESULT_INCOMPLETE, c, w)
                | Some cf =>
                    same <- (if negb (optionvalsize n =? optionvalsize cf) then Some false
                             else
                               a <- option_bytes args n (optionvalsize n);;
                               b <- option_bytes args cf (optionvalsize n);;
                               Some (bool_decide (a = b)));;
                    if negb same then Some (CMD_RESULT_FAILED, c, w)
                    else
                      newPw <- copy_value true LOGIN_CONFIGS_BUF_SIZE args n;;
                      newPw <- c_text (Some newPw);;
                      '(ok, v, g) <- setPassword tempdir R srand rand (env_of w) (w_fs w) (w_rng w) (w_locals w) (w_millis w) (Some username) (Some newPw);;
                      Some (if ok : bool then CMD_RESULT_OK else CMD_RESULT_FAILED, c, set_rng g (set_fs v w))
                end
            end
      end.

(** The session is that of a user with the number of root; [None]: not. *)
Definition root_name_of (w : world) : option (cmd_result + list Z) :=
  me <- getUsername (w_sessions w) (w_auth w);;
  if bool_decide (me = []) then Some (inl CMD_RESULT_NEED_AUTH)
  else
    meRec <- find_user w me;;
    Some (match meRec with Some r => if UserStore.m_uid r =? USER_STORE_ROOT_UID then inr me else inl CMD_RESULT_FAILED | None => inl CMD_RESULT_FAILED end).

(** The first number from [nextUid] on that no account has. *)
Fixpoint uid_loop (fuel : nat) (w : world) (nextUid : Z) : option Z :=
  probe <- findUserByUid (env_of w) (w_fs w) nextUid;;
  match probe with
  | None => Some nextUid
  | Some _ => match fuel with O => None | S fuel => uid_loop fuel w (u16 (nextUid + 1)) end
  end.

Definition UseraddCommand_execute (tempdir : path) (args : list Z) (inseq : cmd_term_inseq) (c : command) (w : world) : answer :=
  if negb (authorized w) then Some (CMD_RESULT_NEED_AUTH, c, w)
  else if is_break inseq then Some (CMD_RESULT_ABORTED, c, w)
  else
    me <- root_name_of w;;
    match me with
    | inl r => Some (r, c, w)
    | inr _ =>
        uOpt <- retrieve c CMD_OPTION_NAME_U;;
        pOpt <- retrieve c CMD_OPTION_NAME_P;;
        match uOpt with
        | None => c <- setWaitingForOption c (Some CMD_OPTION_NAME_U);; Some (CMD_RESULT_INCOMPLETE, c, w)
        | Some u =>
            uname <- copy_value true USER_STORE_MAX_USERNAME_LEN args u;;
            uname <- c_text (Some uname);;
            existing <- find_user w uname;;
            match existing with
            | Some _ => Some (CMD_RESULT_FAILED, c, w)
            | None =>
                c <- hold_named args CMD_OPTION_NAME_U c;;
                match pOpt with
                | None => c <- setWaitingForOption c (Some CMD_OPTION_NAME_P);; Some (CMD_RESULT_INCOMPLETE, c, w)
                | Some p =>
                    pw <- copy_value true LOGIN_CONFIGS_BUF_SIZE args p;;
                    pw <- c_text (Some pw);;
                    nextUid <- uid_loop (Z.to_nat 65536) w (USER_STORE_ROOT_UID + 1);;
                    let newRec := mkUser nextUid nextUid uname [FsImpl.FILE_SEPARATOR] USER_STORE_DEFAULT_SHELL in
                    '(ok, v, g) <- addUser tempdir R srand rand (env_of w) (w_fs w) (w_rng w) (w_locals w) (w_millis w) newRec (Some pw);;
                    Some (if ok : bool then CMD_RESULT_OK else CMD_RESULT_FAILED, c, set_rng g (set_fs v w))
                end
            end
        end
    end.

Definition UserdelCommand_execute (tempdir : path) (args : list Z) (inseq : cmd_term_inseq) (c : command) (w : world) : answer :=
  if negb (authorized w) then Some (CMD_RESULT_NEED_AUTH, c, w)
  else if is_break inseq then Some (CMD_RESULT_ABORTED, c, w)
  else
    me <- root_name_of w;;
    match me with
    | inl r => Some (r, c, w)
    | inr me =>
        uOpt <- retrieve c CMD_OPTION_NAME_U;;
        match uOpt with
        | None => c <- setWaitingForOption c (Some CMD_OPTION_NAME_U);; Some (CMD_RESULT_INCOMPLETE, c, w)
        | Some u =>
            uname <- copy_value true USER_STORE_MAX_USERNAME_LEN args u;;
            uname <- c_text (Some uname);;
            if bool_decide (uname = me) then Some (CMD_RESULT_FAILED, c, w)
            else
              target <- find_user w uname;;
              match target with
              | None => Some (CMD_RESULT_FAILED, c, w)
              | Some t =>
                  if UserStore.m_uid t =? USER_STORE_ROOT_UID then Some (CMD_RESULT_FAILED, c, w)
                  else
                    '(ok, v) <- removeUser tempdir (env_of w) (w_fs w) (Some uname);;
                    Some (if ok : bool then CMD_RESULT_OK else CMD_RESULT_FAILED, c, set_fs v w)
              end
        end
    end.

Definition UmaskCommand_execute (args : list Z) (inseq : cmd_term_inseq) (c : command) (w : world) : answer :=
  if negb (authorized w) then Some (CMD_RESULT_NEED_AUTH, c, w)
  else
    mopt <- m_options c !! 0%nat;;
    if has_value mopt then
      m <- option_mem args mopt;;
      x <- StringToOctalUint16 (Some m) (u8 (optionvalsize mopt));;
      Some (CMD_RESULT_OK, c, set_sessions (setCurrentUmask (w_sessions w) (Z.land x 511)) w)
    else Some (CMD_RESULT_OK, c, w).

(** ** Files *)

(** The answer for the status of a file operation. *)
Definition by_status (c : command) (w : world) (r : Z * Vfs.VfsDispatcher B) : answer :=
  let '(rc, v) := r in Some (if rc <? 0 then CMD_RESULT_FAILED else CMD_RESULT_OK, c, set_fs v w).

Definition ChmodCommand_execute (args : list Z) (inseq : cmd_term_inseq) (c : command) (w : world) : answer :=
  if negb (authorized w) then Some (CMD_RESULT_NEED_AUTH, c, w)
  else
    mopt <- m_options c !! 0%nat;;
    popt <- m_options c !! 1%nat;;
    if negb (has_value mopt && has_value popt) then Some (CMD_RESULT_ARGS_ERROR, c, w)
    else
      m <- option_mem args mopt;;
      x <- StringToOctalUint16 (Some m) (u8 (optionvalsize mopt));;
      p <- resolveArgPath args w popt;;
      r <- Vfs.setFilePermissions (env_of w) (w_fs w) (c_str p) (Z.land x 511);;
      by_status c w r.

(** The index of the first colon of the first [n] characters. *)
Fixpoint colon_loop (m : list Z) (n : nat) (i : Z) : option (option Z) :=
  match n with
  | O => Some None
  | S n => match m with [] => None | x :: m => if x =? 58 then Some (Some i) else colon_loop m n (i + 1) end
  end.

Definition ChownCommand_execute (args : list Z) (inseq : cmd_term_inseq) (c : command) (w : world) : answer :=
  if negb (authorized w) then Some (CMD_RESULT_NEED_AUTH, c, w)
  else
    uopt <- m_options c !! 0%nat;;
    popt <- m_options c !! 1%nat;;
    if negb (has_value uopt && has_value popt) then Some (CMD_RESULT_ARGS_ERROR, c, w)
    else
      m <- option_mem args uopt;;
      colonAt <- colon_loop m (Z.to_nat (optionvalsize uopt)) 0;;
      uid <- StringToUint16 (Some m) (u8 (default (optionvalsize uopt) colonAt));;
      gid <- match colonAt with
             | Some k => if k + 1 <? optionvalsize uopt then StringToUint16 (Some (drop (Z.to_nat (k + 1)) m)) (u8 (optionvalsize uopt - k - 1)) else Some uid
             | None => Some uid
             end;;
      p <- resolveArgPath args w popt;;
      r <- Vfs.setFileOwner (env_of w) (w_fs w) (c_str p) uid gid;;
      by_status c w r.

Definition ChangeDirFSCommand_execute (args : list Z) (inseq : cmd_term_inseq) (c : command) (w : world) : answer :=
  if negb (authorized w) then Some (CMD_RESULT_NEED_AUTH, c, w)
  else
    cmdoptn <- m_options c !! 0%nat;;
    dirname <-
      (if has_value cmdoptn then
         first <- option_bytes args cmdoptn 1;;
         if (optionvalsize cmdoptn =? 1) && bool_decide (first = [126]) then Some (FsImpl.m_home (w_dirs w))
         else if (optionvalsize cmdoptn =? 1) && bool_decide (first = [45]) then Some (getLastPWD (w_sessions w) (w_dirs w))
         else resolveArgPath args w cmdoptn
       else Some (FsImpl.m_home (w_dirs w)));;
    if has_value cmdoptn && bool_decide (dirname = []) then Some (CMD_RESULT_FAILED, c, w)
    else
      '(ok, w) <- session_changeDirectory w (until_nul dirname);;
      Some (if ok : bool then CMD_RESULT_OK else CMD_RESULT_FAILED, c, w).

(** A command of one path. *)
Definition on_path (call : path -> option (Z * Vfs.VfsDispatcher B)) (args : list Z) (c : command) (w : world) : answer :=
  cmdoptn <- m_options c !! 0%nat;;
  p <- resolveArgPath args w cmdoptn;;
  if bool_decide (p = []) then Some (CMD_RESULT_ARGS_ERROR, c, w) else r <- call (until_nul p);; by_status c w r.

Definition MkdirCommand_execute (args : list Z) (inseq : cmd_term_inseq) (c : command) (w : world) : answer :=
  if negb (authorized w) then Some (CMD_RESULT_NEED_AUTH, c, w)
  else on_path (fun p => Vfs.createDirectory (env_of w) (w_fs w) (Some p)) args c w.

Definition TouchCommand_execute (args : list Z) (inseq : cmd_term_inseq) (c : command) (w : world) : answer :=
  if negb (authorized w) then Some (CMD_RESULT_NEED_AUTH, c, w)
  else on_path (fun p => Vfs.touch (env_of w) (w_fs w) (Some p)) args c w.

Definition RemoveFSCommand_execute (args : list Z) (inseq : cmd_term_inseq) (c : command) (w : world) : answer :=
  if negb (authorized w) then Some (CMD_RESULT_NEED_AUTH, c, w)
  else
    on_path (fun p =>
      isdir <- Vfs.isDirectory (w_fs w) (Some p);;
      if isdir : bool then Vfs.deleteDirectory (env_of w) (w_fs w) (Some p) else Vfs.deleteFile (env_of w) (w_fs w) (Some p)) args c w.

Definition MoveFSCommand_execute (args : list Z) (inseq : cmd_term_inseq) (c : command) (w : world) : answer :=
  if negb (authorized w) then Some (CMD_RESULT_NEED_AUTH, c, w)
  else
    cmdoptn1 <- m_options c !! 0%nat;;
    cmdoptn2 <- m_options c !! 1%nat;;
    if negb (has_value cmdoptn1 && has_value cmdoptn2) then Some (CMD_RESULT_ARGS_ERROR, c, w)
    else
      oldname <- resolveArgPath args w cmdoptn1;;
      newname <- resolveArgPath args w cmdoptn2;;
      if bool_decide (oldname = []) || bool_decide (newname = []) then Some (CMD_RESULT_OK, c, w)
      else r <- Vfs.rename (env_of w) (w_fs w) (c_str oldname) (c_str newname);; by_status c w r.

Definition CopyFSCommand_execute (args : list Z) (inseq : cmd_term_inseq) (c : command) (w : world) : answer :=
  if negb (authorized w) then Some (CMD_RESULT_NEED_AUTH, c, w)
  else
    cmdoptn1 <- m_options c !! 0%nat;;
    cmdoptn2 <- m_options c !! 1%nat;;
    if negb (has_value cmdoptn1 && has_value cmdoptn2) then Some (CMD_RESULT_ARGS_ERROR, c, w)
    else
      srcpath <- resolveArgPath args w cmdoptn1;;
      dstpath <- resolveArgPath args w cmdoptn2;;
      same <- (if bool_decide (srcpath = []) || bool_decide (dstpath = []) then Some true
               else StrOps.are_str_equals (Some (srcpath ++ [0])) (Some (dstpath ++ [0])) 300);;
      if same : bool then Some (CMD_RESULT_OK, c, w)
      else
        src <- Vfs.isFileExist (w_fs w) (c_str srcpath);;
        dst <- (if src : bool then Vfs.isFileExist (w_fs w) (c_str dstpath) else Some true);;
        if dst : bool then Some (CMD_RESULT_FAILED, c, w)
        else r <- Vfs.copyFile (env_of w) (w_fs w) (c_str srcpath) (c_str dstpath);; by_status c w r.

End commands.

Arguments world B R : clear implicits.
Arguments mkWorld {B R} _ _ _ _ _ _ _ _ _.
Arguments w_fs {B R} _.
Arguments w_sessions {B R} _.
Arguments w_auth {B R} _.
Arguments w_dirs {B R} _.
Arguments w_rng {B R} _.
Arguments w_now {B R} _.
Arguments w_millis {B R} _.
Arguments w_locals {B R} _.
Arguments w_remote {B R} _.
Arguments set_fs {B R} _ _.
Arguments set_rng {B R} _ _.
Arguments set_sessions {B R} _ _.
Arguments set_auth {B R} _ _.
Arguments env_of {B R} _.
Arguments authorized {B R} _.
Arguments try_login {B _ R} _ _ _.
Arguments LoginCommand_execute {B _ R} _ _ _ _.

(** The action of a key where a command does not override it. *)
Definition base_action {W} (inseq : cmd_term_inseq) (c : command) (w : W) : option (cmd_result * command * W) :=
  '(r, c) <- executeTermInputAction inseq c;; Some (r, c, w).

(** ** Commands that need a login *)

Section needs_login.
Context {B : Type} `{iFileSystem B}.
Variables (R : Type) (srand : Z -> R) (rand : R -> Z * R) (rootdir : path -> bool) (tempdir : path).

Inductive guarded_command := Su | Passwd | Useradd | Userdel | Umask | Chmod | Chown | Cd | Mkdir | Touch | Rm | Mv | Cp.

Definition run (k : guarded_command) : list Z -> cmd_term_inseq -> command -> world B R -> option (cmd_result * command * world B R) :=
  match k with
  | Su => SuCommand_execute R rootdir
  | Passwd => PasswdCommand_execute R srand rand tempdir
  | Useradd => UseraddCommand_execute R srand rand tempdir
  | Userdel => UserdelCommand_execute R tempdir
  | Umask => UmaskCommand_execute R
  | Chmod => ChmodCommand_execute R
  | Chown => ChownCommand_execute R
  | Cd => ChangeDirFSCommand_execute R
  | Mkdir => MkdirCommand_execute R
  | Touch => TouchCommand_execute R
  | Rm => RemoveFSCommand_execute R
  | Mv => MoveFSCommand_execute R
  | Cp => CopyFSCommand_execute R
  end.

Lemma run_unauthorized k args inseq c w : authorized w = false -> run k args inseq c w = Some (CMD_RESULT_NEED_AUTH, c, w).
Proof.
  intros Hw. destruct k; cbn [run]; unfold SuCommand_execute, PasswdCommand_execute, UseraddCommand_execute, UserdelCommand_execute, UmaskCommand_execute, ChmodCommand_execute,
    ChownCommand_execute, ChangeDirFSCommand_execute, MkdirCommand_execute, TouchCommand_execute, RemoveFSCommand_execute, MoveFSCommand_execute, CopyFSCommand_execute; by rewrite Hw.
Qed.

End needs_login.

(** A command that leaves the world as it is does so on every line. *)
Lemma executeCommand_world {W} (execute : list Z -> cmd_term_inseq -> command -> W -> option (cmd_result * command * W)) (w : W) same c args len waiting inseq r c' args' w' :
  (forall a i c r c' w', execute a i c w = Some (r, c', w') -> w' = w) ->
  executeCommand execute base_action same c args len waiting inseq w = Some (r, c', args', w') -> w' = w.
Proof.
  intros He. unfold executeCommand, run_parsed. destruct (match args with Some _ => _ | None => _ end) as [[c1 a1]|]; [|done]. cbn [mbind option_bind].
  destruct (if bool_decide (m_result c1 = CMD_RESULT_OK) then _ else _) as [[c2 w2]|] eqn:E2; [|done]. cbn [mbind option_bind]. assert (w2 = w) as ->.
  { case_bool_decide; [|by simplify_eq]. destruct (execute _ _ _ w) as [[[r0 c0] w0]|] eqn:E; [|done]. apply He in E as ->. by simplify_eq/=. }
  destruct (if negb (bool_decide (inseq = CMD_TERM_INSEQ_NONE)) && _ then _ else _) as [[c3 w3]|] eqn:E3; [|done]. cbn [mbind option_bind]. assert (w3 = w) as ->.
  { destruct (_ && _); [|by simplify_eq]. unfold base_action in E3. destruct (executeTermInputAction _ _) as [[? ?]|]; [|done]. by simplify_eq/=. }
  destruct (bool_decide (m_result c3 = CMD_RESULT_INCOMPLETE)); [|destruct (ClearOptions _ _)]; cbn [mbind option_bind]; [| |done]; intros E; by injection E.
Qed.

(** What is left of a run when the line was read and the command executed, unless the
    line was ended by a break. *)
Lemma executeCommand_runs {W} (execute : list Z -> cmd_term_inseq -> command -> W -> option (cmd_result * command * W)) (w w2 : W) same c args len waiting inseq c1 a res c2 :
  (let c := set_result CMD_RESULT_MAX (stale same c) in
   if waiting : bool then c <- take_line c len;; Some (c, args) else '(c, a) <- parse_line c args len;; Some (c, a)) = Some (c1, a) ->
  m_result c1 = CMD_RESULT_OK -> execute a inseq (set_state CMD_STATUS_ACTIVE CMD_RESULT_OK (m_iterations c1) c1) w = Some (res, c2, w2) -> is_break inseq = false ->
  executeCommand execute base_action same c (Some args) len waiting inseq w =
    (let n := u16 (m_iterations c2 + 1) in
     if bool_decide (res = CMD_RESULT_INCOMPLETE) then Some (res, set_state (m_status c2) res n c2, Some a, w2)
     else c <- ClearOptions false (set_state CMD_STATUS_INACTIVE res n c2);; Some (m_result c, set_state (m_status c) (m_result c) 0 c, Some a, w2)).
Proof.
  cbn zeta. intros Hp Hr He Hb. unfold executeCommand, run_parsed. cbn zeta.
  assert ((if waiting then c <- take_line (set_result CMD_RESULT_MAX (stale same c)) len;; Some (c, Some args)
           else '(c, a) <- parse_line (set_result CMD_RESULT_MAX (stale same c)) args len;; Some (c, Some a)) = Some (c1, Some a)) as ->.
  { destruct waiting; [destruct (take_line _ _)|destruct (parse_line _ _ _) as [[? ?]|]]; cbn [mbind option_bind] in *; by simplify_eq. }
  cbn [mbind option_bind]. rewrite bool_decide_eq_true_2 by done. change (default [] (Some a)) with a. rewrite Hr, He. cbn [mbind option_bind].
  assert ((if negb (bool_decide (inseq = CMD_TERM_INSEQ_NONE)) && negb (bool_decide (inseq = CMD_TERM_INSEQ_MAX))
           then '(r, c, w) <- base_action inseq (set_state (m_status c2) res (u16 (m_iterations c2 + 1)) c2) w2;; Some (set_result r c, w)
           else Some (set_state (m_status c2) res (u16 (m_iterations c2 + 1)) c2, w2)) = Some (set_state (m_status c2) res (u16 (m_iterations c2 + 1)) c2, w2)) as ->.
  { destruct (_ && _); [|done]. unfold base_action, executeTermInputAction. unfold is_break in Hb. by rewrite Hb. }
  cbn [mbind option_bind set_state m_result m_iterations]. destruct (bool_decide (res = CMD_RESULT_INCOMPLETE)); [done|].
  by destruct (ClearOptions _ _).
Qed.

(** ** Logging in at the prompt *)

(** The option [n] of the command has the value [v]. *)
Definition given_value (args : list Z) (c : command) (n : Z) (v : list Z) : Prop :=
  exists opt val, RetrieveOption c (Some [n; 0]) = Some (Some opt) /\ optionvalsize opt = zlen v /\ optionval opt = Some val /\ value_bytes args val (zlen v) = Some v.

Lemma copy_given cut args opt val v : optionval opt = Some val -> optionvalsize opt = zlen v -> value_bytes args val (zlen v) = Some v -> zlen v <= 24 -> no_nul v ->
  exists b, copy_value cut 25 args opt = Some b /\ c_text (Some b) = Some v.
Proof.
  intros Ev Es Eb Hz Hn. exists (v ++ replicate (25 - length v) 0). unfold copy_value, option_bytes. rewrite Es.
  assert ((if cut then (if zlen v <? 25 - 1 then zlen v else 25 - 1) else zlen v) = zlen v) as -> by (destruct cut; [|done]; destruct (Z.ltb_spec (zlen v) (25 - 1)); lia).
  rewrite Ev. cbn [mbind option_bind]. rewrite Eb. cbn [mbind option_bind]. change (Z.to_nat 25) with 25%nat. unfold zlen in Hz. split.
  - assert (replicate 25 0 = replicate (length v) 0 ++ replicate (25 - length v) 0) as -> by (rewrite <- replicate_add; f_equal; lia).
    apply mcpy_0. unfold zlen. by rewrite length_replicate.
  - assert (cstring (v ++ replicate (25 - length v) 0) v) as Hc by (split; [done|]; destruct (25 - length v)%nat as [|j] eqn:Ej; [lia|by exists (replicate j 0)]).
    unfold c_text. cbn [mbind option_bind]. rewrite (strlen_cstring _ v Hc). cbn [mbind option_bind]. by apply msub_cstring.
Qed.

Definition login_letters : list Z := [117; 112].

(** What the command does with both values. *)
Lemma login_execute_both {B R} `{iFileSystem B} args inseq c (w : world B R) u pw : letters (m_options c) login_letters -> given_value args c 117 u -> given_value args c 112 pw ->
  authorized w = false -> u <> [] -> pw <> [] -> no_nul u -> no_nul pw -> zlen u <= 24 -> zlen pw <= 24 ->
  LoginCommand_execute args inseq c w =
    ('(ok, w') <- try_login w u pw;; Some (if ok : bool then (CMD_RESULT_OK, c, w') else (CMD_RESULT_WRONG_CREDENTIAL, set_waiting 0 c, w'))).
Proof.
  intros Hl (uo & uv & Eu & Suz & Suv & Sub) (po & pv & Ep & Spz & Spv & Spb) Ha Hu Hp Hun Hpn Huz Hpz. unfold LoginCommand_execute, retrieve. rewrite Ha.
  cbn [CMD_OPTION_NAME_U CMD_OPTION_NAME_P app]. rewrite Eu. cbn [mbind option_bind]. rewrite Ep. cbn [mbind option_bind]. unfold LOGIN_CONFIGS_BUF_SIZE.
  destruct (copy_given false args uo uv u Suv Suz Sub Huz Hun) as (ub & -> & Tu). cbn [mbind option_bind].
  destruct (copy_given false args po pv pw Spv Spz Spb Hpz Hpn) as (pb & -> & Tp). cbn [mbind option_bind]. rewrite Tu. cbn [mbind option_bind].
  rewrite bool_decide_eq_false_2 by done. rewrite Tp. cbn [mbind option_bind]. rewrite bool_decide_eq_false_2 by done.
  destruct (try_login w u pw) as [[[] w']|]; cbn [mbind option_bind]; [done| |done]. unfold setWaitingForOption. cbn [CMD_OPTION_NAME_U fmap option_fmap option_map app].
  rewrite (option_index_letters c login_letters 117) by done. done.
Qed.

(** The options of the command, with these values. *)
Definition login_options (v0 : option value) (n0 : Z) (h0 : bool) (v1 : option value) (n1 : Z) (h1 : bool) : list CommandOption :=
  [mkOption [117; 0; 0] v0 n0 h0; mkOption [112; 0; 0] v1 n1 h1; no_option].

Lemma login_options_letters v0 n0 h0 v1 n1 h1 : letters (login_options v0 n0 h0 v1 n1 h1) login_letters.
Proof. split; [done|]. split; [by apply Nat.leb_le|by repeat constructor]. Qed.

Lemma retrieve_u c x n0 h0 v1 n1 h1 : m_options c = login_options (Some x) n0 h0 v1 n1 h1 -> 0 < n0 ->
  RetrieveOption c (Some [117; 0]) = Some (Some (mkOption [117; 0; 0] (Some x) n0 h0)).
Proof.
  intros E Hn. unfold RetrieveOption. rewrite E. cbn [login_options option_loop negb orb optionval optionvalsize]. rewrite bool_decide_eq_true_2 by done.
  destruct (Z.gtb_spec n0 0); [|lia]. done.
Qed.

Lemma retrieve_p c v0 n0 h0 v1 n1 h1 : m_options c = login_options v0 n0 h0 v1 n1 h1 -> (is_Some v1 -> 0 < n1) ->
  RetrieveOption c (Some [112; 0]) = Some (match v1 with Some x => Some (mkOption [112; 0; 0] (Some x) n1 h1) | None => None end).
Proof.
  intros E Hn. unfold RetrieveOption. rewrite E. cbn [login_options option_loop negb orb optionval optionvalsize opt_name no_option].
  change (StrOps.are_str_equals (Some [117; 0; 0]) (Some [112; 0]) CMD_OPTION_SIZE_MAX) with (Some false). cbn [mbind option_bind].
  destruct v1 as [x|].
  - rewrite (bool_decide_eq_true_2 (is_Some (Some x))) by done. destruct (Z.gtb_spec n1 0); [|specialize (Hn ltac:(done)); lia]. by destruct (_ && _).
  - rewrite !(bool_decide_eq_false_2 (is_Some None)) by (by intros [? ?]). by destruct (_ && _).
Qed.

(** The world after the verdict on a login. *)
Definition logged_in {B R} (ok : bool) (u passwd : list Z) (w : world B R) : world B R :=
  if ok then set_auth (set_last u (w_auth w)) (set_sessions (set_current_identity (w_sessions w) (account_identity u passwd (w_millis w))) w) else w.

Definition login_result (ok : bool) : cmd_result := if ok then CMD_RESULT_OK else CMD_RESULT_WRONG_CREDENTIAL.

(** The command between two lines, with nothing in its options. *)
Definition at_rest (i : Z) (st : cmd_status) (r : cmd_result) : command := set_state st r 0 (set_waiting i LoginCommand).

Section logins.
Context {B R : Type} {tempdir : path} `{FileStore B (store_names tempdir)}.
Variables (i : nat) (k : nat) (s : session) (w : world B R) (u pw cu cp : list Z).

(** A terminal whose session is not authorised, and a name and a password the command has
    room for. *)
Record login_pending : Prop := {
  pending_store : holds (w_fs w) i /\ 0 <= Vfs.m_priv_depth (w_fs w) < 255 /\ locals_ok (w_locals w);
  pending_table : table_holds (w_auth w) cu cp;
  pending_session : current (w_sessions w) = Some (k, s) /\ authorized w = false;
  pending_name : u <> [] /\ without USER_STORE_FIELD_SEP u /\ no_nul u /\ zlen u <= 24;
  pending_password : pw <> [] /\ bytes_ok pw /\ no_nul pw /\ zlen pw <= 24 }.

Definition login_verdict : bool := verdict (w_auth w) (Vfs.file_at (w_fs w) (Some USER_STORE_SHADOW_PATH)) u pw cu cp.

Definition login_world : world B R := logged_in login_verdict u (default [] (Vfs.file_at (w_fs w) (Some USER_STORE_PASSWD_PATH))) w.

Hypothesis (Hp : login_pending).

Lemma try_login_pending : try_login w u pw = Some (login_verdict, login_world).
Proof.
  destruct Hp as [(Hh & Hd & Hl) Ht (Hc & Ha) (Hu0 & Hu & Hn & Hz) (Hp0 & Hpb & Hpn & Hpz)]. unfold try_login.
  rewrite (login_spec (w_fs w) i (w_sessions w) (w_auth w) (w_locals w) (w_now w) (w_millis w) u pw cu cp Hh Hd Hl Ht Hu0 Hu Hn ltac:(lia) Hpb Hpn ltac:(lia) k s Hc).
  unfold login_world, login_verdict. destruct (verdict _ _ _ _ _ _); cbn [mbind option_bind logged_in]; by destruct w.
Qed.

(** Both values are there: the rest of the run. *)
Lemma login_finishes c args inseq v0 h0 v1 h1 : m_options c = login_options (Some v0) (zlen u) h0 (Some v1) (zlen pw) h1 ->
  value_bytes args v0 (zlen u) = Some u -> value_bytes args v1 (zlen pw) = Some pw ->
  LoginCommand_execute args inseq c w = Some (login_result login_verdict, if login_verdict then c else set_waiting 0 c, login_world).
Proof.
  intros Eo Ev0 Ev1. destruct (Hp) as [_ _ (_ & Ha) (Hu0 & _ & Hn & Hz) (Hp0 & _ & Hpn & Hpz)].
  assert (0 < zlen u) by (destruct u; [done|rewrite zlen_cons; pose proof (zlen_nonneg l); lia]).
  assert (0 < zlen pw) by (destruct pw; [done|rewrite zlen_cons; pose proof (zlen_nonneg l); lia]).
  rewrite (login_execute_both args inseq c w u pw); try done.
  - rewrite try_login_pending. cbn [mbind option_bind]. by destruct login_verdict.
  - rewrite Eo. apply login_options_letters.
  - eexists _, v0. split; [by eapply retrieve_u|]. done.
  - eexists _, v1. split; [rewrite (retrieve_p c _ _ _ _ _ _ Eo); [done|done]|]. done.
Qed.

(** The command while it runs. *)
Definition running (wait : Z) (os : list CommandOption) (st : cmd_status) (r : cmd_result) (n : Z) : command := set_state st r n (set_waiting wait (set_options os LoginCommand)).

(** The run ends with the options cleared. *)
Lemma login_ends st r n wait v0 h0 v1 : (h0 = true -> exists b, v0 = Held b) ->
  ClearOptions false (running wait (login_options (Some v0) (zlen u) h0 (Some v1) (zlen pw) false) st r n) = Some (set_state st r n (set_waiting wait LoginCommand)).
Proof.
  intros Hh. unfold ClearOptions. cbn [running set_state set_waiting set_options m_options login_options mapM]. unfold option_Clear at 1.
  cbn [optionval holdingoptn optionvalsize opt_name]. destruct h0.
  - destruct (Hh eq_refl) as [b ->]. cbn. by destruct v1.
  - destruct v0; cbn; by destruct v1.
Qed.

Definition finished : command := at_rest (if login_verdict then -1 else 0) CMD_STATUS_INACTIVE (login_result login_verdict).

(** A run in which both values are read. *)
Lemma login_runs same c args len waiting inseq a v0 h0 v1 st n : is_break inseq = false -> (h0 = true -> exists b, v0 = Held b) ->
  let os := login_options (Some v0) (zlen u) h0 (Some v1) (zlen pw) false in
  (let c := set_result CMD_RESULT_MAX (stale same c) in
   if waiting : bool then c <- take_line c len;; Some (c, args) else '(c, a) <- parse_line c args len;; Some (c, a)) = Some (running (-1) os st CMD_RESULT_OK n, a) ->
  value_bytes a v0 (zlen u) = Some u -> value_bytes a v1 (zlen pw) = Some pw ->
  executeCommand LoginCommand_execute base_action same c (Some args) len waiting inseq w = Some (login_result login_verdict, finished, Some a, login_world).
Proof.
  intros Hb Hh os Hc Hv0 Hv1. set (c1 := running (-1) os CMD_STATUS_ACTIVE CMD_RESULT_OK n).
  rewrite (executeCommand_runs LoginCommand_execute w login_world same c args len waiting inseq _ a (login_result login_verdict) (if login_verdict then c1 else set_waiting 0 c1) Hc); try done.
  - unfold finished. destruct login_verdict; cbn [login_result]; rewrite bool_decide_eq_false_2 by done.
    + change (set_state CMD_STATUS_INACTIVE _ ?m c1) with (running (-1) os CMD_STATUS_INACTIVE CMD_RESULT_OK m). unfold os. by rewrite login_ends.
    + change (set_state CMD_STATUS_INACTIVE _ ?m (set_waiting 0 c1)) with (running 0 os CMD_STATUS_INACTIVE CMD_RESULT_WRONG_CREDENTIAL m). unfold os. by rewrite login_ends.
  - by apply (login_finishes _ a inseq v0 h0 v1 false).
Qed.

Lemma login_fields : fields 44 [(117, u); (112, pw)] = (117 :: 61 :: u ++ [44; 112; 61]) ++ pw.
Proof. cbn [fields]. by rewrite app_nil_r, <- !app_comm_cons, <- app_assoc. Qed.

(** The line with both options. *)
Lemma login_line_runs same st r slack y : let line := login_name ++ 32 :: fields 44 [(117, u); (112, pw)] in let args := line ++ 0 :: slack ++ 0 :: y in
  no_nul slack -> Forall (given_ok 44 login_letters) [(117, u); (112, pw)] -> list.last pw <> Some 32 ->
  executeCommand LoginCommand_execute base_action same (at_rest (-1) st r) (Some args) (zlen line) false CMD_TERM_INSEQ_NONE w =
    Some (login_result login_verdict, finished, Some args, login_world).
Proof.
  intros line args Hs Hg Hlast. apply (login_runs same _ args (zlen line) false CMD_TERM_INSEQ_NONE args (Arg 8) false (Arg (11 + zlen u)) st 0); try done.
  - cbn zeta. unfold args, line. rewrite (parse_line_named _ login_name login_letters 44 [(117, u); (112, pw)] slack y); try done.
    + replace (11 + zlen u) with (zlen login_name + 1 + 3 + zlen u + 2) by (change (zlen login_name) with 5; lia). reflexivity.
    + destruct demo_takes_options as [A B' C]. split; [exact A|exact B'|exact C].
    + rewrite login_fields, last_app. destruct (list.last pw) eqn:E; [congruence|]. by apply last_None in E; destruct (pending_password Hp).
    + rewrite login_fields, zlen_app, zlen_cons, zlen_app. change (zlen login_name) with 5. change (117 :: 61 :: u ++ [44; 112; 61]) with ([117; 61] ++ u ++ [44; 112; 61]).
      rewrite !zlen_app. change (zlen [117; 61]) with 2. change (zlen [44; 112; 61]) with 3. destruct Hp as [_ _ _ (_ & _ & _ & ?) (_ & _ & _ & ?)]. lia.
  - unfold args, line. rewrite login_fields. change (login_name ++ 32 :: (117 :: 61 :: u ++ [44; 112; 61]) ++ pw) with ((login_name ++ [32; 117; 61]) ++ (u ++ [44; 112; 61]) ++ pw).
    rewrite <- !app_assoc, (app_assoc login_name). change 8 with (zlen (login_name ++ [32; 117; 61])). apply msub_app_mid.
  - unfold args, line. rewrite login_fields. change (login_name ++ 32 :: (117 :: 61 :: u ++ [44; 112; 61]) ++ pw) with ((login_name ++ [32; 117; 61]) ++ (u ++ [44; 112; 61]) ++ pw).
    rewrite (app_assoc _ (u ++ _)), <- (app_assoc _ pw). replace (11 + zlen u) with (zlen ((login_name ++ [32; 117; 61]) ++ u ++ [44; 112; 61])).
    + apply msub_app_mid.
    + rewrite !zlen_app. change (zlen login_name) with 5. change (zlen [32; 117; 61]) with 3. change (zlen [44; 112; 61]) with 3. lia.
Qed.

(** The command holds the name and waits for the password. *)
Definition half_way : command :=
  running 1 (login_options (Some (Held (u ++ [0; 0]))) (zlen u) true None 0 false) CMD_STATUS_ACTIVE CMD_RESULT_INCOMPLETE 1.

(** The name and the password on two lines. *)
Lemma login_prompt_runs same st r x y :
  executeCommand LoginCommand_execute base_action same (at_rest 0 st r) (Some (u ++ 0 :: x)) (zlen u) true CMD_TERM_INSEQ_ENTER w =
    Some (CMD_RESULT_INCOMPLETE, half_way, Some (u ++ 0 :: x), w) /\
  executeCommand LoginCommand_execute base_action same half_way (Some (pw ++ 0 :: y)) (zlen pw) true CMD_TERM_INSEQ_ENTER w =
    Some (login_result login_verdict, finished, Some (pw ++ 0 :: y), login_world).
Proof.
  split.
  - rewrite (executeCommand_runs LoginCommand_execute w w same _ _ _ _ _ (running (-1) (login_options (Some (Arg 0)) (zlen u) false None 0 false) st CMD_RESULT_OK 0) (u ++ 0 :: x)
      CMD_RESULT_INCOMPLETE (set_state CMD_STATUS_ACTIVE CMD_RESULT_OK 0 half_way)); try done.
    unfold LoginCommand_execute, retrieve. destruct Hp as [_ _ (_ & Ha) (Hu0 & _ & Hn & Hz) _]. rewrite Ha. cbn [CMD_OPTION_NAME_U CMD_OPTION_NAME_P app].
    assert (0 < zlen u) by (destruct u; [done|rewrite zlen_cons; pose proof (zlen_nonneg l); lia]).
    erewrite retrieve_u by done. cbn [mbind option_bind]. erewrite retrieve_p; [|done|by intros [? ?]]. cbn [mbind option_bind].
    assert (value_bytes (u ++ 0 :: x) (Arg 0) (zlen u) = Some u) as Ev by (apply msub_cstring; split; [done|by exists x]).
    destruct (copy_given false (u ++ 0 :: x) (mkOption [117; 0; 0] (Some (Arg 0)) (zlen u) false) (Arg 0) u) as (ub & Eu & _); try done.
    unfold LOGIN_CONFIGS_BUF_SIZE. rewrite Eu. cbn [mbind option_bind]. unfold hold_named. cbn [CMD_OPTION_NAME_U app].
    erewrite (option_index_letters _ login_letters 117) by (done || apply login_options_letters). cbn [mbind option_bind].
    unfold holdOptionValue. change (negb (letter_index login_letters 117 0 =? -1) && _) with true. cbv iota.
    change (m_options _ !! Z.to_nat _) with (Some (mkOption [117; 0; 0] (Some (Arg 0)) (zlen u) false)). cbn [mbind option_bind].
    unfold holdOption. cbn [optionval holdingoptn optionvalsize negb andb]. destruct (Z.eqb_spec (zlen u) 0); [lia|]. cbn [negb]. rewrite Ev. reflexivity.
  - apply (login_runs same _ _ _ _ _ (pw ++ 0 :: y) (Held (u ++ [0; 0])) true (Arg 0) CMD_STATUS_ACTIVE 1); try done; [by eauto| |].
    + apply msub_cstring. split; [|by exists [0]]. by destruct Hp as [_ _ _ (_ & _ & ? & _) _].
    + apply msub_cstring. split; [|by exists y]. by destruct Hp as [_ _ _ _ (_ & _ & ? & _)].
Qed.

End logins.

(** ** Theorems *)

(** Until somebody logged in, no line at the prompt makes one of the commands for
    accounts, permissions and files change anything: not the files, the sessions, the
    directories or the random numbers, whatever the line says and whichever key ended it. *)
Theorem shell_needs_login {B R} `{iFileSystem B} (srand : Z -> R) rand rootdir tempdir k same c args len waiting inseq (w : world B R) r c' args' w' :
  authorized w = false ->
  executeCommand (run R srand rand rootdir tempdir k) base_action same c args len waiting inseq w = Some (r, c', args', w') -> w' = w.
Proof.
  intros Hw. apply executeCommand_world. intros a i c0 r0 c0' w0. rewrite run_unauthorized by done. by intros [= _ _ <-].
Qed.


(** The arrays of [login] have 25 bytes, and what was typed is copied into them whatever
    its length: a name of more than 25 characters, typed at the prompt by anyone who has not
    logged in yet, is written past their end. *)
Theorem login_name_overruns {B R} `{iFileSystem B} (w : world B R) u x same st r : authorized w = false -> no_nul u -> 25 < zlen u ->
  executeCommand LoginCommand_execute base_action same (at_rest 0 st r) (Some (u ++ 0 :: x)) (zlen u) true CMD_TERM_INSEQ_ENTER w = None.
Proof.
  intros Ha Hn Hz. unfold executeCommand, run_parsed. replace (take_line _ (zlen u)) with (Some (running (-1) (login_options (Some (Arg 0)) (zlen u) false None 0 false) st CMD_RESULT_OK 0)) by (by destruct same).
  cbn [mbind option_bind]. rewrite bool_decide_eq_true_2 by done. unfold LoginCommand_execute, retrieve. rewrite Ha. cbn [CMD_OPTION_NAME_U CMD_OPTION_NAME_P app].
  erewrite retrieve_u by (done || lia). cbn [mbind option_bind]. erewrite retrieve_p; [|done|by intros [? ?]]. cbn [mbind option_bind].
  unfold copy_value, option_bytes. cbn [optionval optionvalsize mbind option_bind value_bytes default]. rewrite (msub_cstring _ u) by (split; [done|by exists x]).
  cbn [mbind option_bind]. unfold mcpy, LOGIN_CONFIGS_BUF_SIZE. change (zlen (replicate (Z.to_nat 25) 0)) with 25. destruct (Z.leb_spec (0 + zlen u) 25); [lia|]. done.
Qed.

#[local] Existing Instance UserStore.device_fs.
#[local] Existing Instance UserStore.device_laws.
#[local] Existing Instance UserStore.device_store.
#[local] Existing Instance TmpFs.tmpfs_fs.
#[local] Existing Instance TmpFs.tmpfs_laws.

(** Two terminals, and bob in the login table. *)
Definition demo_world : world (LittleFs.ram + list TmpFs.tmpfs_node) Z :=
  mkWorld open_store (attached 2) bob_auth FsImpl.initial_dirs (mkRng false 0) 9 5 demo_locals false.

Lemma demo_pending : login_pending (tempdir := temp_dir) 0 1 (default cleared (m_sessions (attached 2) !! 1%nat)) demo_world bob_name [112; 119] bob_name [112; 119].
Proof.
  split.
  - split; [exact open_holds|]. split; [vm_compute; split; [discriminate|reflexivity]|exact demo_locals_ok].
  - exact bob_table.
  - done.
  - split; [done|]. split; [by repeat constructor|]. split; [by repeat constructor|]. by vm_compute.
  - split; [done|]. split; [by repeat constructor|]. split; [by repeat constructor|]. by vm_compute.
Qed.

(** [rm x] *)
Lemma shell_needs_login_witness : exists r c' args' w',
  executeCommand (run Z (fun x => x) (fun g => (g, g)) (fun _ => true) temp_dir Rm) base_action false RemoveFSCommand (Some [114; 109; 32; 120; 0; 0]) 4 false
    CMD_TERM_INSEQ_NONE demo_world = Some (r, c', args', w') /\ w' = demo_world.
Proof.
  destruct (executeCommand (run Z (fun x => x) (fun g => (g, g)) (fun _ => true) temp_dir Rm) base_action false RemoveFSCommand (Some [114; 109; 32; 120; 0; 0]) 4 false
    CMD_TERM_INSEQ_NONE demo_world) as [[[[r c'] args'] w']|] eqn:E; [|vm_compute in E; discriminate]. exists r, c', args', w'. split; [reflexivity|].
  exact (shell_needs_login (fun x => x) (fun g => (g, g)) (fun _ => true) temp_dir Rm _ _ _ _ _ _ demo_world r c' args' w' eq_refl E).
Defined.


Lemma login_name_overruns_witness :
  executeCommand LoginCommand_execute base_action true (at_rest 0 CMD_STATUS_IDLE CMD_RESULT_MAX) (Some (replicate 26 97 ++ 0 :: [])) 26 true CMD_TERM_INSEQ_ENTER demo_world = None.
Proof. apply (login_name_overruns demo_world (replicate 26 97) [] true); [reflexivity|by repeat constructor|reflexivity]. Defined.

End Shell.
