(* ===== verification/CommandLine.v ===== *)
(** * The command line ([src/service_provider/cmd/CommandLineServiceProvider.cpp])

    The service between the terminals and the commands: the list of the commands that are
    waiting for input or running, the line a terminal typed given to one of them or to a new
    one, the history, the completion, the prompt.  The registered commands are a list of
    classes, as [CommandBase::RegisterCommand] makes it; the theorems hold for every such
    list.  What is printed outside the line editor is not modelled, nor are the callbacks
    that let other tasks run.

    The theorems: before a login, whatever is typed at a terminal goes to the [login] command
    and to no other, through every history of inputs; and what becomes of a [login] that was
    left at the password prompt when its terminal was closed. *)

From stdpp Require Import base option list numbers gmap relations.
From Stdlib Require Import ZArith Lia.
From S2P Require Import Prelude Conversions StrOps FileSys TmpFs LittleFs FsImpl Vfs FileStore UserStore Session Auth Command LineEdit Shell.
Import Conversions FileStore UserStore.

Open Scope Z_scope.

Module CommandLine.
Import Session Auth Command LineEdit Shell.

(** [/.term_history] *)
Definition m_termhistoryfile : path := [47; 46; 116; 101; 114; 109; 95; 104; 105; 115; 116; 111; 114; 121].
Definition CMD_TERMINAL_HISTORY_MAX_LINES : Z := 25.

(** [login] *)
Definition CMD_NAME_LOGIN : list Z := [108; 111; 103; 105; 110].

Section service.
Context {B R : Type} `{iFileSystem B}.

(** A registered command: its name, a new object of it, and its virtual functions. *)
Record command_class := mkClass {
  cls_name : list Z;
  cls_new : command;
  cls_execute : list Z -> cmd_term_inseq -> command -> world B R -> option (cmd_result * command * world B R);
  cls_action : cmd_term_inseq -> command -> world B R -> option (cmd_result * command * world B R);
  cls_masked : command -> option bool;
  cls_stop : command -> command }.

(** A command of the list, with the session that owns it. *)
Record active := mkActive { a_class : command_class; a_cmd : command; a_owner : option nat }.

Record shell := mkShell { s_world : world B R; m_cmdlist : list active; s_terminal : option nat }.

Definition set_world (w : world B R) (st : shell) : shell := mkShell w (m_cmdlist st) (s_terminal st).
Definition set_list (l : list active) (st : shell) : shell := mkShell (s_world st) l (s_terminal st).

(** [registry]: the commands; [slack]: the memory behind the line and its terminator;
    [same]: whether the line is in the block of the line that was run before; [items]: what [getDirFileList] lists of a directory for a pattern; [tmp]: the array of
    [__vsnprintf]. *)
Variables (registry : list command_class) (slack : list Z) (same : bool) (items : world B R -> path -> list Z -> option (Z * list path)) (tmp : list Z).

Definition current_index (w : world B R) : option nat := fst <$> current (w_sessions w).

(** ** The list *)

(** A command of this session that waits for input. *)
Definition waits_for (cur : option nat) (a : active) : bool := bool_decide (a_owner a = cur) && isWaiting (a_cmd a).

Fixpoint index_of (f : active -> bool) (l : list active) (i : nat) : option nat :=
  match l with [] => None | a :: l => if f a then Some i else index_of f l (S i) end.

Definition getCommandWaitingForUserInput (st : shell) : option nat := index_of (waits_for (current_index (s_world st))) (m_cmdlist st) 0.

Fixpoint named_index (cur : option nat) (name : list Z) (l : list active) (i : nat) : option (option nat) :=
  match l with
  | [] => Some None
  | a :: l =>
      if bool_decide (a_owner a = cur) then
        valid <- isValidCommand (a_cmd a) (Some name);;
        if valid : bool then Some (Some i) else named_index cur name l (S i)
      else named_index cur name l (S i)
  end.

Definition getActiveCommandByName (st : shell) (name : list Z) : option (option nat) :=
  named_index (current_index (s_world st)) (name ++ [0]) (m_cmdlist st) 0.

(** [CommandBase::GetCommand] *)
Fixpoint GetCommand (cs : list command_class) (cmdname : list Z) : option (option command_class) :=
  match cs with
  | [] => Some None
  | c :: cs => eq <- isCommandMatch (Some (cls_name c)) (Some cmdname) false;; if eq : bool then Some (Some c) else GetCommand cs cmdname
  end.

(** The command is put at the end of the list; its index. *)
Definition getCommandToExecute (st : shell) (cmdname : list Z) : option (option nat * shell) :=
  c <- GetCommand registry cmdname;;
  Some (match c with
        | Some c => (Some (length (m_cmdlist st)), set_list (m_cmdlist st ++ [mkActive c (cls_new c) (current_index (s_world st))]) st)
        | None => (None, st)
        end).

Definition set_command (i : nat) (c : command) (st : shell) : shell :=
  set_list (alter (fun a => mkActive (a_class a) c (a_owner a)) i (m_cmdlist st)) st.

(** ** The prompt *)

Definition startInteraction (st : shell) : option shell :=
  match s_terminal st with
  | None => Some st
  | Some _ =>
      logincmd <- getActiveCommandByName st CMD_NAME_LOGIN;;
      '(logincmd, st) <- (match logincmd with Some i => Some (Some i, st) | None => getCommandToExecute st (CMD_NAME_LOGIN ++ [0]) end);;
      match logincmd with
      | None => Some st
      | Some i =>
          a <- m_cmdlist st !! i;;
          if authorized (s_world st) then
            if isWaiting (a_cmd a) then c <- setWaitingForOption (a_cmd a) None;; Some (set_command i c st) else Some st
          else c <- setWaitingForOption (a_cmd a) (Some CMD_OPTION_NAME_U);; Some (set_command i c st)
      end
  end.

Definition useTerminal (st : shell) (terminal : option nat) : option shell :=
  let st := mkShell (s_world st) (m_cmdlist st) terminal in
  match terminal with
  | Some _ => startInteraction (set_world (set_sessions (attach (w_sessions (s_world st)) terminal).2 (s_world st)) st)
  | None => Some (set_world (set_sessions (detachCurrent (w_sessions (s_world st))) (s_world st)) st)
  end.

(** ** The line of a session *)

Definition editor_of (k : nat) (w : world B R) : option editor := m_editor <$> m_sessions (w_sessions w) !! k.

Definition put_editor (k : nat) (e : editor) (w : world B R) : world B R :=
  match m_sessions (w_sessions w) !! k with
  | Some s => set_sessions (update (w_sessions w) k (Session.set_editor e s)) w
  | None => w
  end.

Definition set_history_index (i : Z) (e : editor) : editor :=
  mkEditor (m_linebuf e) (m_cursor e) i (m_prevHistorySize e) (m_origTypedPrefix e) (m_prevArgSize e) (m_autoCompleteIdx e) (m_prevCmdSize e).
Definition set_complete_index (i : Z) (e : editor) : editor :=
  mkEditor (m_linebuf e) (m_cursor e) (m_historyIdx e) (m_prevHistorySize e) (m_origTypedPrefix e) (m_prevArgSize e) i (m_prevCmdSize e).
Definition set_sizes (argsize cmdsize : Z) (e : editor) : editor :=
  mkEditor (m_linebuf e) (m_cursor e) (m_historyIdx e) (m_prevHistorySize e) (m_origTypedPrefix e) argsize (m_autoCompleteIdx e) cmdsize.

(** The line replaced, the cursor at its end. *)
Definition replace_line (buf : list Z) (e : editor) : editor := set_line buf (u16 (zlen buf)) e.

(** ** The history *)

Definition getCommandExecutedFromHistory (w : world B R) (index : Z) (pattern : option (list Z)) : option (option (list Z)) :=
  if index >=? 0 then
    ex <- Vfs.isFileExist (w_fs w) (Some m_termhistoryfile);;
    if ex : bool then
      '(status, text) <- Vfs.readLineInFile (env_of w) (w_fs w) (Some m_termhistoryfile) (- (index + 1)) pattern;;
      Some (if status >=? 0 then Some text else None)
    else Some None
  else Some None.

(** The arrows up and down. *)
Definition history_key (up : bool) (w : world B R) (e : editor) : option editor :=
  let e := if m_historyIdx e =? -1
           then mkEditor (m_linebuf e) (m_cursor e) (m_historyIdx e) (i16 (zlen (m_linebuf e))) (m_linebuf e) (m_prevArgSize e) (m_autoCompleteIdx e) (m_prevCmdSize e)
           else e in
  let pattern := m_origTypedPrefix e in
  let e := set_history_index (i16 (if up then m_historyIdx e + 1 else m_historyIdx e - 1)) e in
  '(lines, _) <- Vfs.getLineNumbersInFile (env_of w) (w_fs w) (Some m_termhistoryfile) (-1) 0;;
  let indexlimit := i16 (lines - 1) in
  let e := set_history_index (if m_historyIdx e >? indexlimit then indexlimit else if m_historyIdx e <? 0 then 0 else m_historyIdx e) e in
  found <- getCommandExecutedFromHistory w (m_historyIdx e) (if zlen pattern >? 0 then Some (until_nul pattern) else None);;
  Some (match found with
        | Some cmdExec => replace_line cmdExec e
        | None => set_history_index (if m_historyIdx e >? 0 then i16 (m_historyIdx e - 1) else -1) e
        end).

(** The callback that copies the lines to be kept. *)
Definition keep_chunk (e : env) (temp : path) (v : option (Vfs.VfsDispatcher B)) (data : list Z) : bool * option (Vfs.VfsDispatcher B) :=
  (true, v <- v;; '(_, v) <- Vfs.writeFile e v (Some temp) (Some data) (zlen data) true;; Some v).

(** All but the last lines removed, the time of creation kept. *)
Definition trim_history (tempdir : path) (e : env) (v : Vfs.VfsDispatcher B) : option (Vfs.VfsDispatcher B) :=
  '(_, newlineindices) <- Vfs.findInFile e v (Some m_termhistoryfile) (Some [13; 10]) (-1) 1 0;;
  if zlen newlineindices >? CMD_TERMINAL_HISTORY_MAX_LINES then
    remove_upto_index <- newlineindices !! Z.to_nat (zlen newlineindices - CMD_TERMINAL_HISTORY_MAX_LINES - 1);;
    let temp := tempdir ++ FsImpl.basename (Some m_termhistoryfile) in
    ex <- Vfs.isFileExist v (Some temp);;
    '(_, v) <- (if ex : bool then Vfs.deleteFile e v (Some temp) else Some (0, v));;
    '(_, ctime) <- Vfs.getFileAttr v (Some m_termhistoryfile) FILE_ATTR_CTIME (Some [0; 0; 0; 0]) 4;;
    '(status, v') <- Vfs.readFile e v (Some m_termhistoryfile) 100 (keep_chunk e temp) (remove_upto_index + 1) None (Some v);;
    v <- v';;
    if status >=? 0 then
      '(_, v) <- Vfs.deleteFile e v (Some m_termhistoryfile);;
      '(_, v) <- Vfs.moveFile e v (Some temp) (Some m_termhistoryfile);;
      if bool_decide (ctime = Some [0; 0; 0; 0]) then Some v
      else '(_, v) <- Vfs.setFileAttr e v (Some m_termhistoryfile) FILE_ATTR_CTIME ctime 4;; Some v
    else Some v
  else Some v.

Definition ensure_history (w : world B R) : option (world B R) :=
  ex <- Vfs.isFileExist (w_fs w) (Some m_termhistoryfile);;
  if ex : bool then Some w else '(_, v) <- Vfs.createFile (env_of w) (w_fs w) (Some m_termhistoryfile) (Some [0]) 0;; Some (set_fs v w).

Definition store_history (w : world B R) (waiting : bool) (cmd : list Z) : option (world B R) :=
  w <- ensure_history w;;
  if negb waiting && (zlen cmd <? 1024) then
    let e := env_of w in
    v <- trim_history (FsImpl.m_temp (w_dirs w)) e (w_fs w);;
    '(_, v) <- Vfs.writeFile e v (Some m_termhistoryfile) (Some (cmd ++ [0])) (zlen cmd) true;;
    '(_, v) <- Vfs.writeFile e v (Some m_termhistoryfile) (Some [13; 10; 0]) 2 true;;
    Some (set_fs v w)
  else Some w.

(** ** Completion *)

Fixpoint matching (cs : list command_class) (text : list Z) : option (list (list Z)) :=
  match cs with
  | [] => Some []
  | c :: cs => eq <- isCommandMatch (Some (cls_name c)) (Some (text ++ [0])) true;; rest <- matching cs text;; Some (if eq : bool then cls_name c :: rest else rest)
  end.

(** [find] of a blank, [find_first_not_of] a blank. *)
Fixpoint find_blank (s : list Z) (i : Z) : option Z := match s with [] => None | c :: s => if c =? 32 then Some i else find_blank s (i + 1) end.
Fixpoint skip_blanks (s : list Z) : list Z := match s with [] => [] | c :: s' => if c =? 32 then skip_blanks s' else s end.

(** [substr(0, n)] with [n] converted from a 16-bit number. *)
Definition prefix_of (s : list Z) (n : Z) : list Z := StrOps.string_data (if n <? 0 then s else take (Z.to_nat n) s).

(** The name of the command: the next one that matches. *)
Definition complete_name (e : editor) (matches : list (list Z)) : option editor :=
  let i := i16 ((m_autoCompleteIdx e + 1) mod zlen matches) in
  text <- matches !! Z.to_nat i;;
  Some (replace_line text (set_complete_index i e)).

(** The argument: the next file of the working directory. *)
Definition complete_argument (w : world B R) (e : editor) (arg : Z) : option editor :=
  let _matchcmd := StrOps.string_data (take (Z.to_nat arg) (m_linebuf e)) in
  let _argtosearch := skip_blanks (StrOps.string_data (drop (Z.to_nat arg) (m_linebuf e))) in
  let e := if m_autoCompleteIdx e =? -1 then set_sizes (i16 (zlen _argtosearch)) (m_prevCmdSize e) e else e in
  let _argtosearch := prefix_of _argtosearch (m_prevArgSize e) in
  '(resultCode, itemlist) <- items w (getPWD (w_sessions w) (w_dirs w)) (until_nul _argtosearch);;
  if (resultCode >=? 0) && (zlen itemlist >? 0) then
    let i := i16 ((m_autoCompleteIdx e + 1) mod zlen itemlist) in
    name <- itemlist !! Z.to_nat i;;
    Some (replace_line (_matchcmd ++ [32] ++ name) (set_complete_index i e))
  else Some (set_complete_index (-1) e).

(** The tabulator on a line that is not empty; whether it was completed. *)
Definition complete (w : world B R) (e : editor) : option (bool * editor) :=
  let argStartIndex := find_blank (m_linebuf e) 0 in
  let e := if m_autoCompleteIdx e =? -1 then set_sizes (m_prevArgSize e) (i16 (zlen (m_linebuf e))) e else e in
  let e := match argStartIndex with Some a => set_sizes (m_prevArgSize e) (i16 a) e | None => e end in
  let _cmdtosearch := if m_prevCmdSize e =? i16 (zlen (m_linebuf e)) then m_linebuf e else prefix_of (m_linebuf e) (m_prevCmdSize e) in
  matchedCmds <- matching registry (until_nul _cmdtosearch);;
  if zlen matchedCmds >? 0 then
    e <- (match argStartIndex with None => complete_name e matchedCmds | Some a => complete_argument w e a end);;
    Some (true, e)
  else Some (false, set_complete_index (-1) e).

(** ** Running a line *)

(** A command of the list is given the line; the parser works in the buffer of the line. *)
Definition run_command (k : nat) (i : nat) (line : list Z) (waiting : bool) (inseq : cmd_term_inseq) (st : shell) : option (cmd_result * shell) :=
  a <- m_cmdlist st !! i;;
  '(res, c, args, w) <- Command.executeCommand (cls_execute (a_class a)) (cls_action (a_class a)) same (a_cmd a) (Some (line ++ 0 :: slack)) (zlen line) waiting inseq (s_world st);;
  let line := take (length line) (default [] args) in
  e <- editor_of k w;;
  Some (res, set_world (put_editor k (set_line line (m_cursor e) e) w) (set_command i c st)).

(** The commands that neither wait nor run are deleted. *)
Definition clean_up (l : list active) : list active := filter (fun a => isWaiting (a_cmd a) || m_runinbackground (a_cmd a) = true) l.

Definition stop_background (cur : option nat) (l : list active) : list active :=
  map (fun a => if bool_decide (a_owner a = cur) && m_runinbackground (a_cmd a) then mkActive (a_class a) (cls_stop (a_class a) (a_cmd a)) (a_owner a) else a) l.

(** The keys that complete a line or walk through the history, when no command waits;
    [true] when nothing more is to be done. *)
Definition line_keys (k : nat) (inseq : cmd_term_inseq) (st : shell) : option (bool * shell) :=
  let w := s_world st in
  e <- editor_of k w;;
  if bool_decide (inseq = CMD_TERM_INSEQ_UP_ARROW) || bool_decide (inseq = CMD_TERM_INSEQ_DOWN_ARROW) then
    e <- history_key (bool_decide (inseq = CMD_TERM_INSEQ_UP_ARROW)) w e;; Some (true, set_world (put_editor k e w) st)
  else
    '(done, e) <- (if bool_decide (inseq = CMD_TERM_INSEQ_TAB) && (zlen (m_linebuf e) >? 0) then complete w e else Some (false, set_complete_index (-1) e));;
    if done : bool then Some (true, set_world (put_editor k e w) st) else Some (false, set_world (put_editor k (set_history_index (-1) e) w) st).

(** A line that is not empty. *)
Definition run_line (k : nat) (waiting : option nat) (inseq : cmd_term_inseq) (line : list Z) (st : shell) : option (cmd_result * shell) :=
  '(res, st) <-
    match waiting with
    | Some i => run_command k i line true inseq st
    | None =>
        '(i, st) <- getCommandToExecute st (line ++ 0 :: slack);;
        match i with Some i => run_command k i line false CMD_TERM_INSEQ_NONE st | None => Some (CMD_RESULT_NOT_FOUND, st) end
    end;;
  e <- editor_of k (s_world st);;
  w <- store_history (s_world st) (bool_decide (is_Some waiting)) (m_linebuf e);;
  Some (res, set_world w st).

Definition is_some_inseq (inseq : cmd_term_inseq) : bool := negb (bool_decide (inseq = CMD_TERM_INSEQ_NONE)) && negb (bool_decide (inseq = CMD_TERM_INSEQ_MAX)).

(** An empty one. *)
Definition run_empty (k : nat) (waiting : option nat) (inseq : cmd_term_inseq) (st : shell) : option (cmd_result * shell) :=
  match waiting with
  | Some i => if is_some_inseq inseq then run_command k i [] true inseq st else Some (CMD_RESULT_INCOMPLETE, st)
  | None => Some (if is_break inseq then CMD_RESULT_ABORTED else CMD_RESULT_MAX, st)
  end.

Definition waits_for_user (st : shell) : option bool :=
  if authorized (s_world st) then Some false
  else
    i <- getActiveCommandByName st CMD_NAME_LOGIN;;
    match i with
    | Some i => a <- m_cmdlist st !! i;; isWaitingForOption (a_cmd a) CMD_OPTION_NAME_U
    | None => Some false
    end.

(** After the line was run: what is running is stopped by a break, the prompt is shown
    unless a command is being executed, and what is done is deleted. *)
Definition settle (executing : bool) (res : cmd_result) (st : shell) : option (cmd_result * shell) :=
  let st := if bool_decide (res = CMD_RESULT_ABORTED) || bool_decide (res = CMD_RESULT_TERMINAL_ABORTED)
            then set_list (stop_background (current_index (s_world st)) (m_cmdlist st)) st else st in
  auth <- waits_for_user st;;
  st <- (if negb executing || bool_decide (res = CMD_RESULT_OK) || bool_decide (res = CMD_RESULT_ABORTED) || bool_decide (res = CMD_RESULT_FAILED)
            || (auth && bool_decide (res = CMD_RESULT_WRONG_CREDENTIAL))
         then startInteraction st else Some st);;
  Some (res, set_list (clean_up (m_cmdlist st)) st).

(** [executeCommand] on the line of the current session. *)
Definition executeCommand (inseq : cmd_term_inseq) (st : shell) : option (cmd_result * shell) :=
  match s_terminal st, current_index (s_world st) with
  | Some _, Some k =>
      let waiting := getCommandWaitingForUserInput st in
      '(held, st) <-
        match waiting with
        | None => line_keys k inseq st
        | Some _ => e <- editor_of k (s_world st);; Some (false, set_world (put_editor k (set_complete_index (-1) (set_history_index (-1) e)) (s_world st)) st)
        end;;
      if held : bool then Some (CMD_RESULT_TERMINAL_HOLD_BUFFER, st)
      else
        e <- editor_of k (s_world st);;
        let line := m_linebuf e in
        '(res, st) <- (if bool_decide (line = []) then run_empty k waiting inseq st else run_line k waiting inseq line st);;
        settle (bool_decide (is_Some waiting) || (negb (bool_decide (line = [])) && bool_decide (res = CMD_RESULT_INCOMPLETE))) res st
  | _, _ => Some (CMD_RESULT_TERMINAL_ERR, st)
  end.

(** ** Input of a terminal *)

(** A command of the session waits for something that is not to be shown. *)
Fixpoint masked (cur : option nat) (l : list active) : option bool :=
  match l with
  | [] => Some false
  | a :: l => if waits_for cur a then m <- cls_masked (a_class a) (a_cmd a);; if m : bool then Some true else masked cur l else masked cur l
  end.

(** The keys after which the line is not looked at. *)
Definition only_edits (dontecho : bool) (inseq : cmd_term_inseq) : bool :=
  let ends := bool_decide (inseq = CMD_TERM_INSEQ_ENTER) || bool_decide (inseq = CMD_TERM_INSEQ_CTRL_C) || bool_decide (inseq = CMD_TERM_INSEQ_CTRL_Z) in
  let acts := bool_decide (inseq = CMD_TERM_INSEQ_ESC) || bool_decide (inseq = CMD_TERM_INSEQ_UP_ARROW) || bool_decide (inseq = CMD_TERM_INSEQ_DOWN_ARROW)
              || bool_decide (inseq = CMD_TERM_INSEQ_TAB) in
  (dontecho && negb ends) || (negb ends && negb acts).

(** [input]: what the terminal has; the result, the state, what the editor wrote and what is
    left of the input. *)
Definition processTerminalInput (terminal : nat) (now : Z) (input : list Z) (st : shell) : option (cmd_result * shell * list Z * list Z) :=
  let '(found, m) := select (w_sessions (s_world st)) (Some terminal) now in
  if negb found then Some (CMD_RESULT_TERMINAL_ERR, st, [], input)
  else
    let st := mkShell (set_sessions m (s_world st)) (m_cmdlist st) (Some terminal) in
    k <- current_index (s_world st);;
    e <- editor_of k (s_world st);;
    dontecho <- masked (Some k) (m_cmdlist st);;
    '(e, out, input, inseq) <- read_keys tmp (length input) dontecho input e CMD_TERM_INSEQ_NONE;;
    if only_edits dontecho inseq then
      Some (CMD_RESULT_INCOMPLETE, set_world (put_editor k (set_complete_index (-1) (set_history_index (-1) e)) (s_world st)) st, out, input)
    else
      let e := if is_break inseq then set_line [] 0 e else e in
      '(res, st) <- executeCommand inseq (set_world (put_editor k e (s_world st)) st);;
      st <- (if bool_decide (res = CMD_RESULT_TERMINAL_HOLD_BUFFER) then Some st
             else e <- editor_of k (s_world st);; Some (set_world (put_editor k (set_line [] 0 e) (s_world st)) st));;
      Some (res, st, out, input).

End service.

Arguments command_class B R : clear implicits.
Arguments mkClass {B R} _ _ _ _ _ _.
Arguments cls_name {B R} _.
Arguments cls_new {B R} _.
Arguments cls_execute {B R} _.
Arguments cls_action {B R} _.
Arguments cls_masked {B R} _.
Arguments cls_stop {B R} _.
Arguments active B R : clear implicits.
Arguments mkActive {B R} _ _ _.
Arguments a_class {B R} _.
Arguments a_cmd {B R} _.
Arguments a_owner {B R} _.
Arguments shell B R : clear implicits.
Arguments mkShell {B R} _ _ _.
Arguments s_world {B R} _.
Arguments m_cmdlist {B R} _.
Arguments s_terminal {B R} _.

(** The class of [login]. *)
Definition login_class {B R} `{iFileSystem B} : command_class B R :=
  mkClass CMD_NAME_LOGIN LoginCommand LoginCommand_execute base_action (fun c => isWaitingForOption c CMD_OPTION_NAME_P)
    (fun c => mkCommand (m_cmd c) (m_options c) (m_optionindx c) (m_waitingoptionindx c) (m_status c) (m_result c) (m_acceptArgsOptions c) (m_optionseparator c)
                (m_iterations c) false).

(** ** The states of [login] between two lines *)

(** Nothing was given; [i] is the option it waits for. *)
Definition rested (i : Z) (c : command) : Prop := exists v0 v1 st r n, c = running i (login_options v0 0 false v1 0 false) st r n.

(** The name was given. *)
Definition asks_password (u : list Z) (c : command) : Prop :=
  exists v1 st r n, c = running 1 (login_options (Some (Held (u ++ [0; 0]))) (zlen u) true v1 0 false) st r n.

(** At one of its prompts; [n] is the name it holds. *)
Definition asks (n : option (list Z)) (c : command) : Prop := match n with None => rested 0 c | Some u => u <> [] /\ asks_password u c end.

(** The name held after a line: none, the one before, or the line. *)
Definition next_name (n : option (list Z)) (line : list Z) (n' : option (list Z)) : Prop := n' = None \/ n' = n \/ n' = Some line.

(** What a line does to it; what is tried is the name it holds and the line. *)
Inductive login_step {B R} `{iFileSystem B} (w : world B R) (n : option (list Z)) (line : list Z) : cmd_result -> command -> world B R -> Prop :=
  | step_prompt n' c : asks n' c -> next_name n line n' -> login_step w n line CMD_RESULT_INCOMPLETE c w
  | step_break c : rested (-1) c -> login_step w n line CMD_RESULT_ABORTED c w
  | step_refused c : rested 0 c -> login_step w n line CMD_RESULT_WRONG_CREDENTIAL c w
  | step_tried u ok c w' : n = Some u -> try_login w (until_nul u) (until_nul line) = Some (ok, w') -> rested (if ok then -1 else 0) c ->
      login_step w n line (login_result ok) c w'.

Definition stale_value (same : bool) (v : option value) : option value :=
  match v with Some (Arg off) => if same then v else Some Stale | _ => v end.

Lemma stale_running same i v0 n0 h0 v1 n1 h1 st r n :
  stale same (running i (login_options v0 n0 h0 v1 n1 h1) st r n) = running i (login_options (stale_value same v0) n0 h0 (stale_value same v1) n1 h1) st r n.
Proof. by destruct v0 as [[]|], v1 as [[]|], same. Qed.

Lemma strlen_Some b : forall n, strlen b = Some n -> exists s x, b = s ++ 0 :: x /\ no_nul s /\ n = zlen s.
Proof.
  induction b as [|c b IH]; intros n; cbn [strlen]; [done|]. destruct (Z.eqb_spec c 0) as [->|Hc]; [intros [= <-]; exists [], b; split; [done|]; split; [constructor|done]|].
  destruct (strlen b) as [m|]; [|done]. cbn [mbind option_bind]. intros [= <-]. destruct (IH m eq_refl) as (s & x & -> & Hs & ->). exists (c :: s), x. split; [done|]. split; [by constructor|]. rewrite zlen_cons. lia.
Qed.

(** The string in an array into which a value was copied. *)
Lemma c_text_until b : c_text (Some b) = Some (until_nul b) \/ c_text (Some b) = None.
Proof.
  unfold c_text. cbn [mbind option_bind]. destruct (strlen b) as [n|] eqn:E; [|by right]. left. apply strlen_Some in E as (s & x & -> & Hs & ->). cbn [mbind option_bind].
  rewrite (msub_app_mid [] s (0 :: x) : msub (s ++ 0 :: x) 0 (zlen s) = Some s). f_equal. induction Hs as [|c s Hc _ IH]; [done|]. cbn [app until_nul]. destruct (Z.eqb_spec c 0); [done|]. by f_equal.
Qed.

Lemma until_nul_pad s m : until_nul (s ++ replicate m 0) = until_nul s.
Proof. induction s as [|c s IH]; cbn [app until_nul]; [by destruct m|]. destruct (c =? 0); [done|]. by f_equal. Qed.

Lemma copied_text args o v b t : optionvalsize o = zlen v -> option_bytes args o (zlen v) = Some v -> copy_value false LOGIN_CONFIGS_BUF_SIZE args o = Some b ->
  c_text (Some b) = Some t -> t = until_nul v.
Proof.
  intros Hz Hv. unfold copy_value. rewrite Hz, Hv. cbn [mbind option_bind]. unfold mcpy. destruct (_ && _); [|done]. intros <-%(inj Some) Ht.
  match type of Ht with c_text (Some ?b) = _ => destruct (c_text_until b) as [E|E] end; rewrite E in Ht; [|done].
  apply (inj Some) in Ht as <-. change (take (Z.to_nat 0) _) with (@nil Z). cbn [app]. rewrite drop_replicate. apply until_nul_pad.
Qed.

Lemma clear_login i v0 n0 h0 v1 n1 st r n : (h0 = true -> exists b, v0 = Some (Held b)) ->
  ClearOptions false (running i (login_options v0 n0 h0 v1 n1 false) st r n) = Some (running i (login_options None 0 false None 0 false) st r n).
Proof.
  intros Hh. unfold ClearOptions. cbn [running set_state set_waiting set_options m_options login_options mapM]. unfold option_Clear at 1. cbn [optionval holdingoptn optionvalsize opt_name].
  destruct h0; [destruct (Hh eq_refl) as [b ->]; cbn; by destruct v1 as [[]|]|]. destruct v0 as [[]|]; cbn; by destruct v1 as [[]|].
Qed.

Lemma retrieve_empty c v0 h0 v1 h1 : m_options c = login_options v0 0 h0 v1 0 h1 -> RetrieveOption c (Some [117; 0]) = Some None /\ RetrieveOption c (Some [112; 0]) = Some None.
Proof.
  intros E. unfold RetrieveOption. rewrite E. cbn [login_options option_loop negb orb optionval optionvalsize no_option]. change (0 >? 0) with false. rewrite !andb_false_r. done.
Qed.

Lemma retrieve_no_password c v0 n0 h0 v1 h1 : m_options c = login_options v0 n0 h0 v1 0 h1 -> RetrieveOption c (Some [112; 0]) = Some None.
Proof.
  intros E. unfold RetrieveOption. rewrite E. cbn [login_options option_loop negb orb optionval optionvalsize no_option]. change (0 >? 0) with false. rewrite !andb_false_r.
  change (StrOps.are_str_equals (Some (opt_name (mkOption [117; 0; 0] v0 n0 h0))) (Some [112; 0]) CMD_OPTION_SIZE_MAX) with (Some false). cbn [mbind option_bind]. by destruct (_ && _).
Qed.

(** [login] waits for one of its options again. *)
Lemma wait_login i os st r n o j : letters os login_letters -> o <> 0 -> letter_index login_letters o 0 = j -> setWaitingForOption (running i os st r n) (Some [o]) = Some (running j os st r n).
Proof.
  intros Hl Ho Hj. unfold setWaitingForOption. cbn [fmap option_fmap option_map app]. rewrite (option_index_letters (running i os st r n) login_letters o []) by done. by rewrite Hj.
Qed.

Section login_steps.
Context {B R : Type} `{iFileSystem B}.
Variable (w : world B R).
Hypothesis (Hw : authorized w = false).

Lemma execute_no_name args inseq v0 v1 st r n : let os := login_options v0 0 false v1 0 false in
  LoginCommand_execute args inseq (running (-1) os st r n) w = Some (CMD_RESULT_INCOMPLETE, running 0 os st r n, w).
Proof.
  intros os. unfold LoginCommand_execute, retrieve. rewrite Hw. unfold CMD_OPTION_NAME_U, CMD_OPTION_NAME_P. cbn [app]. destruct (retrieve_empty (running (-1) os st r n) v0 false v1 false eq_refl) as [-> ->].
  cbn [mbind option_bind]. by rewrite (wait_login (-1) os st r n 117 0) by (done || apply login_options_letters).
Qed.

Lemma execute_name args inseq x h0 v1 st r n u res c w' : u <> [] -> (h0 = false /\ value_bytes args x (zlen u) = Some u \/ h0 = true /\ x = Held (u ++ [0; 0])) ->
  LoginCommand_execute args inseq (running (-1) (login_options (Some x) (zlen u) h0 v1 0 false) st r n) w = Some (res, c, w') ->
  let os := login_options (Some (Held (u ++ [0; 0]))) (zlen u) true v1 0 false in
  w' = w /\ if is_break inseq then res = CMD_RESULT_ABORTED /\ c = running 0 os st r n else res = CMD_RESULT_INCOMPLETE /\ c = running 1 os st r n.
Proof.
  intros Hu Hx. assert (0 < zlen u) as Hz by (destruct u; [done|rewrite zlen_cons; pose proof (zlen_nonneg u); lia]). set (c0 := running _ _ _ _ _).
  unfold LoginCommand_execute, retrieve. rewrite Hw. unfold CMD_OPTION_NAME_U, CMD_OPTION_NAME_P. cbn [app]. rewrite (retrieve_u c0 x (zlen u) h0 v1 0 false eq_refl Hz). cbn [mbind option_bind].
  rewrite (retrieve_no_password c0 (Some x) (zlen u) h0 v1 false eq_refl). cbn [mbind option_bind]. destruct (copy_value _ _ _ _); [|done]. cbn [mbind option_bind].
  set (os := login_options (Some (Held (u ++ [0; 0]))) (zlen u) true v1 0 false). intros E. assert (hold_named args [117] c0 = Some (running (-1) os st r n)) as Eh.
  { unfold hold_named. cbn [app]. rewrite (option_index_letters c0 login_letters 117 []) by (done || apply login_options_letters). cbn [mbind option_bind].
    unfold holdOptionValue. change (negb (letter_index login_letters 117 0 =? -1) && _) with true. cbv iota.
    change (m_options c0 !! Z.to_nat _) with (Some (mkOption [117; 0; 0] (Some x) (zlen u) h0)). cbn [mbind option_bind]. unfold holdOption. cbn [optionval holdingoptn optionvalsize].
    destruct Hx as [[-> Hb]|[-> ->]]; cbn [negb andb]; [|done]. destruct (Z.eqb_spec (zlen u) 0); [lia|]. cbn [negb]. by rewrite Hb. }
  rewrite Eh in E. cbn [mbind option_bind] in E.
  rewrite (wait_login (-1) os st r n 117 0), (wait_login (-1) os st r n 112 1) in E by (done || apply login_options_letters). destruct (is_break inseq); by simplify_eq/=.
Qed.

Lemma execute_both args inseq x h0 y st r n (u pw : list Z) res c w' : u <> [] -> pw <> [] -> value_bytes args x (zlen u) = Some u -> value_bytes args y (zlen pw) = Some pw ->
  let os := login_options (Some x) (zlen u) h0 (Some y) (zlen pw) false in
  LoginCommand_execute args inseq (running (-1) os st r n) w = Some (res, c, w') ->
  exists ok, res = login_result ok /\ c = running (if ok : bool then -1 else 0) os st r n /\ (w' = w /\ ok = false \/ try_login w (until_nul u) (until_nul pw) = Some (ok, w')).
Proof.
  intros Hu Hp Hx Hy os. assert (0 < zlen u) as Hz by (destruct u; [done|rewrite zlen_cons; pose proof (zlen_nonneg u); lia]).
  assert (0 < zlen pw) as Hpz by (destruct pw; [done|rewrite zlen_cons; pose proof (zlen_nonneg pw); lia]). set (c0 := running _ _ _ _ _).
  unfold LoginCommand_execute, retrieve. rewrite Hw. unfold CMD_OPTION_NAME_U, CMD_OPTION_NAME_P. cbn [app]. rewrite (retrieve_u c0 x (zlen u) h0 (Some y) (zlen pw) false eq_refl Hz). cbn [mbind option_bind].
  rewrite (retrieve_p c0 (Some x) (zlen u) h0 (Some y) (zlen pw) false eq_refl) by done. cbn [mbind option_bind].
  destruct (copy_value _ _ _ _) as [ub|] eqn:Eu; [|done]. cbn [mbind option_bind]. destruct (copy_value _ _ _ (mkOption [112; 0; 0] _ _ _)) as [pb|] eqn:Epb; [|done]. cbn [mbind option_bind].
  destruct (c_text (Some ub)) as [nm|] eqn:Et1; [|done]. cbn [mbind option_bind]. assert (nm = until_nul u) as -> by (by apply (copied_text args (mkOption [117; 0; 0] (Some x) (zlen u) h0) u ub nm eq_refl Hx Eu Et1)).
  assert (setWaitingForOption c0 (Some [117]) = Some (running 0 os st r n)) as Ew by (apply wait_login; done || apply login_options_letters). rewrite Ew.
  case_bool_decide; [intros [= <- <- <-]; exists false; by auto|]. destruct (c_text (Some pb)) as [p|] eqn:Et2; [|done]. cbn [mbind option_bind].
  assert (p = until_nul pw) as -> by (by apply (copied_text args (mkOption [112; 0; 0] (Some y) (zlen pw) false) pw pb p eq_refl Hy Epb Et2)).
  case_bool_decide; [intros [= <- <- <-]; exists false; by auto|]. destruct (try_login w _ _) as [[ok w2]|] eqn:Et; [|done]. cbn [mbind option_bind].
  destruct ok; intros [= <- <- <-]; [exists true|exists false]; (split; [done|]; split; [done|]; by right).
Qed.

(** A break at the end of a run. *)
Lemma executeCommand_broken same c args len inseq c1 res i v0 n0 h0 v1 n1 st r n w2 : is_break inseq = true -> (h0 = true -> exists b, v0 = Some (Held b)) ->
  take_line (set_result CMD_RESULT_MAX (stale same c)) len = Some c1 -> m_result c1 = CMD_RESULT_OK ->
  LoginCommand_execute args inseq (set_state CMD_STATUS_ACTIVE CMD_RESULT_OK (m_iterations c1) c1) w = Some (res, running i (login_options v0 n0 h0 v1 n1 false) st r n, w2) ->
  Command.executeCommand LoginCommand_execute base_action same c (Some args) len true inseq w =
    Some (CMD_RESULT_ABORTED, running (-1) (login_options None 0 false None 0 false) CMD_STATUS_INACTIVE CMD_RESULT_ABORTED 0, Some args, w2).
Proof.
  intros Hb Hh Ht Hr He. unfold Command.executeCommand, run_parsed. cbn zeta. rewrite Ht. cbn [mbind option_bind]. rewrite Hr, bool_decide_eq_true_2 by done. change (default [] (Some args)) with args.
  rewrite He. cbn [mbind option_bind]. assert (negb (bool_decide (inseq = CMD_TERM_INSEQ_NONE)) && negb (bool_decide (inseq = CMD_TERM_INSEQ_MAX)) = true) as -> by (by destruct inseq).
  unfold base_action, executeTermInputAction. unfold is_break in Hb. rewrite Hb.
  match goal with |- context [ClearOptions false (set_state CMD_STATUS_INACTIVE ?a ?b ?x)] =>
    change (set_state CMD_STATUS_INACTIVE a b x) with (running i (login_options v0 n0 h0 v1 n1 false) CMD_STATUS_INACTIVE a b) at 1 end.
  rewrite clear_login by done. cbn [mbind option_bind]. done.
Qed.

(** A run without a break, when the command had no more to ask. *)
Lemma executeCommand_done same c args len inseq c1 res i v0 n0 h0 v1 n1 st r n w2 : is_break inseq = false -> (h0 = true -> exists b, v0 = Some (Held b)) -> res <> CMD_RESULT_INCOMPLETE ->
  take_line (set_result CMD_RESULT_MAX (stale same c)) len = Some c1 -> m_result c1 = CMD_RESULT_OK ->
  LoginCommand_execute args inseq (set_state CMD_STATUS_ACTIVE CMD_RESULT_OK (m_iterations c1) c1) w = Some (res, running i (login_options v0 n0 h0 v1 n1 false) st r n, w2) ->
  Command.executeCommand LoginCommand_execute base_action same c (Some args) len true inseq w =
    Some (res, running i (login_options None 0 false None 0 false) CMD_STATUS_INACTIVE res 0, Some args, w2).
Proof.
  intros Hb Hh Hres Ht Hr He. erewrite executeCommand_runs; [|cbn zeta; by rewrite Ht|done|exact He|done]. cbn zeta. rewrite bool_decide_eq_false_2 by done.
  match goal with |- context [ClearOptions false (set_state CMD_STATUS_INACTIVE ?a ?b ?x)] =>
    change (set_state CMD_STATUS_INACTIVE a b x) with (running i (login_options v0 n0 h0 v1 n1 false) CMD_STATUS_INACTIVE a b) end.
  by rewrite clear_login.
Qed.

Lemma executeCommand_fails same c args len inseq c1 : take_line (set_result CMD_RESULT_MAX (stale same c)) len = Some c1 -> m_result c1 = CMD_RESULT_OK ->
  LoginCommand_execute args inseq (set_state CMD_STATUS_ACTIVE CMD_RESULT_OK (m_iterations c1) c1) w = None ->
  Command.executeCommand LoginCommand_execute base_action same c (Some args) len true inseq w = None.
Proof.
  intros Ht Hr He. unfold Command.executeCommand, run_parsed. cbn zeta. rewrite Ht. cbn [mbind option_bind]. rewrite Hr, bool_decide_eq_true_2 by done. change (default [] (Some args)) with args. by rewrite He.
Qed.

Lemma executeCommand_asks same c args len inseq c1 c2 w2 : is_break inseq = false ->
  take_line (set_result CMD_RESULT_MAX (stale same c)) len = Some c1 -> m_result c1 = CMD_RESULT_OK ->
  LoginCommand_execute args inseq (set_state CMD_STATUS_ACTIVE CMD_RESULT_OK (m_iterations c1) c1) w = Some (CMD_RESULT_INCOMPLETE, c2, w2) ->
  Command.executeCommand LoginCommand_execute base_action same c (Some args) len true inseq w =
    Some (CMD_RESULT_INCOMPLETE, set_state (m_status c2) CMD_RESULT_INCOMPLETE (u16 (m_iterations c2 + 1)) c2, Some args, w2).
Proof.
  intros Hb Ht Hr He. erewrite executeCommand_runs; [|cbn zeta; by rewrite Ht|done|exact He|done]. cbn zeta. by rewrite bool_decide_eq_true_2.
Qed.

(** At the prompt for the name. *)
Lemma name_step same c line slack inseq res c' args' w' : rested 0 c -> (is_break inseq = true -> line = []) ->
  Command.executeCommand LoginCommand_execute base_action same c (Some (line ++ 0 :: slack)) (zlen line) true inseq w = Some (res, c', args', w') ->
  args' = Some (line ++ 0 :: slack) /\ login_step w None line res c' w'.
Proof.
  intros (v0 & v1 & st & r & n & ->) Hbr E. set (c := running 0 (login_options v0 0 false v1 0 false) st r n) in *. set (os := login_options (Some (Arg 0)) (zlen line) false (stale_value same v1) 0 false).
  assert (take_line (set_result CMD_RESULT_MAX (stale same c)) (zlen line) = Some (running (-1) os st CMD_RESULT_OK n)) as Ht by (unfold c; rewrite stale_running; reflexivity).
  destruct (decide (line = [])) as [->|Hl].
  - change (zlen []) with 0 in *. pose proof (execute_no_name ([] ++ 0 :: slack) inseq (Some (Arg 0)) (stale_value same v1) CMD_STATUS_ACTIVE CMD_RESULT_OK n) as He. destruct (is_break inseq) eqn:Hb.
    + erewrite executeCommand_broken in E; [|done| |exact Ht|done|exact He]; [|discriminate]. injection E as <- <- <- <-. split; [done|]. apply step_break. by eexists _, _, _, _, _.
    + erewrite executeCommand_asks in E; [|done|exact Ht|done|exact He]. injection E as <- <- <- <-. split; [done|]. apply (step_prompt w None [] None); [|by left]. by eexists _, _, _, _, _.
  - assert (is_break inseq = false) as Hb by (destruct (is_break inseq); [by specialize (Hbr eq_refl)|done]).
    destruct (LoginCommand_execute (line ++ 0 :: slack) inseq (running (-1) os CMD_STATUS_ACTIVE CMD_RESULT_OK n) w) as [[[res1 c2] w2]|] eqn:He.
    2:{ by erewrite executeCommand_fails in E; [|exact Ht|done|exact He]. }
    assert (value_bytes (line ++ 0 :: slack) (Arg 0) (zlen line) = Some line) as Hv by (apply (msub_app_mid [] line)).
    destruct (execute_name (line ++ 0 :: slack) inseq (Arg 0) false (stale_value same v1) CMD_STATUS_ACTIVE CMD_RESULT_OK n line res1 c2 w2 Hl ltac:(by left) He) as [-> Hc].
    rewrite Hb in Hc. destruct Hc as [-> ->]. erewrite executeCommand_asks in E; [|done|exact Ht|done|exact He]. injection E as <- <- <- <-. split; [done|]. apply (step_prompt w None line (Some line)); [|by right; right].
    split; [done|]. by eexists _, _, _, _.
Qed.

(** At the prompt for the password. *)
Lemma password_step same u c line slack inseq res c' args' w' : u <> [] -> asks_password u c -> (is_break inseq = true -> line = []) ->
  Command.executeCommand LoginCommand_execute base_action same c (Some (line ++ 0 :: slack)) (zlen line) true inseq w = Some (res, c', args', w') ->
  args' = Some (line ++ 0 :: slack) /\ login_step w (Some u) line res c' w'.
Proof.
  intros Hu (v1 & st & r & n & ->) Hbr E. set (c := running _ _ _ _ _) in *. set (os := login_options (Some (Held (u ++ [0; 0]))) (zlen u) true (Some (Arg 0)) (zlen line) false).
  assert (take_line (set_result CMD_RESULT_MAX (stale same c)) (zlen line) = Some (running (-1) os st CMD_RESULT_OK n)) as Ht by (unfold c; rewrite stale_running; reflexivity).
  destruct (LoginCommand_execute (line ++ 0 :: slack) inseq (running (-1) os CMD_STATUS_ACTIVE CMD_RESULT_OK n) w) as [[[res1 c2] w2]|] eqn:He.
  2:{ by erewrite executeCommand_fails in E; [|exact Ht|done|exact He]. }
  assert (Hheld : true = true -> exists b, Some (Held (u ++ [0; 0])) = Some (Held b)) by (intros _; by eexists). destruct (decide (line = [])) as [->|Hl].
  - destruct (execute_name ([] ++ 0 :: slack) inseq (Held (u ++ [0; 0])) true (Some (Arg 0)) CMD_STATUS_ACTIVE CMD_RESULT_OK n u res1 c2 w2 Hu ltac:(by right) He) as [-> Hc].
    destruct (is_break inseq) eqn:Hb; destruct Hc as [-> ->].
    + erewrite executeCommand_broken in E; [|done| |exact Ht|done|exact He]; [|exact Hheld]. injection E as <- <- <- <-. split; [done|]. apply step_break. by eexists _, _, _, _, _.
    + erewrite executeCommand_asks in E; [|done|exact Ht|done|exact He]. injection E as <- <- <- <-. split; [done|]. apply (step_prompt w (Some u) [] (Some u)); [|by right; left]. split; [done|]. by eexists _, _, _, _.
  - assert (is_break inseq = false) as Hb by (destruct (is_break inseq); [by specialize (Hbr eq_refl)|done]).
    destruct (execute_both (line ++ 0 :: slack) inseq (Held (u ++ [0; 0])) true (Arg 0) CMD_STATUS_ACTIVE CMD_RESULT_OK n u line res1 c2 w2 Hu Hl
      ltac:(by apply (msub_app_mid [] u)) ltac:(by apply (msub_app_mid [] line)) He) as (ok & -> & -> & Hok).
    erewrite executeCommand_done in E; [|done| | |exact Ht|done|exact He]; [|exact Hheld|by destruct ok]. injection E as <- <- <- <-. split; [done|].
    destruct Hok as [[-> ->]|Et]; [apply step_refused; by eexists _, _, _, _, _|]. eapply step_tried; [done|exact Et|]. by eexists _, _, _, _, _.
Qed.

Lemma asks_step same n c line slack inseq res c' args' w' : asks n c -> (is_break inseq = true -> line = []) ->
  Command.executeCommand LoginCommand_execute base_action same c (Some (line ++ 0 :: slack)) (zlen line) true inseq w = Some (res, c', args', w') ->
  args' = Some (line ++ 0 :: slack) /\ login_step w n line res c' w'.
Proof. destruct n as [u|]; [intros [Hu Hc]; by apply password_step|apply name_step]. Qed.

(** The option of the name points to the line and is marked as held. *)
Lemma name_not_held same i z v1 st r n line slack inseq : 0 < z -> line <> [] -> is_break inseq = false ->
  Command.executeCommand LoginCommand_execute base_action same (running 1 (login_options (Some (Arg i)) z true v1 0 false) st r n) (Some (line ++ 0 :: slack)) (zlen line) true inseq w = None.
Proof.
  intros Hz Hl Hb. assert (0 < zlen line) as Hp by (destruct line; [done|rewrite zlen_cons; pose proof (zlen_nonneg line); lia]).
  set (v0 := if same then Arg i else Stale). set (os := login_options (Some v0) z true (Some (Arg 0)) (zlen line) false).
  assert (take_line (set_result CMD_RESULT_MAX (stale same (running 1 (login_options (Some (Arg i)) z true v1 0 false) st r n))) (zlen line) = Some (running (-1) os st CMD_RESULT_OK n)) as Ht
    by (rewrite stale_running; unfold os, v0; by destruct same).
  destruct (LoginCommand_execute (line ++ 0 :: slack) inseq (running (-1) os CMD_STATUS_ACTIVE CMD_RESULT_OK n) w) as [[[res c2] w2]|] eqn:He; [|by eapply executeCommand_fails].
  assert (exists j, c2 = running j os CMD_STATUS_ACTIVE CMD_RESULT_OK n /\ res <> CMD_RESULT_INCOMPLETE) as (j & -> & Hres).
  { revert He. unfold LoginCommand_execute, retrieve. rewrite Hw. unfold CMD_OPTION_NAME_U, CMD_OPTION_NAME_P. cbn [app]. set (c0 := running _ _ _ _ _).
    rewrite (retrieve_u c0 v0 z true (Some (Arg 0)) (zlen line) false eq_refl Hz), (retrieve_p c0 (Some v0) z true (Some (Arg 0)) (zlen line) false eq_refl) by done. cbn [mbind option_bind].
    destruct (copy_value _ _ _ _) as [ub|]; [|done]. cbn [mbind option_bind]. destruct (copy_value _ _ _ (mkOption [112; 0; 0] _ _ _)) as [pb|]; [|done]. cbn [mbind option_bind].
    destruct (c_text (Some ub)) as [nm|]; [|done]. cbn [mbind option_bind]. destruct (if bool_decide (nm = []) then _ else _) as [[ok w3]|]; [|done]. cbn [mbind option_bind].
    assert (setWaitingForOption c0 (Some [117]) = Some (running 0 os CMD_STATUS_ACTIVE CMD_RESULT_OK n)) as -> by (apply wait_login; done || apply login_options_letters).
    destruct ok; intros [= <- <- <-]; by eexists. }
  erewrite executeCommand_runs; [|cbn zeta; by rewrite Ht|done|exact He|done]. cbn zeta. rewrite bool_decide_eq_false_2 by done.
  assert (option_Clear false (mkOption [117; 0; 0] (Some v0) z true) = None) as Ec.
  { unfold option_Clear. cbn [optionval holdingoptn optionvalsize]. destruct (Z.eqb_spec z 0); [lia|]. unfold v0. by destruct same. }
  unfold ClearOptions. cbn [set_state running set_waiting set_options m_options os login_options mapM]. by rewrite Ec.
Qed.

End login_steps.

(** ** Sessions that nobody logged in to *)

(** The terminal [t] has the session [k], which is not authorised. *)
Definition sits (t k : nat) (m : manager) : Prop :=
  findByTerminal m (Some t) = Some k /\ exists s, m_sessions m !! k = Some s /\ is_free s = false /\ m_isAuthorized (m_identity s) = false.

Lemma slot_loop_update f k s s' ss : forall i, ss !! k = Some s -> f s' = f s -> slot_loop f (<[k := s']> ss) i = slot_loop f ss i.
Proof.
  revert k. induction ss as [|a ss IH]; intros k i Hk Hf; [done|]. destruct k as [|k]; cbn in *; [injection Hk as ->; by rewrite Hf|]. by rewrite IH.
Qed.

(** A session that is kept in its place and is not authorised. *)
Lemma sits_update t k m s s' : sits t k m -> m_sessions m !! k = Some s -> same_place s s' -> m_isAuthorized (m_identity s') = false -> sits t k (update m k s').
Proof.
  intros (Hf & s0 & Hs0 & Hfree & _) Hs (Hi & Hst & Ht) Ha. assert (s0 = s) as -> by congruence. split.
  - unfold findByTerminal in *. cbn [update m_sessions]. rewrite (slot_loop_update _ k s s'); [done|done|]. unfold is_free. by rewrite Hst, Ht.
  - exists s'. cbn [update m_sessions]. rewrite list_lookup_insert_eq by (by eapply lookup_lt_Some). split; [done|]. split; [|done]. unfold is_free in *. by rewrite Hst.
Qed.

Section gate.
Context {B R : Type} `{iFileSystem B}.
Variables (registry : list (command_class B R)) (items : world B R -> path -> list Z -> option (Z * list path)) (tmp : list Z).

(** The same, when it is the current one. *)
Definition here (t k : nat) (w : world B R) : Prop := sits t k (w_sessions w) /\ m_current (w_sessions w) = Some k.

Lemma here_current t k w : here t k w -> authorized w = false /\ current_index w = Some k.
Proof.
  intros ((_ & s & Hs & Hf & Ha) & Hc). unfold authorized, getAuthorized, current_index, current. rewrite Hc. cbn [mbind option_bind]. rewrite Hs. cbn [mbind option_bind]. rewrite Hf. done.
Qed.

Lemma here_editor t k w e : here t k w -> here t k (put_editor k e w) /\ editor_of k (put_editor k e w) = Some e.
Proof.
  intros (Hs & Hc). pose proof Hs as (_ & s & Hk & _ & Ha). unfold put_editor, editor_of. rewrite Hk. cbn [set_sessions w_sessions]. split.
  - split; [|done]. by apply (sits_update t k _ s).
  - cbn [update m_sessions]. rewrite list_lookup_insert_eq by (by eapply lookup_lt_Some). done.
Qed.

Lemma here_fs t k v w : here t k w -> here t k (set_fs v w).
Proof. done. Qed.

Lemma refused_here t k w u pw w' : here t k w -> try_login w u pw = Some (false, w') -> here t k w'.
Proof.
  intros Hh. unfold try_login, login. destruct (isAuthorized _ _ _ _ _ _ _) as [[[ok v] a]|]; [|done]. cbn [mbind option_bind]. destruct ok; cbn [mbind option_bind].
  - by destruct (setAuthorized _ _ _ _ _ _) as [[? ?]|].
  - intros [= <-]. done.
Qed.

Lemma ensure_here t k w w' : here t k w -> ensure_history w = Some w' -> here t k w'.
Proof.
  intros Hh. unfold ensure_history. destruct (Vfs.isFileExist _ _) as [[]|]; [by intros [= <-]| |done]. cbn [mbind option_bind].
  destruct (Vfs.createFile _ _ _ _ _) as [[? ?]|]; [|done]. cbn [mbind option_bind]. by intros [= <-].
Qed.

(** What happens to the world before a login at the terminal [t], whose session is [k]: the
    line of that session is edited, the session is selected, the file of the history is
    created, a login is refused. *)
Inductive typed (t k : nat) (w : world B R) : world B R -> Prop :=
  | typed_line e : typed t k w (put_editor k e w)
  | typed_select now : typed t k w (set_sessions (select (w_sessions w) (Some t) now).2 w)
  | typed_history w' : ensure_history w = Some w' -> typed t k w w'
  | typed_refused u pw w' : try_login w u pw = Some (false, w') -> typed t k w w'.

(** A login with this name and this password was accepted on the way. *)
Definition accepted (t k : nat) (u pw : list Z) (w w' : world B R) : Prop :=
  exists w1 w2, rtc (typed t k) w w1 /\ try_login w1 u pw = Some (true, w2) /\ rtc (typed t k) w2 w'.

(** ** The list of commands *)

(** The class stops a command without touching what it waits for. *)
Definition stops_ok (c : command_class B R) : Prop :=
  forall x, m_cmd (cls_stop c x) = m_cmd x /\ m_waitingoptionindx (cls_stop c x) = m_waitingoptionindx x.

(** A command that does not get the input of the session: one of another session, or one
    that does not wait. *)
Definition quiet (k : nat) (a : active B R) : Prop :=
  a_owner a <> Some k \/ isWaiting (a_cmd a) = false /\ isValidCommand (a_cmd a) (Some (CMD_NAME_LOGIN ++ [0])) = Some false /\ stops_ok (a_class a).

(** The first command of the session that waits is a [login], which holds the name [n]. *)
Definition guards (k : nat) (n : option (list Z)) (l : list (active B R)) : Prop :=
  exists l1 c l2, l = l1 ++ mkActive login_class c (Some k) :: l2 /\ asks n c /\ Forall (quiet k) l1.

Lemma asks_waits n c : asks n c -> isWaiting c = true.
Proof. destruct n; [intros (_ & v1 & st & r & m & ->)|intros (v0 & v1 & st & r & m & ->)]; done. Qed.

Lemma running_valid i os st r n : isValidCommand (running i os st r n) (Some (CMD_NAME_LOGIN ++ [0])) = Some true.
Proof. by vm_compute. Qed.

Lemma quiet_index k l1 a l2 : Forall (quiet k) l1 -> waits_for (Some k) a = true -> forall i, index_of (waits_for (Some k)) (l1 ++ a :: l2) i = Some (i + length l1)%nat.
Proof.
  intros Hq Ha. induction Hq as [|b l1 Hb _ IH]; intros i; cbn [app index_of length]; [rewrite Ha; f_equal; lia|].
  assert (waits_for (Some k) b = false) as ->. { unfold waits_for. destruct Hb as [Hb|(Hb & _)]; [by rewrite bool_decide_eq_false_2|rewrite Hb; by rewrite andb_false_r]. }
  rewrite IH. f_equal. lia.
Qed.

Lemma quiet_named k l1 a l2 : Forall (quiet k) l1 -> a_owner a = Some k -> isValidCommand (a_cmd a) (Some (CMD_NAME_LOGIN ++ [0])) = Some true ->
  forall i, named_index (Some k) (CMD_NAME_LOGIN ++ [0]) (l1 ++ a :: l2) i = Some (Some (i + length l1)%nat).
Proof.
  intros Hq Ho Ha. induction Hq as [|b l1 Hb _ IH]; intros i; cbn [app named_index length].
  - rewrite bool_decide_eq_true_2 by done. rewrite Ha. cbn [mbind option_bind]. do 2 f_equal. lia.
  - case_bool_decide as Eo; [destruct Hb as [?|(_ & Hb & _)]; [done|]; rewrite Hb; cbn [mbind option_bind]|]; rewrite IH; do 2 f_equal; lia.
Qed.

Lemma alter_mid {A} (f : A -> A) l1 a l2 : alter f (length l1) (l1 ++ a :: l2) = l1 ++ f a :: l2.
Proof. induction l1 as [|b l1 IH]; cbn; [done|]. by f_equal. Qed.

Lemma lookup_mid {A} (l1 : list A) a l2 : (l1 ++ a :: l2) !! length l1 = Some a.
Proof. by apply list_lookup_middle. Qed.

Lemma clean_guards k n l1 c l2 : Forall (quiet k) l1 -> asks n c -> guards k n (clean_up (l1 ++ mkActive login_class c (Some k) :: l2)).
Proof.
  intros Hq Hc. unfold clean_up. rewrite filter_app, filter_cons_True by (cbn [a_cmd]; by rewrite (asks_waits n c Hc)). eexists _, c, _. split; [done|]. split; [done|].
  apply Forall_forall. intros x Hx. apply list_elem_of_filter in Hx as [_ Hx]. by apply (Forall_forall (quiet k) l1).
Qed.

Lemma stop_quiet k cur l1 : Forall (quiet k) l1 -> Forall (quiet k) (stop_background cur l1).
Proof.
  intros Hq. unfold stop_background. apply Forall_map. eapply Forall_impl; [exact Hq|]. intros b Hb. cbv beta. destruct (_ && _); [|done]. destruct Hb as [Hb|(Hw & Hv & Hs)]; [by left|].
  right. cbn [a_cmd a_class]. destruct (Hs (a_cmd b)) as [Em Ew]. unfold isWaiting, isValidCommand in *. by rewrite Em, Ew.
Qed.

(** ** The prompt *)

Lemma start_world st st' : startInteraction registry st = Some st' -> s_world st' = s_world st /\ s_terminal st' = s_terminal st.
Proof.
  unfold startInteraction. destruct (s_terminal st) eqn:Et; [|by intros [= <-]]. destruct (getActiveCommandByName st _) as [li|]; [|done]. cbn [mbind option_bind].
  assert (forall r st1, (match li with Some i => Some (Some i, st) | None => getCommandToExecute registry st (CMD_NAME_LOGIN ++ [0]) end) = Some (r, st1) ->
    s_world st1 = s_world st /\ s_terminal st1 = s_terminal st) as Hg.
  { intros r st1. destruct li; [by intros [= <- <-]|]. unfold getCommandToExecute. destruct (GetCommand _ _) as [[c|]|]; [|..|done]; by intros [= <- <-]. }
  destruct (match li with Some i => _ | None => _ end) as [[r st1]|]; [|done]. destruct (Hg r st1 eq_refl) as [Ew Es]. cbn [mbind option_bind].
  destruct r as [i|]; [|by intros [= <-]; rewrite Ew, Es]. destruct (m_cmdlist st1 !! i) as [a|]; [|done]. cbn [mbind option_bind].
  destruct (authorized _); [destruct (isWaiting _); [destruct (setWaitingForOption _ _)|]|destruct (setWaitingForOption _ _)]; cbn [mbind option_bind]; try done; intros [= <-]; by rewrite <- Ew, <- Et, <- Es || (cbn; rewrite Ew, Es).
Qed.

(** A [login] that rests is asked for the name again. *)
Lemma start_asks t k st l1 l2 i c x : s_terminal st = Some x -> here t k (s_world st) -> m_cmdlist st = l1 ++ mkActive login_class c (Some k) :: l2 -> Forall (quiet k) l1 -> rested i c ->
  exists c', startInteraction registry st = Some (set_list (l1 ++ mkActive login_class c' (Some k) :: l2) st) /\ rested 0 c'.
Proof.
  intros Ht Hh El Hq (v0 & v1 & st0 & r & n & ->). destruct (here_current t k _ Hh) as [Ha Hc]. unfold startInteraction, getActiveCommandByName. rewrite Ht, Hc, El.
  rewrite quiet_named by (done || apply running_valid). cbn [mbind option_bind Nat.add]. rewrite El, lookup_mid. cbn [mbind option_bind a_cmd]. rewrite Ha.
  rewrite (wait_login i _ st0 r n 117 0) by (done || apply login_options_letters). cbn [mbind option_bind]. unfold set_command. rewrite El, alter_mid. cbn [a_class a_owner].
  eexists. split; [done|]. by eexists _, _, _, _, _.
Qed.

(** ** Running a line *)

(** The [login] of the session gets the line. *)
Lemma run_login slack same t k n st l1 l2 c line inseq res st' : here t k (s_world st) -> m_cmdlist st = l1 ++ mkActive login_class c (Some k) :: l2 -> asks n c ->
  (is_break inseq = true -> line = []) -> run_command slack same k (length l1) line true inseq st = Some (res, st') ->
  exists c' w1 e, login_step (s_world st) n line res c' w1 /\ st' = mkShell (put_editor k e w1) (l1 ++ mkActive login_class c' (Some k) :: l2) (s_terminal st) /\ m_linebuf e = line.
Proof.
  intros Hh El Hc Hb. destruct (here_current t k _ Hh) as [Ha _]. unfold run_command. rewrite El, lookup_mid. cbn [mbind option_bind a_class a_cmd cls_execute cls_action login_class].
  destruct (Command.executeCommand _ _ _ _ _ _ _ _ _) as [[[[res1 c'] args'] w1]|] eqn:E; [|done]. cbn [mbind option_bind].
  destruct (asks_step (s_world st) Ha same n c line slack inseq res1 c' args' w1 Hc Hb E) as [-> Hs]. change (default [] (Some ?a)) with a. rewrite take_app_length.
  destruct (editor_of k w1) as [e|]; [|done]. cbn [mbind option_bind]. intros [= <- <-]. exists c', w1, (set_line line (m_cursor e) e). split; [done|]. split; [|done].
  unfold set_world, set_command, set_list. cbn [m_cmdlist s_terminal]. rewrite El, alter_mid. done.
Qed.

Lemma settle_world ex res st res' st' : settle registry ex res st = Some (res', st') -> s_world st' = s_world st /\ s_terminal st' = s_terminal st.
Proof.
  unfold settle. set (st1 := if _ || _ then _ else _). assert (s_world st1 = s_world st /\ s_terminal st1 = s_terminal st) as [Ew Et] by (unfold st1; by destruct (_ || _)).
  destruct (waits_for_user st1) as [auth|]; [|done]. cbn [mbind option_bind]. destruct (_ || _ || _ || _ || _).
  - destruct (startInteraction registry st1) as [st2|] eqn:Es; [|done]. cbn [mbind option_bind]. intros [= <- <-]. destruct (start_world _ _ Es) as [E1 E2]. cbn. by rewrite E1, E2, Ew, Et.
  - cbn [mbind option_bind]. intros [= <- <-]. cbn. by rewrite Ew, Et.
Qed.

(** After each outcome of [login] but an accepted one, it waits again. *)
Definition waits_after (n : option (list Z)) (line : list Z) (res : cmd_result) (c : command) : Prop :=
  res = CMD_RESULT_INCOMPLETE /\ (exists n', asks n' c /\ next_name n line n') \/ res = CMD_RESULT_ABORTED /\ rested (-1) c \/ res = CMD_RESULT_WRONG_CREDENTIAL /\ rested 0 c.

Lemma settle_guards t k n line st l1 l2 c res x res' st' : s_terminal st = Some x -> here t k (s_world st) -> m_cmdlist st = l1 ++ mkActive login_class c (Some k) :: l2 -> Forall (quiet k) l1 ->
  waits_after n line res c -> settle registry true res st = Some (res', st') -> exists n', next_name n line n' /\ guards k n' (m_cmdlist st').
Proof.
  intros Ht Hh El Hq Hres. unfold settle. destruct Hres as [[-> (n' & Hc & Hn')]|[[-> Hc]|[-> Hc]]].
  - rewrite !bool_decide_eq_false_2 by done. cbn [orb negb]. destruct (waits_for_user st) as [auth|]; [|done]. cbn [mbind option_bind]. rewrite andb_false_r. cbn [mbind option_bind].
    intros [= _ <-]. cbn [set_list m_cmdlist]. rewrite El. exists n'. split; [done|]. by apply clean_guards.
  - cbn [orb negb]. rewrite bool_decide_eq_true_2 by done. cbn [orb]. set (st1 := set_list _ st). destruct (waits_for_user st1) as [auth|]; [|done]. cbn [mbind option_bind]. rewrite orb_true_r. cbn [orb].
    assert (m_cmdlist st1 = stop_background (current_index (s_world st)) l1 ++ mkActive login_class c (Some k) :: stop_background (current_index (s_world st)) l2) as El1.
    { unfold st1, stop_background. cbn [set_list m_cmdlist]. rewrite El, map_app. cbn [map a_owner a_cmd a_class]. destruct Hc as (v0 & v1 & s0 & r & n0 & ->). by rewrite andb_false_r. }
    destruct (start_asks t k st1 _ _ (-1) c x Ht Hh El1 (stop_quiet k _ l1 Hq) Hc) as (c' & -> & Hc'). cbn [mbind option_bind]. intros [= _ <-]. cbn [set_list m_cmdlist].
    exists None. split; [by left|]. apply clean_guards; [by apply stop_quiet|done].
  - rewrite !(bool_decide_eq_false_2 (CMD_RESULT_WRONG_CREDENTIAL = _)) by done. cbn [orb negb]. destruct (waits_for_user st) as [auth|]; [|done]. cbn [mbind option_bind]. rewrite bool_decide_eq_true_2 by done. rewrite andb_true_r.
    destruct (start_asks t k st l1 l2 0 c x Ht Hh El Hq Hc) as (c' & Es & Hc'). destruct auth; [rewrite Es|]; cbn [mbind option_bind]; intros [= _ <-]; cbn [set_list m_cmdlist]; [|rewrite El];
      (exists None; split; [by left|]; apply clean_guards; done).
Qed.

(** What an outcome of [login] means for the world. *)
Lemma login_step_world t k n line w res c w' : here t k w -> login_step w n line res c w' ->
  (rtc (typed t k) w w' /\ here t k w' /\ waits_after n line res c) \/ exists u, n = Some u /\ try_login w (until_nul u) (until_nul line) = Some (true, w').
Proof.
  intros Hh Hs. unfold waits_after. destruct Hs as [n' c Hc Hn|c Hc|c Hc|u ok c w' En Et Hc]; [left; split; [constructor|by eauto 10]..|]. destruct ok; [right; by exists u|]. left.
  split; [by eapply rtc_once, typed_refused|]. split; [by eapply refused_here|by auto].
Qed.

(** The state that is kept. *)
Definition shut (t k : nat) (n : option (list Z)) (st : shell B R) : Prop := sits t k (w_sessions (s_world st)) /\ guards k n (m_cmdlist st).

(** What a run of the [login] of the session leads to, before and after [settle]. *)
Definition outcome (t k : nat) (n : option (list Z)) (line : list Z) (w : world B R) (res : cmd_result) (st : shell B R) : Prop :=
  (rtc (typed t k) w (s_world st) /\ here t k (s_world st) /\ exists l1 c l2, m_cmdlist st = l1 ++ mkActive login_class c (Some k) :: l2 /\ Forall (quiet k) l1 /\ waits_after n line res c)
  \/ exists u, n = Some u /\ accepted t k (until_nul u) (until_nul line) w (s_world st).

Lemma run_outcome slack same t k n w0 st l1 l2 c line inseq res st' : rtc (typed t k) w0 (s_world st) -> here t k (s_world st) -> m_cmdlist st = l1 ++ mkActive login_class c (Some k) :: l2 -> Forall (quiet k) l1 -> asks n c ->
  (is_break inseq = true -> line = []) -> run_command slack same k (length l1) line true inseq st = Some (res, st') -> outcome t k n line w0 res st' /\ s_terminal st' = s_terminal st.
Proof.
  intros Hw0 Hh El Hq Hc Hb E. destruct (run_login slack same t k n st l1 l2 c line inseq res st' Hh El Hc Hb E) as (c' & w1 & e & Hs & -> & _). split; [|done]. unfold outcome. cbn [s_world m_cmdlist].
  destruct (login_step_world t k n line _ _ _ _ Hh Hs) as [(Hr & Hh1 & Ha)|(u & En & Et)].
  - left. split; [etrans; [exact Hw0|]; eapply rtc_r; [exact Hr|constructor]|]. split; [by apply here_editor|]. by exists l1, c', l2.
  - right. exists u. split; [done|]. exists (s_world st), w1. split; [done|]. split; [done|]. apply rtc_once. constructor.
Qed.

Lemma outcome_history t k n line w0 res st w : outcome t k n line w0 res st -> ensure_history (s_world st) = Some w -> outcome t k n line w0 res (set_world w st).
Proof.
  intros Ho Ew. unfold outcome in *. cbn [set_world s_world m_cmdlist]. destruct Ho as [(Hr & Hh & Hl)|(u & En & w1 & w2 & Hr & Et & Hr2)].
  - left. split; [eapply rtc_r; [exact Hr|by apply typed_history]|]. split; [by apply (ensure_here t k _ _ Hh)|done].
  - right. exists u. split; [done|]. exists w1, w2. split; [done|]. split; [done|]. eapply rtc_r; [exact Hr2|by apply typed_history].
Qed.

(** One input, seen from the state before: nobody logged in and the [login] asks again, or
    the name it held and the line were accepted. *)
Definition kept_out (t k : nat) (n : option (list Z)) (line : list Z) (w0 w : world B R) (l : list (active B R)) : Prop :=
  (rtc (typed t k) w0 w /\ here t k w /\ exists n', next_name n line n' /\ guards k n' l) \/
  exists u, n = Some u /\ accepted t k (until_nul u) (until_nul line) w0 w.

Lemma settle_outcome t k n line w0 res st x res' st' : s_terminal st = Some x -> outcome t k n line w0 res st -> settle registry true res st = Some (res', st') ->
  kept_out t k n line w0 (s_world st') (m_cmdlist st').
Proof.
  intros Ht Ho Es. unfold kept_out. destruct (settle_world _ _ _ _ _ Es) as [-> _]. destruct Ho as [(Hr & Hh & l1 & c & l2 & El & Hq & Hc)|Ha]; [left|by right]. split; [done|]. split; [done|].
  by apply (settle_guards t k n line st l1 l2 c res x res' st').
Qed.

Lemma execute_gate slack same t k n st e0 x inseq res st' : s_terminal st = Some x -> here t k (s_world st) -> guards k n (m_cmdlist st) ->
  editor_of k (s_world st) = Some e0 -> (is_break inseq = true -> m_linebuf e0 = []) ->
  executeCommand registry slack same items inseq st = Some (res, st') -> kept_out t k n (m_linebuf e0) (s_world st) (s_world st') (m_cmdlist st').
Proof.
  intros Ht Hh (l1 & c & l2 & El & Hc & Hq) Ee0 Hb. destruct (here_current t k _ Hh) as [Ha Hk]. unfold executeCommand. rewrite Ht, Hk.
  assert (getCommandWaitingForUserInput st = Some (length l1)) as ->.
  { unfold getCommandWaitingForUserInput. rewrite Hk, El. apply (quiet_index k l1 _ l2 Hq). unfold waits_for. cbn [a_owner a_cmd]. rewrite bool_decide_eq_true_2 by done. by apply (asks_waits n). }
  rewrite Ee0. cbn [mbind option_bind]. set (e := set_complete_index (-1) (set_history_index (-1) e0)).
  destruct (here_editor t k (s_world st) e Hh) as [Hh1 He1]. set (st1 := set_world (put_editor k e (s_world st)) st). change (editor_of k (put_editor k e (s_world st))) with (editor_of k (s_world st1)) in He1. rewrite He1. cbn [mbind option_bind].
  assert (rtc (typed t k) (s_world st) (s_world st1)) as Hr1 by (apply rtc_once; constructor). rewrite (bool_decide_eq_true_2 (is_Some _)) by done. cbn [orb].
  change (m_linebuf e) with (m_linebuf e0). case_bool_decide as Hline; [rewrite Hline|].
  - unfold run_empty. destruct (is_some_inseq inseq) eqn:Eq.
    + destruct (run_command slack same k (length l1) [] true inseq st1) as [[r1 st2]|] eqn:Er; [|done]. cbn [mbind option_bind].
      destruct (run_outcome slack same t k n (s_world st) st1 l1 l2 c [] inseq r1 st2 Hr1 Hh1 El Hq Hc ltac:(done) Er) as [Ho Hs]. intros Es. apply (settle_outcome t k n _ _ r1 st2 x res st'); [by rewrite Hs|done|done].
    + cbn [mbind option_bind]. intros Es. apply (settle_outcome t k n _ _ CMD_RESULT_INCOMPLETE st1 x res st'); [done| |done]. left. split; [done|]. split; [done|]. exists l1, c, l2.
      split; [done|]. split; [done|]. left. split; [done|]. exists n. split; [done|]. by right; left.
  - unfold run_line. destruct (run_command slack same k (length l1) (m_linebuf e0) true inseq st1) as [[r1 st2]|] eqn:Er; [|done]. cbn [mbind option_bind].
    destruct (run_outcome slack same t k n (s_world st) st1 l1 l2 c (m_linebuf e0) inseq r1 st2 Hr1 Hh1 El Hq Hc Hb Er) as [Ho Hs].
    destruct (editor_of k (s_world st2)) as [e2|]; [|done]. cbn [mbind option_bind]. unfold store_history. rewrite (bool_decide_eq_true_2 (is_Some (Some _))) by done. cbn [negb andb].
    destruct (ensure_history (s_world st2)) as [w3|] eqn:Ew; [|done]. cbn [mbind option_bind]. intros Es.
    apply (settle_outcome t k n _ _ r1 (set_world w3 st2) x res st'); [cbn; by rewrite Hs|by apply outcome_history|done].
Qed.

(** ** Input *)

Lemma select_here t k w now : sits t k (w_sessions w) -> (select (w_sessions w) (Some t) now).1 = true /\ here t k (set_sessions (select (w_sessions w) (Some t) now).2 w).
Proof.
  intros (Hf & s & Hs & Hfree & Ha). unfold select. rewrite Hf. cbn [fst snd setCurrent m_sessions]. rewrite Hs. split; [done|]. split; [|done]. cbn [set_sessions w_sessions].
  assert (sits t k (mkManager (m_sessions (w_sessions w)) (Some k))) as Hsit by (split; [exact Hf|by exists s]). by apply (sits_update t k _ s).
Qed.

Lemma typed_accepted t k u pw w0 w1 w2 : rtc (typed t k) w0 w1 -> accepted t k u pw w1 w2 -> accepted t k u pw w0 w2.
Proof. intros Hr (a & b & H1 & H2 & H3). exists a, b. split; [by etrans|done]. Qed.

Lemma accepted_typed t k u pw w0 w1 w2 : accepted t k u pw w0 w1 -> rtc (typed t k) w1 w2 -> accepted t k u pw w0 w2.
Proof. intros (a & b & H1 & H2 & H3) Hr. exists a, b. split; [done|]. split; [done|]. by etrans. Qed.

(** An input of a terminal: the time, what the block of the line has behind the line, whether
    it is the block of the line that was run before, and the characters. *)
Definition batch : Type := Z * list Z * bool * list Z.

(** The line an input ends: the characters edited the line of the session, and the last of
    them has it run. *)
Definition entered (t : nat) (h : batch) (st : shell B R) : option (list Z) :=
  let '(now, _, _, input) := h in
  let w := set_sessions (select (w_sessions (s_world st)) (Some t) now).2 (s_world st) in
  k <- current_index w;;
  e <- editor_of k w;;
  dontecho <- masked (Some k) (m_cmdlist st);;
  '(e, _, _, inseq) <- read_keys tmp (length input) dontecho input e CMD_TERM_INSEQ_NONE;;
  if only_edits dontecho inseq then None else Some (if is_break inseq then [] else m_linebuf e).

Definition process (t : nat) (h : batch) (st : shell B R) : option (cmd_result * shell B R * list Z * list Z) :=
  let '(now, slack, same, input) := h in processTerminalInput registry slack same items tmp t now input st.

(** What one input does: no line was ended, or [login] was given the line. *)
Lemma process_gate t k n h st res st' out rest : shut t k n st -> process t h st = Some (res, st', out, rest) ->
  (rtc (typed t k) (s_world st) (s_world st') /\ exists n', shut t k n' st' /\ (n' = None \/ n' = n \/ n' = entered t h st)) \/
  exists u line, n = Some u /\ entered t h st = Some line /\ accepted t k (until_nul u) (until_nul line) (s_world st) (s_world st').
Proof.
  destruct h as [[[now slack] same] input]. unfold process, entered. intros [Hsit Hg]. destruct (select_here t k (s_world st) now Hsit) as [Hf Hh]. unfold processTerminalInput.
  destruct (select _ _ _) as [found m] eqn:Esel. cbn [fst snd] in Hf, Hh. subst found. cbn [negb snd].
  set (w1 := set_sessions m (s_world st)) in *. assert (typed t k (s_world st) w1) as Hsel by (unfold w1; pose proof (typed_select t k (s_world st) now) as Hty; by rewrite Esel in Hty).
  cbn [s_world]. destruct (here_current t k w1 Hh) as [_ ->]. cbn [mbind option_bind]. destruct (editor_of k w1) as [e|]; [|done]. cbn [mbind option_bind m_cmdlist].
  destruct (masked _ _) as [dontecho|]; [|done]. cbn [mbind option_bind]. destruct (read_keys _ _ _ _ _ _) as [[[[e1 out1] rest1] inseq]|]; [|done]. cbn [mbind option_bind].
  destruct (only_edits dontecho inseq).
  { intros [= _ <- _ _]. left. cbn [set_world s_world]. split; [eapply rtc_l; [exact Hsel|]; apply rtc_once; constructor|]. exists n. split; [|by right; left]. split; [|done]. apply here_editor, Hh. }
  set (e2 := if is_break inseq then set_line [] 0 e1 else e1). destruct (here_editor t k w1 e2 Hh) as [Hh2 He2]. set (st2 := set_world (put_editor k e2 w1) _).
  destruct (executeCommand registry slack same items inseq st2) as [[res2 st3]|] eqn:Ex; [|done]. cbn [mbind option_bind].
  assert (rtc (typed t k) (s_world st) (s_world st2)) as Hr2 by (eapply rtc_l; [exact Hsel|]; apply rtc_once; constructor).
  assert ((if is_break inseq then [] else m_linebuf e1) = m_linebuf e2) as -> by (unfold e2; by destruct (is_break inseq)).
  assert (is_break inseq = true -> m_linebuf e2 = []) as Hbr by (intros Hi; unfold e2; by rewrite Hi).
  intros Efin. assert (m_cmdlist st' = m_cmdlist st3 /\ (s_world st' = s_world st3 \/ exists e', s_world st' = put_editor k e' (s_world st3))) as [El Ew].
  { case_bool_decide; cbn [mbind option_bind] in Efin; [injection Efin as _ <- _ _; by auto|]. destruct (editor_of k (s_world st3)) as [e3|]; [|done]. cbn [mbind option_bind] in Efin.
    injection Efin as _ <- _ _. split; [done|]. right. by eexists. }
  assert (rtc (typed t k) (s_world st3) (s_world st')) as Hr3 by (destruct Ew as [-> |(e' & ->)]; [constructor|apply rtc_once; constructor]).
  destruct (execute_gate slack same t k n st2 e2 t inseq res2 st3 eq_refl Hh2 Hg He2 Hbr Ex) as [(Hr & Hh3 & n' & Hn & Hg3)|(u & En & Hacc)].
  - left. split; [etrans; [exact Hr2|]; by etrans|]. exists n'. split; [|by destruct Hn as [?|[?|?]]; auto]. split; [|by rewrite El]. destruct Ew as [-> |(e' & ->)]; [apply Hh3|by apply here_editor].
  - right. exists u, (m_linebuf e2). split; [done|]. split; [done|]. eapply accepted_typed; [|exact Hr3]. by eapply typed_accepted.
Qed.

(** The input of a terminal, batch by batch. *)
Fixpoint inputs (t : nat) (hs : list batch) (st : shell B R) : option (shell B R) :=
  match hs with
  | [] => Some st
  | h :: hs => '(_, st, _, _) <- process t h st;; inputs t hs st
  end.

(** One of the inputs ended this line. *)
Definition was_entered (t : nat) (line : list Z) (hs : list batch) (st : shell B R) : Prop :=
  exists hs1 h hs2 st1, hs = hs1 ++ h :: hs2 /\ inputs t hs1 st = Some st1 /\ entered t h st1 = Some line.

Lemma was_entered_later t line h hs st st1 res out rest : process t h st = Some (res, st1, out, rest) -> was_entered t line hs st1 -> was_entered t line (h :: hs) st.
Proof. intros Ep (hs1 & h1 & hs2 & st2 & -> & E & El). exists (h :: hs1), h1, hs2, st2. split; [done|]. split; [|done]. cbn [inputs]. rewrite Ep. exact E. Qed.

(** The name that is held was held before or was typed. *)
Definition name_from (t : nat) (n : option (list Z)) (hs : list batch) (st : shell B R) (n' : option (list Z)) : Prop :=
  n' = None \/ n' = n \/ exists line, n' = Some line /\ was_entered t line hs st.

Lemma name_from_later t n n1 n' h hs st st1 res out rest : process t h st = Some (res, st1, out, rest) -> (n1 = None \/ n1 = n \/ n1 = entered t h st) ->
  name_from t n1 hs st1 n' -> name_from t n (h :: hs) st n'.
Proof.
  intros Ep Hn [->|[->|(line & -> & Hl)]]; [by left| |right; right; exists line; split; [done|by eapply was_entered_later]].
  destruct Hn as [->|[->| ->]]; [by left|by right; left|]. destruct (entered t h st) as [line|] eqn:E; [|by left]. right. right. exists line. split; [done|]. by exists [], h, hs, st.
Qed.

(** ** Opening and closing a terminal *)

Lemma slot_loop_found f ss i k : slot_loop f ss i = Some k -> exists s, ss !! (k - i)%nat = Some s /\ (i <= k)%nat.
Proof.
  revert i. induction ss as [|a ss IH]; intros i; cbn; [done|]. destruct (f a); [intros [= <-]; exists a; replace (i - i)%nat with 0%nat by lia; done|]. intros E.
  destruct (IH (S i) E) as (s & Hs & Hk). exists s. split; [|lia]. by replace (k - i)%nat with (S (k - S i)) by lia.
Qed.

Lemma slot_loop_insert f ss k s' : forall i, slot_loop f ss i = None -> (k < length ss)%nat -> f s' = true -> slot_loop f (<[k := s']> ss) i = Some (i + k)%nat.
Proof.
  revert k. induction ss as [|a ss IH]; intros k i; cbn; [lia|]. destruct (f a) eqn:Ea; [done|]. intros E Hk Hs. destruct k as [|k]; cbn; [rewrite Hs; f_equal; lia|]. rewrite Ea, IH by (done || lia). f_equal. lia.
Qed.

(** A terminal that is new is given the first free session. *)
Lemma attach_sits m t k : findByTerminal m (Some t) = None -> slot_loop is_free (m_sessions m) 0 = Some k ->
  sits t k (attach m (Some t)).2 /\ m_current (attach m (Some t)).2 = Some k.
Proof.
  intros Hf Hs. unfold attach. rewrite Hf, Hs. cbn [snd m_current]. split; [|done]. destruct (slot_loop_found _ _ _ _ Hs) as (s & Hk & _). rewrite Nat.sub_0_r in Hk.
  assert (k < length (m_sessions m))%nat as Hl by (by eapply lookup_lt_Some). split.
  - unfold findByTerminal in *. cbn [m_sessions]. apply (slot_loop_insert _ _ k _ 0 Hf Hl). cbn. by rewrite bool_decide_eq_true_2.
  - eexists. cbn [m_sessions]. rewrite list_lookup_insert_eq by done. done.
Qed.

Lemma use_shut st t k : findByTerminal (w_sessions (s_world st)) (Some t) = None -> slot_loop is_free (m_sessions (w_sessions (s_world st))) 0 = Some k ->
  Forall (fun a => a_owner a <> Some k) (m_cmdlist st) -> GetCommand registry (CMD_NAME_LOGIN ++ [0]) = Some (Some login_class) ->
  exists st', useTerminal registry st (Some t) = Some st' /\ shut t k None st' /\ s_terminal st' = Some t.
Proof.
  intros Hf Hs Ho Hg. destruct (attach_sits _ t k Hf Hs) as [Hsit Hcur]. unfold useTerminal. set (w := set_sessions (attach (w_sessions (s_world (mkShell (s_world st) (m_cmdlist st) (Some t)))) (Some t)).2 _).
  assert (here t k w) as Hh by done. destruct (here_current t k w Hh) as [Ha Hc]. unfold startInteraction, getActiveCommandByName. cbn [set_world s_terminal s_world m_cmdlist]. rewrite Hc.
  assert (named_index (Some k) (CMD_NAME_LOGIN ++ [0]) (m_cmdlist st) 0 = Some None) as ->.
  { clear - Ho. revert Ho. generalize (m_cmdlist st) 0%nat. intros l i Ho. revert i. induction Ho as [|a l Ha' _ IH]; intros i; cbn [named_index]; [done|]. rewrite bool_decide_eq_false_2 by done. apply IH. }
  cbn [mbind option_bind]. unfold getCommandToExecute. rewrite Hg. cbn [mbind option_bind set_list m_cmdlist s_world set_world]. rewrite Hc, lookup_mid. cbn [mbind option_bind a_cmd]. rewrite Ha.
  change (cls_new login_class) with LoginCommand. change (setWaitingForOption LoginCommand (Some CMD_OPTION_NAME_U)) with (Some (set_waiting 0 LoginCommand)). cbn [mbind option_bind].
  eexists. split; [done|]. split; [|done]. split; [done|]. unfold set_command. cbn [set_list m_cmdlist]. rewrite alter_mid. cbn [a_class a_owner].
  exists (m_cmdlist st), (set_waiting 0 LoginCommand), []. split; [done|]. split; [by exists None, None, CMD_STATUS_MAX, CMD_RESULT_MAX, 0|]. eapply Forall_impl; [exact Ho|]. intros a Hne. by left.
Qed.

(** A [login] that holds a name is made to ask for one again. *)
Definition half_open (u : list Z) (c : command) : Prop := exists v1 st r n, c = running 0 (login_options (Some (Held (u ++ [0; 0]))) (zlen u) true v1 0 false) st r n.

Lemma reopen t k st l1 l2 u c x : s_terminal st = Some x -> here t k (s_world st) -> m_cmdlist st = l1 ++ mkActive login_class c (Some k) :: l2 -> Forall (quiet k) l1 -> asks_password u c ->
  exists c', startInteraction registry st = Some (set_list (l1 ++ mkActive login_class c' (Some k) :: l2) st) /\ half_open u c'.
Proof.
  intros Ht Hh El Hq (v1 & st0 & r & n & ->). destruct (here_current t k _ Hh) as [Ha Hc]. unfold startInteraction, getActiveCommandByName. rewrite Ht, Hc, El.
  rewrite quiet_named by (done || apply running_valid). cbn [mbind option_bind Nat.add]. rewrite El, lookup_mid. cbn [mbind option_bind a_cmd]. rewrite Ha.
  rewrite (wait_login 1 _ st0 r n 117 0) by (done || apply login_options_letters). cbn [mbind option_bind]. unfold set_command. rewrite El, alter_mid. cbn [a_class a_owner].
  eexists. split; [done|]. by eexists _, _, _, _.
Qed.

(** The name typed there is taken for the one that is held and not copied; when the password
    comes, the line of the name is in a block that was released, or the block the line is in is
    given back as if it were that of the name. *)
Lemma half_open_undefined (w : world B R) same same' u c nm x pw y : authorized w = false -> half_open u c -> nm <> [] -> zlen nm <= 25 -> pw <> [] ->
  exists c', Command.executeCommand LoginCommand_execute base_action same c (Some (nm ++ 0 :: x)) (zlen nm) true CMD_TERM_INSEQ_ENTER w = Some (CMD_RESULT_INCOMPLETE, c', Some (nm ++ 0 :: x), w) /\
    m_options c' !! 0%nat = Some (mkOption [117; 0; 0] (Some (Arg 0)) (zlen nm) true) /\
    Command.executeCommand LoginCommand_execute base_action same' c' (Some (pw ++ 0 :: y)) (zlen pw) true CMD_TERM_INSEQ_ENTER w = None.
Proof.
  intros Hw (v1 & st & r & n & ->) Hn Hz Hpw. assert (0 < zlen nm) as Hp by (destruct nm; [done|rewrite zlen_cons; pose proof (zlen_nonneg nm); lia]).
  set (os := login_options (Some (Arg 0)) (zlen nm) true (stale_value same v1) 0 false). set (c2 := running 1 os CMD_STATUS_ACTIVE CMD_RESULT_OK n).
  assert (LoginCommand_execute (nm ++ 0 :: x) CMD_TERM_INSEQ_ENTER (running (-1) os CMD_STATUS_ACTIVE CMD_RESULT_OK n) w = Some (CMD_RESULT_INCOMPLETE, c2, w)) as He.
  { unfold LoginCommand_execute, retrieve. rewrite Hw. unfold CMD_OPTION_NAME_U, CMD_OPTION_NAME_P. cbn [app]. set (c0 := running (-1) os _ _ _).
    rewrite (retrieve_u c0 (Arg 0) (zlen nm) true (stale_value same v1) 0 false eq_refl Hp), (retrieve_no_password c0 (Some (Arg 0)) (zlen nm) true (stale_value same v1) false eq_refl). cbn [mbind option_bind].
    assert (is_Some (copy_value false LOGIN_CONFIGS_BUF_SIZE (nm ++ 0 :: x) (mkOption [117; 0; 0] (Some (Arg 0)) (zlen nm) true))) as [b ->].
    { unfold copy_value, option_bytes. cbn [optionval optionvalsize mbind option_bind value_bytes]. rewrite (msub_app_mid [] nm (0 :: x) : msub (nm ++ 0 :: x) 0 (zlen nm) = Some nm). cbn [mbind option_bind].
      unfold mcpy, LOGIN_CONFIGS_BUF_SIZE. change (zlen (replicate (Z.to_nat 25) 0)) with 25. destruct (Z.leb_spec (0 + zlen nm) 25); [|lia]. by eexists. }
    cbn [mbind option_bind]. unfold hold_named. cbn [app]. rewrite (option_index_letters c0 login_letters 117 []) by (done || apply login_options_letters). cbn [mbind option_bind].
    change (holdOptionValue (nm ++ 0 :: x) (letter_index login_letters 117 0) c0) with (Some (true, c0)). cbn [mbind option_bind]. unfold c0.
    change (is_break CMD_TERM_INSEQ_ENTER) with false. cbv iota. by rewrite (wait_login (-1) os CMD_STATUS_ACTIVE CMD_RESULT_OK n 112 1) by (done || apply login_options_letters). }
  exists (running 1 os CMD_STATUS_ACTIVE CMD_RESULT_INCOMPLETE (u16 (n + 1))). split; [|split; [done|]].
  - eapply (executeCommand_asks w _ _ _ _ _ _ c2); [done|rewrite stale_running; reflexivity|done|exact He].
  - unfold os. by apply name_not_held.
Qed.



End gate.

#[local] Existing Instance UserStore.device_fs.
#[local] Existing Instance UserStore.device_laws.
#[local] Existing Instance UserStore.device_store.
#[local] Existing Instance TmpFs.tmpfs_fs.
#[local] Existing Instance TmpFs.tmpfs_laws.

(** The first terminal at the prompt, and the only command. *)
Definition demo_shell : shell (LittleFs.ram + list TmpFs.tmpfs_node) Z :=
  mkShell (set_sessions (attached 1) demo_world) [mkActive login_class (set_waiting 0 LoginCommand) (Some 0%nat)] (Some 0%nat).

Definition no_items (w : world (LittleFs.ram + list TmpFs.tmpfs_node) Z) (p : path) (arg : list Z) : option (Z * list path) := Some (0, []).

Lemma demo_shut : shut 0 0 None demo_shell.
Proof.
  split; [split; [done|by eexists]|]. exists [], (set_waiting 0 LoginCommand), []. split; [done|]. split; [|constructor]. by exists None, None, CMD_STATUS_MAX, CMD_RESULT_MAX, 0.
Qed.

(** [bob], Enter; then [pw], Enter *)
Definition demo_typed : list batch := [(1, [0], false, [98; 111; 98; 13]); (2, [0], true, [112; 119; 13])].


(** [bob] at the prompt for the password, the terminal closed and another opened *)
Definition demo_left : shell (LittleFs.ram + list TmpFs.tmpfs_node) Z :=
  mkShell (set_sessions (attached 1) demo_world) [mkActive login_class (half_way bob_name) (Some 0%nat)] (Some 0%nat).


End CommandLine.
