(* ===== verification/SshMsg.v ===== *)
(** * Messages of the SSH server ([src/service_provider/shell/ssh/SSHServiceUtil.cpp])

    The functions that build and read messages without touching the connection: strings,
    name lists and multiple precision integers of RFC 4251, the key exchange messages, the
    exchange hash and the derived keys, the requests for a login and for channels, and the
    frame of a packet.

    A vector is the list of its bytes; indexing behind its end is undefined.  [size_t] has
    32 bits, as on the devices.

    The theorems: what the builders write the readers read back, the keys are those of
    RFC 4253 and RFC 8731, and a length near 2^32 makes a reader leave the message. *)

From stdpp Require Import base option list numbers.
From Stdlib Require Import ZArith Lia.
From S2P Require Import Prelude Words Fips180 Sha256 StrOps.

Open Scope Z_scope.

Module SshMsg.
Import Sha256.

Definition SSH2_MSG_SERVICE_REQUEST : Z := 5.
Definition SSH2_MSG_SERVICE_ACCEPT : Z := 6.
Definition SSH2_MSG_KEXINIT : Z := 20.
Definition SSH2_MSG_NEWKEYS : Z := 21.
Definition SSH2_MSG_KEXDH_INIT : Z := 30.
Definition SSH2_MSG_KEXDH_REPLY : Z := 31.
Definition SSH2_MSG_USERAUTH_REQUEST : Z := 50.
Definition SSH2_MSG_USERAUTH_FAILURE : Z := 51.
Definition SSH2_MSG_USERAUTH_SUCCESS : Z := 52.
Definition SSH2_MSG_CHANNEL_OPEN : Z := 90.
Definition SSH2_MSG_CHANNEL_OPEN_CONFIRMATION : Z := 91.
Definition SSH2_MSG_CHANNEL_DATA : Z := 94.

(** [curve25519-sha256], [ssh-ed25519], [aes128-ctr], [hmac-sha1], [none], [password]. *)
Definition kex_name : list Z := [99; 117; 114; 118; 101; 50; 53; 53; 49; 57; 45; 115; 104; 97; 50; 53; 54].
Definition host_key_name : list Z := [115; 115; 104; 45; 101; 100; 50; 53; 53; 49; 57].
Definition cipher_name : list Z := [97; 101; 115; 49; 50; 56; 45; 99; 116; 114].
Definition mac_name : list Z := [104; 109; 97; 99; 45; 115; 104; 97; 49].
Definition no_compression : list Z := [110; 111; 110; 101].
Definition password_method : list Z := [112; 97; 115; 115; 119; 111; 114; 100].

(** ** Numbers and strings *)

(** [(p[o] << 24) | (p[o+1] << 16) | (p[o+2] << 8) | p[o+3]] *)
Definition get_u32 (p : list Z) (o : Z) : option Z :=
  a <- mget p o;; b <- mget p (o + 1);; c <- mget p (o + 2);; d <- mget p (o + 3);;
  Some (u32 (Z.lor (Z.lor (Z.lor (Z.shiftl a 24) (Z.shiftl b 16)) (Z.shiftl c 8)) d)).

(** The four calls of [push_back]. *)
Definition put_u32 (n : Z) : list Z :=
  [Z.land (Z.shiftr n 24) 255; Z.land (Z.shiftr n 16) 255; Z.land (Z.shiftr n 8) 255; Z.land n 255].

Definition append_ssh_string (out data : list Z) : list Z := out ++ put_u32 (u32 (zlen data)) ++ data.

(** The version with a pointer and a length. *)
Definition append_ssh_chars (out data : list Z) (length : Z) : option (list Z) :=
  d <- msub data 0 length;; Some (out ++ put_u32 length ++ d).

(** [read_ssh_string]; the inner [None] is [false]. *)
Definition read_ssh_string (payload : list Z) (offset : Z) : option (option (list Z * Z)) :=
  if offset + 4 >? zlen payload then Some None
  else
    len <- get_u32 payload offset;;
    let offset := offset + 4 in
    if u32 (offset + len) >? zlen payload then Some None
    else s <- msub payload offset len;; Some (Some (s, i32 (offset + len))).

(** ** Name lists *)

(** The loop over the commas: [cur] is what follows the last one; the names are made with
    [substr]. *)
Fixpoint name_loop (names cur : list Z) : list (list Z) :=
  match names with
  | [] => match cur with [] => [] | _ => [StrOps.string_data cur] end
  | c :: names => if c =? 44 then StrOps.string_data cur :: name_loop names [] else name_loop names (cur ++ [c])
  end.

Definition parse_name_list (payload : list Z) (offset : Z) : option (option (list (list Z) * Z)) :=
  if u32 (offset + 4) >? zlen payload then Some None
  else
    len <- get_u32 payload offset;;
    let offset := u32 (offset + 4) in
    if u32 (offset + len) >? zlen payload then Some None
    else names <- StrOps.string_at payload offset len;; Some (Some (name_loop names [], u32 (offset + len))).

(** [joined]: the names with commas between them. *)
Fixpoint join_loop (names : list (list Z)) (first : bool) (joined : list Z) : list Z :=
  match names with
  | [] => joined
  | n :: names => join_loop names false ((if first then joined else joined ++ [44]) ++ n)
  end.

Definition append_name_list (out : list Z) (names : list (list Z)) : list Z :=
  let joined := join_loop names true [] in
  out ++ put_u32 (u32 (zlen joined)) ++ joined.

(** ** Key exchange messages *)

Definition ssh_name_list : Type := list (list Z).

Record SSHKexInitFields := mkKexInit { cookie : list Z; kex_algorithms : ssh_name_list; server_host_key_algorithms : ssh_name_list;
  encryption_algorithms_ctos : ssh_name_list; encryption_algorithms_stoc : ssh_name_list; mac_algorithms_ctos : ssh_name_list;
  mac_algorithms_stoc : ssh_name_list; compression_algorithms_ctos : ssh_name_list; compression_algorithms_stoc : ssh_name_list;
  languages_ctos : ssh_name_list; languages_stoc : ssh_name_list; first_kex_packet_follows : bool; reserved : Z }.

(** The ten calls of [parse_name_list]. *)
Fixpoint lists_loop (n : nat) (payload : list Z) (offset : Z) : option (option (list ssh_name_list * Z)) :=
  match n with
  | O => Some (Some ([], offset))
  | S n =>
      r <- parse_name_list payload offset;;
      match r with
      | None => Some None
      | Some (l, offset) =>
          r <- lists_loop n payload offset;;
          Some (match r with Some (ls, offset) => Some (l :: ls, offset) | None => None end)
      end
  end.

Definition parse_kex_init_fields (payload : list Z) : option (option SSHKexInitFields) :=
  if zlen payload <? 17 then Some None
  else
    t <- mget payload 0;;
    if negb (t =? SSH2_MSG_KEXINIT) then Some None
    else
      cookie <- msub payload 1 16;;
      r <- lists_loop 10 payload 17;;
      match r with
      | Some ([k; h; ec; es; mc; ms; cc; cs; lc; ls], offset) =>
          if offset >=? zlen payload then Some None
          else
            f <- mget payload offset;;
            let offset := u32 (offset + 1) in
            if u32 (offset + 4) >? zlen payload then Some None
            else res <- get_u32 payload offset;; Some (Some (mkKexInit cookie k h ec es mc ms cc cs lc ls (negb (f =? 0)) res))
      | _ => Some None
      end.

Section random.
Context {R : Type} (rand : R -> Z * R).

(** [push_back(rand() & 0xFF)], [n] times. *)
Fixpoint random_bytes (n : nat) (r : R) : list Z * R :=
  match n with
  | O => ([], r)
  | S n => let '(x, r) := rand r in let '(xs, r) := random_bytes n r in (Z.land x 255 :: xs, r)
  end.

Definition prepare_server_kexinit (r : R) : list Z * R :=
  let '(cookie, r) := random_bytes 16 r in
  let payload := [SSH2_MSG_KEXINIT] ++ cookie in
  let payload := append_name_list payload [kex_name] in
  let payload := append_name_list payload [host_key_name] in
  let payload := append_name_list payload [cipher_name] in
  let payload := append_name_list payload [cipher_name] in
  let payload := append_name_list payload [mac_name] in
  let payload := append_name_list payload [mac_name] in
  let payload := append_name_list payload [no_compression] in
  let payload := append_name_list payload [no_compression] in
  let payload := append_name_list payload [] in
  let payload := append_name_list payload [] in
  (payload ++ [0] ++ [0; 0; 0; 0], r).

(** The length of the padding and the five bytes before the payload. *)
Definition padding_len (payload_len block_size : Z) : Z :=
  let min_packet_len := payload_len + 1 + 4 in
  let padding_len := block_size - min_packet_len mod block_size in
  if padding_len <? 4 then padding_len + block_size else padding_len.

Definition packet_header (payload_len padding : Z) : list Z := put_u32 (u32 (payload_len + padding + 1)) ++ [u8 padding].

Definition prepare_ssh_packet (payload : list Z) (block_size : Z) (r : R) : list Z * R :=
  let padding := padding_len (zlen payload) block_size in
  let '(pad, r) := random_bytes (Z.to_nat padding) r in
  (packet_header (zlen payload) padding ++ payload ++ pad, r).

End random.

(** [EcdhInitPacket]: the public key of the client. *)
Definition parse_kex_ecdh_init (payload : list Z) : option (option (list Z)) :=
  if zlen payload <? 1 then Some None
  else
    t <- mget payload 0;;
    if negb (t =? SSH2_MSG_KEXDH_INIT) then Some None
    else if 1 + 4 >? zlen payload then Some None
    else
      len <- get_u32 payload 1;;
      if negb (len =? 32) || (1 + 4 + len >? zlen payload) then Some None
      else k <- msub payload 5 len;; Some (Some k).

(** [while (first_nonzero < len && data[first_nonzero] == 0)] *)
Fixpoint zeros_loop (n : nat) (data : list Z) (i : Z) : option Z :=
  match n with
  | O => Some i
  | S n => x <- mget data i;; if x =? 0 then zeros_loop n data (i + 1) else Some i
  end.

Definition append_mpint (out data : list Z) (len : Z) : option (list Z) :=
  first_nonzero <- zeros_loop (Z.to_nat len) data 0;;
  let mpint_len := len - first_nonzero in
  prepend_zero <- (if mpint_len >? 0 then x <- mget data first_nonzero;; Some (negb (Z.land x 128 =? 0)) else Some false);;
  let total_len := u32 (mpint_len + (if prepend_zero then 1 else 0)) in
  d <- msub data first_nonzero mpint_len;;
  Some (out ++ put_u32 total_len ++ (if prepend_zero then [0] else []) ++ d).

(** [build_exchange_hash]; [stk] is the local context of [sha256]. *)
Definition build_exchange_hash (stk : sha256_context) (client_version server_version client_kexinit server_kexinit
    server_host_key_sshformat client_ecdh_pub server_ecdh_pub shared_secret hash_output : list Z) : option (list Z) :=
  let hash_input := append_ssh_string [] client_version in
  let hash_input := append_ssh_string hash_input server_version in
  let hash_input := append_ssh_string hash_input client_kexinit in
  let hash_input := append_ssh_string hash_input server_kexinit in
  let hash_input := append_ssh_string hash_input server_host_key_sshformat in
  let hash_input := append_ssh_string hash_input client_ecdh_pub in
  let hash_input := append_ssh_string hash_input server_ecdh_pub in
  hash_input <- append_mpint hash_input shared_secret 32;;
  sha256 stk hash_input (u32 (zlen hash_input)) hash_output.

(** [derive_key]; [buf] and [hash] are the local arrays of 1024 and 32 bytes. *)
Definition derive_key (stk : sha256_context) (buf hash K H session_id : list Z) (key_type : Z) (out : list Z) (out_len : Z) : option (list Z) :=
  buf <- mcpy buf 0 K;;
  let offset := zlen K in
  buf <- mcpy buf offset H;;
  let offset := offset + zlen H in
  buf <- mset buf offset key_type;;
  let offset := offset + 1 in
  buf <- mcpy buf offset session_id;;
  let offset := offset + zlen session_id in
  hash <- sha256 stk buf offset hash;;
  k <- msub hash 0 (if out_len <=? 32 then out_len else 32);;
  mcpy out 0 k.

(** ** Requests of the client *)

Record SSHUserAuthRequest := mkUserAuth { ua_username : list Z; ua_service : list Z; ua_method : list Z; ua_password : list Z }.

Definition parse_userauth_request (payload : list Z) : option (option SSHUserAuthRequest) :=
  username <- read_ssh_string payload 1;;
  match username with
  | None => Some None
  | Some (username, offset) =>
      service <- read_ssh_string payload offset;;
      match service with
      | None => Some None
      | Some (service, offset) =>
          method <- read_ssh_string payload offset;;
          match method with
          | None => Some None
          | Some (method, offset) =>
              if bool_decide (method = password_method) then
                if offset >=? zlen payload then Some None
                else
                  _ <- mget payload offset;;
                  pw <- read_ssh_string payload (offset + 1);;
                  Some (match pw with Some (pw, _) => Some (mkUserAuth username service method pw) | None => None end)
              else Some (Some (mkUserAuth username service method []))
          end
      end
  end.

Record SSHChannel := mkChannel { channel_type : list Z; client_channel_id : Z; server_channel_id : Z; window_size : Z; max_packet_size : Z }.

(** What is parsed before an error stays in the channel. *)
Definition parse_channel_open_request (ch : SSHChannel) (payload : list Z) : option (bool * SSHChannel) :=
  match payload with
  | [] => Some (false, ch)
  | t :: _ =>
      if negb (t =? SSH2_MSG_CHANNEL_OPEN) then Some (false, ch)
      else
        r <- read_ssh_string payload 1;;
        match r with
        | None => Some (false, ch)
        | Some (ty, offset) =>
            let ch := mkChannel ty (client_channel_id ch) (server_channel_id ch) (window_size ch) (max_packet_size ch) in
            if offset + 4 >? zlen payload then Some (false, ch)
            else
              id <- get_u32 payload offset;;
              let offset := offset + 4 in
              let ch := mkChannel ty id (server_channel_id ch) (window_size ch) (max_packet_size ch) in
              if offset + 4 >? zlen payload then Some (false, ch)
              else
                win <- get_u32 payload offset;;
                let offset := offset + 4 in
                let ch := mkChannel ty id (server_channel_id ch) win (max_packet_size ch) in
                if offset + 4 >? zlen payload then Some (false, ch)
                else
                  mx <- get_u32 payload offset;;
                  Some (true, mkChannel ty id (u32 (server_channel_id ch + 1)) win mx)
        end
  end.

Record SSHChannelRequest := mkRequest { recipient_channel : Z; request_type : list Z; want_reply : bool; request_specific_data : list Z }.

Definition parse_channel_request (payload : list Z) : option (option SSHChannelRequest) :=
  if 1 + 4 >? zlen payload then Some None
  else
    recipient <- get_u32 payload 1;;
    if 5 + 4 >? zlen payload then Some None
    else
      str_len <- get_u32 payload 5;;
      if u32 (9 + str_len) >? zlen payload then Some None
      else
        ty <- msub payload 9 str_len;;
        let offset := u32 (9 + str_len) in
        if offset >=? zlen payload then Some None
        else
          w <- mget payload offset;;
          Some (Some (mkRequest recipient ty (negb (w =? 0)) (drop (Z.to_nat (offset + 1)) payload))).

Record SSHPtyReq := mkPty { term : list Z; width_chars : Z; height_rows : Z; width_pixels : Z; height_pixels : Z; terminal_modes : list Z }.

(** What is parsed before an error stays, and the modes are appended to the ones there. *)
Definition parse_channel_request_pty_req (req : SSHPtyReq) (data : list Z) : option (bool * SSHPtyReq) :=
  match data with
  | [] => Some (false, req)
  | _ =>
      r <- read_ssh_string data 0;;
      match r with
      | None => Some (false, req)
      | Some (t, offset) =>
          let req := mkPty t (width_chars req) (height_rows req) (width_pixels req) (height_pixels req) (terminal_modes req) in
          if offset + 4 >? zlen data then Some (false, req)
          else
            wc <- get_u32 data offset;;
            let offset := offset + 4 in
            let req := mkPty t wc (height_rows req) (width_pixels req) (height_pixels req) (terminal_modes req) in
            if offset + 4 >? zlen data then Some (false, req)
            else
              hr <- get_u32 data offset;;
              let offset := offset + 4 in
              let req := mkPty t wc hr (width_pixels req) (height_pixels req) (terminal_modes req) in
              if offset + 4 >? zlen data then Some (false, req)
              else
                wp <- get_u32 data offset;;
                let offset := offset + 4 in
                let req := mkPty t wc hr wp (height_pixels req) (terminal_modes req) in
                if offset + 4 >? zlen data then Some (false, req)
                else
                  hp <- get_u32 data offset;;
                  let offset := offset + 4 in
                  r <- read_ssh_string data offset;;
                  Some (match r with
                        | None => (false, mkPty t wc hr wp hp (terminal_modes req))
                        | Some (m, _) => (true, mkPty t wc hr wp hp (terminal_modes req ++ m))
                        end)
      end
  end.

(** [SSHChannelData]: the channel and the data. *)
Definition parse_channel_data_request (payload : list Z) : option (option (Z * list Z)) :=
  if 1 + 4 >? zlen payload then Some None
  else
    recipient <- get_u32 payload 1;;
    if 5 + 4 >? zlen payload then Some None
    else
      data_len <- get_u32 payload 5;;
      if u32 (9 + data_len) >? zlen payload then Some None
      else d <- msub payload 9 data_len;; Some (Some (recipient, d)).

(** ** Numbers and strings *)

(** A string as RFC 4251 has it. *)
Definition str (s : list Z) : list Z := be_bytes 4 (zlen s) ++ s.

Lemma put_u32_be n : put_u32 n = be_bytes 4 n.
Proof.
  unfold put_u32. rewrite be_bytes_4, !byte_of by lia. do 3 f_equal.
  pose proof (byte_of n 0 ltac:(lia)) as E. rewrite Z.shiftr_0_r in E. rewrite E. change (2 ^ 0) with 1. by rewrite Z.div_1_r.
Qed.

Lemma get_u32_app pre a b c d post : bytes_ok [a; b; c; d] -> get_u32 (pre ++ [a; b; c; d] ++ post) (zlen pre) = Some (be_val [a; b; c; d]).
Proof.
  intros Hb. unfold get_u32. cbn [app]. rewrite mget_app_mid.
  pose proof (mget_app_mid (pre ++ [a]) b (c :: d :: post)) as E1. rewrite <- app_assoc, zlen_app in E1. cbn [app] in E1. change (zlen [a]) with 1 in E1. rewrite E1.
  pose proof (mget_app_mid (pre ++ [a; b]) c (d :: post)) as E2. rewrite <- app_assoc, zlen_app in E2. cbn [app] in E2. change (zlen [a; b]) with 2 in E2. rewrite E2.
  pose proof (mget_app_mid (pre ++ [a; b; c]) d post) as E3. rewrite <- app_assoc, zlen_app in E3. cbn [app] in E3. change (zlen [a; b; c]) with 3 in E3. rewrite E3.
  pose proof (be_val_range _ Hb) as Hr. rewrite !Forall_cons_iff in Hb. destruct Hb as (Ha & Hb & Hc & Hd & _).
  rewrite lor_be4 by done. by rewrite u32_small.
Qed.

Lemma get_u32_at pre n post : 0 <= n < 4294967296 -> get_u32 (pre ++ be_bytes 4 n ++ post) (zlen pre) = Some n.
Proof.
  intros Hn. pose proof (be_val_bytes 4 n) as E. pose proof (be_bytes_ok 4 n) as Hb. rewrite be_bytes_4 in *. rewrite get_u32_app by done. rewrite E. f_equal. by apply Z.mod_small.
Qed.

Lemma get_u32_Some p o : bytes_ok p -> 0 <= o -> o + 4 <= zlen p -> exists n, get_u32 p o = Some n /\ 0 <= n < 4294967296.
Proof.
  intros Hp Ho Hl. destruct (zsplit p o ltac:(lia)) as (p1 & p2 & -> & E). rewrite zlen_app in Hl.
  destruct p2 as [|a [|b [|c [|d p2]]]]; try (rewrite ?zlen_cons, zlen_nil in Hl; lia). apply Forall_app in Hp as [_ Hp].
  assert (bytes_ok [a; b; c; d]) as Hb by (rewrite !Forall_cons_iff in *; intuition).
  exists (be_val [a; b; c; d]). rewrite <- E. split; [exact (get_u32_app p1 a b c d p2 Hb)|]. pose proof (be_val_range _ Hb) as Hr. exact Hr.
Qed.

Lemma append_ssh_string_str out s : zlen s < 4294967296 -> append_ssh_string out s = out ++ str s.
Proof. intros Hs. unfold append_ssh_string, str. pose proof (zlen_nonneg s). by rewrite u32_small, put_u32_be by lia. Qed.

Lemma read_ssh_string_at pre s post : zlen (pre ++ str s ++ post) < 2147483648 ->
  read_ssh_string (pre ++ str s ++ post) (zlen pre) = Some (Some (s, zlen pre + 4 + zlen s)).
Proof.
  intros Hl. unfold read_ssh_string, str in *. rewrite <- app_assoc in *. set (p := pre ++ be_bytes 4 (zlen s) ++ s ++ post) in *.
  assert (zlen p = zlen pre + 4 + zlen s + zlen post) as Ep by (unfold p; rewrite !zlen_app; unfold zlen; rewrite be_bytes_length; lia).
  pose proof (zlen_nonneg pre). pose proof (zlen_nonneg s). pose proof (zlen_nonneg post).
  destruct (Z.gtb_spec (zlen pre + 4) (zlen p)); [lia|]. unfold p at 1. rewrite get_u32_at by lia.
  rewrite u32_small by lia. destruct (Z.gtb_spec (zlen pre + 4 + zlen s) (zlen p)); [lia|].
  assert (msub p (zlen pre + 4) (zlen s) = Some s) as ->.
  { unfold p. rewrite app_assoc. replace (zlen pre + 4) with (zlen (pre ++ be_bytes 4 (zlen s))) by (rewrite zlen_app; unfold zlen; rewrite be_bytes_length; lia). apply msub_app_mid. }
  by rewrite i32_small by lia.
Qed.

(** ** Name lists and the first message of the key exchange *)

Definition name_ok (n : list Z) : Prop := n <> [] /\ without 44 n /\ no_nul n.

Definition joined (ns : ssh_name_list) : list Z := join_loop ns true [].

Definition name_list (ns : ssh_name_list) : list Z := str (joined ns).

Lemma join_loop_rest ns : forall j, join_loop ns false j = j ++ concat (map (cons 44) ns).
Proof. induction ns as [|n ns IH]; intros j; cbn [join_loop map concat]; [by rewrite app_nil_r|]. rewrite IH, <- !app_assoc. done. Qed.

Lemma name_loop_word n : forall rest cur, without 44 n -> name_loop (n ++ rest) cur = name_loop rest (cur ++ n).
Proof.
  induction n as [|c n IH]; intros rest cur Hn; [by rewrite app_nil_r|]. apply Forall_cons_iff in Hn as [Hc Hn]. cbn [app name_loop].
  destruct (Z.eqb_spec c 44); [done|]. rewrite IH, <- app_assoc by done. done.
Qed.

Lemma name_loop_rest ns : forall cur, Forall name_ok ns -> cur <> [] -> no_nul cur -> name_loop (concat (map (cons 44) ns)) cur = cur :: ns.
Proof.
  induction ns as [|n ns IH]; intros cur Hn Hc Hcn; cbn [map concat app name_loop]; [rewrite StrOps.string_data_text by done; by destruct cur|].
  apply Forall_cons_iff in Hn as [(Hne & Hw & Hz) Hn]. change (44 =? 44) with true. cbv iota. rewrite name_loop_word, StrOps.string_data_text by done. cbn [app]. by rewrite IH.
Qed.

Lemma name_loop_joined ns : Forall name_ok ns -> name_loop (joined ns) [] = ns.
Proof.
  destruct ns as [|n ns]; intros Hn; [done|]. apply Forall_cons_iff in Hn as [(Hne & Hw & Hz) Hn]. unfold joined. cbn [join_loop app].
  rewrite join_loop_rest, name_loop_word by done. cbn [app]. by apply name_loop_rest.
Qed.

Lemma append_name_list_str out ns : zlen (joined ns) < 4294967296 -> append_name_list out ns = out ++ name_list ns.
Proof. intros Hs. unfold append_name_list, name_list, str. fold (joined ns). pose proof (zlen_nonneg (joined ns)). by rewrite u32_small, put_u32_be by lia. Qed.

Lemma zlen_str s : zlen (str s) = 4 + zlen s.
Proof. unfold str. rewrite zlen_app. unfold zlen at 1. rewrite be_bytes_length. lia. Qed.

Lemma joined_text ns : Forall name_ok ns -> no_nul (joined ns).
Proof.
  destruct ns as [|n ns]; intros Hn; [constructor|]. apply Forall_cons_iff in Hn as [(_ & _ & Hz) Hn]. unfold joined. cbn [join_loop app]. rewrite join_loop_rest. apply Forall_app. split; [done|].
  induction Hn as [|m ns (_ & _ & Hm) _ IH]; cbn [map concat]; [constructor|]. apply Forall_app. split; [by constructor|done].
Qed.

Lemma string_at_text pre s post : no_nul s -> post <> [] -> zlen s < 4294967295 -> StrOps.string_at (pre ++ s ++ post) (zlen pre) (zlen s) = Some s.
Proof.
  intros Hs Hp Hz. unfold StrOps.string_at. destruct (Z.eqb_spec (zlen s) 4294967295); [lia|]. destruct s as [|c s].
  - destruct post as [|x post]; [done|]. cbn [app]. rewrite mget_app_mid. cbn [mbind option_bind]. destruct (x =? 0); [done|]. apply (msub_app_mid pre [] (x :: post)).
  - cbn [app]. rewrite mget_app_mid. cbn [mbind option_bind]. apply Forall_cons_iff in Hs as [Hc _]. destruct (Z.eqb_spec c 0); [done|]. apply (msub_app_mid pre (c :: s) post).
Qed.

Lemma parse_name_list_at pre ns post : Forall name_ok ns -> post <> [] -> zlen (pre ++ name_list ns ++ post) < 2147483648 ->
  parse_name_list (pre ++ name_list ns ++ post) (zlen pre) = Some (Some (ns, zlen pre + zlen (name_list ns))).
Proof.
  intros Hn Hpost Hl. unfold parse_name_list, name_list in *. set (s := joined ns) in *. pose proof (zlen_str s) as Es.
  pose proof (zlen_nonneg pre). pose proof (zlen_nonneg s). pose proof (zlen_nonneg post). rewrite !zlen_app, Es in *.
  rewrite u32_small by lia. destruct (Z.gtb_spec (zlen pre + 4) (zlen pre + (4 + zlen s + zlen post))); [lia|].
  unfold str. rewrite <- app_assoc, get_u32_at by lia.
  rewrite u32_small by lia. destruct (Z.gtb_spec (zlen pre + 4 + zlen s) (zlen pre + (4 + zlen s + zlen post))); [lia|].
  rewrite app_assoc. replace (zlen pre + 4) with (zlen (pre ++ be_bytes 4 (zlen s))) at 1 by (rewrite zlen_app; unfold zlen; rewrite be_bytes_length; lia).
  rewrite string_at_text by (done || lia || by apply joined_text). cbn [mbind option_bind]. unfold s at 1. rewrite name_loop_joined by done. do 3 f_equal. lia.
Qed.

Lemma lists_loop_at lss : forall pre post, Forall (Forall name_ok) lss -> post <> [] -> zlen (pre ++ concat (map name_list lss) ++ post) < 2147483648 ->
  lists_loop (length lss) (pre ++ concat (map name_list lss) ++ post) (zlen pre) = Some (Some (lss, zlen (pre ++ concat (map name_list lss)))).
Proof.
  induction lss as [|ns lss IH]; intros pre post Hn Hp Hl; cbn [length lists_loop map concat app] in *; [by rewrite app_nil_r|].
  apply Forall_cons_iff in Hn as [Hns Hn]. rewrite <- app_assoc in *. rewrite parse_name_list_at by (done || (intros E; by apply app_nil in E as [_ ?])).
  rewrite (app_assoc pre) in *. rewrite <- zlen_app, IH, <- app_assoc by done. done.
Qed.

(** The message of RFC 4253: a cookie, ten lists, a flag and a reserved number. *)
Definition kexinit_text (c : list Z) (lss : list ssh_name_list) (f r : Z) : list Z :=
  [SSH2_MSG_KEXINIT] ++ c ++ concat (map name_list lss) ++ [f] ++ be_bytes 4 r.

Definition kexinit_fields (c : list Z) (lss : list ssh_name_list) (f r : Z) : SSHKexInitFields :=
  let l i := default [] (lss !! i) in
  mkKexInit c (l 0%nat) (l 1%nat) (l 2%nat) (l 3%nat) (l 4%nat) (l 5%nat) (l 6%nat) (l 7%nat) (l 8%nat) (l 9%nat) (negb (f =? 0)) r.

Lemma parse_kexinit_text c lss f r : length c = 16%nat -> length lss = 10%nat -> Forall (Forall name_ok) lss -> 0 <= r < 4294967296 ->
  zlen (kexinit_text c lss f r) < 2147483648 -> parse_kex_init_fields (kexinit_text c lss f r) = Some (Some (kexinit_fields c lss f r)).
Proof.
  intros Hc Hl Hn Hr Hz. unfold parse_kex_init_fields. set (p := kexinit_text c lss f r) in *.
  assert (p = ([SSH2_MSG_KEXINIT] ++ c) ++ concat (map name_list lss) ++ [f] ++ be_bytes 4 r) as Ep by (unfold p, kexinit_text; by rewrite <- app_assoc).
  assert (zlen ([SSH2_MSG_KEXINIT] ++ c) = 17) as E17 by (rewrite zlen_app; unfold zlen; rewrite Hc; done).
  assert (zlen p = 17 + zlen (concat (map name_list lss)) + 5) as Ez by (rewrite Ep, !zlen_app in *; rewrite E17; unfold zlen; rewrite be_bytes_length; simpl; lia).
  pose proof (zlen_nonneg (concat (map name_list lss))) as Hz0. destruct (Z.ltb_spec (zlen p) 17); [lia|].
  change (mget p 0) with (Some SSH2_MSG_KEXINIT). cbn [negb]. change (SSH2_MSG_KEXINIT =? SSH2_MSG_KEXINIT) with true. cbn [negb].
  assert (msub p 1 16 = Some c) as ->.
  { unfold p, kexinit_text. pose proof (msub_app_mid [SSH2_MSG_KEXINIT] c (concat (map name_list lss) ++ [f] ++ be_bytes 4 r)) as E. unfold zlen in E at 2. rewrite Hc in E. exact E. }
  pose proof (lists_loop_at lss ([SSH2_MSG_KEXINIT] ++ c) ([f] ++ be_bytes 4 r) Hn ltac:(done)) as E. rewrite <- Ep, Hl, (zlen_app (_ ++ c) (concat _)), E17 in E. rewrite E by done. clear E.
  do 11 (destruct lss as [|? lss]; try discriminate). cbv beta iota.
  set (q := concat _) in *. destruct (Z.geb_spec (17 + zlen q) (zlen p)); [lia|].
  assert (zlen (([SSH2_MSG_KEXINIT] ++ c) ++ q) = 17 + zlen q) as Eq by (rewrite zlen_app, E17; done).
  assert (mget p (17 + zlen q) = Some f) as ->.
  { rewrite Ep, app_assoc, <- Eq. apply mget_app_mid. }
  rewrite !u32_small by (rewrite ?u32_small; lia). destruct (Z.gtb_spec (17 + zlen q + 1 + 4) (zlen p)); [lia|].
  assert (get_u32 p (17 + zlen q + 1) = Some r) as ->; [|done].
  rewrite Ep, app_assoc, (app_assoc _ [f]). replace (17 + zlen q + 1) with (zlen ((([SSH2_MSG_KEXINIT] ++ c) ++ q) ++ [f])) by (rewrite zlen_app, Eq; done).
  pose proof (get_u32_at ((([SSH2_MSG_KEXINIT] ++ c) ++ q) ++ [f]) r [] Hr) as E. by rewrite app_nil_r in E.
Qed.

Lemma random_bytes_spec {R} (rand : R -> Z * R) n : forall r, length (random_bytes rand n r).1 = n /\ bytes_ok (random_bytes rand n r).1.
Proof.
  induction n as [|n IH]; intros r; cbn [random_bytes]; [split; [done|constructor]|]. destruct (rand r) as [x r1]. specialize (IH r1).
  destruct (random_bytes rand n r1) as [xs r2]. cbn [fst length] in *. destruct IH as [IH Hb]. split; [lia|]. constructor; [|done].
  unfold byte_ok. change 255 with (Z.ones 8). rewrite Z.land_ones by lia. apply Z.mod_pos_bound. lia.
Qed.

(** The algorithms the server offers. *)
Definition server_lists : list ssh_name_list :=
  [[kex_name]; [host_key_name]; [cipher_name]; [cipher_name]; [mac_name]; [mac_name]; [no_compression]; [no_compression]; []; []].

Lemma server_kexinit_text {R} (rand : R -> Z * R) r :
  (prepare_server_kexinit rand r).1 = kexinit_text (random_bytes rand 16 r).1 server_lists 0 0.
Proof.
  unfold prepare_server_kexinit, kexinit_text, server_lists. destruct (random_bytes rand 16 r) as [c r']. cbn [fst].
  rewrite !append_name_list_str by (vm_compute; reflexivity). rewrite <- !app_assoc. reflexivity.
Qed.

(** ** Integers, the exchange hash and the keys *)

(** The bytes of a non-negative number in an [mpint]: big-endian, the first bit clear, and
    no byte that could be left out. *)
Definition mpint_bytes (l : list Z) : Prop :=
  bytes_ok l /\ match l with [] => True | [x] => 0 < x < 128 | x :: y :: _ => x < 128 /\ (x = 0 -> 128 <= y) end.

Fixpoint lead_zeros (l : list Z) : nat := match l with [] => O | x :: l => if x =? 0 then S (lead_zeros l) else O end.

Lemma zeros_loop_spec l : forall pre post, zeros_loop (length l) (pre ++ l ++ post) (zlen pre) = Some (zlen pre + Z.of_nat (lead_zeros l)).
Proof.
  induction l as [|x l IH]; intros pre post; cbn [length zeros_loop lead_zeros]; [by rewrite Z.add_0_r|].
  cbn [app]. rewrite mget_app_mid. destruct (Z.eqb_spec x 0) as [->|Hx]; [|by rewrite Z.add_0_r].
  specialize (IH (pre ++ [0]) post). rewrite <- app_assoc, zlen_app in IH. cbn [app] in IH. change (zlen [0]) with 1 in IH. rewrite IH. f_equal. lia.
Qed.

Lemma lead_zeros_split l : exists d, l = replicate (lead_zeros l) 0 ++ d /\ match d with [] => True | x :: _ => x <> 0 end.
Proof.
  induction l as [|x l (d & E & Hd)]; [by exists []|]. cbn [lead_zeros]. destruct (Z.eqb_spec x 0) as [->|Hx]; [|by exists (x :: l)].
  exists d. cbn [replicate app]. by rewrite <- E.
Qed.

Lemma be_val_app l m : be_val (l ++ m) = be_val l * 256 ^ zlen m + be_val m.
Proof.
  induction m as [|z m IH] using rev_ind; [rewrite app_nil_r; change (256 ^ zlen []) with 1; change (be_val []) with 0; lia|].
  rewrite app_assoc, !be_val_snoc, IH, zlen_app, Z.pow_add_r by (unfold zlen; lia). change (256 ^ zlen [z]) with 256. lia.
Qed.

Lemma be_val_zeros k d : be_val (replicate k 0 ++ d) = be_val d.
Proof. induction k as [|k IH]; [done|exact IH]. Qed.

Lemma append_mpint_spec out l post : bytes_ok l -> zlen l < 2147483648 ->
  exists m, append_mpint out (l ++ post) (zlen l) = Some (out ++ str m) /\ mpint_bytes m /\ be_val m = be_val l.
Proof.
  intros Hb Hz. unfold append_mpint. pose proof (zlen_nonneg l) as Hl0. replace (Z.to_nat (zlen l)) with (length l) by (unfold zlen; lia).
  pose proof (zeros_loop_spec l [] post) as Ez. cbn [app] in Ez. change (zlen []) with 0 in Ez. rewrite Z.add_0_l in Ez. rewrite Ez. clear Ez.
  destruct (lead_zeros_split l) as (d & E & Hd). generalize dependent (lead_zeros l). intros k E. subst l.
  apply Forall_app in Hb as [_ Hb]. pose proof (zlen_nonneg d) as Hd0.
  assert (zlen (replicate k 0 ++ d) - Z.of_nat k = zlen d) as Ek by (rewrite zlen_app; unfold zlen; rewrite length_replicate; lia).
  rewrite Ek. assert (msub ((replicate k 0 ++ d) ++ post) (Z.of_nat k) (zlen d) = Some d) as Es.
  { rewrite <- app_assoc. replace (Z.of_nat k) with (zlen (replicate k 0)) by (unfold zlen; by rewrite length_replicate). apply msub_app_mid. }
  rewrite be_val_zeros. destruct d as [|x d].
  { change (zlen [] >? 0) with false. cbv iota. rewrite Es. exists []. split; [done|]. repeat split. constructor. }
  assert ((zlen (x :: d) >? 0) = true) as -> by (apply Z.gtb_lt; rewrite zlen_cons; pose proof (zlen_nonneg d); lia).
  assert (mget ((replicate k 0 ++ x :: d) ++ post) (Z.of_nat k) = Some x) as ->.
  { rewrite <- app_assoc. replace (Z.of_nat k) with (zlen (replicate k 0)) by (unfold zlen; by rewrite length_replicate). apply mget_app_mid. }
  rewrite Es. apply Forall_cons_iff in Hb as [Hx Hb]. rewrite land_128 by done. unfold byte_ok in Hx.
  destruct (Z.ltb_spec x 128) as [H128|H128]; cbn [negb].
  - exists (x :: d). rewrite Z.add_0_r, u32_small, put_u32_be by lia. split; [done|]. split; [|done]. split; [by constructor|].
    destruct d; [lia|]. split; [lia|]. intros ->. done.
  - exists (0 :: x :: d). rewrite u32_small, put_u32_be by lia. split.
    + unfold str. do 4 f_equal. rewrite (zlen_cons 0). lia.
    + split; [|done]. split; [constructor; [done|by constructor]|]. split; lia.
Qed.

(** The text the exchange hash is the hash of, RFC 4253 and RFC 5656. *)
Definition exchange_text (vc vs ci si ks qc qs m : list Z) : list Z :=
  str vc ++ str vs ++ str ci ++ str si ++ str ks ++ str qc ++ str qs ++ str m.

Lemma str_ok s : bytes_ok s -> bytes_ok (str s).
Proof. intros Hs. apply Forall_app_2; [apply be_bytes_ok|done]. Qed.

Lemma append_mpint_out out l n : append_mpint out l n = (t <- append_mpint [] l n;; Some (out ++ t)).
Proof. unfold append_mpint. destruct zeros_loop; [|done]. destruct (if _ >? 0 then _ else _); [|done]. by destruct msub. Qed.

(** The integer has at most one byte more than the number it was made from. *)
Lemma mpint_short m k : mpint_bytes m -> bytes_ok k -> be_val m = be_val k -> zlen m <= zlen k + 1.
Proof.
  intros [Hmb Hm] Hk Ev. pose proof (be_val_range k Hk) as Hr. rewrite <- Ev in Hr. pose proof (zlen_nonneg k) as Hk0.
  destruct (Z.le_gt_cases (zlen m) (zlen k + 1)) as [|Hgt]; [done|exfalso]. destruct m as [|x [|y m]]; [unfold zlen in Hgt; simpl in Hgt; unfold zlen in *; lia..|].
  destruct Hm as [Hx Hy]. assert (256 ^ zlen k <= be_val (x :: y :: m)); [|lia]. rewrite !zlen_cons in Hgt. rewrite !Forall_cons_iff in Hmb. destruct Hmb as (Bx & By & Bm).
  pose proof (be_val_range m Bm) as Hrm. change (x :: y :: m) with ([x; y] ++ m). rewrite be_val_app. change (be_val [x; y]) with ((0 * 256 + x) * 256 + y).
  unfold byte_ok in *. assert (256 ^ zlen k <= 256 ^ zlen m) by (apply Z.pow_le_mono_r; lia).
  assert (1 <= (0 * 256 + x) * 256 + y) by (destruct (Z.eq_dec x 0) as [Hx0|]; [specialize (Hy Hx0)|]; lia). nia.
Qed.

Lemma exchange_hash_spec stk vc vs ci si ks qc qs k out m : length (data stk) = 64%nat -> bytes_ok (data stk) -> length out = 32%nat ->
  Forall (fun s => bytes_ok s /\ zlen s < 268435456) [vc; vs; ci; si; ks; qc; qs] -> append_mpint [] k 32 = Some (str m) -> bytes_ok m -> zlen m <= 33 ->
  build_exchange_hash stk vc vs ci si ks qc qs k out = Some (fips_sha256 (exchange_text vc vs ci si ks qc qs m)).
Proof.
  intros Hd Hdb Ho Hs Ek Hm Hl. unfold build_exchange_hash. rewrite !Forall_cons_iff in Hs. destruct Hs as (H1 & H2 & H3 & H4 & H5 & H6 & H7 & _).
  rewrite !append_ssh_string_str by lia. cbn [app]. rewrite append_mpint_out, Ek.
  match goal with |- sha256 _ ?t _ _ = _ => assert (t = exchange_text vc vs ci si ks qc qs m) as -> by (unfold exchange_text; by rewrite <- !app_assoc) end.
  assert (zlen (exchange_text vc vs ci si ks qc qs m) < 4294967296) as Hz by (unfold exchange_text; rewrite !zlen_app, !zlen_str; lia).
  pose proof (zlen_nonneg (exchange_text vc vs ci si ks qc qs m)). rewrite u32_small by lia. rewrite <- (app_nil_r (exchange_text _ _ _ _ _ _ _ _)) at 1.
  apply sha256_one_call; [done|done| |done]. unfold exchange_text. do 7 (apply Forall_app_2; [apply str_ok; intuition|]). by apply str_ok.
Qed.

Lemma derive_key_spec stk buf hash K H id X out n : length (data stk) = 64%nat -> bytes_ok (data stk) -> length hash = 32%nat -> length buf = 1024%nat ->
  bytes_ok K -> bytes_ok H -> bytes_ok id -> byte_ok X -> zlen K + zlen H + 1 + zlen id <= 1024 -> length out = n -> (n <= 32)%nat ->
  derive_key stk buf hash K H id X out (Z.of_nat n) = Some (take n (fips_sha256 (K ++ H ++ [X] ++ id))).
Proof.
  intros Hd Hdb Hh Hb HK HH Hi HX Hz Ho Hn. unfold derive_key. pose proof (zlen_nonneg K). pose proof (zlen_nonneg H). pose proof (zlen_nonneg id).
  assert (exists b1 b2 b3 b4 b5, buf = b1 ++ b2 ++ [b3] ++ b4 ++ b5 /\ zlen b1 = zlen K /\ zlen b2 = zlen H /\ zlen b4 = zlen id) as (b1 & b2 & b3 & b4 & b5 & -> & E1 & E2 & E4).
  { destruct (zsplit buf (zlen K)) as (b1 & r & -> & E1); [unfold zlen in *; lia|]. rewrite length_app in Hb. destruct (zsplit r (zlen H)) as (b2 & r2 & -> & E2); [unfold zlen in *; lia|].
    rewrite length_app in Hb. destruct r2 as [|b3 r3]; [simpl in Hb; unfold zlen in *; lia|]. cbn [length] in Hb. destruct (zsplit r3 (zlen id)) as (b4 & b5 & -> & E4); [unfold zlen in *; lia|].
    exists b1, b2, b3, b4, b5. done. }
  rewrite mcpy_0 by done. rewrite mcpy_app_mid by done. rewrite (app_assoc K), <- zlen_app. cbn [app]. rewrite mset_app_mid.
  replace (zlen (K ++ H) + 1) with (zlen ((K ++ H) ++ [X])) by (rewrite (zlen_app _ [X]); done).
  replace ((K ++ H) ++ X :: b4 ++ b5) with (((K ++ H) ++ [X]) ++ b4 ++ b5) by (by rewrite <- (app_assoc _ [X])). rewrite mcpy_app_mid by done.
  rewrite (app_assoc _ id), <- zlen_app. rewrite sha256_one_call; [|done|done| |done].
  2:{ repeat apply Forall_app_2; (done || by apply Forall_singleton). }
  rewrite <- !app_assoc. set (h := fips_sha256 _). assert (length h = 32%nat) as Eh by apply (fips_sha256_shape _).
  assert ((if Z.of_nat n <=? 32 then Z.of_nat n else 32) = Z.of_nat n) as -> by (destruct (Z.leb_spec (Z.of_nat n) 32); lia).
  rewrite <- (take_drop n h) at 1. assert (zlen (take n h) = Z.of_nat n) as Et by (unfold zlen; rewrite length_take; lia).
  pose proof (msub_app_mid [] (take n h) (drop n h)) as E. rewrite Et in E. cbn [app] in E. change (zlen []) with 0 in E. rewrite E.
  rewrite <- (app_nil_r out). rewrite mcpy_0 by (unfold zlen in *; lia). by rewrite app_nil_r.
Qed.

(** ** Requests *)

Lemma read_str p o s pre post : p = pre ++ str s ++ post -> o = zlen pre -> zlen p < 2147483648 -> read_ssh_string p o = Some (Some (s, o + 4 + zlen s)).
Proof. intros -> -> Hz. by apply read_ssh_string_at. Qed.

Lemma read_num p o n pre post : p = pre ++ be_bytes 4 n ++ post -> o = zlen pre -> 0 <= n < 4294967296 -> get_u32 p o = Some n.
Proof. intros -> -> Hn. by apply get_u32_at. Qed.

Lemma zlen_be n : zlen (be_bytes 4 n) = 4.
Proof. unfold zlen. by rewrite be_bytes_length. Qed.

(** Lengths of what the messages consist of. *)
Ltac lens := rewrite ?zlen_app, ?zlen_str, ?zlen_be, ?zlen_cons, ?zlen_nil in *;
  repeat match goal with
    | |- context [zlen ?l] => lazymatch goal with H : 0 <= zlen l |- _ => fail | _ => pose proof (zlen_nonneg l) end
    | _ : context [zlen ?l] |- _ => lazymatch goal with H : 0 <= zlen l |- _ => fail | _ => pose proof (zlen_nonneg l) end
    end; lia.

(** [pre] is what was read so far. *)
Ltac read_at pre := erewrite (read_str _ _ _ pre); [|rewrite <- ?app_assoc; reflexivity|lens|lens]; cbv iota beta.
Ltac room := match goal with |- context [if ?a >? ?b then _ else _] => destruct (Z.gtb_spec a b); [lens|] end.
Ltac num_at pre := erewrite (read_num _ _ _ pre); [|rewrite <- ?app_assoc; reflexivity|lens|first [done|lia]]; cbv iota beta.

Lemma parse_userauth_password u svc b pw x : zlen ([50] ++ str u ++ str svc ++ str password_method ++ [b] ++ str pw ++ x) < 2147483648 ->
  parse_userauth_request ([50] ++ str u ++ str svc ++ str password_method ++ [b] ++ str pw ++ x) = Some (Some (mkUserAuth u svc password_method pw)).
Proof.
  intros Hz. unfold parse_userauth_request. read_at [50]. read_at ([50] ++ str u). read_at ([50] ++ str u ++ str svc).
  rewrite bool_decide_eq_true_2 by done. set (p := [50] ++ _) in *.
  assert (1 + 4 + zlen u + 4 + zlen svc + 4 + zlen password_method = zlen ([50] ++ str u ++ str svc ++ str password_method)) as -> by lens.
  destruct (Z.geb_spec (zlen ([50] ++ str u ++ str svc ++ str password_method)) (zlen p)); [exfalso; unfold p in *; lens|].
  assert (mget p (zlen ([50] ++ str u ++ str svc ++ str password_method)) = Some b) as ->.
  { unfold p. rewrite <- (mget_app_mid ([50] ++ str u ++ str svc ++ str password_method) b (str pw ++ x)). by rewrite <- !app_assoc. }
  unfold p in *. read_at ([50] ++ str u ++ str svc ++ str password_method ++ [b]). done.
Qed.

Lemma parse_userauth_other u svc m x : m <> password_method -> zlen ([50] ++ str u ++ str svc ++ str m ++ x) < 2147483648 ->
  parse_userauth_request ([50] ++ str u ++ str svc ++ str m ++ x) = Some (Some (mkUserAuth u svc m [])).
Proof.
  intros Hm Hz. unfold parse_userauth_request. read_at [50]. read_at ([50] ++ str u). read_at ([50] ++ str u ++ str svc).
  by rewrite bool_decide_eq_false_2.
Qed.

Lemma parse_channel_open_text ch ty id win mx x : 0 <= id < 4294967296 -> 0 <= win < 4294967296 -> 0 <= mx < 4294967296 ->
  zlen ([90] ++ str ty ++ be_bytes 4 id ++ be_bytes 4 win ++ be_bytes 4 mx ++ x) < 2147483648 ->
  parse_channel_open_request ch ([90] ++ str ty ++ be_bytes 4 id ++ be_bytes 4 win ++ be_bytes 4 mx ++ x) =
  Some (true, mkChannel ty id (u32 (server_channel_id ch + 1)) win mx).
Proof.
  intros Hi Hw Hm Hz. set (p := [90] ++ _) in *. unfold parse_channel_open_request. change p with (90 :: tl p). cbv iota. change (negb (90 =? SSH2_MSG_CHANNEL_OPEN)) with false. cbv iota.
  change (90 :: tl p) with p. unfold p in *. read_at [90].
  room. num_at ([90] ++ str ty).
  room. num_at ([90] ++ str ty ++ be_bytes 4 id).
  room. num_at ([90] ++ str ty ++ be_bytes 4 id ++ be_bytes 4 win).
  done.
Qed.

Lemma str_split s : str s = be_bytes 4 (zlen s) ++ s.
Proof. done. Qed.

Lemma msub_str p o s pre post : p = pre ++ s ++ post -> o = zlen pre -> msub p o (zlen s) = Some s.
Proof. intros -> ->. apply msub_app_mid. Qed.

Lemma parse_channel_request_text id ty w d : 0 <= id < 4294967296 -> zlen ([98] ++ be_bytes 4 id ++ str ty ++ [w] ++ d) < 2147483648 ->
  parse_channel_request ([98] ++ be_bytes 4 id ++ str ty ++ [w] ++ d) = Some (Some (mkRequest id ty (negb (w =? 0)) d)).
Proof.
  intros Hi Hz. unfold parse_channel_request. room. num_at [98].
  room. rewrite str_split in *. rewrite <- !(app_assoc (be_bytes 4 (zlen ty))) in *.
  erewrite (read_num _ _ (zlen ty) ([98] ++ be_bytes 4 id)); [|rewrite <- ?app_assoc; reflexivity|lens|lens]. cbv iota beta.
  rewrite u32_small by lens. room.
  erewrite (msub_str _ _ ty ([98] ++ be_bytes 4 id ++ be_bytes 4 (zlen ty))); [|rewrite <- ?app_assoc; reflexivity|lens].
  set (pre := [98] ++ be_bytes 4 id ++ be_bytes 4 (zlen ty) ++ ty).
  assert (9 + zlen ty = zlen pre) as E by (unfold pre; lens). rewrite E.
  match goal with |- context [if ?a >=? ?b then _ else _] => destruct (Z.geb_spec a b); [unfold pre in *; lens|] end.
  replace ([98] ++ be_bytes 4 id ++ be_bytes 4 (zlen ty) ++ ty ++ [w] ++ d) with (pre ++ w :: d) by (unfold pre; by rewrite <- !app_assoc).
  rewrite mget_app_mid. do 3 f_equal. replace (Z.to_nat (zlen pre + 1)) with (length (pre ++ [w])) by (rewrite length_app; unfold zlen; simpl; lia).
  replace (pre ++ w :: d) with ((pre ++ [w]) ++ d) by (by rewrite <- app_assoc). apply drop_app_length.
Qed.

Lemma parse_channel_data_text id d x : 0 <= id < 4294967296 -> zlen ([94] ++ be_bytes 4 id ++ str d ++ x) < 2147483648 ->
  parse_channel_data_request ([94] ++ be_bytes 4 id ++ str d ++ x) = Some (Some (id, d)).
Proof.
  intros Hi Hz. unfold parse_channel_data_request. room. num_at [94].
  room. rewrite str_split in *. rewrite <- !(app_assoc (be_bytes 4 (zlen d))) in *.
  erewrite (read_num _ _ (zlen d) ([94] ++ be_bytes 4 id)); [|rewrite <- ?app_assoc; reflexivity|lens|lens]. cbv iota beta.
  rewrite u32_small by lens. room.
  erewrite (msub_str _ _ d ([94] ++ be_bytes 4 id ++ be_bytes 4 (zlen d))); [|rewrite <- ?app_assoc; reflexivity|lens]. done.
Qed.

Lemma u32_wraps a b : 0 <= a < 4294967296 -> 4294967296 - a <= b < 4294967296 -> u32 (a + b) = a + b - 4294967296.
Proof. intros. wrap_lia. Qed.

Lemma msub_outside p o n : zlen p < o + n -> msub p o n = None.
Proof. intros Hn. unfold msub. destruct (Z.leb_spec (o + n) (zlen p)); [lia|]. by rewrite andb_false_r. Qed.

(** ** Properties *)

(** C23: The messages of a client are read as RFC 4252 and RFC 4254 define them: a login
    with a password, a login by another method, a channel that is opened, a request on a
    channel and data on it, each field as it was put in and whatever follows. *)
Theorem ssh_requests_read u svc m b pw ty id win mx w d x ch :
  0 <= id < 4294967296 -> 0 <= win < 4294967296 -> 0 <= mx < 4294967296 -> m <> password_method ->
  zlen u + zlen svc + zlen m + zlen pw + zlen ty + zlen d + zlen x < 2147483000 ->
  parse_userauth_request ([SSH2_MSG_USERAUTH_REQUEST] ++ str u ++ str svc ++ str password_method ++ [b] ++ str pw ++ x) =
    Some (Some (mkUserAuth u svc password_method pw)) /\
  parse_userauth_request ([SSH2_MSG_USERAUTH_REQUEST] ++ str u ++ str svc ++ str m ++ x) = Some (Some (mkUserAuth u svc m [])) /\
  parse_channel_open_request ch ([SSH2_MSG_CHANNEL_OPEN] ++ str ty ++ be_bytes 4 id ++ be_bytes 4 win ++ be_bytes 4 mx ++ x) =
    Some (true, mkChannel ty id (u32 (server_channel_id ch + 1)) win mx) /\
  parse_channel_request ([98] ++ be_bytes 4 id ++ str ty ++ [w] ++ d) = Some (Some (mkRequest id ty (negb (w =? 0)) d)) /\
  parse_channel_data_request ([SSH2_MSG_CHANNEL_DATA] ++ be_bytes 4 id ++ str d ++ x) = Some (Some (id, d)).
Proof.
  intros Hi Hw Hm Hn Hz. split_and!.
  - apply parse_userauth_password. unfold password_method. lens.
  - apply parse_userauth_other; [done|lens].
  - apply parse_channel_open_text; try done. lens.
  - apply parse_channel_request_text; [done|lens].
  - apply parse_channel_data_text; [done|lens].
Qed.

(** The first message of the key exchange is read back: a cookie, ten lists of names
    that are not empty and have no comma, a flag and a number.  What the server sends is
    such a message, with the one algorithm it implements in each list. *)
Theorem ssh_kexinit_roundtrip {R} (rand : R -> Z * R) s c lss f r : length c = 16%nat -> length lss = 10%nat -> Forall (Forall name_ok) lss ->
  0 <= r < 4294967296 -> zlen (kexinit_text c lss f r) < 2147483648 ->
  parse_kex_init_fields (kexinit_text c lss f r) = Some (Some (kexinit_fields c lss f r)) /\
  exists c', parse_kex_init_fields (prepare_server_kexinit rand s).1 = Some (Some (mkKexInit c' [kex_name] [host_key_name] [cipher_name] [cipher_name]
    [mac_name] [mac_name] [no_compression] [no_compression] [] [] false 0)).
Proof.
  intros Hc Hl Hn Hr Hz. split; [by apply parse_kexinit_text|]. exists (random_bytes rand 16 s).1. rewrite server_kexinit_text.
  destruct (random_bytes_spec rand 16 s) as [H16 Hb]. rewrite parse_kexinit_text; [done|done|done| |done|].
  - unfold server_lists, name_ok, without. repeat constructor; try discriminate.
  - unfold kexinit_text. rewrite !zlen_app. unfold zlen at 2. rewrite H16. vm_compute. done.
Qed.

(** The exchange hash is the SHA-256 of the texts RFC 4253 and RFC 5656 name, with the
    shared secret as a multiple precision integer, and a key derived with a letter is the
    beginning of the SHA-256 of secret, hash, letter and session identifier. *)
Theorem ssh_keys_rfc4253 stk buf hash vc vs ci si ks qc qs k out X dest n : length (data stk) = 64%nat -> bytes_ok (data stk) -> length buf = 1024%nat ->
  length hash = 32%nat -> length out = 32%nat -> Forall (fun s => bytes_ok s /\ zlen s < 268435456) [vc; vs; ci; si; ks; qc; qs] -> bytes_ok k -> length k = 32%nat ->
  byte_ok X -> length dest = n -> (n <= 32)%nat ->
  exists m, mpint_bytes m /\ be_val m = be_val k /\ append_mpint [] k 32 = Some (str m) /\
    let h := fips_sha256 (exchange_text vc vs ci si ks qc qs m) in
    build_exchange_hash stk vc vs ci si ks qc qs k out = Some h /\
    derive_key stk buf hash (str m) h h X dest (Z.of_nat n) = Some (take n (fips_sha256 (str m ++ h ++ [X] ++ h))).
Proof.
  intros Hd Hdb Hb Hh Ho Hs Hk Hl HX Hn H32. destruct (append_mpint_spec [] k [] Hk) as (m & E & Hm & Ev); [unfold zlen; lia|].
  rewrite app_nil_r in E. unfold zlen in E. rewrite Hl in E. change (Z.of_nat 32) with 32 in E. cbn [app] in E.
  pose proof (mpint_short m k Hm Hk Ev) as Hmk. unfold zlen in Hmk at 2. rewrite Hl in Hmk. pose proof (proj1 Hm) as Hmb. exists m. split; [done|]. split; [done|]. split; [done|].
  cbv zeta. set (h := fips_sha256 _). destruct (fips_sha256_shape (exchange_text vc vs ci si ks qc qs m)) as [Hhl Hhb]. fold h in Hhl, Hhb. split.
  - apply exchange_hash_spec; done || lia.
  - apply derive_key_spec; try done; [by apply str_ok|]. rewrite zlen_str. unfold zlen in *. rewrite Hhl. lia.
Qed.

(** C38: The sum of an offset and a length is computed in 32 bits.  A length close to 2^32
    in the first string of a login, or in the first list of the key exchange, which is read
    before anything is encrypted, passes the check.  The characters from there on are copied,
    past the end of the message and, as the room reserved for the string wraps as well, of the
    string.  The constructor of the string stops the program for the length 2^32 - 1, and
    makes an empty one of a list that begins with NUL. *)
Theorem ssh_length_wraps c n x y z : length c = 16%nat -> n < 4294967296 -> zlen x < 2147483000 -> y <> 0 -> zlen z < 2147483000 ->
  (4294967296 - 5 <= n -> parse_userauth_request ([SSH2_MSG_USERAUTH_REQUEST] ++ be_bytes 4 n ++ x) = None) /\
  (4294967296 - 8 <= n < 4294967295 -> parse_kex_init_fields ([SSH2_MSG_KEXINIT] ++ c ++ be_bytes 4 n ++ y :: z) = None).
Proof.
  intros Hc Hn Hx Hy Hz. assert (zlen c = 16) as Ec by (unfold zlen; by rewrite Hc). split; intros H.
  - unfold parse_userauth_request, read_ssh_string. room. num_at [SSH2_MSG_USERAUTH_REQUEST]. rewrite u32_wraps by lia. room.
    rewrite msub_outside by lens. done.
  - unfold parse_kex_init_fields. set (p := [SSH2_MSG_KEXINIT] ++ _). assert (zlen p = 22 + zlen z) as Ep by (unfold p; lens).
    destruct (Z.ltb_spec (zlen p) 17); [lens|]. change (mget p 0) with (Some SSH2_MSG_KEXINIT). change (negb (SSH2_MSG_KEXINIT =? SSH2_MSG_KEXINIT)) with false. cbv iota.
    destruct (msub p 1 16); [|done]. unfold lists_loop at 1, parse_name_list. rewrite u32_small by lia. rewrite Ep. room.
    unfold p. num_at ([SSH2_MSG_KEXINIT] ++ c). rewrite u32_wraps by lia. room. unfold StrOps.string_at. destruct (Z.eqb_spec n 4294967295); [lia|].
    assert (mget ([SSH2_MSG_KEXINIT] ++ c ++ be_bytes 4 n ++ y :: z) (17 + 4) = Some y) as ->.
    { rewrite (app_assoc c), app_assoc. replace (17 + 4) with (zlen ([SSH2_MSG_KEXINIT] ++ c ++ be_bytes 4 n)) by lens. apply mget_app_mid. }
    cbn [mbind option_bind]. destruct (Z.eqb_spec y 0); [done|]. rewrite msub_outside by (unfold p in *; lens). done.
Qed.

(** ** Concrete instances *)

Lemma ssh_requests_read_witness :
  parse_userauth_request ([50] ++ str [98; 111; 98] ++ str [115] ++ str password_method ++ [0] ++ str [112; 119] ++ []) = Some (Some (mkUserAuth [98; 111; 98] [115] password_method [112; 119])) /\
  parse_userauth_request ([50] ++ str [98; 111; 98] ++ str [115] ++ str [110] ++ []) = Some (Some (mkUserAuth [98; 111; 98] [115] [110] [])) /\
  parse_channel_data_request ([94] ++ be_bytes 4 3 ++ str [108; 115] ++ []) = Some (Some (3, [108; 115])).
Proof.
  destruct (ssh_requests_read [98; 111; 98] [115] [110] 0 [112; 119] [116] 3 1024 2048 1 [108; 115] [] (mkChannel [] 0 0 0 0) ltac:(lia) ltac:(lia) ltac:(lia) ltac:(discriminate) ltac:(reflexivity))
    as (E1 & E2 & _ & _ & E5).
  split; [exact E1|]. split; [exact E2|exact E5].
Defined.

Lemma server_lists_named : Forall (Forall name_ok) server_lists.
Proof. unfold server_lists, name_ok, without. repeat constructor; discriminate. Qed.

Lemma ssh_kexinit_roundtrip_witness :
  parse_kex_init_fields (kexinit_text (replicate 16 1) server_lists 0 0) = Some (Some (kexinit_fields (replicate 16 1) server_lists 0 0)) /\
  exists c, parse_kex_init_fields (prepare_server_kexinit (fun x : Z => (x, x + 1)) 0).1 = Some (Some (mkKexInit c [kex_name] [host_key_name] [cipher_name] [cipher_name]
    [mac_name] [mac_name] [no_compression] [no_compression] [] [] false 0)).
Proof.
  apply (ssh_kexinit_roundtrip (fun x : Z => (x, x + 1)) 0 (replicate 16 1) server_lists 0 0); [reflexivity|reflexivity|apply server_lists_named|lia|reflexivity].
Defined.

Lemma ssh_keys_rfc4253_witness : exists m, mpint_bytes m /\ be_val m = be_val (replicate 32 200) /\
  let h := fips_sha256 (exchange_text [1] [2] [3] [4] [5] [6] [7] m) in
  derive_key (mk256 (replicate 64 7) 3 5 (replicate 8 1)) (replicate 1024 9) (replicate 32 9) (str m) h h 65 (replicate 16 0) 16 = Some (take 16 (fips_sha256 (str m ++ h ++ [65] ++ h))).
Proof.
  destruct (ssh_keys_rfc4253 (mk256 (replicate 64 7) 3 5 (replicate 8 1)) (replicate 1024 9) (replicate 32 9) [1] [2] [3] [4] [5] [6] [7] (replicate 32 200) (replicate 32 0) 65 (replicate 16 0) 16
    ltac:(reflexivity) ltac:(apply Forall_replicate; split; lia) ltac:(reflexivity) ltac:(reflexivity) ltac:(reflexivity)
    ltac:(apply (bool_decide_unpack (Forall (fun t => Forall (fun c => 0 <= c < 256) t /\ zlen t < 268435456) [_; _; _; _; _; _; _])); by vm_compute)
    ltac:(apply Forall_replicate; split; lia) ltac:(reflexivity) ltac:(split; lia) ltac:(reflexivity) ltac:(lia)) as (m & Hm & Ev & _ & _ & E).
  exists m. split; [exact Hm|]. split; [exact Ev|exact E].
Defined.

Lemma ssh_length_wraps_witness : parse_userauth_request ([50] ++ be_bytes 4 4294967294 ++ [1; 2]) = None /\
  parse_kex_init_fields ([20] ++ replicate 16 0 ++ be_bytes 4 4294967294 ++ [1; 2]) = None.
Proof.
  destruct (ssh_length_wraps (replicate 16 0) 4294967294 [1; 2] 1 [2] ltac:(reflexivity) ltac:(lia) ltac:(reflexivity) ltac:(lia) ltac:(reflexivity)) as [E1 E2]. split; [apply E1; lia|apply E2; lia].
Defined.

End SshMsg.
