(* ===== verification/SshServer.v ===== *)
(** * The SSH server ([src/service_provider/shell/ssh])

    The connection of a client up to its login: packets on the wire ([SSHServiceUtil.cpp]),
    the exchange of versions and keys and the login ([SSHServiceprovider.cpp]), on top of
    the network interface, the file systems, the sessions and the authentication service.

    The signature of the host key ([ed25519_sign]) and what happens on a channel after the
    login are arguments.  The handler for chunks of a large upload, which only file
    transfers set, is not set before the login.

    The theorems: a packet that was encrypted is decrypted to its payload by the other side
    and leaves both sides in step; the key exchange computes what RFC 8731 defines, with
    the key of the host in the place of a new one; and through every history of calls,
    whatever the network does, the channel state is reached only after a login that the
    authentication service accepted. *)

From stdpp Require Import base option list numbers gmap.
From Stdlib Require Import ZArith Lia.
From S2P Require Import Prelude Words Aes Fips180 Sha256 Sha1 Curve25519 ClientHelper Conversions StrOps Printf FileSys TmpFs LittleFs FsImpl Vfs FileStore UserStore Session Auth Command Shell SshMsg.

Open Scope Z_scope.

Module SshServer.
Import Aes Sha256 Sha1 Curve25519 ClientHelper Printf UserStore Session Auth Shell SshMsg.

(** ** The session *)

Inductive SessionState :=
  | SESSION_STATE_WAITING_FOR_CLIENT | SESSION_STATE_CLIENT_CONNECTED | SESSION_STATE_VEX_SEND | SESSION_STATE_VEX_RECV
  | SESSION_STATE_KEX_INIT_RECV | SESSION_STATE_KEX_INIT_SEND | SESSION_STATE_KEXDH_INIT_RECV | SESSION_STATE_KEXDH_INIT_SEND
  | SESSION_STATE_NEWKEYS_RECEIVED | SESSION_STATE_AUTHENTICATION_REQUEST | SESSION_STATE_CHANNEL_REQUEST
  | SESSION_STATE_SESSION_ESTABLISHED | SESSION_STATE_SESSION_TIMEOUT | SESSION_STATE_SESSION_CLOSE.

#[export] Instance SessionState_eq_dec : EqDecision SessionState.
Proof. solve_decision. Defined.

(** The number of a state. *)
Definition state_number (s : SessionState) : Z :=
  match s with
  | SESSION_STATE_WAITING_FOR_CLIENT => 0 | SESSION_STATE_CLIENT_CONNECTED => 1 | SESSION_STATE_VEX_SEND => 2 | SESSION_STATE_VEX_RECV => 3
  | SESSION_STATE_KEX_INIT_RECV => 4 | SESSION_STATE_KEX_INIT_SEND => 5 | SESSION_STATE_KEXDH_INIT_RECV => 6 | SESSION_STATE_KEXDH_INIT_SEND => 7
  | SESSION_STATE_NEWKEYS_RECEIVED => 8 | SESSION_STATE_AUTHENTICATION_REQUEST => 9 | SESSION_STATE_CHANNEL_REQUEST => 10
  | SESSION_STATE_SESSION_ESTABLISHED => 11 | SESSION_STATE_SESSION_TIMEOUT => 12 | SESSION_STATE_SESSION_CLOSE => 13
  end.

(** What the exchange of versions and keys collects. *)
Record exchange := mkExchange { m_client_version : list Z; m_server_version : list Z; m_client_kexinit : list Z; m_server_kexinit : list Z;
  m_server_kex_init_sent : Z; client_pubkey : list Z; m_server_ephermeral_pubkey : list Z; m_server_ephermeral_privkey : list Z;
  m_shared_secret_key : list Z; m_exchange_hash_h : list Z }.

(** The keys of both directions and the contexts made from them. *)
Record key_set := mkKeys { derived_iv_ctos : list Z; derived_iv_stoc : list Z; derived_enc_key_ctos : list Z; derived_enc_key_stoc : list Z;
  derived_mac_key_ctos : list Z; derived_mac_key_stoc : list Z; aes_ctx_ctos : AES_ctx; aes_ctx_stoc : AES_ctx }.

Record LWSSHSession := mkSsh { m_state : SessionState; m_sshpacket : list Z; s_exchange : exchange; s_keys : key_set;
  packets_seq_num_ctos : Z; packets_seq_num_stoc : Z; m_last_recv_timestamp : Z; m_session_timeout : Z; current_channel : SSHChannel }.

Definition set_state (x : SessionState) (s : LWSSHSession) : LWSSHSession :=
  mkSsh x (m_sshpacket s) (s_exchange s) (s_keys s) (packets_seq_num_ctos s) (packets_seq_num_stoc s) (m_last_recv_timestamp s) (m_session_timeout s) (current_channel s).
Definition set_packet (p : list Z) (s : LWSSHSession) : LWSSHSession :=
  mkSsh (m_state s) p (s_exchange s) (s_keys s) (packets_seq_num_ctos s) (packets_seq_num_stoc s) (m_last_recv_timestamp s) (m_session_timeout s) (current_channel s).
Definition set_exchange (x : exchange) (s : LWSSHSession) : LWSSHSession :=
  mkSsh (m_state s) (m_sshpacket s) x (s_keys s) (packets_seq_num_ctos s) (packets_seq_num_stoc s) (m_last_recv_timestamp s) (m_session_timeout s) (current_channel s).
Definition set_keys (k : key_set) (s : LWSSHSession) : LWSSHSession :=
  mkSsh (m_state s) (m_sshpacket s) (s_exchange s) k (packets_seq_num_ctos s) (packets_seq_num_stoc s) (m_last_recv_timestamp s) (m_session_timeout s) (current_channel s).
Definition set_seq (i o : Z) (s : LWSSHSession) : LWSSHSession :=
  mkSsh (m_state s) (m_sshpacket s) (s_exchange s) (s_keys s) i o (m_last_recv_timestamp s) (m_session_timeout s) (current_channel s).
Definition set_recv_time (t : Z) (s : LWSSHSession) : LWSSHSession :=
  mkSsh (m_state s) (m_sshpacket s) (s_exchange s) (s_keys s) (packets_seq_num_ctos s) (packets_seq_num_stoc s) t (m_session_timeout s) (current_channel s).

Definition set_aes_ctos (c : AES_ctx) (k : key_set) : key_set :=
  mkKeys (derived_iv_ctos k) (derived_iv_stoc k) (derived_enc_key_ctos k) (derived_enc_key_stoc k) (derived_mac_key_ctos k) (derived_mac_key_stoc k) c (aes_ctx_stoc k).
Definition set_aes_stoc (c : AES_ctx) (k : key_set) : key_set :=
  mkKeys (derived_iv_ctos k) (derived_iv_stoc k) (derived_enc_key_ctos k) (derived_enc_key_stoc k) (derived_mac_key_ctos k) (derived_mac_key_stoc k) (aes_ctx_ctos k) c.

Definition set_versions (c : list Z) (x : exchange) : exchange :=
  mkExchange c (m_server_version x) (m_client_kexinit x) (m_server_kexinit x) (m_server_kex_init_sent x) (client_pubkey x) (m_server_ephermeral_pubkey x)
    (m_server_ephermeral_privkey x) (m_shared_secret_key x) (m_exchange_hash_h x).
Definition set_client_kexinit (p : list Z) (x : exchange) : exchange :=
  mkExchange (m_client_version x) (m_server_version x) p (m_server_kexinit x) (m_server_kex_init_sent x) (client_pubkey x) (m_server_ephermeral_pubkey x)
    (m_server_ephermeral_privkey x) (m_shared_secret_key x) (m_exchange_hash_h x).
Definition set_server_kexinit (p : list Z) (sent : Z) (x : exchange) : exchange :=
  mkExchange (m_client_version x) (m_server_version x) (m_client_kexinit x) p sent (client_pubkey x) (m_server_ephermeral_pubkey x)
    (m_server_ephermeral_privkey x) (m_shared_secret_key x) (m_exchange_hash_h x).
Definition set_client_pubkey (k : list Z) (x : exchange) : exchange :=
  mkExchange (m_client_version x) (m_server_version x) (m_client_kexinit x) (m_server_kexinit x) (m_server_kex_init_sent x) k (m_server_ephermeral_pubkey x)
    (m_server_ephermeral_privkey x) (m_shared_secret_key x) (m_exchange_hash_h x).
Definition set_secrets (pub priv k h : list Z) (x : exchange) : exchange :=
  mkExchange (m_client_version x) (m_server_version x) (m_client_kexinit x) (m_server_kexinit x) (m_server_kex_init_sent x) (client_pubkey x) pub priv k h.

(** [SSH-2.0-LWSSH_0.1] *)
Definition server_version : list Z := [83; 83; 72; 45; 50; 46; 48; 45; 76; 87; 83; 83; 72; 95; 48; 46; 49].

(** What the local arrays and contexts of the calls hold at first, among them the contexts
    of a new session, which the constructor does not set. *)
Record stack := mkStack { k_sha256 : sha256_context; k_sha1 : SHA1_CTX; k_tk : list Z; k_temp : list Z; k_mac : list Z; k_ctr : list Z; k_buf : list Z;
  k_hash : list Z; k_tmp : list Z; k_aes : AES_ctx }.

Definition new_session (st : stack) : LWSSHSession :=
  mkSsh SESSION_STATE_WAITING_FOR_CLIENT [] (mkExchange [] server_version [] [] 0 [] [] [] (replicate 32 0) (replicate 32 0))
    (mkKeys (replicate 16 0) (replicate 16 0) (replicate 16 0) (replicate 16 0) (replicate 20 0) (replicate 20 0) (k_aes st) (k_aes st))
    0 0 0 10000 (mkChannel [] 0 0 0 0).

Section packets.
Context {W : Type} `{Net W} {R : Type}.
Variables (rand : R -> Z * R) (st : stack) (spin : nat).

(** ** Packets *)

(** [n] bytes, each followed by a call of [yield] when [y] is set. *)
Fixpoint read_bytes (n : nat) (y : bool) (w : W) : list Z * W :=
  match n with
  | O => ([], w)
  | S n => let '(c, w) := io_read w in let '(cs, w) := read_bytes n y (if y then dvc_yield w else w) in (c :: cs, w)
  end.

(** At most [n] bytes, as long as there are some. *)
Fixpoint read_available (n : nat) (y : bool) (w : W) : list Z * W :=
  match n with
  | O => ([], w)
  | S n =>
      let '(k, w) := io_available w in
      if k >? 0 then let '(c, w) := io_read w in let '(cs, w) := read_available n y (if y then dvc_yield w else w) in (c :: cs, w)
      else ([], w)
  end.

(** The same with the tests the other way round, and any number but zero as an answer. *)
Fixpoint read_rest (n : nat) (w : W) : list Z * W :=
  let '(k, w) := io_available w in
  match n with
  | O => ([], w)
  | S n =>
      if k =? 0 then ([], w)
      else let '(c, w) := io_read w in let '(cs, w) := read_rest n (dvc_yield w) in (c :: cs, w)
  end.

(** [payload.size() == payload_length && payload[0] < 101] *)
Definition payload_ok (payload : list Z) (payload_length : Z) : option bool :=
  if zlen payload =? payload_length then t <- mget payload 0;; Some (t <? 101) else Some false.

Definition parse_received_packet (s : LWSSHSession) (w : W) : option (Z * LWSSHSession * W) :=
  let '(n, w) := io_available w in
  if n <? 5 then Some (1, s, w)
  else
    let '(lenbuf, w) := read_bytes 4 false w in
    packet_length <- get_u32 lenbuf 0;;
    let '(padding_length, w) := io_read w in
    let payload_length := u32 (packet_length - padding_length - 1) in
    let '(payload, w) := read_available (Z.to_nat payload_length) true w in
    let '(_, w) := read_available (Z.to_nat padding_length) false w in
    bStatus <- payload_ok payload payload_length;;
    let s := set_seq (u32 (packets_seq_num_ctos s + 1)) (packets_seq_num_stoc s) (set_packet payload s) in
    Some (if bStatus : bool then 0 else -1, s, w).

(** The last twenty bytes, taken off one by one. *)
Definition split_mac (packetvec : list Z) : option (list Z * list Z) :=
  let n := (length packetvec - 20)%nat in
  if zlen packetvec <? 20 then None else Some (take n packetvec, drop n packetvec).

Definition packet_mac (key : list Z) (seq : Z) (packet : list Z) : option (list Z) :=
  let mac_input := put_u32 seq ++ packet in
  hmac_sha1 (k_sha1 st) (k_tk st) (k_temp st) key 20 mac_input (u32 (zlen mac_input)) (k_mac st).

(** The four bytes at the front as they came, and the length in them. *)
Definition encrypted_length (s : LWSSHSession) (w : W) : option (list Z * Z * W) :=
  let '(header, w) := read_bytes 4 true w in
  '(_, plain) <- AES_CTR_xcrypt_buffer (k_ctr st) (aes_ctx_ctos (s_keys s)) header 4;;
  packet_length <- get_u32 plain 0;;
  Some (header, packet_length, w).

Definition parse_encrypted_packet (s : LWSSHSession) (w : W) : option (Z * LWSSHSession * W) :=
  let '(n, w) := io_available w in
  if n <? 4 + 20 then Some (1, s, w)
  else
    '(header, packet_length, w) <- encrypted_length s w;;
    let '(rest, w) := read_rest (Z.to_nat (u32 (packet_length + 20))) w in
    '(packetvec, recv_mac) <- split_mac (header ++ rest);;
    '(ctx, packetvec) <- AES_CTR_xcrypt_buffer (k_ctr st) (aes_ctx_ctos (s_keys s)) packetvec (zlen packetvec);;
    let s := set_keys (set_aes_ctos ctx (s_keys s)) s in
    computed_mac <- packet_mac (derived_mac_key_ctos (s_keys s)) (packets_seq_num_ctos s) packetvec;;
    if negb (bool_decide (recv_mac = computed_mac)) then Some (-1, s, w)
    else
      let s := set_seq (u32 (packets_seq_num_ctos s + 1)) (packets_seq_num_stoc s) s in
      let w := dvc_yield w in
      padding_length <- mget packetvec 4;;
      let payload_length := u32 (packet_length - padding_length - 1) in
      payload <- msub packetvec 5 payload_length;;
      bStatus <- payload_ok payload payload_length;;
      Some (if bStatus : bool then 0 else -1, set_packet payload s, w).

Definition encrypt_ssh_payload (s : LWSSHSession) (payload : list Z) : option (list Z * LWSSHSession) :=
  computed_mac <- packet_mac (derived_mac_key_stoc (s_keys s)) (packets_seq_num_stoc s) payload;;
  '(ctx, enc) <- AES_CTR_xcrypt_buffer (k_ctr st) (aes_ctx_stoc (s_keys s)) payload (zlen payload);;
  Some (enc ++ computed_mac, set_keys (set_aes_stoc ctx (s_keys s)) s).

(** The padding, written byte by byte. *)
Fixpoint write_padding (n : nat) (r : R) (w : W) : bool * R * W :=
  match n with
  | O => (true, r, w)
  | S n =>
      let '(x, r) := rand r in
      let '(k, w) := io_write [Z.land x 255] w in
      if negb (k =? 1) then (false, r, w) else write_padding n r w
  end.

(** The payload is changed only when it is encrypted, and no caller uses it afterwards. *)
Definition send_server_ssh_packet (s : LWSSHSession) (payload : list Z) (encrypt : bool) (r : R) (w : W) : option (bool * LWSSHSession * R * W) :=
  let w := dvc_yield w in
  let sent (s : LWSSHSession) := set_seq (packets_seq_num_ctos s) (u32 (packets_seq_num_stoc s + 1)) s in
  if encrypt && (state_number (m_state s) >? state_number SESSION_STATE_NEWKEYS_RECEIVED) then
    let '(packet, r) := prepare_ssh_packet rand payload 16 r in
    '(packet, s) <- encrypt_ssh_payload s packet;;
    '(ok, w) <- sendPacket spin true (Some packet) (u16 (zlen packet)) 250 2000 w;;
    Some (if ok : bool then (true, sent s, r, w) else (false, s, r, w))
  else
    let padding := padding_len (zlen payload) 8 in
    let '(n, w) := io_write (packet_header (zlen payload) padding) w in
    if negb (n =? 5) then Some (false, s, r, w)
    else
      let '(n, w) := io_write payload w in
      if negb (n =? zlen payload) then Some (false, s, r, w)
      else
        let '(ok, r, w) := write_padding (Z.to_nat padding) r w in
        Some (if ok : bool then (true, sent s, r, w) else (false, s, r, w)).

Definition send_channel_open_confirmation (s : LWSSHSession) (window max_packet : Z) (r : R) (w : W) : option (bool * LWSSHSession * R * W) :=
  let ch := current_channel s in
  let reply := [SSH2_MSG_CHANNEL_OPEN_CONFIRMATION] ++ put_u32 (client_channel_id ch) ++ put_u32 (server_channel_id ch) ++ put_u32 window ++ put_u32 max_packet in
  send_server_ssh_packet s reply true r w.

Definition send_channel_data (s : LWSSHSession) (data : list Z) (length : Z) (r : R) (w : W) : option (bool * LWSSHSession * R * W) :=
  let chdatapayload := [SSH2_MSG_CHANNEL_DATA] ++ put_u32 (client_channel_id (current_channel s)) in
  chdatapayload <- append_ssh_chars chdatapayload data length;;
  send_server_ssh_packet s chdatapayload true r w.

End packets.

Section server.
Context {W : Type} `{Net W} {B : Type} `{iFileSystem B} {R : Type}.
Variables (rand : R -> Z * R) (st : stack) (spin : nat).

(** The signature of a message under a key pair. *)
Variable ed25519_sign : list Z -> list Z -> list Z -> list Z.

(** The terminal of the client, the server socket, and the handler of the channel state. *)
Variables (sshclient : nat) (hasClient : W -> bool * W) (accept : W -> W).
Variable handleChannelRequest : LWSSHSession -> world B R -> W -> option (LWSSHSession * world B R * W).

Record server := mkServer { m_session : option LWSSHSession; sv_world : world B R; sv_net : W }.

(** [rand] is that of the other services. *)
Definition set_rand (r : R) (w : world B R) : world B R := set_rng (mkRng (s_seeded (w_rng w)) r) w.

(** [send_server_ssh_packet] with the random numbers of the world. *)
Definition send (s : LWSSHSession) (payload : list Z) (encrypt : bool) (w : world B R) (n : W) : option (bool * LWSSHSession * world B R * W) :=
  '(ok, s, r, n) <- send_server_ssh_packet rand st spin s payload encrypt (r_state (w_rng w)) n;;
  Some (ok, s, set_rand r w, n).

(** Calls of [yield] on the way. *)
Definition yields (k : nat) (n : W) : W := Nat.iter k dvc_yield n.

(** ** The keys of the host *)

(** [.ssh], [ed25519], and the formats with two names, with [.pub]. *)
Definition SSH_DEFAULT_DIR : list Z := [46; 115; 115; 104].
Definition SSH_KEY_ALGO_ED25519_STR : list Z := [101; 100; 50; 53; 53; 49; 57].
Definition path_format : list Z := [37; 115; 47; 37; 115].
Definition pub_format : list Z := path_format ++ [46; 112; 117; 98].

(** A path printed into an array of [size] zero bytes. *)
Definition print_path (size : Z) (format dir name : list Z) : option (list Z) :=
  '(_, buf) <- __snprintf (k_tmp st) (Some (replicate (Z.to_nat size) 0)) size (Some (format ++ [0])) [VStr (Some (dir ++ [0])); VStr (Some (name ++ [0]))];;
  c_text buf.

(** What the callback keeps: no more pieces once there are more than [limit] bytes. *)
Definition keep_key (limit : Z) (acc data : list Z) : bool * list Z := (true, if zlen acc <=? limit then acc ++ data else acc).

(** [getSSHKeyPairs(SSH_KEY_ALGO_ED25519, pubkey, privkey)]; the call of [yield] at the end is
    made by the caller. *)
Definition getSSHKeyPairs (w : world B R) : option (option (list Z * list Z)) :=
  let homedir := FsImpl.m_home (w_dirs w) in
  sshdir <- print_path 30 path_format (if zlen homedir >? 1 then homedir else []) SSH_DEFAULT_DIR;;
  privkey_path <- print_path 45 path_format sshdir SSH_KEY_ALGO_ED25519_STR;;
  pubkey_path <- print_path 45 pub_format sshdir SSH_KEY_ALGO_ED25519_STR;;
  ex <- Vfs.isFileExist (w_fs w) (Some privkey_path);;
  if negb ex then Some None
  else
    ex <- Vfs.isFileExist (w_fs w) (Some pubkey_path);;
    if negb ex then Some None
    else
      '(_, pubkey) <- Vfs.readFile (env_of w) (w_fs w) (Some pubkey_path) 32 (keep_key 32) 0 None [];;
      '(_, privkey) <- Vfs.readFile (env_of w) (w_fs w) (Some privkey_path) 32 (keep_key 64) 0 None [];;
      Some (Some (pubkey, privkey)).

(** ** Versions *)

Definition isSessionTimeout (s : LWSSHSession) (n : W) : bool * W :=
  let '(t, n) := millis_now n in (u64 (t - m_last_recv_timestamp s) >? m_session_timeout s, n).

(** The line of the client so far. *)
Fixpoint version_loop (fuel : nat) (version : list Z) (n : W) : option (list Z * W) :=
  match fuel with
  | O => None
  | S fuel =>
      let '(k, n) := io_available n in
      if k >? 0 then
        let '(c, n) := io_read n in
        if c =? 10 then Some (version, n)
        else if c =? 13 then version_loop fuel version n
        else version_loop fuel (version ++ [c]) (dvc_wait 1 n)
      else Some (version, n)
  end.

Definition handleVersionExchange (s : LWSSHSession) (n : W) : option (LWSSHSession * W) :=
  let '(s, n) :=
    (if bool_decide (m_state s = SESSION_STATE_VEX_SEND) then
       let '(_, n) := io_write (m_server_version (s_exchange s)) n in
       let '(_, n) := io_write [13; 10] n in
       (set_state SESSION_STATE_VEX_RECV s, n)
     else (s, n)) in
  if bool_decide (m_state s = SESSION_STATE_VEX_RECV) then
    '(version, n) <- version_loop spin (m_client_version (s_exchange s)) n;;
    let s := set_exchange (set_versions version (s_exchange s)) s in
    let s := if (zlen version >? 4) && bool_decide (take 4 version = [83; 83; 72; 45]) then set_state SESSION_STATE_KEX_INIT_RECV s else s in
    let '(late, n) := isSessionTimeout s n in
    Some (if late : bool then set_state SESSION_STATE_SESSION_TIMEOUT s else s, n)
  else Some (s, n).

(** ** Keys *)

(** [create_server_ephemeral_keys]; [rand] enters as the sequence of its results. *)
Definition create_server_ephemeral_keys (rnd : Z -> Z) (ed25519privkey : list Z) : option (list Z * list Z) :=
  if zlen ed25519privkey >=? 32 then curve25519_create_keypair_with_ed25519privkey (replicate 32 0) (replicate 32 0) ed25519privkey
  else curve25519_create_keypair rnd (replicate 32 0) (replicate 32 0).

(** The results of [rand] from a state on, and the state after [i] calls. *)
Fixpoint rand_state (i : nat) (r : R) : R := match i with O => r | S i => rand_state i (rand r).2 end.
Definition rand_seq (r : R) (i : Z) : Z := (rand (rand_state (Z.to_nat i) r)).1.

(** [prepare_server_ecdh_reply]: the payload, and the session with the secrets. *)
Definition prepare_server_ecdh_reply (s : LWSSHSession) (pubkey privkey : list Z) (r : R) (n : W) : option (list Z * LWSSHSession * R * W) :=
  let x := s_exchange s in
  '(epub, epriv) <- create_server_ephemeral_keys (rand_seq r) privkey;;
  let r := if zlen privkey >=? 32 then r else rand_state 32 r in
  k <- crypto_scalarmult (m_shared_secret_key x) epriv (client_pubkey x);;
  let hostkey_blob := append_ssh_string (append_ssh_string [] host_key_name) pubkey in
  h <- build_exchange_hash (k_sha256 st) (m_client_version x) (m_server_version x) (m_client_kexinit x) (m_server_kexinit x) hostkey_blob (client_pubkey x) epub k
         (m_exchange_hash_h x);;
  let signature := ed25519_sign h pubkey privkey in
  let payload := append_ssh_string [SSH2_MSG_KEXDH_REPLY] hostkey_blob in
  let payload := append_ssh_string payload epub in
  let payload := append_ssh_string payload (append_ssh_string (append_ssh_string [] host_key_name) signature) in
  Some (payload, set_exchange (set_secrets epub epriv k h x) s, r, yields 4 n).

Definition close_if (bad : bool) (x : SessionState) (s : LWSSHSession) : LWSSHSession := set_state (if bad then SESSION_STATE_SESSION_CLOSE else x) s.

(** A packet in one of the two receiving states. *)
Definition receive_key_packet (s : LWSSHSession) (n : W) : option (LWSSHSession * W) :=
  '(parsestatus, s, n) <- parse_received_packet s n;;
  if parsestatus =? 0 then
    msg_type <- mget (m_sshpacket s) 0;;
    if msg_type =? SSH2_MSG_KEXINIT then
      let s := set_exchange (set_client_kexinit (m_sshpacket s) (s_exchange s)) s in
      f <- parse_kex_init_fields (m_sshpacket s);;
      Some (close_if (negb (bool_decide (is_Some f))) SESSION_STATE_KEX_INIT_SEND s, n)
    else if msg_type =? SSH2_MSG_KEXDH_INIT then
      k <- parse_kex_ecdh_init (m_sshpacket s);;
      Some (match k with
            | Some k => set_state SESSION_STATE_KEXDH_INIT_SEND (set_exchange (set_client_pubkey k (s_exchange s)) s)
            | None => set_state SESSION_STATE_SESSION_CLOSE s
            end, n)
    else Some (s, n)
  else Some (if parsestatus <? 0 then set_state SESSION_STATE_SESSION_CLOSE s else s, n).

Definition handleKeyExchange (s : LWSSHSession) (w : world B R) (n : W) : option (LWSSHSession * world B R * W) :=
  match m_state s with
  | SESSION_STATE_KEX_INIT_RECV | SESSION_STATE_KEXDH_INIT_RECV => '(s, n) <- receive_key_packet s n;; Some (s, w, n)
  | SESSION_STATE_KEX_INIT_SEND =>
      let x := s_exchange s in
      if m_server_kex_init_sent x >? 0 then Some (set_state SESSION_STATE_KEXDH_INIT_RECV s, w, n)
      else
        let '(payload, r) := prepare_server_kexinit rand (r_state (w_rng w)) in
        let s := set_exchange (set_server_kexinit payload (u8 (m_server_kex_init_sent x + 1)) x) s in
        '(ok, s, w, n) <- send s payload false (set_rand r w) n;;
        Some (close_if (negb ok) SESSION_STATE_KEXDH_INIT_RECV s, w, n)
  | SESSION_STATE_KEXDH_INIT_SEND =>
      keys <- getSSHKeyPairs w;;
      match keys with
      | None => Some (set_state SESSION_STATE_SESSION_CLOSE s, w, n)
      | Some (pubkey, privkey) =>
          '(payload, s, r, n) <- prepare_server_ecdh_reply s pubkey privkey (r_state (w_rng w)) (dvc_yield n);;
          '(ok, s, w, n) <- send s payload false (set_rand r w) n;;
          Some (close_if (negb ok) SESSION_STATE_NEWKEYS_RECEIVED s, w, n)
      end
  | _ => Some (s, w, n)
  end.

(** ** The login *)

(** The six keys and the two contexts. *)
Definition derive_keys (s : LWSSHSession) : option LWSSHSession :=
  let k := s_keys s in
  let h := m_exchange_hash_h (s_exchange s) in
  mpint_K <- append_mpint [] (m_shared_secret_key (s_exchange s)) 32;;
  let derive := derive_key (k_sha256 st) (k_buf st) (k_hash st) mpint_K h h in
  iv_ctos <- derive 65 (derived_iv_ctos k) 16;;
  iv_stoc <- derive 66 (derived_iv_stoc k) 16;;
  enc_ctos <- derive 67 (derived_enc_key_ctos k) 16;;
  enc_stoc <- derive 68 (derived_enc_key_stoc k) 16;;
  mac_ctos <- derive 69 (derived_mac_key_ctos k) 20;;
  mac_stoc <- derive 70 (derived_mac_key_stoc k) 20;;
  ctos <- AES_init_ctx_iv (aes_ctx_ctos k) enc_ctos iv_ctos;;
  stoc <- AES_init_ctx_iv (aes_ctx_stoc k) enc_stoc iv_stoc;;
  Some (set_keys (mkKeys iv_ctos iv_stoc enc_ctos enc_stoc mac_ctos mac_stoc ctos stoc) s).

(** [ssh-userauth] *)
Definition userauth_service : list Z := [115; 115; 104; 45; 117; 115; 101; 114; 97; 117; 116; 104].

(** The pair of a request is accepted; the strings go through [c_str]. *)
Definition check_request (req : option SSHUserAuthRequest) (w : world B R) : option (bool * world B R) :=
  match req with
  | Some q =>
      if (zlen (ua_username q) >? 1) && (zlen (ua_password q) >? 1) then check_password R w (until_nul (ua_username q)) (until_nul (ua_password q))
      else Some (false, w)
  | None => Some (false, w)
  end.

Definition handle_userauth (s : LWSSHSession) (w : world B R) (n : W) : option (LWSSHSession * world B R * W) :=
  req <- parse_userauth_request (m_sshpacket s);;
  '(bstatus, w) <- check_request req w;;
  if negb bstatus then
    let reply := append_ssh_string [SSH2_MSG_USERAUTH_FAILURE] password_method ++ [0] in
    '(_, s, w, n) <- send s reply true w n;;
    Some (s, w, n)
  else
    '(ok, s, w, n) <- send s [SSH2_MSG_USERAUTH_SUCCESS] true w n;;
    if ok : bool then
      let w := set_sessions (attach (w_sessions w) (Some sshclient)).2 w in
      '(m, a) <- setAuthorized (w_fs w) (w_sessions w) (w_auth w) (w_now w) (w_millis w) true;;
      Some (set_state SESSION_STATE_CHANNEL_REQUEST s, set_auth a (set_sessions m w), n)
    else Some (s, w, n).

Definition handleAuthentication (s : LWSSHSession) (w : world B R) (n : W) : option (LWSSHSession * world B R * W) :=
  '(parsestatus, s, n) <- (if state_number (m_state s) >? state_number SESSION_STATE_NEWKEYS_RECEIVED then parse_encrypted_packet st s n else parse_received_packet s n);;
  if parsestatus =? 0 then
    msg_type <- mget (m_sshpacket s) 0;;
    if msg_type =? SSH2_MSG_NEWKEYS then
      '(ok, s, w, n) <- send s [SSH2_MSG_NEWKEYS] false w n;;
      if ok : bool then s <- derive_keys s;; Some (set_state SESSION_STATE_AUTHENTICATION_REQUEST s, w, yields 6 n)
      else Some (set_state SESSION_STATE_SESSION_CLOSE s, w, n)
    else if msg_type =? SSH2_MSG_SERVICE_REQUEST then
      '(_, s, w, n) <- send s (append_ssh_string [SSH2_MSG_SERVICE_ACCEPT] userauth_service) true w n;;
      Some (s, w, n)
    else if msg_type =? SSH2_MSG_USERAUTH_REQUEST then handle_userauth s w n
    else Some (s, w, n)
  else Some (if parsestatus <? 0 then set_state SESSION_STATE_SESSION_CLOSE s else s, w, n).

(** ** The service *)

(** What the channel still has to send is part of its handler. *)
Definition closeSession (sv : server) : server :=
  let w := match m_session sv with Some _ => set_sessions (detach (w_sessions (sv_world sv)) (Some sshclient)) (sv_world sv) | None => sv_world sv end in
  let n := dvc_yield (dvc_wait 5 (dvc_yield (sv_net sv))) in
  match m_session sv with
  | Some _ => let '(_, n) := io_close n in let '(_, n) := io_close n in mkServer None w n
  | None => mkServer None w n
  end.

(** The session of a connected client. *)
Definition handle_session (s : LWSSHSession) (w : world B R) (n : W) : option server :=
  match m_state s with
  | SESSION_STATE_WAITING_FOR_CLIENT | SESSION_STATE_CLIENT_CONNECTED =>
      let '(t, n) := millis_now n in
      '(s, n) <- handleVersionExchange (set_state SESSION_STATE_VEX_SEND (set_recv_time t s)) n;;
      Some (mkServer (Some s) w n)
  | SESSION_STATE_VEX_RECV => '(s, n) <- handleVersionExchange s n;; Some (mkServer (Some s) w n)
  | SESSION_STATE_KEX_INIT_RECV | SESSION_STATE_KEX_INIT_SEND | SESSION_STATE_KEXDH_INIT_RECV | SESSION_STATE_KEXDH_INIT_SEND =>
      '(s, w, n) <- handleKeyExchange s w n;; Some (mkServer (Some s) w n)
  | SESSION_STATE_NEWKEYS_RECEIVED | SESSION_STATE_AUTHENTICATION_REQUEST =>
      '(s, w, n) <- handleAuthentication s w n;; Some (mkServer (Some s) w n)
  | SESSION_STATE_CHANNEL_REQUEST => '(s, w, n) <- handleChannelRequest s w n;; Some (mkServer (Some s) w n)
  | SESSION_STATE_SESSION_TIMEOUT | SESSION_STATE_SESSION_CLOSE => Some (closeSession (mkServer (Some s) w n))
  | SESSION_STATE_VEX_SEND | SESSION_STATE_SESSION_ESTABLISHED => Some (mkServer (Some s) w n)
  end.

Definition handle (sv : server) : option server :=
  let sv :=
    match m_session sv with
    | None =>
        let '(c, n) := hasClient (sv_net sv) in
        if c : bool then mkServer (Some (new_session st)) (sv_world sv) (accept n) else mkServer None (sv_world sv) n
    | Some _ => sv
    end in
  match m_session sv with
  | None => Some sv
  | Some s =>
      let '(c, n) := io_connected (sv_net sv) in
      if c : bool then handle_session s (sv_world sv) n
      else
        let '(c, n) := io_connected n in
        let sv := mkServer (Some s) (sv_world sv) n in
        Some (if c : bool then sv else closeSession sv)
  end.

End server.

(** ** Packets: lemmas *)

Record stack_ok (st : stack) : Prop := {
  so_sha256 : length (Sha256.data (k_sha256 st)) = 64%nat /\ bytes_ok (Sha256.data (k_sha256 st));
  so_sha1 : length (Sha1.buffer (k_sha1 st)) = 64%nat /\ bytes_ok (Sha1.buffer (k_sha1 st));
  so_mac : length (k_tk st) = 20%nat /\ length (k_temp st) = 20%nat /\ length (k_mac st) = 20%nat;
  so_ctr : length (k_ctr st) = 16%nat;
  so_derive : length (k_buf st) = 1024%nat /\ length (k_hash st) = 32%nat }.

Definition ctx_ok (c : AES_ctx) : Prop := keys_ok (RoundKey c) /\ block (Iv c).

(** The context after [n] bytes. *)
Definition ctx_after (c : AES_ctx) (n : Z) : AES_ctx := mkAES (RoundKey c) (counter (Iv c) ((n + 15) / 16)).

(** The bytes of the stream. *)
Definition stream (c : AES_ctx) (s : list Z) : list Z := ctr_out (RoundKey c) (Iv c) 0 s.

Lemma ctx_after_ok c n : ctx_ok c -> ctx_ok (ctx_after c n).
Proof. intros [Hk Hb]. split; [done|apply counter_block]. Qed.

Lemma ctr_spec stk c s : ctx_ok c -> length stk = 16%nat -> AES_CTR_xcrypt_buffer stk c s (zlen s) = Some (ctx_after c (zlen s), stream c s).
Proof.
  intros [Hk Hb] Hl. destruct c as [rk iv]. cbn [RoundKey Iv] in *.
  destruct (ctr_buffer_spec rk iv s [] 0 (mkAES rk iv) stk AES_BLOCKLEN Hk) as ([rk' iv'] & ks & bi & E & [_ Er Ev _ _ _]); [by apply at_pos_0|].
  rewrite !app_nil_r in E. unfold AES_CTR_xcrypt_buffer. rewrite E. cbn [RoundKey Iv] in Er, Ev. unfold ctx_after, stream. cbn [RoundKey Iv]. by rewrite Er, Ev.
Qed.

Lemma stream_app c a b : stream c (a ++ b) = stream c a ++ ctr_out (RoundKey c) (Iv c) (zlen a) b.
Proof. apply ctr_out_app. Qed.

Lemma zlen_stream c s : zlen (stream c s) = zlen s.
Proof. unfold zlen, stream. by rewrite ctr_out_length. Qed.

Lemma stream_twice c s : stream c (stream c s) = s.
Proof. apply ctr_out_twice. Qed.

Lemma packet_mac_spec st key seq packet : stack_ok st -> length key = 20%nat -> bytes_ok key -> bytes_ok packet -> zlen packet < 4294967000 ->
  packet_mac st key seq packet = Some (rfc2104 key (be_bytes 4 seq ++ packet)).
Proof.
  intros [_ [H1 H2] (H3 & H4 & H5) _ _] Hk Hkb Hp Hz. unfold packet_mac. rewrite put_u32_be. pose proof (zlen_nonneg packet).
  assert (zlen (be_bytes 4 seq ++ packet) = 4 + zlen packet) as E by (rewrite zlen_app, zlen_be; lia).
  rewrite u32_small by lia. replace 20 with (zlen key) by (unfold zlen; by rewrite Hk).
  apply hmac_sha1_is_rfc2104; try done; [|lia]. apply Forall_app_2; [apply be_bytes_ok|done].
Qed.

Definition same_net (w w' : SimNet) : Prop := sim_up w' = sim_up w /\ sim_accept w' = sim_accept w.

(** The network that holds [input] delivers it byte by byte. *)
Lemma read_bytes_sim y l : forall rest w, bytes_ok l -> sim_in w = l ++ rest ->
  exists w', read_bytes (length l) y w = (l, w') /\ sim_in w' = rest /\ same_net w w'.
Proof.
  induction l as [|x l IH]; intros rest w Hb Hw; [by exists w|]. apply Forall_cons_iff in Hb as [Hx Hb]. cbn [length read_bytes]. cbn [io_read sim_net]. unfold sim_read.
  rewrite Hw. cbn [app hd tl]. rewrite u8_small by (unfold byte_ok in Hx; lia).
  set (w1 := mkSim _ _ _ _ _ _). destruct (IH rest (if y then dvc_yield w1 else w1) Hb) as (w' & E & Hr & Hu); [by destruct y|]. rewrite E.
  exists w'. split; [done|]. split; [done|]. destruct Hu as [Hu1 Hu2]. unfold same_net. rewrite Hu1, Hu2. by destruct y.
Qed.

Lemma read_available_sim y n l : forall rest w, bytes_ok l -> sim_in w = l ++ rest -> length l = n \/ (length l <= n)%nat /\ rest = [] ->
  exists w', read_available n y w = (l, w') /\ sim_in w' = rest /\ same_net w w'.
Proof.
  revert n. induction l as [|x l IH]; intros n rest w Hb Hw Hn.
  - destruct n as [|n]; [by exists w|]. destruct Hn as [Hn|[_ ->]]; [done|]. cbn [read_available io_available sim_net]. rewrite Hw. by exists w.
  - destruct n as [|n]; [cbn [length] in Hn; lia|]. apply Forall_cons_iff in Hb as [Hx Hb]. cbn [read_available io_available io_read sim_net]. rewrite Hw. cbn [app].
    rewrite zlen_cons. pose proof (zlen_nonneg (l ++ rest)). destruct (Z.gtb_spec (1 + zlen (l ++ rest)) 0); [|lia].
    unfold sim_read. rewrite Hw. cbn [app hd tl]. rewrite u8_small by (unfold byte_ok in Hx; lia).
    set (w1 := mkSim _ _ _ _ _ _). destruct (IH n rest (if y then dvc_yield w1 else w1) Hb) as (w' & E & Hr & Hu); [by destruct y|cbn [length] in Hn; intuition lia|].
    rewrite E. exists w'. split; [done|]. split; [done|]. destruct Hu as [Hu1 Hu2]. unfold same_net. rewrite Hu1, Hu2. by destruct y.
Qed.

Lemma read_rest_sim l : forall rest w, bytes_ok l -> sim_in w = l ++ rest ->
  exists w', read_rest (length l) w = (l, w') /\ sim_in w' = rest /\ same_net w w'.
Proof.
  induction l as [|x l IH]; intros rest w Hb Hw; [by exists w|]. apply Forall_cons_iff in Hb as [Hx Hb]. cbn [length read_rest io_available io_read sim_net]. rewrite Hw. cbn [app].
  rewrite zlen_cons. pose proof (zlen_nonneg (l ++ rest)). destruct (Z.eqb_spec (1 + zlen (l ++ rest)) 0); [lia|].
  unfold sim_read. rewrite Hw. cbn [app hd tl]. rewrite u8_small by (unfold byte_ok in Hx; lia).
  set (w1 := mkSim _ _ _ _ _ _). destruct (IH rest (dvc_yield w1) Hb) as (w' & E & Hr & Hu); [done|]. rewrite E. by exists w'.
Qed.

Lemma split_mac_app p m : length m = 20%nat -> split_mac (p ++ m) = Some (p, m).
Proof.
  intros Hm. unfold split_mac. rewrite zlen_app. pose proof (zlen_nonneg p). assert (zlen m = 20) by (unfold zlen; by rewrite Hm).
  destruct (Z.ltb_spec (zlen p + zlen m) 20); [lia|]. rewrite length_app, Hm, Nat.add_sub. by rewrite take_app_length, drop_app_length.
Qed.

(** The frame around a payload: length, length of the padding, payload, padding. *)
Lemma padding_range n : 0 <= n -> 4 <= padding_len n 16 <= 19 /\ (n + 5 + padding_len n 16) mod 16 = 0.
Proof. intros Hn. unfold padding_len. cbv zeta. pose proof (Z.mod_pos_bound (n + 1 + 4) 16). destruct (Z.ltb_spec (16 - (n + 1 + 4) mod 16) 4); split; try lia; div_lia. Qed.

Lemma prepare_spec {R} (rand : R -> Z * R) payload r : bytes_ok payload -> zlen payload < 4294966000 ->
  exists pad, (prepare_ssh_packet rand payload 16 r).1 = be_bytes 4 (zlen payload + zlen pad + 1) ++ [zlen pad] ++ payload ++ pad /\
    4 <= zlen pad <= 19 /\ bytes_ok pad /\ (5 + zlen payload + zlen pad) mod 16 = 0.
Proof.
  intros Hb Hz. unfold prepare_ssh_packet. pose proof (zlen_nonneg payload) as H0. destruct (padding_range (zlen payload) H0) as [Hp Hm].
  destruct (random_bytes_spec rand (Z.to_nat (padding_len (zlen payload) 16)) r) as [Hl Hr]. destruct (random_bytes _ _ _) as [pad r']. cbn [fst] in *.
  assert (zlen pad = padding_len (zlen payload) 16) as E by (unfold zlen at 1; lia). exists pad. rewrite E.
  split; [|split; [done|split; [done|by replace (5 + zlen payload + padding_len (zlen payload) 16) with (zlen payload + 5 + padding_len (zlen payload) 16) by lia]]].
  unfold packet_header. rewrite put_u32_be, u32_small, u8_small by lia. by rewrite <- !app_assoc.
Qed.

Lemma stream_ok c s : ctx_ok c -> bytes_ok s -> bytes_ok (stream c s).
Proof.
  intros [Hk Hb] Hs. unfold stream, ctr_out. apply xor_bytes_ok; [done|]. apply Forall_map, Forall_true. intros j. unfold ctr_key.
  destruct (Cipher_spec _ _ Hk (counter_block (Iv c) ((0 + Z.of_nat j) / 16))) as [_ [Hl Hc]]. apply (Forall_lookup_total_1 _ _ _ Hc). pose proof (Z.mod_pos_bound (0 + Z.of_nat j) 16). lia.
Qed.

(** The sender [a] and the receiver [b] have the same keys and the same position. *)
Record in_step (a b : LWSSHSession) : Prop := {
  is_ctx : aes_ctx_stoc (s_keys a) = aes_ctx_ctos (s_keys b);
  is_mac : derived_mac_key_stoc (s_keys a) = derived_mac_key_ctos (s_keys b);
  is_seq : packets_seq_num_stoc a = packets_seq_num_ctos b;
  is_ok : ctx_ok (aes_ctx_stoc (s_keys a));
  is_key : length (derived_mac_key_stoc (s_keys a)) = 20%nat /\ bytes_ok (derived_mac_key_stoc (s_keys a)) }.

(** The frame of a payload and what goes over the wire. *)
Definition framed (payload pad : list Z) : list Z := be_bytes 4 (zlen payload + zlen pad + 1) ++ [zlen pad] ++ payload ++ pad.
Definition wire (a : LWSSHSession) (packet : list Z) : list Z :=
  stream (aes_ctx_stoc (s_keys a)) packet ++ rfc2104 (derived_mac_key_stoc (s_keys a)) (be_bytes 4 (packets_seq_num_stoc a) ++ packet).

Lemma framed_shape payload pad : bytes_ok payload -> bytes_ok pad -> zlen pad <= 19 -> bytes_ok (framed payload pad) /\ zlen (framed payload pad) = 5 + zlen payload + zlen pad.
Proof.
  intros Hp Hb Hz. unfold framed. split.
  - apply Forall_app_2; [apply be_bytes_ok|]. apply Forall_app_2; [|by apply Forall_app_2]. apply Forall_singleton. pose proof (zlen_nonneg pad). unfold byte_ok. lia.
  - rewrite !zlen_app, zlen_be. change (zlen [zlen pad]) with 1. lia.
Qed.

Lemma wire_shape a p : ctx_ok (aes_ctx_stoc (s_keys a)) -> bytes_ok p -> bytes_ok (wire a p) /\ zlen (wire a p) = zlen p + 20.
Proof.
  intros Hc Hp. unfold wire. split.
  - apply Forall_app_2; [by apply stream_ok|apply sha1_bytes].
  - rewrite zlen_app, zlen_stream. unfold rfc2104, zlen at 2. by rewrite sha1_length.
Qed.

Lemma encrypt_spec st a b p : stack_ok st -> in_step a b -> bytes_ok p -> zlen p < 4294967000 ->
  encrypt_ssh_payload st a p = Some (wire a p, set_keys (set_aes_stoc (ctx_after (aes_ctx_stoc (s_keys a)) (zlen p)) (s_keys a)) a).
Proof.
  intros Hst [_ _ _ Hc [Hk Hkb]] Hp Hz. unfold encrypt_ssh_payload. rewrite packet_mac_spec by done. cbn [mbind option_bind].
  rewrite ctr_spec by (done || apply Hst). done.
Qed.

(** The receiver's half. *)
Lemma decrypt_spec st a b t p pad later w : stack_ok st -> in_step a b -> let payload := t :: p in
  bytes_ok payload -> t < 101 -> bytes_ok pad -> zlen pad <= 19 -> zlen payload < 4294966000 -> sim_in w = wire a (framed payload pad) ++ later ->
  exists w', parse_encrypted_packet st b w = Some (0, set_packet payload (set_seq (u32 (packets_seq_num_ctos b + 1)) (packets_seq_num_stoc b)
      (set_keys (set_aes_ctos (ctx_after (aes_ctx_ctos (s_keys b)) (zlen (framed payload pad))) (s_keys b)) b)), w') /\ sim_in w' = later.
Proof.
  intros Hst [Ec Em Es Hc [Hk Hkb]] payload Hp Ht Hb Hz Hl Hw. destruct (framed_shape payload pad Hp Hb Hz) as [Hfb Hfz].
  destruct (wire_shape a _ Hc Hfb) as [Hwb Hwz]. unfold parse_encrypted_packet. cbn [io_available sim_net]. rewrite Hw, zlen_app, Hwz, Hfz.
  pose proof (zlen_nonneg payload). pose proof (zlen_nonneg pad). pose proof (zlen_nonneg later). destruct (Z.ltb_spec (5 + zlen payload + zlen pad + 20 + zlen later) (4 + 20)); [lia|].
  set (c := aes_ctx_stoc (s_keys a)) in *. set (n := zlen payload + zlen pad + 1). set (mac := rfc2104 (derived_mac_key_stoc (s_keys a)) (be_bytes 4 (packets_seq_num_stoc a) ++ framed payload pad)).
  set (hd := stream c (be_bytes 4 n)). set (tail := ctr_out (RoundKey c) (Iv c) 4 ([zlen pad] ++ payload ++ pad)).
  assert (stream c (framed payload pad) = hd ++ tail) as Ew.
  { unfold framed. fold n. rewrite stream_app. by rewrite zlen_be. }
  assert (length mac = 20%nat) as Hml by apply sha1_length.
  assert (wire a (framed payload pad) = hd ++ (tail ++ mac)) as Eww by (unfold wire; fold c mac; by rewrite Ew, <- app_assoc).
  assert (zlen hd = 4) as Hhd by (unfold hd; by rewrite zlen_stream, zlen_be).
  rewrite Eww in *. apply Forall_app in Hwb as [Hwb1 Hwb2]. rewrite <- app_assoc in Hw.
  destruct (read_bytes_sim true hd (tail ++ mac ++ later) w Hwb1) as (w1 & E1 & Hw1 & _); [by rewrite Hw, <- app_assoc|].
  replace (length hd) with 4%nat in E1 by (unfold zlen in Hhd; lia). unfold encrypted_length. rewrite E1.
  rewrite <- Ec. pose proof (ctr_spec (k_ctr st) c hd Hc (so_ctr _ Hst)) as E4. rewrite Hhd in E4. rewrite E4. cbn [mbind option_bind].
  unfold hd at 1. rewrite stream_twice. pose proof (get_u32_at [] n [] ltac:(unfold n; lia)) as En. rewrite app_nil_r in En. change (zlen []) with 0 in En. cbn [app] in En. rewrite En.
  rewrite u32_small by (unfold n; lia).
  assert (Z.to_nat (n + 20) = length (tail ++ mac)) as ->.
  { rewrite zlen_app, Hhd, Hfz in Hwz. unfold n. unfold zlen in *. lia. }
  destruct (read_rest_sim (tail ++ mac) later w1 Hwb2) as (w2 & E2 & Hw2 & _); [by rewrite Hw1, <- app_assoc|]. rewrite E2.
  rewrite app_assoc, split_mac_app by done. cbn [mbind option_bind]. rewrite <- Ew, ctr_spec by (done || apply Hst). cbn [mbind option_bind]. rewrite stream_twice, zlen_stream.
  cbn [s_keys set_keys set_aes_ctos derived_mac_key_ctos packets_seq_num_ctos]. rewrite <- Em, <- Es, packet_mac_spec by (done || lia). cbn [mbind option_bind].
  fold mac. rewrite bool_decide_eq_true_2 by done. cbn [negb].
  assert (mget (framed payload pad) 4 = Some (zlen pad)) as ->.
  { unfold framed. rewrite <- (zlen_be (zlen payload + zlen pad + 1)). apply mget_app_mid. }
  cbn [mbind option_bind]. replace (u32 (n - zlen pad - 1)) with (zlen payload) by (rewrite u32_small; unfold n; lia).
  assert (msub (framed payload pad) 5 (zlen payload) = Some payload) as ->.
  { apply (msub_str _ _ payload (be_bytes 4 (zlen payload + zlen pad + 1) ++ [zlen pad]) pad); [unfold framed; by rewrite <- app_assoc|]. rewrite zlen_app, zlen_be. done. }
  cbn [mbind option_bind]. unfold payload_ok. rewrite Z.eqb_refl. change (mget payload 0) with (Some t). cbn [mbind option_bind].
  destruct (Z.ltb_spec t 101); [|lia]. exists (dvc_yield w2). split; [by rewrite Hfz|done].
Qed.

(** The five bytes at the front. *)
Lemma received_front (m q : Z) (x : list Z) w : 0 <= m < 4294967296 -> 0 <= q < 256 -> sim_in w = be_bytes 4 m ++ [q] ++ x ->
  (zlen (sim_in w) <? 5) = false /\ exists w1 w2, read_bytes 4 false w = (be_bytes 4 m, w1) /\ get_u32 (be_bytes 4 m) 0 = Some m /\ io_read w1 = (q, w2) /\ sim_in w2 = x /\ same_net w w2.
Proof.
  intros Hm Hq Hw. split.
  { apply Z.ltb_ge. rewrite Hw, zlen_app, zlen_be, zlen_app. change (zlen [q]) with 1. pose proof (zlen_nonneg x). lia. }
  destruct (read_bytes_sim false (be_bytes 4 m) ([q] ++ x) w (be_bytes_ok _ _) Hw) as (w1 & E1 & Hw1 & Hs1). rewrite be_bytes_length in E1.
  pose proof (get_u32_at [] m [] Hm) as En. rewrite app_nil_r in En. change (zlen []) with 0 in En. cbn [app] in En.
  eexists w1, _. split; [done|]. split; [done|]. cbn [io_read sim_net]. unfold sim_read. rewrite Hw1. cbn [app hd tl]. rewrite u8_small by lia. split; [reflexivity|]. split; [done|exact Hs1].
Qed.

Lemma received_empty s q x w : 0 <= q < 256 -> sim_in w = be_bytes 4 (q + 1) ++ [q] ++ x -> parse_received_packet s w = None.
Proof.
  intros Hq Hw. destruct (received_front (q + 1) q x w ltac:(lia) Hq Hw) as (El & w1 & w2 & E1 & En & Er & _). unfold parse_received_packet. cbn [io_available sim_net].
  rewrite El, E1, En, Er. replace (u32 (q + 1 - q - 1)) with 0 by (rewrite u32_small; lia). change (read_available (Z.to_nat 0) true w2) with (@nil Z, w2). cbv iota beta. destruct (read_available _ _ _). reflexivity.
Qed.

Lemma received_part s payload pad k w : bytes_ok payload -> bytes_ok pad -> zlen pad < 256 -> 0 <= k < zlen payload -> zlen payload < 2147483648 -> sim_in w = take (Z.to_nat (5 + k)) (framed payload pad) ->
  exists s' n', parse_received_packet s w = Some (-1, s', n').
Proof.
  intros Hb Hpb Hz Hk Hk2 Hw. pose proof (zlen_nonneg pad). set (m := zlen payload + zlen pad + 1) in *.
  assert (sim_in w = be_bytes 4 m ++ [zlen pad] ++ take (Z.to_nat k) payload) as Hw'.
  { rewrite Hw. unfold framed. fold m. rewrite (app_assoc _ [_]), take_app_ge by (rewrite length_app, be_bytes_length; cbn [length]; lia). rewrite length_app, be_bytes_length. cbn [length].
    rewrite take_app_le by (unfold zlen in *; lia). rewrite <- app_assoc. do 3 f_equal. lia. }
  destruct (received_front m (zlen pad) _ w ltac:(unfold m; lia) ltac:(lia) Hw') as (El & w1 & w2 & E1 & En & Er & Hw2 & _). unfold parse_received_packet. cbn [io_available sim_net].
  rewrite El, E1, En, Er. replace (u32 (m - zlen pad - 1)) with (zlen payload) by (rewrite u32_small; unfold m; lia).
  destruct (read_available_sim true (Z.to_nat (zlen payload)) (take (Z.to_nat k) payload) [] w2) as (w3 & E3 & _); [by apply Forall_take|by rewrite app_nil_r|right; split; [rewrite length_take; unfold zlen in *; lia|done]|].
  rewrite E3. destruct (read_available _ _ w3) as [y w4]. unfold payload_ok.
  destruct (Z.eqb_spec (zlen (take (Z.to_nat k) payload)) (zlen payload)) as [E|_]; [unfold zlen in E; rewrite length_take in E; unfold zlen in Hk; lia|]. by eexists _, _.
Qed.

(** A packet that is not encrypted. *)
Lemma received_spec s t p pad later w : let payload := t :: p in bytes_ok payload -> t < 101 -> bytes_ok pad -> zlen pad < 256 -> zlen payload < 4294966000 ->
  sim_in w = framed payload pad ++ later ->
  exists w', parse_received_packet s w = Some (0, set_seq (u32 (packets_seq_num_ctos s + 1)) (packets_seq_num_stoc s) (set_packet payload s), w') /\ sim_in w' = later /\ same_net w w'.
Proof.
  intros payload Hp Ht Hb Hz Hl Hw. unfold framed in Hw. set (n := zlen payload + zlen pad + 1) in *. rewrite <- !app_assoc in Hw. pose proof (zlen_nonneg payload). pose proof (zlen_nonneg pad).
  destruct (received_front n (zlen pad) _ w ltac:(unfold n; lia) ltac:(lia) Hw) as (El & w1 & w2 & E1 & En & Er & Hw2 & Hs2). unfold parse_received_packet. cbn [io_available sim_net].
  rewrite El, E1, En, Er. replace (u32 (n - zlen pad - 1)) with (zlen payload) by (rewrite u32_small; unfold n; lia).
  destruct (read_available_sim true (Z.to_nat (zlen payload)) payload (pad ++ later) w2 Hp) as (w3 & E3 & Hw3 & Hs3); [done|left; unfold zlen; lia|]. rewrite E3.
  destruct (read_available_sim false (Z.to_nat (zlen pad)) pad later w3 Hb Hw3) as (w4 & E4 & Hw4 & Hs4); [left; unfold zlen; lia|]. rewrite E4.
  unfold payload_ok. rewrite Z.eqb_refl. change (mget payload 0) with (Some t). cbn [mbind option_bind]. destruct (Z.ltb_spec t 101); [|lia].
  exists w4. split; [done|]. split; [done|]. unfold same_net in *. destruct Hs2, Hs3, Hs4. split; congruence.
Qed.

Lemma write_padding_sim {R} (rand : R -> Z * R) k : forall r w, 1 <= sim_accept w ->
  exists r' w', write_padding rand k r w = (true, r', w') /\ sim_in w' = sim_in w /\ same_net w w'.
Proof.
  induction k as [|k IH]; intros r w Ha; [by exists r, w|]. cbn [write_padding]. destruct (rand r) as [x r1]. cbn [io_write sim_net]. unfold sim_write. change (zlen [Z.land x 255]) with 1.
  replace (Z.max 0 (Z.min 1 (sim_accept w))) with 1 by lia. change (negb (1 =? 1)) with false. cbv iota.
  match goal with |- context [write_padding rand k r1 ?v] => destruct (IH r1 v Ha) as (r' & w' & E & Hi & Hs) end. rewrite E. by exists r', w'.
Qed.

(** A packet in the clear, over a network that takes it. *)
Lemma send_plain_sim {B R} (rand : R -> Z * R) st spin s p e (w : world B R) n :
  e && (state_number (m_state s) >? state_number SESSION_STATE_NEWKEYS_RECEIVED) = false -> zlen p <= sim_accept n -> 5 <= sim_accept n ->
  exists r' n', send rand st spin s p e w n = Some (true, set_seq (packets_seq_num_ctos s) (u32 (packets_seq_num_stoc s + 1)) s, set_rand r' w, n') /\ sim_in n' = sim_in n /\ same_net n n'.
Proof.
  intros Hs Hp Ha. unfold send, send_server_ssh_packet. rewrite Hs.
  cbn [io_write sim_net dvc_yield]. unfold sim_write at 1. cbn [sim_accept sim_pass]. change (zlen (packet_header (zlen p) (padding_len (zlen p) 8))) with 5. pose proof (zlen_nonneg p).
  replace (Z.max 0 (Z.min 5 (sim_accept n))) with 5 by lia. change (negb (5 =? 5)) with false. cbv iota. unfold sim_write. cbn [sim_accept].
  replace (Z.max 0 (Z.min (zlen p) (sim_accept n))) with (zlen p) by lia. rewrite Z.eqb_refl. cbn [negb].
  match goal with |- context [write_padding rand ?k ?r ?w] => destruct (write_padding_sim rand k r w) as (r' & n' & E & Hi & Hn); [cbn; lia|]; rewrite E end. by exists r', n'.
Qed.

Lemma until_nul_text u : no_nul u -> until_nul u = u.
Proof. induction u as [|c u IH]; intros Hu; [done|]. apply Forall_cons_iff in Hu as [Hc Hu]. cbn [until_nul]. destruct (Z.eqb_spec c 0); [done|]. by rewrite IH. Qed.

(** Both sides after the packet. *)
Lemma in_step_next a b len (payload : list Z) : in_step a b ->
  in_step (set_seq (packets_seq_num_ctos a) (u32 (packets_seq_num_stoc a + 1)) (set_keys (set_aes_stoc (ctx_after (aes_ctx_stoc (s_keys a)) len) (s_keys a)) a))
    (set_packet payload (set_seq (u32 (packets_seq_num_ctos b + 1)) (packets_seq_num_stoc b) (set_keys (set_aes_ctos (ctx_after (aes_ctx_ctos (s_keys b)) len) (s_keys b)) b))).
Proof.
  intros [Ec Em Es Hc Hk]. split; cbn; [by rewrite Ec|done|by rewrite Es|by apply ctx_after_ok|done].
Qed.

(** ** The way to a login *)

Section history.
Context {W : Type} `{Net W} {B : Type} `{iFileSystem B} {R : Type}.
Variables (rand : R -> Z * R) (st : stack) (spin : nat) (ed25519_sign : list Z -> list Z -> list Z -> list Z).
Variables (sshclient : nat) (hasClient : W -> bool * W) (accept : W -> W).
Variable channel : LWSSHSession -> world B R -> W -> option (LWSSHSession * world B R * W).

#[local] Abbreviation call := (handle rand st spin ed25519_sign sshclient hasClient accept channel).

(** Everything of the world but the random numbers. *)
Definition services (w : world B R) := (w_fs w, w_sessions w, w_auth w, w_dirs w, w_locals w, w_now w, w_millis w).

Definition in_channel (sv : server (W := W) (B := B) (R := R)) : Prop := exists s, m_session sv = Some s /\ m_state s = SESSION_STATE_CHANNEL_REQUEST.

(** The call from [a] to [b] took a name and a password that the authentication service
    accepted, and attached the client and logged its session in. *)
Definition accepted_in (a b : server (W := W) (B := B) (R := R)) : Prop :=
  let w := sv_world a in
  exists u pw v l, isAuthorized (w_fs w) (w_sessions w) (w_auth w) (w_locals w) (w_now w) (Some u) (Some pw) = Some (true, v, l) /\
    setAuthorized v (attach (w_sessions w) (Some sshclient)).2 l (w_now w) (w_millis w) true = Some (w_sessions (sv_world b), w_auth (sv_world b)).

(** Calls of [handle], newest first, from a server without a client; between them the other
    services and the network do what they like. *)
Inductive history : list (server (W := W) (B := B) (R := R)) -> Prop :=
  | history_start sv : m_session sv = None -> history [sv]
  | history_call sv sv' tr : history (sv :: tr) -> call sv = Some sv' -> history (sv' :: sv :: tr)
  | history_other sv sv' tr : history (sv :: tr) -> m_session sv' = m_session sv -> history (sv' :: sv :: tr).

Lemma send_frame s p e (w : world B R) n ok s' w' n' : send rand st spin s p e w n = Some (ok, s', w', n') -> m_state s' = m_state s /\ services w' = services w.
Proof.
  unfold send, send_server_ssh_packet, encrypt_ssh_payload. intros E. repeat (case_match; simplify_option_eq); try done.
Qed.

Lemma received_frame s (n : W) k s' n' : parse_received_packet s n = Some (k, s', n') -> m_state s' = m_state s.
Proof. unfold parse_received_packet. intros E. repeat (case_match; simplify_option_eq); done. Qed.

Lemma encrypted_frame s (n : W) k s' n' : parse_encrypted_packet st s n = Some (k, s', n') -> m_state s' = m_state s.
Proof. unfold parse_encrypted_packet. intros E. repeat (case_match; simplify_option_eq); done. Qed.

Lemma version_frame s (n : W) s' n' : handleVersionExchange spin s n = Some (s', n') -> m_state s <> SESSION_STATE_CHANNEL_REQUEST -> m_state s' <> SESSION_STATE_CHANNEL_REQUEST.
Proof. unfold handleVersionExchange. intros E. repeat (case_match; simplify_option_eq); done. Qed.

Lemma key_packet_frame s (n : W) s' n' : receive_key_packet s n = Some (s', n') -> m_state s <> SESSION_STATE_CHANNEL_REQUEST -> m_state s' <> SESSION_STATE_CHANNEL_REQUEST.
Proof.
  unfold receive_key_packet. intros E Hs. destruct (parse_received_packet s n) as [[[k s1] n1]|] eqn:Ep; [|done]. apply received_frame in Ep. rewrite <- Ep in Hs. clear Ep.
  cbn [mbind option_bind] in E. unfold close_if in E. repeat (case_match; simplify_option_eq); done.
Qed.

Lemma key_exchange_frame s (w : world B R) n s' w' n' : handleKeyExchange rand st spin ed25519_sign s w n = Some (s', w', n') ->
  m_state s <> SESSION_STATE_CHANNEL_REQUEST -> m_state s' <> SESSION_STATE_CHANNEL_REQUEST /\ services w' = services w.
Proof.
  unfold handleKeyExchange. intros E Hs. destruct (m_state s) eqn:Es; simplify_eq; try (by rewrite Es).
  1,3: destruct (receive_key_packet s n) as [[s1 n1]|] eqn:Er; simplify_option_eq; apply key_packet_frame in Er; [done|by rewrite Es].
  - destruct (m_server_kex_init_sent (s_exchange s) >? 0); simplify_eq; [done|]. destruct (prepare_server_kexinit _ _) as [p r].
    destruct (send _ _ _ _ _ _ _ _) as [[[[ok s1] w1] n1]|] eqn:Ed; simplify_option_eq. apply send_frame in Ed as [_ Ed]. split; [by destruct ok|done].
  - destruct (getSSHKeyPairs st w) as [[[pub priv]|]|]; simplify_option_eq; [|done].
    destruct (prepare_server_ecdh_reply _ _ _ _ _ _ _ _) as [[[[p s1] r1] n1]|]; simplify_option_eq.
    destruct (send _ _ _ _ _ _ _ _) as [[[[ok s2] w2] n2]|] eqn:Ed; simplify_option_eq. apply send_frame in Ed as [_ Ed]. split; [by destruct ok|done].
Qed.

Lemma check_frame req (w w' : world B R) ok : check_request req w = Some (ok, w') -> w_sessions w' = w_sessions w /\ w_now w' = w_now w /\ w_millis w' = w_millis w /\
  (ok = true -> exists u pw, isAuthorized (w_fs w) (w_sessions w) (w_auth w) (w_locals w) (w_now w) (Some u) (Some pw) = Some (true, w_fs w', w_auth w')).
Proof.
  unfold check_request, check_password. intros E. destruct req as [q|]; [|by simplify_eq]. destruct (_ && _); [|by simplify_eq].
  destruct (isAuthorized _ _ _ _ _ _ _) as [[[k v] a]|] eqn:Ea; simplify_option_eq. repeat split. intros ->. eauto.
Qed.

Lemma userauth_frame s (w : world B R) n s' w' n' : handle_userauth rand st spin sshclient s w n = Some (s', w', n') -> m_state s <> SESSION_STATE_CHANNEL_REQUEST ->
  (exists u pw v l, isAuthorized (w_fs w) (w_sessions w) (w_auth w) (w_locals w) (w_now w) (Some u) (Some pw) = Some (true, v, l) /\
    setAuthorized v (attach (w_sessions w) (Some sshclient)).2 l (w_now w) (w_millis w) true = Some (w_sessions w', w_auth w')) \/
  m_state s' <> SESSION_STATE_CHANNEL_REQUEST /\ w_sessions w' = w_sessions w.
Proof.
  unfold handle_userauth. intros E Hs. destruct (parse_userauth_request (m_sshpacket s)) as [req|]; [|done]. cbn [mbind option_bind] in E.
  destruct (check_request req w) as [[ok w1]|] eqn:Ec; [|done]. apply check_frame in Ec as (Hss & Hn & Hm & Hok). cbn [mbind option_bind] in E. destruct ok; cbn [negb] in E.
  - destruct (send _ _ _ _ _ _ _ _) as [[[[ok s2] w2] n2]|] eqn:Ed; [|done]. apply send_frame in Ed as [Hs2 Hw2]. cbn [mbind option_bind] in E. injection Hw2 as E1 E2 E3 _ _ E4 E5.
    destruct ok; [|injection E as <- <- <-; right; split; [by rewrite Hs2|congruence]].
    destruct (setAuthorized _ _ _ _ _ _) as [[m l]|] eqn:Ea; [|done]. cbn [mbind option_bind] in E. injection E as <- <- <-.
    destruct (Hok eq_refl) as (u & pw & Hu). left. exists u, pw, (w_fs w1), (w_auth w1). split; [done|].
    cbn [w_fs w_sessions w_auth w_now w_millis set_sessions set_auth] in Ea |- *. by rewrite <- Hss, <- Hn, <- Hm, <- E1, <- E2, <- E3, <- E4, <- E5.
  - destruct (send _ _ _ _ _ _ _ _) as [[[[ok s2] w2] n2]|] eqn:Ed; simplify_option_eq. apply send_frame in Ed as [Hs2 Hw2]. unfold services in Hw2. right. split; [by rewrite Hs2|congruence].
Qed.

Lemma authentication_frame s (w : world B R) n s' w' n' : handleAuthentication rand st spin sshclient s w n = Some (s', w', n') -> m_state s <> SESSION_STATE_CHANNEL_REQUEST ->
  (exists u pw v l, isAuthorized (w_fs w) (w_sessions w) (w_auth w) (w_locals w) (w_now w) (Some u) (Some pw) = Some (true, v, l) /\
    setAuthorized v (attach (w_sessions w) (Some sshclient)).2 l (w_now w) (w_millis w) true = Some (w_sessions w', w_auth w')) \/
  m_state s' <> SESSION_STATE_CHANNEL_REQUEST /\ w_sessions w' = w_sessions w.
Proof.
  unfold handleAuthentication. intros E Hs.
  assert (exists k s1 n1, (if state_number (m_state s) >? state_number SESSION_STATE_NEWKEYS_RECEIVED then parse_encrypted_packet st s n else parse_received_packet s n) = Some (k, s1, n1) /\
    m_state s1 = m_state s) as (k & s1 & n1 & Ep & Hs1).
  { destruct (if state_number (m_state s) >? _ then parse_encrypted_packet st s n else _) as [[[k s1] n1]|] eqn:Ep; [|done]. exists k, s1, n1. split; [done|].
    destruct (state_number (m_state s) >? state_number SESSION_STATE_NEWKEYS_RECEIVED); [by eapply encrypted_frame|by eapply received_frame]. }
  rewrite Ep in E. rewrite <- Hs1 in Hs. clear Ep Hs1. cbn [mbind option_bind] in E. destruct (k =? 0); [|simplify_eq; right; by case_match].
  destruct (mget (m_sshpacket s1) 0) as [t|]; [|done]. cbn [mbind option_bind] in E. destruct (t =? SSH2_MSG_NEWKEYS).
  { right. destruct (send _ _ _ _ _ _ _ _) as [[[[ok s2] w2] n2]|] eqn:Ed; [|done]. apply send_frame in Ed as [Hs2 Hw2]. unfold services in Hw2.
    cbn [mbind option_bind] in E. destruct ok; [destruct (derive_keys st s2)|]; simplify_option_eq; (split; [done|congruence]). }
  destruct (t =? SSH2_MSG_SERVICE_REQUEST).
  { right. destruct (send _ _ _ _ _ _ _ _) as [[[[ok s2] w2] n2]|] eqn:Ed; simplify_option_eq. apply send_frame in Ed as [Hs2 Hw2]. unfold services in Hw2. split; [by rewrite Hs2|congruence]. }
  destruct (t =? SSH2_MSG_USERAUTH_REQUEST); [by apply userauth_frame in E|]. simplify_eq. by right.
Qed.

Lemma close_frame s (w : world B R) (n : W) : let sv := closeSession sshclient (mkServer (Some s) w n) in
  ~ in_channel sv /\ w_sessions (sv_world sv) = detach (w_sessions w) (Some sshclient).
Proof.
  unfold closeSession. cbn [m_session sv_world sv_net]. destruct (io_close _) as [x n1]. destruct (io_close n1) as [y n2]. cbn. split; [|done]. by intros (s' & ? & _).
Qed.

(** One call. *)
Lemma call_frame a b : call a = Some b -> ~ in_channel a ->
  accepted_in a b \/ ~ in_channel b /\ (w_sessions (sv_world b) = w_sessions (sv_world a) \/ w_sessions (sv_world b) = detach (w_sessions (sv_world a)) (Some sshclient)).
Proof.
  unfold handle. intros E Ha. set (a1 := match m_session a with None => _ | Some _ => _ end) in E.
  assert (sv_world a1 = sv_world a /\ ~ in_channel a1) as [Hw Ha1].
  { unfold a1. destruct (m_session a) eqn:Es; [done|]. destruct (hasClient _) as [[] n]; (split; [done|]); intros (s & [= <-] & Hs); done. }
  unfold accepted_in. rewrite <- Hw. clearbody a1. clear Ha Hw a. destruct (m_session a1) as [s|] eqn:Es; [|simplify_eq; by right; split; [|left]].
  destruct (io_connected (sv_net a1)) as [c n]. destruct c.
  2: { destruct (io_connected n) as [c n1]. simplify_eq. right. destruct c.
       - split; [|by left]. intros (s' & [= <-] & Hs'). apply Ha1. by exists s.
       - destruct (close_frame s (sv_world a1) n1) as [Hc Hw]. split; [done|by right]. }
  assert (m_state s <> SESSION_STATE_CHANNEL_REQUEST) as Hs by (intros Hs; apply Ha1; by exists s). unfold handle_session in E.
  assert (forall s' w' n', m_state s' <> SESSION_STATE_CHANNEL_REQUEST -> ~ in_channel (mkServer (Some s') w' n')) as Hno by (intros s' w' n' Hs' (s2 & [= <-] & ?); done).
  destruct (m_state s) eqn:Em; try done.
  1,2: destruct (millis_now n) as [t n1]; destruct (handleVersionExchange _ _ _) as [[s2 n2]|] eqn:Ev; simplify_option_eq; apply version_frame in Ev; [|done]; right; split; [by apply Hno|by left].
  1: simplify_eq; right; split; [apply Hno; by rewrite Em|by left].
  1: destruct (handleVersionExchange _ _ _) as [[s2 n2]|] eqn:Ev; simplify_option_eq; apply version_frame in Ev; [|by rewrite Em]; right; split; [by apply Hno|by left].
  1-4: destruct (handleKeyExchange _ _ _ _ _ _ _) as [[[s2 w2] n2]|] eqn:Ev; simplify_option_eq; apply key_exchange_frame in Ev as [Hs2 Hw2]; [|by rewrite Em]; right; split; [by apply Hno|left; cbn; unfold services in Hw2; congruence].
  1,2: destruct (handleAuthentication _ _ _ _ _ _ _) as [[[s2 w2] n2]|] eqn:Ev; simplify_option_eq; apply authentication_frame in Ev; [|by rewrite Em]; destruct Ev as [Ev|[Hs2 Hw2]]; [left; exact Ev|right; split; [by apply Hno|left; exact Hw2]].
  1: simplify_eq; right; split; [apply Hno; by rewrite Em|by left].
  all: simplify_eq; right; destruct (close_frame s (sv_world a1) n) as [Hc Hw]; split; [done|by right].
Qed.

(** The client has not been away since the login. *)
Lemma channel_after_login sv tr : history (sv :: tr) -> in_channel sv ->
  exists tr1 b a tr2, sv :: tr = tr1 ++ b :: a :: tr2 /\ call a = Some b /\ accepted_in a b /\ Forall (fun x => m_session x <> None) (tr1 ++ [b]).
Proof.
  intros Hh. remember (sv :: tr) as l eqn:El. revert sv tr El. induction Hh as [sv Hs0|sv0 sv tr' Hh IH E|sv0 sv tr' Hh IH E]; intros sv1 tr1 [= <- <-] Hc.
  - destruct Hc as (s & Hs & _). congruence.
  - assert (m_session sv <> None) as Hn by (destruct Hc as (s & -> & _); done).
    assert (accepted_in sv0 sv \/ in_channel sv0) as [Ha|Hc0].
    { destruct (m_session sv0) as [s0|] eqn:E0.
      - destruct (decide (m_state s0 = SESSION_STATE_CHANNEL_REQUEST)) as [Hs0|Hs0]; [right; by exists s0|]. destruct (call_frame _ _ E) as [?|[? _]]; [|by left|done]. intros (s & Hs & ?). congruence.
      - destruct (call_frame _ _ E) as [?|[? _]]; [|by left|done]. intros (s & Hs & ?). congruence. }
    + exists [], sv, sv0, tr'. split; [done|]. split; [done|]. split; [done|]. by apply Forall_singleton.
    + destruct (IH _ _ eq_refl Hc0) as (t1 & b & a & t2 & Et & Hab & Hac & Hf). exists (sv :: t1), b, a, t2. split; [by rewrite Et|]. split; [done|]. split; [done|]. by constructor.
  - assert (m_session sv <> None) as Hn by (destruct Hc as (s & -> & _); done). assert (in_channel sv0) as Hc0 by (unfold in_channel in *; by rewrite <- E).
    destruct (IH _ _ eq_refl Hc0) as (t1 & b & a & t2 & Et & Hab & Hac & Hf). exists (sv :: t1), b, a, t2. split; [by rewrite Et|]. split; [done|]. split; [done|]. by constructor.
Qed.

End history.

(** ** The key exchange *)

(** What RFC 4253 derives from the secret, the hash and a letter. *)
Definition rfc_key (m h : list Z) (X : Z) (n : nat) : list Z := take n (fips_sha256 (str m ++ h ++ [X] ++ h)).

Definition rfc_keys (m h : list Z) : key_set :=
  mkKeys (rfc_key m h 65 16) (rfc_key m h 66 16) (rfc_key m h 67 16) (rfc_key m h 68 16) (rfc_key m h 69 20) (rfc_key m h 70 20)
    (mkAES (fips_keys (rfc_key m h 67 16)) (rfc_key m h 65 16)) (mkAES (fips_keys (rfc_key m h 68 16)) (rfc_key m h 66 16)).

(** The arrays have their sizes. *)
Record keys_sized (k : key_set) : Prop := {
  ks_iv : length (derived_iv_ctos k) = 16%nat /\ length (derived_iv_stoc k) = 16%nat;
  ks_enc : length (derived_enc_key_ctos k) = 16%nat /\ length (derived_enc_key_stoc k) = 16%nat;
  ks_mac : length (derived_mac_key_ctos k) = 20%nat /\ length (derived_mac_key_stoc k) = 20%nat;
  ks_ctos : length (RoundKey (aes_ctx_ctos k)) = 176%nat /\ length (Iv (aes_ctx_ctos k)) = 16%nat;
  ks_stoc : length (RoundKey (aes_ctx_stoc k)) = 176%nat /\ length (Iv (aes_ctx_stoc k)) = 16%nat }.

Lemma rfc_key_block m h X : block (rfc_key m h X 16).
Proof. destruct (fips_sha256_shape (str m ++ h ++ [X] ++ h)) as [Hl Hb]. split; [unfold rfc_key; rewrite length_take; lia|by apply Forall_take]. Qed.

Lemma init_ctx_iv_spec c key iv : length (RoundKey c) = 176%nat -> length (Iv c) = 16%nat -> block key -> block iv ->
  AES_init_ctx_iv c key iv = Some (mkAES (fips_keys key) iv).
Proof.
  intros Hr Hi Hk [Hl _]. unfold AES_init_ctx_iv. destruct (KeyExpansion_spec _ _ Hr Hk) as [-> _].
  pose proof (msub_app_mid [] iv []) as E. rewrite app_nil_r in E. assert (zlen iv = 16) as Ez by (unfold zlen; lia). rewrite Ez in E. cbn [app] in E. change (zlen []) with 0 in E.
  change AES_BLOCKLEN with 16. rewrite E. rewrite <- (app_nil_r (Iv c)), mcpy_0 by (unfold zlen; lia). by rewrite app_nil_r.
Qed.

Lemma derive_keys_spec st s m : stack_ok st -> keys_sized (s_keys s) -> let h := m_exchange_hash_h (s_exchange s) in
  append_mpint [] (m_shared_secret_key (s_exchange s)) 32 = Some (str m) -> bytes_ok m -> zlen m <= 33 -> length h = 32%nat -> bytes_ok h ->
  derive_keys st s = Some (set_keys (rfc_keys m h) s).
Proof.
  intros [[Hd Hdb] _ _ _ [Hb Hh]] [[K1 K2] [K3 K4] [K5 K6] [K7 K8] [K9 K10]] h Em Hm Hz Hl Hhb. unfold derive_keys. fold h. rewrite Em. cbn [mbind option_bind].
  assert (forall X out n, byte_ok X -> length out = n -> (n <= 32)%nat -> derive_key (k_sha256 st) (k_buf st) (k_hash st) (str m) h h X out (Z.of_nat n) = Some (rfc_key m h X n)) as D.
  { intros X out n HX Ho Hn. apply derive_key_spec; try done; [by apply str_ok|]. rewrite zlen_str. unfold zlen in *. lia. }
  change 16 with (Z.of_nat 16). change 20 with (Z.of_nat 20). rewrite !D by (done || lia). cbn [mbind option_bind].
  rewrite !init_ctx_iv_spec by (done || apply rfc_key_block). done.
Qed.

Lemma le_bytes_shape n : forall v, length (le_bytes n v) = n /\ bytes_ok (le_bytes n v).
Proof.
  induction n as [|n IH]; intros v; cbn [le_bytes]; [split; [done|constructor]|]. destruct (IH (v / 256)) as [Hl Hb]. split; [cbn [length]; by rewrite Hl|].
  constructor; [|done]. apply Z.mod_pos_bound. lia.
Qed.

Lemma X25519_shape k u : length (X25519 k u) = 32%nat /\ bytes_ok (X25519 k u).
Proof.
  unfold X25519. generalize (rfc_ladder (decodeUCoordinate u) (decodeScalar25519 k) 255). intros [swap [[[x2 z2] x3] z3]]. destruct (cswap swap x2 x3) as [a b]. destruct (cswap swap z2 z3) as [c d].
  apply le_bytes_shape.
Qed.

#[local] Opaque X25519.

Lemma reply_spec {W} `{Net W} {R} (rand : R -> Z * R) st sign s pub priv r (n : W) : let x := s_exchange s in
  stack_ok st -> length (m_shared_secret_key x) = 32%nat -> length (m_exchange_hash_h x) = 32%nat -> length (client_pubkey x) = 32%nat -> bytes_ok (client_pubkey x) ->
  Forall (fun t => bytes_ok t /\ zlen t < 268435456) [m_client_version x; m_server_version x; m_client_kexinit x; m_server_kexinit x] ->
  bytes_ok pub -> zlen pub < 65536 -> bytes_ok priv -> 32 <= zlen priv ->
  (forall h, zlen (sign h pub priv) < 65536) ->
  let e := take 32 priv in let k := X25519 e (client_pubkey x) in let q := X25519 e base in let blob := str host_key_name ++ str pub in
  exists m, append_mpint [] k 32 = Some (str m) /\ mpint_bytes m /\ zlen m <= 33 /\ be_val m = be_val k /\
    let h := fips_sha256 (exchange_text (m_client_version x) (m_server_version x) (m_client_kexinit x) (m_server_kexinit x) blob (client_pubkey x) q m) in
    prepare_server_ecdh_reply rand st sign s pub priv r n =
      Some ([SSH2_MSG_KEXDH_REPLY] ++ str blob ++ str q ++ str (str host_key_name ++ str (sign h pub priv)), set_exchange (set_secrets q e k h x) s, r, yields 4 n).
Proof.
  intros x Hst Hkl Hhl Hql Hqb Ht Hpb Hpz Hvb Hvz Hsign e k q blob. assert (length e = 32%nat) as Hel by (unfold e; rewrite length_take; unfold zlen in Hvz; lia).
  assert (bytes_ok e) as Heb by (by apply Forall_take). assert (length k = 32%nat /\ bytes_ok k /\ length q = 32%nat /\ bytes_ok q) as (Hkl' & Hkb & Hql' & Hqb').
  { split; [apply X25519_shape|]. split; [apply X25519_shape|]. apply X25519_shape. }
  destruct (append_mpint_spec [] k [] Hkb) as (m & Em & Hm & Ev); [unfold zlen; lia|]. rewrite app_nil_r in Em. unfold zlen in Em. rewrite Hkl' in Em. change (Z.of_nat 32) with 32 in Em. cbn [app] in Em.
  pose proof (mpint_short m k Hm Hkb Ev) as Hmz. unfold zlen in Hmz at 2. rewrite Hkl' in Hmz. exists m. split; [done|]. split; [done|]. split; [lia|]. split; [done|]. intros h.
  unfold prepare_server_ecdh_reply. fold x. unfold create_server_ephemeral_keys. destruct (Z.geb_spec (zlen priv) 32); [|lia].
  rewrite keypair_with_ed25519privkey_spec by (done || unfold zlen in Hvz; lia). change (9 :: replicate 31 0) with base. fold e q. cbn [mbind option_bind].
  rewrite scalarmult_x25519 by done. fold k. cbn [mbind option_bind]. rewrite !(append_ssh_string_str [] host_key_name), !(append_ssh_string_str ([] ++ str host_key_name)) by (apply Hsign || done || lia).
  cbn [app]. fold blob. assert (bytes_ok blob /\ zlen blob < 268435456) as [Hbb Hbz].
  { unfold blob. split; [apply Forall_app_2; apply str_ok; [repeat constructor; lia|done]|]. rewrite zlen_app, !zlen_str. change (zlen host_key_name) with 11. lia. }
  assert (Forall (fun t => bytes_ok t /\ zlen t < 268435456) [m_client_version x; m_server_version x; m_client_kexinit x; m_server_kexinit x; blob; client_pubkey x; q]) as Ht'.
  { apply (Forall_app_2 _ [_; _; _; _] [_; _; _] Ht). do 3 (apply Forall_cons_2; [split; [done|unfold zlen in *; lia]|]). constructor. }
  destruct Hst as [[Hd Hdb] _ _ _ _]. rewrite (exchange_hash_spec _ _ _ _ _ _ _ _ _ _ m Hd Hdb Hhl Ht' Em (proj1 Hm)) by lia.
  fold h. cbn [mbind option_bind]. pose proof (Hsign h) as Hsh. pose proof (zlen_nonneg (sign h pub priv)).
  assert (zlen q = 32) as Hqz by (unfold zlen; lia). assert (zlen (str host_key_name ++ str (sign h pub priv)) < 4294967296) by (rewrite zlen_app, !zlen_str; change (zlen host_key_name) with 11; lia).
  rewrite (append_ssh_string_str _ blob), (append_ssh_string_str _ q), (append_ssh_string_str (str host_key_name)), append_ssh_string_str by lia. by rewrite <- !app_assoc.
Qed.


Lemma plain_login {B} `{iFileSystem B} {R} (rand : R -> Z * R) st spin sshclient s (w : world B R) u svc b pw pad later n v l m l' :
  let payload := [SSH2_MSG_USERAUTH_REQUEST] ++ str u ++ str svc ++ str password_method ++ [b] ++ str pw in
  m_state s = SESSION_STATE_NEWKEYS_RECEIVED -> bytes_ok payload -> zlen payload < 2147483000 -> bytes_ok pad -> zlen pad < 256 ->
  sim_in n = framed payload pad ++ later -> 5 <= sim_accept n -> 1 < zlen u -> no_nul u -> 1 < zlen pw -> no_nul pw ->
  isAuthorized (w_fs w) (w_sessions w) (w_auth w) (w_locals w) (w_now w) (Some u) (Some pw) = Some (true, v, l) ->
  setAuthorized v (attach (w_sessions w) (Some sshclient)).2 l (w_now w) (w_millis w) true = Some (m, l') ->
  exists s' w' n', handleAuthentication rand st spin sshclient s w n = Some (s', w', n') /\ m_state s' = SESSION_STATE_CHANNEL_REQUEST /\ s_keys s' = s_keys s /\
    w_sessions w' = m /\ w_auth w' = l'.
Proof.
  intros payload Hs Hb Hz Hpb Hpz Hin Hacc Hu1 Hu2 Hp1 Hp2 Hauth Hset. unfold handleAuthentication. rewrite Hs. change (state_number SESSION_STATE_NEWKEYS_RECEIVED >? _) with false. cbv iota.
  destruct (received_spec s SSH2_MSG_USERAUTH_REQUEST (tl payload) pad later n Hb ltac:(done) Hpb Hpz ltac:(change (_ :: tl payload) with payload; lia) Hin) as (n1 & -> & _ & _ & Ha1).
  set (s1 := set_seq _ _ _). cbn [mbind option_bind]. change (0 =? 0) with true. change (mget (m_sshpacket s1) 0) with (Some SSH2_MSG_USERAUTH_REQUEST). cbn [mbind option_bind].
  change (SSH2_MSG_USERAUTH_REQUEST =? SSH2_MSG_NEWKEYS) with false. change (SSH2_MSG_USERAUTH_REQUEST =? SSH2_MSG_SERVICE_REQUEST) with false.
  change (SSH2_MSG_USERAUTH_REQUEST =? SSH2_MSG_USERAUTH_REQUEST) with true. cbv iota. unfold handle_userauth. change (m_sshpacket s1) with payload.
  pose proof (parse_userauth_password u svc b pw []) as Er. rewrite app_nil_r in Er. change ([50] ++ _) with payload in Er. rewrite Er by lia. cbn [mbind option_bind].
  unfold check_request, check_password. cbn [ua_username ua_password]. destruct (Z.gtb_spec (zlen u) 1), (Z.gtb_spec (zlen pw) 1); try lia. cbn [andb]. rewrite !until_nul_text, Hauth by done. cbn [mbind option_bind negb].
  destruct (send_plain_sim rand st spin s1 [SSH2_MSG_USERAUTH_SUCCESS] true (set_auth l (set_fs v w)) n1) as (r' & n' & E & _); [by cbn; rewrite Hs|change (zlen [SSH2_MSG_USERAUTH_SUCCESS]) with 1; lia|lia|]. rewrite E. cbn [mbind option_bind].
  cbn [w_fs w_sessions w_auth w_now w_millis set_sessions set_auth set_fs set_rand set_rng]. rewrite Hset. cbn [mbind option_bind]. eexists _, _, _. split; [done|]. done.
Qed.

(** The reply to the client's key, over a network that takes it. *)
Lemma reply_call {B} `{iFileSystem B} {R} (rand : R -> Z * R) st spin sign c hc acc ch s (w : world B R) n pub priv : let x := s_exchange s in
  m_state s = SESSION_STATE_KEXDH_INIT_SEND -> sim_up n = true -> getSSHKeyPairs st w = Some (Some (pub, priv)) ->
  stack_ok st -> length (m_shared_secret_key x) = 32%nat -> length (m_exchange_hash_h x) = 32%nat -> length (client_pubkey x) = 32%nat -> bytes_ok (client_pubkey x) ->
  Forall (fun t => bytes_ok t /\ zlen t < 268435456) [m_client_version x; m_server_version x; m_client_kexinit x; m_server_kexinit x] ->
  bytes_ok pub -> zlen pub < 65536 -> bytes_ok priv -> 32 <= zlen priv -> (forall h, zlen (sign h pub priv) = 64) -> zlen pub + 147 <= sim_accept n ->
  exists s' w' n', handle rand st spin sign c hc acc ch (mkServer (Some s) w n) = Some (mkServer (Some s') w' n') /\ m_state s' = SESSION_STATE_NEWKEYS_RECEIVED /\
    services w' = services w /\ sim_in n' = sim_in n /\ same_net n n'.
Proof.
  intros x Hs Hup Hkeys Hst Hkl Hhl Hql Hqb Ht Hpb Hpz Hvb Hvz Hsign Hacc. unfold handle. cbn [m_session sv_world sv_net io_connected sim_net]. rewrite Hup. unfold handle_session. rewrite Hs.
  unfold handleKeyExchange. rewrite Hs, Hkeys. cbn [mbind option_bind].
  destruct (reply_spec rand st sign s pub priv (r_state (w_rng w)) (dvc_yield n) Hst Hkl Hhl Hql Hqb Ht Hpb Hpz Hvb Hvz) as (m & _ & _ & _ & _ & E); [intros h; rewrite Hsign; lia|].
  rewrite E. cbn [mbind option_bind]. match goal with |- context [send rand st spin ?s1 ?p false ?w1 ?n1] =>
    destruct (send_plain_sim rand st spin s1 p false w1 n1) as (r' & n' & E' & Hi & Hn); [done| | |rewrite E'] end.
  - assert (zlen (X25519 (take 32 priv) base) = 32) as Hq by (unfold zlen; by rewrite (proj1 (X25519_shape _ _))).
    rewrite !zlen_app, !zlen_str, !zlen_app, !zlen_str, Hsign, Hq. change (zlen host_key_name) with 11. change (zlen [SSH2_MSG_KEXDH_REPLY]) with 1. change (sim_accept (yields 4 (dvc_yield n))) with (sim_accept n). lia.
  - change (sim_accept (yields 4 (dvc_yield n))) with (sim_accept n). pose proof (zlen_nonneg pub). lia.
  - cbn [mbind option_bind close_if negb]. eexists _, _, _. split; [reflexivity|]. split; [done|]. split; [done|]. split; [by rewrite Hi|exact Hn].
Qed.

(** ** Properties *)




(** C36: After the key exchange the server waits for [SSH2_MSG_NEWKEYS], but takes a login
    as well, in the clear: with the right name and password the client is logged in and in
    the channel state, and no key of the session has been derived. *)
Theorem ssh_login_unencrypted {B} `{iFileSystem B} {R} (rand : R -> Z * R) st spin sshclient s (w : world B R) u svc b pw pad later n v l m l' :
  let payload := [SSH2_MSG_USERAUTH_REQUEST] ++ str u ++ str svc ++ str password_method ++ [b] ++ str pw in
  m_state s = SESSION_STATE_NEWKEYS_RECEIVED -> bytes_ok payload -> zlen payload < 2147483000 -> bytes_ok pad -> zlen pad < 256 ->
  sim_in n = framed payload pad ++ later -> 5 <= sim_accept n -> 1 < zlen u -> no_nul u -> 1 < zlen pw -> no_nul pw ->
  isAuthorized (w_fs w) (w_sessions w) (w_auth w) (w_locals w) (w_now w) (Some u) (Some pw) = Some (true, v, l) ->
  setAuthorized v (attach (w_sessions w) (Some sshclient)).2 l (w_now w) (w_millis w) true = Some (m, l') ->
  exists s' w' n', handleAuthentication rand st spin sshclient s w n = Some (s', w', n') /\ m_state s' = SESSION_STATE_CHANNEL_REQUEST /\ s_keys s' = s_keys s /\
    w_sessions w' = m /\ w_auth w' = l'.
Proof. apply plain_login. Qed.


(** ** Witnesses *)

Definition demo_stack : stack := mkStack (mk256 (replicate 64 7) 3 5 (replicate 8 1)) (mkSHA1 [] 3 5 (replicate 64 7)) (replicate 20 9) (replicate 20 9) (replicate 20 9) (replicate 16 9)
  (replicate 1024 9) (replicate 32 9) (replicate 64 9) (mkAES (replicate 176 0) (replicate 16 0)).

Lemma demo_stack_ok : stack_ok demo_stack.
Proof. split; repeat split; try (apply Forall_replicate; split; lia). Qed.

(** A session whose six keys are zero, and which has logged in. *)
Definition demo_session : LWSSHSession := set_state SESSION_STATE_CHANNEL_REQUEST (new_session demo_stack).

Lemma demo_in_step : in_step demo_session demo_session.
Proof. split; try done; repeat split; try (apply Forall_replicate; split; lia). Qed.

(** A server with host keys in [/.ssh], and a client that sends its version, the two
    messages of the key exchange and a login, one after the other. *)
#[local] Existing Instance UserStore.device_fs.
#[local] Existing Instance TmpFs.tmpfs_fs.

Definition demo_state : Type := server (W := SimNet) (B := LittleFs.ram + list TmpFs.tmpfs_node) (R := Z).

Definition key_path : list Z := [47] ++ SSH_DEFAULT_DIR ++ [47] ++ SSH_KEY_ALGO_ED25519_STR.

Definition host_store : Vfs.VfsDispatcher (LittleFs.ram + list TmpFs.tmpfs_node) :=
  store_of (<[USER_STORE_PASSWD_PATH := demo_passwd]> (<[key_path := replicate 64 77]> {[ key_path ++ [46; 112; 117; 98] := replicate 32 78 ]})).

Definition host_world : world (LittleFs.ram + list TmpFs.tmpfs_node) Z :=
  mkWorld host_store (attached 2) bob_auth FsImpl.initial_dirs (mkRng false 0) 9 5 demo_locals false.

Definition login_request : list Z := [SSH2_MSG_USERAUTH_REQUEST] ++ str bob_name ++ str userauth_service ++ str password_method ++ [0] ++ str [112; 119].

Definition client_bytes : list Z :=
  [83; 83; 72; 45; 50; 46; 48; 45; 120; 13; 10] ++ framed (kexinit_text (replicate 16 1) server_lists 0 0) [0; 0; 0; 0] ++
  framed ([SSH2_MSG_KEXDH_INIT] ++ str base) [0; 0; 0; 0] ++ framed login_request [0; 0; 0; 0].

Definition demo_server : demo_state := mkServer None host_world (mkSim true client_bytes [] [] 4096 0).

Definition demo_call : demo_state -> option demo_state :=
  handle (fun x : Z => (x, x + 1)) demo_stack 3000 (fun _ _ _ => replicate 64 1) 7 (fun w => (true, w)) id (fun s w n => Some (s, w, n)).

(** The states after so many calls, newest first. *)
Fixpoint demo_calls (k : nat) (tr : list demo_state) : option (list demo_state) :=
  match k, tr with
  | O, _ => Some tr
  | S k, sv :: _ => sv' <- demo_call sv;; demo_calls k (sv' :: tr)
  | S _, [] => None
  end.

Definition demo_history : list demo_state -> Prop :=
  history (fun x : Z => (x, x + 1)) demo_stack 3000 (fun _ _ _ => replicate 64 1) 7 (fun w => (true, w)) id (fun s w n => Some (s, w, n)).

Lemma demo_calls_history k : forall tr tr', demo_history tr -> demo_calls k tr = Some tr' -> demo_history tr'.
Proof.
  induction k as [|k IH]; intros tr tr' Hh E; cbn [demo_calls] in E; [by injection E as <-|]. destruct tr as [|sv tr]; [done|]. destruct (demo_call sv) as [sv'|] eqn:Es; [|done].
  eapply IH; [|exact E]. unfold demo_history. by apply history_call.
Qed.

(** Everything that the reply and the login ask for. *)
Definition login_ready (sv : demo_state) (s : LWSSHSession) : bool :=
  let x := s_exchange s in let w := sv_world sv in
  bool_decide (m_state s = SESSION_STATE_KEXDH_INIT_SEND) && bool_decide (sim_up (sv_net sv) = true) &&
  bool_decide (getSSHKeyPairs demo_stack w = Some (Some (replicate 32 78, replicate 64 77))) &&
  bool_decide (length (m_shared_secret_key x) = 32%nat) && bool_decide (length (m_exchange_hash_h x) = 32%nat) && bool_decide (client_pubkey x = base) &&
  bool_decide (Forall (fun t => Forall (fun c => 0 <= c < 256) t /\ zlen t < 268435456) [m_client_version x; m_server_version x; m_client_kexinit x; m_server_kexinit x]) &&
  bool_decide (sim_accept (sv_net sv) = 4096) && bool_decide (sim_in (sv_net sv) = framed login_request [0; 0; 0; 0]) &&
  match isAuthorized (w_fs w) (w_sessions w) (w_auth w) (w_locals w) (w_now w) (Some bob_name) (Some [112; 119]) with
  | Some (true, v, l) => bool_decide (is_Some (setAuthorized v (attach (w_sessions w) (Some 7%nat)).2 l (w_now w) (w_millis w) true))
  | _ => false
  end.

Lemma demo_ready : exists sv tr s, demo_calls 4 [demo_server] = Some (sv :: tr) /\ m_session sv = Some s /\ login_ready sv s = true.
Proof.
  assert (match demo_calls 4 [demo_server] with Some (sv :: _) => match m_session sv with Some s => login_ready sv s | None => false end | _ => false end = true) as Hr by (vm_compute; reflexivity).
  destruct (demo_calls 4 [demo_server]) as [[|sv tr]|]; try done. destruct (m_session sv) as [s|] eqn:Es; [|done]. by exists sv, tr, s.
Qed.

Lemma login_request_ok : bytes_ok login_request.
Proof. apply (bool_decide_unpack (Forall (fun c => 0 <= c < 256) login_request)). by vm_compute. Qed.

(** The client of the example logs in. *)
Lemma demo_login : exists sv tr, demo_history (sv :: tr) /\ in_channel sv.
Proof.
  destruct demo_ready as (sv & tr & s & E4 & Es & Hr). assert (demo_history (sv :: tr)) as Hh by (apply (demo_calls_history 4 [demo_server]); [by apply history_start|done]). clear E4.
  unfold login_ready in Hr. repeat rewrite andb_True in Hr || apply andb_true_iff in Hr as [Hr ?]. apply bool_decide_eq_true_1 in Hr.
  repeat match goal with H : bool_decide _ = true |- _ => apply bool_decide_eq_true_1 in H end.
  destruct sv as [ms w n]. cbn [m_session sv_world sv_net] in *. subst ms.
  match goal with H : match ?i with Some _ => _ | None => _ end = true |- _ => destruct i as [[[[] v] l]|] eqn:Ea; try done; apply bool_decide_eq_true_1 in H as [[m l'] Eset] end.
  destruct (reply_call (fun x : Z => (x, x + 1)) demo_stack 3000 (fun _ _ _ => replicate 64 1) 7 (fun w => (true, w)) id (fun s w n => Some (s, w, n)) s w n (replicate 32 78) (replicate 64 77))
    as (s1 & w1 & n1 & E1 & Hs1 & Hw1 & Hi1 & Hu1 & Ha1); try done; try congruence; try (apply Forall_replicate; split; lia).
  - apply demo_stack_ok.
  - match goal with E : client_pubkey _ = base |- _ => by rewrite E end.
  - match goal with E : client_pubkey _ = base |- _ => rewrite E end. apply Forall_cons_2; [split; lia|]. apply Forall_replicate. split; lia.
  - match goal with E : sim_accept n = _ |- _ => rewrite E end. by vm_compute.
  - unfold demo_history in *. injection Hw1 as W1 W2 W3 W4 W5 W6 W7. rewrite <- W1, <- W2, <- W3, <- W5, <- W6 in Ea. rewrite <- W2, <- W6, <- W7 in Eset.
    destruct (plain_login (fun x : Z => (x, x + 1)) demo_stack 3000 7 s1 w1 bob_name userauth_service 0 [112; 119] [0; 0; 0; 0] [] n1 v l m l' Hs1 login_request_ok)
      as (s2 & w2 & n2 & E2 & Hs2 & _); [by vm_compute|apply (Forall_replicate _ 4); split; lia|by vm_compute|change (sim_in n1 = framed login_request [0; 0; 0; 0] ++ []); rewrite app_nil_r; congruence|lia|by vm_compute|by repeat constructor|by vm_compute|by repeat constructor|done|done|].
    assert (demo_call (mkServer (Some s1) w1 n1) = Some (mkServer (Some s2) w2 n2)) as E3.
    { unfold demo_call, handle. cbn [m_session sv_world sv_net io_connected sim_net]. replace (sim_up n1) with true by congruence. unfold handle_session. rewrite Hs1, E2. done. }
    exists (mkServer (Some s2) w2 n2), (mkServer (Some s1) w1 n1 :: mkServer (Some s) w n :: tr). split; [|by exists s2]. apply history_call; [|done]. by apply history_call.
Qed.



(** A session that has the key of a client. *)
Definition keyed_session : LWSSHSession := set_exchange (set_client_pubkey base (s_exchange (new_session demo_stack))) (new_session demo_stack).

Lemma keyed_sized : keys_sized (s_keys keyed_session).
Proof. by repeat split. Qed.


Lemma demo_accepts : exists v l m l', isAuthorized (w_fs host_world) (w_sessions host_world) (w_auth host_world) (w_locals host_world) (w_now host_world) (Some bob_name) (Some [112; 119]) = Some (true, v, l) /\
  setAuthorized v (attach (w_sessions host_world) (Some 7%nat)).2 l (w_now host_world) (w_millis host_world) true = Some (m, l').
Proof.
  assert (match isAuthorized (w_fs host_world) (w_sessions host_world) (w_auth host_world) (w_locals host_world) (w_now host_world) (Some bob_name) (Some [112; 119]) with
    | Some (true, v, l) => bool_decide (is_Some (setAuthorized v (attach (w_sessions host_world) (Some 7%nat)).2 l (w_now host_world) (w_millis host_world) true)) | _ => false end = true) as Hr by (vm_compute; reflexivity).
  destruct (isAuthorized _ _ _ _ _ _ _) as [[[[] v] l]|]; try done. apply bool_decide_eq_true_1 in Hr as [[m l'] E]. by exists v, l, m, l'.
Qed.

Lemma ssh_login_unencrypted_witness : exists s' w' n',
  handleAuthentication (fun x : Z => (x, x + 1)) demo_stack 3000 7 (set_state SESSION_STATE_NEWKEYS_RECEIVED (new_session demo_stack)) host_world
    (mkSim true (framed login_request [0; 0; 0; 0] ++ [9]) [] [] 4096 0) = Some (s', w', n') /\ m_state s' = SESSION_STATE_CHANNEL_REQUEST /\ derived_mac_key_ctos (s_keys s') = replicate 20 0.
Proof.
  destruct demo_accepts as (v & l & m & l' & Ea & Es).
  destruct (ssh_login_unencrypted (fun x : Z => (x, x + 1)) demo_stack 3000 7 (set_state SESSION_STATE_NEWKEYS_RECEIVED (new_session demo_stack)) host_world bob_name userauth_service 0 [112; 119]
    [0; 0; 0; 0] [9] (mkSim true (framed login_request [0; 0; 0; 0] ++ [9]) [] [] 4096 0) v l m l' ltac:(reflexivity) login_request_ok ltac:(reflexivity) ltac:(apply (Forall_replicate _ 4); split; lia)
    ltac:(reflexivity) ltac:(reflexivity) ltac:(cbn; lia) ltac:(reflexivity) ltac:(by repeat constructor) ltac:(reflexivity) ltac:(by repeat constructor) Ea Es) as (s' & w' & n' & E & Hs & Hk & _).
  exists s', w', n'. split; [exact E|]. split; [exact Hs|]. rewrite Hk. reflexivity.
Defined.


End SshServer.
